(* ===== verification/_CoqProject ===== *)
-Q . S2P
Prelude.v
SysErr.v
UserMem.v
RecordLock.v
RecordLockSys.v
Skb.v
Checksum.v
Wire.v
NetState.v
Neighbor.v
IpOut.v
Udp.v
Pmtu.v
Tcp.v
Ip.v
Dns.v
FrameAlloc.v
FrameInv.v
FrameOps.v
FrameSpec.v
FrameCache.v
FrameTok.v
FrameCacheInv.v
FrameCacheSpec.v
PipeRing.v
PipeRingSpec.v
Pipe.v
PipeSpec.v
PipeSys.v
PipeMain.v
TcpSock.v
TcpSockSpec.v
TcpSockSys.v
TcpSockInv.v
TcpSendSpec.v
TcpSockMain.v
Futex.v
FutexSys.v
FutexSpec.v
FutexInv.v
FutexStep.v
FutexWait.v
FutexPi.v
FutexMain.v
SleepMutex.v
SleepMutexSpec.v
SleepMutexMain.v
Inotify.v
InotifySpec.v
InotifyMain.v
Sched.v
SchedSys.v
SchedSpec.v
SchedInv.v
SchedLive.v
SchedPlace.v
SchedMain.v
Vm.v
VmSpec.v
VmSys.v
VmMap.v
VmProt.v
VmProtSpec.v
VmFault.v
VmWorld.v
VmCow.v
VmFaultSpec.v
VmFileFault.v
VmGrow.v
VmTrap.v
VmFork.v
VmForkSpec.v
VmMmap.v
VmMain.v
VmSafe.v
VmWitness.v
VmFindings.v
VmUser.v
VmUserSpec.v
VmUserSafe.v
