(* ===== verification/Prelude.v ===== *)
(** * Kairix kernel: a verification development

    Kairix is a monolithic kernel in Rust for RISC-V and LoongArch.  This
    library is a shallow embedding of a part of it (paths below are relative
    to the repository's [os/src]), with the theorems that make that part
    correct.  It is organised from the bottom up; every file opens with a
    description of what it holds.

    ** The parts and the files

    - [Prelude] (this file): machine integers with their wrap-around, native
      and big-endian byte strings, [result] and its monad, list access by
      index, and the tactics and hints the other files use.
    - [SysErr]: error.rs.  [SysError] with its discriminants, [TryFrom<i32>],
      and the negated return value of a failed system call.
    - [UserMem]: the interface through which system calls copy structures
      from and to user space, with a flat memory as an instance.
    - [RecordLock], [RecordLockSys]: syscall/fs/record_lock.rs.  The first
      holds the lock table (POSIX byte ranges, whole-file locks, wait queues),
      the second the system calls [fcntl_record_lock] and [sys_flock] and the
      release paths of [close] and process exit.
    - [Skb], [Checksum], [Wire]: net/skb.rs, the four checksum routines, and
      the packed protocol headers of net/*.rs.
    - [NetState]: the [static] variables of the network stack as one record
      [Net], net/route.rs, the start-up of net/mod.rs, local addresses of
      net/ip.rs, and the interfaces [NetDevices] (trait [NetDevice] of
      net/device.rs) and [TcpSocketLayer] (the entry points of socket/tcp.rs
      that net/tcp.rs and net/icmp.rs call).
    - [Neighbor]: net/arp.rs and net/neighbor.rs.
    - [IpOut]: [ip_queue_xmit] of net/ip.rs.
    - [Udp]: net/udp.rs, socket/udp.rs, socket/raw.rs.
    - [Pmtu], [Tcp]: net/tcp.rs, the path MTU cache first, then segments and
      the kernel echo service.
    - [Ip]: net/icmp.rs, [ip_rcv] of net/ip.rs, net/ethernet.rs: the receive
      path that calls all of the above, and the end-to-end theorems.
    - [Dns]: net/dns.rs, a client of UDP sockets.
    - [FrameAlloc], [FrameInv], [FrameOps], [FrameSpec]: the buddy allocator
      of mm/frame_allocator.rs with its free lists in the free frames, the
      invariant, its preservation, and the theorems.
    - [FrameCache], [FrameTok], [FrameCacheInv], [FrameCacheSpec]: the per-CPU
      caches of free, dirty and cleared frames of the same file, over the
      allocator, and who owns each frame.
    - [PipeRing], [PipeRingSpec]: the ring buffer of fs/pipe.rs with its pages,
      and that it is a bounded queue.
    - [Pipe], [PipeSpec]: the ends of a pipe, blocking transfers, splice
      buffers and socket pairs of fs/pipe.rs, and what one turn of each does.
    - [PipeSys], [PipeMain]: the world of all pipes with its invariant, then
      the step relation of all tasks with the history of each pipe, and the
      theorems.
    - [TcpSock], [TcpSockSys]: socket/tcp.rs.  The first holds one socket with
      its queues, the second the tables of listeners and connections, the
      segment dispatcher, the retransmission timer and the calls, with [close] and
      [shutdown] of socket/mod.rs; its instance
      [tcp_sockets] implements [TcpSocketLayer].  [TcpSockSpec] is about the
      receiving side, [TcpSendSpec] about the sending side, [TcpSockInv] holds
      the invariant of the tables, and [TcpSockMain] the theorems about whole
      hosts.
    - [Futex], [FutexSys]: syscall/futex.rs.  The first holds the futex table,
      the states of priority-inheritance locks and every section of every
      operation, the second the system calls and the step relation of all
      tasks, in which sections, and what an operation does after its section,
      interleave in any order.  [FutexSpec] has the exact effect of waking,
      [FutexInv] and [FutexStep] what a section may do to the waiters, with the
      scan for timeouts, [FutexWait] the invariant of the system, [FutexPi] the
      PI locks, and [FutexMain] the theorems about the system.
    - [SleepMutex]: sync/mutex/sleep_mutex.rs, the sections of [lock],
      [try_lock] and of the guard's [drop], and the step relation of all agents;
      [SleepMutexSpec] has its invariants and [SleepMutexMain] the theorems.
    - [Inotify]: fs/notify/inotify.rs, watches, the event queue, reading and all
      notification entry points; [InotifySpec] has what each operation keeps and
      [InotifyMain] the theorems.
    - [Sched], [SchedSys]: task/manager.rs and what of task/task.rs, task/mod.rs
      and task/processor.rs decides where a task is.  The first holds tasks and
      run queues, the second placement, the sections and the step relation of all
      processors and of all calls under way.  [SchedSpec] is about one run queue,
      [SchedInv] holds the invariant of the markers, [SchedLive] that no ready task
      is lost, [SchedPlace] placement and priorities, [SchedMain] the theorems.
    - [Vm], [VmSys], [VmFault]: mm/vm_area.rs, mm/vm_set.rs, mm/heap.rs, the fault
      handlers of mm/mod.rs and trap/mod.rs, syscall/mm.rs and [sys_brk].  The
      first holds areas, page tables (a map from pages to entries) and the
      searches, the second the memory calls, the third the page faults and the
      copy-on-write [fork].  [VmSpec] has the searches, [VmMap] unmapping,
      [VmProt] and [VmProtSpec] [mprotect], [VmMmap] mapping.  [VmWorld] holds all
      address spaces with the page cache and the shared backings (a frame's
      [Arc::strong_count] is the number of its holders) and the invariant;
      [VmCow], [VmFaultSpec], [VmFileFault], [VmGrow], [VmTrap] show that calls and
      faults keep it and that faults make progress, [VmFork] and [VmForkSpec]
      that [fork] keeps it.  [VmMain] is the step relation of all
      processes, [VmSafe] the theorems, [VmWitness] runs of the system and
      [VmFindings] examples of where the code does not do what it means to.
    - [VmUser]: the kernel's copies to and from user memory (mm/mod.rs and
      [read_user_bytes] of syscall/fs/mod.rs), which fault on the pages they meet.
      [VmUserSpec] shows that such a fault changes nothing a process can see and
      what a copy does, [VmUserSafe] has the theorems and a copy across a page
      boundary into a forked process.

    A packet leaves through [send_udp_packet] or [tcp_send_segment], which
    call [ip_queue_xmit], [neighbour_output], and the device's
    [hard_start_xmit]; it arrives through [ethernet_rcv] (called by a device's
    [poll_rx]), which calls [arp_rcv] or [ip_rcv], and from there [icmp_rcv],
    [udp_rcv] or [tcp_rcv].  Every function of this chain is a definition
    here, under its name in the source.

    ** How the code is rendered

    A [w]-bit integer is a [Z], and [u8], [u16], [u32], [usize] write the
    wrap-around where the source's arithmetic can wrap (the kernel is built
    with [--release], so overflow is not trapped).  A header field holds the
    natively loaded value, as in the source, and [from_be16] and the like are
    applied where the source applies them.  A [static Mutex<T>] is a field of
    a state record, passed explicitly; an [Arc<Mutex<T>>] is an identity in a
    store, so that a table and the holders of a handle share one object; a
    [Weak] is an identity with a liveness test.  Fallible code returns
    [result]; a Rust panic (index out of range, [unwrap] on an error) is a
    distinguished error or [None], and theorems state that it is not reached.

    Other code enters in two ways.  Code behind a trait or in a component
    that is not modelled is a type class, with laws stated separately where a
    theorem needs them ([WireLaws]: a device that takes a frame appends it to
    what it has sent; [takes]: it takes frames of a given length, as the drivers do
    up to their maximum; [DeviceDelivers]: sending and polling a device does no more
    to the stack than hand it frames through [ethernet_rcv].  The instances
    [TestWire] and [TestHost], which refuse frames of more than 1514 bytes, show
    that the laws hold of a concrete device).  A point where the scheduler runs other tasks is an
    element of a list of arbitrary transformers ([env]) in a handler, and a
    step of any task in the step relations of [RecordLockSys], [PipeMain],
    [TcpSockMain], [FutexSys], [SleepMutex] and [SchedSys].
    Reclaiming memory when no frame is free is an argument of the allocation, and
    the theorems hold for any function in its place.

    ** What the theorems show

    - File locks: no reachable state of the lock table has two conflicting
      locks, whatever system calls, wake-ups, closes and exits interleave
      ([lock_table_mutual_exclusion], by rule induction over [step]); the
      handlers, with anything running while they block, preserve the table's
      invariant ([lock_handlers_safe]); the range algebra that splits, sorts
      and merges refines a function from offsets to lock types
      ([replace_owner_range_refines]); F_GETLK predicts F_SETLK; an accepted
      change wakes the waiters; exit leaves nothing behind.
    - Network transport: a datagram or a segment that one host sends is
      delivered to the right socket of the other with its exact payload, when
      the device takes a frame of its length
      ([udp_end_to_end], [tcp_end_to_end], [ip_xmit_rcv_roundtrip]); a packet
      whose next hop is not resolved is queued within bounds and delivered by
      the ARP exchange; segmentation covers the payload exactly within the
      path MTU; the echo service and the reset rules.
    - TCP sockets: what a program reads is a prefix of the peer's stream,
      whatever the order, overlap and repetition of segments
      ([tcp_stream_delivered]), and all of it that has arrived without gap
      ([tcp_nothing_held_back]); unacknowledged data is kept and sent again
      whole ([tcp_unacked_tracked], [tcp_retransmit_exact]); the handshake of
      two hosts over the stack joins two sockets, when the addresses are resolved
      ([tcp_handshake]); no sequence of calls, closes, shutdowns and segments breaks
      the tables or panics ([tcp_sockets_safe]).
    - Checksums: the four routines compute the one's complement of one sum, up to
      the two representations of zero ([checksum_routines_agree]), a sealed message
      verifies, and a change of one word is detected.
    - DNS: the parser never indexes out of range and always terminates,
      including on compression loops; a query and the response to it round
      trip; the resolver stops after its timeout.
    - Frames: a frame has one owner at any time ([frames_exclusive]); the
      allocator refuses only when there is no frame, or no extent, to be had
      ([frame_alloc_complete], [extent_alloc_complete]).  Of the caches, for calls
      that run one at a time: a frame without an owner is found wherever it is
      cached ([frame_alloc_correct]); a frame handed out is cleared or copied; the
      caches neither lose nor duplicate frames; the statistics are exact; no
      operation on a consistent state panics.
    - Pipes: what was read followed by what is stored is what was written
      ([pipe_stream]); no wake-up is lost ([pipe_no_lost_wakeup]); pages are
      held exactly where there is data ([pipe_pages_exact]); reads, writes,
      splices and resizes have their exact effect, and whole calls return with
      the invariant whatever the other tasks do.
    - Futexes: a task that sleeps is in the table with its deadline, or about
      to be told, or told and runnable, whatever interleaves, unless a failing
      exchange of FUTEX_UNLOCK_PI has dropped it ([futex_no_lost_wakeup],
      [unlock_pi_race_drops_waiter]); a deadline that has passed is not overlooked
      ([futex_timeouts_fire]) and is computed without overflow
      ([futex_deadline_exact]); a waiter and a waker cannot miss each other
      ([futex_wait_wake_race]); FUTEX_WAKE, FUTEX_REQUEUE and FUTEX_WAKE_OP have
      their exact effect; a PI lock is never stolen, goes to the highest
      priority, and propagation of priorities ends ([pi_lock_never_stolen],
      [futex_unlock_pi_exact], [pi_boost_terminates]).
    - The blocking mutex: one holder at a time and no failed assertion, whatever
      wakes a blocked task ([sleeplock_mutual_exclusion]); the mutex is never free
      while everybody sleeps, in the runs that leave no stale entry of a task in the
      queue ([clean]; [sleeplock_no_lost_wakeup],
      [sleeplock_stale_entry_loses_wakeup] is what happens otherwise); the eighth release reserves it for the oldest waiter
      ([sleeplock_fair_handoff]).
    - Inotify: every instance queues exactly the events its watches are owed
      ([inotify_delivery]); a watch does not go unannounced
      ([inotify_gone_announced]); what is read decodes to the oldest events
      ([inotify_read_roundtrip]); no reader sleeps while there are events
      ([inotify_reader_woken]); the overflow mark and the descriptors
      ([inotify_instance_invariant]); the bound on the queue
      ([inotify_queue_bounded]).
    - The scheduler: a task is in one queue at most and claimed by one processor
      at most ([sched_exclusive]); a ready task is not lost and no wake-up is, but
      for a task that is group-stopped, or that a processor lets go of after it has
      become ready again between being skipped and released
      ([sched_ready_not_lost], [sched_wakeup_not_lost], over the steps [spared];
      [sched_skip_loses_task] and [sched_stop_loses_task] are what happens
      otherwise); counters and capacities
      are exact ([sched_counts_exact]); which task is picked, and where a task is
      placed ([sched_pick_order], [sched_placement]).
    - Virtual memory: after any sequence of faults, memory calls, forks and exits
      within the guards below, and without [brk] and [mremap], the
      page tables agree with the areas ([vm_entries_within_areas]); a store to a
      private page is seen by nobody else ([vm_private_stores_isolated]); [fork]
      copies the memory ([fork_copies_memory]); [munmap], [mprotect] and [mmap] have
      their exact effect on every page, from any state with the invariant
      ([munmap_exact], [mprotect_exact], [mmap_exact]); the binary searches and the search for a free range agree with
      scans ([vm_searches_exact]); a fault of an allowed access makes the access
      succeed ([page_fault_resolves]).  A copy of the kernel to private user memory
      changes exactly the bytes of its range, for all processes
      ([user_copy_exact]); reads return what the process sees
      ([user_read_exact], [user_string_exact]), a copy is read back ([user_copy_roundtrip]), and an access that the areas
      allow succeeds ([user_access_succeeds]).  The steps have four guards, each of which an
      example of [VmFindings] shows to be needed: a fault on a copy-on-write page
      is not due to a stale translation ([genuine]); stacks do not map files
      ([stacks_plain]); a [MAP_FIXED] range does not meet a trap context
      ([fixed_clear]); [mprotect] does not make a private file mapping writable
      while none of its pages are shared ([mprotect_safe]).
    - Error codes: the encoding of errors in the return register is
      injective, and which codes [TryFrom] inverts.

    ** Fuel

    A loop that is not structural carries fuel, and each has a theorem that
    its fuel suffices: [fold_loop] needs three turns for the sums that a
    buffer can produce; [tcp_send_loop] has one turn per payload byte, and
    each turn sends at least one; [read_name_loop] has one turn per byte of
    the message plus one, as its own guard on compression jumps bounds it;
    [wait_response] has one turn per poll and a strictly increasing clock;
    the handlers' wait loops consume their [env]; [merge_loop] has one turn
    per order of block, [insert_recycled_loop] one per frame; the loops over a
    ring have one turn per byte asked for, and each moves at least one; a round
    over several slices has one turn per byte and one per slice;
    [drain_out_of_order] has one turn per held segment; [chunk_loop] and
    [send_loop] one per byte; [boost_loop] visits each owner of a lock at most
    once ([boost_fuel]); each turn of [timeout_loop] but the last takes a waiter
    out; [commit_loop] has one turn per selected waiter; [robust_loop] has the
    source's own limit of 2048 nodes; the binary searches over areas have one turn
    per area and one turn halves the range; [mprotect_update] has one turn per
    area and one more, as one turn may extend a prefix without advancing;
    [translate_pages] has one turn per page of the range, [resolve_attempts] the
    source's own limit of three faults; [claim_loop], [rotate], [age_level] and
    [age_rounds] have the bounds of the source's own [for] loops.

    ** What is not modelled

    Device drivers, context switches, the walk of the levels of a page table and
    boot code program hardware.  Vendored crates and the user programs are not
    part of the kernel's logic.  Of virtual memory, swap, the ELF loader (what it
    builds is any state with the invariant), [mlock], [msync], [shmat] and the
    kernel's own address space are left out; [brk] and [mremap] are modelled but are
    no steps of the system, since they break its invariant ([brk_leaves_page],
    [brk_overlaps_neighbour], [mremap_skips_dirty], [mremap_offset_overflow]).
    The virtual file system, the page cache with memory reclaim, processes, signals and timers are listed in the manifest. *)

From Stdlib Require Export ZArith Lia.
From stdpp Require Export base gmap strings numbers option list.

Open Scope Z_scope.

(** ** Fixed-width integers

    A [w]-bit unsigned Rust integer is a [Z] in [[0, 2^w)]; the kernel is
    built with [--release], so [+], [-] and [*] wrap. *)

Definition wrap (w : Z) (z : Z) : Z := z mod 2 ^ w.

Abbreviation u8 := (wrap 8).
Abbreviation u16 := (wrap 16).
Abbreviation u32 := (wrap 32).
Abbreviation usize := (wrap 64).

(** Reinterpretation of a [w]-bit pattern as a two's complement integer
    ([as i16], [as i32], [as i64] in the source). *)
Definition signed (w : Z) (z : Z) : Z :=
  let r := wrap w z in if r <? 2 ^ (w - 1) then r else r - 2 ^ w.

Definition in_u (w z : Z) : Prop := 0 <= z < 2 ^ w.
Definition in_i (w z : Z) : Prop := - 2 ^ (w - 1) <= z < 2 ^ (w - 1).

(** ** Results, panics and the error monad *)

Inductive result (A E : Type) : Type :=
| Ok (a : A)
| Err (e : E).
Arguments Ok {A E} a.
Arguments Err {A E} e.

Definition is_ok {A E} (r : result A E) : bool :=
  match r with Ok _ => true | Err _ => false end.

Definition rbind {A B E} (r : result A E) (k : A -> result B E) : result B E :=
  match r with Ok a => k a | Err e => Err e end.

Definition ok_or {A E} (o : option A) (e : E) : result A E :=
  match o with Some a => Ok a | None => Err e end.

Declare Scope kairix_scope.
Delimit Scope kairix_scope with kx.
Notation "'let?' x ':=' r 'in' k" :=
  (rbind r (fun x => k)) (at level 10, x pattern, r at level 200, k at level 200) : kairix_scope.
Open Scope kairix_scope.

#[export] Instance result_eq_dec {A E} `{EqDecision A, EqDecision E} :
  EqDecision (result A E).
Proof. solve_decision. Defined.

Lemma rbind_ok {A B E} (r : result A E) (k : A -> result B E) b :
  rbind r k = Ok b <-> exists a, r = Ok a /\ k a = Ok b.
Proof.
  destruct r as [a|e]; simpl; split.
  - eauto.
  - intros (a' & Ea & ?); now injection Ea as ->.
  - done.
  - intros (? & ? & _); done.
Qed.

(** ** Tactics and hint databases *)

Create HintDb kairix.

(** Turn the boolean tests of the source into propositions. *)
Ltac to_prop :=
  repeat match goal with
  | H : _ && _ = true |- _ => apply andb_true_iff in H as [? ?]
  | H : _ && _ = false |- _ => apply andb_false_iff in H
  | H : _ || _ = true |- _ => apply orb_true_iff in H
  | H : _ || _ = false |- _ => apply orb_false_iff in H as [? ?]
  | H : negb _ = true |- _ => apply negb_true_iff in H
  | H : negb _ = false |- _ => apply negb_false_iff in H
  | H : (_ <? _)%Z = true |- _ => apply Z.ltb_lt in H
  | H : (_ <? _)%Z = false |- _ => apply Z.ltb_ge in H
  | H : (_ <=? _)%Z = true |- _ => apply Z.leb_le in H
  | H : (_ <=? _)%Z = false |- _ => apply Z.leb_gt in H
  | H : (_ =? _)%Z = true |- _ => apply Z.eqb_eq in H
  | H : (_ =? _)%Z = false |- _ => apply Z.eqb_neq in H
  | H : (_ <? _)%nat = true |- _ => apply Nat.ltb_lt in H
  | H : (_ <? _)%nat = false |- _ => apply Nat.ltb_ge in H
  | H : (_ <=? _)%nat = true |- _ => apply Nat.leb_le in H
  | H : (_ <=? _)%nat = false |- _ => apply Nat.leb_gt in H
  | H : (_ =? _)%nat = true |- _ => apply Nat.eqb_eq in H
  | H : (_ =? _)%nat = false |- _ => apply Nat.eqb_neq in H
  | H : bool_decide _ = true |- _ => apply bool_decide_eq_true in H
  | H : bool_decide _ = false |- _ => apply bool_decide_eq_false in H
  end.

(** Case on the innermost test of an [if] or [match] in the goal. *)
Ltac case_if :=
  match goal with
  | |- context [if ?b then _ else _] =>
      lazymatch b with
      | context [if _ then _ else _] => fail
      | _ => let E := fresh "E" in destruct b eqn:E
      end
  end; to_prop.

(** The same, keeping the test as a boolean equation. *)
Ltac case_raw E :=
  match goal with
  | |- context [if ?b then _ else _] =>
      lazymatch b with
      | context [if _ then _ else _] => fail
      | _ => destruct b eqn:E
      end
  end.

Ltac case_raw_in H E :=
  match type of H with
  | context [if ?b then _ else _] =>
      lazymatch b with
      | context [if _ then _ else _] => fail
      | _ => destruct b eqn:E
      end
  end.

Ltac case_if_in H :=
  match type of H with
  | context [if ?b then _ else _] =>
      lazymatch b with
      | context [if _ then _ else _] => fail
      | _ => let E := fresh "E" in destruct b eqn:E
      end
  end; to_prop.

(** [lia] with quotients and remainders turned into equations. *)
Ltac zlia := Z.div_mod_to_equations; lia.

(** ** Fixed-width lemmas *)

Lemma pow2_pos w : 0 <= w -> 0 < 2 ^ w.
Proof. intros; apply Z.pow_pos_nonneg; lia. Qed.

Lemma wrap_range w z : 0 <= w -> in_u w (wrap w z).
Proof. intros; apply Z.mod_pos_bound, pow2_pos; lia. Qed.

Lemma wrap_small w z : in_u w z -> wrap w z = z.
Proof. intros; apply Z.mod_small; exact H. Qed.

Lemma wrap_wrap w z : wrap w (wrap w z) = wrap w z.
Proof. unfold wrap; apply Zmod_mod. Qed.

Lemma wrap_add_l w a b : wrap w (wrap w a + b) = wrap w (a + b).
Proof. unfold wrap; apply Zplus_mod_idemp_l. Qed.

Lemma wrap_add_r w a b : wrap w (a + wrap w b) = wrap w (a + b).
Proof. unfold wrap; apply Zplus_mod_idemp_r. Qed.

Lemma wrap_sub_l w a b : wrap w (wrap w a - b) = wrap w (a - b).
Proof. unfold wrap; apply Zminus_mod_idemp_l. Qed.

Lemma signed_range w z : 0 < w -> in_i w (signed w z).
Proof.
  intros Hw; unfold signed, in_i.
  pose proof (wrap_range w z ltac:(lia)) as [H0 H1].
  assert (2 ^ w = 2 * 2 ^ (w - 1)) by (rewrite <- Z.pow_succ_r by lia; f_equal; lia).
  case_if; lia.
Qed.

Lemma signed_wrap w z : 0 < w -> in_i w z -> signed w (wrap w z) = z.
Proof.
  intros Hw [H0 H1]; unfold signed; rewrite wrap_wrap.
  assert (E2 : 2 ^ w = 2 * 2 ^ (w - 1)) by (rewrite <- Z.pow_succ_r by lia; f_equal; lia).
  destruct (Z.lt_ge_cases z 0).
  - replace (wrap w z) with (z + 2 ^ w).
    + case_if; lia.
    + unfold wrap; rewrite <- (Z.mod_small (z + 2 ^ w) (2 ^ w)) by lia.
      replace (z + 2 ^ w) with (z + 1 * 2 ^ w) by lia.
      now rewrite Z_mod_plus_full.
  - rewrite wrap_small by (unfold in_u; lia). case_if; lia.
Qed.

Lemma signed_id w z : 0 < w -> in_i w z -> signed w z = z.
Proof. intros. rewrite <- (signed_wrap w z) at 2 by done. unfold signed. by rewrite wrap_wrap. Qed.

Lemma signed_small w z : 0 < w -> 0 <= z < 2 ^ (w - 1) -> signed w z = z.
Proof.
  intros Hw Hz. unfold signed.
  assert (E2 : 2 ^ w = 2 * 2 ^ (w - 1)) by (rewrite <- Z.pow_succ_r by lia; f_equal; lia).
  rewrite wrap_small by (unfold in_u; lia). case_if; lia.
Qed.

Lemma wrap_signed w z : 0 < w -> wrap w (signed w z) = wrap w z.
Proof.
  intros Hw; unfold signed; case_if; [apply wrap_wrap|].
  replace (wrap w z - 2 ^ w) with (wrap w z + (-1) * 2 ^ w) by lia.
  unfold wrap at 1; rewrite Z_mod_plus_full. apply wrap_wrap.
Qed.

(** ** Bytes and byte order

    Memory is a list of bytes ([u8] values); the supported targets
    (riscv64, loongarch64) are little endian, so a native load is [le_load]
    and [from_be]/[to_be] is a byte swap. *)

Definition is_byte (b : Z) : Prop := 0 <= b < 256.
Abbreviation bytes := (list Z).
Definition is_bytes (bs : bytes) : Prop := Forall is_byte bs.

Fixpoint le_load (bs : bytes) : Z :=
  match bs with [] => 0 | b :: bs => b + 256 * le_load bs end.

Fixpoint le_store (n : nat) (z : Z) : bytes :=
  match n with O => [] | S n => z mod 256 :: le_store n (z / 256) end.

Definition be_load (bs : bytes) : Z := le_load (rev bs).
Definition be_store (n : nat) (z : Z) : bytes := rev (le_store n z).

(** [uN::from_be] and [uN::to_be] on a little-endian target. *)
Definition swap_bytes (n : nat) (z : Z) : Z := be_load (le_store n z).

Lemma le_store_length n z : length (le_store n z) = n.
Proof. revert z; induction n; intros; simpl; auto. Qed.

Lemma be_store_length n z : length (be_store n z) = n.
Proof. unfold be_store; rewrite length_rev; apply le_store_length. Qed.

Lemma le_store_bytes n z : is_bytes (le_store n z).
Proof.
  revert z; induction n; intros; simpl; constructor.
  - apply Z.mod_pos_bound; lia.
  - apply IHn.
Qed.

Lemma be_store_bytes n z : is_bytes (be_store n z).
Proof. apply Forall_rev, le_store_bytes. Qed.

Lemma pow256 n : 2 ^ (8 * Z.of_nat (S n)) = 256 * 2 ^ (8 * Z.of_nat n).
Proof.
  replace (8 * Z.of_nat (S n)) with (8 + 8 * Z.of_nat n) by lia.
  rewrite Z.pow_add_r by lia. reflexivity.
Qed.

Lemma le_load_store n z : le_load (le_store n z) = wrap (8 * Z.of_nat n) z.
Proof.
  revert z; induction n as [|n IH]; intros z.
  - simpl. unfold wrap. now rewrite Z.mod_1_r.
  - cbn [le_load le_store]. rewrite IH. unfold wrap. rewrite pow256.
    rewrite Z.rem_mul_r; [lia|lia|apply pow2_pos; lia].
Qed.

Lemma le_load_range bs : is_bytes bs -> in_u (8 * Z.of_nat (length bs)) (le_load bs).
Proof.
  induction 1 as [|b bs Hb _ IH]; [unfold in_u; simpl; lia|].
  unfold in_u, is_byte in *. cbn [le_load length]. rewrite pow256. lia.
Qed.

Lemma le_store_load bs : is_bytes bs -> le_store (length bs) (le_load bs) = bs.
Proof.
  induction 1 as [|b bs Hb _ IH]; [reflexivity|].
  cbn [le_load length le_store]. unfold is_byte in *.
  replace (b + 256 * le_load bs) with (b + le_load bs * 256) by lia.
  rewrite Z_mod_plus_full, Z_div_plus_full by lia.
  rewrite Z.mod_small, Z.div_small by lia. now rewrite Z.add_0_l, IH.
Qed.

Lemma be_load_store n z : be_load (be_store n z) = wrap (8 * Z.of_nat n) z.
Proof. unfold be_load, be_store. rewrite rev_involutive. apply le_load_store. Qed.

Lemma be_load_range bs : is_bytes bs -> in_u (8 * Z.of_nat (length bs)) (be_load bs).
Proof.
  intros; unfold be_load. rewrite <- length_rev. apply le_load_range, Forall_rev, H.
Qed.

Lemma be_store_load bs : is_bytes bs -> be_store (length bs) (be_load bs) = bs.
Proof.
  intros H; unfold be_store, be_load.
  rewrite <- length_rev, le_store_load by (now apply Forall_rev).
  apply rev_involutive.
Qed.

(** A field loaded natively and then passed through [from_be] is the
    big-endian value of its bytes; stored through [to_be] it is the
    big-endian encoding. *)
Lemma from_be_load n bs :
  is_bytes bs -> length bs = n -> swap_bytes n (le_load bs) = be_load bs.
Proof. intros H <-; unfold swap_bytes. now rewrite le_store_load. Qed.

Lemma to_be_store n z : le_store n (swap_bytes n z) = be_store n z.
Proof.
  unfold swap_bytes, be_load, be_store.
  rewrite <- (le_store_load (rev (le_store n z))) at 2.
  - now rewrite length_rev, le_store_length.
  - apply Forall_rev, le_store_bytes.
Qed.

(** [polyhal::consts::PAGE_SIZE]. *)
Definition PAGE_SIZE : Z := 4096.

(** ** Slices *)

(** [&data[a..b]] when [a <= b <= data.len()]. *)
Definition slice {A} (a b : nat) (l : list A) : list A := take (b - a) (drop a l).

(** [data[a..a + src.len()].copy_from_slice(src)] in range. *)
Definition splice {A} (a : nat) (src l : list A) : list A :=
  take a l ++ src ++ drop (a + length src) l.

Definition byte_at (i : nat) (bs : bytes) : Z := nth i bs 0.

Lemma slice_length {A} a b (l : list A) :
  (b <= length l)%nat -> length (slice a b l) = (b - a)%nat.
Proof. intros; unfold slice. rewrite length_take, length_drop. lia. Qed.

Lemma slice_all {A} (l : list A) n : (length l <= n)%nat -> slice 0 n l = l.
Proof. intros; unfold slice. rewrite drop_0, Nat.sub_0_r. apply take_ge; lia. Qed.

Lemma splice_length {A} a (src l : list A) :
  (a + length src <= length l)%nat -> length (splice a src l) = length l.
Proof.
  intros; unfold splice. rewrite !length_app, length_take, length_drop. lia.
Qed.

Lemma slice_bytes a b bs : is_bytes bs -> is_bytes (slice a b bs).
Proof. intros; unfold slice. now apply Forall_take, Forall_drop. Qed.

Lemma slice_app_l {A} a b (l k : list A) :
  (b <= length l)%nat -> slice a b (l ++ k) = slice a b l.
Proof.
  intros. unfold slice. destruct (decide (a <= length l)%nat).
  - rewrite drop_app_le by lia. rewrite take_app_le; [done|].
    rewrite length_drop. lia.
  - replace (b - a)%nat with 0%nat by lia. now rewrite !take_0.
Qed.

Lemma splice_lookup {A} (a : nat) (src l : list A) i : (a + length src <= length l)%nat ->
  splice a src l !! i = if decide (a <= i < a + length src)%nat then src !! (i - a)%nat else l !! i.
Proof.
  intros H. unfold splice. destruct (decide (i < a)%nat).
  - rewrite lookup_app_l by (rewrite length_take; lia). rewrite lookup_take_lt by done. rewrite decide_False by lia. done.
  - rewrite lookup_app_r by (rewrite length_take; lia). rewrite length_take, Nat.min_l by lia.
    destruct (decide (i < a + length src)%nat).
    + rewrite lookup_app_l by lia. rewrite decide_True by lia. done.
    + rewrite lookup_app_r by lia. rewrite lookup_drop, decide_False by lia. f_equal. lia.
Qed.

Lemma slice_lookup {A} (a b : nat) (l : list A) k : (k < b - a)%nat -> slice a b l !! k = l !! (a + k)%nat.
Proof. intros H. unfold slice. by rewrite lookup_take_lt, lookup_drop. Qed.

Lemma slice_splice {A} a (src l : list A) :
  (a + length src <= length l)%nat -> slice a (a + length src) (splice a src l) = src.
Proof.
  intros H. unfold slice, splice.
  rewrite drop_app_ge by (rewrite length_take; lia).
  rewrite length_take, Nat.min_l, Nat.sub_diag, drop_0 by lia.
  replace (a + length src - a)%nat with (length src) by lia.
  now rewrite take_app_length.
Qed.

(** Two writes side by side are one. *)
Lemma splice_adjacent {A} off (a b l : list A) :
  (off + length a + length b <= length l)%nat ->
  splice (off + length a) b (splice off a l) = splice off (a ++ b) l.
Proof.
  intros Hl. unfold splice. rewrite length_app.
  assert (Ht : length (take off l) = off) by (rewrite length_take; lia).
  rewrite take_app_ge, Ht by lia. replace (off + length a - off)%nat with (length a) by lia.
  rewrite take_app_length. rewrite drop_app_ge, Ht by lia.
  rewrite drop_app_ge by lia. rewrite drop_drop, <- !app_assoc. do 4 f_equal. lia.
Qed.

(** ** Retain, count and position *)

Lemma filter_In_iff {A} (f : A -> bool) (l : list A) x :
  x ∈ List.filter f l <-> x ∈ l /\ f x = true.
Proof. rewrite !list_elem_of_In. apply filter_In. Qed.

Lemma Forall_filter_b {A} (P : A -> Prop) (f : A -> bool) l :
  Forall P l -> Forall P (List.filter f l).
Proof.
  rewrite !Forall_forall. intros H x Hx. apply filter_In_iff in Hx as [? _]. auto.
Qed.

Lemma filter_all {A} (f : A -> bool) l :
  Forall (fun x => f x = true) l -> List.filter f l = l.
Proof. induction 1 as [|x l H _ IH]; simpl; [done|]. now rewrite H, IH. Qed.

Lemma filter_length_le_b {A} (f : A -> bool) l :
  (length (List.filter f l) <= length l)%nat.
Proof. induction l as [|x l IH]; simpl; [lia|]. destruct (f x); simpl; lia. Qed.

Lemma filter_length_eq {A} (f : A -> bool) l :
  length (List.filter f l) = length l -> List.filter f l = l.
Proof.
  induction l as [|x l IH]; simpl; [done|].
  pose proof (filter_length_le_b f l). destruct (f x); simpl; intros E; [|lia].
  f_equal. apply IH. lia.
Qed.

(** [Iterator::position]. *)
Fixpoint position {A} (f : A -> bool) (l : list A) : option nat :=
  match l with
  | [] => None
  | x :: l => if f x then Some O else option_map S (position f l)
  end.

(** [Vec::swap_remove] in range: the last element takes the place. *)
Definition swap_remove {A} (i : nat) (l : list A) : list A :=
  match last l with
  | Some x => take (length l - 1) (<[i := x]> l)
  | None => l
  end.

(** [usize::saturating_sub]. *)
Definition saturating_sub (a b : Z) : Z := Z.max 0 (a - b).

Lemma position_spec {A} (f : A -> bool) l :
  match position f l with
  | Some p => exists l1 x l2, l = l1 ++ x :: l2 /\ length l1 = p /\ f x = true /\
                Forall (fun y => f y = false) l1
  | None => Forall (fun y => f y = false) l
  end.
Proof.
  induction l as [|x l IH]; simpl; [constructor|]. destruct (f x) eqn:E.
  - by exists [], x, l.
  - destruct (position f l) as [p|]; simpl.
    + destruct IH as (l1 & y & l2 & -> & <- & Hy & Hf). exists (x :: l1), y, l2. by repeat constructor.
    + by constructor.
Qed.

Lemma filter_none {A} (f : A -> bool) l :
  Forall (fun x => f x = false) l -> List.filter f l = [].
Proof. induction 1 as [|x l E _ IH]; simpl; [done|]. by rewrite E. Qed.

(** A list and what [swap_remove] leaves: the same elements but one. *)
Lemma swap_remove_perm {A} (l1 : list A) x l2 :
  swap_remove (length l1) (l1 ++ x :: l2) ≡ₚ l1 ++ l2.
Proof.
  unfold swap_remove. destruct l2 as [|y l2 _] using rev_ind.
  - rewrite last_snoc, insert_app_r_alt, Nat.sub_diag by done. simpl.
    rewrite length_app. simpl. rewrite Nat.add_sub, take_app_length. by rewrite app_nil_r.
  - rewrite app_comm_cons, app_assoc, last_snoc. rewrite insert_app_l by (rewrite length_app; simpl; lia).
    rewrite insert_app_r_alt, Nat.sub_diag by done. simpl.
    rewrite length_app. simpl. rewrite Nat.add_sub, take_app_length' by (rewrite !length_app; done).
    rewrite <- Permutation_middle, (app_assoc l1 l2), (Permutation_app_comm (l1 ++ l2) [y]). done.
Qed.

Lemma sublist_filter_b {A} (f : A -> bool) (l k : list A) :
  l `sublist_of` k -> List.filter f l `sublist_of` List.filter f k.
Proof.
  induction 1 as [|x l k _ IH|x l k _ IH]; simpl; [done| |].
  - destruct (f x); [by constructor|done].
  - destruct (f x); [by constructor|done].
Qed.

Lemma filter_sublist_b {A} (f : A -> bool) (l : list A) : List.filter f l `sublist_of` l.
Proof. induction l as [|x l IH]; simpl; [done|]. destruct (f x); by constructor. Qed.

Lemma Forall_sublist_b {A} (P : A -> Prop) (l k : list A) :
  l `sublist_of` k -> Forall P k -> Forall P l.
Proof.
  induction 1 as [|x l k _ IH|x l k _ IH]; [done| |]; rewrite ?Forall_cons; intros [? ?]; [split|]; auto.
Qed.

Lemma filter_filter_b {A} (f : A -> bool) (l : list A) :
  List.filter f (List.filter f l) = List.filter f l.
Proof. apply filter_all, Forall_forall. intros x Hx. apply filter_In_iff in Hx. tauto. Qed.

Lemma find_app_b {A} (f : A -> bool) (l k : list A) :
  List.find f (l ++ k) = match List.find f l with Some x => Some x | None => List.find f k end.
Proof. induction l as [|x l IH]; simpl; [done|]. by destruct (f x). Qed.

Lemma find_none_b {A} (f : A -> bool) (l : list A) :
  Forall (fun x => f x = false) l -> List.find f l = None.
Proof. induction 1 as [|x l E _ IH]; simpl; [done|]. by rewrite E. Qed.

#[export] Hint Resolve wrap_range le_store_bytes be_store_bytes slice_bytes : kairix.
#[export] Hint Resolve Forall_filter_b : kairix.
