(* ===== verification/SysErr.v ===== *)
(** * Error codes (os/src/error.rs)

    [SysError] with its [repr(i32)] discriminants, the text of each code, and
    the partial inverse [TryFrom<i32>].  Every fallible operation of the other
    files returns [SysResult]. *)

From S2P Require Import Prelude.

(** ** The enumeration *)

Inductive SysError :=
| EPERM
| ENOENT
| ESRCH
| EINTR
| EIO
| ENXIO
| E2BIG
| ENOEXEC
| EBADF
| ECHILD
| EAGAIN
| ENOMEM
| EACCES
| EFAULT
| ENOTBLK
| EBUSY
| EEXIST
| EXDEV
| ENODEV
| ENOTDIR
| EISDIR
| EINVAL
| ENFILE
| EMFILE
| ENOTTY
| ETXTBSY
| EFBIG
| ENOSPC
| ESPIPE
| EROFS
| EMLINK
| EPIPE
| EDOM
| ERANGE
| EDEADLK
| ENAMETOOLONG
| ENOLCK
| ENOSYS
| ENOTEMPTY
| ELOOP
| ENOMSG
| ENODATA
| EBADFD
| EOVERFLOW
| ENOTSOCK
| ENOPROTOOPT
| EPROTONOSUPPORT
| EOPNOTSUPP
| EAFNOSUPPORT
| EADDRINUSE
| EADDRNOTAVAIL
| ECONNRESET
| ENETUNREACH
| ETIMEDOUT
| EHOSTUNREACH
| EISCONN
| ENOTCONN
| ECONNREFUSED
| EINPROGRESS
| ESTALE
| ECANCELED.

Abbreviation SysResult A := (result A SysError).

#[export] Instance SysError_eq_dec : EqDecision SysError.
Proof. solve_decision. Defined.

(** [SysError::code]. *)
Definition code (e : SysError) : Z :=
  match e with
  | EPERM => 1
  | ENOENT => 2
  | ESRCH => 3
  | EINTR => 4
  | EIO => 5
  | ENXIO => 6
  | E2BIG => 7
  | ENOEXEC => 8
  | EBADF => 9
  | ECHILD => 10
  | EAGAIN => 11
  | ENOMEM => 12
  | EACCES => 13
  | EFAULT => 14
  | ENOTBLK => 15
  | EBUSY => 16
  | EEXIST => 17
  | EXDEV => 18
  | ENODEV => 19
  | ENOTDIR => 20
  | EISDIR => 21
  | EINVAL => 22
  | ENFILE => 23
  | EMFILE => 24
  | ENOTTY => 25
  | ETXTBSY => 26
  | EFBIG => 27
  | ENOSPC => 28
  | ESPIPE => 29
  | EROFS => 30
  | EMLINK => 31
  | EPIPE => 32
  | EDOM => 33
  | ERANGE => 34
  | EDEADLK => 35
  | ENAMETOOLONG => 36
  | ENOLCK => 37
  | ENOSYS => 38
  | ENOTEMPTY => 39
  | ELOOP => 40
  | ENOMSG => 42
  | ENODATA => 61
  | EBADFD => 77
  | EOVERFLOW => 75
  | ENOTSOCK => 88
  | ENOPROTOOPT => 92
  | EPROTONOSUPPORT => 93
  | EOPNOTSUPP => 95
  | EAFNOSUPPORT => 97
  | EADDRINUSE => 98
  | EADDRNOTAVAIL => 99
  | ECONNRESET => 104
  | ENETUNREACH => 101
  | ETIMEDOUT => 110
  | EHOSTUNREACH => 113
  | EISCONN => 106
  | ENOTCONN => 107
  | ECONNREFUSED => 111
  | EINPROGRESS => 115
  | ESTALE => 116
  | ECANCELED => 125
  end.

(** [SysError::as_str]. *)
Definition as_str (e : SysError) : string :=
  match e with
  | EPERM => "Operation not permitted"
  | ENOENT => "No such file or directory"
  | ESRCH => "No such process"
  | EINTR => "Interrupted system call"
  | EIO => "I/O error"
  | ENXIO => "No such device or address"
  | E2BIG => "Argument list too long"
  | ENOEXEC => "Exec format error"
  | EBADF => "Bad file number"
  | ECHILD => "No child processes"
  | EAGAIN => "Try again"
  | ENOMEM => "Out of memory"
  | EACCES => "Permission denied"
  | EFAULT => "Bad address"
  | ENOTBLK => "Block device required"
  | EBUSY => "Device or resource busy"
  | EEXIST => "File exists"
  | EXDEV => "Cross-device link"
  | ENODEV => "No such device"
  | ENOTDIR => "Not a directory"
  | EISDIR => "Is a directory"
  | EINVAL => "Invalid argument"
  | ENFILE => "File table overflow"
  | EMFILE => "Too many open files"
  | ENOTTY => "Not a typewriter"
  | ETXTBSY => "Text file busy"
  | EFBIG => "File too large"
  | ENOSPC => "No space left on device"
  | ESPIPE => "Illegal seek"
  | EROFS => "Read-only file system"
  | EMLINK => "Too many links"
  | EPIPE => "Broken pipe"
  | EDOM => "Math argument out of domain of func"
  | ERANGE => "Math result not representable"
  | EDEADLK => "Resource deadlock would occur"
  | ENAMETOOLONG => "File name too long"
  | ENOLCK => "No record locks available"
  | ENOSYS => "Invalid system call number"
  | ENOTEMPTY => "Directory not empty"
  | ELOOP => "Too many symbolic links encountered"
  | ENOMSG => "No message of desired type"
  | ENODATA => "No data"
  | EBADFD => "File descriptor in bad state"
  | EOVERFLOW => "Value too large"
  | ENOTSOCK => "Socket operation on non-socket"
  | ENOPROTOOPT => "Protocol not available"
  | EPROTONOSUPPORT => "Protocol not supported"
  | EOPNOTSUPP => "Operation not supported"
  | EAFNOSUPPORT => "Address family not supported"
  | EADDRINUSE => "Address already in use"
  | EADDRNOTAVAIL => "Address not available"
  | ECONNRESET => "Connection reset"
  | ENETUNREACH => "Network is unreachable"
  | ETIMEDOUT => "Connection timed out"
  | EHOSTUNREACH => "No route to host"
  | EISCONN => "Transport endpoint is already connected"
  | ENOTCONN => "Transport endpoint is not connected"
  | ECONNREFUSED => "Connection refused"
  | EINPROGRESS => "Operation now in progress"
  | ESTALE => "Stale file handle"
  | ECANCELED => "Operation cancelled"
  end%string.

(** [TryFrom<i32> for SysError]. *)
Definition try_from (value : Z) : result SysError unit :=
  match value with
  | 1 => Ok EPERM
  | 2 => Ok ENOENT
  | 3 => Ok ESRCH
  | 4 => Ok EINTR
  | 5 => Ok EIO
  | 8 => Ok ENOEXEC
  | 9 => Ok EBADF
  | 10 => Ok ECHILD
  | 11 => Ok EAGAIN
  | 12 => Ok ENOMEM
  | 13 => Ok EACCES
  | 14 => Ok EFAULT
  | 17 => Ok EEXIST
  | 20 => Ok ENOTDIR
  | 21 => Ok EISDIR
  | 22 => Ok EINVAL
  | 28 => Ok ENOSPC
  | 29 => Ok ESPIPE
  | 38 => Ok ENOSYS
  | 42 => Ok ENOMSG
  | 61 => Ok ENODATA
  | 77 => Ok EBADFD
  | 75 => Ok EOVERFLOW
  | 88 => Ok ENOTSOCK
  | 92 => Ok ENOPROTOOPT
  | 93 => Ok EPROTONOSUPPORT
  | 95 => Ok EOPNOTSUPP
  | 97 => Ok EAFNOSUPPORT
  | 98 => Ok EADDRINUSE
  | 99 => Ok EADDRNOTAVAIL
  | 104 => Ok ECONNRESET
  | 101 => Ok ENETUNREACH
  | 110 => Ok ETIMEDOUT
  | 113 => Ok EHOSTUNREACH
  | 106 => Ok EISCONN
  | 107 => Ok ENOTCONN
  | 111 => Ok ECONNREFUSED
  | 115 => Ok EINPROGRESS
  | 116 => Ok ESTALE
  | 125 => Ok ECANCELED
  | _ => Err tt
  end.

(** The value the trap handler writes into the user register on failure:
    [(-e.code()) as usize]. *)
Definition neg_ret (e : SysError) : Z := usize (- code e).

(** ** Properties *)

(** The variants that [try_from] does not recognise. *)
Definition try_from_gaps : list SysError :=
  [ENXIO; E2BIG; ENOTBLK; EBUSY; EXDEV; ENODEV; ENFILE; EMFILE; ENOTTY; ETXTBSY;
   EFBIG; EROFS; EMLINK; EPIPE; EDOM; ERANGE; EDEADLK; ENAMETOOLONG; ENOLCK;
   ENOTEMPTY; ELOOP].

Lemma code_inj e1 e2 : code e1 = code e2 -> e1 = e2.
Proof. destruct e1, e2; simpl; intros H; first [reflexivity | discriminate H]. Qed.

Lemma code_range e : 1 <= code e <= 4095.
Proof. destruct e; simpl; lia. Qed.

Lemma try_from_sound v e : try_from v = Ok e -> code e = v.
Proof.
  unfold try_from. intros H.
  repeat match type of H with
  | match ?x with _ => _ end = _ => destruct x; try discriminate H
  end; injection H as <-; reflexivity.
Qed.

Lemma try_from_code e : try_from (code e) = if bool_decide (e ∈ try_from_gaps) then Err tt else Ok e.
Proof. destruct e; vm_compute; reflexivity. Qed.

(** [TryFrom<i32>] is a partial inverse of [code]: a recognised
    number is the code of the variant it gives, and a variant's own code is
    refused exactly for the 21 variants of [try_from_gaps] (among them EBUSY,
    EPIPE and ENOTEMPTY), all of which are defined error codes. *)
Theorem try_from_partial_inverse :
  (forall v e, try_from v = Ok e -> code e = v) /\
  (forall e, try_from (code e) = Err tt <-> e ∈ try_from_gaps).
Proof.
  split; [exact try_from_sound|]. intros e. rewrite try_from_code.
  case_if; split; done.
Qed.

(** the register value written for an error never collides with a
    successful return below [2^64 - 4095], and identifies the error. *)
Theorem neg_ret_identifies e1 e2 :
  2 ^ 64 - 4095 <= neg_ret e1 < 2 ^ 64 /\ (neg_ret e1 = neg_ret e2 <-> e1 = e2).
Proof.
  assert (E : forall e, neg_ret e = 2 ^ 64 - code e).
  { intros e. pose proof (code_range e). unfold neg_ret, wrap.
    rewrite <- (Z.mod_small (2 ^ 64 - code e) (2 ^ 64)) by lia.
    replace (2 ^ 64 - code e) with (- code e + 1 * 2 ^ 64) by lia.
    now rewrite Z_mod_plus_full. }
  rewrite !E. pose proof (code_range e1). split; [lia|].
  split; [|now intros ->]. intros ?. apply code_inj; lia.
Qed.
