(* ===== verification/UserMem.v ===== *)
(** * The user-memory interface

    System calls move structures between the kernel and user space through
    [read_user_bytes] (os/src/syscall/fs/mod.rs) and [copy_to_user]
    (os/src/mm).  The components that use them are proved against this class;
    [FlatMem] is a concrete memory used by the witnesses. *)

From S2P Require Import Prelude SysErr.

Class UserMem (U : Type) := {
  read_user_bytes : U -> Z -> nat -> SysResult bytes;
  copy_to_user : U -> Z -> bytes -> SysResult U;
}.

(** What the callers rely on: a read returns as many bytes as were asked for,
    and a successful copy is what a later read of the same range returns. *)
Class UserMemLaws (U : Type) `{UserMem U} := {
  read_user_length u a n bs : read_user_bytes u a n = Ok bs -> length bs = n;
  read_after_copy u a bs u' :
    copy_to_user u a bs = Ok u' -> read_user_bytes u' a (length bs) = Ok bs;
}.

(** ** A flat memory with one mapped window *)

Record FlatMem := mkFlat { flat_base : Z; flat_bytes : bytes }.

Definition flat_in (u : FlatMem) (a : Z) (n : nat) : bool :=
  (flat_base u <=? a) && (a + Z.of_nat n <=? flat_base u + Z.of_nat (length (flat_bytes u))).

Definition flat_off (u : FlatMem) (a : Z) : nat := Z.to_nat (a - flat_base u).

#[export] Instance FlatMem_UserMem : UserMem FlatMem := {
  read_user_bytes u a n :=
    if flat_in u a n then Ok (slice (flat_off u a) (flat_off u a + n) (flat_bytes u))
    else Err EFAULT;
  copy_to_user u a bs :=
    if flat_in u a (length bs)
    then Ok (mkFlat (flat_base u) (splice (flat_off u a) bs (flat_bytes u)))
    else Err EFAULT;
}.

#[export] Instance FlatMem_laws : UserMemLaws FlatMem.
Proof.
  split.
  - intros u a n bs. simpl. unfold flat_in, flat_off. case_if; [|done].
    intros Hb; injection Hb as <-. rewrite slice_length; lia.
  - intros u a bs u'. simpl. unfold flat_in, flat_off. case_if; [|done].
    intros Hb; injection Hb as <-. simpl.
    rewrite splice_length by lia.
    case_if; [now rewrite slice_splice by lia|lia].
Qed.
