(* ===== verification/RecordLock.v ===== *)
(** * File locks (os/src/syscall/fs/record_lock.rs): the lock table

    POSIX record locks ([fcntl] F_GETLK/F_SETLK/F_SETLKW) and BSD whole-file
    locks ([flock]): the per-inode lock lists, the byte-range algebra that
    splits, sorts and merges an owner's ranges, and the wait queues.

    A [Weak<TaskControlBlock>] is the task's identity; it upgrades when the
    task is in [live].  [wakeup_task] is recorded in order in [w_woken]. *)

From stdpp Require Import sorting.
From S2P Require Import Prelude SysErr.

Definition F_GETLK : Z := 5.
Definition F_SETLK : Z := 6.
Definition F_SETLKW : Z := 7.
Definition F_RDLCK : Z := 0.
Definition F_WRLCK : Z := 1.
Definition F_UNLCK : Z := 2.
Definition SEEK_SET : Z := 0.
Definition SEEK_CUR : Z := 1.
Definition SEEK_END : Z := 2.
Definition FLOCK64_SIZE : nat := 32.
Definition I64_MAX : Z := 2 ^ 63 - 1.
Definition OFFSET_MAX : Z := I64_MAX.

(** ** Data *)

Record UserFlock := mkUserFlock {
  uf_type : Z; uf_whence : Z; uf_start : Z; uf_len : Z; uf_pid : Z }.

Record ByteRange := mkRange { r_start : Z; r_end : Z }.

Record PosixLock := mkLock {
  owner_pid : Z; lock_type : Z; lrange : ByteRange }.

Record FlockLock := mkFlock { owner_file : Z; exclusive : bool }.

Record InodeLocks := mkInode {
  locks : list PosixLock;
  waiters : list Z;
  flock_locks : list FlockLock;
  flock_waiters : list Z }.

Definition InodeLocks_default : InodeLocks := mkInode [] [] [] [].

(** What the lock code reads of an open file ([dyn File]). *)
Record File := mkFile {
  f_ptr : Z;                 (* Arc::as_ptr *)
  f_inode_id : option Z;     (* cache_inode_id() *)
  f_offset : Z;              (* get_offset() *)
  f_size : option Z;         (* get_inode().map(get_size) *)
  f_readable : bool;
  f_writable : bool }.

#[export] Instance ByteRange_eq_dec : EqDecision ByteRange.
Proof. solve_decision. Defined.
#[export] Instance PosixLock_eq_dec : EqDecision PosixLock.
Proof. solve_decision. Defined.
#[export] Instance UserFlock_eq_dec : EqDecision UserFlock.
Proof. solve_decision. Defined.
#[export] Instance FlockLock_eq_dec : EqDecision FlockLock.
Proof. solve_decision. Defined.
#[export] Instance InodeLocks_eq_dec : EqDecision InodeLocks.
Proof. solve_decision. Defined.

(** ** The user structure *)

(** [read_flock] after the copy: the native-endian fields of [struct flock64]. *)
Definition decode_flock (bs : bytes) : UserFlock :=
  mkUserFlock
    (signed 16 (le_load (slice 0 2 bs)))
    (signed 16 (le_load (slice 2 4 bs)))
    (signed 64 (le_load (slice 8 16 bs)))
    (signed 64 (le_load (slice 16 24 bs)))
    (signed 32 (le_load (slice 24 28 bs))).

(** [write_flock] before the copy. *)
Definition encode_flock (fl : UserFlock) : bytes :=
  let bs := replicate FLOCK64_SIZE 0 in
  let bs := splice 0 (le_store 2 (u16 (uf_type fl))) bs in
  let bs := splice 2 (le_store 2 (u16 (uf_whence fl))) bs in
  let bs := splice 8 (le_store 8 (usize (uf_start fl))) bs in
  let bs := splice 16 (le_store 8 (usize (uf_len fl))) bs in
  splice 24 (le_store 4 (u32 (uf_pid fl))) bs.

Definition inode_key (f : File) : SysResult Z := ok_or (f_inode_id f) EBADF.

Definition open_file_description_key (f : File) : Z := f_ptr f.

Definition is_nil {A} (l : list A) : bool := match l with [] => true | _ => false end.

Definition inode_locks_empty (i : InodeLocks) : bool :=
  is_nil (locks i) && is_nil (waiters i) && is_nil (flock_locks i) && is_nil (flock_waiters i).

(** [i128::checked_add]. *)
Definition checked_add_i128 (a b : Z) : option Z :=
  let s := a + b in
  if (- 2 ^ 127 <=? s) && (s <? 2 ^ 127) then Some s else None.

Definition normalize_range (f : File) (fl : UserFlock) : SysResult ByteRange :=
  let? base :=
    (if uf_whence fl =? SEEK_SET then Ok 0
     else if uf_whence fl =? SEEK_CUR then Ok (f_offset f)
     else if uf_whence fl =? SEEK_END then ok_or (f_size f) EBADF
     else Err EINVAL) in
  let? anchor := ok_or (checked_add_i128 base (uf_start fl)) EOVERFLOW in
  if negb ((0 <=? anchor) && (anchor <=? I64_MAX)) then Err EINVAL
  else if uf_len fl =? 0 then Ok (mkRange anchor OFFSET_MAX)
  else if 0 <? uf_len fl then
    let? end_ := ok_or (checked_add_i128 anchor (uf_len fl - 1)) EOVERFLOW in
    if I64_MAX <? end_ then Err EOVERFLOW else Ok (mkRange anchor end_)
  else
    let? start := ok_or (checked_add_i128 anchor (uf_len fl)) EOVERFLOW in
    let end_ := anchor - 1 in
    if (start <? 0) || (end_ <? start) then Err EINVAL else Ok (mkRange start end_).

Definition overlaps (left right : ByteRange) : bool :=
  (r_start left <=? r_end right) && (r_start right <=? r_end left).

Definition conflicts (existing : PosixLock) (owner lt : Z) (range : ByteRange) : bool :=
  negb (owner_pid existing =? owner)
  && overlaps (lrange existing) range
  && ((lock_type existing =? F_WRLCK) || (lt =? F_WRLCK)).

(** [Iterator::min_by_key]: the first of the smallest keys. *)
Fixpoint min_by_key {A} (key : A -> Z) (l : list A) : option A :=
  match l with
  | [] => None
  | x :: l => match min_by_key key l with
              | None => Some x
              | Some y => if key x <=? key y then Some x else Some y
              end
  end.

Definition first_conflict (ls : list PosixLock) (owner lt : Z) (range : ByteRange)
  : option PosixLock :=
  min_by_key (fun l => r_start (lrange l))
    (List.filter (fun l => conflicts l owner lt range) ls).

(** ** Replacing an owner's range *)

(** The body of the first loop of [replace_owner_range]. *)
Definition split_lock (owner : Z) (range : ByteRange) (l : PosixLock) : list PosixLock :=
  if negb (owner_pid l =? owner) || negb (overlaps (lrange l) range) then [l]
  else
    (if r_start (lrange l) <? r_start range
     then [mkLock (owner_pid l) (lock_type l)
             (mkRange (r_start (lrange l)) (r_start range - 1))] else []) ++
    (if r_end range <? r_end (lrange l)
     then [mkLock (owner_pid l) (lock_type l)
             (mkRange (r_end range + 1) (r_end (lrange l)))] else []).

(** The sort key [(owner_pid, lock_type, range.start)], lexicographic. *)
Definition key_leb (a b : PosixLock) : bool :=
  (owner_pid a <? owner_pid b) ||
  ((owner_pid a =? owner_pid b) &&
   ((lock_type a <? lock_type b) ||
    ((lock_type a =? lock_type b) && (r_start (lrange a) <=? r_start (lrange b))))).

(** [sort_by_key] is a stable sort. *)
Fixpoint insert_sorted (x : PosixLock) (l : list PosixLock) : list PosixLock :=
  match l with
  | [] => [x]
  | y :: l' => if key_leb x y then x :: l else y :: insert_sorted x l'
  end.

Fixpoint sort_by_key (l : list PosixLock) : list PosixLock :=
  match l with [] => [] | x :: l => insert_sorted x (sort_by_key l) end.

(** The body of the second loop; [merged] is kept with its last element first. *)
Definition merge_step (merged : list PosixLock) (l : PosixLock) : list PosixLock :=
  match merged with
  | [] => [l]
  | last :: rest =>
      let adjacent := (r_end (lrange last) =? OFFSET_MAX)
                      || (r_start (lrange l) <=? usize (r_end (lrange last) + 1)) in
      if (owner_pid last =? owner_pid l) && (lock_type last =? lock_type l) && adjacent
      then mkLock (owner_pid last) (lock_type last)
             (mkRange (r_start (lrange last)) (Z.max (r_end (lrange last)) (r_end (lrange l))))
           :: rest
      else l :: merged
  end.

Definition replace_owner_range (ls : list PosixLock) (owner lt : Z) (range : ByteRange)
  : list PosixLock :=
  let updated := flat_map (split_lock owner range) ls in
  let updated := if negb (lt =? F_UNLCK) then updated ++ [mkLock owner lt range] else updated in
  let updated := sort_by_key updated in
  rev (fold_left merge_step updated []).

(** ** Wait queues *)

(** [Weak::upgrade] for the tasks of [live]. *)
Definition upgrades (live : gset Z) (ws : list Z) : list Z :=
  List.filter (fun t => bool_decide (t ∈ live)) ws.

Definition add_waiter (live : gset Z) (ws : list Z) (task : Z) : list Z :=
  let ws := upgrades live ws in
  if existsb (fun t => t =? task) ws then ws else ws ++ [task].

Definition drop_waiter (live : gset Z) (ws : list Z) (task : Z) : list Z :=
  List.filter (fun t => bool_decide (t ∈ live) && negb (t =? task)) ws.

Definition register_waiter (live : gset Z) (i : InodeLocks) (task : Z) : InodeLocks :=
  mkInode (locks i) (add_waiter live (waiters i) task) (flock_locks i) (flock_waiters i).

Definition take_waiters (live : gset Z) (i : InodeLocks) : InodeLocks * list Z :=
  (mkInode (locks i) [] (flock_locks i) (flock_waiters i), upgrades live (waiters i)).

Definition register_flock_waiter (live : gset Z) (i : InodeLocks) (task : Z) : InodeLocks :=
  mkInode (locks i) (waiters i) (flock_locks i) (add_waiter live (flock_waiters i) task).

Definition take_flock_waiters (live : gset Z) (i : InodeLocks) : InodeLocks * list Z :=
  (mkInode (locks i) (waiters i) (flock_locks i) [], upgrades live (flock_waiters i)).

Definition flock_conflicts (ls : list FlockLock) (owner : Z) (requested_exclusive : bool) : bool :=
  existsb (fun l => negb (owner_file l =? owner) && (exclusive l || requested_exclusive)) ls.

Definition set_locks (i : InodeLocks) (ls : list PosixLock) : InodeLocks :=
  mkInode ls (waiters i) (flock_locks i) (flock_waiters i).
Definition set_flock_locks (i : InodeLocks) (ls : list FlockLock) : InodeLocks :=
  mkInode (locks i) (waiters i) ls (flock_waiters i).

Definition conflict_to_user (l : PosixLock) : UserFlock :=
  let len :=
    if r_end (lrange l) =? OFFSET_MAX then 0
    else let n := usize (r_end (lrange l) - r_start (lrange l) + 1) in
         if n <=? I64_MAX then n else 0 in
  mkUserFlock (lock_type l) SEEK_SET (signed 64 (r_start (lrange l))) len
    (signed 32 (owner_pid l)).

(** ** Ranges and ownership as sets of bytes *)

Definition in_range (b : Z) (r : ByteRange) : Prop := r_start r <= b <= r_end r.

Definition valid_range (r : ByteRange) : Prop :=
  0 <= r_start r /\ r_start r <= r_end r /\ r_end r <= OFFSET_MAX.

(** Owner [p] holds a lock of type [t] on byte [b]: the abstract state. *)
Definition held (ls : list PosixLock) (p t b : Z) : Prop :=
  exists l, l ∈ ls /\ owner_pid l = p /\ lock_type l = t /\ in_range b (lrange l).

Lemma held_nil p t b : ~ held [] p t b.
Proof. intros (l & H & _). by apply not_elem_of_nil in H. Qed.

Lemma held_cons l ls p t b :
  held (l :: ls) p t b <->
  (owner_pid l = p /\ lock_type l = t /\ in_range b (lrange l)) \/ held ls p t b.
Proof. unfold held. setoid_rewrite elem_of_cons. naive_solver. Qed.

Lemma held_app l1 l2 p t b : held (l1 ++ l2) p t b <-> held l1 p t b \/ held l2 p t b.
Proof. unfold held. setoid_rewrite elem_of_app. naive_solver. Qed.

Lemma held_perm l1 l2 p t b : l1 ≡ₚ l2 -> held l1 p t b <-> held l2 p t b.
Proof. intros E. unfold held. by setoid_rewrite E. Qed.

Lemma held_flat_map (f : PosixLock -> list PosixLock) ls p t b :
  held (flat_map f ls) p t b <-> exists l, l ∈ ls /\ held (f l) p t b.
Proof.
  induction ls as [|x ls IH]; simpl.
  - split; [intros []%held_nil|intros (? & []%not_elem_of_nil & _)].
  - rewrite held_app, IH. setoid_rewrite elem_of_cons. naive_solver.
Qed.

Lemma overlaps_spec r1 r2 :
  valid_range r1 -> valid_range r2 ->
  overlaps r1 r2 = true <-> exists b, in_range b r1 /\ in_range b r2.
Proof.
  unfold valid_range, overlaps, in_range. intros ??. split.
  - intros; to_prop. exists (Z.max (r_start r1) (r_start r2)). lia.
  - intros (b & ? & ?). apply andb_true_iff; split; apply Z.leb_le; lia.
Qed.

(** *** Splitting *)

Lemma held_nil_iff p t b : held [] p t b <-> False.
Proof. split; [apply held_nil|done]. Qed.

Lemma held_split owner range l p t b :
  held (split_lock owner range l) p t b <->
  held [l] p t b /\ ~ (p = owner /\ in_range b range).
Proof.
  unfold split_lock, overlaps. destruct l as [op lt [s e]]; simpl.
  case_if.
  - rewrite held_cons, held_nil_iff. unfold in_range; simpl.
    destruct E as [E|E]; to_prop; [lia|]. destruct E; to_prop; lia.
  - rewrite held_app.
    do 2 case_if; rewrite ?held_cons, ?held_nil_iff; unfold in_range; simpl; lia.
Qed.

Lemma split_valid owner range l :
  valid_range range -> valid_range (lrange l) ->
  Forall (fun x => valid_range (lrange x) /\ lock_type x = lock_type l) (split_lock owner range l).
Proof.
  unfold split_lock, valid_range, overlaps. intros. case_if.
  - by constructor.
  - to_prop. do 2 case_if; simpl; repeat constructor; simpl; lia.
Qed.

(** *** Sorting *)

Definition key_le (a b : PosixLock) : Prop := key_leb a b = true.

Lemma key_le_iff a b :
  key_le a b <->
  owner_pid a < owner_pid b \/
  (owner_pid a = owner_pid b /\
   (lock_type a < lock_type b \/
    (lock_type a = lock_type b /\ r_start (lrange a) <= r_start (lrange b)))).
Proof.
  unfold key_le, key_leb.
  rewrite !orb_true_iff, !andb_true_iff, !orb_true_iff, !andb_true_iff.
  rewrite !Z.ltb_lt, !Z.eqb_eq, Z.leb_le. tauto.
Qed.

#[export] Instance key_le_trans : Transitive key_le.
Proof. intros a b c. rewrite !key_le_iff. lia. Qed.

Lemma key_le_total a b : key_leb a b = false -> key_le b a.
Proof.
  intros E. destruct (key_leb b a) eqn:E'; [done|].
  assert (~ key_le a b) by (unfold key_le; congruence).
  assert (~ key_le b a) by (unfold key_le; congruence).
  rewrite !key_le_iff in *. lia.
Qed.

Lemma insert_sorted_perm x l : insert_sorted x l ≡ₚ x :: l.
Proof.
  induction l as [|y l IH]; simpl; [done|]. case_if; [done|].
  rewrite IH. apply perm_swap.
Qed.

Lemma sort_by_key_perm l : sort_by_key l ≡ₚ l.
Proof. induction l as [|x l IH]; simpl; [done|]. by rewrite insert_sorted_perm, IH. Qed.

Lemma insert_sorted_sorted x l :
  StronglySorted key_le l -> StronglySorted key_le (insert_sorted x l).
Proof.
  induction 1 as [|y l Hl IH Hy]; simpl; [by repeat constructor|].
  case_if.
  - constructor; [by constructor|]. constructor; [done|].
    eapply Forall_impl; [exact Hy|]. intros z. by apply key_le_trans.
  - constructor; [done|]. rewrite insert_sorted_perm.
    constructor; [by apply key_le_total|done].
Qed.

Lemma sort_by_key_sorted l : StronglySorted key_le (sort_by_key l).
Proof. induction l; simpl; [constructor|by apply insert_sorted_sorted]. Qed.

(** *** Merging *)

(** Consecutive entries of one owner and type are separated by a gap. *)
Definition gap (a b : PosixLock) : Prop :=
  owner_pid a = owner_pid b -> lock_type a = lock_type b ->
  r_end (lrange a) + 1 < r_start (lrange b).

Definition valid_lock (l : PosixLock) : Prop := valid_range (lrange l).

Definition same_class (a b : PosixLock) : Prop :=
  owner_pid a = owner_pid b /\ lock_type a = lock_type b.

(** The state of the merge loop: [merged] (last element first) together with
    the locks still to be read. *)
Record merge_inv (merged rest : list PosixLock) : Prop := {
  mi_valid : Forall valid_lock merged;
  mi_gap : StronglySorted (fun a b => key_le b a /\ gap b a) merged;
  mi_ahead : forall a l, a ∈ merged -> l ∈ rest -> key_le a l;
}.

Lemma merge_cond last l :
  valid_lock last -> valid_lock l ->
  (owner_pid last =? owner_pid l) && (lock_type last =? lock_type l)
    && ((r_end (lrange last) =? OFFSET_MAX)
        || (r_start (lrange l) <=? usize (r_end (lrange last) + 1))) = true <->
  same_class last l /\ r_start (lrange l) <= r_end (lrange last) + 1.
Proof.
  unfold valid_lock, valid_range, same_class, OFFSET_MAX, I64_MAX. intros ??.
  rewrite wrap_small by (unfold in_u; lia).
  rewrite !andb_true_iff, orb_true_iff, !Z.eqb_eq, Z.leb_le. lia.
Qed.

Lemma merge_step_cases merged l :
  Forall valid_lock merged -> valid_lock l ->
  (exists last rest, merged = last :: rest /\ same_class last l /\
     r_start (lrange l) <= r_end (lrange last) + 1 /\
     merge_step merged l =
       mkLock (owner_pid last) (lock_type last)
         (mkRange (r_start (lrange last)) (Z.max (r_end (lrange last)) (r_end (lrange l)))) :: rest)
  \/ (merge_step merged l = l :: merged /\
      forall last rest, merged = last :: rest -> same_class last l ->
        r_end (lrange last) + 1 < r_start (lrange l)).
Proof.
  intros Hm Hl. destruct merged as [|last rest]; [right; split; [done|intros; done]|].
  inversion_clear Hm as [|?? Hlast]. pose proof (merge_cond last l Hlast Hl) as Hc.
  cbn [merge_step]. cbv zeta. case_raw E.
  - left. destruct (proj1 Hc eq_refl). eauto 10.
  - right. split; [done|]. intros ?? [= <- <-] Hsc.
    apply Z.nle_gt. intros Hle. by apply (conj Hsc) in Hle; apply Hc in Hle.
Qed.

Lemma merge_step_held merged l p t b :
  Forall valid_lock merged -> valid_lock l -> (forall a, a ∈ merged -> key_le a l) ->
  held (merge_step merged l) p t b <-> held merged p t b \/ held [l] p t b.
Proof.
  intros Hm Hl Hk.
  destruct (merge_step_cases merged l Hm Hl) as [(last & rest & -> & Hc & Hadj & ->)|[-> _]].
  - specialize (Hk last ltac:(left)). apply key_le_iff in Hk.
    unfold same_class in Hc. inversion_clear Hm as [|?? Hlast].
    unfold valid_lock, valid_range in *.
    rewrite !held_cons, held_nil_iff. unfold in_range; simpl.
    match goal with |- ?A \/ ?R <-> (?B \/ ?R) \/ ?C \/ False =>
      enough (A <-> B \/ C) by tauto end.
    lia.
  - rewrite !held_cons, held_nil_iff. tauto.
Qed.

Lemma merge_step_inv merged l rest :
  valid_lock l -> Forall (key_le l) rest ->
  merge_inv merged (l :: rest) -> merge_inv (merge_step merged l) rest.
Proof.
  intros Hl Hr [Hm Hg Ha].
  assert (Hal : forall a, a ∈ merged -> key_le a l) by (intros; apply Ha; [done|left]).
  destruct (merge_step_cases merged l Hm Hl) as [(last & tl & -> & [Ho Ht] & Hadj & ->)|[-> Hgap]].
  - inversion_clear Hm as [|?? Hlast Htl]. inversion_clear Hg as [|?? Hg1 Hg2].
    set (m := mkLock _ _ _).
    assert (Hkm : forall z, key_le m z <-> key_le last z) by (intros; by rewrite !key_le_iff).
    assert (Hkm' : forall z, key_le z m <-> key_le z last) by (intros; by rewrite !key_le_iff).
    split.
    + constructor; [|done]. unfold valid_lock, valid_range in *; simpl. lia.
    + constructor; [done|]. eapply Forall_impl; [exact Hg2|].
      intros z [Hz1 Hz2]. split; [by apply Hkm'|]. unfold gap in *; simpl. lia.
    + intros a x [->|Hin]%elem_of_cons Hx.
      * apply Hkm. apply Ha; [left|by right].
      * apply Ha; by right.
  - split.
    + by constructor.
    + constructor; [done|]. apply Forall_forall. intros a Hin.
      split; [auto|]. intros ??. destruct merged as [|last tl]; [by apply not_elem_of_nil in Hin|].
      specialize (Hgap last tl eq_refl). inversion_clear Hg as [|?? Hg1 Hg2].
      inversion_clear Hm as [|?? Hlast Htl].
      pose proof (Hal last ltac:(left)) as Hk. rewrite key_le_iff in Hk.
      apply elem_of_cons in Hin as [->|Hin]; [apply Hgap; split; lia|].
      rewrite Forall_forall in Hg2. destruct (Hg2 a Hin) as [Hka Hga].
      rewrite key_le_iff in Hka. unfold gap, valid_lock, valid_range in *.
      assert (same_class last l) by (split; lia). specialize (Hgap H1). lia.
    + intros a x [->|Hin]%elem_of_cons Hx.
      * rewrite Forall_forall in Hr. by apply Hr.
      * apply Ha; [done|by right].
Qed.

Lemma merge_fold rest merged :
  Forall valid_lock rest -> StronglySorted key_le rest -> merge_inv merged rest ->
  merge_inv (fold_left merge_step rest merged) [] /\
  forall p t b, held (fold_left merge_step rest merged) p t b <->
                held merged p t b \/ held rest p t b.
Proof.
  intros Hv Hs. revert merged Hv. induction Hs as [|l rest Hs IH Hl]; intros merged Hv Hi.
  - split; [done|]. intros; simpl. rewrite held_nil_iff. tauto.
  - inversion_clear Hv. simpl.
    destruct (IH (merge_step merged l)) as [Hi' Hh]; [done|by eapply merge_step_inv|].
    split; [done|]. intros p t b. rewrite Hh, merge_step_held.
    + rewrite (held_cons l rest), (held_cons l []), held_nil_iff. tauto.
    + apply Hi.
    + done.
    + intros a Ha. apply (mi_ahead _ _ Hi); [done|left].
Qed.

(** The list before sorting: the owner's old pieces and the new range. *)
Definition replaced (ls : list PosixLock) (owner lt : Z) (range : ByteRange) :=
  flat_map (split_lock owner range) ls ++
  (if negb (lt =? F_UNLCK) then [mkLock owner lt range] else []).

Lemma replace_unfold ls owner lt range :
  replace_owner_range ls owner lt range =
  rev (fold_left merge_step (sort_by_key (replaced ls owner lt range)) []).
Proof. unfold replace_owner_range, replaced. case_if; [done|]. by rewrite app_nil_r. Qed.

Lemma replaced_forall ls owner lt range :
  Forall valid_lock ls -> valid_range range -> Forall valid_lock (replaced ls owner lt range).
Proof.
  intros Hls Hr. unfold replaced. apply Forall_app. split.
  - apply Forall_flat_map. eapply Forall_impl; [exact Hls|]. intros l Hl.
    eapply Forall_impl; [exact (split_valid owner range l Hr Hl)|]. intros x Hx. apply Hx.
  - case_if; [by apply Forall_singleton|constructor].
Qed.

Lemma replaced_held ls owner lt range p t b :
  held (replaced ls owner lt range) p t b <->
  (held ls p t b /\ ~ (p = owner /\ in_range b range)) \/
  (lt <> F_UNLCK /\ p = owner /\ t = lt /\ in_range b range).
Proof.
  unfold replaced. rewrite held_app, held_flat_map. setoid_rewrite held_split.
  assert ((exists l, l ∈ ls /\ held [l] p t b /\ ~ (p = owner /\ in_range b range)) <->
          held ls p t b /\ ~ (p = owner /\ in_range b range)) as ->.
  { setoid_rewrite held_cons. setoid_rewrite held_nil_iff. unfold held. naive_solver. }
  case_if; rewrite ?held_cons, ?held_nil_iff; simpl; naive_solver.
Qed.

(** *** What the merged list looks like *)

Lemma elem_of_rev_iff {A} (x : A) l : x ∈ rev l <-> x ∈ l.
Proof. rewrite !list_elem_of_In. symmetry. apply in_rev. Qed.

Lemma held_rev ls p t b : held (rev ls) p t b <-> held ls p t b.
Proof. unfold held. by setoid_rewrite elem_of_rev_iff. Qed.

Lemma StronglySorted_rev {A} (R : A -> A -> Prop) l :
  StronglySorted (fun a b => R b a) l -> StronglySorted R (rev l).
Proof.
  induction 1 as [|x l Hs IH Hx]; simpl; [constructor|].
  apply StronglySorted_app; repeat split; [|done|by repeat constructor].
  intros y z Hy Hz. apply list_elem_of_singleton in Hz as ->.
  rewrite Forall_forall in Hx. apply Hx. by apply elem_of_rev_iff.
Qed.

(** The well-formedness of one inode's list: valid ranges, sorted, and with
    gaps between neighbours of one owner and type (no range is split). *)
Record wf_locks (ls : list PosixLock) : Prop := {
  wf_valid : Forall valid_lock ls;
  wf_sorted : StronglySorted (fun a b => key_le a b /\ gap a b) ls;
}.

Lemma replace_wf_held ls owner lt range :
  Forall valid_lock ls -> valid_range range ->
  wf_locks (replace_owner_range ls owner lt range) /\
  forall p t b, held (replace_owner_range ls owner lt range) p t b <->
    (held ls p t b /\ ~ (p = owner /\ in_range b range)) \/
    (lt <> F_UNLCK /\ p = owner /\ t = lt /\ in_range b range).
Proof.
  intros Hls Hr. rewrite replace_unfold.
  destruct (merge_fold (sort_by_key (replaced ls owner lt range)) []) as [Hi Hh].
  - rewrite sort_by_key_perm. by apply replaced_forall.
  - apply sort_by_key_sorted.
  - split; [constructor|constructor|intros ??[]%not_elem_of_nil].
  - split.
    + split; [apply Forall_rev, Hi|]. apply StronglySorted_rev, Hi.
    + intros p t b. rewrite held_rev, Hh, held_nil_iff, (held_perm _ _ p t b (sort_by_key_perm _)).
      rewrite replaced_held. tauto.
Qed.

(** ** Conflicts *)

Lemma min_by_key_none {A} (key : A -> Z) l : min_by_key key l = None <-> l = [].
Proof.
  destruct l as [|x l]; simpl; [done|]. split; [|done].
  destruct (min_by_key key l); [case_if|]; done.
Qed.

Lemma min_by_key_some {A} (key : A -> Z) l x :
  min_by_key key l = Some x -> x ∈ l /\ Forall (fun y => key x <= key y) l.
Proof.
  revert x. induction l as [|y l IH]; intros x; simpl; [done|].
  destruct (min_by_key key l) as [m|] eqn:Em.
  - destruct (IH m eq_refl) as [Hin Hmin]. case_if; intros [= <-].
    + split; [left|]. constructor; [lia|]. eapply Forall_impl; [exact Hmin|]. simpl; lia.
    + split; [by right|]. constructor; [lia|done].
  - intros [= <-]. apply min_by_key_none in Em as ->. split; [left|by repeat constructor].
Qed.

Lemma conflicts_spec l owner lt range :
  valid_lock l -> valid_range range ->
  conflicts l owner lt range = true <->
  owner_pid l <> owner /\ (exists b, in_range b (lrange l) /\ in_range b range) /\
  (lock_type l = F_WRLCK \/ lt = F_WRLCK).
Proof.
  intros Hl Hr. unfold conflicts.
  rewrite !andb_true_iff, negb_true_iff, Z.eqb_neq, overlaps_spec, orb_true_iff, !Z.eqb_eq by done.
  tauto.
Qed.

(** No conflict: nobody else holds a byte of the range, unless both only read. *)
Definition grantable (ls : list PosixLock) (owner lt : Z) (range : ByteRange) : Prop :=
  forall q t b, q <> owner -> held ls q t b -> in_range b range -> t <> F_WRLCK /\ lt <> F_WRLCK.

Lemma first_conflict_none ls owner lt range :
  Forall valid_lock ls -> valid_range range ->
  first_conflict ls owner lt range = None <-> grantable ls owner lt range.
Proof.
  intros Hls Hr. unfold first_conflict. rewrite min_by_key_none. split.
  - intros Hf q t b Hq (l & Hin & Ho & Ht & Hb) Hbr.
    assert (Hnc : conflicts l owner lt range <> true).
    { intros Hc. assert (Hx : l ∈ List.filter (fun l => conflicts l owner lt range) ls)
        by (by apply filter_In_iff). rewrite Hf in Hx. by apply not_elem_of_nil in Hx. }
    rewrite Forall_forall in Hls. rewrite conflicts_spec in Hnc;
      [|by apply Hls|done].
    split; intros ->; apply Hnc; repeat split; try congruence; eauto.
  - intros Hg. destruct (List.filter _ ls) as [|l fl] eqn:Hf; [done|exfalso].
    assert (Hx : l ∈ List.filter (fun l => conflicts l owner lt range) ls) by (rewrite Hf; left).
    apply filter_In_iff in Hx as [Hin Hc]. rewrite Forall_forall in Hls.
    rewrite conflicts_spec in Hc; [|by apply Hls|done].
    destruct Hc as (Ho & (b & Hb & Hbr) & Hw).
    destruct (Hg (owner_pid l) (lock_type l) b) as [? ?]; [done| |done|tauto].
    exists l. auto.
Qed.

Lemma first_conflict_some ls owner lt range l :
  first_conflict ls owner lt range = Some l ->
  l ∈ ls /\ conflicts l owner lt range = true /\
  forall l', l' ∈ ls -> conflicts l' owner lt range = true ->
    r_start (lrange l) <= r_start (lrange l').
Proof.
  intros [Hin Hmin]%min_by_key_some. apply filter_In_iff in Hin as [Hin Hc].
  repeat split; [done|done|]. intros l' Hl' Hc'. rewrite Forall_forall in Hmin.
  apply (Hmin l'). by apply filter_In_iff.
Qed.

(** ** The invariant of one inode *)

(** Mutual exclusion: two owners share a byte only for reading. *)
Definition excl_ok (ls : list PosixLock) : Prop :=
  forall p q t1 t2 b, p <> q -> held ls p t1 b -> held ls q t2 b ->
    t1 <> F_WRLCK /\ t2 <> F_WRLCK.

(** One owner holds a byte with one type at most. *)
Definition one_type (ls : list PosixLock) : Prop :=
  forall p t1 t2 b, held ls p t1 b -> held ls p t2 b -> t1 = t2.

Record posix_ok (ls : list PosixLock) : Prop := {
  po_wf : wf_locks ls;
  po_excl : excl_ok ls;
  po_one : one_type ls;
  po_type : forall p t b, held ls p t b -> t = F_RDLCK \/ t = F_WRLCK;
}.

Lemma posix_ok_nil : posix_ok [].
Proof.
  split.
  - split; constructor.
  - intros ?????? []%held_nil.
  - intros ???? []%held_nil.
  - intros ??? []%held_nil.
Qed.

Lemma replace_posix_ok ls owner lt range :
  valid_range range -> (lt = F_RDLCK \/ lt = F_WRLCK \/ lt = F_UNLCK) ->
  (lt = F_UNLCK \/ grantable ls owner lt range) ->
  posix_ok ls -> posix_ok (replace_owner_range ls owner lt range).
Proof.
  intros Hr Ht Hg [[Hv _] He Ho Hty].
  destruct (replace_wf_held ls owner lt range Hv Hr) as [Hwf Hh].
  split; [done|intros p q t1 t2 b Hpq|intros p t1 t2 b|intros p t b]; rewrite !Hh.
  - intros [[H1 N1]|(U1 & -> & -> & R1)] [[H2 N2]|(U2 & -> & -> & R2)].
    + eapply He; eauto.
    + destruct Hg as [?|Hg]; [done|]. eapply Hg; eauto.
    + destruct Hg as [?|Hg]; [done|]. destruct (Hg q t2 b); auto.
    + done.
  - intros [[H1 N1]|(U1 & -> & -> & R1)] [[H2 N2]|(U2 & ? & -> & R2)]; try tauto.
    eapply Ho; eauto.
  - intros [[H1 N1]|(U1 & -> & -> & R1)]; [eauto|tauto].
Qed.

Lemma wf_locks_filter f ls : wf_locks ls -> wf_locks (List.filter f ls).
Proof.
  intros [Hv Hs]. split; [by apply Forall_filter_b|].
  induction Hs as [|x ls Hs IH Hx]; simpl; [constructor|].
  inversion_clear Hv. case_if; [|auto]. constructor; [auto|by apply Forall_filter_b].
Qed.

(** Dropping locks (an exiting process, a closed file) keeps the invariant. *)
Lemma filter_posix_ok f ls : posix_ok ls -> posix_ok (List.filter f ls).
Proof.
  intros [Hwf He Ho Hty].
  assert (Hsub : forall p t b, held (List.filter f ls) p t b -> held ls p t b).
  { intros p t b (l & [Hin _]%filter_In_iff & H). exists l. auto. }
  split; [by apply wf_locks_filter| | |]; unfold excl_ok, one_type; eauto.
Qed.

#[export] Hint Resolve posix_ok_nil filter_posix_ok : kairix.

(** ** The user structure: round trips and bounds *)

Definition user_flock_ok (fl : UserFlock) : Prop :=
  in_i 16 (uf_type fl) /\ in_i 16 (uf_whence fl) /\ in_i 64 (uf_start fl) /\
  in_i 64 (uf_len fl) /\ in_i 32 (uf_pid fl).

Lemma encode_flock_length fl : length (encode_flock fl) = FLOCK64_SIZE.
Proof. unfold encode_flock. by rewrite !splice_length by (rewrite ?splice_length; simpl; lia). Qed.

(** The encoded structure with its padding written out. *)
Lemma encode_flock_layout fl :
  encode_flock fl =
  le_store 2 (u16 (uf_type fl)) ++ le_store 2 (u16 (uf_whence fl)) ++ [0; 0; 0; 0] ++
  le_store 8 (usize (uf_start fl)) ++ le_store 8 (usize (uf_len fl)) ++
  le_store 4 (u32 (uf_pid fl)) ++ [0; 0; 0; 0].
Proof. reflexivity. Qed.

Lemma signed_le_store n z :
  (0 < n)%nat -> in_i (8 * Z.of_nat n) z ->
  signed (8 * Z.of_nat n) (le_load (le_store n (wrap (8 * Z.of_nat n) z))) = z.
Proof. intros Hn Hz. rewrite le_load_store, wrap_wrap. apply signed_wrap; [lia|done]. Qed.

Lemma decode_encode_flock fl : user_flock_ok fl -> decode_flock (encode_flock fl) = fl.
Proof.
  intros (Ht & Hw & Hs & Hl & Hp). rewrite encode_flock_layout.
  destruct fl as [ty wh st ln pd]; simpl uf_type in *; simpl uf_whence in *;
    simpl uf_start in *; simpl uf_len in *; simpl uf_pid in *.
  unfold decode_flock. f_equal.
  - exact (signed_le_store 2 ty ltac:(lia) Ht).
  - exact (signed_le_store 2 wh ltac:(lia) Hw).
  - exact (signed_le_store 8 st ltac:(lia) Hs).
  - exact (signed_le_store 8 ln ltac:(lia) Hl).
  - exact (signed_le_store 4 pd ltac:(lia) Hp).
Qed.

Lemma checked_add_small a b :
  - 2 ^ 126 <= a < 2 ^ 126 -> - 2 ^ 126 <= b < 2 ^ 126 ->
  checked_add_i128 a b = Some (a + b).
Proof. intros. unfold checked_add_i128. case_if; [done|]. destruct E; to_prop; lia. Qed.

(** The first byte a request refers to, when [l_whence] is valid. *)
Definition flock_base (f : File) (fl : UserFlock) : option Z :=
  if uf_whence fl =? SEEK_SET then Some 0
  else if uf_whence fl =? SEEK_CUR then Some (f_offset f)
  else if uf_whence fl =? SEEK_END then f_size f
  else None.

Definition file_ok (f : File) : Prop :=
  in_u 64 (f_offset f) /\ (forall s, f_size f = Some s -> in_u 64 s).

(** The bytes the POSIX text gives to a request, relative to its anchor. *)
Definition posix_bytes (anchor len b : Z) : Prop :=
  if 0 <? len then anchor <= b < anchor + len
  else if len =? 0 then anchor <= b <= OFFSET_MAX
  else anchor + len <= b < anchor.

Lemma normalize_range_ok f fl r :
  file_ok f -> in_i 64 (uf_start fl) -> in_i 64 (uf_len fl) ->
  normalize_range f fl = Ok r ->
  valid_range r /\
  exists base, flock_base f fl = Some base /\
    forall b, in_range b r <-> posix_bytes (base + uf_start fl) (uf_len fl) b.
Proof.
  unfold file_ok, in_u, in_i, normalize_range, flock_base. intros [Hof Hsz] Hs Hl.
  intros H. apply rbind_ok in H as (base & Hbase & H).
  assert (Hb : (if uf_whence fl =? SEEK_SET then Some 0
    else if uf_whence fl =? SEEK_CUR then Some (f_offset f)
    else if uf_whence fl =? SEEK_END then f_size f else None) = Some base /\ in_u 64 base).
  { revert Hbase. unfold in_u. do 2 (case_if; [intros [= <-]; split; [done|lia]|]).
    case_if; [|done]. destruct (f_size f) eqn:Es; [|done]. intros [= <-]. eauto. }
  destruct Hb as [-> Hb]. unfold in_u in Hb.
  rewrite checked_add_small in H by lia. simpl in H.
  unfold valid_range, in_range, posix_bytes, OFFSET_MAX, I64_MAX in *.
  case_if_in H; [done|].
  case_if_in H; [|case_if_in H].
  - injection H as <-; simpl. split; [lia|]. eexists; split; [done|]. intros b.
    repeat case_if; lia.
  - rewrite checked_add_small in H by lia. simpl in H. case_if_in H; [done|].
    injection H as <-; simpl. split; [lia|]. eexists; split; [done|]. intros b. repeat case_if; lia.
  - rewrite checked_add_small in H by lia. simpl in H. case_if_in H; [done|].
    injection H as <-; simpl. split; [lia|]. eexists; split; [done|]. intros b.
    repeat case_if; lia.
Qed.

Lemma conflict_to_user_normalize f l :
  valid_lock l -> normalize_range f (conflict_to_user l) = Ok (lrange l).
Proof.
  assert (HM : I64_MAX = 2 ^ 63 - 1) by reflexivity.
  unfold valid_lock, valid_range, OFFSET_MAX. destruct l as [p t [s e]]; cbn [lrange r_start r_end].
  intros Hv. unfold normalize_range, conflict_to_user, OFFSET_MAX.
  cbn [lrange r_start r_end uf_whence uf_start uf_len].
  change (SEEK_SET =? SEEK_SET) with true. cbn [rbind].
  rewrite (signed_small 64 s) by lia. rewrite checked_add_small by lia. cbn [rbind ok_or].
  rewrite Z.add_0_l. case_raw E; to_prop; [destruct E; to_prop; lia|].
  rewrite wrap_small by (unfold in_u; lia).
  destruct (e =? I64_MAX) eqn:Ee; to_prop; [cbn; by subst|].
  repeat (case_if; try lia).
  rewrite checked_add_small by lia. cbn [rbind ok_or].
  case_if; [lia|]. do 2 f_equal. lia.
Qed.

(** ** Main properties *)

(** C38: [replace_owner_range] implements its abstract specification on the map
    from (owner, byte) to lock type: inside the requested range the owner's old
    locks are gone and, unless the request is F_UNLCK, the new type is held;
    every other (owner, byte) is unchanged.  The result is sorted, has valid
    ranges, and adjacent ranges of one owner and type have been merged. *)
Theorem replace_owner_range_refines ls owner lt range :
  Forall valid_lock ls -> valid_range range ->
  wf_locks (replace_owner_range ls owner lt range) /\
  forall p t b, held (replace_owner_range ls owner lt range) p t b <->
    if bool_decide (p = owner /\ in_range b range)
    then lt <> F_UNLCK /\ t = lt
    else held ls p t b.
Proof.
  intros Hls Hr. destruct (replace_wf_held ls owner lt range Hls Hr) as [Hwf Hh].
  split; [done|]. intros p t b. rewrite Hh. case_if; naive_solver.
Qed.

Definition demo_locks : list PosixLock :=
  [mkLock 1 F_RDLCK (mkRange 0 9); mkLock 1 F_WRLCK (mkRange 20 29); mkLock 2 F_RDLCK (mkRange 5 40)].

Lemma demo_locks_valid : Forall valid_lock demo_locks.
Proof.
  repeat constructor; unfold OFFSET_MAX, I64_MAX; simpl; lia.
Qed.

Lemma replace_owner_range_refines_witness :
  replace_owner_range demo_locks 1 F_WRLCK (mkRange 10 19) =
    [mkLock 1 F_RDLCK (mkRange 0 9); mkLock 1 F_WRLCK (mkRange 10 29);
     mkLock 2 F_RDLCK (mkRange 5 40)] /\
  wf_locks (replace_owner_range demo_locks 1 F_WRLCK (mkRange 10 19)).
Proof.
  split; [vm_compute; reflexivity|].
  apply (replace_owner_range_refines demo_locks 1 F_WRLCK (mkRange 10 19)).
  - exact demo_locks_valid.
  - unfold valid_range, OFFSET_MAX, I64_MAX; simpl; lia.
Defined.

(** a successful [normalize_range] returns a valid range that contains
    exactly the bytes POSIX assigns to the request: [l_len] bytes from the
    anchor, the [-l_len] bytes before it when [l_len] is negative, and
    everything up to the largest offset when it is zero. *)
Theorem normalize_range_exact f fl r :
  file_ok f -> in_i 64 (uf_start fl) -> in_i 64 (uf_len fl) ->
  normalize_range f fl = Ok r ->
  valid_range r /\
  exists base, flock_base f fl = Some base /\
    forall b, in_range b r <-> posix_bytes (base + uf_start fl) (uf_len fl) b.
Proof. apply normalize_range_ok. Qed.

Definition demo_file : File := mkFile 77 (Some 3) 100 (Some 4096) true true.

Lemma normalize_range_exact_witness :
  normalize_range demo_file (mkUserFlock F_WRLCK SEEK_CUR 20 (-5) 0) = Ok (mkRange 115 119) /\
  valid_range (mkRange 115 119).
Proof.
  split; [reflexivity|].
  refine (proj1 (normalize_range_exact demo_file (mkUserFlock F_WRLCK SEEK_CUR 20 (-5) 0) _ _ _ _ _)).
  - split; [unfold in_u; simpl; lia|]. intros s [= <-]. unfold in_u; lia.
  - unfold in_i; simpl; lia.
  - unfold in_i; simpl; lia.
  - reflexivity.
Defined.

(** the description of a conflicting lock that F_GETLK reports denotes the
    very range of that lock: reading it back as a SEEK_SET request gives the
    same byte range, for every valid lock, open-ended ones included. *)
Theorem conflict_report_roundtrip f l :
  valid_lock l ->
  normalize_range f (conflict_to_user l) = Ok (lrange l) /\
  (in_i 32 (owner_pid l) -> in_i 16 (lock_type l) ->
   decode_flock (encode_flock (conflict_to_user l)) = conflict_to_user l /\
   uf_pid (conflict_to_user l) = owner_pid l).
Proof.
  intros Hl. split; [by apply conflict_to_user_normalize|]. intros Hp Ht. split.
  - apply decode_encode_flock. unfold user_flock_ok, conflict_to_user; simpl.
    split; [done|]. split; [by vm_compute|]. split; [apply signed_range; lia|].
    split; [|apply signed_range; lia].
    destruct (_ =? OFFSET_MAX); [by vm_compute|].
    pose proof (wrap_range 64 (r_end (lrange l) - r_start (lrange l) + 1) ltac:(lia)) as [H0 _].
    case_if; [|by vm_compute]. unfold in_i, I64_MAX in *. lia.
  - simpl. apply signed_id; [lia|done].
Qed.

Lemma conflict_report_roundtrip_witness :
  normalize_range demo_file (conflict_to_user (mkLock 9 F_WRLCK (mkRange 512 OFFSET_MAX)))
  = Ok (mkRange 512 OFFSET_MAX).
Proof.
  refine (proj1 (conflict_report_roundtrip demo_file (mkLock 9 F_WRLCK (mkRange 512 OFFSET_MAX)) _)).
  unfold valid_lock, valid_range, OFFSET_MAX, I64_MAX; simpl; lia.
Defined.
