(* ===== verification/RecordLockSys.v ===== *)
(** * File locks: the system calls (os/src/syscall/fs/record_lock.rs)

    [fcntl_record_lock], [sys_flock] and the release paths of closing files
    and exiting processes, over a world that holds the global lock table, the
    tasks' liveness, the descriptor tables and user memory.

    A blocking call runs [block_current_and_run_next] between two attempts:
    the rest of the system runs there.  In the handlers this is the next
    element of [env], a list of arbitrary world transformers; in the step
    relation [step] it is every other atomic section of every task. *)

From stdpp Require Import sorting.
From S2P Require Import Prelude SysErr UserMem RecordLock.

Record World (U : Type) := mkWorld {
  w_table : gmap Z InodeLocks;           (* RECORD_LOCKS *)
  w_live : gset Z;                       (* tasks with a strong reference *)
  w_interrupted : gset Z;                (* interrupted_by_signal *)
  w_gone : gset Z;                       (* tasks whose process is dropped or a zombie *)
  w_fds : gmap Z (list (option File));   (* descriptor table of each process *)
  w_woken : list Z;                      (* wakeup_task calls, oldest first *)
  w_umem : U }.
Arguments mkWorld {U}.
Arguments w_table {U}. Arguments w_live {U}. Arguments w_interrupted {U}.
Arguments w_gone {U}. Arguments w_fds {U}. Arguments w_woken {U}. Arguments w_umem {U}.

Definition LOCK_SH : Z := 1.
Definition LOCK_EX : Z := 2.
Definition LOCK_NB : Z := 4.
Definition LOCK_UN : Z := 8.

Section Handlers.
Context {U : Type} `{UserMem U}.
Implicit Types w : World U.

Definition with_table w (t : gmap Z InodeLocks) : World U :=
  mkWorld t (w_live w) (w_interrupted w) (w_gone w) (w_fds w) (w_woken w) (w_umem w).
Definition with_umem w (u : U) : World U :=
  mkWorld (w_table w) (w_live w) (w_interrupted w) (w_gone w) (w_fds w) (w_woken w) u.
Definition clear_interrupted w (task : Z) : World U :=
  mkWorld (w_table w) (w_live w) (w_interrupted w ∖ {[task]}) (w_gone w) (w_fds w)
    (w_woken w) (w_umem w).

(** [for waiter in waiters { wakeup_task(waiter) }]. *)
Definition wake_waiters (ws : list Z) w : World U :=
  mkWorld (w_table w) (w_live w) (w_interrupted w) (w_gone w) (w_fds w)
    (w_woken w ++ ws) (w_umem w).

(** [if inode_locks_empty(inode) { table.inodes.remove(&key) }] after an update. *)
Definition settle (key : Z) (i : InodeLocks) (t : gmap Z InodeLocks) : gmap Z InodeLocks :=
  if inode_locks_empty i then delete key t else <[key := i]> t.

Definition read_flock w (arg : Z) : SysResult UserFlock :=
  if arg =? 0 then Err EFAULT
  else let? bs := read_user_bytes (w_umem w) arg FLOCK64_SIZE in Ok (decode_flock bs).

Definition write_flock w (arg : Z) (fl : UserFlock) : World U * SysResult Z :=
  match copy_to_user (w_umem w) arg (encode_flock fl) with
  | Ok u => (with_umem w u, Ok 0)
  | Err e => (w, Err e)
  end.

Definition remove_waiter (key task : Z) w : World U :=
  match w_table w !! key with
  | None => w
  | Some i =>
      let i := mkInode (locks i) (drop_waiter (w_live w) (waiters i) task)
                 (flock_locks i) (flock_waiters i) in
      with_table w (settle key i (w_table w))
  end.

Definition remove_flock_waiter (key task : Z) w : World U :=
  match w_table w !! key with
  | None => w
  | Some i =>
      let i := mkInode (locks i) (waiters i) (flock_locks i)
                 (drop_waiter (w_live w) (flock_waiters i) task) in
      with_table w (settle key i (w_table w))
  end.

(** [table.inodes.entry(key).or_default()]. *)
Definition entry w (key : Z) : InodeLocks := default InodeLocks_default (w_table w !! key).

(** One turn of the loop of [fcntl_record_lock], up to the block: [None] means
    the task is about to block. *)
Definition setlk_attempt (key owner lt : Z) (range : ByteRange) (blocking : bool) (task : Z) w
  : World U * option (SysResult Z) :=
  let inode := entry w key in
  if (lt =? F_UNLCK) || bool_decide (first_conflict (locks inode) owner lt range = None) then
    let inode := set_locks inode (replace_owner_range (locks inode) owner lt range) in
    let '(inode, ws) := take_waiters (w_live w) inode in
    (wake_waiters ws (with_table w (settle key inode (w_table w))), Some (Ok 0))
  else if negb blocking then
    (with_table w (<[key := inode]> (w_table w)), Some (Err EAGAIN))
  else
    (with_table w (<[key := register_waiter (w_live w) inode task]> (w_table w)), None).

(** What follows [block_current_and_run_next] in both loops. *)
Definition after_block (remove : World U -> World U) (task : Z) w
  : World U * option (SysResult Z) :=
  if bool_decide (task ∈ w_interrupted w)
  then (remove (clear_interrupted w task), Some (Err EINTR))
  else if bool_decide (task ∈ w_gone w) then (remove w, Some (Err EINTR))
  else (w, None).

Fixpoint setlk_loop (env : list (World U -> World U)) (key owner lt : Z) (range : ByteRange)
    (blocking : bool) (task : Z) w : World U * option (SysResult Z) :=
  match setlk_attempt key owner lt range blocking task w with
  | (w, Some r) => (w, Some r)
  | (w, None) =>
      match env with
      | [] => (w, None)
      | e :: env =>
          match after_block (remove_waiter key task) task (e w) with
          | (w, Some r) => (w, Some r)
          | (w, None) => setlk_loop env key owner lt range blocking task w
          end
      end
  end.

(** [fcntl_record_lock]; the last component is [None] while the call is
    still blocked after all of [env]. *)
Definition fcntl_record_lock (env : list (World U -> World U)) (file : File) (cmd arg : Z)
    (pid : Z) (current_task : option Z) w : World U * option (SysResult Z) :=
  match read_flock w arg with
  | Err e => (w, Some (Err e))
  | Ok requested =>
    let lt := uf_type requested in
    if negb ((lt =? F_RDLCK) || (lt =? F_WRLCK) || (lt =? F_UNLCK)) then (w, Some (Err EINVAL))
    else if (cmd =? F_GETLK) && (lt =? F_UNLCK) then (w, Some (Err EINVAL))
    else if negb (cmd =? F_GETLK) && (lt =? F_RDLCK) && negb (f_readable file)
    then (w, Some (Err EBADF))
    else if negb (cmd =? F_GETLK) && (lt =? F_WRLCK) && negb (f_writable file)
    then (w, Some (Err EBADF))
    else
      match (let? key := inode_key file in
             let? range := normalize_range file requested in Ok (key, range)) with
      | Err e => (w, Some (Err e))
      | Ok (key, range) =>
        if cmd =? F_GETLK then
          let conflict := match w_table w !! key with
                          | Some inode => first_conflict (locks inode) pid lt range
                          | None => None
                          end in
          let result := match conflict with
                        | None => mkUserFlock F_UNLCK (uf_whence requested) (uf_start requested)
                                    (uf_len requested) (uf_pid requested)
                        | Some l => conflict_to_user l
                        end in
          let '(w, r) := write_flock w arg result in (w, Some r)
        else
          match current_task with
          | None => (w, Some (Err ESRCH))
          | Some task => setlk_loop env key pid lt range (cmd =? F_SETLKW) task w
          end
      end
  end.

(** ** Whole-file locks *)

(** The table walk shared by the two release functions: for every key in
    [BTreeMap] order, drop the locks [keep] rejects and take the waiters of an
    inode that lost one. *)
Definition release_inode {L : Type} (get : InodeLocks -> list L)
    (set : InodeLocks -> list L -> InodeLocks)
    (take : InodeLocks -> InodeLocks * list Z) (keep : L -> bool)
    (key : Z) (st : gmap Z InodeLocks * list Z) : gmap Z InodeLocks * list Z :=
  let '(t, ws) := st in
  match t !! key with
  | None => (t, ws)
  | Some i =>
      let old_len := length (get i) in
      let i := set i (List.filter keep (get i)) in
      let '(i, taken) := if negb (length (get i) =? old_len)%nat then take i else (i, []) in
      (settle key i t, ws ++ taken)
  end.

(** [table.inodes.keys()]: ascending. *)
Definition sorted_keys (t : gmap Z InodeLocks) : list Z :=
  merge_sort Z.le (map_to_list t).*1.

Definition ptr_eq_file (f g : File) : bool := f_ptr f =? f_ptr g.

(** Does any process have a descriptor for this open file description? *)
Definition still_referenced w (file : File) : bool :=
  existsb (fun p : Z * list (option File) =>
             existsb (fun o => match o with Some g => ptr_eq_file g file | None => false end) p.2)
    (map_to_list (w_fds w)).

Definition release_file_description_flock_if_unreferenced (file : File) w : World U :=
  let owner := open_file_description_key file in
  let has_lock := existsb (fun p : Z * InodeLocks =>
                     existsb (fun l => owner_file l =? owner) (flock_locks p.2))
                    (map_to_list (w_table w)) in
  if negb has_lock then w
  else if still_referenced w file then w
  else
    let '(t, ws) :=
      fold_left (fun st key =>
          release_inode flock_locks set_flock_locks (take_flock_waiters (w_live w))
            (fun l => negb (owner_file l =? owner)) key st)
        (sorted_keys (w_table w)) (w_table w, []) in
    wake_waiters ws (with_table w t).

(** [release_process_record_locks]. *)
Definition release_process_record_locks (owner : Z) w : World U :=
  let '(t, ws) :=
    fold_left (fun st key =>
        release_inode locks set_locks (take_waiters (w_live w))
          (fun l => negb (owner_pid l =? owner)) key st)
      (sorted_keys (w_table w)) (w_table w, []) in
  wake_waiters ws (with_table w t).

(** [release_process_file_locks]. *)
Definition release_process_file_locks (owner : Z) (file : File) w : World U :=
  match f_inode_id file with
  | None => w
  | Some key =>
      let '(t, ws) := release_inode locks set_locks (take_waiters (w_live w))
                        (fun l => negb (owner_pid l =? owner)) key (w_table w, []) in
      release_file_description_flock_if_unreferenced file (wake_waiters ws (with_table w t))
  end.

(** The [LOCK_UN] branch of [sys_flock]. *)
Definition flock_unlock (key owner : Z) w : World U :=
  let '(t, ws) := release_inode flock_locks set_flock_locks (take_flock_waiters (w_live w))
                    (fun l => negb (owner_file l =? owner)) key (w_table w, []) in
  wake_waiters ws (with_table w t).

(** The conversion step: an existing lock of the other mode is dropped first. *)
Definition flock_convert (key owner : Z) (requested_exclusive : bool) w : World U :=
  match w_table w !! key with
  | None => w
  | Some i =>
      if existsb (fun l => (owner_file l =? owner)
                           && negb (Bool.eqb (exclusive l) requested_exclusive)) (flock_locks i)
      then
        let i := set_flock_locks i (List.filter (fun l => negb (owner_file l =? owner)) (flock_locks i)) in
        let '(i, ws) := take_flock_waiters (w_live w) i in
        wake_waiters ws (with_table w (<[key := i]> (w_table w)))
      else w
  end.

(** One turn of the loop of [sys_flock]. *)
Definition flock_attempt (file : File) (key owner : Z) (requested_exclusive nonblocking : bool)
    (task : Z) w : World U * option (SysResult Z) :=
  let inode := entry w key in
  if negb (flock_conflicts (flock_locks inode) owner requested_exclusive) then
    let inode := set_flock_locks inode
      (List.filter (fun l => negb (owner_file l =? owner)) (flock_locks inode)
       ++ [mkFlock owner requested_exclusive]) in
    let '(inode, ws) := take_flock_waiters (w_live w) inode in
    let w := wake_waiters ws (with_table w (<[key := inode]> (w_table w))) in
    (release_file_description_flock_if_unreferenced file w, Some (Ok 0))
  else if nonblocking then
    (with_table w (<[key := inode]> (w_table w)), Some (Err EAGAIN))
  else
    (with_table w (<[key := register_flock_waiter (w_live w) inode task]> (w_table w)), None).

Fixpoint flock_loop (env : list (World U -> World U)) (file : File) (key owner : Z)
    (requested_exclusive nonblocking : bool) (task : Z) w : World U * option (SysResult Z) :=
  match flock_attempt file key owner requested_exclusive nonblocking task w with
  | (w, Some r) => (w, Some r)
  | (w, None) =>
      match env with
      | [] => (w, None)
      | e :: env =>
          match after_block (remove_flock_waiter key task) task (e w) with
          | (w, Some r) => (w, Some r)
          | (w, None) => flock_loop env file key owner requested_exclusive nonblocking task w
          end
      end
  end.

Definition sys_flock (env : list (World U -> World U)) (fd : nat) (operation : Z)
    (pid : Z) (current_task : option Z) w : World U * option (SysResult Z) :=
  if negb (Z.ldiff operation (LOCK_SH + LOCK_EX + LOCK_NB + LOCK_UN) =? 0)
  then (w, Some (Err EINVAL))
  else
    let command := Z.ldiff operation LOCK_NB in
    if negb ((command =? LOCK_SH) || (command =? LOCK_EX) || (command =? LOCK_UN))
    then (w, Some (Err EINVAL))
    else
      match (let? file := ok_or (mjoin (default [] (w_fds w !! pid) !! fd)) EBADF in
             let? key := inode_key file in Ok (file, key)) with
      | Err e => (w, Some (Err e))
      | Ok (file, key) =>
        let owner := open_file_description_key file in
        if command =? LOCK_UN then
          match w_table w !! key with
          | None => (w, Some (Ok 0))
          | Some _ => (flock_unlock key owner w, Some (Ok 0))
          end
        else
          let requested_exclusive := command =? LOCK_EX in
          let nonblocking := negb (Z.land operation LOCK_NB =? 0) in
          match current_task with
          | None => (w, Some (Err ESRCH))
          | Some task =>
              flock_loop env file key owner requested_exclusive nonblocking task
                (flock_convert key owner requested_exclusive w)
          end
      end.

End Handlers.

(** ** The invariant of the lock table *)

(** Whole-file locks: one entry per open file description, and an exclusive
    entry is alone. *)
Record flock_ok (ls : list FlockLock) : Prop := {
  fo_nodup : NoDup (owner_file <$> ls);
  fo_excl : forall a b, a ∈ ls -> b ∈ ls -> owner_file a <> owner_file b ->
            exclusive a = false /\ exclusive b = false;
}.

Record inode_ok (i : InodeLocks) : Prop := {
  io_posix : posix_ok (locks i);
  io_flock : flock_ok (flock_locks i);
}.

Definition table_ok (t : gmap Z InodeLocks) : Prop := map_Forall (fun _ => inode_ok) t.

Lemma flock_ok_nil : flock_ok [].
Proof. split; [constructor|]. intros ?? []%not_elem_of_nil. Qed.

Lemma fmap_filter_NoDup {A B} (f : A -> B) (keep : A -> bool) (l : list A) :
  NoDup (f <$> l) -> NoDup (f <$> List.filter keep l).
Proof.
  induction l as [|x l IH]; simpl; [done|]. rewrite NoDup_cons. intros [Hx Hl].
  case_if; [|auto]. csimpl. apply NoDup_cons. split; [|auto].
  intros Hy. apply Hx. apply list_elem_of_fmap in Hy as (y & -> & [Hy _]%filter_In_iff).
  apply list_elem_of_fmap. eauto.
Qed.

Lemma flock_ok_filter keep ls : flock_ok ls -> flock_ok (List.filter keep ls).
Proof.
  intros [Hn He]. split; [by apply fmap_filter_NoDup|].
  intros a b [Ha _]%filter_In_iff [Hb _]%filter_In_iff. eauto.
Qed.

Lemma flock_ok_grant ls owner ex :
  flock_conflicts ls owner ex = false -> flock_ok ls ->
  flock_ok (List.filter (fun l => negb (owner_file l =? owner)) ls ++ [mkFlock owner ex]).
Proof.
  intros Hc [Hn He].
  assert (Hl : forall l, l ∈ List.filter (fun l => negb (owner_file l =? owner)) ls ->
                 l ∈ ls /\ owner_file l <> owner /\ exclusive l = false /\ ex = false).
  { intros l [Hin Ho]%filter_In_iff. to_prop. split; [done|]. split; [done|].
    assert (negb (owner_file l =? owner) && (exclusive l || ex) = false) as Hx.
    { unfold flock_conflicts in Hc. destruct (_ && _) eqn:Hx; [|done].
      assert (existsb (fun l => negb (owner_file l =? owner) && (exclusive l || ex)) ls = true)
        by (apply existsb_exists; exists l; split; [by apply list_elem_of_In|done]).
      congruence. }
    apply Z.eqb_neq in Ho. rewrite Ho in Hx. simpl in Hx. by apply orb_false_iff in Hx. }
  split.
  - rewrite fmap_app. csimpl. apply NoDup_app. repeat split.
    + by apply fmap_filter_NoDup.
    + intros o Ho%list_elem_of_fmap. destruct Ho as (l & -> & (_ & ? & _)%Hl).
      rewrite list_elem_of_singleton. congruence.
    + apply NoDup_singleton.
  - intros a b. rewrite !elem_of_app, !list_elem_of_singleton.
    intros [Ha| ->] [Hb| ->] Hab; simpl.
    + apply He; [by apply Hl|by apply Hl|done].
    + by apply Hl in Ha as (_ & _ & -> & ->).
    + by apply Hl in Hb as (_ & _ & -> & ->).
    + done.
Qed.

Lemma inode_ok_default : inode_ok InodeLocks_default.
Proof. split; [apply posix_ok_nil|apply flock_ok_nil]. Qed.

Lemma inode_ok_ext i j :
  locks i = locks j -> flock_locks i = flock_locks j -> inode_ok i -> inode_ok j.
Proof. intros El Ef [Hp Hf]. split; congruence. Qed.

Lemma table_ok_insert key i t : inode_ok i -> table_ok t -> table_ok (<[key := i]> t).
Proof. intros. by apply (map_Forall_insert_2 (fun _ => inode_ok)). Qed.

Lemma table_ok_settle key i t : inode_ok i -> table_ok t -> table_ok (settle key i t).
Proof.
  intros. unfold settle. case_if; [by apply map_Forall_delete|by apply table_ok_insert].
Qed.

#[export] Hint Resolve inode_ok_default flock_ok_nil flock_ok_filter flock_ok_grant
  table_ok_insert table_ok_settle replace_posix_ok : kairix.

Section Steps.
Context {U : Type} `{UserMem U}.
Implicit Types w : World U.

Lemma entry_ok w key : table_ok (w_table w) -> inode_ok (entry w key).
Proof.
  intros Ht. unfold entry. destruct (w_table w !! key) eqn:E; simpl; [|apply inode_ok_default].
  by apply (Ht key).
Qed.

Definition lock_type_ok (lt : Z) : Prop := lt = F_RDLCK \/ lt = F_WRLCK \/ lt = F_UNLCK.

Lemma setlk_attempt_ok key owner lt range blocking task w :
  valid_range range -> lock_type_ok lt -> table_ok (w_table w) ->
  table_ok (w_table (setlk_attempt key owner lt range blocking task w).1).
Proof.
  intros Hr Hlt Ht. pose proof (entry_ok w key Ht) as [Hp Hf]. unfold setlk_attempt.
  case_raw E; [|case_raw E']; simpl.
  - apply table_ok_settle; [|done]. split; [|done]. simpl. apply replace_posix_ok; try done.
    apply orb_true_iff in E as [E|E]; to_prop; [by left|right].
    apply first_conflict_none; [apply Hp|done|done].
  - by apply table_ok_insert.
  - by apply table_ok_insert; [split|].
Qed.

Lemma remove_waiter_ok key task w : table_ok (w_table w) -> table_ok (w_table (remove_waiter key task w)).
Proof.
  intros Ht. unfold remove_waiter. destruct (w_table w !! key) as [i|] eqn:E; [|done]; simpl.
  apply table_ok_settle; [|done]. apply (inode_ok_ext i); [done|done|by apply (Ht key)].
Qed.

Lemma remove_flock_waiter_ok key task w :
  table_ok (w_table w) -> table_ok (w_table (remove_flock_waiter key task w)).
Proof.
  intros Ht. unfold remove_flock_waiter. destruct (w_table w !! key) as [i|] eqn:E; [|done]; simpl.
  apply table_ok_settle; [|done]. apply (inode_ok_ext i); [done|done|by apply (Ht key)].
Qed.

Lemma release_inode_posix_ok live keep key st :
  table_ok st.1 -> table_ok (release_inode locks set_locks (take_waiters live) keep key st).1.
Proof.
  destruct st as [t ws]; simpl. intros Ht. destruct (t !! key) as [i|] eqn:E; [|done].
  pose proof (Ht key i E) as [Hp Hf]. case_if; simpl;
    (apply table_ok_settle; [split; [by apply filter_posix_ok|done]|done]).
Qed.

Lemma release_inode_flock_ok live keep key st :
  table_ok st.1 ->
  table_ok (release_inode flock_locks set_flock_locks (take_flock_waiters live) keep key st).1.
Proof.
  destruct st as [t ws]; simpl. intros Ht. destruct (t !! key) as [i|] eqn:E; [|done].
  pose proof (Ht key i E) as [Hp Hf]. case_if; simpl;
    (apply table_ok_settle; [split; [done|by apply flock_ok_filter]|done]).
Qed.

Lemma fold_ok (f : gmap Z InodeLocks * list Z -> Z -> gmap Z InodeLocks * list Z) keys st :
  (forall st k, table_ok st.1 -> table_ok (f st k).1) ->
  table_ok st.1 -> table_ok (fold_left f keys st).1.
Proof. intros Hf. revert st. induction keys; simpl; auto. Qed.

Lemma release_unreferenced_ok file w :
  table_ok (w_table w) ->
  table_ok (w_table (release_file_description_flock_if_unreferenced file w)).
Proof.
  intros Ht. unfold release_file_description_flock_if_unreferenced.
  do 2 (case_raw E; [done|clear E]). case_match eqn:Ef. simpl.
  change g with (g, l).1. rewrite <- Ef. apply fold_ok; [|done].
  intros st k. apply release_inode_flock_ok.
Qed.

Lemma release_process_ok owner w :
  table_ok (w_table w) -> table_ok (w_table (release_process_record_locks owner w)).
Proof.
  intros Ht. unfold release_process_record_locks. case_match eqn:Ef. simpl.
  change g with (g, l).1. rewrite <- Ef. apply fold_ok; [|done].
  intros st k. apply release_inode_posix_ok.
Qed.

Lemma flock_unlock_ok key owner w :
  table_ok (w_table w) -> table_ok (w_table (flock_unlock key owner w)).
Proof.
  intros Ht. unfold flock_unlock. case_match eqn:Ef. simpl.
  change g with (g, l).1. rewrite <- Ef. by apply release_inode_flock_ok.
Qed.

Lemma flock_convert_ok key owner ex w :
  table_ok (w_table w) -> table_ok (w_table (flock_convert key owner ex w)).
Proof.
  intros Ht. unfold flock_convert. destruct (w_table w !! key) as [i|] eqn:E; [|done].
  case_raw E'; [|done]. simpl. pose proof (Ht key i E) as [Hp Hf].
  apply table_ok_insert; [|done]. split; [done|by apply flock_ok_filter].
Qed.

Lemma flock_attempt_ok file key owner ex nb task w :
  table_ok (w_table w) -> table_ok (w_table (flock_attempt file key owner ex nb task w).1).
Proof.
  intros Ht. pose proof (entry_ok w key Ht) as [Hp Hf]. unfold flock_attempt.
  case_raw E; [|case_raw E']; simpl.
  - apply release_unreferenced_ok. simpl. apply table_ok_insert; [|done].
    split; [done|]. simpl. apply negb_true_iff in E. by apply flock_ok_grant.
  - by apply table_ok_insert.
  - by apply table_ok_insert; [split|].
Qed.

(** ** Interleaving: the atomic sections of every task *)

(** Each rule is one critical section of the lock table, run by any task; the
    last rule is everything else the kernel does (tasks die, signals arrive,
    descriptors are opened and closed, user memory changes). *)
Inductive step : World U -> World U -> Prop :=
| step_setlk key owner lt range blocking task w :
    valid_range range -> lock_type_ok lt ->
    step w (setlk_attempt key owner lt range blocking task w).1
| step_remove_waiter key task w : step w (remove_waiter key task w)
| step_remove_flock_waiter key task w : step w (remove_flock_waiter key task w)
| step_flock_unlock key owner w : step w (flock_unlock key owner w)
| step_flock_convert key owner ex w : step w (flock_convert key owner ex w)
| step_flock_attempt file key owner ex nb task w :
    step w (flock_attempt file key owner ex nb task w).1
| step_release_record owner w : step w (release_process_record_locks owner w)
| step_release_file owner file w : step w (release_process_file_locks owner file w)
| step_other w w' : w_table w' = w_table w -> step w w'.

Lemma step_ok w w' : step w w' -> table_ok (w_table w) -> table_ok (w_table w').
Proof.
  destruct 1 as [| | | | | | | |w w' E]; intros Ht.
  - by apply setlk_attempt_ok.
  - by apply remove_waiter_ok.
  - by apply remove_flock_waiter_ok.
  - by apply flock_unlock_ok.
  - by apply flock_convert_ok.
  - by apply flock_attempt_ok.
  - by apply release_process_ok.
  - unfold release_process_file_locks. destruct (f_inode_id file); [|done].
    case_match eqn:Ef. apply release_unreferenced_ok. simpl.
    change g with (g, l).1. rewrite <- Ef. by apply release_inode_posix_ok.
  - by rewrite E.
Qed.

Lemma steps_ok w w' : rtc step w w' -> table_ok (w_table w) -> table_ok (w_table w').
Proof. induction 1; eauto using step_ok. Qed.

(** An environment of a blocked call: each element is the work of other tasks. *)
Definition fair_env (env : list (World U -> World U)) : Prop :=
  Forall (fun e => forall w, rtc step w (e w)) env.

Lemma after_block_steps remove task w w' r :
  (forall v, rtc step v (remove v)) ->
  after_block remove task w = (w', r) -> rtc step w w'.
Proof.
  intros Hrm. unfold after_block. case_if; [|case_if]; intros [= <- <-].
  - eapply rtc_l; [by apply (step_other w (clear_interrupted w task))|apply Hrm].
  - apply Hrm.
  - done.
Qed.

Lemma setlk_loop_steps env key owner lt range blocking task w w' r :
  valid_range range -> lock_type_ok lt -> fair_env env ->
  setlk_loop env key owner lt range blocking task w = (w', r) -> rtc step w w'.
Proof.
  intros Hr Hlt He. revert w. induction He as [|e env He _ IH]; intros w; simpl;
    pose proof (step_setlk key owner lt range blocking task w Hr Hlt) as Hs;
    destruct (setlk_attempt _ _ _ _ _ _ _) as [w1 [r1|]]; simpl in Hs.
  - intros [= <- <-]. by apply rtc_once.
  - intros [= <- <-]. by apply rtc_once.
  - intros [= <- <-]. by apply rtc_once.
  - destruct (after_block _ _ _) as [w2 [r2|]] eqn:Ea; intros Hl;
      (apply after_block_steps in Ea; [|intros; apply rtc_once, step_remove_waiter]).
    + injection Hl as <- <-. eapply rtc_l; [done|]. by etrans; [apply He|].
    + eapply rtc_l; [done|]. etrans; [apply He|]. etrans; [done|]. by apply IH.
Qed.

Lemma flock_loop_steps env file key owner ex nb task w w' r :
  fair_env env ->
  flock_loop env file key owner ex nb task w = (w', r) -> rtc step w w'.
Proof.
  intros He. revert w. induction He as [|e env He _ IH]; intros w; simpl;
    pose proof (step_flock_attempt file key owner ex nb task w) as Hs;
    destruct (flock_attempt _ _ _ _ _ _ _) as [w1 [r1|]]; simpl in Hs.
  - intros [= <- <-]. by apply rtc_once.
  - intros [= <- <-]. by apply rtc_once.
  - intros [= <- <-]. by apply rtc_once.
  - destruct (after_block _ _ _) as [w2 [r2|]] eqn:Ea; intros Hl;
      (apply after_block_steps in Ea; [|intros; apply rtc_once, step_remove_flock_waiter]).
    + injection Hl as <- <-. eapply rtc_l; [done|]. by etrans; [apply He|].
    + eapply rtc_l; [done|]. etrans; [apply He|]. etrans; [done|]. by apply IH.
Qed.

Lemma decode_flock_ok bs : user_flock_ok (decode_flock bs).
Proof. unfold user_flock_ok, decode_flock; simpl. repeat split; apply signed_range; lia. Qed.

Lemma fcntl_steps env file cmd arg pid task w w' r :
  file_ok file -> fair_env env ->
  fcntl_record_lock env file cmd arg pid task w = (w', r) -> rtc step w w'.
Proof.
  intros Hf He. unfold fcntl_record_lock, read_flock.
  assert (Hskip : forall v (q : option (SysResult Z)), (w, q) = (v, r) -> rtc step w v)
    by (intros v q [= <- _]; done).
  case_raw E1; simpl; [apply Hskip|].
  destruct (read_user_bytes _ _ _) as [bs|e]; simpl; [|apply Hskip].
  pose proof (decode_flock_ok bs) as (_ & _ & Hs & Hl & _).
  set (fl := decode_flock bs) in *. clearbody fl.
  case_raw E2; [apply Hskip|]. case_raw E3; [apply Hskip|]. case_raw E4; [apply Hskip|].
  case_raw E5; [apply Hskip|].
  destruct (inode_key file) as [key|e]; simpl; [|apply Hskip].
  destruct (normalize_range file fl) as [range|e] eqn:En; simpl; [|apply Hskip].
  apply normalize_range_ok in En as [Hr _]; [|done..].
  case_raw E6.
  - unfold write_flock. destruct (copy_to_user _ _ _); intros [= <- _]; [|done].
    by apply rtc_once, step_other.
  - destruct task as [task|]; [|apply Hskip]. apply setlk_loop_steps; [done| |done].
    apply negb_false_iff, orb_true_iff in E2 as [E2|E2]; [apply orb_true_iff in E2 as [E2|E2]|];
      to_prop; unfold lock_type_ok; auto.
Qed.

Lemma sys_flock_steps env fd op pid task w w' r :
  fair_env env -> sys_flock env fd op pid task w = (w', r) -> rtc step w w'.
Proof.
  intros He. unfold sys_flock.
  assert (Hskip : forall v (q : option (SysResult Z)), (w, q) = (v, r) -> rtc step w v)
    by (intros v q [= <- _]; done).
  case_raw E1; [apply Hskip|]. case_raw E2; [apply Hskip|].
  destruct (ok_or _ EBADF) as [file|e]; simpl; [|apply Hskip].
  destruct (inode_key file) as [key|e]; simpl; [|apply Hskip].
  case_raw E3.
  - destruct (w_table w !! key); [|apply Hskip]. intros [= <- _]. apply rtc_once, step_flock_unlock.
  - destruct task as [task|]; [|apply Hskip]. intros Hl. eapply rtc_l; [apply step_flock_convert|].
    by eapply flock_loop_steps.
Qed.

End Steps.

(** ** Releasing the locks of a process or of a file description *)

Section Release.
Context {L : Type} (get : InodeLocks -> list L) (set : InodeLocks -> list L -> InodeLocks)
  (take : InodeLocks -> InodeLocks * list Z) (keep : L -> bool).

(** What [release_inode] does to one inode: its new entry and the woken tasks. *)
Definition released (i : InodeLocks) : InodeLocks * list Z :=
  let i' := set i (List.filter keep (get i)) in
  if negb (length (get i') =? length (get i))%nat then take i' else (i', []).

Definition settled (i : InodeLocks) : option InodeLocks :=
  if inode_locks_empty i then None else Some i.

Lemma lookup_settle key i t k :
  settle key i t !! k = if decide (key = k) then settled i else t !! k.
Proof.
  unfold settle, settled. case_raw E; case_decide; subst; by simplify_map_eq.
Qed.

Lemma release_inode_unfold key t ws :
  release_inode get set take keep key (t, ws) =
  match t !! key with
  | None => (t, ws)
  | Some i => (settle key (released i).1 t, ws ++ (released i).2)
  end.
Proof.
  unfold release_inode, released. destruct (t !! key); [|done].
  case_raw E; [|done]. by destruct (take _).
Qed.

Lemma release_fold keys t ws :
  NoDup keys ->
  (forall k, (fold_left (fun st key => release_inode get set take keep key st) keys (t, ws)).1 !! k
     = if decide (k ∈ keys) then t !! k ≫= (fun i => settled (released i).1) else t !! k) /\
  (fold_left (fun st key => release_inode get set take keep key st) keys (t, ws)).2
     = ws ++ concat ((fun k => match t !! k with Some i => (released i).2 | None => [] end) <$> keys).
Proof.
  intros Hn. revert t ws. induction Hn as [|key keys Hk Hn IH]; intros t ws; cbn [fold_left].
  - split; [intros k; by rewrite decide_False by (apply not_elem_of_nil)|]. by rewrite app_nil_r.
  - rewrite release_inode_unfold. destruct (t !! key) as [i|] eqn:Ei.
    + destruct (IH (settle key (released i).1 t) (ws ++ (released i).2)) as [IH1 IH2]. split.
      * intros k. rewrite IH1, lookup_settle. destruct (decide (key = k)) as [<-|Hne].
        -- rewrite decide_False by done. rewrite decide_True by left. by rewrite Ei.
        -- destruct (decide (k ∈ keys)); [rewrite decide_True by (by right); done|].
           rewrite decide_False; [done|]. rewrite elem_of_cons. naive_solver.
      * rewrite IH2. csimpl. rewrite Ei, <- app_assoc. do 3 f_equal.
        apply list_fmap_ext. intros j k Hj. simpl. rewrite lookup_settle, decide_False; [done|].
        intros ->. apply Hk. by eapply list_elem_of_lookup_2.
    + destruct (IH t ws) as [IH1 IH2]. split.
      * intros k. rewrite IH1. destruct (decide (k ∈ keys)); [by rewrite decide_True by (by right)|].
        destruct (decide (k = key)) as [->|]; [rewrite decide_True by left; by rewrite Ei|].
        rewrite decide_False; [done|]. rewrite elem_of_cons. naive_solver.
      * rewrite IH2. csimpl. by rewrite Ei.
Qed.
End Release.

Lemma sorted_keys_spec t : NoDup (sorted_keys t) /\ forall k, k ∈ sorted_keys t <-> is_Some (t !! k).
Proof.
  unfold sorted_keys. pose proof (merge_sort_Permutation Z.le (map_to_list t).*1) as Hp. split.
  - rewrite Hp. apply NoDup_fst_map_to_list.
  - intros k. rewrite Hp, list_elem_of_fmap. split.
    + intros ([k' i] & -> & Hi%elem_of_map_to_list). eauto.
    + intros [i Hi]. exists (k, i). split; [done|]. by apply elem_of_map_to_list.
Qed.

Lemma lookup_lt_lookup {A} (t : gmap Z A) k (f : A -> option A) :
  (if decide (is_Some (t !! k)) then t !! k ≫= f else t !! k) = t !! k ≫= f.
Proof. case_decide as Hs; [done|]. by apply eq_None_not_Some in Hs as ->. Qed.

Section ReleaseProps.
Context {U : Type} `{UserMem U}.
Implicit Types w : World U.

Lemma release_process_lookup owner w k :
  w_table (release_process_record_locks owner w) !! k =
  w_table w !! k ≫= fun i =>
    settled (released locks set_locks (take_waiters (w_live w))
               (fun l => negb (owner_pid l =? owner)) i).1.
Proof.
  unfold release_process_record_locks. case_match eqn:Ef. simpl.
  destruct (sorted_keys_spec (w_table w)) as [Hn Hk].
  destruct (release_fold locks set_locks (take_waiters (w_live w))
    (fun l => negb (owner_pid l =? owner)) _ (w_table w) [] Hn) as [H1 _].
  rewrite Ef in H1. simpl in H1. rewrite H1, <- lookup_lt_lookup.
  destruct (decide (k ∈ sorted_keys (w_table w))) as [Hin|Hin]; rewrite Hk in Hin.
  - by rewrite decide_True.
  - by rewrite decide_False.
Qed.

Lemma release_process_woken owner w k i t :
  w_table w !! k = Some i -> t ∈ waiters i -> t ∈ w_live w ->
  (exists l, l ∈ locks i /\ owner_pid l = owner) ->
  t ∈ w_woken (release_process_record_locks owner w).
Proof.
  intros Hi Ht Hlive (l & Hl & Ho).
  unfold release_process_record_locks. case_match eqn:Ef. simpl.
  destruct (sorted_keys_spec (w_table w)) as [Hn Hk].
  destruct (release_fold locks set_locks (take_waiters (w_live w))
    (fun l => negb (owner_pid l =? owner)) _ (w_table w) [] Hn) as [_ H2].
  rewrite Ef in H2. simpl in H2. subst. apply elem_of_app. right.
  apply list_elem_of_In, in_concat. eexists. rewrite <- !list_elem_of_In. split.
  - apply list_elem_of_fmap. exists k. split; [done|]. apply Hk. eauto.
  - rewrite Hi. unfold released. simpl. case_if.
    + simpl. apply filter_In_iff. split; [done|]. by apply bool_decide_eq_true.
    + exfalso. apply filter_length_eq in E.
      rewrite <- E in Hl. apply filter_In_iff in Hl as [_ Hl]. to_prop. done.
Qed.
End ReleaseProps.

(** ** Non-blocking whole-file locks *)

Lemma flock_conflicts_own ls owner ex :
  flock_conflicts (List.filter (fun l => negb (owner_file l =? owner)) ls) owner ex =
  flock_conflicts ls owner ex.
Proof.
  unfold flock_conflicts. induction ls as [|l ls IH]; simpl; [done|].
  destruct (negb (owner_file l =? owner)) eqn:E; simpl; by rewrite ?E, IH.
Qed.

Section FlockProps.
Context {U : Type} `{UserMem U}.
Implicit Types w : World U.

Lemma flock_convert_entry key owner ex w :
  flock_conflicts (flock_locks (entry (flock_convert key owner ex w) key)) owner ex =
  flock_conflicts (flock_locks (entry w key)) owner ex.
Proof.
  unfold flock_convert. destruct (w_table w !! key) as [i|] eqn:Ei; [|done].
  case_raw E; [|done]. unfold entry; cbn. rewrite lookup_insert_eq, Ei; cbn.
  apply flock_conflicts_own.
Qed.

Lemma flock_convert_fds key owner ex w : w_fds (flock_convert key owner ex w) = w_fds w.
Proof. unfold flock_convert. destruct (w_table w !! key); [|done]. by case_raw E. Qed.

Lemma still_referenced_fd w pid fd file :
  mjoin (default [] (w_fds w !! pid) !! fd) = Some file -> still_referenced w file = true.
Proof.
  intros Hfd. destruct (w_fds w !! pid) as [fds|] eqn:Ep; cbn in Hfd; [|done].
  unfold still_referenced. apply existsb_exists. exists (pid, fds).
  split; [by apply list_elem_of_In, elem_of_map_to_list|]. apply existsb_exists.
  exists (Some file). split; [|unfold ptr_eq_file; apply Z.eqb_refl].
  apply list_elem_of_In. destruct (fds !! fd) as [o|] eqn:Eo; cbn in Hfd; [|done]. subst.
  by eapply list_elem_of_lookup_2.
Qed.

Lemma release_referenced file w :
  still_referenced w file = true ->
  release_file_description_flock_if_unreferenced file w = w.
Proof.
  intros E. unfold release_file_description_flock_if_unreferenced. case_raw E1; [done|].
  by rewrite E.
Qed.
End FlockProps.

(** ** Main properties *)

Section Properties.
Context {U : Type} `{UserMem U}.
Implicit Types w : World U.

(** C15: mutual exclusion.  From an empty lock table, after any interleaving of
    the critical sections of any tasks (lock attempts of both kinds, unlocks,
    conversions, interrupted waits, process exits, closed files) and any other
    change of the world: two processes hold record locks on a common byte of an
    inode only if both are read locks, two open file descriptions hold flocks
    on it only if both are shared, and every lock list stays sorted and merged. *)
Theorem lock_table_mutual_exclusion w w' key i :
  w_table w = ∅ -> rtc step w w' -> w_table w' !! key = Some i ->
  (forall p q t1 t2 b, p <> q -> held (locks i) p t1 b -> held (locks i) q t2 b ->
     t1 = F_RDLCK /\ t2 = F_RDLCK) /\
  (forall a b, a ∈ flock_locks i -> b ∈ flock_locks i -> owner_file a <> owner_file b ->
     exclusive a = false /\ exclusive b = false) /\
  wf_locks (locks i).
Proof.
  intros E Hs Hi.
  assert (Ht : table_ok (w_table w')).
  { eapply steps_ok; [done|]. rewrite E. apply map_Forall_empty. }
  destruct (Ht key i Hi) as [Hp Hf]. split; [|split; [apply Hf|apply Hp]].
  intros p q t1 t2 b Hpq H1 H2.
  destruct (po_excl _ Hp p q t1 t2 b Hpq H1 H2).
  destruct (po_type _ Hp _ _ _ H1), (po_type _ Hp _ _ _ H2); naive_solver.
Qed.

(** the whole [fcntl] and [flock] handlers, whatever the rest of the system
    does while they are blocked (any number of wakeups, signals, exits and
    other lock calls), are sequences of those critical sections, so they
    preserve the invariant of the table. *)
Theorem lock_handlers_safe env file cmd arg fd op pid task w w1 r1 w2 r2 :
  fair_env env -> file_ok file ->
  fcntl_record_lock env file cmd arg pid task w = (w1, r1) ->
  sys_flock env fd op pid task w = (w2, r2) ->
  (rtc step w w1 /\ rtc step w w2) /\
  (table_ok (w_table w) -> table_ok (w_table w1) /\ table_ok (w_table w2)).
Proof.
  intros He Hf H1 H2. apply fcntl_steps in H1; [|done..]. apply sys_flock_steps in H2; [|done].
  split; [done|]. eauto using steps_ok.
Qed.

(** The request as both commands see it. *)
Definition request_ok w (file : File) (arg : Z) (fl : UserFlock) (key : Z) (range : ByteRange) : Prop :=
  read_flock w arg = Ok fl /\ (uf_type fl = F_RDLCK \/ uf_type fl = F_WRLCK) /\
  f_readable file = true /\ f_writable file = true /\
  inode_key file = Ok key /\ normalize_range file fl = Ok range.

(** F_GETLK predicts F_SETLK.  For a valid read or write request F_GETLK
    writes back F_UNLCK exactly when F_SETLK from the same state succeeds, and
    otherwise F_SETLK fails with EAGAIN and F_GETLK reports the conflicting
    lock that starts first. *)
Theorem getlk_predicts_setlk w file arg fl key range pid task :
  request_ok w file arg fl key range -> file_ok file -> table_ok (w_table w) ->
  exists fl',
    fcntl_record_lock [] file F_GETLK arg pid (Some task) w =
      (let '(w', r) := write_flock w arg fl' in (w', Some r)) /\
    (fcntl_record_lock [] file F_SETLK arg pid (Some task) w).2 =
      Some (if uf_type fl' =? F_UNLCK then Ok 0 else Err EAGAIN) /\
    (uf_type fl' <> F_UNLCK ->
       exists l, l ∈ locks (entry w key) /\ conflicts l pid (uf_type fl) range = true /\
         fl' = conflict_to_user l).
Proof.
  intros (Hrd & Hty & HR & HW & Hk & Hn) Hf Ht.
  pose proof (entry_ok w key Ht) as [Hp _].
  assert (Hc : (match w_table w !! key with
                | Some i => first_conflict (locks i) pid (uf_type fl) range | None => None end)
               = first_conflict (locks (entry w key)) pid (uf_type fl) range).
  { unfold entry. by destruct (w_table w !! key). }
  unfold fcntl_record_lock. rewrite Hrd, Hk, Hn, HR, HW. cbn [rbind]. rewrite Hc. cbv zeta.
  change (F_GETLK =? F_GETLK) with true. change (F_SETLK =? F_GETLK) with false.
  change (F_SETLK =? F_SETLKW) with false.
  assert (Hu : (uf_type fl =? F_UNLCK) = false) by (destruct Hty as [-> | ->]; done).
  assert (Hv : (uf_type fl =? F_RDLCK) || (uf_type fl =? F_WRLCK) = true)
    by (destruct Hty as [-> | ->]; done).
  rewrite Hu, Hv. simpl. rewrite !andb_false_r. simpl.
  unfold setlk_attempt. rewrite Hu. simpl.
  destruct (first_conflict _ _ _ _) as [l|] eqn:Efc.
  - apply first_conflict_some in Efc as (Hin & Hcf & _).
    assert (Hlt : (lock_type l =? F_UNLCK) = false).
    { apply Z.eqb_neq. pose proof (po_wf _ Hp) as [Hall _]. rewrite Forall_forall in Hall.
      specialize (Hall l Hin). unfold valid_lock, valid_range in Hall.
      destruct (po_type _ Hp (owner_pid l) (lock_type l) (r_start (lrange l))) as [-> | ->]; [|done..].
      exists l. unfold in_range. split; [done|]. lia. }
    exists (conflict_to_user l). simpl. rewrite Hlt. repeat split. eauto.
  - eexists. split; [reflexivity|]. simpl. split; [done|]. done.
Qed.

(** no wakeup is lost.  When an attempt blocks, its (live) task is on the
    inode's wait queue; whenever an attempt or an unlock is granted, every live
    task on the queue is woken and the queue is emptied. *)
Theorem setlk_wakeups key owner lt range blocking task w :
  match setlk_attempt key owner lt range blocking task w with
  | (w', None) =>
      blocking = true /\
      (task ∈ w_live w -> task ∈ waiters (entry w' key)) /\
      locks (entry w' key) = locks (entry w key)
  | (w', Some (Ok _)) =>
      waiters (entry w' key) = [] /\
      forall t, t ∈ waiters (entry w key) -> t ∈ w_live w -> t ∈ w_woken w'
  | (w', Some (Err e)) => e = EAGAIN /\ blocking = false /\ entry w' key = entry w key
  end.
Proof.
  unfold setlk_attempt. case_raw E1; [|case_raw E2].
  - cbn. split.
    + unfold entry; cbn. rewrite lookup_settle, decide_True by done.
      unfold settled. case_raw E3; [done|]. by cbn.
    + intros t Hin Hl. apply elem_of_app. right. apply filter_In_iff.
      split; [done|]. by apply bool_decide_eq_true.
  - cbn. apply negb_true_iff in E2. split; [done|]. split; [done|].
    unfold entry at 1; cbn. by rewrite lookup_insert_eq.
  - apply negb_false_iff in E2. cbn. split; [done|].
    unfold entry at 1 3; cbn. rewrite lookup_insert_eq; cbn. split; [|done].
    intros Hl. unfold add_waiter. case_if.
    + apply existsb_exists in E as (x & Hx & ?). to_prop. subst. by apply list_elem_of_In.
    + apply elem_of_app. right. by apply list_elem_of_singleton.
Qed.

(** an exiting process leaves no record lock behind: afterwards it holds no
    byte of any inode, what other processes hold is unchanged, no inode entry
    is left empty among those visited, and every live task that was waiting on
    an inode where the process had a lock has been woken. *)
Theorem release_process_complete owner w :
  (forall key p t b,
     held (locks (entry (release_process_record_locks owner w) key)) p t b <->
     held (locks (entry w key)) p t b /\ p <> owner) /\
  (forall key i, w_table (release_process_record_locks owner w) !! key = Some i ->
     inode_locks_empty i = false) /\
  (forall key t, t ∈ waiters (entry w key) -> t ∈ w_live w ->
     (exists l, l ∈ locks (entry w key) /\ owner_pid l = owner) ->
     t ∈ w_woken (release_process_record_locks owner w)).
Proof.
  split; [|split].
  - intros key p t b. unfold entry. rewrite release_process_lookup.
    destruct (w_table w !! key) as [i|]; cbn [mbind option_bind default from_option];
      [|cbn; rewrite held_nil_iff; tauto].
    set (i' := (released _ _ _ _ i).1).
    assert (El : locks i' = List.filter (fun l => negb (owner_pid l =? owner)) (locks i)).
    { unfold i', released. case_if; done. }
    assert (Ed : locks (default InodeLocks_default (settled i')) = locks i').
    { unfold settled. case_if; [|done]. unfold inode_locks_empty in *. to_prop.
      cbn. by destruct (locks i'). }
    cbn in Ed |- *. rewrite Ed, El. unfold held. split.
    + intros (l & [Hin Ho]%filter_In_iff & <- & Hl). to_prop. eauto 10.
    + intros [(l & Hin & <- & Hl) Hne]. exists l. split; [|done]. apply filter_In_iff.
      split; [done|]. apply negb_true_iff. by apply Z.eqb_neq.
  - intros key i. rewrite release_process_lookup. destruct (w_table w !! key); [|done]. cbn.
    unfold settled. case_raw E; [done|]. by intros [= <-].
  - intros key t. unfold entry. destruct (w_table w !! key) as [i|] eqn:Ei; cbn.
    + intros. by eapply release_process_woken.
    + intros []%not_elem_of_nil.
Qed.

(** a non-blocking [flock] (LOCK_SH or LOCK_EX with LOCK_NB) on an open
    descriptor succeeds exactly when no other open file description holds a
    lock that is exclusive or meets an exclusive request, fails with EAGAIN
    otherwise, and on success the description owns exactly the requested mode. *)
Theorem flock_nonblocking_exact w fd pid task file key (ex : bool) :
  mjoin (default [] (w_fds w !! pid) !! fd) = Some file -> inode_key file = Ok key ->
  let owner := open_file_description_key file in
  let '(w', r) := sys_flock [] fd ((if ex then LOCK_EX else LOCK_SH) + LOCK_NB) pid (Some task) w in
  if flock_conflicts (flock_locks (entry w key)) owner ex then r = Some (Err EAGAIN)
  else r = Some (Ok 0) /\
       forall l, l ∈ flock_locks (entry w' key) -> owner_file l = owner -> l = mkFlock owner ex.
Proof.
  intros Hfd Hk owner. unfold sys_flock.
  replace (Z.ldiff ((if ex then LOCK_EX else LOCK_SH) + LOCK_NB) LOCK_NB)
    with (if ex then LOCK_EX else LOCK_SH) by (by destruct ex).
  replace (Z.ldiff _ _ =? 0) with true by (by destruct ex).
  replace (Z.land _ _ =? 0) with false by (by destruct ex).
  replace ((if ex then LOCK_EX else LOCK_SH) =? LOCK_UN) with false by (by destruct ex).
  replace ((if ex then LOCK_EX else LOCK_SH) =? LOCK_EX) with ex by (by destruct ex).
  replace (((if ex then LOCK_EX else LOCK_SH) =? LOCK_SH) || ex || false) with true by (by destruct ex).
  cbn [negb]. rewrite Hfd; cbn [ok_or rbind]. rewrite Hk; cbn [rbind].
  cbn [flock_loop]. unfold flock_attempt. rewrite flock_convert_entry. fold owner.
  destruct (flock_conflicts _ owner ex) eqn:Ec; cbn [negb]; [done|]. cbn [take_flock_waiters].
  rewrite release_referenced; cycle 1.
  { apply (still_referenced_fd _ pid fd). unfold wake_waiters, with_table; cbn.
    by rewrite flock_convert_fds. }
  split; [done|]. intros l. unfold entry; cbn. rewrite lookup_insert_eq; cbn.
  rewrite elem_of_app, list_elem_of_singleton. intros [[_ Hl]%filter_In_iff| ->] Ho; [|done].
  to_prop. done.
Qed.

End Properties.

(** ** Witnesses: a concrete world *)

Definition demo_flock : UserFlock := mkUserFlock F_WRLCK SEEK_SET 0 10 0.

Definition demo_world : World FlatMem :=
  mkWorld (<[3 := mkInode demo_locks [51; 52] [mkFlock 88 false] [53]]> ∅)
    {[51; 53]} ∅ ∅ (<[1 := [None; Some demo_file]]> ∅) []
    (mkFlat 4096 (encode_flock demo_flock ++ replicate 8 0)).

Definition empty_world : World FlatMem :=
  mkWorld ∅ {[51]} ∅ ∅ (<[1 := [Some demo_file]]> ∅) [] (mkFlat 4096 (encode_flock demo_flock)).

Lemma demo_file_ok : file_ok demo_file.
Proof. split; [unfold in_u; simpl; lia|]. intros s [= <-]. unfold in_u; lia. Qed.

Lemma empty_world_ok : table_ok (w_table empty_world).
Proof. apply map_Forall_empty. Qed.

Lemma demo_range_ok : valid_range (mkRange 0 9).
Proof. unfold valid_range, OFFSET_MAX, I64_MAX; simpl; lia. Qed.

Definition locked_world : World FlatMem :=
  (setlk_attempt 3 1 F_WRLCK (mkRange 0 9) false 51 empty_world).1.

Lemma locked_world_step : rtc step empty_world locked_world.
Proof. apply rtc_once, step_setlk; [apply demo_range_ok|right; by left]. Qed.

Lemma lock_table_mutual_exclusion_witness :
  entry locked_world 3 = mkInode [mkLock 1 F_WRLCK (mkRange 0 9)] [] [] [] /\
  wf_locks [mkLock 1 F_WRLCK (mkRange 0 9)].
Proof.
  split; [reflexivity|].
  exact (proj2 (proj2 (lock_table_mutual_exclusion empty_world locked_world 3
    (mkInode [mkLock 1 F_WRLCK (mkRange 0 9)] [] [] []) eq_refl locked_world_step eq_refl))).
Defined.

Lemma lock_handlers_safe_witness :
  table_ok (w_table (fcntl_record_lock [] demo_file F_SETLK 4096 1 (Some 51) empty_world).1).
Proof.
  refine (proj1 (proj2 (lock_handlers_safe [] demo_file F_SETLK 4096 0 6 1 (Some 51) empty_world
    _ _ _ _ _ _ eq_refl eq_refl) _)).
  - constructor.
  - exact demo_file_ok.
  - exact empty_world_ok.
Defined.

Lemma getlk_predicts_setlk_witness :
  (fcntl_record_lock [] demo_file F_SETLK 4096 1 (Some 51) empty_world).2 = Some (Ok 0) /\
  exists fl', fcntl_record_lock [] demo_file F_GETLK 4096 1 (Some 51) empty_world =
    (let '(w', r) := write_flock empty_world 4096 fl' in (w', Some r)).
Proof.
  split; [vm_compute; reflexivity|].
  destruct (getlk_predicts_setlk empty_world demo_file 4096 demo_flock 3 (mkRange 0 9) 1 51)
    as (fl' & E & _).
  - unfold request_ok. repeat split; try (vm_compute; reflexivity). by right.
  - exact demo_file_ok.
  - exact empty_world_ok.
  - exists fl'. exact E.
Defined.

Lemma flock_nonblocking_exact_witness :
  (sys_flock [] 1 6 1 (Some 51) demo_world).2 = Some (Err EAGAIN).
Proof.
  pose proof (flock_nonblocking_exact demo_world 1 1 51 demo_file 3 true eq_refl eq_refl) as Hx.
  cbv zeta in Hx. change ((if true then LOCK_EX else LOCK_SH) + LOCK_NB) with 6 in Hx.
  destruct (sys_flock _ _ _ _ _ _) as [w' r]. exact Hx.
Defined.
