(* ===== verification/Skb.v ===== *)
(** * Socket buffers (os/src/net/skb.rs)

    A contiguous buffer with a window [data_start..data_end]: headroom, live
    data, tailroom.  Offsets are [usize] values bounded by the length of the
    vector, kept as [nat]; under [wf_skb] no subtraction underflows and no
    slice is out of range.  A slice that the source hands out for writing
    ([push], [put], [data_mut]) is written with [write_at]. *)

From S2P Require Import Prelude.

(** [Arc<dyn NetDevice>] is the device's identity. *)
Abbreviation DevId := nat.

Record Skb := mkSkb {
  buf : bytes;
  data_start : nat;
  data_end : nat;
  skb_dev : option DevId }.

#[export] Instance Skb_eq_dec : EqDecision Skb.
Proof. solve_decision. Defined.

(** ** Operations *)

Definition skb_new (capacity : nat) : Skb := mkSkb (replicate capacity 0) 0 0 None.

Definition with_headroom (headroom capacity : nat) : Skb :=
  mkSkb (replicate (headroom + capacity) 0) headroom headroom None.

Definition len (s : Skb) : nat := (data_end s - data_start s)%nat.
Definition is_empty (s : Skb) : bool := (data_start s =? data_end s)%nat.
Definition headroom (s : Skb) : nat := data_start s.
Definition tailroom (s : Skb) : nat := (length (buf s) - data_end s)%nat.

(** [data()], and what [data_mut()] gives access to. *)
Definition data (s : Skb) : bytes := slice (data_start s) (data_end s) (buf s).

Definition set_dev (s : Skb) (d : option DevId) : Skb :=
  mkSkb (buf s) (data_start s) (data_end s) d.

Definition reserve_head (s : Skb) (size : nat) : Skb :=
  if (size <=? headroom s)%nat then s
  else
    let need := (size - headroom s)%nat in
    let new_capacity := (length (buf s) + need)%nat in
    let new_data := replicate new_capacity 0 in
    let new_start := size in
    let new_end := (new_start + len s)%nat in
    mkSkb (splice new_start (data s) new_data) new_start new_end (skb_dev s).

Definition reserve_tail (s : Skb) (size : nat) : Skb :=
  if (size <=? tailroom s)%nat then s
  else
    let need := (size - tailroom s)%nat in
    mkSkb (buf s ++ replicate need 0) (data_start s) (data_end s) (skb_dev s).

(** [push]: the new buffer; the writable slice is its first [size] data bytes. *)
Definition push (s : Skb) (size : nat) : option Skb :=
  let grow := (headroom s <? size)%nat in
  let s := if grow then reserve_head s size else s in
  if grow && (headroom s <? size)%nat then None
  else Some (mkSkb (buf s) (data_start s - size) (data_end s) (skb_dev s)).

(** [put]: the new buffer; the writable slice is its last [size] data bytes. *)
Definition put (s : Skb) (size : nat) : option Skb :=
  let grow := (tailroom s <? size)%nat in
  let s := if grow then reserve_tail s size else s in
  if grow && (tailroom s <? size)%nat then None
  else Some (mkSkb (buf s) (data_start s) (data_end s + size) (skb_dev s)).

(** [pull] and [trim]: the removed slice and the new buffer. *)
Definition pull (s : Skb) (size : nat) : option (bytes * Skb) :=
  if (len s <? size)%nat then None
  else Some (slice (data_start s) (data_start s + size) (buf s),
             mkSkb (buf s) (data_start s + size) (data_end s) (skb_dev s)).

Definition trim (s : Skb) (size : nat) : option (bytes * Skb) :=
  if (len s <? size)%nat then None
  else Some (slice (data_end s - size) (data_end s) (buf s),
             mkSkb (buf s) (data_start s) (data_end s - size) (skb_dev s)).

(** [let _ = skb.pull(n)] and [let _ = skb.trim(n)]. *)
Definition pull_ (s : Skb) (size : nat) : Skb :=
  match pull s size with Some (_, s) => s | None => s end.
Definition trim_ (s : Skb) (size : nat) : Skb :=
  match trim s size with Some (_, s) => s | None => s end.

Definition clone (s : Skb) : Skb :=
  let new := skb_new (length (buf s)) in
  mkSkb (splice 0 (buf s) (buf new)) (data_start s) (data_end s) (skb_dev s).

(** Writing [bs] at offset [off] of the live data. *)
Definition write_at (s : Skb) (off : nat) (bs : bytes) : Skb :=
  mkSkb (splice (data_start s + off) bs (buf s)) (data_start s) (data_end s) (skb_dev s).

(** [skb.push(n)] followed by filling the returned slice, and the same for
    [skb.put(n)]; [None] is the failure the callers unwrap or report. *)
Definition push_bytes (s : Skb) (bs : bytes) : option Skb :=
  match push s (length bs) with Some s => Some (write_at s 0 bs) | None => None end.
Definition put_bytes (s : Skb) (bs : bytes) : option Skb :=
  match put s (length bs) with
  | Some s => Some (write_at s (len s - length bs) bs)
  | None => None
  end.

(** ** Well-formedness *)

Definition wf_skb (s : Skb) : Prop := (data_start s <= data_end s <= length (buf s))%nat.

Lemma len_data s : wf_skb s -> length (data s) = len s.
Proof. unfold wf_skb, data, len. intros. rewrite slice_length; lia. Qed.

Lemma wf_skb_new n : wf_skb (skb_new n).
Proof. unfold wf_skb; simpl. lia. Qed.

Lemma wf_with_headroom h n : wf_skb (with_headroom h n).
Proof. unfold wf_skb; simpl. rewrite length_replicate. lia. Qed.

Lemma wf_reserve_head s n : wf_skb s -> wf_skb (reserve_head s n).
Proof.
  intros Hw. pose proof (len_data s Hw) as Hd. unfold reserve_head. case_if; [done|].
  unfold wf_skb in *; unfold headroom, len in *; simpl.
  rewrite splice_length; rewrite ?length_replicate; lia.
Qed.

Lemma data_reserve_head s n : wf_skb s -> data (reserve_head s n) = data s.
Proof.
  intros Hw. pose proof (len_data s Hw) as Hd. unfold reserve_head. case_if; [done|].
  unfold data at 1; cbn [buf data_start data_end]. rewrite <- Hd.
  apply slice_splice. rewrite length_replicate.
  unfold wf_skb, headroom, len in *. lia.
Qed.

Lemma headroom_reserve_head s n : (n <= headroom (reserve_head s n))%nat.
Proof. unfold reserve_head. case_if; [done|]. unfold headroom; simpl. lia. Qed.

Lemma wf_reserve_tail s n : wf_skb s -> wf_skb (reserve_tail s n).
Proof.
  intros Hw. unfold reserve_tail. case_if; [done|]. unfold wf_skb in *; simpl.
  rewrite length_app. lia.
Qed.

Lemma data_reserve_tail s n : wf_skb s -> data (reserve_tail s n) = data s.
Proof.
  intros Hw. unfold reserve_tail. case_if; [done|]. unfold wf_skb, data in *; simpl.
  apply slice_app_l. lia.
Qed.

Lemma tailroom_reserve_tail s n : wf_skb s -> (n <= tailroom (reserve_tail s n))%nat.
Proof.
  intros Hw. unfold reserve_tail. case_if; [done|]. unfold wf_skb, tailroom in *; simpl.
  rewrite length_app, length_replicate. lia.
Qed.

(** ** Slices of a window *)

Lemma slice_split {A} (a b c : nat) (l : list A) :
  (a <= b <= c)%nat -> slice a c l = slice a b l ++ slice b c l.
Proof.
  intros H. unfold slice. replace (c - a)%nat with ((b - a) + (c - b))%nat by lia.
  rewrite <- take_take_drop, drop_drop. do 3 f_equal. lia.
Qed.

Lemma slice_take_l {A} (a b : nat) (l k : list A) :
  (b <= length l)%nat -> take b l = take b k -> slice a b l = slice a b k.
Proof.
  intros Hb E. unfold slice. destruct (decide (a <= b)%nat).
  - rewrite !take_drop_commute. replace (a + (b - a))%nat with b by lia. by rewrite E.
  - replace (b - a)%nat with 0%nat by lia. done.
Qed.

Lemma splice_before {A} off (src l : list A) a b :
  (b <= off)%nat -> (off + length src <= length l)%nat -> slice a b (splice off src l) = slice a b l.
Proof.
  intros Hb Hl. unfold splice. rewrite slice_app_l by (rewrite length_take; lia).
  apply slice_take_l; [rewrite length_take; lia|]. rewrite take_take. f_equal. lia.
Qed.

Lemma splice_after {A} off (src l : list A) a b :
  (off + length src <= a)%nat -> (off + length src <= length l)%nat ->
  slice a b (splice off src l) = slice a b l.
Proof.
  intros Ha Hl. unfold slice, splice. f_equal.
  rewrite drop_app_ge by (rewrite length_take; lia).
  rewrite drop_app_ge by (rewrite length_take; lia).
  rewrite drop_drop, length_take. f_equal. lia.
Qed.

Lemma data_write_at s off bs :
  wf_skb s -> (off + length bs <= len s)%nat ->
  data (write_at s off bs) = splice off bs (data s).
Proof.
  intros Hw Hlen. pose proof (len_data s Hw) as Hd. unfold wf_skb, len in *.
  unfold data at 1; cbn [write_at buf data_start data_end].
  rewrite (slice_split _ (data_start s + off)) by lia.
  rewrite (slice_split (data_start s + off) (data_start s + off + length bs)) by lia.
  rewrite splice_before by lia. rewrite slice_splice by lia. rewrite splice_after by lia.
  unfold splice. f_equal; [|f_equal].
  - unfold data, slice. rewrite take_take. f_equal; lia.
  - unfold data, slice. rewrite skipn_firstn_comm, drop_drop. f_equal; [lia|f_equal; lia].
Qed.

Lemma wf_write_at s off bs :
  wf_skb s -> (off + length bs <= len s)%nat -> wf_skb (write_at s off bs).
Proof.
  unfold wf_skb, len. intros Hw Hl; simpl. rewrite splice_length by lia. lia.
Qed.

(** ** Headers and payload: the functional behaviour *)

Lemma splice_head {A} (src l : list A) :
  (length src <= length l)%nat -> splice 0 src l = src ++ drop (length src) l.
Proof. intros. unfold splice. by rewrite take_0. Qed.

Lemma splice_tail {A} off (src l : list A) :
  (off + length src = length l)%nat -> splice off src l = take off l ++ src.
Proof. intros E. unfold splice. rewrite E, drop_all. by rewrite app_nil_r. Qed.

Lemma push_spec s n :
  wf_skb s ->
  exists s', push s n = Some s' /\ wf_skb s' /\ len s' = (n + len s)%nat /\
    skb_dev s' = skb_dev s /\ drop n (data s') = data s.
Proof.
  intros Hw. unfold push. cbv zeta.
  assert (Hm : forall s1, wf_skb s1 -> data s1 = data s -> len s1 = len s ->
    skb_dev s1 = skb_dev s -> (n <= data_start s1)%nat ->
    let s' := mkSkb (buf s1) (data_start s1 - n) (data_end s1) (skb_dev s1) in
    wf_skb s' /\ len s' = (n + len s)%nat /\ skb_dev s' = skb_dev s /\ drop n (data s') = data s).
  { intros s1 Hw1 Hd1 Hl1 Hv1 Hn s'. unfold s', wf_skb, len in *; simpl.
    repeat split; [lia..|done|]. rewrite <- Hd1. unfold data, slice; simpl.
    rewrite skipn_firstn_comm, drop_drop. f_equal; [lia|f_equal; lia]. }
  destruct (headroom s <? n)%nat eqn:E; to_prop; cbn [andb].
  - pose proof (headroom_reserve_head s n). case_if; [lia|].
    assert (Hl : len (reserve_head s n) = len s).
    { rewrite <- !len_data by (done || by apply wf_reserve_head). by rewrite data_reserve_head. }
    eexists; split; [done|]. apply Hm; auto using wf_reserve_head, data_reserve_head.
    unfold reserve_head. by case_if.
  - eexists; split; [done|]. apply Hm; auto.
Qed.

Lemma push_bytes_spec s bs :
  wf_skb s ->
  exists s', push_bytes s bs = Some s' /\ wf_skb s' /\ data s' = bs ++ data s /\
    skb_dev s' = skb_dev s.
Proof.
  intros Hw. destruct (push_spec s (length bs) Hw) as (s1 & Ep & Hw1 & Hl1 & Hv1 & Hd1).
  unfold push_bytes. rewrite Ep. eexists. split; [done|].
  split; [apply wf_write_at; [done|lia]|]. split; [|done].
  rewrite data_write_at by (done || lia). rewrite splice_head by (rewrite len_data; [lia|done]).
  by rewrite Hd1.
Qed.

Lemma put_spec s n :
  wf_skb s ->
  exists s', put s n = Some s' /\ wf_skb s' /\ len s' = (len s + n)%nat /\
    skb_dev s' = skb_dev s /\ take (len s) (data s') = data s.
Proof.
  intros Hw. unfold put. cbv zeta.
  assert (Hm : forall s1, wf_skb s1 -> data s1 = data s -> len s1 = len s ->
    skb_dev s1 = skb_dev s -> (data_end s1 + n <= length (buf s1))%nat ->
    let s' := mkSkb (buf s1) (data_start s1) (data_end s1 + n) (skb_dev s1) in
    wf_skb s' /\ len s' = (len s + n)%nat /\ skb_dev s' = skb_dev s /\
    take (len s) (data s') = data s).
  { intros s1 Hw1 Hd1 Hl1 Hv1 Hn s'. unfold s', wf_skb, len in *; simpl.
    repeat split; [lia..|done|]. rewrite <- Hd1. unfold data, slice; simpl.
    rewrite take_take. f_equal. lia. }
  destruct (tailroom s <? n)%nat eqn:E; to_prop; cbn [andb].
  - pose proof (tailroom_reserve_tail s n Hw) as Ht. case_if; [lia|].
    assert (Hl : len (reserve_tail s n) = len s).
    { rewrite <- !len_data by (done || by apply wf_reserve_tail). by rewrite data_reserve_tail. }
    pose proof (wf_reserve_tail s n Hw) as Hw1.
    eexists; split; [done|]. apply Hm; auto using data_reserve_tail.
    + unfold reserve_tail. by case_if.
    + unfold tailroom, wf_skb in *. lia.
  - eexists; split; [done|]. apply Hm; auto. unfold tailroom, wf_skb in *. lia.
Qed.

Lemma put_bytes_spec s bs :
  wf_skb s ->
  exists s', put_bytes s bs = Some s' /\ wf_skb s' /\ data s' = data s ++ bs /\
    skb_dev s' = skb_dev s.
Proof.
  intros Hw. destruct (put_spec s (length bs) Hw) as (s1 & Ep & Hw1 & Hl1 & Hv1 & Hd1).
  unfold put_bytes. rewrite Ep. eexists. split; [done|].
  split; [apply wf_write_at; [done|lia]|]. split; [|done].
  rewrite data_write_at by (done || lia). rewrite splice_tail by (rewrite len_data; [lia|done]).
  replace (len s1 - length bs)%nat with (len s) by lia. by rewrite Hd1.
Qed.

Lemma pull_spec s n :
  wf_skb s -> (n <= len s)%nat ->
  exists s', pull s n = Some (take n (data s), s') /\ wf_skb s' /\ data s' = drop n (data s) /\
    skb_dev s' = skb_dev s.
Proof.
  intros Hw Hn. unfold pull. case_if; [lia|]. eexists. unfold wf_skb, len in *.
  split; [do 2 f_equal; unfold data, slice; rewrite take_take; f_equal; lia|].
  simpl. split; [lia|]. split; [|done]. unfold data, slice; simpl.
  rewrite skipn_firstn_comm, drop_drop. f_equal; lia.
Qed.

Lemma trim_spec s n :
  wf_skb s -> (n <= len s)%nat ->
  exists s', trim s n = Some (drop (len s - n) (data s), s') /\ wf_skb s' /\
    data s' = take (len s - n) (data s) /\ skb_dev s' = skb_dev s.
Proof.
  intros Hw Hn. unfold trim. case_if; [lia|]. eexists. unfold wf_skb, len in *.
  split.
  - do 2 f_equal. unfold data, slice. rewrite skipn_firstn_comm, drop_drop. f_equal; [lia|f_equal; lia].
  - simpl. split; [lia|]. split; [|done]. unfold data, slice; simpl. rewrite take_take. f_equal. lia.
Qed.

Lemma pull_none s n : pull s n = None <-> (len s < n)%nat.
Proof. unfold pull. case_if; split; intros; (done || lia). Qed.

Lemma trim_none s n : trim s n = None <-> (len s < n)%nat.
Proof. unfold trim. case_if; split; intros; (done || lia). Qed.

Lemma clone_id s : clone s = s.
Proof.
  unfold clone. destruct s as [b st en d]; simpl. f_equal.
  unfold splice. rewrite take_0, drop_ge by (rewrite length_replicate; lia). apply app_nil_r.
Qed.

Lemma with_headroom_empty h n : data (with_headroom h n) = [].
Proof. unfold data, slice; simpl. by rewrite Nat.sub_diag. Qed.

#[export] Hint Resolve wf_skb_new wf_with_headroom wf_reserve_head wf_reserve_tail : kairix.

(** ** Main properties *)

(** headers are stacked and stripped without touching the payload.  On a
    well-formed buffer [push] and [put] never fail (they grow the buffer), they
    prepend and append exactly the written bytes; [pull] and [trim] give back
    and remove exactly the first or last bytes, and fail without effect when
    asked for more than the buffer holds; all of them, [reserve_head],
    [reserve_tail] and [clone] keep the buffer well-formed. *)
Theorem skb_window_ops s bs n :
  wf_skb s ->
  (exists s', push_bytes s bs = Some s' /\ wf_skb s' /\ data s' = bs ++ data s /\
     exists s'', pull s' (length bs) = Some (bs, s'') /\ wf_skb s'' /\ data s'' = data s) /\
  (exists s', put_bytes s bs = Some s' /\ wf_skb s' /\ data s' = data s ++ bs /\
     exists s'', trim s' (length bs) = Some (bs, s'') /\ wf_skb s'' /\ data s'' = data s) /\
  data (reserve_head s n) = data s /\ data (reserve_tail s n) = data s /\ clone s = s /\
  (pull s n = None <-> (len s < n)%nat) /\ (trim s n = None <-> (len s < n)%nat).
Proof.
  intros Hw. split; [|split].
  - destruct (push_bytes_spec s bs Hw) as (s1 & E1 & Hw1 & Hd1 & _).
    exists s1. do 3 (split; [done|]).
    destruct (pull_spec s1 (length bs) Hw1) as (s2 & E2 & Hw2 & Hd2 & _).
    { rewrite <- len_data, Hd1, length_app by done. lia. }
    exists s2. rewrite E2, Hd1, take_app_length. split; [done|]. split; [done|].
    by rewrite Hd2, Hd1, drop_app_length.
  - destruct (put_bytes_spec s bs Hw) as (s1 & E1 & Hw1 & Hd1 & _).
    exists s1. do 3 (split; [done|]).
    assert (Hl1 : len s1 = (length (data s) + length bs)%nat)
      by (rewrite <- len_data, Hd1 by done; apply length_app).
    destruct (trim_spec s1 (length bs) Hw1) as (s2 & E2 & Hw2 & Hd2 & _); [lia|].
    exists s2. replace (len s1 - length bs)%nat with (length (data s)) in * by lia.
    rewrite E2, Hd1, drop_app_length. split; [done|]. split; [done|].
    by rewrite Hd2, Hd1, take_app_length.
  - rewrite data_reserve_head, data_reserve_tail, clone_id, pull_none, trim_none by done. done.
Qed.

Lemma skb_window_ops_witness :
  exists s', push_bytes (with_headroom 2 4) [1; 2; 3] = Some s' /\ data s' = [1; 2; 3].
Proof.
  destruct (skb_window_ops (with_headroom 2 4) [1; 2; 3] 0 (wf_with_headroom 2 4))
    as [(s' & E & _ & Hd & _) _].
  exists s'. split; [exact E|exact Hd].
Defined.
