(* ===== verification/Checksum.v ===== *)
(** * Internet checksums (os/src/net/{ip,icmp,udp,tcp}.rs)

    The four checksum routines of the stack and their common theory: a
    ones'-complement sum is determined by the residue modulo 65535 of the sum
    of the 16-bit big-endian words, and by whether that sum is zero. *)

From S2P Require Import Prelude.

(** ** The routines *)

(** [((a as u32) << 8) | b as u32]. *)
Definition be_word (a b : Z) : Z := Z.lor (Z.shiftl a 8) b.

(** [(sum & 0xFFFF) + (sum >> 16)]. *)
Definition fold16 (sum : Z) : Z := u32 (Z.land sum 65535 + Z.shiftr sum 16).

(** [sum += w; if sum >> 16 != 0 { sum = fold }]. *)
Definition csum_add (sum w : Z) : Z :=
  let sum := u32 (sum + w) in
  if negb (Z.shiftr sum 16 =? 0) then fold16 sum else sum.

(** The [chunks_exact(2)] loop of [ip_checksum] and its remainder. *)
Fixpoint ip_sum (sum : Z) (bs : bytes) : Z :=
  match bs with
  | a :: b :: bs => ip_sum (csum_add sum (be_word a b)) bs
  | [last] => csum_add sum (Z.shiftl last 8)
  | [] => sum
  end.

Definition ip_checksum (bs : bytes) : Z := u16 (Z.lnot (ip_sum 0 bs)).

(** [icmp_csum]: the whole chunks first, then the last byte of an odd length. *)
Fixpoint icmp_chunks (sum : Z) (bs : bytes) : Z :=
  match bs with
  | a :: b :: bs => icmp_chunks (csum_add sum (be_word a b)) bs
  | _ => sum
  end.

Definition icmp_csum (bs : bytes) : Z :=
  let sum := icmp_chunks 0 bs in
  let sum := if (length bs mod 2 =? 1)%nat
             then csum_add sum (Z.shiftl (byte_at (length bs - 1) bs) 8) else sum in
  u16 (Z.lnot sum).

(** [while (sum >> 16) != 0 { sum = (sum & 0xFFFF) + (sum >> 16) }]. *)
Fixpoint fold_loop (fuel : nat) (sum : Z) : Z :=
  match fuel with
  | O => sum
  | S fuel => if negb (Z.shiftr sum 16 =? 0) then fold_loop fuel (fold16 sum) else sum
  end.

(** [checksum_fold] of udp.rs and tcp.rs; two turns are enough for a [u32]
    (lemma [fold_loop_done]), one more is given. *)
Definition checksum_fold (sum : Z) : Z := u16 (Z.lnot (u16 (fold_loop 3 sum))).

(** The word loop of [udp_checksum] and [tcp_checksum]: no intermediate fold. *)
Fixpoint add_words (sum : Z) (bs : bytes) : Z :=
  match bs with
  | a :: b :: bs => add_words (u32 (sum + be_word a b)) bs
  | [last] => u32 (sum + Z.shiftl last 8)
  | [] => sum
  end.

Definition pseudo_sum (src_ip dst_ip proto length : Z) : Z :=
  let sum := 0 in
  let sum := u32 (sum + Z.land (Z.shiftr src_ip 16) 65535) in
  let sum := u32 (sum + Z.land src_ip 65535) in
  let sum := u32 (sum + Z.land (Z.shiftr dst_ip 16) 65535) in
  let sum := u32 (sum + Z.land dst_ip 65535) in
  let sum := u32 (sum + proto) in
  u32 (sum + u32 length).

Definition udp_checksum (src_ip dst_ip : Z) (datagram : bytes) : Z :=
  let sum := pseudo_sum src_ip dst_ip 17 (Z.of_nat (length datagram)) in
  let checksum := checksum_fold (add_words sum datagram) in
  if checksum =? 0 then 65535 else checksum.

Definition tcp_checksum (src_ip dst_ip : Z) (segment : bytes) : Z :=
  checksum_fold (add_words (pseudo_sum src_ip dst_ip 6 (Z.of_nat (length segment))) segment).

(** ** The reference sum *)

Fixpoint word_sum (bs : bytes) : Z :=
  match bs with
  | a :: b :: bs => a * 256 + b + word_sum bs
  | [last] => last * 256
  | [] => 0
  end.

(** Induction two elements at a time. *)
Lemma pair_ind {A} (P : list A -> Prop) :
  P [] -> (forall a, P [a]) -> (forall a b l, P l -> P (a :: b :: l)) -> forall l, P l.
Proof.
  intros H0 H1 H2. assert (H : forall l, P l /\ forall a, P (a :: l)).
  { induction l as [|b l [IH IH']]; [auto|]. split; [apply IH'|]. intros a. by apply H2. }
  intros l. apply H.
Qed.

Lemma be_word_eq a b : is_byte a -> is_byte b -> be_word a b = a * 256 + b.
Proof.
  unfold is_byte, be_word. intros Ha Hb.
  assert (Hl : Z.land (Z.shiftl a 8) b = 0).
  { apply Z.bits_inj'. intros n Hn. rewrite Z.land_spec, Z.bits_0.
    destruct (Z.lt_ge_cases n 8).
    - by rewrite Z.shiftl_spec_low.
    - replace b with (b mod 2 ^ 8) by (apply Z.mod_small; lia).
      rewrite Z.mod_pow2_bits_high by lia. apply andb_false_r. }
  rewrite <- Z.lxor_lor, <- Z.add_nocarry_lxor by done.
  rewrite Z.shiftl_mul_pow2 by lia. lia.
Qed.

Lemma shiftl8_eq a : Z.shiftl a 8 = a * 256.
Proof. rewrite Z.shiftl_mul_pow2 by lia. reflexivity. Qed.

Lemma fold16_eq s : in_u 32 s -> fold16 s = s mod 65536 + s / 65536.
Proof.
  unfold in_u, fold16. intros Hs. change 65535 with (Z.ones 16).
  rewrite Z.land_ones, Z.shiftr_div_pow2 by lia. change (2 ^ 16) with 65536.
  apply wrap_small. unfold in_u. zlia.
Qed.

Lemma hi_zero s : 0 <= s -> (Z.shiftr s 16 =? 0) = true <-> s < 65536.
Proof.
  intros Hs. rewrite Z.shiftr_div_pow2, Z.eqb_eq by lia. change (2 ^ 16) with 65536. zlia.
Qed.

Lemma word_sum_nonneg bs : is_bytes bs -> 0 <= word_sum bs.
Proof.
  unfold is_bytes, is_byte. induction bs as [|a|a b bs IH] using pair_ind; simpl; [lia| |];
    intros Hb; inversion_clear Hb as [|?? Ha Hb']; [lia|].
  inversion_clear Hb' as [|?? Hb Hbs]. specialize (IH Hbs). lia.
Qed.

Lemma word_sum_bound bs :
  is_bytes bs -> 2 * word_sum bs <= 65535 * (Z.of_nat (length bs) + 1).
Proof.
  unfold is_bytes, is_byte. induction bs as [|a|a b bs IH] using pair_ind; simpl; [lia| |];
    intros Hb; inversion_clear Hb as [|?? Ha Hb']; [lia|].
  inversion_clear Hb' as [|?? Hb Hbs]. specialize (IH Hbs). lia.
Qed.

Lemma word_sum_app a b : Nat.even (length a) = true -> word_sum (a ++ b) = word_sum a + word_sum b.
Proof.
  induction a as [|x|x y a IH] using pair_ind; simpl; intros Hev; [lia|discriminate|].
  rewrite IH by done. lia.
Qed.

(** ** Ones'-complement representatives *)

(** [acc] is a 16-bit representative of the sum [t]. *)
Definition oc_rep (acc t : Z) : Prop :=
  0 <= acc <= 65535 /\ 0 <= t /\ acc mod 65535 = t mod 65535 /\ (acc = 0 <-> t = 0).

Lemma oc_rep_add acc t w : oc_rep acc t -> 0 <= w <= 65535 -> oc_rep (csum_add acc w) (t + w).
Proof.
  unfold oc_rep, csum_add. intros (Ha & Ht & Hm & Hz) Hw. cbv zeta.
  rewrite wrap_small by (unfold in_u; lia).
  pose proof (hi_zero (acc + w) ltac:(lia)) as Hh.
  assert (Hmod : (acc + w) mod 65535 = (t + w) mod 65535).
  { rewrite Zplus_mod, Hm. symmetry. apply Zplus_mod. }
  case_raw E.
  - apply negb_true_iff in E. rewrite E in Hh.
    assert (65536 <= acc + w) by (destruct (Z.lt_ge_cases (acc + w) 65536); [apply Hh in H; done|done]).
    rewrite fold16_eq by (unfold in_u; lia).
    assert (Ef : (acc + w) mod 65536 + (acc + w) / 65536 = acc + w - 65535) by zlia.
    rewrite Ef. repeat split; try lia.
    rewrite <- Hmod. replace (acc + w - 65535) with (acc + w + (-1) * 65535) by lia.
    apply Z_mod_plus_full.
  - apply negb_false_iff in E. apply Hh in E. repeat split; lia.
Qed.

Lemma ip_sum_rep bs acc t : is_bytes bs -> oc_rep acc t -> oc_rep (ip_sum acc bs) (t + word_sum bs).
Proof.
  unfold is_bytes. revert acc t.
  induction bs as [|a|a b bs IH] using pair_ind; intros acc t Hb Hr; simpl.
  - by rewrite Z.add_0_r.
  - inversion_clear Hb as [|?? Ha _]. rewrite shiftl8_eq. apply oc_rep_add; [done|].
    unfold is_byte in Ha. lia.
  - inversion_clear Hb as [|?? Ha Hb']. inversion_clear Hb' as [|?? Hb Hbs].
    rewrite be_word_eq by done. rewrite Z.add_assoc. apply IH; [done|].
    apply oc_rep_add; [done|]. unfold is_byte in *. lia.
Qed.

Lemma lnot16 s : 0 <= s <= 65535 -> u16 (Z.lnot s) = 65535 - s.
Proof.
  intros Hs. unfold wrap. replace (Z.lnot s) with (65535 - s + (-1) * 2 ^ 16)
    by (unfold Z.lnot; lia).
  rewrite Z_mod_plus_full. apply Z.mod_small. lia.
Qed.

(** A checksum of a sum [t] in closed form: the routines all compute it. *)
Definition oc_checksum (t : Z) : Z :=
  if t =? 0 then 65535 else if t mod 65535 =? 0 then 0 else 65535 - t mod 65535.

Lemma oc_rep_checksum acc t : oc_rep acc t -> 65535 - acc = oc_checksum t.
Proof.
  unfold oc_rep, oc_checksum. intros (Ha & Ht & Hm & Hz). case_if; [lia|].
  rewrite <- Hm. case_if; zlia.
Qed.

Lemma ip_checksum_eq bs : is_bytes bs -> ip_checksum bs = oc_checksum (word_sum bs).
Proof.
  intros Hb. unfold ip_checksum.
  assert (Hr : oc_rep (ip_sum 0 bs) (0 + word_sum bs)).
  { apply ip_sum_rep; [done|]. unfold oc_rep. lia. }
  rewrite lnot16 by apply Hr. rewrite (oc_rep_checksum _ _ Hr). done.
Qed.

Lemma icmp_ip_sum bs sum :
  (if (length bs mod 2 =? 1)%nat
   then csum_add (icmp_chunks sum bs) (Z.shiftl (byte_at (length bs - 1) bs) 8)
   else icmp_chunks sum bs) = ip_sum sum bs.
Proof.
  revert sum. induction bs as [|a|a b bs IH] using pair_ind; intros sum; [done|done|].
  cbn [ip_sum icmp_chunks length]. rewrite <- IH.
  replace (S (S (length bs)) mod 2)%nat with (length bs mod 2)%nat
    by (replace (S (S (length bs))) with (length bs + 1 * 2)%nat by lia;
        rewrite Nat.Div0.mod_add; done).
  case_raw E; [|done]. do 2 f_equal. unfold byte_at. destruct bs; [discriminate|].
  cbn [length]. by rewrite !Nat.sub_succ, !Nat.sub_0_r.
Qed.

Lemma icmp_csum_eq bs : icmp_csum bs = ip_checksum bs.
Proof. unfold icmp_csum, ip_checksum. cbv zeta. by rewrite icmp_ip_sum. Qed.

(** ** The folding loop *)

(** One turn: the sum stays a representative and drops to at most [2 * 65535];
    from there the second turn ends the loop. *)
Lemma fold16_turn s :
  in_u 32 s -> 65536 <= s ->
  0 < fold16 s <= 131070 /\ fold16 s mod 65535 = s mod 65535 /\
  (s <= 131070 -> fold16 s <= 65535).
Proof.
  unfold in_u. intros Hs Hb. rewrite fold16_eq by done. change (2 ^ 32) with 4294967296 in Hs.
  split; [zlia|]. split; [|zlia].
  replace (s mod 65536 + s / 65536) with (s + (- (s / 65536)) * 65535) by zlia.
  apply Z_mod_plus_full.
Qed.

Lemma fold_loop_S fuel s :
  0 <= s -> fold_loop (S fuel) s = if s <? 65536 then s else fold_loop fuel (fold16 s).
Proof.
  intros Hs. cbn [fold_loop]. pose proof (hi_zero s Hs) as Hh.
  destruct (Z.shiftr s 16 =? 0), (Z.ltb_spec s 65536); cbn [negb]; try done.
  - assert (s < 65536) by (by apply Hh). lia.
  - apply Hh in H. done.
Qed.

Lemma fold_loop_done s : in_u 32 s -> oc_rep (fold_loop 3 s) s.
Proof.
  intros Hs. assert (0 <= s) by apply Hs. unfold oc_rep.
  rewrite fold_loop_S by done. case_if; [lia|].
  destruct (fold16_turn s Hs E) as (B1 & M1 & _). rewrite fold_loop_S by lia.
  case_if; [lia|].
  destruct (fold16_turn (fold16 s)) as (B2 & M2 & L2); [unfold in_u; lia|done|].
  rewrite fold_loop_S by lia. case_if; lia.
Qed.

Lemma checksum_fold_eq s : in_u 32 s -> checksum_fold s = oc_checksum s.
Proof.
  intros Hs. pose proof (fold_loop_done s Hs) as Hr. unfold checksum_fold.
  rewrite (wrap_small 16 (fold_loop 3 s)) by (unfold in_u; destruct Hr; lia).
  rewrite lnot16 by apply Hr. by apply oc_rep_checksum.
Qed.

Lemma add_words_eq bs sum :
  is_bytes bs -> 0 <= sum -> sum + word_sum bs < 2 ^ 32 -> add_words sum bs = sum + word_sum bs.
Proof.
  unfold is_bytes. revert sum.
  induction bs as [|a|a b bs IH] using pair_ind; intros sum Hb Hs Hlt; simpl in *; [lia| |].
  - inversion_clear Hb as [|?? Ha _]. rewrite shiftl8_eq. unfold is_byte in Ha.
    apply wrap_small. unfold in_u. lia.
  - inversion_clear Hb as [|?? Ha Hb']. inversion_clear Hb' as [|?? Hb Hbs].
    pose proof (word_sum_nonneg bs Hbs). rewrite be_word_eq by done. unfold is_byte in *.
    rewrite wrap_small by (unfold in_u; lia). rewrite IH; [lia|done|lia|lia].
Qed.

(** The pseudo header's contribution, without wrap-around. *)
Definition pseudo_total (src_ip dst_ip proto length : Z) : Z :=
  src_ip / 65536 + src_ip mod 65536 + dst_ip / 65536 + dst_ip mod 65536 + proto + length.

Lemma lo16 z : Z.land z 65535 = z mod 65536.
Proof. change 65535 with (Z.ones 16). by rewrite Z.land_ones by lia. Qed.

Lemma hi16 z : in_u 32 z -> Z.land (Z.shiftr z 16) 65535 = z / 65536.
Proof.
  intros Hz. unfold in_u in Hz. rewrite lo16, Z.shiftr_div_pow2 by lia.
  change (2 ^ 16) with 65536. zlia.
Qed.

Lemma pseudo_sum_eq src dst proto n :
  in_u 32 src -> in_u 32 dst -> 0 <= proto <= 255 -> 0 <= n <= 65535 ->
  pseudo_sum src dst proto n = pseudo_total src dst proto n /\
  proto + n <= pseudo_total src dst proto n <= 5 * 65535 + 255.
Proof.
  intros Hs Hd Hp Hn. unfold pseudo_sum. cbv zeta. rewrite !hi16, !lo16 by done.
  unfold in_u in *.
  assert (0 <= src / 65536 <= 65535 /\ 0 <= src mod 65536 <= 65535) by zlia.
  assert (0 <= dst / 65536 <= 65535 /\ 0 <= dst mod 65536 <= 65535) by zlia.
  unfold pseudo_total. rewrite !wrap_add_l, wrap_add_r.
  repeat (rewrite <- ?Z.add_assoc, wrap_add_l). rewrite wrap_small by (unfold in_u; lia). lia.
Qed.

(** The sum that the UDP and TCP checksums cover. *)
Lemma l4_sum_eq src dst proto bs :
  in_u 32 src -> in_u 32 dst -> 0 <= proto <= 255 -> is_bytes bs -> Z.of_nat (length bs) <= 65535 ->
  add_words (pseudo_sum src dst proto (Z.of_nat (length bs))) bs =
    pseudo_total src dst proto (Z.of_nat (length bs)) + word_sum bs /\
  in_u 32 (pseudo_total src dst proto (Z.of_nat (length bs)) + word_sum bs).
Proof.
  intros Hs Hd Hp Hb Hl.
  destruct (pseudo_sum_eq src dst proto (Z.of_nat (length bs))) as [-> Ht]; [done..|lia|].
  pose proof (word_sum_bound bs Hb). pose proof (word_sum_nonneg bs Hb).
  split; [|unfold in_u; lia]. apply add_words_eq; [done|lia|lia].
Qed.

Lemma tcp_checksum_eq src dst bs :
  in_u 32 src -> in_u 32 dst -> is_bytes bs -> Z.of_nat (length bs) <= 65535 ->
  tcp_checksum src dst bs =
  oc_checksum (pseudo_total src dst 6 (Z.of_nat (length bs)) + word_sum bs).
Proof.
  intros. destruct (l4_sum_eq src dst 6 bs) as [E Hr]; [done|done|lia|done..|].
  unfold tcp_checksum. rewrite E. by apply checksum_fold_eq.
Qed.

Lemma udp_checksum_eq src dst bs :
  in_u 32 src -> in_u 32 dst -> is_bytes bs -> Z.of_nat (length bs) <= 65535 ->
  udp_checksum src dst bs =
  (let c := oc_checksum (pseudo_total src dst 17 (Z.of_nat (length bs)) + word_sum bs) in
   if c =? 0 then 65535 else c).
Proof.
  intros. destruct (l4_sum_eq src dst 17 bs) as [E Hr]; [done|done|lia|done..|].
  unfold udp_checksum. rewrite E. by rewrite checksum_fold_eq.
Qed.

(** ** Filling in and verifying *)

Lemma oc_checksum_range t : 0 <= oc_checksum t <= 65535.
Proof. unfold oc_checksum. do 2 (case_if; [lia|]). zlia. Qed.

Lemma oc_checksum_zero t : 0 <= t -> oc_checksum t = 0 <-> 0 < t /\ t mod 65535 = 0.
Proof. intros. unfold oc_checksum. repeat case_if; zlia. Qed.

(** A sum with its own checksum added verifies. *)
Lemma oc_checksum_fill t : 0 < t -> oc_checksum (t + oc_checksum t) = 0.
Proof.
  intros Ht. pose proof (oc_checksum_range t). apply oc_checksum_zero; [lia|]. split; [lia|].
  unfold oc_checksum in *. repeat (case_if; try lia).
  - by rewrite Z.add_0_r.
  - rewrite Z.add_sub_assoc, Z.add_comm, <- Z.add_sub_assoc. zlia.
Qed.

(** Storing a 16-bit value into a zero field at an even offset adds it to the sum. *)
Lemma word_sum_store (off : nat) c bs :
  Nat.even off = true -> (off + 2 <= length bs)%nat -> slice off (off + 2) bs = [0; 0] ->
  0 <= c <= 65535 -> word_sum (splice off (be_store 2 c) bs) = word_sum bs + c.
Proof.
  intros Hev Hlen Hz Hc.
  assert (Hlt : length (take off bs) = off) by (rewrite length_take; lia).
  assert (Hbs : word_sum bs = word_sum (take off bs) + word_sum (drop off bs)).
  { rewrite <- (take_drop off bs) at 1. apply word_sum_app. by rewrite Hlt. }
  assert (Hd : drop off bs = 0 :: 0 :: drop (off + 2) bs).
  { rewrite <- (take_drop 2 (drop off bs)), drop_drop.
    unfold slice in Hz. replace (off + 2 - off)%nat with 2%nat in Hz by lia. by rewrite Hz. }
  unfold splice. rewrite be_store_length, word_sum_app by (by rewrite Hlt).
  rewrite Hbs, Hd. unfold be_store; cbn -[Z.mul Z.add Z.div Z.modulo]. zlia.
Qed.

Lemma splice_bytes off src bs : is_bytes src -> is_bytes bs -> is_bytes (splice off src bs).
Proof.
  intros. unfold splice, is_bytes. apply Forall_app. split; [by apply Forall_take|].
  apply Forall_app. split; [done|by apply Forall_drop].
Qed.

Lemma ip_checksum_store (off : nat) bs :
  is_bytes bs -> Nat.even off = true -> (off + 2 <= length bs)%nat ->
  slice off (off + 2) bs = [0; 0] -> 0 < word_sum bs ->
  ip_checksum (splice off (be_store 2 (ip_checksum bs)) bs) = 0.
Proof.
  intros Hb Hev Hl Hz Hp. pose proof (oc_checksum_range (word_sum bs)).
  rewrite (ip_checksum_eq bs) by done.
  rewrite ip_checksum_eq by (apply splice_bytes; auto with kairix).
  rewrite word_sum_store by done. by apply oc_checksum_fill.
Qed.

Lemma word_at_split (off : nat) bs :
  Nat.even off = true -> (off + 2 <= length bs)%nat ->
  word_sum bs = word_sum (take off bs) + (byte_at off bs * 256 + byte_at (S off) bs)
                + word_sum (drop (off + 2) bs).
Proof.
  intros Hev Hl. rewrite <- (take_drop off bs) at 1.
  rewrite word_sum_app by (rewrite length_take; by replace (off `min` length bs)%nat with off by lia).
  destruct (drop off bs) as [|a [|b r]] eqn:Ed;
    [apply (f_equal length) in Ed; rewrite length_drop in Ed; simpl in Ed; lia..|].
  pose proof (nth_skipn off bs 0 0) as H0. pose proof (nth_skipn off bs 1 0) as H1.
  rewrite Ed in H0, H1. cbn in H0, H1. rewrite Nat.add_0_r in H0. rewrite Nat.add_1_r in H1.
  unfold byte_at. rewrite <- H0, <- H1, <- drop_drop, Ed. cbn [drop word_sum]. rewrite drop_0. lia.
Qed.

(** The pseudo header of RFC 768 and RFC 793. *)
Definition pseudo_header (src dst proto len : Z) : bytes := be_store 4 src ++ be_store 4 dst ++ [0; proto] ++ be_store 2 len.

Lemma pseudo_header_bytes src dst proto len bs : is_byte proto -> is_bytes bs -> is_bytes (pseudo_header src dst proto len ++ bs).
Proof.
  intros Hp Hb. unfold pseudo_header, is_bytes. rewrite !Forall_app. split_and!; try apply be_store_bytes; [|done].
  constructor; [unfold is_byte; lia|]. by constructor.
Qed.

Lemma pseudo_header_sum src dst proto len bs : in_u 32 src -> in_u 32 dst -> 0 <= len <= 65535 ->
  word_sum (pseudo_header src dst proto len ++ bs) = pseudo_total src dst proto len + word_sum bs.
Proof.
  intros Hs Hd Hl. unfold in_u in *. rewrite word_sum_app by done. f_equal. unfold pseudo_header, be_store, pseudo_total.
  cbn -[Z.mul Z.add Z.div Z.modulo]. zlia.
Qed.

Lemma fold_loop_ends sum : in_u 32 sum -> fold_loop 3 sum < 65536 /\ fold_loop 4 sum = fold_loop 3 sum.
Proof.
  intros Hs. pose proof (fold_loop_done sum Hs) as [Hr _]. split; [lia|]. assert (0 <= sum) by apply Hs.
  rewrite !(fold_loop_S _ sum) by done. case_if; [done|]. destruct (fold16_turn sum Hs E) as (B1 & _ & _).
  rewrite !(fold_loop_S _ (fold16 sum)) by lia. case_if; [done|]. destruct (fold16_turn (fold16 sum)) as (B2 & _ & L2); [unfold in_u; lia|done|].
  rewrite !(fold_loop_S _ (fold16 (fold16 sum))) by lia. case_if; [done|lia].
Qed.

(** ** Main properties *)

(** C40: one reference checksum for all four routines.  [ip_checksum] (which folds after
    every word) is the closed form of the ones'-complement sum of the big-endian
    words, and [icmp_csum] (odd byte after the loop) is equal to it, for byte strings of
    any length.  For up to 65535 bytes (the largest IPv4 payload; beyond it the length does not fit its
    field) [tcp_checksum], which adds without folding in 32 bits, is [ip_checksum] of the
    pseudo header of RFC 793 (addresses, zero, protocol, length) followed by the
    segment, and [udp_checksum] is that of RFC 768, with 65535 in place of a checksum 0.
    The folding loop ends within the model's fuel. *)
Theorem checksum_routines_agree src dst bs :
  is_bytes bs -> in_u 32 src -> in_u 32 dst ->
  ip_checksum bs = oc_checksum (word_sum bs) /\
  icmp_csum bs = ip_checksum bs /\
  (Z.of_nat (length bs) <= 65535 ->
     tcp_checksum src dst bs = ip_checksum (pseudo_header src dst 6 (Z.of_nat (length bs)) ++ bs) /\
     udp_checksum src dst bs =
       (let c := ip_checksum (pseudo_header src dst 17 (Z.of_nat (length bs)) ++ bs) in if c =? 0 then 65535 else c)) /\
  (forall sum, in_u 32 sum -> fold_loop 3 sum < 65536 /\ fold_loop 4 sum = fold_loop 3 sum).
Proof.
  intros Hb Hs Hd. split; [by apply ip_checksum_eq|]. split; [apply icmp_csum_eq|]. split; [|apply fold_loop_ends].
  intros Hl. rewrite !ip_checksum_eq by (apply pseudo_header_bytes; done || lia).
  rewrite !pseudo_header_sum by (done || lia). rewrite tcp_checksum_eq, udp_checksum_eq by done. done.
Qed.

Definition demo_header : bytes :=
  [69; 0; 0; 60; 28; 70; 64; 0; 64; 6; 0; 0; 172; 16; 10; 99; 172; 16; 10; 12].

Lemma demo_header_bytes : is_bytes demo_header.
Proof. unfold demo_header, is_bytes. repeat constructor; lia. Qed.

Lemma checksum_routines_agree_witness :
  ip_checksum demo_header = 45542 /\ icmp_csum demo_header = ip_checksum demo_header /\
  tcp_checksum 0xac100a63 0xac100a0c demo_header = ip_checksum (pseudo_header 0xac100a63 0xac100a0c 6 20 ++ demo_header).
Proof.
  destruct (checksum_routines_agree 0xac100a63 0xac100a0c demo_header demo_header_bytes ltac:(unfold in_u; lia) ltac:(unfold in_u; lia)) as (_ & H1 & H2 & _).
  split; [reflexivity|]. split; [exact H1|]. apply H2. vm_compute. discriminate.
Defined.

(** a checksum stored into its zeroed 16-bit field makes the buffer verify
    (checksum zero), and a buffer that verifies stops verifying when one
    aligned 16-bit word is replaced by a different one, the two
    representations of zero apart. *)
Theorem checksum_detects_word_error bs (off : nat) w :
  is_bytes bs -> Nat.even off = true -> (off + 2 <= length bs)%nat -> 0 <= w <= 65535 ->
  (slice off (off + 2) bs = [0; 0] -> 0 < word_sum bs ->
     ip_checksum (splice off (be_store 2 (ip_checksum bs)) bs) = 0) /\
  (ip_checksum bs = 0 ->
   let old := byte_at off bs * 256 + byte_at (S off) bs in
   w <> old -> ~ (w = 0 /\ old = 65535) -> ~ (w = 65535 /\ old = 0) ->
   ip_checksum (splice off (be_store 2 w) bs) <> 0).
Proof.
  intros Hb Hev Hl Hw. split; [by apply ip_checksum_store|].
  intros Hv old Hne Hz1 Hz2. set (bs' := splice off (be_store 2 w) bs).
  assert (Hlen : length bs' = length bs) by (apply splice_length; rewrite be_store_length; lia).
  assert (Hb' : is_bytes bs') by (apply splice_bytes; auto with kairix).
  assert (Hs : word_sum bs' = word_sum bs + w - old).
  { rewrite (word_at_split off bs) by done. fold old.
    unfold bs', splice. rewrite be_store_length.
    rewrite !word_sum_app by
      (rewrite ?be_store_length, ?length_take; first [done|by replace (off `min` length bs)%nat with off by lia]).
    assert (word_sum (be_store 2 w) = w) as ->
      by (unfold be_store; cbn -[Z.mul Z.add Z.div Z.modulo]; zlia).
    lia. }
  assert (Hold : 0 <= old <= 65535).
  { assert (forall i, is_byte (byte_at i bs)).
    { intros i. unfold byte_at. destruct (nth_in_or_default i bs 0) as [Hi| ->]; [|unfold is_byte; lia].
      unfold is_bytes in Hb. rewrite Forall_forall in Hb. apply Hb. by apply list_elem_of_In. }
    pose proof (H off). pose proof (H (S off)). unfold is_byte, old in *. lia. }
  pose proof (word_sum_nonneg bs Hb). pose proof (word_sum_nonneg bs' Hb').
  rewrite ip_checksum_eq in Hv |- * by done. apply oc_checksum_zero in Hv as [Hv0 Hv]; [|done].
  rewrite oc_checksum_zero by done. rewrite Hs. intros [_ Hm].
  assert ((w - old) mod 65535 = 0).
  { replace (w - old) with (word_sum bs + w - old - word_sum bs) by lia.
    rewrite Zminus_mod, Hm, Hv. reflexivity. }
  zlia.
Qed.

Lemma checksum_detects_word_error_witness :
  ip_checksum (splice 10 (be_store 2 (ip_checksum demo_header)) demo_header) = 0.
Proof.
  apply (proj1 (checksum_detects_word_error demo_header 10 0 demo_header_bytes eq_refl
    ltac:(vm_compute; lia) ltac:(lia))); [reflexivity|vm_compute; reflexivity].
Defined.
