(* ===== verification/Wire.v ===== *)
(** * Wire formats (os/src/net/{ethernet,arp,ip,icmp,udp,tcp}.rs)

    The [repr(C, packed)] headers, read from and written to the bytes of a
    buffer.  A multi-byte field holds the natively (little-endian) loaded
    value, as in the source; [from_be]/[to_be] convert. *)

From S2P Require Import Prelude.

Abbreviation from_be16 := (swap_bytes 2).
Abbreviation from_be32 := (swap_bytes 4).
Abbreviation to_be16 := (swap_bytes 2).
Abbreviation to_be32 := (swap_bytes 4).

(** ** Headers *)

Record EthernetHeader := mkEth { eth_dest : bytes; eth_src : bytes; ethertype : Z }.
Definition eth_size : nat := 14.

Definition read_eth (bs : bytes) : EthernetHeader :=
  mkEth (slice 0 6 bs) (slice 6 12 bs) (le_load (slice 12 14 bs)).
Definition write_eth (h : EthernetHeader) : bytes :=
  eth_dest h ++ eth_src h ++ le_store 2 (ethertype h).

Definition ETH_P_IP : Z := 2048.
Definition ETH_P_ARP : Z := 2054.

Record ArpPacket := mkArp {
  hw_type : Z; proto_type : Z; hw_addr_len : Z; proto_addr_len : Z; arp_op : Z;
  sender_hw : bytes; sender_address : Z; target_hw : bytes; target_address : Z }.
Definition arp_size : nat := 28.

Definition read_arp (bs : bytes) : ArpPacket :=
  mkArp (le_load (slice 0 2 bs)) (le_load (slice 2 4 bs)) (byte_at 4 bs) (byte_at 5 bs)
    (le_load (slice 6 8 bs)) (slice 8 14 bs) (le_load (slice 14 18 bs))
    (slice 18 24 bs) (le_load (slice 24 28 bs)).
Definition write_arp (p : ArpPacket) : bytes :=
  le_store 2 (hw_type p) ++ le_store 2 (proto_type p) ++
  le_store 1 (hw_addr_len p) ++ le_store 1 (proto_addr_len p) ++ le_store 2 (arp_op p) ++
  sender_hw p ++ le_store 4 (sender_address p) ++ target_hw p ++ le_store 4 (target_address p).

Definition ARP_REQUEST : Z := 1.
Definition ARP_REPLY : Z := 2.
Definition HARD_TYPE_ETHERNET : Z := 1.
Definition PROTO_IP : Z := 2048.

Record Ipv4Header := mkIp {
  version_ihl : Z; tos : Z; total_len_raw : Z; id_raw : Z; flags_frag : Z; ttl : Z;
  protocol : Z; checksum_raw : Z; src_addr_raw : Z; dst_addr_raw : Z }.
Definition ip_size : nat := 20.

Definition read_ip (bs : bytes) : Ipv4Header :=
  mkIp (byte_at 0 bs) (byte_at 1 bs) (le_load (slice 2 4 bs)) (le_load (slice 4 6 bs))
    (le_load (slice 6 8 bs)) (byte_at 8 bs) (byte_at 9 bs) (le_load (slice 10 12 bs))
    (le_load (slice 12 16 bs)) (le_load (slice 16 20 bs)).
Definition write_ip (h : Ipv4Header) : bytes :=
  le_store 1 (version_ihl h) ++ le_store 1 (tos h) ++ le_store 2 (total_len_raw h) ++
  le_store 2 (id_raw h) ++ le_store 2 (flags_frag h) ++ le_store 1 (ttl h) ++
  le_store 1 (protocol h) ++ le_store 2 (checksum_raw h) ++
  le_store 4 (src_addr_raw h) ++ le_store 4 (dst_addr_raw h).

Definition version (h : Ipv4Header) : Z := Z.shiftr (version_ihl h) 4.
Definition ihl (h : Ipv4Header) : Z := u8 (Z.land (version_ihl h) 15 * 4).
Definition VERSION_IHL : Z := Z.lor (Z.shiftl 4 4) 5.      (* set_version_ihl *)
Definition total_len (h : Ipv4Header) : Z := from_be16 (total_len_raw h).
Definition src_addr (h : Ipv4Header) : Z := from_be32 (src_addr_raw h).
Definition dst_addr (h : Ipv4Header) : Z := from_be32 (dst_addr_raw h).

Record IcmpHeader := mkIcmp {
  type_ : Z; icmp_code : Z; icmp_checksum : Z; icmp_pid : Z; icmp_seq : Z }.
Definition icmp_size : nat := 8.

Definition read_icmp (bs : bytes) : IcmpHeader :=
  mkIcmp (byte_at 0 bs) (byte_at 1 bs) (le_load (slice 2 4 bs)) (le_load (slice 4 6 bs))
    (le_load (slice 6 8 bs)).

Definition ECHO_REPLY : Z := 0.
Definition ECHO_REQUEST : Z := 8.
Definition DESTINATION_UNREACHABLE : Z := 3.
Definition FRAGMENTATION_NEEDED : Z := 4.

Record UdpHeader := mkUdp {
  udp_src_port : Z; udp_dst_port : Z; udp_len_raw : Z; udp_checksum_raw : Z }.
Definition udp_size : nat := 8.

Definition read_udp (bs : bytes) : UdpHeader :=
  mkUdp (le_load (slice 0 2 bs)) (le_load (slice 2 4 bs)) (le_load (slice 4 6 bs))
    (le_load (slice 6 8 bs)).
Definition write_udp (h : UdpHeader) : bytes :=
  le_store 2 (udp_src_port h) ++ le_store 2 (udp_dst_port h) ++
  le_store 2 (udp_len_raw h) ++ le_store 2 (udp_checksum_raw h).

Definition source_port (h : UdpHeader) : Z := from_be16 (udp_src_port h).
Definition dest_port (h : UdpHeader) : Z := from_be16 (udp_dst_port h).
Definition udp_length (h : UdpHeader) : Z := from_be16 (udp_len_raw h).

Record TcpHeader := mkTcp {
  tcp_src_port : Z; tcp_dst_port : Z; tcp_seq_raw : Z; tcp_ack_raw : Z;
  data_offset_reserved : Z; tcp_flags : Z; tcp_window : Z; tcp_checksum_raw : Z;
  urgent_ptr : Z }.
Definition tcp_size : nat := 20.

Definition read_tcp (bs : bytes) : TcpHeader :=
  mkTcp (le_load (slice 0 2 bs)) (le_load (slice 2 4 bs)) (le_load (slice 4 8 bs))
    (le_load (slice 8 12 bs)) (byte_at 12 bs) (byte_at 13 bs) (le_load (slice 14 16 bs))
    (le_load (slice 16 18 bs)) (le_load (slice 18 20 bs)).
Definition write_tcp (h : TcpHeader) : bytes :=
  le_store 2 (tcp_src_port h) ++ le_store 2 (tcp_dst_port h) ++ le_store 4 (tcp_seq_raw h) ++
  le_store 4 (tcp_ack_raw h) ++ le_store 1 (data_offset_reserved h) ++ le_store 1 (tcp_flags h) ++
  le_store 2 (tcp_window h) ++ le_store 2 (tcp_checksum_raw h) ++ le_store 2 (urgent_ptr h).

Definition header_len (h : TcpHeader) : nat :=
  Z.to_nat (Z.shiftr (data_offset_reserved h) 4 * 4).

(** ** Byte order *)

Lemma swap_range n z : in_u (8 * Z.of_nat n) (swap_bytes n z).
Proof.
  unfold swap_bytes. pose proof (be_load_range (le_store n z) (le_store_bytes n z)) as H.
  by rewrite le_store_length in H.
Qed.

Lemma swap_swap n z : swap_bytes n (swap_bytes n z) = wrap (8 * Z.of_nat n) z.
Proof. unfold swap_bytes at 1. rewrite to_be_store. apply be_load_store. Qed.

Lemma le_load_swap n z : le_load (le_store n (swap_bytes n z)) = swap_bytes n z.
Proof. rewrite le_load_store. apply wrap_small, swap_range. Qed.

Lemma le_load_byte b : le_load [b] = b.
Proof. simpl. lia. Qed.

Lemma le_store_byte b : is_byte b -> le_store 1 b = [b].
Proof. intros Hb. simpl. by rewrite Z.mod_small by (unfold is_byte in Hb; lia). Qed.

Lemma length_6 (l : bytes) : length l = 6%nat ->
  exists a b c d e f, l = [a; b; c; d; e; f].
Proof.
  intros H. destruct l as [|a [|b [|c [|d [|e [|f [|]]]]]]]; try discriminate. eauto 10.
Qed.

Lemma write_eth_length h :
  length (eth_dest h) = 6%nat -> length (eth_src h) = 6%nat -> length (write_eth h) = eth_size.
Proof. intros H1 H2. unfold write_eth. by rewrite !length_app, H1, H2. Qed.

Lemma read_write_eth d s t rest :
  length d = 6%nat -> length s = 6%nat ->
  read_eth (write_eth (mkEth d s (to_be16 t)) ++ rest) = mkEth d s (to_be16 t).
Proof.
  intros Hd Hs.
  destruct (length_6 d Hd) as (? & ? & ? & ? & ? & ? & ->).
  destruct (length_6 s Hs) as (? & ? & ? & ? & ? & ? & ->).
  unfold read_eth, write_eth. f_equal. exact (le_load_swap 2 t).
Qed.

Definition arp_packet (op : Z) (shw : bytes) (sip : Z) (thw : bytes) (tip : Z) : ArpPacket :=
  mkArp (to_be16 HARD_TYPE_ETHERNET) (to_be16 PROTO_IP) 6 4 (to_be16 op) shw (to_be32 sip)
    thw (to_be32 tip).

Lemma write_arp_length op shw sip thw tip :
  length shw = 6%nat -> length thw = 6%nat ->
  length (write_arp (arp_packet op shw sip thw tip)) = arp_size.
Proof. intros H1 H2. unfold write_arp. rewrite !length_app. simpl. by rewrite H1, H2. Qed.

Lemma read_write_arp op shw sip thw tip rest :
  length shw = 6%nat -> length thw = 6%nat ->
  read_arp (write_arp (arp_packet op shw sip thw tip) ++ rest) = arp_packet op shw sip thw tip.
Proof.
  intros Hd Hs.
  destruct (length_6 shw Hd) as (? & ? & ? & ? & ? & ? & ->).
  destruct (length_6 thw Hs) as (? & ? & ? & ? & ? & ? & ->).
  unfold read_arp, write_arp, arp_packet. f_equal.
  - exact (le_load_swap 2 op).
  - exact (le_load_swap 4 sip).
  - exact (le_load_swap 4 tip).
Qed.

Lemma write_ip_length h : length (write_ip h) = ip_size.
Proof. reflexivity. Qed.

Lemma write_udp_length h : length (write_udp h) = udp_size.
Proof. reflexivity. Qed.

Lemma write_tcp_length h : length (write_tcp h) = tcp_size.
Proof. reflexivity. Qed.

(** Every header is a list of bytes when its raw byte arrays are. *)
Lemma is_bytes_app a b : is_bytes (a ++ b) <-> is_bytes a /\ is_bytes b.
Proof. apply Forall_app. Qed.

Lemma write_ip_bytes h : is_bytes (write_ip h).
Proof. unfold write_ip. rewrite !is_bytes_app. repeat split; apply le_store_bytes. Qed.

Lemma write_udp_bytes h : is_bytes (write_udp h).
Proof. unfold write_udp. rewrite !is_bytes_app. repeat split; apply le_store_bytes. Qed.

Lemma write_tcp_bytes h : is_bytes (write_tcp h).
Proof. unfold write_tcp. rewrite !is_bytes_app. repeat split; apply le_store_bytes. Qed.

Lemma write_eth_bytes h : is_bytes (eth_dest h) -> is_bytes (eth_src h) -> is_bytes (write_eth h).
Proof. intros. unfold write_eth. rewrite !is_bytes_app. repeat split; auto with kairix. Qed.

#[export] Hint Resolve write_ip_bytes write_udp_bytes write_tcp_bytes write_eth_bytes : kairix.
