(* ===== verification/NetState.v ===== *)
(** * State of the network stack and its interfaces (os/src/net/*.rs)

    The [static] variables of the network modules as one record, [Net], and
    the two interfaces the protocol code is written against: the network
    devices (trait [NetDevice] of device.rs) and the TCP socket layer
    (socket/tcp.rs).  [Arc<Mutex<UdpSocket>>] is an identity in a store, so
    that the socket table and its holders share one socket.  The field [ext]
    is the state of whatever implements the interfaces.

    Also here: the small tables that every layer reads, the list of local
    addresses (ip.rs) and the routing table (route.rs, mod.rs). *)

From S2P Require Import Prelude Skb.

Abbreviation SockId := nat.
Abbreviation Waker := nat.

(** ** Data *)

Record ArpEntry := mkArpEntry { ae_mac : bytes; ae_dev : DevId }.

Record PendingNeighbourPacket := mkPending {
  nexthop_ip : Z; pk_dev : DevId; pk_skb : Skb; queued_at_us : Z }.

Record RouteEntry := mkRoute { rt_dest : Z; rt_mask : Z; gateway : Z; rt_dev : DevId }.

Record PathMtuEntry := mkPmtu { pm_dst_ip : Z; pm_mtu : Z; updated_at_us : Z }.

Inductive KernelTcpState := SynReceived | Established | LastAck.

Record KernelTcpConn := mkConn {
  remote_ip : Z; local_ip : Z; remote_port : Z; local_port : Z;
  state : KernelTcpState; snd_nxt : Z; rcv_nxt : Z }.

Record UdpSocket := mkUdpSocket {
  local_addr : option (Z * Z);
  remote_addr : option (Z * Z);
  receive_queue : list (Skb * Z * Z);
  rcvbuf_used : Z;
  rcvbuf_limit : Z;
  waker : option Waker }.

Record RawSocket := mkRawSocket { raw_protocol : Z; raw_queue : list (Skb * Z) }.

#[export] Instance ArpEntry_eq_dec : EqDecision ArpEntry.
Proof. solve_decision. Defined.
#[export] Instance Pending_eq_dec : EqDecision PendingNeighbourPacket.
Proof. solve_decision. Defined.
#[export] Instance RouteEntry_eq_dec : EqDecision RouteEntry.
Proof. solve_decision. Defined.
#[export] Instance PathMtuEntry_eq_dec : EqDecision PathMtuEntry.
Proof. solve_decision. Defined.
#[export] Instance KernelTcpState_eq_dec : EqDecision KernelTcpState.
Proof. solve_decision. Defined.
#[export] Instance KernelTcpConn_eq_dec : EqDecision KernelTcpConn.
Proof. solve_decision. Defined.

(** ** The [static] variables *)

Record Net (X : Type) := mkNet {
  arp_cache : gmap Z ArpEntry;
  pending_packets : list PendingNeighbourPacket;
  local_ips : list Z;
  route_table : option (list RouteEntry);
  rng_state : Z;
  time_us : Z;
  path_mtu_cache : list PathMtuEntry;
  kernel_tcp_conns : list KernelTcpConn;
  kernel_next_iss : Z;
  udp_sockets : list (Z * SockId);
  udp_store : gmap SockId UdpSocket;
  next_ephemeral_port : Z;
  raw_sockets : list (Z * SockId);
  raw_store : gmap SockId RawSocket;
  woken : list Waker;
  next_txid_ : Z;
  ext : X }.
Arguments mkNet {X}.
Arguments arp_cache {X}.
Arguments pending_packets {X}.
Arguments local_ips {X}.
Arguments route_table {X}.
Arguments rng_state {X}.
Arguments time_us {X}.
Arguments path_mtu_cache {X}.
Arguments kernel_tcp_conns {X}.
Arguments kernel_next_iss {X}.
Arguments udp_sockets {X}.
Arguments udp_store {X}.
Arguments next_ephemeral_port {X}.
Arguments raw_sockets {X}.
Arguments raw_store {X}.
Arguments woken {X}.
Arguments next_txid_ {X}.
Arguments ext {X}.

Definition set_arp_cache {X} (v : gmap Z ArpEntry) (s : Net X) : Net X :=
  mkNet v (pending_packets s) (local_ips s) (route_table s) (rng_state s) (time_us s) (path_mtu_cache s) (kernel_tcp_conns s) (kernel_next_iss s) (udp_sockets s) (udp_store s) (next_ephemeral_port s) (raw_sockets s) (raw_store s) (woken s) (next_txid_ s) (ext s).
Definition set_pending_packets {X} (v : list PendingNeighbourPacket) (s : Net X) : Net X :=
  mkNet (arp_cache s) v (local_ips s) (route_table s) (rng_state s) (time_us s) (path_mtu_cache s) (kernel_tcp_conns s) (kernel_next_iss s) (udp_sockets s) (udp_store s) (next_ephemeral_port s) (raw_sockets s) (raw_store s) (woken s) (next_txid_ s) (ext s).
Definition set_local_ips {X} (v : list Z) (s : Net X) : Net X :=
  mkNet (arp_cache s) (pending_packets s) v (route_table s) (rng_state s) (time_us s) (path_mtu_cache s) (kernel_tcp_conns s) (kernel_next_iss s) (udp_sockets s) (udp_store s) (next_ephemeral_port s) (raw_sockets s) (raw_store s) (woken s) (next_txid_ s) (ext s).
Definition set_route_table {X} (v : option (list RouteEntry)) (s : Net X) : Net X :=
  mkNet (arp_cache s) (pending_packets s) (local_ips s) v (rng_state s) (time_us s) (path_mtu_cache s) (kernel_tcp_conns s) (kernel_next_iss s) (udp_sockets s) (udp_store s) (next_ephemeral_port s) (raw_sockets s) (raw_store s) (woken s) (next_txid_ s) (ext s).
Definition set_rng_state {X} (v : Z) (s : Net X) : Net X :=
  mkNet (arp_cache s) (pending_packets s) (local_ips s) (route_table s) v (time_us s) (path_mtu_cache s) (kernel_tcp_conns s) (kernel_next_iss s) (udp_sockets s) (udp_store s) (next_ephemeral_port s) (raw_sockets s) (raw_store s) (woken s) (next_txid_ s) (ext s).
Definition set_time_us {X} (v : Z) (s : Net X) : Net X :=
  mkNet (arp_cache s) (pending_packets s) (local_ips s) (route_table s) (rng_state s) v (path_mtu_cache s) (kernel_tcp_conns s) (kernel_next_iss s) (udp_sockets s) (udp_store s) (next_ephemeral_port s) (raw_sockets s) (raw_store s) (woken s) (next_txid_ s) (ext s).
Definition set_path_mtu_cache {X} (v : list PathMtuEntry) (s : Net X) : Net X :=
  mkNet (arp_cache s) (pending_packets s) (local_ips s) (route_table s) (rng_state s) (time_us s) v (kernel_tcp_conns s) (kernel_next_iss s) (udp_sockets s) (udp_store s) (next_ephemeral_port s) (raw_sockets s) (raw_store s) (woken s) (next_txid_ s) (ext s).
Definition set_kernel_tcp_conns {X} (v : list KernelTcpConn) (s : Net X) : Net X :=
  mkNet (arp_cache s) (pending_packets s) (local_ips s) (route_table s) (rng_state s) (time_us s) (path_mtu_cache s) v (kernel_next_iss s) (udp_sockets s) (udp_store s) (next_ephemeral_port s) (raw_sockets s) (raw_store s) (woken s) (next_txid_ s) (ext s).
Definition set_kernel_next_iss {X} (v : Z) (s : Net X) : Net X :=
  mkNet (arp_cache s) (pending_packets s) (local_ips s) (route_table s) (rng_state s) (time_us s) (path_mtu_cache s) (kernel_tcp_conns s) v (udp_sockets s) (udp_store s) (next_ephemeral_port s) (raw_sockets s) (raw_store s) (woken s) (next_txid_ s) (ext s).
Definition set_udp_sockets {X} (v : list (Z * SockId)) (s : Net X) : Net X :=
  mkNet (arp_cache s) (pending_packets s) (local_ips s) (route_table s) (rng_state s) (time_us s) (path_mtu_cache s) (kernel_tcp_conns s) (kernel_next_iss s) v (udp_store s) (next_ephemeral_port s) (raw_sockets s) (raw_store s) (woken s) (next_txid_ s) (ext s).
Definition set_udp_store {X} (v : gmap SockId UdpSocket) (s : Net X) : Net X :=
  mkNet (arp_cache s) (pending_packets s) (local_ips s) (route_table s) (rng_state s) (time_us s) (path_mtu_cache s) (kernel_tcp_conns s) (kernel_next_iss s) (udp_sockets s) v (next_ephemeral_port s) (raw_sockets s) (raw_store s) (woken s) (next_txid_ s) (ext s).
Definition set_next_ephemeral_port {X} (v : Z) (s : Net X) : Net X :=
  mkNet (arp_cache s) (pending_packets s) (local_ips s) (route_table s) (rng_state s) (time_us s) (path_mtu_cache s) (kernel_tcp_conns s) (kernel_next_iss s) (udp_sockets s) (udp_store s) v (raw_sockets s) (raw_store s) (woken s) (next_txid_ s) (ext s).
Definition set_raw_sockets {X} (v : list (Z * SockId)) (s : Net X) : Net X :=
  mkNet (arp_cache s) (pending_packets s) (local_ips s) (route_table s) (rng_state s) (time_us s) (path_mtu_cache s) (kernel_tcp_conns s) (kernel_next_iss s) (udp_sockets s) (udp_store s) (next_ephemeral_port s) v (raw_store s) (woken s) (next_txid_ s) (ext s).
Definition set_raw_store {X} (v : gmap SockId RawSocket) (s : Net X) : Net X :=
  mkNet (arp_cache s) (pending_packets s) (local_ips s) (route_table s) (rng_state s) (time_us s) (path_mtu_cache s) (kernel_tcp_conns s) (kernel_next_iss s) (udp_sockets s) (udp_store s) (next_ephemeral_port s) (raw_sockets s) v (woken s) (next_txid_ s) (ext s).
Definition set_woken {X} (v : list Waker) (s : Net X) : Net X :=
  mkNet (arp_cache s) (pending_packets s) (local_ips s) (route_table s) (rng_state s) (time_us s) (path_mtu_cache s) (kernel_tcp_conns s) (kernel_next_iss s) (udp_sockets s) (udp_store s) (next_ephemeral_port s) (raw_sockets s) (raw_store s) v (next_txid_ s) (ext s).
Definition set_next_txid_ {X} (v : Z) (s : Net X) : Net X :=
  mkNet (arp_cache s) (pending_packets s) (local_ips s) (route_table s) (rng_state s) (time_us s) (path_mtu_cache s) (kernel_tcp_conns s) (kernel_next_iss s) (udp_sockets s) (udp_store s) (next_ephemeral_port s) (raw_sockets s) (raw_store s) (woken s) v (ext s).
Definition set_ext {X} (v : X) (s : Net X) : Net X :=
  mkNet (arp_cache s) (pending_packets s) (local_ips s) (route_table s) (rng_state s) (time_us s) (path_mtu_cache s) (kernel_tcp_conns s) (kernel_next_iss s) (udp_sockets s) (udp_store s) (next_ephemeral_port s) (raw_sockets s) (raw_store s) (woken s) (next_txid_ s) v.

(** The success value that the transmit and receive paths thread through. *)
Abbreviation Rx := (result (Skb * Z * Z) string).
Definition rx_none : Skb * Z * Z := (skb_new 0, 0, 0).

(** ** Interfaces *)

(** Trait [NetDevice], for all devices at once; [all_devices] is the content of
    the device manager, which is fixed once [init] has run. *)
Class NetDevices (X : Type) := {
  dev_name : DevId -> string;
  dev_mtu : DevId -> Z;
  dev_mac : DevId -> bytes;
  dev_ip : DevId -> Z;
  hard_start_xmit : DevId -> Skb -> Net X -> Net X * Rx;
  poll_rx : DevId -> Net X -> Net X;
  all_devices : list DevId }.

(** What socket/tcp.rs offers to the protocol code: [dispatch_tcp_segment],
    [should_silence_unmatched_syn], [handle_pmtu_update] and
    [poll_retransmits]. *)
Class TcpSocketLayer (X : Type) := {
  dispatch_tcp_segment : Z -> Z -> Z -> Z -> Z -> Z -> Z -> bytes -> Net X -> Net X * bool;
  should_silence_unmatched_syn : Z -> Z -> Net X -> Net X * bool;
  handle_pmtu_update : Z -> Z -> Z -> Z -> Z -> Z -> Net X -> Net X;
  poll_retransmits : Net X -> Net X }.

(** [poll_rx_all] of mod.rs: every registered device in order, then the timers
    of the TCP sockets. *)
Definition poll_rx_all {X} `{NetDevices X} `{TcpSocketLayer X} (s : Net X) : Net X :=
  poll_retransmits (fold_left (fun s d => poll_rx d s) all_devices s).

(** The types of the trait's results. *)
Class NetDeviceTypes (X : Type) `{NetDevices X} := {
  dev_mac_length d : length (dev_mac d) = 6%nat;
  dev_mac_bytes d : is_bytes (dev_mac d);
  dev_mtu_u16 d : in_u 16 (dev_mtu d);
  dev_ip_u32 d : in_u 32 (dev_ip d) }.

(** A driver of a real link: handing it a frame touches only its own state
    and either puts that frame on the wire (a driver may pad it) or reports an error.  [on_wire]
    is the list of the frames taken. *)
Class WireLaws (X : Type) `{NetDevices X} := {
  on_wire : X -> list (DevId * bytes);
  xmit_wire d skb s : dev_name d <> "loopback"%string ->
    exists x, fst (hard_start_xmit d skb s) = set_ext x s /\
      on_wire x = on_wire (ext s) ++
        (if is_ok (snd (hard_start_xmit d skb s)) then [(d, data skb)] else []) }.

(** ** Local addresses (ip.rs) *)

Definition add_local_ip {X} (ip : Z) (s : Net X) : Net X :=
  set_local_ips (local_ips s ++ [ip]) s.

Definition is_loopback_addr (addr : Z) : bool := Z.land addr 4278190080 =? 2130706432.

Definition is_local_ip {X} (s : Net X) (ip : Z) : bool :=
  if is_loopback_addr ip then true else bool_decide (ip ∈ local_ips s).

(** ** Routes (route.rs) *)

(** [u32::count_ones]. *)
Definition count_ones (z : Z) : Z := Z.of_nat (length (List.filter (Z.testbit z) (seqZ 0 32))).

(** [Iterator::max_by_key]: the last of the maximal elements. *)
Definition max_step {A} (key : A -> Z) (acc : option A) (x : A) : option A :=
  match acc with
  | None => Some x
  | Some y => if key y <=? key x then Some x else acc
  end.

Definition max_by_key {A} (key : A -> Z) (l : list A) : option A :=
  fold_left (max_step key) l None.

Definition route_matches (dest : Z) (e : RouteEntry) : bool :=
  Z.land dest (rt_mask e) =? rt_dest e.

Definition route_table_lookup (entries : list RouteEntry) (dest : Z) : option RouteEntry :=
  max_by_key (fun e => count_ones (rt_mask e)) (List.filter (route_matches dest) entries).

Definition add_loopback_route (dev : DevId) (entries : list RouteEntry) : list RouteEntry :=
  entries ++ [mkRoute 2130706432 4278190080 0 dev].

Definition add_entry (dest mask gw : Z) (dev : DevId) (entries : list RouteEntry) : list RouteEntry :=
  entries ++ [mkRoute dest mask gw dev].

Definition route_lookup {X} (s : Net X) (dest : Z) : result (DevId * Z) string :=
  let? table := ok_or (route_table s) "Route table not initialized"%string in
  match route_table_lookup table dest with
  | Some entry => Ok (rt_dev entry, if negb (gateway entry =? 0) then gateway entry else dest)
  | None => Err "No route to destination"%string
  end.

(** ** Initialisation (mod.rs) *)

Inductive Board := Qemu | VisionFive2 | Ls2k1000.

(** The build-time configuration ([cfg(board = ...)]). *)
Class BuildConfig := { board : Board }.

Definition static_ip (b : Board) : Z :=
  match b with Qemu => 167772687 | _ => 3232238082 end.
Definition default_gateway (b : Board) : Z :=
  match b with Qemu => 167772674 | _ => 3232238081 end.

(** Routes installed once the board's network card answered the probe. *)
Definition board_routes (b : Board) (eth0 : DevId) (entries : list RouteEntry) : list RouteEntry :=
  match b with
  | Qemu => add_entry 0 0 (default_gateway b) eth0 entries
  | _ => add_entry 0 0 (default_gateway b) eth0 (add_entry 3232238080 4294967040 0 eth0 entries)
  end.

(** [init]: device registration itself is the driver's; [eth0] is the card if
    the probe succeeded. *)
Definition init {X} (b : Board) (loopback : DevId) (eth0 : option DevId) (s : Net X) : Net X :=
  let table := add_loopback_route loopback [] in
  let s := add_local_ip 2130706433 s in
  match eth0 with
  | Some d => set_route_table (Some (board_routes b d table)) (add_local_ip (static_ip b) s)
  | None => set_route_table (Some table) s
  end.

(** The [static] initialisers. *)
Definition boot_net {X} (now : Z) (x : X) : Net X :=
  {| arp_cache := ∅; pending_packets := []; local_ips := []; route_table := None;
     rng_state := 305419896; time_us := now; path_mtu_cache := []; kernel_tcp_conns := [];
     kernel_next_iss := 305397760; udp_sockets := []; udp_store := ∅;
     next_ephemeral_port := 45000; raw_sockets := []; raw_store := ∅; woken := [];
     next_txid_ := 19288; ext := x |}.

(** ** Longest-prefix match *)

(** [m] is the last maximal element of [l]. *)
Definition last_max {A} (key : A -> Z) (l : list A) (m : A) : Prop :=
  exists l1 l2, l = l1 ++ m :: l2 /\
    Forall (fun x => key x <= key m) l1 /\ Forall (fun x => key x < key m) l2.

Lemma max_by_key_snoc {A} (key : A -> Z) l x :
  max_by_key key (l ++ [x]) = max_step key (max_by_key key l) x.
Proof. unfold max_by_key. by rewrite fold_left_app. Qed.

Lemma max_by_key_spec {A} (key : A -> Z) l :
  match max_by_key key l with Some m => last_max key l m | None => l = [] end.
Proof.
  induction l as [|x l IH] using rev_ind; [done|]. rewrite max_by_key_snoc. unfold max_step.
  destruct (max_by_key key l) as [y|]; [|subst; exists [], []; by repeat split].
  destruct IH as (l1 & l2 & -> & H1 & H2). case_if.
  - exists (l1 ++ y :: l2), []. repeat split; [|done].
    rewrite Forall_app, Forall_cons. split; [|split; [done|]].
    + eapply Forall_impl; [exact H1|]. simpl. lia.
    + eapply Forall_impl; [exact H2|]. simpl. lia.
  - exists l1, (l2 ++ [x]). rewrite <- app_assoc. repeat split; [done|].
    rewrite Forall_app, Forall_singleton. done.
Qed.

Lemma route_table_lookup_spec entries dest :
  match route_table_lookup entries dest with
  | Some e => last_max (fun e => count_ones (rt_mask e))
                (List.filter (route_matches dest) entries) e
  | None => List.filter (route_matches dest) entries = []
  end.
Proof. apply max_by_key_spec. Qed.

Lemma filter_split {A} (f : A -> bool) l l1 m l2 :
  List.filter f l = l1 ++ m :: l2 ->
  exists k1 k2, l = k1 ++ m :: k2 /\ List.filter f k1 = l1 /\ List.filter f k2 = l2 /\ f m = true.
Proof.
  revert l1. induction l as [|x l IH]; intros l1 E; simpl in E; [by destruct l1|].
  destruct (f x) eqn:Ex.
  - destruct l1 as [|y l1]; simpl in E; injection E as -> E; [by exists [], l|].
    destruct (IH l1 E) as (k1 & k2 & -> & <- & <- & Hm). exists (y :: k1), k2.
    simpl. by rewrite Ex.
  - destruct (IH l1 E) as (k1 & k2 & -> & <- & <- & Hm). exists (x :: k1), k2.
    simpl. by rewrite Ex.
Qed.

Lemma filter_nil_false {A} (f : A -> bool) l x :
  List.filter f l = [] -> x ∈ l -> f x = false.
Proof.
  intros E Hx. destruct (f x) eqn:Ef; [|done].
  assert (H : x ∈ List.filter f l) by (by apply filter_In_iff). rewrite E in H.
  by apply not_elem_of_nil in H.
Qed.

(** ** Main properties *)

(** routing is longest-prefix match.  A successful [route_lookup] returns
    the device and next hop (the gateway, or the destination itself on a
    directly connected network) of an installed route that matches the
    destination, no matching route has a longer mask, and among equally long
    ones the last installed wins; the lookup fails only when no table is
    installed or no installed route matches. *)
Theorem route_lookup_longest_prefix {X} (s : Net X) dest :
  let ones e := count_ones (rt_mask e) in
  match route_lookup s dest with
  | Ok (dev, nexthop) =>
      exists l1 e l2, route_table s = Some (l1 ++ e :: l2) /\ route_matches dest e = true /\
        dev = rt_dev e /\ nexthop = (if gateway e =? 0 then dest else gateway e) /\
        (forall e', e' ∈ l1 -> route_matches dest e' = true -> ones e' <= ones e) /\
        (forall e', e' ∈ l2 -> route_matches dest e' = true -> ones e' < ones e)
  | Err _ =>
      forall table e, route_table s = Some table -> e ∈ table -> route_matches dest e = false
  end.
Proof.
  cbv zeta. unfold route_lookup. destruct (route_table s) as [table|]; simpl; [|done].
  pose proof (route_table_lookup_spec table dest) as H.
  destruct (route_table_lookup table dest) as [e|].
  - destruct H as (f1 & f2 & Ef & H1 & H2).
    apply filter_split in Ef as (l1 & l2 & -> & <- & <- & Hm). rewrite Forall_forall in H1, H2.
    exists l1, e, l2. repeat split; [done|by destruct (gateway e =? 0)| |].
    + intros e' He' Hm'. apply H1. by apply filter_In_iff.
    + intros e' He' Hm'. apply H2. by apply filter_In_iff.
  - intros table' e [= <-] He. by eapply filter_nil_false.
Qed.

(** The board's directly connected network. *)
Definition on_link (b : Board) (dest : Z) : bool :=
  match b with Qemu => false | _ => Z.land dest 4294967040 =? 3232238080 end.

Lemma loopback_not_on_link dest :
  is_loopback_addr dest = true -> (Z.land dest 4294967040 =? 3232238080) = false.
Proof.
  unfold is_loopback_addr. intros H. to_prop. apply Z.eqb_neq. intros E.
  apply (f_equal (fun z => Z.land z 4278190080)) in E.
  rewrite <- Z.land_assoc in E. change (Z.land 4294967040 4278190080) with 4278190080 in E.
  rewrite H in E. discriminate.
Qed.

(** routing as the stack initialises it.  On every board, after [init]
    with a working card, 127.0.0.0/8 is routed to the loopback device, a
    directly connected network to the card itself and everything else to the
    card through the default gateway; without the card only 127.0.0.0/8 is
    routed.  The local addresses are 127.0.0.0/8, the board's static address
    and whatever was registered before. *)
Theorem init_routing {X} (b : Board) (lo d : DevId) (s : Net X) (dest : Z) :
  route_lookup (init b lo (Some d) s) dest =
    Ok (if is_loopback_addr dest then (lo, dest)
        else if on_link b dest then (d, dest) else (d, default_gateway b)) /\
  is_ok (route_lookup (init b lo None s) dest) = is_loopback_addr dest /\
  is_local_ip (init b lo (Some d) s) dest =
    is_local_ip s dest || (dest =? static_ip b).
Proof.
  split; [|split].
  - pose proof (loopback_not_on_link dest) as Hll.
    unfold route_lookup, route_table_lookup, is_loopback_addr in *.
    destruct b; cbn [init set_route_table route_table board_routes add_entry add_loopback_route app
      ok_or rbind List.filter route_matches rt_mask rt_dest on_link];
      unfold route_matches; cbn [rt_mask rt_dest]; rewrite Z.land_0_r; cbn [Z.eqb];
      destruct (Z.land dest 4278190080 =? 2130706432) eqn:E1; rewrite ?Hll by done;
      try reflexivity; destruct (Z.land dest 4294967040 =? 3232238080); reflexivity.
  - unfold route_lookup, route_table_lookup, is_loopback_addr.
    destruct b; cbn; unfold route_matches; cbn [rt_mask rt_dest];
      destruct (Z.land dest 4278190080 =? 2130706432); reflexivity.
  - unfold is_local_ip. destruct (is_loopback_addr dest) eqn:E; [done|].
    unfold init, add_local_ip; cbn [local_ips set_local_ips set_route_table].
    apply eq_bool_prop_intro. rewrite orb_True, !bool_decide_spec, Is_true_true, Z.eqb_eq.
    rewrite !elem_of_app, !list_elem_of_singleton. split; [|tauto].
    intros [[H|H]|H]; [tauto| |tauto]. exfalso. subst. discriminate E.
Qed.

(** ** A wire

    The plainest driver: every frame goes out and is recorded, nothing comes
    in.  Device [d] has address 10.0.2.[d] and a locally administered
    hardware address that ends in [d]. *)

Module TestWire.

Abbreviation WireLog := (list (DevId * bytes)).

#[export] Instance devices : NetDevices WireLog := {
  dev_name _ := "eth0"%string;
  dev_mtu _ := 1500;
  dev_mac d := [2; 0; 0; 0; 0; Z.of_nat d mod 256];
  dev_ip d := 167772672 + Z.of_nat d mod 256;
  hard_start_xmit d skb s :=
    if (1514 <? length (data skb))%nat then (s, Err "Invalid"%string) else (set_ext (ext s ++ [(d, data skb)]) s, Ok rx_none);
  poll_rx _ s := s;
  all_devices := [15%nat] }.

#[export] Instance device_types : NetDeviceTypes WireLog.
Proof.
  split; intros d; cbn [dev_mac dev_mtu dev_ip devices].
  - done.
  - repeat constructor; unfold is_byte; zlia.
  - unfold in_u; lia.
  - unfold in_u; zlia.
Qed.

#[export] Instance wire : WireLaws WireLog.
Proof.
  apply (Build_WireLaws WireLog _ (fun x => x)). intros d skb s _. cbn [hard_start_xmit devices]. destruct (1514 <? length (data skb))%nat.
  - exists (ext s). split; [by destruct s|by rewrite app_nil_r].
  - exists (ext s ++ [(d, data skb)]). done.
Defined.

#[export] Instance no_sockets : TcpSocketLayer WireLog := {
  dispatch_tcp_segment _ _ _ _ _ _ _ _ s := (s, false);
  should_silence_unmatched_syn _ _ s := (s, false);
  handle_pmtu_update _ _ _ _ _ _ s := s;
  poll_retransmits s := s }.

(** A QEMU host with one card, device 15. *)
Definition host : Net WireLog := init Qemu 0 (Some 15%nat) (boot_net 1000000 []).

End TestWire.
