(* ===== verification/Neighbor.v ===== *)
(** * ARP and the neighbour layer (os/src/net/arp.rs, neighbor.rs)

    Resolution of a next hop to a hardware address: the ARP cache, the queue
    of packets that wait for a resolution, the ARP request/reply exchange and
    the Ethernet encapsulation of IPv4 packets.  [unwrap] on a failed buffer
    operation is the error ["panic"]; lemma [arp_frame_spec] and
    [xmit_frame_spec] show that it is never reached. *)

From S2P Require Import Prelude Skb Wire NetState.

Definition ARP_PENDING_TIMEOUT_US : Z := 5000000.
Definition ARP_PENDING_MAX_TOTAL : nat := 32.
Definition ARP_PENDING_MAX_PER_IP : nat := 8.

(** ** The pending queue *)

Definition waits_for (ip : Z) (pkt : PendingNeighbourPacket) : bool := nexthop_ip pkt =? ip.

Definition fresh_at (now : Z) (pkt : PendingNeighbourPacket) : bool :=
  saturating_sub now (queued_at_us pkt) <=? ARP_PENDING_TIMEOUT_US.

(** [while per_ip >= ARP_PENDING_MAX_PER_IP { ... per_ip -= 1 }]. *)
Fixpoint evict_per_ip (per_ip : nat) (ip : Z) (pending : list PendingNeighbourPacket) :=
  match per_ip with
  | O => pending
  | S p =>
      if (ARP_PENDING_MAX_PER_IP <=? S p)%nat then
        match position (waits_for ip) pending with
        | Some pos => evict_per_ip p ip (delete pos pending)
        | None => pending
        end
      else pending
  end.

(** [while pending.len() >= ARP_PENDING_MAX_TOTAL { pending.remove(0); }]. *)
Fixpoint evict_total (pending : list PendingNeighbourPacket) :=
  match pending with
  | [] => []
  | _ :: rest => if (ARP_PENDING_MAX_TOTAL <=? length pending)%nat then evict_total rest else pending
  end.

Definition queue_pending_packet {X} (ip : Z) (dev : DevId) (skb : Skb) (s : Net X) : Net X :=
  let now := time_us s in
  let pending := List.filter (fresh_at now) (pending_packets s) in
  let per_ip := length (List.filter (waits_for ip) pending) in
  let pending := evict_total (evict_per_ip per_ip ip pending) in
  set_pending_packets (pending ++ [mkPending ip dev skb now]) s.

(** The extraction loop of [flush_pending_for]: the packets taken out and the
    packets that stay. *)
Fixpoint take_waiting (ip : Z) (pending : list PendingNeighbourPacket) :
    list PendingNeighbourPacket * list PendingNeighbourPacket :=
  match pending with
  | [] => ([], [])
  | pkt :: rest =>
      let '(out, stay) := take_waiting ip rest in
      if nexthop_ip pkt =? ip then (pkt :: out, stay) else (out, pkt :: stay)
  end.

Section Ops.
Context {X : Type} `{NetDevices X}.

(** ** Output *)

Definition xmit_ip_packet (skb : Skb) (mac : bytes) (dev : DevId) (s : Net X) : Net X * Rx :=
  let skb := reserve_head skb eth_size in
  match push_bytes skb (write_eth (mkEth mac (dev_mac dev) (to_be16 ETH_P_IP))) with
  | Some skb => hard_start_xmit dev skb s
  | None => (s, Err "panic"%string)
  end.

Fixpoint xmit_all (mac : bytes) (packets : list PendingNeighbourPacket) (s : Net X) : Net X :=
  match packets with
  | [] => s
  | pkt :: packets => xmit_all mac packets (fst (xmit_ip_packet (pk_skb pkt) mac (pk_dev pkt) s))
  end.

Definition flush_pending_for (ip : Z) (mac : bytes) (s : Net X) : Net X :=
  let '(packets, stay) := take_waiting ip (pending_packets s) in
  xmit_all mac packets (set_pending_packets stay s).

(** ** ARP *)

Definition arp_add_entry (ip : Z) (mac : bytes) (dev : DevId) (s : Net X) : Net X :=
  flush_pending_for ip mac (set_arp_cache (<[ip := mkArpEntry mac dev]> (arp_cache s)) s).

Definition arp_lookup (s : Net X) (ip : Z) : option bytes := ae_mac <$> arp_cache s !! ip.

(** The frame that [arp_request] and [arp_reply] build: Ethernet header, ARP packet. *)
Definition arp_frame (eth_to : bytes) (dev : DevId) (op : Z) (target_hw : bytes) (target_ip : Z) :
    option Skb :=
  let skb := skb_new 64 in
  match put_bytes skb (write_eth (mkEth eth_to (dev_mac dev) (to_be16 ETH_P_ARP))) with
  | Some skb => put_bytes skb (write_arp (arp_packet op (dev_mac dev) (dev_ip dev) target_hw target_ip))
  | None => None
  end.

Definition arp_request (ip : Z) (dev : DevId) (s : Net X) : Net X * result unit string :=
  match arp_frame (replicate 6 255) dev ARP_REQUEST (replicate 6 0) ip with
  | Some skb =>
      match hard_start_xmit dev skb s with
      | (s, Ok _) => (s, Ok tt)
      | (s, Err _) => (s, Err "ARP send failed"%string)
      end
  | None => (s, Err "panic"%string)
  end.

Definition arp_reply (target_ip : Z) (target_mac : bytes) (dev : DevId) (s : Net X) : Net X :=
  match arp_frame target_mac dev ARP_REPLY target_mac target_ip with
  | Some skb => fst (hard_start_xmit dev skb s)
  | None => s
  end.

Definition arp_rcv (skb : Skb) (dev : DevId) (s : Net X) : Net X :=
  if (len skb <? arp_size)%nat then s
  else
    let arp := read_arp (data skb) in
    let op := from_be16 (arp_op arp) in
    let sender_ip := from_be32 (sender_address arp) in
    let target_ip := from_be32 (target_address arp) in
    let s := arp_add_entry sender_ip (sender_hw arp) dev s in
    if (op =? ARP_REQUEST) && (target_ip =? dev_ip dev)
    then arp_reply sender_ip (sender_hw arp) dev s else s.

(** ** Neighbour output *)

(** [for _ in 0..16 { dev.poll_rx(); if let Some(mac) = arp_lookup(ip) { flush; break } }]. *)
Fixpoint poll_loop (n : nat) (ip : Z) (dev : DevId) (s : Net X) : Net X :=
  match n with
  | O => s
  | S n =>
      let s := poll_rx dev s in
      match arp_lookup s ip with
      | Some mac => flush_pending_for ip mac s
      | None => poll_loop n ip dev s
      end
  end.

Definition neighbour_output (skb : Skb) (ip : Z) (dev : DevId) (s : Net X) : Net X * Rx :=
  if bool_decide (dev_name dev = "loopback"%string) then hard_start_xmit dev skb s
  else
    let s := poll_rx dev s in
    match arp_lookup s ip with
    | Some mac => xmit_ip_packet skb mac dev s
    | None =>
        let s := queue_pending_packet ip dev skb s in
        match arp_request ip dev s with
        | (s, Err e) => (s, Err e)
        | (s, Ok _) => (poll_loop 16 ip dev s, Ok rx_none)
        end
    end.

End Ops.

(** ** The pending queue: bounds, order, eviction *)

Definition per_ip_count (ip : Z) (l : list PendingNeighbourPacket) : nat :=
  length (List.filter (waits_for ip) l).

Definition pending_wf (l : list PendingNeighbourPacket) : Prop :=
  (length l <= ARP_PENDING_MAX_TOTAL)%nat /\
  forall ip, (per_ip_count ip l <= ARP_PENDING_MAX_PER_IP)%nat.

Lemma per_ip_sublist ip l k : l `sublist_of` k -> (per_ip_count ip l <= per_ip_count ip k)%nat.
Proof. intros. by apply sublist_length, sublist_filter_b. Qed.

Lemma pending_wf_sublist l k : l `sublist_of` k -> pending_wf k -> pending_wf l.
Proof.
  intros Hs [Hl Hc]. split; [apply sublist_length in Hs; lia|].
  intros ip. specialize (Hc ip). pose proof (per_ip_sublist ip l k Hs). lia.
Qed.

(** One turn of the per-address loop drops the oldest packet of that address. *)
Lemma evict_per_ip_spec n ip l :
  n = per_ip_count ip l ->
  let l' := evict_per_ip n ip l in
  l' `sublist_of` l /\ (per_ip_count ip l' < ARP_PENDING_MAX_PER_IP)%nat /\
  ((n < ARP_PENDING_MAX_PER_IP)%nat -> l' = l) /\
  List.filter (fun p => negb (waits_for ip p)) l' = List.filter (fun p => negb (waits_for ip p)) l.
Proof.
  unfold ARP_PENDING_MAX_PER_IP. revert l. induction n as [|n IH]; intros l En; cbn [evict_per_ip].
  { rewrite <- En. repeat split; (done || lia). }
  case_raw E; to_prop; unfold ARP_PENDING_MAX_PER_IP in E; [|rewrite <- En; repeat split; (done || lia)].
  pose proof (position_spec (waits_for ip) l) as Hp. destruct (position (waits_for ip) l) as [p|].
  - destruct Hp as (l1 & x & l2 & -> & <- & Hx & Hf). rewrite delete_middle.
    unfold per_ip_count in *. rewrite List.filter_app in En. cbn [List.filter] in En. rewrite Hx in En.
    rewrite filter_none in En by done. simpl in En.
    destruct (IH (l1 ++ l2)) as (Hs & Hc & _ & Ho).
    { rewrite List.filter_app, filter_none by done. simpl. lia. }
    split; [|split; [done|split; [lia|]]].
    + etrans; [exact Hs|]. apply sublist_app; [done|by constructor].
    + rewrite Ho, !List.filter_app. cbn [List.filter]. by rewrite Hx.
  - unfold per_ip_count in En. rewrite filter_none in En by done. discriminate.
Qed.

Lemma evict_total_spec l :
  exists n, evict_total l = drop n l /\ (length (evict_total l) < ARP_PENDING_MAX_TOTAL)%nat /\
    ((length l < ARP_PENDING_MAX_TOTAL)%nat -> n = 0%nat).
Proof.
  unfold ARP_PENDING_MAX_TOTAL. induction l as [|x l IH]; cbn [evict_total]; [by exists 0%nat; split; [|split; [simpl; lia|]]|].
  case_raw E; to_prop; unfold ARP_PENDING_MAX_TOTAL in E.
  - destruct IH as (n & -> & Hn & _). exists (S n). split; [done|]. split; [done|lia].
  - exists 0%nat. by rewrite drop_0.
Qed.

Lemma take_waiting_eq ip l :
  take_waiting ip l =
  (List.filter (waits_for ip) l, List.filter (fun p => negb (waits_for ip p)) l).
Proof.
  induction l as [|x l IH]; cbn [take_waiting List.filter]; [done|]. rewrite IH.
  change (waits_for ip x) with (nexthop_ip x =? ip). by destruct (nexthop_ip x =? ip).
Qed.

(** What [queue_pending_packet] keeps. *)
Lemma queue_pending_spec {X} ip dev skb (s : Net X) :
  let fresh := List.filter (fresh_at (time_us s)) (pending_packets s) in
  exists rest,
    pending_packets (queue_pending_packet ip dev skb s) = rest ++ [mkPending ip dev skb (time_us s)] /\
    rest `sublist_of` fresh /\ (length rest < ARP_PENDING_MAX_TOTAL)%nat /\
    (per_ip_count ip rest < ARP_PENDING_MAX_PER_IP)%nat /\
    ((per_ip_count ip fresh < ARP_PENDING_MAX_PER_IP)%nat ->
     (length fresh < ARP_PENDING_MAX_TOTAL)%nat -> rest = fresh).
Proof.
  intros fresh. unfold queue_pending_packet; cbn [pending_packets set_pending_packets]. fold fresh.
  change (length (List.filter (waits_for ip) fresh)) with (per_ip_count ip fresh).
  destruct (evict_per_ip_spec _ ip fresh eq_refl) as (Hs & Hc & Hid & _). cbv zeta in *.
  set (l := evict_per_ip (per_ip_count ip fresh) ip fresh) in *.
  destruct (evict_total_spec l) as (n & E & Hl & Hn). rewrite E in *.
  exists (drop n l). split; [done|].
  split; [etrans; [apply sublist_drop|exact Hs]|]. split; [done|]. split.
  - eapply Nat.le_lt_trans; [apply per_ip_sublist, sublist_drop|exact Hc].
  - intros Hc' Hl'. rewrite Hid in * by done. by rewrite Hn, drop_0.
Qed.

(** ** Frames *)

Section Frames.
Context {X : Type} `{NetDevices X} `{!NetDeviceTypes X}.

Definition arp_frame_bytes (eth_to : bytes) (dev : DevId) (op : Z) (thw : bytes) (tip : Z) : bytes :=
  write_eth (mkEth eth_to (dev_mac dev) (to_be16 ETH_P_ARP)) ++
  write_arp (arp_packet op (dev_mac dev) (dev_ip dev) thw tip).

Definition ip_frame_bytes (mac : bytes) (dev : DevId) (packet : bytes) : bytes :=
  write_eth (mkEth mac (dev_mac dev) (to_be16 ETH_P_IP)) ++ packet.

Lemma arp_frame_spec eth_to dev op thw tip :
  exists skb, arp_frame eth_to dev op thw tip = Some skb /\ wf_skb skb /\
    data skb = arp_frame_bytes eth_to dev op thw tip.
Proof.
  unfold arp_frame. destruct (put_bytes_spec (skb_new 64)
    (write_eth (mkEth eth_to (dev_mac dev) (to_be16 ETH_P_ARP)))) as (s1 & E1 & W1 & D1 & _);
    [apply wf_skb_new|]. rewrite E1.
  destruct (put_bytes_spec s1 (write_arp (arp_packet op (dev_mac dev) (dev_ip dev) thw tip)))
    as (s2 & E2 & W2 & D2 & _); [done|]. rewrite E2. exists s2. repeat split; [apply W2..|].
  by rewrite D2, D1.
Qed.

Lemma xmit_frame_spec skb mac dev (s : Net X) :
  wf_skb skb ->
  exists skb', xmit_ip_packet skb mac dev s = hard_start_xmit dev skb' s /\ wf_skb skb' /\
    data skb' = ip_frame_bytes mac dev (data skb).
Proof.
  intros Hw. unfold xmit_ip_packet.
  destruct (push_bytes_spec (reserve_head skb eth_size)
    (write_eth (mkEth mac (dev_mac dev) (to_be16 ETH_P_IP)))) as (s1 & E1 & W1 & D1 & _);
    [by apply wf_reserve_head|]. rewrite E1. exists s1. split; [done|]. split; [done|].
  by rewrite D1, data_reserve_head.
Qed.

End Frames.

(** ** Output over a wire *)

Section Wire.
Context {X : Type} `{NetDevices X} `{!NetDeviceTypes X} `{!WireLaws X}.

Definition pending_ok (l : list PendingNeighbourPacket) : Prop :=
  Forall (fun p => wf_skb (pk_skb p) /\ dev_name (pk_dev p) <> "loopback"%string) l.

(** As long as nothing more goes out, the driver of [d] takes a frame of up to [n]
    bytes: it is not busy, and the frame is within its limit (drivers refuse frames
    of more than 1514 or 1518 bytes, and any frame while their queue is full). *)
Definition takes (d : DevId) (n : nat) (s : Net X) : Prop :=
  forall skb (s' : Net X), on_wire (ext s') = on_wire (ext s) -> (length (data skb) <= n)%nat ->
    is_ok (snd (hard_start_xmit d skb s')) = true.

Lemma takes_same d n (s s' : Net X) : on_wire (ext s') = on_wire (ext s) -> takes d n s -> takes d n s'.
Proof. intros E Ht skb s1 E1. apply Ht. congruence. Qed.

Lemma ip_frame_length mac dev packet : length mac = 6%nat -> length (ip_frame_bytes mac dev packet) = (14 + length packet)%nat.
Proof. intros Hm. unfold ip_frame_bytes. rewrite length_app, write_eth_length; [done|done|apply dev_mac_length]. Qed.

Lemma arp_frame_length mac dev op thw ip : length mac = 6%nat -> length thw = 6%nat -> length (arp_frame_bytes mac dev op thw ip) = 42%nat.
Proof.
  intros Hm Ht. unfold arp_frame_bytes. rewrite length_app, write_eth_length, write_arp_length; try done; apply dev_mac_length.
Qed.

Definition frame_of (mac : bytes) (p : PendingNeighbourPacket) : DevId * bytes :=
  (pk_dev p, ip_frame_bytes mac (pk_dev p) (data (pk_skb p))).

Lemma xmit_wire_shape d skb (s : Net X) :
  dev_name d <> "loopback"%string ->
  exists x, fst (hard_start_xmit d skb s) = set_ext x s /\
    ((is_ok (snd (hard_start_xmit d skb s)) = true /\ on_wire x = on_wire (ext s) ++ [(d, data skb)]) \/
     (is_ok (snd (hard_start_xmit d skb s)) = false /\ on_wire x = on_wire (ext s))).
Proof.
  intros Hd. destruct (xmit_wire d skb s Hd) as (x & E & Ew). exists x. split; [done|].
  destruct (is_ok (snd (hard_start_xmit d skb s))); [by left|right]. by rewrite app_nil_r in Ew.
Qed.

Lemma xmit_all_spec mac pkts (s : Net X) :
  pending_ok pkts ->
  exists x fs, xmit_all mac pkts s = set_ext x s /\ on_wire x = on_wire (ext s) ++ fs /\
    fs `sublist_of` (frame_of mac <$> pkts) /\
    (length mac = 6%nat -> Forall (fun p => forall s, takes (pk_dev p) (14 + len (pk_skb p)) s) pkts -> fs = frame_of mac <$> pkts).
Proof.
  intros Hp. revert s. induction Hp as [|p pkts [Hw Hd] _ IH]; intros s; simpl.
  - exists (ext s), []. rewrite app_nil_r. by destruct s.
  - destruct (xmit_frame_spec (pk_skb p) mac (pk_dev p) s Hw) as (skb & E & Ws & Ds). rewrite E.
    destruct (xmit_wire_shape (pk_dev p) skb s Hd) as (x & Ex & Hx). rewrite Ex.
    destruct (IH (set_ext x s)) as (x' & fs & -> & Ew & Hs & Ha).
    change (set_ext x' (set_ext x s)) with (set_ext x' s).
    change (ext (set_ext x s)) with x in Ew. destruct Hx as [[_ Hx]|[Hok Hx]].
    + exists x', (frame_of mac p :: fs). split; [done|]. rewrite Ew, Hx, <- app_assoc. simpl.
      rewrite Ds. split; [done|]. split; [by constructor|]. intros Hm [_ Hall]%Forall_cons. by rewrite Ha.
    + exists x', fs. split; [done|]. rewrite Ew, Hx. split; [done|]. split; [by constructor|].
      intros Hm [Hall _]%Forall_cons. specialize (Hall s skb s eq_refl). rewrite Ds, ip_frame_length, len_data in Hall by done.
      rewrite Hall in Hok by lia. done.
Qed.

(** Resolution: what [flush_pending_for] does to the queue and to the wire. *)
Lemma flush_spec ip mac (s : Net X) :
  pending_ok (pending_packets s) ->
  let mine := List.filter (waits_for ip) (pending_packets s) in
  exists x fs, flush_pending_for ip mac s =
      set_ext x (set_pending_packets
        (List.filter (fun p => negb (waits_for ip p)) (pending_packets s)) s) /\
    on_wire x = on_wire (ext s) ++ fs /\ fs `sublist_of` (frame_of mac <$> mine) /\
    (length mac = 6%nat -> Forall (fun p => forall s, takes (pk_dev p) (14 + len (pk_skb p)) s) mine -> fs = frame_of mac <$> mine).
Proof.
  intros Hp. unfold flush_pending_for. rewrite take_waiting_eq.
  destruct (xmit_all_spec mac (List.filter (waits_for ip) (pending_packets s))
    (set_pending_packets (List.filter (fun p => negb (waits_for ip p)) (pending_packets s)) s))
    as (x & fs & E & Ew & Hs); [by apply Forall_filter_b|].
  by exists x, fs.
Qed.

Lemma arp_request_spec ip dev (s : Net X) :
  dev_name dev <> "loopback"%string ->
  let frame := arp_frame_bytes (replicate 6 255) dev ARP_REQUEST (replicate 6 0) ip in
  exists x, fst (arp_request ip dev s) = set_ext x s /\
    on_wire x = on_wire (ext s) ++ (if is_ok (snd (arp_request ip dev s)) then [(dev, frame)] else []) /\
    (takes dev 42 s -> snd (arp_request ip dev s) = Ok tt).
Proof.
  intros Hd frame. unfold arp_request.
  destruct (arp_frame_spec (replicate 6 255) dev ARP_REQUEST (replicate 6 0) ip) as (skb & -> & _ & D).
  destruct (xmit_wire dev skb s Hd) as (x & E & Ew). exists x. rewrite D in Ew.
  assert (Hok : takes dev 42 s -> is_ok (snd (hard_start_xmit dev skb s)) = true).
  { intros Ha. apply Ha; [done|]. by rewrite D, arp_frame_length. }
  destruct (hard_start_xmit dev skb s) as [s' [r|e]]; simpl in *; repeat split; try done.
  intros Ha. by specialize (Hok Ha).
Qed.

Lemma arp_reply_spec ip mac dev (s : Net X) :
  dev_name dev <> "loopback"%string -> length mac = 6%nat ->
  exists x, arp_reply ip mac dev s = set_ext x s /\
    (on_wire x = on_wire (ext s) \/
     on_wire x = on_wire (ext s) ++ [(dev, arp_frame_bytes mac dev ARP_REPLY mac ip)]) /\
    (takes dev 42 s -> on_wire x = on_wire (ext s) ++ [(dev, arp_frame_bytes mac dev ARP_REPLY mac ip)]).
Proof.
  intros Hd Hm. unfold arp_reply.
  destruct (arp_frame_spec mac dev ARP_REPLY mac ip) as (skb & -> & _ & D).
  destruct (xmit_wire_shape dev skb s Hd) as (x & E & Ew). rewrite D in Ew. exists x.
  split; [done|]. split; [tauto|]. intros Ha. specialize (Ha skb s eq_refl). rewrite D, arp_frame_length in Ha by done.
  destruct Ew as [[_ ?]|[Hn _]]; [done|]. rewrite Ha in Hn by lia. done.
Qed.

Lemma pending_ok_queue ip dev skb (s : Net X) :
  wf_skb skb -> dev_name dev <> "loopback"%string -> pending_ok (pending_packets s) ->
  pending_ok (pending_packets (queue_pending_packet ip dev skb s)).
Proof.
  intros Hw Hd Hp. destruct (queue_pending_spec ip dev skb s) as (rest & -> & Hs & _).
  apply Forall_app. split; [|by apply Forall_singleton].
  eapply Forall_sublist_b; [exact Hs|]. by apply Forall_filter_b.
Qed.

(** [arp_rcv] on a packet as [arp_frame] writes it, possibly followed by padding. *)
Lemma arp_rcv_spec skb dev op shw sip thw tip pad (s : Net X) :
  wf_skb skb -> data skb = write_arp (arp_packet op shw sip thw tip) ++ pad ->
  length shw = 6%nat -> length thw = 6%nat -> in_u 16 op -> in_u 32 sip -> in_u 32 tip ->
  arp_rcv skb dev s =
  let s' := arp_add_entry sip shw dev s in
  if (op =? ARP_REQUEST) && (tip =? dev_ip dev) then arp_reply sip shw dev s' else s'.
Proof.
  intros Hw Hd Hs Ht Ho Hi Hj. unfold arp_rcv.
  assert (Hl : (len skb <? arp_size)%nat = false).
  { apply Nat.ltb_ge. rewrite <- len_data, Hd, length_app, write_arp_length by done. lia. }
  rewrite Hl, Hd, read_write_arp by done. unfold arp_packet;
    cbn [arp_op sender_address target_address sender_hw]. rewrite !swap_swap.
  by rewrite !wrap_small by done.
Qed.

(** What [arp_add_entry] leaves behind. *)
Lemma arp_add_entry_spec ip mac dev (s : Net X) :
  pending_ok (pending_packets s) ->
  exists x fs, arp_add_entry ip mac dev s =
      set_ext x (set_pending_packets (List.filter (fun p => negb (waits_for ip p)) (pending_packets s))
        (set_arp_cache (<[ip := mkArpEntry mac dev]> (arp_cache s)) s)) /\
    on_wire x = on_wire (ext s) ++ fs.
Proof.
  intros Hp. unfold arp_add_entry.
  destruct (flush_spec ip mac (set_arp_cache (<[ip := mkArpEntry mac dev]> (arp_cache s)) s) Hp)
    as (x & fs & E & Ew & _). by exists x, fs.
Qed.

Lemma arp_lookup_flush ip ip' mac (s : Net X) :
  pending_ok (pending_packets s) ->
  arp_cache (flush_pending_for ip mac s) = arp_cache s /\
  arp_lookup (flush_pending_for ip mac s) ip' = arp_lookup s ip'.
Proof.
  intros Hp. destruct (flush_spec ip mac s Hp) as (x & fs & -> & _). by split.
Qed.

Lemma poll_loop_idle n ip dev (s : Net X) :
  (forall s : Net X, poll_rx dev s = s) -> arp_lookup s ip = None -> poll_loop n ip dev s = s.
Proof. intros Hidle Hn. induction n as [|n IH]; simpl; [done|]. by rewrite Hidle, Hn. Qed.

(** The resolved branch: the packet goes straight to the wire. *)
Lemma neighbour_output_resolved skb ip dev mac (s : Net X) :
  (forall s : Net X, poll_rx dev s = s) -> dev_name dev <> "loopback"%string -> wf_skb skb ->
  arp_lookup s ip = Some mac -> length mac = 6%nat ->
  exists x, fst (neighbour_output skb ip dev s) = set_ext x s /\
    on_wire x = on_wire (ext s) ++
      (if is_ok (snd (neighbour_output skb ip dev s)) then [(dev, ip_frame_bytes mac dev (data skb))] else []) /\
    (takes dev (14 + len skb) s -> is_ok (snd (neighbour_output skb ip dev s)) = true).
Proof.
  intros Hidle Hd Hw Hm Hl. unfold neighbour_output. rewrite bool_decide_false, Hidle, Hm by done.
  pose proof (ip_frame_length mac dev (data skb) Hl) as Hfl. rewrite (len_data skb) in Hfl by done.
  destruct (xmit_frame_spec skb mac dev s Hw) as (skb' & -> & _ & Ed). rewrite <- Ed in *.
  destruct (xmit_wire dev skb' s Hd) as (x & E & Ew). exists x. split; [done|]. split; [done|].
  intros Ha. apply Ha; [done|]. by rewrite Hfl.
Qed.

(** The unresolved branch of [neighbour_output] when nothing arrives. *)
Lemma neighbour_output_unresolved skb ip dev (s : Net X) :
  takes dev 42 s -> (forall s : Net X, poll_rx dev s = s) -> dev_name dev <> "loopback"%string ->
  arp_lookup s ip = None ->
  exists x, neighbour_output skb ip dev s = (set_ext x (queue_pending_packet ip dev skb s), Ok rx_none) /\
    on_wire x = on_wire (ext s) ++
      [(dev, arp_frame_bytes (replicate 6 255) dev ARP_REQUEST (replicate 6 0) ip)].
Proof.
  intros Ha Hidle Hd Hn. unfold neighbour_output. rewrite bool_decide_false, Hidle, Hn by done.
  destruct (arp_request_spec ip dev (queue_pending_packet ip dev skb s) Hd) as (x & E & Ew & Hok).
  specialize (Hok Ha). destruct (arp_request _ _ _) as [s' r].
  cbn [fst snd] in *. subst. cbn [is_ok] in Ew.
  exists x. rewrite poll_loop_idle by done. done.
Qed.

End Wire.

(** ** Main properties *)

(** the queue of packets waiting for ARP stays bounded (at most 32 in all
    and 8 per next hop, expired ones gone), a new packet is always accepted as
    the youngest, the others keep their order, and nothing that has not expired
    is dropped while there is room for it. *)
Theorem pending_queue_bounded {X} ip dev skb (s : Net X) :
  pending_wf (pending_packets s) ->
  let fresh := List.filter (fresh_at (time_us s)) (pending_packets s) in
  exists rest,
    pending_packets (queue_pending_packet ip dev skb s) = rest ++ [mkPending ip dev skb (time_us s)] /\
    pending_wf (rest ++ [mkPending ip dev skb (time_us s)]) /\ rest `sublist_of` fresh /\
    ((per_ip_count ip fresh < ARP_PENDING_MAX_PER_IP)%nat ->
     (length fresh < ARP_PENDING_MAX_TOTAL)%nat -> rest = fresh).
Proof.
  intros Hwf fresh. destruct (queue_pending_spec ip dev skb s) as (rest & E & Hs & Hl & Hc & Hid).
  exists rest. do 2 (split; [try done|]); [|by split]. clear Hid. fold fresh in Hs.
  assert (Hs' : rest `sublist_of` pending_packets s) by (etrans; [exact Hs|apply filter_sublist_b]).
  destruct (pending_wf_sublist _ _ Hs' Hwf) as [_ Hc']. split; [rewrite length_app; simpl; lia|].
  intros ip'. specialize (Hc' ip'). unfold per_ip_count in *. rewrite List.filter_app, length_app. simpl.
  unfold waits_for at 2; simpl. destruct (Z.eqb_spec ip ip') as [->|]; simpl; lia.
Qed.

(** a packet whose next hop is not resolved yet is neither lost nor
    reordered.  While nothing arrives, [neighbour_output] queues it behind the
    packets already waiting and broadcasts one ARP request for the next hop; when
    the reply arrives, [arp_rcv] records the address and transmits everything
    that was waiting for it, oldest first and this packet last, each behind an
    Ethernet header for that address, and leaves the other packets queued.  The
    drivers take frames of up to 1514 bytes, and the packets are within that. *)
Theorem unresolved_packet_delivered {X} `{WireLaws X} `{!NetDeviceTypes X} skb ip dev mac pad rep (s : Net X) :
  (forall d n (s : Net X), (n <= 1514)%nat -> takes d n s) ->
  Forall (fun p => (len (pk_skb p) <= 1500)%nat) (pending_packets s) -> (len skb <= 1500)%nat ->
  (forall s : Net X, poll_rx dev s = s) -> dev_name dev <> "loopback"%string ->
  wf_skb skb -> pending_ok (pending_packets s) -> arp_lookup s ip = None ->
  wf_skb rep -> in_u 32 ip -> length mac = 6%nat ->
  data rep = write_arp (arp_packet ARP_REPLY mac ip (dev_mac dev) (dev_ip dev)) ++ pad ->
  let s1 := fst (neighbour_output skb ip dev s) in
  let s2 := arp_rcv rep dev s1 in
  snd (neighbour_output skb ip dev s) = Ok rx_none /\
  on_wire (ext s1) = on_wire (ext s) ++
    [(dev, arp_frame_bytes (replicate 6 255) dev ARP_REQUEST (replicate 6 0) ip)] /\
  (exists older, pending_packets s1 = older ++ [mkPending ip dev skb (time_us s)] /\
     on_wire (ext s2) = on_wire (ext s1) ++ (frame_of mac <$> List.filter (waits_for ip) older) ++
       [(dev, ip_frame_bytes mac dev (data skb))] /\
     pending_packets s2 = List.filter (fun p => negb (waits_for ip p)) older) /\
  arp_lookup s2 ip = Some mac.
Proof.
  intros Ha Hsz Hsk Hidle Hd Hw Hp Hn Hwr Hip Hm Hrep s1 s2.
  destruct (neighbour_output_unresolved skb ip dev s (Ha dev 42%nat s ltac:(lia)) Hidle Hd Hn) as (x & E & Ew).
  subst s2. pose proof (pending_ok_queue ip dev skb s Hw Hd Hp) as Hp1.
  unfold s1. rewrite E. simpl. do 2 (split; [done|]).
  rewrite (arp_rcv_spec _ _ _ _ _ _ _ _ _ Hwr Hrep) by (done || apply dev_mac_length || apply dev_ip_u32).
  simpl. unfold arp_add_entry.
  destruct (queue_pending_spec ip dev skb s) as (older & Eq & Hsub & _). rewrite Eq in Hp1.
  set (s3 := set_arp_cache _ _).
  assert (Hp3 : pending_packets s3 = older ++ [mkPending ip dev skb (time_us s)]) by exact Eq.
  destruct (flush_spec ip mac s3) as (x' & fs & Ef & Ew' & _ & Hfs); [by rewrite Hp3|].
  rewrite Ef, Hp3 in *. specialize (Hfs Hm). assert (Hlens : Forall (fun p => (len (pk_skb p) <= 1500)%nat) (older ++ [mkPending ip dev skb (time_us s)])).
  { apply Forall_app. split; [|by apply Forall_singleton]. eapply Forall_sublist_b; [exact Hsub|]. by apply Forall_filter_b. }
  specialize (Hfs ltac:(apply Forall_filter_b; eapply Forall_impl; [exact Hlens|]; intros p Hlp s4; simpl in Hlp; apply Ha; lia)). split; [exists older|].
  - split; [exact Eq|]. split.
    + simpl. rewrite Ew', Hfs. simpl. rewrite List.filter_app, fmap_app. simpl.
      unfold waits_for at 2; simpl. by rewrite Z.eqb_refl.
    + simpl. rewrite List.filter_app. simpl. unfold waits_for at 2; simpl.
      rewrite Z.eqb_refl. apply app_nil_r.
  - unfold arp_lookup, s3; simpl. by rewrite lookup_insert_eq.
Qed.

(** ** Witnesses *)

Import TestWire.

Lemma pending_queue_bounded_witness :
  pending_wf (pending_packets TestWire.host) /\
  exists rest, pending_packets (queue_pending_packet 1 15 (skb_new 4) TestWire.host) =
    rest ++ [mkPending 1 15 (skb_new 4) 1000000] /\ pending_wf (rest ++ [mkPending 1 15 (skb_new 4) 1000000]).
Proof.
  assert (Hw : pending_wf (pending_packets TestWire.host)) by (split; [|intros]; apply Nat.leb_le; reflexivity).
  split; [exact Hw|].
  destruct (pending_queue_bounded 1 15 (skb_new 4) TestWire.host Hw) as (rest & E & Hwf & _).
  exists rest. split; [exact E|exact Hwf].
Defined.

Definition demo_reply : Skb :=
  default (skb_new 0) (put_bytes (skb_new 64)
    (write_arp (arp_packet ARP_REPLY [2; 0; 0; 0; 0; 2] 167772674 [2; 0; 0; 0; 0; 15] 167772687) ++ [0; 0])).

Lemma unresolved_packet_delivered_witness :
  arp_lookup (arp_rcv demo_reply 15
    (fst (neighbour_output (with_headroom 14 4) 167772674 15 TestWire.host))) 167772674
  = Some [2; 0; 0; 0; 0; 2].
Proof.
  assert (Ha : forall d n (s : Net TestWire.WireLog), (n <= 1514)%nat -> takes d n s) by (intros d n s Hn skb s' _ Hl; cbn [hard_start_xmit TestWire.devices]; by rewrite (proj2 (Nat.ltb_ge _ _)) by lia).
  assert (Hp : @pending_ok TestWire.WireLog TestWire.devices (pending_packets TestWire.host)) by constructor.
  assert (Hw : wf_skb demo_reply) by (split; apply Nat.leb_le; vm_compute; reflexivity).
  refine (proj2 (proj2 (proj2 (unresolved_packet_delivered (with_headroom 14 4) 167772674 15
    [2; 0; 0; 0; 0; 2] [0; 0] demo_reply TestWire.host Ha (Forall_nil_2 _) _ (fun s => eq_refl) _
    (wf_with_headroom 14 4) Hp eq_refl Hw _ eq_refl _)))).
  - vm_compute. lia.
  - discriminate.
  - unfold in_u; lia.
  - vm_compute. reflexivity.
Defined.
