(* ===== verification/IpOut.v ===== *)
(** * IPv4 transmission (os/src/net/ip.rs, [ip_queue_xmit])

    The IPv4 header that the stack writes, its checksum and self-check, and
    the hand-over to routing and the neighbour layer. *)

From S2P Require Import Prelude Skb Wire Checksum NetState Neighbor.

(** ** Operations *)

(** [fast_random]: the generator of IPv4 identifications. *)
Definition fast_random {X} (s : Net X) : Net X * Z :=
  let st := u32 (u32 (rng_state s * 1103515245) + 12345) in
  (set_rng_state st s, st).

(** The header fields before the checksum is filled in. *)
Definition ip_tx_header (total id src dst proto : Z) : Ipv4Header :=
  mkIp VERSION_IHL 0 (to_be16 (u16 total)) (to_be16 (u16 (Z.land id 65535)))
    (if proto =? 6 then to_be16 16384 else 0) 64 proto 0 (to_be32 src) (to_be32 dst).

Definition ip_queue_xmit {X} `{NetDevices X} (skb : Skb) (src dst proto : Z) (s : Net X) : Net X * Rx :=
  let skb := reserve_head skb ip_size in
  match push skb ip_size with
  | None => (s, Err "Failed to push IP header"%string)
  | Some skb =>
      let '(s, id) := fast_random s in
      let skb := write_at skb 0 (write_ip (ip_tx_header (Z.of_nat (len skb)) id src dst proto)) in
      let checksum := ip_checksum (take ip_size (data skb)) in
      let skb := write_at skb 10 (be_store 2 checksum) in
      let verify := ip_checksum (take ip_size (data skb)) in
      if negb (verify =? 0) then (s, Err "IP checksum self-check failed"%string)
      else
        match route_lookup s dst with
        | Err e => (s, Err e)
        | Ok (dev, nexthop) => neighbour_output (set_dev skb (Some dev)) nexthop dev s
        end
  end.

(** ** The packet on the wire *)

Definition ip_hdr (total id src dst proto : Z) : bytes :=
  let h := write_ip (ip_tx_header total id src dst proto) in
  splice 10 (be_store 2 (ip_checksum h)) h.

Definition ip_packet (id src dst proto : Z) (payload : bytes) : bytes :=
  ip_hdr (Z.of_nat (length payload) + 20) id src dst proto ++ payload.

Lemma ip_hdr_length total id src dst proto : length (ip_hdr total id src dst proto) = ip_size.
Proof. reflexivity. Qed.

Lemma ip_hdr_bytes total id src dst proto : is_bytes (ip_hdr total id src dst proto).
Proof. apply splice_bytes; auto with kairix. Qed.

Lemma ip_hdr_sum_pos total id src dst proto :
  0 < word_sum (write_ip (ip_tx_header total id src dst proto)).
Proof.
  set (h := ip_tx_header total id src dst proto).
  assert (E : exists rest, write_ip h = 69 :: 0 :: rest) by (eexists; reflexivity).
  destruct E as [rest E]. pose proof (write_ip_bytes h) as Hb. rewrite E in *.
  apply Forall_cons in Hb as [_ Hb]. apply Forall_cons in Hb as [_ Hb].
  apply word_sum_nonneg in Hb. cbn [word_sum]. lia.
Qed.

(** The self-check cannot fail: the filled-in header verifies. *)
Lemma ip_hdr_valid total id src dst proto : ip_checksum (ip_hdr total id src dst proto) = 0.
Proof.
  unfold ip_hdr. apply ip_checksum_store; auto with kairix.
  - by rewrite write_ip_length; apply Nat.leb_le.
  - apply ip_hdr_sum_pos.
Qed.

Lemma read_ip_hdr total id src dst proto rest :
  in_u 8 proto ->
  exists c, read_ip (ip_hdr total id src dst proto ++ rest) =
    mkIp 69 0 (to_be16 (u16 total)) (to_be16 (u16 (Z.land id 65535)))
      (if proto =? 6 then to_be16 16384 else 0) 64 proto c (to_be32 src) (to_be32 dst).
Proof.
  intros Hp. unfold ip_hdr. set (c := ip_checksum _). clearbody c. eexists.
  unfold read_ip, ip_tx_header, write_ip.
  cbn -[le_load swap_bytes Z.modulo Z.div wrap Z.land].
  f_equal.
  - exact (le_load_swap 2 (u16 total)).
  - exact (le_load_swap 2 (u16 (Z.land id 65535))).
  - destruct (proto =? 6); [exact (le_load_swap 2 16384)|reflexivity].
  - apply Z.mod_small. exact Hp.
  - exact (le_load_swap 4 src).
  - exact (le_load_swap 4 dst).
Qed.

Lemma splice_app_l {A} off (src l k : list A) :
  (off + length src <= length l)%nat -> splice off src (l ++ k) = splice off src l ++ k.
Proof.
  intros Hl. unfold splice. rewrite take_app_le by lia. rewrite drop_app_le by lia.
  by rewrite <- !app_assoc.
Qed.

(** What [ip_queue_xmit] does: a well-formed packet to the routed device. *)
Lemma ip_queue_xmit_spec {X} `{NetDevices X} skb src dst proto (s : Net X) :
  wf_skb skb ->
  exists skb', wf_skb skb' /\
    data skb' = ip_packet (snd (fast_random s)) src dst proto (data skb) /\
    ip_queue_xmit skb src dst proto s =
      match route_lookup s dst with
      | Err e => (fst (fast_random s), Err e)
      | Ok (dev, nexthop) => neighbour_output (set_dev skb' (Some dev)) nexthop dev (fst (fast_random s))
      end.
Proof.
  intros Hw. unfold ip_queue_xmit.
  destruct (push_spec (reserve_head skb ip_size) ip_size) as (s1 & E1 & W1 & L1 & _ & D1);
    [by apply wf_reserve_head|]. rewrite E1, data_reserve_head in *; [|done..].
  destruct (fast_random s) as [s' id] eqn:Er. cbn [fst snd]. cbv zeta.
  assert (Hl : len s1 = (length (data skb) + 20)%nat).
  { rewrite <- (len_data s1), <- (take_drop ip_size (data s1)), D1, length_app, length_take, len_data by done.
    unfold ip_size in *. lia. }
  set (h := write_ip _). assert (Hh : length h = ip_size) by apply write_ip_length.
  assert (D2 : data (write_at s1 0 h) = h ++ data skb).
  { rewrite data_write_at by (rewrite ?Hh; unfold ip_size; (done || lia)).
    rewrite splice_head, Hh, D1 by (rewrite Hh, len_data by done; unfold ip_size; lia). done. }
  rewrite D2, take_app_length' by done.
  set (s2 := write_at (write_at s1 0 h) 10 _).
  assert (W2 : wf_skb (write_at s1 0 h)) by (apply wf_write_at; rewrite ?Hh; unfold ip_size; (done || lia)).
  assert (L2 : len (write_at s1 0 h) = len s1) by done.
  assert (D3 : data s2 = ip_packet id src dst proto (data skb)).
  { unfold s2. rewrite data_write_at by (rewrite ?be_store_length, ?L2; (done || lia)).
    rewrite D2, splice_app_l by (rewrite be_store_length, Hh; unfold ip_size; lia).
    unfold ip_packet, ip_hdr, h. by rewrite Hl, Nat2Z.inj_add. }
  assert (W3 : wf_skb s2) by (apply wf_write_at; rewrite ?be_store_length, ?L2; (done || lia)).
  exists s2. split; [done|]. split; [done|]. rewrite D3. unfold ip_packet at 1.
  rewrite take_app_length' by done. rewrite ip_hdr_valid. cbn [Z.eqb negb].
  unfold fast_random in Er. by injection Er as <- <-.
Qed.

(** ** Transmission over a resolved path *)

(** The route to [dst] leads over the link [dev], on which nothing arrives
    meanwhile, to a next hop whose address [mac] is known. *)
Record resolved {X} `{NetDevices X} (s : Net X) (dst : Z) (dev : DevId) (mac : bytes) : Prop := {
  res_route : exists nexthop, route_lookup s dst = Ok (dev, nexthop) /\ arp_lookup s nexthop = Some mac;
  res_link : dev_name dev <> "loopback"%string;
  res_idle : forall s : Net X, poll_rx dev s = s }.

(** [s'] differs from [s] at most in the driver, the identification
    generator and the path MTU cache. *)
Definition tx_like {X} (s s' : Net X) : Prop :=
  exists x r c, s' = set_ext x (set_rng_state r (set_path_mtu_cache c s)).

Lemma tx_like_refl {X} (s : Net X) : tx_like s s.
Proof. exists (ext s), (rng_state s), (path_mtu_cache s). by destruct s. Qed.

Lemma tx_like_trans {X} (s1 s2 s3 : Net X) : tx_like s1 s2 -> tx_like s2 s3 -> tx_like s1 s3.
Proof. intros (x & r & c & ->) (x' & r' & c' & ->). by exists x', r', c'. Qed.

Lemma tx_like_resolved {X} `{NetDevices X} (s s' : Net X) dst dev mac :
  tx_like s s' -> resolved s dst dev mac -> resolved s' dst dev mac.
Proof. intros (x & r & c & ->) [Hr Hl Hi]. by split. Qed.

Lemma ip_queue_xmit_resolved {X} `{WireLaws X} `{!NetDeviceTypes X} skb src dst proto dev mac (s : Net X) :
  resolved s dst dev mac -> wf_skb skb -> length mac = 6%nat ->
  exists id, let r := ip_queue_xmit skb src dst proto s in
    tx_like s (fst r) /\ path_mtu_cache (fst r) = path_mtu_cache s /\
    on_wire (ext (fst r)) = on_wire (ext s) ++
      (if is_ok (snd r) then [(dev, ip_frame_bytes mac dev (ip_packet id src dst proto (data skb)))] else []) /\
    (takes dev (34 + len skb) s -> is_ok (snd r) = true).
Proof.
  intros [(nh & Hr & Ha) Hl Hi] Hw Hm.
  destruct (ip_queue_xmit_spec skb src dst proto s Hw) as (skb' & W' & D' & E). rewrite E, Hr.
  exists (snd (fast_random s)).
  destruct (neighbour_output_resolved (set_dev skb' (Some dev)) nh dev mac (fst (fast_random s)) Hi Hl W' Ha Hm)
    as (x & Ex & Ew & Hok).
  assert (Hlen : len (set_dev skb' (Some dev)) = (20 + len skb)%nat).
  { change (len (set_dev skb' (Some dev))) with (len skb'). rewrite <- len_data, D' by done. unfold ip_packet. rewrite length_app, ip_hdr_length, len_data by done. done. }
  rewrite Hlen in Hok. split; [|split; [|split; [|exact Hok]]].
  - rewrite Ex. exists x, (snd (fast_random s)), (path_mtu_cache s). by destruct s.
  - by rewrite Ex.
  - rewrite Ex. unfold data at 1 in D'. cbn [ext set_ext]. rewrite Ew. do 2 f_equal.
    by rewrite <- D'.
Qed.
