(* ===== verification/Udp.v ===== *)
(** * UDP and raw sockets (os/src/socket/udp.rs, raw.rs, os/src/net/udp.rs)

    Sockets live in a store ([udp_store], [raw_store]) and the socket tables
    hold their identities, as the [Arc<Mutex<_>>] of the source do.  A
    [UserBuffer] is the list of its slices. *)

From S2P Require Import Prelude SysErr Skb Wire Checksum NetState Neighbor IpOut.

(** ** Sockets *)

Definition DEFAULT_UDP_RCVBUF_LIMIT : Z := 4 * 1024 * 1024.

Definition udp_socket_new : UdpSocket := mkUdpSocket None None [] 0 DEFAULT_UDP_RCVBUF_LIMIT None.

Definition alloc_ephemeral_port {X} (s : Net X) : Net X * Z :=
  (set_next_ephemeral_port (u16 (next_ephemeral_port s + 1)) s, next_ephemeral_port s).

Definition clear_queue (so : UdpSocket) : UdpSocket :=
  mkUdpSocket (local_addr so) (remote_addr so) [] (rcvbuf_used so) (rcvbuf_limit so) (waker so).

Definition set_local (a : Z * Z) (so : UdpSocket) : UdpSocket :=
  mkUdpSocket (Some a) (remote_addr so) (receive_queue so) (rcvbuf_used so) (rcvbuf_limit so) (waker so).

Definition set_remote (a : Z * Z) (so : UdpSocket) : UdpSocket :=
  mkUdpSocket (local_addr so) (Some a) (receive_queue so) (rcvbuf_used so) (rcvbuf_limit so) (waker so).

Definition udp_socket_clone (so : UdpSocket) : UdpSocket :=
  mkUdpSocket (local_addr so) (remote_addr so) [] 0 (rcvbuf_limit so) None.

Definition bind (so : UdpSocket) (addr port : Z) {X} (s : Net X) :
    Net X * result UdpSocket SysError :=
  match local_addr so with
  | Some _ => (s, Err EADDRINUSE)
  | None =>
      let '(s, chosen_port) := if port =? 0 then alloc_ephemeral_port s else (s, port) in
      (s, Ok (set_local (addr, chosen_port) so))
  end.

(** The source address for a destination: the loopback address, or the
    address of the device that the route selects. *)
Definition source_ip_for {X} `{NetDevices X} (s : Net X) (dst_addr : Z) : result Z string :=
  if is_loopback_addr dst_addr then Ok 2130706433
  else
    let? (dev, _) := route_lookup s dst_addr in
    if dev_ip dev =? 0 then Err "Source IP not configured"%string else Ok (dev_ip dev).

(** The common part of [connect] and [ensure_local_for_dst]. *)
Definition choose_local {X} `{NetDevices X} (so : UdpSocket) (dst_addr : Z) (s : Net X) :
    Net X * result UdpSocket string :=
  let '(need_ip, need_port) :=
    match local_addr so with
    | None => (true, true)
    | Some (ip, port) => (ip =? 0, port =? 0)
    end in
  if need_ip || need_port then
    match source_ip_for s dst_addr with
    | Err e => (s, Err e)
    | Ok local_ip =>
        let '(old_ip, old_port) := default (0, 0) (local_addr so) in
        let chosen_ip := if need_ip then local_ip else old_ip in
        let '(s, chosen_port) := if need_port then alloc_ephemeral_port s else (s, old_port) in
        (s, Ok (set_local (chosen_ip, chosen_port) so))
    end
  else (s, Ok so).

Definition connect {X} `{NetDevices X} (so : UdpSocket) (dst_addr dst_port : Z) (s : Net X) :
    Net X * result UdpSocket string :=
  match choose_local so dst_addr s with
  | (s, Err e) => (s, Err e)
  | (s, Ok so) => (s, Ok (set_remote (dst_addr, dst_port) so))
  end.

Definition ensure_local_for_dst {X} `{NetDevices X} (so : UdpSocket) (dst_addr : Z) (s : Net X) :
    Net X * result (UdpSocket * (Z * Z)) string :=
  match choose_local so dst_addr s with
  | (s, Err e) => (s, Err e)
  | (s, Ok so) =>
      match local_addr so with
      | Some a => (s, Ok (so, a))
      | None => (s, Err "Socket not bound"%string)
      end
  end.

(** ** Receive queue *)

Definition can_receive (so : UdpSocket) (n : nat) : bool :=
  usize (rcvbuf_used so + Z.of_nat n) <=? rcvbuf_limit so.

Definition enqueue (so : UdpSocket) (skb : Skb) (src_ip src_port : Z) : UdpSocket :=
  mkUdpSocket (local_addr so) (remote_addr so) (receive_queue so ++ [(skb, src_ip, src_port)])
    (usize (rcvbuf_used so + Z.of_nat (len skb))) (rcvbuf_limit so) (waker so).

Definition set_waker (so : UdpSocket) (w : option Waker) : UdpSocket :=
  mkUdpSocket (local_addr so) (remote_addr so) (receive_queue so) (rcvbuf_used so) (rcvbuf_limit so) w.

(** Popping the head of the queue; [w] is the waker that remains. *)
Definition pop_front (so : UdpSocket) (skb : Skb) (rest : list (Skb * Z * Z)) (w : option Waker) :=
  mkUdpSocket (local_addr so) (remote_addr so) rest
    (usize (rcvbuf_used so - Z.of_nat (len skb))) (rcvbuf_limit so) w.

(** The new socket, the new contents of [buf] and the result. *)
Definition recv_from (so : UdpSocket) (buf : bytes) :
    UdpSocket * bytes * result (nat * Z * Z) SysError :=
  match receive_queue so with
  | (skb, src_ip, src_port) :: rest =>
      let copy_len := Nat.min (length buf) (len skb) in
      (pop_front so skb rest None, splice 0 (take copy_len (data skb)) buf,
       Ok (copy_len, src_ip, src_port))
  | [] => (so, buf, Err EAGAIN)
  end.

Definition try_recv_from (so : UdpSocket) (buf : bytes) :
    UdpSocket * bytes * result (nat * Z * Z) SysError :=
  match receive_queue so with
  | (skb, src_ip, src_port) :: rest =>
      let copy_len := Nat.min (length buf) (len skb) in
      (pop_front so skb rest (waker so), splice 0 (take copy_len (data skb)) buf,
       Ok (copy_len, src_ip, src_port))
  | [] => (so, buf, Err EAGAIN)
  end.

(** The scatter loop over the slices of a user buffer. *)
Fixpoint scatter (bufs : list bytes) (src : bytes) (copied copy_len : nat) : list bytes :=
  match bufs with
  | [] => []
  | b :: rest =>
      if (copy_len <=? copied)%nat then b :: rest
      else
        let take_ := Nat.min (length b) (copy_len - copied) in
        splice 0 (slice copied (copied + take_) src) b :: scatter rest src (copied + take_) copy_len
  end.

Definition user_len (bufs : list bytes) : nat := length (concat bufs).

Definition recv_user_buffer (so : UdpSocket) (bufs : list bytes) :
    UdpSocket * list bytes * result (nat * Z * Z) SysError :=
  match receive_queue so with
  | (skb, src_ip, src_port) :: rest =>
      let copy_len := Nat.min (user_len bufs) (len skb) in
      (pop_front so skb rest None, scatter bufs (data skb) 0 copy_len, Ok (copy_len, src_ip, src_port))
  | [] => (so, bufs, Err EAGAIN)
  end.

(** ** The socket table *)

Definition same_entry (port : Z) (id : SockId) (e : Z * SockId) : bool :=
  (fst e =? port) && (snd e =? id)%nat.

Definition register_udp_socket {X} (port : Z) (id : SockId) (s : Net X) : Net X :=
  if existsb (same_entry port id) (udp_sockets s) then s
  else set_udp_sockets (udp_sockets s ++ [(port, id)]) s.

Definition unregister_udp_socket {X} (port : Z) (id : SockId) (s : Net X) : Net X :=
  set_udp_sockets (List.filter (fun e => negb (same_entry port id e)) (udp_sockets s)) s.

(** Whether the socket [id] is connected to [peer] ([None]: not connected). *)
Definition has_remote {X} (s : Net X) (id : SockId) (peer : option (Z * Z)) : bool :=
  match udp_store s !! id with
  | Some so => bool_decide (remote_addr so = peer)
  | None => false
  end.

Definition lookup_udp_socket {X} (s : Net X) (dst_port src_ip src_port : Z) : option SockId :=
  let pick peer := List.find (fun e => (fst e =? dst_port) && has_remote s (snd e) peer)
                             (rev (udp_sockets s)) in
  match pick (Some (src_ip, src_port)) with
  | Some (_, id) => Some id
  | None => match pick None with Some (_, id) => Some id | None => None end
  end.

(** [sock.can_receive(len)], [sock.enqueue(...)], [sock.wake()] on a locked socket. *)
Definition deliver_udp {X} (id : SockId) (skb : Skb) (src_ip src_port : Z) (s : Net X) : Net X :=
  match udp_store s !! id with
  | None => s
  | Some so =>
      if can_receive so (len skb) then
        let so := enqueue so skb src_ip src_port in
        let s := set_woken (woken s ++ option_list (waker so)) s in
        set_udp_store (<[id := set_waker so None]> (udp_store s)) s
      else s
  end.

(** ** Receive path (net/udp.rs) *)

Definition udp_rcv {X} (skb : Skb) (src_ip dst_ip : Z) (s : Net X) : Net X * Rx :=
  if (len skb <? udp_size)%nat then (s, Err "UDP packet too short"%string)
  else
    let h := read_udp (data skb) in
    let dst_port := dest_port h in
    let src_port := source_port h in
    let udp_len := Z.to_nat (udp_length h) in
    let checksum := from_be16 (udp_checksum_raw h) in
    if (udp_len <? udp_size)%nat || (len skb <? udp_len)%nat then (s, Err "UDP length invalid"%string)
    else if negb (checksum =? 0) && negb (udp_checksum src_ip dst_ip (take udp_len (data skb)) =? 65535)
    then (s, Err "UDP checksum invalid"%string)
    else
      let skb := if (udp_len <? len skb)%nat then trim_ skb (len skb - udp_len) else skb in
      match lookup_udp_socket s dst_port src_ip src_port with
      | Some id =>
          let skb := pull_ skb udp_size in
          (deliver_udp id skb src_ip src_port s, Ok (skb_new 0, src_ip, src_port))
      | None => (s, Err "No socket"%string)
      end.

(** ** Send path (socket/udp.rs) *)

Definition put_or_enomem (skb : Skb) (bs : bytes) : result Skb SysError :=
  ok_or (put_bytes skb bs) ENOMEM.

(** [for part in buf.buffers.iter() { skb.put(part.len())... }]. *)
Fixpoint put_parts (skb : Skb) (parts : list bytes) : result Skb SysError :=
  match parts with
  | [] => Ok skb
  | part :: parts => let? skb := put_or_enomem skb part in put_parts skb parts
  end.

Definition deliver_udp_loopback_payload {X} (src : Z * Z) (dst_port : Z) (skb : Skb) (s : Net X) :
    Net X * result (Skb * Z * Z) SysError :=
  match lookup_udp_socket s dst_port (fst src) (snd src) with
  | Some id => (deliver_udp id skb (fst src) (snd src) s, Ok (skb_new 0, fst src, snd src))
  | None => (s, Ok (skb_new 0, fst src, snd src))
  end.

Definition send_udp_loopback_slice {X} (src : Z * Z) (payload : bytes) (dst_port : Z) (s : Net X) :
    Net X * result (Skb * Z * Z) SysError :=
  match put_or_enomem (skb_new (length payload)) payload with
  | Err e => (s, Err e)
  | Ok skb => deliver_udp_loopback_payload src dst_port skb s
  end.

Definition send_udp_loopback_user_buffer {X} (src : Z * Z) (parts : list bytes) (dst_port : Z) (s : Net X) :
    Net X * result (Skb * Z * Z) SysError :=
  match put_parts (skb_new (user_len parts)) parts with
  | Err e => (s, Err e)
  | Ok skb => deliver_udp_loopback_payload src dst_port skb s
  end.

(** The UDP header with a zero checksum. *)
Definition udp_tx_header (sport dport total : Z) : UdpHeader :=
  mkUdp (to_be16 sport) (to_be16 dport) (to_be16 (u16 total)) 0.

(** Filling in the checksum and handing the datagram to IP. *)
Definition udp_finish {X} `{NetDevices X} (src : Z * Z) (dst_addr : Z) (skb : Skb) (s : Net X) :
    Net X * result (Skb * Z * Z) SysError :=
  let checksum := udp_checksum (fst src) dst_addr (data skb) in
  let skb := write_at skb 6 (le_store 2 (to_be16 checksum)) in
  match ip_queue_xmit skb (fst src) dst_addr 17 s with
  | (s, Ok r) => (s, Ok r)
  | (s, Err _) => (s, Err ENETUNREACH)
  end.

Definition send_udp_packet {X} `{NetDevices X} (src : Z * Z) (payload : bytes) (dst_addr dst_port : Z)
    (s : Net X) : Net X * result (Skb * Z * Z) SysError :=
  if is_loopback_addr dst_addr then send_udp_loopback_slice src payload dst_port s
  else
    let total_len := (length payload + udp_size)%nat in
    let skb := with_headroom (eth_size + ip_size) total_len in
    match
      let? skb := put_or_enomem skb (write_udp (udp_tx_header (snd src) dst_port (Z.of_nat total_len))) in
      put_or_enomem skb payload
    with
    | Err e => (s, Err e)
    | Ok skb => udp_finish src dst_addr skb s
    end.

Definition send_udp_user_buffer {X} `{NetDevices X} (src : Z * Z) (parts : list bytes)
    (dst_addr dst_port : Z) (s : Net X) : Net X * result (Skb * Z * Z) SysError :=
  if is_loopback_addr dst_addr then send_udp_loopback_user_buffer src parts dst_port s
  else
    let total_len := (user_len parts + udp_size)%nat in
    let skb := with_headroom (eth_size + ip_size) total_len in
    match
      let? skb := put_or_enomem skb (write_udp (udp_tx_header (snd src) dst_port (Z.of_nat total_len))) in
      put_parts skb parts
    with
    | Err e => (s, Err e)
    | Ok skb => udp_finish src dst_addr skb s
    end.

Definition send_to {X} `{NetDevices X} (so : UdpSocket) (payload : bytes) (dst_addr dst_port : Z)
    (s : Net X) : Net X * result (Skb * Z * Z) SysError :=
  match local_addr so with
  | None => (s, Err EINVAL)
  | Some src => send_udp_packet src payload dst_addr dst_port s
  end.

(** ** Raw sockets (socket/raw.rs) *)

Definition raw_socket_new (protocol : Z) : RawSocket := mkRawSocket protocol [].

Definition raw_enqueue (r : RawSocket) (skb : Skb) (src_ip : Z) : RawSocket :=
  mkRawSocket (raw_protocol r) (raw_queue r ++ [(skb, src_ip)]).

Definition raw_recv_from (r : RawSocket) (buf : bytes) : RawSocket * bytes * result (nat * Z) SysError :=
  match raw_queue r with
  | (skb, src_ip) :: rest =>
      let n := Nat.min (length buf) (len skb) in
      (mkRawSocket (raw_protocol r) rest, splice 0 (take n (data skb)) buf, Ok (n, src_ip))
  | [] => (r, buf, Err EAGAIN)
  end.

Definition raw_has_data (r : RawSocket) : bool :=
  match raw_queue r with [] => false | _ => true end.

Definition raw_clear_queue (r : RawSocket) : RawSocket := mkRawSocket (raw_protocol r) [].

Definition send_raw_packet {X} `{NetDevices X} (src_addr protocol : Z) (payload : bytes) (dst_addr : Z)
    (s : Net X) : Net X * result (Skb * Z * Z) SysError :=
  match put_or_enomem (skb_new (length payload)) payload with
  | Err e => (s, Err e)
  | Ok skb =>
      match ip_queue_xmit skb src_addr dst_addr protocol s with
      | (s, Ok r) => (s, Ok r)
      | (s, Err _) => (s, Err ENETUNREACH)
      end
  end.

Definition raw_send_to {X} `{NetDevices X} (r : RawSocket) (payload : bytes) (dst_addr : Z)
    (s : Net X) : Net X * result (Skb * Z * Z) SysError :=
  match
    (if is_loopback_addr dst_addr then Ok 2130706433
     else match route_lookup s dst_addr with
          | Err _ => Err ENETUNREACH
          | Ok (dev, _) => if dev_ip dev =? 0 then Err EADDRNOTAVAIL else Ok (dev_ip dev)
          end)
  with
  | Err e => (s, Err e)
  | Ok src_addr => send_raw_packet src_addr (raw_protocol r) payload dst_addr s
  end.

Definition register_raw_socket {X} (protocol : Z) (id : SockId) (s : Net X) : Net X :=
  if existsb (same_entry protocol id) (raw_sockets s) then s
  else set_raw_sockets (raw_sockets s ++ [(protocol, id)]) s.

Definition unregister_raw_socket {X} (protocol : Z) (id : SockId) (s : Net X) : Net X :=
  set_raw_sockets (List.filter (fun e => negb (same_entry protocol id e)) (raw_sockets s)) s.

(** The delivery loop over the table, with the [delivered] flag. *)
Fixpoint deliver_raw_loop (protocol : Z) (skb : Skb) (src_ip : Z) (table : list (Z * SockId))
    (store : gmap SockId RawSocket) (delivered : bool) : gmap SockId RawSocket * bool :=
  match table with
  | [] => (store, delivered)
  | (p, id) :: table =>
      if p =? protocol then
        let store := match store !! id with
                     | Some r => <[id := raw_enqueue r (clone skb) src_ip]> store
                     | None => store
                     end in
        deliver_raw_loop protocol skb src_ip table store true
      else deliver_raw_loop protocol skb src_ip table store delivered
  end.

Definition deliver_raw_packet {X} (protocol : Z) (skb : Skb) (src_ip : Z) (s : Net X) : Net X * bool :=
  let '(store, delivered) :=
    deliver_raw_loop protocol skb src_ip (raw_sockets s) (raw_store s) false in
  (set_raw_store store s, delivered).

(** ** The receive queue as a queue of datagrams *)

Definition queue_bytes (q : list (Skb * Z * Z)) : Z :=
  fold_right (fun e acc => Z.of_nat (len e.1.1) + acc) 0 q.

(** Accounting is exact and within the limit, and buffers are well-formed. *)
Definition sock_wf (so : UdpSocket) : Prop :=
  rcvbuf_used so = queue_bytes (receive_queue so) /\ rcvbuf_used so <= rcvbuf_limit so /\
  rcvbuf_limit so < 2 ^ 62 /\ Forall (fun e => wf_skb e.1.1) (receive_queue so).

Definition datagrams (so : UdpSocket) : list (bytes * Z * Z) :=
  (fun e => (data e.1.1, e.1.2, e.2)) <$> receive_queue so.

Lemma queue_bytes_app q1 q2 : queue_bytes (q1 ++ q2) = queue_bytes q1 + queue_bytes q2.
Proof. induction q1 as [|e q1 IH]; simpl; lia. Qed.

Lemma queue_bytes_nonneg q : 0 <= queue_bytes q.
Proof. induction q as [|e q IH]; simpl; lia. Qed.

Lemma can_receive_iff so n :
  sock_wf so -> Z.of_nat n < 2 ^ 62 ->
  can_receive so n = true <-> queue_bytes (receive_queue so) + Z.of_nat n <= rcvbuf_limit so.
Proof.
  intros (Hu & Hl & Hlim & _) Hn. pose proof (queue_bytes_nonneg (receive_queue so)).
  unfold can_receive. rewrite wrap_small by (unfold in_u; lia). rewrite Z.leb_le. lia.
Qed.

Lemma enqueue_wf so skb ip port :
  sock_wf so -> wf_skb skb -> Z.of_nat (len skb) < 2 ^ 62 -> can_receive so (len skb) = true ->
  sock_wf (enqueue so skb ip port) /\
  datagrams (enqueue so skb ip port) = datagrams so ++ [(data skb, ip, port)].
Proof.
  intros Hwf Hs Hn Hc. apply can_receive_iff in Hc; [|done..]. destruct Hwf as (Hu & Hl & Hlim & Hf).
  pose proof (queue_bytes_nonneg (receive_queue so)). split; [|unfold datagrams; simpl; by rewrite fmap_app].
  unfold sock_wf, enqueue; simpl. rewrite wrap_small by (unfold in_u; lia).
  rewrite queue_bytes_app; simpl. split; [lia|]. split; [lia|]. split; [done|].
  apply Forall_app. split; [done|by apply Forall_singleton].
Qed.

Lemma pop_front_wf so skb ip port rest w :
  sock_wf so -> receive_queue so = (skb, ip, port) :: rest ->
  sock_wf (pop_front so skb rest w) /\ wf_skb skb /\
  datagrams so = (data skb, ip, port) :: datagrams (pop_front so skb rest w).
Proof.
  intros (Hu & Hl & Hlim & Hf) E. rewrite E in *. simpl in *. apply Forall_cons in Hf as [Hw Hf].
  pose proof (queue_bytes_nonneg rest). split; [|split; [done|unfold datagrams; by rewrite E]].
  unfold sock_wf, pop_front; simpl. rewrite wrap_small by (unfold in_u; lia). repeat split; (done || lia).
Qed.

Lemma scatter_spec src copy_len bufs copied :
  (copied <= copy_len <= length src)%nat -> (copy_len - copied <= length (concat bufs))%nat ->
  concat (scatter bufs src copied copy_len) =
    slice copied copy_len src ++ drop (copy_len - copied) (concat bufs) /\
  length <$> scatter bufs src copied copy_len = length <$> bufs.
Proof.
  revert copied. induction bufs as [|b bufs IH]; intros copied Hc Hl; simpl in *.
  - unfold slice. replace (copy_len - copied)%nat with 0%nat by lia. done.
  - rewrite length_app in Hl. case_if.
    + simpl. unfold slice. replace (copy_len - copied)%nat with 0%nat by lia. done.
    + set (t := Nat.min (length b) (copy_len - copied)). assert (Ht : (t <= length b /\ t <= copy_len - copied)%nat) by lia.
      assert (Hsl : length (slice copied (copied + t) src) = t) by (rewrite slice_length; lia).
      destruct (IH (copied + t)%nat) as [IH1 IH2]; [lia|lia|]. rewrite !fmap_cons, IH2.
      cbn [concat]. rewrite IH1. split.
      * rewrite splice_head, Hsl by (rewrite Hsl; lia).
        rewrite (slice_split copied (copied + t) copy_len src) by lia. rewrite <- !app_assoc. f_equal.
        rewrite drop_app. destruct (Nat.le_gt_cases (copy_len - copied) (length b)).
        -- replace t with (copy_len - copied)%nat by lia. unfold slice.
           replace (copy_len - (copied + (copy_len - copied)))%nat with 0%nat by lia.
           replace (copy_len - copied - length b)%nat with 0%nat by lia. done.
        -- replace t with (length b) by lia. rewrite !(drop_ge b) by lia. simpl. f_equal. f_equal. lia.
      * by rewrite splice_length by (rewrite Hsl; lia).
Qed.

(** ** The datagram on the wire *)

Definition udp_dgram (sip sport dip dport : Z) (payload : bytes) : bytes :=
  let d := write_udp (udp_tx_header sport dport (Z.of_nat (length payload) + 8)) ++ payload in
  splice 6 (be_store 2 (udp_checksum sip dip d)) d.

Lemma put_or_enomem_spec skb bs :
  wf_skb skb -> exists skb', put_or_enomem skb bs = Ok skb' /\ wf_skb skb' /\ data skb' = data skb ++ bs.
Proof.
  intros Hw. unfold put_or_enomem. destruct (put_bytes_spec skb bs Hw) as (s' & -> & W & D & _). eauto.
Qed.

Lemma put_parts_spec parts skb :
  wf_skb skb ->
  exists skb', put_parts skb parts = Ok skb' /\ wf_skb skb' /\ data skb' = data skb ++ concat parts.
Proof.
  revert skb. induction parts as [|p parts IH]; intros skb Hw; simpl.
  - exists skb. by rewrite app_nil_r.
  - destruct (put_or_enomem_spec skb p Hw) as (s1 & -> & W1 & D1). simpl.
    destruct (IH s1 W1) as (s2 & -> & W2 & D2). exists s2. by rewrite D2, D1, <- app_assoc.
Qed.

Lemma udp_finish_spec {X} `{NetDevices X} sip sport dst dport skb payload (s : Net X) :
  wf_skb skb ->
  data skb = write_udp (udp_tx_header sport dport (Z.of_nat (length payload) + 8)) ++ payload ->
  exists skb', wf_skb skb' /\ data skb' = udp_dgram sip sport dst dport payload /\
    udp_finish (sip, sport) dst skb s =
    match ip_queue_xmit skb' sip dst 17 s with
    | (s, Ok r) => (s, Ok r) | (s, Err _) => (s, Err ENETUNREACH) end.
Proof.
  intros Hw Hd. unfold udp_finish. cbn [fst]. eexists. split; [|split; [|done]].
  - apply wf_write_at; [done|]. rewrite le_store_length, <- len_data, Hd, length_app, write_udp_length by done.
    unfold udp_size. lia.
  - rewrite data_write_at; [|done|rewrite le_store_length, <- len_data, Hd, length_app, write_udp_length by done; unfold udp_size; lia].
    by rewrite to_be_store, Hd.
Qed.

Lemma send_udp_packet_spec {X} `{NetDevices X} sip sport payload dst dport (s : Net X) :
  is_loopback_addr dst = false ->
  exists skb, wf_skb skb /\ data skb = udp_dgram sip sport dst dport payload /\
    send_udp_packet (sip, sport) payload dst dport s =
    match ip_queue_xmit skb sip dst 17 s with
    | (s, Ok r) => (s, Ok r) | (s, Err _) => (s, Err ENETUNREACH) end.
Proof.
  intros Hl. unfold send_udp_packet. rewrite Hl. cbn [snd].
  set (h := write_udp _). set (sk := with_headroom _ _).
  destruct (put_or_enomem_spec sk h) as (s1 & -> & W1 & D1); [apply wf_with_headroom|]. simpl.
  destruct (put_or_enomem_spec s1 payload W1) as (s2 & -> & W2 & D2).
  apply udp_finish_spec; [done|]. rewrite D2, D1. unfold sk. rewrite with_headroom_empty. simpl.
  unfold h. by rewrite Nat2Z.inj_add.
Qed.

Lemma send_udp_user_buffer_spec {X} `{NetDevices X} sip sport parts dst dport (s : Net X) :
  is_loopback_addr dst = false ->
  exists skb, wf_skb skb /\ data skb = udp_dgram sip sport dst dport (concat parts) /\
    send_udp_user_buffer (sip, sport) parts dst dport s =
    match ip_queue_xmit skb sip dst 17 s with
    | (s, Ok r) => (s, Ok r) | (s, Err _) => (s, Err ENETUNREACH) end.
Proof.
  intros Hl. unfold send_udp_user_buffer. rewrite Hl. cbn [snd].
  set (h := write_udp _). set (sk := with_headroom _ _).
  destruct (put_or_enomem_spec sk h) as (s1 & -> & W1 & D1); [apply wf_with_headroom|]. simpl.
  destruct (put_parts_spec parts s1 W1) as (s2 & -> & W2 & D2).
  apply udp_finish_spec; [done|]. rewrite D2, D1. unfold sk. rewrite with_headroom_empty. simpl.
  unfold h, user_len. by rewrite Nat2Z.inj_add.
Qed.

(** ** Receiving what was sent *)

Section Dgram.
Context (sip sport dip dport : Z) (payload : bytes).
Context (Hsip : in_u 32 sip) (Hdip : in_u 32 dip) (Hsp : in_u 16 sport) (Hdp : in_u 16 dport).
Context (Hpl : is_bytes payload) (Hlen : Z.of_nat (length payload) + 8 <= 65535).

Let d0 := write_udp (udp_tx_header sport dport (Z.of_nat (length payload) + 8)) ++ payload.

Lemma udp_dgram_length : length (udp_dgram sip sport dip dport payload) = (8 + length payload)%nat.
Proof.
  unfold udp_dgram. cbv zeta. fold d0. rewrite splice_length; unfold d0; rewrite length_app, write_udp_length.
  - done.
  - rewrite be_store_length. unfold udp_size. lia.
Qed.

Lemma udp_dgram_bytes : is_bytes (udp_dgram sip sport dip dport payload).
Proof.
  unfold udp_dgram. apply splice_bytes; auto with kairix.
  apply is_bytes_app. auto with kairix.
Qed.

(** The checksum that the sender fills in verifies at the receiver. *)
Lemma udp_dgram_checksum : udp_checksum sip dip (udp_dgram sip sport dip dport payload) = 65535.
Proof.
  assert (Hb : is_bytes d0) by (apply is_bytes_app; auto with kairix).
  assert (Hl : length d0 = (8 + length payload)%nat) by (unfold d0; by rewrite length_app, write_udp_length).
  rewrite udp_checksum_eq by (auto using udp_dgram_bytes; rewrite udp_dgram_length; lia).
  rewrite udp_dgram_length. unfold udp_dgram. cbv zeta. fold d0.
  assert (Hc : udp_checksum sip dip d0 = _) by (apply udp_checksum_eq; (done || lia)).
  rewrite Hl in Hc. set (t := pseudo_total sip dip 17 (Z.of_nat (8 + length payload)) + word_sum d0) in *.
  pose proof (oc_checksum_range t) as Hr. cbv zeta in Hc.
  assert (Hcr : 0 <= udp_checksum sip dip d0 <= 65535) by (rewrite Hc; case_if; lia).
  rewrite word_sum_store; [|done|lia|reflexivity|done].
  assert (Htp : 0 < t).
  { pose proof (word_sum_nonneg d0 Hb). unfold t, pseudo_total. unfold in_u in *. zlia. }
  assert (Hz : oc_checksum (t + udp_checksum sip dip d0) = 0).
  { rewrite Hc. case_if; [|by apply oc_checksum_fill].
    apply oc_checksum_zero in E; [|lia]. apply oc_checksum_zero; [lia|]. split; [lia|]. zlia. }
  unfold t in Hz. rewrite <- Z.add_assoc in Hz. by rewrite Hz.
Qed.

Lemma read_udp_dgram pad :
  exists c, read_udp (udp_dgram sip sport dip dport payload ++ pad) =
    mkUdp (to_be16 sport) (to_be16 dport) (to_be16 (u16 (Z.of_nat (length payload) + 8))) c.
Proof.
  unfold udp_dgram. cbv zeta. set (c := udp_checksum _ _ _). clearbody c.
  rewrite splice_app_l by (rewrite be_store_length, write_udp_length; unfold udp_size; lia).
  eexists. unfold read_udp, write_udp, udp_tx_header.
  cbn -[le_load swap_bytes Z.modulo Z.div wrap Z.of_nat]. f_equal; apply (le_load_swap 2).
Qed.

(** [udp_rcv] on the datagram, with any link padding behind it. *)
Lemma udp_rcv_dgram {X} skb pad (s : Net X) :
  wf_skb skb -> data skb = udp_dgram sip sport dip dport payload ++ pad ->
  exists skb', wf_skb skb' /\ data skb' = payload /\
    udp_rcv skb sip dip s =
    match lookup_udp_socket s dport sip sport with
    | Some id => (deliver_udp id skb' sip sport s, Ok (skb_new 0, sip, sport))
    | None => (s, Err "No socket"%string)
    end.
Proof.
  intros Hw Hd. pose proof udp_dgram_length as Hdl.
  assert (Hl : len skb = (8 + length payload + length pad)%nat)
    by (rewrite <- len_data, Hd, length_app, Hdl by done; lia).
  unfold udp_rcv. case_if; [unfold udp_size in *; lia|].
  destruct (read_udp_dgram pad) as [c Hr]. rewrite Hd, Hr.
  unfold dest_port, source_port, udp_length; cbn [udp_src_port udp_dst_port udp_len_raw udp_checksum_raw].
  rewrite !swap_swap. change (8 * Z.of_nat 2) with 16. rewrite wrap_wrap.
  rewrite (wrap_small 16 sport), (wrap_small 16 dport), (wrap_small 16 (_ + 8)) by (done || unfold in_u; lia).
  replace (Z.to_nat (Z.of_nat (length payload) + 8)) with (8 + length payload)%nat by lia.
  rewrite <- Hdl, take_app_length, udp_dgram_checksum, Hdl. cbn [Z.eqb Pos.eqb negb]. rewrite andb_false_r.
  case_if; [unfold udp_size in *; destruct E0; to_prop; lia|].
  set (sk := if _ : bool then _ else _).
  assert (Hsk : wf_skb sk /\ data sk = udp_dgram sip sport dip dport payload).
  { unfold sk, trim_. case_if.
    - destruct (trim_spec skb (len skb - (8 + length payload)) Hw) as (s2 & E2 & W2 & D2 & _); [lia|].
      rewrite E2. split; [done|]. rewrite D2, Hd.
      replace (len skb - (len skb - (8 + length payload)))%nat with (8 + length payload)%nat by lia.
      by rewrite <- Hdl, take_app_length.
    - split; [done|]. rewrite Hd. destruct pad; [apply app_nil_r|simpl in Hl; lia]. }
  destruct Hsk as [Wk Dk]. destruct (pull_spec sk udp_size Wk) as (s3 & E3 & W3 & D3 & _).
  { rewrite <- len_data, Dk, Hdl by done. unfold udp_size. lia. }
  unfold pull_. rewrite E3. exists s3. split; [done|]. split; [|done].
  rewrite D3, Dk. unfold udp_dgram. cbv zeta. rewrite splice_app_l by (rewrite be_store_length, write_udp_length; unfold udp_size; lia).
  by apply drop_app_length'.
Qed.

End Dgram.

(** ** Gathering a user buffer *)

Lemma put_bytes_in_place s bs :
  wf_skb s -> (length bs <= tailroom s)%nat ->
  put_bytes s bs =
  Some (mkSkb (splice (data_end s) bs (buf s)) (data_start s) (data_end s + length bs) (skb_dev s)).
Proof.
  intros Hw Ht. unfold put_bytes, put. case_raw E; to_prop; [lia|]. cbn [andb].
  unfold write_at, len; cbn [data_start data_end buf skb_dev]. do 2 f_equal.
  f_equal. unfold wf_skb in Hw. lia.
Qed.

Lemma put_parts_concat parts s :
  wf_skb s -> (length (concat parts) <= tailroom s)%nat ->
  put_parts s parts = put_or_enomem s (concat parts).
Proof.
  unfold put_or_enomem. revert s. induction parts as [|p parts IH]; intros s Hw Ht; cbn [put_parts concat].
  - rewrite put_bytes_in_place by (done || simpl; lia). unfold splice; simpl.
    rewrite Nat.add_0_r, take_drop. by destruct s.
  - simpl in Ht. rewrite length_app in Ht. unfold put_or_enomem.
    rewrite put_bytes_in_place by (done || lia). simpl. unfold wf_skb, tailroom in *.
    rewrite IH.
    + rewrite !put_bytes_in_place; unfold wf_skb, tailroom; simpl;
        rewrite ?splice_length, ?length_app by lia; try lia.
      rewrite splice_adjacent by lia. do 2 f_equal. lia.
    + unfold wf_skb; simpl. rewrite splice_length by lia. lia.
    + unfold tailroom; simpl. rewrite splice_length by lia. lia.
Qed.

(** ** Demultiplexing *)

Lemma find_rev_spec {A} (f : A -> bool) l :
  match List.find f (rev l) with
  | Some x => exists l1 l2, l = l1 ++ x :: l2 /\ f x = true /\ Forall (fun y => f y = false) l2
  | None => Forall (fun y => f y = false) l
  end.
Proof.
  induction l as [|x l IH] using rev_ind; [constructor|]. rewrite rev_app_distr; simpl.
  destruct (f x) eqn:E; [by exists l, []|]. destruct (List.find f (rev l)) as [y|].
  - destruct IH as (l1 & l2 & -> & Hy & Hf). exists l1, (l2 ++ [x]). rewrite <- app_assoc.
    repeat split; [done|]. apply Forall_app. split; [done|by apply Forall_singleton].
  - apply Forall_app. split; [done|by apply Forall_singleton].
Qed.

(** ** Raw delivery *)

Definition raw_targets (protocol : Z) (table : list (Z * SockId)) : list SockId :=
  snd <$> List.filter (fun e => fst e =? protocol) table.

Lemma deliver_raw_loop_spec protocol skb ip table store d :
  NoDup (raw_targets protocol table) ->
  let r := deliver_raw_loop protocol skb ip table store d in
  r.2 = d || existsb (fun e => fst e =? protocol) table /\
  forall id, r.1 !! id =
    if bool_decide (id ∈ raw_targets protocol table)
    then (fun so => raw_enqueue so skb ip) <$> store !! id else store !! id.
Proof.
  unfold raw_targets. revert store d. induction table as [|[p i] table IH]; intros store d Hn; simpl.
  - rewrite orb_false_r. done.
  - simpl in Hn. destruct (p =? protocol) eqn:Ep; simpl in *; [|apply IH, Hn].
    apply NoDup_cons in Hn as [Hi Hn]. rewrite orb_true_r, clone_id.
    destruct (IH (match store !! i with Some r => <[i:=raw_enqueue r skb ip]> store | None => store end) true Hn)
      as [E1 E2]. split; [done|]. intros id. rewrite E2.
    destruct (decide (id = i)) as [->|Hne].
    + rewrite bool_decide_false, bool_decide_true by (done || left).
      destruct (store !! i) eqn:Es; [by rewrite lookup_insert_eq|by rewrite Es].
    + assert (Hs : (match store !! i with Some r => <[i:=raw_enqueue r skb ip]> store | None => store end)
        !! id = store !! id) by (destruct (store !! i); [by rewrite lookup_insert_ne|done]).
      rewrite Hs. destruct (decide (id ∈ snd <$> List.filter (fun e => e.1 =? protocol) table)).
      * by rewrite !bool_decide_true by (done || by right).
      * by rewrite !bool_decide_false by (done || rewrite elem_of_cons; tauto).
Qed.

(** ** Main properties *)

(** a UDP socket's receive queue is a bounded FIFO of whole datagrams.  As
    long as the byte count is exact and within the limit, [can_receive] accepts
    a datagram iff it still fits; queueing an accepted one appends it and keeps
    the count exact; receiving returns the oldest datagram with its source,
    truncated to the buffer and leaving the rest of the buffer alone, and gives
    back its bytes; the receive into a scattered user buffer fills the slices
    in order with the same bytes; an empty queue is [EAGAIN] without effect. *)
Theorem udp_receive_queue so skb ip port buf bufs :
  sock_wf so -> wf_skb skb -> Z.of_nat (len skb) < 2 ^ 62 ->
  (can_receive so (len skb) = true <->
     queue_bytes (receive_queue so) + Z.of_nat (len skb) <= rcvbuf_limit so) /\
  (can_receive so (len skb) = true ->
     sock_wf (enqueue so skb ip port) /\
     datagrams (enqueue so skb ip port) = datagrams so ++ [(data skb, ip, port)]) /\
  match datagrams so with
  | [] => recv_from so buf = (so, buf, Err EAGAIN) /\ try_recv_from so buf = (so, buf, Err EAGAIN) /\
          recv_user_buffer so bufs = (so, bufs, Err EAGAIN)
  | (d, sip, sport) :: rest =>
      (exists so' so'', let n := Nat.min (length buf) (length d) in
         recv_from so buf = (so', take n d ++ drop n buf, Ok (n, sip, sport)) /\
         try_recv_from so buf = (so'', take n d ++ drop n buf, Ok (n, sip, sport)) /\
         sock_wf so' /\ sock_wf so'' /\ datagrams so' = rest /\ datagrams so'' = rest) /\
      (exists so' bufs', let n := Nat.min (length (concat bufs)) (length d) in
         recv_user_buffer so bufs = (so', bufs', Ok (n, sip, sport)) /\
         concat bufs' = take n d ++ drop n (concat bufs) /\ length <$> bufs' = length <$> bufs /\
         sock_wf so' /\ datagrams so' = rest)
  end.
Proof.
  intros Hwf Hs Hn. split; [by apply can_receive_iff|]. split; [by apply enqueue_wf|].
  unfold recv_from, try_recv_from, recv_user_buffer.
  destruct (receive_queue so) as [|[[sk sip] sport] rest] eqn:Eq; unfold datagrams; rewrite Eq; simpl; [done|].
  pose proof (fun w => pop_front_wf so sk sip sport rest w Hwf Eq) as Hp.
  assert (Hk : wf_skb sk) by (destruct (Hp None) as (_ & ? & _); done).
  rewrite (len_data sk Hk). split.
  - eexists _, _. rewrite splice_head by (rewrite length_take, len_data by done; lia).
    rewrite length_take, len_data by done.
    replace (Nat.min (Nat.min (length buf) (len sk)) (len sk)) with (Nat.min (length buf) (len sk)) by lia.
    do 2 (split; [done|]). split; [apply Hp|]. split; [apply Hp|done].
  - destruct (scatter_spec (data sk) (Nat.min (user_len bufs) (len sk)) bufs 0) as [E1 E2].
    { rewrite len_data by done. lia. } { unfold user_len. lia. }
    eexists _, _. split; [done|]. unfold user_len in *. rewrite E1, E2, Nat.sub_0_r.
    split; [unfold slice; by rewrite Nat.sub_0_r, drop_0|]. split; [done|]. split; [apply Hp|done].
Qed.

Lemma udp_receive_queue_witness :
  sock_wf udp_socket_new /\
  datagrams (enqueue udp_socket_new (skb_new 3) 1 2) = [([], 1, 2)].
Proof.
  assert (Hw : sock_wf udp_socket_new)
    by (unfold sock_wf, udp_socket_new, DEFAULT_UDP_RCVBUF_LIMIT; simpl; repeat split; (lia || constructor)).
  split; [exact Hw|].
  exact (proj2 (proj1 (proj2 (udp_receive_queue udp_socket_new (skb_new 3) 1 2 [] [] Hw (wf_skb_new 3) eq_refl)) eq_refl)).
Defined.

(** demultiplexing of UDP.  A datagram goes to the most recently
    registered socket of its destination port that is connected to its sender;
    if there is none, to the most recently registered unconnected socket of that
    port; it is refused only when neither exists. *)
Theorem udp_demultiplexing {X} (s : Net X) dst_port src_ip src_port :
  let on peer (e : Z * SockId) := (fst e =? dst_port) && has_remote s (snd e) peer in
  match lookup_udp_socket s dst_port src_ip src_port with
  | Some id =>
      exists p l1 l2, udp_sockets s = l1 ++ (p, id) :: l2 /\
        ((on (Some (src_ip, src_port)) (p, id) = true /\
          Forall (fun e => on (Some (src_ip, src_port)) e = false) l2) \/
         (Forall (fun e => on (Some (src_ip, src_port)) e = false) (udp_sockets s) /\
          on None (p, id) = true /\ Forall (fun e => on None e = false) l2))
  | None =>
      Forall (fun e => on (Some (src_ip, src_port)) e = false /\ on None e = false) (udp_sockets s)
  end.
Proof.
  cbv zeta. unfold lookup_udp_socket.
  pose proof (find_rev_spec (fun e => (fst e =? dst_port) && has_remote s (snd e) (Some (src_ip, src_port)))
    (udp_sockets s)) as H1.
  pose proof (find_rev_spec (fun e => (fst e =? dst_port) && has_remote s (snd e) None) (udp_sockets s)) as H2.
  cbn beta in *. destruct (List.find _ (rev (udp_sockets s))) as [[p id]|].
  - destruct H1 as (l1 & l2 & E & Hx & Hf). exists p, l1, l2. split; [done|]. by left.
  - destruct (List.find _ (rev (udp_sockets s))) as [[p id]|].
    + destruct H2 as (l1 & l2 & E & Hx & Hf). exists p, l1, l2. split; [done|]. by right.
    + apply Forall_and. done.
Qed.

(** sending from a scattered user buffer is sending its concatenation: the
    two transmit paths, loopback and routed, compute the same state and
    result for the same bytes. *)
Theorem udp_user_buffer_equiv {X} `{NetDevices X} src parts dst dport (s : Net X) :
  send_udp_user_buffer src parts dst dport s = send_udp_packet src (concat parts) dst dport s.
Proof.
  unfold send_udp_user_buffer, send_udp_packet, send_udp_loopback_user_buffer, send_udp_loopback_slice, user_len.
  case_if.
  - rewrite put_parts_concat; [done|apply wf_skb_new|]. unfold tailroom; simpl. rewrite length_replicate. lia.
  - set (h := write_udp _). set (sk := with_headroom _ _).
    assert (Wk : wf_skb sk) by apply wf_with_headroom.
    assert (Tk : tailroom sk = (length (concat parts) + 8)%nat)
      by (unfold tailroom, sk; simpl; rewrite length_replicate; unfold udp_size; lia).
    assert (Hh : length h = 8%nat) by apply write_udp_length.
    unfold put_or_enomem at 1 2. rewrite put_bytes_in_place by (done || lia). cbn [ok_or rbind].
    unfold wf_skb, tailroom in *. clearbody sk h.
    rewrite put_parts_concat; [done| |]; unfold wf_skb, tailroom; cbn [buf data_start data_end];
      rewrite splice_length, ?Hh by lia; lia.
Qed.

(** every raw socket registered for the protocol of an incoming packet
    gets exactly one copy of it, appended to its queue; no other raw socket is
    touched; the delivery flag says whether there was one.  (The register
    operation keeps entries unique.) *)
Theorem raw_delivery_complete {X} protocol skb ip (s : Net X) :
  NoDup (raw_targets protocol (raw_sockets s)) ->
  let '(s', delivered) := deliver_raw_packet protocol skb ip s in
  delivered = existsb (fun e => fst e =? protocol) (raw_sockets s) /\
  raw_sockets s' = raw_sockets s /\
  forall id, raw_store s' !! id =
    if bool_decide (id ∈ raw_targets protocol (raw_sockets s))
    then (fun r => mkRawSocket (raw_protocol r) (raw_queue r ++ [(skb, ip)])) <$> raw_store s !! id
    else raw_store s !! id.
Proof.
  intros Hn. unfold deliver_raw_packet.
  pose proof (deliver_raw_loop_spec protocol skb ip (raw_sockets s) (raw_store s) false Hn) as [E1 E2].
  destruct (deliver_raw_loop _ _ _ _ _ _) as [store d]. simpl in *. by split.
Qed.

Lemma raw_delivery_complete_witness :
  let s := register_raw_socket 1 7 (register_raw_socket 1 7
             (set_raw_store {[7%nat := raw_socket_new 1]} TestWire.host)) in
  NoDup (raw_targets 1 (raw_sockets s)) /\
  raw_store (deliver_raw_packet 1 (skb_new 0) 9 s).1 !! 7%nat = Some (mkRawSocket 1 [(skb_new 0, 9)]).
Proof.
  intros s. assert (Hn : NoDup (raw_targets 1 (raw_sockets s))) by (apply NoDup_singleton).
  split; [exact Hn|]. pose proof (raw_delivery_complete 1 (skb_new 0) 9 s Hn) as H.
  destruct (deliver_raw_packet 1 (skb_new 0) 9 s) as [s' d] eqn:E. destruct H as (_ & _ & H).
  simpl. rewrite H. reflexivity.
Defined.

(** ephemeral ports.  The n-th allocation after boot (from 0) returns
    45000 + n modulo 2^16: the first 20536 allocations are distinct ports of the
    dynamic range, and the next one is port 0. *)
Theorem ephemeral_ports {X} (s : Net X) n :
  next_ephemeral_port s = 45000 ->
  let port := snd (alloc_ephemeral_port (Nat.iter n (fun s => fst (alloc_ephemeral_port s)) s)) in
  (Z.of_nat n < 20536 -> port = 45000 + Z.of_nat n) /\ (Z.of_nat n = 20536 -> port = 0).
Proof.
  intros H0.
  assert (Hn : forall k, next_ephemeral_port (Nat.iter k (fun s => fst (alloc_ephemeral_port s)) s)
                         = u16 (45000 + Z.of_nat k)).
  { induction k as [|k IH]; [by rewrite Z.add_0_r|].
    cbn [Nat.iter nat_rect]. unfold alloc_ephemeral_port at 1; cbn [fst next_ephemeral_port set_next_ephemeral_port].
    unfold Nat.iter in *. rewrite IH, wrap_add_l. f_equal. lia. }
  unfold alloc_ephemeral_port at 1. cbn [snd]. rewrite Hn. split; intros Hk.
  - apply wrap_small. unfold in_u. lia.
  - by rewrite Hk.
Qed.

Lemma ephemeral_ports_witness :
  snd (alloc_ephemeral_port (Nat.iter 2 (fun s => fst (alloc_ephemeral_port s)) TestWire.host)) = 45002.
Proof. exact (proj1 (ephemeral_ports TestWire.host 2 eq_refl) eq_refl). Defined.
