(* ===== verification/Pmtu.v ===== *)
(** * Path MTU and MSS (os/src/net/tcp.rs)

    The per-destination path MTU cache that ICMP feedback fills, and the
    segment size derived from it. *)

From S2P Require Import Prelude Skb NetState.

Definition IPV4_MIN_PATH_MTU : Z := 68.
Definition IPV4_HEADER_LEN : Z := 20.
Definition TCP_HEADER_LEN : Z := 20.
Definition PMTU_CACHE_TTL_US : Z := 10 * 60 * 1000000.
Definition PMTU_CACHE_MAX_ENTRIES : nat := 32.

Definition tcp_mss_from_mtu (mtu : Z) : Z :=
  Z.max (saturating_sub mtu (IPV4_HEADER_LEN + TCP_HEADER_LEN)) 1.

(** [now_us.wrapping_sub(entry.updated_at_us)]. *)
Definition pmtu_age (now : Z) (e : PathMtuEntry) : Z := usize (now - updated_at_us e).

Definition pmtu_live (now : Z) (e : PathMtuEntry) : bool := pmtu_age now e <=? PMTU_CACHE_TTL_US.

Definition pmtu_for (dst : Z) (e : PathMtuEntry) : bool := pm_dst_ip e =? dst.

(** The index of the entry that was updated longest ago. *)
Definition oldest_index (now : Z) (cache : list PathMtuEntry) : option nat :=
  fst <$> max_by_key (fun ie => pmtu_age now (snd ie)) (zip (seq 0 (length cache)) cache).

Section Ops.
Context {X : Type} `{NetDevices X} `{BuildConfig}.

Definition output_device_mtu (s : Net X) (dst_ip : Z) : Z :=
  Z.max (match route_lookup s dst_ip with Ok (dev, _) => dev_mtu dev | Err _ => IPV4_MIN_PATH_MTU end)
    IPV4_MIN_PATH_MTU.

Definition tcp_mss_for_dst (dst_ip : Z) (s : Net X) : Net X * Z :=
  let device_mtu := output_device_mtu s dst_ip in
  let cache := List.filter (pmtu_live (time_us s)) (path_mtu_cache s) in
  let cached_mtu := pm_mtu <$> List.find (pmtu_for dst_ip) cache in
  (set_path_mtu_cache cache s,
   tcp_mss_from_mtu (Z.min (default device_mtu cached_mtu) device_mtu)).

Definition BOARD_MAX_RECEIVE_WINDOW : Z := 16 * 1024.
Definition board_receive_window_segments (b : Board) : Z :=
  match b with VisionFive2 => 32 | _ => 16 end.

Definition tcp_receive_window_for_dst (dst_ip : Z) (s : Net X) : Net X * Z :=
  match board with
  | Qemu => (s, 65535)
  | b =>
      let '(s, mss) := tcp_mss_for_dst dst_ip s in
      let queue_window := Z.min (mss * board_receive_window_segments b) (2 ^ 64 - 1) in
      (s, u16 (Z.min (Z.min BOARD_MAX_RECEIVE_WINDOW queue_window) 65535))
  end.

Definition update_path_mtu (dst_ip reported_mtu : Z) (s : Net X) : Net X * option Z :=
  if reported_mtu <? IPV4_MIN_PATH_MTU then (s, None)
  else
    let now := time_us s in
    let device_mtu := output_device_mtu s dst_ip in
    let new_mtu := Z.min reported_mtu device_mtu in
    let cache := List.filter (pmtu_live now) (path_mtu_cache s) in
    let fresh := mkPmtu dst_ip new_mtu now in
    match position (pmtu_for dst_ip) cache with
    | Some i =>
        match cache !! i with
        | Some entry =>
            if pm_mtu entry <=? new_mtu then (set_path_mtu_cache cache s, None)
            else (set_path_mtu_cache (<[i := mkPmtu (pm_dst_ip entry) new_mtu now]> cache) s,
                  Some (tcp_mss_from_mtu new_mtu))
        | None => (set_path_mtu_cache cache s, None)
        end
    | None =>
        if device_mtu <=? new_mtu then (set_path_mtu_cache cache s, None)
        else
          let cache :=
            if (PMTU_CACHE_MAX_ENTRIES <=? length cache)%nat then
              match oldest_index now cache with
              | Some oldest => swap_remove oldest cache
              | None => cache
              end
            else cache in
          (set_path_mtu_cache (cache ++ [fresh]) s, Some (tcp_mss_from_mtu new_mtu))
    end.

(** ** Invariant *)

Definition pmtu_wf (cache : list PathMtuEntry) : Prop :=
  (length cache <= PMTU_CACHE_MAX_ENTRIES)%nat /\ NoDup (pm_dst_ip <$> cache) /\
  Forall (fun e => IPV4_MIN_PATH_MTU <= pm_mtu e < 65536) cache.

(** The MTU that the sender works with. *)
Definition effective_mtu (s : Net X) (dst : Z) : Z :=
  let device_mtu := output_device_mtu s dst in
  Z.min (default device_mtu
    (pm_mtu <$> List.find (pmtu_for dst) (List.filter (pmtu_live (time_us s)) (path_mtu_cache s)))) device_mtu.

Lemma pmtu_wf_sublist l k : l `sublist_of` k -> pmtu_wf k -> pmtu_wf l.
Proof.
  intros Hs (Hl & Hn & Hf). split; [apply sublist_length in Hs; lia|]. split.
  - eapply sublist_NoDup; [exact Hn|by apply fmap_sublist].
  - by eapply Forall_sublist_b.
Qed.

Lemma oldest_index_lt now cache i : oldest_index now cache = Some i -> (i < length cache)%nat.
Proof.
  unfold oldest_index. pose proof (max_by_key_spec (fun ie => pmtu_age now (snd ie))
    (zip (seq 0 (length cache)) cache)) as Hm.
  destruct (max_by_key _ _) as [[j e]|]; simpl; [|done]. intros [= ->].
  destruct Hm as (l1 & l2 & E & _).
  assert (Hin : (i, e) ∈ zip (seq 0 (length cache)) cache) by (rewrite E; set_solver).
  apply elem_of_zip_l, elem_of_seq in Hin. lia.
Qed.

Lemma evict_oldest now cache :
  (length cache = PMTU_CACHE_MAX_ENTRIES)%nat ->
  exists i k, oldest_index now cache = Some i /\ swap_remove i cache ≡ₚ k /\ k `sublist_of` cache /\
    length k = (PMTU_CACHE_MAX_ENTRIES - 1)%nat.
Proof.
  intros Hl. destruct (oldest_index now cache) as [i|] eqn:Ei.
  - pose proof (oldest_index_lt _ _ _ Ei) as Hi.
    destruct (lookup_lt_is_Some_2 cache i Hi) as [e He].
    apply list_elem_of_split_length in He as (l1 & l2 & -> & ->).
    exists (length l1), (l1 ++ l2). split; [done|]. split; [apply swap_remove_perm|].
    rewrite length_app in *. simpl in Hl. split; [|lia]. apply sublist_app; [done|by constructor].
  - exfalso. unfold oldest_index in Ei. pose proof (max_by_key_spec (fun ie => pmtu_age now (snd ie))
      (zip (seq 0 (length cache)) cache)) as Hm.
    destruct (max_by_key _ _); [done|]. apply (f_equal length) in Hm. rewrite length_zip, length_seq in Hm.
    simpl in Hm. unfold PMTU_CACHE_MAX_ENTRIES in Hl. lia.
Qed.

Lemma pmtu_wf_perm l k : l ≡ₚ k -> pmtu_wf k -> pmtu_wf l.
Proof.
  intros Hp Hw. unfold pmtu_wf. by rewrite Hp.
Qed.

Lemma pmtu_for_false dst l : ~ (dst ∈ pm_dst_ip <$> l) <-> Forall (fun e => pmtu_for dst e = false) l.
Proof.
  rewrite Forall_forall. unfold pmtu_for. split.
  - intros Hn e He. apply Z.eqb_neq. intros E. apply Hn. apply list_elem_of_fmap. by exists e.
  - intros H1 Hin. apply list_elem_of_fmap in Hin as (e & -> & He). specialize (H1 e He).
    apply Z.eqb_neq in H1. done.
Qed.

Lemma pmtu_wf_snoc l dst m now :
  pmtu_wf l -> (length l < PMTU_CACHE_MAX_ENTRIES)%nat -> Forall (fun e => pmtu_for dst e = false) l ->
  IPV4_MIN_PATH_MTU <= m < 65536 -> pmtu_wf (l ++ [mkPmtu dst m now]).
Proof.
  intros (Hl & Hn & Hf) Hlt Hd Hm. apply pmtu_for_false in Hd. split; [rewrite length_app; simpl; lia|]. split.
  - rewrite fmap_app. apply NoDup_app. split; [done|]. split; [|apply NoDup_singleton].
    intros x Hx Hx'. apply list_elem_of_singleton in Hx'. simpl in Hx'. by subst.
  - apply Forall_app. split; [done|by apply Forall_singleton].
Qed.

Lemma pmtu_live_now dst m now : pmtu_live now (mkPmtu dst m now) = true.
Proof. unfold pmtu_live, pmtu_age; simpl. by rewrite Z.sub_diag. Qed.

(** Looking up in a cache that has just been pruned. *)
Lemma effective_mtu_pruned (s : Net X) cache d :
  Forall (fun e => pmtu_live (time_us s) e = true) cache ->
  effective_mtu (set_path_mtu_cache cache s) d =
  Z.min (default (output_device_mtu s d) (pm_mtu <$> List.find (pmtu_for d) cache)) (output_device_mtu s d).
Proof. intros Hf. unfold effective_mtu; cbn [time_us path_mtu_cache set_path_mtu_cache]. by rewrite filter_all. Qed.

Lemma filter_live_all now cache :
  Forall (fun e => pmtu_live now e = true) (List.filter (pmtu_live now) cache).
Proof. apply Forall_forall. intros e He. apply filter_In_iff in He. tauto. Qed.

Lemma effective_mtu_prune (s : Net X) d :
  effective_mtu (set_path_mtu_cache (List.filter (pmtu_live (time_us s)) (path_mtu_cache s)) s) d = effective_mtu s d.
Proof. by rewrite effective_mtu_pruned by apply filter_live_all. Qed.

Lemma tcp_mss_effective dst (s : Net X) : snd (tcp_mss_for_dst dst s) = tcp_mss_from_mtu (effective_mtu s dst).
Proof. done. Qed.

Lemma effective_mtu_range (s : Net X) dst :
  pmtu_wf (path_mtu_cache s) -> IPV4_MIN_PATH_MTU <= effective_mtu s dst.
Proof.
  intros (_ & _ & Hf). unfold effective_mtu, output_device_mtu.
  destruct (List.find _ _) as [e|] eqn:E; simpl; [|lia].
  apply find_some in E as [Hin _]. apply filter_In in Hin as [Hin _]. apply list_elem_of_In in Hin.
  rewrite Forall_forall in Hf. specialize (Hf e Hin). simpl in Hf. lia.
Qed.

(** An update of an existing entry, in place. *)
Lemma pmtu_update_in_place l1 e l2 m now :
  pmtu_wf (l1 ++ e :: l2) -> IPV4_MIN_PATH_MTU <= m < 65536 ->
  pmtu_wf (l1 ++ mkPmtu (pm_dst_ip e) m now :: l2).
Proof.
  intros (Hl & Hn & Hf) Hm. unfold pmtu_wf. rewrite !length_app, !fmap_app in *. simpl in *.
  split; [done|]. split; [done|]. rewrite Forall_app, Forall_cons in *. tauto.
Qed.

Lemma find_replace d l1 e e' l2 :
  pm_dst_ip e' = pm_dst_ip e -> pm_dst_ip e <> d ->
  List.find (pmtu_for d) (l1 ++ e' :: l2) = List.find (pmtu_for d) (l1 ++ e :: l2).
Proof.
  intros Ee Hd. rewrite !find_app_b. simpl. unfold pmtu_for at 2 5. rewrite Ee.
  by rewrite (proj2 (Z.eqb_neq _ _) Hd).
Qed.

(** What an update amounts to: nothing, or a pruned well-formed cache in which
    the destination has the new value and, while there is room, no other
    destination changed. *)
Inductive pmtu_outcome (dst m : Z) (s : Net X) : Net X * option Z -> Prop :=
| pmtu_same : pmtu_outcome dst m s (s, None)
| pmtu_pruned :
    pmtu_outcome dst m s
      (set_path_mtu_cache (List.filter (pmtu_live (time_us s)) (path_mtu_cache s)) s, None)
| pmtu_lowered cache :
    pmtu_wf cache -> Forall (fun e => pmtu_live (time_us s) e = true) cache ->
    m <= effective_mtu s dst ->
    pm_mtu <$> List.find (pmtu_for dst) cache = Some m ->
    ((length (List.filter (pmtu_live (time_us s)) (path_mtu_cache s)) < PMTU_CACHE_MAX_ENTRIES)%nat ->
     forall d, d <> dst -> List.find (pmtu_for d) cache =
       List.find (pmtu_for d) (List.filter (pmtu_live (time_us s)) (path_mtu_cache s))) ->
    pmtu_outcome dst m s (set_path_mtu_cache cache s, Some (tcp_mss_from_mtu m)).

Lemma pmtu_replace_outcome dst m (s : Net X) l1 e l2 :
  let live := List.filter (pmtu_live (time_us s)) (path_mtu_cache s) in
  pmtu_wf live -> IPV4_MIN_PATH_MTU <= m < 65536 -> m <= output_device_mtu s dst ->
  live = l1 ++ e :: l2 -> pmtu_for dst e = true -> Forall (fun y => pmtu_for dst y = false) l1 ->
  m < pm_mtu e ->
  pmtu_outcome dst m s (set_path_mtu_cache (l1 ++ mkPmtu (pm_dst_ip e) m (time_us s) :: l2) s,
    Some (tcp_mss_from_mtu m)).
Proof.
  intros live Hwf Hm Hdev E He Hl1 Hlt. pose proof (filter_live_all (time_us s) (path_mtu_cache s)) as Hlive.
  fold live in Hlive. rewrite E in *. apply Forall_app in Hlive as [H1 H2]. apply Forall_cons in H2 as [_ H2].
  assert (Ed : pm_dst_ip e = dst) by (by apply Z.eqb_eq).
  constructor.
  - by apply pmtu_update_in_place.
  - apply Forall_app. split; [done|]. apply Forall_cons. split; [apply pmtu_live_now|done].
  - unfold effective_mtu. fold live. rewrite E, find_app_b, find_none_b by done. simpl. rewrite He. simpl. lia.
  - rewrite find_app_b, find_none_b by done. simpl. unfold pmtu_for at 1; simpl. by rewrite Ed, Z.eqb_refl.
  - intros _ d Hd. fold live. rewrite E. apply find_replace; [done|]. by rewrite Ed.
Qed.

Lemma pmtu_push_outcome dst m (s : Net X) cache :
  let live := List.filter (pmtu_live (time_us s)) (path_mtu_cache s) in
  pmtu_wf cache -> (length cache < PMTU_CACHE_MAX_ENTRIES)%nat ->
  Forall (fun e => pmtu_live (time_us s) e = true) cache ->
  Forall (fun y => pmtu_for dst y = false) live -> Forall (fun y => pmtu_for dst y = false) cache ->
  ((length live < PMTU_CACHE_MAX_ENTRIES)%nat -> cache = live) ->
  IPV4_MIN_PATH_MTU <= m < 65536 -> m < output_device_mtu s dst ->
  pmtu_outcome dst m s (set_path_mtu_cache (cache ++ [mkPmtu dst m (time_us s)]) s, Some (tcp_mss_from_mtu m)).
Proof.
  intros live Hwf Hlen Hl Hno Hno' Hroom Hm Hdev. constructor.
  - by apply pmtu_wf_snoc.
  - apply Forall_app. split; [done|]. apply Forall_singleton, pmtu_live_now.
  - unfold effective_mtu. fold live. rewrite find_none_b by done. simpl. lia.
  - rewrite find_app_b, find_none_b by done. simpl. unfold pmtu_for; simpl. by rewrite Z.eqb_refl.
  - intros Hr d Hd. fold live in Hr |- *. rewrite Hroom by done. rewrite find_app_b.
    destruct (List.find (pmtu_for d) live); [done|]. simpl. unfold pmtu_for; simpl.
    by rewrite (proj2 (Z.eqb_neq _ _)) by done.
Qed.

Lemma update_path_mtu_outcome dst rep (s : Net X) :
  pmtu_wf (path_mtu_cache s) -> in_u 16 rep ->
  pmtu_outcome dst (Z.min rep (output_device_mtu s dst)) s (update_path_mtu dst rep s).
Proof.
  intros Hwf Hrep. unfold update_path_mtu. case_if; [constructor|]. cbv zeta.
  set (live := List.filter _ _). set (m := Z.min rep _).
  assert (Hdev : IPV4_MIN_PATH_MTU <= output_device_mtu s dst) by (unfold output_device_mtu; lia).
  assert (Hm : IPV4_MIN_PATH_MTU <= m < 65536) by (unfold in_u in Hrep; lia).
  assert (Hwl : pmtu_wf live) by (eapply pmtu_wf_sublist; [apply filter_sublist_b|done]).
  pose proof (position_spec (pmtu_for dst) live) as Hp.
  destruct (position (pmtu_for dst) live) as [i|].
  - destruct Hp as (l1 & e & l2 & El & <- & He & Hl1). rewrite El, list_lookup_middle by done.
    case_if; [rewrite <- El; constructor|]. rewrite insert_app_r_alt, Nat.sub_diag by done. cbn [insert list_insert].
    eapply pmtu_replace_outcome; try done; [unfold m; lia].
  - case_if; [constructor|]. unfold m in E0. case_if.
    + destruct Hwl as (Hlen & Hnd & Hf). assert (Hle : length live = PMTU_CACHE_MAX_ENTRIES) by lia.
      destruct (evict_oldest (time_us s) live Hle) as (i & k & Ei & Hk & Hs & Hlk). rewrite Ei.
      assert (Hsub : Forall (fun e => pmtu_live (time_us s) e = true /\ pmtu_for dst e = false) k).
      { eapply Forall_sublist_b; [exact Hs|]. apply Forall_and. split; [apply filter_live_all|done]. }
      apply Forall_and in Hsub as [Hk1 Hk2].
      apply pmtu_push_outcome; rewrite ?Hk, ?Hlk; fold live; try done; unfold PMTU_CACHE_MAX_ENTRIES in *; try lia.
      eapply pmtu_wf_perm; [exact Hk|]. by eapply pmtu_wf_sublist.
    + apply pmtu_push_outcome; fold live; try done; try lia. apply filter_live_all.
Qed.

(** ** Main property *)

(** ICMP feedback can only lower the path MTU.  [update_path_mtu] keeps the
    cache well-formed (at most 32 entries, one per destination, every value at
    least 68); the MTU used towards the destination never rises; when the update
    reports a new segment size, it is exactly the size that senders to that
    destination use from now on and the MTU does not exceed the reported one;
    when it reports none, no destination changes; and while the cache has room,
    no other destination ever changes.  The segment size stays at least 28. *)
Theorem path_mtu_only_lowers dst rep (s : Net X) :
  pmtu_wf (path_mtu_cache s) -> in_u 16 rep ->
  let '(s', r) := update_path_mtu dst rep s in
  pmtu_wf (path_mtu_cache s') /\ effective_mtu s' dst <= effective_mtu s dst /\
  28 <= snd (tcp_mss_for_dst dst s') /\
  match r with
  | Some mss => snd (tcp_mss_for_dst dst s') = mss /\ effective_mtu s' dst <= rep
  | None => forall d, effective_mtu s' d = effective_mtu s d
  end /\
  ((length (List.filter (pmtu_live (time_us s)) (path_mtu_cache s)) < PMTU_CACHE_MAX_ENTRIES)%nat ->
   forall d, d <> dst -> effective_mtu s' d = effective_mtu s d).
Proof.
  intros Hwf Hrep.
  assert (H28 : forall s' : Net X, pmtu_wf (path_mtu_cache s') -> 28 <= snd (tcp_mss_for_dst dst s')).
  { intros s' Hw. rewrite tcp_mss_effective. pose proof (effective_mtu_range s' dst Hw).
    unfold tcp_mss_from_mtu, saturating_sub, IPV4_HEADER_LEN, TCP_HEADER_LEN, IPV4_MIN_PATH_MTU in *. lia. }
  destruct (update_path_mtu_outcome dst rep s Hwf Hrep) as [| |cache Hc Hl Hle Hf Hr].
  - split; [done|]. split; [lia|]. split; [by apply H28|]. done.
  - set (live := List.filter _ _).
    assert (Hwl : pmtu_wf live) by (eapply pmtu_wf_sublist; [apply filter_sublist_b|done]).
    unfold live in *. split; [done|]. rewrite effective_mtu_prune. split; [lia|]. split; [by apply H28|].
    split; intros; apply effective_mtu_prune.
  - assert (Ee : effective_mtu (set_path_mtu_cache cache s) dst = Z.min rep (output_device_mtu s dst)).
    { rewrite effective_mtu_pruned, Hf by done. simpl. lia. }
    split; [done|]. rewrite Ee. split; [done|]. split; [by apply H28|]. split; [|].
    + rewrite tcp_mss_effective, Ee. split; [done|lia].
    + intros Hroom d Hd. rewrite effective_mtu_pruned, Hr by done. done.
Qed.

End Ops.

Import TestWire.

Lemma path_mtu_only_lowers_witness :
  pmtu_wf (path_mtu_cache host) /\
  snd (update_path_mtu 16843009 1400 host) = Some 1360 /\
  snd (tcp_mss_for_dst 16843009 (fst (update_path_mtu 16843009 1400 host))) = 1360.
Proof.
  assert (Hw : pmtu_wf (path_mtu_cache host)) by (repeat split; [apply Nat.leb_le; reflexivity|constructor..]).
  split; [exact Hw|]. split; [reflexivity|].
  pose proof (path_mtu_only_lowers 16843009 1400 host Hw ltac:(unfold in_u; lia)) as H.
  exact (proj1 (proj1 (proj2 (proj2 (proj2 H))))).
Defined.
