(* ===== verification/Tcp.v ===== *)
(** * TCP segments and the kernel echo service (os/src/net/tcp.rs)

    Building, sending and receiving segments, the reset rules, and the
    fallback echo service on port 8080 with its connection table.  User
    sockets are behind the interface [TcpSocketLayer]. *)

From S2P Require Import Prelude Skb Wire Checksum NetState Neighbor IpOut Pmtu.

Definition TCP_FLAG_FIN : Z := 1.
Definition TCP_FLAG_SYN : Z := 2.
Definition TCP_FLAG_RST : Z := 4.
Definition TCP_FLAG_PSH : Z := 8.
Definition TCP_FLAG_ACK : Z := 16.
Definition KERNEL_TCP_SERVICE_PORT : Z := 8080.
Definition TCP_OPTION_MSS_LEN : nat := 4.

(** [(flags & f) != 0]. *)
Definition has (flags f : Z) : bool := negb (Z.land flags f =? 0).

Definition tcp_seq_advance (seq flags : Z) (payload_len : nat) : Z :=
  let syn_fin := Z.b2z (has flags TCP_FLAG_SYN) + Z.b2z (has flags TCP_FLAG_FIN) in
  u32 (u32 (seq + u32 (Z.of_nat payload_len)) + syn_fin).

Record PendingTx := mkTx {
  tx_local_ip : Z; tx_remote_ip : Z; tx_local_port : Z; tx_remote_port : Z;
  tx_seq : Z; tx_ack : Z; tx_flags : Z; tx_payload : bytes }.

(** ** The echo service: one connection *)

Definition conn_tx (c : KernelTcpConn) (seq ack flags : Z) (payload : bytes) : PendingTx :=
  mkTx (local_ip c) (remote_ip c) (local_port c) (remote_port c) seq ack flags payload.

Definition set_conn (c : KernelTcpConn) (st : KernelTcpState) (snd rcv : Z) : KernelTcpConn :=
  mkConn (remote_ip c) (local_ip c) (remote_port c) (local_port c) st snd rcv.

(** The segment's effect on an existing connection ([None]: removed from the
    table) and the segments to send. *)
Definition kernel_conn_step (c : KernelTcpConn) (seq ack flags : Z) (payload : bytes) :
    option KernelTcpConn * list PendingTx :=
  if has flags TCP_FLAG_RST then (None, [])
  else
    match state c with
    | SynReceived =>
        if has flags TCP_FLAG_ACK && (ack =? snd_nxt c)
        then (Some (set_conn c Established (snd_nxt c) (rcv_nxt c)), [])
        else (Some c, [])
    | Established =>
        if has flags TCP_FLAG_FIN then
          let rcv := u32 (seq + 1) in
          (Some (set_conn c LastAck (u32 (snd_nxt c + 1)) rcv),
           [conn_tx c (snd_nxt c) rcv TCP_FLAG_ACK [];
            conn_tx c (snd_nxt c) rcv (Z.lor TCP_FLAG_FIN TCP_FLAG_ACK) []])
        else if negb (bool_decide (payload = [])) then
          let rcv := u32 (seq + u32 (Z.of_nat (length payload))) in
          (Some (set_conn c Established (u32 (snd_nxt c + u32 (Z.of_nat (length payload)))) rcv),
           [conn_tx c (snd_nxt c) rcv TCP_FLAG_ACK [];
            conn_tx c (snd_nxt c) rcv (Z.lor TCP_FLAG_ACK TCP_FLAG_PSH) payload])
        else (Some c, [])
    | LastAck =>
        if has flags TCP_FLAG_ACK && (ack =? snd_nxt c) then (None, []) else (Some c, [])
    end.

Definition conn_matches (rip lip rport lport : Z) (c : KernelTcpConn) : bool :=
  (remote_ip c =? rip) && (local_ip c =? lip) && (remote_port c =? rport) && (local_port c =? lport).

Definition find_kernel_conn_idx (conns : list KernelTcpConn) (rip lip rport lport : Z) : option nat :=
  position (conn_matches rip lip rport lport) conns.

(** The part of [dispatch_kernel_tcp_service] under the table lock: the new
    table and sequence generator, the pending segments, and [handled]. *)
Definition kernel_service_step (conns : list KernelTcpConn) (iss : Z)
    (src_ip dst_ip src_port dst_port seq ack flags : Z) (payload : bytes) :
    list KernelTcpConn * Z * list PendingTx * bool :=
  match find_kernel_conn_idx conns src_ip dst_ip src_port dst_port with
  | Some idx =>
      match conns !! idx with
      | Some c =>
          match kernel_conn_step c seq ack flags payload with
          | (Some c', pending) => (<[idx := c']> conns, iss, pending, true)
          | (None, pending) => (swap_remove idx conns, iss, pending, true)
          end
      | None => (conns, iss, [], true)
      end
  | None =>
      if (dst_port =? KERNEL_TCP_SERVICE_PORT) && has flags TCP_FLAG_SYN && negb (has flags TCP_FLAG_ACK)
      then
        let c := mkConn src_ip dst_ip src_port dst_port SynReceived (u32 (iss + 1)) (u32 (seq + 1)) in
        (conns ++ [c], u32 (iss + 4096), [conn_tx c iss (rcv_nxt c) (Z.lor TCP_FLAG_SYN TCP_FLAG_ACK) []], true)
      else (conns, iss, [], false)
  end.

Definition is_kernel_service_reflection {X} (s : Net X) (src_ip dst_ip src_port dst_port : Z) : bool :=
  existsb (fun c => (local_ip c =? src_ip) && (remote_ip c =? dst_ip) &&
                    (local_port c =? src_port) && (remote_port c =? dst_port)) (kernel_tcp_conns s).

Section Ops.
Context {X : Type} `{NetDevices X} `{TcpSocketLayer X} `{BuildConfig}.

(** ** Sending *)

Definition tcp_tx_header (lport rport seq ack flags window : Z) (header_len : nat) : TcpHeader :=
  mkTcp (to_be16 lport) (to_be16 rport) (to_be32 seq) (to_be32 ack)
    (u8 (Z.shiftl (u8 (Z.of_nat header_len / 4)) 4)) flags (to_be16 window) 0 0.

Definition tcp_send_segment (lip rip lport rport seq ack flags : Z) (payload : bytes) (s : Net X) :
    Net X * result unit string :=
  let opt_len := if has flags TCP_FLAG_SYN then TCP_OPTION_MSS_LEN else O in
  let header_len := (tcp_size + opt_len)%nat in
  let total_len := (header_len + length payload)%nat in
  let skb := with_headroom (eth_size + ip_size) total_len in
  match put_bytes skb (replicate total_len 0) with
  | None => (s, Err "tcp skb alloc failed"%string)
  | Some skb =>
      let '(s, window) := tcp_receive_window_for_dst rip s in
      let skb := write_at skb 0 (write_tcp (tcp_tx_header lport rport seq ack flags window header_len)) in
      let '(s, skb) :=
        if negb (opt_len =? 0)%nat then
          let '(s, mss) := tcp_mss_for_dst rip s in
          let mss := u16 (Z.min mss 65535) in
          (s, write_at skb tcp_size (2 :: Z.of_nat TCP_OPTION_MSS_LEN :: be_store 2 mss))
        else (s, skb) in
      let skb := if negb (bool_decide (payload = [])) then write_at skb header_len payload else skb in
      let checksum := tcp_checksum lip rip (data skb) in
      let skb := write_at skb 16 (le_store 2 (to_be16 checksum)) in
      match ip_queue_xmit skb lip rip 6 s with
      | (s, Ok _) => (s, Ok tt)
      | (s, Err e) => (s, Err e)
      end
  end.

(** The segmentation loop; every turn sends at least one byte, so [fuel]
    starting at the payload length is enough (lemma [send_loop_done]). *)
Fixpoint tcp_send_loop (fuel : nat) (lip rip lport rport seq ack : Z) (payload : bytes) (mss sent : nat)
    (s : Net X) : Net X * result (nat * Z) string :=
  match fuel with
  | O => (s, Ok (sent, seq))
  | S fuel =>
      if (sent <? length payload)%nat then
        let end_ := Nat.min (sent + mss) (length payload) in
        let chunk := slice sent end_ payload in
        match tcp_send_segment lip rip lport rport seq ack (Z.lor TCP_FLAG_ACK TCP_FLAG_PSH) chunk s with
        | (s, Ok _) =>
            tcp_send_loop fuel lip rip lport rport (u32 (seq + u32 (Z.of_nat (length chunk)))) ack payload mss end_ s
        | (s, Err e) => if (0 <? sent)%nat then (s, Ok (sent, seq)) else (s, Err e)
        end
      else (s, Ok (sent, seq))
  end.

Definition tcp_send_data (lip rip lport rport seq ack : Z) (payload : bytes) (s : Net X) :
    Net X * result (nat * Z) string :=
  if bool_decide (payload = []) then (s, Ok (O, seq))
  else
    let '(s, mss) := tcp_mss_for_dst rip s in
    tcp_send_loop (length payload) lip rip lport rport seq ack payload (Z.to_nat mss) 0 s.

(** ** Unmatched segments and the echo service *)

Definition send_unmatched_rst (src_ip dst_ip src_port dst_port seq ack flags : Z) (payload_len : nat)
    (s : Net X) : Net X :=
  if has flags TCP_FLAG_RST then s
  else if has flags TCP_FLAG_ACK then
    fst (tcp_send_segment dst_ip src_ip dst_port src_port ack 0 TCP_FLAG_RST [] s)
  else
    let ack_num := tcp_seq_advance seq flags payload_len in
    fst (tcp_send_segment dst_ip src_ip dst_port src_port 0 ack_num (Z.lor TCP_FLAG_RST TCP_FLAG_ACK) [] s).

Fixpoint send_pending (pending : list PendingTx) (s : Net X) : Net X :=
  match pending with
  | [] => s
  | tx :: pending =>
      send_pending pending
        (fst (tcp_send_segment (tx_local_ip tx) (tx_remote_ip tx) (tx_local_port tx) (tx_remote_port tx)
               (tx_seq tx) (tx_ack tx) (tx_flags tx) (tx_payload tx) s))
  end.

Definition dispatch_kernel_tcp_service (src_ip dst_ip src_port dst_port seq ack flags : Z) (payload : bytes)
    (s : Net X) : Net X * bool :=
  let '(conns, iss, pending, handled) :=
    kernel_service_step (kernel_tcp_conns s) (kernel_next_iss s)
      src_ip dst_ip src_port dst_port seq ack flags payload in
  let s := set_kernel_next_iss iss (set_kernel_tcp_conns conns s) in
  (send_pending pending s, handled).

Definition try_dispatch_or_rst (src_ip dst_ip src_port dst_port seq ack flags : Z) (payload : bytes)
    (payload_len : nat) (s : Net X) : Net X * bool :=
  let '(s, taken) := dispatch_tcp_segment src_ip dst_ip src_port dst_port seq ack flags payload s in
  if taken then (s, true)
  else if is_kernel_service_reflection s src_ip dst_ip src_port dst_port then (s, true)
  else
    let '(s, handled) := dispatch_kernel_tcp_service src_ip dst_ip src_port dst_port seq ack flags payload s in
    if handled then (s, true)
    else
      let '(s, silent) :=
        if has flags TCP_FLAG_SYN && negb (has flags TCP_FLAG_ACK)
        then should_silence_unmatched_syn dst_ip dst_port s else (s, false) in
      if silent then (s, true)
      else (send_unmatched_rst src_ip dst_ip src_port dst_port seq ack flags payload_len s, false).

(** ** Receiving *)

Definition tcp_rcv (skb : Skb) (src_ip dst_ip : Z) (s : Net X) : Net X * Rx :=
  if (len skb <? tcp_size)%nat then (s, Err "TCP packet too short"%string)
  else
    let seg := data skb in
    let hdr := read_tcp seg in
    let hdr_len := header_len hdr in
    if (hdr_len <? tcp_size)%nat || (length seg <? hdr_len)%nat then (s, Err "TCP header invalid"%string)
    else
      let src_port := from_be16 (tcp_src_port hdr) in
      let dst_port := from_be16 (tcp_dst_port hdr) in
      let flags := tcp_flags hdr in
      if negb (tcp_checksum src_ip dst_ip seg =? 0) then (s, Err "TCP checksum invalid"%string)
      else
        let seq := from_be32 (tcp_seq_raw hdr) in
        let ack := from_be32 (tcp_ack_raw hdr) in
        let payload_len := (length seg - hdr_len)%nat in
        let skb := pull_ skb hdr_len in
        let payload := data skb in
        let is_rst := has flags TCP_FLAG_RST in
        let is_syn := has flags TCP_FLAG_SYN in
        let is_fin := has flags TCP_FLAG_FIN in
        let is_ack := has flags TCP_FLAG_ACK in
        let has_data := (0 <? payload_len)%nat in
        if is_rst then
          let s := fst (dispatch_tcp_segment src_ip dst_ip src_port dst_port seq ack flags payload s) in
          (s, Ok (skb, src_ip, src_port))
        else if is_syn && negb is_ack then
          let s := fst (try_dispatch_or_rst src_ip dst_ip src_port dst_port seq ack flags payload payload_len s) in
          (s, Ok (skb, src_ip, src_port))
        else if has_data || is_fin || is_ack || is_syn then
          let s := fst (try_dispatch_or_rst src_ip dst_ip src_port dst_port seq ack flags payload payload_len s) in
          (s, Ok (skb, src_ip, src_port))
        else
          let s := send_unmatched_rst src_ip dst_ip src_port dst_port seq ack flags payload_len s in
          (s, Ok (skb, src_ip, src_port)).

End Ops.

(** ** The segment on the wire *)

Definition opt_len (flags : Z) : nat := if has flags TCP_FLAG_SYN then TCP_OPTION_MSS_LEN else O.

Definition tcp_body (lport rport seq ack flags window : Z) (opt payload : bytes) : bytes :=
  write_tcp (tcp_tx_header lport rport seq ack flags window (tcp_size + opt_len flags)) ++ opt ++ payload.

Definition tcp_segment (lip rip lport rport seq ack flags window : Z) (opt payload : bytes) : bytes :=
  let b := tcp_body lport rport seq ack flags window opt payload in
  splice 16 (be_store 2 (tcp_checksum lip rip b)) b.

(** The option is the MSS option on SYN segments and absent otherwise. *)
Definition opt_ok (flags : Z) (opt : bytes) : Prop :=
  length opt = opt_len flags /\ is_bytes opt /\
  (has flags TCP_FLAG_SYN = true -> exists mss, 0 <= mss <= 65535 /\ opt = 2 :: 4 :: be_store 2 mss).

Section Segment.
Context (lip rip lport rport seq ack flags window : Z) (opt payload : bytes).
Context (Hlip : in_u 32 lip) (Hrip : in_u 32 rip) (Hlp : in_u 16 lport) (Hrp : in_u 16 rport).
Context (Hseq : in_u 32 seq) (Hack : in_u 32 ack) (Hfl : in_u 8 flags).
Context (Hopt : opt_ok flags opt) (Hpl : is_bytes payload) (Hlen : Z.of_nat (length payload) + 24 <= 65535).

Let b0 := tcp_body lport rport seq ack flags window opt payload.
Let seg := tcp_segment lip rip lport rport seq ack flags window opt payload.

Lemma opt_len_le : (opt_len flags <= 4)%nat.
Proof. unfold opt_len, TCP_OPTION_MSS_LEN. by case_if; apply Nat.leb_le. Qed.

Lemma tcp_body_length : length b0 = (20 + opt_len flags + length payload)%nat.
Proof. unfold b0, tcp_body. rewrite !length_app, write_tcp_length. destruct Hopt as [-> _]. unfold tcp_size. lia. Qed.

Lemma tcp_body_bytes : is_bytes b0.
Proof. unfold b0, tcp_body. rewrite !is_bytes_app. destruct Hopt as (_ & ? & _). auto with kairix. Qed.

Lemma tcp_segment_length : length seg = (20 + opt_len flags + length payload)%nat.
Proof.
  unfold seg, tcp_segment. cbv zeta. fold b0. rewrite splice_length; rewrite ?be_store_length, tcp_body_length; lia.
Qed.

Lemma tcp_segment_bytes : is_bytes seg.
Proof. unfold seg, tcp_segment. apply splice_bytes; [auto with kairix|apply tcp_body_bytes]. Qed.

Lemma tcp_segment_checksum : tcp_checksum lip rip seg = 0.
Proof.
  pose proof tcp_body_bytes as Hb. pose proof tcp_body_length as Hl. pose proof opt_len_le as Ho.
  rewrite tcp_checksum_eq by (auto using tcp_segment_bytes; rewrite tcp_segment_length; lia).
  rewrite tcp_segment_length, <- Hl. unfold seg, tcp_segment. cbv zeta. fold b0.
  assert (Hc : tcp_checksum lip rip b0 = _) by (apply tcp_checksum_eq; (done || lia)).
  rewrite Hc. set (t := pseudo_total lip rip 6 (Z.of_nat (length b0)) + word_sum b0).
  pose proof (oc_checksum_range t). rewrite word_sum_store; [|done|lia|reflexivity|done].
  rewrite Z.add_assoc. apply oc_checksum_fill.
  pose proof (word_sum_nonneg b0 Hb). unfold t, pseudo_total. unfold in_u in *. zlia.
Qed.

Lemma read_tcp_segment :
  exists c, read_tcp seg =
    mkTcp (to_be16 lport) (to_be16 rport) (to_be32 seq) (to_be32 ack)
      (u8 (Z.shiftl (u8 (Z.of_nat (tcp_size + opt_len flags) / 4)) 4)) flags (to_be16 window) c 0.
Proof.
  unfold seg, tcp_segment, tcp_body. cbv zeta. set (c := tcp_checksum _ _ _). clearbody c.
  rewrite splice_app_l by (rewrite be_store_length, write_tcp_length; unfold tcp_size; lia).
  eexists. unfold read_tcp, write_tcp, tcp_tx_header.
  cbn -[le_load swap_bytes Z.modulo Z.div wrap Z.of_nat Z.shiftl].
  f_equal; try apply (le_load_swap 2); try apply (le_load_swap 4).
  - apply (wrap_wrap 8).
  - by apply (wrap_small 8).
Qed.

Lemma header_len_opt :
  Z.to_nat (Z.shiftr (u8 (Z.shiftl (u8 (Z.of_nat (tcp_size + opt_len flags) / 4)) 4)) 4 * 4)
  = (20 + opt_len flags)%nat.
Proof. unfold opt_len. by destruct (has flags TCP_FLAG_SYN). Qed.

Lemma tcp_segment_drop : drop (20 + opt_len flags) seg = payload.
Proof.
  unfold seg, tcp_segment, tcp_body. cbv zeta. destruct Hopt as [Ho _].
  rewrite splice_app_l by (rewrite be_store_length, write_tcp_length; unfold tcp_size; lia).
  rewrite app_assoc. apply drop_app_length'. rewrite length_app, splice_length, Ho; [done|].
  rewrite be_store_length, write_tcp_length. unfold tcp_size. lia.
Qed.

End Segment.

(** ** Sending and receiving a segment *)

Section IO.
Context {X : Type} `{NetDevices X} `{TcpSocketLayer X} `{BuildConfig}.

(** What an accepted segment does to the stack. *)
Definition tcp_input (sip dip sport dport seq ack flags : Z) (payload : bytes) (s : Net X) : Net X :=
  if has flags TCP_FLAG_RST then fst (dispatch_tcp_segment sip dip sport dport seq ack flags payload s)
  else if negb (bool_decide (payload = [])) || has flags TCP_FLAG_FIN || has flags TCP_FLAG_ACK ||
          has flags TCP_FLAG_SYN
  then fst (try_dispatch_or_rst sip dip sport dport seq ack flags payload (length payload) s)
  else send_unmatched_rst sip dip sport dport seq ack flags (length payload) s.

Lemma tcp_rcv_segment lip rip lport rport seq ack flags window opt payload skb (s : Net X) :
  in_u 32 lip -> in_u 32 rip -> in_u 16 lport -> in_u 16 rport -> in_u 32 seq -> in_u 32 ack ->
  in_u 8 flags -> opt_ok flags opt -> is_bytes payload -> Z.of_nat (length payload) + 24 <= 65535 ->
  wf_skb skb -> data skb = tcp_segment lip rip lport rport seq ack flags window opt payload ->
  exists skb', wf_skb skb' /\ data skb' = payload /\
    tcp_rcv skb lip rip s = (tcp_input lip rip lport rport seq ack flags payload s, Ok (skb', lip, lport)).
Proof.
  intros Hlip Hrip Hlp Hrp Hseq Hack Hfl Hopt Hpl Hlen Hw Hd.
  assert (Hsl : length (data skb) = (20 + opt_len flags + length payload)%nat)
    by (rewrite Hd; by apply tcp_segment_length).
  assert (Hsk : len skb = (20 + opt_len flags + length payload)%nat) by (by rewrite <- len_data).
  assert (Hck : tcp_checksum lip rip (data skb) = 0) by (rewrite Hd; by apply tcp_segment_checksum).
  assert (Hdr : drop (20 + opt_len flags) (data skb) = payload) by (rewrite Hd; by apply tcp_segment_drop).
  destruct (read_tcp_segment lip rip lport rport seq ack flags window opt payload) as [c Hr]; try done.
  rewrite <- Hd in Hr. unfold tcp_rcv. case_if; [unfold tcp_size in *; lia|].
  rewrite Hr. cbv zeta. set (hdr := mkTcp _ _ _ _ _ _ _ _ _).
  assert (Hh : header_len hdr = (20 + opt_len flags)%nat) by (apply header_len_opt).
  rewrite Hh, Hsl, Hck. cbn [Z.eqb negb].
  assert (Hg : ((20 + opt_len flags <? tcp_size)%nat ||
                (20 + opt_len flags + length payload <? 20 + opt_len flags)%nat) = false).
  { apply orb_false_iff. unfold tcp_size. split; apply Nat.ltb_ge; lia. }
  rewrite Hg. unfold hdr; cbn [tcp_src_port tcp_dst_port tcp_flags tcp_seq_raw tcp_ack_raw].
  rewrite !swap_swap. change (8 * Z.of_nat 2) with 16. change (8 * Z.of_nat 4) with 32.
  rewrite !wrap_small by done.
  destruct (pull_spec skb (20 + opt_len flags) Hw) as (s3 & E3 & W3 & D3 & _); [lia|].
  unfold pull_. rewrite E3, D3, Hdr. exists s3. split; [done|]. split; [by rewrite D3|].
  unfold tcp_input. replace (20 + opt_len flags + length payload - (20 + opt_len flags))%nat
    with (length payload) by lia.
  replace (0 <? length payload)%nat with (negb (bool_decide (payload = []))) by (by destruct payload).
  destruct (has flags TCP_FLAG_RST), (has flags TCP_FLAG_SYN), (has flags TCP_FLAG_ACK); try done;
    cbn [andb negb orb]; rewrite ?orb_true_r, ?orb_false_r; try done.
  by case_raw E9.
Qed.

(** The window and MSS computations only prune the path MTU cache. *)
Lemma tcp_mss_prunes rip (s : Net X) : exists c, fst (tcp_mss_for_dst rip s) = set_path_mtu_cache c s.
Proof. by eexists. Qed.

Lemma tcp_window_prunes rip (s : Net X) :
  exists c, fst (tcp_receive_window_for_dst rip s) = set_path_mtu_cache c s.
Proof.
  unfold tcp_receive_window_for_dst. destruct board; [exists (path_mtu_cache s); by destruct s|..]; by eexists.
Qed.

Lemma splice_write_tail {A} (l1 l2 src : list A) :
  length src = length l2 -> splice (length l1) src (l1 ++ l2) = l1 ++ src.
Proof.
  intros E. unfold splice. rewrite take_app_length. rewrite drop_ge; [by rewrite app_nil_r|].
  rewrite length_app. lia.
Qed.

Lemma splice_replicate_head {A} (x : A) (src : list A) n :
  splice 0 src (replicate (length src + n) x) = src ++ replicate n x.
Proof. rewrite splice_head by (rewrite length_replicate; lia). rewrite replicate_add. by rewrite drop_app_length' by (by rewrite length_replicate). Qed.

(** Writing the header, the option and the payload over zeroed memory. *)
Lemma write_segment skb flags hdr opt payload n :
  wf_skb skb -> length hdr = tcp_size -> length opt = opt_len flags ->
  n = (tcp_size + opt_len flags + length payload)%nat -> data skb = replicate n 0 ->
  let skb1 := write_at skb 0 hdr in
  let skb2 := if negb (opt_len flags =? 0)%nat then write_at skb1 tcp_size opt else skb1 in
  let skb3 := if negb (bool_decide (payload = [])) then write_at skb2 (tcp_size + opt_len flags) payload else skb2 in
  wf_skb skb3 /\ data skb3 = hdr ++ opt ++ payload.
Proof.
  intros Hw Hh Ho -> Hd skb1 skb2 skb3. unfold tcp_size in *.
  assert (Hl : len skb = (20 + opt_len flags + length payload)%nat)
    by (rewrite <- len_data, Hd, length_replicate; done).
  assert (W1 : wf_skb skb1) by (apply wf_write_at; [done|lia]).
  assert (D1 : data skb1 = hdr ++ replicate (opt_len flags) 0 ++ replicate (length payload) 0).
  { unfold skb1. rewrite data_write_at by (done || lia). rewrite Hd, <- replicate_add, <- splice_replicate_head.
    do 2 f_equal. lia. }
  assert (L1 : len skb1 = len skb) by done.
  assert (H2 : wf_skb skb2 /\ data skb2 = hdr ++ opt ++ replicate (length payload) 0 /\ len skb2 = len skb).
  { unfold skb2. case_if.
    - split; [apply wf_write_at; [done|lia]|]. split; [|done]. rewrite data_write_at by (done || lia).
      rewrite D1, app_assoc, splice_app_l by (rewrite length_app, length_replicate; lia).
      rewrite <- Hh. rewrite splice_write_tail by (by rewrite length_replicate). by rewrite <- app_assoc.
    - split; [done|]. split; [|done]. rewrite D1. rewrite E in Ho |- *. by destruct opt. }
  destruct H2 as (W2 & D2 & L2). unfold skb3. case_if.
  - split; [apply wf_write_at; [done|lia]|]. rewrite data_write_at by (done || lia). rewrite D2, !app_assoc.
    replace (20 + opt_len flags)%nat with (length (hdr ++ opt)) by (rewrite length_app; lia).
    apply splice_write_tail. by rewrite length_replicate.
  - split; [done|]. rewrite D2. by rewrite E.
Qed.

(** [tcp_send_segment] prunes the path MTU cache and hands IP a well-formed segment. *)
Lemma tcp_send_segment_spec lip rip lport rport seq ack flags payload (s : Net X) :
  exists skb cache window opt, wf_skb skb /\ opt_ok flags opt /\
    data skb = tcp_segment lip rip lport rport seq ack flags window opt payload /\
    tcp_send_segment lip rip lport rport seq ack flags payload s =
      match ip_queue_xmit skb lip rip 6 (set_path_mtu_cache cache s) with
      | (s, Ok _) => (s, Ok tt) | (s, Err e) => (s, Err e) end.
Proof.
  unfold tcp_send_segment. fold (opt_len flags). cbv zeta.
  set (n := (tcp_size + opt_len flags + length payload)%nat).
  destruct (put_bytes_spec (with_headroom (eth_size + ip_size) n) (replicate n 0)) as (sk & -> & Wk & Dk & _);
    [apply wf_with_headroom|].
  assert (D0 : data (with_headroom (eth_size + ip_size) n) = []) by apply with_headroom_empty.
  rewrite D0 in Dk. cbn [app] in Dk.
  destruct (tcp_window_prunes rip s) as [c1 Ec1].
  destruct (tcp_receive_window_for_dst rip s) as [s1 window]. simpl in Ec1. subst s1.
  set (hdr := write_tcp _). assert (Hh : length hdr = tcp_size) by apply write_tcp_length.
  assert (Hfin : forall opt cache, opt_ok flags opt ->
    let skb1 := write_at sk 0 hdr in
    let skb2 := if negb (opt_len flags =? 0)%nat then write_at skb1 tcp_size opt else skb1 in
    let skb3 := if negb (bool_decide (payload = [])) then write_at skb2 (tcp_size + opt_len flags) payload else skb2 in
    exists skb cache' window' opt', wf_skb skb /\ opt_ok flags opt' /\
      data skb = tcp_segment lip rip lport rport seq ack flags window' opt' payload /\
      match ip_queue_xmit (write_at skb3 16 (le_store 2 (to_be16 (tcp_checksum lip rip (data skb3))))) lip rip 6
              (set_path_mtu_cache cache s)
      with (s, Ok _) => (s, Ok tt) | (s, Err e) => (s, @Err unit _ e) end =
      match ip_queue_xmit skb lip rip 6 (set_path_mtu_cache cache' s) with
      | (s, Ok _) => (s, Ok tt) | (s, Err e) => (s, Err e) end).
  { intros opt cache Hopt skb1 skb2 skb3.
    destruct (write_segment sk flags hdr opt payload n Wk Hh (proj1 Hopt) eq_refl Dk) as [W3 D3].
    fold skb1 in W3, D3. fold skb2 in W3, D3. fold skb3 in W3, D3.
    assert (L3 : (18 <= len skb3)%nat).
    { rewrite <- len_data, D3, length_app, Hh by done. unfold tcp_size. lia. }
    eexists _, cache, window, opt. split; [|split; [done|split; [|done]]].
    - apply wf_write_at; [done|]. rewrite le_store_length. lia.
    - rewrite data_write_at by (rewrite ?le_store_length; (done || lia)). by rewrite to_be_store, D3. }
  unfold opt_len in *. destruct (has flags TCP_FLAG_SYN) eqn:Es; cbn [TCP_OPTION_MSS_LEN Nat.eqb negb] in *.
  - destruct (tcp_mss_prunes rip (set_path_mtu_cache c1 s)) as [c2 Ec2].
    destruct (tcp_mss_for_dst rip (set_path_mtu_cache c1 s)) as [s2 mss]. cbn [fst] in Ec2. subst s2.
    set (m := u16 (Z.min mss 65535)).
    assert (Hm : 0 <= m <= 65535) by (pose proof (wrap_range 16 (Z.min mss 65535)) as Hr; unfold in_u, m in *; lia).
    apply (Hfin (2 :: 4 :: be_store 2 m) c2). split; [unfold opt_len; by rewrite Es|]. split; [|intros _; by exists m].
    constructor; [unfold is_byte; lia|]. constructor; [unfold is_byte; lia|]. apply be_store_bytes.
  - apply (Hfin [] c1). split; [unfold opt_len; by rewrite Es|]. split; [constructor|]. by rewrite Es.
Qed.

End IO.

(** ** Segmentation over a resolved path *)

Section Wire.
Context {X : Type} `{WireLaws X} `{TcpSocketLayer X} `{BuildConfig} `{!NetDeviceTypes X}.

(** [f] is a frame that carries this segment. *)
Definition carries (dev : DevId) (mac : bytes) (lip rip lport rport seq ack flags : Z) (payload : bytes)
    (f : DevId * bytes) : Prop :=
  exists id window opt, opt_ok flags opt /\
    f = (dev, ip_frame_bytes mac dev (ip_packet id lip rip 6
               (tcp_segment lip rip lport rport seq ack flags window opt payload))).

Lemma tcp_send_segment_resolved lip rip lport rport seq ack flags payload dev mac (s : Net X) :
  resolved s rip dev mac -> length mac = 6%nat ->
  let r := tcp_send_segment lip rip lport rport seq ack flags payload s in
  tx_like s (fst r) /\ (takes dev (54 + opt_len flags + length payload) s -> snd r = Ok tt) /\
  exists f, carries dev mac lip rip lport rport seq ack flags payload f /\
    on_wire (ext (fst r)) = on_wire (ext s) ++ (if is_ok (snd r) then [f] else []).
Proof.
  intros Hres Hm. destruct (tcp_send_segment_spec lip rip lport rport seq ack flags payload s)
    as (skb & cache & window & opt & Wk & Hopt & Dk & ->).
  assert (Htl : tx_like s (set_path_mtu_cache cache s))
    by (exists (ext s), (rng_state s), cache; by destruct s).
  destruct (ip_queue_xmit_resolved skb lip rip 6 dev mac (set_path_mtu_cache cache s)) as (id & Ht & _ & Ew & Hok);
    [by eapply tx_like_resolved|done|done|].
  assert (Hlen : len skb = (20 + opt_len flags + length payload)%nat).
  { rewrite <- len_data, Dk by done. apply tcp_segment_length, Hopt. }
  rewrite Hlen in Hok. rewrite Dk in Ew. set (f := (dev, _)) in Ew.
  assert (Hc : carries dev mac lip rip lport rport seq ack flags payload f) by (by exists id, window, opt).
  destruct (ip_queue_xmit skb lip rip 6 (set_path_mtu_cache cache s)) as [s' [r|e]]; cbn [fst snd is_ok] in *;
    (split; [exact (tx_like_trans _ _ _ Htl Ht)|]; split; [|by exists f]); [done|].
  intros Ha. by specialize (Hok Ha).
Qed.

(** Consecutive sequence numbers. *)
Fixpoint seq_chain (seq : Z) (segs : list (Z * bytes)) : Prop :=
  match segs with
  | [] => True
  | (q, c) :: segs => q = seq /\ seq_chain (u32 (seq + u32 (Z.of_nat (length c)))) segs
  end.

Lemma send_loop_done fuel lip rip lport rport seq ack payload mss sent dev mac (s : Net X) :
  (forall s : Net X, takes dev (54 + mss) s) -> resolved s rip dev mac -> length mac = 6%nat -> (0 < mss)%nat -> in_u 32 seq ->
  (sent <= length payload)%nat -> (length payload - sent <= fuel)%nat ->
  let r := tcp_send_loop fuel lip rip lport rport seq ack payload mss sent s in
  tx_like s (fst r) /\
  snd r = Ok (length payload, u32 (seq + Z.of_nat (length payload - sent))) /\
  exists segs fs, on_wire (ext (fst r)) = on_wire (ext s) ++ fs /\
    Forall2 (fun sc f => carries dev mac lip rip lport rport sc.1 ack (Z.lor TCP_FLAG_ACK TCP_FLAG_PSH) sc.2 f) segs fs /\
    concat (snd <$> segs) = drop sent payload /\
    Forall (fun sc => (0 < length sc.2 <= mss)%nat) segs /\ seq_chain seq segs.
Proof.
  intros Ha Hres Hmac Hm Hq. revert seq sent s Hres Hq.
  induction fuel as [|fuel IH]; intros seq sent s Hres Hq Hs Hf; cbn [tcp_send_loop].
  - assert (sent = length payload) as -> by lia. rewrite Nat.sub_diag, Z.add_0_r, drop_all, wrap_small by done.
    split; [apply tx_like_refl|]. split; [done|]. exists [], []. rewrite app_nil_r. by repeat constructor.
  - case_raw E; to_prop.
    + set (e := Nat.min (sent + mss) (length payload)). set (chunk := slice sent e payload).
      assert (Hcl : length chunk = (e - sent)%nat) by (unfold chunk; rewrite slice_length; lia).
      destruct (tcp_send_segment_resolved lip rip lport rport seq ack (Z.lor TCP_FLAG_ACK TCP_FLAG_PSH) chunk dev mac s)
        as (Ht & Ho & f & Hf1 & Ew); [done..|].
      assert (Ho1 : snd (tcp_send_segment lip rip lport rport seq ack (Z.lor TCP_FLAG_ACK TCP_FLAG_PSH) chunk s) = Ok tt).
      { apply Ho. intros skb s' Es Hlen. apply (Ha s skb s' Es). change (opt_len (Z.lor TCP_FLAG_ACK TCP_FLAG_PSH)) with 0%nat in Hlen. lia. }
      clear Ho. destruct (tcp_send_segment _ _ _ _ _ _ _ _ _) as [s1 r1]. cbn [fst snd] in *. subst r1. simpl in *.
      destruct (IH (u32 (seq + u32 (Z.of_nat (length chunk)))) e s1) as (Ht2 & Ho2 & segs & fs & Ew2 & HF & Hc & Hb & Hch);
        [by eapply tx_like_resolved|by apply wrap_range|lia..|].
      split; [exact (tx_like_trans _ _ _ Ht Ht2)|]. split.
      * rewrite Ho2, wrap_add_l, Z.add_comm, Z.add_assoc, wrap_add_r, Hcl. do 3 f_equal. lia.
      * exists ((seq, chunk) :: segs), (f :: fs). rewrite Ew2, Ew, <- app_assoc. split; [done|].
        split; [by constructor|]. split; [|split; [|by split]].
        -- rewrite fmap_cons. cbn [concat snd]. rewrite Hc. unfold chunk, slice.
           replace (drop e payload) with (drop (e - sent) (drop sent payload)) by (rewrite drop_drop; f_equal; lia).
           apply take_drop.
        -- constructor; [simpl; lia|done].
    + assert (sent = length payload) as -> by lia. rewrite Nat.sub_diag, Z.add_0_r, drop_all, wrap_small by done.
      split; [apply tx_like_refl|]. split; [done|]. exists [], []. rewrite app_nil_r. by repeat constructor.
Qed.

End Wire.

(** ** The connection table as a finite map *)

Definition conn_key (c : KernelTcpConn) : Z * Z * Z * Z :=
  (remote_ip c, local_ip c, remote_port c, local_port c).

Definition conns_wf (conns : list KernelTcpConn) : Prop := NoDup (conn_key <$> conns).

Definition conn_lookup (k : Z * Z * Z * Z) (conns : list KernelTcpConn) : option KernelTcpConn :=
  List.find (fun c => bool_decide (conn_key c = k)) conns.

Lemma conn_matches_key rip lip rport lport c :
  conn_matches rip lip rport lport c = bool_decide (conn_key c = (rip, lip, rport, lport)).
Proof.
  unfold conn_matches, conn_key. apply eq_bool_prop_intro.
  rewrite !andb_True, !Is_true_true, !Z.eqb_eq, bool_decide_eq_true. split; [|naive_solver].
  intros [[[-> ->] ->] ->]. done.
Qed.

Lemma conn_lookup_iff k conns c :
  conns_wf conns -> conn_lookup k conns = Some c <-> c ∈ conns /\ conn_key c = k.
Proof.
  unfold conns_wf, conn_lookup. induction conns as [|d conns IH]; simpl.
  - intros _. split; [done|]. intros [Hin _]. by apply not_elem_of_nil in Hin.
  - intros Hn. apply NoDup_cons in Hn as [Hd Hn]. case_raw E; to_prop.
    + split; [intros [= ->]; split; [left|done]|]. intros [Hin Hk]. apply elem_of_cons in Hin as [->|Hin]; [done|].
      exfalso. apply Hd. rewrite E, <- Hk. by apply list_elem_of_fmap_2.
    + rewrite IH, elem_of_cons by done. split; [intros [? ?]; auto|]. intros [[->|?] ?]; [done|auto].
Qed.

(** Lookup does not depend on the order of a well-formed table. *)
Lemma conn_lookup_perm k l l' : l ≡ₚ l' -> conns_wf l' -> conn_lookup k l = conn_lookup k l'.
Proof.
  intros Hp Hwf'. assert (Hwf : conns_wf l) by (unfold conns_wf; by rewrite Hp).
  apply option_eq. intros c. by rewrite !conn_lookup_iff, Hp by done.
Qed.

Lemma conn_lookup_app k l l' :
  conn_lookup k (l ++ l') = match conn_lookup k l with Some c => Some c | None => conn_lookup k l' end.
Proof. apply find_app_b. Qed.

Lemma conn_lookup_none k l : conn_lookup k l = None <-> ~ (k ∈ conn_key <$> l).
Proof.
  unfold conn_lookup. split.
  - intros Hf Hin. apply list_elem_of_fmap in Hin as (c & -> & Hin). apply list_elem_of_In in Hin.
    apply (List.find_none _ _ Hf) in Hin. to_prop. done.
  - intros Hn. apply find_none_b, Forall_forall. intros c Hc. apply bool_decide_false. intros E.
    apply Hn. rewrite <- E. by apply list_elem_of_fmap_2.
Qed.

(** The table around the connection that a segment belongs to. *)
Lemma find_conn_spec conns rip lip rport lport :
  let k := (rip, lip, rport, lport) in
  match find_kernel_conn_idx conns rip lip rport lport with
  | Some i => exists l1 c l2, conns = l1 ++ c :: l2 /\ length l1 = i /\ conn_key c = k /\
                conn_lookup k conns = Some c
  | None => conn_lookup k conns = None
  end.
Proof.
  cbv zeta. unfold find_kernel_conn_idx.
  pose proof (position_spec (conn_matches rip lip rport lport) conns) as Hp.
  destruct (position _ _) as [i|].
  - destruct Hp as (l1 & c & l2 & -> & <- & Hc & Hf). rewrite conn_matches_key in Hc. to_prop.
    exists l1, c, l2. repeat split; [done|]. rewrite conn_lookup_app.
    replace (conn_lookup _ l1) with (@None KernelTcpConn).
    + unfold conn_lookup; simpl. by rewrite bool_decide_true.
    + symmetry. apply find_none_b. eapply Forall_impl; [exact Hf|]. intros d. cbv beta. by rewrite conn_matches_key.
  - apply find_none_b. eapply Forall_impl; [exact Hp|]. intros d. cbv beta. by rewrite conn_matches_key.
Qed.

Lemma conn_step_key c seq ack flags payload c' :
  fst (kernel_conn_step c seq ack flags payload) = Some c' -> conn_key c' = conn_key c.
Proof.
  unfold kernel_conn_step. destruct (has flags TCP_FLAG_RST); [done|].
  destruct (state c); repeat case_if; intros ?; by simplify_eq/=.
Qed.

Lemma conns_replace l1 c c' l2 :
  conns_wf (l1 ++ c :: l2) -> conn_key c' = conn_key c ->
  conns_wf (l1 ++ c' :: l2) /\
  (forall k, k <> conn_key c -> conn_lookup k (l1 ++ c' :: l2) = conn_lookup k (l1 ++ c :: l2)) /\
  conn_lookup (conn_key c) (l1 ++ c' :: l2) = Some c'.
Proof.
  intros Hwf Hk. assert (Hwf' : conns_wf (l1 ++ c' :: l2)).
  { unfold conns_wf in *. rewrite fmap_app, fmap_cons in *. by rewrite Hk. }
  split; [done|]. split.
  - intros k Hne. rewrite !conn_lookup_app. destruct (conn_lookup k l1); [done|].
    unfold conn_lookup; simpl. by rewrite !bool_decide_false by congruence.
  - apply conn_lookup_iff; [done|]. split; [set_solver|done].
Qed.

Lemma conns_remove l1 c l2 :
  conns_wf (l1 ++ c :: l2) ->
  let l := swap_remove (length l1) (l1 ++ c :: l2) in
  conns_wf l /\ (forall k, k <> conn_key c -> conn_lookup k l = conn_lookup k (l1 ++ c :: l2)) /\
  conn_lookup (conn_key c) l = None.
Proof.
  intros Hwf l. pose proof (swap_remove_perm l1 c l2) as Hp. fold l in Hp.
  assert (Hwf2 : (conn_key c ∉ (conn_key <$> (l1 ++ l2))) /\ conns_wf (l1 ++ l2)).
  { unfold conns_wf in *. rewrite fmap_app, fmap_cons, NoDup_app, NoDup_cons in Hwf.
    rewrite !fmap_app, elem_of_app, NoDup_app.
    destruct Hwf as (H1 & H2 & H3 & H4). split; [|split; [done|split; [|done]]].
    - intros [Hin|Hin]; [|done]. apply (H2 _ Hin). left.
    - intros x Hx Hx'. apply (H2 x Hx). by right. }
  destruct Hwf2 as [Hnin Hwf2]. split; [unfold conns_wf; by rewrite Hp|]. split.
  - intros k Hne. rewrite (conn_lookup_perm k l (l1 ++ l2)) by done. rewrite !conn_lookup_app.
    destruct (conn_lookup k l1); [done|]. unfold conn_lookup; simpl. by rewrite bool_decide_false by congruence.
  - rewrite (conn_lookup_perm _ l (l1 ++ l2)) by done. by apply conn_lookup_none.
Qed.

(** The new connection that a SYN to the service port opens. *)
Definition syn_conn (iss src_ip dst_ip src_port dst_port seq : Z) : KernelTcpConn :=
  mkConn src_ip dst_ip src_port dst_port SynReceived (u32 (iss + 1)) (u32 (seq + 1)).

Definition opens (dst_port flags : Z) : bool :=
  (dst_port =? KERNEL_TCP_SERVICE_PORT) && has flags TCP_FLAG_SYN && negb (has flags TCP_FLAG_ACK).

Lemma kernel_service_spec conns iss sip dip sport dport seq ack flags payload :
  conns_wf conns ->
  let k := (sip, dip, sport, dport) in
  let '(conns', iss', pending, handled) :=
    kernel_service_step conns iss sip dip sport dport seq ack flags payload in
  conns_wf conns' /\ (forall k', k' <> k -> conn_lookup k' conns' = conn_lookup k' conns) /\
  match conn_lookup k conns with
  | Some c => handled = true /\ iss' = iss /\
      (conn_lookup k conns', pending) = kernel_conn_step c seq ack flags payload
  | None =>
      if opens dport flags then
        handled = true /\ iss' = u32 (iss + 4096) /\
        conn_lookup k conns' = Some (syn_conn iss sip dip sport dport seq) /\
        pending = [mkTx dip sip dport sport iss (u32 (seq + 1)) (Z.lor TCP_FLAG_SYN TCP_FLAG_ACK) []]
      else handled = false /\ iss' = iss /\ conns' = conns /\ pending = []
  end.
Proof.
  intros Hwf k. unfold kernel_service_step.
  pose proof (find_conn_spec conns sip dip sport dport) as Hf. cbv zeta in Hf. fold k in Hf.
  destruct (find_kernel_conn_idx conns sip dip sport dport) as [i|].
  - destruct Hf as (l1 & c & l2 & -> & <- & Hk & Hl). rewrite list_lookup_middle by done. rewrite Hl.
    pose proof (conn_step_key c seq ack flags payload) as Hck.
    destruct (kernel_conn_step c seq ack flags payload) as [[c'|] pending].
    + rewrite insert_app_r_alt, Nat.sub_diag by done. cbn [insert list_insert].
      destruct (conns_replace l1 c c' l2) as (H1 & H2 & H3); [done|by apply Hck|]. rewrite Hk in *.
      by rewrite H3.
    + destruct (conns_remove l1 c l2) as (H1 & H2 & H3); [done|]. rewrite Hk in *. by rewrite H3.
  - rewrite Hf. fold (opens dport flags). destruct (opens dport flags); [|done].
    fold (syn_conn iss sip dip sport dport seq).
    assert (Hnin : k ∉ (conn_key <$> conns)) by (by apply conn_lookup_none).
    assert (Hwf' : conns_wf (conns ++ [syn_conn iss sip dip sport dport seq])).
    { unfold conns_wf in *. rewrite fmap_app, NoDup_app. split; [done|]. split; [|apply NoDup_singleton].
      intros x Hx Hx'. apply list_elem_of_singleton in Hx'. by subst. }
    split; [done|]. split; [|split; [done|split; [done|split; [|done]]]].
    + intros k' Hne. rewrite conn_lookup_app. destruct (conn_lookup k' conns); [done|].
      unfold conn_lookup; simpl. rewrite bool_decide_false; [done|]. by intros E.
    + apply conn_lookup_iff; [done|]. split; [set_solver|done].
Qed.

(** ** Runs of the echo service *)

Inductive service_run : list KernelTcpConn -> Z -> Prop :=
| run_boot : service_run [] 305397760
| run_segment conns iss sip dip sport dport seq ack flags payload conns' iss' pending handled :
    service_run conns iss ->
    kernel_service_step conns iss sip dip sport dport seq ack flags payload = (conns', iss', pending, handled) ->
    service_run conns' iss'.

Lemma service_run_wf conns iss : service_run conns iss -> conns_wf conns.
Proof.
  induction 1 as [|conns iss sip dip sport dport seq ack flags payload conns' iss' pending handled _ IH E].
  - constructor.
  - pose proof (kernel_service_spec conns iss sip dip sport dport seq ack flags payload IH) as Hs.
    cbv zeta in Hs. rewrite E in Hs. by destruct Hs.
Qed.

(** Every answer belongs to the connection it answers, which stays in the table. *)
Lemma conn_step_answers c seq ack flags payload c' pending :
  kernel_conn_step c seq ack flags payload = (c', pending) ->
  pending <> [] -> is_Some c' /\
  Forall (fun tx => tx_local_ip tx = local_ip c /\ tx_remote_ip tx = remote_ip c /\
                    tx_local_port tx = local_port c /\ tx_remote_port tx = remote_port c) pending.
Proof.
  unfold kernel_conn_step. destruct (has flags TCP_FLAG_RST); [by intros [= <- <-]|].
  destruct (state c); repeat case_if; intros [= <- <-]; try done; intros _; split; eauto; by repeat constructor.
Qed.

Lemma reflection_lookup {X} (s : Net X) sip dip sport dport c :
  conns_wf (kernel_tcp_conns s) -> conn_lookup (sip, dip, sport, dport) (kernel_tcp_conns s) = Some c ->
  is_kernel_service_reflection s dip sip dport sport = true.
Proof.
  intros Hwf Hl. apply conn_lookup_iff in Hl as [Hin Hk]; [|done]. unfold is_kernel_service_reflection.
  apply existsb_exists. exists c. rewrite <- list_elem_of_In. split; [done|].
  unfold conn_key in Hk. injection Hk as -> -> -> ->. by rewrite !Z.eqb_refl.
Qed.

(** ** Main properties *)

(** the kernel echo service, in every reachable state of its table and on
    every segment: there is at most one connection per address and port pair,
    a segment touches only its own connection, every segment the service sends
    goes back to the sender of the one it answers, and, if the loopback device
    feeds it back, it is recognised as the service's own and not answered. *)
Theorem kernel_service_safe {X} (s : Net X) conns iss sip dip sport dport seq ack flags payload conns' iss' pending handled :
  service_run conns iss ->
  kernel_service_step conns iss sip dip sport dport seq ack flags payload = (conns', iss', pending, handled) ->
  conns_wf conns' /\
  (forall k, k <> (sip, dip, sport, dport) -> conn_lookup k conns' = conn_lookup k conns) /\
  (pending <> [] -> handled = true) /\
  Forall (fun tx =>
    (tx_local_ip tx, tx_remote_ip tx, tx_local_port tx, tx_remote_port tx) = (dip, sip, dport, sport) /\
    is_kernel_service_reflection (set_kernel_tcp_conns conns' s)
      (tx_local_ip tx) (tx_remote_ip tx) (tx_local_port tx) (tx_remote_port tx) = true) pending.
Proof.
  intros Hrun E. pose proof (service_run_wf _ _ Hrun) as Hwf.
  pose proof (kernel_service_spec conns iss sip dip sport dport seq ack flags payload Hwf) as Hs.
  cbv zeta in Hs. rewrite E in Hs. destruct Hs as (Hwf' & Ho & Hs). split; [done|]. split; [done|].
  assert (Hrefl : forall c, conn_lookup (sip, dip, sport, dport) conns' = Some c ->
    is_kernel_service_reflection (set_kernel_tcp_conns conns' s) dip sip dport sport = true).
  { intros c Hc. by eapply reflection_lookup. }
  destruct (conn_lookup (sip, dip, sport, dport) conns) as [c|] eqn:Hl.
  - destruct Hs as (-> & _ & Hst). split; [done|]. apply conn_lookup_iff in Hl as [_ Hk]; [|done].
    destruct pending as [|tx pending]; [constructor|].
    destruct (conn_step_answers _ _ _ _ _ _ _ (eq_sym Hst)) as [[c' Hc'] Hf]; [done|].
    eapply Forall_impl; [exact Hf|]. intros t (-> & -> & -> & ->). unfold conn_key in Hk. injection Hk as -> -> -> ->.
    split; [done|]. by apply (Hrefl c').
  - destruct (opens dport flags).
    + destruct Hs as (-> & _ & Hc & ->). split; [done|]. apply Forall_singleton. split; [done|]. by eapply Hrefl.
    + destruct Hs as (-> & _ & _ & ->). done.
Qed.

Lemma kernel_service_safe_witness :
  Forall (fun tx => is_kernel_service_reflection (set_kernel_tcp_conns
      (kernel_service_step [] 305397760 9 7 1234 8080 100 0 2 []).1.1.1 TestWire.host)
      (tx_local_ip tx) (tx_remote_ip tx) (tx_local_port tx) (tx_remote_port tx) = true)
    (kernel_service_step [] 305397760 9 7 1234 8080 100 0 2 []).1.2.
Proof.
  destruct (kernel_service_step [] 305397760 9 7 1234 8080 100 0 2 []) as [[[c i] p] h] eqn:E.
  destruct (kernel_service_safe TestWire.host _ _ _ _ _ _ _ _ _ _ _ _ _ _ run_boot E) as (_ & _ & _ & Hf).
  simpl. eapply Forall_impl; [exact Hf|]. intros tx [_ Ht]. exact Ht.
Defined.

(** a whole session with the echo service.  For a peer with no connection:
    its SYN is answered by SYN+ACK acknowledging it, the matching ACK
    establishes the connection, data are acknowledged and sent back unchanged,
    FIN is acknowledged and answered by FIN, and the final ACK removes the
    connection; nobody else's connection changes on the way. *)
Theorem kernel_echo_session conns iss sip dip sport seq payload :
  conns_wf conns -> payload <> [] ->
  let k := (sip, dip, sport, 8080) in
  let reply := mkTx dip sip 8080 sport in
  let step conns iss := kernel_service_step conns iss sip dip sport 8080 in
  let q1 := u32 (seq + 1) in
  let q2 := u32 (q1 + u32 (Z.of_nat (length payload))) in
  let r1 := u32 (iss + 1) in
  let r2 := u32 (r1 + u32 (Z.of_nat (length payload))) in
  conn_lookup k conns = None ->
  exists c1 c2 c3 c4 c5 i1,
    step conns iss seq 0 TCP_FLAG_SYN [] = (c1, i1, [reply iss q1 (Z.lor TCP_FLAG_SYN TCP_FLAG_ACK) []], true) /\
    step c1 i1 q1 r1 TCP_FLAG_ACK [] = (c2, i1, [], true) /\
    step c2 i1 q1 r1 (Z.lor TCP_FLAG_ACK TCP_FLAG_PSH) payload =
      (c3, i1, [reply r1 q2 TCP_FLAG_ACK []; reply r1 q2 (Z.lor TCP_FLAG_ACK TCP_FLAG_PSH) payload], true) /\
    step c3 i1 q2 r2 (Z.lor TCP_FLAG_FIN TCP_FLAG_ACK) [] =
      (c4, i1, [reply r2 (u32 (q2 + 1)) TCP_FLAG_ACK [];
                reply r2 (u32 (q2 + 1)) (Z.lor TCP_FLAG_FIN TCP_FLAG_ACK) []], true) /\
    step c4 i1 (u32 (q2 + 1)) (u32 (r2 + 1)) TCP_FLAG_ACK [] = (c5, i1, [], true) /\
    conn_lookup k c5 = None /\ forall k', k' <> k -> conn_lookup k' c5 = conn_lookup k' conns.
Proof.
  intros Hwf Hp k reply step q1 q2 r1 r2 Hn.
  assert (Hstep : forall cs i q a f p c c' pend, conns_wf cs -> conn_lookup k cs = Some c ->
    kernel_conn_step c q a f p = (c', pend) ->
    exists cs', step cs i q a f p = (cs', i, pend, true) /\ conns_wf cs' /\ conn_lookup k cs' = c' /\
      forall k', k' <> k -> conn_lookup k' cs' = conn_lookup k' cs).
  { intros cs i q a f p c c' pend Hw Hl Hc.
    pose proof (kernel_service_spec cs i sip dip sport 8080 q a f p Hw) as Hs. cbv zeta in Hs. fold k in Hs.
    unfold step. destruct (kernel_service_step _ _ _ _ _ _ _ _ _ _) as [[[cs' i'] pe] h].
    destruct Hs as (Hw' & Ho & Hs). rewrite Hl in Hs. destruct Hs as (-> & -> & Hs). rewrite Hc in Hs.
    injection Hs as Hs1 ->. by exists cs'. }
  pose proof (kernel_service_spec conns iss sip dip sport 8080 seq 0 TCP_FLAG_SYN [] Hwf) as H1.
  cbv zeta in H1. fold k in H1. rewrite Hn in H1. unfold step at 1.
  destruct (kernel_service_step conns iss _ _ _ _ _ _ _ _) as [[[c1 i1] p1] h1].
  destruct H1 as (Hw1 & Ho1 & -> & Hi & Hl1 & ->).
  destruct (Hstep c1 i1 q1 r1 TCP_FLAG_ACK [] _ (Some (set_conn (syn_conn iss sip dip sport 8080 seq) Established r1 q1)) [] Hw1 Hl1)
    as (c2 & E2 & Hw2 & Hl2 & Ho2).
  { unfold kernel_conn_step; simpl. unfold r1. by rewrite Z.eqb_refl. }
  destruct (Hstep c2 i1 q1 r1 (Z.lor TCP_FLAG_ACK TCP_FLAG_PSH) payload _
    (Some (set_conn (syn_conn iss sip dip sport 8080 seq) Established r2 q2))
    [reply r1 q2 TCP_FLAG_ACK []; reply r1 q2 (Z.lor TCP_FLAG_ACK TCP_FLAG_PSH) payload] Hw2 Hl2)
    as (c3 & E3 & Hw3 & Hl3 & Ho3).
  { unfold kernel_conn_step; simpl. by rewrite bool_decide_false. }
  destruct (Hstep c3 i1 q2 r2 (Z.lor TCP_FLAG_FIN TCP_FLAG_ACK) [] _
    (Some (set_conn (syn_conn iss sip dip sport 8080 seq) LastAck (u32 (r2 + 1)) (u32 (q2 + 1))))
    [reply r2 (u32 (q2 + 1)) TCP_FLAG_ACK []; reply r2 (u32 (q2 + 1)) (Z.lor TCP_FLAG_FIN TCP_FLAG_ACK) []] Hw3 Hl3)
    as (c4 & E4 & Hw4 & Hl4 & Ho4); [done|].
  destruct (Hstep c4 i1 (u32 (q2 + 1)) (u32 (r2 + 1)) TCP_FLAG_ACK [] _ None [] Hw4 Hl4)
    as (c5 & E5 & Hw5 & Hl5 & Ho5).
  { unfold kernel_conn_step; simpl. by rewrite Z.eqb_refl. }
  exists c1, c2, c3, c4, c5, i1. repeat (split; [done|]).
  intros k' Hk'. rewrite Ho5, Ho4, Ho3, Ho2, Ho1 by done. done.
Qed.

Lemma kernel_echo_session_witness :
  exists c1 i1, kernel_service_step [] 1000 9 7 1234 8080 100 0 TCP_FLAG_SYN [] =
    (c1, i1, [mkTx 7 9 8080 1234 1000 101 18 []], true).
Proof.
  destruct (kernel_echo_session [] 1000 9 7 1234 100 [104; 105]) as (c1 & _ & _ & _ & _ & i1 & E & _);
    [constructor|discriminate|reflexivity|]. exists c1, i1. exact E.
Defined.

Section Claims.
Context {X : Type} `{WireLaws X} `{TcpSocketLayer X} `{BuildConfig} `{!NetDeviceTypes X}.

(** [tcp_send_data] transmits the whole payload.  Over a resolved path on
    which the driver accepts frames it terminates with all bytes sent and the
    sequence number advanced by their count; the frames it puts on the wire carry
    consecutive segments whose payloads, in order, concatenate to the payload,
    none of them empty or larger than the segment size for the destination. *)
Theorem tcp_send_data_complete lip rip lport rport seq ack payload dev mac (s : Net X) :
  (forall s' : Net X, takes dev (54 + Z.to_nat (snd (tcp_mss_for_dst rip s))) s') ->
  resolved s rip dev mac -> length mac = 6%nat -> in_u 32 seq ->
  let r := tcp_send_data lip rip lport rport seq ack payload s in
  snd r = Ok (length payload, u32 (seq + Z.of_nat (length payload))) /\
  exists segs fs, on_wire (ext (fst r)) = on_wire (ext s) ++ fs /\
    Forall2 (fun sc f => carries dev mac lip rip lport rport sc.1 ack (Z.lor TCP_FLAG_ACK TCP_FLAG_PSH) sc.2 f) segs fs /\
    concat (snd <$> segs) = payload /\
    Forall (fun sc => 0 < Z.of_nat (length sc.2) <= snd (tcp_mss_for_dst rip s)) segs /\ seq_chain seq segs.
Proof.
  intros Ha Hres Hmac Hq. unfold tcp_send_data. case_if.
  - subst. simpl. rewrite Z.add_0_r, wrap_small by done. split; [done|]. exists [], []. rewrite app_nil_r.
    by repeat constructor.
  - assert (Hm : 1 <= snd (tcp_mss_for_dst rip s)) by (rewrite tcp_mss_effective; unfold tcp_mss_from_mtu; lia).
    destruct (tcp_mss_prunes rip s) as [c Ec]. destruct (tcp_mss_for_dst rip s) as [s1 mss]. cbn [fst snd] in *. subst s1.
    assert (Htl : tx_like s (set_path_mtu_cache c s)) by (exists (ext s), (rng_state s), c; by destruct s).
    destruct (send_loop_done (length payload) lip rip lport rport seq ack payload (Z.to_nat mss) 0 dev mac
      (set_path_mtu_cache c s)) as (_ & Ho & segs & fs & Ew & HF & Hc & Hb & Hch);
      [done|by eapply tx_like_resolved|done|lia|done|lia|lia|].
    rewrite Nat.sub_0_r in Ho. split; [done|]. exists segs, fs. rewrite drop_0 in Hc.
    repeat (split; [done|]). split; [|done]. eapply Forall_impl; [exact Hb|]. simpl. lia.
Qed.

Lemma set_kernel_same (s : Net X) :
  set_kernel_next_iss (kernel_next_iss s) (set_kernel_tcp_conns (kernel_tcp_conns s) s) = s.
Proof. by destruct s. Qed.

(** A segment nobody takes: no user socket, no reflection, no echo connection. *)
Record unclaimed (s : Net X) (sip dip sport dport flags : Z) : Prop := {
  no_socket : forall a b c d q k f p (s : Net X), dispatch_tcp_segment a b c d q k f p s = (s, false);
  not_silenced : forall ip port (s : Net X), should_silence_unmatched_syn ip port s = (s, false);
  no_reflection : is_kernel_service_reflection s sip dip sport dport = false;
  no_conn : conn_lookup (sip, dip, sport, dport) (kernel_tcp_conns s) = None;
  no_open : opens dport flags = false }.

Lemma unclaimed_dispatch (s : Net X) sip dip sport dport seq ack flags payload n :
  unclaimed s sip dip sport dport flags ->
  try_dispatch_or_rst sip dip sport dport seq ack flags payload n s =
  (send_unmatched_rst sip dip sport dport seq ack flags n s, false).
Proof.
  intros [Hs Hsil Hr Hc Ho]. unfold try_dispatch_or_rst. rewrite Hs, Hr.
  unfold dispatch_kernel_tcp_service, kernel_service_step.
  pose proof (find_conn_spec (kernel_tcp_conns s) sip dip sport dport) as Hf. cbv zeta in Hf.
  destruct (find_kernel_conn_idx _ _ _ _ _); [destruct Hf as (l1 & c & l2 & _ & _ & _ & E); congruence|].
  unfold opens in Ho. rewrite Ho. cbn [send_pending]. rewrite set_kernel_same, Hsil.
  by destruct (has flags TCP_FLAG_SYN && negb (has flags TCP_FLAG_ACK)).
Qed.

Lemma tcp_seq_advance_eq seq flags n :
  tcp_seq_advance seq flags n =
  (seq + Z.of_nat n + Z.b2z (has flags TCP_FLAG_SYN) + Z.b2z (has flags TCP_FLAG_FIN)) mod 2 ^ 32.
Proof.
  unfold tcp_seq_advance, wrap. rewrite Zplus_mod_idemp_r, Zplus_mod_idemp_l. f_equal. lia.
Qed.

(** resets.  A valid segment that nobody claims is answered, over a
    resolved path, by exactly one segment: a reset that takes its sequence number
    from the acknowledgement if there was one, and otherwise acknowledges
    everything the segment occupied; a segment that is itself a reset is never
    answered. *)
Theorem closed_port_reset sip dip sport dport seq ack flags window opt payload skb dev mac (s : Net X) :
  in_u 32 sip -> in_u 32 dip -> in_u 16 sport -> in_u 16 dport -> in_u 32 seq -> in_u 32 ack -> in_u 8 flags ->
  opt_ok flags opt -> is_bytes payload -> Z.of_nat (length payload) + 24 <= 65535 ->
  takes dev 54 s -> resolved s sip dev mac -> length mac = 6%nat -> unclaimed s sip dip sport dport flags ->
  wf_skb skb -> data skb = tcp_segment sip dip sport dport seq ack flags window opt payload ->
  let s' := fst (tcp_rcv skb sip dip s) in
  if has flags TCP_FLAG_RST then s' = s
  else exists f, on_wire (ext s') = on_wire (ext s) ++ [f] /\
    if has flags TCP_FLAG_ACK
    then carries dev mac dip sip dport sport ack 0 TCP_FLAG_RST [] f
    else carries dev mac dip sip dport sport 0
           ((seq + Z.of_nat (length payload) + Z.b2z (has flags TCP_FLAG_SYN) + Z.b2z (has flags TCP_FLAG_FIN))
            mod 2 ^ 32) (Z.lor TCP_FLAG_RST TCP_FLAG_ACK) [] f.
Proof.
  intros Hsip Hdip Hsp Hdp Hseq Hack Hfl Hopt Hpl Hlen Ha Hres Hmac Hun Hw Hd s'.
  destruct (tcp_rcv_segment sip dip sport dport seq ack flags window opt payload skb s)
    as (skb' & _ & _ & E); [done..|]. unfold s'. rewrite E. simpl. unfold tcp_input.
  destruct (has flags TCP_FLAG_RST) eqn:Er; [by rewrite (no_socket _ _ _ _ _ _ Hun)|].
  rewrite (unclaimed_dispatch s sip dip sport dport seq ack flags payload (length payload) Hun). simpl.
  assert (Eif : forall (b : bool) (a : Net X), (if b then a else a) = a) by (by intros []).
  rewrite Eif. unfold send_unmatched_rst. rewrite Er.
  destruct (has flags TCP_FLAG_ACK).
  - destruct (tcp_send_segment_resolved dip sip dport sport ack 0 TCP_FLAG_RST [] dev mac s Hres Hmac)
      as (_ & Ho & f & Hf & Ew). rewrite (Ho Ha) in Ew. by exists f.
  - rewrite <- tcp_seq_advance_eq.
    destruct (tcp_send_segment_resolved dip sip dport sport 0 (tcp_seq_advance seq flags (length payload))
      (Z.lor TCP_FLAG_RST TCP_FLAG_ACK) [] dev mac s Hres Hmac) as (_ & Ho & f & Hf & Ew). rewrite (Ho Ha) in Ew. by exists f.
Qed.

End Claims.

(** ** Witnesses *)

Import TestWire.

#[local] Instance demo_config : BuildConfig := { board := Qemu }.

(** The gateway 10.0.2.2 is resolved; 1.1.1.1 is reached through it. *)
Definition demo_host : Net WireLog :=
  set_arp_cache {[167772674 := mkArpEntry [2; 0; 0; 0; 0; 2] 15%nat]} host.

Lemma demo_resolved : resolved demo_host 16843009 15%nat [2; 0; 0; 0; 0; 2].
Proof. split; [by exists 167772674|discriminate|reflexivity]. Qed.

Lemma demo_takes d n (s : Net WireLog) : (n <= 1514)%nat -> takes d n s.
Proof. intros Hn skb s' _ Hl. cbn [hard_start_xmit devices]. by rewrite (proj2 (Nat.ltb_ge _ _)) by lia. Qed.

Lemma tcp_send_data_complete_witness :
  snd (tcp_send_data 167772687 16843009 4000 80 4294967295 7 [1; 2; 3] demo_host) = Ok (3%nat, 2).
Proof.
  exact (proj1 (tcp_send_data_complete 167772687 16843009 4000 80 4294967295 7 [1; 2; 3] 15 [2; 0; 0; 0; 0; 2]
    demo_host (fun s => demo_takes 15 (54 + Z.to_nat (snd (tcp_mss_for_dst 16843009 demo_host))) s ltac:(apply Nat.leb_le; vm_compute; reflexivity)) demo_resolved eq_refl ltac:(unfold in_u; lia))).
Defined.

Definition demo_syn : Skb :=
  default (skb_new 0) (put_bytes (skb_new 24)
    (tcp_segment 16843009 167772687 4000 81 100 0 2 65535 [2; 4; 5; 180] [])).

Lemma closed_port_reset_witness :
  exists f, on_wire (ext (fst (tcp_rcv demo_syn 16843009 167772687 demo_host))) = [f] /\
    carries 15 [2; 0; 0; 0; 0; 2] 167772687 16843009 81 4000 0 101 20 [] f.
Proof.
  assert (Hopt : opt_ok 2 [2; 4; 5; 180]).
  { split; [reflexivity|]. split; [repeat constructor; unfold is_byte; lia|]. intros _. exists 1460. split; [lia|reflexivity]. }
  assert (Hu : unclaimed demo_host 16843009 167772687 4000 81 2) by (split; reflexivity).
  assert (Hw : wf_skb demo_syn) by (split; apply Nat.leb_le; vm_compute; reflexivity).
  pose proof (closed_port_reset 16843009 167772687 4000 81 100 0 2 65535 [2; 4; 5; 180] [] demo_syn 15
    [2; 0; 0; 0; 0; 2] demo_host) as Hc. unfold in_u in Hc.
  destruct Hc as (f & Ew & Hf); [lia..|exact Hopt|constructor|simpl; lia|apply demo_takes; lia|exact demo_resolved|reflexivity|
    exact Hu|exact Hw|vm_compute; reflexivity|]. exists f. split; [exact Ew|exact Hf].
Defined.
