(* ===== verification/Ip.v ===== *)
(** * ICMP, IPv4 reception and the Ethernet entry point
    (os/src/net/icmp.rs, ip.rs, ethernet.rs)

    The receive path from a frame to the transport protocols, echo replies,
    and path MTU feedback. *)

From S2P Require Import Prelude Skb Wire Checksum NetState Neighbor IpOut Udp Pmtu Tcp.

(** ** ICMP *)

Definition MTU_PLATEAUS : list Z := [65535; 32000; 17914; 8166; 4352; 2002; 1492; 1006; 508; 296; 68].

Definition legacy_next_hop_mtu (original_len : Z) : Z :=
  default IPV4_MIN_PATH_MTU (List.find (fun mtu => mtu <? original_len) MTU_PLATEAUS).

Section Ops.
Context {X : Type} `{NetDevices X} `{TcpSocketLayer X} `{BuildConfig}.

Definition handle_fragmentation_needed (skb : Skb) (local : Z) (s : Net X) : Net X * result unit string :=
  let d := data skb in
  if (length d <? 8 + 20 + 8)%nat then (s, Err "ICMP fragmentation-needed packet too short"%string)
  else
    let quoted := drop 8 d in
    if negb (Z.shiftr (byte_at 0 quoted) 4 =? 4) then (s, Err "ICMP quote is not IPv4"%string)
    else
      let ihl := Z.to_nat (Z.land (byte_at 0 quoted) 15 * 4) in
      if (ihl <? 20)%nat || (length quoted <? ihl + 8)%nat
      then (s, Err "ICMP quoted IPv4 header truncated"%string)
      else if negb (icmp_csum (take ihl quoted) =? 0)
      then (s, Err "ICMP quoted IPv4 checksum invalid"%string)
      else
        let original_len := be_load (slice 2 4 quoted) in
        if original_len <? Z.of_nat (ihl + 8) then (s, Err "ICMP quoted IPv4 length invalid"%string)
        else if negb (byte_at 9 quoted =? 6) then (s, Ok tt)
        else
          let original_src := be_load (slice 12 16 quoted) in
          let original_dst := be_load (slice 16 20 quoted) in
          if negb (original_src =? local) && negb (is_local_ip s original_src)
          then (s, Err "ICMP quote does not reference a local packet"%string)
          else
            let tcp := slice ihl (ihl + 8) quoted in
            let lport := be_load (slice 0 2 tcp) in
            let rport := be_load (slice 2 4 tcp) in
            let quoted_seq := be_load (slice 4 8 tcp) in
            let reported_mtu := be_load (slice 6 8 d) in
            let next_hop_mtu :=
              if reported_mtu =? 0 then legacy_next_hop_mtu original_len else reported_mtu in
            if (next_hop_mtu <? IPV4_MIN_PATH_MTU) || (original_len <=? next_hop_mtu)
            then (s, Err "ICMP next-hop MTU invalid"%string)
            else
              match update_path_mtu original_dst next_hop_mtu s with
              | (s, Some new_mss) =>
                  (handle_pmtu_update original_src lport original_dst rport quoted_seq new_mss s, Ok tt)
              | (s, None) => (s, Ok tt)
              end.

Definition icmp_reply (skb : Skb) (src_ip dst_ip : Z) (s : Net X) : Net X * Rx :=
  let src := dst_ip in
  let dst := src_ip in
  let skb := write_at (write_at skb 0 [ECHO_REPLY]) 2 [0; 0] in
  let checksum := icmp_csum (data skb) in
  let skb := write_at skb 2 (be_store 2 checksum) in
  let verify := icmp_csum (data skb) in
  if negb (verify =? 0) then (s, Err "ICMP checksum self-check failed"%string)
  else ip_queue_xmit skb src dst 1 s.

Definition icmp_rcv (skb : Skb) (src_ip dst_ip : Z) (s : Net X) : Net X * Rx :=
  if (len skb <? icmp_size)%nat then (s, Err "ICMP packet too short"%string)
  else if negb (icmp_csum (data skb) =? 0) then (s, Err "Invalid ICMP checksum"%string)
  else
    let icmp := read_icmp (data skb) in
    if type_ icmp =? ECHO_REQUEST then icmp_reply skb src_ip dst_ip s
    else if type_ icmp =? ECHO_REPLY then (s, Ok (skb, 0, 0))
    else if (type_ icmp =? DESTINATION_UNREACHABLE) && (icmp_code icmp =? FRAGMENTATION_NEEDED) then
      match handle_fragmentation_needed skb dst_ip s with
      | (s, Err e) => (s, Err e)
      | (s, Ok _) => (s, Ok (skb, src_ip, 0))
      end
    else (s, Err "Unsupported ICMP type"%string).

(** ** IPv4 reception *)

(** The dispatch on the protocol number. *)
Definition ip_deliver (proto : Z) (skb : Skb) (src dst : Z) (s : Net X) : Net X * Rx :=
  if proto =? 1 then icmp_rcv skb src dst (fst (deliver_raw_packet 1 (clone skb) src s))
  else if proto =? 17 then udp_rcv skb src dst (fst (deliver_raw_packet 17 (clone skb) src s))
  else if proto =? 6 then tcp_rcv skb src dst (fst (deliver_raw_packet 6 (clone skb) src s))
  else
    let '(s, delivered) := deliver_raw_packet proto (clone skb) src s in
    if delivered then (s, Ok (skb, src, 0)) else (s, Err "Unsupported protocol"%string).

Definition ip_rcv (skb : Skb) (s : Net X) : Net X * Rx :=
  if (len skb <? ip_size)%nat then (s, Err "IP packet too short"%string)
  else
    let h := read_ip (data skb) in
    if negb (version h =? 4) then (s, Err "Not IPv4"%string)
    else
      let ihl_ := Z.to_nat (ihl h) in
      if (len skb <? ihl_)%nat then (s, Err "IP header truncated"%string)
      else if negb (ip_checksum (take ihl_ (data skb)) =? 0) then (s, Err "Invalid IP checksum"%string)
      else
        let total_len_ := Z.to_nat (total_len h) in
        if (total_len_ <? ihl_)%nat || (len skb <? total_len_)%nat
        then (s, Err "Invalid IP total length"%string)
        else
          let src := src_addr h in
          let dst := dst_addr h in
          if is_local_ip s dst then
            let padding := (len skb - total_len_)%nat in
            let skb := if negb (padding =? 0)%nat then trim_ skb padding else skb in
            let skb := pull_ skb ihl_ in
            ip_deliver (protocol h) skb src dst s
          else (s, Err "Not for local"%string).

(** ** Ethernet reception *)

Definition ethernet_rcv (skb : Skb) (dev : DevId) (s : Net X) : Net X * Rx :=
  if (len skb <? eth_size)%nat then (s, Err "Ethernet frame too short"%string)
  else
    let ethertype_ := from_be16 (ethertype (read_eth (data skb))) in
    let skb := pull_ (set_dev skb (Some dev)) eth_size in
    if ethertype_ =? ETH_P_IP then ip_rcv skb s
    else if ethertype_ =? ETH_P_ARP then (arp_rcv skb dev s, Ok rx_none)
    else (s, Err "Unsupported ethertype"%string).

End Ops.

(** ** Receiving what [ip_queue_xmit] wrote *)

Section Receive.
Context {X : Type} `{NetDevices X} `{TcpSocketLayer X} `{BuildConfig}.

Lemma ip_rcv_packet skb id src dst proto payload pad (s : Net X) :
  wf_skb skb -> data skb = ip_packet id src dst proto payload ++ pad ->
  in_u 32 src -> in_u 32 dst -> in_u 8 proto -> Z.of_nat (length payload) + 20 <= 65535 ->
  is_local_ip s dst = true ->
  exists skb', wf_skb skb' /\ data skb' = payload /\ ip_rcv skb s = ip_deliver proto skb' src dst s.
Proof.
  intros Hw Hd Hs Ht Hp Hlen Hloc. unfold ip_packet in Hd. rewrite <- app_assoc in Hd.
  set (hdr := ip_hdr _ id src dst proto) in Hd.
  assert (Hh : length hdr = 20%nat) by apply ip_hdr_length.
  assert (Hl : len skb = (20 + length payload + length pad)%nat)
    by (rewrite <- len_data, Hd, !length_app, Hh by done; lia).
  destruct (read_ip_hdr (Z.of_nat (length payload) + 20) id src dst proto (payload ++ pad) Hp) as [c Hr].
  fold hdr in Hr. rewrite <- Hd in Hr.
  unfold ip_rcv. case_if; [unfold ip_size in *; lia|]. rewrite Hr.
  change (version _) with 4. change (Z.to_nat (ihl _)) with 20%nat. cbn [Z.eqb Pos.eqb negb].
  case_if; [lia|]. rewrite Hd, take_app_length' by done. unfold hdr at 1. rewrite ip_hdr_valid. cbn [Z.eqb negb].
  unfold total_len, src_addr, dst_addr; cbn [total_len_raw src_addr_raw dst_addr_raw protocol].
  rewrite !swap_swap. change (8 * Z.of_nat 2) with 16. change (8 * Z.of_nat 4) with 32. rewrite wrap_wrap.
  rewrite (wrap_small 32 src), (wrap_small 32 dst), (wrap_small 16 (_ + 20)) by (done || unfold in_u; lia).
  replace (Z.to_nat (Z.of_nat (length payload) + 20)) with (20 + length payload)%nat by lia.
  case_if; [destruct E1; to_prop; lia|]. rewrite Hloc.
  set (sk := if _ : bool then _ else _).
  assert (Hsk : wf_skb sk /\ data sk = hdr ++ payload).
  { unfold sk, trim_. case_if.
    - destruct (trim_spec skb (len skb - (20 + length payload)) Hw) as (s2 & E2 & W2 & D2 & _); [lia|].
      rewrite E2. split; [done|]. rewrite D2, Hd, app_assoc.
      replace (len skb - (len skb - (20 + length payload)))%nat with (length (hdr ++ payload))
        by (rewrite length_app; lia). by rewrite take_app_length.
    - split; [done|]. rewrite Hd. destruct pad; [by rewrite app_nil_r|simpl in Hl; lia]. }
  destruct Hsk as [Wk Dk]. destruct (pull_spec sk 20 Wk) as (s3 & E3 & W3 & D3 & _).
  { rewrite <- len_data, Dk, length_app by done. lia. }
  unfold pull_. rewrite E3. exists s3. split; [done|]. split; [|done]. rewrite D3, Dk. by apply drop_app_length'.
Qed.

Lemma ethernet_rcv_frame skb mac smac t body dev (s : Net X) :
  wf_skb skb -> data skb = write_eth (mkEth mac smac (to_be16 t)) ++ body ->
  length mac = 6%nat -> length smac = 6%nat -> in_u 16 t ->
  exists skb', wf_skb skb' /\ data skb' = body /\
    ethernet_rcv skb dev s =
    if t =? ETH_P_IP then ip_rcv skb' s
    else if t =? ETH_P_ARP then (arp_rcv skb' dev s, Ok rx_none)
    else (s, Err "Unsupported ethertype"%string).
Proof.
  intros Hw Hd Hm Hs Ht.
  assert (Hh : length (write_eth (mkEth mac smac (to_be16 t))) = eth_size) by (by apply write_eth_length).
  assert (Hl : len skb = (14 + length body)%nat) by (rewrite <- len_data, Hd, length_app, Hh by done; done).
  unfold ethernet_rcv. case_if; [unfold eth_size in *; lia|]. rewrite Hd, read_write_eth by done.
  cbn [ethertype]. rewrite swap_swap, wrap_small by done.
  destruct (pull_spec (set_dev skb (Some dev)) eth_size) as (s3 & E3 & W3 & D3 & _); [done|change (len (set_dev skb (Some dev))) with (len skb); unfold eth_size; lia|].
  unfold pull_. rewrite E3. exists s3. split; [done|]. split; [|done].
  rewrite D3. change (data (set_dev skb (Some dev))) with (data skb). rewrite Hd. by apply drop_app_length'.
Qed.

(** A frame as [xmit_ip_packet] builds it, received at a host for which it is. *)
Lemma frame_rcv_ip `{NetDevices Y} `{!NetDeviceTypes Y} (txdev : DevId) skb mac id src dst proto payload pad dev (s : Net X) :
  wf_skb skb -> data skb = ip_frame_bytes (X := Y) mac txdev (ip_packet id src dst proto payload) ++ pad ->
  length mac = 6%nat -> in_u 32 src -> in_u 32 dst -> in_u 8 proto ->
  Z.of_nat (length payload) + 20 <= 65535 -> is_local_ip s dst = true ->
  exists skb', wf_skb skb' /\ data skb' = payload /\ ethernet_rcv skb dev s = ip_deliver proto skb' src dst s.
Proof.
  intros Hw Hd Hm Hs Ht Hp Hlen Hloc. unfold ip_frame_bytes in Hd. rewrite <- app_assoc in Hd.
  destruct (ethernet_rcv_frame skb mac (dev_mac txdev) ETH_P_IP (ip_packet id src dst proto payload ++ pad) dev s)
    as (skb1 & W1 & D1 & E1); [done|done|done|apply dev_mac_length|done|].
  destruct (ip_rcv_packet skb1 id src dst proto payload pad s) as (skb2 & W2 & D2 & E2); [done..|].
  exists skb2. split; [done|]. split; [done|]. by rewrite E1, <- E2.
Qed.

(** An ARP frame as [arp_frame] builds it on another host. *)
Lemma frame_rcv_arp `{!NetDeviceTypes X} `{NetDevices Y} `{!NetDeviceTypes Y} (txdev : DevId) skb eth_to op thw tip pad dev (h : Net X) :
  wf_skb skb -> data skb = arp_frame_bytes (X := Y) eth_to txdev op thw tip ++ pad ->
  length eth_to = 6%nat -> length thw = 6%nat -> in_u 16 op -> in_u 32 tip ->
  fst (ethernet_rcv skb dev h) =
  let h' := arp_add_entry (dev_ip (X := Y) txdev) (dev_mac (X := Y) txdev) dev h in
  if (op =? ARP_REQUEST) && (tip =? dev_ip (X := X) dev)
  then arp_reply (dev_ip (X := Y) txdev) (dev_mac (X := Y) txdev) dev h' else h'.
Proof.
  intros Hw Hd He Ht Ho Hi. unfold arp_frame_bytes in Hd. rewrite <- app_assoc in Hd.
  destruct (ethernet_rcv_frame skb eth_to (dev_mac (X := Y) txdev) ETH_P_ARP
    (write_arp (arp_packet op (dev_mac (X := Y) txdev) (dev_ip (X := Y) txdev) thw tip) ++ pad) dev h)
    as (skb1 & W1 & D1 & ->); [done|done|done|apply dev_mac_length|done|].
  cbn [Z.eqb Pos.eqb ETH_P_ARP ETH_P_IP fst].
  apply (arp_rcv_spec _ _ _ _ _ _ _ _ _ W1 D1); try done; [apply dev_mac_length|apply dev_ip_u32].
Qed.

End Receive.

(** ** Echo replies *)

Lemma oc_checksum_fill_any t : 0 <= t -> oc_checksum (t + oc_checksum t) = 0.
Proof. intros Ht. destruct (decide (t = 0)) as [->|]; [done|]. apply oc_checksum_fill. lia. Qed.

Lemma icmp_csum_store bs :
  is_bytes bs -> (4 <= length bs)%nat -> slice 2 4 bs = [0; 0] ->
  icmp_csum (splice 2 (be_store 2 (icmp_csum bs)) bs) = 0.
Proof.
  intros Hb Hl Hz. rewrite !icmp_csum_eq, (ip_checksum_eq bs) by done.
  pose proof (oc_checksum_range (word_sum bs)). pose proof (word_sum_nonneg bs Hb).
  rewrite ip_checksum_eq by (apply splice_bytes; auto with kairix).
  rewrite word_sum_store by done. by apply oc_checksum_fill_any.
Qed.

(** The reply to an echo request: type 0, fresh checksum, everything else kept. *)
Definition echo_reply_bytes (code : Z) (rest : bytes) : bytes :=
  let z := 0 :: code :: 0 :: 0 :: rest in splice 2 (be_store 2 (icmp_csum z)) z.

Lemma icmp_reply_spec {X} `{NetDevices X} skb src dst code c1 c2 rest (s : Net X) :
  wf_skb skb -> data skb = 8 :: code :: c1 :: c2 :: rest -> is_bytes (data skb) ->
  exists skb', wf_skb skb' /\ data skb' = echo_reply_bytes code rest /\
    icmp_csum (data skb') = 0 /\ icmp_reply skb src dst s = ip_queue_xmit skb' dst src 1 s.
Proof.
  intros Hw Hd Hb. assert (Hl : (4 <= len skb)%nat) by (rewrite <- len_data, Hd by done; simpl; lia).
  unfold icmp_reply. cbv zeta. set (s1 := write_at skb 0 [ECHO_REPLY]).
  assert (W1 : wf_skb s1) by (apply wf_write_at; [done|simpl; lia]).
  assert (D1 : data s1 = 0 :: code :: c1 :: c2 :: rest)
    by (unfold s1; rewrite data_write_at, Hd by (done || simpl; lia); done).
  set (s2 := write_at s1 2 [0; 0]). assert (L1 : len s1 = len skb) by done.
  assert (W2 : wf_skb s2) by (apply wf_write_at; [done|simpl; lia]).
  assert (D2 : data s2 = 0 :: code :: 0 :: 0 :: rest)
    by (unfold s2; rewrite data_write_at, D1 by (done || simpl; lia); done).
  set (s3 := write_at s2 2 _). assert (L2 : len s2 = len skb) by done.
  assert (D3 : data s3 = echo_reply_bytes code rest)
    by (unfold s3; rewrite data_write_at by (rewrite ?be_store_length; (done || lia)); by rewrite D2).
  assert (Hb2 : is_bytes (0 :: code :: 0 :: 0 :: rest)).
  { rewrite Hd in Hb. unfold is_bytes, is_byte in *. rewrite !Forall_cons in *. repeat split; try lia; tauto. }
  assert (Hc : icmp_csum (data s3) = 0)
    by (rewrite D3; apply icmp_csum_store; [done|simpl; lia|done]).
  exists s3. split; [apply wf_write_at; rewrite ?be_store_length; (done || lia)|]. split; [done|]. split; [done|].
  by rewrite Hc.
Qed.

Lemma echo_reply_shape code rest :
  exists c1 c2, echo_reply_bytes code rest = 0 :: code :: c1 :: c2 :: rest.
Proof. by eexists _, _. Qed.

(** ** Main properties *)

Section Claims.
Context {X : Type} `{WireLaws X} `{!NetDeviceTypes X} `{TcpSocketLayer X} `{BuildConfig}.
Context {Y : Type} `{NetDevices Y} `{!NetDeviceTypes Y} `{TcpSocketLayer Y} `{!WireLaws Y}.

(** IPv4 transmission and reception are inverse.  [ip_queue_xmit] cannot
    fail its own checksum check: it either reports the routing error or hands the
    neighbour layer a packet for the routed device and next hop; and when that
    packet, with any link padding behind it, reaches a host that owns the
    destination address, [ip_rcv] accepts it and dispatches exactly the original
    payload under the original protocol, source and destination. *)
Theorem ip_xmit_rcv_roundtrip skb src dst proto (s : Net X) :
  wf_skb skb -> in_u 32 src -> in_u 32 dst -> in_u 8 proto -> Z.of_nat (len skb) + 20 <= 65535 ->
  exists pkt, wf_skb pkt /\
    ip_queue_xmit skb src dst proto s =
      match route_lookup s dst with
      | Err e => (fst (fast_random s), Err e)
      | Ok (dev, nexthop) => neighbour_output (set_dev pkt (Some dev)) nexthop dev (fst (fast_random s))
      end /\
    forall (rx : Skb) (pad : bytes) (h : Net Y),
      wf_skb rx -> data rx = data pkt ++ pad -> is_local_ip h dst = true ->
      exists seg, wf_skb seg /\ data seg = data skb /\ ip_rcv rx h = ip_deliver proto seg src dst h.
Proof.
  intros Hw Hs Hd Hp Hl. destruct (ip_queue_xmit_spec skb src dst proto s Hw) as (pkt & Wp & Dp & E).
  exists pkt. split; [done|]. split; [done|]. intros rx pad h Wr Dr Hloc. rewrite Dp in Dr.
  by apply (ip_rcv_packet rx (snd (fast_random s)) src dst proto (data skb) pad h); try done; rewrite len_data.
Qed.

(** The effect of an accepted datagram on the host that receives it. *)
Lemma deliver_udp_datagram (h : Net Y) id so skb sip sport :
  udp_store h !! id = Some so -> sock_wf so -> wf_skb skb -> Z.of_nat (len skb) < 2 ^ 62 ->
  can_receive so (len skb) = true ->
  exists so', udp_store (deliver_udp id skb sip sport h) !! id = Some so' /\ sock_wf so' /\
    datagrams so' = datagrams so ++ [(data skb, sip, sport)].
Proof.
  intros Hst Hso Hw Hn Hc. unfold deliver_udp. rewrite Hst, Hc. cbn [udp_store set_udp_store set_woken].
  rewrite lookup_insert_eq. destruct (enqueue_wf so skb sip sport Hso Hw Hn Hc) as [He Hq].
  eexists. split; [done|]. split; [exact He|exact Hq].
Qed.

(** C16: UDP end to end.  A datagram of up to 65507 bytes sent over a resolved path (the
    route and the link address of the next hop are known, the destination is not loopback,
    nothing arrives on the link meanwhile) is one frame of 42 bytes more than the payload: it is
    on the wire if the call succeeds, and nothing is if it fails; it succeeds when the driver
    takes a frame of that length in its present state (drivers refuse frames over 1514 or 1518
    bytes, and any frame while they are busy; there is no fragmentation).  When the frame,
    padded or not, arrives at the host that owns the destination address, the socket that
    demultiplexing selects for it has exactly that payload, with the sender's address and
    port, appended to its receive queue, provided it fits the receive limit. *)
Theorem udp_end_to_end sip sport dst dport payload dev mac (s : Net X) :
  resolved s dst dev mac -> length mac = 6%nat -> is_loopback_addr dst = false ->
  in_u 32 sip -> in_u 16 sport -> in_u 32 dst -> in_u 16 dport -> is_bytes payload ->
  Z.of_nat (length payload) + 28 <= 65535 ->
  let r := send_udp_packet (sip, sport) payload dst dport s in
  (takes dev (42 + length payload) s -> is_ok (snd r) = true) /\
  exists f, length f = (42 + length payload)%nat /\
    on_wire (ext (fst r)) = on_wire (ext s) ++ (if is_ok (snd r) then [(dev, f)] else []) /\
    forall (rx : Skb) (pad : bytes) (d : DevId) (h : Net Y) id so,
      wf_skb rx -> data rx = f ++ pad -> is_local_ip h dst = true ->
      lookup_udp_socket h dport sip sport = Some id -> udp_store h !! id = Some so -> sock_wf so ->
      can_receive so (length payload) = true ->
      exists so', udp_store (fst (ethernet_rcv rx d h)) !! id = Some so' /\ sock_wf so' /\
        datagrams so' = datagrams so ++ [(payload, sip, sport)].
Proof.
  intros Hres Hm Hlb Hsip Hsp Hdst Hdp Hpl Hlen.
  destruct (send_udp_packet_spec sip sport payload dst dport s Hlb) as (skb & Wk & Dk & ->).
  destruct (ip_queue_xmit_resolved skb sip dst 17 dev mac s Hres Wk Hm) as (id0 & _ & _ & Ew & Hok).
  pose proof (udp_dgram_length sip sport dst dport payload) as Hdl.
  assert (Hlk0 : len skb = (8 + length payload)%nat) by (by rewrite <- len_data, Dk, Hdl).
  set (f := ip_frame_bytes mac dev (ip_packet id0 sip dst 17 (data skb))) in Ew. rewrite Hlk0 in Hok.
  split; [destruct (ip_queue_xmit skb sip dst 17 s) as [s' [r|e]]; done|]. exists f. split.
  { unfold f, ip_packet. rewrite ip_frame_length, length_app, ip_hdr_length, len_data, Hlk0 by done. done. }
  split; [by destruct (ip_queue_xmit skb sip dst 17 s) as [s' [r|e]]|]. intros rx pad d h id so Wr Dr Hloc Hlk Hst Hso Hcr.
  unfold f in Dr. rewrite Dk in Dr.
  destruct (frame_rcv_ip (Y := X) dev rx mac id0 sip dst 17 (udp_dgram sip sport dst dport payload) pad d h)
    as (skb1 & W1 & D1 & E1); [done..|rewrite Hdl; lia|done|].
  rewrite E1. unfold ip_deliver. cbn [Z.eqb Pos.eqb].
  set (h1 := fst (deliver_raw_packet 17 (clone skb1) sip h)).
  assert (Hh : udp_sockets h1 = udp_sockets h /\ udp_store h1 = udp_store h)
    by (unfold h1, deliver_raw_packet; by destruct (deliver_raw_loop _ _ _ _ _ _)).
  destruct Hh as [Ht1 Hs1].
  destruct (udp_rcv_dgram sip sport dst dport payload Hsip Hdst Hsp Hdp Hpl ltac:(lia) skb1 [] h1 W1)
    as (skb2 & W2 & D2 & E2); [by rewrite app_nil_r|]. rewrite E2.
  assert (Hlk1 : lookup_udp_socket h1 dport sip sport = Some id).
  { revert Hlk. unfold lookup_udp_socket, has_remote. by rewrite Ht1, Hs1. }
  rewrite Hlk1. simpl. rewrite <- D2.
  assert (Hl2 : len skb2 = length payload) by (by rewrite <- len_data, D2).
  apply deliver_udp_datagram; try done; [by rewrite Hs1|rewrite Hl2; lia|by rewrite Hl2].
Qed.

(** A segment over a resolved path, with what sending does to the sender. *)
Lemma tcp_segment_arrives sip dst sport dport seq ack flags payload dev mac (s : Net X) :
  resolved s dst dev mac -> length mac = 6%nat ->
  in_u 32 sip -> in_u 32 dst -> in_u 16 sport -> in_u 16 dport -> in_u 32 seq -> in_u 32 ack -> in_u 8 flags ->
  is_bytes payload -> Z.of_nat (length payload) + 44 <= 65535 ->
  let r := tcp_send_segment sip dst sport dport seq ack flags payload s in
  tx_like s (fst r) /\ (takes dev (54 + opt_len flags + length payload) s -> snd r = Ok tt) /\
  exists f, length f = (54 + opt_len flags + length payload)%nat /\
    on_wire (ext (fst r)) = on_wire (ext s) ++ (if is_ok (snd r) then [(dev, f)] else []) /\
    forall (rx : Skb) (pad : bytes) (d : DevId) (h : Net Y),
      wf_skb rx -> data rx = f ++ pad -> is_local_ip h dst = true ->
      exists seg, fst (ethernet_rcv rx d h) =
        tcp_input sip dst sport dport seq ack flags payload (fst (deliver_raw_packet 6 seg sip h)).
Proof.
  intros Hres Hm Hsip Hdst Hsp Hdp Hseq Hack Hfl Hpl Hlen.
  destruct (tcp_send_segment_resolved sip dst sport dport seq ack flags payload dev mac s Hres Hm)
    as (Htx & Hok & f & (id & window & opt & Hopt & ->) & Ew).
  split; [done|]. split; [done|]. eexists. split; [|split; [exact Ew|]].
  { unfold ip_packet. rewrite ip_frame_length, length_app, ip_hdr_length by done.
    rewrite (tcp_segment_length sip dst sport dport seq ack flags window opt payload Hopt). done. }
  intros rx pad d h Wr Dr Hloc.
  pose proof (tcp_segment_length sip dst sport dport seq ack flags window opt payload Hopt) as Hsl.
  pose proof (opt_len_le flags) as Hol.
  destruct (frame_rcv_ip (Y := X) dev rx mac id sip dst 6
    (tcp_segment sip dst sport dport seq ack flags window opt payload) pad d h)
    as (skb1 & W1 & D1 & E1); [done..|rewrite Hsl; lia|done|].
  rewrite E1. unfold ip_deliver. cbn [Z.eqb Pos.eqb].
  destruct (tcp_rcv_segment sip dst sport dport seq ack flags window opt payload skb1
    (fst (deliver_raw_packet 6 (clone skb1) sip h))) as (skb2 & _ & _ & ->); try done; [lia|].
  by exists (clone skb1).
Qed.

(** C17: TCP end to end.  A segment that [tcp_send_segment] sends over a resolved path (the
    route and the link address of the next hop are known, nothing arrives on the link
    meanwhile) is one frame of 54 bytes more than the payload, 58 for a SYN, which carries an MSS
    option: it is on the wire if the call succeeds, and nothing is if it fails; it succeeds when
    the driver takes a frame of that length in its present state (drivers refuse frames over
    1514 or 1518 bytes, and any frame while they are busy).  The host that owns the
    destination address and receives the frame, padded or not, verifies and parses it to
    the same ports, sequence and acknowledgement numbers, flags and payload, and processes it as such. *)
Theorem tcp_end_to_end sip dst sport dport seq ack flags payload dev mac (s : Net X) :
  resolved s dst dev mac -> length mac = 6%nat ->
  in_u 32 sip -> in_u 32 dst -> in_u 16 sport -> in_u 16 dport -> in_u 32 seq -> in_u 32 ack -> in_u 8 flags ->
  is_bytes payload -> Z.of_nat (length payload) + 44 <= 65535 ->
  let r := tcp_send_segment sip dst sport dport seq ack flags payload s in
  (takes dev (54 + opt_len flags + length payload) s -> snd r = Ok tt) /\
  exists f, length f = (54 + opt_len flags + length payload)%nat /\
    on_wire (ext (fst r)) = on_wire (ext s) ++ (if is_ok (snd r) then [(dev, f)] else []) /\
    forall (rx : Skb) (pad : bytes) (d : DevId) (h : Net Y),
      wf_skb rx -> data rx = f ++ pad -> is_local_ip h dst = true ->
      exists seg, fst (ethernet_rcv rx d h) =
        tcp_input sip dst sport dport seq ack flags payload (fst (deliver_raw_packet 6 seg sip h)).
Proof. intros. by eapply (proj2 (tcp_segment_arrives sip dst sport dport seq ack flags payload dev mac s _ _ _ _ _ _ _ _ _ _ _)). Unshelve. all: done. Qed.

(** address resolution between two hosts.  The broadcast that
    [arp_request] sends for the address of host B teaches B the address of A and
    makes B answer with exactly one unicast reply; that reply teaches A the
    address of B (frames may be padded; A's state may have moved on meanwhile). *)
Theorem arp_exchange (da db : DevId) (a : Net X) (b : Net Y) :
  takes (X := X) da 42 a -> (forall b : Net Y, takes (X := Y) db 42 b) ->
  dev_name (X := X) da <> "loopback"%string -> dev_name (X := Y) db <> "loopback"%string ->
  pending_ok (X := Y) (pending_packets b) ->
  let r := arp_request (dev_ip (X := Y) db) da a in
  snd r = Ok tt /\
  exists f, on_wire (ext (fst r)) = on_wire (ext a) ++ [(da, f)] /\
    forall rx pad, wf_skb rx -> data rx = f ++ pad ->
      let b' := fst (ethernet_rcv rx db b) in
      arp_lookup b' (dev_ip (X := X) da) = Some (dev_mac (X := X) da) /\
      exists fs g, on_wire (ext b') = on_wire (ext b) ++ fs ++ [(db, g)] /\
        forall rx' pad' (a' : Net X), wf_skb rx' -> data rx' = g ++ pad' ->
          pending_ok (X := X) (pending_packets a') ->
          arp_lookup (fst (ethernet_rcv rx' da a')) (dev_ip (X := Y) db) = Some (dev_mac (X := Y) db).
Proof.
  intros HaX HaY Hda Hdb Hpb r.
  destruct (arp_request_spec (dev_ip (X := Y) db) da a Hda) as (x & E & Ew & Hok). specialize (Hok HaX).
  fold r in E, Ew, Hok. split; [done|]. rewrite Hok in Ew. rewrite E. eexists. split; [exact Ew|].
  intros rx pad Wr Dr b'. unfold b'.
  rewrite (frame_rcv_arp (X := Y) (Y := X) da rx _ _ _ _ _ db b Wr Dr) by (done || apply dev_ip_u32).
  rewrite !Z.eqb_refl. cbn [andb].
  destruct (arp_add_entry_spec (dev_ip (X := X) da) (dev_mac (X := X) da) db b Hpb) as (y & fs & Eb & Ewb).
  rewrite Eb. set (b1 := set_ext y _).
  destruct (arp_reply_spec (dev_ip (X := X) da) (dev_mac (X := X) da) db b1 Hdb (dev_mac_length da)) as (z & Ez & _ & Hz).
  specialize (Hz (HaY b1)). rewrite Ez. split.
  - unfold arp_lookup; simpl. by rewrite lookup_insert_eq.
  - exists fs. eexists. split; [cbn [ext set_ext]; rewrite Hz; unfold b1; cbn [ext set_ext]; by rewrite Ewb, <- app_assoc|].
    intros rx' pad' a' Wr' Dr' Hpa.
    rewrite (frame_rcv_arp (X := X) (Y := Y) db rx' _ _ _ _ _ da a' Wr' Dr')
      by (done || apply dev_mac_length || apply dev_ip_u32).
    cbn [ARP_REPLY ARP_REQUEST Z.eqb Pos.eqb andb].
    destruct (arp_add_entry_spec (dev_ip (X := Y) db) (dev_mac (X := Y) db) da a' Hpa) as (w & fs' & Ea & _).
    rewrite Ea. unfold arp_lookup; simpl. by rewrite lookup_insert_eq.
Qed.

(** ping.  A valid echo request, whatever its payload, is answered over a
    resolved path by exactly one packet to its sender: an echo reply with the
    same code, identifier, sequence number and data and a valid checksum (the
    self-check before sending never fails); the requester's stack accepts the
    reply and does not answer it. *)
Theorem icmp_echo_answered skb src dst code c1 c2 rest dev mac (s : Net X) :
  takes dev (34 + len skb) s -> resolved s src dev mac -> length mac = 6%nat -> wf_skb skb ->
  data skb = 8 :: code :: c1 :: c2 :: rest -> is_bytes (data skb) -> (4 <= length rest)%nat ->
  icmp_csum (data skb) = 0 ->
  let r := icmp_rcv skb src dst s in
  is_ok (snd r) = true /\
  exists id d1 d2, let reply := 0 :: code :: d1 :: d2 :: rest in
    on_wire (ext (fst r)) = on_wire (ext s) ++ [(dev, ip_frame_bytes (X := X) mac dev (ip_packet id dst src 1 reply))] /\
    icmp_csum reply = 0 /\
    forall p (h : Net Y), wf_skb p -> data p = reply -> icmp_rcv p dst src h = (h, Ok (p, 0, 0)).
Proof.
  intros Ha Hres Hm Hw Hd Hb Hr Hc. unfold icmp_rcv.
  assert (Hl : (len skb <? icmp_size)%nat = false).
  { apply Nat.ltb_ge. rewrite <- len_data, Hd by done. simpl. unfold icmp_size. lia. }
  rewrite Hl, Hc. change (negb (0 =? 0)) with false. cbv iota. rewrite Hd. cbn [read_icmp type_ byte_at nth Z.eqb Pos.eqb ECHO_REQUEST].
  destruct (icmp_reply_spec skb src dst code c1 c2 rest s Hw Hd Hb) as (skb' & W' & D' & C' & ->).
  destruct (echo_reply_shape code rest) as (d1 & d2 & Es). rewrite Es in D'.
  destruct (ip_queue_xmit_resolved skb' dst src 1 dev mac s Hres W' Hm) as (id & _ & _ & Ew & Hok).
  assert (Hsz : len skb' = len skb) by (by rewrite <- !len_data, D', Hd by done). rewrite Hsz in Hok.
  specialize (Hok Ha). split; [done|]. exists id, d1, d2. rewrite Hok, D' in Ew. rewrite D' in C'.
  split; [exact Ew|]. split; [exact C'|]. intros p h Wp Dp.
  assert (Hlp : (len p <? icmp_size)%nat = false).
  { apply Nat.ltb_ge. rewrite <- len_data, Dp by done. simpl. unfold icmp_size. lia. }
  rewrite Hlp, Dp, C'. reflexivity.
Qed.

End Claims.

(** ** Path MTU feedback *)

Lemma slice_take_le {A} a b n (l : list A) : (b <= n)%nat -> slice a b (take n l) = slice a b l.
Proof.
  intros Hb. unfold slice. rewrite skipn_firstn_comm, take_take. f_equal. lia.
Qed.

Lemma byte_at_slice i l : byte_at i l = default 0 (head (slice i (S i) l)).
Proof.
  unfold byte_at, slice. replace (S i - i)%nat with 1%nat by lia. revert l.
  induction i as [|i IH]; intros [|x l]; simpl; try done.
Qed.

Lemma byte_at_take i n l : (i < n)%nat -> byte_at i (take n l) = byte_at i l.
Proof. intros. by rewrite !byte_at_slice, slice_take_le by lia. Qed.

Lemma legacy_next_hop_mtu_range n : 68 < n -> 68 <= legacy_next_hop_mtu n < n.
Proof.
  intros Hn. unfold legacy_next_hop_mtu, MTU_PLATEAUS, IPV4_MIN_PATH_MTU. cbn [List.find default].
  repeat (case_if; [simpl; lia|]). lia.
Qed.

(** The beginning of a segment that this stack sent, as a router quotes it. *)
Section Quote.
Context (id lip rip lport rport seq ack flags window : Z) (opt payload : bytes).
Let seg := tcp_segment lip rip lport rport seq ack flags window opt payload.
Let total := Z.of_nat (length seg) + 20.
Let pkt := ip_packet id lip rip 6 seg.

Lemma quote_fields :
  byte_at 0 pkt = 69 /\ byte_at 9 pkt = 6 /\ slice 2 4 pkt = be_store 2 (u16 total) /\
  slice 12 16 pkt = be_store 4 lip /\ slice 16 20 pkt = be_store 4 rip /\
  slice 0 2 (slice 20 28 pkt) = be_store 2 lport /\ slice 2 4 (slice 20 28 pkt) = be_store 2 rport /\
  slice 4 8 (slice 20 28 pkt) = be_store 4 seq /\ take 20 pkt = ip_hdr total id lip rip 6.
Proof.
  unfold pkt, ip_packet. fold total. rewrite <- !to_be_store.
  assert (Hs : exists rest, seg = le_store 2 (to_be16 lport) ++ le_store 2 (to_be16 rport) ++
    le_store 4 (to_be32 seq) ++ rest) by (by eexists).
  destruct Hs as [rest ->]. clearbody total. repeat split.
Qed.

End Quote.

Section Pmtu.
Context {X : Type} `{NetDevices X} `{TcpSocketLayer X} `{BuildConfig}.

(** path MTU discovery reacts to exactly what was sent.  Take a segment
    this stack sends from one of its addresses, and a valid "fragmentation
    needed" message quoting at least its IP header and the first 8 bytes behind
    it: the stack lowers the path MTU of that segment's destination to the
    reported next-hop MTU (to the next RFC 1191 plateau below the packet's length
    when the router reports none) and, when that is a reduction, tells the socket
    layer the segment's addresses, ports and sequence number with the new segment
    size. *)
Theorem pmtu_feedback skb router local id lip rip lport rport seq ack flags window opt payload c1 c2 u1 u2 mtu n (s : Net X) :
  let seg := tcp_segment lip rip lport rport seq ack flags window opt payload in
  let total := Z.of_nat (length seg) + 20 in
  let next_hop := if mtu =? 0 then legacy_next_hop_mtu total else mtu in
  opt_ok flags opt -> total <= 65535 ->
  in_u 32 lip -> in_u 32 rip -> in_u 16 lport -> in_u 16 rport -> in_u 32 seq ->
  wf_skb skb -> is_local_ip s lip = true -> in_u 16 mtu ->
  data skb = 3 :: 4 :: c1 :: c2 :: u1 :: u2 :: be_store 2 mtu ++ take n (ip_packet id lip rip 6 seg) ->
  (28 <= n)%nat -> icmp_csum (data skb) = 0 ->
  68 <= next_hop < total ->
  fst (icmp_rcv skb router local s) =
  match update_path_mtu rip next_hop s with
  | (s, Some mss) => handle_pmtu_update lip lport rip rport seq mss s
  | (s, None) => s
  end.
Proof.
  intros seg total next_hop Hopt Htot Hlip Hrip Hlp Hrp Hseq Hw Hloc Hmtu Hd Hn Hc Hnh.
  assert (Hsl : length seg = (20 + opt_len flags + length payload)%nat) by (by apply tcp_segment_length).
  set (pkt := ip_packet id lip rip 6 seg) in *. set (q := take n pkt) in *.
  assert (Hpl : length pkt = (20 + length seg)%nat)
    by (unfold pkt, ip_packet; rewrite length_app, ip_hdr_length; done).
  assert (Hql : (28 <= length q)%nat) by (unfold q; rewrite length_take; lia).
  assert (Hdl : length (data skb) = (8 + length q)%nat) by (rewrite Hd; reflexivity).
  assert (Hq : drop 8 (data skb) = q) by (rewrite Hd; reflexivity).
  assert (Hm : be_load (slice 6 8 (data skb)) = mtu).
  { replace (slice 6 8 (data skb)) with (be_store 2 mtu) by (rewrite Hd; reflexivity).
    rewrite be_load_store. by apply wrap_small. }
  assert (Ht3 : read_icmp (data skb) = mkIcmp 3 4 (icmp_checksum (read_icmp (data skb)))
    (icmp_pid (read_icmp (data skb))) (icmp_seq (read_icmp (data skb)))) by (by rewrite Hd).
  unfold icmp_rcv. case_if; [unfold icmp_size in *; rewrite <- len_data in E by done; lia|].
  rewrite Hc, Ht3. cbn [Z.eqb negb type_ icmp_code ECHO_REQUEST ECHO_REPLY DESTINATION_UNREACHABLE
    FRAGMENTATION_NEEDED Pos.eqb andb].
  assert (Hgoal : fst (handle_fragmentation_needed skb local s) =
    match update_path_mtu rip next_hop s with
    | (s, Some mss) => handle_pmtu_update lip lport rip rport seq mss s
    | (s, None) => s end).
  2:{ rewrite <- Hgoal. by destruct (handle_fragmentation_needed skb local s) as [? [?|?]]. }
  unfold handle_fragmentation_needed. rewrite Hdl, Hq, Hm.
  destruct (quote_fields id lip rip lport rport seq ack flags window opt payload)
    as (Q0 & Q9 & Q2 & Q12 & Q16 & T0 & T2 & T4 & Q20). fold seg total pkt in Q0, Q9, Q2, Q12, Q16, T0, T2, T4, Q20.
  clearbody pkt. unfold q in *. clear q.
  rewrite !byte_at_take, !slice_take_le by lia. rewrite Q0, Q9.
  change (Z.to_nat (Z.land 69 15 * 4)) with 20%nat. change (negb (Z.shiftr 69 4 =? 4)) with false.
  rewrite take_take, Nat.min_l by lia. rewrite Q20, icmp_csum_eq, ip_hdr_valid, Q2, Q12, Q16.
  rewrite slice_take_le by lia. change (20 + 8)%nat with 28%nat. rewrite T0, T2, T4, !be_load_store.
  change (8 * Z.of_nat 2) with 16. change (8 * Z.of_nat 4) with 32. rewrite wrap_wrap.
  rewrite (wrap_small 32 lip), (wrap_small 32 rip), (wrap_small 16 lport), (wrap_small 16 rport), (wrap_small 32 seq) by done.
  rewrite (wrap_small 16 total) by (unfold in_u; lia). cbn [Z.eqb Pos.eqb negb].
  fold next_hop. rewrite Hloc. cbn [negb]. rewrite andb_false_r.
  unfold IPV4_MIN_PATH_MTU.
  repeat (case_if; [try match goal with D : _ \/ _ |- _ => destruct D end; to_prop; lia|]).
  by destruct (update_path_mtu rip next_hop s) as [s' [mss|]].
Qed.

End Pmtu.

(** ** Witnesses *)

Import TestWire.

#[local] Instance ip_demo_config : BuildConfig := { board := Qemu }.

Lemma ip_xmit_rcv_roundtrip_witness :
  exists pkt, wf_skb pkt /\
    ip_queue_xmit (skb_new 4) 167772687 16843009 17 demo_host =
      match route_lookup demo_host 16843009 with
      | Err e => (fst (fast_random demo_host), Err e)
      | Ok (dev, nh) => neighbour_output (set_dev pkt (Some dev)) nh dev (fst (fast_random demo_host))
      end.
Proof.
  destruct (ip_xmit_rcv_roundtrip (X := WireLog) (Y := WireLog) (skb_new 4) 167772687 16843009 17 demo_host)
    as (pkt & W & E & _); [apply wf_skb_new|unfold in_u; lia..|vm_compute; discriminate|]. exists pkt. split; [exact W|exact E].
Defined.

Lemma udp_end_to_end_witness :
  exists f, on_wire (ext (fst (send_udp_packet (167772687, 4000) [104; 105] 16843009 53 demo_host))) = [(15%nat, f)].
Proof.
  destruct (udp_end_to_end (X := WireLog) (Y := WireLog) 167772687 4000 16843009 53 [104; 105] 15
    [2; 0; 0; 0; 0; 2] demo_host demo_resolved) as (Hok & f & _ & E & _);
    [reflexivity|reflexivity|unfold in_u; lia..|repeat constructor; unfold is_byte; lia|vm_compute; discriminate|].
  rewrite Hok in E by (apply demo_takes, Nat.leb_le; reflexivity). exists f. exact E.
Defined.

Lemma tcp_end_to_end_witness :
  snd (tcp_send_segment 167772687 16843009 4000 80 1 2 16 [104; 105] demo_host) = Ok tt.
Proof.
  refine (proj1 (tcp_end_to_end (X := WireLog) (Y := WireLog) 167772687 16843009 4000 80 1 2 16 [104; 105] 15
    [2; 0; 0; 0; 0; 2] demo_host demo_resolved _ _ _ _ _ _ _ _ _ _) (demo_takes _ _ _ _));
    [reflexivity|unfold in_u; lia..|repeat constructor; unfold is_byte; lia|vm_compute; discriminate|apply Nat.leb_le; reflexivity].
Defined.

Lemma arp_exchange_witness :
  snd (arp_request 167772674 15 host) = Ok tt.
Proof.
  refine (proj1 (arp_exchange (X := WireLog) (Y := WireLog) 15 2 host host (demo_takes 15 42 host ltac:(lia)) (fun s => demo_takes 2 42 s ltac:(lia)) _ _ _));
    [discriminate|discriminate|constructor].
Defined.

Definition demo_ping : Skb :=
  default (skb_new 0) (put_bytes (skb_new 12) [8; 0; 196; 250; 18; 52; 0; 1; 1; 2; 31; 206]).

Lemma icmp_echo_answered_witness :
  is_ok (snd (icmp_rcv demo_ping 16843009 167772687 demo_host)) = true.
Proof.
  assert (Hw : wf_skb demo_ping) by (split; apply Nat.leb_le; vm_compute; reflexivity).
  refine (proj1 (icmp_echo_answered (X := WireLog) (Y := WireLog) demo_ping 16843009 167772687 0 196 250
    [18; 52; 0; 1; 1; 2; 31; 206] 15 [2; 0; 0; 0; 0; 2] demo_host (demo_takes 15 (34 + len demo_ping) demo_host ltac:(apply Nat.leb_le; reflexivity)) demo_resolved eq_refl Hw eq_refl _ _ _)).
  - vm_compute. repeat constructor; discriminate.
  - apply Nat.leb_le. reflexivity.
  - vm_compute. reflexivity.
Defined.

(** The segment of the demonstration, quoted by a router with MTU 90. *)
Definition demo_frag : Skb :=
  default (skb_new 0) (put_bytes (skb_new 36)
    (3 :: 4 :: 236 :: 172 :: 0 :: 0 :: be_store 2 90 ++
      take 28 (ip_packet 1 167772687 16843009 6
        (tcp_segment 167772687 16843009 4000 80 5 6 16 65535 [] (replicate 60 7))))).

Lemma pmtu_feedback_witness :
  path_mtu_cache (fst (icmp_rcv demo_frag 1 167772687 demo_host)) = [mkPmtu 16843009 90 1000000].
Proof.
  assert (Ho : opt_ok 16 []) by (split; [reflexivity|split; [constructor|intros E; vm_compute in E; discriminate]]).
  assert (Hw : wf_skb demo_frag) by (split; apply Nat.leb_le; vm_compute; reflexivity).
  rewrite (pmtu_feedback demo_frag 1 167772687 1 167772687 16843009 4000 80 5 6 16 65535 [] (replicate 60 7)
    236 172 0 0 90 28 demo_host Ho); [vm_compute; reflexivity| |unfold in_u; lia..|exact Hw|reflexivity|unfold in_u; lia| |lia| |].
  - vm_compute. discriminate.
  - vm_compute. reflexivity.
  - vm_compute. reflexivity.
  - split; [vm_compute; discriminate|vm_compute; reflexivity].
Defined.

(** [ip_rcv] accepts header lengths below the 20 bytes of an IPv4 header.
    The packet below announces a header of 8 bytes whose checksum over those 8
    bytes is right; it is taken as a packet of protocol 253 from 1.1.1.1 and the
    raw socket gets the bytes from offset 8, the rest of the IP header included,
    as payload. *)
Theorem ip_rcv_accepts_short_header :
  let pkt := [66; 0; 0; 28; 189; 227; 0; 0; 64; 253; 0; 0; 1; 1; 1; 1; 127; 0; 0; 1; 1; 2; 3; 4; 5; 6; 7; 8] in
  let h := register_raw_socket 253 7 (set_raw_store {[7%nat := raw_socket_new 253]} demo_host) in
  exists skb r, put_bytes (skb_new 28) pkt = Some skb /\
    raw_store (fst (ip_rcv skb h)) !! 7%nat = Some r /\ is_ok (snd (ip_rcv skb h)) = true /\
    (fun e => data (fst e)) <$> raw_queue r = [drop 8 pkt].
Proof. eexists _, _. split; [vm_compute; reflexivity|]. split; [vm_compute; reflexivity|]. split; vm_compute; reflexivity. Qed.
