(* ===== verification/Dns.v ===== *)
(** * DNS resolver (os/src/net/dns.rs)

    Query construction, response parsing with name compression, the IPv4
    literal parser and the resolver loop.  A [&str] or [String] is its list of
    UTF-8 bytes.  The parsing functions return [None] for an index out of
    range (a panic in the source) or exhausted fuel, and the theorems show that
    this never happens. *)

From S2P Require Import Prelude SysErr Skb NetState Udp.

(** ** Strings *)

(** [str::from_utf8]. *)
Definition cont_byte (b : Z) : bool := (128 <=? b) && (b <=? 191).

Definition second_byte (a b : Z) : bool :=
  if a =? 224 then (160 <=? b) && (b <=? 191)
  else if a =? 237 then (128 <=? b) && (b <=? 159)
  else if a =? 240 then (144 <=? b) && (b <=? 191)
  else if a =? 244 then (128 <=? b) && (b <=? 143)
  else cont_byte b.

Fixpoint from_utf8 (bs : bytes) : bool :=
  match bs with
  | [] => true
  | a :: bs =>
      if a <? 128 then from_utf8 bs
      else if (194 <=? a) && (a <=? 223) then
        match bs with
        | b :: bs => cont_byte b && from_utf8 bs
        | _ => false
        end
      else if (224 <=? a) && (a <=? 239) then
        match bs with
        | b :: c :: bs => second_byte a b && cont_byte c && from_utf8 bs
        | _ => false
        end
      else if (240 <=? a) && (a <=? 244) then
        match bs with
        | b :: c :: d :: bs => second_byte a b && cont_byte c && cont_byte d && from_utf8 bs
        | _ => false
        end
      else false
  end.

Definition dot : Z := 46.

(** [str::split('.')]. *)
Fixpoint split_dot (bs : bytes) : list bytes :=
  match bs with
  | [] => [[]]
  | b :: bs =>
      if b =? dot then [] :: split_dot bs
      else match split_dot bs with
           | l :: ls => (b :: l) :: ls
           | [] => [[b]]
           end
  end.

(** [labels.join(".")]. *)
Fixpoint join_dot (ls : list bytes) : bytes :=
  match ls with
  | [] => []
  | [l] => l
  | l :: ls => l ++ dot :: join_dot ls
  end.

(** [trim_end_matches('.')]. *)
Fixpoint trim_end_dots (bs : bytes) : bytes :=
  match bs with
  | [] => []
  | b :: bs =>
      match trim_end_dots bs with
      | [] => if b =? dot then [] else [b]
      | t => b :: t
      end
  end.

(** ** Messages *)

Definition DNS_PORT : Z := 53.
Definition DNS_TYPE_A : Z := 1.
Definition DNS_TYPE_CNAME : Z := 5.
Definition DNS_CLASS_IN : Z := 1.
Definition DNS_QUERY_FLAGS : Z := 256.
Definition DNS_MAX_PACKET : nat := 512.
Definition DNS_TIMEOUT_US : Z := 3000000.
Definition DNS_MAX_RECURSION : nat := 4.

Definition push_u16 (packet : bytes) (v : Z) : bytes := packet ++ be_store 2 v.

Record DnsHeader := mkDnsHeader {
  dh_id : Z; dh_flags : Z; question_count : Z; answer_count : Z; authority_count : Z; additional_count : Z }.

Definition dns_query_header (txid : Z) : DnsHeader := mkDnsHeader txid DNS_QUERY_FLAGS 1 0 0 0.

Definition header_write_to (h : DnsHeader) (packet : bytes) : bytes :=
  push_u16 (push_u16 (push_u16 (push_u16 (push_u16 (push_u16 packet (dh_id h)) (dh_flags h))
    (question_count h)) (answer_count h)) (authority_count h)) (additional_count h).

Fixpoint push_labels (packet : bytes) (labels : list bytes) : result bytes SysError :=
  match labels with
  | [] => Ok packet
  | label :: labels =>
      if bool_decide (label = []) || (63 <? length label)%nat then Err EINVAL
      else push_labels (packet ++ u8 (Z.of_nat (length label)) :: label) labels
  end.

Definition push_name (packet name : bytes) : result bytes SysError :=
  let trimmed := trim_end_dots name in
  if bool_decide (trimmed = []) || (253 <? length trimmed)%nat then Err EINVAL
  else
    let? packet := push_labels packet (split_dot trimmed) in
    Ok (packet ++ [0]).

Record DnsQuestion := mkQuestion { q_name : bytes; qtype : Z; qclass : Z }.

Definition a_record (name : bytes) : DnsQuestion := mkQuestion name DNS_TYPE_A DNS_CLASS_IN.

Definition question_write_to (q : DnsQuestion) (packet : bytes) : result bytes SysError :=
  let? packet := push_name packet (q_name q) in
  Ok (push_u16 (push_u16 packet (qtype q)) (qclass q)).

Definition build_query (name : bytes) (txid : Z) : result bytes SysError :=
  question_write_to (a_record name) (header_write_to (dns_query_header txid) []).

(** ** Parsing *)

(** [None] is a panic or exhausted fuel. *)
Abbreviation dns A := (option (result A SysError)).

Definition dbind {A B} (r : dns A) (k : A -> dns B) : dns B :=
  match r with
  | Some (Ok a) => k a
  | Some (Err e) => Some (Err e)
  | None => None
  end.

Notation "'let!' x ':=' r 'in' k" :=
  (dbind r (fun x => k)) (at level 10, x pattern, r at level 200, k at level 200) : kairix_scope.

Definition dret {A} (a : A) : dns A := Some (Ok a).
Definition derr {A} (e : SysError) : dns A := Some (Err e).

(** [packet[i]]. *)
Definition index (packet : bytes) (i : nat) : dns Z :=
  match packet !! i with Some b => dret b | None => None end.

(** [&packet[a..b]]. *)
Definition index_range (packet : bytes) (a b : nat) : dns bytes :=
  if (a <=? b)%nat && (b <=? length packet)%nat then dret (slice a b packet) else None.

Definition read_u16 (packet : bytes) (offset : nat) : dns Z :=
  if (length packet <? offset + 2)%nat then derr EINVAL
  else
    let! hi := index packet offset in
    let! lo := index packet (S offset) in
    dret (be_load [hi; lo]).

(** The loop of [read_name]; [next] is where linear parsing continues. *)
Fixpoint read_name_loop (fuel : nat) (packet : bytes) (offset guard : nat) (jumped : bool) (next : nat)
    (labels : list bytes) : dns (bytes * nat) :=
  match fuel with
  | O => None
  | S fuel =>
      if (length packet <=? offset)%nat then derr EINVAL
      else
        let guard := S guard in
        if (length packet <? guard)%nat then derr ELOOP
        else
          let! len_ := index packet offset in
          if Z.land len_ 192 =? 192 then
            if (length packet <=? offset + 1)%nat then derr EINVAL
            else
              let! lo := index packet (offset + 1) in
              let ptr := Z.to_nat (Z.lor (Z.shiftl (Z.land len_ 63) 8) lo) in
              let next := if negb jumped then (offset + 2)%nat else next in
              read_name_loop fuel packet ptr guard true next labels
          else if negb (Z.land len_ 192 =? 0) then derr EINVAL
          else
            let offset := S offset in
            if len_ =? 0 then
              dret (join_dot labels, if negb jumped then offset else next)
            else
              let end_ := (offset + Z.to_nat len_)%nat in
              if (length packet <? end_)%nat then derr EINVAL
              else
                let! label := index_range packet offset end_ in
                if from_utf8 label
                then read_name_loop fuel packet end_ guard jumped next (labels ++ [label])
                else derr EINVAL
  end.

(** The guard admits at most [packet.len()] turns. *)
Definition read_name (packet : bytes) (offset : nat) : dns (bytes * nat) :=
  read_name_loop (S (length packet)) packet offset 0 false offset [].

Definition skip_name (packet : bytes) (offset : nat) : dns nat :=
  let! (_, next) := read_name packet offset in dret next.

Inductive DnsAnswer :=
| AnswerA (ip : Z)
| AnswerCname (name : bytes)
| AnswerNoData.

(** [for _ in 0..qdcount]. *)
Fixpoint skip_questions (n : nat) (packet : bytes) (offset : nat) : dns nat :=
  match n with
  | O => dret offset
  | S n =>
      let! offset := skip_name packet offset in
      let offset := (offset + 4)%nat in
      if (length packet <? offset)%nat then derr EINVAL else skip_questions n packet offset
  end.

(** [for _ in 0..ancount]; [cname] is the last CNAME seen. *)
Fixpoint scan_answers (n : nat) (packet : bytes) (offset : nat) (cname : option bytes) : dns DnsAnswer :=
  match n with
  | O => dret (match cname with Some name => AnswerCname name | None => AnswerNoData end)
  | S n =>
      let! offset := skip_name packet offset in
      if (length packet <? offset + 10)%nat then derr EINVAL
      else
        let! typ := read_u16 packet offset in
        let! class := read_u16 packet (offset + 2) in
        let! rdlen := read_u16 packet (offset + 8) in
        let offset := (offset + 10)%nat in
        let rdata_end := (offset + Z.to_nat rdlen)%nat in
        if (length packet <? rdata_end)%nat then derr EINVAL
        else if (typ =? DNS_TYPE_A) && (class =? DNS_CLASS_IN) && (rdlen =? 4) then
          let! a := index packet offset in
          let! b := index packet (offset + 1) in
          let! c := index packet (offset + 2) in
          let! d := index packet (offset + 3) in
          dret (AnswerA (Z.lor (Z.lor (Z.lor (Z.shiftl a 24) (Z.shiftl b 16)) (Z.shiftl c 8)) d))
        else if (typ =? DNS_TYPE_CNAME) && (class =? DNS_CLASS_IN) then
          match read_name packet offset with
          | Some (Ok (name, _)) => scan_answers n packet rdata_end (Some name)
          | Some (Err _) => scan_answers n packet rdata_end cname
          | None => None
          end
        else scan_answers n packet rdata_end cname
  end.

Definition parse_response (packet : bytes) (txid : Z) : dns DnsAnswer :=
  if (length packet <? 12)%nat then derr EINVAL
  else
    let! id := read_u16 packet 0 in
    if negb (id =? txid) then derr EINVAL
    else
      let! flags := read_u16 packet 2 in
      if Z.land flags 32768 =? 0 then derr EINVAL
      else if negb (Z.land flags 15 =? 0) then derr ENOENT
      else
        let! qdcount := read_u16 packet 4 in
        let! ancount := read_u16 packet 6 in
        let! offset := skip_questions (Z.to_nat qdcount) packet 12 in
        scan_answers (Z.to_nat ancount) packet offset None.

(** ** IPv4 literals *)

(** The digits of one part; [value] is what was read so far. *)
Fixpoint parse_part (part : bytes) (value : Z) : option Z :=
  match part with
  | [] => Some value
  | b :: part =>
      if negb ((48 <=? b) && (b <=? 57)) then None
      else
        let value := value * 10 + (b - 48) in
        if 255 <? value then None else parse_part part value
  end.

Fixpoint parse_parts (parts : list bytes) (ip : Z) (count : nat) : option (Z * nat) :=
  match parts with
  | [] => Some (ip, count)
  | part :: parts =>
      if bool_decide (part = []) || (3 <? length part)%nat then None
      else
        match parse_part part 0 with
        | None => None
        | Some value => parse_parts parts (Z.lor (u32 (Z.shiftl ip 8)) value) (S count)
        end
  end.

Definition parse_ipv4_literal (name : bytes) : option Z :=
  match parse_parts (split_dot name) 0 0 with
  | Some (ip, count) => if (count =? 4)%nat then Some ip else None
  | None => None
  end.

(** ** The resolver *)

Definition next_txid {X} (s : Net X) : Net X * Z :=
  (set_next_txid_ (u16 (next_txid_ s + 1)) s, next_txid_ s).

Section Resolve.
Context {X : Type} `{NetDevices X} `{TcpSocketLayer X}.

(** [suspend_current_and_run_next]: what other tasks do meanwhile. *)
Context (suspend : Net X -> Net X).

(** [socket.lock().try_recv_from(&mut buf)] on a stored socket. *)
Definition store_try_recv (id : SockId) (buf : bytes) (s : Net X) :
    Net X * bytes * result (nat * Z * Z) SysError :=
  match udp_store s !! id with
  | None => (s, buf, Err EINVAL)
  | Some so =>
      let '(so, buf, r) := try_recv_from so buf in
      (set_udp_store (<[id := so]> (udp_store s)) s, buf, r)
  end.

(** The wait loop: [None] while no answer has been decided within [fuel] turns. *)
Fixpoint wait_response (fuel : nat) (id : SockId) (server txid deadline : Z) (buf : bytes) (s : Net X) :
    Net X * option (dns DnsAnswer) :=
  match fuel with
  | O => (s, None)
  | S fuel =>
      let s := poll_rx_all s in
      match store_try_recv id buf s with
      | (s, buf, Ok (n, src_ip, src_port)) =>
          if negb (src_ip =? server) || negb (src_port =? DNS_PORT)
          then wait_response fuel id server txid deadline buf s
          else (s, Some (parse_response (take n buf) txid))
      | (s, buf, Err EAGAIN) =>
          if deadline <=? time_us s then (s, Some (derr ETIMEDOUT))
          else wait_response fuel id server txid deadline buf (suspend s)
      | (s, buf, Err e) => (s, Some (derr e))
      end
  end.

(** [resolve_ipv4_inner]; [budget] is [DNS_MAX_RECURSION - depth].  The
    registration guard is dropped when the body has produced its result. *)
Fixpoint resolve_ipv4_inner (budget : nat) (fuel : nat) (name : bytes) (server : Z) (s : Net X) :
    Net X * option (dns Z) :=
  match budget with
  | O => (s, Some (derr ELOOP))
  | S budget =>
      match parse_ipv4_literal name with
      | Some ip => (s, Some (dret ip))
      | None =>
          let '(s, txid) := next_txid s in
          match build_query name txid with
          | Err e => (s, Some (derr e))
          | Ok query =>
              match connect udp_socket_new server DNS_PORT s with
              | (s, Err _) => (s, Some (derr ENETUNREACH))
              | (s, Ok so) =>
                  match local_addr so with
                  | None => (s, Some (derr EINVAL))
                  | Some src =>
                      let id := fresh (dom (udp_store s)) in
                      let s := set_udp_store (<[id := so]> (udp_store s)) s in
                      let s := register_udp_socket (snd src) id s in
                      let '(s, r) :=
                        match send_udp_packet src query server DNS_PORT s with
                        | (s, Err e) => (s, Some (derr e))
                        | (s, Ok _) =>
                            let deadline := Z.min (time_us s + DNS_TIMEOUT_US) (2 ^ 64 - 1) in
                            match wait_response fuel id server txid deadline (replicate DNS_MAX_PACKET 0) s with
                            | (s, Some (Some (Ok (AnswerA ip)))) => (s, Some (dret ip))
                            | (s, Some (Some (Ok (AnswerCname cname)))) => resolve_ipv4_inner budget fuel cname server s
                            | (s, Some (Some (Ok AnswerNoData))) => (s, Some (derr ENODATA))
                            | (s, Some (Some (Err e))) => (s, Some (derr e))
                            | (s, Some None) => (s, Some None)
                            | (s, None) => (s, None)
                            end
                        end in
                      let s := unregister_udp_socket (snd src) id s in
                      (set_udp_store (delete id (udp_store s)) s, r)
                  end
              end
          end
      end
  end.

Definition default_server `{BuildConfig} : Z :=
  match board with Qemu => 167772675 | _ => 16843009 end.

Definition resolve_ipv4_with_server (fuel : nat) (name : bytes) (server : Z) (s : Net X) :=
  resolve_ipv4_inner DNS_MAX_RECURSION fuel name server s.

Definition resolve_ipv4 `{BuildConfig} (fuel : nat) (name : bytes) (s : Net X) :=
  resolve_ipv4_with_server fuel name default_server s.

End Resolve.

(** ** Parsing never leaves the packet *)

(** A parse result that is not a panic; errors are among those listed. *)
Definition parsed {A} (P : A -> Prop) (r : dns A) : Prop :=
  match r with
  | None => False
  | Some (Ok a) => P a
  | Some (Err e) => e = EINVAL \/ e = ELOOP \/ e = ENOENT
  end.

Lemma parsed_bind {A B} (P : A -> Prop) (Q : B -> Prop) (r : dns A) (k : A -> dns B) :
  parsed P r -> (forall a, P a -> parsed Q (k a)) -> parsed Q (dbind r k).
Proof. destruct r as [[a|e]|]; simpl; auto. Qed.

Lemma parsed_einval {A} (P : A -> Prop) : parsed P (derr EINVAL).
Proof. simpl. auto. Qed.

Lemma index_lt packet i : (i < length packet)%nat -> exists b, packet !! i = Some b /\ index packet i = dret b.
Proof. intros Hi. unfold index. destruct (lookup_lt_is_Some_2 packet i Hi) as [b ->]. eauto. Qed.

Lemma index_parsed packet i : (i < length packet)%nat -> parsed (fun _ => True) (index packet i).
Proof. intros Hi. destruct (index_lt packet i Hi) as (b & _ & ->). done. Qed.

Lemma read_u16_parsed packet o : parsed (fun _ => True) (read_u16 packet o).
Proof.
  unfold read_u16. case_if; [apply parsed_einval|].
  eapply parsed_bind; [apply index_parsed; lia|]. intros hi _.
  eapply parsed_bind; [apply index_parsed; lia|]. done.
Qed.

Lemma index_range_in packet a b : (a <= b)%nat -> (b <= length packet)%nat -> index_range packet a b = dret (slice a b packet).
Proof. intros H1 H2. unfold index_range. rewrite (proj2 (Nat.leb_le _ _) H1), (proj2 (Nat.leb_le _ _) H2). done. Qed.

(** The name loop ends within its fuel, and parsing continues inside the packet. *)
Lemma read_name_loop_parsed fuel packet offset guard jumped next labels :
  (guard <= length packet < fuel + guard)%nat -> (jumped = true -> next <= length packet)%nat ->
  parsed (fun r => (snd r <= length packet)%nat)
    (read_name_loop fuel packet offset guard jumped next labels).
Proof.
  revert offset guard jumped next labels.
  induction fuel as [|fuel IH]; intros offset guard jumped next labels Hf Hj; cbn [read_name_loop]; [lia|].
  case_if; [apply parsed_einval|]. case_if; [simpl; auto|].
  eapply parsed_bind; [apply index_parsed; lia|]. intros l _.
  case_if.
  - case_if; [apply parsed_einval|]. eapply parsed_bind; [apply index_parsed; lia|]. intros lo _.
    apply IH; [lia|]. intros _. destruct jumped; simpl; [auto|lia].
  - case_if; [apply parsed_einval|]. case_if; [destruct jumped; simpl; [auto|lia]|].
    case_if; [apply parsed_einval|]. rewrite index_range_in by lia. cbn [dbind dret]. case_if; [|apply parsed_einval]. apply IH; [lia|done].
Qed.

Lemma read_name_parsed packet o : parsed (fun r => (snd r <= length packet)%nat) (read_name packet o).
Proof. apply read_name_loop_parsed; [lia|done]. Qed.

Lemma skip_name_parsed packet o : parsed (fun n => (n <= length packet)%nat) (skip_name packet o).
Proof. eapply parsed_bind; [apply read_name_parsed|]. by intros [name next] ?. Qed.

Lemma skip_questions_parsed n packet o : parsed (fun _ => True) (skip_questions n packet o).
Proof.
  revert o. induction n as [|n IH]; intros o; cbn [skip_questions]; [done|].
  eapply parsed_bind; [apply skip_name_parsed|]. intros o' _. case_if; [apply parsed_einval|apply IH].
Qed.

Lemma scan_answers_parsed n packet o cname : parsed (fun _ => True) (scan_answers n packet o cname).
Proof.
  revert o cname. induction n as [|n IH]; intros o cname; cbn [scan_answers]; [done|].
  eapply parsed_bind; [apply skip_name_parsed|]. intros o' Ho. case_if; [apply parsed_einval|].
  do 3 (eapply parsed_bind; [apply read_u16_parsed|]; intros ? _). cbv zeta.
  case_if; [apply parsed_einval|]. case_if.
  - subst. change (Z.to_nat 4) with 4%nat in *.
    do 4 (eapply parsed_bind; [apply index_parsed; lia|]; intros ? _). done.
  - pose proof (read_name_parsed packet (o' + 10)) as Hr.
    case_if; [|apply IH]. destruct (read_name packet (o' + 10)) as [[[name nx]|e]|]; [apply IH..|done].
Qed.

Lemma parse_response_parsed packet txid : parsed (fun _ => True) (parse_response packet txid).
Proof.
  unfold parse_response. case_if; [apply parsed_einval|].
  eapply parsed_bind; [apply read_u16_parsed|]; intros id _. case_if; [apply parsed_einval|].
  eapply parsed_bind; [apply read_u16_parsed|]; intros flags _. case_if; [apply parsed_einval|].
  case_if; [simpl; auto|].
  do 2 (eapply parsed_bind; [apply read_u16_parsed|]; intros ? _).
  eapply parsed_bind; [apply skip_questions_parsed|]; intros ? _. apply scan_answers_parsed.
Qed.

(** ** Names *)

Lemma split_dot_cons bs : exists l ls, split_dot bs = l :: ls.
Proof. induction bs as [|b bs (l & ls & E)]; simpl; [eauto|]. rewrite E. destruct (b =? dot); eauto. Qed.

Lemma join_split bs : join_dot (split_dot bs) = bs.
Proof.
  induction bs as [|b bs IH]; simpl; [done|]. destruct (split_dot_cons bs) as (l & ls & E). rewrite E in *.
  destruct (Z.eqb_spec b dot) as [->|]; [by rewrite <- IH|]. destruct ls; simpl in *; by rewrite IH.
Qed.

(** No label contains the separator. *)
Definition no_dot (l : bytes) : Prop := Forall (fun b => b <> dot) l.

Lemma split_join ls : ls <> [] -> Forall no_dot ls -> split_dot (join_dot ls) = ls.
Proof.
  assert (Hl : forall l rest, no_dot l ->
    split_dot (l ++ rest) = match split_dot rest with k :: ks => (l ++ k) :: ks | [] => [l] end).
  { intros l rest Hl. induction Hl as [|b l Hb _ IH]; simpl.
    - destruct (split_dot_cons rest) as (k & ks & ->). done.
    - rewrite IH. destruct (split_dot_cons rest) as (k & ks & ->). by rewrite (proj2 (Z.eqb_neq _ _) Hb). }
  intros Hne HF. induction HF as [|l ls Hl1 HF IH]; [done|]. destruct ls as [|k ks].
  - simpl. rewrite <- (app_nil_r l), Hl by done. simpl. done.
  - change (join_dot (l :: k :: ks)) with (l ++ dot :: join_dot (k :: ks)). rewrite Hl by done.
    cbn [split_dot]. rewrite Z.eqb_refl, IH by done. by rewrite app_nil_r.
Qed.

Lemma trim_end_prefix bs : exists k, bs = trim_end_dots bs ++ replicate k dot.
Proof.
  induction bs as [|b bs [k IH]]; simpl; [by exists 0%nat|]. destruct (trim_end_dots bs) as [|t ts].
  - destruct (Z.eqb_spec b dot) as [->|]; [exists (S k)|exists k]; simpl in *; by rewrite <- IH.
  - exists k. simpl in *. by rewrite <- IH.
Qed.

(** UTF-8 sequences, one character at a time. *)
Lemma utf8_ind (P : bytes -> Prop) :
  P [] ->
  (forall a bs, a < 128 -> from_utf8 bs = true -> P bs -> P (a :: bs)) ->
  (forall u bs, Forall (fun b => 128 <= b) u -> (forall r, from_utf8 (u ++ r) = from_utf8 r) ->
     from_utf8 bs = true -> P bs -> P (u ++ bs)) ->
  forall bs, from_utf8 bs = true -> P bs.
Proof.
  intros H0 H1 H2 bs. remember (length bs) as n eqn:En. revert bs En.
  induction n as [n IH] using lt_wf_ind. intros [|a bs] -> Hu; [done|]. simpl in Hu.
  destruct (Z.ltb_spec a 128).
  { apply H1; [done|done|]. eapply IH; [|done|done]. simpl. lia. }
  destruct ((194 <=? a) && (a <=? 223)) eqn:E2.
  { destruct bs as [|b bs]; [done|]. to_prop. unfold cont_byte in *. to_prop.
    apply (H2 [a; b]); [repeat constructor; lia| |done|eapply IH; [|done|done]; simpl; lia].
    intros r. simpl. unfold cont_byte. destruct (Z.ltb_spec a 128); [lia|].
    rewrite (proj2 (Z.leb_le 194 a)), (proj2 (Z.leb_le a 223)), (proj2 (Z.leb_le 128 b)), (proj2 (Z.leb_le b 191)) by lia. done. }
  destruct ((224 <=? a) && (a <=? 239)) eqn:E3.
  { destruct bs as [|b [|c bs]]; [done..|]. apply andb_true_iff in Hu as [Hbc Hu].
    assert (Hb : 128 <= b /\ 128 <= c).
    { unfold second_byte, cont_byte in Hbc. revert Hbc. repeat case_if; intros; to_prop; lia. }
    apply (H2 [a; b; c]); [repeat constructor; lia| |done|eapply IH; [|done|done]; simpl; lia].
    intros r. simpl. destruct (Z.ltb_spec a 128); [lia|]. by rewrite E2, E3, Hbc. }
  destruct ((240 <=? a) && (a <=? 244)) eqn:E4; [|done].
  destruct bs as [|b [|c [|d bs]]]; [done..|]. apply andb_true_iff in Hu as [Hbc Hu].
  assert (Hb : 128 <= b /\ 128 <= c /\ 128 <= d).
  { unfold second_byte, cont_byte in Hbc. revert Hbc. repeat case_if; intros; to_prop; lia. }
  apply (H2 [a; b; c; d]); [repeat constructor; lia| |done|eapply IH; [|done|done]; simpl; lia].
  intros r. simpl. destruct (Z.ltb_spec a 128); [lia|]. by rewrite E2, E3, E4, Hbc.
Qed.

Lemma from_utf8_ascii a bs : a < 128 -> from_utf8 (a :: bs) = from_utf8 bs.
Proof. intros Ha. simpl. by rewrite (proj2 (Z.ltb_lt _ _) Ha). Qed.

Lemma from_utf8_split bs : from_utf8 bs = true -> Forall (fun l => from_utf8 l = true) (split_dot bs).
Proof.
  revert bs. apply (utf8_ind (fun bs => Forall (fun l => from_utf8 l = true) (split_dot bs))).
  - by repeat constructor.
  - intros a bs Ha _ IH. simpl. destruct (a =? dot); [by constructor|].
    destruct (split_dot_cons bs) as (l & ls & E). rewrite E in *. apply Forall_cons in IH as [Hl IH].
    constructor; [|done]. simpl. by rewrite (proj2 (Z.ltb_lt _ _) Ha).
  - intros u bs Hu Hr _ IH. assert (E : split_dot (u ++ bs) =
      match split_dot bs with k :: ks => (u ++ k) :: ks | [] => [u] end).
    { clear Hr. induction Hu as [|b u Hb _ IHu]; simpl.
      - by destruct (split_dot_cons bs) as (k & ks & ->).
      - rewrite IHu. destruct (split_dot_cons bs) as (k & ks & ->). destruct (Z.eqb_spec b dot); [unfold dot in *; lia|done]. }
    rewrite E. destruct (split_dot_cons bs) as (l & ls & E'). rewrite E' in *.
    apply Forall_cons in IH as [Hl IH]. constructor; [by rewrite Hr|done].
Qed.

Lemma from_utf8_trim bs : from_utf8 bs = true -> from_utf8 (trim_end_dots bs) = true.
Proof.
  revert bs. apply (utf8_ind (fun bs => from_utf8 (trim_end_dots bs) = true)); [done| |].
  - intros a bs Ha _ IH. simpl. apply Z.ltb_lt in Ha. destruct (trim_end_dots bs) as [|t ts].
    + destruct (a =? dot); [done|]. simpl. by rewrite Ha.
    + rewrite from_utf8_ascii; [done|by apply Z.ltb_lt].
  - intros u bs Hu Hr _ IH. destruct u as [|b u] using rev_ind; [done|clear IHu].
    assert (E : trim_end_dots ((u ++ [b]) ++ bs) = (u ++ [b]) ++ trim_end_dots bs).
    { apply Forall_app in Hu as [Hu Hb]. apply Forall_cons in Hb as [Hb _]. cbv beta in Hb. rewrite <- !app_assoc. simpl.
      assert (Eb : trim_end_dots (b :: bs) = b :: trim_end_dots bs).
      { simpl. destruct (trim_end_dots bs); [|done]. destruct (Z.eqb_spec b dot); [unfold dot in *; lia|done]. }
      clear Hr. induction u as [|x u IHu]; [done|]. apply Forall_cons in Hu as [_ Hu].
      simpl app. cbn [trim_end_dots]. rewrite IHu by done. by destruct u. }
    by rewrite E, Hr.
Qed.

(** ** Encoding and decoding a name *)

Definition encode_label (l : bytes) : bytes := Z.of_nat (length l) :: l.
Definition encode_labels (ls : list bytes) : bytes := concat (encode_label <$> ls).
Definition label_ok (l : bytes) : Prop := (0 < length l <= 63)%nat.

Lemma push_labels_ok packet ls packet' :
  push_labels packet ls = Ok packet' -> packet' = packet ++ encode_labels ls /\ Forall label_ok ls.
Proof.
  unfold encode_labels. revert packet. induction ls as [|l ls IH]; intros packet; simpl.
  - intros [= ->]. by rewrite app_nil_r.
  - case_if; [done|]. intros Hp. apply IH in Hp as [-> HF].
    assert (Hl : label_ok l) by (unfold label_ok; destruct l; [done|simpl in *; lia]).
    split; [|by constructor]. rewrite <- app_assoc. simpl.
    rewrite wrap_small by (unfold in_u, label_ok in *; lia). done.
Qed.

Lemma push_name_ok packet name packet' :
  push_name packet name = Ok packet' ->
  packet' = packet ++ encode_labels (split_dot (trim_end_dots name)) ++ [0] /\
  Forall label_ok (split_dot (trim_end_dots name)).
Proof.
  unfold push_name. case_if; [done|]. intros Hp. apply rbind_ok in Hp as (p & Hp & [= <-]).
  apply push_labels_ok in Hp as [-> HF]. by rewrite <- app_assoc.
Qed.

Lemma land_192 l : 0 <= l < 64 -> Z.land l 192 = 0.
Proof.
  intros Hl. apply Z.bits_inj'. intros n Hn. rewrite Z.land_spec, Z.bits_0.
  destruct (Z.lt_ge_cases n 6).
  - replace 192 with (Z.shiftl 3 6) by done. by rewrite Z.shiftl_spec_low, andb_false_r.
  - replace l with (l mod 2 ^ 6) by (apply Z.mod_small; lia). by rewrite Z.mod_pow2_bits_high by lia.
Qed.

Lemma index_middle pre b post : index (pre ++ b :: post) (length pre) = dret b.
Proof. unfold index. by rewrite list_lookup_middle. Qed.

Lemma slice_middle {A} (pre l post : list A) :
  slice (length pre) (length pre + length l) (pre ++ l ++ post) = l.
Proof.
  unfold slice. rewrite drop_app_length. replace (length pre + length l - length pre)%nat with (length l) by lia.
  apply take_app_length.
Qed.

(** Reading encoded labels, wherever they stand in the packet. *)
Lemma read_labels ls fuel (pre post : bytes) guard jumped next acc :
  Forall label_ok ls -> Forall (fun l => from_utf8 l = true) ls -> (length ls < fuel)%nat ->
  (guard + length ls < length (pre ++ encode_labels ls ++ 0%Z :: post))%nat ->
  read_name_loop fuel (pre ++ encode_labels ls ++ 0 :: post) (length pre) guard jumped next acc =
  dret (join_dot (acc ++ ls), if negb jumped then (length pre + length (encode_labels ls) + 1)%nat else next).
Proof.
  intros Hok Hu. revert fuel pre guard acc. induction Hok as [|l ls Hl _ IH]; intros fuel pre guard acc Hf Hg;
    (destruct fuel as [|fuel]; [simpl in Hf; lia|]).
  - cbn [read_name_loop encode_labels fmap list_fmap concat app] in *. rewrite length_app in *. simpl in *.
    case_if; [lia|]. case_if; [lia|]. rewrite index_middle. simpl. rewrite app_nil_r.
    do 2 f_equal. destruct jumped; simpl; [done|]. f_equal. lia.
  - apply Forall_cons in Hu as [Hul Hu]. unfold label_ok in Hl.
    set (rest := encode_labels ls ++ 0 :: post) in *.
    assert (Ep : pre ++ encode_labels (l :: ls) ++ 0 :: post = pre ++ Z.of_nat (length l) :: l ++ rest).
    { unfold encode_labels, rest. rewrite fmap_cons. cbn [concat encode_label app]. by rewrite <- app_assoc. }
    rewrite Ep in *. cbn [read_name_loop].
    assert (Hlen : length (pre ++ Z.of_nat (length l) :: l ++ rest) = (length pre + 1 + length l + length rest)%nat)
      by (rewrite length_app; simpl; rewrite length_app; lia).
    simpl length in Hg. case_if; [lia|]. case_if; [lia|]. rewrite index_middle. cbn [dbind dret].
    rewrite land_192 by lia. cbn [Z.eqb negb]. case_if; [lia|]. rewrite Nat2Z.id. case_if; [lia|]. rewrite index_range_in by lia. cbn [dbind dret].
    assert (Es : slice (S (length pre)) (S (length pre) + length l) (pre ++ Z.of_nat (length l) :: l ++ rest) = l).
    { rewrite cons_middle, app_assoc. replace (S (length pre)) with (length (pre ++ [Z.of_nat (length l)]))
        by (rewrite length_app; simpl; lia). apply slice_middle. }
    rewrite Es, Hul.
    replace (S (length pre) + length l)%nat with (length (pre ++ Z.of_nat (length l) :: l))
      by (rewrite length_app; simpl; lia).
    assert (Ep2 : pre ++ Z.of_nat (length l) :: l ++ rest = (pre ++ Z.of_nat (length l) :: l) ++ rest)
      by (rewrite <- app_assoc; done).
    rewrite Ep2. unfold rest. rewrite IH; [|done|simpl in Hf; lia|rewrite <- Ep2, Hlen in *; fold rest; lia].
    rewrite <- app_assoc. simpl. do 2 f_equal. destruct jumped; simpl; [done|]. f_equal.
    unfold encode_labels. rewrite !length_app. simpl. change (list_fmap bytes bytes encode_label ls) with (encode_label <$> ls). lia.
Qed.

Lemma encode_labels_length ls : Forall label_ok ls -> (2 * length ls <= length (encode_labels ls))%nat.
Proof.
  unfold encode_labels, label_ok. induction 1 as [|l ls Hl _ IH]; [done|]. rewrite fmap_cons.
  cbn [concat encode_label length]. rewrite length_app. simpl. lia.
Qed.

Lemma read_name_encoded ls pre post :
  Forall label_ok ls -> Forall (fun l => from_utf8 l = true) ls ->
  read_name (pre ++ encode_labels ls ++ 0 :: post) (length pre) =
  dret (join_dot ls, (length pre + length (encode_labels ls) + 1)%nat).
Proof.
  intros Hok Hu. pose proof (encode_labels_length ls Hok). unfold read_name.
  rewrite read_labels; [done|done|done|..]; rewrite !length_app; simpl; lia.
Qed.

(** A compression pointer to encoded labels. *)
Lemma read_name_pointer ls pre mid post :
  Forall label_ok ls -> Forall (fun l => from_utf8 l = true) ls -> (length pre < 256)%nat ->
  let packet := pre ++ encode_labels ls ++ 0 :: mid ++ 192 :: Z.of_nat (length pre) :: post in
  let o := (length pre + length (encode_labels ls) + 1 + length mid)%nat in
  read_name packet o = dret (join_dot ls, (o + 2)%nat).
Proof.
  intros Hok Hu Hp packet o. pose proof (encode_labels_length ls Hok) as He.
  assert (Hl : length packet = (o + 2 + length post)%nat).
  { unfold packet, o. repeat (rewrite length_app || simpl). lia. }
  assert (Ep : packet = (pre ++ encode_labels ls ++ 0 :: mid) ++ 192 :: Z.of_nat (length pre) :: post)
    by (unfold packet; rewrite <- !app_assoc; simpl; by rewrite <- ?app_assoc).
  assert (Eo : o = length (pre ++ encode_labels ls ++ 0 :: mid))
    by (unfold o; repeat (rewrite length_app || simpl); lia).
  assert (I1 : index packet o = dret 192) by (rewrite Ep, Eo; apply index_middle).
  assert (I2 : index packet (o + 1) = dret (Z.of_nat (length pre))).
  { rewrite Ep, Eo, cons_middle, app_assoc.
    replace (length (pre ++ encode_labels ls ++ 0%Z :: mid) + 1)%nat
      with (length ((pre ++ encode_labels ls ++ 0 :: mid) ++ [192])) by (rewrite length_app; done).
    apply index_middle. }
  unfold read_name. cbn [read_name_loop]. case_if; [lia|]. case_if; [lia|]. rewrite I1.
  cbn [dbind dret]. change (Z.land 192 192 =? 192) with true. cbv iota. case_if; [lia|]. rewrite I2. cbn [dbind dret negb].
  change (Z.land 192 63) with 0. rewrite Z.shiftl_0_l, Z.lor_0_l, Nat2Z.id. unfold packet.
  rewrite read_labels; [done|done|done|..]; fold packet; rewrite ?Hl; unfold o; lia.
Qed.

(** ** Reading fields *)

Lemma read_u16_at packet pre v post :
  packet = pre ++ be_store 2 v ++ post -> in_u 16 v -> read_u16 packet (length pre) = dret v.
Proof.
  intros -> Hv. unfold read_u16. rewrite !length_app, be_store_length. case_if; [lia|].
  assert (Hb : exists x y, be_store 2 v = [x; y]) by (by eexists _, _). destruct Hb as (x & y & Eb). rewrite Eb.
  cbn [app]. rewrite index_middle. cbn [dbind dret].
  rewrite cons_middle, app_assoc.
  replace (S (length pre)) with (length (pre ++ [x])) by (rewrite length_app; simpl; lia).
  rewrite index_middle. cbn [dbind dret]. rewrite <- Eb, be_load_store. by rewrite wrap_small.
Qed.

Lemma lor_add k x y : 0 <= k -> 0 <= y < 2 ^ k -> Z.lor (x * 2 ^ k) y = x * 2 ^ k + y.
Proof.
  intros Hk Hy. rewrite <- Z.shiftl_mul_pow2 by done.
  assert (Hl : Z.land (Z.shiftl x k) y = 0).
  { apply Z.bits_inj'. intros n Hn. rewrite Z.land_spec, Z.bits_0. destruct (Z.lt_ge_cases n k).
    - by rewrite Z.shiftl_spec_low.
    - replace y with (y mod 2 ^ k) by (apply Z.mod_small; lia).
      rewrite Z.mod_pow2_bits_high by lia. apply andb_false_r. }
  by rewrite <- Z.lxor_lor, <- Z.add_nocarry_lxor.
Qed.

(** The four octets of an A record. *)
Lemma octets_be ip : in_u 32 ip ->
  exists a b c d, be_store 4 ip = [a; b; c; d] /\
    Z.lor (Z.lor (Z.lor (Z.shiftl a 24) (Z.shiftl b 16)) (Z.shiftl c 8)) d = ip.
Proof.
  intros Hip. pose proof (be_store_bytes 4 ip) as Hb. pose proof (be_load_store 4 ip) as Hl.
  assert (He : exists a b c d, be_store 4 ip = [a; b; c; d]) by (by eexists _, _, _, _).
  destruct He as (a & b & c & d & E). exists a, b, c, d. split; [done|]. rewrite E in *.
  rewrite wrap_small in Hl by done. unfold is_bytes, is_byte in Hb. rewrite !Forall_cons in Hb.
  destruct Hb as (Ha & Hb & Hc & Hd & _). unfold be_load in Hl. simpl rev in Hl. cbn [le_load] in Hl.
  rewrite !Z.shiftl_mul_pow2 by lia.
  rewrite (lor_add 24) by lia. replace (a * 2 ^ 24 + b * 2 ^ 16) with ((a * 256 + b) * 2 ^ 16) by lia.
  rewrite (lor_add 16) by lia. replace ((a * 256 + b) * 2 ^ 16 + c * 2 ^ 8) with (((a * 256 + b) * 256 + c) * 2 ^ 8) by lia.
  rewrite (lor_add 8) by lia. lia.
Qed.

(** The answer section with one A record whose name points back to the question. *)
Definition a_answer (ip : Z) (ttl post : bytes) : bytes :=
  192 :: 12 :: be_store 2 DNS_TYPE_A ++ be_store 2 DNS_CLASS_IN ++ ttl ++ be_store 2 4 ++ be_store 4 ip ++ post.

(** A server's response to [query]: same id and question, one A record. *)
Definition a_response (query : bytes) (ip : Z) (ttl post : bytes) : bytes :=
  take 2 query ++ be_store 2 33152 ++ be_store 2 1 ++ be_store 2 1 ++ [0; 0; 0; 0] ++ drop 12 query ++
  a_answer ip ttl post.

Lemma build_query_ok name txid q :
  build_query name txid = Ok q ->
  let ls := split_dot (trim_end_dots name) in
  Forall label_ok ls /\
  q = be_store 2 txid ++ be_store 2 256 ++ be_store 2 1 ++ [0; 0; 0; 0; 0; 0] ++
      encode_labels ls ++ 0 :: be_store 2 1 ++ be_store 2 1.
Proof.
  unfold build_query, question_write_to. intros Hq. apply rbind_ok in Hq as (p & Hp & [= <-]).
  apply push_name_ok in Hp as [-> HF]. split; [exact HF|]. unfold push_u16.
  repeat rewrite <- app_assoc. done.
Qed.

Lemma scan_a_answer ls pre ip ttl post :
  Forall label_ok ls -> Forall (fun l => from_utf8 l = true) ls -> length pre = 12%nat ->
  in_u 32 ip -> length ttl = 4%nat ->
  let packet := pre ++ encode_labels ls ++ 0 :: [0; 1; 0; 1] ++ a_answer ip ttl post in
  scan_answers 1 packet (length pre + length (encode_labels ls) + 1 + 4) None = dret (AnswerA ip).
Proof.
  intros Hok Hu Hpre Hip Httl packet. set (o := (length pre + length (encode_labels ls) + 1 + 4)%nat).
  set (q := pre ++ encode_labels ls ++ 0 :: [0; 1; 0; 1]).
  assert (Hq : length q = o) by (unfold q, o; repeat (rewrite length_app || simpl); lia).
  assert (Ep : packet = q ++ a_answer ip ttl post).
  { unfold packet, q. rewrite <- !app_assoc. done. }
  assert (Hlen : length packet = (o + 16 + length post)%nat).
  { rewrite Ep, length_app, Hq. unfold a_answer. repeat (rewrite length_app || rewrite be_store_length || simpl). lia. }
  cbn [scan_answers]. unfold skip_name.
  pose proof (read_name_pointer ls pre [0; 1; 0; 1] (be_store 2 DNS_TYPE_A ++ be_store 2 DNS_CLASS_IN ++ ttl ++ be_store 2 4 ++ be_store 4 ip ++ post) Hok Hu) as Hr.
  rewrite Hpre in Hr. cbv zeta in Hr. change (Z.of_nat 12) with 12 in Hr. rewrite <- Hpre in Hr at 3 4.
  assert (Hr' : read_name packet o = dret (join_dot ls, (o + 2)%nat)) by (apply Hr; lia). clear Hr.
  rewrite Hr'. cbn [dbind dret]. case_if; [lia|].
  assert (R : forall k v mid rest, a_answer ip ttl post = mid ++ be_store 2 v ++ rest -> length mid = k -> in_u 16 v ->
    read_u16 packet (o + k) = dret v).
  { intros k v mid rest Ea <- Hv. rewrite <- Hq, <- length_app. apply (read_u16_at packet (q ++ mid) v rest); [|done].
    by rewrite Ep, Ea, <- app_assoc. }
  rewrite (R 2%nat DNS_TYPE_A [192; 12] (be_store 2 DNS_CLASS_IN ++ ttl ++ be_store 2 4 ++ be_store 4 ip ++ post)) by done.
  cbn [dbind dret]. rewrite <- !Nat.add_assoc. change (2 + 2)%nat with 4%nat. change (2 + 8)%nat with 10%nat. change (2 + 10)%nat with 12%nat.
  rewrite (R 4%nat DNS_CLASS_IN (192 :: 12 :: be_store 2 DNS_TYPE_A) (ttl ++ be_store 2 4 ++ be_store 4 ip ++ post)) by done.
  cbn [dbind dret].
  rewrite (R 10%nat 4 (192 :: 12 :: be_store 2 DNS_TYPE_A ++ be_store 2 DNS_CLASS_IN ++ ttl) (be_store 4 ip ++ post));
    [|unfold a_answer; cbn [app]; by rewrite <- !app_assoc|simpl; lia|done].
  cbn [dbind dret]. change (Z.to_nat 4) with 4%nat. case_if; [lia|].
  change ((DNS_TYPE_A =? DNS_TYPE_A) && (DNS_CLASS_IN =? DNS_CLASS_IN) && (4 =? 4)) with true. cbv iota.
  destruct (octets_be ip Hip) as (a & b & c & d & Eip & <-).
  set (m := q ++ 192 :: 12 :: be_store 2 DNS_TYPE_A ++ be_store 2 DNS_CLASS_IN ++ ttl ++ be_store 2 4).
  assert (Hm : length m = (o + 12)%nat) by (unfold m; rewrite length_app, Hq; simpl; rewrite length_app; simpl; lia).
  assert (Em : packet = m ++ a :: b :: c :: d :: post).
  { rewrite Ep. unfold a_answer, m. rewrite Eip. rewrite <- app_assoc. cbn [app]. by rewrite <- !app_assoc. }
  assert (I : forall k x pre' post', a :: b :: c :: d :: post = pre' ++ x :: post' -> length pre' = k ->
    index packet (o + (12 + k)) = dret x).
  { intros k x pre' post' Ex <-. rewrite Nat.add_assoc, <- Hm, <- length_app, Em, Ex, app_assoc. apply index_middle. }
  pose proof (I 0%nat a [] (b :: c :: d :: post) eq_refl eq_refl) as I0. rewrite Nat.add_0_r in I0. rewrite I0.
  assert (I1 : index packet (o + (2 + (10 + 1))) = dret b) by exact (I 1%nat b [a] _ eq_refl eq_refl).
  assert (I2 : index packet (o + (2 + (10 + 2))) = dret c) by exact (I 2%nat c [a; b] _ eq_refl eq_refl).
  assert (I3 : index packet (o + (2 + (10 + 3))) = dret d) by exact (I 3%nat d [a; b; c] _ eq_refl eq_refl).
  cbn [dbind dret]. rewrite I1. cbn [dbind dret]. rewrite I2. cbn [dbind dret]. rewrite I3.
  done.
Qed.

(** ** IPv4 literals *)

(** Decimal digits without leading zeros, as [u8::to_string] prints them. *)
Definition dec (v : Z) : bytes :=
  if v <? 10 then [48 + v]
  else if v <? 100 then [48 + v / 10; 48 + v mod 10]
  else [48 + v / 100; 48 + v / 10 mod 10; 48 + v mod 10].

Lemma parse_part_dec v : 0 <= v <= 255 -> parse_part (dec v) 0 = Some v /\ (0 < length (dec v) <= 3)%nat /\ no_dot (dec v).
Proof.
  intros Hv.
  assert (Hall : forallb (fun v => bool_decide (parse_part (dec v) 0 = Some v) && (length (dec v) <=? 3)%nat &&
    (0 <? length (dec v))%nat && forallb (fun b => negb (b =? dot)) (dec v)) (seqZ 0 256) = true) by (vm_compute; reflexivity).
  rewrite forallb_forall in Hall. specialize (Hall v). rewrite <- list_elem_of_In, elem_of_seqZ in Hall.
  specialize (Hall ltac:(lia)). to_prop. split; [done|]. split; [lia|].
  unfold no_dot. apply Forall_forall. intros b Hb.
  match goal with Hd : forallb _ _ = true |- _ => rewrite forallb_forall in Hd; specialize (Hd b) end.
  rewrite <- list_elem_of_In in *. apply Z.eqb_neq, negb_true_iff. auto.
Qed.

Lemma shift_or ip v : 0 <= ip < 2 ^ 24 -> 0 <= v <= 255 -> Z.lor (u32 (Z.shiftl ip 8)) v = ip * 256 + v.
Proof.
  intros Hi Hv. rewrite Z.shiftl_mul_pow2, wrap_small by (unfold in_u; lia).
  rewrite (lor_add 8) by lia. lia.
Qed.

(** ** Main properties *)

(** C39: no DNS response can hurt the parser.  For every byte string and
    transaction id, [parse_response] terminates within the bounds built into it,
    never panics (no index and no range of a slice is outside the packet, compression
    loops and forward pointers included), and fails only with EINVAL, ELOOP or ENOENT. *)
Theorem parse_response_safe packet txid :
  exists r, parse_response packet txid = Some r /\
    match r with Ok _ => True | Err e => e = EINVAL \/ e = ELOOP \/ e = ENOENT end.
Proof.
  pose proof (parse_response_parsed packet txid) as Hp.
  destruct (parse_response packet txid) as [[a|e]|]; simpl in Hp; [eauto..|done].
Qed.

(** names survive the wire format.  What [push_name] appends for a name is
    read back by [read_name] as the same name (without trailing dots), wherever
    it stands in a packet, and parsing continues right behind it; a compression
    pointer to it from later in the packet yields the same name and continues
    behind the pointer. *)
Theorem dns_name_roundtrip name pre enc mid post :
  push_name [] name = Ok enc -> from_utf8 name = true -> (length pre < 256)%nat ->
  read_name (pre ++ enc ++ post) (length pre) = dret (trim_end_dots name, (length pre + length enc)%nat) /\
  let o := (length pre + length enc + length mid)%nat in
  read_name (pre ++ enc ++ mid ++ 192 :: Z.of_nat (length pre) :: post) o =
    dret (trim_end_dots name, (o + 2)%nat).
Proof.
  intros Hp Hu Hl. apply push_name_ok in Hp as [-> Hok]. set (ls := split_dot (trim_end_dots name)) in *.
  assert (Hv : Forall (fun l => from_utf8 l = true) ls) by (by apply from_utf8_split, from_utf8_trim).
  assert (Ej : join_dot ls = trim_end_dots name) by apply join_split.
  cbn [app]. rewrite length_app. simpl length. split.
  - rewrite <- app_assoc. cbn [app]. rewrite read_name_encoded, Ej by done. by rewrite Nat.add_assoc.
  - rewrite <- app_assoc. cbn [app]. replace (length pre + (length (encode_labels ls) + 1) + length mid)%nat
      with (length pre + length (encode_labels ls) + 1 + length mid)%nat by lia.
    by rewrite read_name_pointer, Ej by done.
Qed.

Lemma dns_name_roundtrip_witness :
  read_name ([1; 2] ++ [3; 119; 119; 119; 2; 97; 98; 0] ++ [9]) 2 = dret ([119; 119; 119; 46; 97; 98], 10%nat).
Proof.
  refine (proj1 (dns_name_roundtrip [119; 119; 119; 46; 97; 98; 46] [1; 2] [3; 119; 119; 119; 2; 97; 98; 0] [] [9] _ _ _)).
  - vm_compute. reflexivity.
  - vm_compute. reflexivity.
  - apply Nat.ltb_lt. reflexivity.
Defined.

(** a query is answered.  For every name the resolver accepts, the server's
    response to its query with an A record (same id and question, record name
    compressed to the question, any TTL, any bytes behind) is parsed to exactly
    that address. *)
Theorem dns_query_answered name txid query ip ttl post :
  build_query name txid = Ok query -> from_utf8 name = true -> in_u 16 txid -> in_u 32 ip -> length ttl = 4%nat ->
  parse_response (a_response query ip ttl post) txid = dret (AnswerA ip).
Proof.
  intros Hq Hu Ht Hip Httl. apply build_query_ok in Hq as [Hok ->]. set (ls := split_dot _) in *.
  assert (Hv : Forall (fun l => from_utf8 l = true) ls) by (by apply from_utf8_split, from_utf8_trim).
  set (pre := be_store 2 txid ++ be_store 2 33152 ++ be_store 2 1 ++ be_store 2 1 ++ [0; 0; 0; 0]).
  set (packet := a_response _ _ _ _).
  assert (Ep : packet = pre ++ encode_labels ls ++ 0 :: [0; 1; 0; 1] ++ a_answer ip ttl post).
  { unfold packet, a_response. set (q := be_store 2 txid ++ _).
    assert (Ed : drop 12 q = encode_labels ls ++ 0 :: [0; 1; 0; 1]) by reflexivity.
    assert (Et : take 2 q = be_store 2 txid) by reflexivity. rewrite Ed, Et. unfold pre.
    repeat rewrite <- app_assoc. reflexivity. }
  assert (Hpre : length pre = 12%nat) by done.
  assert (Hlen : length packet = (33 + length (encode_labels ls) + length post)%nat).
  { rewrite Ep. unfold a_answer. repeat (rewrite length_app || rewrite be_store_length || simpl). lia. }
  assert (R0 : read_u16 packet 0 = dret txid)
    by (apply (read_u16_at packet [] txid (drop 2 packet)); [rewrite Ep; reflexivity|done]).
  assert (R2 : read_u16 packet 2 = dret 33152)
    by (apply (read_u16_at packet (be_store 2 txid) 33152 (drop 4 packet)); [rewrite Ep; reflexivity|done]).
  assert (R4 : read_u16 packet 4 = dret 1)
    by (apply (read_u16_at packet (be_store 2 txid ++ be_store 2 33152) 1 (drop 6 packet)); [rewrite Ep; reflexivity|done]).
  assert (R6 : read_u16 packet 6 = dret 1)
    by (apply (read_u16_at packet (be_store 2 txid ++ be_store 2 33152 ++ be_store 2 1) 1 (drop 8 packet));
        [rewrite Ep; reflexivity|done]).
  unfold parse_response. case_if; [lia|]. rewrite R0, R2, R4, R6. cbn [dbind dret]. rewrite Z.eqb_refl.
  change (Z.land 33152 32768 =? 0) with false. change (negb (Z.land 33152 15 =? 0)) with false. cbn [negb].
  cbn [dbind dret]. change (Z.to_nat 1) with 1%nat. cbn [skip_questions]. unfold skip_name.
  replace 12%nat with (length pre) by done. rewrite Ep at 1. rewrite read_name_encoded by done. cbn [dbind dret].
  case_if; [lia|]. cbn [dbind dret]. rewrite Ep. by apply scan_a_answer.
Qed.

Lemma dns_query_answered_witness :
  parse_response (a_response [75; 88; 1; 0; 0; 1; 0; 0; 0; 0; 0; 0; 1; 97; 0; 0; 1; 0; 1] 16909060 [0; 0; 1; 44] []) 19288
  = dret (AnswerA 16909060).
Proof.
  refine (dns_query_answered [97] 19288 _ 16909060 [0; 0; 1; 44] [] _ _ _ _ _).
  - vm_compute. reflexivity.
  - reflexivity.
  - unfold in_u; lia.
  - unfold in_u; lia.
  - reflexivity.
Defined.

(** IPv4 literals.  The dotted-decimal text of every IPv4 address is
    recognised as exactly that address, so it is resolved without a query and
    without touching the network. *)
Theorem ipv4_literal_resolved {X} `{NetDevices X} `{TcpSocketLayer X} suspend fuel server a b c d (s : Net X) :
  0 <= a <= 255 -> 0 <= b <= 255 -> 0 <= c <= 255 -> 0 <= d <= 255 ->
  let text := dec a ++ dot :: dec b ++ dot :: dec c ++ dot :: dec d in
  resolve_ipv4_with_server suspend fuel text server s =
    (s, Some (dret (((a * 256 + b) * 256 + c) * 256 + d))).
Proof.
  intros Ha Hb Hc Hd text. unfold resolve_ipv4_with_server. cbn [resolve_ipv4_inner DNS_MAX_RECURSION].
  destruct (parse_part_dec a Ha) as (Pa & La & Na). destruct (parse_part_dec b Hb) as (Pb & Lb & Nb).
  destruct (parse_part_dec c Hc) as (Pc & Lc & Nc). destruct (parse_part_dec d Hd) as (Pd & Ld & Nd).
  assert (Ht : split_dot text = [dec a; dec b; dec c; dec d]).
  { apply (split_join [dec a; dec b; dec c; dec d]); [done|by repeat constructor]. }
  assert (Hstep : forall v parts ip n, 0 <= v <= 255 -> 0 <= ip < 2 ^ 24 ->
    parse_parts (dec v :: parts) ip n = parse_parts parts (ip * 256 + v) (S n)).
  { intros v parts ip n Hv Hip. destruct (parse_part_dec v Hv) as (Pv & Lv & _). cbn [parse_parts].
    rewrite Pv, shift_or by done. case_if; [|done]. destruct E as [E|E]; to_prop; [|lia].
    rewrite E in Lv. simpl in Lv. lia. }
  unfold parse_ipv4_literal. rewrite Ht, !Hstep by lia. reflexivity.
Qed.

Import TestWire.

Lemma ipv4_literal_resolved_witness :
  resolve_ipv4_with_server (fun s => s) 0 [49; 48; 46; 48; 46; 50; 46; 49; 53] 1 TestWire.host =
    (TestWire.host, Some (dret 167772687)).
Proof.
  exact (ipv4_literal_resolved (fun s => s) 0 1 10 0 2 15 TestWire.host ltac:(lia) ltac:(lia) ltac:(lia) ltac:(lia)).
Defined.

(** the resolver does not wait for ever.  If no datagram arrives while it
    waits and the clock advances whenever it yields, the wait ends with
    ETIMEDOUT. *)
Theorem dns_wait_times_out {X} `{NetDevices X} `{TcpSocketLayer X} suspend id so server txid deadline buf (s : Net X) :
  (forall s : Net X, poll_rx_all s = s) ->
  (forall s : Net X, exists t, time_us s < t /\ suspend s = set_time_us t s) ->
  udp_store s !! id = Some so -> receive_queue so = [] ->
  snd (wait_response suspend (S (Z.to_nat (deadline - time_us s))) id server txid deadline buf s) =
  Some (derr ETIMEDOUT).
Proof.
  intros Hpoll Hsus. remember (Z.to_nat (deadline - time_us s)) as n eqn:En.
  assert (Hn : (Z.to_nat (deadline - time_us s) <= n)%nat) by lia. clear En. revert s Hn.
  induction n as [n IH] using lt_wf_ind. intros s Hn Hst Hq.
  cbn [wait_response]. rewrite Hpoll. unfold store_try_recv. rewrite Hst. unfold try_recv_from. rewrite Hq.
  set (s1 := set_udp_store _ s). change (time_us s1) with (time_us s). case_if; [done|].
  destruct n as [|n]; [lia|]. destruct (Hsus s1) as (t & Ht & Es). rewrite Es. change (time_us s1) with (time_us s) in Ht.
  apply (IH n); [lia| |unfold s1; simpl; by rewrite lookup_insert_eq|done].
  change (time_us (set_time_us t s1)) with t. lia.
Qed.

Lemma dns_wait_times_out_witness :
  snd (wait_response (fun s => set_time_us (time_us s + 1) s) 4 0 1 2 1000003 []
    (set_udp_store {[0%nat := udp_socket_new]} TestWire.host)) = Some (derr ETIMEDOUT).
Proof.
  refine (dns_wait_times_out (X := TestWire.WireLog) (fun s => set_time_us (time_us s + 1) s) 0 udp_socket_new 1 2 1000003 []
    (set_udp_store {[0%nat := udp_socket_new]} TestWire.host) _ _ eq_refl eq_refl).
  - intros s. reflexivity.
  - intros s. exists (time_us s + 1). split; [lia|reflexivity].
Defined.
