(* ===== verification/FrameAlloc.v ===== *)
(** * Physical frames: the buddy allocator (os/src/mm/frame_allocator.rs)

    [BuddyFrameAllocator]: memory regions with a bump pointer, free blocks of
    [2^order] frames in one doubly linked list per order, a state byte per
    frame.  The list nodes are stored in the free frames themselves; [links]
    is the memory of the first four words of every frame.

    An operation returns [None] when the source panics (a failed assertion,
    a corrupt node, an index out of range). *)

From S2P Require Import Prelude.

(** ** Data *)

Record FrameRange := mkFrameRange {
  fr_start : Z; fr_current : Z; fr_end : Z; fr_metadata_start : Z }.

(** The four words that a free block keeps in its first frame. *)
Record BuddyNode := mkNode { n_previous : Z; n_next : Z; n_order : Z; n_checksum : Z }.

#[export] Instance BuddyNode_inhabited : Inhabited BuddyNode := populate (mkNode 0 0 0 0).

Record BuddyFrameAllocator := mkBuddy {
  ranges : list FrameRange;
  buddy_heads : list Z;
  frame_states : list Z;
  recycled_count : Z;
  links : gmap Z BuddyNode }.

Record FrameExtent := mkExtent { ex_start : Z; ex_pages : Z }.

Definition MEM_VECTOR_CAPACITY : nat := 32.
Definition BUDDY_LIST_END : Z := 2 ^ 64 - 1.
Definition BUDDY_LINK_COOKIE : Z := 0xd6e8feb86659fd93.
Definition FRAME_BUDDY_ORDERS : nat := 32.
Definition FRAME_STATE_ALLOCATED : Z := 255.
Definition FRAME_STATE_FREE_INTERIOR : Z := 254.
Definition FRAME_STATE_CPU_CACHED : Z := 253.
Definition FRAME_STATE_ANON_ZEROED : Z := 252.

Section Setters.
Context (st : BuddyFrameAllocator).
Definition set_ranges v := mkBuddy v (buddy_heads st) (frame_states st) (recycled_count st) (links st).
Definition set_heads v := mkBuddy (ranges st) v (frame_states st) (recycled_count st) (links st).
Definition set_states v := mkBuddy (ranges st) (buddy_heads st) v (recycled_count st) (links st).
Definition set_recycled v := mkBuddy (ranges st) (buddy_heads st) (frame_states st) v (links st).
Definition set_links v := mkBuddy (ranges st) (buddy_heads st) (frame_states st) (recycled_count st) v.
End Setters.

(** [1usize << order]. *)
Definition pages_of (order : nat) : Z := Z.shiftl 1 (Z.of_nat order).

(** [usize::checked_add]. *)
Definition checked_add (a b : Z) : option Z := if a + b <? 2 ^ 64 then Some (a + b) else None.

(** [assert!]. *)
Definition assert (b : bool) : option unit := if b then Some tt else None.

(** [usize::rotate_left]. *)
Definition rotate_left (z k : Z) : Z := Z.lor (usize (Z.shiftl z k)) (Z.shiftr z (64 - k)).

(** [usize::trailing_zeros]. *)
Fixpoint ctz (p : positive) : nat :=
  match p with xO p => S (ctz p) | _ => O end.
Definition trailing_zeros (z : Z) : nat := match z with Zpos p => ctz p | _ => 64 end.

(** [usize::leading_zeros]. *)
Definition leading_zeros (z : Z) : nat := if z =? 0 then 64 else Z.to_nat (63 - Z.log2 z).

Definition is_power_of_two (z : Z) : bool := (0 <? z) && (z =? 2 ^ Z.log2 z).

(** [usize::checked_next_power_of_two]. *)
Definition checked_next_power_of_two (z : Z) : option Z :=
  let p := 2 ^ Z.log2_up z in if p <? 2 ^ 64 then Some p else None.

(** ** Regions and frame states *)

Definition new_allocator (m : gmap Z BuddyNode) : BuddyFrameAllocator :=
  mkBuddy [] (replicate FRAME_BUDDY_ORDERS BUDDY_LIST_END) [] 0 m.

Definition add_range (l r : Z) (st : BuddyFrameAllocator) : option BuddyFrameAllocator :=
  if r <=? l then Some st
  else
    _ ← assert (length (ranges st) <? MEM_VECTOR_CAPACITY)%nat;
    let metadata_start := Z.of_nat (length (frame_states st)) in
    let st := set_states st (frame_states st ++ replicate (Z.to_nat (r - l)) FRAME_STATE_ALLOCATED) in
    Some (set_ranges st (ranges st ++ [mkFrameRange l l r metadata_start])).

Definition contains_ppn (st : BuddyFrameAllocator) (ppn : Z) : bool :=
  existsb (fun range => (fr_start range <=? ppn) && (ppn <? fr_end range)) (ranges st).

Definition allocated_ppn (st : BuddyFrameAllocator) (ppn : Z) : bool :=
  existsb (fun range => (fr_start range <=? ppn) && (ppn <? fr_current range)) (ranges st).

Definition fresh_free_pages (st : BuddyFrameAllocator) : Z :=
  foldr (fun range sum => usize (fr_end range - fr_current range + sum)) 0 (ranges st).

Definition recycled_pages (st : BuddyFrameAllocator) : Z := recycled_count st.

Definition free_pages (st : BuddyFrameAllocator) : Z := usize (fresh_free_pages st + recycled_pages st).

Definition total_pages (st : BuddyFrameAllocator) : Z :=
  foldr (fun range sum => usize (fr_end range - fr_start range + sum)) 0 (ranges st).

Definition range_for_ppn (st : BuddyFrameAllocator) (ppn : Z) : option FrameRange :=
  List.find (fun range => (fr_start range <=? ppn) && (ppn <? fr_end range)) (ranges st).

Definition frame_state_index (st : BuddyFrameAllocator) (ppn : Z) : option nat :=
  option_map (fun range => Z.to_nat (usize (fr_metadata_start range + ppn - fr_start range)))
             (range_for_ppn st ppn).

(** An index beyond [frame_states] panics in the source; [wf_ranges] rules it
    out. *)
Definition frame_state (st : BuddyFrameAllocator) (ppn : Z) : option Z :=
  index ← frame_state_index st ppn; frame_states st !! index.

Definition set_frame_state (ppn state : Z) (st : BuddyFrameAllocator) : option BuddyFrameAllocator :=
  index ← frame_state_index st ppn;
  _ ← frame_states st !! index;
  Some (set_states st (<[index := state]> (frame_states st))).

Definition fill_frame_states (start pages state : Z) (st : BuddyFrameAllocator) : option BuddyFrameAllocator :=
  if pages =? 0 then Some st
  else
    range ← range_for_ppn st start;
    end_ ← checked_add start pages;
    _ ← assert (end_ <=? fr_end range);
    let metadata_start := Z.to_nat (usize (fr_metadata_start range + start - fr_start range)) in
    let n := Z.to_nat pages in
    _ ← assert (metadata_start + n <=? length (frame_states st))%nat;
    Some (set_states st (splice metadata_start (replicate n state) (frame_states st))).

(** ** Free lists *)

Definition buddy_link_checksum (ppn previous next order : Z) : Z :=
  Z.lxor (Z.lxor (Z.lxor (Z.lxor (rotate_left previous 11) (rotate_left next 23)) (rotate_left ppn 7))
                 (rotate_left order 3)) BUDDY_LINK_COOKIE.

Definition write_buddy_node (ppn previous next : Z) (order : nat) (st : BuddyFrameAllocator) : BuddyFrameAllocator :=
  let o := Z.of_nat order in
  set_links st (<[ppn := mkNode previous next o (buddy_link_checksum ppn previous next o)]> (links st)).

Definition block_within_allocated_range (st : BuddyFrameAllocator) (ppn : Z) (order : nat) : bool :=
  match range_for_ppn st ppn with
  | None => false
  | Some range =>
      let pages := pages_of order in
      (fr_start range <=? ppn) && (ppn mod pages =? 0) &&
      match checked_add ppn pages with Some end_ => end_ <=? fr_current range | None => false end
  end.

(** [self.frame_state(ppn) == Some(order as u8)]. *)
Definition state_is_order (st : BuddyFrameAllocator) (ppn : Z) (order : nat) : bool :=
  bool_decide (frame_state st ppn = Some (u8 (Z.of_nat order))).

Definition link_valid (st : BuddyFrameAllocator) (ppn : Z) (order : nat) : bool :=
  (ppn =? BUDDY_LIST_END) || (block_within_allocated_range st ppn order && state_is_order st ppn order).

Definition read_buddy_node (st : BuddyFrameAllocator) (ppn : Z) (expected_order : nat) : option (Z * Z) :=
  let node := links st !!! ppn in
  let expected_checksum := buddy_link_checksum ppn (n_previous node) (n_next node) (n_order node) in
  let previous_valid := link_valid st (n_previous node) expected_order in
  let next_valid := link_valid st (n_next node) expected_order in
  if negb (n_order node =? Z.of_nat expected_order) || negb (n_checksum node =? expected_checksum)
     || negb (state_is_order st ppn expected_order) || negb previous_valid || negb next_valid
  then None
  else Some (n_previous node, n_next node).

Definition buddy_push (ppn : Z) (order : nat) (st : BuddyFrameAllocator) : option BuddyFrameAllocator :=
  head ← buddy_heads st !! order;
  st ← set_frame_state ppn (u8 (Z.of_nat order)) st;
  let st := write_buddy_node ppn BUDDY_LIST_END head order st in
  st ← (if negb (head =? BUDDY_LIST_END) then
          '(_, next) ← read_buddy_node st head order;
          Some (write_buddy_node head ppn next order st)
        else Some st);
  let st := set_heads st (<[order := ppn]> (buddy_heads st)) in
  Some (set_recycled st (usize (recycled_count st + pages_of order))).

Definition buddy_remove (ppn : Z) (order : nat) (st : BuddyFrameAllocator) : option BuddyFrameAllocator :=
  '(previous, next) ← read_buddy_node st ppn order;
  st ← (if previous =? BUDDY_LIST_END then
          head ← buddy_heads st !! order;
          _ ← assert (head =? ppn);
          Some (set_heads st (<[order := next]> (buddy_heads st)))
        else
          '(previous_previous, previous_next) ← read_buddy_node st previous order;
          _ ← assert (previous_next =? ppn);
          Some (write_buddy_node previous previous_previous next order st));
  st ← (if negb (next =? BUDDY_LIST_END) then
          '(next_previous, next_next) ← read_buddy_node st next order;
          _ ← assert (next_previous =? ppn);
          Some (write_buddy_node next previous next_next order st)
        else Some st);
  st ← set_frame_state ppn FRAME_STATE_FREE_INTERIOR st;
  Some (set_recycled st (usize (recycled_count st - pages_of order))).

(** The merge loop; [fuel] bounds the number of orders. *)
Fixpoint merge_loop (fuel : nat) (ppn : Z) (order : nat) (st : BuddyFrameAllocator) :
    option (Z * nat * BuddyFrameAllocator) :=
  match fuel with
  | O => None
  | S fuel =>
      if (order + 1 <? FRAME_BUDDY_ORDERS)%nat then
        let buddy := Z.lxor ppn (pages_of order) in
        if negb (block_within_allocated_range st buddy order) || negb (state_is_order st buddy order)
        then Some (ppn, order, st)
        else
          st ← buddy_remove buddy order st;
          merge_loop fuel (Z.min ppn buddy) (S order) st
      else Some (ppn, order, st)
  end.

Definition insert_buddy_block (ppn : Z) (order : nat) (st : BuddyFrameAllocator) : option BuddyFrameAllocator :=
  '(ppn, order, st) ← merge_loop (S FRAME_BUDDY_ORDERS) ppn order st;
  buddy_push ppn order st.

(** The order of the next block of [current..end]. *)
Definition chunk_order (current end_ : Z) : nat :=
  let remaining_order := (64 - 1 - leading_zeros (end_ - current))%nat in
  let alignment_order := if current =? 0 then (FRAME_BUDDY_ORDERS - 1)%nat else trailing_zeros current in
  Nat.min (Nat.min remaining_order alignment_order) (FRAME_BUDDY_ORDERS - 1).

Fixpoint insert_recycled_loop (fuel : nat) (current end_ : Z) (st : BuddyFrameAllocator) :
    option BuddyFrameAllocator :=
  if current <? end_ then
    match fuel with
    | O => None
    | S fuel =>
        let order := chunk_order current end_ in
        st ← insert_buddy_block current order st;
        insert_recycled_loop fuel (usize (current + pages_of order)) end_ st
    end
  else Some st.

Definition insert_recycled_range (start end_ : Z) (st : BuddyFrameAllocator) : option BuddyFrameAllocator :=
  if end_ <=? start then Some st
  else
    st ← fill_frame_states start (end_ - start) FRAME_STATE_FREE_INTERIOR st;
    insert_recycled_loop (Z.to_nat (end_ - start)) start end_ st.

(** ** Allocation and release *)

Definition dealloc_buddy (ppn : Z) (st : BuddyFrameAllocator) : option BuddyFrameAllocator :=
  _ ← assert (negb (negb (contains_ppn st ppn) || negb (allocated_ppn st ppn)));
  _ ← assert (bool_decide (frame_state st ppn = Some FRAME_STATE_ALLOCATED)
              || bool_decide (frame_state st ppn = Some FRAME_STATE_CPU_CACHED));
  st ← set_frame_state ppn FRAME_STATE_FREE_INTERIOR st;
  insert_buddy_block ppn 0 st.

(** The split loop: [n] more orders down to [target_order]. *)
Fixpoint split_loop (n : nat) (ppn : Z) (target_order : nat) (st : BuddyFrameAllocator) :
    option BuddyFrameAllocator :=
  match n with
  | O => Some st
  | S n =>
      let order := (target_order + n)%nat in
      st ← insert_buddy_block (usize (ppn + pages_of order)) order st;
      split_loop n ppn target_order st
  end.

Definition alloc_buddy_power_of_two (target_order : nat) (st : BuddyFrameAllocator) :
    option (option Z * BuddyFrameAllocator) :=
  match List.find (fun order => negb ((buddy_heads st !!! order) =? BUDDY_LIST_END))
                  (seq target_order (FRAME_BUDDY_ORDERS - target_order)) with
  | None => Some (None, st)
  | Some source_order =>
      let ppn := buddy_heads st !!! source_order in
      st ← buddy_remove ppn source_order st;
      st ← split_loop (source_order - target_order) ppn target_order st;
      st ← fill_frame_states ppn (pages_of target_order) FRAME_STATE_ALLOCATED st;
      Some (Some ppn, st)
  end.

Definition align_up_ppn (ppn align_pages : Z) : option Z :=
  option_map (fun value => Z.land value (Z.lnot (align_pages - 1))) (checked_add ppn (align_pages - 1)).

(** The region that serves a fresh extent: its index, the region, the aligned
    base and the end.  The first overflow ends the search. *)
Fixpoint fresh_scan (rs : list FrameRange) (i : nat) (pages align_pages : Z) :
    option (nat * FrameRange * Z * Z) :=
  match rs with
  | [] => None
  | range :: rs =>
      base ← align_up_ppn (fr_current range) align_pages;
      end_ ← checked_add base pages;
      if fr_end range <? end_ then fresh_scan rs (S i) pages align_pages
      else Some (i, range, base, end_)
  end.

Definition set_current (range : FrameRange) (c : Z) : FrameRange :=
  mkFrameRange (fr_start range) c (fr_end range) (fr_metadata_start range).

Definition alloc_fresh_contiguous (pages align_pages : Z) (st : BuddyFrameAllocator) :
    option (option FrameExtent * BuddyFrameAllocator) :=
  match fresh_scan (ranges st) 0 pages align_pages with
  | None => Some (None, st)
  | Some (i, range, base, end_) =>
      let st := set_ranges st (<[i := set_current range end_]> (ranges st)) in
      st ← insert_recycled_range (fr_current range) base st;
      Some (Some (mkExtent base pages), st)
  end.

Definition alloc_recycled_contiguous (pages align_pages : Z) (st : BuddyFrameAllocator) :
    option (option FrameExtent * BuddyFrameAllocator) :=
  match checked_next_power_of_two pages with
  | None => Some (None, st)
  | Some p =>
      let block_pages := Z.max p align_pages in
      let order := trailing_zeros block_pages in
      if (FRAME_BUDDY_ORDERS <=? order)%nat then Some (None, st)
      else
        '(r, st) ← alloc_buddy_power_of_two order st;
        match r with
        | None => Some (None, st)
        | Some start =>
            st ← insert_recycled_range (usize (start + pages)) (usize (start + block_pages)) st;
            Some (Some (mkExtent start pages), st)
        end
  end.

(** The first region with a fresh frame. *)
Definition fresh_index (rs : list FrameRange) : option nat :=
  position (fun range => fr_current range <? fr_end range) rs.

Definition alloc (st : BuddyFrameAllocator) : option (option Z * BuddyFrameAllocator) :=
  '(r, st) ← alloc_buddy_power_of_two 0 st;
  match r with
  | Some ppn => Some (Some ppn, st)
  | None =>
      match fresh_index (ranges st) with
      | None => Some (None, st)
      | Some i =>
          range ← ranges st !! i;
          let current := usize (fr_current range + 1) in
          Some (Some (usize (current - 1)), set_ranges st (<[i := set_current range current]> (ranges st)))
      end
  end.

Definition alloc_contiguous (pages align_pages : Z) (st : BuddyFrameAllocator) :
    option (option FrameExtent * BuddyFrameAllocator) :=
  if negb (is_power_of_two align_pages) then Some (None, st)
  else if pages =? 0 then Some (Some (mkExtent 0 0), st)
  else if (pages =? 1) && (align_pages =? 1) then
    '(r, st) ← alloc st;
    Some (option_map (fun start => mkExtent start pages) r, st)
  else
    '(r, st) ← alloc_fresh_contiguous pages align_pages st;
    match r with
    | Some extent => Some (Some extent, st)
    | None => alloc_recycled_contiguous pages align_pages st
    end.

Definition dealloc (ppn : Z) (st : BuddyFrameAllocator) : option BuddyFrameAllocator := dealloc_buddy ppn st.

(** [PhysAddr::floor] and [PhysAddr::ceil]. *)
Definition phys_floor (a : Z) : Z := a / PAGE_SIZE.
Definition phys_ceil (a : Z) : Z := if a =? 0 then 0 else usize (a - 1 + PAGE_SIZE) / PAGE_SIZE.

Fixpoint init_areas (areas : list (Z * Z)) (initialized : bool) (st : BuddyFrameAllocator) :
    option (bool * BuddyFrameAllocator) :=
  match areas with
  | [] => Some (initialized, st)
  | (start, size) :: areas =>
      let end_ := usize (start + size) in
      let left := phys_ceil start in
      let right := phys_floor end_ in
      if right <=? left then init_areas areas initialized st
      else st ← add_range left right st; init_areas areas true st
  end.

(** [areas] is what [polyhal::mem::get_mem_areas] reports. *)
Definition init_frame_allocator (areas : list (Z * Z)) (st : BuddyFrameAllocator) : option BuddyFrameAllocator :=
  '(initialized, st) ← init_areas areas false st;
  _ ← assert initialized;
  Some st.
