(* ===== verification/FrameInv.v ===== *)
(** * Physical frames: the invariant of the buddy allocator

    Alignment arithmetic, the regions and state bytes as a function from
    frames to states, doubly linked lists in the frames' memory, and the
    invariant [Inv] with the effect of [buddy_push] and [buddy_remove] on it. *)

From S2P Require Import Prelude FrameAlloc.

(** ** Alignment *)

Lemma pages_of_eq o : pages_of o = 2 ^ Z.of_nat o.
Proof. apply Z.shiftl_1_l. Qed.

Lemma pages_of_pos o : 0 < pages_of o.
Proof. rewrite pages_of_eq. apply pow2_pos. lia. Qed.

Lemma pages_of_S o : pages_of (S o) = 2 * pages_of o.
Proof. rewrite !pages_of_eq, Nat2Z.inj_succ, Z.pow_succ_r; lia. Qed.

Lemma pages_of_add o n : pages_of (o + n) = pages_of o * pages_of n.
Proof. rewrite !pages_of_eq, Nat2Z.inj_add, Z.pow_add_r; lia. Qed.

Lemma pages_of_mono o o' : (o <= o')%nat -> pages_of o <= pages_of o'.
Proof. intros. rewrite !pages_of_eq. apply Z.pow_le_mono_r; lia. Qed.

Lemma pages_of_bound o : (o < 32)%nat -> 1 <= pages_of o <= 2 ^ 31.
Proof.
  intros. split; [pose proof (pages_of_pos o); lia|]. rewrite pages_of_eq. apply Z.pow_le_mono_r; lia.
Qed.

#[export] Hint Resolve pages_of_pos : kairix.

(** Frame [p] starts a block of order [o]. *)
Definition aligned (p : Z) (o : nat) : Prop := p mod pages_of o = 0.

(** The frames of the block of order [o] at [p]. *)
Definition blk (p : Z) (o : nat) (q : Z) : Prop := p <= q < p + pages_of o.

Lemma aligned_mul p o : aligned p o -> exists k, p = k * pages_of o.
Proof.
  intros H. pose proof (pages_of_pos o). exists (p / pages_of o).
  rewrite (Z.div_mod p (pages_of o)) at 1 by lia. unfold aligned in H. lia.
Qed.

Lemma mul_aligned k o : aligned (k * pages_of o) o.
Proof. apply Z_mod_mult. Qed.

Lemma aligned_weaken p o o' : (o' <= o)%nat -> aligned p o -> aligned p o'.
Proof.
  intros Ho [k ->]%aligned_mul. replace o with (o' + (o - o'))%nat by lia. rewrite pages_of_add.
  replace (k * (pages_of o' * pages_of (o - o'))) with (k * pages_of (o - o') * pages_of o') by lia.
  apply mul_aligned.
Qed.

(** Two aligned blocks are nested or disjoint. *)
Lemma blocks_nested p o p' o' q :
  aligned p o -> aligned p' o' -> (o' <= o)%nat -> blk p o q -> blk p' o' q ->
  p <= p' /\ p' + pages_of o' <= p + pages_of o.
Proof.
  intros Ha Ha' Ho [H1 H2] [H3 H4]. apply (aligned_weaken p o o' Ho) in Ha.
  pose proof (pages_of_pos o'). apply aligned_mul in Ha as [k ->], Ha' as [k' ->].
  assert (k < k' + 1) by (apply (Z.mul_lt_mono_pos_r (pages_of o')); lia). split; [nia|].
  assert (E : aligned (pages_of o) o') by (apply (aligned_weaken _ o); [done|]; apply Z_mod_same_full).
  apply aligned_mul in E as [j E]. rewrite E in *.
  assert (k' < k + j) by (apply (Z.mul_lt_mono_pos_r (pages_of o')); lia). nia.
Qed.

Lemma lxor_even_one j : Z.lxor (2 * j) 1 = 2 * j + 1.
Proof.
  rewrite <- Z.add_nocarry_lxor; [done|]. change 1 with (Z.ones 1) at 1.
  rewrite Z.land_ones by done. rewrite Z.mul_comm. apply Z_mod_mult.
Qed.

Lemma lxor_one k : Z.lxor k 1 = if Z.even k then k + 1 else k - 1.
Proof.
  destruct (Z.even k) eqn:E.
  - apply Z.even_spec in E as [j ->]. apply lxor_even_one.
  - rewrite <- Z.negb_odd in E. apply negb_false_iff in E. apply Z.odd_spec in E as [j ->].
    rewrite <- lxor_even_one, Z.lxor_assoc, Z.lxor_nilpotent, Z.lxor_0_r, lxor_even_one. lia.
Qed.

(** The buddy is the other half of the block of the next order. *)
Lemma buddy_cases p o : 0 <= p -> aligned p o ->
  let b := Z.lxor p (pages_of o) in
  aligned b o /\ aligned (Z.min p b) (S o) /\
  ((b = p + pages_of o /\ aligned p (S o)) \/ (b = p - pages_of o /\ aligned b (S o))).
Proof.
  intros Hp Ha b. pose proof (pages_of_pos o) as Hpos. apply aligned_mul in Ha as [k ->].
  assert (Hk : 0 <= k) by nia.
  assert (Eb : b = Z.lxor k 1 * pages_of o).
  { unfold b. rewrite pages_of_eq, <- !Z.shiftl_mul_pow2 by lia.
    rewrite <- (Z.shiftl_1_l (Z.of_nat o)). by rewrite Z.shiftl_lxor. }
  rewrite Eb, lxor_one. destruct (Z.even k) eqn:E.
  - apply Z.even_spec in E as [j ->]. rewrite Z.min_l by nia.
    replace (2 * j * pages_of o) with (j * pages_of (S o)) by (rewrite pages_of_S; lia).
    split; [apply mul_aligned|]. split; [apply mul_aligned|]. left. split; [rewrite pages_of_S; lia|apply mul_aligned].
  - rewrite <- Z.negb_odd in E. apply negb_false_iff in E. apply Z.odd_spec in E as [j ->].
    rewrite Z.min_r by nia. replace ((2 * j + 1 - 1) * pages_of o) with (j * pages_of (S o)) by (rewrite pages_of_S; lia).
    split; [eapply (aligned_weaken _ (S o)); [lia|]; apply mul_aligned|].
    split; [apply mul_aligned|]. right. split; [rewrite pages_of_S; lia|apply mul_aligned].
Qed.

Lemma buddy_involutive p o : Z.lxor (Z.lxor p (pages_of o)) (pages_of o) = p.
Proof. by rewrite Z.lxor_assoc, Z.lxor_nilpotent, Z.lxor_0_r. Qed.

(** ** Regions and states *)

(** Distinct regions do not touch: the boot memory map leaves a gap. *)
Definition apart (r r' : FrameRange) : Prop :=
  (fr_end r < fr_start r' \/ fr_end r' < fr_start r) /\
  (fr_metadata_start r + (fr_end r - fr_start r) <= fr_metadata_start r' \/
   fr_metadata_start r' + (fr_end r' - fr_start r') <= fr_metadata_start r).

Definition wf_range (n : nat) (r : FrameRange) : Prop :=
  0 <= fr_start r <= fr_current r /\ fr_current r <= fr_end r <= 2 ^ 52 /\
  0 <= fr_metadata_start r /\ fr_metadata_start r + (fr_end r - fr_start r) <= Z.of_nat n.

Record wf_ranges (st : BuddyFrameAllocator) : Prop := {
  wr_each : forall i r, ranges st !! i = Some r -> wf_range (length (frame_states st)) r;
  wr_pair : forall i j r r', ranges st !! i = Some r -> ranges st !! j = Some r' -> i <> j -> apart r r';
  wr_size : Z.of_nat (length (frame_states st)) < 2 ^ 60 }.

(** [q] is a frame of region [r]. *)
Definition in_range (r : FrameRange) (q : Z) : Prop := fr_start r <= q < fr_end r.

Lemma range_for_ppn_spec st q r : wf_ranges st ->
  range_for_ppn st q = Some r <-> r ∈ ranges st /\ in_range r q.
Proof.
  intros [_ Hp _]. unfold range_for_ppn, in_range. split.
  - intros [Hi Hb]%find_some. apply list_elem_of_In in Hi. to_prop. auto.
  - intros [[i Hi]%list_elem_of_lookup Hq].
    destruct (List.find _ (ranges st)) as [r'|] eqn:E.
    + apply find_some in E as [Hi' Hb]. apply list_elem_of_In, list_elem_of_lookup in Hi' as [j Hj]. to_prop.
      destruct (decide (i = j)) as [->|Hij]; [congruence|].
      destruct (Hp i j r r' Hi Hj Hij) as [? _]. lia.
    + exfalso. assert (Hi' : In r (ranges st)) by (eapply list_elem_of_In, list_elem_of_lookup_2; done).
      pose proof (find_none _ _ E r Hi') as Hn. simpl in Hn. to_prop. destruct Hn as [Hn|Hn]; to_prop; lia.
Qed.

Lemma range_lookup st r : wf_ranges st -> r ∈ ranges st -> wf_range (length (frame_states st)) r.
Proof. intros Hw [i Hi]%list_elem_of_lookup. by eapply wr_each. Qed.

Lemma region_unique st r r' q : wf_ranges st -> r ∈ ranges st -> r' ∈ ranges st ->
  in_range r q -> in_range r' q -> r = r'.
Proof.
  intros Hw Hr Hr' Hq Hq'. pose proof (proj2 (range_for_ppn_spec st q r Hw) (conj Hr Hq)) as E.
  rewrite (proj2 (range_for_ppn_spec st q r' Hw) (conj Hr' Hq')) in E. congruence.
Qed.

(** A frame below one bump pointer is above none. *)
Lemma fresh_not_started st r r' q : wf_ranges st -> r ∈ ranges st -> r' ∈ ranges st ->
  fr_current r <= q < fr_end r -> fr_start r' <= q < fr_current r' -> False.
Proof.
  intros Hw Hr Hr' Hq Hq'. pose proof (range_lookup st r Hw Hr) as (? & ? & _).
  pose proof (range_lookup st r' Hw Hr') as (? & ? & _).
  assert (r = r') as -> by (apply (region_unique st r r' q); try done; unfold in_range; lia). lia.
Qed.

(** Position of a frame's state byte. *)
Definition slot (r : FrameRange) (q : Z) : nat := Z.to_nat (fr_metadata_start r + (q - fr_start r)).

Lemma frame_state_index_spec st r q : wf_ranges st -> r ∈ ranges st -> in_range r q ->
  frame_state_index st q = Some (slot r q) /\ (slot r q < length (frame_states st))%nat.
Proof.
  intros Hw Hr Hq. pose proof (range_lookup st r Hw Hr) as (? & ? & ? & ?).
  pose proof (wr_size _ Hw). unfold frame_state_index, slot. unfold in_range in Hq.
  rewrite (proj2 (range_for_ppn_spec st q r Hw) (conj Hr Hq)). simpl.
  rewrite wrap_small by (unfold in_u; lia). split; [f_equal; lia|lia].
Qed.

Lemma frame_state_spec st r q : wf_ranges st -> r ∈ ranges st -> in_range r q ->
  frame_state st q = frame_states st !! slot r q.
Proof.
  intros Hw Hr Hq. unfold frame_state. by destruct (frame_state_index_spec st r q Hw Hr Hq) as [-> _].
Qed.

Lemma frame_state_inv st q v : wf_ranges st -> frame_state st q = Some v ->
  exists r, r ∈ ranges st /\ in_range r q.
Proof.
  intros Hw H. unfold frame_state, frame_state_index in H.
  destruct (range_for_ppn st q) as [r|] eqn:E; [|done]. exists r. by apply range_for_ppn_spec.
Qed.

Lemma frame_state_some st r q : wf_ranges st -> r ∈ ranges st -> in_range r q ->
  is_Some (frame_state st q).
Proof.
  intros Hw Hr Hq. rewrite (frame_state_spec st r q) by done.
  apply lookup_lt_is_Some. by apply (frame_state_index_spec st r q).
Qed.

Lemma slot_inj st r r' q q' : wf_ranges st -> r ∈ ranges st -> r' ∈ ranges st -> in_range r q -> in_range r' q' ->
  slot r q = slot r' q' -> q = q'.
Proof.
  intros Hw Hr Hr' Hq Hq' E.
  pose proof (range_lookup st r Hw Hr) as (? & ? & ? & ?).
  pose proof (range_lookup st r' Hw Hr') as (? & ? & ? & ?).
  apply list_elem_of_lookup in Hr as [i Hi], Hr' as [j Hj].
  unfold slot, in_range in *. destruct (decide (i = j)) as [->|Hij].
  - assert (r = r') as -> by congruence. lia.
  - destruct (wr_pair _ Hw i j r r' Hi Hj Hij) as [_ ?]. lia.
Qed.

Lemma wf_ranges_states st l : length l = length (frame_states st) -> wf_ranges st -> wf_ranges (set_states st l).
Proof. intros E [H1 H2 H3]. split; simpl; rewrite ?E; done. Qed.

Lemma set_frame_state_spec st r p v : wf_ranges st -> r ∈ ranges st -> in_range r p ->
  exists l, set_frame_state p v st = Some (set_states st l) /\ length l = length (frame_states st) /\
    forall q, frame_state (set_states st l) q = if decide (q = p) then Some v else frame_state st q.
Proof.
  intros Hw Hr Hp. destruct (frame_state_index_spec st r p Hw Hr Hp) as [Ei Hlt].
  exists (<[slot r p := v]> (frame_states st)). unfold set_frame_state. rewrite Ei. simpl.
  destruct (lookup_lt_is_Some_2 _ _ Hlt) as [x Ex]. rewrite Ex. simpl.
  split; [done|]. split; [apply length_insert|]. intros q.
  assert (Hw' := wf_ranges_states st (<[slot r p := v]> (frame_states st)) (length_insert _ _ _) Hw).
  destruct (decide (q = p)) as [->|Hne].
  - rewrite (frame_state_spec _ r) by done. by apply list_lookup_insert_eq.
  - unfold frame_state. replace (frame_state_index (set_states st _) q) with (frame_state_index st q) by done.
    destruct (frame_state_index st q) as [i|] eqn:E; [|done]. simpl.
    apply list_lookup_insert_ne. intros <-. apply Hne.
    unfold frame_state_index in E. destruct (range_for_ppn st q) as [r'|] eqn:Er; [|done].
    apply range_for_ppn_spec in Er as [Hr' Hq']; [|done].
    apply (slot_inj st r' r q p); [done..|].
    destruct (frame_state_index_spec st r' q Hw Hr' Hq') as [E' _].
    unfold frame_state_index in E'. rewrite (proj2 (range_for_ppn_spec st q r' Hw) (conj Hr' Hq')) in E'.
    simpl in E, E'. congruence.
Qed.

Lemma fill_frame_states_spec st r s n v : wf_ranges st -> r ∈ ranges st -> fr_start r <= s -> 0 <= n -> s + n <= fr_end r ->
  exists l, fill_frame_states s n v st = Some (set_states st l) /\ length l = length (frame_states st) /\
    forall q, frame_state (set_states st l) q = if decide (s <= q < s + n) then Some v else frame_state st q.
Proof.
  intros Hw Hr Hs Hn He. pose proof (range_lookup st r Hw Hr) as (? & ? & ? & ?).
  unfold fill_frame_states. destruct (n =? 0) eqn:E0; to_prop.
  { exists (frame_states st). split; [by destruct st|]. split; [done|]. intros q. rewrite decide_False by lia. by destruct st. }
  assert (Hin : in_range r s) by (unfold in_range; lia).
  destruct (frame_state_index_spec st r s Hw Hr Hin) as [Ei Hlt].
  pose proof (wr_size _ Hw) as Hsz.
  rewrite (proj2 (range_for_ppn_spec st s r Hw) (conj Hr Hin)). simpl. unfold checked_add.
  assert (Elt : (s + n <? 2 ^ 64) = true) by (apply Z.ltb_lt; lia). rewrite Elt. cbn [mbind option_bind].
  assert (Ele : (s + n <=? fr_end r) = true) by (apply Z.leb_le; lia). rewrite Ele. cbn [mbind option_bind assert].
  rewrite wrap_small by (unfold in_u; lia).
  replace (Z.to_nat (fr_metadata_start r + s - fr_start r)) with (slot r s) by (unfold slot; f_equal; lia).
  assert (Hfit : (slot r s + Z.to_nat n <= length (frame_states st))%nat) by (unfold slot; lia).
  apply Nat.leb_le in Hfit as Eb. rewrite Eb. cbn [mbind option_bind assert].
  assert (El : length (splice (slot r s) (replicate (Z.to_nat n) v) (frame_states st)) = length (frame_states st))
    by (apply splice_length; rewrite length_replicate; done).
  eexists. split; [reflexivity|]. split; [exact El|]. intros q.
  assert (Hw' := wf_ranges_states st _ El Hw).
  destruct (frame_state_index st q) as [i|] eqn:Eq.
  - unfold frame_state_index in Eq. destruct (range_for_ppn st q) as [r'|] eqn:Er; [|done].
    apply range_for_ppn_spec in Er as [Hr' Hq']; [|done]. simpl in Eq.
    rewrite (frame_state_spec _ r' q Hw' Hr' Hq'), (frame_state_spec _ r' q Hw Hr' Hq'). cbn [frame_states set_states].
    rewrite splice_lookup by (rewrite length_replicate; done). rewrite length_replicate.
    pose proof (range_lookup st r' Hw Hr') as (? & ? & ? & ?).
    destruct (decide (s <= q < s + n)) as [Hq|Hq].
    + assert (r' = r) as -> by (apply (region_unique st r' r q); try done; unfold in_range; lia).
      rewrite decide_True by (unfold slot, in_range in *; lia). apply lookup_replicate_2. unfold slot. lia.
    + rewrite decide_False; [done|]. intros Hc. apply Hq.
      assert (Hsl : exists k, 0 <= k < n /\ slot r' q = slot r (s + k)).
      { exists (Z.of_nat (slot r' q - slot r s)). unfold slot, in_range in *. lia. }
      destruct Hsl as (k & Hk & Ek). apply (slot_inj st r' r q (s + k)) in Ek; [lia|done..|unfold in_range; lia].
  - rewrite decide_False.
    + unfold frame_state. replace (frame_state_index (set_states st _) q) with (frame_state_index st q) by done. by rewrite Eq.
    + intros Hq. assert (Hqr : in_range r q) by (unfold in_range; lia).
      destruct (frame_state_index_spec st r q Hw Hr Hqr) as [E' _]. congruence.
Qed.

Lemma within_spec st p o : wf_ranges st -> (o < 32)%nat ->
  block_within_allocated_range st p o = true <->
  exists r, r ∈ ranges st /\ fr_start r <= p /\ aligned p o /\ p + pages_of o <= fr_current r.
Proof.
  intros Hw Ho. pose proof (pages_of_bound o Ho) as Hb. unfold block_within_allocated_range, checked_add. split.
  - destruct (range_for_ppn st p) as [r|] eqn:E; [|done]. apply range_for_ppn_spec in E as [Hr Hp]; [|done].
    intros H. to_prop. case_if_in H0; to_prop; [|done]. exists r. unfold aligned. auto.
  - intros (r & Hr & H1 & H2 & H3). pose proof (range_lookup st r Hw Hr) as (? & ? & _).
    rewrite (proj2 (range_for_ppn_spec st p r Hw)) by (unfold in_range; split; [done|lia]).
    unfold aligned in H2. rewrite H2.
    rewrite (proj2 (Z.leb_le _ _) H1), (proj2 (Z.ltb_lt (p + pages_of o) _)) by lia. simpl. by apply Z.leb_le.
Qed.

(** ** Free lists in memory *)

Definition mk_node (p previous next : Z) (o : nat) : BuddyNode :=
  mkNode previous next (Z.of_nat o) (buddy_link_checksum p previous next (Z.of_nat o)).

(** The nodes [l] of order [o] in memory, between [previous] and [next]. *)
Fixpoint dseg (m : gmap Z BuddyNode) (o : nat) (previous : Z) (l : list Z) (next : Z) : Prop :=
  match l with
  | [] => True
  | p :: l => m !!! p = mk_node p previous (hd next l) o /\ dseg m o p l next
  end.

Lemma dseg_app m o a l1 l2 z :
  dseg m o a (l1 ++ l2) z <-> dseg m o a l1 (hd z l2) /\ dseg m o (List.last l1 a) l2 z.
Proof.
  revert a. induction l1 as [|p l1 IH]; intros a; simpl; [tauto|]. rewrite IH.
  replace (hd z (l1 ++ l2)) with (hd (hd z l2) l1) by (by destruct l1).
  replace (match l1 with [] => p | _ => List.last l1 a end) with (List.last l1 p); [tauto|].
  destruct l1 as [|x l1]; [done|]. clear. revert x. induction l1 as [|y l1 IH]; intros x; [done|]. apply (IH y).
Qed.

Lemma dseg_frame m m' o a l z :
  (forall p, p ∈ l -> m' !!! p = m !!! p) -> dseg m o a l z -> dseg m' o a l z.
Proof.
  revert a. induction l as [|p l IH]; intros a Hm; simpl; [done|]. intros [H1 H2].
  split; [rewrite Hm by left; done|]. apply IH; [|done]. intros q Hq. apply Hm. by right.
Qed.

Lemma last_in {A} (l : list A) a : l <> [] -> List.last l a ∈ l.
Proof.
  induction l as [|x l IH]; [done|]. intros _. destruct l as [|y l]; [left|].
  right. by apply IH.
Qed.

Lemma hd_in {A} (l : list A) a : hd a l = a \/ hd a l ∈ l.
Proof. destruct l; [by left|right; left]. Qed.

Lemma last_or {A} (l : list A) a : List.last l a = a \/ List.last l a ∈ l.
Proof. destruct l as [|x l]; [by left|]. right. by apply last_in. Qed.

Lemma dseg_node m o a l1 p l2 z :
  dseg m o a (l1 ++ p :: l2) z -> m !!! p = mk_node p (List.last l1 a) (hd z l2) o.
Proof. intros [_ [H _]]%dseg_app. exact H. Qed.

(** The last node of [l] gets the next pointer [z]. *)
Definition relink_prev (m : gmap Z BuddyNode) (o : nat) (l : list Z) (z : Z) : gmap Z BuddyNode :=
  match l with
  | [] => m
  | _ => let a := List.last l BUDDY_LIST_END in <[a := mk_node a (n_previous (m !!! a)) z o]> m
  end.

(** The first node of [l] gets the previous pointer [a]. *)
Definition relink_next (m : gmap Z BuddyNode) (o : nat) (a : Z) (l : list Z) : gmap Z BuddyNode :=
  match l with
  | [] => m
  | b :: _ => <[b := mk_node b a (n_next (m !!! b)) o]> m
  end.

Lemma relink_prev_other m o l z q : q ∉ l -> relink_prev m o l z !!! q = m !!! q.
Proof.
  intros Hq. destruct l as [|x l]; [done|]. apply lookup_total_insert_ne. intros <-. apply Hq. by apply last_in.
Qed.

Lemma relink_next_other m o a l q : q ∉ l -> relink_next m o a l !!! q = m !!! q.
Proof. intros Hq. destruct l as [|x l]; [done|]. apply lookup_total_insert_ne. intros ->. apply Hq. left. Qed.

Lemma last_snoc_or {A} (l : list A) x a : List.last (l ++ [x]) a = x.
Proof. apply last_last. Qed.

Lemma dseg_relink_prev m o a l z z' : NoDup l -> dseg m o a l z -> dseg (relink_prev m o l z') o a l z'.
Proof.
  intros Hnd. destruct l as [|x l _] using rev_ind; [done|].
  unfold relink_prev. rewrite last_snoc_or.
  assert (E : forall T (u v : T), match l ++ [x] with [] => u | _ => v end = v) by (intros; by destruct l).
  rewrite E. rewrite !dseg_app. cbn [hd dseg]. intros [H1 [H2 _]].
  apply NoDup_app in Hnd as (_ & Hx & _). split; [|split; [|done]].
  - eapply dseg_frame; [|exact H1]. intros q Hq. apply lookup_total_insert_ne. intros ->. by apply (Hx q Hq), list_elem_of_here.
  - rewrite lookup_total_insert_eq, H2. done.
Qed.

Lemma dseg_relink_next m o a a' l z : NoDup l -> dseg m o a l z -> dseg (relink_next m o a' l) o a' l z.
Proof.
  destruct l as [|b l]; [done|]. intros [Hb _]%NoDup_cons [H1 H2]. simpl. split.
  - rewrite lookup_total_insert_eq, H1. done.
  - eapply dseg_frame; [|exact H2]. intros q Hq. apply lookup_total_insert_ne. by intros ->.
Qed.

Lemma dseg_push m o p l : NoDup l -> p ∉ l -> dseg m o BUDDY_LIST_END l BUDDY_LIST_END ->
  dseg (relink_next (<[p := mk_node p BUDDY_LIST_END (hd BUDDY_LIST_END l) o]> m) o p l) o
    BUDDY_LIST_END (p :: l) BUDDY_LIST_END.
Proof.
  intros Hnd Hp Hd. split; [by rewrite relink_next_other, lookup_total_insert_eq|].
  apply (dseg_relink_next _ o BUDDY_LIST_END); [done|]. eapply dseg_frame; [|exact Hd].
  intros q Hq. apply lookup_total_insert_ne. by intros ->.
Qed.

Lemma dseg_remove m o l1 p l2 : NoDup (l1 ++ p :: l2) ->
  dseg m o BUDDY_LIST_END (l1 ++ p :: l2) BUDDY_LIST_END ->
  dseg (relink_next (relink_prev m o l1 (hd BUDDY_LIST_END l2)) o (List.last l1 BUDDY_LIST_END) l2) o
    BUDDY_LIST_END (l1 ++ l2) BUDDY_LIST_END.
Proof.
  intros (Hn1 & Hx & [_ Hn2]%NoDup_cons)%NoDup_app [H1 [_ H2]]%dseg_app.
  assert (Hdis : forall q, q ∈ l1 -> q ∉ l2) by (intros q Hq Hq2; apply (Hx q Hq); by right).
  apply dseg_app. split.
  - eapply dseg_frame; [|by apply (dseg_relink_prev m o _ l1 p)]. intros q Hq. apply relink_next_other. auto.
  - apply (dseg_relink_next _ o p); [done|]. eapply dseg_frame; [|exact H2]. intros q Hq.
    apply relink_prev_other. intros Hq1. by apply (Hdis q).
Qed.

(** The free lists, one per order: heads and nodes. *)
Definition Lists (heads : list Z) (m : gmap Z BuddyNode) (fl : nat -> list Z) : Prop :=
  length heads = FRAME_BUDDY_ORDERS /\
  forall o, (o < FRAME_BUDDY_ORDERS)%nat ->
    heads !! o = Some (hd BUDDY_LIST_END (fl o)) /\ dseg m o BUDDY_LIST_END (fl o) BUDDY_LIST_END.

Definition upd (fl : nat -> list Z) (o : nat) (l : list Z) (o' : nat) : list Z :=
  if decide (o' = o) then l else fl o'.

Lemma upd_same fl o l : upd fl o l o = l.
Proof. unfold upd. by rewrite decide_True. Qed.

Lemma upd_other fl o l o' : o' <> o -> upd fl o l o' = fl o'.
Proof. intros. unfold upd. by rewrite decide_False. Qed.

(** No frame is in two lists. *)
Definition lists_disjoint (fl : nat -> list Z) : Prop :=
  forall o o' p, p ∈ fl o -> p ∈ fl o' -> o = o'.

(** Replacing one list and the nodes of its own frames. *)
Lemma Lists_update heads m m' fl o l :
  (o < FRAME_BUDDY_ORDERS)%nat -> Lists heads m fl ->
  (forall o' p, p ∈ fl o' -> o' <> o -> m' !!! p = m !!! p) ->
  dseg m' o BUDDY_LIST_END l BUDDY_LIST_END ->
  Lists (<[o := hd BUDDY_LIST_END l]> heads) m' (upd fl o l).
Proof.
  intros Ho [Hlen H] Hm Hd. split; [by rewrite length_insert|]. intros o' Ho'.
  destruct (decide (o' = o)) as [->|Hne].
  - rewrite upd_same, list_lookup_insert_eq by lia. done.
  - rewrite upd_other, list_lookup_insert_ne by done. destruct (H o' Ho') as [? ?]. split; [done|].
    eapply dseg_frame; [|done]. intros p Hp. by apply (Hm o').
Qed.

(** ** The invariant

    [S q] abbreviates the state byte of frame [q].  [fl o] are the free blocks
    of order [o]; [H] is the set of free frames that are in no list, inside an
    operation. *)

Definition in_free (fl : nat -> list Z) (q : Z) : Prop := exists o p, p ∈ fl o /\ blk p o q.

(** States of frames that have an owner: allocated, or in a cache. *)
Definition owned_state (v : Z) : Prop :=
  v = FRAME_STATE_ALLOCATED \/ v = FRAME_STATE_CPU_CACHED \/ v = FRAME_STATE_ANON_ZEROED.

Record Blocks (st : BuddyFrameAllocator) (fl : nat -> list Z) (H : Z -> Prop) : Prop := {
  b_ranges : wf_ranges st;
  b_head : forall o p, p ∈ fl o <-> (o < FRAME_BUDDY_ORDERS)%nat /\ frame_state st p = Some (Z.of_nat o);
  b_nodup : forall o, NoDup (fl o);
  b_within : forall o p, p ∈ fl o -> block_within_allocated_range st p o = true;
  b_interior : forall o p q, p ∈ fl o -> p < q < p + pages_of o -> frame_state st q = Some FRAME_STATE_FREE_INTERIOR;
  b_free : forall q, frame_state st q = Some FRAME_STATE_FREE_INTERIOR -> H q \/ in_free fl q;
  b_hole : forall q, H q -> frame_state st q = Some FRAME_STATE_FREE_INTERIOR /\ ~ in_free fl q;
  b_fresh : forall r q, r ∈ ranges st -> fr_current r <= q < fr_end r -> frame_state st q = Some FRAME_STATE_ALLOCATED;
  b_values : forall q v, frame_state st q = Some v ->
    0 <= v < 32 \/ v = FRAME_STATE_FREE_INTERIOR \/ owned_state v;
  b_coalesced : forall o p, (S o < FRAME_BUDDY_ORDERS)%nat -> p ∈ fl o -> Z.lxor p (pages_of o) ∉ fl o }.

#[export] Instance Blocks_proper st fl :
  Proper (pointwise_relation Z iff ==> iff) (Blocks st fl).
Proof.
  intros H H' E. split; intros []; split; try done.
  - intros q Hq. rewrite <- (E q). auto.
  - intros q Hq. apply E in Hq. auto.
  - intros q Hq. rewrite (E q). auto.
  - intros q Hq. apply E in Hq. auto.
Qed.

Lemma wf_ranges_same st st' :
  ranges st' = ranges st -> frame_states st' = frame_states st -> wf_ranges st -> wf_ranges st'.
Proof. intros E1 E2 []. split; rewrite ?E1, ?E2; done. Qed.

Lemma frame_state_same st st' q :
  ranges st' = ranges st -> frame_states st' = frame_states st -> frame_state st' q = frame_state st q.
Proof. intros E1 E2. unfold frame_state, frame_state_index, range_for_ppn. by rewrite E1, E2. Qed.

Lemma Blocks_same st st' fl H :
  ranges st' = ranges st -> frame_states st' = frame_states st -> Blocks st fl H -> Blocks st' fl H.
Proof.
  destruct st, st'; simpl; intros -> -> []. split; try done. by eapply wf_ranges_same; [..|done].
Qed.

(** Frame count of the free lists. *)
Definition count_from (fl : nat -> list Z) (os : list nat) : Z :=
  foldr (fun o sum => pages_of o * Z.of_nat (length (fl o)) + sum) 0 os.
Definition count (fl : nat -> list Z) : Z := count_from fl (seq 0 FRAME_BUDDY_ORDERS).

Lemma count_from_upd fl o l os : NoDup os -> o ∈ os ->
  count_from (upd fl o l) os =
  count_from fl os + pages_of o * (Z.of_nat (length l) - Z.of_nat (length (fl o))).
Proof.
  assert (Hout : forall os, o ∉ os -> count_from (upd fl o l) os = count_from fl os).
  { intros os'. induction os' as [|x os' IH]; intros Hn; simpl; [done|].
    rewrite IH by (intros ?; apply Hn; by right). rewrite upd_other by (intros ->; apply Hn; left). done. }
  induction 1 as [|x os Hx Hnd IH]; intros Hin; [by apply elem_of_nil in Hin|]. simpl.
  apply elem_of_cons in Hin as [->|Hin].
  - rewrite upd_same, Hout by done. lia.
  - rewrite upd_other by (intros ->; done). rewrite IH by done. lia.
Qed.

Lemma count_upd fl o l : (o < FRAME_BUDDY_ORDERS)%nat ->
  count (upd fl o l) = count fl + pages_of o * (Z.of_nat (length l) - Z.of_nat (length (fl o))).
Proof. intros Ho. apply count_from_upd; [apply NoDup_ListNoDup, seq_NoDup|]. apply elem_of_seq. lia. Qed.

Record Inv (st : BuddyFrameAllocator) (fl : nat -> list Z) (H : Z -> Prop) : Prop := {
  i_lists : Lists (buddy_heads st) (links st) fl;
  i_blocks : Blocks st fl H;
  i_count : recycled_count st = usize (count fl) }.

#[export] Instance Inv_proper st fl : Proper (pointwise_relation Z iff ==> iff) (Inv st fl).
Proof. intros H H' E. split; intros []; split; try done; [by rewrite <- E|by rewrite E]. Qed.

(** ** Blocks under push and remove *)

Lemma blk_head p o : blk p o p.
Proof. unfold blk. pose proof (pages_of_pos o). lia. Qed.

Lemma in_free_upd_cons fl o p q : in_free (upd fl o (p :: fl o)) q <-> blk p o q \/ in_free fl q.
Proof.
  unfold in_free. split.
  - intros (o' & p' & Hp & Hq). unfold upd in Hp. case_decide; subst; [|by right; exists o', p'].
    apply elem_of_cons in Hp as [->|Hp]; [by left|right; by exists o, p'].
  - intros [Hq|(o' & p' & Hp & Hq)]; [exists o, p; rewrite upd_same; split; [left|done]|].
    exists o', p'. split; [|done]. unfold upd. case_decide; subst; [by right|done].
Qed.

Lemma in_free_upd_remove fl o l1 p l2 q : fl o = l1 ++ p :: l2 ->
  in_free fl q <-> blk p o q \/ in_free (upd fl o (l1 ++ l2)) q.
Proof.
  intros E. unfold in_free. split.
  - intros (o' & p' & Hp & Hq). destruct (decide (o' = o)) as [->|Hne].
    + rewrite E, elem_of_app, elem_of_cons in Hp. destruct Hp as [Hp|[->|Hp]]; [|by left|];
        right; exists o, p'; rewrite upd_same, elem_of_app; auto.
    + right. exists o', p'. by rewrite upd_other.
  - intros [Hq|(o' & p' & Hp & Hq)]; [exists o, p; rewrite E; split; [set_solver|done]|].
    exists o', p'. split; [|done]. unfold upd in Hp. case_decide; subst; [|done]. rewrite E. set_solver.
Qed.

Lemma free_interior_order (v : Z) (o : nat) : (o < FRAME_BUDDY_ORDERS)%nat -> Some (Z.of_nat o) <> Some FRAME_STATE_FREE_INTERIOR.
Proof. unfold FRAME_BUDDY_ORDERS, FRAME_STATE_FREE_INTERIOR. intros ? [=]. lia. Qed.

Lemma Blocks_push st st' fl p o R :
  Blocks st fl (fun q => blk p o q \/ R q) -> (forall q, blk p o q -> ~ R q) ->
  (o < FRAME_BUDDY_ORDERS)%nat -> block_within_allocated_range st p o = true ->
  ((S o < FRAME_BUDDY_ORDERS)%nat -> Z.lxor p (pages_of o) ∉ fl o) ->
  ranges st' = ranges st -> wf_ranges st' ->
  (forall q, frame_state st' q = if decide (q = p) then Some (Z.of_nat o) else frame_state st q) ->
  Blocks st' (upd fl o (p :: fl o)) R.
Proof.
  intros B HR Ho Hwi Hbud Er Hw' HS.
  destruct (b_hole _ _ _ B p ltac:(left; apply blk_head)) as [Sp Np].
  assert (Hp : forall o', p ∉ fl o').
  { intros o' Hi. apply Np. exists o', p. split; [done|apply blk_head]. }
  assert (Hne : forall q o', q ∈ fl o' -> q <> p) by (intros q o' Hq ->; by apply (Hp o')).
  split; [done|..].
  - intros o' q. rewrite HS. destruct (decide (q = p)) as [->|Hqp].
    + split.
      * intros Hi. unfold upd in Hi. case_decide; subst; [done|]. by destruct (Hp o').
      * intros [_ [= E]]. apply Nat2Z.inj in E. subst o'. rewrite upd_same. left.
    + rewrite <- (b_head _ _ _ B). unfold upd. case_decide; subst; set_solver.
  - intros o'. unfold upd. case_decide; subst; [constructor; [apply Hp|]|]; apply (b_nodup _ _ _ B).
  - assert (Hb : forall o' q, block_within_allocated_range st' q o' = block_within_allocated_range st q o')
      by (intros; unfold block_within_allocated_range, range_for_ppn; by rewrite Er).
    intros o' q Hi. rewrite Hb. unfold upd in Hi. case_decide; subst; [|by apply (b_within _ _ _ B)].
    apply elem_of_cons in Hi as [->|Hi]; [done|by apply (b_within _ _ _ B)].
  - intros o' p' q Hi Hq. rewrite HS. rewrite decide_False.
    + unfold upd in Hi. case_decide; subst; [|by eapply (b_interior _ _ _ B)].
      apply elem_of_cons in Hi as [->|Hi]; [|by eapply (b_interior _ _ _ B)].
      apply (b_hole _ _ _ B). left. unfold blk. lia.
    + intros ->. unfold upd in Hi. case_decide; subst.
      * apply elem_of_cons in Hi as [->|Hi]; [lia|]. apply Np. exists o, p'. split; [done|unfold blk; lia].
      * apply Np. exists o', p'. split; [done|unfold blk; lia].
  - intros q. rewrite HS, in_free_upd_cons. case_decide; [intros E; by apply free_interior_order in E|].
    intros E. apply (b_free _ _ _ B) in E. tauto.
  - intros q Hq. rewrite HS, in_free_upd_cons. destruct (b_hole _ _ _ B q ltac:(by right)) as [E1 E2].
    rewrite decide_False by (intros ->; by apply (HR p); [apply blk_head|]).
    split; [done|]. intros [Hc|Hc]; [by apply (HR q)|done].
  - intros r q Hr Hq. rewrite Er in Hr. pose proof (b_fresh _ _ _ B r q Hr Hq) as E. rewrite HS.
    rewrite decide_False; [done|]. intros ->. rewrite Sp in E. done.
  - intros q v. rewrite HS. case_decide; [|apply (b_values _ _ _ B)].
    intros [= <-]. left. unfold FRAME_BUDDY_ORDERS in Ho. lia.
  - intros o' q Ho'. unfold upd. case_decide; [subst o'|by apply (b_coalesced _ _ _ B)].
    rewrite !elem_of_cons. intros [->|Hi] [E|Hc].
    + apply (f_equal (Z.lxor p)) in E. rewrite <- Z.lxor_assoc, Z.lxor_nilpotent, Z.lxor_0_l in E.
      pose proof (pages_of_pos o). lia.
    + by apply Hbud.
    + apply Hbud; [done|]. rewrite <- E, buddy_involutive. done.
    + by apply (b_coalesced _ _ _ B o q).
Qed.

(** Free blocks do not overlap. *)
Lemma Blocks_disjoint st fl H o p o' p' q : Blocks st fl H ->
  p ∈ fl o -> p' ∈ fl o' -> blk p o q -> blk p' o' q -> p = p' /\ o = o'.
Proof.
  intros B Hp Hp' Hq Hq'.
  assert (Hlt : forall o p o' p', p ∈ fl o -> p' ∈ fl o' -> p < p' < p + pages_of o -> False).
  { intros o1 p1 o2 p2 H1 H2 Hlt. pose proof (b_interior _ _ _ B o1 p1 p2 H1 Hlt) as E.
    apply (b_head _ _ _ B) in H2 as [Ho2 E2]. rewrite E2 in E. by apply free_interior_order in E. }
  unfold blk in *. assert (p = p') as ->.
  { destruct (Z.lt_trichotomy p p') as [?|[?|?]]; [exfalso|done|exfalso].
    - apply (Hlt o p o' p'); [done..|lia].
    - apply (Hlt o' p' o p); [done..|lia]. }
  split; [done|]. apply (b_head _ _ _ B) in Hp as [? E], Hp' as [? E']. rewrite E in E'.
  injection E' as E'. by apply Nat2Z.inj.
Qed.

Lemma Blocks_remove st st' fl H o l1 p l2 :
  Blocks st fl H -> fl o = l1 ++ p :: l2 ->
  ranges st' = ranges st -> wf_ranges st' ->
  (forall q, frame_state st' q = if decide (q = p) then Some FRAME_STATE_FREE_INTERIOR else frame_state st q) ->
  Blocks st' (upd fl o (l1 ++ l2)) (fun q => blk p o q \/ H q).
Proof.
  intros B E Er Hw' HS.
  assert (Hpo : p ∈ fl o) by (rewrite E; set_solver).
  destruct (proj1 (b_head _ _ _ B o p) Hpo) as [Ho Sp].
  pose proof (b_nodup _ _ _ B o) as Hnd. rewrite E in Hnd. apply NoDup_app in Hnd as (Hn1 & Hn2 & Hn3).
  apply NoDup_cons in Hn3 as [Hn3 Hn4].
  assert (Hsub : forall o' q, q ∈ upd fl o (l1 ++ l2) o' <-> q ∈ fl o' /\ q <> p).
  { intros o' q. unfold upd. case_decide; [subst o'|].
    - rewrite E, !elem_of_app, elem_of_cons. split.
      + intros [Hq|Hq]; split; auto; intros ->; [by apply (Hn2 p Hq), list_elem_of_here|done].
      + intros [[?|[?|?]] ?]; auto. done.
    - split; [|tauto]. intros Hq. split; [done|]. intros ->.
      apply (b_head _ _ _ B) in Hq as [_ Hq]. rewrite Sp in Hq. injection Hq as Hq. apply Nat2Z.inj in Hq. done. }
  split; [done|..].
  - intros o' q. rewrite Hsub, HS, (b_head _ _ _ B). case_decide; [subst q|tauto].
    split; [tauto|]. intros [Ho' Ec]. symmetry in Ec. by apply free_interior_order in Ec.
  - intros o'. unfold upd. case_decide; [subst|apply (b_nodup _ _ _ B)]. apply NoDup_app. split; [done|].
    split; [|done]. intros x Hx Hx2. apply (Hn2 x Hx). by right.
  - assert (Hb : forall o' q, block_within_allocated_range st' q o' = block_within_allocated_range st q o')
      by (intros; unfold block_within_allocated_range, range_for_ppn; by rewrite Er).
    intros o' q Hi. rewrite Hb. apply Hsub in Hi as [Hi _]. by apply (b_within _ _ _ B).
  - intros o' p' q Hi Hq. rewrite HS. case_decide; [done|]. apply Hsub in Hi as [Hi _].
    by eapply (b_interior _ _ _ B).
  - intros q. rewrite HS. case_decide; [intros _; subst; left; left; apply blk_head|].
    intros Eq. apply (b_free _ _ _ B) in Eq as [Hq|Hq]; [by left; right|].
    apply (in_free_upd_remove fl o l1 p l2) in Hq; [|done]. tauto.
  - intros q Hq. rewrite HS. split.
    + case_decide; [done|]. destruct Hq as [Hq|Hq]; [|by apply (b_hole _ _ _ B)].
      apply (b_interior _ _ _ B o p); [done|]. unfold blk in Hq. lia.
    + intros (o' & p' & Hi & Hq'). apply Hsub in Hi as [Hi Hne]. destruct Hq as [Hq|Hq].
      * by destruct (Blocks_disjoint _ _ _ o p o' p' q B Hpo Hi Hq Hq').
      * apply (b_hole _ _ _ B q Hq). by exists o', p'.
  - intros r q Hr Hq. rewrite Er in Hr. pose proof (b_fresh _ _ _ B r q Hr Hq) as Ef. rewrite HS.
    rewrite decide_False; [done|]. intros ->. rewrite Sp in Ef. injection Ef as Ef.
    unfold FRAME_STATE_ALLOCATED, FRAME_BUDDY_ORDERS in *. lia.
  - intros q v. rewrite HS. case_decide; [intros [= <-]; by right; left|apply (b_values _ _ _ B)].
  - intros o' q Ho' Hi. rewrite Hsub in *. destruct Hi as [Hi _]. intros [Hc _].
    by apply (b_coalesced _ _ _ B o' q).
Qed.

(** ** The list operations *)

(** Owned frames outside [X] keep their state and their memory. *)
Record keeps (X : Z -> Prop) (st st' : BuddyFrameAllocator) : Prop := {
  k_ranges : ranges st' = ranges st;
  k_states : forall q v, ~ X q -> owned_state v -> frame_state st' q = Some v <-> frame_state st q = Some v;
  k_links : forall q v, ~ X q -> owned_state v -> frame_state st q = Some v -> links st' !!! q = links st !!! q }.

Abbreviation nowhere := (fun _ : Z => False).

Lemma keeps_refl X st : keeps X st st.
Proof. by split. Qed.

Lemma keeps_trans X st1 st2 st3 : keeps X st1 st2 -> keeps X st2 st3 -> keeps X st1 st3.
Proof.
  intros [R1 S1 L1] [R2 S2 L2]. split; [congruence|..].
  - intros q v Hx Hv. by rewrite S2, S1.
  - intros q v Hx Hv E. rewrite (L2 q v), (L1 q v); try done. by apply S1.
Qed.

Lemma keeps_weaken (X Y : Z -> Prop) st st' : (forall q, X q -> Y q) -> keeps X st st' -> keeps Y st st'.
Proof. intros H [? K1 K2]. split; [done|..]; intros q v Hy; [apply K1|apply K2]; auto. Qed.

Lemma order_u8 o : (o < FRAME_BUDDY_ORDERS)%nat -> u8 (Z.of_nat o) = Z.of_nat o.
Proof. unfold FRAME_BUDDY_ORDERS. intros. apply wrap_small. unfold in_u. lia. Qed.

Definition link_ok (st : BuddyFrameAllocator) (p : Z) (o : nat) : Prop :=
  p = BUDDY_LIST_END \/
  (block_within_allocated_range st p o = true /\ frame_state st p = Some (Z.of_nat o)).

Lemma link_valid_ok st p o : (o < FRAME_BUDDY_ORDERS)%nat -> link_ok st p o -> link_valid st p o = true.
Proof.
  intros Ho [->|[H1 H2]]; unfold link_valid; [done|]. rewrite H1. unfold state_is_order.
  rewrite order_u8, H2, bool_decide_true by done. apply orb_true_r.
Qed.

Lemma read_node_ok st p o previous next : (o < FRAME_BUDDY_ORDERS)%nat ->
  links st !!! p = mk_node p previous next o -> frame_state st p = Some (Z.of_nat o) ->
  link_ok st previous o -> link_ok st next o ->
  read_buddy_node st p o = Some (previous, next).
Proof.
  intros Ho El Es Hp Hn. unfold read_buddy_node. rewrite El. cbn [n_previous n_next n_order n_checksum mk_node].
  rewrite !link_valid_ok, !Z.eqb_refl by done. unfold state_is_order.
  by rewrite order_u8, Es, bool_decide_true.
Qed.

Lemma Blocks_link_ok st fl H o p : Blocks st fl H -> p ∈ fl o -> link_ok st p o.
Proof. intros B Hp. right. split; [by apply (b_within _ _ _ B)|]. by apply (b_head _ _ _ B). Qed.

Lemma free_head_range st fl H o p : Blocks st fl H -> p ∈ fl o ->
  exists r, r ∈ ranges st /\ in_range r p /\ p + pages_of o <= fr_current r.
Proof.
  intros B Hp. pose proof (proj1 (b_head _ _ _ B o p) Hp) as [Ho _].
  pose proof (b_ranges _ _ _ B) as Hw.
  apply (b_within _ _ _ B), within_spec in Hp as (r & Hr & H1 & _ & H2); [|done..].
  exists r. pose proof (range_lookup st r Hw Hr) as (_ & ? & _). pose proof (pages_of_pos o).
  unfold in_range. repeat split; auto; lia.
Qed.

Lemma free_head_not_end st fl H o p : Blocks st fl H -> p ∈ fl o -> p <> BUDDY_LIST_END.
Proof.
  intros B Hp. destruct (free_head_range st fl H o p B Hp) as (r & Hr & [_ Hlt] & _).
  pose proof (range_lookup st r (b_ranges _ _ _ B) Hr) as (_ & ? & _). unfold BUDDY_LIST_END. lia.
Qed.

Lemma lists_disjoint_blocks st fl H : Blocks st fl H -> lists_disjoint fl.
Proof.
  intros B o o' p Hp Hp'. by destruct (Blocks_disjoint st fl H o p o' p p B Hp Hp' (blk_head _ _) (blk_head _ _)).
Qed.

Lemma owned_not_free v o : (o < FRAME_BUDDY_ORDERS)%nat -> owned_state v -> v <> Z.of_nat o.
Proof.
  unfold FRAME_BUDDY_ORDERS, owned_state, FRAME_STATE_ALLOCATED, FRAME_STATE_CPU_CACHED, FRAME_STATE_ANON_ZEROED. lia.
Qed.

Lemma owned_not_interior v : owned_state v -> v <> FRAME_STATE_FREE_INTERIOR.
Proof. intros [->|[->| ->]]; done. Qed.

(** A change of one frame's state between free states. *)
Lemma keeps_one st st' p v0 v1 :
  ranges st' = ranges st ->
  (forall q, frame_state st' q = if decide (q = p) then Some v1 else frame_state st q) ->
  frame_state st p = Some v0 -> ~ owned_state v0 -> ~ owned_state v1 ->
  (forall q v, owned_state v -> frame_state st q = Some v -> links st' !!! q = links st !!! q) ->
  keeps nowhere st st'.
Proof.
  intros Er HS Ep H0 H1 Hl. split; [done| |intros q v _; apply Hl].
  intros q v _ Hv. rewrite HS. case_decide; [subst|done]. rewrite Ep. split; intros [= ->]; done.
Qed.

(** Nodes of a list are read back. *)
Lemma read_list st fl H o l1 p l2 st2 : Blocks st fl H -> fl o = l1 ++ p :: l2 ->
  links st2 !!! p = mk_node p (List.last l1 BUDDY_LIST_END) (hd BUDDY_LIST_END l2) o ->
  ranges st2 = ranges st -> (forall q, q ∈ fl o -> frame_state st2 q = frame_state st q) ->
  read_buddy_node st2 p o = Some (List.last l1 BUDDY_LIST_END, hd BUDDY_LIST_END l2).
Proof.
  intros B E Hl Er HS. assert (Hp : p ∈ fl o) by (rewrite E; set_solver).
  pose proof (proj1 (b_head _ _ _ B o p) Hp) as [Ho Sp].
  assert (Hok : forall q, q ∈ fl o -> link_ok st2 q o).
  { intros q Hq. destruct (Blocks_link_ok _ _ _ o q B Hq) as [?|[Hwi Hs]]; [by left|]. right.
    split; [|by rewrite HS]. revert Hwi. unfold block_within_allocated_range, range_for_ppn. by rewrite Er. }
  apply read_node_ok; [done|done|by rewrite HS|..].
  - destruct (last_or l1 BUDDY_LIST_END) as [->|Hi]; [by left|]. apply Hok. rewrite E. set_solver.
  - destruct (hd_in l2 BUDDY_LIST_END) as [->|Hi]; [by left|]. apply Hok. rewrite E. set_solver.
Qed.

Lemma buddy_push_code st fl p o R l :
  Inv st fl (fun q => blk p o q \/ R q) -> (o < FRAME_BUDDY_ORDERS)%nat ->
  set_frame_state p (Z.of_nat o) st = Some (set_states st l) ->
  (forall q, q ∈ fl o -> q <> p /\ frame_state (set_states st l) q = frame_state st q) ->
  buddy_push p o st =
  Some (mkBuddy (ranges st) (<[o := p]> (buddy_heads st)) l (usize (recycled_count st + pages_of o))
    (relink_next (<[p := mk_node p BUDDY_LIST_END (hd BUDDY_LIST_END (fl o)) o]> (links st)) o p (fl o))).
Proof.
  intros [[_ HL] B _] Ho El HS. destruct (HL o Ho) as [Eh Hd].
  unfold buddy_push. rewrite Eh. cbn [mbind option_bind]. rewrite order_u8, El by done. cbn [mbind option_bind].
  destruct (fl o) as [|h t] eqn:Efl; cbn [hd] in *; [done|].
  assert (Hho : h ∈ fl o) by (rewrite Efl; left).
  pose proof (free_head_not_end _ _ _ o h B Hho) as Hend. apply Z.eqb_neq in Hend. rewrite Hend. cbn [negb].
  destruct (HS h ltac:(left)) as [Hhp _]. destruct Hd as [Hnode _].
  set (st2 := write_buddy_node p BUDDY_LIST_END h o (set_states st l)).
  assert (Hlh : links st2 !!! h = links st !!! h) by (apply lookup_total_insert_ne; done).
  rewrite (read_list st fl _ o [] h t st2 B Efl); [|by rewrite Hlh|done|].
  - cbn [mbind option_bind]. unfold relink_next. rewrite lookup_total_insert_ne, Hnode by done. done.
  - intros q Hq. rewrite Efl in Hq. by apply HS.
Qed.

Lemma buddy_push_spec st fl p o R :
  Inv st fl (fun q => blk p o q \/ R q) -> (forall q, blk p o q -> ~ R q) ->
  (o < FRAME_BUDDY_ORDERS)%nat -> block_within_allocated_range st p o = true ->
  ((S o < FRAME_BUDDY_ORDERS)%nat -> Z.lxor p (pages_of o) ∉ fl o) ->
  exists st', buddy_push p o st = Some st' /\ Inv st' (upd fl o (p :: fl o)) R /\ keeps nowhere st st'.
Proof.
  intros I HR Ho Hwi Hbud. pose proof I as [[HLlen HL] B HC]. pose proof (b_ranges _ _ _ B) as Hw.
  destruct (proj1 (within_spec st p o Hw Ho) Hwi) as (r & Hr & Hp1 & _ & Hp2).
  pose proof (range_lookup st r Hw Hr) as (_ & Hce & _). pose proof (pages_of_pos o) as Hpos.
  destruct (set_frame_state_spec st r p (Z.of_nat o) Hw Hr) as (l & El & Hlen & HS); [unfold in_range; lia|].
  pose proof (wf_ranges_states st l Hlen Hw) as Hw'.
  pose proof (Blocks_push st (set_states st l) fl p o R B HR Ho Hwi Hbud eq_refl Hw' HS) as B'.
  destruct (b_hole _ _ _ B p ltac:(left; apply blk_head)) as [Sp Np].
  assert (Hne : forall o' q, q ∈ fl o' -> q <> p).
  { intros o' q Hq ->. apply Np. exists o', p. split; [done|apply blk_head]. }
  assert (Hown : forall q v, owned_state v -> frame_state st q = Some v -> q <> p /\ q ∉ fl o).
  { intros q v Hv E. split; [intros ->; rewrite Sp in E; injection E as E; by apply (owned_not_interior v)|].
    intros [_ E']%(b_head _ _ _ B). rewrite E in E'. injection E' as E'. by apply (owned_not_free v o). }
  eexists. split; [apply (buddy_push_code st fl p o R l I Ho El)|].
  { intros q Hq. split; [by apply (Hne o)|]. rewrite HS, decide_False; [done|by apply (Hne o)]. }
  split; [split|].
  - apply (Lists_update _ (links st) _ fl o (p :: fl o)); [done|by split|..].
    + intros o' q Hq Ho'. simpl. rewrite relink_next_other.
      * apply lookup_total_insert_ne. by apply not_eq_sym, (Hne o').
      * intros Hq'. apply Ho'. by apply (lists_disjoint_blocks _ _ _ B o' o q).
    + apply dseg_push; [apply (b_nodup _ _ _ B)|intros Hc; by apply (Hne o p)|]. by apply HL.
  - by apply (Blocks_same (set_states st l)).
  - simpl. rewrite HC, wrap_add_l, count_upd by done. f_equal. cbn [length]. rewrite Nat2Z.inj_succ. unfold Z.succ. ring.
  - apply (keeps_one st _ p FRAME_STATE_FREE_INTERIOR (Z.of_nat o)); [done|exact HS|done|..].
    + intros Hv. by apply owned_not_interior in Hv.
    + intros Hv. by apply (owned_not_free _ o) in Hv.
    + intros q v Hv E. destruct (Hown q v Hv E). simpl. rewrite relink_next_other by done.
      by apply lookup_total_insert_ne, not_eq_sym.
Qed.

Lemma insert_head_same st fl o : Lists (buddy_heads st) (links st) fl -> (o < FRAME_BUDDY_ORDERS)%nat ->
  <[o := hd BUDDY_LIST_END (fl o)]> (buddy_heads st) = buddy_heads st.
Proof. intros [_ HL] Ho. apply list_insert_id. by apply HL. Qed.

(** First half of [buddy_remove]: the predecessor, or the head, skips [p]. *)
Lemma remove_prev_code st fl H o l1 p l2 : Inv st fl H -> (o < FRAME_BUDDY_ORDERS)%nat -> fl o = l1 ++ p :: l2 ->
  (if List.last l1 BUDDY_LIST_END =? BUDDY_LIST_END then
     head ← buddy_heads st !! o;
     _ ← assert (head =? p);
     Some (set_heads st (<[o := hd BUDDY_LIST_END l2]> (buddy_heads st)))
   else
     '(pp, pn) ← read_buddy_node st (List.last l1 BUDDY_LIST_END) o;
     _ ← assert (pn =? p);
     Some (write_buddy_node (List.last l1 BUDDY_LIST_END) pp (hd BUDDY_LIST_END l2) o st)) =
  Some (mkBuddy (ranges st) (<[o := hd BUDDY_LIST_END (l1 ++ l2)]> (buddy_heads st)) (frame_states st)
    (recycled_count st) (relink_prev (links st) o l1 (hd BUDDY_LIST_END l2))).
Proof.
  intros I Ho E. pose proof I as [HL B _]. destruct (proj2 HL o Ho) as [Eh Hd]. rewrite E in Eh, Hd.
  destruct l1 as [|a l1 _] using rev_ind; simpl in Eh.
  - simpl. rewrite Eh. simpl. rewrite Z.eqb_refl. done.
  - assert (Ha : a ∈ fl o) by (rewrite E; set_solver). unfold relink_prev.
    assert (Em : forall T (u v : T), match l1 ++ [a] with [] => u | _ => v end = v) by (intros; by destruct l1).
    rewrite Em, last_snoc_or. pose proof (free_head_not_end _ _ _ o a B Ha) as Hend. apply Z.eqb_neq in Hend. rewrite Hend.
    rewrite <- app_assoc in E, Hd, Eh. cbn [app] in E, Hd, Eh.
    pose proof (dseg_node _ _ _ _ _ _ _ Hd) as Hnode.
    rewrite (read_list st fl H o l1 a (p :: l2) st B E Hnode) by done.
    cbn [mbind option_bind hd]. rewrite Z.eqb_refl. cbn [assert mbind option_bind]. rewrite Hnode. cbn [n_previous mk_node].
    replace (hd BUDDY_LIST_END ((l1 ++ [a]) ++ l2)) with (hd BUDDY_LIST_END (fl o)); [|rewrite E; by destruct l1].
    by rewrite insert_head_same.
Qed.

(** Second half: the successor skips [p]. *)
Lemma remove_next_code st fl H o l1 p l2 st1 : Inv st fl H -> fl o = l1 ++ p :: l2 ->
  ranges st1 = ranges st -> frame_states st1 = frame_states st ->
  (forall q, q ∈ l2 -> links st1 !!! q = links st !!! q) ->
  (if negb (hd BUDDY_LIST_END l2 =? BUDDY_LIST_END) then
     '(np, nn) ← read_buddy_node st1 (hd BUDDY_LIST_END l2) o;
     _ ← assert (np =? p);
     Some (write_buddy_node (hd BUDDY_LIST_END l2) (List.last l1 BUDDY_LIST_END) nn o st1)
   else Some st1) =
  Some (set_links st1 (relink_next (links st1) o (List.last l1 BUDDY_LIST_END) l2)).
Proof.
  intros I E Er Es Hl. pose proof I as [HL B _].
  destruct l2 as [|b l2]; [by destruct st1|]. cbn [hd relink_next].
  assert (Hb : b ∈ fl o) by (rewrite E; set_solver).
  destruct (proj1 (b_head _ _ _ B o b) Hb) as [Ho _].
  pose proof (free_head_not_end _ _ _ o b B Hb) as Hend. apply Z.eqb_neq in Hend. rewrite Hend. cbn [negb].
  destruct (proj2 HL o Ho) as [_ Hd]. rewrite E in Hd.
  assert (E2 : fl o = (l1 ++ [p]) ++ b :: l2) by (by rewrite E, <- app_assoc).
  assert (Hnode : links st1 !!! b = mk_node b (List.last (l1 ++ [p]) BUDDY_LIST_END) (hd BUDDY_LIST_END l2) o).
  { rewrite Hl by left. apply (dseg_node _ _ BUDDY_LIST_END (l1 ++ [p]) b l2). by rewrite <- app_assoc. }
  rewrite (read_list st fl H o (l1 ++ [p]) b l2 st1 B E2 Hnode Er) by (intros; by apply frame_state_same).
  rewrite Hnode, last_snoc_or. cbn [mbind option_bind n_next mk_node]. rewrite Z.eqb_refl. done.
Qed.

Lemma buddy_remove_code st fl H o l1 p l2 l : Inv st fl H -> (o < FRAME_BUDDY_ORDERS)%nat -> fl o = l1 ++ p :: l2 ->
  set_frame_state p FRAME_STATE_FREE_INTERIOR st = Some (set_states st l) ->
  buddy_remove p o st =
  Some (mkBuddy (ranges st) (<[o := hd BUDDY_LIST_END (l1 ++ l2)]> (buddy_heads st)) l
    (usize (recycled_count st - pages_of o))
    (relink_next (relink_prev (links st) o l1 (hd BUDDY_LIST_END l2)) o (List.last l1 BUDDY_LIST_END) l2)).
Proof.
  intros I Ho E El. pose proof I as [HL B _]. destruct (proj2 HL o Ho) as [_ Hd]. rewrite E in Hd.
  pose proof (b_nodup _ _ _ B o) as Hnd. rewrite E in Hnd. apply NoDup_app in Hnd as (_ & Hx & _).
  unfold buddy_remove. rewrite (read_list st fl H o l1 p l2 st B E (dseg_node _ _ _ _ _ _ _ Hd)) by done.
  cbn [mbind option_bind]. rewrite (remove_prev_code st fl H o l1 p l2 I Ho E). cbn [mbind option_bind].
  rewrite (remove_next_code st fl H o l1 p l2 _ I E); [|done|done|].
  - cbn [mbind option_bind]. revert El. unfold set_frame_state, frame_state_index, range_for_ppn. simpl.
    destruct (List.find _ (ranges st)); [|done]. simpl. destruct (frame_states st !! _); [|done]. simpl.
    intros [= ->]. done.
  - intros q Hq. simpl. apply relink_prev_other. intros Hq1. apply (Hx q Hq1). by right.
Qed.

Lemma buddy_remove_spec st fl H o p : Inv st fl H -> p ∈ fl o ->
  exists st' l1 l2, fl o = l1 ++ p :: l2 /\ buddy_remove p o st = Some st' /\
    Inv st' (upd fl o (l1 ++ l2)) (fun q => blk p o q \/ H q) /\ keeps nowhere st st'.
Proof.
  intros I Hp. pose proof I as [[HLlen HL] B HC]. pose proof (b_ranges _ _ _ B) as Hw.
  destruct (proj1 (b_head _ _ _ B o p) Hp) as [Ho Sp].
  destruct (free_head_range _ _ _ o p B Hp) as (r & Hr & Hpr & _).
  destruct (list_elem_of_split _ _ Hp) as (l1 & l2 & E).
  destruct (set_frame_state_spec st r p FRAME_STATE_FREE_INTERIOR Hw Hr Hpr) as (l & El & Hlen & HS).
  pose proof (wf_ranges_states st l Hlen Hw) as Hw'.
  pose proof (Blocks_remove st (set_states st l) fl H o l1 p l2 B E eq_refl Hw' HS) as B'.
  assert (Hmem : forall q, q ∉ fl o ->
    relink_next (relink_prev (links st) o l1 (hd BUDDY_LIST_END l2)) o (List.last l1 BUDDY_LIST_END) l2 !!! q = links st !!! q).
  { intros q Hq. rewrite E in Hq. rewrite relink_next_other by set_solver. apply relink_prev_other. set_solver. }
  eexists _, l1, l2. split; [done|]. split; [by apply (buddy_remove_code st fl H)|]. split; [split|].
  - apply (Lists_update _ (links st) _ fl o (l1 ++ l2)); [done|by split|..].
    + intros o' q Hq Ho'. apply Hmem. intros Hq'. apply Ho'. by apply (lists_disjoint_blocks _ _ _ B o' o q).
    + apply (dseg_remove _ _ _ p); rewrite <- E; [apply (b_nodup _ _ _ B)|]. by apply HL.
  - by apply (Blocks_same (set_states st l)).
  - simpl. rewrite HC, count_upd, E by done. rewrite !length_app. simpl. rewrite wrap_sub_l. f_equal.
    rewrite !Nat2Z.inj_add, Nat2Z.inj_succ. unfold Z.succ. ring.
  - apply (keeps_one st _ p (Z.of_nat o) FRAME_STATE_FREE_INTERIOR); [done|exact HS|done|..].
    + intros Hv. by apply (owned_not_free _ o) in Hv.
    + intros Hv. by apply owned_not_interior in Hv.
    + intros q v Hv Eq. simpl. apply Hmem. intros [_ E']%(b_head _ _ _ B). rewrite Eq in E'.
      injection E' as E'. by apply (owned_not_free v o).
Qed.
