(* ===== verification/FrameOps.v ===== *)
(** * Physical frames: the operations of the buddy allocator

    The merge loop, insertion of blocks and ranges, splitting, and the
    allocation and release operations, on top of the invariant of
    [FrameInv]; the abstract specification of a frame allocator and the proof
    that [BuddyFrameAllocator] implements it. *)

From S2P Require Import Prelude FrameAlloc FrameInv.

Lemma count_push fl o p : (o < FRAME_BUDDY_ORDERS)%nat -> count (upd fl o (p :: fl o)) = count fl + pages_of o.
Proof. intros Ho. rewrite count_upd by done. cbn [length]. rewrite Nat2Z.inj_succ. unfold Z.succ. ring. Qed.

Lemma count_remove fl o l1 p l2 : (o < FRAME_BUDDY_ORDERS)%nat -> fl o = l1 ++ p :: l2 ->
  count (upd fl o (l1 ++ l2)) = count fl - pages_of o.
Proof.
  intros Ho E. rewrite count_upd, E by done. rewrite !length_app. cbn [length].
  rewrite !Nat2Z.inj_add, Nat2Z.inj_succ. unfold Z.succ. ring.
Qed.

(** ** Merging *)

(** A free buddy lies in the same region, and the two halves form a block. *)
Lemma merge_within st p o : wf_ranges st -> (S o < FRAME_BUDDY_ORDERS)%nat ->
  let b := Z.lxor p (pages_of o) in
  block_within_allocated_range st p o = true -> block_within_allocated_range st b o = true ->
  block_within_allocated_range st (Z.min p b) (S o) = true /\
  forall q, blk (Z.min p b) (S o) q <-> blk b o q \/ blk p o q.
Proof.
  intros Hw Ho b Hp Hb. assert (Ho' : (o < 32)%nat) by (unfold FRAME_BUDDY_ORDERS in Ho; lia).
  apply within_spec in Hp as (r & Hr & P1 & P2 & P3); [|done..].
  apply within_spec in Hb as (r' & Hr' & B1 & B2 & B3); [|done..].
  pose proof (range_lookup st r Hw Hr) as (? & ? & _). pose proof (range_lookup st r' Hw Hr') as (? & ? & _).
  pose proof (pages_of_pos o) as Hpos.
  destruct (buddy_cases p o ltac:(lia) P2) as (_ & Hal & Hcase). fold b in Hal, Hcase.
  assert (r' = r) as ->.
  { apply list_elem_of_lookup in Hr as [i Hi], Hr' as [j Hj]. destruct (decide (i = j)) as [->|Hij]; [congruence|].
    destruct (wr_pair _ Hw i j r r' Hi Hj Hij) as [Hap _]. lia. }
  split.
  - apply within_spec; [done|unfold FRAME_BUDDY_ORDERS in Ho; lia|]. exists r. rewrite pages_of_S.
    repeat split; [done|lia|done|lia].
  - intros q. unfold blk. rewrite pages_of_S. lia.
Qed.

Lemma merge_loop_spec fuel : forall st fl p o R,
  Inv st fl (fun q => blk p o q \/ R q) -> (forall q, blk p o q -> ~ R q) ->
  (o < FRAME_BUDDY_ORDERS)%nat -> block_within_allocated_range st p o = true ->
  (FRAME_BUDDY_ORDERS < fuel + o)%nat ->
  exists p' o' st' fl', merge_loop fuel p o st = Some (p', o', st') /\
    Inv st' fl' (fun q => blk p' o' q \/ R q) /\ (forall q, blk p' o' q -> ~ R q) /\
    (o' < FRAME_BUDDY_ORDERS)%nat /\ block_within_allocated_range st' p' o' = true /\
    ((S o' < FRAME_BUDDY_ORDERS)%nat -> Z.lxor p' (pages_of o') ∉ fl' o') /\
    keeps nowhere st st' /\ count fl' + pages_of o' = count fl + pages_of o.
Proof.
  induction fuel as [|fuel IH]; intros st fl p o R I HR Ho Hwi Hf; [lia|].
  pose proof I as [_ B _]. cbn [merge_loop]. destruct (Nat.ltb_spec (o + 1) FRAME_BUDDY_ORDERS) as [Ho1|Ho1].
  2: { exists p, o, st, fl. split_and!; try done. intros; lia. }
  set (b := Z.lxor p (pages_of o)). destruct (negb _ || negb _) eqn:Eb.
  - exists p, o, st, fl. split_and!; try done. intros _ Hb. fold b in Hb.
    rewrite (b_within _ _ _ B o b Hb) in Eb. apply (b_head _ _ _ B) in Hb as [_ Hb].
    unfold state_is_order in Eb. rewrite order_u8, bool_decide_true in Eb by done. done.
  - to_prop. unfold state_is_order in H0. rewrite order_u8 in H0 by done. to_prop.
    assert (Hb : b ∈ fl o) by (by apply (b_head _ _ _ B)).
    destruct (buddy_remove_spec st fl _ o b I Hb) as (st1 & l1 & l2 & E & Ec & I1 & K1). rewrite Ec.
    cbn [mbind option_bind].
    destruct (merge_within st p o (b_ranges _ _ _ B) ltac:(lia) Hwi H) as [Hm Hq]. fold b in Hm, Hq.
    assert (Hm1 : block_within_allocated_range st1 (Z.min p b) (S o) = true).
    { revert Hm. unfold block_within_allocated_range, range_for_ppn. by rewrite (k_ranges _ _ _ K1). }
    destruct (IH st1 (upd fl o (l1 ++ l2)) (Z.min p b) (S o) R) as (p' & o' & st' & fl' & E' & I' & R' & O' & W' & N' & K' & C');
      [|..|exists p', o', st', fl'; split; [done|]; split_and!; try done].
    + eapply Inv_proper; [|exact I1]. intros q. rewrite Hq. tauto.
    + intros q [Hq1|Hq1]%Hq; [|by apply HR]. intros HRq.
      apply (b_hole _ _ _ B q); [by right|]. by exists o, b.
    + lia.
    + done.
    + lia.
    + apply (keeps_trans _ _ st1); [exact K1|]. exact K'.
    + rewrite C', pages_of_S, (count_remove fl o l1 b l2) by done. lia.
Qed.

Lemma insert_buddy_block_spec st fl p o R :
  Inv st fl (fun q => blk p o q \/ R q) -> (forall q, blk p o q -> ~ R q) ->
  (o < FRAME_BUDDY_ORDERS)%nat -> block_within_allocated_range st p o = true ->
  exists st' fl', insert_buddy_block p o st = Some st' /\ Inv st' fl' R /\ keeps nowhere st st' /\
    count fl' = count fl + pages_of o.
Proof.
  intros I HR Ho Hwi.
  destruct (merge_loop_spec (S FRAME_BUDDY_ORDERS) st fl p o R I HR Ho Hwi ltac:(lia))
    as (p' & o' & st1 & fl1 & E & I1 & R1 & O1 & W1 & N1 & K1 & C1).
  destruct (buddy_push_spec st1 fl1 p' o' R I1 R1 O1 W1 N1) as (st2 & E2 & I2 & K2).
  exists st2, (upd fl1 o' (p' :: fl1 o')). unfold insert_buddy_block. rewrite E. cbn [mbind option_bind].
  split; [done|]. split; [done|]. split; [by apply (keeps_trans _ _ st1)|]. rewrite count_push by done. lia.
Qed.

(** ** Ranges of frames *)

Lemma ctz_aligned p : aligned (Zpos p) (ctz p).
Proof.
  induction p as [p _|p IH|]; simpl; [apply Z.mod_1_r| |apply Z.mod_1_r].
  apply aligned_mul in IH as [k E]. replace (Zpos p~0) with (k * pages_of (S (ctz p))); [apply mul_aligned|].
  rewrite pages_of_S. lia.
Qed.

Lemma aligned_0 o : aligned 0 o.
Proof. apply Z.mod_0_l. pose proof (pages_of_pos o). lia. Qed.

Lemma chunk_order_spec cur e : 0 <= cur < e -> e < 2 ^ 64 ->
  let o := chunk_order cur e in (o < FRAME_BUDDY_ORDERS)%nat /\ aligned cur o /\ cur + pages_of o <= e.
Proof.
  intros Hc He o. unfold o, chunk_order, leading_zeros.
  assert (Hx : (e - cur =? 0) = false) by (apply Z.eqb_neq; lia). rewrite Hx.
  assert (Hl : 0 <= Z.log2 (e - cur) < 64) by (split; [apply Z.log2_nonneg|]; apply Z.log2_lt_pow2; lia).
  replace (64 - 1 - Z.to_nat (63 - Z.log2 (e - cur)))%nat with (Z.to_nat (Z.log2 (e - cur))) by lia.
  set (al := if cur =? 0 then _ else _). set (m := Nat.min _ _).
  split; [unfold m, FRAME_BUDDY_ORDERS; lia|]. split.
  - apply (aligned_weaken _ al); [unfold m; lia|]. unfold al. case_if; [subst; apply aligned_0|].
    destruct cur as [|p|p]; [lia|apply ctz_aligned|lia].
  - assert (Hm : pages_of m <= pages_of (Z.to_nat (Z.log2 (e - cur)))) by (apply pages_of_mono; unfold m; lia).
    rewrite (pages_of_eq (Z.to_nat _)), Z2Nat.id in Hm by lia.
    pose proof (Z.log2_spec (e - cur) ltac:(lia)). lia.
Qed.

(** Owned frames become holes. *)
Lemma Blocks_release st st' fl H a b :
  Blocks st fl H ->
  (forall q, a <= q < b -> exists r v, r ∈ ranges st /\ fr_start r <= q < fr_current r /\
     owned_state v /\ frame_state st q = Some v) ->
  ranges st' = ranges st -> wf_ranges st' ->
  (forall q, frame_state st' q = if decide (a <= q < b) then Some FRAME_STATE_FREE_INTERIOR else frame_state st q) ->
  Blocks st' fl (fun q => a <= q < b \/ H q).
Proof.
  intros B HX Er Hw' HS.
  assert (Hfree : forall q, a <= q < b -> ~ in_free fl q).
  { intros q Hq (o & p & Hp & Hb). destruct (HX q Hq) as (r & v & _ & _ & Hv & E).
    destruct (decide (q = p)) as [->|Hne].
    - apply (b_head _ _ _ B) in Hp as [Ho Hp]. rewrite E in Hp. injection Hp as Hp. by apply (owned_not_free v o).
    - rewrite (b_interior _ _ _ B o p q Hp) in E by (unfold blk in Hb; lia). injection E as E.
      by apply (owned_not_interior v). }
  assert (Hkeep : forall q, in_free fl q -> frame_state st' q = frame_state st q).
  { intros q Hq. rewrite HS, decide_False; [done|]. intros Hx. by apply (Hfree q). }
  split; [done|..].
  - intros o p. rewrite (b_head _ _ _ B). rewrite HS. case_decide as Hd; [|done].
    destruct (HX p Hd) as (r & v & _ & _ & Hv & E). rewrite E. split; intros [Ho [= E']].
    + exfalso. by apply (owned_not_free v o).
    + symmetry in E'. exfalso. apply (free_interior_order 0 o Ho). by f_equal.
  - apply (b_nodup _ _ _ B).
  - intros o p Hp. apply (b_within _ _ _ B) in Hp. revert Hp. unfold block_within_allocated_range, range_for_ppn. by rewrite Er.
  - intros o p q Hp Hq. rewrite Hkeep by (exists o, p; split; [done|unfold blk; lia]). by apply (b_interior _ _ _ B o p).
  - intros q. rewrite HS. case_decide; [auto|]. intros [Hq|Hq]%(b_free _ _ _ B); auto.
  - intros q. rewrite HS. intros [Hq|Hq]; [rewrite decide_True by done; auto|].
    destruct (b_hole _ _ _ B q Hq). case_decide; auto.
  - intros r q Hr Hq. rewrite Er in Hr. rewrite HS. rewrite decide_False; [by apply (b_fresh _ _ _ B r)|].
    intros Hx. destruct (HX q Hx) as (r' & v & Hr' & Hq' & _ & _).
    by apply (fresh_not_started st r r' q (b_ranges _ _ _ B)).
  - intros q v. rewrite HS. case_decide; [intros [= <-]; auto|apply (b_values _ _ _ B)].
  - apply (b_coalesced _ _ _ B).
Qed.

(** Holes become allocated frames. *)
Lemma Blocks_acquire st st' fl H a b :
  Blocks st fl (fun q => a <= q < b \/ H q) -> (forall q, a <= q < b -> ~ H q) ->
  ranges st' = ranges st -> wf_ranges st' ->
  (forall q, frame_state st' q = if decide (a <= q < b) then Some FRAME_STATE_ALLOCATED else frame_state st q) ->
  Blocks st' fl H.
Proof.
  intros B HX Er Hw' HS.
  assert (Hh : forall q, a <= q < b -> frame_state st q = Some FRAME_STATE_FREE_INTERIOR /\ ~ in_free fl q)
    by (intros q Hq; apply (b_hole _ _ _ B); auto).
  split; [done|..].
  - intros o p. rewrite (b_head _ _ _ B), HS. case_decide as Hd; [|done]. destruct (Hh p Hd) as [-> _].
    split; intros [Ho [= E]]; unfold FRAME_STATE_FREE_INTERIOR, FRAME_STATE_ALLOCATED, FRAME_BUDDY_ORDERS in *; lia.
  - apply (b_nodup _ _ _ B).
  - intros o p Hp. apply (b_within _ _ _ B) in Hp. revert Hp. unfold block_within_allocated_range, range_for_ppn. by rewrite Er.
  - intros o p q Hp Hq. rewrite HS, decide_False; [by apply (b_interior _ _ _ B o p)|]. intros Hx.
    apply (Hh q Hx). exists o, p. split; [done|unfold blk; lia].
  - intros q. rewrite HS. case_decide; [done|]. intros [[Hq|Hq]|Hq]%(b_free _ _ _ B); [done|auto|auto].
  - intros q Hq. rewrite HS, decide_False by (intros Hx; by apply (HX q)). apply (b_hole _ _ _ B). auto.
  - intros r q Hr Hq. rewrite Er in Hr. rewrite HS. case_decide; [done|]. by apply (b_fresh _ _ _ B r).
  - intros q v. rewrite HS. case_decide; [intros [= <-]; right; right; by left|apply (b_values _ _ _ B)].
  - apply (b_coalesced _ _ _ B).
Qed.

Lemma insert_recycled_loop_spec r e : forall fuel st fl cur R,
  Inv st fl (fun q => cur <= q < e \/ R q) -> (forall q, cur <= q < e -> ~ R q) ->
  r ∈ ranges st -> fr_start r <= cur <= e -> e <= fr_current r -> (Z.to_nat (e - cur) <= fuel)%nat ->
  exists st' fl', insert_recycled_loop fuel cur e st = Some st' /\ Inv st' fl' R /\ keeps nowhere st st' /\
    count fl' = count fl + (e - cur).
Proof.
  induction fuel as [|fuel IH]; intros st fl cur R I HR Hr Hc He Hf; simpl.
  - assert (cur = e) as -> by lia. rewrite Z.ltb_irrefl. exists st, fl. split_and!; try done; [|lia].
    eapply Inv_proper; [|exact I]. intros q. split; [auto|]. intros [?|?]; [lia|done].
  - destruct (Z.ltb_spec cur e) as [Hlt|Hge].
    2: { exists st, fl. split_and!; try done; [|lia]. eapply Inv_proper; [|exact I].
         intros q. split; [auto|]. intros [?|?]; [lia|done]. }
    pose proof (b_ranges _ _ _ (i_blocks _ _ _ I)) as Hw. pose proof (range_lookup st r Hw Hr) as (? & ? & _).
    destruct (chunk_order_spec cur e ltac:(lia) ltac:(lia)) as (Ho & Hal & Hfit).
    set (o := chunk_order cur e) in *. pose proof (pages_of_pos o) as Hpos.
    destruct (insert_buddy_block_spec st fl cur o (fun q => cur + pages_of o <= q < e \/ R q))
      as (st1 & fl1 & E1 & I1 & K1 & C1).
    + eapply Inv_proper; [|exact I]. intros q. unfold blk. split.
      * intros [?|[?|?]]; [left; lia|left; lia|by right].
      * intros [?|?]; [|by right; right]. destruct (Z.lt_ge_cases q (cur + pages_of o)); [left; lia|right; left; lia].
    + intros q Hq [?|HRq]; [unfold blk in Hq; lia|]. apply (HR q); [unfold blk in Hq; lia|done].
    + done.
    + apply within_spec; [done|done|]. exists r. split_and!; [done|lia|done|lia].
    + rewrite E1. cbn [mbind option_bind]. rewrite wrap_small by (unfold in_u; lia).
      destruct (IH st1 fl1 (cur + pages_of o) R) as (st' & fl' & E' & I' & K' & C'); [done|..].
      * intros q Hq. apply HR. lia.
      * by rewrite (k_ranges _ _ _ K1).
      * lia.
      * lia.
      * lia.
      * exists st', fl'. split_and!; [done|done|by apply (keeps_trans _ _ st1)|lia].
Qed.

Lemma keeps_fill (X : Z -> Prop) st l : (forall q, ~ X q -> frame_state (set_states st l) q = frame_state st q) ->
  keeps X st (set_states st l).
Proof. intros H. split; [done| |done]. intros q v Hq _. by rewrite H. Qed.

Lemma insert_recycled_range_spec st fl r s e :
  Inv st fl nowhere -> r ∈ ranges st -> fr_start r <= s <= e -> e <= fr_current r ->
  (forall q, s <= q < e -> exists v, owned_state v /\ frame_state st q = Some v) ->
  exists st' fl', insert_recycled_range s e st = Some st' /\ Inv st' fl' nowhere /\
    keeps (fun q => s <= q < e) st st' /\ count fl' = count fl + (e - s) /\
    forall q v, s <= q < e -> owned_state v -> frame_state st' q <> Some v.
Proof.
  intros I Hr Hs He HX. unfold insert_recycled_range. destruct (Z.leb_spec e s) as [Hle|Hlt].
  { exists st, fl. split_and!; try done; [lia|]. intros; lia. }
  pose proof I as [HL B HC]. pose proof (b_ranges _ _ _ B) as Hw. pose proof (range_lookup st r Hw Hr) as (? & ? & _).
  destruct (fill_frame_states_spec st r s (e - s) FRAME_STATE_FREE_INTERIOR Hw Hr) as (l & El & Hlen & HS); [lia..|].
  replace (s + (e - s)) with e in HS by lia. rewrite El. cbn [mbind option_bind].
  pose proof (wf_ranges_states st l Hlen Hw) as Hw'.
  assert (I1 : Inv (set_states st l) fl (fun q => s <= q < e \/ False)).
  { split; [done| |done]. apply (Blocks_release st); [done| |done|done|done].
    intros q Hq. destruct (HX q Hq) as (v & Hv & E). exists r, v. split_and!; [done|lia|lia|done|done]. }
  destruct (insert_recycled_loop_spec r e (Z.to_nat (e - s)) (set_states st l) fl s nowhere)
    as (st' & fl' & E' & I' & K' & C'); [exact I1|auto|done|lia|lia|lia|].
  exists st', fl'. split_and!; try done.
  - apply (keeps_trans _ _ (set_states st l)).
    + apply keeps_fill. intros q Hq. by rewrite HS, decide_False.
    + eapply keeps_weaken; [|exact K']. done.
  - intros q v Hq Hv Ev. apply (k_states _ _ _ K') in Ev; [|auto|done]. rewrite HS, decide_True in Ev by done.
    injection Ev as Ev. by apply (owned_not_interior v).
Qed.

(** ** Splitting *)

Lemma within_half st p o : wf_ranges st -> (S o < 32)%nat -> block_within_allocated_range st p (S o) = true ->
  block_within_allocated_range st p o = true /\ block_within_allocated_range st (p + pages_of o) o = true.
Proof.
  intros Hw Ho. rewrite !within_spec by (done || lia). rewrite pages_of_S. pose proof (pages_of_pos o).
  intros (r & Hr & H1 & H2 & H3). split; exists r; split_and!; try done; try lia.
  - by apply (aligned_weaken _ (S o)); [lia|].
  - apply (aligned_weaken _ (S o) o) in H2; [|lia]. apply aligned_mul in H2 as [k ->].
    replace (k * pages_of o + pages_of o) with ((k + 1) * pages_of o) by lia. apply mul_aligned.
Qed.

Lemma within_ranges st st' p o : ranges st' = ranges st ->
  block_within_allocated_range st' p o = block_within_allocated_range st p o.
Proof. intros E. unfold block_within_allocated_range, range_for_ppn. by rewrite E. Qed.

Lemma split_loop_spec p t : forall n st fl,
  Inv st fl (blk p (t + n)) -> (t + n < FRAME_BUDDY_ORDERS)%nat -> block_within_allocated_range st p (t + n) = true ->
  exists st' fl', split_loop n p t st = Some st' /\ Inv st' fl' (blk p t) /\ keeps nowhere st st' /\
    block_within_allocated_range st' p t = true /\ count fl' + pages_of t = count fl + pages_of (t + n).
Proof.
  induction n as [|n IH]; intros st fl I Ho Hwi; simpl.
  - rewrite Nat.add_0_r in *. exists st, fl. done.
  - rewrite Nat.add_succ_r in *. pose proof (b_ranges _ _ _ (i_blocks _ _ _ I)) as Hw.
    assert (Ho' : (S (t + n) < 32)%nat) by (unfold FRAME_BUDDY_ORDERS in Ho; lia).
    destruct (within_half st p (t + n) Hw Ho' Hwi) as [Hw1 Hw2].
    destruct (proj1 (within_spec st p (S (t + n)) Hw Ho') Hwi) as (r & Hr & B1 & _ & B2).
    pose proof (range_lookup st r Hw Hr) as (? & ? & _). rewrite pages_of_S in *. pose proof (pages_of_pos (t + n)).
    rewrite wrap_small by (unfold in_u; lia).
    destruct (insert_buddy_block_spec st fl (p + pages_of (t + n)) (t + n) (blk p (t + n)))
      as (st1 & fl1 & E1 & I1 & K1 & C1).
    + eapply Inv_proper; [|exact I]. intros q. unfold blk. rewrite pages_of_S. lia.
    + intros q. unfold blk. lia.
    + lia.
    + done.
    + rewrite E1. cbn [mbind option_bind].
      destruct (IH st1 fl1 I1 ltac:(lia)) as (st' & fl' & E' & I' & K' & W' & C').
      { by rewrite (within_ranges st), Hw1 by apply (k_ranges _ _ _ K1). }
      exists st', fl'. split_and!; [done|done|by apply (keeps_trans _ _ st1)|done|lia].
Qed.

Lemma find_head st fl H t : Inv st fl H -> (t < FRAME_BUDDY_ORDERS)%nat ->
  match List.find (fun o => negb ((buddy_heads st !!! o) =? BUDDY_LIST_END)) (seq t (FRAME_BUDDY_ORDERS - t)) with
  | None => forall o, (t <= o)%nat -> fl o = []
  | Some o => (t <= o < FRAME_BUDDY_ORDERS)%nat /\ (buddy_heads st !!! o) ∈ fl o
  end.
Proof.
  intros [[_ HL] B _] Ht.
  assert (Hh : forall o, (o < FRAME_BUDDY_ORDERS)%nat -> buddy_heads st !!! o = hd BUDDY_LIST_END (fl o)).
  { intros o Ho. apply list_lookup_total_correct. by apply HL. }
  destruct (List.find _ _) as [o|] eqn:E.
  - apply find_some in E as [Hi Hn]. apply in_seq in Hi. split; [lia|]. rewrite Hh in * by lia. to_prop.
    destruct (hd_in (fl o) BUDDY_LIST_END); [done|done].
  - intros o Ho. destruct (Nat.lt_ge_cases o FRAME_BUDDY_ORDERS) as [Ho'|Ho'].
    + pose proof (find_none _ _ E o) as Hn. rewrite in_seq in Hn. specialize (Hn ltac:(lia)). simpl in Hn.
      apply negb_false_iff, Z.eqb_eq in Hn. rewrite Hh in Hn by done.
      destruct (fl o) as [|p l] eqn:Ef; [done|]. exfalso. eapply (free_head_not_end _ _ _ o p B); [|exact Hn]. rewrite Ef. left.
    + destruct (fl o) as [|p l] eqn:Ef; [done|]. exfalso.
      assert (Hp : p ∈ fl o) by (rewrite Ef; left). apply (b_head _ _ _ B) in Hp as [Hp _]. lia.
Qed.

Lemma alloc_buddy_spec st fl t : Inv st fl nowhere -> (t < FRAME_BUDDY_ORDERS)%nat ->
  (alloc_buddy_power_of_two t st = Some (None, st) /\ forall o, (t <= o)%nat -> fl o = []) \/
  exists p st' fl', alloc_buddy_power_of_two t st = Some (Some p, st') /\ Inv st' fl' nowhere /\
    keeps (blk p t) st st' /\ count fl' = count fl - pages_of t /\
    block_within_allocated_range st p t = true /\ (forall q, blk p t q -> in_free fl q) /\
    forall q, blk p t q -> frame_state st' q = Some FRAME_STATE_ALLOCATED.
Proof.
  intros I Ht. unfold alloc_buddy_power_of_two. pose proof (find_head st fl _ t I Ht) as Hf.
  destruct (List.find _ _) as [so|]; [right|by left]. destruct Hf as [Hso Hp].
  set (p := buddy_heads st !!! so) in *. pose proof I as [_ B _]. pose proof (b_ranges _ _ _ B) as Hw.
  pose proof (b_within _ _ _ B so p Hp) as Hwi.
  destruct (buddy_remove_spec st fl _ so p I Hp) as (st1 & l1 & l2 & Efl & E1 & I1 & K1).
  rewrite E1. cbn [mbind option_bind]. set (n := (so - t)%nat). assert (Eo : so = (t + n)%nat) by lia.
  destruct (split_loop_spec p t n st1 (upd fl so (l1 ++ l2))) as (st2 & fl2 & E2 & I2 & K2 & W2 & C2).
  { rewrite <- Eo. eapply Inv_proper; [|exact I1]. intros q. tauto. }
  { lia. }
  { rewrite <- Eo. by rewrite (within_ranges st) by apply (k_ranges _ _ _ K1). }
  rewrite E2. cbn [mbind option_bind]. pose proof (keeps_trans _ _ _ _ K1 K2) as K12.
  pose proof (b_ranges _ _ _ (i_blocks _ _ _ I2)) as Hw2.
  destruct (proj1 (within_spec st2 p t Hw2 Ht) W2) as (r & Hr & P1 & _ & P2).
  pose proof (range_lookup st2 r Hw2 Hr) as (? & ? & _). pose proof (pages_of_pos t).
  destruct (fill_frame_states_spec st2 r p (pages_of t) FRAME_STATE_ALLOCATED Hw2 Hr) as (l & El & Hlen & HS); [lia..|].
  rewrite El. cbn [mbind option_bind].
  exists p, (set_states st2 l), fl2. split; [done|].
  assert (I3 : Inv (set_states st2 l) fl2 nowhere).
  { destruct I2 as [HL2 B2 HC2]. split; [done| |done].
    apply (Blocks_acquire st2 _ fl2 nowhere p (p + pages_of t)); [|auto|done|by apply wf_ranges_states|done].
    eapply Blocks_proper; [|exact B2]. intros q. unfold blk. tauto. }
  split_and!; [done|..].
  - apply (keeps_trans _ _ st2); [by eapply keeps_weaken; [|exact K12]|].
    apply keeps_fill. intros q Hq. rewrite HS, decide_False; [done|exact Hq].
  - rewrite <- Eo, (count_remove fl so l1 p l2) in C2 by (done || lia). lia.
  - by rewrite <- (within_ranges st st2) by apply (k_ranges _ _ _ K12).
  - intros q Hq. exists so, p. split; [done|]. unfold blk in *. pose proof (pages_of_mono t so ltac:(lia)). lia.
  - intros q Hq. rewrite HS, decide_True; [done|exact Hq].
Qed.

(** ** The abstract view

    A frame is [managed] if it belongs to a region, [used] if it has been
    handed out (to a tracker or to a cache) and not been returned. *)

Definition managed (st : BuddyFrameAllocator) (q : Z) : Prop := exists r, r ∈ ranges st /\ in_range r q.

Definition used (st : BuddyFrameAllocator) (q : Z) : Prop :=
  exists r v, r ∈ ranges st /\ fr_start r <= q < fr_current r /\ owned_state v /\ frame_state st q = Some v.

Definition total_sum (rs : list FrameRange) : Z := foldr (fun r sum => fr_end r - fr_start r + sum) 0 rs.

(** What never changes of a region. *)
Definition region (r : FrameRange) : Z * Z * Z := (fr_start r, fr_end r, fr_metadata_start r).

(** Frames of [add] are handed out, frames of [del] are returned, and every
    other used frame keeps its state and its memory. *)
Record moves (st st' : BuddyFrameAllocator) (add del : Z -> Prop) : Prop := {
  mv_regions : map region (ranges st') = map region (ranges st);
  mv_managed : forall q, managed st' q <-> managed st q;
  mv_used : forall q, used st' q <-> (used st q /\ ~ del q) \/ add q;
  mv_new : forall q, add q -> managed st q /\ ~ used st q /\ frame_state st' q = Some FRAME_STATE_ALLOCATED;
  mv_frame : forall q, used st q -> ~ del q -> frame_state st' q = frame_state st q /\ links st' !!! q = links st !!! q }.

Definition fresh_sum (rs : list FrameRange) : Z := foldr (fun r sum => fr_end r - fr_current r + sum) 0 rs.
Definition free_total (st : BuddyFrameAllocator) (fl : nat -> list Z) : Z := fresh_sum (ranges st) + count fl.

Lemma free_pages_eq st fl H : Inv st fl H -> free_pages st = usize (free_total st fl).
Proof.
  intros [_ _ HC]. unfold free_pages, recycled_pages, free_total. rewrite HC, wrap_add_r.
  assert (E : forall rs, foldr (fun r sum => usize (fr_end r - fr_current r + sum)) 0 rs = usize (fresh_sum rs)).
  { induction rs as [|r rs IH]; simpl; [done|]. by rewrite IH, wrap_add_r. }
  unfold fresh_free_pages. by rewrite E, wrap_add_l.
Qed.

(** Changing bump pointers only. *)
Definition same_region (r r' : FrameRange) : Prop :=
  fr_start r' = fr_start r /\ fr_end r' = fr_end r /\ fr_metadata_start r' = fr_metadata_start r.

Lemma frame_state_regions st rs q : Forall2 same_region (ranges st) rs ->
  frame_state (set_ranges st rs) q = frame_state st q.
Proof.
  intros HF. unfold frame_state. f_equal. unfold frame_state_index, range_for_ppn. simpl.
  induction HF as [|r r' l l' (E1 & E2 & E3) HF IH]; simpl; [done|]. rewrite E1, E2.
  destruct (_ && _); [|done]. simpl. by rewrite E1, E3.
Qed.

Section Bump.
Context (st : BuddyFrameAllocator) (fl : nat -> list Z) (i : nat) (r : FrameRange) (c : Z).
Context (I : Inv st fl nowhere) (Hi : ranges st !! i = Some r) (Hc : fr_current r <= c <= fr_end r).
Let st' := set_ranges st (<[i := set_current r c]> (ranges st)).

Lemma bump_lookup j r' : ranges st' !! j = Some r' ->
  exists r0, ranges st !! j = Some r0 /\ same_region r0 r' /\
    ((j = i /\ r0 = r /\ r' = set_current r c) \/ (j <> i /\ r' = r0)).
Proof.
  unfold st'. simpl. destruct (decide (j = i)) as [->|Hne].
  - rewrite list_lookup_insert_eq by (by eapply lookup_lt_Some). intros [= <-]. exists r. split; [done|].
    split; [done|]. by left.
  - rewrite list_lookup_insert_ne by done. intros E. exists r'. split; [done|]. split; [done|]. by right.
Qed.

Lemma bump_in r0 : r0 ∈ ranges st -> exists r', r' ∈ ranges st' /\ same_region r0 r' /\
  fr_current r0 <= fr_current r' /\ (r0 = r -> r' = set_current r c).
Proof.
  intros [j Hj]%list_elem_of_lookup. destruct (decide (j = i)) as [->|Hne].
  - assert (r0 = r) as -> by congruence. exists (set_current r c). split; [|split_and!; try done; simpl; lia].
    apply list_elem_of_lookup. exists i. apply list_lookup_insert_eq. by eapply lookup_lt_Some.
  - exists r0. split; [apply list_elem_of_lookup; exists j; unfold st'; simpl; by rewrite list_lookup_insert_ne|].
    split_and!; try done. intros ->. exfalso.
    pose proof (wr_pair _ (b_ranges _ _ _ (i_blocks _ _ _ I)) j i r r Hj Hi Hne) as [Hap _].
    pose proof (wr_each _ (b_ranges _ _ _ (i_blocks _ _ _ I)) i r Hi) as (? & ? & _). lia.
Qed.

Lemma bump_states q : frame_state st' q = frame_state st q.
Proof.
  apply frame_state_regions. apply Forall2_same_length_lookup. split; [by rewrite length_insert|].
  intros j r0 r' H0 H'. destruct (bump_lookup j r' H') as (r1 & E1 & Hs & _). rewrite H0 in E1. by injection E1 as <-.
Qed.

Lemma bump_wf : wf_ranges st'.
Proof.
  destruct (b_ranges _ _ _ (i_blocks _ _ _ I)) as [He Hp Hs]. split; [| |done].
  - intros j r' (r0 & E & (S1 & S2 & S3) & Hcase)%bump_lookup. pose proof (He _ _ E) as (? & ? & ? & ?).
    unfold wf_range. destruct Hcase as [(-> & -> & ->)|(_ & ->)]; simpl; repeat split; lia.
  - intros j k r1 r2 (r1' & E1 & (A1 & A2 & A3) & _)%bump_lookup (r2' & E2 & (B1 & B2 & B3) & _)%bump_lookup Hne.
    pose proof (Hp _ _ _ _ E1 E2 Hne) as Hap. unfold apart in *. rewrite A1, A2, A3, B1, B2, B3. done.
Qed.

Lemma bump_managed q : managed st' q <-> managed st q.
Proof.
  unfold managed, in_range. split.
  - intros (r' & [j (r0 & E & (S1 & S2 & _) & _)%bump_lookup]%list_elem_of_lookup & Hq).
    exists r0. split; [by eapply list_elem_of_lookup_2|]. lia.
  - intros (r0 & Hr0 & Hq). destruct (bump_in r0 Hr0) as (r' & Hr' & (S1 & S2 & _) & _). exists r'. split; [done|lia].
Qed.

Lemma bump_inv : Inv st' fl nowhere.
Proof.
  destruct I as [HL B HC]. split; [done| |done]. split.
  - apply bump_wf.
  - intros. rewrite bump_states. apply (b_head _ _ _ B).
  - apply (b_nodup _ _ _ B).
  - intros o p Hp. pose proof (proj1 (b_head _ _ _ B o p) Hp) as [Ho _].
    apply (b_within _ _ _ B), within_spec in Hp as (r0 & Hr0 & H1 & H2 & H3); [|apply (b_ranges _ _ _ B)|done].
    destruct (bump_in r0 Hr0) as (r' & Hr' & (S1 & _) & Hcur & _).
    apply within_spec; [apply bump_wf|done|]. exists r'. split_and!; [done|lia|done|lia].
  - intros o p q. rewrite bump_states. apply (b_interior _ _ _ B).
  - intros q. rewrite bump_states. apply (b_free _ _ _ B).
  - intros q. rewrite bump_states. apply (b_hole _ _ _ B).
  - intros r' q [j (r0 & E & (S1 & S2 & _) & Hcase)%bump_lookup]%list_elem_of_lookup Hq. rewrite bump_states.
    apply (b_fresh _ _ _ B r0); [by eapply list_elem_of_lookup_2|].
    destruct Hcase as [(_ & -> & ->)|(_ & ->)]; simpl in *; lia.
  - intros q v. rewrite bump_states. apply (b_values _ _ _ B).
  - apply (b_coalesced _ _ _ B).
Qed.

Lemma bump_used q : used st' q <-> used st q \/ fr_current r <= q < c.
Proof.
  assert (Hr : r ∈ ranges st) by (by eapply list_elem_of_lookup_2).
  pose proof (wr_each _ (b_ranges _ _ _ (i_blocks _ _ _ I)) i r Hi) as (? & ? & _).
  unfold used. split.
  - intros (r' & v & [j (r0 & E & (S1 & S2 & _) & Hcase)%bump_lookup]%list_elem_of_lookup & Hq & Hv & Es).
    rewrite bump_states in Es. assert (r0 ∈ ranges st) by (by eapply list_elem_of_lookup_2).
    destruct Hcase as [(_ & -> & ->)|(_ & ->)]; simpl in Hq.
    + destruct (Z.lt_ge_cases q (fr_current r)); [left; exists r, v; split_and!; auto; lia|right; lia].
    + left. exists r0, v. done.
  - intros [(r0 & v & Hr0 & Hq & Hv & Es)|Hq].
    + destruct (bump_in r0 Hr0) as (r' & Hr' & (S1 & _) & Hcur & _). exists r', v. rewrite bump_states.
      split_and!; auto; lia.
    + destruct (bump_in r Hr) as (r' & Hr' & _ & _ & Er). rewrite (Er eq_refl) in Hr'.
      exists (set_current r c), FRAME_STATE_ALLOCATED. rewrite bump_states. split_and!; [done|simpl; lia|simpl; lia|by left|].
      apply (b_fresh _ _ _ (i_blocks _ _ _ I) r); [done|lia].
Qed.

Lemma bump_fresh_sum : fresh_sum (ranges st') = fresh_sum (ranges st) - (c - fr_current r).
Proof.
  unfold st'. simpl. clear I st'. revert i Hi. induction (ranges st) as [|x rs IH]; intros i Hi; [done|].
  destruct i as [|i]; simpl in *.
  - injection Hi as ->. simpl. lia.
  - rewrite IH by done. lia.
Qed.

Lemma bump_regions : map region (ranges st') = map region (ranges st).
Proof.
  unfold st'. simpl. clear I st'. revert i Hi. induction (ranges st) as [|x rs IH]; intros i Hi; [done|].
  destruct i as [|i]; simpl in *; [by injection Hi as ->|]. by rewrite IH.
Qed.

Lemma bump_moves : moves st st' (fun q => fr_current r <= q < c) nowhere.
Proof.
  assert (Hr : r ∈ ranges st) by (by eapply list_elem_of_lookup_2).
  pose proof (i_blocks _ _ _ I) as B. pose proof (wr_each _ (b_ranges _ _ _ B) i r Hi) as (? & ? & _).
  split; [apply bump_regions|apply bump_managed|intros q; rewrite bump_used; tauto| |intros q _ _; by rewrite bump_states].
  intros q Hq. split; [exists r; split; [done|unfold in_range; lia]|]. split.
  - intros (r0 & v & Hr0 & Hq0 & _). apply (fresh_not_started st r r0 q (b_ranges _ _ _ B)); try done. lia.
  - rewrite bump_states. apply (b_fresh _ _ _ B r); [done|lia].
Qed.

End Bump.

Lemma total_sum_regions rs rs' : map region rs = map region rs' -> total_sum rs = total_sum rs'.
Proof.
  revert rs'. induction rs as [|r rs IH]; intros [|r' rs']; try done. simpl. intros [= E1 E2 E3 E].
  rewrite (IH rs' E). lia.
Qed.

Lemma mv_total st st' add del : moves st st' add del -> total_sum (ranges st') = total_sum (ranges st).
Proof. intros M. apply total_sum_regions, (mv_regions _ _ _ _ M). Qed.

Lemma moves_refl st : moves st st nowhere nowhere.
Proof. split; try tauto. Qed.

(** Handing out more than needed and returning the rest at once. *)
Lemma moves_return st st1 st2 A D A' :
  moves st st1 A nowhere -> moves st1 st2 nowhere D -> (forall q, D q -> A q) ->
  (forall q, A' q <-> A q /\ ~ D q) -> moves st st2 A' nowhere.
Proof.
  intros [T1 M1 U1 N1 F1] [T2 M2 U2 _ F2] HD HA. split.
  - by rewrite T2.
  - intros q. by rewrite M2.
  - intros q. rewrite U2, U1, HA. split; [tauto|]. intros [[Hu _]|?]; [|tauto]. left. split; [tauto|].
    intros Hd. apply HD in Hd. by destruct (N1 q Hd) as (_ & ? & _).
  - intros q [Hq Hn]%HA. destruct (N1 q Hq) as (? & ? & E). split; [done|]. split; [done|]. rewrite <- E.
    apply F2; [|done]. apply U1. auto.
  - intros q Hu _. destruct (F1 q Hu ltac:(auto)) as [E1 E2].
    destruct (F2 q) as [E3 E4]; [apply U1; tauto| |by rewrite E3, E4].
    intros Hd. apply HD in Hd. by destruct (N1 q Hd) as (_ & ? & _).
Qed.

Lemma keeps_managed X st st' q : keeps X st st' -> managed st' q <-> managed st q.
Proof. intros K. unfold managed. by rewrite (k_ranges _ _ _ K). Qed.

Lemma keeps_used X st st' q : keeps X st st' -> ~ X q -> used st' q <-> used st q.
Proof.
  intros K Hx. unfold used. rewrite (k_ranges _ _ _ K).
  split; intros (r & v & ? & ? & Hv & E); exists r, v; split_and!; try done; try tauto; by apply (k_states _ _ _ K).
Qed.

Lemma keeps_frame X st st' q : keeps X st st' -> ~ X q -> used st q ->
  frame_state st' q = frame_state st q /\ links st' !!! q = links st !!! q.
Proof.
  intros K Hx (r & v & _ & _ & Hv & E). split; [rewrite E; by apply (k_states _ _ _ K)|by apply (k_links _ _ _ K q v)].
Qed.

Lemma keeps_returned (X : Z -> Prop) st st' : keeps X st st' -> (forall q, X q \/ ~ X q) ->
  (forall q v, X q -> owned_state v -> frame_state st' q <> Some v) -> moves st st' nowhere X.
Proof.
  intros K Hdec HX. split; [by rewrite (k_ranges _ _ _ K)|intros; by eapply keeps_managed| |done|].
  - intros q. destruct (Hdec q) as [Hq|Hq]; [|rewrite (keeps_used X st st' q) by done; tauto].
    split; [|tauto]. intros (r & v & _ & _ & Hv & E). by destruct (HX q v Hq Hv).
  - intros q Hu Hx. by apply (keeps_frame X).
Qed.

Lemma free_not_used st fl H q : Blocks st fl H -> in_free fl q -> ~ used st q.
Proof.
  intros B (o & p & Hp & Hq) (r & v & _ & _ & Hv & E). destruct (decide (q = p)) as [->|Hne].
  - apply (b_head _ _ _ B) in Hp as [Ho Hp]. rewrite E in Hp. injection Hp as Hp. by apply (owned_not_free v o).
  - rewrite (b_interior _ _ _ B o p q Hp) in E by (unfold blk in Hq; lia). injection E as E. by apply (owned_not_interior v).
Qed.

Lemma within_frames st p o q : wf_ranges st -> (o < 32)%nat -> block_within_allocated_range st p o = true -> blk p o q ->
  exists r, r ∈ ranges st /\ fr_start r <= q < fr_current r /\ in_range r q.
Proof.
  intros Hw Ho (r & Hr & H1 & _ & H2)%within_spec Hq; [|done..]. exists r.
  pose proof (range_lookup st r Hw Hr) as (_ & ? & _). unfold in_range, blk in *. split_and!; try done; lia.
Qed.

Lemma keeps_taken st st' fl p t : Blocks st fl nowhere -> keeps (blk p t) st st' -> (t < 32)%nat ->
  block_within_allocated_range st p t = true -> (forall q, blk p t q -> in_free fl q) ->
  (forall q, blk p t q -> frame_state st' q = Some FRAME_STATE_ALLOCATED) ->
  moves st st' (blk p t) nowhere.
Proof.
  intros B K Ht Hwi Hf HS. split; [by rewrite (k_ranges _ _ _ K)|intros; by eapply keeps_managed|..].
  - intros q. destruct (decide (p <= q < p + pages_of t)) as [Hq|Hq].
    + split; [by right|intros _]. destruct (within_frames st p t q (b_ranges _ _ _ B) Ht Hwi Hq) as (r & Hr & Hq' & _).
      exists r, FRAME_STATE_ALLOCATED. rewrite (k_ranges _ _ _ K). split_and!; [done|lia|lia|by left|by apply HS].
    + change (~ blk p t q) in Hq. rewrite (keeps_used _ st st' q K) by exact Hq. tauto.
  - intros q Hq. destruct (within_frames st p t q (b_ranges _ _ _ B) Ht Hwi Hq) as (r & Hr & _ & Hin).
    split; [by exists r|]. split; [by apply (free_not_used st fl nowhere), Hf|by apply HS].
  - intros q Hu _. apply (keeps_frame (blk p t)); [done| |done]. intros Hq.
    by apply (free_not_used st fl nowhere q B (Hf q Hq)).
Qed.

(** The memory of a used frame is not part of the invariant. *)
Lemma Inv_write st fl p words : Inv st fl nowhere -> used st p ->
  Inv (set_links st (<[p := words]> (links st))) fl nowhere.
Proof.
  intros [[HLl HL] B HC] Hu. split; [|by apply (Blocks_same st)|done]. split; [done|]. intros o Ho.
  destruct (HL o Ho) as [H1 H2]. split; [done|]. eapply dseg_frame; [|exact H2]. intros q Hq.
  apply lookup_total_insert_ne. intros ->. apply (free_not_used st fl nowhere q B); [|done].
  exists o, q. split; [done|apply blk_head].
Qed.

(** In a quiescent state a frame is free, fresh or used. *)
Lemma frame_cases st fl q : Blocks st fl nowhere -> managed st q ->
  in_free fl q \/ (exists r, r ∈ ranges st /\ fr_current r <= q < fr_end r) \/ used st q.
Proof.
  intros B (r & Hr & Hq). destruct (frame_state_some st r q (b_ranges _ _ _ B) Hr Hq) as [v E].
  unfold in_range in Hq. destruct (b_values _ _ _ B q v E) as [Hv|[->|Hv]].
  - left. exists (Z.to_nat v), q. split; [|apply blk_head]. apply (b_head _ _ _ B). rewrite Z2Nat.id by lia.
    split; [unfold FRAME_BUDDY_ORDERS; lia|done].
  - left. by destruct (b_free _ _ _ B q E).
  - right. destruct (Z.lt_ge_cases q (fr_current r)); [right|left; exists r; split; [done|lia]].
    exists r, v. split_and!; auto; lia.
Qed.

(** ** The operations in the abstract view *)

Definition count_moved (st st' : BuddyFrameAllocator) fl fl' (d : Z) : Prop :=
  free_total st' fl' = free_total st fl + d.

Lemma alloc_spec st fl : Inv st fl nowhere ->
  (alloc st = Some (None, st) /\ forall q, managed st q -> used st q) \/
  exists p st' fl', alloc st = Some (Some p, st') /\ Inv st' fl' nowhere /\
    moves st st' (fun q => q = p) nowhere /\ count_moved st st' fl fl' (-1).
Proof.
  intros I. pose proof (i_blocks _ _ _ I) as B. unfold alloc.
  destruct (alloc_buddy_spec st fl 0 I ltac:(unfold FRAME_BUDDY_ORDERS; lia)) as [[E Hnone]|Hs].
  - rewrite E. cbn [mbind option_bind]. unfold fresh_index.
    pose proof (position_spec (fun range => fr_current range <? fr_end range) (ranges st)) as Hp.
    destruct (position _ _) as [i|].
    + destruct Hp as (l1 & r & l2 & Er & <- & Hlt & _). to_prop. right.
      assert (Hi : ranges st !! length l1 = Some r) by (rewrite Er; by apply list_lookup_middle).
      pose proof (wr_each _ (b_ranges _ _ _ B) _ r Hi) as (? & ? & _). rewrite Hi. cbn [mbind option_bind].
      rewrite !wrap_small by (unfold in_u; rewrite ?wrap_small by (unfold in_u; lia); lia).
      exists (fr_current r + 1 - 1), (set_ranges st (<[length l1 := set_current r (fr_current r + 1)]> (ranges st))), fl.
      split; [done|]. split; [apply bump_inv; try done; lia|]. split.
      * destruct (bump_moves st fl (length l1) r (fr_current r + 1) I Hi ltac:(lia)) as [T M U N F].
        split; [done|done|intros q; rewrite U; split; intros [?|?]; [by left|right; lia|by left|right; lia]| |done].
        intros q ->. apply N. lia.
      * unfold count_moved, free_total. rewrite (bump_fresh_sum st (length l1) r (fr_current r + 1) Hi). lia.
    + left. split; [done|]. intros q Hq. destruct (frame_cases st fl q B Hq) as [(o & p & Hpo & _)|[(r & Hr & Hq')|?]]; [..|done].
      * rewrite Hnone in Hpo by lia. by apply elem_of_nil in Hpo.
      * rewrite Forall_forall in Hp. specialize (Hp r Hr). simpl in Hp. to_prop. lia.
  - destruct Hs as (p & st' & fl' & E & I' & K & C & W & Hf & HS). right. rewrite E. cbn [mbind option_bind].
    exists p, st', fl'. split; [done|]. split; [done|].
    assert (Hb : forall q, blk p 0 q <-> q = p) by (intros q; unfold blk; change (pages_of 0) with 1; lia).
    split.
    + destruct (keeps_taken st st' fl p 0 B K ltac:(lia) W Hf HS) as [T M U N F].
      split; [done|done|intros q; rewrite U, Hb; done| |done]. intros q ->. apply N, Hb. done.
    + unfold count_moved, free_total. rewrite C, (k_ranges _ _ _ K). change (pages_of 0) with 1. lia.
Qed.

Lemma dealloc_spec st fl p r : Inv st fl nowhere -> r ∈ ranges st -> fr_start r <= p < fr_current r ->
  frame_state st p = Some FRAME_STATE_ALLOCATED \/ frame_state st p = Some FRAME_STATE_CPU_CACHED ->
  exists st' fl', dealloc p st = Some st' /\ Inv st' fl' nowhere /\
    moves st st' nowhere (fun q => q = p) /\ count_moved st st' fl fl' 1.
Proof.
  intros I Hr Hp Hs. pose proof I as [HL B HC]. pose proof (b_ranges _ _ _ B) as Hw.
  pose proof (range_lookup st r Hw Hr) as (? & ? & _).
  assert (Hin : in_range r p) by (unfold in_range; lia).
  unfold dealloc, dealloc_buddy.
  assert (Hex : forall f, f r = true -> existsb f (ranges st) = true).
  { intros f Hf. apply existsb_exists. exists r. split; [by apply list_elem_of_In|done]. }
  unfold contains_ppn, allocated_ppn. rewrite !Hex; [|rewrite !andb_true_iff, Z.leb_le, Z.ltb_lt; lia..].
  assert (Eb : bool_decide (frame_state st p = Some FRAME_STATE_ALLOCATED)
    || bool_decide (frame_state st p = Some FRAME_STATE_CPU_CACHED) = true)
    by (destruct Hs as [->| ->]; reflexivity).
  rewrite Eb. cbn [assert mbind option_bind negb orb].
  destruct (set_frame_state_spec st r p FRAME_STATE_FREE_INTERIOR Hw Hr Hin) as (l & El & Hlen & HS). rewrite El.
  cbn [mbind option_bind].
  assert (Hd : forall q, p <= q < p + 1 <-> q = p) by (intros; lia).
  assert (I1 : Inv (set_states st l) fl (fun q => blk p 0 q \/ False)).
  { split; [done| |done]. apply (Blocks_release st); [done| |done|by apply wf_ranges_states|].
    - intros q ->%Hd. destruct Hs as [E|E]; eexists r, _; (split_and!; [done|lia|lia| |exact E]); [by left|by right; left].
    - intros q. rewrite HS. change (pages_of 0) with 1.
      destruct (decide (q = p)), (decide (p <= q < p + 1)); try done; lia. }
  destruct (insert_buddy_block_spec (set_states st l) fl p 0 nowhere I1) as (st' & fl' & E' & I' & K' & C');
    [auto|unfold FRAME_BUDDY_ORDERS; lia| |].
  { apply within_spec; [by apply wf_ranges_states|lia|]. exists r. change (pages_of 0) with 1.
    split_and!; [done|lia|apply Z.mod_1_r|lia]. }
  exists st', fl'. split; [done|]. split; [done|].
  assert (K : keeps (fun q => q = p) st st').
  { apply (keeps_trans _ _ (set_states st l)); [|by eapply keeps_weaken; [|exact K']].
    apply keeps_fill. intros q Hq. by rewrite HS, decide_False. }
  split.
  - apply keeps_returned; [done|intros q; destruct (decide (q = p)); auto|]. intros q v -> Hv Ev.
    apply (k_states _ _ _ K') in Ev; [|auto|done]. rewrite HS, decide_True in Ev by done.
    injection Ev as Ev. by apply (owned_not_interior v).
  - unfold count_moved, free_total. rewrite C', (k_ranges _ _ _ K). change (pages_of 0) with 1. lia.
Qed.

(** ** Contiguous allocation *)

Lemma power_of_two_order a : is_power_of_two a = true -> exists k, a = pages_of k.
Proof.
  unfold is_power_of_two. intros H. to_prop. exists (Z.to_nat (Z.log2 a)).
  rewrite pages_of_eq, Z2Nat.id by apply Z.log2_nonneg. done.
Qed.

Lemma trailing_zeros_pages k : trailing_zeros (pages_of k) = k.
Proof.
  induction k as [|k IH]; [done|]. rewrite pages_of_S. pose proof (pages_of_pos k).
  destruct (pages_of k) as [|p|p]; [lia| |lia].
  change (trailing_zeros (2 * Z.pos p)) with (S (trailing_zeros (Z.pos p))). by rewrite IH.
Qed.

Lemma align_up_spec p k b : 0 <= p -> align_up_ppn p (pages_of k) = Some b ->
  p <= b < p + pages_of k /\ aligned b k.
Proof.
  intros Hp. unfold align_up_ppn, checked_add. case_if; [|done]. intros [= <-].
  rewrite pages_of_eq, Z.sub_1_r, <- Z.ones_equiv, <- Z.ldiff_land, Z.ldiff_ones_r by lia.
  rewrite Z.shiftl_mul_pow2, Z.shiftr_div_pow2, <- pages_of_eq by lia. split; [|apply mul_aligned].
  rewrite Z.ones_equiv, <- pages_of_eq. pose proof (pages_of_pos k). zlia.
Qed.

Lemma next_power_spec z p : 1 <= z -> checked_next_power_of_two z = Some p ->
  exists k, p = pages_of k /\ z <= p /\ forall j, z <= pages_of j -> p <= pages_of j.
Proof.
  intros Hz. unfold checked_next_power_of_two. case_if; [|done]. intros [= <-].
  exists (Z.to_nat (Z.log2_up z)). rewrite pages_of_eq, Z2Nat.id by apply Z.log2_up_nonneg.
  split; [done|]. split; [destruct (Z.eq_dec z 1) as [->|]; [done|]; apply Z.log2_up_spec; lia|].
  intros j Hj. rewrite pages_of_eq in *. apply Z.pow_le_mono_r; [lia|]. apply Z.log2_up_le_pow2; lia.
Qed.

(** What a region can serve: an aligned extent above its bump pointer. *)
Definition room (r : FrameRange) (pages : Z) (k : nat) : Prop :=
  exists base, fr_current r <= base /\ aligned base k /\ base + pages <= fr_end r.

Lemma fresh_scan_spec n pages k : forall rs i0, Forall (wf_range n) rs -> 1 <= pages ->
  match fresh_scan rs i0 pages (pages_of k) with
  | Some (i, r, base, e) => exists j, i = (i0 + j)%nat /\ rs !! j = Some r /\ fr_current r <= base /\ aligned base k /\
      e = base + pages /\ e <= fr_end r
  | None => (k < 63)%nat -> Forall (fun r => ~ room r pages k) rs
  end.
Proof.
  induction rs as [|r rs IH]; intros i0 Hwf Hp; simpl; [intros; constructor|].
  apply Forall_cons in Hwf as [(? & ? & _) Hwf].
  destruct (align_up_ppn (fr_current r) (pages_of k)) as [base|] eqn:Ea; cbn [mbind option_bind].
  2: { intros Hk. exfalso. unfold align_up_ppn, checked_add in Ea. case_if_in Ea; [done|].
       assert (pages_of k <= 2 ^ 62) by (rewrite pages_of_eq; apply Z.pow_le_mono_r; lia). lia. }
  apply align_up_spec in Ea as [Hb Hal]; [|lia].
  assert (Hno : fr_end r < base + pages -> ~ room r pages k).
  { intros Hlt (base' & B1 & B2 & B3). assert (base <= base'); [|lia].
    apply aligned_mul in Hal as [x ->], B2 as [y ->]. pose proof (pages_of_pos k).
    assert (x < y + 1) by (apply (Z.mul_lt_mono_pos_r (pages_of k)); lia). nia. }
  unfold checked_add. destruct (Z.ltb_spec (base + pages) (2 ^ 64)) as [Hov|Hov]; cbn [mbind option_bind].
  2: { intros Hk. apply Forall_cons. split; [apply Hno; lia|]. eapply Forall_impl; [exact Hwf|].
       intros r' (? & ? & _) (b & B1 & B2 & B3).
       assert (pages_of k <= 2 ^ 62) by (rewrite pages_of_eq; apply Z.pow_le_mono_r; lia). lia. }
  destruct (Z.ltb_spec (fr_end r) (base + pages)) as [Hlt|Hge].
  - specialize (IH (S i0) Hwf Hp). destruct (fresh_scan rs (S i0) pages (pages_of k)) as [[[[i r'] b] e]|].
    + destruct IH as (j & -> & ? & ?). exists (S j). split; [lia|done].
    + intros Hk. constructor; auto.
  - exists 0%nat. split_and!; try done; lia.
Qed.

Lemma alloc_fresh_spec st fl pages k : Inv st fl nowhere -> 1 <= pages ->
  (alloc_fresh_contiguous pages (pages_of k) st = Some (None, st) /\
   ((k < 63)%nat -> Forall (fun r => ~ room r pages k) (ranges st))) \/
  exists s st' fl', alloc_fresh_contiguous pages (pages_of k) st = Some (Some (mkExtent s pages), st') /\
    Inv st' fl' nowhere /\ aligned s k /\ moves st st' (fun q => s <= q < s + pages) nowhere /\
    count_moved st st' fl fl' (- pages).
Proof.
  intros I Hp. pose proof (b_ranges _ _ _ (i_blocks _ _ _ I)) as Hw. unfold alloc_fresh_contiguous.
  assert (HF : Forall (wf_range (length (frame_states st))) (ranges st))
    by (apply Forall_forall; intros r Hr; by apply range_lookup).
  pose proof (fresh_scan_spec _ pages k (ranges st) 0 HF Hp) as Hs.
  destruct (fresh_scan _ _ _ _) as [[[[i r] base] e]|]; [right|by left].
  destruct Hs as (j & -> & Hj & B1 & B2 & -> & B3). cbn [Nat.add].
  pose proof (wr_each _ Hw j r Hj) as (? & ? & _).
  set (st1 := set_ranges st (<[j := set_current r (base + pages)]> (ranges st))).
  pose proof (bump_inv st fl j r (base + pages) I Hj ltac:(lia)) as I1. fold st1 in I1.
  pose proof (bump_moves st fl j r (base + pages) I Hj ltac:(lia)) as M1. fold st1 in M1.
  assert (Hr1 : set_current r (base + pages) ∈ ranges st1).
  { apply list_elem_of_lookup. exists j. apply list_lookup_insert_eq. by eapply lookup_lt_Some. }
  destruct (insert_recycled_range_spec st1 fl (set_current r (base + pages)) (fr_current r) base I1 Hr1)
    as (st2 & fl2 & E2 & I2 & K2 & C2 & N2); [simpl; lia|simpl; lia| |].
  { intros q Hq. exists FRAME_STATE_ALLOCATED. split; [by left|].
    apply (mv_new _ _ _ _ M1). lia. }
  rewrite E2. cbn [mbind option_bind]. exists base, st2, fl2. split_and!; try done.
  - apply (moves_return st st1 st2 (fun q => fr_current r <= q < base + pages) (fun q => fr_current r <= q < base)).
    + exact M1.
    + apply keeps_returned; [done| |done]. intros q. destruct (decide (fr_current r <= q < base)); auto.
    + intros q Hq. lia.
    + intros q. lia.
  - unfold count_moved, free_total. rewrite (k_ranges _ _ _ K2), C2.
    unfold st1. rewrite (bump_fresh_sum st j r (base + pages) Hj). lia.
Qed.

Lemma alloc_recycled_spec st fl pages k : Inv st fl nowhere -> 1 <= pages ->
  (alloc_recycled_contiguous pages (pages_of k) st = Some (None, st) /\
   forall o t, pages <= pages_of t -> (k <= t)%nat -> (t <= o < FRAME_BUDDY_ORDERS)%nat -> fl o = []) \/
  exists s st' fl', alloc_recycled_contiguous pages (pages_of k) st = Some (Some (mkExtent s pages), st') /\
    Inv st' fl' nowhere /\ aligned s k /\ moves st st' (fun q => s <= q < s + pages) nowhere /\
    count_moved st st' fl fl' (- pages).
Proof.
  intros I Hp. pose proof (i_blocks _ _ _ I) as B. pose proof (b_ranges _ _ _ B) as Hw.
  unfold alloc_recycled_contiguous. destruct (checked_next_power_of_two pages) as [np|] eqn:En.
  2: { left. split; [done|]. intros o t Ht _ Ho. exfalso. unfold checked_next_power_of_two in En.
       case_if_in En; [done|]. assert (pages <= 2 ^ 31) by (pose proof (pages_of_bound t ltac:(unfold FRAME_BUDDY_ORDERS in *; lia)); lia).
       assert (Z.log2_up pages <= 31) by (apply Z.log2_up_le_pow2; lia).
       assert (2 ^ Z.log2_up pages <= 2 ^ 31) by (apply Z.pow_le_mono_r; lia). lia. }
  apply next_power_spec in En as (k1 & -> & Hle & Hleast); [|done].
  assert (Em : Z.max (pages_of k1) (pages_of k) = pages_of (Nat.max k1 k)).
  { destruct (Nat.le_ge_cases k1 k) as [H|H]; pose proof (pages_of_mono _ _ H); [rewrite Nat.max_r|rewrite Nat.max_l]; lia. }
  rewrite Em, trailing_zeros_pages. set (t := Nat.max k1 k). destruct (Nat.leb_spec FRAME_BUDDY_ORDERS t) as [Hbig|Ht].
  { left. split; [done|]. intros o t' Ht' Hk Ho. exfalso. apply Hleast in Ht'.
    assert (k1 <= t')%nat; [|lia]. destruct (Nat.le_gt_cases k1 t'); [done|]. exfalso.
    pose proof (pages_of_mono (S t') k1 ltac:(lia)). rewrite pages_of_S in *. pose proof (pages_of_pos t'). lia. }
  assert (Hpt : pages <= pages_of t) by (pose proof (pages_of_mono k1 t ltac:(lia)); lia).
  destruct (alloc_buddy_spec st fl t I Ht) as [[E Hnone]|Hs].
  - rewrite E. cbn [mbind option_bind]. left. split; [done|]. intros o t' Ht' Hk Ho. apply Hnone.
    apply Hleast in Ht'. assert (k1 <= t')%nat; [|lia]. destruct (Nat.le_gt_cases k1 t'); [done|]. exfalso.
    pose proof (pages_of_mono (S t') k1 ltac:(lia)). rewrite pages_of_S in *. pose proof (pages_of_pos t'). lia.
  - right. destruct Hs as (s & st1 & fl1 & E & I1 & K1 & C1 & W & Hf & HS). rewrite E. cbn [mbind option_bind].
    destruct (proj1 (within_spec st s t Hw Ht) W) as (r & Hr & P1 & Hal & P2).
    pose proof (range_lookup st r Hw Hr) as (? & ? & _).
    rewrite !wrap_small by (unfold in_u; lia).
    destruct (insert_recycled_range_spec st1 fl1 r (s + pages) (s + pages_of t) I1)
      as (st2 & fl2 & E2 & I2 & K2 & C2 & N2); [by rewrite (k_ranges _ _ _ K1)|lia|lia| |].
    { intros q Hq. exists FRAME_STATE_ALLOCATED. split; [by left|]. apply HS. unfold blk. lia. }
    rewrite E2. cbn [mbind option_bind]. exists s, st2, fl2. split_and!; try done.
    + apply (aligned_weaken _ t); [lia|done].
    + apply (moves_return st st1 st2 (blk s t) (fun q => s + pages <= q < s + pages_of t)).
      * by apply (keeps_taken st st1 fl).
      * apply keeps_returned; [done| |done]. intros q. destruct (decide (s + pages <= q < s + pages_of t)); auto.
      * intros q Hq. unfold blk. lia.
      * intros q. unfold blk. lia.
    + unfold count_moved, free_total. rewrite (k_ranges _ _ _ K2), (k_ranges _ _ _ K1), C2, C1. lia.
Qed.

(** ** Coalescing is complete *)

Lemma free_block_covers st fl H : Blocks st fl H -> forall t p, (t < FRAME_BUDDY_ORDERS)%nat -> aligned p t -> 0 <= p ->
  (forall q, blk p t q -> in_free fl q) ->
  exists o p', (t <= o < FRAME_BUDDY_ORDERS)%nat /\ p' ∈ fl o /\ forall q, blk p t q -> blk p' o q.
Proof.
  intros B. induction t as [|t IH]; intros p Ht Hal Hp Hfree.
  - destruct (Hfree p (blk_head _ _)) as (o & p' & Hp' & Hq). exists o, p'.
    pose proof (proj1 (b_head _ _ _ B o p') Hp') as [Ho _]. split; [lia|]. split; [done|].
    intros q Hb. replace q with p; [done|]. unfold blk in Hb. change (pages_of 0) with 1 in Hb. lia.
  - pose proof (pages_of_pos t) as Hpos. pose proof (aligned_weaken p (S t) t ltac:(lia) Hal) as Hal1.
    assert (Hal2 : aligned (p + pages_of t) t).
    { apply aligned_mul in Hal1 as [k ->]. replace (k * pages_of t + pages_of t) with ((k + 1) * pages_of t) by lia. apply mul_aligned. }
    destruct (IH p) as (o1 & p1 & H1 & F1 & S1); [lia|done|done|intros q Hq; apply Hfree; unfold blk in *; rewrite pages_of_S; lia|].
    destruct (IH (p + pages_of t)) as (o2 & p2 & H2 & F2 & S2); [lia|done|lia|intros q Hq; apply Hfree; unfold blk in *; rewrite pages_of_S; lia|].
    assert (Hbig : forall o p' q0, p' ∈ fl o -> (S t <= o)%nat -> blk p (S t) q0 -> blk p' o q0 ->
      forall q, blk p (S t) q -> blk p' o q).
    { intros o p' q0 Hp' Ho Hq0 Hb q Hq. pose proof (proj1 (b_head _ _ _ B o p') Hp') as [Ho' _].
      apply (b_within _ _ _ B), within_spec in Hp' as (r & _ & _ & Ha & _); [|apply (b_ranges _ _ _ B)|done].
      pose proof (blocks_nested p' o p (S t) q0 Ha Hal Ho Hb Hq0). unfold blk in *. lia. }
    destruct (Nat.le_gt_cases (S t) o1) as [Ho1|Ho1].
    { exists o1, p1. split; [lia|]. split; [done|]. apply (Hbig o1 p1 p); [done|done|apply blk_head|apply S1, blk_head]. }
    destruct (Nat.le_gt_cases (S t) o2) as [Ho2|Ho2].
    { exists o2, p2. split; [lia|]. split; [done|]. apply (Hbig o2 p2 (p + pages_of t)); [done|done| |apply S2, blk_head].
      unfold blk. rewrite pages_of_S. lia. }
    assert (o1 = t) as -> by lia. assert (o2 = t) as -> by lia. exfalso.
    assert (Heq : forall p' x, p' ∈ fl t -> aligned x t -> (forall q, blk x t q -> blk p' t q) -> p' = x).
    { intros p' x Hp' Hx Hsub. pose proof (Hsub x (blk_head _ _)) as [L1 L2].
      pose proof (Hsub (x + pages_of t - 1)) as [L3 L4]; [unfold blk; lia|lia]. }
    apply Heq in S1 as ->; [|done..]. apply Heq in S2 as ->; [|done..].
    destruct (buddy_cases p t Hp Hal1) as (_ & _ & [[Eb _]|[Eb Hb]]).
    + apply (b_coalesced _ _ _ B t p); [lia|done|]. by rewrite Eb.
    + apply aligned_mul in Hal as [x Ex], Hb as [y Ey]. rewrite Eb, Ex, pages_of_S in Ey.
      assert (2 * x - 1 = 2 * y); [|lia]. apply (Z.mul_cancel_r _ _ (pages_of t)); lia.
Qed.

(** ** Specification of contiguous allocation *)

(** Frames that were handed out before and returned. *)
Definition recycled (st : BuddyFrameAllocator) (q : Z) : Prop :=
  ~ used st q /\ exists r, r ∈ ranges st /\ fr_start r <= q < fr_current r.

Lemma recycled_in_free st fl q : Blocks st fl nowhere -> recycled st q -> in_free fl q.
Proof.
  intros B [Hu (r & Hr & Hq)]. pose proof (range_lookup st r (b_ranges _ _ _ B) Hr) as (? & ? & _).
  destruct (frame_cases st fl q B) as [?|[(r' & Hr' & Hq')|?]]; [|done| |done].
  - exists r. split; [done|unfold in_range; lia].
  - exfalso. by apply (fresh_not_started st r' r q (b_ranges _ _ _ B)).
Qed.

(** Nothing in the allocator can serve [pages] frames aligned to [2^k]. *)
Definition cannot_serve (st : BuddyFrameAllocator) (pages : Z) (k : nat) : Prop :=
  ((k < 63)%nat -> Forall (fun r => ~ room r pages k) (ranges st)) /\
  forall t p, pages <= pages_of t -> (k <= t < FRAME_BUDDY_ORDERS)%nat -> aligned p t -> 0 <= p ->
    ~ (forall q, blk p t q -> recycled st q).

Lemma alloc_contiguous_spec st fl pages align : Inv st fl nowhere -> 0 <= pages ->
  (alloc_contiguous pages align st = Some (None, st) /\
   forall k, align = pages_of k -> 1 <= pages /\ cannot_serve st pages k) \/
  exists s st' fl', alloc_contiguous pages align st = Some (Some (mkExtent s pages), st') /\
    Inv st' fl' nowhere /\ s mod align = 0 /\ 0 < align /\
    moves st st' (fun q => s <= q < s + pages) nowhere /\ count_moved st st' fl fl' (- pages).
Proof.
  intros I Hp. pose proof (i_blocks _ _ _ I) as B. unfold alloc_contiguous.
  destruct (is_power_of_two align) eqn:Epow; cbn [negb].
  2: { left. split; [done|]. intros k ->. exfalso. unfold is_power_of_two in Epow. pose proof (pages_of_pos k).
       rewrite pages_of_eq in *. rewrite Z.log2_pow2, Z.eqb_refl in Epow by lia. to_prop. destruct Epow; to_prop; [lia|done]. }
  apply power_of_two_order in Epow as [k ->]. pose proof (pages_of_pos k) as Hk.
  destruct (Z.eqb_spec pages 0) as [->|Hp0].
  { right. exists 0, st, fl. split; [done|]. split; [done|]. split; [by apply Z.mod_0_l; lia|]. split; [done|]. split.
    - split; try done; [intros q; split; [auto|intros [[? _]|?]; [done|lia]]|intros; lia].
    - unfold count_moved. lia. }
  assert (Hinj : forall j, pages_of k = pages_of j -> j = k).
  { intros j E. rewrite <- (trailing_zeros_pages k), E. by rewrite trailing_zeros_pages. }
  destruct ((pages =? 1) && (pages_of k =? 1)) eqn:E1.
  - to_prop. subst pages. destruct (alloc_spec st fl I) as [[E Hall]|(p & st' & fl' & E & I' & M & C)]; rewrite E; cbn [mbind option_bind].
    + left. split; [done|]. intros j <-%Hinj. split; [done|]. split.
      * intros _. apply Forall_forall. intros r Hr (b & B1 & _ & B3).
        pose proof (range_lookup st r (b_ranges _ _ _ B) Hr) as (? & ? & _).
        destruct (Hall b) as (r' & v & Hr' & Hq' & _); [exists r; split; [done|unfold in_range; lia]|].
        apply (fresh_not_started st r r' b (b_ranges _ _ _ B)); try done. lia.
      * intros t p _ _ _ _ Hrec. destruct (Hrec p (blk_head _ _)) as [Hn (r & Hr & Hq)]. apply Hn, Hall.
        pose proof (range_lookup st r (b_ranges _ _ _ B) Hr) as (? & ? & _).
        exists r. split; [done|unfold in_range; lia].
    + right. exists p, st', fl'. split; [done|]. split; [done|]. rewrite H0. split; [apply Z.mod_1_r|]. split; [done|]. split; [|done].
      destruct M as [T M U N F]. split; try done; [intros q; rewrite U; split; intros [?|?]; auto; right; lia|].
      intros q Hq. apply N. lia.
  - destruct (alloc_fresh_spec st fl pages k I ltac:(lia)) as [[E Hno]|(s & st' & fl' & E & I' & Hal & M & C)];
      rewrite E; cbn [mbind option_bind]; [|right; exists s, st', fl'; done].
    destruct (alloc_recycled_spec st fl pages k I ltac:(lia)) as [[E' Hnone]|(s & st' & fl' & E' & I' & Hal & M & C)];
      [left|right; exists s, st', fl'; done].
    split; [done|]. intros j <-%Hinj. split; [lia|]. split; [done|]. intros t p Ht Hkt Halp Hp' Hrec.
    destruct (free_block_covers st fl _ B t p) as (o & p' & Ho & Hin & _); [lia|done|done| |].
    { intros q Hq. apply (recycled_in_free st); [done|by apply Hrec]. }
    rewrite (Hnone o t Ht) in Hin by lia. by apply elem_of_nil in Hin.
Qed.
