(* ===== verification/FrameSpec.v ===== *)
(** * Physical frames: what the allocator promises

    The system of owners around [BuddyFrameAllocator]: frames are handed out,
    written by their owners and returned, in any order.  Exclusive ownership,
    accounting, absence of panics, memory isolation and completeness. *)

From S2P Require Import Prelude FrameAlloc FrameInv FrameOps.

(** ** Initialisation *)

(** The frames of a memory area. *)
Definition area_left (a : Z * Z) : Z := phys_ceil (fst a).
Definition area_right (a : Z * Z) : Z := phys_floor (usize (fst a + snd a)).

Definition area_ok (a : Z * Z) : Prop := 0 <= fst a /\ 0 <= snd a /\ fst a + snd a < 2 ^ 63.

(** A boot memory map: at most 32 areas, and the frames of distinct areas do not touch. *)
Record areas_ok (areas : list (Z * Z)) : Prop := {
  ao_each : Forall area_ok areas;
  ao_apart : forall i j a b, areas !! i = Some a -> areas !! j = Some b -> i <> j ->
    area_left a < area_right a -> area_left b < area_right b ->
    area_right a < area_left b \/ area_right b < area_left a;
  ao_count : (length areas <= MEM_VECTOR_CAPACITY)%nat;
  ao_some : Exists (fun a => area_left a < area_right a) areas }.

Lemma area_bounds a : area_ok a -> 0 <= area_left a /\ area_right a <= 2 ^ 52.
Proof.
  intros (H1 & H2 & H3). unfold area_left, area_right, phys_ceil, phys_floor, PAGE_SIZE.
  rewrite !wrap_small by (unfold in_u; lia). split; [case_if; zlia|zlia].
Qed.

(** The allocator after [add_range] of some regions. *)
Record booted (st : BuddyFrameAllocator) : Prop := {
  bt_states : exists n, frame_states st = replicate n FRAME_STATE_ALLOCATED;
  bt_ranges : wf_ranges st;
  bt_heads : buddy_heads st = replicate FRAME_BUDDY_ORDERS BUDDY_LIST_END;
  bt_count : recycled_count st = 0;
  bt_current : forall r, r ∈ ranges st -> fr_current r = fr_start r /\ fr_start r < fr_end r;
  bt_size : Z.of_nat (length (frame_states st)) <= 2 ^ 52 * Z.of_nat (length (ranges st));
  bt_total : total_sum (ranges st) = Z.of_nat (length (frame_states st)) }.

Lemma booted_inv st : booted st -> Inv st (fun _ => []) nowhere.
Proof.
  intros [[n En] Hw Hh Hc Hcur _ _].
  assert (HS : forall q v, frame_state st q = Some v -> v = FRAME_STATE_ALLOCATED).
  { intros q v E. unfold frame_state in E. destruct (frame_state_index st q); [|done]. simpl in E.
    rewrite En in E. by apply lookup_replicate in E as [-> _]. }
  split.
  - rewrite Hh. split; [done|]. intros o Ho. split; [by apply lookup_replicate|done].
  - split; try done.
    + intros o p. split; [intros Hp; by apply elem_of_nil in Hp|]. intros [Ho E]. apply HS in E.
      unfold FRAME_BUDDY_ORDERS, FRAME_STATE_ALLOCATED in *. lia.
    + constructor.
    + intros o p Hp. by apply elem_of_nil in Hp.
    + intros o p q Hp. by apply elem_of_nil in Hp.
    + intros q E. by apply HS in E.
    + intros r q Hr Hq. destruct (Hcur r Hr) as [Ec _].
      destruct (frame_state_some st r q Hw Hr) as [v E]; [unfold in_range; lia|]. rewrite E. f_equal. by apply (HS q).
    + intros q v E%HS. right. right. by left.
    + intros o p _ Hp. by apply elem_of_nil in Hp.
  - rewrite Hc. reflexivity.
Qed.

Lemma booted_unused st q : booted st -> ~ used st q.
Proof. intros Hb (r & v & Hr & Hq & _). destruct (bt_current _ Hb r Hr). lia. Qed.

Lemma total_sum_snoc rs r : total_sum (rs ++ [r]) = total_sum rs + (fr_end r - fr_start r).
Proof. unfold total_sum. induction rs as [|x rs IH]; simpl in *; lia. Qed.

Lemma add_range_spec st l r : booted st -> 0 <= l < r -> r <= 2 ^ 52 ->
  (length (ranges st) < MEM_VECTOR_CAPACITY)%nat ->
  (forall x, x ∈ ranges st -> fr_end x < l \/ r < fr_start x) ->
  exists st', add_range l r st = Some st' /\ booted st' /\
    ranges st' = ranges st ++ [mkFrameRange l l r (Z.of_nat (length (frame_states st)))].
Proof.
  intros [[n En] [He Hp Hs] Hh Hc Hcur Hsz Ht] Hl Hr Hn Hap. unfold add_range.
  assert (E1 : (r <=? l) = false) by (apply Z.leb_gt; lia). rewrite E1.
  apply Nat.ltb_lt in Hn as E2. rewrite E2. cbn [assert mbind option_bind].
  eexists. split; [reflexivity|]. split; [|done].
  assert (Elen : Z.of_nat (length (frame_states st ++ replicate (Z.to_nat (r - l)) FRAME_STATE_ALLOCATED)) =
    Z.of_nat (length (frame_states st)) + (r - l)) by (rewrite length_app, length_replicate; lia).
  split; simpl; try done.
  - exists (n + Z.to_nat (r - l))%nat. by rewrite En, replicate_add.
  - split; simpl.
    + intros i x Hi. apply lookup_snoc_Some in Hi as [[_ Hi]|[_ <-]].
      * pose proof (He _ _ Hi) as (? & ? & ? & ?). unfold wf_range. rewrite Elen. repeat split; lia.
      * unfold wf_range. simpl. rewrite Elen. repeat split; lia.
    + assert (Hnew : forall i x, ranges st !! i = Some x ->
        apart x (mkFrameRange l l r (Z.of_nat (length (frame_states st)))) /\
        apart (mkFrameRange l l r (Z.of_nat (length (frame_states st)))) x).
      { intros i x Hx. pose proof (He _ _ Hx) as (? & ? & ? & ?).
        destruct (Hap x) as [?|?]; [by eapply list_elem_of_lookup_2|..]; unfold apart; simpl; repeat split; lia. }
      intros i j x y Hi Hj Hij.
      apply lookup_snoc_Some in Hi as [[_ Hi]|[Ei <-]], Hj as [[_ Hj]|[Ej <-]]; [by eapply Hp| | |lia].
      * by apply (Hnew i x).
      * by apply (Hnew j y).
    + rewrite Elen. unfold MEM_VECTOR_CAPACITY in Hn. lia.
  - intros x Hx. apply elem_of_app in Hx as [Hx|Hx]; [by apply Hcur|]. apply list_elem_of_singleton in Hx as ->. simpl. lia.
  - rewrite Elen, length_app. simpl. lia.
  - rewrite Elen, total_sum_snoc, Ht. done.
Qed.

(** The regions of a memory map. *)
Definition served (areas : list (Z * Z)) (q : Z) : Prop :=
  exists a, a ∈ areas /\ area_left a <= q < area_right a.

Lemma init_areas_spec areas : forall done_ st b,
  Forall area_ok areas -> booted st ->
  (length (ranges st) + length areas <= MEM_VECTOR_CAPACITY)%nat ->
  (forall i j a c, (done_ ++ areas) !! i = Some a -> (done_ ++ areas) !! j = Some c -> i <> j ->
    area_left a < area_right a -> area_left c < area_right c ->
    area_right a < area_left c \/ area_right c < area_left a) ->
  (forall x, x ∈ ranges st -> exists a, a ∈ done_ /\ area_left a < area_right a /\
     fr_start x = area_left a /\ fr_end x = area_right a) ->
  (forall a, a ∈ done_ -> area_left a < area_right a -> exists x, x ∈ ranges st /\
     fr_start x = area_left a /\ fr_end x = area_right a) ->
  exists st', init_areas areas b st = Some (b || existsb (fun a => area_left a <? area_right a) areas, st') /\
    booted st' /\ forall q, managed st' q <-> served (done_ ++ areas) q.
Proof.
  induction areas as [|a areas IH]; intros done_ st b Hok Hb Hlen Hap Hfrom Hto; simpl.
  - exists st. rewrite orb_false_r. split; [done|]. split; [done|]. intros q. rewrite app_nil_r.
    unfold managed, served, in_range. split.
    + intros (x & Hx & Hq). destruct (Hfrom x Hx) as (a & Ha & _ & E1 & E2). exists a. split; [done|lia].
    + intros (a & Ha & Hq). destruct (Hto a Ha ltac:(lia)) as (x & Hx & E1 & E2). exists x. split; [done|lia].
  - apply Forall_cons in Hok as [Ha Hok]. destruct a as [start size]. cbn [fst snd] in *.
    fold (area_left (start, size)). change (phys_floor (usize (start + size))) with (area_right (start, size)).
    change (phys_ceil start) with (area_left (start, size)). simpl in Hlen.
    destruct (Z.leb_spec (area_right (start, size)) (area_left (start, size))) as [Hle|Hlt].
    + rewrite (proj2 (Z.ltb_ge _ _) Hle). simpl.
      destruct (IH (done_ ++ [(start, size)]) st b) as (st' & E & Hb' & Hm); [done|done|lia|by rewrite <- app_assoc|..].
      * intros x Hx. destruct (Hfrom x Hx) as (c & Hc & ?). exists c. split; [set_solver|done].
      * intros c Hc Hlt. apply elem_of_app in Hc as [Hc|Hc]; [by apply Hto|]. apply list_elem_of_singleton in Hc as ->. lia.
      * exists st'. split; [done|]. split; [done|]. intros q. rewrite Hm, <- app_assoc. done.
    + rewrite (proj2 (Z.ltb_lt _ _) Hlt). pose proof (area_bounds _ Ha).
      destruct (add_range_spec st (area_left (start, size)) (area_right (start, size)) Hb) as (st1 & E1 & Hb1 & Er1);
        [lia|lia|lia| |].
      { intros x Hx. destruct (Hfrom x Hx) as (c & Hc & Hc' & -> & ->). apply list_elem_of_lookup in Hc as [i Hi].
        destruct (Hap i (length done_) c (start, size)) as [?|?]; [by rewrite lookup_app_l by (by eapply lookup_lt_Some)|
          by apply list_lookup_middle|apply lookup_lt_Some in Hi; lia|done|done|by left|by right]. }
      rewrite E1. cbn [mbind option_bind].
      destruct (IH (done_ ++ [(start, size)]) st1 true) as (st' & E & Hb' & Hm);
        [done|done|rewrite Er1, length_app; simpl; lia|by rewrite <- app_assoc|..].
      * intros x Hx. rewrite Er1 in Hx. apply elem_of_app in Hx as [Hx|Hx].
        -- destruct (Hfrom x Hx) as (c & Hc & ?). exists c. split; [set_solver|done].
        -- apply list_elem_of_singleton in Hx as ->. exists (start, size). split; [set_solver|done].
      * intros c Hc Hc'. rewrite Er1. apply elem_of_app in Hc as [Hc|Hc].
        -- destruct (Hto c Hc Hc') as (x & Hx & ?). exists x. split; [set_solver|done].
        -- apply list_elem_of_singleton in Hc as ->. eexists. split; [apply elem_of_app; right; by apply list_elem_of_singleton|done].
      * exists st'. split; [by rewrite orb_true_r|]. split; [done|]. intros q. rewrite Hm, <- app_assoc. done.
Qed.

Lemma init_spec areas m : areas_ok areas ->
  exists st, init_frame_allocator areas (new_allocator m) = Some st /\ booted st /\
    forall q, managed st q <-> served areas q.
Proof.
  intros [H1 H2 H3 H4].
  destruct (init_areas_spec areas [] (new_allocator m) false) as (st & E & Hb & Hm); try done.
  - split; [by exists 0%nat|by split|done|done|intros r Hr; by apply elem_of_nil in Hr|done|done].
  - intros x Hx. by apply elem_of_nil in Hx.
  - intros x Hx. by apply elem_of_nil in Hx.
  - exists st. split; [|done]. unfold init_frame_allocator. rewrite E. cbn [mbind option_bind orb].
    assert (Ex : existsb (fun a => area_left a <? area_right a) areas = true).
    { apply existsb_exists. apply Exists_exists in H4 as (a & Ha & Hlt). exists a.
      split; [by apply list_elem_of_In|by apply Z.ltb_lt]. }
    rewrite Ex. done.
Qed.

(** ** Owners

    [owned] are the frames that have been handed out.  An owner may write to
    its frames at any time, and returns them one by one. *)

Record FrameSys := mkSys { sys_alloc : BuddyFrameAllocator; owned : list Z }.

Inductive fstep : FrameSys -> FrameSys -> Prop :=
| fs_alloc st own p st' :
    alloc st = Some (Some p, st') -> fstep (mkSys st own) (mkSys st' (p :: own))
| fs_alloc_fail st own st' :
    alloc st = Some (None, st') -> fstep (mkSys st own) (mkSys st' own)
| fs_extent st own pages align ex st' :
    0 <= pages -> alloc_contiguous pages align st = Some (Some ex, st') ->
    fstep (mkSys st own) (mkSys st' (seqZ (ex_start ex) (ex_pages ex) ++ own))
| fs_extent_fail st own pages align st' :
    0 <= pages -> alloc_contiguous pages align st = Some (None, st') -> fstep (mkSys st own) (mkSys st' own)
| fs_free st l1 p l2 st' :
    dealloc p st = Some st' -> fstep (mkSys st (l1 ++ p :: l2)) (mkSys st' (l1 ++ l2))
| fs_write st own p words :
    p ∈ own -> fstep (mkSys st own) (mkSys (set_links st (<[p := words]> (links st))) own).

(** States reachable from boot with the memory map [areas]. *)
Definition freachable (areas : list (Z * Z)) (s : FrameSys) : Prop :=
  exists m st0, init_frame_allocator areas (new_allocator m) = Some st0 /\ rtc fstep (mkSys st0 []) s.

Record SysInv (areas : list (Z * Z)) (s : FrameSys) : Prop := {
  si_inv : exists fl, Inv (sys_alloc s) fl nowhere /\
    free_total (sys_alloc s) fl + Z.of_nat (length (owned s)) = total_sum (ranges (sys_alloc s));
  si_total : total_sum (ranges (sys_alloc s)) < 2 ^ 60;
  si_nodup : NoDup (owned s);
  si_used : forall q, q ∈ owned s <-> used (sys_alloc s) q;
  si_state : forall q, q ∈ owned s -> frame_state (sys_alloc s) q = Some FRAME_STATE_ALLOCATED;
  si_managed : forall q, managed (sys_alloc s) q <-> served areas q }.

(** Taking frames. *)
Lemma SysInv_take areas st own st' fl fl' new :
  SysInv areas (mkSys st own) -> Inv st fl nowhere -> Inv st' fl' nowhere ->
  moves st st' (fun q => q ∈ new) nowhere -> NoDup new -> count_moved st st' fl fl' (- Z.of_nat (length new)) ->
  free_total st fl + Z.of_nat (length own) = total_sum (ranges st) ->
  SysInv areas (mkSys st' (new ++ own)).
Proof.
  intros [_ Ht Hnd Hu Hst Hm] I I' Hmv Hnew C E. pose proof (mv_total _ _ _ _ Hmv) as T.
  destruct Hmv as [_ M U N F]. simpl in *. split; simpl.
  - exists fl'. split; [done|]. unfold count_moved in C. rewrite C, length_app, T. lia.
  - by rewrite T.
  - apply NoDup_app. split; [done|]. split; [|done]. intros q Hq Ho. apply Hu in Ho. by destruct (N q Hq) as (_ & ? & _).
  - intros q. rewrite elem_of_app, U, Hu. tauto.
  - intros q [Hq|Hq]%elem_of_app; [by apply N|]. rewrite (proj1 (F q (proj1 (Hu q) Hq) ltac:(auto))). auto.
  - intros q. by rewrite M.
Qed.

Lemma SysInv_step areas s s' : SysInv areas s -> fstep s s' -> SysInv areas s'.
Proof.
  intros SI Hstep. pose proof SI as [(fl & I & E) Ht Hnd Hu Hst Hm].
  destruct Hstep as [st own p st' Ha|st own st' Ha|st own pages al ex st' Hp Ha|st own pages al st' Hp Ha|st l1 p l2 st' Hd|st own p words Hp];
    cbn [sys_alloc owned] in *.
  - destruct (alloc_spec st fl I) as [[E' _]|(p0 & st0 & fl' & E' & I' & M & C)]; rewrite E' in Ha; [done|].
    injection Ha as -> ->. apply (SysInv_take areas st own st' fl fl' [p]); try done; [|apply NoDup_singleton].
    destruct M as [T M U N F]. split; try done.
    + intros q. rewrite U, list_elem_of_singleton. done.
    + intros q ->%list_elem_of_singleton. by apply N.
  - destruct (alloc_spec st fl I) as [[E' _]|(p0 & st0 & fl' & E' & I' & M & C)]; rewrite E' in Ha; [|done].
    by injection Ha as <-.
  - destruct (alloc_contiguous_spec st fl pages al I Hp) as [[E' _]|(s & st0 & fl' & E' & I' & _ & _ & M & C)]; rewrite E' in Ha; [done|].
    injection Ha as <- <-. simpl. apply (SysInv_take areas st own st0 fl fl' (seqZ s pages)); try done.
    + destruct M as [T M U N F]. split; try done.
      * intros q. by rewrite U, elem_of_seqZ.
      * intros q Hq. apply N. by apply elem_of_seqZ.
    + apply NoDup_seqZ.
    + rewrite length_seqZ, Z2Nat.id by done. done.
  - destruct (alloc_contiguous_spec st fl pages al I Hp) as [[E' _]|(s & st0 & fl' & E' & _)]; rewrite E' in Ha; [|done].
    by injection Ha as <-.
  - assert (Hp : p ∈ l1 ++ p :: l2) by set_solver.
    pose proof (proj1 (Hu p) Hp) as (r & v & Hr & Hq & _).
    destruct (dealloc_spec st fl p r I Hr Hq (or_introl (Hst p Hp))) as (st0 & fl' & E' & I' & Hmv & C).
    pose proof (mv_total _ _ _ _ Hmv) as T. destruct Hmv as [_ M U N F]. rewrite E' in Hd. injection Hd as <-. apply NoDup_app in Hnd as (N1 & N2 & [N3 N4]%NoDup_cons).
    assert (Hsub : forall q, q ∈ l1 ++ l2 <-> q ∈ l1 ++ p :: l2 /\ q <> p).
    { intros q. rewrite !elem_of_app, elem_of_cons. split.
      - intros [Hq'|Hq']; split; auto; intros ->; [by apply (N2 p Hq'), list_elem_of_here|done].
      - intros [[?|[?|?]] ?]; auto. done. }
    split; simpl.
    + exists fl'. split; [done|]. unfold count_moved in C. rewrite C, T, <- E, !length_app. simpl. lia.
    + by rewrite T.
    + apply NoDup_app. split; [done|]. split; [|done]. intros x Hx Hx2. apply (N2 x Hx). by right.
    + intros q. rewrite Hsub, Hu, U. tauto.
    + intros q [Hq' Hne]%Hsub. rewrite (proj1 (F q (proj1 (Hu q) Hq') Hne)). auto.
    + intros q. by rewrite M.
  - split; simpl; try done. exists fl. split; [|done]. apply Inv_write; [done|]. by apply Hu.
Qed.

Lemma freachable_inv areas s : areas_ok areas -> freachable areas s -> SysInv areas s.
Proof.
  intros Ha (m & st0 & Ei & Hr). destruct (init_spec areas m Ha) as (st & E & Hb & Hm).
  rewrite E in Ei. injection Ei as ->.
  assert (H0 : SysInv areas (mkSys st0 [])).
  { pose proof (booted_inv st0 Hb) as I. split; simpl; try done.
    - exists (fun _ => []). split; [done|]. unfold free_total, count. simpl. rewrite Z.add_0_r.
      assert (Ef : forall rs, (forall r, r ∈ rs -> fr_current r = fr_start r) -> fresh_sum rs = total_sum rs).
      { induction rs as [|r rs IH]; intros Hc; simpl; [done|]. rewrite (Hc r) by left.
        rewrite IH by (intros; apply Hc; by right). done. }
      rewrite Ef; [|intros r Hr'; by apply (bt_current _ Hb)]. lia.
    - rewrite (bt_total _ Hb). apply (wr_size _ (bt_ranges _ Hb)).
    - constructor.
    - intros q. split; [intros Hq; by apply elem_of_nil in Hq|intros Hq; by apply booted_unused in Hq].
    - intros q Hq. by apply elem_of_nil in Hq. }
  clear Hm Hb E. induction Hr as [|x y z Hxy _ IH]; [done|]. apply IH. by eapply SysInv_step.
Qed.

(** ** Properties *)

Lemma total_pages_eq st : total_pages st = usize (total_sum (ranges st)).
Proof.
  unfold total_pages. induction (ranges st) as [|r rs IH]; simpl; [done|]. by rewrite IH, wrap_add_r.
Qed.

Lemma free_count_nonneg fl : 0 <= count fl.
Proof.
  unfold count. generalize (seq 0 FRAME_BUDDY_ORDERS). intros os. induction os as [|o os IH]; simpl; [lia|].
  pose proof (pages_of_pos o). nia.
Qed.

Lemma fresh_sum_nonneg st : wf_ranges st -> 0 <= fresh_sum (ranges st).
Proof.
  intros Hw. assert (H : Forall (fun r => fr_current r <= fr_end r) (ranges st)).
  { apply Forall_forall. intros r Hr. by pose proof (range_lookup st r Hw Hr) as (_ & [? _] & _). }
  induction H as [|r rs Hr _ IH]; simpl; lia.
Qed.

(** C1: frames have one owner.  After any sequence of allocations, extent
    allocations, releases and writes by owners, from any boot memory map whose
    areas do not touch: no frame is owned twice, only frames of the memory map
    are owned, and the allocator's page counts add up exactly. *)
Theorem frames_exclusive areas s : areas_ok areas -> freachable areas s ->
  NoDup (owned s) /\ (forall q, q ∈ owned s -> served areas q) /\
  free_pages (sys_alloc s) + Z.of_nat (length (owned s)) = total_pages (sys_alloc s).
Proof.
  intros Ha Hr. destruct (freachable_inv areas s Ha Hr) as [(fl & I & E) Ht Hnd Hu _ Hm].
  split; [done|]. split.
  - intros q (r & v & Hr' & Hq & _)%Hu. apply Hm. exists r. split; [done|].
    pose proof (range_lookup _ r (b_ranges _ _ _ (i_blocks _ _ _ I)) Hr') as (_ & ? & _). unfold in_range. lia.
  - pose proof (free_count_nonneg fl). pose proof (fresh_sum_nonneg _ (b_ranges _ _ _ (i_blocks _ _ _ I))).
    rewrite (free_pages_eq _ fl nowhere I), total_pages_eq. unfold free_total in *.
    rewrite !wrap_small by (unfold in_u; lia). done.
Qed.

Lemma dealloc_unused st fl p : Inv st fl nowhere -> ~ used st p -> dealloc p st = None.
Proof.
  intros I Hu. pose proof (i_blocks _ _ _ I) as B. unfold dealloc, dealloc_buddy, contains_ppn, allocated_ppn.
  destruct (existsb _ (ranges st)); [|done]. destruct (existsb _ (ranges st)) eqn:Ea; [|done]. simpl.
  apply existsb_exists in Ea as (r & Hr%list_elem_of_In & Hq). to_prop.
  assert (Hn : forall v, owned_state v -> frame_state st p <> Some v).
  { intros v Hv E. apply Hu. exists r, v. done. }
  rewrite !bool_decide_false; [done|apply Hn; by right; left|apply Hn; by left].
Qed.

(** no panic, and every wrong release is caught.  In every reachable state
    allocation returns (none of the assertions and corruption checks fires), and
    [dealloc] panics exactly on the frames that nobody owns: a double free, a
    frame never handed out or one outside memory. *)
Theorem frame_operations_defined areas s : areas_ok areas -> freachable areas s ->
  (exists r st', alloc (sys_alloc s) = Some (r, st')) /\
  (forall pages align, 0 <= pages -> exists r st', alloc_contiguous pages align (sys_alloc s) = Some (r, st')) /\
  (forall p, dealloc p (sys_alloc s) = None <-> p ∉ owned s).
Proof.
  intros Ha Hr. destruct (freachable_inv areas s Ha Hr) as [(fl & I & E) Ht Hnd Hu Hst Hm]. split_and!.
  - destruct (alloc_spec _ fl I) as [[E' _]|(p & st' & fl' & E' & _)]; rewrite E'; eauto.
  - intros pages al Hp. destruct (alloc_contiguous_spec _ fl pages al I Hp) as [[E' _]|(x & st' & fl' & E' & _)]; rewrite E'; eauto.
  - intros p. split.
    + intros Hd Hp. pose proof (proj1 (Hu p) Hp) as (r & v & Hr' & Hq & _).
      destruct (dealloc_spec _ fl p r I Hr' Hq (or_introl (Hst p Hp))) as (st' & fl' & E' & _). congruence.
    + intros Hp. apply (dealloc_unused _ fl); [done|]. by rewrite <- Hu.
Qed.

(** single frames are allocated while there is one.  In every reachable
    state [alloc] returns a frame of the memory map that nobody owns, unless all
    are owned. *)
Theorem frame_alloc_complete areas s : areas_ok areas -> freachable areas s ->
  (forall p st', alloc (sys_alloc s) = Some (Some p, st') -> served areas p /\ p ∉ owned s) /\
  (forall st', alloc (sys_alloc s) = Some (None, st') -> st' = sys_alloc s /\ forall q, served areas q -> q ∈ owned s).
Proof.
  intros Ha Hr. destruct (freachable_inv areas s Ha Hr) as [(fl & I & E) Ht Hnd Hu Hst Hm].
  destruct (alloc_spec _ fl I) as [[E' Hall]|(p0 & st0 & fl' & E' & _ & M & _)]; rewrite E'; split; try done.
  - intros st' [= <-]. split; [done|]. intros q Hq. apply Hu, Hall, Hm. done.
  - intros p st' [= <- <-]. destruct (mv_new _ _ _ _ M p0 eq_refl) as (H1 & H2 & _). rewrite <- Hm, Hu. done.
Qed.

(** C2: Extents of frames.  After any sequence of allocations, extent allocations,
    releases and writes by owners, from any boot memory map whose areas do not touch,
    [alloc_contiguous], which runs under the lock of the allocator, returns without a
    panic for any size and alignment.  An extent it returns has exactly the requested
    size, starts at a multiple of the alignment, and consists of frames of the memory
    map that nobody owns.  It fails, and then changes nothing, only for an alignment
    that is no power of two, or when no region has room above its bump pointer and
    no aligned power-of-two block that is large enough consists of returned frames
    only: returned frames are always merged as far as possible, and a block that the
    merging could form is found. *)
Theorem extent_alloc_complete areas s pages align : areas_ok areas -> freachable areas s -> 0 <= pages ->
  exists r st', alloc_contiguous pages align (sys_alloc s) = Some (r, st') /\
  match r with
  | Some ex => ex_pages ex = pages /\ ex_start ex mod align = 0 /\
      forall q, ex_start ex <= q < ex_start ex + pages -> served areas q /\ q ∉ owned s
  | None => st' = sys_alloc s /\
      (is_power_of_two align = false \/ exists k, align = pages_of k /\ cannot_serve (sys_alloc s) pages k)
  end.
Proof.
  intros Ha Hr Hp. destruct (freachable_inv areas s Ha Hr) as [(fl & I & E) Ht Hnd Hu Hst Hm].
  destruct (alloc_contiguous_spec _ fl pages align I Hp) as [[E' Hno]|(x & st0 & fl' & E' & _ & Hmod & _ & M & _)]; eexists _, _; (split; [exact E'|]).
  - split; [done|]. destruct (is_power_of_two align) eqn:Ep; [right|by left].
    apply power_of_two_order in Ep as [k ->]. exists k. split; [done|]. by apply Hno.
  - split; [done|]. split; [done|]. intros q Hq. destruct (mv_new _ _ _ _ M q Hq) as (H1 & H2 & _). by rewrite <- Hm, Hu.
Qed.

(** isolation.  The allocator keeps its list nodes in free frames only: a
    step changes the memory of a frame that is owned before and after it only if
    it is the owner's own write. *)
Theorem frame_memory_isolated areas s s' q : areas_ok areas -> freachable areas s -> fstep s s' ->
  q ∈ owned s -> q ∈ owned s' -> links (sys_alloc s') !!! q <> links (sys_alloc s) !!! q ->
  exists words, s' = mkSys (set_links (sys_alloc s) (<[q := words]> (links (sys_alloc s)))) (owned s).
Proof.
  intros Ha Hr Hstep Hq Hq' Hne. destruct (freachable_inv areas s Ha Hr) as [(fl & I & E) Ht Hnd Hu Hst Hm].
  pose proof (proj1 (Hu q) Hq) as Huq.
  destruct Hstep as [st own p st' Hs|st own st' Hs|st own pages al ex st' Hp Hs|st own pages al st' Hp Hs|st l1 p l2 st' Hd|st own p words Hp];
    cbn [sys_alloc owned] in *.
  - destruct (alloc_spec st fl I) as [[E' _]|(p0 & st0 & fl' & E' & _ & M & _)]; rewrite E' in Hs; [done|].
    injection Hs as -> ->. by destruct (mv_frame _ _ _ _ M q Huq ltac:(auto)) as [_ ?].
  - destruct (alloc_spec st fl I) as [[E' _]|(p0 & st0 & fl' & E' & _)]; rewrite E' in Hs; [|done].
    by injection Hs as <-.
  - destruct (alloc_contiguous_spec st fl pages al I Hp) as [[E' _]|(x & st0 & fl' & E' & _ & _ & _ & M & _)]; rewrite E' in Hs; [done|].
    injection Hs as <- <-. by destruct (mv_frame _ _ _ _ M q Huq ltac:(auto)) as [_ ?].
  - destruct (alloc_contiguous_spec st fl pages al I Hp) as [[E' _]|(x & st0 & fl' & E' & _)]; rewrite E' in Hs; [|done].
    by injection Hs as <-.
  - assert (Hp : p ∈ l1 ++ p :: l2) by set_solver. pose proof (proj1 (Hu p) Hp) as (r & v & Hr' & Hpr & _).
    destruct (dealloc_spec st fl p r I Hr' Hpr (or_introl (Hst p Hp))) as (st0 & fl' & E' & _ & M & _).
    rewrite E' in Hd. injection Hd as <-.
    destruct (mv_frame _ _ _ _ M q Huq) as [_ ?]; [|done]. intros ->.
    apply NoDup_app in Hnd as (_ & N2 & [N3 _]%NoDup_cons). apply elem_of_app in Hq' as [Hc|Hc]; [|done].
    apply (N2 p Hc). left.
  - simpl in Hne. destruct (decide (q = p)) as [->|Hqp]; [by exists words|]. by rewrite lookup_total_insert_ne in Hne.
Qed.

(** ** Examples and witnesses *)

(** Eight frames from 0x80000; an extent of three, its middle frame returned. *)
Definition demo_areas : list (Z * Z) := [(0x80000000, 0x8000)].
Definition demo_boot : BuddyFrameAllocator :=
  default (new_allocator ∅) (init_frame_allocator demo_areas (new_allocator ∅)).
Definition demo_extent : BuddyFrameAllocator :=
  match alloc_contiguous 3 2 demo_boot with Some (_, st) => st | None => demo_boot end.
Definition demo_hole : BuddyFrameAllocator := default demo_extent (dealloc 0x80001 demo_extent).
Definition demo_sys : FrameSys := mkSys demo_hole [0x80000; 0x80002].

Lemma demo_areas_ok : areas_ok demo_areas.
Proof.
  split.
  - constructor; [unfold area_ok; simpl; lia|constructor].
  - intros [|i] [|j] a b Hi Hj Hne; try done; simpl in *; by rewrite ?lookup_nil in *.
  - apply Nat.leb_le. reflexivity.
  - constructor. apply Z.ltb_lt. reflexivity.
Qed.

Lemma demo_reachable : freachable demo_areas demo_sys.
Proof.
  exists ∅, demo_boot. split; [vm_compute; reflexivity|].
  apply (rtc_l _ _ (mkSys demo_extent [0x80000; 0x80001; 0x80002])).
  - apply (fs_extent demo_boot [] 3 2 (mkExtent 0x80000 3)); [lia|vm_compute; reflexivity].
  - apply rtc_once. apply (fs_free demo_extent [0x80000] 0x80001 [0x80002]). vm_compute. reflexivity.
Qed.

Lemma frames_exclusive_witness : NoDup (owned demo_sys) /\ free_pages (sys_alloc demo_sys) = 6.
Proof.
  destruct (frames_exclusive demo_areas demo_sys demo_areas_ok demo_reachable) as (H & _ & E).
  split; [exact H|]. change (total_pages (sys_alloc demo_sys)) with 8 in E. simpl in E. simpl. lia.
Defined.

Lemma frame_operations_defined_witness :
  dealloc 0x80001 (sys_alloc demo_sys) = None /\ dealloc 0x80000 (sys_alloc demo_sys) <> None.
Proof.
  destruct (frame_operations_defined demo_areas demo_sys demo_areas_ok demo_reachable) as (_ & _ & H).
  split; [apply H|rewrite H]; unfold demo_sys; cbn [owned]; rewrite !elem_of_cons, elem_of_nil; lia.
Defined.

Definition demo_taken : BuddyFrameAllocator :=
  match alloc demo_hole with Some (_, st) => st | None => demo_hole end.

Lemma demo_alloc : alloc (sys_alloc demo_sys) = Some (Some 0x80001, demo_taken).
Proof. vm_compute. reflexivity. Qed.

Lemma frame_alloc_complete_witness : served demo_areas 0x80001 /\ 0x80001 ∉ owned demo_sys.
Proof.
  exact (proj1 (frame_alloc_complete demo_areas demo_sys demo_areas_ok demo_reachable) 0x80001 _ demo_alloc).
Defined.

(** Two frames aligned to four, of eight of which one is owned and one is a hole. *)
Lemma extent_alloc_complete_witness : exists ex st', alloc_contiguous 2 4 (sys_alloc demo_sys) = Some (Some ex, st') /\ ex_start ex mod 4 = 0 /\
  served demo_areas (ex_start ex + 1) /\ ex_start ex + 1 ∉ owned demo_sys.
Proof.
  destruct (extent_alloc_complete demo_areas demo_sys 2 4 demo_areas_ok demo_reachable ltac:(lia)) as (r & st' & E & H).
  assert (Er : option_map fst (alloc_contiguous 2 4 (sys_alloc demo_sys)) = Some (Some (mkExtent 0x80004 2))) by (vm_compute; reflexivity).
  rewrite E in Er. injection Er as ->. exists (mkExtent 0x80004 2), st'. split; [exact E|].
  destruct H as (_ & Ha & Hq). split; [exact Ha|]. apply Hq. simpl. lia.
Defined.

Lemma frame_memory_isolated_witness : exists words,
  mkSys (set_links demo_hole (<[0x80000 := mkNode 1 2 3 4]> (links demo_hole))) [0x80000; 0x80002] =
  mkSys (set_links demo_hole (<[0x80000 := words]> (links demo_hole))) [0x80000; 0x80002].
Proof.
  apply (frame_memory_isolated demo_areas demo_sys _ 0x80000 demo_areas_ok demo_reachable).
  - apply fs_write. left.
  - left.
  - left.
  - vm_compute. discriminate.
Defined.

(** Three areas that share boundaries: frames 1, 2 and 3 are handed out and the
    last two returned. *)
Definition adjacent_run : option BuddyFrameAllocator :=
  st ← init_frame_allocator [(0x1000, 0x1000); (0x2000, 0x1000); (0x3000, 0x1000)] (new_allocator ∅);
  '(_, st) ← alloc st; '(_, st) ← alloc st; '(_, st) ← alloc st;
  st ← dealloc 2 st; dealloc 3 st.

(** The hypothesis that areas do not touch is needed: with areas that share a
    boundary a block is merged across it, and a later allocation of the block
    fails the assertion of [fill_frame_states]. *)
Theorem adjacent_regions_panic :
  match adjacent_run with Some st => alloc_contiguous 2 1 st = None | None => False end.
Proof. vm_compute. reflexivity. Qed.
