(* ===== verification/FrameCache.v ===== *)
(** * Physical frames: per-CPU caches and the allocation interface
    (os/src/mm/frame_allocator.rs; FrameTracker of polyhal)

    In front of the buddy allocator every CPU has three caches: frames that
    were freed on it, reserved frames with stale contents, and frames that an
    idle CPU has cleared.  The state byte of a frame says which kind of holder
    it has and is changed by compare-and-exchange through a lock-free index.

    An array with a length is the list of its used entries, the last pushed
    first; a source location is a number.  A definition that is one lock
    section or one atomic operation in the source is one definition here, and
    the functions compose them.  [hart] is [polyhal::arch::hart_id()], which
    does not change within an operation. *)

From S2P Require Import Prelude FrameAlloc.

Definition ANON_DIRTY_FRAME_CACHE_CAPACITY : nat := 16.
Definition ANON_ZEROED_FRAME_CACHE_CAPACITY : nat := 64.
Definition FRAME_FREE_CACHE_CAPACITY : nat := 64.
Definition FRAME_FREE_CACHE_FLUSH : nat := FRAME_FREE_CACHE_CAPACITY / 2.

Abbreviation Site := Z (only parsing).

(** The [static] variables.  [body] is the memory of the frames beyond their
    first four words. *)
Record Frames := mkFrames {
  FRAME_ALLOCATOR : BuddyFrameAllocator;
  FRAME_STATE_INDEX : list (Z * Z * Z);
  body : gmap Z bytes;
  FRAME_FREE_CPU_CACHES : list (list (Z * Site));
  ANON_DIRTY_FRAME_CPU_CACHES : list (list Z);
  ANON_ZEROED_FRAME_CPU_CACHES : list (list Z);
  FRAME_ALLOC_COUNT : Z;
  FRAME_FREE_COUNT : Z;
  FRAME_CPU_CACHED_COUNT : Z;
  ANON_FRAME_CACHED_COUNT : Z;
  ANON_ZEROED_FRAME_CACHED_COUNT : Z }.

Section FrameSetters.
Context (w : Frames).
Let a := FRAME_ALLOCATOR w.
Let i := FRAME_STATE_INDEX w.
Let b := body w.
Let f := FRAME_FREE_CPU_CACHES w.
Let d := ANON_DIRTY_FRAME_CPU_CACHES w.
Let z := ANON_ZEROED_FRAME_CPU_CACHES w.
Let n1 := FRAME_ALLOC_COUNT w.
Let n2 := FRAME_FREE_COUNT w.
Let n3 := FRAME_CPU_CACHED_COUNT w.
Let n4 := ANON_FRAME_CACHED_COUNT w.
Let n5 := ANON_ZEROED_FRAME_CACHED_COUNT w.
Definition with_allocator v := mkFrames v i b f d z n1 n2 n3 n4 n5.
Definition with_index v := mkFrames a v b f d z n1 n2 n3 n4 n5.
Definition with_body v := mkFrames a i v f d z n1 n2 n3 n4 n5.
Definition with_free v := mkFrames a i b v d z n1 n2 n3 n4 n5.
Definition with_dirty v := mkFrames a i b f v z n1 n2 n3 n4 n5.
Definition with_zeroed v := mkFrames a i b f d v n1 n2 n3 n4 n5.
Definition add_alloc_count k := mkFrames a i b f d z (usize (n1 + k)) n2 n3 n4 n5.
Definition add_free_count k := mkFrames a i b f d z n1 (usize (n2 + k)) n3 n4 n5.
Definition add_cpu_cached k := mkFrames a i b f d z n1 n2 (usize (n3 + k)) n4 n5.
Definition add_anon_cached k := mkFrames a i b f d z n1 n2 n3 (usize (n4 + k)) n5.
Definition add_anon_zeroed k := mkFrames a i b f d z n1 n2 n3 n4 (usize (n5 + k)).
End FrameSetters.

(** Operations may panic ([None]). *)
Definition Op (A : Type) : Type := Frames -> option (A * Frames).

Definition op_ret {A} (x : A) : Op A := fun w => Some (x, w).
Definition op_bind {A B} (m : Op A) (k : A -> Op B) : Op B :=
  fun w => match m w with Some (x, w) => k x w | None => None end.
Definition op_get : Op Frames := fun w => Some (w, w).
Definition op_upd (g : Frames -> Frames) : Op unit := fun w => Some (tt, g w).
Definition op_lift {A} (o : option A) : Op A := fun w => match o with Some x => Some (x, w) | None => None end.

Notation "x <- m ;; k" := (op_bind m (fun x => k)) (at level 100, m at next level, right associativity) : kairix_scope.
Notation "m ;;; k" := (op_bind m (fun _ => k)) (at level 100, right associativity) : kairix_scope.

(** A computation on the allocator, under its lock. *)
Definition locked {A} (g : BuddyFrameAllocator -> option (A * BuddyFrameAllocator)) : Op A :=
  fun w => match g (FRAME_ALLOCATOR w) with Some (x, st) => Some (x, with_allocator w st) | None => None end.

(** ** The lock-free state index *)

Definition publish_frame_state_index : Op unit :=
  w <- op_get;;
  op_lift (assert (bool_decide (FRAME_STATE_INDEX w = [])));;;
  op_upd (fun w => with_index w
    (map (fun r => (fr_start r, fr_end r, fr_metadata_start r)) (ranges (FRAME_ALLOCATOR w)))).

(** Index of the state byte. *)
Definition lock_free_frame_state (w : Frames) (ppn : Z) : option nat :=
  option_map (fun '(start, _, offset) => Z.to_nat (usize (offset + ppn - start)))
    (List.find (fun '(start, end_, _) => (start <=? ppn) && (ppn <? end_)) (FRAME_STATE_INDEX w)).

(** [assert_eq!(state.compare_exchange(from, to), Ok(from))]. *)
Definition transition_frame_state (ppn from to : Z) : Op unit := fun w =>
  match lock_free_frame_state w ppn with
  | None => None
  | Some i =>
      let st := FRAME_ALLOCATOR w in
      if bool_decide (frame_states st !! i = Some from)
      then Some (tt, with_allocator w (set_states st (<[i := to]> (frame_states st))))
      else None
  end.

(** ** Pages *)

Definition zero_node : BuddyNode := mkNode 0 0 0 0.
Definition zero_body : bytes := replicate (Z.to_nat (PAGE_SIZE - 32)) 0.

(** [write_bytes(page, 0, PAGE_SIZE)]. *)
Definition clear_page (ppn : Z) : Op unit := op_upd (fun w =>
  let st := FRAME_ALLOCATOR w in
  with_body (with_allocator w (set_links st (<[ppn := zero_node]> (links st)))) (<[ppn := zero_body]> (body w))).

(** The bytes of a frame: the four words, little endian, and the rest. *)
Definition node_bytes (n : BuddyNode) : bytes :=
  le_store 8 (n_previous n) ++ le_store 8 (n_next n) ++ le_store 8 (n_order n) ++ le_store 8 (n_checksum n).
Definition page_bytes (w : Frames) (ppn : Z) : bytes :=
  node_bytes (links (FRAME_ALLOCATOR w) !!! ppn) ++ body w !!! ppn.

Definition words_of (bs : bytes) : BuddyNode :=
  mkNode (le_load (slice 0 8 bs)) (le_load (slice 8 16 bs)) (le_load (slice 16 24 bs)) (le_load (slice 24 32 bs)).

(** A page is overwritten with [bs] ([PAGE_SIZE] bytes). *)
Definition write_page (ppn : Z) (bs : bytes) : Op unit := op_upd (fun w =>
  let st := FRAME_ALLOCATOR w in
  with_body (with_allocator w (set_links st (<[ppn := words_of bs]> (links st)))) (<[ppn := drop 32 bs]> (body w))).

Section Caches.
Context (MAX_CPU_NUM : nat).

Definition frame_cpu_index (hart : nat) : nat := Nat.min hart (MAX_CPU_NUM - 1).

(** ** Freed frames *)

Definition pop_cpu_free_frame (hart : nat) : Op (option Z) :=
  w <- op_get;;
  cache <- op_lift (FRAME_FREE_CPU_CACHES w !! frame_cpu_index hart);;
  match cache with
  | [] => op_ret None
  | (ppn, _) :: cache =>
      op_upd (fun w => with_free w (<[frame_cpu_index hart := cache]> (FRAME_FREE_CPU_CACHES w)));;;
      transition_frame_state ppn FRAME_STATE_CPU_CACHED FRAME_STATE_ALLOCATED;;;
      op_upd (fun w => add_cpu_cached w (-1));;;
      op_ret (Some ppn)
  end.

Fixpoint dealloc_all (ppns : list Z) (st : BuddyFrameAllocator) : option (unit * BuddyFrameAllocator) :=
  match ppns with
  | [] => Some (tt, st)
  | ppn :: ppns => match dealloc ppn st with Some st => dealloc_all ppns st | None => None end
  end.

Definition flush_cached_frames (ppns : list Z) : Op unit :=
  match ppns with [] => op_ret tt | _ => locked (dealloc_all ppns) end.

(** The section of [cache_deallocated_frame] under the cache lock: a full
    cache gives up its [FRAME_FREE_CACHE_FLUSH] last frames. *)
Definition push_freed (hart : nat) (ppn : Z) (site : Site) : Op (list Z) :=
  w <- op_get;;
  cache <- op_lift (FRAME_FREE_CPU_CACHES w !! frame_cpu_index hart);;
  let full := (length cache =? FRAME_FREE_CACHE_CAPACITY)%nat in
  let flushed := if full then take FRAME_FREE_CACHE_FLUSH cache else [] in
  let cache := if full then drop FRAME_FREE_CACHE_FLUSH cache else cache in
  op_lift (assert (length cache <? FRAME_FREE_CACHE_CAPACITY)%nat);;;
  op_upd (fun w => with_free w (<[frame_cpu_index hart := (ppn, site) :: cache]> (FRAME_FREE_CPU_CACHES w)));;;
  op_upd (fun w => add_cpu_cached w 1);;;
  op_upd (fun w => if negb (bool_decide (flushed = [])) then add_cpu_cached w (- Z.of_nat (length flushed)) else w);;;
  op_ret (map fst flushed).

Definition cache_deallocated_frame (hart : nat) (ppn : Z) (site : Site) : Op unit :=
  transition_frame_state ppn FRAME_STATE_ALLOCATED FRAME_STATE_CPU_CACHED;;;
  flushed <- push_freed hart ppn site;;
  flush_cached_frames flushed.

(** One turn of [drain_free_frame_caches] under the lock of cache [i]. *)
Definition take_free_cache (i : nat) : Op (list Z) :=
  w <- op_get;;
  cache <- op_lift (FRAME_FREE_CPU_CACHES w !! i);;
  op_upd (fun w => with_free w (<[i := []]> (FRAME_FREE_CPU_CACHES w)));;;
  op_upd (fun w => if negb (bool_decide (cache = [])) then add_cpu_cached w (- Z.of_nat (length cache)) else w);;;
  op_ret (map fst cache).

Fixpoint drain_free_loop (idxs : list nat) : Op unit :=
  match idxs with
  | [] => op_ret tt
  | i :: idxs => drained <- take_free_cache i;; flush_cached_frames drained;;; drain_free_loop idxs
  end.

Definition drain_free_frame_caches : Op unit := drain_free_loop (seq 0 MAX_CPU_NUM).

Definition alloc_ppn_once (hart : nat) : Op (option Z) :=
  r <- pop_cpu_free_frame hart;;
  match r with Some ppn => op_ret (Some ppn) | None => locked alloc end.

(** ** Anonymous frames *)

(** The caches in the order in which CPU [hart] looks at them. *)
Definition scan_order (hart : nat) : list nat :=
  map (fun offset => (frame_cpu_index hart + offset) mod MAX_CPU_NUM)%nat (seq 0 MAX_CPU_NUM).

Fixpoint pop_zeroed_scan (idxs : list nat) : Op (option Z) :=
  match idxs with
  | [] => op_ret None
  | i :: idxs =>
      w <- op_get;;
      cache <- op_lift (ANON_ZEROED_FRAME_CPU_CACHES w !! i);;
      match cache with
      | [] => pop_zeroed_scan idxs
      | ppn :: cache =>
          op_upd (fun w => with_zeroed w (<[i := cache]> (ANON_ZEROED_FRAME_CPU_CACHES w)));;;
          transition_frame_state ppn FRAME_STATE_ANON_ZEROED FRAME_STATE_ALLOCATED;;;
          op_upd (fun w => add_anon_zeroed w (-1));;;
          op_upd (fun w => add_anon_cached w (-1));;;
          op_ret (Some ppn)
      end
  end.

Definition pop_zeroed_anon_frame (hart : nat) : Op (option Z) :=
  w <- op_get;;
  if ANON_ZEROED_FRAME_CACHED_COUNT w =? 0 then op_ret None else pop_zeroed_scan (scan_order hart).

Fixpoint take_dirty_scan (idxs : list nat) : Op (option Z) :=
  match idxs with
  | [] => op_ret None
  | i :: idxs =>
      w <- op_get;;
      cache <- op_lift (ANON_DIRTY_FRAME_CPU_CACHES w !! i);;
      match cache with
      | [] => take_dirty_scan idxs
      | ppn :: cache =>
          op_upd (fun w => with_dirty w (<[i := cache]> (ANON_DIRTY_FRAME_CPU_CACHES w)));;;
          op_ret (Some ppn)
      end
  end.

Definition take_dirty_anon_frame (hart : nat) : Op (option Z) := take_dirty_scan (scan_order hart).

Definition pop_dirty_anon_frame (hart : nat) : Op (option Z) :=
  r <- take_dirty_anon_frame hart;;
  match r with
  | None => op_ret None
  | Some ppn => op_upd (fun w => add_anon_cached w (-1));;; op_ret (Some ppn)
  end.

Record AnonFrameAllocation := mkAnon { an_ppn : Z; an_zeroed : bool }.

(** Up to [n] frames under one acquisition of the allocator lock, the last
    one first. *)
Fixpoint refill_loop (n : nat) (acc : list Z) (st : BuddyFrameAllocator) : option (list Z * BuddyFrameAllocator) :=
  match n with
  | O => Some (acc, st)
  | S n =>
      match alloc st with
      | None => None
      | Some (None, st) => Some (acc, st)
      | Some (Some ppn, st) => refill_loop n (ppn :: acc) st
      end
  end.

Definition refill : Op (list Z) := locked (refill_loop ANON_DIRTY_FRAME_CACHE_CAPACITY []).

(** [cache.extend(&refill[..len - 1])]: frames are pushed in the order of
    allocation, and the slice must fit. *)
Definition extend_dirty (hart : nat) (ppns : list Z) : Op unit :=
  w <- op_get;;
  cache <- op_lift (ANON_DIRTY_FRAME_CPU_CACHES w !! frame_cpu_index hart);;
  op_lift (assert (length cache + length ppns <=? ANON_DIRTY_FRAME_CACHE_CAPACITY)%nat);;;
  op_upd (fun w => with_dirty w (<[frame_cpu_index hart := ppns ++ cache]> (ANON_DIRTY_FRAME_CPU_CACHES w)));;;
  op_upd (fun w => add_anon_cached w (Z.of_nat (length ppns))).

Definition alloc_profiled_ppn_once (hart : nat) : Op (option AnonFrameAllocation) :=
  r <- pop_zeroed_anon_frame hart;;
  match r with
  | Some ppn => op_ret (Some (mkAnon ppn true))
  | None =>
  r <- pop_cpu_free_frame hart;;
  match r with
  | Some ppn => op_ret (Some (mkAnon ppn false))
  | None =>
  r <- pop_dirty_anon_frame hart;;
  match r with
  | Some ppn => op_ret (Some (mkAnon ppn false))
  | None =>
  got <- refill;;
  match got with
  | [] => op_ret None
  | result :: others =>
      (if negb (bool_decide (others = [])) then extend_dirty hart others else op_ret tt);;;
      op_ret (Some (mkAnon result false))
  end end end end.

(** The choice of a frame to clear; [lock_free] is the outcome of
    [FRAME_ALLOCATOR.try_lock()]. *)
Definition prezero_take (hart : nat) (lock_free : bool) : Op (option (Z * bool)) :=
  r <- take_dirty_anon_frame hart;;
  match r with
  | Some ppn => op_ret (Some (ppn, true))
  | None =>
  r <- pop_cpu_free_frame hart;;
  match r with
  | Some ppn => op_ret (Some (ppn, false))
  | None =>
      if negb lock_free then op_ret None
      else r <- locked alloc;; op_ret (option_map (fun ppn => (ppn, false)) r)
  end end.

Definition publish_zeroed (hart : nat) (ppn : Z) : Op unit :=
  w <- op_get;;
  cache <- op_lift (ANON_ZEROED_FRAME_CPU_CACHES w !! frame_cpu_index hart);;
  op_lift (assert (length cache <? ANON_ZEROED_FRAME_CACHE_CAPACITY)%nat);;;
  op_upd (fun w => with_zeroed w (<[frame_cpu_index hart := ppn :: cache]> (ANON_ZEROED_FRAME_CPU_CACHES w))).

Definition prezero_one_anon_frame_on_idle (hart : nat) (lock_free : bool) : Op bool :=
  w <- op_get;;
  if bool_decide (FRAME_STATE_INDEX w = []) then op_ret false
  else
    cache <- op_lift (ANON_ZEROED_FRAME_CPU_CACHES w !! frame_cpu_index hart);;
    if (ANON_ZEROED_FRAME_CACHE_CAPACITY <=? length cache)%nat then op_ret false
    else
      r <- prezero_take hart lock_free;;
      match r with
      | None => op_ret false
      | Some (ppn, already_anon_cached) =>
          clear_page ppn;;;
          transition_frame_state ppn FRAME_STATE_ALLOCATED FRAME_STATE_ANON_ZEROED;;;
          publish_zeroed hart ppn;;;
          op_upd (fun w => if negb already_anon_cached then add_anon_cached w 1 else w);;;
          op_upd (fun w => add_anon_zeroed w 1);;;
          op_ret true
      end.

Definition take_dirty_cache (i : nat) : Op (list Z) :=
  w <- op_get;;
  cache <- op_lift (ANON_DIRTY_FRAME_CPU_CACHES w !! i);;
  op_upd (fun w => with_dirty w (<[i := []]> (ANON_DIRTY_FRAME_CPU_CACHES w)));;;
  op_upd (fun w => if negb (bool_decide (cache = [])) then add_anon_cached w (- Z.of_nat (length cache)) else w);;;
  op_ret cache.

Fixpoint unzero_all (ppns : list Z) : Op unit :=
  match ppns with
  | [] => op_ret tt
  | ppn :: ppns => transition_frame_state ppn FRAME_STATE_ANON_ZEROED FRAME_STATE_ALLOCATED;;; unzero_all ppns
  end.

Definition take_zeroed_cache (i : nat) : Op (list Z) :=
  w <- op_get;;
  cache <- op_lift (ANON_ZEROED_FRAME_CPU_CACHES w !! i);;
  op_upd (fun w => with_zeroed w (<[i := []]> (ANON_ZEROED_FRAME_CPU_CACHES w)));;;
  unzero_all cache;;;
  op_upd (fun w => if negb (bool_decide (cache = []))
                   then add_anon_cached (add_anon_zeroed w (- Z.of_nat (length cache))) (- Z.of_nat (length cache)) else w);;;
  op_ret cache.

Fixpoint drain_anon_loop (take_cache : nat -> Op (list Z)) (idxs : list nat) : Op unit :=
  match idxs with
  | [] => op_ret tt
  | i :: idxs => drained <- take_cache i;; flush_cached_frames drained;;; drain_anon_loop take_cache idxs
  end.

Definition drain_anon_frame_caches : Op unit :=
  drain_anon_loop take_dirty_cache (seq 0 MAX_CPU_NUM);;;
  drain_anon_loop take_zeroed_cache (seq 0 MAX_CPU_NUM).

(** ** The allocation interface

    [try_reclaim] is [mm::reclaim::try_reclaim_for_allocation], which works on the
    page cache; nothing is assumed of it. *)

Section Interface.
Context (try_reclaim : Z -> Op unit).

(** The three attempts that every allocation path makes. *)
Definition with_reclaim {A} (once : Op (option A)) (pages : Z) : Op (option A) :=
  r <- once;;
  match r with
  | Some x => op_ret (Some x)
  | None =>
      drain_free_frame_caches;;; drain_anon_frame_caches;;;
      r <- once;;
      match r with
      | Some x => op_ret (Some x)
      | None => try_reclaim pages;;; once
      end
  end.

Definition alloc_ppn_with_reclaim (hart : nat) : Op (option Z) :=
  r <- with_reclaim (alloc_ppn_once hart) 1;;
  match r with
  | None => op_ret None
  | Some ppn => op_upd (fun w => add_alloc_count w 1);;; op_ret (Some ppn)
  end.

Definition alloc_profiled_ppn_with_reclaim (hart : nat) : Op (option AnonFrameAllocation) :=
  r <- with_reclaim (alloc_profiled_ppn_once hart) 1;;
  match r with
  | None => op_ret None
  | Some a => op_upd (fun w => add_alloc_count w 1);;; op_ret (Some a)
  end.

(** [FrameTracker::new] clears the page. *)
Definition frame_alloc (hart : nat) : Op (option Z) :=
  r <- alloc_ppn_with_reclaim hart;;
  match r with
  | None => op_ret None
  | Some ppn => clear_page ppn;;; op_ret (Some ppn)
  end.

Definition frame_alloc_copy_from (hart : nat) (source : bytes) : Op (option Z) :=
  op_lift (assert (Z.of_nat (length source) <=? PAGE_SIZE));;;
  r <- alloc_ppn_with_reclaim hart;;
  match r with
  | None => op_ret None
  | Some ppn =>
      write_page ppn (source ++ replicate (Z.to_nat PAGE_SIZE - length source) 0);;;
      op_ret (Some ppn)
  end.

Definition frame_alloc_profiled (hart : nat) : Op (option Z) :=
  r <- alloc_profiled_ppn_with_reclaim hart;;
  match r with
  | None => op_ret None
  | Some a =>
      (if an_zeroed a then op_ret tt else clear_page (an_ppn a));;;
      op_ret (Some (an_ppn a))
  end.

Fixpoint clear_pages (ppns : list Z) : Op unit :=
  match ppns with [] => op_ret tt | ppn :: ppns => clear_page ppn;;; clear_pages ppns end.

Definition frame_alloc_contiguous (pages : Z) : Op (option (list Z)) :=
  r <- with_reclaim (locked (alloc_contiguous pages 1)) pages;;
  match r with
  | None => op_ret None
  | Some extent =>
      op_upd (fun w => add_alloc_count w (ex_pages extent));;;
      let ppns := seqZ (ex_start extent) (ex_pages extent) in
      clear_pages ppns;;; op_ret (Some ppns)
  end.

End Interface.

(** [usize::saturating_add]. *)
Definition saturating_add (a b : Z) : Z := Z.min (a + b) (2 ^ 64 - 1).

Definition cached_pages (w : Frames) : Z :=
  saturating_add (FRAME_CPU_CACHED_COUNT w) (ANON_FRAME_CACHED_COUNT w).

Definition frame_alloc_heap_extent (pages align_pages min_free_pages : Z) : Op (option FrameExtent) :=
  w <- op_get;;
  if saturating_sub (saturating_add (free_pages (FRAME_ALLOCATOR w)) (cached_pages w)) pages <? min_free_pages
  then op_ret None
  else
    r <- locked (alloc_contiguous pages align_pages);;
    r <- match r with
         | Some extent => op_ret (Some extent)
         | None =>
             drain_free_frame_caches;;; drain_anon_frame_caches;;;
             w <- op_get;;
             if saturating_sub (free_pages (FRAME_ALLOCATOR w)) pages <? min_free_pages then op_ret None
             else locked (alloc_contiguous pages align_pages)
         end;;
    match r with
    | None => op_ret None
    | Some extent => op_upd (fun w => add_alloc_count w (ex_pages extent));;; op_ret (Some extent)
    end.

Definition frame_dealloc_with_site (hart : nat) (ppn : Z) (site : Site) : Op unit :=
  cache_deallocated_frame hart ppn site;;;
  op_upd (fun w => add_free_count w 1).

Definition get_total_memory (w : Frames) : Z := usize (total_pages (FRAME_ALLOCATOR w) * PAGE_SIZE).

Definition get_free_memory (w : Frames) : Z :=
  usize (saturating_add (free_pages (FRAME_ALLOCATOR w)) (cached_pages w) * PAGE_SIZE).

Record FrameStats := mkStats {
  st_alloc_count : Z; st_free_count : Z; st_allocated_delta : Z; st_free_pages : Z;
  st_used_pages : Z; st_fresh_free_pages : Z; st_recycled_pages : Z; st_total_pages : Z }.

Definition frame_stats (w : Frames) : FrameStats :=
  let st := FRAME_ALLOCATOR w in
  let free := saturating_add (free_pages st) (cached_pages w) in
  mkStats (FRAME_ALLOC_COUNT w) (FRAME_FREE_COUNT w)
    (saturating_sub (FRAME_ALLOC_COUNT w) (FRAME_FREE_COUNT w))
    free (saturating_sub (total_pages st) free) (fresh_free_pages st)
    (saturating_add (recycled_pages st) (cached_pages w)) (total_pages st).

(** Boot: the statics, then [init_frame_allocator]. *)
Definition frames_boot (areas : list (Z * Z)) (m : gmap Z BuddyNode) (b : gmap Z bytes) : option Frames :=
  match init_frame_allocator areas (new_allocator m) with
  | None => None
  | Some st =>
      let empty := mkFrames st [] b (replicate MAX_CPU_NUM []) (replicate MAX_CPU_NUM []) (replicate MAX_CPU_NUM []) 0 0 0 0 0 in
      match publish_frame_state_index empty with Some (_, w) => Some w | None => None end
  end.

End Caches.
