(* ===== verification/FrameTok.v ===== *)
(** * Physical frames: holders

    A token [(q, k)] says that frame [q] is held, and how: by an owner, in a
    cache of freed, of reserved or of cleared frames, or in flight inside an
    operation.  [Tok w h] says that [h] are the holders of exactly the frames
    that the buddy allocator has handed out.  The lemmas give the effect of
    every atomic operation on the tokens. *)

From S2P Require Import Prelude FrameAlloc FrameInv FrameOps FrameCache.

Inductive kind := KOwn | KCached | KDirty | KZero.

#[export] Instance kind_eq_dec : EqDecision kind.
Proof. solve_decision. Defined.

Definition kstate (k : kind) : Z :=
  match k with
  | KOwn | KDirty => FRAME_STATE_ALLOCATED
  | KCached => FRAME_STATE_CPU_CACHED
  | KZero => FRAME_STATE_ANON_ZEROED
  end.

Lemma kstate_owned k : owned_state (kstate k).
Proof. unfold owned_state. destruct k; simpl; auto. Qed.

(** Contents of a frame. *)
Definition page (w : Frames) (q : Z) : BuddyNode * bytes := (links (FRAME_ALLOCATOR w) !!! q, body w !!! q).
Definition zero_page : BuddyNode * bytes := (zero_node, zero_body).

Record Tok (w : Frames) (h : list (Z * kind)) : Prop := {
  t_inv : exists fl, Inv (FRAME_ALLOCATOR w) fl nowhere /\
    free_total (FRAME_ALLOCATOR w) fl + Z.of_nat (length h) = total_sum (ranges (FRAME_ALLOCATOR w));
  t_total : total_sum (ranges (FRAME_ALLOCATOR w)) < 2 ^ 60;
  t_nodup : NoDup (map fst h);
  t_used : forall q, q ∈ map fst h <-> used (FRAME_ALLOCATOR w) q;
  t_kind : forall q k, (q, k) ∈ h ->
    frame_state (FRAME_ALLOCATOR w) q = Some (kstate k) /\ (k = KZero -> page w q = zero_page);
  t_index : FRAME_STATE_INDEX w = map region (ranges (FRAME_ALLOCATOR w)) }.

#[export] Instance Tok_perm w : Proper (Permutation ==> iff) (Tok w).
Proof.
  intros h h' E. assert (Hm : map fst h ≡ₚ map fst h') by (by rewrite E).
  split; intros [(fl & I & C) T N U K X]; split; try done.
  - exists fl. by rewrite <- E.
  - by rewrite <- Hm.
  - intros q. by rewrite <- Hm.
  - intros q k. rewrite <- E. apply K.
  - exists fl. by rewrite E.
  - by rewrite Hm.
  - intros q. by rewrite Hm.
  - intros q k. rewrite E. apply K.
Qed.

(** Tokens do not depend on caches and counters. *)
Lemma Tok_same w w' h : FRAME_ALLOCATOR w' = FRAME_ALLOCATOR w -> FRAME_STATE_INDEX w' = FRAME_STATE_INDEX w ->
  body w' = body w -> Tok w h -> Tok w' h.
Proof.
  intros E1 E2 E3 [I T N U K X]. split; rewrite ?E1, ?E2; try done.
  intros q k Hq. unfold page. rewrite E1, E3. by apply K.
Qed.

Lemma Tok_in w h q k : Tok w h -> (q, k) ∈ h -> used (FRAME_ALLOCATOR w) q.
Proof. intros T Hq. apply (t_used _ _ T). by apply (list_elem_of_fmap_2' fst h (q, k)). Qed.

(** Same holder, other purpose. *)
Lemma Tok_retag w q k k' h : kstate k' = kstate k -> k' <> KZero -> Tok w ((q, k) :: h) -> Tok w ((q, k') :: h).
Proof.
  intros E Hz [I T N U K X]. split; try done. intros x kx [[= -> ->]|Hx]%elem_of_cons.
  - split; [|done]. rewrite E. apply (K q k). left.
  - apply K. by right.
Qed.

(** ** State bytes *)

Lemma lock_free_index w q : FRAME_STATE_INDEX w = map region (ranges (FRAME_ALLOCATOR w)) ->
  lock_free_frame_state w q = frame_state_index (FRAME_ALLOCATOR w) q.
Proof.
  intros E. unfold lock_free_frame_state, frame_state_index, range_for_ppn. rewrite E. clear E.
  induction (ranges (FRAME_ALLOCATOR w)) as [|r rs IH]; simpl; [done|]. by destruct (_ && _).
Qed.

Lemma transition_code w p from to : FRAME_STATE_INDEX w = map region (ranges (FRAME_ALLOCATOR w)) ->
  frame_state (FRAME_ALLOCATOR w) p = Some from ->
  transition_frame_state p from to w =
  match set_frame_state p to (FRAME_ALLOCATOR w) with Some st => Some (tt, with_allocator w st) | None => None end.
Proof.
  intros E Hs. unfold transition_frame_state, set_frame_state. rewrite lock_free_index by done.
  unfold frame_state in Hs. destruct (frame_state_index _ p) as [i|]; [|done]. cbn [mbind option_bind] in *.
  rewrite Hs, bool_decide_true by done. done.
Qed.

(** A used frame changes its kind of holder. *)
Lemma Inv_retag st fl p v' l : Inv st fl nowhere -> used st p -> owned_state v' ->
  length l = length (frame_states st) ->
  (forall q, frame_state (set_states st l) q = if decide (q = p) then Some v' else frame_state st q) ->
  Inv (set_states st l) fl nowhere.
Proof.
  intros [HL B HC] (r & v & Hr & Hp & Hv & Es) Hv' Hlen HS. split; [done| |done].
  pose proof (b_ranges _ _ _ B) as Hw.
  assert (Hne : forall q x, frame_state st q = Some x -> ~ owned_state x -> q <> p)
    by (intros q x E Hx ->; rewrite E in Es; by injection Es as ->).
  assert (Hint : ~ owned_state FRAME_STATE_FREE_INTERIOR) by (intros Hx; by apply owned_not_interior in Hx).
  split; try apply B.
  - by apply wf_ranges_states.
  - intros o q. rewrite (b_head _ _ _ B), HS. case_decide as Hd; [subst q|done]. rewrite Es.
    split; intros [Ho [= E]]; exfalso; [by apply (owned_not_free v o)|by apply (owned_not_free v' o)].
  - intros o x q Hx Hq. pose proof (b_interior _ _ _ B o x q Hx Hq) as E. rewrite HS, decide_False; [done|].
    by apply (Hne q _ E).
  - intros q. rewrite HS. case_decide; [intros [= E]; by rewrite E in Hv'|]. apply (b_free _ _ _ B).
  - done.
  - intros r' q Hr' Hq. rewrite HS, decide_False; [by apply (b_fresh _ _ _ B r')|]. intros ->.
    by apply (fresh_not_started st r' r p Hw).
  - intros q x. rewrite HS. case_decide; [intros [= <-]; auto|apply (b_values _ _ _ B)].
Qed.

Lemma Tok_transition w p k k' h : Tok w ((p, k) :: h) -> (k' = KZero -> page w p = zero_page) ->
  exists st', transition_frame_state p (kstate k) (kstate k') w = Some (tt, with_allocator w st') /\
    links st' = links (FRAME_ALLOCATOR w) /\ Tok (with_allocator w st') ((p, k') :: h).
Proof.
  intros T Hz. pose proof T as [(fl & I & C) Ht Hnd Hu Hk Hx].
  destruct (Hk p k ltac:(left)) as [Es _]. pose proof (Tok_in w _ p k T ltac:(left)) as Hup.
  pose proof Hup as (r & v & Hr & Hp & _).
  pose proof (b_ranges _ _ _ (i_blocks _ _ _ I)) as Hw. pose proof (range_lookup _ r Hw Hr) as (_ & ? & _).
  destruct (set_frame_state_spec _ r p (kstate k') Hw Hr) as (l & El & Hlen & HS); [unfold in_range; lia|].
  rewrite (transition_code w p (kstate k) (kstate k') Hx Es), El.
  eexists. split; [reflexivity|]. split; [done|].
  assert (Huse : forall q, used (set_states (FRAME_ALLOCATOR w) l) q <-> used (FRAME_ALLOCATOR w) q).
  { intros q. unfold used. split; intros (r' & v' & Hr' & Hq & Hv' & E); exists r'.
    - rewrite HS in E. case_decide; [subst q; exists (kstate k)|exists v']; split_and!; try done; try apply Hq; apply kstate_owned.
    - exists (if decide (q = p) then kstate k' else v'). rewrite HS.
      case_decide; split_and!; try done; try apply Hq; apply kstate_owned. }
  split; cbn [FRAME_ALLOCATOR with_allocator].
  - exists fl. split; [|exact C]. by apply (Inv_retag _ fl p (kstate k')); [..|apply kstate_owned|done|].
  - done.
  - done.
  - intros q. rewrite Huse. apply Hu.
  - intros q kq [[= -> ->]|Hq]%elem_of_cons.
    + rewrite HS, decide_True by done. split; [done|exact Hz].
    + rewrite HS, decide_False; [apply Hk; by right|]. intros ->. simpl in Hnd. apply NoDup_cons in Hnd as [Hnd _].
      apply Hnd. by apply (list_elem_of_fmap_2' fst h (p, kq)).
  - done.
Qed.

(** ** Taking and returning frames *)

(** Every held frame keeps its contents. *)
Definition calm (h : list (Z * kind)) (w w' : Frames) : Prop := forall q k, (q, k) ∈ h -> page w' q = page w q.

Lemma Tok_moves w h st' fl fl' new : Tok w h -> Inv (FRAME_ALLOCATOR w) fl nowhere -> Inv st' fl' nowhere ->
  free_total (FRAME_ALLOCATOR w) fl + Z.of_nat (length h) = total_sum (ranges (FRAME_ALLOCATOR w)) ->
  moves (FRAME_ALLOCATOR w) st' (fun q => q ∈ new) nowhere -> NoDup new ->
  count_moved (FRAME_ALLOCATOR w) st' fl fl' (- Z.of_nat (length new)) ->
  Tok (with_allocator w st') (map (fun q => (q, KOwn)) new ++ h) /\ calm h w (with_allocator w st') /\
  forall q, q ∈ new -> q ∉ map fst h.
Proof.
  intros T I I' C M Hnew Cm. pose proof T as [_ Ht Hnd Hu Hk Hx].
  pose proof (mv_total _ _ _ _ M) as Et. pose proof (mv_regions _ _ _ _ M) as Er. destruct M as [_ Mm U N F].
  assert (Hfst : map fst (map (fun q => (q, KOwn)) new) = new) by (rewrite map_map; apply map_id).
  assert (Hdis : forall q, q ∈ new -> q ∉ map fst h).
  { intros q Hq Hh. apply Hu in Hh. by destruct (N q Hq) as (_ & ? & _). }
  assert (Hpage : forall q k, (q, k) ∈ h -> frame_state st' q = frame_state (FRAME_ALLOCATOR w) q /\
    page (with_allocator w st') q = page w q).
  { intros q k Hq. destruct (F q (Tok_in w h q k T Hq) ltac:(auto)) as [E1 E2]. split; [done|].
    unfold page. simpl. by rewrite E2. }
  split; [|split; [|done]].
  2: { intros q k Hq. by apply (Hpage q k). }
  split; cbn [FRAME_ALLOCATOR with_allocator FRAME_STATE_INDEX].
  - exists fl'. split; [done|]. unfold count_moved in Cm. rewrite Cm, Et, length_app, length_map. lia.
  - by rewrite Et.
  - rewrite map_app, Hfst. apply NoDup_app. split; [done|]. split; done.
  - intros q. rewrite map_app, Hfst, elem_of_app, U, Hu. tauto.
  - intros q k [Hq|Hq]%elem_of_app.
    + apply list_elem_of_fmap in Hq as (x & [= -> ->] & Hx'). split; [by apply N|done].
    + destruct (Hpage q k Hq) as [-> ->]. by apply Hk.
  - by rewrite Er, Hx.
Qed.

Lemma Tok_alloc w h : Tok w h ->
  (locked alloc w = Some (None, w) /\ forall q, managed (FRAME_ALLOCATOR w) q -> q ∈ map fst h) \/
  exists p st', locked alloc w = Some (Some p, with_allocator w st') /\
    Tok (with_allocator w st') ((p, KOwn) :: h) /\ calm h w (with_allocator w st') /\ p ∉ map fst h.
Proof.
  intros T. pose proof T as [(fl & I & C) Ht Hnd Hu Hk Hx]. unfold locked.
  destruct (alloc_spec _ fl I) as [[E Hall]|(p & st' & fl' & E & I' & M & Cm)]; rewrite E.
  - left. split; [by destruct w|]. intros q Hq. by apply Hu, Hall.
  - right. exists p, st'. split; [done|].
    destruct (Tok_moves w h st' fl fl' [p] T I I' C) as (T' & Hc & Hd).
    + destruct M as [R M U N F]. split; try done.
      * intros q. by rewrite U, list_elem_of_singleton.
      * intros q ->%list_elem_of_singleton. by apply N.
    + apply NoDup_singleton.
    + done.
    + split; [done|]. split; [done|]. apply Hd. by apply list_elem_of_singleton.
Qed.

Lemma Tok_contiguous w h pages align : Tok w h -> 0 <= pages ->
  locked (alloc_contiguous pages align) w = Some (None, w) \/
  exists s st', locked (alloc_contiguous pages align) w = Some (Some (mkExtent s pages), with_allocator w st') /\
    Tok (with_allocator w st') (map (fun q => (q, KOwn)) (seqZ s pages) ++ h) /\ calm h w (with_allocator w st') /\
    forall q, q ∈ seqZ s pages -> q ∉ map fst h.
Proof.
  intros T Hp. pose proof T as [(fl & I & C) Ht Hnd Hu Hk Hx]. unfold locked.
  destruct (alloc_contiguous_spec _ fl pages align I Hp) as [[E _]|(s & st' & fl' & E & I' & _ & _ & M & Cm)]; rewrite E.
  - left. by destruct w.
  - right. exists s, st'. split; [done|]. apply (Tok_moves w h st' fl fl' (seqZ s pages) T I I' C).
    + destruct M as [R M U N F]. split; try done.
      * intros q. by rewrite U, elem_of_seqZ.
      * intros q Hq. apply N. by apply elem_of_seqZ.
    + apply NoDup_seqZ.
    + by rewrite length_seqZ, Z2Nat.id.
Qed.

Lemma Tok_dealloc w p k h : Tok w ((p, k) :: h) -> k <> KZero ->
  exists st', dealloc p (FRAME_ALLOCATOR w) = Some st' /\ Tok (with_allocator w st') h /\
    calm h w (with_allocator w st').
Proof.
  intros T Hz. pose proof T as [(fl & I & C) Ht Hnd Hu Hk Hx].
  destruct (Hk p k ltac:(left)) as [Es _]. pose proof (Tok_in w _ p k T ltac:(left)) as (r & v & Hr & Hp & _).
  destruct (dealloc_spec _ fl p r I Hr Hp) as (st' & fl' & E & I' & M & Cm).
  { rewrite Es. destruct k; simpl; auto. done. }
  exists st'. split; [done|]. simpl in Hnd. apply NoDup_cons in Hnd as [Hn Hnd].
  pose proof (mv_total _ _ _ _ M) as Et. pose proof (mv_regions _ _ _ _ M) as Er. destruct M as [_ Mm U N F].
  assert (Hne : forall q kq, (q, kq) ∈ h -> q <> p).
  { intros q kq Hq ->. apply Hn. by apply (list_elem_of_fmap_2' fst h (p, kq)). }
  assert (Hpage : forall q kq, (q, kq) ∈ h -> frame_state st' q = frame_state (FRAME_ALLOCATOR w) q /\
    page (with_allocator w st') q = page w q).
  { intros q kq Hq. destruct (F q) as [E1 E2].
    - apply (Tok_in w _ q kq T). by right.
    - by apply (Hne q kq).
    - split; [done|]. unfold page. simpl. by rewrite E2. }
  split.
  2: { intros q kq Hq. by apply (Hpage q kq). }
  split; cbn [FRAME_ALLOCATOR with_allocator FRAME_STATE_INDEX].
  - exists fl'. split; [done|]. unfold count_moved in Cm. cbn [length] in C. rewrite Cm, Et. lia.
  - by rewrite Et.
  - done.
  - intros q. rewrite U, <- Hu. cbn [map]. rewrite elem_of_cons. cbn [fst]. split.
    + intros Hq. left. split; [by right|]. intros ->. done.
    + intros [[[?|?] ?]|?]; done.
  - intros q kq Hq. destruct (Hpage q kq Hq) as [-> ->]. apply Hk. by right.
  - by rewrite Er, Hx.
Qed.

(** ** Page contents *)

Definition with_page (w : Frames) (p : Z) (n : BuddyNode) (b : bytes) : Frames :=
  let st := FRAME_ALLOCATOR w in with_body (with_allocator w (set_links st (<[p := n]> (links st)))) (<[p := b]> (body w)).

Lemma page_write w p n b q : page (with_page w p n b) q = if decide (q = p) then (n, b) else page w q.
Proof.
  unfold page, with_page. simpl. case_decide; [subst; by rewrite !lookup_total_insert_eq|].
  by rewrite !lookup_total_insert_ne.
Qed.

Lemma Tok_write w p k h n b : Tok w ((p, k) :: h) -> k <> KZero -> Tok (with_page w p n b) ((p, k) :: h).
Proof.
  intros T Hz. pose proof T as [(fl & I & C) Ht Hnd Hu Hk Hx]. split; try done.
  - exists fl. split; [|exact C]. apply Inv_write; [done|]. apply (Tok_in w _ p k T). left.
  - intros q kq Hq. destruct (Hk q kq Hq) as [E1 E2]. split; [exact E1|]. intros Ez. rewrite page_write.
    rewrite decide_False; [by apply E2|]. intros ->. simpl in Hnd. apply NoDup_cons in Hnd as [Hn _].
    apply elem_of_cons in Hq as [[= ->]|Hq]; [done|]. apply Hn. by apply (list_elem_of_fmap_2' fst h (p, kq)).
Qed.
