(* ===== verification/FrameCacheInv.v ===== *)
(** * Physical frames: the caches

    The invariant [W] of the per-CPU caches and the effect of every lock
    section on it.  [own] are the frames of owners, [fly] the frames that
    running operations hold; [a] and [z] are the amounts by which the two
    anonymous-frame counters run ahead of the caches inside an operation. *)

From stdpp Require Import list_tactics.
From S2P Require Import Prelude FrameAlloc FrameInv FrameOps FrameCache FrameTok.

Definition toks (k : kind) (l : list Z) : list (Z * kind) := map (fun q => (q, k)) l.

Definition holders (w : Frames) (own : list Z) : list (Z * kind) :=
  toks KOwn own ++ toks KCached (map fst (concat (FRAME_FREE_CPU_CACHES w))) ++
  toks KDirty (concat (ANON_DIRTY_FRAME_CPU_CACHES w)) ++ toks KZero (concat (ANON_ZEROED_FRAME_CPU_CACHES w)).

Abbreviation size l := (Z.of_nat (length (concat l))).

Record W (n : nat) (own : list Z) (fly : list (Z * kind)) (a z : Z) (w : Frames) : Prop := {
  w_free_n : length (FRAME_FREE_CPU_CACHES w) = n;
  w_dirty_n : length (ANON_DIRTY_FRAME_CPU_CACHES w) = n;
  w_zeroed_n : length (ANON_ZEROED_FRAME_CPU_CACHES w) = n;
  w_free_cap : Forall (fun c => length c <= FRAME_FREE_CACHE_CAPACITY)%nat (FRAME_FREE_CPU_CACHES w);
  w_dirty_cap : Forall (fun c => length c <= ANON_DIRTY_FRAME_CACHE_CAPACITY)%nat (ANON_DIRTY_FRAME_CPU_CACHES w);
  w_zeroed_cap : Forall (fun c => length c <= ANON_ZEROED_FRAME_CACHE_CAPACITY)%nat (ANON_ZEROED_FRAME_CPU_CACHES w);
  w_cpu : FRAME_CPU_CACHED_COUNT w = usize (size (FRAME_FREE_CPU_CACHES w));
  w_anon : ANON_FRAME_CACHED_COUNT w =
    usize (size (ANON_DIRTY_FRAME_CPU_CACHES w) + size (ANON_ZEROED_FRAME_CPU_CACHES w) + a);
  w_zeroed : ANON_ZEROED_FRAME_CACHED_COUNT w = usize (size (ANON_ZEROED_FRAME_CPU_CACHES w) + z);
  w_tok : Tok w (fly ++ holders w own) }.

(** ** Caches as part of their concatenation *)

Lemma concat_delete {A} (L : list (list A)) i l0 : L !! i = Some l0 -> concat L ≡ₚ l0 ++ concat (delete i L).
Proof.
  revert i. induction L as [|x L IH]; intros [|i]; simpl; try done.
  - by intros [= ->].
  - intros H. rewrite (IH i H). solve_Permutation.
Qed.

Lemma concat_insert {A} (L : list (list A)) i l0 l : L !! i = Some l0 -> concat (<[i := l]> L) ≡ₚ l ++ concat (delete i L).
Proof.
  revert i. induction L as [|x L IH]; intros [|i]; simpl; try done. intros H. rewrite (IH i H). solve_Permutation.
Qed.

Lemma size_insert {A} (L : list (list A)) i l0 l : L !! i = Some l0 ->
  size (<[i := l]> L) = size L + Z.of_nat (length l) - Z.of_nat (length l0).
Proof.
  intros H. rewrite (concat_insert L i l0 l H), (concat_delete L i l0 H) at 1.
  rewrite !length_app. lia.
Qed.

Lemma toks_app k l1 l2 : toks k (l1 ++ l2) = toks k l1 ++ toks k l2.
Proof. apply map_app. Qed.

Lemma toks_perm k l1 l2 : l1 ≡ₚ l2 -> toks k l1 ≡ₚ toks k l2.
Proof. intros H. unfold toks. by rewrite H. Qed.

Lemma cap_insert {A} (L : list (list A)) i l c : Forall (fun x => length x <= c)%nat L -> (length l <= c)%nat ->
  Forall (fun x => length x <= c)%nat (<[i := l]> L).
Proof. intros. by apply Forall_insert. Qed.

Lemma cap_lookup {A} (L : list (list A)) i l c : Forall (fun x => length x <= c)%nat L -> L !! i = Some l -> (length l <= c)%nat.
Proof. intros H Hi. by apply (Forall_lookup_1 _ _ _ _ H Hi). Qed.

(** The tokens of one cache, taken out of the holders. *)
Lemma holders_free w own i c0 c : FRAME_FREE_CPU_CACHES w !! i = Some c0 ->
  exists rest, holders w own ≡ₚ toks KCached (map fst c0) ++ rest /\
    holders (with_free w (<[i := c]> (FRAME_FREE_CPU_CACHES w))) own ≡ₚ toks KCached (map fst c) ++ rest.
Proof.
  intros H. exists (toks KOwn own ++ toks KCached (map fst (concat (delete i (FRAME_FREE_CPU_CACHES w)))) ++
    toks KDirty (concat (ANON_DIRTY_FRAME_CPU_CACHES w)) ++ toks KZero (concat (ANON_ZEROED_FRAME_CPU_CACHES w))).
  unfold holders. simpl. split.
  - rewrite (toks_perm KCached _ (map fst c0 ++ map fst (concat (delete i (FRAME_FREE_CPU_CACHES w))))), toks_app.
    + solve_Permutation.
    + by rewrite (concat_delete _ i c0 H), map_app.
  - rewrite (toks_perm KCached _ (map fst c ++ map fst (concat (delete i (FRAME_FREE_CPU_CACHES w))))), toks_app.
    + solve_Permutation.
    + by rewrite (concat_insert _ i c0 c H), map_app.
Qed.

Lemma holders_dirty w own i c0 c : ANON_DIRTY_FRAME_CPU_CACHES w !! i = Some c0 ->
  exists rest, holders w own ≡ₚ toks KDirty c0 ++ rest /\
    holders (with_dirty w (<[i := c]> (ANON_DIRTY_FRAME_CPU_CACHES w))) own ≡ₚ toks KDirty c ++ rest.
Proof.
  intros H. exists (toks KOwn own ++ toks KCached (map fst (concat (FRAME_FREE_CPU_CACHES w))) ++
    toks KDirty (concat (delete i (ANON_DIRTY_FRAME_CPU_CACHES w))) ++ toks KZero (concat (ANON_ZEROED_FRAME_CPU_CACHES w))).
  unfold holders. simpl. split.
  - rewrite (toks_perm KDirty _ _ (concat_delete _ i c0 H)), toks_app. solve_Permutation.
  - rewrite (toks_perm KDirty _ _ (concat_insert _ i c0 c H)), toks_app. solve_Permutation.
Qed.

Lemma holders_zeroed w own i c0 c : ANON_ZEROED_FRAME_CPU_CACHES w !! i = Some c0 ->
  exists rest, holders w own ≡ₚ toks KZero c0 ++ rest /\
    holders (with_zeroed w (<[i := c]> (ANON_ZEROED_FRAME_CPU_CACHES w))) own ≡ₚ toks KZero c ++ rest.
Proof.
  intros H. exists (toks KOwn own ++ toks KCached (map fst (concat (FRAME_FREE_CPU_CACHES w))) ++
    toks KDirty (concat (ANON_DIRTY_FRAME_CPU_CACHES w)) ++ toks KZero (concat (delete i (ANON_ZEROED_FRAME_CPU_CACHES w)))).
  unfold holders. simpl. split.
  - rewrite (toks_perm KZero _ _ (concat_delete _ i c0 H)), toks_app. solve_Permutation.
  - rewrite (toks_perm KZero _ _ (concat_insert _ i c0 c H)), toks_app. solve_Permutation.
Qed.

(** ** Lock sections *)

Section Sections.
Context (n : nat) (Hn : (0 < n)%nat).

Abbreviation idx hart := (frame_cpu_index n hart).

Lemma idx_lt hart : (idx hart < n)%nat.
Proof. unfold frame_cpu_index. lia. Qed.

Lemma free_lookup own fly a z w i : W n own fly a z w -> (i < n)%nat -> exists c, FRAME_FREE_CPU_CACHES w !! i = Some c.
Proof. intros H Hi. apply lookup_lt_is_Some. by rewrite (w_free_n _ _ _ _ _ _ H). Qed.

Lemma dirty_lookup own fly a z w i : W n own fly a z w -> (i < n)%nat -> exists c, ANON_DIRTY_FRAME_CPU_CACHES w !! i = Some c.
Proof. intros H Hi. apply lookup_lt_is_Some. by rewrite (w_dirty_n _ _ _ _ _ _ H). Qed.

Lemma zeroed_lookup own fly a z w i : W n own fly a z w -> (i < n)%nat -> exists c, ANON_ZEROED_FRAME_CPU_CACHES w !! i = Some c.
Proof. intros H Hi. apply lookup_lt_is_Some. by rewrite (w_zeroed_n _ _ _ _ _ _ H). Qed.

(** Replacing the allocator: caches and counters stay. *)
Lemma W_allocator own fly fly' a z w st : W n own fly a z w ->
  Tok (with_allocator w st) (fly' ++ holders w own) -> W n own fly' a z (with_allocator w st).
Proof. intros [] T. by split. Qed.

Lemma W_perm own fly fly' a z w : fly ≡ₚ fly' -> W n own fly a z w -> W n own fly' a z w.
Proof. intros E []. split; try done. by rewrite <- E. Qed.

(** Owners come and go. *)
Lemma W_own own fly a z w p : W n own ((p, KOwn) :: fly) a z w <-> W n (p :: own) fly a z w.
Proof.
  assert (E : ((p, KOwn) :: fly) ++ holders w own ≡ₚ fly ++ holders w (p :: own)) by (unfold holders; simpl; solve_Permutation).
  split; intros []; split; try done; [by rewrite <- E|by rewrite E].
Qed.

Lemma W_own_perm own own' fly a z w : own ≡ₚ own' -> W n own fly a z w -> W n own' fly a z w.
Proof.
  intros E HW. assert (Eh : holders w own ≡ₚ holders w own') by (unfold holders; by rewrite (toks_perm KOwn _ _ E)).
  destruct HW. split; try done. by rewrite <- Eh.
Qed.

Lemma W_owns own fly a z w l : W n own (toks KOwn l ++ fly) a z w <-> W n (l ++ own) fly a z w.
Proof.
  assert (E : (toks KOwn l ++ fly) ++ holders w own ≡ₚ fly ++ holders w (l ++ own))
    by (unfold holders; rewrite toks_app; solve_Permutation).
  split; intros []; split; try done; [by rewrite <- E|by rewrite E].
Qed.

Lemma holders_calm h own w w' q : calm (h ++ holders w own) w w' -> q ∈ own -> page w' q = page w q.
Proof.
  intros H Hq. apply (H q KOwn). apply elem_of_app. right. unfold holders. apply elem_of_app. left.
  apply list_elem_of_fmap. by exists q.
Qed.

(** [a] and [z] follow the counters. *)
Lemma W_add_anon own fly a z w k : W n own fly a z w -> W n own fly (a + k) z (add_anon_cached w k).
Proof.
  intros []. split; try done; [|by apply (Tok_same w)]. simpl. rewrite w_anon0, wrap_add_l. f_equal. lia.
Qed.

Lemma W_add_zeroed own fly a z w k : W n own fly a z w -> W n own fly a (z + k) (add_anon_zeroed w k).
Proof.
  intros []. split; try done; [|by apply (Tok_same w)]. simpl. rewrite w_zeroed0, wrap_add_l. f_equal. lia.
Qed.

Lemma W_add_alloc own fly a z w k : W n own fly a z w -> W n own fly a z (add_alloc_count w k).
Proof. intros []. split; try done. by apply (Tok_same w). Qed.

Lemma W_add_free own fly a z w k : W n own fly a z w -> W n own fly a z (add_free_count w k).
Proof. intros []. split; try done. by apply (Tok_same w). Qed.

(** A cache is replaced: [fly] takes the difference.  The counter of freed
    frames is corrected by [d] in the same section. *)
Lemma W_free_update own fly fly' a z w i c0 c d :
  W n own fly a z w -> FRAME_FREE_CPU_CACHES w !! i = Some c0 -> (length c <= FRAME_FREE_CACHE_CAPACITY)%nat ->
  fly' ++ toks KCached (map fst c) ≡ₚ fly ++ toks KCached (map fst c0) ->
  d = Z.of_nat (length c) - Z.of_nat (length c0) ->
  W n own fly' a z (add_cpu_cached (with_free w (<[i := c]> (FRAME_FREE_CPU_CACHES w))) d).
Proof.
  intros [] Hi Hc E Ed. destruct (holders_free w own i c0 c Hi) as (rest & E1 & E2). split; try done; simpl.
  - by rewrite length_insert.
  - by apply cap_insert.
  - rewrite w_cpu0, wrap_add_l, (size_insert _ i c0 c Hi). f_equal. lia.
  - apply (Tok_same w); [done..|].
    change (Tok w (fly' ++ holders (with_free w (<[i := c]> (FRAME_FREE_CPU_CACHES w))) own)).
    rewrite E2, app_assoc, E, <- app_assoc, <- E1. done.
Qed.

Lemma W_dirty_update own fly fly' a z w i c0 c :
  W n own fly a z w -> ANON_DIRTY_FRAME_CPU_CACHES w !! i = Some c0 -> (length c <= ANON_DIRTY_FRAME_CACHE_CAPACITY)%nat ->
  fly' ++ toks KDirty c ≡ₚ fly ++ toks KDirty c0 ->
  W n own fly' (a + Z.of_nat (length c0) - Z.of_nat (length c)) z
    (with_dirty w (<[i := c]> (ANON_DIRTY_FRAME_CPU_CACHES w))).
Proof.
  intros [] Hi Hc E. destruct (holders_dirty w own i c0 c Hi) as (rest & E1 & E2). split; try done; simpl.
  - by rewrite length_insert.
  - by apply cap_insert.
  - rewrite w_anon0, (size_insert _ i c0 c Hi). f_equal. lia.
  - apply (Tok_same w); [done..|]. rewrite E2, app_assoc, E, <- app_assoc, <- E1. done.
Qed.

Lemma W_zeroed_update own fly fly' a z w i c0 c :
  W n own fly a z w -> ANON_ZEROED_FRAME_CPU_CACHES w !! i = Some c0 -> (length c <= ANON_ZEROED_FRAME_CACHE_CAPACITY)%nat ->
  fly' ++ toks KZero c ≡ₚ fly ++ toks KZero c0 ->
  W n own fly' (a + Z.of_nat (length c0) - Z.of_nat (length c)) (z + Z.of_nat (length c0) - Z.of_nat (length c))
    (with_zeroed w (<[i := c]> (ANON_ZEROED_FRAME_CPU_CACHES w))).
Proof.
  intros [] Hi Hc E. destruct (holders_zeroed w own i c0 c Hi) as (rest & E1 & E2). split; try done; simpl.
  - by rewrite length_insert.
  - by apply cap_insert.
  - rewrite w_anon0, (size_insert _ i c0 c Hi). f_equal. lia.
  - rewrite w_zeroed0, (size_insert _ i c0 c Hi). f_equal. lia.
  - apply (Tok_same w); [done..|]. rewrite E2, app_assoc, E, <- app_assoc, <- E1. done.
Qed.

(** A token in flight changes its kind. *)
Lemma W_transition own fly a z w p k k' : W n own ((p, k) :: fly) a z w -> (k' = KZero -> page w p = zero_page) ->
  exists w', transition_frame_state p (kstate k) (kstate k') w = Some (tt, w') /\
    W n own ((p, k') :: fly) a z w' /\ (forall q, page w' q = page w q) /\
    FRAME_FREE_CPU_CACHES w' = FRAME_FREE_CPU_CACHES w /\ ANON_DIRTY_FRAME_CPU_CACHES w' = ANON_DIRTY_FRAME_CPU_CACHES w /\
    ANON_ZEROED_FRAME_CPU_CACHES w' = ANON_ZEROED_FRAME_CPU_CACHES w.
Proof.
  intros HW Hz. destruct (Tok_transition w p k k' (fly ++ holders w own) (w_tok _ _ _ _ _ _ HW) Hz) as (st' & E & El & T).
  exists (with_allocator w st'). split; [done|]. split; [by apply (W_allocator own ((p, k) :: fly))|].
  split; [|done]. intros q. unfold page. simpl. by rewrite El.
Qed.

Lemma W_retag own fly a z w p k k' : kstate k' = kstate k -> k' <> KZero ->
  W n own ((p, k) :: fly) a z w -> W n own ((p, k') :: fly) a z w.
Proof. intros E Hz []. split; try done. by apply (Tok_retag w p k). Qed.

Lemma W_retags own fly a z w l k k' : kstate k' = kstate k -> k' <> KZero ->
  W n own (toks k l ++ fly) a z w -> W n own (toks k' l ++ fly) a z w.
Proof.
  intros E Hz. revert fly. induction l as [|p l IH]; intros fly H; [done|]. simpl in *.
  apply (W_retag own _ a z w p k k') in H; [|done..].
  apply (W_perm _ _ (toks k l ++ (p, k') :: fly)) in H; [|solve_Permutation].
  apply IH in H. eapply W_perm; [|exact H]. solve_Permutation.
Qed.

Lemma W_write own fly a z w p k m b : W n own ((p, k) :: fly) a z w -> k <> KZero ->
  W n own ((p, k) :: fly) a z (with_page w p m b).
Proof. intros [] Hz. split; try done. by apply (Tok_write w p k). Qed.

(** ** Total correctness

    [triple P m Q]: from every state of [P], [m] does not panic and ends in
    [Q]. *)

Definition triple {A} (P : Frames -> Prop) (m : Op A) (Q : A -> Frames -> Prop) : Prop :=
  forall w, P w -> exists x w', m w = Some (x, w') /\ Q x w'.

Lemma triple_bind {A B} P (m : Op A) R (k : A -> Op B) Q :
  triple P m R -> (forall x, triple (R x) (k x) Q) -> triple P (op_bind m k) Q.
Proof.
  intros Hm Hk w Hw. destruct (Hm w Hw) as (x & w1 & E & H1). destruct (Hk x w1 H1) as (y & w2 & E2 & H2).
  exists y, w2. unfold op_bind. by rewrite E.
Qed.

Lemma triple_ret {A} (x : A) (Q : A -> Frames -> Prop) : triple (Q x) (op_ret x) Q.
Proof. intros w Hw. by exists x, w. Qed.

Lemma triple_upd g (Q : unit -> Frames -> Prop) : triple (fun w => Q tt (g w)) (op_upd g) Q.
Proof. intros w Hw. by exists tt, (g w). Qed.

Lemma triple_conseq {A} (P P' : Frames -> Prop) (m : Op A) (Q Q' : A -> Frames -> Prop) :
  (forall w, P' w -> P w) -> (forall x w, Q x w -> Q' x w) -> triple P m Q -> triple P' m Q'.
Proof. intros HP HQ H w Hw. destruct (H w (HP w Hw)) as (x & w' & E & Hq). exists x, w'. auto. Qed.

(** The state of the caches with owners [own], whose frames have the contents
    [c]; [ix] is the published index. *)
Context (ix : list (Z * Z * Z)).

Definition G (own : list Z) (fly : list (Z * kind)) (a z : Z) (c : Z -> BuddyNode * bytes) (w : Frames) : Prop :=
  W n own fly a z w /\ FRAME_STATE_INDEX w = ix /\ forall q, q ∈ own -> page w q = c q.

Lemma G_perm own fly fly' a z c w : fly ≡ₚ fly' -> G own fly a z c w -> G own fly' a z c w.
Proof. intros E (H & ? & ?). split; [by apply (W_perm own fly)|done]. Qed.

(** The frames of memory, as the index has them. *)
Definition indexed (q : Z) : Prop := exists e, e ∈ ix /\ fst (fst e) <= q < snd (fst e).

Lemma indexed_managed own fly a z c w q : G own fly a z c w -> indexed q <-> managed (FRAME_ALLOCATOR w) q.
Proof.
  intros (H & E & _). pose proof (t_index _ _ (w_tok _ _ _ _ _ _ H)) as Ei. rewrite E in Ei.
  unfold indexed, managed, in_range. rewrite Ei. split.
  - intros (e & (r & -> & Hr)%list_elem_of_fmap & Hq). by exists r.
  - intros (r & Hr & Hq). exists (region r). split; [by apply list_elem_of_fmap_2|done].
Qed.

Lemma alloc_section own fly a z c :
  triple (G own fly a z c) (locked alloc) (fun r w =>
    match r with
    | None => G own fly a z c w /\ forall q, indexed q -> q ∈ map fst (fly ++ holders w own)
    | Some p => G own ((p, KOwn) :: fly) a z c w
    end).
Proof.
  intros w HG. pose proof HG as (HW & E & Hc).
  destruct (Tok_alloc w _ (w_tok _ _ _ _ _ _ HW)) as [[Ea Hall]|(p & st & Ea & T & Hcalm & _)].
  - exists None, w. split; [done|]. split; [done|]. intros q Hq. apply Hall. by apply (indexed_managed own fly a z c).
  - exists (Some p), (with_allocator w st). split; [done|]. split; [by apply (W_allocator own fly)|]. split; [done|].
    intros q Hq. rewrite <- Hc by done. by apply (holders_calm fly own).
Qed.

Lemma contiguous_section own fly a z c pages align : 0 <= pages ->
  triple (G own fly a z c) (locked (alloc_contiguous pages align)) (fun r w =>
    match r with
    | None => G own fly a z c w /\ locked (alloc_contiguous pages align) w = Some (None, w)
    | Some ex => ex_pages ex = pages /\ G own (toks KOwn (seqZ (ex_start ex) pages) ++ fly) a z c w
    end).
Proof.
  intros Hp w HG. pose proof HG as (HW & E & Hc).
  destruct (Tok_contiguous w _ pages align (w_tok _ _ _ _ _ _ HW) Hp) as [Ea|(s & st & Ea & T & Hcalm & _)].
  - by exists None, w.
  - exists (Some (mkExtent s pages)), (with_allocator w st). split; [done|]. split; [done|].
    split; [apply (W_allocator own fly); [done|]; by rewrite <- app_assoc|]. split; [done|].
    intros q Hq. rewrite <- Hc by done. by apply (holders_calm fly own).
Qed.

Lemma flush_section own fly a z c k l : k <> KZero ->
  triple (G own (toks k l ++ fly) a z c) (flush_cached_frames l) (fun _ => G own fly a z c).
Proof.
  intros Hk. assert (H : triple (G own (toks k l ++ fly) a z c) (locked (dealloc_all l)) (fun _ => G own fly a z c)).
  { revert fly. induction l as [|p l IH]; intros fly w HG.
    - exists tt, w. split; [by destruct w|done].
    - pose proof HG as (HW & E & Hc).
      destruct (Tok_dealloc w p k (toks k l ++ fly ++ holders w own)) as (st & Ed & T & Hcalm); [|done|].
      { pose proof (w_tok _ _ _ _ _ _ HW) as T. simpl in T. by rewrite <- app_assoc in T. }
      destruct (IH fly (with_allocator w st)) as ([] & w2 & E2 & G2).
      { split; [|split; [done|]].
        - apply (W_allocator own (toks k (p :: l) ++ fly)); [done|]. by rewrite <- app_assoc.
        - intros q Hq. rewrite <- Hc by done. apply (holders_calm (toks k l ++ fly) own); [|done]. by rewrite <- app_assoc. }
      exists tt, w2. split; [|done]. unfold locked in *. cbn [dealloc_all]. rewrite Ed.
      cbn [FRAME_ALLOCATOR with_allocator] in E2. destruct (dealloc_all l st) as [[[] st2]|]; [|done]. by destruct w. }
  destruct l as [|p l]; [|exact H]. intros w HG. by exists tt, w.
Qed.

Lemma transition_section own fly a z c p k k' : k' <> KZero ->
  triple (G own ((p, k) :: fly) a z c) (transition_frame_state p (kstate k) (kstate k'))
    (fun _ => G own ((p, k') :: fly) a z c).
Proof.
  intros Hz w (HW & E & Hc). destruct (W_transition own fly a z w p k k' HW) as (w' & Et & HW' & Hp & _); [done|].
  exists tt, w'. split; [done|]. split; [done|]. split; [|intros q Hq; by rewrite Hp, Hc].
  unfold transition_frame_state in Et. destruct (lock_free_frame_state w p); [|done].
  case_match; [|done]. by injection Et as <-.
Qed.

(** Counter updates commute with transitions. *)
Definition counters_only (g : Frames -> Frames) : Prop :=
  forall w, FRAME_ALLOCATOR (g w) = FRAME_ALLOCATOR w /\ FRAME_STATE_INDEX (g w) = FRAME_STATE_INDEX w /\
    forall st, g (with_allocator w st) = with_allocator (g w) st.

Lemma transition_counters g p from to w : counters_only g ->
  transition_frame_state p from to (g w) =
  match transition_frame_state p from to w with Some (x, w') => Some (x, g w') | None => None end.
Proof.
  intros Hg. destruct (Hg w) as (E1 & E2 & E3). unfold transition_frame_state, lock_free_frame_state. rewrite E1, E2.
  destruct (option_map _ _); [|done]. case_match; [|done]. by rewrite E3.
Qed.

Lemma pop_cpu_free_section own fly a z c hart :
  triple (G own fly a z c) (pop_cpu_free_frame n hart) (fun r w =>
    match r with
    | None => G own fly a z c w /\ FRAME_FREE_CPU_CACHES w !! idx hart = Some []
    | Some p => G own ((p, KOwn) :: fly) a z c w
    end).
Proof.
  intros w HG. pose proof HG as (HW & E & Hc).
  destruct (free_lookup own fly a z w (idx hart) HW (idx_lt hart)) as [cache Ec].
  unfold pop_cpu_free_frame, op_bind, op_get, op_lift, op_upd, op_ret. rewrite Ec.
  destruct cache as [|[p s] cache]; [by exists None, w|].
  set (w1 := with_free w _). set (g := fun w => add_cpu_cached w (-1)).
  assert (HW1 : W n own ((p, KCached) :: fly) a z (g w1)).
  { pose proof (cap_lookup _ _ _ _ (w_free_cap _ _ _ _ _ _ HW) Ec) as Hcap. simpl in Hcap.
    apply (W_free_update own fly _ a z w (idx hart) ((p, s) :: cache) cache (-1)); [done|done|lia| |simpl; lia].
    simpl. solve_Permutation. }
  destruct (transition_section own fly a z c p KCached KOwn ltac:(done) (g w1)) as ([] & w2 & E2 & G2).
  { split; [done|]. split; [done|]. exact Hc. }
  rewrite (transition_counters g) in E2 by done. simpl in E2. simpl.
  destruct (transition_frame_state _ _ _ w1) as [[[] w3]|]; [|done]. injection E2 as <-.
  exists (Some p), (g w3). done.
Qed.

Lemma push_freed_section own fly a z c hart p site :
  triple (G own ((p, KCached) :: fly) a z c) (push_freed n hart p site)
    (fun flushed => G own (toks KCached flushed ++ fly) a z c).
Proof.
  intros w HG. pose proof HG as (HW & E & Hc).
  destruct (free_lookup _ _ _ _ w (idx hart) HW (idx_lt hart)) as [cache Ec].
  unfold push_freed, op_bind, op_get, op_lift, op_upd, op_ret. rewrite Ec.
  pose proof (cap_lookup _ _ _ _ (w_free_cap _ _ _ _ _ _ HW) Ec) as Hcap.
  set (full := (length cache =? FRAME_FREE_CACHE_CAPACITY)%nat).
  set (flushed := if full then take _ cache else []). set (cache' := if full then drop _ cache else cache).
  assert (Hsplit : cache = flushed ++ cache') by (unfold flushed, cache'; destruct full; [by rewrite take_drop|done]).
  assert (Hlen : (length cache' < FRAME_FREE_CACHE_CAPACITY)%nat).
  { unfold cache', full. destruct (Nat.eqb_spec (length cache) FRAME_FREE_CACHE_CAPACITY) as [El|El].
    - rewrite length_drop, El. vm_compute. lia.
    - lia. }
  apply Nat.ltb_lt in Hlen as Hb. rewrite Hb. cbn [assert].
  assert (HW1 : W n own (toks KCached (map fst flushed) ++ fly) a z
    (add_cpu_cached (with_free w (<[idx hart := (p, site) :: cache']> (FRAME_FREE_CPU_CACHES w))) (1 - Z.of_nat (length flushed)))).
  { apply (W_free_update own ((p, KCached) :: fly) _ a z w (idx hart) cache ((p, site) :: cache')); [done|done|simpl; lia|..].
    - rewrite Hsplit. simpl. rewrite map_app, toks_app. solve_Permutation.
    - rewrite Hsplit, length_app. simpl. lia. }
  eexists _, _. split; [reflexivity|].
  match goal with |- G _ _ _ _ _ ?w' => replace w' with
    (add_cpu_cached (with_free w (<[idx hart := (p, site) :: cache']> (FRAME_FREE_CPU_CACHES w))) (1 - Z.of_nat (length flushed))) end.
  - split; [done|]. split; [done|]. exact Hc.
  - destruct flushed as [|x fl]; simpl; [by rewrite Z.sub_0_r|]. unfold add_cpu_cached. simpl. f_equal.
    rewrite wrap_add_l. f_equal. lia.
Qed.

Lemma take_free_section own fly a z c i : (i < n)%nat ->
  triple (G own fly a z c) (take_free_cache i) (fun drained w =>
    G own (toks KCached drained ++ fly) a z c w /\ FRAME_FREE_CPU_CACHES w !! i = Some []).
Proof.
  intros Hi w HG. pose proof HG as (HW & E & Hc). destruct (free_lookup _ _ _ _ w i HW Hi) as [cache Ec].
  unfold take_free_cache, op_bind, op_get, op_lift, op_upd, op_ret. rewrite Ec.
  assert (HW1 : W n own (toks KCached (map fst cache) ++ fly) a z
    (add_cpu_cached (with_free w (<[i := []]> (FRAME_FREE_CPU_CACHES w))) (- Z.of_nat (length cache)))).
  { apply (W_free_update own fly _ a z w i cache []); [done|done|simpl; lia| |simpl; lia].
    simpl. solve_Permutation. }
  eexists _, _. split; [reflexivity|].
  assert (Hw : (if negb (bool_decide (cache = [])) then
      add_cpu_cached (with_free w (<[i := []]> (FRAME_FREE_CPU_CACHES w))) (- Z.of_nat (length cache))
    else with_free w (<[i := []]> (FRAME_FREE_CPU_CACHES w))) =
    add_cpu_cached (with_free w (<[i := []]> (FRAME_FREE_CPU_CACHES w))) (- Z.of_nat (length cache))).
  { destruct cache; [|done]. simpl. unfold add_cpu_cached. simpl. rewrite Z.add_0_r.
    rewrite (w_cpu _ _ _ _ _ _ HW), wrap_wrap. by rewrite <- (w_cpu _ _ _ _ _ _ HW). }
  rewrite Hw. split; [split; [done|]; split; [done|exact Hc]|]. simpl.
  apply list_lookup_insert_eq. by rewrite (w_free_n _ _ _ _ _ _ HW).
Qed.

(** ** Anonymous frames *)

Lemma take_dirty_section own fly a z c idxs : Forall (fun i => (i < n)%nat) idxs ->
  triple (G own fly a z c) (take_dirty_scan idxs) (fun r w =>
    match r with
    | None => G own fly a z c w /\ Forall (fun i => ANON_DIRTY_FRAME_CPU_CACHES w !! i = Some []) idxs
    | Some p => G own ((p, KDirty) :: fly) (a + 1) z c w
    end).
Proof.
  induction 1 as [|i idxs Hi _ IH]; intros w HG; [by exists None, w|].
  pose proof HG as (HW & E & Hc). destruct (dirty_lookup _ _ _ _ w i HW Hi) as [cache Ec].
  cbn [take_dirty_scan]. unfold op_bind, op_get, op_lift, op_upd, op_ret. rewrite Ec.
  destruct cache as [|p cache].
  - destruct (IH w HG) as (r & w' & E' & HQ). exists r, w'. split; [done|]. destruct r as [p|]; [done|].
    destruct HQ as [HG' Hf]. split; [done|]. constructor; [|done].
    assert (Ew : forall idxs w w', take_dirty_scan idxs w = Some (None, w') -> w' = w).
    { clear. induction idxs as [|i idxs IH]; intros w w' H; [by injection H as <-|].
      cbn [take_dirty_scan] in H. unfold op_bind, op_get, op_lift, op_upd, op_ret in H.
      destruct (ANON_DIRTY_FRAME_CPU_CACHES w !! i) as [[|]|]; [by apply IH|done|done]. }
    by rewrite (Ew _ _ _ E').
  - exists (Some p). eexists. split; [reflexivity|]. split; [|split; [done|exact Hc]].
    replace (a + 1) with (a + Z.of_nat (length (p :: cache)) - Z.of_nat (length cache)) by (simpl; lia).
    pose proof (cap_lookup _ _ _ _ (w_dirty_cap _ _ _ _ _ _ HW) Ec) as Hcap. simpl in Hcap.
    apply (W_dirty_update own fly); [done|done|lia|]. simpl. solve_Permutation.
Qed.

Lemma pop_zeroed_section own fly a z c idxs : Forall (fun i => (i < n)%nat) idxs ->
  triple (G own fly a z c) (pop_zeroed_scan idxs) (fun r w =>
    match r with
    | None => G own fly a z c w
    | Some p => G own ((p, KOwn) :: fly) a z c w /\ page w p = zero_page
    end).
Proof.
  induction 1 as [|i idxs Hi _ IH]; intros w HG; [by exists None, w|].
  pose proof HG as (HW & E & Hc). destruct (zeroed_lookup _ _ _ _ w i HW Hi) as [cache Ec].
  cbn [pop_zeroed_scan]. unfold op_bind, op_get, op_lift, op_upd, op_ret. rewrite Ec.
  destruct cache as [|p cache]; [by apply IH|].
  pose proof (cap_lookup _ _ _ _ (w_zeroed_cap _ _ _ _ _ _ HW) Ec) as Hcap. simpl in Hcap.
  assert (HW1 : W n own ((p, KZero) :: fly) (a + 1) (z + 1) (with_zeroed w (<[i := cache]> (ANON_ZEROED_FRAME_CPU_CACHES w)))).
  { replace (a + 1) with (a + Z.of_nat (length (p :: cache)) - Z.of_nat (length cache)) by (simpl; lia).
    replace (z + 1) with (z + Z.of_nat (length (p :: cache)) - Z.of_nat (length cache)) by (simpl; lia).
    apply (W_zeroed_update own fly); [done|done|lia|]. simpl. solve_Permutation. }
  set (w1 := with_zeroed w _) in *.
  assert (Hz : page w1 p = zero_page).
  { pose proof (w_tok _ _ _ _ _ _ HW1) as T. apply (t_kind _ _ T p KZero); [left|done]. }
  destruct (W_transition own fly (a + 1) (z + 1) w1 p KZero KOwn HW1 ltac:(done)) as (w2 & E2 & HW2 & Hp & _).
  destruct (transition_section own fly (a + 1) (z + 1) c p KZero KOwn ltac:(done) w1) as ([] & w2' & E2' & (_ & Ei & _)).
  { split; [done|]. split; [done|exact Hc]. }
  rewrite E2 in E2'. injection E2' as <-. simpl in E2. rewrite E2.
  exists (Some p), (add_anon_cached (add_anon_zeroed w2 (-1)) (-1)). split; [done|]. split; [|by rewrite <- Hz, <- Hp].
  split; [|split; [done|]].
  - replace a with (a + 1 + -1) by lia. replace z with (z + 1 + -1) by lia. by apply W_add_anon, W_add_zeroed.
  - intros q Hq. change (page w2 q = c q). rewrite Hp. by apply Hc.
Qed.

Lemma refill_loop_section own fly a z c m : forall acc,
  triple (G own (toks KOwn acc ++ fly) a z c) (locked (refill_loop m acc)) (fun got w =>
    G own (toks KOwn got ++ fly) a z c w /\ (length acc <= length got <= length acc + m)%nat /\
    (got = [] -> m <> O -> forall q, indexed q -> q ∈ map fst (fly ++ holders w own))).
Proof.
  induction m as [|m IH]; intros acc w HG.
  { exists acc, w. split; [by destruct w|]. split; [done|]. split; [lia|done]. }
  destruct (alloc_section own (toks KOwn acc ++ fly) a z c w HG) as (r & w1 & E & HQ).
  assert (Hstep : locked (refill_loop (S m) acc) w =
    match r with None => Some (acc, w1) | Some p => locked (refill_loop m (p :: acc)) w1 end).
  { unfold locked in *. cbn [refill_loop]. destruct (alloc (FRAME_ALLOCATOR w)) as [[[p|] st]|]; [..|done];
      injection E as <- <-; [|done]. simpl. destruct (refill_loop m (p :: acc) st) as [[? ?]|]; [|done]. by destruct w. }
  rewrite Hstep. destruct r as [p|].
  - destruct (IH (p :: acc) w1 HQ) as (got & w2 & E2 & G2 & Hlen & _). exists got, w2. split; [done|].
    simpl in Hlen. split; [done|]. split; [lia|]. intros ->. simpl in Hlen. lia.
  - destruct HQ as [HG1 Hall]. exists acc, w1. split; [done|]. split; [done|]. split; [lia|].
    intros -> _. exact Hall.
Qed.

Lemma refill_section own fly a z c :
  triple (G own fly a z c) refill (fun got w =>
    G own (toks KOwn got ++ fly) a z c w /\ (length got <= ANON_DIRTY_FRAME_CACHE_CAPACITY)%nat /\
    (got = [] -> forall q, indexed q -> q ∈ map fst (fly ++ holders w own))).
Proof.
  eapply triple_conseq; [| |apply (refill_loop_section own fly a z c ANON_DIRTY_FRAME_CACHE_CAPACITY [])]; [done|].
  intros got w (H1 & H2 & H3). split; [done|]. split; [simpl in H2; lia|]. intros E. by apply H3.
Qed.

Lemma extend_dirty_section own fly a z c hart l :
  triple (fun w => G own (toks KOwn l ++ fly) a z c w /\
      exists cache, ANON_DIRTY_FRAME_CPU_CACHES w !! idx hart = Some cache /\
        (length cache + length l <= ANON_DIRTY_FRAME_CACHE_CAPACITY)%nat)
    (extend_dirty n hart l) (fun _ => G own fly a z c).
Proof.
  intros w [(HW & E & Hc) (cache & Ec & Hcap)]. unfold extend_dirty, op_bind, op_get, op_lift, op_upd, op_ret.
  rewrite Ec. apply Nat.leb_le in Hcap as Hb. rewrite Hb. cbn [assert].
  exists tt. eexists. split; [reflexivity|]. split; [|split; [done|exact Hc]].
  apply (W_retags _ _ _ _ _ l KOwn KDirty) in HW; [|done..].
  replace a with (a + Z.of_nat (length cache) - Z.of_nat (length (l ++ cache)) + Z.of_nat (length l))
    by (rewrite length_app; lia).
  apply W_add_anon. apply (W_dirty_update own (toks KDirty l ++ fly)); [done|done|rewrite length_app; lia|].
  rewrite toks_app. solve_Permutation.
Qed.

Lemma write_section own fly a z c p k m b : k <> KZero -> p ∉ own ->
  triple (G own ((p, k) :: fly) a z c) (op_upd (fun w => with_page w p m b))
    (fun _ w => G own ((p, k) :: fly) a z c w /\ page w p = (m, b)).
Proof.
  intros Hk Hp w (HW & E & Hc). exists tt. eexists. split; [reflexivity|]. split.
  - split; [by apply W_write|]. split; [done|]. intros q Hq. rewrite page_write, decide_False; [by apply Hc|]. by intros ->.
  - rewrite page_write. by rewrite decide_True.
Qed.

(** A frame in flight is not an owner's. *)
Lemma fly_not_own own fly a z c w p k : G own ((p, k) :: fly) a z c w -> p ∉ own.
Proof.
  intros (HW & _) Hp. pose proof (t_nodup _ _ (w_tok _ _ _ _ _ _ HW)) as Hnd. simpl in Hnd.
  apply NoDup_cons in Hnd as [Hout _]. apply Hout. rewrite map_app, elem_of_app. right.
  unfold holders. rewrite map_app, elem_of_app. left. apply list_elem_of_fmap. exists (p, KOwn).
  split; [done|]. apply list_elem_of_fmap. by exists p.
Qed.

Lemma clear_section own fly a z c p k : k <> KZero ->
  triple (G own ((p, k) :: fly) a z c) (clear_page p)
    (fun _ w => G own ((p, k) :: fly) a z c w /\ page w p = zero_page).
Proof. intros Hk w HG. apply (write_section own fly a z c p k zero_node zero_body Hk); [by eapply fly_not_own|done]. Qed.

(** Clearing is proved to the cache by the transition. *)
Lemma zeroed_transition own fly a z c p :
  triple (fun w => G own ((p, KOwn) :: fly) a z c w /\ page w p = zero_page)
    (transition_frame_state p FRAME_STATE_ALLOCATED FRAME_STATE_ANON_ZEROED)
    (fun _ => G own ((p, KZero) :: fly) a z c).
Proof.
  intros w [(HW & E & Hc) Hz].
  destruct (W_transition own fly a z w p KOwn KZero HW ltac:(done)) as (w' & Et & HW' & Hp & _).
  exists tt, w'. split; [done|]. split; [done|]. split; [|intros q Hq; by rewrite Hp, Hc].
  unfold transition_frame_state in Et. destruct (lock_free_frame_state w p); [|done].
  case_match; [|done]. by injection Et as <-.
Qed.

Lemma publish_zeroed_section own fly a z c hart p :
  triple (fun w => G own ((p, KZero) :: fly) a z c w /\
      exists cache, ANON_ZEROED_FRAME_CPU_CACHES w !! idx hart = Some cache /\
        (length cache < ANON_ZEROED_FRAME_CACHE_CAPACITY)%nat)
    (publish_zeroed n hart p) (fun _ => G own fly (a - 1) (z - 1) c).
Proof.
  intros w [(HW & E & Hc) (cache & Ec & Hcap)]. unfold publish_zeroed, op_bind, op_get, op_lift, op_upd, op_ret.
  rewrite Ec. apply Nat.ltb_lt in Hcap as Hb. rewrite Hb. cbn [assert].
  exists tt. eexists. split; [reflexivity|]. split; [|split; [done|exact Hc]].
  replace (a - 1) with (a + Z.of_nat (length cache) - Z.of_nat (length (p :: cache))) by (simpl; lia).
  replace (z - 1) with (z + Z.of_nat (length cache) - Z.of_nat (length (p :: cache))) by (simpl; lia).
  apply (W_zeroed_update own ((p, KZero) :: fly)); [done|done|simpl; lia|]. simpl. solve_Permutation.
Qed.

Lemma take_dirty_cache_section own fly a z c i : (i < n)%nat ->
  triple (G own fly a z c) (take_dirty_cache i) (fun l w =>
    G own (toks KDirty l ++ fly) a z c w /\ ANON_DIRTY_FRAME_CPU_CACHES w !! i = Some []).
Proof.
  intros Hi w HG. pose proof HG as (HW & E & Hc). destruct (dirty_lookup _ _ _ _ w i HW Hi) as [cache Ec].
  unfold take_dirty_cache, op_bind, op_get, op_lift, op_upd, op_ret. rewrite Ec.
  set (w1 := with_dirty w _).
  assert (HW1 : W n own (toks KDirty cache ++ fly) (a + Z.of_nat (length cache)) z w1).
  { replace (a + Z.of_nat (length cache)) with (a + Z.of_nat (length cache) - Z.of_nat (length (@nil Z))) by (simpl; lia).
    apply (W_dirty_update own fly); [done|done|simpl; lia|]. simpl. solve_Permutation. }
  eexists _, _. split; [reflexivity|]. split.
  - split; [|split].
    + destruct cache as [|x cache]; simpl negb; cbv iota.
      * by rewrite Z.add_0_r in HW1.
      * replace a with (a + Z.of_nat (length (x :: cache)) + - Z.of_nat (length (x :: cache))) by lia. by apply W_add_anon.
    + by destruct (negb _).
    + intros q Hq. destruct (negb _); by apply Hc.
  - assert (El : (<[i := []]> (ANON_DIRTY_FRAME_CPU_CACHES w)) !! i = Some [])
      by (apply list_lookup_insert_eq; by rewrite (w_dirty_n _ _ _ _ _ _ HW)).
    by destruct (negb _).
Qed.

Lemma unzero_section own fly a z c : forall l,
  triple (G own (toks KZero l ++ fly) a z c) (unzero_all l) (fun _ => G own (toks KOwn l ++ fly) a z c).
Proof.
  intros l. revert fly. induction l as [|p l IH]; intros fly; [intros w HG; by exists tt, w|]. cbn [unzero_all].
  eapply triple_bind; [apply (transition_section own (toks KZero l ++ fly) a z c p KZero KOwn); done|].
  intros u. eapply triple_conseq; [| |apply (IH ((p, KOwn) :: fly))].
  - intros w. apply G_perm. solve_Permutation.
  - intros v w. apply G_perm. simpl. solve_Permutation.
Qed.

Lemma unzero_caches l w w' : unzero_all l w = Some (tt, w') ->
  ANON_ZEROED_FRAME_CPU_CACHES w' = ANON_ZEROED_FRAME_CPU_CACHES w.
Proof.
  revert w. induction l as [|p l IH]; intros w; cbn [unzero_all]; [by intros [= ->]|].
  unfold op_bind, transition_frame_state. destruct (lock_free_frame_state w p); [|done].
  destruct (bool_decide _); [|done]. intros H'. by apply IH in H'.
Qed.

Lemma take_zeroed_cache_section own fly a z c i : (i < n)%nat ->
  triple (G own fly a z c) (take_zeroed_cache i) (fun l w =>
    G own (toks KOwn l ++ fly) a z c w /\ ANON_ZEROED_FRAME_CPU_CACHES w !! i = Some []).
Proof.
  intros Hi w HG. pose proof HG as (HW & E & Hc). destruct (zeroed_lookup _ _ _ _ w i HW Hi) as [cache Ec].
  unfold take_zeroed_cache, op_bind, op_get, op_lift, op_upd, op_ret. rewrite Ec.
  set (w1 := with_zeroed w _).
  assert (HG1 : G own (toks KZero cache ++ fly) (a + Z.of_nat (length cache)) (z + Z.of_nat (length cache)) c w1).
  { split; [|split; [done|exact Hc]].
    replace (a + Z.of_nat (length cache)) with (a + Z.of_nat (length cache) - Z.of_nat (length (@nil Z))) by (simpl; lia).
    replace (z + Z.of_nat (length cache)) with (z + Z.of_nat (length cache) - Z.of_nat (length (@nil Z))) by (simpl; lia).
    apply (W_zeroed_update own fly); [done|done|simpl; lia|]. simpl. solve_Permutation. }
  destruct (unzero_section own fly _ _ c cache w1 HG1) as ([] & w2 & E2 & (HW2 & Ei2 & Hc2)). rewrite E2.
  eexists _, _. split; [reflexivity|]. split.
  - split; [|split].
    + destruct cache as [|x cache]; simpl negb; cbv iota; [by rewrite !Z.add_0_r in HW2|].
      replace a with (a + Z.of_nat (length (x :: cache)) + - Z.of_nat (length (x :: cache))) by lia.
      replace z with (z + Z.of_nat (length (x :: cache)) + - Z.of_nat (length (x :: cache))) by lia.
      by apply W_add_anon, W_add_zeroed.
    + by destruct (negb _).
    + intros q Hq. destruct (negb _); by apply Hc2.
  - assert (El : ANON_ZEROED_FRAME_CPU_CACHES w2 !! i = Some []).
    { rewrite (unzero_caches _ _ _ E2). apply list_lookup_insert_eq. by rewrite (w_zeroed_n _ _ _ _ _ _ HW). }
    by destruct (negb _).
Qed.

End Sections.
