(* ===== verification/FrameCacheSpec.v ===== *)
(** * Physical frames: the allocation interface

    Total correctness of the operations of frame_allocator.rs when they run
    one at a time: allocation returns a cleared frame that nobody owns whenever
    there is one, whatever reclaim would do, release and pre-clearing keep
    the caches consistent, and the statistics are exact. *)

From stdpp Require Import list_tactics.
From S2P Require Import Prelude FrameAlloc FrameInv FrameOps FrameSpec FrameCache FrameTok FrameCacheInv.

Section Interface.
Context (n : nat) (Hn : (0 < n)%nat) (ix : list (Z * Z * Z)).

Abbreviation G := (G n ix).
Abbreviation quiet own c := (G own [] 0 0 c).
Abbreviation indexed := (indexed ix).

(** Every frame of memory has a holder. *)
Definition all_held own fly (w : Frames) : Prop := forall q, indexed q -> q ∈ map fst (fly ++ holders w own).

Lemma alloc_once_spec own fly a z c hart :
  triple (G own fly a z c) (alloc_ppn_once n hart) (fun r w =>
    match r with
    | None => G own fly a z c w /\ all_held own fly w
    | Some p => G own ((p, KOwn) :: fly) a z c w
    end).
Proof.
  eapply triple_bind; [apply (pop_cpu_free_section n Hn)|]. intros [p|]; simpl.
  - intros w HG. by exists (Some p), w.
  - intros w [HG _]. by apply (alloc_section n ix own fly a z c w).
Qed.

(** ** Release *)

Lemma cache_deallocated_spec own c hart p site : p ∈ own ->
  exists own', own ≡ₚ p :: own' /\
    triple (quiet own c) (cache_deallocated_frame n hart p site) (fun _ => quiet own' c).
Proof.
  intros Hp. apply list_elem_of_split in Hp as (l1 & l2 & ->). exists (l1 ++ l2). split; [solve_Permutation|].
  eapply (triple_conseq (G (l1 ++ l2) [(p, KOwn)] 0 0 c)).
  { intros w (HW & E & Hc). split; [|split; [done|]].
    - apply W_own, (W_own_perm n (l1 ++ p :: l2)); [solve_Permutation|done].
    - intros q Hq. apply Hc. set_solver. }
  { intros x w Hw. exact Hw. }
  eapply triple_bind; [apply (transition_section n ix (l1 ++ l2) [] 0 0 c p KOwn KCached); done|]. intros u.
  eapply triple_bind; [apply (push_freed_section n Hn)|]. intros flushed.
  apply (flush_section n ix (l1 ++ l2) [] 0 0 c KCached flushed). done.
Qed.

(** ** Draining *)

Lemma flush_caches l w w' : flush_cached_frames l w = Some (tt, w') ->
  FRAME_FREE_CPU_CACHES w' = FRAME_FREE_CPU_CACHES w /\ ANON_DIRTY_FRAME_CPU_CACHES w' = ANON_DIRTY_FRAME_CPU_CACHES w /\
  ANON_ZEROED_FRAME_CPU_CACHES w' = ANON_ZEROED_FRAME_CPU_CACHES w.
Proof.
  destruct l as [|p l]; [by intros [= ->]|]. unfold flush_cached_frames, locked.
  destruct (dealloc_all _ _) as [[[] st]|]; [|done]. by intros [= <-].
Qed.

(** Caches [0..j) are empty. *)
Definition emptied {A} (L : list (list A)) (idxs : list nat) : Prop := Forall (fun i => L !! i = Some []) idxs.

Lemma emptied_concat {A} (L : list (list A)) : emptied L (seq 0 (length L)) -> concat L = [].
Proof.
  intros H. assert (Hall : Forall (fun l => l = []) L).
  { apply Forall_lookup. intros i l Hi. unfold emptied in H. rewrite Forall_forall in H.
    specialize (H i). rewrite elem_of_seq in H. rewrite H in Hi; [by injection Hi as <-|].
    apply lookup_lt_Some in Hi. lia. }
  induction Hall as [|l L -> _ IH]; [done|]. simpl. apply IH. clear -H. unfold emptied in *.
  apply Forall_forall. intros i Hi. apply elem_of_seq in Hi. rewrite Forall_forall in H.
  apply (H (S i)). apply elem_of_seq. simpl. lia.
Qed.

(** A drain loop empties the caches of its list; a cache that was empty stays so. *)
Lemma drain_loop own c (take : nat -> Op (list Z)) (loop : list nat -> Op unit) k {A} (sel : Frames -> list (list A)) (P : Frames -> Prop) :
  k <> KZero ->
  (forall idxs, loop idxs = match idxs with
     | [] => op_ret tt | i :: idxs => (drained <- take i;; flush_cached_frames drained;;; loop idxs) end) ->
  (forall i, (i < n)%nat -> triple (fun w => quiet own c w /\ P w) (take i) (fun l w =>
     G own (toks k l ++ []) 0 0 c w /\ P w /\ sel w !! i = Some [])) ->
  (forall i j w l w', take i w = Some (l, w') -> sel w !! j = Some [] -> sel w' !! j = Some []) ->
  (forall l w w', flush_cached_frames l w = Some (tt, w') -> sel w' = sel w /\ (P w -> P w')) ->
  forall idxs done_, Forall (fun i => i < n)%nat idxs ->
  triple (fun w => quiet own c w /\ P w /\ emptied (sel w) done_) (loop idxs)
    (fun _ w => quiet own c w /\ P w /\ emptied (sel w) (done_ ++ idxs)).
Proof.
  intros Hk Hloop Htake Hstay Hfl idxs. induction idxs as [|i idxs IH]; intros done_ Hi; rewrite Hloop.
  { intros w Hw. exists tt, w. by rewrite app_nil_r. }
  apply Forall_cons in Hi as [Hi Hidx]. intros w (HG & HP & He).
  destruct (Htake i Hi w (conj HG HP)) as (l & w1 & E1 & HG1 & HP1 & Hs1).
  destruct (flush_section n ix own [] 0 0 c k l Hk w1 HG1) as ([] & w2 & E2 & HG2).
  destruct (Hfl l w1 w2 E2) as [Es HP2].
  assert (He2 : emptied (sel w2) (done_ ++ [i])).
  { rewrite Es. apply Forall_app. split; [|by constructor]. unfold emptied in *. rewrite Forall_forall in *.
    intros j Hj. by apply (Hstay i j w l w1 E1), He. }
  destruct (IH (done_ ++ [i]) Hidx w2) as ([] & w3 & E3 & H3); [split_and!; auto|].
  exists tt, w3. rewrite <- app_assoc in H3. split; [|done]. unfold op_bind. by rewrite E1, E2.
Qed.

Lemma seq_lt : Forall (fun i => i < n)%nat (seq 0 n).
Proof. apply Forall_forall. intros i Hi. apply elem_of_seq in Hi. lia. Qed.

(** Taking a cache whole. *)
Lemma stays_empty {A} (L : list (list A)) i j : L !! j = Some [] -> <[i := []]> L !! j = Some [].
Proof.
  intros H. destruct (decide (i = j)) as [->|]; [|by rewrite list_lookup_insert_ne].
  apply list_lookup_insert_eq. by eapply lookup_lt_Some.
Qed.

Lemma take_free_effect i w l w' : take_free_cache i w = Some (l, w') ->
  FRAME_FREE_CPU_CACHES w' = <[i := []]> (FRAME_FREE_CPU_CACHES w) /\
  ANON_DIRTY_FRAME_CPU_CACHES w' = ANON_DIRTY_FRAME_CPU_CACHES w /\
  ANON_ZEROED_FRAME_CPU_CACHES w' = ANON_ZEROED_FRAME_CPU_CACHES w.
Proof.
  unfold take_free_cache, op_bind, op_get, op_lift, op_upd, op_ret.
  destruct (FRAME_FREE_CPU_CACHES w !! i) as [cache|]; [|done]. intros [= <- <-]. by destruct (negb _).
Qed.

Lemma take_dirty_effect i w l w' : take_dirty_cache i w = Some (l, w') ->
  FRAME_FREE_CPU_CACHES w' = FRAME_FREE_CPU_CACHES w /\
  ANON_DIRTY_FRAME_CPU_CACHES w' = <[i := []]> (ANON_DIRTY_FRAME_CPU_CACHES w) /\
  ANON_ZEROED_FRAME_CPU_CACHES w' = ANON_ZEROED_FRAME_CPU_CACHES w.
Proof.
  unfold take_dirty_cache, op_bind, op_get, op_lift, op_upd, op_ret.
  destruct (ANON_DIRTY_FRAME_CPU_CACHES w !! i) as [cache|]; [|done]. intros [= <- <-]. by destruct (negb _).
Qed.

Lemma unzero_effect l w w' : unzero_all l w = Some (tt, w') ->
  FRAME_FREE_CPU_CACHES w' = FRAME_FREE_CPU_CACHES w /\ ANON_DIRTY_FRAME_CPU_CACHES w' = ANON_DIRTY_FRAME_CPU_CACHES w /\
  ANON_ZEROED_FRAME_CPU_CACHES w' = ANON_ZEROED_FRAME_CPU_CACHES w.
Proof.
  revert w. induction l as [|p l IH]; intros w; cbn [unzero_all]; [by intros [= ->]|].
  unfold op_bind, transition_frame_state. destruct (lock_free_frame_state w p); [|done].
  destruct (bool_decide _); [|done]. intros H'. by apply IH in H'.
Qed.

Lemma take_zeroed_effect i w l w' : take_zeroed_cache i w = Some (l, w') ->
  FRAME_FREE_CPU_CACHES w' = FRAME_FREE_CPU_CACHES w /\
  ANON_DIRTY_FRAME_CPU_CACHES w' = ANON_DIRTY_FRAME_CPU_CACHES w /\
  ANON_ZEROED_FRAME_CPU_CACHES w' = <[i := []]> (ANON_ZEROED_FRAME_CPU_CACHES w).
Proof.
  unfold take_zeroed_cache, op_bind, op_get, op_lift, op_upd, op_ret.
  destruct (ANON_ZEROED_FRAME_CPU_CACHES w !! i) as [cache|]; [|done].
  destruct (unzero_all cache _) as [[[] w1]|] eqn:E; [|done]. apply unzero_effect in E as (E1 & E2 & E3).
  intros [= <- <-]. destruct (negb _); simpl in *; by rewrite E1, E2, E3.
Qed.

(** All caches are empty. *)
Definition drained (w : Frames) : Prop :=
  concat (FRAME_FREE_CPU_CACHES w) = [] /\ concat (ANON_DIRTY_FRAME_CPU_CACHES w) = [] /\
  concat (ANON_ZEROED_FRAME_CPU_CACHES w) = [].

Lemma drain_free_spec own c :
  triple (quiet own c) (drain_free_frame_caches n) (fun _ w => quiet own c w /\ concat (FRAME_FREE_CPU_CACHES w) = []).
Proof.
  eapply (triple_conseq (fun w => quiet own c w /\ True /\ emptied (FRAME_FREE_CPU_CACHES w) []));
    [intros w Hw; split_and!; [done|done|constructor]| |apply (drain_loop own c take_free_cache drain_free_loop KCached
      FRAME_FREE_CPU_CACHES (fun _ => True)); try done].
  - intros x w (HG & _ & He). split; [done|]. apply emptied_concat.
    destruct HG as [HW _]. by rewrite (w_free_n _ _ _ _ _ _ HW).
  - by intros [|i idxs].
  - intros i Hi w [HG _]. destruct (take_free_section n Hn ix own [] 0 0 c i Hi w HG) as (l & w' & E & H1 & H2).
    exists l, w'. auto.
  - intros i j w l w' (-> & _)%take_free_effect. apply stays_empty.
  - intros l w w' (-> & _)%flush_caches. done.
  - apply seq_lt.
Qed.

Lemma drain_anon_spec own c :
  triple (fun w => quiet own c w /\ concat (FRAME_FREE_CPU_CACHES w) = []) (drain_anon_frame_caches n)
    (fun _ w => quiet own c w /\ drained w).
Proof.
  eapply triple_bind with (R := fun _ w => quiet own c w /\ concat (FRAME_FREE_CPU_CACHES w) = [] /\
    concat (ANON_DIRTY_FRAME_CPU_CACHES w) = []).
  - eapply (triple_conseq (fun w => quiet own c w /\ concat (FRAME_FREE_CPU_CACHES w) = [] /\
      emptied (ANON_DIRTY_FRAME_CPU_CACHES w) [])); [intros w [Hw He]; split_and!; [done|done|constructor]| |
      apply (drain_loop own c take_dirty_cache (drain_anon_loop take_dirty_cache) KDirty ANON_DIRTY_FRAME_CPU_CACHES
        (fun w => concat (FRAME_FREE_CPU_CACHES w) = [])); try done].
    + intros x w (HG & HF & He). split_and!; [done|done|]. apply emptied_concat.
      destruct HG as [HW _]. by rewrite (w_dirty_n _ _ _ _ _ _ HW).
    + by intros [|i idxs].
    + intros i Hi w [HG HF]. destruct (take_dirty_cache_section n Hn ix own [] 0 0 c i Hi w HG) as (l & w' & E & H1 & H2).
      exists l, w'. split; [done|]. split; [done|]. split; [|done]. by apply take_dirty_effect in E as (-> & _).
    + intros i j w l w' (_ & -> & _)%take_dirty_effect. apply stays_empty.
    + intros l w w' (-> & -> & _)%flush_caches. done.
    + apply seq_lt.
  - intros u. eapply (triple_conseq (fun w => quiet own c w /\
      (concat (FRAME_FREE_CPU_CACHES w) = [] /\ concat (ANON_DIRTY_FRAME_CPU_CACHES w) = []) /\
      emptied (ANON_ZEROED_FRAME_CPU_CACHES w) [])); [intros w (Hw & He & Hd); split_and!; [done|done|done|constructor]| |
      apply (drain_loop own c take_zeroed_cache (drain_anon_loop take_zeroed_cache) KOwn ANON_ZEROED_FRAME_CPU_CACHES
        (fun w => concat (FRAME_FREE_CPU_CACHES w) = [] /\ concat (ANON_DIRTY_FRAME_CPU_CACHES w) = [])); try done].
    + intros x w (HG & [HF HD] & He). split; [done|]. split; [done|]. split; [done|]. apply emptied_concat.
      destruct HG as [HW _]. by rewrite (w_zeroed_n _ _ _ _ _ _ HW).
    + by intros [|i idxs].
    + intros i Hi w [HG HF]. destruct (take_zeroed_cache_section n Hn ix own [] 0 0 c i Hi w HG) as (l & w' & E & H1 & H2).
      exists l, w'. split; [done|]. split; [done|]. split; [|done]. by apply take_zeroed_effect in E as (-> & -> & _).
    + intros i j w l w' (_ & _ & ->)%take_zeroed_effect. apply stays_empty.
    + intros l w w' (-> & -> & ->)%flush_caches. done.
    + apply seq_lt.
Qed.

Lemma drains_spec own c :
  triple (quiet own c) (drain_free_frame_caches n;;; drain_anon_frame_caches n) (fun _ w => quiet own c w /\ drained w).
Proof. eapply triple_bind; [apply drain_free_spec|]. intros u. apply drain_anon_spec. Qed.

(** With empty caches only owners hold frames. *)
Lemma drained_held own w q : drained w -> q ∈ map fst ([] ++ holders w own) -> q ∈ own.
Proof.
  intros (E1 & E2 & E3). unfold holders. rewrite E1, E2, E3. simpl. rewrite app_nil_r. unfold toks.
  rewrite map_map. simpl. by rewrite map_id.
Qed.

(** ** What the sections leave alone *)

Lemma locked_effect {A} (g : BuddyFrameAllocator -> option (A * BuddyFrameAllocator)) w x w' :
  locked g w = Some (x, w') ->
  FRAME_FREE_CPU_CACHES w' = FRAME_FREE_CPU_CACHES w /\ ANON_DIRTY_FRAME_CPU_CACHES w' = ANON_DIRTY_FRAME_CPU_CACHES w /\
  ANON_ZEROED_FRAME_CPU_CACHES w' = ANON_ZEROED_FRAME_CPU_CACHES w.
Proof. unfold locked. destruct (g _) as [[? ?]|]; [|done]. by intros [= <- <-]. Qed.

Lemma transition_effect p from to w w' : transition_frame_state p from to w = Some (tt, w') ->
  FRAME_FREE_CPU_CACHES w' = FRAME_FREE_CPU_CACHES w /\ ANON_DIRTY_FRAME_CPU_CACHES w' = ANON_DIRTY_FRAME_CPU_CACHES w /\
  ANON_ZEROED_FRAME_CPU_CACHES w' = ANON_ZEROED_FRAME_CPU_CACHES w.
Proof.
  unfold transition_frame_state. destruct (lock_free_frame_state w p); [|done]. destruct (bool_decide _); [|done].
  by intros [= <-].
Qed.

Lemma pop_cpu_free_effect hart w r w' : pop_cpu_free_frame n hart w = Some (r, w') ->
  ANON_DIRTY_FRAME_CPU_CACHES w' = ANON_DIRTY_FRAME_CPU_CACHES w /\
  ANON_ZEROED_FRAME_CPU_CACHES w' = ANON_ZEROED_FRAME_CPU_CACHES w.
Proof.
  unfold pop_cpu_free_frame, op_bind, op_get, op_lift, op_upd, op_ret.
  destruct (FRAME_FREE_CPU_CACHES w !! _) as [[|[p site] cache]|]; [by intros [= <- <-]| |done].
  destruct (transition_frame_state _ _ _ _) as [[[] w1]|] eqn:E; [|done]. apply transition_effect in E as (_ & E1 & E2).
  intros [= <- <-]. done.
Qed.

Lemma take_dirty_scan_effect idxs w r w' : take_dirty_scan idxs w = Some (r, w') ->
  ANON_ZEROED_FRAME_CPU_CACHES w' = ANON_ZEROED_FRAME_CPU_CACHES w.
Proof.
  revert w. induction idxs as [|i idxs IH]; intros w; cbn [take_dirty_scan]; [by intros [= <- <-]|].
  unfold op_bind, op_get, op_lift, op_upd, op_ret. destruct (ANON_DIRTY_FRAME_CPU_CACHES w !! i) as [[|p cache]|]; [apply IH| |done].
  by intros [= <- <-].
Qed.

Lemma scan_order_lt hart : Forall (fun i => i < n)%nat (scan_order n hart).
Proof.
  apply Forall_forall. intros i (x & -> & _)%list_elem_of_fmap. apply Nat.mod_upper_bound. lia.
Qed.

Lemma scan_order_first hart : frame_cpu_index n hart ∈ scan_order n hart.
Proof.
  unfold scan_order. apply list_elem_of_fmap. exists 0%nat. split; [|apply elem_of_seq; lia].
  rewrite Nat.add_0_r, Nat.mod_small; [done|apply idx_lt; done].
Qed.

(** ** Anonymous frames *)

Lemma pop_dirty_spec own c hart :
  triple (quiet own c) (pop_dirty_anon_frame n hart) (fun r w =>
    match r with
    | None => quiet own c w /\ ANON_DIRTY_FRAME_CPU_CACHES w !! frame_cpu_index n hart = Some []
    | Some p => G own [(p, KOwn)] 0 0 c w
    end).
Proof.
  intros w HG. destruct (take_dirty_section n Hn ix own [] 0 0 c (scan_order n hart) (scan_order_lt hart) w HG)
    as (r & w1 & E & HQ). unfold pop_dirty_anon_frame, take_dirty_anon_frame, op_bind. rewrite E.
  destruct r as [p|].
  - destruct HQ as (HW & Ei & Hc). exists (Some p), (add_anon_cached w1 (-1)). split; [done|].
    split; [|split; [done|exact Hc]]. apply (W_retag n own [] 0 0 _ p KDirty KOwn); [done|done|].
    exact (W_add_anon n Hn own _ 1 0 w1 (-1) HW).
  - destruct HQ as [HG1 Hall]. exists None, w1. split; [done|]. split; [done|].
    rewrite Forall_forall in Hall. apply Hall, scan_order_first.
Qed.

Lemma refill_and_extend own c hart w : quiet own c w ->
  ANON_DIRTY_FRAME_CPU_CACHES w !! frame_cpu_index n hart = Some [] ->
  exists r w', (got <- refill;;
      match got with
      | [] => op_ret None
      | result :: others =>
          (if negb (bool_decide (others = [])) then extend_dirty n hart others else op_ret tt);;;
          op_ret (Some (mkAnon result false))
      end) w = Some (r, w') /\
    match r with
    | None => quiet own c w' /\ all_held own [] w'
    | Some x => G own [(an_ppn x, KOwn)] 0 0 c w' /\ an_zeroed x = false
    end.
Proof.
  intros HG Hd. destruct (refill_section n Hn ix own [] 0 0 c w HG) as (got & w1 & E1 & HG1 & Hlen & Hnone).
  unfold op_bind. rewrite E1. destruct got as [|p others].
  { exists None, w1. split; [done|]. split; [done|]. intros q Hq. by apply Hnone. }
  exists (Some (mkAnon p false)). destruct others as [|x others].
  { exists w1. split; [done|]. split; [|done]. exact HG1. }
  destruct (extend_dirty_section n Hn ix own [(p, KOwn)] 0 0 c hart (x :: others) w1) as ([] & w2 & E2 & HG2).
  - split; [eapply G_perm; [|exact HG1]; simpl; solve_Permutation|]. exists [].
    apply locked_effect in E1 as (_ & -> & _). split; [done|]. simpl in *. lia.
  - exists w2. rewrite bool_decide_false by done. cbn [negb]. rewrite E2. done.
Qed.

Lemma profiled_once_spec own c hart :
  triple (quiet own c) (alloc_profiled_ppn_once n hart) (fun r w =>
    match r with
    | None => quiet own c w /\ all_held own [] w
    | Some x => G own [(an_ppn x, KOwn)] 0 0 c w /\ (an_zeroed x = true -> page w (an_ppn x) = zero_page)
    end).
Proof.
  eapply triple_bind with (R := fun r w => match r with None => quiet own c w
    | Some p => G own [(p, KOwn)] 0 0 c w /\ page w p = zero_page end).
  { intros w HG. unfold pop_zeroed_anon_frame, op_bind, op_get.
    destruct (ANON_ZEROED_FRAME_CACHED_COUNT w =? 0); [by exists None, w|].
    apply (pop_zeroed_section n Hn ix own [] 0 0 c (scan_order n hart) (scan_order_lt hart) w HG). }
  intros [p|]; [intros w [HG Hz]; by exists (Some (mkAnon p true)), w|].
  eapply triple_bind; [apply (pop_cpu_free_section n Hn)|]. intros [p|]; [intros w HG; by exists (Some (mkAnon p false)), w|].
  eapply (triple_conseq (quiet own c)); [by intros w [HG _]|intros x w Hx; exact Hx|].
  eapply triple_bind; [apply pop_dirty_spec|]. intros [p|]; [intros w HG; by exists (Some (mkAnon p false)), w|].
  intros w [HG Hd]. destruct (refill_and_extend own c hart w HG Hd) as (r & w' & E & HQ). exists r, w'. split; [done|].
  destruct r as [x|]; [|done]. destruct HQ as [HG' ->]. done.
Qed.

Lemma prezero_take_spec own c hart lf w : quiet own c w ->
  exists r w', prezero_take n hart lf w = Some (r, w') /\
    ANON_ZEROED_FRAME_CPU_CACHES w' = ANON_ZEROED_FRAME_CPU_CACHES w /\
    match r with
    | None => quiet own c w'
    | Some (p, already) => G own [(p, KOwn)] (if already then 1 else 0) 0 c w'
    end.
Proof.
  intros HG. unfold prezero_take, take_dirty_anon_frame, op_bind.
  destruct (take_dirty_section n Hn ix own [] 0 0 c (scan_order n hart) (scan_order_lt hart) w HG) as (r & w1 & E1 & HQ).
  rewrite E1. apply take_dirty_scan_effect in E1. destruct r as [p|].
  { exists (Some (p, true)), w1. split; [done|]. split; [done|]. destruct HQ as (HW & Ei & Hc).
    split; [by apply (W_retag n own [] _ _ _ p KDirty KOwn)|done]. }
  destruct HQ as [HG1 _]. destruct (pop_cpu_free_section n Hn ix own [] 0 0 c hart w1 HG1) as (r & w2 & E2 & HQ).
  rewrite E2. apply pop_cpu_free_effect in E2 as [_ E2]. destruct r as [p|].
  { exists (Some (p, false)), w2. split; [done|]. split; [congruence|done]. }
  destruct HQ as [HG2 _]. destruct lf; simpl; [|exists None, w2; split; [done|]; split; [congruence|done]].
  destruct (alloc_section n ix own [] 0 0 c w2 HG2) as (r & w3 & E3 & HQ). rewrite E3.
  apply locked_effect in E3 as (_ & _ & E3). exists (option_map (fun p => (p, false)) r), w3.
  split; [done|]. split; [congruence|]. destruct r as [p|]; [done|]. by destruct HQ.
Qed.

Lemma prezero_spec own c hart lf :
  triple (quiet own c) (prezero_one_anon_frame_on_idle n hart lf) (fun _ => quiet own c).
Proof.
  intros w HG. unfold prezero_one_anon_frame_on_idle, op_bind, op_get, op_lift.
  destruct (bool_decide _); [by exists false, w|]. pose proof HG as (HW & _).
  destruct (zeroed_lookup n own [] 0 0 w (frame_cpu_index n hart) HW (idx_lt n Hn hart)) as [cache Ec]. rewrite Ec.
  destruct (Nat.leb_spec ANON_ZEROED_FRAME_CACHE_CAPACITY (length cache)) as [_|Hroom]; [by exists false, w|].
  destruct (prezero_take_spec own c hart lf w HG) as (r & w1 & E1 & Ez & HQ). rewrite E1.
  destruct r as [[p already]|]; [|by exists false, w1]. set (a := if already then 1 else 0) in *.
  destruct (clear_section n ix own [] a 0 c p KOwn ltac:(done) w1 HQ) as ([] & w2 & E2 & HG2). rewrite E2.
  assert (Ez2 : ANON_ZEROED_FRAME_CPU_CACHES w2 = ANON_ZEROED_FRAME_CPU_CACHES w1) by (by injection E2 as <-).
  destruct (zeroed_transition n ix own [] a 0 c p w2 HG2) as ([] & w3 & E3 & HG3). rewrite E3.
  apply transition_effect in E3 as (_ & _ & Ez3).
  destruct (publish_zeroed_section n Hn ix own [] a 0 c hart p w3) as ([] & w4 & E4 & (HW4 & Ei4 & Hc4)).
  { split; [done|]. exists cache. split; [by rewrite Ez3, Ez2, Ez|done]. }
  rewrite E4. exists true. eexists. split; [reflexivity|]. split; [|split].
  - apply (W_add_zeroed n Hn own [] 0 (-1) _ 1). unfold a in HW4. destruct already; simpl; [exact HW4|].
    exact (W_add_anon n Hn own [] (-1) (-1) w4 1 HW4).
  - by destruct already.
  - intros q Hq. destruct already; by apply Hc4.
Qed.

(** ** Allocation with reclaim *)

(** What reclaim does is no concern here: the attempts before it succeed, or the
    drained allocator has nothing to give. *)
Section WithReclaim.
Context (try_reclaim : Z -> Op unit).

Lemma with_reclaim_spec {A} (once : Op (option A)) pages own c (S : A -> Frames -> Prop) (F : Frames -> Prop) w :
  triple (quiet own c) once (fun r w => match r with None => quiet own c w /\ F w | Some x => S x w end) ->
  (forall w w', once w = Some (None, w') -> drained w -> drained w') -> quiet own c w ->
  (exists x w', with_reclaim n try_reclaim once pages w = Some (Some x, w') /\ S x w') \/
  exists w1, quiet own c w1 /\ drained w1 /\ F w1.
Proof.
  intros Honce Hnone HG. unfold with_reclaim. unfold op_bind at 1.
  destruct (Honce w HG) as (r & w1 & E1 & H1). rewrite E1. destruct r as [x|]; [left; by exists x, w1|].
  destruct H1 as [HG1 _]. destruct (drains_spec own c w1 HG1) as ([] & w2 & E2 & HG2 & Hd).
  assert (Ed : forall (k : Op (option A)), (drain_free_frame_caches n;;; drain_anon_frame_caches n;;; k) w1 = k w2).
  { intros k. unfold op_bind in *. destruct (drain_free_frame_caches n w1) as [[? wx]|]; [|done].
    destruct (drain_anon_frame_caches n wx) as [[? wy]|]; [|done]. by injection E2 as _ ->. }
  rewrite Ed. unfold op_bind at 1.
  destruct (Honce w2 HG2) as (r & w3 & E3 & H3). rewrite E3. destruct r as [x|]; [left; by exists x, w3|].
  destruct H3 as [HG3 HF]. right. exists w3. split; [done|]. split; [by apply (Hnone w2)|done].
Qed.

Lemma pop_cpu_free_none hart w w' : pop_cpu_free_frame n hart w = Some (None, w') -> w' = w.
Proof.
  unfold pop_cpu_free_frame, op_bind, op_get, op_lift, op_upd, op_ret.
  destruct (FRAME_FREE_CPU_CACHES w !! _) as [[|[p site] cache]|]; [by intros [= <-]| |done].
  by destruct (transition_frame_state _ _ _ _) as [[[] w1]|].
Qed.

Lemma pop_zeroed_none hart w w' : pop_zeroed_anon_frame n hart w = Some (None, w') -> w' = w.
Proof.
  unfold pop_zeroed_anon_frame, op_bind at 1, op_get at 1.
  destruct (_ =? 0); [by intros [= <-]|]. generalize (scan_order n hart). intros idxs.
  induction idxs as [|i idxs IH]; cbn [pop_zeroed_scan]; [by intros [= <-]|].
  unfold op_bind, op_get, op_lift, op_upd, op_ret.
  destruct (ANON_ZEROED_FRAME_CPU_CACHES w !! i) as [[|p cache]|]; [apply IH| |done].
  by destruct (transition_frame_state _ _ _ _) as [[[] w1]|].
Qed.

Lemma pop_dirty_none hart w w' : pop_dirty_anon_frame n hart w = Some (None, w') -> w' = w.
Proof.
  unfold pop_dirty_anon_frame, take_dirty_anon_frame, op_bind at 1.
  destruct (take_dirty_scan _ w) as [[[p|] w1]|] eqn:E; [done| |done]. intros [= <-].
  revert E. generalize (scan_order n hart). intros idxs.
  induction idxs as [|i idxs IH]; cbn [take_dirty_scan]; [by intros [= <-]|].
  unfold op_bind, op_get, op_lift, op_upd, op_ret.
  destruct (ANON_DIRTY_FRAME_CPU_CACHES w !! i) as [[|p cache]|]; [apply IH|done|done].
Qed.

Lemma locked_drained {A} (g : BuddyFrameAllocator -> option (A * BuddyFrameAllocator)) w x w' :
  locked g w = Some (x, w') -> drained w -> drained w'.
Proof. intros (E1 & E2 & E3)%locked_effect. unfold drained. by rewrite E1, E2, E3. Qed.

Lemma alloc_once_none hart w w' : alloc_ppn_once n hart w = Some (None, w') -> drained w -> drained w'.
Proof.
  unfold alloc_ppn_once, op_bind. destruct (pop_cpu_free_frame n hart w) as [[[p|] w1]|] eqn:E; [done| |done].
  apply pop_cpu_free_none in E as ->. apply locked_drained.
Qed.

Lemma profiled_once_none hart w w' : alloc_profiled_ppn_once n hart w = Some (None, w') -> drained w -> drained w'.
Proof.
  unfold alloc_profiled_ppn_once, op_bind at 1.
  destruct (pop_zeroed_anon_frame n hart w) as [[[p|] w1]|] eqn:E; [done| |done]. apply pop_zeroed_none in E as ->.
  unfold op_bind at 1. destruct (pop_cpu_free_frame n hart w) as [[[p|] w1]|] eqn:E; [done| |done].
  apply pop_cpu_free_none in E as ->.
  unfold op_bind at 1. destruct (pop_dirty_anon_frame n hart w) as [[[p|] w1]|] eqn:E; [done| |done].
  apply pop_dirty_none in E as ->.
  unfold op_bind at 1. destruct (refill w) as [[[|p others] w1]|] eqn:E; [| |done].
  - intros [= <-]. by eapply locked_drained.
  - unfold op_bind. destruct (negb _); [by destruct (extend_dirty n hart others w1) as [[? ?]|]|done].
Qed.

(** What every allocation of one frame promises: the frame, unless all have owners. *)
Lemma alloc_ppn_spec own c hart w : quiet own c w ->
  (exists p w', alloc_ppn_with_reclaim n try_reclaim hart w = Some (Some p, w') /\ p ∉ own /\ G own [(p, KOwn)] 0 0 c w') \/
  forall q : Z, indexed q -> q ∈ own.
Proof.
  intros HG. destruct (with_reclaim_spec (alloc_ppn_once n hart) 1 own c (fun p w => G own [(p, KOwn)] 0 0 c w) (all_held own []) w
    (alloc_once_spec own [] 0 0 c hart) (alloc_once_none hart) HG) as [(p & w1 & E & HG1)|(w1 & HG1 & Hd & Hall)].
  - left. exists p, (add_alloc_count w1 1). unfold alloc_ppn_with_reclaim, op_bind. rewrite E. split; [done|].
    split; [by eapply fly_not_own|]. destruct HG1 as (HW & Ei & Hc). split; [by apply W_add_alloc|done].
  - right. intros q Hq. by apply (drained_held own w1 q Hd), Hall.
Qed.

Lemma profiled_ppn_spec own c hart w : quiet own c w ->
  (exists x w', alloc_profiled_ppn_with_reclaim n try_reclaim hart w = Some (Some x, w') /\ an_ppn x ∉ own /\ G own [(an_ppn x, KOwn)] 0 0 c w' /\
    (an_zeroed x = true -> page w' (an_ppn x) = zero_page)) \/
  forall q : Z, indexed q -> q ∈ own.
Proof.
  intros HG. destruct (with_reclaim_spec (alloc_profiled_ppn_once n hart) 1 own c
    (fun x w => G own [(an_ppn x, KOwn)] 0 0 c w /\ (an_zeroed x = true -> page w (an_ppn x) = zero_page)) (all_held own []) w
    (profiled_once_spec own c hart) (profiled_once_none hart) HG) as [(x & w1 & E & HG1 & Hz)|(w1 & HG1 & Hd & Hall)].
  - left. exists x, (add_alloc_count w1 1). unfold alloc_profiled_ppn_with_reclaim, op_bind. rewrite E. split; [done|].
    split; [by eapply fly_not_own|]. split; [|done]. destruct HG1 as (HW & Ei & Hc). split; [by apply W_add_alloc|done].
  - right. intros q Hq. by apply (drained_held own w1 q Hd), Hall.
Qed.

End WithReclaim.

End Interface.

(** ** Statements without ghosts *)

(** Owners [own] and the caches hold every frame that was handed out, each
    once, and the counters are exact. *)
Definition consistent (n : nat) (own : list Z) (w : Frames) : Prop :=
  G n (FRAME_STATE_INDEX w) own [] 0 0 (page w) w.

Section Properties.
Context (n : nat) (Hn : (0 < n)%nat).

Lemma consistent_G own w : consistent n own w -> exists ix, FRAME_STATE_INDEX w = ix /\ G n ix own [] 0 0 (page w) w.
Proof. intros H. by exists (FRAME_STATE_INDEX w). Qed.

Lemma G_consistent ix own c w : G n ix own [] 0 0 c w -> consistent n own w.
Proof. intros (H & E & _). split; [done|]. by split. Qed.

Lemma G_take ix own p c w : G n ix own [(p, KOwn)] 0 0 c w -> consistent n (p :: own) w.
Proof. intros (H & E & _). split; [by apply W_own|]. by split. Qed.

Lemma G_takes ix own l c w : G n ix own (toks KOwn l ++ []) 0 0 c w -> consistent n (l ++ own) w.
Proof. intros (H & E & _). split; [by apply W_owns|]. by split. Qed.

(** A frame is granted with the contents [v]. *)
Definition grants (own : list Z) (w : Frames) (p : Z) (v : BuddyNode * bytes) (w' : Frames) : Prop :=
  (p ∉ own) /\ consistent n (p :: own) w' /\ page w' p = v /\ forall q, q ∈ own -> page w' q = page w q.

(** Some frame of memory has no owner; it may be in a cache. *)
Definition unowned (own : list Z) (w : Frames) (q : Z) : Prop := managed (FRAME_ALLOCATOR w) q /\ q ∉ own.

Lemma not_all_owned ix own q w : G n ix own [] 0 0 (page w) w -> unowned own w q -> ~ (forall q : Z, indexed ix q -> q ∈ own).
Proof. intros HG [Hm Hn'] Hall. apply Hn', Hall. by apply (indexed_managed n ix own [] 0 0 (page w) w). Qed.

Lemma granted_write ix own c p w m b : p ∉ own -> G n ix own [(p, KOwn)] 0 0 c w ->
  consistent n (p :: own) (with_page w p m b) /\ page (with_page w p m b) p = (m, b) /\ forall q, q ∈ own -> page (with_page w p m b) q = c q.
Proof.
  intros Hp HG. destruct (write_section n ix own [] 0 0 c p KOwn m b ltac:(done) Hp w HG) as ([] & w' & [= <-] & HG' & Hpg).
  split; [by eapply G_take|]. split; [done|]. apply HG'.
Qed.

(** [frame_alloc].  From every consistent state, on every CPU and whatever reclaim
    would do, [frame_alloc], when no other CPU is in the allocator meanwhile, returns
    a frame whenever some frame of memory has no owner, though it be in a cache of
    another CPU.  The frame is cleared, is owned by nobody else, and the other
    owners' frames keep their contents. *)
Theorem frame_alloc_correct try_reclaim hart own w q : consistent n own w -> unowned own w q ->
  exists p w', frame_alloc n try_reclaim hart w = Some (Some p, w') /\ grants own w p zero_page w'.
Proof.
  intros HC Hq. destruct (consistent_G own w HC) as (ix & _ & HG).
  destruct (alloc_ppn_spec n Hn ix try_reclaim own (page w) hart w HG) as [(p & w1 & E & Hp & HG1)|Hall]; [|by destruct (not_all_owned ix own q w HG Hq)].
  exists p, (with_page w1 p zero_node zero_body). unfold frame_alloc, op_bind. rewrite E. split; [done|]. split; [done|]. by apply (granted_write ix).
Qed.

(** anonymous frames.  [frame_alloc_profiled] skips the clearing of a frame
    from the pre-zeroed caches and still returns only cleared frames: in every
    consistent state, whichever cache served the request. *)
Theorem frame_alloc_profiled_correct try_reclaim hart own w q : consistent n own w -> unowned own w q ->
  exists p w', frame_alloc_profiled n try_reclaim hart w = Some (Some p, w') /\ grants own w p zero_page w'.
Proof.
  intros HC Hq. destruct (consistent_G own w HC) as (ix & _ & HG).
  destruct (profiled_ppn_spec n Hn ix try_reclaim own (page w) hart w HG) as [([p z] & w1 & E & Hp & HG1 & Hz)|Hall]; [|by destruct (not_all_owned ix own q w HG Hq)].
  unfold frame_alloc_profiled, op_bind. rewrite E. simpl in *. destruct z.
  - exists p, w1. split; [done|]. split; [done|]. split; [by eapply G_take|]. split; [by apply Hz|]. apply HG1.
  - exists p, (with_page w1 p zero_node zero_body). split; [done|]. split; [done|]. by apply (granted_write ix).
Qed.

Lemma words_node bs : is_bytes bs -> (32 <= length bs)%nat -> node_bytes (words_of bs) ++ drop 32 bs = bs.
Proof.
  intros Hb Hl. unfold node_bytes, words_of. simpl n_previous. simpl n_next. simpl n_order. simpl n_checksum.
  assert (Hs : forall a b, (b - a = 8)%nat -> (b <= length bs)%nat -> le_store 8 (le_load (slice a b bs)) = slice a b bs).
  { intros a b E Hle. rewrite <- (le_store_load (slice a b bs)) at 2 by (by apply slice_bytes).
    rewrite slice_length by done. by rewrite E. }
  rewrite !Hs by lia. unfold slice. simpl Nat.sub. rewrite drop_0.
  assert (Hd : forall k k', (k' = k + 8)%nat -> take 8 (drop k bs) ++ drop k' bs = drop k bs)
    by (intros k k' ->; rewrite <- drop_drop; apply take_drop).
  rewrite <- !app_assoc, (Hd 24%nat 32%nat), (Hd 16%nat 24%nat), (Hd 8%nat 16%nat) by done. apply take_drop.
Qed.

(** copies.  [frame_alloc_copy_from] returns a frame whose bytes are the
    source followed by zeros, under the same conditions. *)
Theorem frame_alloc_copy_correct try_reclaim hart source own w q : consistent n own w -> unowned own w q ->
  is_bytes source -> Z.of_nat (length source) <= PAGE_SIZE ->
  exists p w', frame_alloc_copy_from n try_reclaim hart source w = Some (Some p, w') /\
    (exists v, grants own w p v w') /\ page_bytes w' p = source ++ replicate (Z.to_nat PAGE_SIZE - length source) 0.
Proof.
  intros HC Hq Hb Hlen. destruct (consistent_G own w HC) as (ix & _ & HG).
  unfold frame_alloc_copy_from, op_bind, op_lift. rewrite (proj2 (Z.leb_le _ _) Hlen). cbn [assert].
  destruct (alloc_ppn_spec n Hn ix try_reclaim own (page w) hart w HG) as [(p & w1 & E & Hp & HG1)|Hall]; [|by destruct (not_all_owned ix own q w HG Hq)].
  rewrite E. set (bs := source ++ _). exists p, (with_page w1 p (words_of bs) (drop 32 bs)). split; [done|].
  split; [eexists; split; [done|]; by apply (granted_write ix)|]. unfold page_bytes, with_page. simpl.
  rewrite !lookup_total_insert_eq. apply words_node.
  - apply Forall_app. split; [done|]. apply Forall_replicate. unfold is_byte. lia.
  - unfold bs. rewrite length_app, length_replicate. unfold PAGE_SIZE in *. lia.
Qed.

(** release.  Returning an owned frame from any CPU does not panic, removes
    exactly that owner, keeps all other owners' contents and the consistency of
    caches and counters, also when the cache of the CPU is full and is flushed. *)
Theorem frame_dealloc_correct hart p site own w : consistent n own w -> p ∈ own ->
  exists own' w', frame_dealloc_with_site n hart p site w = Some (tt, w') /\ own ≡ₚ p :: own' /\
    consistent n own' w' /\ forall q, q ∈ own' -> page w' q = page w q.
Proof.
  intros HC Hp. destruct (consistent_G own w HC) as (ix & _ & HG).
  destruct (cache_deallocated_spec n Hn ix own (page w) hart p site Hp) as (own' & E & Ht).
  destruct (Ht w HG) as ([] & w1 & E1 & (HW & Ei & Hc)). exists own', (add_free_count w1 1).
  unfold frame_dealloc_with_site, op_bind. rewrite E1. split; [done|]. split; [done|].
  split; [|exact Hc]. split; [by apply W_add_free|]. by split.
Qed.

Lemma holders_length own w : Z.of_nat (length (holders w own)) = Z.of_nat (length own) +
  size (FRAME_FREE_CPU_CACHES w) + size (ANON_DIRTY_FRAME_CPU_CACHES w) + size (ANON_ZEROED_FRAME_CPU_CACHES w).
Proof. unfold holders, toks. rewrite !length_app, !length_map. lia. Qed.

(** statistics.  In every consistent state the reported numbers are exact:
    the pages in use are the owners' pages, whatever the caches hold, and free and
    used pages add up to the total. *)
Theorem frame_stats_exact own w : consistent n own w ->
  let st := frame_stats w in
  st_used_pages st = Z.of_nat (length own) /\ st_free_pages st + st_used_pages st = st_total_pages st /\
  get_free_memory w = (total_pages (FRAME_ALLOCATOR w) - Z.of_nat (length own)) mod 2 ^ 52 * PAGE_SIZE.
Proof.
  intros (HW & _ & _). pose proof (w_tok _ _ _ _ _ _ HW) as [(fl & I & C) Ht _ _ _ _]. simpl in C.
  pose proof (holders_length own w) as Hl. simpl in Hl.
  pose proof (free_count_nonneg fl). pose proof (fresh_sum_nonneg _ (b_ranges _ _ _ (i_blocks _ _ _ I))).
  unfold get_free_memory, frame_stats, cached_pages, saturating_add, saturating_sub.
  cbn [st_used_pages st_free_pages st_total_pages].
  rewrite (w_cpu _ _ _ _ _ _ HW), (w_anon _ _ _ _ _ _ HW), (free_pages_eq _ fl nowhere I), total_pages_eq.
  rewrite Z.add_0_r. unfold free_total in *.
  set (f := size (FRAME_FREE_CPU_CACHES w)) in *. set (d := size (ANON_DIRTY_FRAME_CPU_CACHES w)) in *.
  set (zc := size (ANON_ZEROED_FRAME_CPU_CACHES w)) in *. assert (0 <= f /\ 0 <= d /\ 0 <= zc) by (unfold f, d, zc; lia).
  rewrite !(wrap_small 64 f), !(wrap_small 64 (d + zc)), !(wrap_small 64 (fresh_sum _ + _)), !(wrap_small 64 (total_sum _))
    by (unfold in_u; lia).
  rewrite !Z.min_l by (rewrite ?Z.min_l; lia). rewrite !Z.max_r by lia. split; [lia|]. split; [lia|].
  replace (fresh_sum (ranges (FRAME_ALLOCATOR w)) + count fl + (f + (d + zc)))
    with (total_sum (ranges (FRAME_ALLOCATOR w)) - Z.of_nat (length own)) by lia.
  unfold wrap, PAGE_SIZE. change (2 ^ 64) with (2 ^ 52 * 4096). rewrite Z.mul_mod_distr_r by lia. done.
Qed.

(** maintenance.  Pre-clearing on an idle CPU (whether or not it gets the
    allocator lock) and draining the caches do not panic, keep the state
    consistent for the same owners and leave their frames alone. *)
Theorem frame_maintenance_safe hart lock_free own w : consistent n own w ->
  (exists b w', prezero_one_anon_frame_on_idle n hart lock_free w = Some (b, w') /\ consistent n own w' /\
     forall q, q ∈ own -> page w' q = page w q) /\
  (exists w', (drain_free_frame_caches n;;; drain_anon_frame_caches n) w = Some (tt, w') /\ consistent n own w' /\
     drained w' /\ forall q, q ∈ own -> page w' q = page w q).
Proof.
  intros HC. destruct (consistent_G own w HC) as (ix & _ & HG). split.
  - destruct (prezero_spec n Hn ix own (page w) hart lock_free w HG) as (b & w' & E & HG'). exists b, w'.
    split; [done|]. split; [by eapply G_consistent|]. apply HG'.
  - destruct (drains_spec n Hn ix own (page w) w HG) as ([] & w' & E & HG' & Hd). exists w'.
    split; [done|]. split; [by eapply G_consistent|]. split; [done|]. apply HG'.
Qed.

Lemma clear_pages_spec ix own c : forall l fly w, G n ix own (toks KOwn l ++ fly) 0 0 c w ->
  exists w', clear_pages l w = Some (tt, w') /\ G n ix own (toks KOwn l ++ fly) 0 0 c w' /\
    (forall q, q ∈ l -> page w' q = zero_page) /\ forall q, q ∉ l -> page w' q = page w q.
Proof.
  induction l as [|p l IH]; intros fly w HG.
  { exists w. split_and!; try done. intros q Hq. by apply elem_of_nil in Hq. }
  cbn [clear_pages]. unfold op_bind.
  destruct (clear_section n ix own (toks KOwn l ++ fly) 0 0 c p KOwn ltac:(done) w HG) as ([] & w1 & E1 & HG1 & Hz).
  rewrite E1. destruct (IH ((p, KOwn) :: fly) w1) as (w2 & E2 & HG2 & Hl & Ho).
  { eapply G_perm; [|exact HG1]. solve_Permutation. }
  rewrite E2. exists w2. split; [done|]. split; [eapply G_perm; [|exact HG2]; simpl; solve_Permutation|].
  assert (Hp1 : forall q, q <> p -> page w1 q = page w q).
  { intros q Hq. injection E1 as <-. change (page (with_page w p zero_node zero_body) q = page w q).
    by rewrite page_write, decide_False. }
  split.
  - intros q [->|Hq]%elem_of_cons; [|by apply Hl]. destruct (decide (p ∈ l)); [by apply Hl|]. by rewrite Ho.
  - intros q Hq. apply not_elem_of_cons in Hq as [Hne Hq]. rewrite Ho by done. by apply Hp1.
Qed.

(** extents of trackers.  When no other CPU is in the allocator meanwhile,
    [frame_alloc_contiguous] returns exactly the requested number of consecutive
    frames, cleared, owned by nobody else, and keeps the other owners' frames; or the
    allocator, with all caches drained into it, has no such extent. *)
Theorem frame_alloc_contiguous_correct try_reclaim pages own w : consistent n own w -> 0 <= pages ->
  (exists l w', frame_alloc_contiguous n try_reclaim pages w = Some (Some l, w') /\
    (exists s, l = seqZ s pages) /\ consistent n (l ++ own) w' /\ (forall q, q ∈ l -> page w' q = zero_page) /\ forall q, q ∈ own -> page w' q = page w q) \/
  exists w1, consistent n own w1 /\ drained w1 /\ locked (alloc_contiguous pages 1) w1 = Some (None, w1).
Proof.
  intros HC Hp. destruct (consistent_G own w HC) as (ix & _ & HG).
  destruct (with_reclaim_spec n Hn ix try_reclaim (locked (alloc_contiguous pages 1)) pages own (page w)
    (fun ex w' => ex_pages ex = pages /\ G n ix own (toks KOwn (seqZ (ex_start ex) pages) ++ []) 0 0 (page w) w')
    (fun w' => locked (alloc_contiguous pages 1) w' = Some (None, w')) w) as [(ex & w1 & E1 & <- & HG1)|(w1 & HG1 & Hd & F)].
  - apply (contiguous_section n ix own [] 0 0 (page w) pages 1 Hp).
  - intros w1 w2. apply locked_drained.
  - done.
  - left. destruct HG1 as (HW & Ei & Hc).
    destruct (clear_pages_spec ix own (page w) (seqZ (ex_start ex) (ex_pages ex)) [] (add_alloc_count w1 (ex_pages ex)))
      as (w2 & E2 & HG2 & Hz & _).
    { split; [by apply W_add_alloc|]. by split. }
    unfold frame_alloc_contiguous, op_bind. rewrite E1. unfold op_upd. rewrite E2. eexists _, w2. split; [reflexivity|]. split; [by eexists|].
    split; [by eapply G_takes|]. split; [done|]. apply HG2.
  - right. exists w1. split; [by eapply G_consistent|]. by split.
Qed.

(** heap extents.  [frame_alloc_heap_extent] does not panic and never
    reclaims; on success the extent has the requested size and is owned by nobody
    else. *)
Theorem frame_heap_extent_correct pages align min_free own w : consistent n own w -> 0 <= pages ->
  exists r w', frame_alloc_heap_extent n pages align min_free w = Some (r, w') /\
    (forall q, q ∈ own -> page w' q = page w q) /\
    match r with
    | Some ex => ex_pages ex = pages /\ consistent n (seqZ (ex_start ex) pages ++ own) w'
    | None => consistent n own w'
    end.
Proof.
  intros HC Hp. destruct (consistent_G own w HC) as (ix & _ & HG).
  unfold frame_alloc_heap_extent, op_bind, op_get. destruct (_ <? min_free); [exists None, w; by split|].
  pose proof (contiguous_section n ix own [] 0 0 (page w) pages align Hp) as Hsec.
  assert (Hfin : forall r w1, (match r with None => G n ix own [] 0 0 (page w) w1
      | Some ex => ex_pages ex = pages /\ G n ix own (toks KOwn (seqZ (ex_start ex) pages) ++ []) 0 0 (page w) w1 end) ->
    exists r' w', match r with None => op_ret None w1
      | Some ex => op_bind (op_upd (fun w => add_alloc_count w (ex_pages ex))) (fun _ => op_ret (Some ex)) w1 end = Some (r', w') /\
    (forall q, q ∈ own -> page w' q = page w q) /\
    match r' with Some ex => ex_pages ex = pages /\ consistent n (seqZ (ex_start ex) pages ++ own) w' | None => consistent n own w' end).
  { intros [ex|] w1 H1.
    - destruct H1 as [<- (HW & Ei & Hc)]. exists (Some ex), (add_alloc_count w1 (ex_pages ex)). split; [done|]. split; [exact Hc|].
      split; [done|]. apply (G_takes ix _ _ (page w)). split; [by apply W_add_alloc|done].
    - exists None, w1. split; [done|]. split; [apply H1|by eapply G_consistent]. }
  destruct (Hsec w HG) as (r & w1 & E1 & H1). rewrite E1. destruct r as [ex|]; [by apply (Hfin (Some ex))|].
  destruct (drains_spec n Hn ix own (page w) w1 (proj1 H1)) as ([] & w2 & E2 & HG2 & _). unfold op_bind in E2.
  destruct (drain_free_frame_caches n w1) as [[? wx]|]; [|done].
  destruct (drain_anon_frame_caches n wx) as [[? wy]|]; [|done]. injection E2 as _ ->.
  destruct (_ <? min_free); [by apply (Hfin None)|].
  destruct (Hsec w2 HG2) as (r & w3 & E3 & H3). rewrite E3. destruct r as [ex|]; [by apply (Hfin (Some ex))|by apply (Hfin None), H3].
Qed.

(** ** Boot *)

Lemma boot_consistent areas m b : areas_ok areas ->
  exists w, frames_boot n areas m b = Some w /\ consistent n [] w /\
    forall q, managed (FRAME_ALLOCATOR w) q <-> served areas q.
Proof.
  intros Ha. destruct (init_spec areas m Ha) as (st & E & Hb & Hm). unfold frames_boot. rewrite E.
  unfold publish_frame_state_index, op_bind, op_get, op_lift, op_upd. simpl.
  eexists. split; [reflexivity|]. split; [|done].
  assert (Ec : forall A k, concat (replicate k (@nil A)) = []) by (intros A k; induction k; done).
  assert (Hcap : forall A k c, Forall (fun l : list A => (length l <= c)%nat) (replicate k [])).
  { intros A k c. apply Forall_forall. intros l Hl. apply elem_of_replicate in Hl as [-> _]. simpl. lia. }
  split; [|by split]. split; cbn [FRAME_FREE_CPU_CACHES ANON_DIRTY_FRAME_CPU_CACHES ANON_ZEROED_FRAME_CPU_CACHES
    FRAME_CPU_CACHED_COUNT ANON_FRAME_CACHED_COUNT ANON_ZEROED_FRAME_CACHED_COUNT with_index]; rewrite ?length_replicate, ?Ec; try done.
  unfold holders. simpl. rewrite !Ec. simpl. split; simpl; try done.
  - exists (fun _ => []). split; [by apply booted_inv|]. unfold free_total, count. simpl. rewrite !Z.add_0_r.
    assert (Ef : forall rs, (forall r, r ∈ rs -> fr_current r = fr_start r) -> fresh_sum rs = total_sum rs).
    { induction rs as [|r rs IH]; intros Hc; simpl; [done|]. rewrite (Hc r) by left.
      rewrite IH by (intros; apply Hc; by right). done. }
    apply Ef. intros r Hr. by apply (bt_current _ Hb).
  - rewrite (bt_total _ Hb). apply (wr_size _ (bt_ranges _ Hb)).
  - constructor.
  - intros q. split; [intros Hq; by apply elem_of_nil in Hq|intros Hq; by apply booted_unused in Hq].
  - intros q k Hq. by apply elem_of_nil in Hq.
Qed.

End Properties.

(** ** The hypotheses hold: a machine with eight frames and two CPUs *)

Definition demo_frames : Frames :=
  default (mkFrames demo_boot [] ∅ [] [] [] 0 0 0 0 0) (frames_boot 2 demo_areas ∅ ∅).
Lemma two_cpus : (0 < 2)%nat.
Proof. lia. Qed.

(** A reclaim that would panic: it is not reached. *)
Definition bad_reclaim : Z -> Op unit := fun _ _ => None.

Lemma demo_consistent : consistent 2 [] demo_frames.
Proof.
  destruct (boot_consistent 2 two_cpus demo_areas ∅ ∅ demo_areas_ok) as (w & E & H & _).
  unfold demo_frames. by rewrite E.
Qed.

Lemma demo_unowned : unowned [] demo_frames 0x80001.
Proof.
  assert (Hr : ranges (FRAME_ALLOCATOR demo_frames) = [mkFrameRange 524288 524288 524296 0]) by (vm_compute; reflexivity).
  split; [|set_solver]. unfold managed. rewrite Hr. eexists. split; [left|]. unfold in_range. simpl. lia.
Qed.

(** The state after one allocation, and the frame it gave. *)
Definition demo_owned : Frames :=
  match alloc_ppn_with_reclaim 2 bad_reclaim 0 demo_frames with Some (_, w) => w | None => demo_frames end.

Lemma demo_owned_consistent : consistent 2 [0x80000] demo_owned.
Proof.
  destruct (consistent_G 2 [] demo_frames demo_consistent) as (ix & _ & HG).
  assert (Er : option_map fst (alloc_ppn_with_reclaim 2 bad_reclaim 0 demo_frames) = Some (Some 0x80000)) by (vm_compute; reflexivity).
  destruct (alloc_ppn_spec 2 two_cpus ix bad_reclaim [] (page demo_frames) 0 _ HG) as [(p & w & E & _ & HG')|Hall].
  - unfold demo_owned. rewrite E in Er |- *. injection Er as ->. by eapply G_take.
  - exfalso. by apply (not_all_owned 2 ix [] 0x80001 demo_frames HG demo_unowned).
Qed.

Lemma demo_owned_free : unowned [0x80000] demo_owned 0x80001.
Proof.
  assert (Hr : ranges (FRAME_ALLOCATOR demo_owned) = [mkFrameRange 524288 524289 524296 0]) by (vm_compute; reflexivity).
  split; [|set_solver]. unfold managed. rewrite Hr. eexists. split; [left|]. unfold in_range. simpl. lia.
Qed.

Lemma frame_alloc_correct_witness : exists p w', frame_alloc 2 bad_reclaim 1 demo_frames = Some (Some p, w') /\ grants 2 [] demo_frames p zero_page w'.
Proof. exact (frame_alloc_correct 2 two_cpus bad_reclaim 1 [] demo_frames 0x80001 demo_consistent demo_unowned). Defined.

Lemma frame_alloc_profiled_correct_witness : exists p w',
  frame_alloc_profiled 2 bad_reclaim 1 demo_owned = Some (Some p, w') /\ grants 2 [0x80000] demo_owned p zero_page w'.
Proof. exact (frame_alloc_profiled_correct 2 two_cpus bad_reclaim 1 [0x80000] demo_owned 0x80001 demo_owned_consistent demo_owned_free). Defined.

Lemma frame_alloc_copy_correct_witness : exists p w',
  frame_alloc_copy_from 2 bad_reclaim 0 [1; 2; 3] demo_frames = Some (Some p, w') /\ (exists v, grants 2 [] demo_frames p v w') /\
  page_bytes w' p = [1; 2; 3] ++ replicate (Z.to_nat PAGE_SIZE - 3) 0.
Proof. apply (frame_alloc_copy_correct 2 two_cpus bad_reclaim 0 [1; 2; 3] [] demo_frames 0x80001 demo_consistent demo_unowned); [by repeat constructor|by vm_compute]. Defined.

Lemma frame_dealloc_correct_witness : exists w',
  frame_dealloc_with_site 2 1 0x80000 0 demo_owned = Some (tt, w') /\ consistent 2 [] w'.
Proof.
  destruct (frame_dealloc_correct 2 two_cpus 1 0x80000 0 [0x80000] demo_owned demo_owned_consistent) as (own' & w' & E & Hp & HC & _);
    [by left|].
  apply Permutation_cons_inv, Permutation_nil in Hp. subst own'. exists w'. split; [exact E|exact HC].
Defined.

Lemma frame_stats_exact_witness :
  st_used_pages (frame_stats demo_owned) = 1 /\ get_free_memory demo_owned = 7 * PAGE_SIZE.
Proof.
  destruct (frame_stats_exact 2 two_cpus [0x80000] demo_owned demo_owned_consistent) as (H1 & _ & H3). split; [exact H1|].
  rewrite H3. vm_compute. reflexivity.
Defined.

Lemma frame_maintenance_safe_witness : exists b w',
  prezero_one_anon_frame_on_idle 2 1 true demo_owned = Some (b, w') /\ consistent 2 [0x80000] w'.
Proof.
  destruct (proj1 (frame_maintenance_safe 2 two_cpus 1 true [0x80000] demo_owned demo_owned_consistent)) as (b & w' & E & H & _).
  exists b, w'. split; [exact E|exact H].
Defined.

Lemma frame_alloc_contiguous_correct_witness :
  (exists l w', frame_alloc_contiguous 2 bad_reclaim 3 demo_owned = Some (Some l, w') /\
    (exists s, l = seqZ s 3) /\ consistent 2 (l ++ [0x80000]) w' /\ (forall q, q ∈ l -> page w' q = zero_page) /\ forall q, q ∈ [0x80000] -> page w' q = page demo_owned q) \/
  exists w1, consistent 2 [0x80000] w1 /\ drained w1 /\ locked (alloc_contiguous 3 1) w1 = Some (None, w1).
Proof. apply (frame_alloc_contiguous_correct 2 two_cpus bad_reclaim 3 [0x80000] demo_owned demo_owned_consistent). lia. Defined.

Lemma frame_heap_extent_correct_witness : exists ex w',
  frame_alloc_heap_extent 2 4 4 0 demo_owned = Some (Some ex, w') /\ consistent 2 (seqZ (ex_start ex) 4 ++ [0x80000]) w'.
Proof.
  destruct (frame_heap_extent_correct 2 two_cpus 4 4 0 [0x80000] demo_owned demo_owned_consistent) as (r & w' & E & _ & H); [lia|].
  assert (Er : match frame_alloc_heap_extent 2 4 4 0 demo_owned with Some (Some _, _) => true | _ => false end = true)
    by (vm_compute; reflexivity).
  rewrite E in Er. destruct r as [ex|]; [|discriminate Er]. exists ex, w'. split; [exact E|exact (proj2 H)].
Defined.
