(* ===== verification/PipeRing.v ===== *)
(** * Pipes: the ring buffer (os/src/fs/pipe.rs)

    A pipe stores its bytes in a ring of [capacity] bytes, spread over pages
    that are allocated when data is written to them and released when the last
    byte in them is consumed.  [head] and [tail] are offsets in the ring;
    [status] tells a full ring from an empty one.

    This file holds [PipeRingBuffer] with its operations; [PipeRingSpec] shows
    that they implement a bounded queue.

    Offsets are below the capacity, which is at most [PIPE_MAX_SIZE], so the
    additions and subtractions of the source do not wrap.  A mutable slice
    that an operation fills from its start is the list of the bytes stored in
    it.  [None] is a panic. *)

From S2P Require Import Prelude SysErr.

Definition DEFAULT_PIPE_CAPACITY : Z := 4096 * 16.
Definition PIPE_BUF : Z := 4096.
Definition PIPE_MAX_SIZE : Z := 1024 * 1024.
Definition PIPE_SIZE_LIMIT : Z := Z.shiftl 1 31.

(** The [static] counters. *)
Record PipeCounters := mkCounters {
  PIPE_BUFFER_CREATE_COUNT : Z;
  PIPE_BUFFER_DROP_COUNT : Z;
  PIPE_PAGE_ALLOC_COUNT : Z;
  PIPE_PAGE_DROP_COUNT : Z;
  PIPE_CURRENT_PAGES : Z;
  PIPE_PEAK_PAGES : Z }.

Abbreviation PipePage := bytes (only parsing).

(** [PipePage::new_zeroed].  The loop on the peak ends with its maximum with
    the current number. *)
Definition new_zeroed (c : PipeCounters) : PipePage * PipeCounters :=
  let current := usize (PIPE_CURRENT_PAGES c + 1) in
  (replicate (Z.to_nat PAGE_SIZE) 0,
   mkCounters (PIPE_BUFFER_CREATE_COUNT c) (PIPE_BUFFER_DROP_COUNT c)
     (usize (PIPE_PAGE_ALLOC_COUNT c + 1)) (PIPE_PAGE_DROP_COUNT c) current
     (if PIPE_PEAK_PAGES c <? current then current else PIPE_PEAK_PAGES c)).

(** [Drop for PipePage], for [n] pages. *)
Definition drop_pages (n : nat) (c : PipeCounters) : PipeCounters :=
  mkCounters (PIPE_BUFFER_CREATE_COUNT c) (PIPE_BUFFER_DROP_COUNT c)
    (PIPE_PAGE_ALLOC_COUNT c) (usize (PIPE_PAGE_DROP_COUNT c + Z.of_nat n))
    (usize (PIPE_CURRENT_PAGES c - Z.of_nat n)) (PIPE_PEAK_PAGES c).

Inductive RingBufferStatus := Full | Empty | Normal.

#[export] Instance RingBufferStatus_eq_dec : EqDecision RingBufferStatus.
Proof. solve_decision. Defined.

Record PipeRingBuffer := mkRing {
  pages : list (option PipePage);
  capacity : Z;
  head : Z;
  tail : Z;
  status : RingBufferStatus;
  read_end_open : bool;
  write_end_open : bool;
  read_waiters : list Z;
  write_waiters : list Z;
  poll_waiters : list Z }.

Section RingSetters.
Context (r : PipeRingBuffer).
Definition with_pages v := mkRing v (capacity r) (head r) (tail r) (status r)
  (read_end_open r) (write_end_open r) (read_waiters r) (write_waiters r) (poll_waiters r).
Definition with_head h s := mkRing (pages r) (capacity r) h (tail r) s
  (read_end_open r) (write_end_open r) (read_waiters r) (write_waiters r) (poll_waiters r).
Definition with_tail t s := mkRing (pages r) (capacity r) (head r) t s
  (read_end_open r) (write_end_open r) (read_waiters r) (write_waiters r) (poll_waiters r).
Definition with_ends ro wo := mkRing (pages r) (capacity r) (head r) (tail r) (status r)
  ro wo (read_waiters r) (write_waiters r) (poll_waiters r).
Definition with_read_waiters v := mkRing (pages r) (capacity r) (head r) (tail r) (status r)
  (read_end_open r) (write_end_open r) v (write_waiters r) (poll_waiters r).
Definition with_write_waiters v := mkRing (pages r) (capacity r) (head r) (tail r) (status r)
  (read_end_open r) (write_end_open r) (read_waiters r) v (poll_waiters r).
Definition with_poll_waiters v := mkRing (pages r) (capacity r) (head r) (tail r) (status r)
  (read_end_open r) (write_end_open r) (read_waiters r) (write_waiters r) v.
End RingSetters.

(** [PipeRingBuffer::new], with the counter it increments. *)
Definition ring_new (c : PipeCounters) : PipeRingBuffer * PipeCounters :=
  (mkRing [] DEFAULT_PIPE_CAPACITY 0 0 Empty false false [] [] [],
   mkCounters (usize (PIPE_BUFFER_CREATE_COUNT c + 1)) (PIPE_BUFFER_DROP_COUNT c)
     (PIPE_PAGE_ALLOC_COUNT c) (PIPE_PAGE_DROP_COUNT c) (PIPE_CURRENT_PAGES c) (PIPE_PEAK_PAGES c)).

Definition page_count_for (capacity : Z) : Z := (capacity + PAGE_SIZE - 1) / PAGE_SIZE.

(** [pages.resize_with(page_count, || None)] if there are fewer slots. *)
Definition ensure_page_slots (ps : list (option PipePage)) (capacity : Z) : list (option PipePage) :=
  let page_count := Z.to_nat (page_count_for capacity) in
  if (length ps <? page_count)%nat then ps ++ replicate (page_count - length ps) None else ps.

(** The slots with the page of [offset] present, and its index. *)
Definition ensure_page_mut (ps : list (option PipePage)) (capacity offset : Z) (c : PipeCounters)
  : option (list (option PipePage) * PipePage * PipeCounters) :=
  let ps := ensure_page_slots ps capacity in
  let page_idx := Z.to_nat (offset / PAGE_SIZE) in
  match ps !! page_idx with
  | None => None
  | Some (Some page) => Some (ps, page, c)
  | Some None => let '(page, c) := new_zeroed c in Some (<[page_idx := Some page]> ps, page, c)
  end.

(** [ensure_page_mut(offset)[page_off..page_off + len].copy_from_slice(src)]. *)
Definition write_stored (ps : list (option PipePage)) (capacity offset : Z) (src : bytes) (c : PipeCounters)
  : option (list (option PipePage) * PipeCounters) :=
  match ensure_page_mut ps capacity offset c with
  | None => None
  | Some (ps, page, c) =>
      Some (<[Z.to_nat (offset / PAGE_SIZE) := Some (splice (Z.to_nat (offset mod PAGE_SIZE)) src page)]> ps, c)
  end.

(** [write_stored_byte_to]: the same for one byte. *)
Definition write_stored_byte_to (ps : list (option PipePage)) (capacity offset byte : Z) (c : PipeCounters)
  : option (list (option PipePage) * PipeCounters) := write_stored ps capacity offset [byte] c.

Definition read_stored_byte (ps : list (option PipePage)) (offset : Z) : Z :=
  match ps !! Z.to_nat (offset / PAGE_SIZE) with
  | Some (Some page) => byte_at (Z.to_nat (offset mod PAGE_SIZE)) page
  | _ => 0
  end.

Definition page_contains_readable_data (r : PipeRingBuffer) (page_idx : Z) : bool :=
  match status r with
  | Empty => false
  | Full => true
  | Normal =>
      let page_start := page_idx * PAGE_SIZE in
      let page_end := Z.min (page_start + PAGE_SIZE) (capacity r) in
      if page_end <=? page_start then false
      else if head r <? tail r then (page_start <? tail r) && (head r <? page_end)
      else (head r <? page_end) || (page_start <? tail r)
  end.

(** The number of pages in a vector of slots: what dropping it drops. *)
Definition held (ps : list (option PipePage)) : nat := length (omap id ps).

Definition reclaim_consumed_pages (r : PipeRingBuffer) (c : PipeCounters) : PipeRingBuffer * PipeCounters :=
  let ps := if bool_decide (status r = Empty) then []
            else imap (fun page_idx page =>
                         if page_contains_readable_data r (Z.of_nat page_idx) then page else None) (pages r) in
  (with_pages r ps, drop_pages (held (pages r) - held ps) c).

Definition available_read (r : PipeRingBuffer) : Z :=
  if bool_decide (status r = Empty) then 0
  else if head r <? tail r then tail r - head r
  else tail r + capacity r - head r.

Definition available_write (r : PipeRingBuffer) : Z :=
  if bool_decide (status r = Full) then 0 else capacity r - available_read r.

Definition contiguous_read_len (r : PipeRingBuffer) : Z :=
  if bool_decide (status r = Empty) then 0
  else if head r <? tail r then tail r - head r
  else capacity r - head r.

Definition contiguous_write_len (r : PipeRingBuffer) : Z :=
  if bool_decide (status r = Full) then 0
  else if head r <=? tail r then capacity r - tail r
  else head r - tail r.

(** [copy_len] bytes of the page that holds [offset], zeros if it is absent. *)
Definition page_slice (ps : list (option PipePage)) (offset copy_len : Z) : bytes :=
  let page_off := Z.to_nat (offset mod PAGE_SIZE) in
  match ps !! Z.to_nat (offset / PAGE_SIZE) with
  | Some (Some page) => slice page_off (page_off + Z.to_nat copy_len) page
  | _ => replicate (Z.to_nat copy_len) 0
  end.

(** The loop of [read_slice]; [out] are the [copied] bytes. *)
Fixpoint read_loop (fuel : nat) (target : Z) (out : bytes) (r : PipeRingBuffer) : bytes * PipeRingBuffer :=
  match fuel with
  | O => (out, r)
  | S fuel =>
      let copied := Z.of_nat (length out) in
      if copied <? target then
        let offset := head r in
        let page_off := offset mod PAGE_SIZE in
        let copy_len := Z.min (Z.min (contiguous_read_len r) (PAGE_SIZE - page_off)) (target - copied) in
        if copy_len =? 0 then (out, r)
        else
          let out := out ++ page_slice (pages r) offset copy_len in
          let head := (head r + copy_len) mod capacity r in
          read_loop fuel target out (with_head r head (if head =? tail r then Empty else Normal))
      else (out, r)
  end.

(** [read_slice] into a slice of [len] bytes: the bytes read. *)
Definition read_slice (len : Z) (r : PipeRingBuffer) (c : PipeCounters) : bytes * PipeRingBuffer * PipeCounters :=
  let target := Z.min len (available_read r) in
  let '(out, r) := read_loop (Z.to_nat target) target [] r in
  if (0 <? length out)%nat then let '(r, c) := reclaim_consumed_pages r c in (out, r, c) else (out, r, c).

(** The loop of [peek_slice]. *)
Fixpoint peek_loop (fuel : nat) (target cursor : Z) (out : bytes) (r : PipeRingBuffer) : bytes :=
  match fuel with
  | O => out
  | S fuel =>
      let copied := Z.of_nat (length out) in
      if copied <? target then
        let page_off := cursor mod PAGE_SIZE in
        let contiguous :=
          if bool_decide (status r = Empty) then 0
          else if cursor <? tail r then tail r - cursor
          else capacity r - cursor in
        let copy_len := Z.min (Z.min contiguous (PAGE_SIZE - page_off)) (target - copied) in
        if copy_len =? 0 then out
        else peek_loop fuel target ((cursor + copy_len) mod capacity r) (out ++ page_slice (pages r) cursor copy_len) r
      else out
  end.

Definition peek_slice (len : Z) (r : PipeRingBuffer) : bytes :=
  let target := Z.min len (available_read r) in
  peek_loop (Z.to_nat target) target (head r) [] r.

(** The loop of [write_slice]. *)
Fixpoint write_loop (fuel : nat) (target copied : Z) (src : bytes) (r : PipeRingBuffer) (c : PipeCounters)
  : option (Z * PipeRingBuffer * PipeCounters) :=
  match fuel with
  | O => Some (copied, r, c)
  | S fuel =>
      if copied <? target then
        let offset := tail r in
        let page_off := offset mod PAGE_SIZE in
        let copy_len := Z.min (Z.min (contiguous_write_len r) (PAGE_SIZE - page_off)) (target - copied) in
        if copy_len =? 0 then Some (copied, r, c)
        else
          match write_stored (pages r) (capacity r) offset
                  (slice (Z.to_nat copied) (Z.to_nat (copied + copy_len)) src) c with
          | None => None
          | Some (ps, c) =>
              let tail := (tail r + copy_len) mod capacity r in
              write_loop fuel target (copied + copy_len) src
                (with_tail (with_pages r ps) tail (if tail =? head r then Full else Normal)) c
          end
      else Some (copied, r, c)
  end.

Definition write_slice (src : bytes) (r : PipeRingBuffer) (c : PipeCounters)
  : option (Z * PipeRingBuffer * PipeCounters) :=
  if bool_decide (src = []) then Some (0, r, c)
  else
    let target := Z.min (Z.of_nat (length src)) (available_write r) in
    write_loop (Z.to_nat target) target 0 src r c.

Definition discard_slice (len : Z) (r : PipeRingBuffer) (c : PipeCounters) : Z * PipeRingBuffer * PipeCounters :=
  let drop_len := Z.min len (available_read r) in
  let head := (head r + drop_len) mod capacity r in
  let r := with_head r head (if drop_len =? 0 then status r else if head =? tail r then Empty else Normal) in
  if 0 <? drop_len then let '(r, c) := reclaim_consumed_pages r c in (drop_len, r, c) else (drop_len, r, c).

(** The loop of [resize]: byte [idx] of the contents goes to offset [idx]. *)
Fixpoint resize_loop (idxs : list Z) (r : PipeRingBuffer) (new_capacity : Z) (new_pages : list (option PipePage))
    (c : PipeCounters) : option (list (option PipePage) * PipeCounters) :=
  match idxs with
  | [] => Some (new_pages, c)
  | idx :: idxs =>
      let old_offset := (head r + idx) mod capacity r in
      let byte := read_stored_byte (pages r) old_offset in
      match write_stored_byte_to new_pages new_capacity idx byte c with
      | None => None
      | Some (new_pages, c) => resize_loop idxs r new_capacity new_pages c
      end
  end.

Definition resize (new_capacity : Z) (r : PipeRingBuffer) (c : PipeCounters)
  : option (SysResult Z * PipeRingBuffer * PipeCounters) :=
  let data_len := available_read r in
  if new_capacity <? data_len then Some (Err EBUSY, r, c)
  else
    match resize_loop (seqZ 0 data_len) r new_capacity [] c with
    | None => None
    | Some (new_pages, c) =>
        Some (Ok 0,
              mkRing new_pages new_capacity 0 (data_len mod new_capacity)
                (if data_len =? 0 then Empty else if data_len =? new_capacity then Full else Normal)
                (read_end_open r) (write_end_open r) (read_waiters r) (write_waiters r) (poll_waiters r),
              drop_pages (held (pages r)) c)
    end.

Definition set_read_end (r : PipeRingBuffer) : PipeRingBuffer := with_ends r true (write_end_open r).
Definition set_write_end (r : PipeRingBuffer) : PipeRingBuffer := with_ends r (read_end_open r) true.
Definition close_read_end (r : PipeRingBuffer) (c : PipeCounters) : PipeRingBuffer * PipeCounters :=
  reclaim_consumed_pages (with_head (with_ends r false (write_end_open r)) (tail r) Empty) c.
Definition close_write_end (r : PipeRingBuffer) : PipeRingBuffer := with_ends r (read_end_open r) false.
Definition all_read_ends_closed (r : PipeRingBuffer) : bool := negb (read_end_open r).
Definition all_write_ends_closed (r : PipeRingBuffer) : bool := negb (write_end_open r).

(** [Drop for PipeRingBuffer], then for its pages. *)
Definition drop_ring (r : PipeRingBuffer) (c : PipeCounters) : PipeCounters :=
  drop_pages (held (pages r))
    (mkCounters (PIPE_BUFFER_CREATE_COUNT c) (usize (PIPE_BUFFER_DROP_COUNT c + 1))
      (PIPE_PAGE_ALLOC_COUNT c) (PIPE_PAGE_DROP_COUNT c) (PIPE_CURRENT_PAGES c) (PIPE_PEAK_PAGES c)).

(** ** Wait queues: weak references to tasks, [live] are those that upgrade *)

Definition register_waiter (live : gset Z) (waiters : list Z) (task : Z) : list Z :=
  let waiters := List.filter (fun t => bool_decide (t ∈ live)) waiters in
  if existsb (Z.eqb task) waiters then waiters else waiters ++ [task].

Definition clear_waiter (live : gset Z) (waiters : list Z) (task : Z) : list Z :=
  List.filter (fun t => bool_decide (t ∈ live) && negb (t =? task)) waiters.

Definition take_read_waiters (r : PipeRingBuffer) : PipeRingBuffer * list Z := (with_read_waiters r [], read_waiters r).
Definition take_write_waiters (r : PipeRingBuffer) : PipeRingBuffer * list Z := (with_write_waiters r [], write_waiters r).
Definition take_poll_waiters (r : PipeRingBuffer) : PipeRingBuffer * list Z := (with_poll_waiters r [], poll_waiters r).
