(* ===== verification/PipeRingSpec.v ===== *)
(** * Pipes: the ring buffer is a bounded queue

    The invariant [wf_ring], the abstraction [contents] (the bytes in the pipe,
    oldest first), and for each operation of [PipeRing] what it does to the
    contents, to the pages that are held and to the counters. *)

From S2P Require Import Prelude SysErr PipeRing.

(** ** Offsets *)

(** A sum of an offset and a length wraps at most once. *)
Lemma mod_once m a b : 0 <= a < m -> 0 <= b <= m -> (a + b) mod m = if a + b <? m then a + b else a + b - m.
Proof.
  intros Ha Hb. case_if; [apply Z.mod_small; lia|].
  replace (a + b) with (a + b - m + 1 * m) at 1 by lia. rewrite Z_mod_plus_full. apply Z.mod_small. lia.
Qed.

(** The offset of the byte that is [k] bytes behind the head. *)
Definition offset (r : PipeRingBuffer) (k : Z) : Z := (head r + k) mod capacity r.

Record wf_offsets (r : PipeRingBuffer) : Prop := {
  wo_capacity : PIPE_BUF <= capacity r <= PIPE_MAX_SIZE;
  wo_head : 0 <= head r < capacity r;
  wo_tail : 0 <= tail r < capacity r;
  wo_status : match status r with Normal => head r <> tail r | _ => head r = tail r end }.

(** [bytes_at ps m h n]: the [n] bytes from offset [h] on, around the ring. *)
Definition bytes_at (ps : list (option PipePage)) (m h n : Z) : bytes :=
  map (fun k => read_stored_byte ps ((h + k) mod m)) (seqZ 0 n).

(** The bytes in the pipe, oldest first. *)
Definition contents (r : PipeRingBuffer) : bytes := bytes_at (pages r) (capacity r) (head r) (available_read r).

(** Offsets that hold data. *)
Definition in_data (r : PipeRingBuffer) (o : Z) : Prop := exists k, 0 <= k < available_read r /\ offset r k = o.
Definition used_page (r : PipeRingBuffer) (i : nat) : Prop := exists o, in_data r o /\ o / PAGE_SIZE = Z.of_nat i.

Definition present (ps : list (option PipePage)) (i : nat) : Prop := exists page, ps !! i = Some (Some page).

Record wf_pages (ps : list (option PipePage)) (capacity : Z) : Prop := {
  wp_length : Z.of_nat (length ps) <= page_count_for capacity;
  wp_page i page : ps !! i = Some (Some page) -> length page = Z.to_nat PAGE_SIZE }.

(** The invariant: a page is held exactly if it contains unread data. *)
Record wf_ring (r : PipeRingBuffer) : Prop := {
  wr_offsets : wf_offsets r;
  wr_pages : wf_pages (pages r) (capacity r);
  wr_present i : present (pages r) i <-> used_page r i }.

Ltac ring_cases r :=
  destruct r as [?ps ?cap ?hd ?tl ?stat ?ro ?wo ?rw ?ww ?pw]; simpl in *;
  unfold available_write, available_read, contiguous_read_len, contiguous_write_len, PIPE_BUF, PIPE_MAX_SIZE in *; simpl in *.

Lemma available_spec r : wf_offsets r ->
  0 <= available_read r <= capacity r /\ offset r (available_read r) = tail r /\
  (status r = Empty <-> available_read r = 0) /\ (status r = Full <-> available_read r = capacity r) /\
  available_write r = capacity r - available_read r.
Proof.
  intros [Hc Hh Ht Hs]. unfold offset. ring_cases r.
  destruct stat; simpl; repeat case_if; rewrite ?mod_once by lia; repeat case_if; split_and!; try lia; try done;
    split; intros; try done; try lia; try congruence.
Qed.

Lemma offset_range r k : wf_offsets r -> 0 <= offset r k < capacity r.
Proof. intros []. unfold offset, PIPE_BUF in *. apply Z.mod_pos_bound. lia. Qed.

Lemma offset_inj r j k : wf_offsets r -> j - capacity r < k < j + capacity r -> offset r j = offset r k -> j = k.
Proof.
  intros [Hc _ _ _] Hk E. unfold offset, PIPE_BUF in *.
  assert (Hd : (j - k) mod capacity r = 0).
  { replace (j - k) with ((head r + j) - (head r + k)) by lia. rewrite Zminus_mod, E, Z.sub_diag. apply Zmod_0_l. }
  apply Z.mod_divide in Hd as [q Hq]; [|lia]. destruct (Z.lt_trichotomy q 0) as [|[->|]]; [nia|lia|nia].
Qed.

Lemma in_data_iff r o : wf_offsets r -> in_data r o <->
  match status r with
  | Empty => False
  | Full => 0 <= o < capacity r
  | Normal => if head r <? tail r then head r <= o < tail r else head r <= o < capacity r \/ 0 <= o < tail r
  end.
Proof.
  intros [Hc Hh Ht Hs]. unfold in_data, offset. ring_cases r. split.
  - intros (k & Hk & <-). destruct stat; simpl in *; repeat case_if_in Hk; repeat case_if; rewrite ?mod_once by lia; repeat case_if; lia.
  - destruct stat; simpl; repeat case_if; intros Ho; try done; try lia.
    + exists (if hd <=? o then o - hd else o + cap - hd). case_if; rewrite ?mod_once by lia; repeat case_if; lia.
    + exists (o - hd). rewrite mod_once by lia. case_if; lia.
    + exists (if hd <=? o then o - hd else o + cap - hd). case_if; rewrite ?mod_once by lia; repeat case_if; lia.
Qed.

(** The source's test agrees with the data it stands for. *)
Lemma contains_spec r i : wf_offsets r -> Z.of_nat i < page_count_for (capacity r) ->
  page_contains_readable_data r (Z.of_nat i) = true <-> used_page r i.
Proof.
  intros W Hi. assert (Hu : used_page r i <-> exists o, in_data r o /\ Z.of_nat i * PAGE_SIZE <= o < Z.of_nat i * PAGE_SIZE + PAGE_SIZE).
  { split; intros (o & Ho & E); exists o; (split; [done|]); unfold PAGE_SIZE in *; zlia. }
  rewrite Hu. setoid_rewrite (in_data_iff r); [|done]. destruct W as [Hc Hh Ht Hs].
  unfold page_contains_readable_data, page_count_for, PAGE_SIZE, PIPE_BUF in *. set (s := Z.of_nat i * 4096) in *.
  assert (Hsc : 0 <= s < capacity r) by (unfold s; zlia).
  destruct (status r).
  - split; [|done]. intros _. exists s. lia.
  - split; [done|]. intros (? & [] & _).
  - rewrite (proj2 (Z.leb_gt _ _)) by lia. destruct (head r <? tail r) eqn:Eh; to_prop; split.
    + intros E. to_prop. exists (Z.max s (head r)). lia.
    + intros (o & Ho & ?). apply andb_true_iff. rewrite !Z.ltb_lt. lia.
    + intros E. to_prop. destruct E as [E|E]; to_prop; [exists (Z.max s (head r))|exists s]; lia.
    + intros (o & Ho & ?). apply orb_true_iff. rewrite !Z.ltb_lt. lia.
Qed.

(** ** Bytes around the ring *)

Lemma bytes_at_length ps m h n : 0 <= n -> Z.of_nat (length (bytes_at ps m h n)) = n.
Proof. intros. unfold bytes_at. rewrite length_map, length_seqZ. lia. Qed.

Lemma bytes_at_app ps m h n k : 0 < m -> 0 <= n -> 0 <= k ->
  bytes_at ps m h (n + k) = bytes_at ps m h n ++ bytes_at ps m ((h + n) mod m) k.
Proof.
  intros Hm Hn Hk. unfold bytes_at. rewrite seqZ_app, map_app by done. f_equal.
  pose proof (fmap_add_seqZ n 0 k) as E. rewrite Z.add_0_r in E. rewrite Z.add_0_l, <- E, <- list_fmap_compose. apply list_fmap_ext. intros i x _. simpl.
  rewrite Zplus_mod_idemp_l. do 2 f_equal. lia.
Qed.

Lemma bytes_at_ext ps ps' m h n :
  (forall k, 0 <= k < n -> read_stored_byte ps ((h + k) mod m) = read_stored_byte ps' ((h + k) mod m)) ->
  bytes_at ps m h n = bytes_at ps' m h n.
Proof. intros H. apply list_fmap_ext. intros i k Hi. apply H. apply lookup_seqZ in Hi. lia. Qed.

Lemma bytes_at_take ps m h n k : 0 < m -> 0 <= k <= n -> take (Z.to_nat k) (bytes_at ps m h n) = bytes_at ps m h k.
Proof.
  intros Hm Hk. replace n with (k + (n - k)) by lia. rewrite bytes_at_app by lia. apply take_app_length'.
  pose proof (bytes_at_length ps m h k). lia.
Qed.

Lemma bytes_at_drop ps m h n k : 0 < m -> 0 <= k <= n ->
  drop (Z.to_nat k) (bytes_at ps m h n) = bytes_at ps m ((h + k) mod m) (n - k).
Proof.
  intros Hm Hk. replace n with (k + (n - k)) at 1 by lia. rewrite bytes_at_app by lia. apply drop_app_length'.
  pose proof (bytes_at_length ps m h k). lia.
Qed.

(** Within one page the source copies a slice of it. *)
Lemma page_slice_spec ps m o n : wf_pages ps m -> 0 <= o -> 0 <= n -> o mod PAGE_SIZE + n <= PAGE_SIZE -> o + n <= m ->
  page_slice ps o n = bytes_at ps m o n.
Proof.
  intros [_ Hp] Ho Hn Hin Hm. pose proof (Z.mod_pos_bound o PAGE_SIZE ltac:(done)).
  apply list_eq_same_length with (length (bytes_at ps m o n)); [done| |].
  { unfold page_slice, bytes_at. rewrite length_map, length_seqZ. destruct (ps !! _) as [[page|]|] eqn:E; simpl.
    - rewrite slice_length by (rewrite (Hp _ _ E); lia). lia.
    - apply length_replicate.
    - apply length_replicate. }
  intros i x y Hi Hx Hy. unfold bytes_at in Hi, Hy. rewrite length_map, length_seqZ in Hi.
  apply list_lookup_fmap_Some in Hy as (k & -> & Hk). apply lookup_seqZ in Hk as [-> Hk].
  rewrite Z.add_0_l in *. rewrite (Z.mod_small _ m) by lia.
  unfold read_stored_byte, page_slice in *.
  assert (Eq : (o + Z.of_nat i) / PAGE_SIZE = o / PAGE_SIZE /\ (o + Z.of_nat i) mod PAGE_SIZE = o mod PAGE_SIZE + Z.of_nat i)
    by (unfold PAGE_SIZE in *; zlia). destruct Eq as [-> ->].
  destruct (ps !! _) as [[page|]|] eqn:E; [|by apply lookup_replicate in Hx as []..].
  unfold slice in Hx. rewrite lookup_take in Hx. case_decide; [|done]. rewrite lookup_drop in Hx.
  unfold byte_at. rewrite nth_lookup, Z2Nat.inj_add, Nat2Z.id by (try apply Z.mod_pos_bound; unfold PAGE_SIZE; lia). by rewrite Hx.
Qed.

(** ** Writing into the pages *)

Lemma held_insert_new ps i page : ps !! i = Some None -> held (<[i := Some page]> ps) = S (held ps).
Proof.
  intros Hi. unfold held. rewrite <- (take_drop_middle _ _ _ Hi) at 2.
  rewrite insert_take_drop by (by eapply lookup_lt_Some). rewrite !omap_app, !length_app. simpl. lia.
Qed.

Lemma held_insert_old ps i page page' : ps !! i = Some (Some page) -> held (<[i := Some page']> ps) = held ps.
Proof.
  intros Hi. unfold held. rewrite <- (take_drop_middle _ _ _ Hi) at 2.
  rewrite insert_take_drop by (by eapply lookup_lt_Some). rewrite !omap_app, !length_app. simpl. lia.
Qed.

Lemma held_slots ps m : held (ensure_page_slots ps m) = held ps.
Proof.
  unfold ensure_page_slots, held. case_if; [|done]. rewrite omap_app, length_app.
  assert (En : forall n, omap id (replicate n (@None PipePage)) = []) by (induction n; done). rewrite En. simpl. lia.
Qed.

Lemma slots_lookup ps m i : ensure_page_slots ps m !! i =
  match ps !! i with Some x => Some x
  | None => if (i <? Z.to_nat (page_count_for m))%nat then Some None else None end.
Proof.
  unfold ensure_page_slots. destruct (ps !! i) as [x|] eqn:E.
  - case_if; [|done]. by apply lookup_app_l_Some.
  - apply lookup_ge_None in E. destruct (length ps <? _)%nat eqn:El; to_prop.
    + rewrite lookup_app_r by done. case_if.
      * apply lookup_replicate. split; [done|lia].
      * apply lookup_ge_None. rewrite length_replicate. lia.
    + rewrite (proj2 (Nat.ltb_ge _ _)) by lia. by apply lookup_ge_None.
Qed.

Lemma slots_length ps m : Z.of_nat (length ps) <= page_count_for m ->
  length (ensure_page_slots ps m) = Z.to_nat (page_count_for m).
Proof. intros. unfold ensure_page_slots. case_if; [rewrite length_app, length_replicate|]; lia. Qed.

(** Page accounting: [n] more pages are held in all. *)
Record moved (n : Z) (c c' : PipeCounters) : Prop := {
  mv_current : usize (PIPE_CURRENT_PAGES c') = usize (PIPE_CURRENT_PAGES c + n);
  mv_balance : usize (PIPE_PAGE_ALLOC_COUNT c' - PIPE_PAGE_DROP_COUNT c')
               = usize (PIPE_PAGE_ALLOC_COUNT c - PIPE_PAGE_DROP_COUNT c + n);
  mv_created : PIPE_BUFFER_CREATE_COUNT c' = PIPE_BUFFER_CREATE_COUNT c;
  mv_dropped : PIPE_BUFFER_DROP_COUNT c' = PIPE_BUFFER_DROP_COUNT c }.

Lemma moved_trans n k c c' c'' : moved n c c' -> moved k c' c'' -> moved (n + k) c c''.
Proof.
  intros [A1 A2 A3 A4] [B1 B2 B3 B4]. split; [| |congruence..].
  - rewrite B1, <- (wrap_add_l 64), A1, wrap_add_l. f_equal. lia.
  - rewrite B2, <- (wrap_add_l 64), A2, wrap_add_l. f_equal. lia.
Qed.

Lemma moved_new c : moved 1 c (new_zeroed c).2.
Proof.
  split; simpl; try done; [apply wrap_wrap|]. rewrite wrap_sub_l. f_equal. lia.
Qed.

Lemma moved_refl c : moved 0 c c.
Proof. split; rewrite ?Z.add_0_r; done. Qed.

Lemma moved_drop n c : moved (- Z.of_nat n) c (drop_pages n c).
Proof.
  split; simpl; try done; unfold wrap; [rewrite Zmod_mod|rewrite Zminus_mod_idemp_r]; f_equal; lia.
Qed.

Lemma byte_at_splice a src page j : (a + length src <= length page)%nat ->
  byte_at j (splice a src page) =
    if ((a <=? j) && (j <? a + length src))%nat then byte_at (j - a) src else byte_at j page.
Proof.
  intros Hl. unfold byte_at, splice. rewrite !nth_lookup, !lookup_app, length_take, lookup_take, lookup_drop.
  rewrite Nat.min_l by lia. case_decide.
  - rewrite (proj2 (Nat.leb_gt _ _)) by lia. simpl. destruct (page !! j) eqn:E; [done|]. apply lookup_ge_None in E. lia.
  - rewrite (proj2 (Nat.leb_le _ _)) by lia. simpl. destruct (j <? a + length src)%nat eqn:E; to_prop.
    + destruct (src !! (j - a)%nat) eqn:E2; [done|]. apply lookup_ge_None in E2. lia.
    + rewrite (proj2 (lookup_ge_None src _)) by lia. do 2 f_equal. lia.
Qed.

Lemma byte_at_nil j : byte_at j [] = 0.
Proof. by destruct j. Qed.

Lemma byte_at_zeros n j : byte_at j (replicate n 0) = 0.
Proof.
  unfold byte_at. rewrite nth_lookup. destruct (replicate n 0 !! j) eqn:E; [|done]. by apply lookup_replicate in E as [-> _].
Qed.

(** The contract of a write of [src] at offset [o], within one page. *)
Definition stores (ps : list (option PipePage)) (m o : Z) (src : bytes) (c : PipeCounters)
    (ps' : list (option PipePage)) (c' : PipeCounters) : Prop :=
  wf_pages ps' m /\ (forall i, present ps' i <-> present ps i \/ i = Z.to_nat (o / PAGE_SIZE)) /\
  (forall x, 0 <= x -> read_stored_byte ps' x =
     if (o <=? x) && (x <? o + Z.of_nat (length src)) then byte_at (Z.to_nat (x - o)) src else read_stored_byte ps x) /\
  moved (Z.of_nat (held ps') - Z.of_nat (held ps)) c c'.

Section WriteStored.
Context (ps : list (option PipePage)) (m o : Z) (src : bytes) (c : PipeCounters).
Context (Hwf : wf_pages ps m) (Ho : 0 <= o < m) (Hin : o mod PAGE_SIZE + Z.of_nat (length src) <= PAGE_SIZE).

Local Definition slots := ensure_page_slots ps m.
Local Definition page_index := Z.to_nat (o / PAGE_SIZE).

Lemma slots_present i page : slots !! i = Some (Some page) <-> ps !! i = Some (Some page).
Proof. unfold slots. rewrite slots_lookup. destruct (ps !! i); [done|]. case_if; done. Qed.

Lemma page_index_lt : (page_index < length slots)%nat.
Proof using Hwf Ho Hin.
  destruct Hwf as [Hl _]. unfold slots. rewrite slots_length by done. unfold page_index, page_count_for, PAGE_SIZE in *. zlia.
Qed.

(** Reading inside and outside the page that was written. *)
Lemma read_filled page ps' x : 0 <= x ->
  ps' !! page_index = Some (Some (splice (Z.to_nat (o mod PAGE_SIZE)) src page)) ->
  (forall i, i <> page_index -> ps' !! i = slots !! i) -> length page = Z.to_nat PAGE_SIZE ->
  (forall j, byte_at j page = byte_at j (default [] (mjoin (slots !! page_index)))) ->
  read_stored_byte ps' x =
    if (o <=? x) && (x <? o + Z.of_nat (length src)) then byte_at (Z.to_nat (x - o)) src else read_stored_byte ps x.
Proof using Hwf Ho Hin.
  intros Hx Hself Hother Hpl Hb. pose proof (Z.mod_pos_bound o PAGE_SIZE ltac:(done)) as Hmod.
  unfold read_stored_byte. destruct (decide (Z.to_nat (x / PAGE_SIZE) = page_index)) as [E|Hne].
  - rewrite E, Hself, byte_at_splice by lia.
    assert (Hxo : x / PAGE_SIZE = o / PAGE_SIZE) by (unfold page_index, PAGE_SIZE in *; zlia).
    assert (Hrest : byte_at (Z.to_nat (x mod PAGE_SIZE)) page
      = match ps !! page_index with Some (Some p) => byte_at (Z.to_nat (x mod PAGE_SIZE)) p | _ => 0 end).
    { rewrite Hb. unfold slots. rewrite slots_lookup. destruct (ps !! page_index) as [[p|]|]; simpl; [done| |].
      - apply byte_at_nil.
      - case_if; apply byte_at_nil. }
    rewrite Hrest. unfold PAGE_SIZE in *.
    assert (Ht : ((Z.to_nat (o mod 4096) <=? Z.to_nat (x mod 4096)) && (Z.to_nat (x mod 4096) <? Z.to_nat (o mod 4096) + length src))%nat
      = (o <=? x) && (x <? o + Z.of_nat (length src)))
      by (apply eq_true_iff_eq; rewrite !andb_true_iff, Nat.leb_le, Nat.ltb_lt, Z.leb_le, Z.ltb_lt; zlia).
    rewrite Ht. case_if; [|done]. f_equal. zlia.
  - rewrite Hother by done. rewrite (proj2 (andb_false_iff _ _)).
    + unfold slots. rewrite slots_lookup. destruct (ps !! _) as [[]|]; [done..|]. case_if; done.
    + rewrite Z.leb_gt, Z.ltb_ge. unfold page_index, PAGE_SIZE in *. zlia.
Qed.

(** [page], with the old contents or zeros, is put in its slot and written. *)
Lemma fill_page page rs c' : (forall i, i <> page_index -> rs !! i = slots !! i) -> length rs = length slots ->
  length page = Z.to_nat PAGE_SIZE -> (forall j, byte_at j page = byte_at j (default [] (mjoin (slots !! page_index)))) ->
  moved (Z.of_nat (held (<[page_index := Some page]> rs)) - Z.of_nat (held ps)) c c' ->
  stores ps m o src c (<[page_index := Some (splice (Z.to_nat (o mod PAGE_SIZE)) src page)]> rs) c'.
Proof using Hwf Ho Hin.
  intros Hrs Hlen Hpl Hb Hm. pose proof page_index_lt as Hidx. destruct Hwf as [Hl Hp].
  set (ps' := <[page_index := _]> rs).
  assert (Hother : forall i, i <> page_index -> ps' !! i = slots !! i)
    by (intros i Hi; unfold ps'; rewrite list_lookup_insert_ne by done; auto).
  assert (Hself : ps' !! page_index = Some (Some (splice (Z.to_nat (o mod PAGE_SIZE)) src page)))
    by (unfold ps'; rewrite list_lookup_insert_eq; [done|lia]).
  pose proof (Z.mod_pos_bound o PAGE_SIZE ltac:(done)) as Hmod.
  split; [split|split; [|split]].
  - unfold ps'. rewrite length_insert, Hlen. unfold slots. rewrite slots_length by done. unfold page_count_for, PAGE_SIZE. zlia.
  - intros i q Hi. destruct (decide (i = page_index)) as [->|Hne].
    + rewrite Hself in Hi. injection Hi as <-. rewrite splice_length; lia.
    + rewrite Hother in Hi by done. by apply (Hp i), slots_present.
  - intros i. unfold present. destruct (decide (i = page_index)) as [->|Hne].
    + split; [by right|]. intros _. eauto.
    + rewrite Hother by done. setoid_rewrite slots_present. naive_solver.
  - intros x Hx. by apply (read_filled page).
  - unfold ps'. erewrite <- (held_insert_old _ page_index page), list_insert_insert_eq in Hm; [exact Hm|].
    apply list_lookup_insert_eq. lia.
Qed.

Lemma write_stored_spec : exists ps' c', write_stored ps m o src c = Some (ps', c') /\ stores ps m o src c ps' c'.
Proof using Hwf Ho Hin.
  unfold write_stored, ensure_page_mut. fold slots page_index.
  destruct (slots !! page_index) as [[page|]|] eqn:E; [| |by apply lookup_ge_None in E; pose proof page_index_lt; lia].
  - eexists _, _. split; [reflexivity|]. apply fill_page; try done.
    + destruct Hwf as [_ Hp]. by apply (Hp page_index), slots_present.
    + by rewrite E.
    + rewrite (held_insert_old _ _ _ _ E). unfold slots. rewrite held_slots, Z.sub_diag. apply moved_refl.
  - unfold new_zeroed. eexists _, _. split; [reflexivity|]. rewrite list_insert_insert_eq.
    apply fill_page; try done.
    + intros j. by rewrite byte_at_zeros, E, byte_at_nil.
    + rewrite (held_insert_new _ _ _ E). unfold slots. rewrite held_slots. replace (_ - _) with 1 by lia. apply moved_new.
Qed.

End WriteStored.

(** ** Consuming *)

(** [n] bytes are consumed; pages are not yet reclaimed. *)
Definition advance (r : PipeRingBuffer) (n : Z) : PipeRingBuffer :=
  with_head r (offset r n) (if offset r n =? tail r then Empty else Normal).

Lemma advance_offset r n k : offset (advance r n) k = offset r (n + k).
Proof. unfold advance, offset. simpl. rewrite Zplus_mod_idemp_l. f_equal. lia. Qed.

Lemma advance_spec r n : wf_offsets r -> 0 < n <= available_read r ->
  wf_offsets (advance r n) /\ available_read (advance r n) = available_read r - n.
Proof.
  intros W Hn. destruct (available_spec r W) as (Ha & Et & _).
  assert (W' : wf_offsets (advance r n)).
  { pose proof (offset_range r n W). destruct W. unfold advance. split; simpl; try done.
    destruct (offset r n =? tail r) eqn:E; to_prop; done. }
  split; [done|]. destruct (available_spec _ W') as (Ha' & Et' & He' & Hf' & _). set (a := available_read (advance r n)) in *.
  assert (Hstep : offset (advance r n) a = offset r (n + a)) by apply advance_offset.
  change (capacity (advance r n)) with (capacity r) in *. change (tail (advance r n)) with (tail r) in *.
  assert (Es : status (advance r n) = if offset r n =? tail r then Empty else Normal) by done. rewrite Es in *.
  destruct (offset r n =? tail r) eqn:E; to_prop.
  - assert (a = 0) by (by apply He'). rewrite <- Et in E. apply offset_inj in E; [lia|done|lia].
  - assert (a <> 0) by (intros Ea; by apply He' in Ea). assert (a <> capacity r) by (intros Ea; by apply Hf' in Ea).
    assert (n + a = available_read r); [|lia]. apply (offset_inj r); [done|lia|congruence].
Qed.

Lemma advance_contents r n : wf_offsets r -> 0 < n <= available_read r ->
  contents (advance r n) = drop (Z.to_nat n) (contents r).
Proof.
  intros W Hn. destruct (advance_spec r n W Hn) as [_ Ea]. unfold contents. rewrite Ea, bytes_at_drop; [done| |lia].
  destruct W. unfold PIPE_BUF in *. lia.
Qed.

Lemma advance_advance r n k : advance (advance r n) k = advance r (n + k).
Proof.
  unfold advance at 1. by rewrite advance_offset.
Qed.

(** Properties of the length of a turn, shared by the three copying loops. *)
Lemma chunk_bounds contiguous o left : 0 < contiguous -> 0 < left ->
  let n := Z.min (Z.min contiguous (PAGE_SIZE - o mod PAGE_SIZE)) left in
  0 < n <= left /\ n <= contiguous /\ o mod PAGE_SIZE + n <= PAGE_SIZE.
Proof. intros. pose proof (Z.mod_pos_bound o PAGE_SIZE ltac:(done)). lia. Qed.

Lemma read_loop_spec : forall fuel target out r, wf_offsets r -> wf_pages (pages r) (capacity r) ->
  let n := target - Z.of_nat (length out) in 0 <= n <= available_read r -> n <= Z.of_nat fuel ->
  read_loop fuel target out r =
    (out ++ bytes_at (pages r) (capacity r) (head r) n, if n =? 0 then r else advance r n).
Proof.
  induction fuel as [|fuel IH]; intros target out r W Hp n Hn Hf; cbn [read_loop].
  { replace n with 0 by lia. by rewrite app_nil_r. }
  case_if; [|replace n with 0 by lia; by rewrite app_nil_r]. fold n.
  assert (Hc : 0 < contiguous_read_len r /\ head r + contiguous_read_len r <= capacity r /\ contiguous_read_len r <= available_read r).
  { destruct W as [? ? ? Hs]. revert Hs Hn. ring_cases r. destruct stat; simpl; repeat case_if; lia. }
  pose proof (chunk_bounds (contiguous_read_len r) (head r) n ltac:(lia) ltac:(lia)) as Hb. simpl in Hb.
  set (k := Z.min _ n) in *. rewrite (proj2 (Z.eqb_neq k 0)) by lia.
  destruct (advance_spec r k W ltac:(lia)) as [W' Ea]. destruct W as [Hcap Hh _ _]. unfold PIPE_BUF in *.
  rewrite (page_slice_spec _ (capacity r)) by (done || lia). fold (offset r k). fold (advance r k).
  assert (Hl : target - Z.of_nat (length (out ++ bytes_at (pages r) (capacity r) (head r) k)) = n - k)
    by (rewrite length_app, Nat2Z.inj_add, bytes_at_length by lia; lia).
  rewrite IH; rewrite ?Hl; try done; try lia. rewrite <- app_assoc. simpl pages. simpl capacity.
  change (head (advance r k)) with (offset r k). unfold offset at 1. rewrite <- bytes_at_app by lia.
  replace (k + (n - k)) with n by lia. f_equal. rewrite (proj2 (Z.eqb_neq n 0)) by lia.
  destruct (n - k =? 0) eqn:Ek; to_prop; [by replace n with k by lia|]. rewrite advance_advance. f_equal. lia.
Qed.

Lemma peek_loop_spec r target : wf_offsets r -> wf_pages (pages r) (capacity r) -> target <= available_read r ->
  forall fuel out, let j := Z.of_nat (length out) in j <= target -> target - j <= Z.of_nat fuel ->
  peek_loop fuel target (offset r j) out r = out ++ bytes_at (pages r) (capacity r) (offset r j) (target - j).
Proof.
  intros W Hp Ht. pose proof (available_spec r W) as (Ha & Et & He & _). pose proof W as [Hcap Hh Htl _]. unfold PIPE_BUF in *.
  induction fuel as [|fuel IH]; intros out Hj Hf; set (j := Z.of_nat (length out)) in *; cbn [peek_loop].
  { replace (target - j) with 0 by lia. by rewrite app_nil_r. }
  fold j. case_if; [|replace (target - j) with 0 by lia; by rewrite app_nil_r].
  rewrite bool_decide_eq_false_2 by (intros Es; apply He in Es; lia).
  pose proof (offset_range r j W) as Ho.
  set (contiguous := if offset r j <? tail r then _ else _).
  assert (Hc : 0 < contiguous /\ offset r j + contiguous <= capacity r) by (unfold contiguous; case_if; lia).
  pose proof (chunk_bounds contiguous (offset r j) (target - j) ltac:(lia) ltac:(lia)) as Hb. simpl in Hb.
  set (k := Z.min _ (target - j)) in *. rewrite (proj2 (Z.eqb_neq k 0)) by lia.
  rewrite (page_slice_spec _ (capacity r)) by (done || lia).
  set (out' := out ++ _). assert (Hl : Z.of_nat (length out') = j + k)
    by (unfold out'; rewrite length_app, Nat2Z.inj_add, bytes_at_length by lia; lia).
  assert (Eo : (offset r j + k) mod capacity r = offset r (Z.of_nat (length out')))
    by (rewrite Hl; unfold offset; rewrite Zplus_mod_idemp_l; f_equal; lia).
  rewrite Eo, IH by lia. unfold out' at 1. rewrite <- app_assoc. f_equal. rewrite <- Eo, <- bytes_at_app by lia. f_equal. lia.
Qed.

Lemma peek_slice_spec r len : wf_offsets r -> wf_pages (pages r) (capacity r) -> 0 <= len ->
  peek_slice len r = take (Z.to_nat len) (contents r).
Proof.
  intros W Hp Hl. destruct (available_spec r W) as (Ha & _). unfold peek_slice. set (target := Z.min len _).
  assert (E0 : offset r 0 = head r) by (unfold offset; destruct W; rewrite Z.add_0_r, Z.mod_small; lia).
  pose proof (peek_loop_spec r target W Hp ltac:(lia) (Z.to_nat target) [] ltac:(simpl; lia) ltac:(simpl; lia)) as E.
  change (Z.of_nat (length [])) with 0 in E. rewrite E0, Z.sub_0_r, app_nil_l in E. rewrite E. unfold contents, target. destruct (Z.le_ge_cases len (available_read r)).
  - rewrite Z.min_l, bytes_at_take; [done| |lia|lia]. destruct W. unfold PIPE_BUF in *. lia.
  - rewrite Z.min_r by lia. symmetry. apply take_ge. pose proof (bytes_at_length (pages r) (capacity r) (head r) (available_read r)). lia.
Qed.

(** ** Reclaiming *)

Lemma held_le ps qs : length ps = length qs \/ qs = [] -> (forall i, present qs i -> present ps i) -> (held qs <= held ps)%nat.
Proof.
  intros [Hl| ->]; [|unfold held; simpl; lia]. revert qs Hl. unfold held, omap.
  induction ps as [|p ps IH]; intros [|q qs] Hl Hpr; simpl in *; try lia.
  assert (Hpr' : forall i, present qs i -> present ps i) by (intros i [x Hx]; apply (Hpr (S i)); by exists x).
  specialize (IH qs ltac:(lia) Hpr'). destruct q as [q|]; simpl; [|destruct p; simpl; lia].
  destruct (Hpr 0%nat) as [x Hx]; [by exists q|]. simpl in Hx. injection Hx as ->. simpl. lia.
Qed.

(** After a consumption the pages that hold no data are released, and
    nothing else changes. *)
Lemma reclaim_spec r c : wf_offsets r -> wf_pages (pages r) (capacity r) ->
  (forall i, used_page r i -> present (pages r) i) ->
  exists ps, reclaim_consumed_pages r c = (with_pages r ps, drop_pages (held (pages r) - held ps) c) /\
    wf_ring (with_pages r ps) /\ contents (with_pages r ps) = contents r /\ (held ps <= held (pages r))%nat.
Proof.
  intros W [Hl Hp] Hu. pose proof (available_spec r W) as (Ha & _ & He & _).
  unfold reclaim_consumed_pages. eexists. split; [reflexivity|]. set (ps := if bool_decide _ then _ else _).
  assert (Hpr : forall i page, ps !! i = Some (Some page) <-> pages r !! i = Some (Some page) /\ used_page r i).
  { intros i page. unfold ps. case_bool_decide as Es.
    - split; [done|]. intros [_ (o & (k & Hk & _) & _)]. apply He in Es. lia.
    - rewrite list_lookup_imap. destruct (pages r !! i) as [x|] eqn:E; simpl; [|naive_solver].
      assert (Hi : Z.of_nat i < page_count_for (capacity r)) by (apply lookup_lt_Some in E; lia).
      pose proof (contains_spec r i W Hi) as Hc. destruct (page_contains_readable_data r (Z.of_nat i)); naive_solver. }
  assert (Hlen : length (pages r) = length ps \/ ps = []) by (unfold ps; case_bool_decide; [by right|left; by rewrite length_imap]).
  assert (Hheld : (held ps <= held (pages r))%nat).
  { apply held_le; [done|]. intros i [page Hi]. apply Hpr in Hi as [? _]. by exists page. }
  split; [split; [by destruct W|split|]|split; [|done]].
  - simpl. destruct Hlen as [<-| ->]; [done|]. unfold page_count_for, PAGE_SIZE. destruct W. unfold PIPE_BUF in *. simpl. zlia.
  - simpl. intros i page Hi. apply Hpr in Hi as [? _]. eauto.
  - simpl. intros i. change (used_page (with_pages r ps) i) with (used_page r i). unfold present. setoid_rewrite Hpr. split.
    + by intros (page & _ & ?).
    + intros Hi. destruct (Hu i Hi) as [page Hpage]. by exists page.
  - unfold contents. change (available_read (with_pages r ps)) with (available_read r). simpl. apply bytes_at_ext. intros k Hk.
    set (o := (head r + k) mod capacity r). assert (Ho : 0 <= o) by (apply (offset_range r k W)).
    unfold read_stored_byte. assert (Hui : used_page r (Z.to_nat (o / PAGE_SIZE))).
    { exists o. split; [by exists k|]. rewrite Z2Nat.id; [done|]. unfold PAGE_SIZE. zlia. }
    destruct (Hu _ Hui) as [page Hpage]. rewrite Hpage, (proj2 (Hpr _ page)) by done. done.
Qed.

(** What an operation on the data leaves alone. *)
Definition same_pipe (r r' : PipeRingBuffer) : Prop :=
  capacity r' = capacity r /\ read_end_open r' = read_end_open r /\ write_end_open r' = write_end_open r /\
  read_waiters r' = read_waiters r /\ write_waiters r' = write_waiters r /\ poll_waiters r' = poll_waiters r.

Lemma wf_available r : wf_ring r -> Z.of_nat (length (contents r)) = available_read r.
Proof. intros [W _ _]. apply bytes_at_length. apply (available_spec r W). Qed.

Lemma consume_spec r n c : wf_ring r -> 0 < n <= available_read r ->
  exists r' c', reclaim_consumed_pages (advance r n) c = (r', c') /\ wf_ring r' /\ same_pipe r r' /\
    contents r' = drop (Z.to_nat n) (contents r) /\
    moved (Z.of_nat (held (pages r')) - Z.of_nat (held (pages r))) c c'.
Proof.
  intros [W Hp Hu] Hn. destruct (advance_spec r n W Hn) as [W' Ea].
  destruct (reclaim_spec (advance r n) c W' Hp) as (ps & E & Hwf & Hc & Hle).
  { intros i (o & (k & Hk & Ho) & Hi). apply Hu. exists o. split; [|done]. exists (n + k).
    rewrite <- advance_offset. split; [lia|done]. }
  eexists _, _. split; [exact E|]. split; [done|]. split; [done|]. split; [by rewrite Hc, advance_contents|].
  simpl in Hle |- *. replace (_ - _) with (- Z.of_nat (held (pages r) - held ps)) by lia. apply moved_drop.
Qed.

Lemma read_slice_spec r len c : wf_ring r -> 0 <= len ->
  exists r' c', read_slice len r c = (take (Z.to_nat len) (contents r), r', c') /\ wf_ring r' /\ same_pipe r r' /\
    contents r' = drop (Z.to_nat len) (contents r) /\
    moved (Z.of_nat (held (pages r')) - Z.of_nat (held (pages r))) c c'.
Proof.
  intros Hr Hl. pose proof Hr as [W Hp _]. pose proof (wf_available r Hr) as Hlen.
  destruct (available_spec r W) as (Ha & _). unfold read_slice. set (n := Z.min len (available_read r)).
  rewrite read_loop_spec by (done || simpl; lia). simpl length. rewrite Z.sub_0_r, app_nil_l.
  assert (Et : bytes_at (pages r) (capacity r) (head r) n = take (Z.to_nat len) (contents r)).
  { unfold contents. rewrite <- (bytes_at_take _ _ _ (available_read r)) by (destruct W; unfold PIPE_BUF in *; lia).
    unfold n. destruct (Z.le_ge_cases len (available_read r)); [by rewrite Z.min_l|].
    rewrite Z.min_r by done. rewrite !take_ge; [done|..]; unfold contents in Hlen; lia. }
  pose proof (bytes_at_length (pages r) (capacity r) (head r) n ltac:(lia)) as Hn. rewrite Et in *.
  destruct (n =? 0) eqn:E; to_prop.
  - rewrite (proj2 (Nat.ltb_ge _ _)) by lia. exists r, c. split; [done|]. split; [done|]. split; [done|].
    split; [|rewrite Z.sub_diag; apply moved_refl].
    destruct (decide (len = 0)) as [->|]; [done|]. rewrite drop_ge by lia. apply length_zero_iff_nil. lia.
  - rewrite (proj2 (Nat.ltb_lt _ _)) by lia. destruct (consume_spec r n c Hr ltac:(lia)) as (r' & c' & Er & Hw & Hs & Hc & Hm).
    rewrite Er. exists r', c'. split; [done|]. split; [done|]. split; [done|]. split; [|done]. rewrite Hc.
    unfold n. destruct (Z.le_ge_cases len (available_read r)); [by rewrite Z.min_l|].
    rewrite Z.min_r, !drop_ge by lia. done.
Qed.

Lemma discard_slice_spec r len c : wf_ring r -> 0 <= len ->
  exists r' c', discard_slice len r c = (Z.min len (available_read r), r', c') /\ wf_ring r' /\ same_pipe r r' /\
    contents r' = drop (Z.to_nat len) (contents r) /\
    moved (Z.of_nat (held (pages r')) - Z.of_nat (held (pages r))) c c'.
Proof.
  intros Hr Hl. pose proof Hr as [W Hp _]. pose proof (wf_available r Hr) as Hlen.
  destruct (available_spec r W) as (Ha & _). unfold discard_slice. set (n := Z.min len (available_read r)).
  fold (offset r n). destruct (n =? 0) eqn:E; to_prop.
  - rewrite (proj2 (Z.ltb_ge _ _)) by lia. rewrite E. eexists _, c. split; [reflexivity|].
    assert (Er : with_head r (offset r 0) (status r) = r).
    { unfold offset. destruct W as [? ? _ _], r. simpl in *. rewrite Z.add_0_r, Z.mod_small by lia. done. }
    rewrite Er. split; [done|]. split; [done|]. split; [|rewrite Z.sub_diag; apply moved_refl].
    destruct (decide (len = 0)) as [->|]; [done|]. rewrite drop_ge by lia. apply length_zero_iff_nil. lia.
  - fold (advance r n). rewrite (proj2 (Z.ltb_lt _ _)) by lia.
    destruct (consume_spec r n c Hr ltac:(lia)) as (r' & c' & Er & Hw & Hs & Hc & Hm).
    rewrite Er. exists r', c'. split; [done|]. split; [done|]. split; [done|]. split; [|done]. rewrite Hc.
    unfold n. destruct (Z.le_ge_cases len (available_read r)); [by rewrite Z.min_l|].
    rewrite Z.min_r, !drop_ge by lia. done.
Qed.

(** ** Producing *)

(** [n] bytes are appended in the pages [ps]. *)
Definition extend (r : PipeRingBuffer) (ps : list (option PipePage)) (n : Z) : PipeRingBuffer :=
  with_tail (with_pages r ps) ((tail r + n) mod capacity r) (if (tail r + n) mod capacity r =? head r then Full else Normal).

Lemma extend_spec r ps n : wf_offsets r -> 0 < n <= capacity r - available_read r ->
  wf_offsets (extend r ps n) /\ available_read (extend r ps n) = available_read r + n.
Proof.
  intros W Hn. destruct (available_spec r W) as (Ha & Et & _).
  assert (Etn : (tail r + n) mod capacity r = offset r (available_read r + n)).
  { rewrite <- Et. unfold offset. rewrite Zplus_mod_idemp_l. f_equal. lia. }
  assert (Ht : 0 <= (tail r + n) mod capacity r < capacity r) by (rewrite Etn; by apply offset_range).
  assert (W' : wf_offsets (extend r ps n)).
  { destruct W. unfold extend. split; simpl; try done. destruct (_ =? head r) eqn:E; to_prop; done. }
  split; [done|]. destruct (available_spec _ W') as (Ha' & Et' & He' & Hf' & _).
  set (a := available_read (extend r ps n)) in *. change (capacity (extend r ps n)) with (capacity r) in *.
  assert (Ea : offset r a = offset r (available_read r + n)) by (rewrite <- Etn; exact Et').
  assert (Es : status (extend r ps n) = if (tail r + n) mod capacity r =? head r then Full else Normal) by done. rewrite Es in *.
  assert (E0 : offset r 0 = head r) by (unfold offset; destruct W; rewrite Z.add_0_r, Z.mod_small; lia).
  destruct (_ =? head r) eqn:E; to_prop.
  - assert (a = capacity r) by (by apply Hf'). rewrite Etn, <- E0 in E.
    destruct (decide (available_read r + n = capacity r)); [lia|]. apply offset_inj in E; [lia|done|lia].
  - assert (a <> 0) by (intros E1; by apply He' in E1). assert (a <> capacity r) by (intros E1; by apply Hf' in E1).
    apply (offset_inj r); [done|lia|done].
Qed.

(** A write of one chunk at the tail. *)
Lemma extend_ring r ps src c c' : wf_ring r -> src <> [] ->
  let n := Z.of_nat (length src) in
  n <= capacity r - available_read r -> tail r + n <= capacity r -> tail r mod PAGE_SIZE + n <= PAGE_SIZE ->
  stores (pages r) (capacity r) (tail r) src c ps c' ->
  wf_ring (extend r ps n) /\ contents (extend r ps n) = contents r ++ src.
Proof.
  intros [W Hp Hu] Hne n Hn Htn Hpage (Hp' & Hpr & Hb & _).
  assert (0 < n) by (unfold n; destruct src; [done|simpl; lia]).
  destruct (available_spec r W) as (Ha & Et & _). destruct (extend_spec r ps n W ltac:(lia)) as [W' Ea].
  assert (Hoff : forall j, 0 <= j < n -> offset r (available_read r + j) = tail r + j).
  { intros j Hj. unfold offset. rewrite Z.add_assoc, <- Zplus_mod_idemp_l. fold (offset r (available_read r)). rewrite Et.
    apply Z.mod_small. destruct W. lia. }
  assert (Hold : forall k, 0 <= k < available_read r -> ~ (tail r <= offset r k < tail r + n)).
  { intros k Hk Hin. assert (E : offset r k = offset r (available_read r + (offset r k - tail r))) by (rewrite Hoff; lia).
    apply offset_inj in E; [lia|done|lia]. }
  split; [split; [done|done|]|].
  - intros i. change (pages (extend r ps n)) with ps. rewrite Hpr, Hu. split.
    + intros [(o & (k & Hk & Ho) & Hi)| ->].
      * exists o. split; [|done]. exists k. split; [lia|done].
      * exists (tail r). split.
        -- exists (available_read r). split; [lia|]. exact Et.
        -- rewrite Z2Nat.id; [done|]. destruct W. unfold PAGE_SIZE. zlia.
    + intros (o & (k & Hk & Ho) & Hi). change (offset r k = o) in Ho. destruct (Z.lt_ge_cases k (available_read r)).
      * left. exists o. split; [|done]. exists k. split; [lia|done].
      * right. replace k with (available_read r + (k - available_read r)) in Ho by lia. rewrite Hoff in Ho by lia.
        subst o. destruct W. unfold PAGE_SIZE in *. zlia.
  - unfold contents. rewrite Ea. change (bytes_at ps (capacity r) (head r) (available_read r + n) = bytes_at (pages r) (capacity r) (head r) (available_read r) ++ src).
    rewrite bytes_at_app by (destruct W; unfold PIPE_BUF in *; lia). f_equal.
    + apply bytes_at_ext. intros k Hk. pose proof (offset_range r k W) as Ho. unfold offset in Ho. rewrite Hb by lia.
      specialize (Hold k Hk). unfold offset in Hold. case_if; [lia|done].
    + fold (offset r (available_read r)). rewrite Et. unfold bytes_at.
      apply list_eq_same_length with (length src); [done|rewrite length_map, length_seqZ; lia|].
      intros i x y Hi Hx Hy. apply list_lookup_fmap_Some in Hx as (k & -> & Hk). apply lookup_seqZ in Hk as [-> Hk].
      rewrite Z.mod_small by (destruct W; lia). rewrite Hb by (destruct W; lia). rewrite (proj2 (andb_true_iff _ _)) by lia.
      unfold byte_at. rewrite nth_lookup. replace (Z.to_nat _) with i by lia. by rewrite Hy.
Qed.

Lemma write_loop_spec src target : target <= Z.of_nat (length src) -> forall fuel copied r c, wf_ring r -> 0 <= copied <= target ->
  target - copied <= capacity r - available_read r -> target - copied <= Z.of_nat fuel ->
  exists r' c', write_loop fuel target copied src r c = Some (target, r', c') /\ wf_ring r' /\ same_pipe r r' /\
    contents r' = contents r ++ slice (Z.to_nat copied) (Z.to_nat target) src /\
    moved (Z.of_nat (held (pages r')) - Z.of_nat (held (pages r))) c c'.
Proof.
  intros Ht. induction fuel as [|fuel IH]; intros copied r c Hr Hc Hsp Hf; cbn [write_loop].
  { exists r, c. replace copied with target by lia. unfold slice. rewrite Nat.sub_diag, take_0, app_nil_r, Z.sub_diag. split_and!; try done; apply moved_refl. }
  case_if; [|exists r, c; replace copied with target by lia; unfold slice;
    rewrite Nat.sub_diag, take_0, app_nil_r, Z.sub_diag; split_and!; try done; apply moved_refl].
  pose proof Hr as [W Hp _]. destruct (available_spec r W) as (Ha & Et & _ & Hfull & _).
  assert (Hcw : 0 < contiguous_write_len r /\ tail r + contiguous_write_len r <= capacity r).
  { clear Hp Et. destruct W as [? ? ? Hs]. revert Hs Ha Hsp Hfull. ring_cases r. destruct stat; simpl; repeat case_if; try lia. }
  pose proof (chunk_bounds (contiguous_write_len r) (tail r) (target - copied) ltac:(lia) ltac:(lia)) as Hb. simpl in Hb.
  set (k := Z.min _ (target - copied)) in *. rewrite (proj2 (Z.eqb_neq k 0)) by lia.
  set (chunk := slice _ _ src).
  assert (Hck : Z.of_nat (length chunk) = k) by (unfold chunk; rewrite slice_length by lia; lia).
  destruct (write_stored_spec (pages r) (capacity r) (tail r) chunk c Hp ltac:(by destruct W) ltac:(lia)) as (ps & c1 & Ews & Hst).
  rewrite Ews. assert (chunk <> []) by (destruct chunk; [simpl in Hck; lia|done]).
  destruct (extend_ring r ps chunk c c1 Hr ltac:(done) ltac:(lia) ltac:(lia) ltac:(lia) Hst) as [Hr1 Hc1]. rewrite Hck in *.
  fold (extend r ps k). destruct (extend_spec r ps k W ltac:(lia)) as [_ Ea].
  destruct (IH (copied + k) (extend r ps k) c1 Hr1 ltac:(lia)) as (r' & c' & E' & Hr' & Hs' & Hc' & Hm').
  { rewrite Ea. change (capacity (extend r ps k)) with (capacity r). lia. }
  { lia. }
  exists r', c'. split; [done|]. split; [done|]. split; [done|]. split.
  - rewrite Hc', Hc1, <- app_assoc. f_equal. unfold chunk, slice.
    replace (Z.to_nat (copied + k)) with (Z.to_nat copied + Z.to_nat k)%nat by lia.
    replace (Z.to_nat target - Z.to_nat copied)%nat with (Z.to_nat k + (Z.to_nat target - (Z.to_nat copied + Z.to_nat k)))%nat by lia.
    rewrite <- take_take_drop, drop_drop. by rewrite Nat.add_sub'.
  - destruct Hst as (_ & _ & _ & Hm). change (pages (extend r ps k)) with ps in *.
    replace (_ - _) with ((Z.of_nat (held ps) - Z.of_nat (held (pages r))) + (Z.of_nat (held (pages r')) - Z.of_nat (held ps))) by lia.
    by eapply moved_trans.
Qed.

Lemma write_slice_spec r src c : wf_ring r ->
  let n := Z.min (Z.of_nat (length src)) (capacity r - available_read r) in
  exists r' c', write_slice src r c = Some (n, r', c') /\ wf_ring r' /\ same_pipe r r' /\
    contents r' = contents r ++ take (Z.to_nat n) src /\
    moved (Z.of_nat (held (pages r')) - Z.of_nat (held (pages r))) c c'.
Proof.
  intros Hr n. pose proof Hr as [W _ _]. destruct (available_spec r W) as (Ha & _ & _ & _ & Ew).
  unfold write_slice. case_bool_decide as E.
  - subst src. exists r, c. unfold n. simpl. rewrite take_nil, app_nil_r, Z.sub_diag, Z.min_l by lia. split_and!; try done; apply moved_refl.
  - rewrite Ew. fold n. destruct (write_loop_spec src n ltac:(lia) (Z.to_nat n) 0 r c Hr ltac:(lia) ltac:(lia) ltac:(lia))
      as (r' & c' & E' & Hr' & Hs & Hc & Hm).
    exists r', c'. split; [done|]. split; [done|]. split; [done|]. split; [|done]. rewrite Hc. unfold slice. by rewrite Nat.sub_0_r, drop_0.
Qed.

(** ** Resizing, closing and creating *)

(** The first [j] bytes of the contents are in place. *)
Definition copied_to (r : PipeRingBuffer) (ps : list (option PipePage)) (j : Z) : Prop :=
  (forall i, present ps i <-> exists x, 0 <= x < j /\ x / PAGE_SIZE = Z.of_nat i) /\
  (forall x, 0 <= x < j -> read_stored_byte ps x = read_stored_byte (pages r) (offset r x)).

Lemma resize_loop_spec r m : forall n j ps c, 0 <= n -> 0 <= j -> j + n <= m -> wf_pages ps m -> copied_to r ps j ->
  exists ps' c', resize_loop (seqZ j n) r m ps c = Some (ps', c') /\ wf_pages ps' m /\ copied_to r ps' (j + n) /\
    moved (Z.of_nat (held ps') - Z.of_nat (held ps)) c c'.
Proof.
  intros n j ps c Hn. revert j ps c. pattern n. apply natlike_ind; [| |done]; clear n Hn.
  { intros j ps c Hj Hm Hp Hc. exists ps, c. rewrite Z.add_0_r, Z.sub_diag. split_and!; try done; apply moved_refl. }
  intros n Hn IH j ps c Hj Hm Hp [Hpr Hst]. rewrite seqZ_cons by lia. cbn [resize_loop]. unfold write_stored_byte_to.
  set (byte := read_stored_byte (pages r) _).
  destruct (write_stored_spec ps m j [byte] c Hp ltac:(lia)) as (ps1 & c1 & E & Hp1 & Hpr1 & Hb1 & Hm1).
  { simpl. pose proof (Z.mod_pos_bound j PAGE_SIZE ltac:(done)). lia. }
  rewrite E. rewrite Z.pred_succ.
  destruct (IH (Z.succ j) ps1 c1 ltac:(lia) ltac:(lia) Hp1) as (ps' & c' & E' & Hp' & Hc' & Hm').
  { split.
    - intros i. rewrite Hpr1, Hpr. split.
      + intros [(x & ? & ?)| ->]; [exists x; split; [lia|done]|]. exists j. rewrite Z2Nat.id by (unfold PAGE_SIZE; zlia). split; [lia|done].
      + intros (x & ? & Hi). destruct (decide (x = j)) as [->|]; [right; rewrite Hi; lia|left; exists x; split; [lia|done]].
    - intros x Hx. rewrite Hb1 by lia. simpl length. destruct (decide (x = j)) as [->|].
      + rewrite Z.leb_refl, (proj2 (Z.ltb_lt j _)), Z.sub_diag by lia. done.
      + rewrite (proj2 (andb_false_iff _ _)) by lia. apply Hst. lia. }
  exists ps', c'. rewrite E'. split; [done|]. split; [done|]. split; [by replace (j + Z.succ n) with (Z.succ j + n) by lia|].
  replace (_ - _) with ((Z.of_nat (held ps1) - Z.of_nat (held ps)) + (Z.of_nat (held ps') - Z.of_nat (held ps1))) by lia.
  by eapply moved_trans.
Qed.

(** Resizing keeps the contents, and is refused if they do not fit. *)
Lemma resize_spec r m c : wf_ring r -> PIPE_BUF <= m <= PIPE_MAX_SIZE ->
  if m <? available_read r then resize m r c = Some (Err EBUSY, r, c)
  else exists r' c', resize m r c = Some (Ok 0, r', c') /\ wf_ring r' /\ capacity r' = m /\ contents r' = contents r /\
    read_end_open r' = read_end_open r /\ write_end_open r' = write_end_open r /\
    read_waiters r' = read_waiters r /\ write_waiters r' = write_waiters r /\ poll_waiters r' = poll_waiters r /\
    moved (Z.of_nat (held (pages r')) - Z.of_nat (held (pages r))) c c'.
Proof.
  intros Hr Hm. pose proof Hr as [W _ _]. destruct (available_spec r W) as (Ha & _). unfold resize.
  destruct (m <? available_read r) eqn:E; [done|]. to_prop. unfold PIPE_BUF, PIPE_MAX_SIZE in *.
  destruct (resize_loop_spec r m (available_read r) 0 [] c ltac:(lia) ltac:(lia) ltac:(lia)) as (ps & c1 & E1 & Hp & [Hpr Hst] & Hm1).
  { split; [unfold page_count_for, PAGE_SIZE; simpl; zlia|done]. }
  { split; [|lia]. intros i. split; [by intros [? ?]|intros (x & ? & _); lia]. }
  rewrite E1. eexists _, _. split; [reflexivity|]. set (n := available_read r) in *. rewrite Z.add_0_l in *.
  set (r' := mkRing _ _ _ _ _ _ _ _ _ _).
  assert (Et : n mod m = if n <? m then n else 0).
  { case_if; [apply Z.mod_small; lia|]. replace n with m by lia. apply Z.mod_same. lia. }
  assert (W' : wf_offsets r').
  { split; simpl; unfold PIPE_BUF, PIPE_MAX_SIZE; try lia; rewrite Et; repeat case_if; lia. }
  assert (Ea : available_read r' = n).
  { unfold available_read, r'. simpl. rewrite Et. destruct (n =? 0) eqn:?; [|destruct (n =? m) eqn:?]; to_prop; simpl; repeat case_if; lia. }
  assert (Hoff : forall k, 0 <= k < n -> offset r' k = k) by (intros k Hk; apply Z.mod_small; simpl; lia).
  split; [split; [done|done|]|].
  - intros i. change (present ps i <-> used_page r' i). rewrite Hpr. unfold used_page, in_data. rewrite Ea. split.
    + intros (x & Hx & Hi). exists x. split; [|done]. exists x. split; [done|]. by apply Hoff.
    + intros (o & (k & Hk & <-) & Hi). exists k. rewrite Hoff in Hi by done. done.
  - split; [done|]. split.
    + unfold contents. rewrite Ea. fold n. apply list_fmap_ext. intros i k Hk. apply lookup_seqZ in Hk.
      fold (offset r' k) (offset r k). rewrite Hoff by lia. apply Hst. lia.
    + do 5 (split; [done|]). change (pages r') with ps. rewrite Z.sub_0_r in Hm1. replace (_ - _) with (Z.of_nat (held ps) + - Z.of_nat (held (pages r))) by lia.
      eapply moved_trans; [exact Hm1|apply moved_drop].
Qed.

Lemma close_read_end_spec r c : wf_ring r ->
  exists r' c', close_read_end r c = (r', c') /\ wf_ring r' /\ capacity r' = capacity r /\ contents r' = [] /\
    read_end_open r' = false /\ write_end_open r' = write_end_open r /\
    read_waiters r' = read_waiters r /\ write_waiters r' = write_waiters r /\ poll_waiters r' = poll_waiters r /\
    moved (Z.of_nat (held (pages r')) - Z.of_nat (held (pages r))) c c'.
Proof.
  intros [W Hp _]. unfold close_read_end. set (r1 := with_head _ _ _).
  assert (W1 : wf_offsets r1) by (destruct W; split; done).
  destruct (reclaim_spec r1 c W1 Hp) as (ps & E & Hr' & Hc & Hle).
  { intros i (o & (k & Hk & _) & _). change (available_read r1) with 0 in Hk. lia. }
  rewrite E. eexists _, _. split; [reflexivity|]. split; [done|]. split; [done|]. split; [by rewrite Hc|].
  do 5 (split; [done|]). simpl in Hle |- *. replace (_ - _) with (- Z.of_nat (held (pages r) - held ps)) by lia. apply moved_drop.
Qed.

(** Fields that are not data do not matter for the invariant. *)
Lemma wf_ring_meta r r' : pages r' = pages r -> capacity r' = capacity r -> head r' = head r -> tail r' = tail r ->
  status r' = status r -> wf_ring r -> wf_ring r' /\ contents r' = contents r.
Proof. destruct r, r'; simpl; intros -> -> -> -> -> [[] Hp H]; split; [|done]. split; [by split|exact Hp|exact H]. Qed.

Lemma ring_new_spec c : let r := (ring_new c).1 in wf_ring r /\ contents r = [] /\ held (pages r) = 0%nat.
Proof.
  simpl. split; [|done]. split; [split; simpl; unfold PIPE_BUF, PIPE_MAX_SIZE, DEFAULT_PIPE_CAPACITY; try lia; done|split; [by vm_compute|done]|].
  intros i. split; [by intros [? ?]|]. intros (o & (k & Hk & _) & _). change (available_read _) with 0 in Hk. lia.
Qed.
