(* ===== verification/Pipe.v ===== *)
(** * Pipes: ends, blocking transfers, splice buffers and socket pairs
    (os/src/fs/pipe.rs)

    The two ends of a pipe are objects that share one ring buffer; a socket
    pair is two pipes crosswise.  An [Arc] is an identity in the world's store.

    A call that may block is a loop.  One turn of the loop, from the lock of
    the ring to its release and the wake-ups that follow, is one definition,
    on a ring and the counters; its last component lists the tasks that are
    woken.  [run_turns] composes turns: between two of them, while the task
    sleeps or another CPU takes the lock, the rest of the system runs, which is
    the next element of [env].

    A destination is a list of user slices and is returned with the bytes that
    were stored. *)

From S2P Require Import Prelude SysErr UserMem PipeRing.

(** ** Objects *)

Definition O_RDONLY : Z := 0.
Definition O_WRONLY : Z := 1.
Definition O_RDWR : Z := 2.
Definition O_NONBLOCK : Z := 2048.  (* 0o4000 *)

Record Pipe := mkPipe {
  p_readable : bool;
  p_writable : bool;
  p_buffer : Z;
  p_status_flags : Z }.

Record PipeWorld := mkPipeWorld {
  rings : gmap Z PipeRingBuffer;
  pipes : gmap Z Pipe;
  counters : PipeCounters;
  live : gset Z;              (* tasks that a weak reference still reaches *)
  interrupted : gset Z;       (* tasks for which [interrupted_after_block] holds *)
  woken : list Z;             (* [wakeup_task], oldest first *)
  sigpipe : list Z }.         (* tasks whose process was sent SIGPIPE *)

Definition read_end_with_buffer (buffer : Z) : Pipe := mkPipe true false buffer O_RDONLY.
Definition write_end_with_buffer (buffer : Z) : Pipe := mkPipe false true buffer O_WRONLY.

Definition nonblock (p : Pipe) : bool := negb (Z.land (p_status_flags p) O_NONBLOCK =? 0).

Definition set_status_flags (flags : Z) (p : Pipe) : Pipe :=
  mkPipe (p_readable p) (p_writable p) (p_buffer p)
    (Z.lor (Z.land (p_status_flags p) 3) (Z.land flags O_NONBLOCK)).

(** A turn ends the call, or sleeps, or starts over. *)
Inductive Turn (A : Type) :=
| Done (r : SysResult A)
| Blocked
| Again.
Arguments Done {A}. Arguments Blocked {A}. Arguments Again {A}.

(** Both queues of waiters, in the order in which they are woken. *)
Definition take_write_and_poll (r : PipeRingBuffer) : PipeRingBuffer * list Z :=
  let '(r, ww) := take_write_waiters r in
  let '(r, pw) := take_poll_waiters r in (r, ww ++ pw).
Definition take_read_and_poll (r : PipeRingBuffer) : PipeRingBuffer * list Z :=
  let '(r, rw) := take_read_waiters r in
  let '(r, pw) := take_poll_waiters r in (r, rw ++ pw).

Section Turns.
Context (tasks : gset Z) (me : Z).

Definition register_read_waiter (r : PipeRingBuffer) : PipeRingBuffer :=
  with_read_waiters r (register_waiter tasks (read_waiters r) me).
Definition register_write_waiter (r : PipeRingBuffer) : PipeRingBuffer :=
  with_write_waiters r (register_waiter tasks (write_waiters r) me).

(** The part that all reads share: there is nothing to read. *)
Definition read_nothing {A} (eof : A) (nonblocking : bool) (r : PipeRingBuffer)
  : Turn A * PipeRingBuffer * list Z :=
  if all_write_ends_closed r then let '(r, pw) := take_poll_waiters r in (Done (Ok eof), r, pw)
  else if nonblocking then (Done (Err EAGAIN), r, [])
  else (Blocked, register_read_waiter r, []).

(** [read_user_slice], for a slice of [want_to_read] bytes: the bytes stored. *)
Definition read_user_slice_turn (nonblocking : bool) (want_to_read : Z) (r : PipeRingBuffer) (c : PipeCounters)
  : Turn bytes * PipeRingBuffer * PipeCounters * list Z :=
  let readable := available_read r in
  if readable =? 0 then
    let '(t, r, ws) := read_nothing [] nonblocking r in (t, r, c, ws)
  else
    let '(out, r, c) := read_slice (Z.min readable want_to_read) r c in
    if (0 <? length out)%nat then
      let '(r, ws) := take_write_and_poll r in (Done (Ok out), r, c, ws)
    else (Again, r, c, []).

(** [write_user_slice]. *)
Definition write_user_slice_turn (nonblocking : bool) (src : bytes) (r : PipeRingBuffer) (c : PipeCounters)
  : option (Turn Z * PipeRingBuffer * PipeCounters * list Z) :=
  let want_to_write := Z.of_nat (length src) in
  if all_read_ends_closed r then Some (Done (Err EPIPE), r, c, [])
  else
    let writable := available_write r in
    if (writable =? 0) || ((want_to_write <=? PIPE_BUF) && (writable <? want_to_write)) then
      if nonblocking then Some (Done (Err EAGAIN), r, c, [])
      else Some (Blocked, register_write_waiter r, c, [])
    else
      match write_slice (take (Z.to_nat (Z.min writable want_to_write)) src) r c with
      | None => None
      | Some (write_len, r, c) =>
          if 0 <? write_len then
            let '(r, ws) := take_read_and_poll r in Some (Done (Ok write_len), r, c, ws)
          else Some (Again, r, c, [])
      end.

(** The position in a list of user slices. *)
Record Cursor := mkCursor {
  buffers : list bytes;
  current_buffer : nat;
  current_offset : nat;
  already : Z }.

(** [current_offset += n], and the next slice if this one is full. *)
Definition move_cursor (k : Cursor) (bufs : list bytes) (n : nat) : Cursor :=
  let offset := (current_offset k + n)%nat in
  if (offset =? length (bufs !!! current_buffer k))%nat
  then mkCursor bufs (S (current_buffer k)) 0 (already k + Z.of_nat n)
  else mkCursor bufs (current_buffer k) offset (already k + Z.of_nat n).

(** The inner loop of [read]. *)
Fixpoint read_round (fuel : nat) (loop_read want_to_read round_read : Z) (k : Cursor)
    (r : PipeRingBuffer) (c : PipeCounters) : Cursor * PipeRingBuffer * PipeCounters :=
  match fuel with
  | O => (k, r, c)
  | S fuel =>
      if (round_read <? loop_read) && (already k <? want_to_read) && (current_buffer k <? length (buffers k))%nat then
        let buf := buffers k !!! current_buffer k in
        if (current_offset k =? length buf)%nat then
          read_round fuel loop_read want_to_read round_read
            (mkCursor (buffers k) (S (current_buffer k)) 0 (already k)) r c
        else
          let '(out, r, c) := read_slice (Z.of_nat (length buf - current_offset k)) r c in
          if (length out =? 0)%nat then (k, r, c)
          else
            let bufs := <[current_buffer k := splice (current_offset k) out buf]> (buffers k) in
            read_round fuel loop_read want_to_read (round_read + Z.of_nat (length out))
              (move_cursor k bufs (length out)) r c
      else (k, r, c)
  end.

(** The inner loop of [write]. *)
Fixpoint write_round (fuel : nat) (loop_write want_to_write round_write : Z) (k : Cursor)
    (r : PipeRingBuffer) (c : PipeCounters) : option (Cursor * PipeRingBuffer * PipeCounters) :=
  match fuel with
  | O => Some (k, r, c)
  | S fuel =>
      if (round_write <? loop_write) && (already k <? want_to_write) && (current_buffer k <? length (buffers k))%nat then
        let buf := buffers k !!! current_buffer k in
        if (current_offset k =? length buf)%nat then
          write_round fuel loop_write want_to_write round_write
            (mkCursor (buffers k) (S (current_buffer k)) 0 (already k)) r c
        else
          match write_slice (drop (current_offset k) buf) r c with
          | None => None
          | Some (write_len, r, c) =>
              if write_len =? 0 then Some (k, r, c)
              else write_round fuel loop_write want_to_write (round_write + write_len)
                     (move_cursor k (buffers k) (Z.to_nat write_len)) r c
          end
      else Some (k, r, c)
  end.

(** [UserBuffer::len]. *)
Definition total_len (bufs : list bytes) : Z := Z.of_nat (length (concat bufs)).

(** A round visits each slice once more than it has bytes. *)
Definition round_fuel (k : Cursor) : nat := S (length (buffers k) + length (concat (buffers k))).

(** [read] into several slices. *)
Definition read_turn (nonblocking : bool) (k : Cursor) (r : PipeRingBuffer) (c : PipeCounters)
  : Turn Z * Cursor * PipeRingBuffer * PipeCounters * list Z :=
  let want_to_read := total_len (buffers k) in
  let loop_read := available_read r in
  if loop_read =? 0 then
    let '(t, r, ws) := read_nothing (already k) nonblocking r in (t, k, r, c, ws)
  else
    let '(k, r, c) := read_round (round_fuel k) loop_read want_to_read 0 k r c in
    if already k =? want_to_read then
      let '(r, ws) := take_write_and_poll r in (Done (Ok want_to_read), k, r, c, ws)
    else if 0 <? already k then
      let '(r, ws) := take_write_and_poll r in (Done (Ok (already k)), k, r, c, ws)
    else (Again, k, r, c, []).

(** [write] from several slices. *)
Definition write_turn (nonblocking : bool) (k : Cursor) (r : PipeRingBuffer) (c : PipeCounters)
  : option (Turn Z * Cursor * PipeRingBuffer * PipeCounters * list Z) :=
  let want_to_write := total_len (buffers k) in
  if all_read_ends_closed r then Some (Done (Err EPIPE), k, r, c, [])
  else
    let loop_write := available_write r in
    if loop_write =? 0 then
      if nonblocking then
        Some (Done (if 0 <? already k then Ok (already k) else Err EAGAIN), k, r, c, [])
      else Some (Blocked, k, register_write_waiter r, c, [])
    else
      match write_round (round_fuel k) loop_write want_to_write 0 k r c with
      | None => None
      | Some (k, r, c) =>
          let '(r, ws) := take_read_and_poll r in
          Some (if already k =? want_to_write then Done (Ok want_to_write) else Again, k, r, c, ws)
      end.

(** [PipeBuffer::wait_readable] and [wait_writable]. *)
Definition wait_readable_turn (nonblocking : bool) (r : PipeRingBuffer) : Turn Z * PipeRingBuffer * list Z :=
  let readable := available_read r in
  if 0 <? readable then (Done (Ok readable), r, [])
  else read_nothing 0 nonblocking r.

Definition wait_writable_turn (nonblocking : bool) (r : PipeRingBuffer) : Turn Z * PipeRingBuffer * list Z :=
  if all_read_ends_closed r then (Done (Err EPIPE), r, [])
  else
    let writable := available_write r in
    if 0 <? writable then (Done (Ok writable), r, [])
    else if nonblocking then (Done (Err EAGAIN), r, [])
    else (Blocked, register_write_waiter r, []).

End Turns.

(** ** Splice buffers *)

(** [PipeBuffer::discard_slice]. *)
Definition buffer_discard_slice (len : Z) (r : PipeRingBuffer) (c : PipeCounters)
  : Z * PipeRingBuffer * PipeCounters * list Z :=
  let '(dropped, r, c) := discard_slice len r c in
  if 0 <? dropped then let '(r, ws) := take_write_and_poll r in (dropped, r, c, ws) else (dropped, r, c, []).

(** [PipeBuffer::write_slice]. *)
Definition buffer_write_slice (src : bytes) (r : PipeRingBuffer) (c : PipeCounters)
  : option (SysResult Z * PipeRingBuffer * PipeCounters * list Z) :=
  if all_read_ends_closed r then Some (Err EPIPE, r, c, [])
  else
    match write_slice src r c with
    | None => None
    | Some (write_len, r, c) =>
        if 0 <? write_len then let '(r, ws) := take_read_and_poll r in Some (Ok write_len, r, c, ws)
        else Some (Ok write_len, r, c, [])
    end.

(** The loop of [transfer_locked]. *)
Fixpoint transfer_loop (fuel : nat) (target total : Z) (input output : PipeRingBuffer) (c : PipeCounters)
  : option (Z * PipeRingBuffer * PipeRingBuffer * PipeCounters) :=
  match fuel with
  | O => Some (total, input, output, c)
  | S fuel =>
      if total <? target then
        let chunk := Z.min (target - total) PAGE_SIZE in
        let peeked := peek_slice chunk input in
        if (length peeked =? 0)%nat then Some (total, input, output, c)
        else
          match write_slice peeked output c with
          | None => None
          | Some (written, output, c) =>
              let '(discarded, input, c) := discard_slice written input c in
              let total := total + discarded in
              if (discarded <? Z.of_nat (length peeked)) || (written <? Z.of_nat (length peeked))
              then Some (total, input, output, c)
              else transfer_loop fuel target total input output c
          end
      else Some (total, input, output, c)
  end.

Definition transfer_locked (len : Z) (input output : PipeRingBuffer) (c : PipeCounters)
  : option (SysResult Z * PipeRingBuffer * PipeRingBuffer * PipeCounters) :=
  if all_read_ends_closed output then Some (Err EPIPE, input, output, c)
  else
    let target := Z.min (Z.min len (available_read input)) (available_write output) in
    match transfer_loop (Z.to_nat target) target 0 input output c with
    | None => None
    | Some (total, input, output, c) => Some (Ok total, input, output, c)
    end.

(** ** The world *)

Section World.
Implicit Types w : PipeWorld.

Definition put_ring (id : Z) (r : PipeRingBuffer) (c : PipeCounters) (ws : list Z) w : PipeWorld :=
  mkPipeWorld (<[id := r]> (rings w)) (pipes w) c (live w) (interrupted w)
    (woken w ++ List.filter (fun t => bool_decide (t ∈ live w)) ws) (sigpipe w).

(** [deliver_signal(&current_process(), SigPipe)]. *)
Definition deliver_sigpipe (me : Z) w : PipeWorld :=
  mkPipeWorld (rings w) (pipes w) (counters w) (live w) (interrupted w) (woken w) (sigpipe w ++ [me]).

Definition sigpipe_if (b : bool) (me : Z) w : PipeWorld := if b then deliver_sigpipe me w else w.

Definition is_epipe {A} (r : SysResult A) : bool := match r with Err EPIPE => true | _ => false end.
Definition turn_epipe {A} (t : Turn A) : bool := match t with Done r => is_epipe r | _ => false end.

(** A pipe object and its ring. *)
Definition pipe_ring (pid : Z) w : option (Pipe * PipeRingBuffer) :=
  p ← pipes w !! pid; r ← rings w !! p_buffer p; Some (p, r).

(** Sections of the world: lock the ring, run, release, wake. *)
Definition read_user_slice_step (want me pid : Z) w : option (Turn bytes * PipeWorld) :=
  '(p, r) ← pipe_ring pid w;
  let '(t, r, c, ws) := read_user_slice_turn (live w) me (nonblock p) want r (counters w) in
  Some (t, put_ring (p_buffer p) r c ws w).

Definition write_user_slice_step (src : bytes) (me pid : Z) w : option (Turn Z * PipeWorld) :=
  '(p, r) ← pipe_ring pid w;
  '(t, r, c, ws) ← write_user_slice_turn (live w) me (nonblock p) src r (counters w);
  Some (t, sigpipe_if (turn_epipe t) me (put_ring (p_buffer p) r c ws w)).

Definition read_step (me pid : Z) (k : Cursor) w : option (Turn Z * Cursor * PipeWorld) :=
  '(p, r) ← pipe_ring pid w;
  let '(t, k, r, c, ws) := read_turn (live w) me (nonblock p) k r (counters w) in
  Some (t, k, put_ring (p_buffer p) r c ws w).

Definition write_step (me pid : Z) (k : Cursor) w : option (Turn Z * Cursor * PipeWorld) :=
  '(p, r) ← pipe_ring pid w;
  '(t, k, r, c, ws) ← write_turn (live w) me (nonblock p) k r (counters w);
  Some (t, k, sigpipe_if (turn_epipe t) me (put_ring (p_buffer p) r c ws w)).

Definition wait_readable_step (nonblocking : bool) (me id : Z) w : option (Turn Z * PipeWorld) :=
  r ← rings w !! id;
  let '(t, r, ws) := wait_readable_turn (live w) me nonblocking r in
  Some (t, put_ring id r (counters w) ws w).

Definition wait_writable_step (nonblocking : bool) (me id : Z) w : option (Turn Z * PipeWorld) :=
  r ← rings w !! id;
  let '(t, r, ws) := wait_writable_turn (live w) me nonblocking r in
  Some (t, sigpipe_if (turn_epipe t) me (put_ring id r (counters w) ws w)).

Definition discard_step (len id : Z) w : option (Z * PipeWorld) :=
  r ← rings w !! id;
  let '(n, r, c, ws) := buffer_discard_slice len r (counters w) in
  Some (n, put_ring id r c ws w).

Definition buffer_write_step (src : bytes) (me id : Z) w : option (SysResult Z * PipeWorld) :=
  r ← rings w !! id;
  '(res, r, c, ws) ← buffer_write_slice src r (counters w);
  Some (res, sigpipe_if (is_epipe res) me (put_ring id r c ws w)).

(** [transfer_to].  Both locks are held, in the order of the identities. *)
Definition transfer_to (input output len me : Z) w : option (SysResult Z * PipeWorld) :=
  if input =? output then Some (Err EINVAL, w)
  else
    ri ← rings w !! input;
    ro ← rings w !! output;
    '(res, ri, ro, c) ← transfer_locked len ri ro (counters w);
    let '(ri, wi, ro, wo) :=
      if match res with Ok n => 0 <? n | Err _ => false end
      then let '(ri, wi) := take_write_and_poll ri in
           let '(ro, wo) := take_read_and_poll ro in (ri, wi, ro, wo)
      else (ri, [], ro, []) in
    Some (res, sigpipe_if (is_epipe res) me (put_ring output ro c wo (put_ring input ri c wi w))).

(** [set_pipe_capacity]. *)
Definition set_pipe_capacity (size id : Z) w : option (SysResult Z * PipeWorld) :=
  if PIPE_SIZE_LIMIT <? size then Some (Err EINVAL, w)
  else if PIPE_MAX_SIZE <? size then Some (Err EPERM, w)
  else
    r ← rings w !! id;
    '(res, r, c) ← resize (Z.max size PIPE_BUF) r (counters w);
    Some (res, put_ring id r c [] w).

Definition register_poll_waker (task id : Z) w : option PipeWorld :=
  r ← rings w !! id;
  Some (put_ring id (with_poll_waiters r (register_waiter (live w) (poll_waiters r) task)) (counters w) [] w).

Definition clear_poll_waker (task id : Z) w : option PipeWorld :=
  r ← rings w !! id;
  Some (put_ring id (with_poll_waiters r (clear_waiter (live w) (poll_waiters r) task)) (counters w) [] w).

Definition wake_poll_waiters (id : Z) w : option PipeWorld :=
  r ← rings w !! id;
  let '(r, pw) := take_poll_waiters r in Some (put_ring id r (counters w) pw w).

(** [Drop for Pipe] on the ring. *)
Definition close_ends (p : Pipe) (r : PipeRingBuffer) (c : PipeCounters) : PipeRingBuffer * PipeCounters * list Z :=
  let '(r, c, ww) := if p_readable p
                     then let '(r, c) := close_read_end r c in let '(r, ww) := take_write_waiters r in (r, c, ww)
                     else (r, c, []) in
  let '(r, rw) := if p_writable p then take_read_waiters (close_write_end r) else (r, []) in
  let '(r, pw) := take_poll_waiters r in
  (r, c, ww ++ rw ++ pw).

(** The last reference to the pipe object [pid] goes; the ring goes with the
    last pipe object that refers to it. *)
Definition drop_pipe (pid : Z) w : option PipeWorld :=
  p ← pipes w !! pid;
  r ← rings w !! p_buffer p;
  let '(r, c, ws) := close_ends p r (counters w) in
  let w := put_ring (p_buffer p) r c ws w in
  let w := mkPipeWorld (rings w) (delete pid (pipes w)) (counters w) (live w) (interrupted w) (woken w) (sigpipe w) in
  if existsb (fun q : Z * Pipe => p_buffer q.2 =? p_buffer p) (map_to_list (pipes w)) then Some w
  else Some (mkPipeWorld (delete (p_buffer p) (rings w)) (pipes w) (drop_ring r (counters w)) (live w)
               (interrupted w) (woken w) (sigpipe w)).

(** [make_pipe], with the identities of the new objects. *)
Definition make_pipe (id rd wr : Z) w : PipeWorld :=
  let '(r, c) := ring_new (counters w) in
  let r := set_write_end (set_read_end r) in
  mkPipeWorld (<[id := r]> (rings w))
    (<[wr := write_end_with_buffer id]> (<[rd := read_end_with_buffer id]> (pipes w))) c
    (live w) (interrupted w) (woken w) (sigpipe w).

(** ** Blocking calls *)

Fixpoint run_turns {S A : Type} (turn : S -> PipeWorld -> option (Turn A * S * PipeWorld)) (me : Z)
    (env : list (PipeWorld -> PipeWorld)) (st : S) w : option (option (SysResult A) * S * PipeWorld) :=
  match turn st w with
  | None => None
  | Some (Done r, st, w) => Some (Some r, st, w)
  | Some (Blocked, st, w) =>
      match env with
      | [] => Some (None, st, w)
      | e :: env =>
          let w := e w in
          if bool_decide (me ∈ interrupted w) then Some (Some (Err EINTR), st, w)
          else run_turns turn me env st w
      end
  | Some (Again, st, w) =>
      match env with
      | [] => Some (None, st, w)
      | e :: env => run_turns turn me env st (e w)
      end
  end.

(** A turn without loop state. *)
Definition stateless {A} (turn : PipeWorld -> option (Turn A * PipeWorld)) (_ : unit) w
  : option (Turn A * unit * PipeWorld) :=
  match turn w with Some (t, w) => Some (t, tt, w) | None => None end.

Definition read_user_slice (pid want me : Z) env w :=
  if want =? 0 then Some (Some (Ok []), tt, w)
  else run_turns (stateless (read_user_slice_step want me pid)) me env tt w.

Definition write_user_slice (pid : Z) (src : bytes) (me : Z) env w :=
  if Z.of_nat (length src) =? 0 then Some (Some (Ok 0), tt, w)
  else run_turns (stateless (write_user_slice_step src me pid)) me env tt w.

Definition start (bufs : list bytes) : Cursor := mkCursor bufs 0 0 0.

(** [Pipe::read] and [Pipe::write]; a call on the wrong end panics. *)
Definition pipe_read (pid : Z) (bufs : list bytes) (me : Z) env w :=
  p ← pipes w !! pid;
  if negb (p_readable p) then None
  else if total_len bufs =? 0 then Some (Some (Ok 0), start bufs, w)
  else run_turns (read_step me pid) me env (start bufs) w.

Definition pipe_write (pid : Z) (bufs : list bytes) (me : Z) env w :=
  p ← pipes w !! pid;
  if negb (p_writable p) then None
  else if total_len bufs =? 0 then Some (Some (Ok 0), start bufs, w)
  else run_turns (write_step me pid) me env (start bufs) w.

Definition wait_readable (nonblocking : bool) (me id : Z) env w :=
  run_turns (stateless (wait_readable_step nonblocking me id)) me env tt w.
Definition wait_writable (nonblocking : bool) (me id : Z) env w :=
  run_turns (stateless (wait_writable_step nonblocking me id)) me env tt w.

(** [read_user]: the range is one slice of kernel-visible memory or several.
    [single] and [parts] are what [translated_single_byte_buffer_for_write] and
    [translated_byte_buffer_for_write] return for it.  The result is the slices
    with what was stored. *)
Definition read_user (pid : Z) (single : SysResult (option bytes)) (parts : SysResult (list bytes))
    (len me : Z) env w : option (option (SysResult Z) * list bytes * PipeWorld) :=
  p ← pipes w !! pid;
  if negb (p_readable p) then None
  else if len =? 0 then Some (Some (Ok 0), [], w)
  else match single with
  | Err e => Some (Some (Err e), [], w)
  | Ok (Some dst) =>
      '(res, _, w) ← read_user_slice pid (Z.of_nat (length dst)) me env w;
      Some (match res with
            | Some (Ok out) => (Some (Ok (Z.of_nat (length out))), [splice 0 out dst], w)
            | Some (Err e) => (Some (Err e), [dst], w)
            | None => (None, [dst], w)
            end)
  | Ok None =>
      match parts with
      | Err e => Some (Some (Err e), [], w)
      | Ok bufs => '(res, k, w) ← pipe_read pid bufs me env w; Some (res, buffers k, w)
      end
  end.

(** [write_user], likewise. *)
Definition write_user (pid : Z) (single : SysResult (option bytes)) (parts : SysResult (list bytes))
    (len me : Z) env w : option (option (SysResult Z) * PipeWorld) :=
  p ← pipes w !! pid;
  if negb (p_writable p) then None
  else if len =? 0 then Some (Some (Ok 0), w)
  else match single with
  | Err e => Some (Some (Err e), w)
  | Ok (Some src) => '(res, _, w) ← write_user_slice pid src me env w; Some (res, w)
  | Ok None =>
      match parts with
      | Err e => Some (Some (Err e), w)
      | Ok bufs => '(res, _, w) ← pipe_write pid bufs me env w; Some (res, w)
      end
  end.

(** ** Readiness and sizes *)

Definition pipe_capacity (p : Pipe) w : option Z := capacity <$> rings w !! p_buffer p.
Definition pipe_has_data (r : PipeRingBuffer) : bool := 0 <? available_read r.
Definition pipe_has_space (r : PipeRingBuffer) : bool := 0 <? available_write r.
Definition pipe_read_len (p : Pipe) w : option Z := available_read <$> rings w !! p_buffer p.

Definition FIONREAD : Z := 0x541B.

(** [ioctl]: the number of readable bytes, as an [i32]. *)
Definition pipe_ioctl {U} `{UserMem U} (p : Pipe) (request argp : Z) (u : U) w : SysResult U :=
  if request =? FIONREAD then
    if argp =? 0 then Err EFAULT
    else match rings w !! p_buffer p with
         | None => Err EFAULT
         | Some r => copy_to_user u argp (le_store 4 (available_read r))
         end
  else Err ENOTTY.

(** ** Socket pairs *)

Record SocketPairFile := mkSocketPair { sp_read_end : Z; sp_write_end : Z }.

Definition update_pipe (pid : Z) (f : Pipe -> Pipe) w : PipeWorld :=
  mkPipeWorld (rings w) (alter f pid (pipes w)) (counters w) (live w) (interrupted w) (woken w) (sigpipe w).

Definition socket_pair_new (rd wr : Z) (nonblocking : bool) w : SocketPairFile * PipeWorld :=
  (mkSocketPair rd wr,
   if nonblocking then update_pipe wr (set_status_flags O_NONBLOCK) (update_pipe rd (set_status_flags O_NONBLOCK) w) else w).

(** [make_socket_pair], with the identities of the two pipes. *)
Definition make_socket_pair (id0 read0 write1 id1 read1 write0 : Z) (nonblocking : bool) w
  : SocketPairFile * SocketPairFile * PipeWorld :=
  let w := make_pipe id1 read1 write0 (make_pipe id0 read0 write1 w) in
  let '(f0, w) := socket_pair_new read0 write0 nonblocking w in
  let '(f1, w) := socket_pair_new read1 write1 nonblocking w in
  (f0, f1, w).

Definition socket_status_flags (f : SocketPairFile) w : option Z :=
  p ← pipes w !! sp_read_end f; Some (Z.lor O_RDWR (Z.land (p_status_flags p) O_NONBLOCK)).

Definition socket_set_status_flags (flags : Z) (f : SocketPairFile) w : PipeWorld :=
  let nb := Z.land flags O_NONBLOCK in
  update_pipe (sp_write_end f) (set_status_flags nb) (update_pipe (sp_read_end f) (set_status_flags nb) w).

Definition ring_of (pid : Z) w : option PipeRingBuffer := p ← pipes w !! pid; rings w !! p_buffer p.

Definition socket_read_ready (f : SocketPairFile) w : option bool :=
  r ← ring_of (sp_read_end f) w; Some ((0 <? available_read r) || all_write_ends_closed r).

Definition socket_write_ready (f : SocketPairFile) w : option bool :=
  r ← ring_of (sp_write_end f) w; Some ((0 <? available_write r) && negb (all_read_ends_closed r)).

Definition socket_read (f : SocketPairFile) (bufs : list bytes) (me : Z) env w :=
  pipe_read (sp_read_end f) bufs me env w.
Definition socket_write (f : SocketPairFile) (bufs : list bytes) (me : Z) env w :=
  pipe_write (sp_write_end f) bufs me env w.

End World.
