(* ===== verification/PipeSpec.v ===== *)
(** * Pipes: what the lock sections do

    Each turn of a blocking call, and each operation of a splice buffer, takes
    a ring from one state that satisfies the invariant to another, moves bytes
    in at the tail or out at the head, and wakes the tasks it has to. *)

From S2P Require Import Prelude SysErr PipeRing PipeRingSpec Pipe.

(** A registered reader has nothing to read, and a writer may still come. *)
Definition reader_ok (r : PipeRingBuffer) : Prop :=
  read_waiters r = [] \/ (contents r = [] /\ write_end_open r = true).

(** A registered writer lacks space for an atomic write, and there is a reader. *)
Definition writer_ok (r : PipeRingBuffer) : Prop :=
  write_waiters r = [] \/ (read_end_open r = true /\ available_write r < PIPE_BUF).

(** The effect of a section that puts [inb] in and takes [outb] out, and wakes [ws]. *)
Record section (tasks : gset Z) (r r' : PipeRingBuffer) (c c' : PipeCounters) (inb outb : bytes) (ws : list Z) : Prop := {
  s_wf : wf_ring r';
  s_data : contents r ++ inb = outb ++ contents r';
  s_capacity : capacity r' = capacity r;
  s_ends : read_end_open r' = read_end_open r /\ write_end_open r' = write_end_open r;
  s_open : inb <> [] -> read_end_open r = true;
  s_moved : moved (Z.of_nat (held (pages r')) - Z.of_nat (held (pages r))) c c';
  s_readers t : t ∈ read_waiters r -> t ∈ read_waiters r' \/ t ∈ ws \/ t ∉ tasks;
  s_writers t : t ∈ write_waiters r -> t ∈ write_waiters r' \/ t ∈ ws \/ t ∉ tasks;
  s_reader : reader_ok r -> reader_ok r';
  s_writer : writer_ok r -> writer_ok r' }.

(** Sections that only touch the wait queues. *)
Lemma section_meta tasks r r' c ws : wf_ring r ->
  pages r' = pages r -> capacity r' = capacity r -> head r' = head r -> tail r' = tail r -> status r' = status r ->
  read_end_open r' = read_end_open r -> write_end_open r' = write_end_open r ->
  (forall t, t ∈ read_waiters r -> t ∈ read_waiters r' \/ t ∈ ws \/ t ∉ tasks) ->
  (forall t, t ∈ write_waiters r -> t ∈ write_waiters r' \/ t ∈ ws \/ t ∉ tasks) ->
  (read_waiters r' = [] \/ read_waiters r' = read_waiters r \/ (contents r = [] /\ write_end_open r = true)) ->
  (write_waiters r' = [] \/ write_waiters r' = write_waiters r \/ (read_end_open r = true /\ available_write r < PIPE_BUF)) ->
  section tasks r r' c c [] [] ws.
Proof.
  intros Hr Ep Ec Eh Et Es Ero Ewo Hrw Hww Hrd Hwr.
  destruct (wf_ring_meta r r' Ep Ec Eh Et Es Hr) as [Hr' Hc].
  assert (Ea : available_write r' = available_write r) by (unfold available_write, available_read; by rewrite Ec, Eh, Et, Es).
  split; try done.
  - by rewrite Hc, app_nil_r.
  - rewrite Ep, Z.sub_diag. apply moved_refl.
  - intros H. unfold reader_ok in *. rewrite Hc, Ewo. destruct Hrd as [->|[->|?]]; auto.
  - intros H. unfold writer_ok in *. rewrite Ea, Ero. destruct Hwr as [->|[->|?]]; auto.
Qed.

Lemma available_data r : wf_ring r -> available_read r = Z.of_nat (length (contents r)) /\
  available_write r = capacity r - Z.of_nat (length (contents r)) /\ 0 <= available_write r /\
  Z.of_nat (length (contents r)) <= capacity r /\ PIPE_BUF <= capacity r <= PIPE_MAX_SIZE.
Proof.
  intros Hr. rewrite (wf_available r Hr). destruct Hr as [W _ _].
  destruct (available_spec r W) as (? & _ & _ & _ & ->). destruct W. lia.
Qed.

(** A section that consumes [n] bytes and wakes the writers and pollers. *)
Lemma section_consume tasks r r1 c c' n : wf_ring r -> wf_ring r1 -> same_pipe r r1 ->
  contents r1 = drop n (contents r) -> moved (Z.of_nat (held (pages r1)) - Z.of_nat (held (pages r))) c c' ->
  section tasks r (take_write_and_poll r1).1 c c' [] (take n (contents r)) (take_write_and_poll r1).2.
Proof.
  intros Hr Hr1 (Ec & Ero & Ewo & Erw & Eww & Epw) Hd Hm. simpl.
  destruct (wf_ring_meta r1 (with_poll_waiters (with_write_waiters r1 []) []) eq_refl eq_refl eq_refl eq_refl eq_refl Hr1) as [Hr' Hc].
  split; simpl; try done.
  - by rewrite Hc, Hd, take_drop, app_nil_r.
  - rewrite Erw. auto.
  - rewrite Eww. intros t Ht. right. left. apply elem_of_app. by left.
  - intros [E|[E1 E2]]; [left; simpl; by rewrite Erw|]. right. rewrite Hc, Hd, E1, drop_nil. simpl. by rewrite Ewo.
  - intros _. by left.
Qed.

(** A section that appends bytes and wakes the readers and pollers. *)
Lemma section_produce tasks r r1 c c' bs : wf_ring r -> wf_ring r1 -> same_pipe r r1 -> read_end_open r = true ->
  contents r1 = contents r ++ bs -> moved (Z.of_nat (held (pages r1)) - Z.of_nat (held (pages r))) c c' ->
  section tasks r (take_read_and_poll r1).1 c c' bs [] (take_read_and_poll r1).2.
Proof.
  intros Hr Hr1 (Ec & Ero & Ewo & Erw & Eww & Epw) Ho Hd Hm. simpl.
  destruct (wf_ring_meta r1 (with_poll_waiters (with_read_waiters r1 []) []) eq_refl eq_refl eq_refl eq_refl eq_refl Hr1) as [Hr' Hc].
  split; simpl; try done.
  - rewrite Erw. intros t Ht. right. left. apply elem_of_app. by left.
  - rewrite Eww. auto.
  - intros _. by left.
  - intros [E|[E1 E2]]; [left; simpl; by rewrite Eww|]. right. simpl. rewrite Ero. split; [done|].
    destruct (available_data r Hr) as (_ & Ea & _). destruct (available_data _ Hr') as (_ & Ea' & _).
    rewrite Ea', Hc, Hd, length_app. simpl. rewrite Ec. lia.
Qed.

(** The same without wake-ups, when nothing was moved. *)
Lemma section_still tasks r r1 c c' : wf_ring r -> wf_ring r1 -> same_pipe r r1 -> contents r1 = contents r ->
  moved (Z.of_nat (held (pages r1)) - Z.of_nat (held (pages r))) c c' -> section tasks r r1 c c' [] [] [].
Proof.
  intros Hr Hr1 (Ec & Ero & Ewo & Erw & Eww & Epw) Hc Hm.
  destruct (available_data r Hr) as (_ & Ea & _). destruct (available_data r1 Hr1) as (_ & Ea' & _).
  split; try done.
  - by rewrite Hc, app_nil_r.
  - rewrite Erw. auto.
  - rewrite Eww. auto.
  - unfold reader_ok. by rewrite Hc, Erw, Ewo.
  - unfold writer_ok. rewrite Ea, Ea', Eww, Ero, Hc, Ec. done.
Qed.

Lemma register_waiter_keeps tasks ws t me : t ∈ ws -> t ∈ register_waiter tasks ws me \/ t ∉ tasks.
Proof.
  intros Ht. unfold register_waiter. destruct (decide (t ∈ tasks)); [left|by right].
  assert (t ∈ List.filter (fun t => bool_decide (t ∈ tasks)) ws) by (apply filter_In_iff; split; [done|by apply bool_decide_eq_true_2]).
  case_if; [done|]. apply elem_of_app. by left.
Qed.

Section TurnSpecs.
Context (tasks : gset Z) (me : Z).

Lemma read_nothing_spec {A} (eof : A) nb r c : wf_ring r -> contents r = [] ->
  let '(t, r', ws) := read_nothing tasks me eof nb r in
  section tasks r r' c c [] [] ws /\
  match t with
  | Done (Ok x) => x = eof /\ write_end_open r = false
  | Done (Err e) => e = EAGAIN /\ nb = true /\ write_end_open r = true
  | Blocked => nb = false /\ write_end_open r = true /\ (me ∈ tasks -> me ∈ read_waiters r')
  | Again => False
  end.
Proof.
  intros Hr Hc. unfold read_nothing, all_write_ends_closed. destruct (write_end_open r) eqn:Eo; simpl.
  - destruct nb; simpl.
    + split; [|done]. apply section_meta; auto.
    + split; [|split; [done|split; [done|]]].
      * apply section_meta; simpl; auto. intros t Ht. destruct (register_waiter_keeps tasks _ t me Ht); auto.
      * intros Hme. unfold register_waiter. case_if; [|apply elem_of_app; right; by left].
        apply existsb_exists in E as (x & Hx & Ex). apply Z.eqb_eq in Ex as ->. by apply list_elem_of_In.
  - split; [|done]. apply section_meta; simpl; auto.
Qed.

(** Reading into one slice.  A turn of [read_user_slice] takes the oldest
    bytes, as many as are there or fit; end of file is reported exactly when the
    pipe is empty and has no writer; an empty pipe with a writer gives EAGAIN or,
    for a blocking descriptor, puts the task on the wait queue. *)
Lemma read_user_slice_turn_spec nb want r c : wf_ring r -> 0 < want ->
  exists t r' c' ws, read_user_slice_turn tasks me nb want r c = (t, r', c', ws) /\
  let out := match t with Done (Ok bs) => bs | _ => [] end in
  section tasks r r' c c' [] out ws /\
  match t with
  | Done (Ok bs) => bs = take (Z.to_nat want) (contents r) /\ (bs = [] -> contents r = [] /\ write_end_open r = false)
  | Done (Err e) => e = EAGAIN /\ nb = true /\ contents r = [] /\ write_end_open r = true
  | Blocked => nb = false /\ contents r = [] /\ write_end_open r = true /\ (me ∈ tasks -> me ∈ read_waiters r')
  | Again => False
  end.
Proof.
  intros Hr Hw. unfold read_user_slice_turn. destruct (available_data r Hr) as (Ea & _).
  destruct (available_read r =? 0) eqn:E; to_prop.
  - assert (Hc : contents r = []) by (apply length_zero_iff_nil; lia).
    pose proof (read_nothing_spec (@nil Z) nb r c Hr Hc) as H. destruct (read_nothing tasks me [] nb r) as [[t r'] ws].
    eexists _, _, _, _. split; [reflexivity|]. simpl. destruct H as [Hs Ht]. destruct t as [[x|e]| |]; try done.
    + destruct Ht as [-> Ho]. split; [done|]. rewrite Hc, take_nil. done.
    + naive_solver.
    + naive_solver.
  - destruct (read_slice_spec r (Z.min (available_read r) want) c Hr ltac:(lia)) as (r1 & c1 & Er & Hr1 & Hs & Hd & Hm).
    rewrite Er. assert (Et : take (Z.to_nat (Z.min (available_read r) want)) (contents r) = take (Z.to_nat want) (contents r)).
    { destruct (Z.le_ge_cases (available_read r) want); [rewrite Z.min_l by done|by rewrite Z.min_r by done]. rewrite !take_ge by lia. done. }
    rewrite (proj2 (Nat.ltb_lt _ _)) by (rewrite length_take; lia).
    destruct (take_write_and_poll r1) as [r' ws] eqn:Etw. eexists _, _, _, _. split; [reflexivity|]. cbn beta iota zeta.
    pose proof (section_consume tasks r r1 c c1 _ Hr Hr1 Hs Hd Hm) as Hsec. rewrite Etw in Hsec.
    split; [exact Hsec|]. split; [done|]. intros E0. exfalso. apply (f_equal length) in E0. rewrite length_take in E0. simpl in E0. lia.
Qed.

(** Writing one slice.  A turn of [write_user_slice] writes a prefix; up to
    PIPE_BUF bytes are written whole or not at all; EPIPE is reported exactly when
    there is no reader, and then nothing is written. *)
Lemma write_user_slice_turn_spec nb src r c : wf_ring r -> src <> [] ->
  exists t r' c' ws, write_user_slice_turn tasks me nb src r c = Some (t, r', c', ws) /\
  let n := match t with Done (Ok n) => n | _ => 0 end in
  section tasks r r' c c' (take (Z.to_nat n) src) [] ws /\
  match t with
  | Done (Ok n) => 0 < n <= Z.of_nat (length src) /\ (Z.of_nat (length src) <= PIPE_BUF -> n = Z.of_nat (length src))
  | Done (Err e) => (e = EPIPE /\ read_end_open r = false) \/ (e = EAGAIN /\ nb = true /\ available_write r < Z.of_nat (length src))
  | Blocked => nb = false /\ available_write r < Z.of_nat (length src) /\ available_write r < PIPE_BUF
  | Again => False
  end.
Proof.
  intros Hr Hne. unfold write_user_slice_turn, all_read_ends_closed. destruct (available_data r Hr) as (_ & Ea & Hnn & Hle & Hcap).
  assert (Hpos : 0 < Z.of_nat (length src)) by (destruct src; [done|simpl; lia]).
  destruct (read_end_open r) eqn:Eo; simpl.
  2:{ eexists _, _, _, _. split; [reflexivity|]. simpl. split; [|by left]. apply section_meta; auto. }
  destruct (_ || _) eqn:Eb.
  - assert (Hsp : available_write r < Z.of_nat (length src) /\ available_write r < PIPE_BUF).
    { to_prop. unfold PIPE_BUF. destruct Eb as [Eb|Eb]; to_prop; unfold PIPE_BUF in *; lia. }
    destruct nb; eexists _, _, _, _; (split; [reflexivity|]); simpl.
    + split; [apply section_meta; auto|]. right. tauto.
    + split; [|done]. apply section_meta; simpl; auto; [|right; right; tauto].
      intros t Ht. destruct (register_waiter_keeps tasks _ t me Ht); auto.
  - apply orb_false_iff in Eb as [Eb1 Eb2]. to_prop.
    set (chunk := take _ src). assert (Hl : Z.of_nat (length chunk) = Z.min (available_write r) (Z.of_nat (length src)))
      by (unfold chunk; rewrite length_take; lia).
    destruct (write_slice_spec r chunk c Hr) as (r1 & c1 & Er & Hr1 & Hs & Hd & Hm).
    rewrite Er. set (n := Z.min (Z.of_nat (length chunk)) _) in *.
    assert (Hn : n = Z.min (available_write r) (Z.of_nat (length src))).
    { unfold n. rewrite (proj1 (available_data r Hr)). lia. }
    rewrite (proj2 (Z.ltb_lt _ _)) by lia. eexists _, _, _, _. split; [reflexivity|]. cbn beta iota zeta.
    pose proof (section_produce tasks r r1 c c1 _ Hr Hr1 Hs Eo Hd Hm) as Hsec.
    assert (Et : take (Z.to_nat n) chunk = take (Z.to_nat n) src) by (unfold chunk; rewrite take_take; f_equal; lia).
    rewrite Et in Hsec. split; [exact Hsec|]. split; [lia|]. intros Hb. destruct Eb2 as [Eb2|Eb2]; to_prop; lia.
Qed.

(** ** Several slices *)

Definition cur_slice (k : Cursor) : bytes := buffers k !!! current_buffer k.

(** The cursor stands [already] bytes into the concatenation. *)
Record cursor_ok (k : Cursor) : Prop := {
  ck_in : (current_buffer k < length (buffers k))%nat -> (current_offset k <= length (cur_slice k))%nat;
  ck_end : (current_buffer k < length (buffers k))%nat \/ current_buffer k = length (buffers k) /\ current_offset k = 0%nat;
  ck_already : already k = Z.of_nat (length (concat (take (current_buffer k) (buffers k))) + current_offset k) }.

Lemma concat_split (bufs : list bytes) i : (i < length bufs)%nat ->
  concat bufs = concat (take i bufs) ++ bufs !!! i ++ concat (drop (S i) bufs).
Proof.
  intros Hi. destruct (lookup_lt_is_Some_2 bufs i Hi) as [b Hb]. rewrite (list_lookup_total_correct _ _ _ Hb).
  rewrite <- (take_drop_middle _ _ _ Hb) at 1. by rewrite concat_app.
Qed.

Lemma cursor_bound k : cursor_ok k -> 0 <= already k <= total_len (buffers k) /\
  ((current_buffer k < length (buffers k))%nat \/ already k = total_len (buffers k)).
Proof.
  intros [Hin Hend ->]. unfold total_len. destruct Hend as [Hlt|[E ->]].
  - pose proof (f_equal length (concat_split _ _ Hlt)) as E. rewrite !length_app in E. specialize (Hin Hlt). unfold cur_slice in Hin. lia.
  - rewrite E, take_ge by lia. lia.
Qed.

(** What is left starts in the current slice. *)
Lemma cursor_rest k : cursor_ok k -> (current_buffer k < length (buffers k))%nat ->
  drop (Z.to_nat (already k)) (concat (buffers k)) =
  drop (current_offset k) (cur_slice k) ++ concat (drop (S (current_buffer k)) (buffers k)).
Proof.
  intros [Hin _ ->] Hlt. rewrite (concat_split _ _ Hlt), Nat2Z.id, <- drop_drop, drop_app_length. apply drop_app_le. auto.
Qed.

Lemma cursor_skip k : cursor_ok k -> (current_buffer k < length (buffers k))%nat -> current_offset k = length (cur_slice k) ->
  cursor_ok (mkCursor (buffers k) (S (current_buffer k)) 0 (already k)).
Proof.
  intros [_ _ Ha] Hlt E. split; simpl; [lia|lia|]. rewrite Ha. destruct (lookup_lt_is_Some_2 _ _ Hlt) as [b Hb].
  rewrite (take_S_r _ _ _ Hb), concat_app, length_app. unfold cur_slice in E. rewrite (list_lookup_total_correct _ _ _ Hb) in E.
  simpl. rewrite app_nil_r. lia.
Qed.

Lemma concat_lengths (xs ys : list bytes) : length <$> xs = length <$> ys -> length (concat xs) = length (concat ys).
Proof.
  revert ys. induction xs as [|x xs IH]; intros [|y ys] H; try done. simpl in H. injection H as E1 E2. simpl. rewrite !length_app, E1, (IH ys); done.
Qed.

Lemma cursor_move k bufs n : cursor_ok k -> (current_buffer k < length (buffers k))%nat ->
  length <$> bufs = length <$> buffers k -> (current_offset k + n <= length (cur_slice k))%nat ->
  cursor_ok (move_cursor k bufs n) /\ already (move_cursor k bufs n) = already k + Z.of_nat n /\
  buffers (move_cursor k bufs n) = bufs /\ (current_buffer k <= current_buffer (move_cursor k bufs n))%nat.
Proof.
  intros [_ _ Ha] Hlt El Hle.
  assert (Hl : length bufs = length (buffers k)) by (apply (f_equal length) in El; by rewrite !length_fmap in El).
  assert (Hb : length (bufs !!! current_buffer k) = length (cur_slice k)).
  { unfold cur_slice. destruct (lookup_lt_is_Some_2 _ _ Hlt) as [b Hb].
    destruct (lookup_lt_is_Some_2 bufs (current_buffer k)) as [b' Hb']; [lia|].
    rewrite (list_lookup_total_correct _ _ _ Hb), (list_lookup_total_correct _ _ _ Hb').
    apply (f_equal (fun l => l !! current_buffer k)) in El. rewrite !list_lookup_fmap, Hb, Hb' in El. by injection El. }
  assert (Ht : forall i, length (concat (take i bufs)) = length (concat (take i (buffers k)))).
  { intros i. apply concat_lengths. by rewrite !fmap_take, El. }
  assert (Hk : cursor_ok (mkCursor bufs (current_buffer k) (current_offset k + n) (already k + Z.of_nat n))).
  { split; simpl; [unfold cur_slice; simpl; lia|lia|]. rewrite Ht. lia. }
  unfold move_cursor. destruct (_ =? _)%nat eqn:E; to_prop; simpl; [|split_and!; try done; lia].
  split_and!; try done; try lia. apply (cursor_skip _ Hk); simpl; [lia|done].
Qed.

Lemma splice_concat k out : cursor_ok k -> (current_buffer k < length (buffers k))%nat ->
  (current_offset k + length out <= length (cur_slice k))%nat ->
  let bufs := <[current_buffer k := splice (current_offset k) out (cur_slice k)]> (buffers k) in
  concat bufs = splice (Z.to_nat (already k)) out (concat (buffers k)) /\ length <$> bufs = length <$> buffers k.
Proof.
  intros [_ _ Ha] Hlt Hle bufs. split.
  - unfold bufs. rewrite insert_take_drop, concat_app by done. simpl. unfold splice.
    rewrite (concat_split _ _ Hlt). fold (cur_slice k). rewrite Ha, Nat2Z.id.
    rewrite (take_app_ge (concat _)) by lia. rewrite (drop_app_ge (concat _)) by lia.
    replace (length (concat (take (current_buffer k) (buffers k))) + current_offset k - length (concat (take (current_buffer k) (buffers k))))%nat
      with (current_offset k) by lia.
    replace (_ + length out - _)%nat with (current_offset k + length out)%nat by lia.
    rewrite (take_app_le (cur_slice k)), (drop_app_le (cur_slice k)) by lia. by rewrite <- !app_assoc.
  - unfold bufs. rewrite list_fmap_insert, splice_length by done. apply list_insert_id.
    rewrite list_lookup_fmap. unfold cur_slice. destruct (lookup_lt_is_Some_2 _ _ Hlt) as [b Hb].
    by rewrite Hb, (list_lookup_total_correct _ _ _ Hb).
Qed.

(** Bytes from the current position on. *)
Definition rest_len (k : Cursor) : Z := total_len (buffers k) - already k.
Definition visits (k : Cursor) : Z := Z.of_nat (length (buffers k) - current_buffer k) + rest_len k.

Lemma same_pipe_trans r r1 r' : same_pipe r r1 -> same_pipe r1 r' -> same_pipe r r'.
Proof. intros (?&?&?&?&?&?) (?&?&?&?&?&?). unfold same_pipe. split_and!; congruence. Qed.

Lemma moved_held c c1 c' (r r1 r' : PipeRingBuffer) :
  moved (Z.of_nat (held (pages r1)) - Z.of_nat (held (pages r))) c c1 ->
  moved (Z.of_nat (held (pages r')) - Z.of_nat (held (pages r1))) c1 c' ->
  moved (Z.of_nat (held (pages r')) - Z.of_nat (held (pages r))) c c'.
Proof.
  intros H1 H2. replace (_ - _) with ((Z.of_nat (held (pages r1)) - Z.of_nat (held (pages r)))
    + (Z.of_nat (held (pages r')) - Z.of_nat (held (pages r1)))) by lia. by eapply moved_trans.
Qed.

(** [n] bytes have gone from the ring to the slices. *)
Record reads (n : nat) (k : Cursor) (r : PipeRingBuffer) (c : PipeCounters) (k' : Cursor) (r' : PipeRingBuffer) (c' : PipeCounters) : Prop := {
  rd_cursor : cursor_ok k';
  rd_already : already k' = already k + Z.of_nat n;
  rd_lengths : length <$> buffers k' = length <$> buffers k;
  rd_stored : concat (buffers k') = splice (Z.to_nat (already k)) (take n (contents r)) (concat (buffers k));
  rd_wf : wf_ring r';
  rd_same : same_pipe r r';
  rd_contents : contents r' = drop n (contents r);
  rd_moved : moved (Z.of_nat (held (pages r')) - Z.of_nat (held (pages r))) c c' }.

Lemma reads_refl k r c : wf_ring r -> cursor_ok k -> reads 0 k r c k r c.
Proof.
  intros. split; try done; [lia| |rewrite Z.sub_diag; apply moved_refl]. unfold splice. simpl. by rewrite Nat.add_0_r, take_drop.
Qed.

Lemma reads_total n k r c k' r' c' : reads n k r c k' r' c' -> total_len (buffers k') = total_len (buffers k).
Proof. intros H. unfold total_len. by rewrite (concat_lengths _ _ (rd_lengths _ _ _ _ _ _ _ H)). Qed.

Lemma reads_trans n m k r c k1 r1 c1 k' r' c' : cursor_ok k -> reads n k r c k1 r1 c1 -> reads m k1 r1 c1 k' r' c' ->
  (n <= length (contents r))%nat -> reads (n + m) k r c k' r' c'.
Proof.
  intros Hk H1 H2 Hn. pose proof (cursor_bound k Hk) as [Hb _]. pose proof (cursor_bound k' (rd_cursor _ _ _ _ _ _ _ H2)) as [Hb' _].
  pose proof (reads_total _ _ _ _ _ _ _ H1) as Ht1. pose proof (reads_total _ _ _ _ _ _ _ H2) as Ht2.
  destruct H1 as [A1 A2 A3 A4 A5 A6 A7 A8], H2 as [B1 B2 B3 B4 B5 B6 B7 B8]. split; try done.
  - lia.
  - congruence.
  - rewrite B4, A4, A7, A2. rewrite <- (take_take_drop (contents r)).
    rewrite <- (splice_adjacent _ (take n (contents r))).
    + f_equal. rewrite length_take. lia.
    + rewrite !length_take, length_drop. rewrite Ht1, Ht2 in *. unfold total_len in *. lia.
  - by eapply same_pipe_trans.
  - rewrite B7, A7, drop_drop. done.
  - by eapply moved_held.
Qed.

(** One visit of a slice. *)
Lemma reads_one k r c : wf_ring r -> cursor_ok k -> (current_buffer k < length (buffers k))%nat ->
  let m := (length (cur_slice k) - current_offset k)%nat in let n := Nat.min m (length (contents r)) in
  exists out r' c', read_slice (Z.of_nat m) r c = (out, r', c') /\ length out = n /\
    let k' := move_cursor k (<[current_buffer k := splice (current_offset k) out (cur_slice k)]> (buffers k)) n in
    reads n k r c k' r' c' /\ (current_buffer k <= current_buffer k')%nat.
Proof.
  intros Hr Hk Hcur m n. pose proof (ck_in _ Hk Hcur) as Hoff.
  destruct (read_slice_spec r (Z.of_nat m) c Hr ltac:(lia)) as (r1 & c1 & E1 & Hr1 & Hs1 & Hd1 & Hm1). rewrite Nat2Z.id in *.
  assert (Etd : take m (contents r) = take n (contents r) /\ drop m (contents r) = drop n (contents r)).
  { unfold n. destruct (Nat.le_ge_cases m (length (contents r))); [by rewrite Nat.min_l|].
    rewrite Nat.min_r by lia. by rewrite !take_ge, !drop_ge by lia. }
  destruct Etd as [Et Ed].
  eexists _, r1, c1. split; [exact E1|]. rewrite Et. assert (Hlo : length (take n (contents r)) = n) by (rewrite length_take; lia).
  split; [done|]. destruct (splice_concat k (take n (contents r)) Hk Hcur ltac:(lia)) as [Hcat Hlen].
  destruct (cursor_move k _ n Hk Hcur Hlen ltac:(lia)) as (Hk1 & Ha1 & Hb1 & Hc1). split; [|done].
  split; try done; rewrite ?Hb1; try done. by rewrite Hd1, Ed.
Qed.

(** The inner loop of [read] fills what is left of the slices. *)
Lemma read_round_spec : forall fuel loop_read round k r c, wf_ring r -> cursor_ok k ->
  loop_read - round = available_read r -> visits k <= Z.of_nat fuel ->
  exists k' r' c', read_round fuel loop_read (total_len (buffers k)) round k r c = (k', r', c') /\
    reads (Z.to_nat (Z.min (available_read r) (rest_len k))) k r c k' r' c'.
Proof.
  induction fuel as [|fuel IH]; intros loop_read round k r c Hr Hk Hround Hf.
  all: pose proof (cursor_bound k Hk) as [Hb Hlast]; pose proof (available_data r Hr) as (Ea & _).
  all: assert (Hstop : Z.min (available_read r) (rest_len k) = 0 -> exists k' r' c', (k, r, c) = (k', r', c') /\
    reads (Z.to_nat (Z.min (available_read r) (rest_len k))) k r c k' r' c') by (intros ->; exists k, r, c; split; [done|by apply reads_refl]).
  { apply Hstop. unfold visits, rest_len in *. lia. }
  cbn [read_round]. destruct (_ && _) eqn:Econd.
  2:{ apply Hstop. unfold rest_len. destruct Hlast as [Hl|?]; [|lia].
      apply andb_false_iff in Econd as [Econd|Econd]; [apply andb_false_iff in Econd as [Econd|Econd]|]; to_prop; lia. }
  apply andb_true_iff in Econd as [Econd Hcur]. apply andb_true_iff in Econd as [Er Ew]. to_prop.
  fold (cur_slice k). pose proof (ck_in _ Hk Hcur) as Hoff. destruct (_ =? length _)%nat eqn:Eo; to_prop.
  - destruct (IH loop_read round (mkCursor (buffers k) (S (current_buffer k)) 0 (already k)) r c Hr) as (k' & r' & c' & E & []);
      [by apply cursor_skip|done|unfold visits, rest_len in *; simpl; lia|]. exists k', r', c'. split; [exact E|by split].
  - destruct (reads_one k r c Hr Hk Hcur) as (out & r1 & c1 & E1 & Hlo & H1 & Hc1). rewrite E1, Hlo.
    set (n := Nat.min _ _) in *. rewrite (proj2 (Nat.eqb_neq _ _)) by (unfold n; lia).
    set (k1 := move_cursor _ _ n) in *. pose proof (reads_total _ _ _ _ _ _ _ H1) as Ht1. pose proof H1 as [Hk1 Ha1 Hl1 _ Hr1 _ Hd1 _].
    pose proof (cursor_bound k1 Hk1) as [Hb1 _].
    assert (Ea1 : available_read r1 = available_read r - Z.of_nat n) by (rewrite (proj1 (available_data r1 Hr1)), Hd1, length_drop; lia).
    destruct (IH loop_read (round + Z.of_nat n) k1 r1 c1 Hr1 Hk1) as (k' & r' & c' & E & H2); [lia| |].
    { unfold visits, rest_len in *. rewrite Ht1, Ha1. apply (f_equal length) in Hl1. rewrite !length_fmap in Hl1. lia. }
    rewrite Ht1 in E. exists k', r', c'. split; [exact E|]. unfold rest_len in *. rewrite Ht1, Ha1, Ea1 in H2.
    replace (Z.to_nat (Z.min (available_read r) (total_len (buffers k) - already k)))
      with (n + Z.to_nat (Z.min (available_read r - Z.of_nat n) (total_len (buffers k) - (already k + Z.of_nat n))))%nat by lia.
    eapply reads_trans; [done|exact H1|exact H2|lia].
Qed.

(** [n] bytes have gone from the slices to the ring. *)
Record writes (n : nat) (k : Cursor) (r : PipeRingBuffer) (c : PipeCounters) (k' : Cursor) (r' : PipeRingBuffer) (c' : PipeCounters) : Prop := {
  wt_cursor : cursor_ok k';
  wt_already : already k' = already k + Z.of_nat n;
  wt_buffers : buffers k' = buffers k;
  wt_wf : wf_ring r';
  wt_same : same_pipe r r';
  wt_contents : contents r' = contents r ++ take n (drop (Z.to_nat (already k)) (concat (buffers k)));
  wt_moved : moved (Z.of_nat (held (pages r')) - Z.of_nat (held (pages r))) c c' }.

Lemma writes_refl k r c : wf_ring r -> cursor_ok k -> writes 0 k r c k r c.
Proof. intros. split; try done; [lia|by rewrite app_nil_r|rewrite Z.sub_diag; apply moved_refl]. Qed.

Lemma writes_trans n m k r c k1 r1 c1 k' r' c' : cursor_ok k -> writes n k r c k1 r1 c1 -> writes m k1 r1 c1 k' r' c' ->
  writes (n + m) k r c k' r' c'.
Proof.
  intros Hk [A1 A2 A3 A4 A5 A6 A7] [B1 B2 B3 B4 B5 B6 B7]. pose proof (cursor_bound k Hk) as [Hb _]. split; try done.
  - lia.
  - congruence.
  - by eapply same_pipe_trans.
  - rewrite B6, A6, A3, A2, <- app_assoc. f_equal.
    replace (Z.to_nat (already k + Z.of_nat n)) with (Z.to_nat (already k) + n)%nat by lia.
    rewrite <- drop_drop. apply take_take_drop.
  - by eapply moved_held.
Qed.

Lemma writes_one k r c : wf_ring r -> cursor_ok k -> (current_buffer k < length (buffers k))%nat ->
  let n := Z.min (Z.of_nat (length (cur_slice k) - current_offset k)) (available_write r) in
  exists r' c', write_slice (drop (current_offset k) (cur_slice k)) r c = Some (n, r', c') /\
    let k' := move_cursor k (buffers k) (Z.to_nat n) in
    writes (Z.to_nat n) k r c k' r' c' /\ (current_buffer k <= current_buffer k')%nat.
Proof.
  intros Hr Hk Hcur n. pose proof (ck_in _ Hk Hcur) as Hoff. destruct (available_data r Hr) as (Ea & Ew & Hnn & _).
  destruct (write_slice_spec r (drop (current_offset k) (cur_slice k)) c Hr) as (r1 & c1 & E1 & Hr1 & Hs1 & Hd1 & Hm1).
  rewrite length_drop, Ea, <- Ew in *. fold n in E1, Hd1. exists r1, c1. split; [exact E1|].
  destruct (cursor_move k (buffers k) (Z.to_nat n) Hk Hcur eq_refl ltac:(lia)) as (Hk1 & Ha1 & Hb1 & Hc1).
  split; [|done]. split; try done. rewrite Hd1, (cursor_rest k Hk Hcur). f_equal.
  rewrite take_app_le; [done|]. rewrite length_drop. lia.
Qed.

(** The inner loop of [write] fills the ring or empties the slices. *)
Lemma write_round_spec : forall fuel loop_write round k r c, wf_ring r -> cursor_ok k ->
  loop_write - round = available_write r -> visits k <= Z.of_nat fuel ->
  exists k' r' c', write_round fuel loop_write (total_len (buffers k)) round k r c = Some (k', r', c') /\
    writes (Z.to_nat (Z.min (available_write r) (rest_len k))) k r c k' r' c'.
Proof.
  induction fuel as [|fuel IH]; intros loop_write round k r c Hr Hk Hround Hf.
  all: pose proof (cursor_bound k Hk) as [Hb Hlast]; pose proof (available_data r Hr) as (_ & Ea & Hnn & _).
  all: assert (Hstop : Z.min (available_write r) (rest_len k) = 0 -> exists k' r' c', Some (k, r, c) = Some (k', r', c') /\
    writes (Z.to_nat (Z.min (available_write r) (rest_len k))) k r c k' r' c') by (intros ->; exists k, r, c; split; [done|by apply writes_refl]).
  { apply Hstop. unfold visits, rest_len in *. lia. }
  cbn [write_round]. destruct (_ && _) eqn:Econd.
  2:{ apply Hstop. unfold rest_len. destruct Hlast as [Hl|?]; [|lia].
      apply andb_false_iff in Econd as [Econd|Econd]; [apply andb_false_iff in Econd as [Econd|Econd]|]; to_prop; lia. }
  apply andb_true_iff in Econd as [Econd Hcur]. apply andb_true_iff in Econd as [Er Ew]. to_prop.
  fold (cur_slice k). pose proof (ck_in _ Hk Hcur) as Hoff. destruct (_ =? length _)%nat eqn:Eo; to_prop.
  - destruct (IH loop_write round (mkCursor (buffers k) (S (current_buffer k)) 0 (already k)) r c Hr) as (k' & r' & c' & E & []);
      [by apply cursor_skip|done|unfold visits, rest_len in *; simpl; lia|]. exists k', r', c'. split; [exact E|by split].
  - destruct (writes_one k r c Hr Hk Hcur) as (r1 & c1 & E1 & H1 & Hc1). rewrite E1.
    set (n := Z.min (Z.of_nat (length (cur_slice k) - current_offset k)) (available_write r)) in *. rewrite (proj2 (Z.eqb_neq _ _)) by (unfold n; lia).
    set (k1 := move_cursor _ _ _) in *. pose proof H1 as [Hk1 Ha1 Hb1 Hr1 Hs1 Hd1 _].
    pose proof (cursor_bound k1 Hk1) as [Hb1' _]. rewrite Z2Nat.id in Ha1 by lia. rewrite Hb1 in Hb1'.
    assert (Hn0 : 0 <= n) by (unfold n; lia).
    assert (Ea1 : available_write r1 = available_write r - n).
    { destruct Hs1 as (Ecap & _). rewrite (proj1 (proj2 (available_data r1 Hr1))), Hd1, Ea, Ecap, length_app, length_take, length_drop.
      unfold total_len in *. lia. }
    destruct (IH loop_write (round + n) k1 r1 c1 Hr1 Hk1) as (k' & r' & c' & E & H2); [lia| |].
    { unfold visits, rest_len in *. rewrite Hb1, Ha1. lia. }
    rewrite Hb1 in E. exists k', r', c'. split; [exact E|]. unfold rest_len in *. rewrite Hb1, Ha1, Ea1 in H2.
    replace (Z.to_nat (Z.min (available_write r) (total_len (buffers k) - already k)))
      with (Z.to_nat n + Z.to_nat (Z.min (available_write r - n) (total_len (buffers k) - (already k + n))))%nat by lia.
    eapply writes_trans; [done|exact H1|exact H2].
Qed.

(** A turn of [read]: as [pipe_read_exact], into several slices. *)
Lemma read_turn_spec nb k r c : wf_ring r -> cursor_ok k -> already k = 0 -> 0 < total_len (buffers k) ->
  exists t k' r' c' ws, read_turn tasks me nb k r c = (t, k', r', c', ws) /\
  let out := match t with Done (Ok n) => take (Z.to_nat n) (contents r) | _ => [] end in
  section tasks r r' c c' [] out ws /\ cursor_ok k' /\
  concat (buffers k') = splice 0 out (concat (buffers k)) /\
  match t with
  | Done (Ok n) => n = Z.min (total_len (buffers k)) (available_read r) /\ (n = 0 -> write_end_open r = false)
  | Done (Err e) => e = EAGAIN /\ nb = true /\ contents r = [] /\ write_end_open r = true
  | Blocked => k' = k /\ nb = false /\ contents r = [] /\ write_end_open r = true
  | Again => False
  end.
Proof.
  intros Hr Hk Ha Hw. unfold read_turn. destruct (available_data r Hr) as (Ea & _).
  assert (Hid : concat (buffers k) = splice 0 [] (concat (buffers k))) by done.
  destruct (available_read r =? 0) eqn:E; to_prop.
  - assert (Hc : contents r = []) by (apply length_zero_iff_nil; lia).
    pose proof (read_nothing_spec (already k) nb r c Hr Hc) as H. destruct (read_nothing tasks me _ nb r) as [[t r'] ws].
    eexists _, _, _, _, _. split; [reflexivity|]. destruct H as [Hs Ht]. destruct t as [[x|e]| |]; try done; simpl.
    + destruct Ht as [-> Ho]. rewrite Hc, take_nil. split_and!; try done. lia.
    + destruct Ht as (-> & ? & ?). done.
    + destruct Ht as (-> & ? & ?). done.
  - destruct (read_round_spec (round_fuel k) (available_read r) 0 k r c Hr Hk ltac:(lia)) as (k1 & r1 & c1 & E1 & H1).
    { unfold visits, rest_len, round_fuel, total_len. lia. }
    rewrite E1. pose proof (reads_total _ _ _ _ _ _ _ H1) as Ht. destruct H1 as [Hk1 Ha1 Hl1 Hst Hr1 Hs1 Hd1 Hm1].
    unfold rest_len in *. rewrite Ha in *. set (n := Z.min _ _) in *.
    pose proof (section_consume tasks r r1 c c1 _ Hr Hr1 Hs1 Hd1 Hm1) as Hsec.
    assert (Hn : already k1 = Z.min (total_len (buffers k)) (available_read r)) by lia.
    destruct (already k1 =? total_len (buffers k)) eqn:Eq; to_prop; [rewrite <- Eq|rewrite (proj2 (Z.ltb_lt 0 (already k1))) by lia].
    all: eexists _, _, _, _, _; split; [reflexivity|]; cbn beta iota zeta; rewrite Ha1, Z.add_0_l, Nat2Z.id.
    all: split; [exact Hsec|]; split; [done|]; split; [done|]; lia.
Qed.

(** A turn of [write] from several slices. *)
Lemma write_turn_spec nb k r c : wf_ring r -> cursor_ok k -> already k < total_len (buffers k) ->
  exists t k' r' c' ws, write_turn tasks me nb k r c = Some (t, k', r', c', ws) /\
  let n := Z.to_nat (already k' - already k) in
  section tasks r r' c c' (take n (drop (Z.to_nat (already k)) (concat (buffers k)))) [] ws /\
  cursor_ok k' /\ buffers k' = buffers k /\ already k <= already k' /\
  match t with
  | Done (Ok m) => m = already k' /\ (m = total_len (buffers k) \/ nb = true /\ k' = k /\ 0 < m)
  | Done (Err e) => k' = k /\ ((e = EPIPE /\ read_end_open r = false) \/ (e = EAGAIN /\ nb = true /\ already k = 0 /\ available_write r = 0))
  | Blocked => k' = k /\ nb = false /\ available_write r = 0
  | Again => already k < already k' < total_len (buffers k)
  end.
Proof.
  intros Hr Hk Hlt. unfold write_turn, all_read_ends_closed. pose proof (cursor_bound k Hk) as [Hb _].
  destruct (available_data r Hr) as (_ & Ea & Hnn & Hle & Hcap).
  assert (Hnop : forall ws (Hmeta : section tasks r r c c [] [] ws), section tasks r r c c
    (take (Z.to_nat (already k - already k)) (drop (Z.to_nat (already k)) (concat (buffers k)))) [] ws)
    by (intros; by rewrite Z.sub_diag).
  destruct (read_end_open r) eqn:Eo; cbn [negb].
  2:{ eexists _, _, _, _, _. split; [reflexivity|]. split_and!; try done; [apply Hnop, section_meta; auto|by left]. }
  destruct (available_write r =? 0) eqn:Ew; to_prop.
  - destruct nb; eexists _, _, _, _, _; (split; [reflexivity|]).
    + split; [apply Hnop, section_meta; auto|]. split_and!; try done. case_if; [split; [done|by right; split_and!]|]. split; [done|].
      right. split_and!; try done. lia.
    + split; [|by split_and!]. rewrite Z.sub_diag. apply section_meta; simpl; auto; [|right; right; split; [done|]; rewrite Ew; done].
      intros t Ht. destruct (register_waiter_keeps tasks _ t me Ht); auto.
  - destruct (write_round_spec (round_fuel k) (available_write r) 0 k r c Hr Hk ltac:(lia)) as (k1 & r1 & c1 & E1 & H1).
    { unfold visits, rest_len, round_fuel, total_len in *. lia. }
    rewrite E1. destruct H1 as [Hk1 Ha1 Hb1 Hr1 Hs1 Hd1 Hm1]. unfold rest_len in *. set (n := Z.to_nat (Z.min (available_write r) (total_len (buffers k) - already k))) in *.
    pose proof (section_produce tasks r r1 c c1 _ Hr Hr1 Hs1 Eo Hd1 Hm1) as Hsec.
    eexists _, _, _, _, _. split; [reflexivity|]. cbn beta iota zeta.
    replace (Z.to_nat (already k1 - already k)) with n by lia. split; [exact Hsec|]. split_and!; try done; [lia|].
    case_if; [by split; [|left]|]. lia.
Qed.

End TurnSpecs.

(** ** Splice buffers *)

Lemma buffer_discard_spec tasks len r c : wf_ring r -> 0 <= len ->
  exists r' c' ws, buffer_discard_slice len r c = (Z.min len (available_read r), r', c', ws) /\
    section tasks r r' c c' [] (take (Z.to_nat len) (contents r)) ws.
Proof.
  intros Hr Hl. unfold buffer_discard_slice. destruct (available_data r Hr) as (Ea & _).
  destruct (discard_slice_spec r len c Hr Hl) as (r1 & c1 & E1 & Hr1 & Hs1 & Hd1 & Hm1). rewrite E1. case_if.
  - eexists _, _, _. split; [reflexivity|]. exact (section_consume tasks r r1 c c1 _ Hr Hr1 Hs1 Hd1 Hm1).
  - eexists _, _, _. split; [reflexivity|].
    assert (E0 : take (Z.to_nat len) (contents r) = [] /\ drop (Z.to_nat len) (contents r) = contents r).
    { destruct (decide (len = 0)) as [->|]; [done|]. assert (contents r = []) as -> by (apply length_zero_iff_nil; lia).
      by rewrite take_nil, drop_nil. }
    destruct E0 as [-> E0]. rewrite E0 in Hd1. by apply section_still.
Qed.

Lemma buffer_write_spec tasks src r c : wf_ring r ->
  exists res r' c' ws, buffer_write_slice src r c = Some (res, r', c', ws) /\
    let n := match res with Ok n => n | Err _ => 0 end in
    section tasks r r' c c' (take (Z.to_nat n) src) [] ws /\
    (if read_end_open r then res = Ok (Z.min (Z.of_nat (length src)) (available_write r)) else res = Err EPIPE).
Proof.
  intros Hr. unfold buffer_write_slice, all_read_ends_closed. destruct (available_data r Hr) as (Ea & Ew & Hnn & _).
  destruct (read_end_open r) eqn:Eo; simpl.
  2:{ eexists _, _, _, _. split; [reflexivity|]. split; [|done]. apply section_meta; auto. }
  destruct (write_slice_spec r src c Hr) as (r1 & c1 & E1 & Hr1 & Hs1 & Hd1 & Hm1). rewrite Ea, <- Ew in *. set (n := Z.min _ _) in *.
  rewrite E1. case_if.
  - eexists _, _, _, _. split; [reflexivity|]. split; [|done]. exact (section_produce tasks r r1 c c1 _ Hr Hr1 Hs1 Eo Hd1 Hm1).
  - eexists _, _, _, _. split; [reflexivity|]. split; [|done]. assert (n = 0) as -> by lia. rewrite take_0, app_nil_r in *.
    by apply section_still.
Qed.

Lemma moved_split a b c c' : moved (a + b) c c' -> exists c1, moved a c c1 /\ moved b c1 c'.
Proof.
  intros [A1 A2 A3 A4]. exists (mkCounters (PIPE_BUFFER_CREATE_COUNT c) (PIPE_BUFFER_DROP_COUNT c)
    (PIPE_PAGE_ALLOC_COUNT c + a) (PIPE_PAGE_DROP_COUNT c) (PIPE_CURRENT_PAGES c + a) (PIPE_PEAK_PAGES c)).
  split; split; simpl; try done; rewrite ?A1, ?A2; f_equal; lia.
Qed.

Lemma transfer_loop_spec target : forall fuel total ri ro c, wf_ring ri -> wf_ring ro -> 0 <= total <= target ->
  target - total <= available_read ri -> target - total <= available_write ro -> target - total <= Z.of_nat fuel ->
  exists ri' ro' c', transfer_loop fuel target total ri ro c = Some (target, ri', ro', c') /\
    wf_ring ri' /\ wf_ring ro' /\ same_pipe ri ri' /\ same_pipe ro ro' /\
    contents ri' = drop (Z.to_nat (target - total)) (contents ri) /\
    contents ro' = contents ro ++ take (Z.to_nat (target - total)) (contents ri) /\
    moved ((Z.of_nat (held (pages ri')) - Z.of_nat (held (pages ri))) + (Z.of_nat (held (pages ro')) - Z.of_nat (held (pages ro)))) c c'.
Proof.
  induction fuel as [|fuel IH]; intros total ri ro c Hi Ho Ht Hai Hao Hf; cbn [transfer_loop].
  { exists ri, ro, c. replace total with target by lia. rewrite !Z.sub_diag, app_nil_r. split_and!; try done; apply moved_refl. }
  case_if; [|exists ri, ro, c; replace total with target by lia; rewrite !Z.sub_diag, app_nil_r; split_and!; try done; apply moved_refl].
  set (chunk := Z.min _ PAGE_SIZE). assert (Hch : 0 < chunk <= target - total) by (unfold chunk, PAGE_SIZE in *; lia).
  destruct (available_data ri Hi) as (Eai & _). destruct (available_data ro Ho) as (Ear & Eao & _).
  rewrite peek_slice_spec by (lia || apply Hi). set (bs := take (Z.to_nat chunk) (contents ri)).
  assert (Hbs : Z.of_nat (length bs) = chunk) by (unfold bs; rewrite length_take; lia).
  rewrite (proj2 (Nat.eqb_neq _ _)) by lia.
  destruct (write_slice_spec ro bs c Ho) as (ro1 & c1 & Ew & Ho1 & Hso & Hdo & Hmo). rewrite Hbs, Ear, <- Eao, Z.min_l in * by lia. rewrite Ew.
  destruct (discard_slice_spec ri chunk c1 Hi ltac:(lia)) as (ri1 & c2 & Ed & Hi1 & Hsi & Hdi & Hmi). rewrite Z.min_l in Ed by lia. rewrite Ed.
  rewrite ?Hbs, Z.ltb_irrefl. cbn [orb].
  assert (Hbs' : take (Z.to_nat chunk) bs = bs) by (apply take_ge; lia). rewrite Hbs' in Hdo.
  destruct (IH (total + chunk) ri1 ro1 c2 Hi1 Ho1) as (ri' & ro' & c' & El & Hi' & Ho' & Hsi' & Hso' & Hdi' & Hdo' & Hm'); try lia.
  { rewrite (proj1 (available_data ri1 Hi1)), Hdi, length_drop. lia. }
  { rewrite (proj1 (proj2 (available_data ro1 Ho1))), Hdo, length_app. destruct Hso as (-> & _). lia. }
  exists ri', ro', c'. split; [done|]. split; [done|]. split; [done|]. split; [by eapply same_pipe_trans|]. split; [by eapply same_pipe_trans|].
  replace (Z.to_nat (target - total)) with (Z.to_nat chunk + Z.to_nat (target - (total + chunk)))%nat by lia.
  split; [|split].
  - by rewrite Hdi', Hdi, drop_drop.
  - rewrite Hdo', Hdo, Hdi, <- app_assoc. f_equal. apply take_take_drop.
  - pose proof (moved_trans _ _ _ _ _ (moved_trans _ _ _ _ _ Hmo Hmi) Hm') as Hm. refine (eq_ind _ (fun z => moved z c c') Hm _ _). lia.
Qed.

Lemma transfer_locked_spec len ri ro c : wf_ring ri -> wf_ring ro -> 0 <= len ->
  if read_end_open ro then
    let n := Z.min (Z.min len (available_read ri)) (available_write ro) in
    exists ri' ro' c', transfer_locked len ri ro c = Some (Ok n, ri', ro', c') /\
    wf_ring ri' /\ wf_ring ro' /\ same_pipe ri ri' /\ same_pipe ro ro' /\
    contents ri' = drop (Z.to_nat n) (contents ri) /\ contents ro' = contents ro ++ take (Z.to_nat n) (contents ri) /\
    exists c1, moved (Z.of_nat (held (pages ri')) - Z.of_nat (held (pages ri))) c c1 /\
               moved (Z.of_nat (held (pages ro')) - Z.of_nat (held (pages ro))) c1 c'
  else transfer_locked len ri ro c = Some (Err EPIPE, ri, ro, c).
Proof.
  intros Hi Ho Hl. unfold transfer_locked, all_read_ends_closed. destruct (read_end_open ro) eqn:Eo; simpl; [|done].
  destruct (available_data ri Hi) as (Eai & _). destruct (available_data ro Ho) as (_ & _ & Hnn & _).
  set (n := Z.min _ _). destruct (transfer_loop_spec n (Z.to_nat n) 0 ri ro c Hi Ho) as (ri' & ro' & c' & E & H); try lia.
  rewrite E, Z.sub_0_r in *. destruct H as (Hi' & Ho' & Hsi & Hso & Hdi & Hdo & Hm). apply moved_split in Hm as (c1 & Hm1 & Hm2).
  exists ri', ro', c'. split_and!; try done. by exists c1.
Qed.
