(* ===== verification/PipeSys.v ===== *)
(** * Pipes: the world of all pipes

    The invariant of the world, that every section of a task acts on one ring,
    and that the invariant survives every section, closing an end, creating a
    pipe and changing its capacity. *)

From S2P Require Import Prelude SysErr PipeRing PipeRingSpec Pipe PipeSpec.

(** ** Pages held by all pipes *)

Definition pages_total (m : gmap Z PipeRingBuffer) : Z :=
  map_fold (fun _ r n => Z.of_nat (held (pages r)) + n) 0 m.

Lemma pages_total_new m id r : m !! id = None -> pages_total (<[id := r]> m) = Z.of_nat (held (pages r)) + pages_total m.
Proof. intros H. unfold pages_total. rewrite map_fold_insert_L; [done| |done]. intros. lia. Qed.

Lemma pages_total_delete m id r : m !! id = Some r -> pages_total (delete id m) = pages_total m - Z.of_nat (held (pages r)).
Proof. intros H. rewrite <- (insert_delete_id m id r H) at 2. rewrite pages_total_new by apply lookup_delete_eq. lia. Qed.

Lemma pages_total_update m id r r' : m !! id = Some r ->
  pages_total (<[id := r']> m) = pages_total m - Z.of_nat (held (pages r)) + Z.of_nat (held (pages r')).
Proof.
  intros H. rewrite <- insert_delete_eq, pages_total_new by apply lookup_delete_eq. rewrite (pages_total_delete m id r H). lia.
Qed.

(** ** The invariant of the world *)

(** A pipe object is the read end or the write end of a ring. *)
Definition read_end_of (w : PipeWorld) (id : Z) : Prop :=
  exists pid p, pipes w !! pid = Some p /\ p_buffer p = id /\ p_readable p = true.
Definition write_end_of (w : PipeWorld) (id : Z) : Prop :=
  exists pid p, pipes w !! pid = Some p /\ p_buffer p = id /\ p_writable p = true.

Record WInv (w : PipeWorld) : Prop := {
  wi_ring id r : rings w !! id = Some r -> wf_ring r /\ reader_ok r;
  wi_pipe pid p : pipes w !! pid = Some p -> is_Some (rings w !! p_buffer p) /\ p_readable p = negb (p_writable p);
  wi_unique pid p pid' p' : pipes w !! pid = Some p -> pipes w !! pid' = Some p' ->
    p_buffer p = p_buffer p' -> p_readable p = p_readable p' -> pid = pid';
  wi_read id r : rings w !! id = Some r -> read_end_open r = true <-> read_end_of w id;
  wi_write id r : rings w !! id = Some r -> write_end_open r = true <-> write_end_of w id;
  wi_open id r : rings w !! id = Some r -> read_end_open r = true \/ write_end_open r = true;
  wi_current : usize (PIPE_CURRENT_PAGES (counters w)) = usize (pages_total (rings w));
  wi_balance : usize (PIPE_PAGE_ALLOC_COUNT (counters w) - PIPE_PAGE_DROP_COUNT (counters w)) = usize (pages_total (rings w)) }.

(** Only the ring [id] is changed, by a section. *)
Inductive acts (id : Z) (inb outb : bytes) (w : PipeWorld) : PipeWorld -> Prop :=
| acts_intro r r' c' ws b me : rings w !! id = Some r -> section (live w) r r' (counters w) c' inb outb ws ->
    acts id inb outb w (sigpipe_if b me (put_ring id r' c' ws w)).

Lemma sigpipe_if_same b me w : rings (sigpipe_if b me w) = rings w /\ pipes (sigpipe_if b me w) = pipes w /\
  counters (sigpipe_if b me w) = counters w /\ live (sigpipe_if b me w) = live w.
Proof. by destruct b. Qed.

Lemma total_shift c c' (T d : Z) : usize (PIPE_CURRENT_PAGES c') = usize (PIPE_CURRENT_PAGES c + d) ->
  usize (PIPE_PAGE_ALLOC_COUNT c' - PIPE_PAGE_DROP_COUNT c') = usize (PIPE_PAGE_ALLOC_COUNT c - PIPE_PAGE_DROP_COUNT c + d) ->
  usize (PIPE_CURRENT_PAGES c) = usize T -> usize (PIPE_PAGE_ALLOC_COUNT c - PIPE_PAGE_DROP_COUNT c) = usize T ->
  usize (PIPE_CURRENT_PAGES c') = usize (T + d) /\ usize (PIPE_PAGE_ALLOC_COUNT c' - PIPE_PAGE_DROP_COUNT c') = usize (T + d).
Proof. intros -> -> H1 H2. split; rewrite <- (wrap_add_l 64 _ d), ?H1, ?H2, wrap_add_l; done. Qed.

Lemma moved_total c c' (T d : Z) : moved d c c' -> usize (PIPE_CURRENT_PAGES c) = usize T ->
  usize (PIPE_PAGE_ALLOC_COUNT c - PIPE_PAGE_DROP_COUNT c) = usize T ->
  usize (PIPE_CURRENT_PAGES c') = usize (T + d) /\ usize (PIPE_PAGE_ALLOC_COUNT c' - PIPE_PAGE_DROP_COUNT c') = usize (T + d).
Proof. intros [A1 A2 _ _]. by apply total_shift. Qed.

(** A ring is replaced, its ends stay as they are. *)
Lemma put_WInv id r r' c' ws b me w : WInv w -> rings w !! id = Some r -> wf_ring r' -> reader_ok r' ->
  read_end_open r' = read_end_open r -> write_end_open r' = write_end_open r ->
  moved (Z.of_nat (held (pages r')) - Z.of_nat (held (pages r))) (counters w) c' ->
  WInv (sigpipe_if b me (put_ring id r' c' ws w)).
Proof.
  intros I Hr Hwf Hrd Ero Ewo Hm. destruct (sigpipe_if_same b me (put_ring id r' c' ws w)) as (Er & Ep & Ec & El).
  set (v := sigpipe_if _ _ _) in *. simpl in Er, Ep, Ec, El.
  assert (Hlk : forall i x, rings v !! i = Some x -> exists y, rings w !! i = Some y /\
    read_end_open x = read_end_open y /\ write_end_open x = write_end_open y).
  { intros i x. rewrite Er, lookup_insert. case_decide as E; [|by exists x]. subst i. intros [= <-]. by exists r. }
  assert (Heads : forall i, (read_end_of v i <-> read_end_of w i) /\ (write_end_of v i <-> write_end_of w i)).
  { intros i. unfold read_end_of, write_end_of. by rewrite Ep. }
  destruct (moved_total _ _ (pages_total (rings w)) _ Hm (wi_current w I) (wi_balance w I)) as [Hc1 Hc2].
  assert (Et : pages_total (rings v) = pages_total (rings w) + (Z.of_nat (held (pages r')) - Z.of_nat (held (pages r)))).
  { rewrite Er, (pages_total_update _ _ r) by done. lia. }
  split.
  - intros i x. rewrite Er, lookup_insert. case_decide as E; [|apply (wi_ring w I)]. subst i. by intros [= <-].
  - intros pid p. rewrite Ep, Er. intros Hp. destruct (wi_pipe w I pid p Hp) as [[x Hx] ?]. split; [|done].
    rewrite lookup_insert. case_decide; eauto.
  - rewrite Ep. apply (wi_unique w I).
  - intros i x Hx. destruct (Hlk i x Hx) as (y & Hy & -> & _). rewrite (wi_read w I i y Hy). symmetry. apply Heads.
  - intros i x Hx. destruct (Hlk i x Hx) as (y & Hy & _ & ->). rewrite (wi_write w I i y Hy). symmetry. apply Heads.
  - intros i x Hx. destruct (Hlk i x Hx) as (y & Hy & -> & ->). apply (wi_open w I i y Hy).
  - rewrite Ec, Et. exact Hc1.
  - rewrite Ec, Et. exact Hc2.
Qed.

Lemma acts_WInv id inb outb w w' : WInv w -> acts id inb outb w w' ->
  WInv w' /\ pipes w' = pipes w /\ live w' = live w.
Proof.
  intros I [r r' c' ws b me Hr Hs]. destruct (sigpipe_if_same b me (put_ring id r' c' ws w)) as (_ & -> & _ & ->).
  split; [|done]. destruct (wi_ring w I id r Hr) as [_ Hrd]. destruct Hs as [Hwf _ _ [? ?] _ Hm _ _ Hrd' _].
  apply (put_WInv id r); auto.
Qed.

(** ** Every section acts on one ring *)

Definition turn_out (t : Turn bytes) : bytes := match t with Done (Ok bs) => bs | _ => [] end.
Definition turn_len (t : Turn Z) : nat := match t with Done (Ok n) => Z.to_nat n | _ => 0%nat end.
Definition res_len (r : SysResult Z) : nat := match r with Ok n => Z.to_nat n | Err _ => 0%nat end.

Lemma pipe_ring_some w pid p : WInv w -> pipes w !! pid = Some p ->
  exists r, pipe_ring pid w = Some (p, r) /\ rings w !! p_buffer p = Some r /\ wf_ring r.
Proof.
  intros I Hp. destruct (wi_pipe w I pid p Hp) as [[r Hr] _]. exists r. unfold pipe_ring. rewrite Hp. simpl. rewrite Hr.
  split; [done|]. split; [done|]. by apply (wi_ring w I _ r Hr).
Qed.

Lemma acts_plain id inb outb w r r' c' ws : rings w !! id = Some r ->
  section (live w) r r' (counters w) c' inb outb ws -> acts id inb outb w (put_ring id r' c' ws w).
Proof. intros Hr Hs. exact (acts_intro id inb outb w r r' c' ws false 0 Hr Hs). Qed.

(** Only the last counters stay. *)
Lemma put_over i o r r' c c1 c2 ws ws' w :
  put_ring o r' c ws' (put_ring i r c2 ws w) = put_ring o r' c ws' (put_ring i r c1 ws w).
Proof. done. Qed.

Section Acts.
Context (w : PipeWorld) (I : WInv w) (me : Z).

Lemma read_user_slice_acts pid p want : pipes w !! pid = Some p -> 0 < want ->
  exists t w', read_user_slice_step want me pid w = Some (t, w') /\ acts (p_buffer p) [] (turn_out t) w w'.
Proof using I.
  intros Hp Hw. destruct (pipe_ring_some w pid p I Hp) as (r & E & Hr & Hwf). unfold read_user_slice_step. rewrite E. simpl.
  destruct (read_user_slice_turn_spec (live w) me (nonblock p) want r (counters w) Hwf Hw) as (t & r' & c' & ws & Et & Hs & _).
  rewrite Et. eexists _, _. split; [reflexivity|]. by eapply acts_plain.
Qed.

Lemma write_user_slice_acts pid p src : pipes w !! pid = Some p -> src <> [] ->
  exists t w', write_user_slice_step src me pid w = Some (t, w') /\ acts (p_buffer p) (take (turn_len t) src) [] w w'.
Proof using I.
  intros Hp Hne. destruct (pipe_ring_some w pid p I Hp) as (r & E & Hr & Hwf). unfold write_user_slice_step. rewrite E. simpl.
  destruct (write_user_slice_turn_spec (live w) me (nonblock p) src r (counters w) Hwf Hne) as (t & r' & c' & ws & Et & Hs & _).
  rewrite Et. simpl. eexists _, _. split; [reflexivity|]. apply (acts_intro _ _ _ _ r); [done|]. by destruct t as [[]| |].
Qed.

Lemma read_acts pid p k : pipes w !! pid = Some p -> cursor_ok k -> already k = 0 -> 0 < total_len (buffers k) ->
  exists t k' w', read_step me pid k w = Some (t, k', w') /\ acts (p_buffer p) [] (take (turn_len t) (concat (buffers k'))) w w' /\
    match t with Blocked => k' = k | Again => False | _ => True end.
Proof using I.
  intros Hp Hk Ha Ht. destruct (pipe_ring_some w pid p I Hp) as (r & E & Hr & Hwf). unfold read_step. rewrite E. simpl.
  destruct (read_turn_spec (live w) me (nonblock p) k r (counters w) Hwf Hk Ha Ht) as (t & k' & r' & c' & ws & Et & Hs & Hk' & Hcat & Hm).
  rewrite Et. eexists _, _, _. split; [reflexivity|]. split; [|destruct t as [[]| |]; tauto].
  eapply acts_plain; [done|]. destruct t as [[n|e]| |]; simpl in *; try exact Hs. destruct Hm as [Hn _].
  pose proof (available_data r Hwf) as (Ea & _). rewrite Hcat. unfold splice. simpl.
  rewrite take_app_length'; [exact Hs|]. rewrite length_take. lia.
Qed.

Lemma write_acts pid p k : pipes w !! pid = Some p -> cursor_ok k -> already k < total_len (buffers k) ->
  exists t k' w', write_step me pid k w = Some (t, k', w') /\
    acts (p_buffer p) (take (Z.to_nat (already k' - already k)) (drop (Z.to_nat (already k)) (concat (buffers k)))) [] w w' /\
    cursor_ok k' /\ buffers k' = buffers k /\ already k <= already k' /\
    match t with
    | Done (Ok m) => m = already k'
    | Done (Err _) | Blocked => k' = k
    | Again => already k' < total_len (buffers k)
    end.
Proof using I.
  intros Hp Hk Hlt. destruct (pipe_ring_some w pid p I Hp) as (r & E & Hr & Hwf). unfold write_step. rewrite E. simpl.
  destruct (write_turn_spec (live w) me (nonblock p) k r (counters w) Hwf Hk Hlt) as (t & k' & r' & c' & ws & Et & Hs & Hk' & Hb & Hle & Hm).
  rewrite Et. simpl. eexists _, _, _. split; [reflexivity|]. split; [by apply (acts_intro _ _ _ _ r)|].
  split; [done|]. split; [done|]. split; [done|]. destruct t as [[]| |]; tauto.
Qed.

Lemma wait_readable_acts nb id r : rings w !! id = Some r ->
  exists t w', wait_readable_step nb me id w = Some (t, w') /\ acts id [] [] w w'.
Proof using I.
  intros Hr. pose proof (proj1 (wi_ring w I id r Hr)) as Hwf. unfold wait_readable_step. rewrite Hr. simpl. unfold wait_readable_turn.
  destruct (available_data r Hwf) as (Ea & _). case_if.
  - eexists _, _. split; [reflexivity|]. eapply acts_plain; [done|]. apply section_meta; auto.
  - assert (Hc : contents r = []) by (apply length_zero_iff_nil; lia).
    pose proof (read_nothing_spec (live w) me 0 nb r (counters w) Hwf Hc) as H. destruct (read_nothing _ _ _ _ _) as [[t r'] ws].
    eexists _, _. split; [reflexivity|]. eapply acts_plain; [done|]. apply H.
Qed.

Lemma wait_writable_acts nb id r : rings w !! id = Some r ->
  exists t w', wait_writable_step nb me id w = Some (t, w') /\ acts id [] [] w w'.
Proof using I.
  intros Hr. pose proof (proj1 (wi_ring w I id r Hr)) as Hwf. unfold wait_writable_step. rewrite Hr. simpl.
  unfold wait_writable_turn, all_read_ends_closed. destruct (available_data r Hwf) as (_ & _ & Hnn & _).
  assert (Hnop : section (live w) r r (counters w) (counters w) [] [] []) by (apply section_meta; auto).
  destruct (read_end_open r) eqn:Eo; cbn [negb]; [case_if; [|destruct nb]|]; eexists _, _; (split; [reflexivity|]); apply (acts_intro _ _ _ _ r); auto.
  apply section_meta; simpl; auto.
  - intros t Ht. destruct (register_waiter_keeps (live w) _ t me Ht); auto.
  - right. right. unfold PIPE_BUF. split; [done|lia].
Qed.

Lemma discard_acts id r len : rings w !! id = Some r -> 0 <= len ->
  exists n w', discard_step len id w = Some (n, w') /\ acts id [] (peek_slice len r) w w'.
Proof using I.
  intros Hr Hl. pose proof (proj1 (wi_ring w I id r Hr)) as Hwf. unfold discard_step. rewrite Hr. simpl.
  destruct (buffer_discard_spec (live w) len r (counters w) Hwf Hl) as (r' & c' & ws & E & Hs). rewrite E.
  eexists _, _. split; [reflexivity|]. eapply acts_plain; [done|]. rewrite peek_slice_spec by (done || apply Hwf). exact Hs.
Qed.

Lemma buffer_write_acts id r src : rings w !! id = Some r ->
  exists res w', buffer_write_step src me id w = Some (res, w') /\ acts id (take (res_len res) src) [] w w'.
Proof using I.
  intros Hr. pose proof (proj1 (wi_ring w I id r Hr)) as Hwf. unfold buffer_write_step. rewrite Hr. simpl.
  destruct (buffer_write_spec (live w) src r (counters w) Hwf) as (res & r' & c' & ws & E & Hs & _). rewrite E. simpl.
  eexists _, _. split; [reflexivity|]. apply (acts_intro _ _ _ _ r); [done|]. by destruct res.
Qed.

(** [transfer_to] acts on the input, then on the output, with the same bytes. *)
Lemma transfer_acts input output ri ro len : rings w !! input = Some ri -> rings w !! output = Some ro ->
  input <> output -> 0 <= len ->
  exists res w1 w', transfer_to input output len me w = Some (res, w') /\
    let bs := take (res_len res) (contents ri) in
    acts input [] bs w w1 /\ acts output bs [] w1 w' /\
    (if read_end_open ro then res = Ok (Z.min (Z.min len (available_read ri)) (available_write ro)) else res = Err EPIPE).
Proof using I.
  intros Hi Ho Hne Hl. unfold transfer_to. rewrite (proj2 (Z.eqb_neq _ _)) by done. rewrite Hi, Ho. simpl.
  pose proof (proj1 (wi_ring w I _ ri Hi)) as Wi. pose proof (proj1 (wi_ring w I _ ro Ho)) as Wo.
  pose proof (transfer_locked_spec len ri ro (counters w) Wi Wo Hl) as H. destruct (read_end_open ro) eqn:Eo.
  - destruct H as (ri' & ro' & c' & E & Wi' & Wo' & Si & So & Di & Do & c1 & M1 & M2). rewrite E. simpl.
    set (n := Z.min _ _) in *. destruct (available_data ri Wi) as (Eai & _). destruct (available_data ro Wo) as (_ & _ & Hnn & _).
    assert (Ho1 : forall r c ws, rings (put_ring input r c ws w) !! output = Some ro) by (intros; simpl; by rewrite lookup_insert_ne).
    destruct (0 <? n) eqn:En; to_prop.
    + exists (Ok n), (put_ring input (take_write_and_poll ri').1 c1 (take_write_and_poll ri').2 w). eexists. split; [reflexivity|].
      split; [|split; [|done]].
      * eapply acts_plain; [done|]. by apply section_consume.
      * simpl. rewrite (put_over _ _ _ _ _ c1). eapply acts_plain; [apply Ho1|]. by apply (section_produce _ ro ro').
    + exists (Ok n), (put_ring input ri' c1 [] w). eexists. split; [reflexivity|]. assert (En0 : n = 0) by lia. simpl.
      rewrite En0, take_0, drop_0, app_nil_r in *. split; [|split; [|done]].
      * eapply acts_plain; [done|]. by apply section_still.
      * rewrite (put_over _ _ _ _ _ c1). eapply acts_plain; [apply Ho1|]. by apply section_still.
  - rewrite H. simpl. exists (Err EPIPE), (put_ring input ri (counters w) [] w). eexists. split; [reflexivity|]. simpl.
    split; [|split; [|done]].
    + eapply acts_plain; [done|]. apply section_meta; auto.
    + apply (acts_intro output [] [] _ ro ro (counters w) [] true me); [simpl; by rewrite lookup_insert_ne|]. apply section_meta; auto.
Qed.

Lemma poll_acts id r pw ws : rings w !! id = Some r ->
  acts id [] [] w (put_ring id (with_poll_waiters r pw) (counters w) ws w).
Proof using I.
  intros Hr. eapply acts_plain; [done|]. apply section_meta; auto. by apply (wi_ring w I id).
Qed.

End Acts.

(** ** Closing an end *)

Lemma close_ends_spec p r c : wf_ring r -> p_readable p = negb (p_writable p) ->
  exists r' c' ws, close_ends p r c = (r', c', ws) /\ wf_ring r' /\
    read_end_open r' = read_end_open r && negb (p_readable p) /\ write_end_open r' = write_end_open r && negb (p_writable p) /\
    contents r' = (if p_readable p then [] else contents r) /\
    (reader_ok r -> reader_ok r') /\ (writer_ok r -> writer_ok r') /\
    (p_writable p = true -> read_waiters r' = [] /\ forall t, t ∈ read_waiters r -> t ∈ ws) /\
    (p_readable p = true -> write_waiters r' = [] /\ forall t, t ∈ write_waiters r -> t ∈ ws) /\
    moved (Z.of_nat (held (pages r')) - Z.of_nat (held (pages r))) c c'.
Proof.
  intros Hr Hp. unfold close_ends. destruct (p_writable p) eqn:Ew; simpl in Hp; rewrite Hp.
  - set (r' := with_poll_waiters (with_read_waiters (close_write_end r) []) []).
    destruct (wf_ring_meta r r' eq_refl eq_refl eq_refl eq_refl eq_refl Hr) as [Hr' Hc].
    eexists r', c, _. split; [reflexivity|]. rewrite andb_true_r, andb_false_r. split_and!; try done.
    + intros _. by left.
    + intros _. split; [done|]. intros t Ht. simpl. apply elem_of_app. by left.
    + rewrite Z.sub_diag. apply moved_refl.
  - destruct (close_read_end_spec r c Hr) as (r1 & c1 & E & Hr1 & Ecap & Ec & Ero & Ewo & Erw & Eww & Epw & Hm). rewrite E. simpl.
    set (r' := with_poll_waiters (with_write_waiters r1 []) []).
    destruct (wf_ring_meta r1 r' eq_refl eq_refl eq_refl eq_refl eq_refl Hr1) as [Hr' Hc].
    eexists r', c1, _. split; [reflexivity|]. rewrite andb_true_r, andb_false_r, Hc. split_and!; try done.
    + intros [H|[H1 H2]]; [left; simpl; by rewrite Erw|]. right. rewrite Hc. split; [done|]. simpl. by rewrite Ewo.
    + intros _. by left.
    + intros _. split; [done|]. intros t Ht. rewrite Eww. apply elem_of_app. by left.
Qed.

Lemma drop_ends_iff w pid p id (f : Pipe -> bool) : WInv w -> pipes w !! pid = Some p ->
  (forall q, f q = p_readable q) \/ (forall q, f q = p_writable q) ->
  (exists pid' q, delete pid (pipes w) !! pid' = Some q /\ p_buffer q = id /\ f q = true) <->
  (exists pid' q, pipes w !! pid' = Some q /\ p_buffer q = id /\ f q = true) /\ ~ (p_buffer p = id /\ f p = true).
Proof.
  intros I Hp Hf. split.
  - intros (pid' & q & Hq & Hb & Hfq). apply lookup_delete_Some in Hq as [Hne Hq]. split; [by exists pid', q|].
    intros [Hbp Hfp]. apply Hne. pose proof (wi_pipe w I _ _ Hp) as [_ Hx]. pose proof (wi_pipe w I _ _ Hq) as [_ Hy].
    apply (wi_unique w I pid p pid' q Hp Hq); [congruence|].
    destruct Hf as [Hf|Hf]; rewrite Hf in Hfq, Hfp; [congruence|]. rewrite Hx, Hy. congruence.
  - intros [(pid' & q & Hq & Hb & Hfq) Hn]. exists pid', q. split; [|done]. apply lookup_delete_Some. split; [|done].
    intros ->. rewrite Hp in Hq. injection Hq as ->. by apply Hn.
Qed.

Definition without_pipe (pid : Z) (w : PipeWorld) : PipeWorld :=
  mkPipeWorld (rings w) (delete pid (pipes w)) (counters w) (live w) (interrupted w) (woken w) (sigpipe w).

Section DropPipe.
Context (w : PipeWorld) (I : WInv w) (pid : Z) (p : Pipe) (r r' : PipeRingBuffer) (c' : PipeCounters) (ws : list Z).
Context (Hp : pipes w !! pid = Some p) (Hr : rings w !! p_buffer p = Some r).
Context (Hwf' : wf_ring r') (Hrd' : reader_ok r').
Context (Ero : read_end_open r' = read_end_open r && negb (p_readable p)).
Context (Ewo : write_end_open r' = write_end_open r && negb (p_writable p)).
Context (Hm : moved (Z.of_nat (held (pages r')) - Z.of_nat (held (pages r))) (counters w) c').

Let w1 := without_pipe pid (put_ring (p_buffer p) r' c' ws w).

Lemma drop_lookup id x : rings w1 !! id = Some x -> if decide (id = p_buffer p) then x = r' else rings w !! id = Some x.
Proof using. clear. simpl. rewrite lookup_insert. repeat case_decide; congruence. Qed.

Lemma drop_pipes pid' q : pipes w1 !! pid' = Some q -> pid' <> pid /\ pipes w !! pid' = Some q.
Proof using. clear. simpl. rewrite lookup_delete_Some. intros [? ?]. split; [congruence|done]. Qed.

Lemma drop_read id x : rings w1 !! id = Some x -> read_end_open x = true <-> read_end_of w1 id.
Proof using I Hp Hr Ero.
  clear Hm. intros Hx. apply drop_lookup in Hx. unfold read_end_of. simpl. rewrite (drop_ends_iff w pid p id p_readable I Hp) by auto.
  case_decide as Ei; [subst id x; rewrite Ero, andb_true_iff, negb_true_iff, (wi_read w I _ r Hr)|rewrite (wi_read w I _ x Hx)];
    unfold read_end_of; destruct (p_readable p); naive_solver.
Qed.

Lemma drop_write id x : rings w1 !! id = Some x -> write_end_open x = true <-> write_end_of w1 id.
Proof using I Hp Hr Ewo.
  clear Hm. intros Hx. apply drop_lookup in Hx. unfold write_end_of. simpl. rewrite (drop_ends_iff w pid p id p_writable I Hp) by auto.
  case_decide as Ei; [subst id x; rewrite Ewo, andb_true_iff, negb_true_iff, (wi_write w I _ r Hr)|rewrite (wi_write w I _ x Hx)];
    unfold write_end_of; destruct (p_writable p); naive_solver.
Qed.

Lemma drop_rings id x : rings w1 !! id = Some x -> wf_ring x /\ reader_ok x.
Proof using I Hwf' Hrd'.
  clear Hm Ero Ewo. intros Hx. apply drop_lookup in Hx. case_decide; [by subst x|]. by apply (wi_ring w I id).
Qed.

Lemma drop_unique pid1 p1 pid2 p2 : pipes w1 !! pid1 = Some p1 -> pipes w1 !! pid2 = Some p2 ->
  p_buffer p1 = p_buffer p2 -> p_readable p1 = p_readable p2 -> pid1 = pid2.
Proof using I. intros [_ H1]%drop_pipes [_ H2]%drop_pipes. by apply (wi_unique w I pid1 p1 pid2 p2). Qed.

Lemma drop_counts : pages_total (rings w1) = pages_total (rings w) + (Z.of_nat (held (pages r')) - Z.of_nat (held (pages r))) /\
  usize (PIPE_CURRENT_PAGES c') = usize (pages_total (rings w1)) /\
  usize (PIPE_PAGE_ALLOC_COUNT c' - PIPE_PAGE_DROP_COUNT c') = usize (pages_total (rings w1)).
Proof using I Hr Hm.
  assert (Et : pages_total (rings w1) = pages_total (rings w) + (Z.of_nat (held (pages r')) - Z.of_nat (held (pages r))))
    by (simpl; rewrite (pages_total_update _ _ r) by done; lia).
  rewrite Et. split; [done|]. exact (moved_total _ _ (pages_total (rings w)) _ Hm (wi_current w I) (wi_balance w I)).
Qed.

(** Another object still refers to the ring. *)
Lemma drop_keeps : existsb (fun q : Z * Pipe => p_buffer q.2 =? p_buffer p) (map_to_list (pipes w1)) = true -> WInv w1.
Proof using All.
  intros Ee. destruct drop_counts as (_ & Hc1 & Hc2). split; try done.
  - exact drop_rings.
  - intros pid' q [_ Hq]%drop_pipes. destruct (wi_pipe w I pid' q Hq) as [[x Hx] ?]. split; [|done].
    simpl. rewrite lookup_insert. case_decide; eauto.
  - exact drop_unique.
  - exact drop_read.
  - exact drop_write.
  - intros id x Hx. rewrite (drop_read id x Hx), (drop_write id x Hx). apply drop_lookup in Hx. case_decide as Ei.
    + apply existsb_exists in Ee as ([pid' q] & Hin & Eb). apply Z.eqb_eq in Eb. apply list_elem_of_In, elem_of_map_to_list in Hin.
      pose proof (proj2 (wi_pipe w I pid' q (proj2 (drop_pipes _ _ Hin)))) as Hrwq. simpl in Eb. subst id.
      destruct (p_readable q) eqn:Eq; [left|right]; exists pid', q; split_and!; try done. by destruct (p_writable q).
    + pose proof (wi_open w I id x Hx) as Ho. rewrite (wi_read w I id x Hx), (wi_write w I id x Hx) in Ho.
      unfold read_end_of, write_end_of in *. simpl.
      rewrite (drop_ends_iff w pid p id p_readable I Hp), (drop_ends_iff w pid p id p_writable I Hp) by auto. naive_solver.
Qed.

(** The ring goes with the object. *)
Lemma drop_last : existsb (fun q : Z * Pipe => p_buffer q.2 =? p_buffer p) (map_to_list (pipes w1)) = false ->
  WInv (mkPipeWorld (delete (p_buffer p) (rings w1)) (pipes w1) (drop_ring r' c') (live w1) (interrupted w1) (woken w1) (sigpipe w1)).
Proof using All.
  intros Ee. destruct drop_counts as (_ & Hc1 & Hc2).
  assert (Hno : forall pid' q, pipes w1 !! pid' = Some q -> p_buffer q <> p_buffer p).
  { intros pid' q Hq Eb. apply not_true_iff_false in Ee. apply Ee, existsb_exists. exists (pid', q).
    split; [by apply list_elem_of_In, elem_of_map_to_list|]. by apply Z.eqb_eq. }
  destruct (moved_drop (held (pages r')) c') as [D1 D2 _ _].
  destruct (total_shift c' (drop_ring r' c') (pages_total (rings w1)) _ D1 D2 Hc1 Hc2) as [Hd1 Hd2].
  assert (Ed : pages_total (delete (p_buffer p) (rings w1)) = pages_total (rings w1) + - Z.of_nat (held (pages r'))).
  { rewrite (pages_total_delete _ _ r'); [lia|]. simpl. apply lookup_insert_eq. }
  split; cbn [rings pipes counters]; try done.
  - intros id x [_ Hx]%lookup_delete_Some. by apply (drop_rings id).
  - intros pid' q Hq. pose proof (Hno pid' q Hq) as Hb. apply drop_pipes in Hq as [_ Hq].
    destruct (wi_pipe w I pid' q Hq) as [[x Hx] ?]. split; [|done]. simpl. rewrite lookup_delete_ne, lookup_insert_ne by done. eauto.
  - exact drop_unique.
  - intros id x [_ Hx]%lookup_delete_Some. by apply (drop_read id).
  - intros id x [_ Hx]%lookup_delete_Some. by apply (drop_write id).
  - intros id x [Hne Hx]%lookup_delete_Some. apply drop_lookup in Hx. rewrite decide_False in Hx by done. by apply (wi_open w I id).
  - etransitivity; [exact Hd1|]. by rewrite <- Ed.
  - etransitivity; [exact Hd2|]. by rewrite <- Ed.
Qed.

End DropPipe.

(** Dropping a pipe object keeps the invariant, also when it was the last one. *)
Lemma drop_pipe_spec w pid p : WInv w -> pipes w !! pid = Some p ->
  exists w' r r' c' ws, drop_pipe pid w = Some w' /\ WInv w' /\ rings w !! p_buffer p = Some r /\ wf_ring r /\
    close_ends p r (counters w) = (r', c', ws) /\
    (forall id x, rings w' !! id = Some x -> if decide (id = p_buffer p) then x = r' else rings w !! id = Some x).
Proof.
  intros I Hp. destruct (wi_pipe w I pid p Hp) as [[r Hr] Hrw]. destruct (wi_ring w I _ r Hr) as [Hwf Hrd].
  destruct (close_ends_spec p r (counters w) Hwf Hrw) as (r' & c' & ws & E & Hwf' & Ero & Ewo & _ & Hrd' & _ & _ & _ & Hm).
  unfold drop_pipe. rewrite Hp. simpl. rewrite Hr. simpl. rewrite E. simpl. destruct (existsb _ _) eqn:Ee.
  - eexists _, r, r', c', ws. split; [reflexivity|].
    split; [apply (drop_keeps w I pid p r r' c' ws); auto|]. split_and!; try done. intros id x. apply drop_lookup.
  - eexists _, r, r', c', ws. split; [reflexivity|].
    split; [apply (drop_last w I pid p r r' c' ws); auto|]. split_and!; try done. cbn [rings].
    intros id x [_ Hx]%lookup_delete_Some. exact (drop_lookup w pid p r' c' ws id x Hx).
Qed.

(** ** Creating and resizing *)

Definition fresh_pipe (id rd wr : Z) (w : PipeWorld) : Prop :=
  rings w !! id = None /\ pipes w !! rd = None /\ pipes w !! wr = None /\ rd <> wr.

Lemma make_pipe_WInv id rd wr w : WInv w -> fresh_pipe id rd wr w -> WInv (make_pipe id rd wr w).
Proof.
  intros I (Hid & Hrd & Hwr & Hne). destruct (ring_new_spec (counters w)) as (Hwf & Hc & Hh).
  unfold make_pipe. destruct (ring_new (counters w)) as [r0 c0] eqn:Enew. simpl in Hwf, Hc, Hh.
  set (r := set_write_end (set_read_end r0)).
  destruct (wf_ring_meta r0 r eq_refl eq_refl eq_refl eq_refl eq_refl Hwf) as [Hwf' _].
  assert (Hold : forall pid p, pipes w !! pid = Some p -> p_buffer p <> id).
  { intros pid p Hp E. destruct (wi_pipe w I pid p Hp) as [[x Hx] _]. congruence. }
  assert (Hlk : forall pid p, <[wr := write_end_with_buffer id]> (<[rd := read_end_with_buffer id]> (pipes w)) !! pid = Some p <->
    (pid = wr /\ p = write_end_with_buffer id) \/ (pid = rd /\ p = read_end_with_buffer id) \/ pipes w !! pid = Some p).
  { intros pid p. rewrite !lookup_insert. repeat case_decide; naive_solver. }
  assert (Hother : forall i (f : Pipe -> bool), i <> id ->
    (exists pid p, <[wr := write_end_with_buffer id]> (<[rd := read_end_with_buffer id]> (pipes w)) !! pid = Some p /\ p_buffer p = i /\ f p = true)
    <-> (exists pid p, pipes w !! pid = Some p /\ p_buffer p = i /\ f p = true)).
  { intros i f Hi. setoid_rewrite Hlk. naive_solver. }
  split; cbn [rings pipes counters].
  - intros i x. rewrite lookup_insert. case_decide; [intros [= <-]|apply (wi_ring w I)]. split; [done|]. injection Enew as <- _. by left.
  - intros pid p [[-> ->]|[[-> ->]|Hp]]%Hlk; [split; [simpl; rewrite lookup_insert_eq; eauto|done]..|].
    pose proof (Hold _ _ Hp). destruct (wi_pipe w I pid p Hp) as [[x Hx] ?]. split; [|done]. rewrite lookup_insert_ne by done. eauto.
  - intros pid p pid' p' Hp Hp' Eb Er. apply Hlk in Hp, Hp'.
    destruct Hp as [[-> ->]|[[-> ->]|Hp]], Hp' as [[-> ->]|[[-> ->]|Hp']]; simpl in *; try done;
      [by edestruct (Hold _ _ Hp')..|by edestruct (Hold _ _ Hp)|by edestruct (Hold _ _ Hp)|]. by apply (wi_unique w I pid p pid' p').
  - intros i x. rewrite lookup_insert. unfold read_end_of. cbn [pipes]. case_decide as E.
    + subst i. intros [= <-]. split; [|done]. intros _. exists rd, (read_end_with_buffer id). split; [apply Hlk; auto|done].
    + intros Hx. rewrite Hother by done. apply (wi_read w I i x Hx).
  - intros i x. rewrite lookup_insert. unfold write_end_of. cbn [pipes]. case_decide as E.
    + subst i. intros [= <-]. split; [|done]. intros _. exists wr, (write_end_with_buffer id). split; [apply Hlk; auto|done].
    + intros Hx. rewrite Hother by done. apply (wi_write w I i x Hx).
  - intros i x. rewrite lookup_insert. case_decide; [intros [= <-]; by left|apply (wi_open w I)].
  - rewrite pages_total_new by done. change (pages r) with (pages r0). rewrite Hh. injection Enew as _ <-. simpl. apply (wi_current w I).
  - rewrite pages_total_new by done. change (pages r) with (pages r0). rewrite Hh. injection Enew as _ <-. simpl. apply (wi_balance w I).
Qed.

(** The answer of [set_pipe_capacity] for a ring that holds [n] bytes. *)
Definition resize_result (size n : Z) : SysResult Z :=
  if PIPE_SIZE_LIMIT <? size then Err EINVAL else if PIPE_MAX_SIZE <? size then Err EPERM
  else if Z.max size PIPE_BUF <? n then Err EBUSY else Ok 0.

Lemma set_capacity_spec w id r size : WInv w -> rings w !! id = Some r -> 0 <= size ->
  exists res w', set_pipe_capacity size id w = Some (res, w') /\ WInv w' /\ pipes w' = pipes w /\
    res = resize_result size (available_read r) /\
    match res with
    | Ok _ => exists r' c', w' = put_ring id r' c' [] w /\ capacity r' = Z.max size PIPE_BUF /\ contents r' = contents r /\
        read_end_open r' = read_end_open r
    | Err e => rings w' = rings w
    end.
Proof.
  intros I Hr Hs. unfold set_pipe_capacity, resize_result. destruct (wi_ring w I id r Hr) as [Hwf Hrd].
  case_if; [by exists (Err EINVAL), w|]. case_if; [by exists (Err EPERM), w|]. rewrite Hr. simpl.
  pose proof (resize_spec r (Z.max size PIPE_BUF) (counters w) Hwf ltac:(unfold PIPE_BUF, PIPE_MAX_SIZE in *; lia)) as H.
  destruct (_ <? available_read r).
  - rewrite H. simpl. eexists _, _. split; [reflexivity|].
    assert (Ha : acts id [] [] w (put_ring id r (counters w) [] w)) by (eapply acts_plain; [done|]; apply section_meta; auto).
    destruct (acts_WInv id [] [] w _ I Ha) as (? & ? & _). split_and!; try done. simpl. by rewrite insert_id.
  - destruct H as (r' & c' & Ers & Hwf' & Ecap & Ec & Ero & Ewo & Erw & Eww & Epw & Hm). rewrite Ers. simpl.
    eexists _, _. split; [reflexivity|]. split; [|split; [done|split; [done|by exists r', c']]].
    apply (put_WInv id r r' c' [] false 0 w); auto. unfold reader_ok in *. by rewrite Ec, Erw, Ewo.
Qed.
