(* ===== verification/PipeMain.v ===== *)
(** * Pipes: the system of pipes

    The state of all pipes with a history of what went through each, the steps
    of all tasks on it, and the invariant of the reachable states.  The history
    of a pipe is the bytes that writers put in, the bytes that readers took
    out, and whether its capacity was ever changed.

    Then the theorems: the stream of a pipe, the wake-ups of the tasks that
    wait, the pages held, the whole blocking calls, and splicing between
    pipes. *)

From S2P Require Import Prelude SysErr PipeRing PipeRingSpec Pipe PipeSpec PipeSys.

(** ** Steps of the system, with history *)

(** Bytes put in, bytes taken out, capacity changed. *)
Abbreviation History := (gmap Z (bytes * bytes * bool)) (only parsing).

Definition hist_add (id : Z) (inb outb : bytes) (h : History) : History :=
  alter (fun '(i, o, b) => (i ++ inb, o ++ outb, b)) id h.
Definition hist_resized (id : Z) (h : History) : History := alter (fun '(i, o, _) => (i, o, true)) id h.

Definition with_tasks (l i : gset Z) (w : PipeWorld) : PipeWorld :=
  mkPipeWorld (rings w) (pipes w) (counters w) l i (woken w) (sigpipe w).

(** One lock section of any task, or a change in the environment. *)
Inductive pstep : PipeWorld * History -> PipeWorld * History -> Prop :=
| ps_read_slice w h pid p want me t w' : pipes w !! pid = Some p -> 0 < want ->
    read_user_slice_step want me pid w = Some (t, w') ->
    pstep (w, h) (w', hist_add (p_buffer p) [] (turn_out t) h)
| ps_write_slice w h pid p src me t w' : pipes w !! pid = Some p -> src <> [] ->
    write_user_slice_step src me pid w = Some (t, w') ->
    pstep (w, h) (w', hist_add (p_buffer p) (take (turn_len t) src) [] h)
| ps_read w h pid p k me t k' w' : pipes w !! pid = Some p -> cursor_ok k -> already k = 0 -> 0 < total_len (buffers k) ->
    read_step me pid k w = Some (t, k', w') ->
    pstep (w, h) (w', hist_add (p_buffer p) [] (take (turn_len t) (concat (buffers k'))) h)
| ps_write w h pid p k me t k' w' : pipes w !! pid = Some p -> cursor_ok k -> already k < total_len (buffers k) ->
    write_step me pid k w = Some (t, k', w') ->
    pstep (w, h) (w', hist_add (p_buffer p)
      (take (Z.to_nat (already k' - already k)) (drop (Z.to_nat (already k)) (concat (buffers k)))) [] h)
| ps_wait_readable w h id r nb me t w' : rings w !! id = Some r -> wait_readable_step nb me id w = Some (t, w') -> pstep (w, h) (w', h)
| ps_wait_writable w h id r nb me t w' : rings w !! id = Some r -> wait_writable_step nb me id w = Some (t, w') -> pstep (w, h) (w', h)
| ps_discard w h id r len n w' : rings w !! id = Some r -> 0 <= len -> discard_step len id w = Some (n, w') ->
    pstep (w, h) (w', hist_add id [] (peek_slice len r) h)
| ps_buffer_write w h id r src me res w' : rings w !! id = Some r -> buffer_write_step src me id w = Some (res, w') ->
    pstep (w, h) (w', hist_add id (take (res_len res) src) [] h)
| ps_transfer w h input output ri ro len me res w' : rings w !! input = Some ri -> rings w !! output = Some ro ->
    input <> output -> 0 <= len -> transfer_to input output len me w = Some (res, w') ->
    pstep (w, h) (w', hist_add output (peek_slice (Z.of_nat (res_len res)) ri) []
                       (hist_add input [] (peek_slice (Z.of_nat (res_len res)) ri) h))
| ps_resize w h id r size res w' : rings w !! id = Some r -> 0 <= size -> set_pipe_capacity size id w = Some (res, w') ->
    pstep (w, h) (w', hist_resized id h)
| ps_register_poll w h id task w' : register_poll_waker task id w = Some w' -> pstep (w, h) (w', h)
| ps_clear_poll w h id task w' : clear_poll_waker task id w = Some w' -> pstep (w, h) (w', h)
| ps_wake_poll w h id w' : wake_poll_waiters id w = Some w' -> pstep (w, h) (w', h)
| ps_flags w h pid flags : pstep (w, h) (update_pipe pid (set_status_flags flags) w, h)
| ps_drop w h pid p w' : pipes w !! pid = Some p -> drop_pipe pid w = Some w' -> pstep (w, h) (w', h)
| ps_make w h id rd wr : fresh_pipe id rd wr w -> pstep (w, h) (make_pipe id rd wr w, <[id := ([], [], false)]> h)
| ps_tasks w h l i : pstep (w, h) (with_tasks l i w, h).

Definition zero_counters : PipeCounters := mkCounters 0 0 0 0 0 0.
Definition no_pipes : PipeWorld * History := (mkPipeWorld ∅ ∅ zero_counters ∅ ∅ [] [], ∅).
Definition preachable (s : PipeWorld * History) : Prop := rtc pstep no_pipes s.

(** What went through a pipe. *)
Definition HInv (w : PipeWorld) (h : History) : Prop :=
  forall id r, rings w !! id = Some r -> exists i o b, h !! id = Some (i, o, b) /\
    (o ++ contents r) `prefix_of` i /\ (read_end_open r = true -> i = o ++ contents r) /\ (b = false -> writer_ok r).

Lemma acts_HInv id inb outb w w' h : HInv w h -> acts id inb outb w w' -> HInv w' (hist_add id inb outb h).
Proof.
  intros HH [r r' c' ws bb me Hr Hs] i x Hx. destruct (sigpipe_if_same bb me (put_ring id r' c' ws w)) as (Er & _).
  rewrite Er in Hx. simpl in Hx. rewrite lookup_insert in Hx. unfold hist_add. case_decide as E.
  - subst i. injection Hx as <-. destruct (HH id r Hr) as (i & o & b & Eh & Hpre & Hopen & Hb). rewrite lookup_alter_eq, Eh. simpl.
    eexists _, _, _. split; [reflexivity|]. destruct Hs as [_ Hd _ [Ero _] Hin _ _ _ _ Hwr]. rewrite <- app_assoc, <- Hd.
    assert (Hinb : read_end_open r = true \/ inb = []) by (destruct inb; [by right|left; by apply Hin]).
    destruct Hinb as [Ho| ->].
    + rewrite (Hopen Ho), app_assoc. split; [done|]. split; [done|]. auto.
    + rewrite !app_nil_r. split; [done|]. split; [|auto]. rewrite Ero. exact Hopen.
  - rewrite lookup_alter_ne by done. by apply HH.
Qed.

Lemma hist_add_nil id h : hist_add id [] [] h = h.
Proof.
  unfold hist_add. apply map_eq. intros i. rewrite lookup_alter. case_decide; [|done]. subst i.
  destruct (h !! id) as [[[a o] b]|]; simpl; [|done]. by rewrite !app_nil_r.
Qed.

Lemma HInv_rings w w' h : rings w' = rings w -> HInv w h -> HInv w' h.
Proof. intros E H id r. rewrite E. apply H. Qed.

Definition PInv (s : PipeWorld * History) : Prop := WInv s.1 /\ HInv s.1 s.2.

Lemma acts_PInv id inb outb w w' h : PInv (w, h) -> acts id inb outb w w' -> PInv (w', hist_add id inb outb h).
Proof. intros [I H] Ha. split; [by apply (acts_WInv id inb outb w)|by apply (acts_HInv id inb outb w)]. Qed.

Lemma acts_PInv_nil id w w' h : PInv (w, h) -> acts id [] [] w w' -> PInv (w', h).
Proof. intros HP Ha. rewrite <- (hist_add_nil id h). by eapply acts_PInv. Qed.

Lemma flags_WInv pid flags w : WInv w -> WInv (update_pipe pid (set_status_flags flags) w).
Proof.
  intros I. set (w' := update_pipe _ _ _).
  assert (Hlk : forall i q, pipes w' !! i = Some q -> exists p, pipes w !! i = Some p /\
    p_buffer q = p_buffer p /\ p_readable q = p_readable p /\ p_writable q = p_writable p).
  { intros i q. simpl. rewrite lookup_alter. case_decide; [|by exists q]. subst i. destruct (pipes w !! pid) as [p|]; [|done].
    simpl. intros [= <-]. by exists p. }
  assert (Hlk' : forall i p, pipes w !! i = Some p -> exists q, pipes w' !! i = Some q /\
    p_buffer q = p_buffer p /\ p_readable q = p_readable p /\ p_writable q = p_writable p).
  { intros i p Hp. simpl. rewrite lookup_alter. case_decide; [|by exists p]. subst i. rewrite Hp. simpl. by eexists. }
  assert (Heads : forall i (f : Pipe -> bool), (forall q, f q = p_readable q) \/ (forall q, f q = p_writable q) ->
    (exists pid p, pipes w' !! pid = Some p /\ p_buffer p = i /\ f p = true) <->
    (exists pid p, pipes w !! pid = Some p /\ p_buffer p = i /\ f p = true)).
  { intros i f Hf. split; intros (j & q & Hq & Hb & Hfq); [apply Hlk in Hq|apply Hlk' in Hq];
      destruct Hq as (p & Hp & ? & ? & ?); exists j, p; split_and!; try done; try congruence;
      destruct Hf as [Hf|Hf]; rewrite Hf in *; congruence. }
  destruct I as [I1 I2 I3 I4 I5 I6 I7 I8]. split; try done.
  - intros i q (p & Hp & -> & -> & ->)%Hlk. by apply (I2 i).
  - intros i q i' q' (p & Hp & -> & -> & _)%Hlk (p' & Hp' & -> & -> & _)%Hlk. by apply (I3 i p i' p').
  - intros i x Hx. unfold read_end_of. rewrite Heads by auto. by apply (I4 i x).
  - intros i x Hx. unfold write_end_of. rewrite Heads by auto. by apply (I5 i x).
Qed.

Lemma make_pipe_HInv id rd wr w h : HInv w h -> HInv (make_pipe id rd wr w) (<[id := ([], [], false)]> h).
Proof.
  intros H i x. unfold make_pipe. destruct (ring_new_spec (counters w)) as (_ & Hc & _).
  destruct (ring_new (counters w)) as [r0 c0] eqn:Enew. simpl in *. rewrite !lookup_insert. case_decide; [|apply H].
  intros [= <-]. eexists _, _, _. split; [reflexivity|]. change (contents _) with (contents r0). rewrite Hc.
  split; [done|]. split; [done|]. intros _. injection Enew as <- _. by left.
Qed.

Lemma drop_pipe_PInv pid p w w' h : PInv (w, h) -> pipes w !! pid = Some p -> drop_pipe pid w = Some w' -> PInv (w', h).
Proof.
  intros [I H] Hp E. destruct (drop_pipe_spec w pid p I Hp) as (w1 & r & r' & c' & ws & E1 & I1 & Hr & Hwf & Ece & Hlk).
  rewrite E in E1. injection E1 as <-. split; [done|]. intros id x Hx. apply Hlk in Hx. case_decide as Ei; [|by apply H].
  subst id x. destruct (H _ r Hr) as (i & o & b & Eh & Hpre & Hopen & Hb). exists i, o, b. split; [done|].
  destruct (close_ends_spec p r (counters w) Hwf (proj2 (wi_pipe w I pid p Hp))) as (r1 & c1 & ws1 & E1 & _ & Ero & _ & Ec & _ & Hwr & _).
  rewrite Ece in E1. injection E1 as -> -> ->. rewrite Ec, Ero. destruct (p_readable p); simpl.
  - rewrite app_nil_r, andb_false_r. split_and!; [|done|auto]. etransitivity; [|exact Hpre]. by apply prefix_app_r.
  - rewrite andb_true_r. split_and!; auto.
Qed.

Lemma resize_PInv id r size res w w' h : PInv (w, h) -> rings w !! id = Some r -> 0 <= size ->
  set_pipe_capacity size id w = Some (res, w') -> PInv (w', hist_resized id h).
Proof.
  intros [I H] Hr Hs E. destruct (set_capacity_spec w id r size I Hr Hs) as (res1 & w1 & E1 & I1 & _ & _ & Hres).
  rewrite E in E1. injection E1 as <- <-. split; [done|].
  assert (Hgen : forall i x, rings w' !! i = Some x -> exists y, rings w !! i = Some y /\ contents x = contents y /\
    read_end_open x = read_end_open y /\ (i <> id -> x = y)).
  { intros i x. destruct res as [z|e].
    - destruct Hres as (r' & c' & -> & _ & Hc & Hro). simpl. rewrite lookup_insert. case_decide; [|by exists x].
      subst i. intros [= <-]. exists r. by split_and!.
    - rewrite Hres. by exists x. }
  intros i x Hx. destruct (Hgen i x Hx) as (y & Hy & -> & -> & Hxy). destruct (H i y Hy) as (a & o & b & Eh & Hpre & Hopen & Hb).
  simpl in Eh. unfold hist_resized. simpl. rewrite lookup_alter. case_decide as Ei.
  - subst i. rewrite Eh. simpl. eexists _, _, _. split; [reflexivity|]. by split_and!.
  - exists a, o, b. rewrite (Hxy ltac:(congruence)). by split_and!.
Qed.

Lemma tasks_PInv l i w h : PInv (w, h) -> PInv (with_tasks l i w, h).
Proof. intros [[] H]. split; [by split|done]. Qed.

Lemma pstep_inv s s' : pstep s s' -> PInv s -> PInv s'.
Proof.
  intros Hstep HP. pose proof (proj1 HP) as I. destruct Hstep; simpl in I.
  - destruct (read_user_slice_acts w I me pid p want) as (t1 & w1 & E & Ha); [done..|]. simplify_eq. by eapply acts_PInv.
  - destruct (write_user_slice_acts w I me pid p src) as (t1 & w1 & E & Ha); [done..|]. simplify_eq. by eapply acts_PInv.
  - destruct (read_acts w I me pid p k) as (t1 & k1 & w1 & E & Ha & _); [done..|]. simplify_eq. by eapply acts_PInv.
  - destruct (write_acts w I me pid p k) as (t1 & k1 & w1 & E & Ha & _); [done..|]. simplify_eq. by eapply acts_PInv.
  - destruct (wait_readable_acts w I me nb id r) as (t1 & w1 & E & Ha); [done..|]. simplify_eq. by eapply acts_PInv_nil.
  - destruct (wait_writable_acts w I me nb id r) as (t1 & w1 & E & Ha); [done..|]. simplify_eq. by eapply acts_PInv_nil.
  - destruct (discard_acts w I id r len) as (t1 & w1 & E & Ha); [done..|]. simplify_eq. by eapply acts_PInv.
  - destruct (buffer_write_acts w I me id r src) as (t1 & w1 & E & Ha); [done..|]. simplify_eq. by eapply acts_PInv.
  - destruct (transfer_acts w I me input output ri ro len) as (res1 & w1 & w2 & E & Ha1 & Ha2 & _); [done..|]. simplify_eq.
    destruct (wi_ring w I _ ri H) as [Hwf _]. rewrite peek_slice_spec, Nat2Z.id by (lia || apply Hwf).
    eapply acts_PInv; [|exact Ha2]. by eapply acts_PInv.
  - by eapply resize_PInv.
  - unfold register_poll_waker in *. destruct (rings w !! id) as [r|] eqn:Er; simplify_eq/=. eapply acts_PInv_nil; [done|]. by apply poll_acts.
  - unfold clear_poll_waker in *. destruct (rings w !! id) as [r|] eqn:Er; simplify_eq/=. eapply acts_PInv_nil; [done|]. by apply poll_acts.
  - unfold wake_poll_waiters in *. destruct (rings w !! id) as [r|] eqn:Er; simplify_eq/=. eapply acts_PInv_nil; [done|]. by apply poll_acts.
  - split; [by apply flags_WInv|]. simpl. eapply HInv_rings; [|apply HP]. done.
  - by eapply drop_pipe_PInv.
  - destruct HP as [_ HH]. split; [by apply make_pipe_WInv|by apply make_pipe_HInv].
  - by apply tasks_PInv.
Qed.

Lemma preachable_inv s : preachable s -> PInv s.
Proof.
  assert (H0 : PInv no_pipes).
  { split; [split; simpl; try done; intros; by rewrite lookup_empty in *|]. intros id r Hr. simpl in Hr. by rewrite lookup_empty in Hr. }
  intros Hr. revert H0. induction Hr as [|x y z Hxy _ IH]; [done|]. intros Hx. apply IH. by eapply pstep_inv.
Qed.

(** ** Waiting tasks *)

(** A live task that waits in [w] still waits in [w'] or was woken. *)
Definition waits (w w' : PipeWorld) : Prop :=
  exists new, woken w' = woken w ++ new /\
  forall id r r' t, rings w !! id = Some r -> rings w' !! id = Some r' -> t ∈ live w ->
    (t ∈ read_waiters r -> t ∈ read_waiters r' \/ t ∈ new) /\
    (t ∈ write_waiters r -> t ∈ write_waiters r' \/ t ∈ new).

Lemma waits_same w w' : rings w' = rings w -> woken w' = woken w -> waits w w'.
Proof. intros Er Ew. exists []. rewrite Er, Ew, app_nil_r. split; [done|]. intros. simplify_eq. auto. Qed.

Lemma waits_trans w w1 w' : live w1 = live w -> (forall id, is_Some (rings w !! id) -> is_Some (rings w1 !! id)) ->
  waits w w1 -> waits w1 w' -> waits w w'.
Proof.
  intros El Hd (n1 & E1 & H1) (n2 & E2 & H2). exists (n1 ++ n2). rewrite E2, E1, app_assoc. split; [done|].
  intros id r r' t Hr Hr' Ht. destruct (Hd id) as [r1 Hr1]; [by rewrite Hr|].
  destruct (H1 id r r1 t Hr Hr1 Ht). destruct (H2 id r1 r' t Hr1 Hr'); [by rewrite El|]. rewrite !elem_of_app. tauto.
Qed.

(** A ring is replaced; its waiters are kept, woken or dead. *)
Lemma waits_put id r r' c ws b me w : rings w !! id = Some r ->
  (forall t, t ∈ live w -> t ∈ read_waiters r -> t ∈ read_waiters r' \/ t ∈ ws) ->
  (forall t, t ∈ live w -> t ∈ write_waiters r -> t ∈ write_waiters r' \/ t ∈ ws) ->
  waits w (sigpipe_if b me (put_ring id r' c ws w)).
Proof.
  intros Hr Hrd Hwr. set (new := List.filter (fun t => bool_decide (t ∈ live w)) ws).
  assert (Hnew : forall t, t ∈ live w -> t ∈ ws -> t ∈ new) by (intros t Ht Hin; apply filter_In_iff; split; [done|by apply bool_decide_eq_true_2]).
  exists new. split; [by destruct b|].
  destruct (sigpipe_if_same b me (put_ring id r' c ws w)) as (-> & _). simpl. intros i x x' t Hx Hx' Ht.
  rewrite lookup_insert in Hx'. case_decide; simplify_eq; [|auto]. specialize (Hrd t Ht). specialize (Hwr t Ht). split; intros Hin.
  - destruct (Hrd Hin); auto.
  - destruct (Hwr Hin); auto.
Qed.

Lemma acts_waits id inb outb w w' : acts id inb outb w w' -> waits w w'.
Proof.
  intros [r r' c ws b me Hr [_ _ _ _ _ _ H1 H2 _ _]]. apply (waits_put id r); [done|..]; intros t Ht Hin.
  - destruct (H1 t Hin) as [|[|]]; auto. done.
  - destruct (H2 t Hin) as [|[|]]; auto. done.
Qed.

Lemma acts_rings id inb outb w w' i : acts id inb outb w w' -> is_Some (rings w !! i) -> is_Some (rings w' !! i).
Proof.
  intros [r r' c ws b me Hr _] Hi. destruct (sigpipe_if_same b me (put_ring id r' c ws w)) as (-> & _). simpl.
  rewrite lookup_insert. case_decide; [eauto|done].
Qed.

Lemma drop_waits pid p w w' : WInv w -> pipes w !! pid = Some p -> drop_pipe pid w = Some w' -> waits w w'.
Proof.
  intros I Hp E. destruct (wi_pipe w I pid p Hp) as [[r Hr] Hrw].
  destruct (close_ends_spec p r (counters w) (proj1 (wi_ring w I _ r Hr)) Hrw) as (r' & c' & ws & Ec & _ & _ & _ & _ & _ & _ & Hrd & Hwr & _).
  assert (Hkeep : (p_writable p = false -> read_waiters r' = read_waiters r) /\ (p_readable p = false -> write_waiters r' = write_waiters r)).
  { unfold close_ends in Ec. destruct (p_writable p) eqn:Ew; rewrite Hrw in Ec; simpl in Ec; [injection Ec as <- <- <-; by split|].
    destruct (close_read_end r (counters w)) as [r1 c1] eqn:Ecr. injection Ec as <- <- <-. simpl. split; [|by rewrite Hrw]. intros _.
    by injection Ecr as <- _. }
  assert (Hput : waits w (put_ring (p_buffer p) r' c' ws w)).
  { apply (waits_put (p_buffer p) r r' c' ws false 0); [done|..]; intros t _ Hin.
    - destruct (p_writable p); [right; by apply Hrd|left; by rewrite (proj1 Hkeep)].
    - destruct (p_readable p); [right; by apply Hwr|left; by rewrite (proj2 Hkeep)]. }
  destruct Hput as (new & Ew & H). unfold drop_pipe in E. rewrite Hp in E. simpl in E. rewrite Hr in E. simpl in E. rewrite Ec in E.
  exists new. destruct (existsb _ _); injection E as <-; (split; [exact Ew|]); [exact H|].
  intros id x x' t Hx Hx'. simpl in Hx'. rewrite lookup_delete_Some in Hx'. by apply (H id x x' t Hx (proj2 Hx')).
Qed.

Lemma capacity_waits id r size res w w' : WInv w -> rings w !! id = Some r -> 0 <= size ->
  set_pipe_capacity size id w = Some (res, w') -> waits w w'.
Proof.
  intros I Hr Hs. unfold set_pipe_capacity. case_if; [intros [= <- <-]; by apply waits_same|]. case_if; [intros [= <- <-]; by apply waits_same|].
  rewrite Hr. simpl. unfold resize. case_if; simpl; [|destruct (resize_loop _ _ _ _ _) as [[np c]|]; [|done]; simpl];
    intros [= <- <-]; (apply (waits_put id r _ _ [] false 0); [done|auto..]).
Qed.

Lemma step_waits s s' : WInv s.1 -> pstep s s' -> waits s.1 s'.1.
Proof.
  intros I Hstep. destruct Hstep; simpl in *.
  - destruct (read_user_slice_acts w I me pid p want) as (? & ? & ? & Ha); [done..|]. simplify_eq. by eapply acts_waits.
  - destruct (write_user_slice_acts w I me pid p src) as (? & ? & ? & Ha); [done..|]. simplify_eq. by eapply acts_waits.
  - destruct (read_acts w I me pid p k) as (? & ? & ? & ? & Ha & _); [done..|]. simplify_eq. by eapply acts_waits.
  - destruct (write_acts w I me pid p k) as (? & ? & ? & ? & Ha & _); [done..|]. simplify_eq. by eapply acts_waits.
  - destruct (wait_readable_acts w I me nb id r) as (? & ? & ? & Ha); [done..|]. simplify_eq. by eapply acts_waits.
  - destruct (wait_writable_acts w I me nb id r) as (? & ? & ? & Ha); [done..|]. simplify_eq. by eapply acts_waits.
  - destruct (discard_acts w I id r len) as (? & ? & ? & Ha); [done..|]. simplify_eq. by eapply acts_waits.
  - destruct (buffer_write_acts w I me id r src) as (? & ? & ? & Ha); [done..|]. simplify_eq. by eapply acts_waits.
  - destruct (transfer_acts w I me input output ri ro len) as (? & w1 & ? & ? & Ha1 & Ha2 & _); [done..|]. simplify_eq.
    destruct (acts_WInv _ _ _ _ _ I Ha1) as (_ & _ & El). apply (waits_trans w w1); [done| |by eapply acts_waits..].
    intros i. by eapply acts_rings.
  - by eapply capacity_waits.
  - unfold register_poll_waker in *. destruct (rings w !! id) as [r|] eqn:Er; simplify_eq/=. eapply acts_waits. by apply poll_acts.
  - unfold clear_poll_waker in *. destruct (rings w !! id) as [r|] eqn:Er; simplify_eq/=. eapply acts_waits. by apply poll_acts.
  - unfold wake_poll_waiters in *. destruct (rings w !! id) as [r|] eqn:Er; simplify_eq/=. eapply acts_waits. by apply poll_acts.
  - by apply waits_same.
  - by eapply drop_waits.
  - destruct H as (Hid & _). exists []. unfold make_pipe. destruct (ring_new (counters w)) as [r0 c0]. simpl. rewrite app_nil_r. split; [done|].
    intros i x x' t Hx Hx'. rewrite lookup_insert in Hx'. case_decide; simplify_eq. auto.
  - by apply waits_same.
Qed.

(** ** Whole calls *)

(** What runs while a call on the end [pid] is between two turns: anything that
    keeps the invariant and this end, which the call holds. *)
Definition keeps_end (pid : Z) (e : PipeWorld -> PipeWorld) : Prop :=
  forall w p, WInv w -> pipes w !! pid = Some p -> WInv (e w) /\
    exists p', pipes (e w) !! pid = Some p' /\ p_readable p' = p_readable p /\ p_writable p' = p_writable p.

Section Calls.
Context {St A : Type} (turn : St -> PipeWorld -> option (Turn A * St * PipeWorld)) (me pid : Z) (J : St -> Prop) (Q : St -> A -> Prop).
Context (turn_ok : forall st w p, WInv w -> pipes w !! pid = Some p -> J st ->
  exists t st' w', turn st w = Some (t, st', w') /\ WInv w' /\ pipes w' = pipes w /\
    match t with Done (Ok x) => Q st' x | Done (Err _) => True | _ => J st' end).

Lemma run_turns_ok : forall env st w p, WInv w -> pipes w !! pid = Some p -> J st -> Forall (keeps_end pid) env ->
  exists res st' w', run_turns turn me env st w = Some (res, st', w') /\ WInv w' /\ is_Some (pipes w' !! pid) /\
    match res with Some (Ok x) => Q st' x | _ => True end.
Proof using turn_ok.
  induction env as [|e env IH]; intros st w p I Hp HJ He;
    destruct (turn_ok st w p I Hp HJ) as (t & st1 & w1 & E & I1 & Ep & Ht);
    assert (Hp1 : pipes w1 !! pid = Some p) by (by rewrite Ep); cbn [run_turns]; rewrite E.
  - destruct t as [[x|err]| |]; eexists _, _, _; (split; [reflexivity|]); by rewrite Hp1.
  - apply Forall_cons in He as [He Hes]. destruct (He w1 p I1 Hp1) as (I2 & p2 & Hp2 & _).
    destruct t as [[x|err]| |]; [| |case_bool_decide|].
    1-2: eexists _, _, _; (split; [reflexivity|]); by rewrite Hp1.
    + eexists _, _, _. split; [reflexivity|]. by rewrite Hp2.
    + by apply (IH st1 (e w1) p2).
    + by apply (IH st1 (e w1) p2).
Qed.

End Calls.

Lemma start_ok bufs : cursor_ok (start bufs).
Proof. split; simpl; lia. Qed.

Lemma acts_next id inb outb w w' : WInv w -> acts id inb outb w w' -> WInv w' /\ pipes w' = pipes w.
Proof. intros I H. destruct (acts_WInv _ _ _ _ _ I H) as (? & ? & _). done. Qed.

(** The result of a call: no panic, and the invariant afterwards. *)
Definition returns {St A} (Q : St -> A -> Prop) (o : option (option (SysResult A) * St * PipeWorld)) : Prop :=
  exists res st w, o = Some (res, st, w) /\ WInv w /\ match res with Some (Ok x) => Q st x | _ => True end.

Section CallsOk.
Context (w : PipeWorld) (I : WInv w) (pid : Z) (p : Pipe) (Hp : pipes w !! pid = Some p) (me : Z).
Context (env : list (PipeWorld -> PipeWorld)) (Henv : Forall (keeps_end pid) env).

Lemma read_user_slice_returns want : 0 <= want ->
  returns (fun _ out => (length out <= Z.to_nat want)%nat) (read_user_slice pid want me env w).
Proof using I Hp Henv.
  intros Hw. unfold read_user_slice. case_if; [by exists (Some (Ok [])), tt, w; split_and!; try done; simpl; lia|].
  destruct (run_turns_ok (stateless (read_user_slice_step want me pid)) me pid (fun _ => True)
    (fun _ out => (length out <= Z.to_nat want)%nat)) with (env := env) (st := tt) (w := w) (p := p) as (res & st & w' & ? & ? & _ & ?); try done.
  - intros [] v q Iv Hq _. destruct (pipe_ring_some v pid q Iv Hq) as (r & Epr & Hr & Hwf).
    destruct (read_user_slice_acts v Iv me pid q want Hq ltac:(lia)) as (t & v' & Es & Ha).
    exists t, tt, v'. unfold stateless. rewrite Es. split; [done|]. destruct (acts_next _ _ _ _ _ Iv Ha). split_and!; try done.
    unfold read_user_slice_step in Es. rewrite Epr in Es. simpl in Es.
    destruct (read_user_slice_turn_spec (live v) me (nonblock q) want r (counters v) Hwf ltac:(lia)) as (t1 & ? & ? & ? & Et & _ & Ht).
    rewrite Et in Es. injection Es as <- _. destruct t1 as [[out|]| |]; try done. destruct Ht as [-> _]. rewrite length_take. lia.
  - by exists res, st, w'.
Qed.

Lemma write_user_slice_returns src : returns (fun _ n => 0 <= n <= Z.of_nat (length src) /\
    (Z.of_nat (length src) <= PIPE_BUF -> n = Z.of_nat (length src))) (write_user_slice pid src me env w).
Proof using I Hp Henv.
  unfold write_user_slice. case_if; [exists (Some (Ok 0)), tt, w; split_and!; try done; lia|].
  match goal with |- returns ?Q _ => destruct (run_turns_ok (stateless (write_user_slice_step src me pid)) me pid (fun _ => True) Q)
    with (env := env) (st := tt) (w := w) (p := p) as (res & st & w' & ? & ? & _ & ?) end; try done.
  - intros [] v q Iv Hq _. destruct (pipe_ring_some v pid q Iv Hq) as (r & Epr & Hr & Hwf). assert (Hs : src <> []) by (by destruct src).
    destruct (write_user_slice_acts v Iv me pid q src Hq Hs) as (t & v' & Es & Ha).
    exists t, tt, v'. unfold stateless. rewrite Es. split; [done|]. destruct (acts_next _ _ _ _ _ Iv Ha). split_and!; try done.
    unfold write_user_slice_step in Es. rewrite Epr in Es. simpl in Es.
    destruct (write_user_slice_turn_spec (live v) me (nonblock q) src r (counters v) Hwf Hs) as (t1 & ? & ? & ? & Et & _ & Ht).
    rewrite Et in Es. injection Es as <- _. destruct t1 as [[out|]| |]; try done. simpl. split; [lia|tauto].
  - by exists res, st, w'.
Qed.

Lemma pipe_read_returns bufs : p_readable p = true ->
  returns (fun k n => 0 <= n <= total_len bufs /\ total_len (buffers k) = total_len bufs) (pipe_read pid bufs me env w).
Proof using I Hp Henv.
  intros Hread. unfold pipe_read. rewrite Hp. simpl. rewrite Hread. simpl.
  case_if; [exists (Some (Ok 0)), (start bufs), w; split_and!; try done; simpl; lia|].
  match goal with |- returns ?Q _ => destruct (run_turns_ok (read_step me pid) me pid (eq (start bufs)) Q)
    with (env := env) (st := start bufs) (w := w) (p := p) as (res & st & w' & ? & ? & _ & ?) end; try done.
  - intros k v q Iv Hq <-. destruct (pipe_ring_some v pid q Iv Hq) as (r & Epr & Hr & Hwf).
    assert (Ht0 : 0 < total_len (buffers (start bufs))) by (simpl; unfold total_len in *; lia).
    destruct (read_acts v Iv me pid q (start bufs) Hq (start_ok bufs) eq_refl Ht0) as (t & k' & v' & Es & Ha & Hk).
    exists t, k', v'. split; [done|]. destruct (acts_next _ _ _ _ _ Iv Ha). split_and!; try done.
    unfold read_step in Es. rewrite Epr in Es. simpl in Es.
    destruct (read_turn_spec (live v) me (nonblock q) (start bufs) r (counters v) Hwf (start_ok bufs) eq_refl Ht0)
      as (t1 & k1 & ? & ? & ? & Et & _ & _ & Hcat & Ht).
    rewrite Et in Es. injection Es as <- <- _. destruct t1 as [[n|]| |]; try done. destruct Ht as [Hn _]. simpl in Hn, Hcat.
    destruct (available_data r Hwf) as (Ea & _). unfold total_len in *. split; [lia|].
    rewrite Hcat, splice_length; [done|]. rewrite length_take. simpl. lia.
  - by exists res, st, w'.
Qed.

Lemma pipe_write_returns bufs : p_writable p = true ->
  returns (fun k n => 0 <= n <= total_len bufs /\ (0 < n \/ bufs = [] \/ total_len bufs = 0)) (pipe_write pid bufs me env w).
Proof using I Hp Henv.
  intros Hwrite. unfold pipe_write. rewrite Hp. simpl. rewrite Hwrite. simpl.
  case_if; [exists (Some (Ok 0)), (start bufs), w; split_and!; try done; simpl; lia|].
  match goal with |- returns ?Q _ => destruct (run_turns_ok (write_step me pid) me pid
    (fun k => cursor_ok k /\ buffers k = bufs /\ already k < total_len bufs) Q)
    with (env := env) (st := start bufs) (w := w) (p := p) as (res & st & w' & ? & ? & _ & ?) end; try done.
  - intros k v q Iv Hq (Hk & Eb & Hlt). destruct (pipe_ring_some v pid q Iv Hq) as (r & Epr & Hr & Hwf). rewrite <- Eb in Hlt.
    destruct (write_acts v Iv me pid q k Hq Hk Hlt) as (t & k' & v' & Es & Ha & Hk' & Eb' & Hle & Hm).
    exists t, k', v'. split; [done|]. destruct (acts_next _ _ _ _ _ Iv Ha). split_and!; try done.
    unfold write_step in Es. rewrite Epr in Es. simpl in Es.
    destruct (write_turn_spec (live v) me (nonblock q) k r (counters v) Hwf Hk Hlt) as (t1 & k1 & ? & ? & ? & Et & _ & _ & _ & _ & Ht).
    rewrite Et in Es. injection Es as <- <- _. rewrite <- Eb. destruct (cursor_bound _ Hk') as [Hb _]. rewrite Eb' in Hb.
    destruct t1 as [[n|]| |]; try done; [|subst k1; by split_and!].
    destruct Ht as [-> Ht]. split; [lia|]. left. destruct Ht as [->|]; [|lia]. destruct (cursor_bound _ Hk) as [Hb0 _]. lia.
  - split_and!; [apply start_ok|done|]. simpl. unfold total_len in *. lia.
  - by exists res, st, w'.
Qed.

End CallsOk.

(** ** A pipe with three bytes and a waiting reader's turn to come *)

Definition demo_tasks : PipeWorld := with_tasks {[7; 8]} ∅ no_pipes.1.
Definition demo_empty : PipeWorld := make_pipe 1 10 11 demo_tasks.
Definition demo_wait : PipeWorld := match read_user_slice_step 2 8 10 demo_empty with Some (_, w) => w | None => demo_empty end.
Definition demo_full : PipeWorld := match write_user_slice_step [5; 6; 7] 7 11 demo_wait with Some (_, w) => w | None => demo_wait end.
Definition demo_two : PipeWorld := make_pipe 2 20 21 demo_full.
Definition demo_hist : gmap Z (bytes * bytes * bool) := <[1 := ([], [], false)]> ∅.

Lemma demo_step_wait : exists w, read_user_slice_step 2 8 10 demo_empty = Some (Blocked, w) /\ demo_wait = w.
Proof. eexists. split; vm_compute; reflexivity. Qed.

Lemma demo_step_full : exists w, write_user_slice_step [5; 6; 7] 7 11 demo_wait = Some (Done (Ok 3), w) /\ demo_full = w.
Proof. eexists. split; vm_compute; reflexivity. Qed.

Lemma demo_pipes : pipes demo_empty !! 10 = Some (read_end_with_buffer 1) /\ pipes demo_wait !! 11 = Some (write_end_with_buffer 1) /\
  pipes demo_full !! 10 = Some (read_end_with_buffer 1) /\ pipes demo_full !! 11 = Some (write_end_with_buffer 1) /\
  pipes demo_wait !! 10 = Some (read_end_with_buffer 1).
Proof. by vm_compute. Qed.

Lemma demo_wait_reachable : preachable (demo_wait, hist_add 1 [] [] demo_hist).
Proof.
  eapply rtc_l; [apply (ps_tasks _ _ {[7; 8]} ∅)|]. eapply rtc_l; [apply (ps_make _ _ 1 10 11); by vm_compute|].
  eapply rtc_once. destruct demo_step_wait as (w & E & ->). exact (ps_read_slice _ _ 10 _ 2 8 _ _ (proj1 demo_pipes) ltac:(done) E).
Qed.

Lemma demo_full_step : pstep (demo_wait, hist_add 1 [] [] demo_hist) (demo_full, hist_add 1 [5; 6; 7] [] (hist_add 1 [] [] demo_hist)).
Proof.
  destruct demo_step_full as (w & E & ->). exact (ps_write_slice _ _ 11 _ [5; 6; 7] 7 _ _ (proj1 (proj2 demo_pipes)) ltac:(done) E).
Qed.

Lemma demo_full_reachable : preachable (demo_full, hist_add 1 [5; 6; 7] [] (hist_add 1 [] [] demo_hist)).
Proof. eapply rtc_r; [exact demo_wait_reachable|exact demo_full_step]. Qed.

Lemma demo_two_reachable : preachable (demo_two, <[2 := ([], [], false)]> (hist_add 1 [5; 6; 7] [] (hist_add 1 [] [] demo_hist))).
Proof. eapply rtc_r; [exact demo_full_reachable|]. apply (ps_make _ _ 2 20 21). by vm_compute. Qed.

(** ** The guarantees *)

(** C34: the stream.  In every reachable state, what the readers of a pipe took
    out followed by what is stored is what its writers put in, in this order,
    while there is a reader; afterwards it is a prefix of it. *)
Theorem pipe_stream s id r : preachable s -> rings s.1 !! id = Some r ->
  exists i o b, s.2 !! id = Some (i, o, b) /\ (o ++ contents r) `prefix_of` i /\
    (read_end_open r = true -> i = o ++ contents r) /\ Z.of_nat (length (contents r)) <= capacity r.
Proof.
  intros Hs Hr. destruct (preachable_inv s Hs) as [I H]. destruct (H id r Hr) as (i & o & b & ? & ? & ? & _).
  exists i, o, b. split_and!; try done. by apply available_data, (wi_ring _ I id).
Qed.

Lemma pipe_stream_witness : exists r i o b, rings demo_full !! 1 = Some r /\
  hist_add 1 [5; 6; 7] [] (hist_add 1 [] [] demo_hist) !! 1 = Some (i, o, b) /\ i = o ++ contents r.
Proof.
  destruct (rings demo_full !! 1) as [r|] eqn:Er; [|by vm_compute in Er].
  destruct (pipe_stream _ 1 r demo_full_reachable Er) as (i & o & b & Eh & _ & Hopen & _). exists r, i, o, b.
  split; [done|]. split; [exact Eh|]. apply Hopen. vm_compute in Er. injection Er as <-. reflexivity.
Defined.

(** C35: wake-ups.  A task that waits to read waits on an empty pipe that has a
    writer; one that waits to write waits on a pipe with a reader and less than
    PIPE_BUF bytes of space, unless the capacity of the pipe was changed; and a
    step that takes a live task off a wait queue wakes it. *)
Theorem pipe_no_lost_wakeup s s' id r : preachable s -> pstep s s' -> rings s.1 !! id = Some r ->
  reader_ok r /\ ((s.2 !! id) ≫= (fun h => Some h.2) = Some false -> writer_ok r) /\
  exists new, woken s'.1 = woken s.1 ++ new /\
    forall r' t, rings s'.1 !! id = Some r' -> t ∈ live s.1 ->
      (t ∈ read_waiters r -> t ∈ read_waiters r' \/ t ∈ new) /\ (t ∈ write_waiters r -> t ∈ write_waiters r' \/ t ∈ new).
Proof.
  intros Hs Hstep Hr. destruct (preachable_inv s Hs) as [I H]. split; [by apply (wi_ring _ I id)|].
  destruct (H id r Hr) as (i & o & b & Eh & _ & _ & Hb). split.
  - rewrite Eh. simpl. intros [= ->]. auto.
  - destruct (step_waits s s' I Hstep) as (new & Ew & Hw). exists new. split; [done|]. intros r' t Hr' Ht. by apply (Hw id r r' t).
Qed.

(** The reader that waits is woken when the bytes are written. *)
Lemma pipe_no_lost_wakeup_witness : exists r, rings demo_wait !! 1 = Some r /\ 8 ∈ read_waiters r /\ reader_ok r /\
  exists new, woken demo_full = woken demo_wait ++ new /\ 8 ∈ new.
Proof.
  destruct (rings demo_wait !! 1) as [r|] eqn:Er; [|by vm_compute in Er].
  destruct (pipe_no_lost_wakeup _ _ 1 r demo_wait_reachable demo_full_step Er) as (Hok & _ & new & Ew & Hw). exists r.
  assert (Hin : 8 ∈ read_waiters r) by (vm_compute in Er; injection Er as <-; by left). split; [done|]. split; [done|]. split; [done|].
  exists new. split; [exact Ew|]. simpl in Hw. destruct (rings demo_full !! 1) as [r'|] eqn:Er'; [|by vm_compute in Er'].
  destruct (Hw r' 8 eq_refl) as [H _]; [by vm_compute|]. destruct (H Hin) as [H'|]; [|done].
  exfalso. vm_compute in Er'. injection Er' as <-. simpl in H'. by apply elem_of_nil in H'.
Defined.

(** C36: what a pipe holds.  In every reachable state a slot of a ring holds a
    page, of PAGE_SIZE bytes, exactly when there is data in it; an end of a ring is open
    exactly when an object is that end, and some end is open; the counters of
    pages are those of all rings. *)
Theorem pipe_pages_exact s : preachable s ->
  (forall id r, rings s.1 !! id = Some r -> wf_ring r /\ (read_end_open r = true <-> read_end_of s.1 id) /\
    (write_end_open r = true <-> write_end_of s.1 id) /\ (read_end_open r = true \/ write_end_open r = true)) /\
  usize (PIPE_CURRENT_PAGES (counters s.1)) = usize (pages_total (rings s.1)) /\
  usize (PIPE_PAGE_ALLOC_COUNT (counters s.1) - PIPE_PAGE_DROP_COUNT (counters s.1)) = usize (pages_total (rings s.1)).
Proof.
  intros Hs. destruct (preachable_inv s Hs) as [I _]. split; [|split; [apply (wi_current _ I)|apply (wi_balance _ I)]].
  intros id r Hr. split; [by apply (wi_ring _ I id)|]. split; [by apply (wi_read _ I)|]. split; [by apply (wi_write _ I)|]. by apply (wi_open _ I id).
Qed.

Lemma pipe_pages_exact_witness : PIPE_CURRENT_PAGES (counters demo_full) = 1 /\ usize 1 = usize (pages_total (rings demo_full)).
Proof.
  destruct (pipe_pages_exact _ demo_full_reachable) as (_ & H & _). split; [by vm_compute|]. exact H.
Defined.

(** whole calls.  Whatever the other tasks do meanwhile, as long as they
    leave the end of the call in place, a call on it does not panic and leaves
    the invariant; a count returned is in range, a write of at most PIPE_BUF
    bytes from one slice returns all of them. *)
Theorem pipe_calls_return s pid p me env : preachable s -> pipes s.1 !! pid = Some p -> Forall (keeps_end pid) env ->
  (forall want, 0 <= want -> returns (fun _ out => (length out <= Z.to_nat want)%nat) (read_user_slice pid want me env s.1)) /\
  (forall src, returns (fun _ n => 0 <= n <= Z.of_nat (length src) /\
      (Z.of_nat (length src) <= PIPE_BUF -> n = Z.of_nat (length src))) (write_user_slice pid src me env s.1)) /\
  (p_readable p = true -> forall bufs, returns (fun k n => 0 <= n <= total_len bufs /\ total_len (buffers k) = total_len bufs)
      (pipe_read pid bufs me env s.1)) /\
  (p_writable p = true -> forall bufs, returns (fun _ n => 0 <= n <= total_len bufs /\ (0 < n \/ bufs = [] \/ total_len bufs = 0))
      (pipe_write pid bufs me env s.1)).
Proof.
  intros Hs Hp He. destruct (preachable_inv s Hs) as [I _]. split_and!; intros.
  - by apply (read_user_slice_returns s.1 I pid p).
  - by apply (write_user_slice_returns s.1 I pid p).
  - by apply (pipe_read_returns s.1 I pid p).
  - by apply (pipe_write_returns s.1 I pid p).
Qed.

Lemma pipe_calls_return_witness :
  returns (fun k n => 0 <= n <= 3 /\ total_len (buffers k) = 3) (pipe_read 10 [[0; 0]; [0]] 8 [] demo_full).
Proof.
  destruct (pipe_calls_return _ 10 _ 8 [] demo_full_reachable (proj1 (proj2 (proj2 demo_pipes))) (Forall_nil_2 _)) as (_ & _ & H & _).
  exact (H eq_refl [[0; 0]; [0]]).
Defined.

(** a read takes the oldest bytes, as many as are there or fit, and no
    others; end of file is reported exactly when the pipe is empty and has no
    writer; an empty pipe with a writer gives EAGAIN or, for a blocking
    descriptor, puts the task on the wait queue. *)
Theorem pipe_read_exact s pid p want me : preachable s -> pipes s.1 !! pid = Some p -> 0 < want ->
  exists r r' t w', rings s.1 !! p_buffer p = Some r /\ read_user_slice_step want me pid s.1 = Some (t, w') /\
    rings w' = <[p_buffer p := r']> (rings s.1) /\ contents r = turn_out t ++ contents r' /\
    match t with
    | Done (Ok bs) => bs = take (Z.to_nat want) (contents r) /\ (bs = [] -> contents r = [] /\ write_end_open r = false)
    | Done (Err e) => e = EAGAIN /\ nonblock p = true /\ contents r = [] /\ write_end_open r = true
    | Blocked => nonblock p = false /\ contents r = [] /\ write_end_open r = true /\ (me ∈ live s.1 -> me ∈ read_waiters r')
    | Again => False
    end.
Proof.
  intros Hs Hp Hw. destruct (preachable_inv s Hs) as [I _]. destruct (pipe_ring_some _ pid p I Hp) as (r & E & Hr & Hwf).
  destruct (read_user_slice_turn_spec (live s.1) me (nonblock p) want r (counters s.1) Hwf Hw) as (t & r' & c' & ws & Et & Hsec & Ht).
  exists r, r', t, (put_ring (p_buffer p) r' c' ws s.1). unfold read_user_slice_step. rewrite E. simpl. rewrite Et.
  split_and!; try done. pose proof (s_data _ _ _ _ _ _ _ _ Hsec) as Hd. by rewrite app_nil_r in Hd.
Qed.

Lemma pipe_read_exact_witness : exists w', read_user_slice_step 2 8 10 demo_full = Some (Done (Ok [5; 6]), w').
Proof.
  destruct (pipe_read_exact _ 10 _ 2 8 demo_full_reachable (proj1 (proj2 (proj2 demo_pipes))) ltac:(done)) as (r & r' & t & w' & Hr & E & _ & _ & Ht).
  exists w'. etransitivity; [exact E|]. apply (f_equal (option_map fst)) in E. vm_compute in E. injection E as <-. reflexivity.
Defined.

(** a write from one slice puts a prefix at the end of the pipe and nothing
    else; up to PIPE_BUF bytes are written whole or not at all; EPIPE is
    reported exactly when there is no reader, with nothing written and the
    signal sent. *)
Theorem pipe_write_exact s pid p src me : preachable s -> pipes s.1 !! pid = Some p -> src <> [] ->
  exists r r' t w', rings s.1 !! p_buffer p = Some r /\ write_user_slice_step src me pid s.1 = Some (t, w') /\
    rings w' = <[p_buffer p := r']> (rings s.1) /\ contents r' = contents r ++ take (turn_len t) src /\
    sigpipe w' = sigpipe s.1 ++ (if read_end_open r then [] else [me]) /\
    match t with
    | Done (Ok n) => read_end_open r = true /\ 0 < n <= Z.of_nat (length src) /\ (Z.of_nat (length src) <= PIPE_BUF -> n = Z.of_nat (length src))
    | Done (Err e) => (e = EPIPE /\ read_end_open r = false) \/
        (e = EAGAIN /\ nonblock p = true /\ read_end_open r = true /\ available_write r < Z.of_nat (length src))
    | Blocked => nonblock p = false /\ read_end_open r = true /\ available_write r < Z.of_nat (length src) /\ available_write r < PIPE_BUF
    | Again => False
    end.
Proof.
  intros Hs Hp Hne. destruct (preachable_inv s Hs) as [I _]. destruct (pipe_ring_some _ pid p I Hp) as (r & E & Hr & Hwf).
  destruct (write_user_slice_turn_spec (live s.1) me (nonblock p) src r (counters s.1) Hwf Hne) as (t & r' & c' & ws & Et & Hsec & Ht).
  exists r, r', t, (sigpipe_if (turn_epipe t) me (put_ring (p_buffer p) r' c' ws s.1)). unfold write_user_slice_step. rewrite E. simpl. rewrite Et.
  assert (Hopen : read_end_open r = negb (turn_epipe t)).
  { unfold write_user_slice_turn, all_read_ends_closed in Et. destruct (read_end_open r); simpl in Et; [|by injection Et as <- _ _ _].
    destruct (_ || _); [destruct (nonblock p); by injection Et as <- _ _ _|]. destruct (write_slice _ _ _) as [[[n r1] c1]|]; [|done].
    destruct (0 <? n); by injection Et as <- _ _ _. }
  destruct (sigpipe_if_same (turn_epipe t) me (put_ring (p_buffer p) r' c' ws s.1)) as (-> & _).
  pose proof (s_data _ _ _ _ _ _ _ _ Hsec) as Hd. simpl in Hd. split_and!; try done.
  - rewrite <- Hd. by destruct t as [[]| |].
  - rewrite Hopen. destruct (turn_epipe t); simpl; [done|by rewrite app_nil_r].
  - destruct t as [[n|e]| |]; try tauto. destruct Ht as [?|(-> & ? & ?)]; [by left|right; by split_and!].
Qed.

Lemma pipe_write_exact_witness : exists w', write_user_slice_step [9] 7 11 demo_full = Some (Done (Ok 1), w').
Proof.
  destruct (pipe_write_exact _ 11 _ [9] 7 demo_full_reachable (proj1 (proj2 (proj2 (proj2 demo_pipes)))) ltac:(done)) as (r & r' & t & w' & Hr & E & _).
  exists w'. etransitivity; [exact E|]. apply (f_equal (option_map fst)) in E. vm_compute in E. injection E as <-. reflexivity.
Defined.

(** splicing from one pipe to another moves the oldest bytes of the first to
    the end of the second: as many as asked for, as are there and as fit; with
    no reader on the second nothing moves.  No other pipe changes. *)
Theorem pipe_transfer_exact s input output ri ro len me : preachable s -> rings s.1 !! input = Some ri ->
  rings s.1 !! output = Some ro -> input <> output -> 0 <= len ->
  exists res ri' ro' w', transfer_to input output len me s.1 = Some (res, w') /\
    rings w' = <[output := ro']> (<[input := ri']> (rings s.1)) /\
    contents ri = take (res_len res) (contents ri) ++ contents ri' /\
    contents ro' = contents ro ++ take (res_len res) (contents ri) /\
    (if read_end_open ro then res = Ok (Z.min (Z.min len (available_read ri)) (available_write ro)) else res = Err EPIPE).
Proof.
  intros Hs Hi Ho Hne Hl. destruct (preachable_inv s Hs) as [I _].
  destruct (transfer_acts s.1 I me input output ri ro len Hi Ho Hne Hl) as (res & w1 & w' & E & Ha1 & Ha2 & Hres). cbv zeta in Ha1, Ha2.
  destruct Ha1 as [r1 ri' c1 ws1 b1 me1 Hi1 S1]. destruct Ha2 as [r2 ro' c2 ws2 b2 me2 Ho2 S2].
  destruct (sigpipe_if_same b1 me1 (put_ring input ri' c1 ws1 s.1)) as (Er1 & _).
  destruct (sigpipe_if_same b2 me2 (put_ring output ro' c2 ws2 (sigpipe_if b1 me1 (put_ring input ri' c1 ws1 s.1)))) as (Er2 & _).
  rewrite Er1 in Ho2. simpl in Ho2, Er2. rewrite lookup_insert_ne in Ho2 by done. rewrite Er1 in Er2. simplify_eq.
  eexists res, ri', ro', _. split; [exact E|]. split; [exact Er2|].
  pose proof (s_data _ _ _ _ _ _ _ _ S1) as D1. pose proof (s_data _ _ _ _ _ _ _ _ S2) as D2. rewrite app_nil_r in D1. simpl in D2. by split_and!.
Qed.

Lemma pipe_transfer_exact_witness : exists res w', transfer_to 1 2 100 7 demo_two = Some (res, w') /\ res = Ok 3.
Proof.
  destruct (rings demo_two !! 1) as [ri|] eqn:Ei; [|by vm_compute in Ei]. destruct (rings demo_two !! 2) as [ro|] eqn:Eo; [|by vm_compute in Eo].
  destruct (pipe_transfer_exact _ 1 2 ri ro 100 7 demo_two_reachable Ei Eo ltac:(done) ltac:(done)) as (res & ri' & ro' & w' & E & _ & _ & _ & Hres).
  exists res, w'. split; [exact E|]. vm_compute in Ei, Eo. injection Ei as <-. injection Eo as <-. simpl in Hres. rewrite Hres. by vm_compute.
Defined.



(** ** Where the calls fall short *)

Definition world_of {A} (o : option (A * PipeWorld)) (w : PipeWorld) : PipeWorld := match o with Some (_, w) => w | None => w end.

(** A pipe of 4096 bytes with room for one more. *)
Definition small_pipe : PipeWorld := world_of (set_pipe_capacity 4096 1 demo_empty) demo_empty.
Definition almost_full : PipeWorld := world_of (write_user_slice_step (replicate 4095 1) 7 11 small_pipe) small_pipe.

(** A write of two bytes from one slice waits for room for both; from two slices
    it stores the first and goes on waiting: it is not atomic although it is at
    most PIPE_BUF bytes long. *)
Lemma split_write_not_atomic :
  option_map fst (write_user_slice_step [2; 3] 7 11 almost_full) = Some Blocked /\
  option_map (fun x => (x.1.1, already x.1.2)) (write_step 7 11 (start [[2]; [3]]) almost_full) = Some (Again, 1).
Proof. vm_compute. split; reflexivity. Qed.

(** The same write, interrupted before there is room for the second byte,
    reports EINTR although the first is in the pipe. *)
Lemma interrupted_write_forgets :
  option_map (fun x => (x.1.1, already x.1.2)) (pipe_write 11 [[2]; [3]] 7 [id; fun w => with_tasks (live w) {[7]} w] almost_full)
  = Some (Some (Err EINTR), 1).
Proof. vm_compute. reflexivity. Qed.

(** A writer that waits for room is not woken when the pipe grows. *)
Lemma growth_wakes_nobody :
  let blocked := world_of (write_user_slice_step [2; 3] 7 11 almost_full) almost_full in
  let grown := world_of (set_pipe_capacity 8192 1 blocked) blocked in
  woken grown = woken blocked /\
  option_map (fun r => (write_waiters r, available_write r)) (rings grown !! 1) = Some ([7], 4097).
Proof. vm_compute. split; reflexivity. Qed.
