(* ===== verification/TcpSock.v ===== *)
(** * TCP sockets: one socket (os/src/socket/tcp.rs)

    The state of a socket and the operations on it that need no other socket:
    sequence-number comparison, the receive queue and the queue of segments
    that arrived out of order, and the queue of segments to send again.

    A [Mutex] around a field is dropped: the operations hold the lock of the
    socket.  A waker is the number of the task it wakes. *)

From S2P Require Import Prelude SysErr NetState Tcp.

Definition EPHEMERAL_PORT_FIRST : Z := 49152.
Definition EPHEMERAL_PORT_COUNT : Z := 16384.
Definition TCP_CONNECT_TIMEOUT_US : Z := 10000000.
Definition TCP_INITIAL_RTO_US : Z := 500000.
Definition TCP_MAX_RTO_US : Z := 8000000.
Definition TCP_MAX_RETRIES : Z := 8.
Definition TCP_MAX_RETRANSMIT_SEGMENTS : nat := 128.
Definition TCP_SEND_WINDOW_SEGMENTS : nat := 48.
Definition TCP_MAX_OUT_OF_ORDER_SEGMENTS : nat := 32.
Definition TCP_SEND_WINDOW_TIMEOUT_US : Z := 30000000.
Definition TCP_RECENT_LISTENER_CLOSE_GRACE_US : Z := 2000000.

Module TcpSocketState.
Inductive t := Open | Bound | Listening | SynSent | SynReceived | Established
  | FinWait1 | FinWait2 | CloseWait | LastAck | Closed.
#[global] Instance eq_dec : EqDecision t.
Proof. solve_decision. Defined.
End TcpSocketState.
Abbreviation TcpSocketState := TcpSocketState.t (only parsing).

Record OutOfOrderSegment := mkOoo {
  oo_seq : Z; oo_payload : bytes; oo_src_ip : Z; oo_src_port : Z }.

Record RetransmitSegment := mkRtx {
  rx_seq : Z; rx_ack : Z; rx_flags : Z; rx_payload : bytes;
  last_sent_us : Z; rto_us : Z; retries : Z; needs_retransmit : bool }.

(** [PendingRetransmit] is [PendingTx] of the protocol layer. *)
Abbreviation PendingRetransmit := PendingTx (only parsing).

Record TcpSocket := mkTcpSocket {
  t_local_addr : option (Z * Z);
  t_remote_addr : option (Z * Z);
  t_state : TcpSocketState;
  send_seq : Z;
  recv_seq : Z;
  t_receive_queue : list (bytes * Z * Z);
  out_of_order_queue : list OutOfOrderSegment;
  retransmit_queue : list RetransmitSegment;
  so_error : option SysError;
  pending_fin_seq : option Z;
  accept_queue : list SockId;
  accept_waker : option Waker;
  recv_waker : option Waker }.

Section Setters.
Context (t : TcpSocket).
Definition with_addrs l r := mkTcpSocket l r (t_state t) (send_seq t) (recv_seq t) (t_receive_queue t)
  (out_of_order_queue t) (retransmit_queue t) (so_error t) (pending_fin_seq t) (accept_queue t) (accept_waker t) (recv_waker t).
Definition with_state s := mkTcpSocket (t_local_addr t) (t_remote_addr t) s (send_seq t) (recv_seq t) (t_receive_queue t)
  (out_of_order_queue t) (retransmit_queue t) (so_error t) (pending_fin_seq t) (accept_queue t) (accept_waker t) (recv_waker t).
Definition with_send_seq v := mkTcpSocket (t_local_addr t) (t_remote_addr t) (t_state t) v (recv_seq t) (t_receive_queue t)
  (out_of_order_queue t) (retransmit_queue t) (so_error t) (pending_fin_seq t) (accept_queue t) (accept_waker t) (recv_waker t).
Definition with_recv_seq v := mkTcpSocket (t_local_addr t) (t_remote_addr t) (t_state t) (send_seq t) v (t_receive_queue t)
  (out_of_order_queue t) (retransmit_queue t) (so_error t) (pending_fin_seq t) (accept_queue t) (accept_waker t) (recv_waker t).
Definition with_receive_queue v := mkTcpSocket (t_local_addr t) (t_remote_addr t) (t_state t) (send_seq t) (recv_seq t) v
  (out_of_order_queue t) (retransmit_queue t) (so_error t) (pending_fin_seq t) (accept_queue t) (accept_waker t) (recv_waker t).
Definition with_out_of_order v := mkTcpSocket (t_local_addr t) (t_remote_addr t) (t_state t) (send_seq t) (recv_seq t)
  (t_receive_queue t) v (retransmit_queue t) (so_error t) (pending_fin_seq t) (accept_queue t) (accept_waker t) (recv_waker t).
Definition with_retransmit v := mkTcpSocket (t_local_addr t) (t_remote_addr t) (t_state t) (send_seq t) (recv_seq t)
  (t_receive_queue t) (out_of_order_queue t) v (so_error t) (pending_fin_seq t) (accept_queue t) (accept_waker t) (recv_waker t).
Definition with_so_error v := mkTcpSocket (t_local_addr t) (t_remote_addr t) (t_state t) (send_seq t) (recv_seq t)
  (t_receive_queue t) (out_of_order_queue t) (retransmit_queue t) v (pending_fin_seq t) (accept_queue t) (accept_waker t) (recv_waker t).
Definition with_pending_fin v := mkTcpSocket (t_local_addr t) (t_remote_addr t) (t_state t) (send_seq t) (recv_seq t)
  (t_receive_queue t) (out_of_order_queue t) (retransmit_queue t) (so_error t) v (accept_queue t) (accept_waker t) (recv_waker t).
Definition with_accept_queue v := mkTcpSocket (t_local_addr t) (t_remote_addr t) (t_state t) (send_seq t) (recv_seq t)
  (t_receive_queue t) (out_of_order_queue t) (retransmit_queue t) (so_error t) (pending_fin_seq t) v (accept_waker t) (recv_waker t).
Definition with_accept_waker v := mkTcpSocket (t_local_addr t) (t_remote_addr t) (t_state t) (send_seq t) (recv_seq t)
  (t_receive_queue t) (out_of_order_queue t) (retransmit_queue t) (so_error t) (pending_fin_seq t) (accept_queue t) v (recv_waker t).
Definition with_recv_waker v := mkTcpSocket (t_local_addr t) (t_remote_addr t) (t_state t) (send_seq t) (recv_seq t)
  (t_receive_queue t) (out_of_order_queue t) (retransmit_queue t) (so_error t) (pending_fin_seq t) (accept_queue t) (accept_waker t) v.
End Setters.

(** ** Sequence numbers *)

(** [(a.wrapping_sub(b) as i32) < 0]. *)
Definition seq_before (a b : Z) : bool := signed 32 (a - b) <? 0.
Definition seq_after (a b : Z) : bool := seq_before b a.

Definition segment_consumes_sequence (flags : Z) (payload_len : nat) : bool :=
  (0 <? payload_len)%nat || has flags TCP_FLAG_SYN || has flags TCP_FLAG_FIN.

Definition segment_end_seq (seq flags : Z) (payload_len : nat) : Z :=
  let syn_fin := Z.b2z (has flags TCP_FLAG_SYN) + Z.b2z (has flags TCP_FLAG_FIN) in
  u32 (u32 (seq + u32 (Z.of_nat payload_len)) + syn_fin).

Definition end_seq (seg : RetransmitSegment) : Z := segment_end_seq (rx_seq seg) (rx_flags seg) (length (rx_payload seg)).

(** ** Life of a socket *)

(** [TcpSocket::new], with the initial sequence number. *)
Definition tcp_socket_new (iss : Z) : TcpSocket :=
  mkTcpSocket None None TcpSocketState.Open iss 0 [] [] [] None None [] None None.

Definition tcp_bind (addr port : Z) (t : TcpSocket) : TcpSocket * SysResult unit :=
  match t_local_addr t with
  | Some _ => (t, Err EINVAL)
  | None => (with_state (with_addrs t (Some (addr, port)) (t_remote_addr t)) TcpSocketState.Bound, Ok tt)
  end.

Definition tcp_listen (backlog : Z) (t : TcpSocket) : TcpSocket * SysResult unit :=
  match t_local_addr t with
  | None => (t, Err EINVAL)
  | Some _ => if backlog =? 0 then (t, Err EINVAL) else (with_state t TcpSocketState.Listening, Ok tt)
  end.

(** ** Receiving *)

(** [recv_from]: the buffer with what was stored. *)
Definition tcp_recv_from (buf : bytes) (t : TcpSocket) : TcpSocket * bytes * SysResult (nat * Z * Z) :=
  match t_receive_queue t with
  | [] => (t, buf, Err EAGAIN)
  | (payload, src_ip, src_port) :: queue =>
      let copy_len := Nat.min (length buf) (length payload) in
      let queue := if (copy_len <? length payload)%nat then (drop copy_len payload, src_ip, src_port) :: queue else queue in
      (with_receive_queue t queue, splice 0 (take copy_len payload) buf, Ok (copy_len, src_ip, src_port))
  end.

(** The loop over the slices: from byte [dst_skip] of the remaining slices on,
    the bytes of [payload] from [src_copied] on are stored. *)
Fixpoint fill_slices (bufs : list bytes) (payload : bytes) (dst_skip copied src_copied dst_len : nat)
  : list bytes * nat * nat :=
  match bufs with
  | [] => ([], copied, src_copied)
  | slice_ :: rest =>
      if (dst_len <=? copied)%nat || (length payload <=? src_copied)%nat then (slice_ :: rest, copied, src_copied)
      else if (length slice_ <=? dst_skip)%nat then
        let '(rest, copied, src_copied) := fill_slices rest payload (dst_skip - length slice_) copied src_copied dst_len in
        (slice_ :: rest, copied, src_copied)
      else
        let take_ := Nat.min (length slice_ - dst_skip) (length payload - src_copied) in
        let '(rest, copied, src_copied') := fill_slices rest payload 0 (copied + take_) (src_copied + take_) dst_len in
        (splice dst_skip (slice src_copied (src_copied + take_) payload) slice_ :: rest, copied, src_copied')
  end.

(** The loop over the queue; [src] is the source of the first payload. *)
Fixpoint recv_loop (queue : list (bytes * Z * Z)) (bufs : list bytes) (copied dst_len : nat) (src : Z * Z)
  : list (bytes * Z * Z) * list bytes * nat * (Z * Z) :=
  match queue with
  | [] => ([], bufs, copied, src)
  | (payload, src_ip, src_port) :: rest =>
      if (copied <? dst_len)%nat then
        let src := if (copied =? 0)%nat then (src_ip, src_port) else src in
        let '(bufs, copied, src_copied) := fill_slices bufs payload copied copied 0 dst_len in
        if (src_copied <? length payload)%nat
        then ((drop src_copied payload, src_ip, src_port) :: rest, bufs, copied, src)
        else recv_loop rest bufs copied dst_len src
      else (queue, bufs, copied, src)
  end.

Definition tcp_recv_user_buffer (bufs : list bytes) (t : TcpSocket) : TcpSocket * list bytes * SysResult (nat * Z * Z) :=
  if bool_decide (t_receive_queue t = []) then (t, bufs, Err EAGAIN)
  else
    let '(queue, bufs, copied, src) := recv_loop (t_receive_queue t) bufs 0 (length (concat bufs)) (0, 0) in
    (with_receive_queue t queue, bufs, Ok (copied, fst src, snd src)).

Definition enqueue_payload (payload : bytes) (src_ip src_port : Z) (t : TcpSocket) : TcpSocket :=
  with_receive_queue t (t_receive_queue t ++ [(payload, src_ip, src_port)]).

Definition insert_out_of_order (seq : Z) (payload : bytes) (src_ip src_port : Z) (t : TcpSocket) : TcpSocket :=
  let queue := out_of_order_queue t in
  if bool_decide (payload = []) then t
  else if existsb (fun seg => (oo_seq seg =? seq) && (length (oo_payload seg) =? length payload)%nat) queue then t
  else if (TCP_MAX_OUT_OF_ORDER_SEGMENTS <=? length queue)%nat then t
  else
    let pos := match position (fun seg => seq_before seq (oo_seq seg)) queue with Some p => p | None => length queue end in
    with_out_of_order t (take pos queue ++ mkOoo seq payload src_ip src_port :: drop pos queue).

(** [take_next_out_of_order]: the loop over the queue looks at its first segment. *)
Fixpoint take_next (queue : list OutOfOrderSegment) (recv : Z) : list OutOfOrderSegment * option OutOfOrderSegment :=
  match queue with
  | [] => ([], None)
  | seg :: rest =>
      let end_ := u32 (oo_seq seg + u32 (Z.of_nat (length (oo_payload seg)))) in
      if negb (seq_after end_ recv) then take_next rest recv
      else if negb (seq_after (oo_seq seg) recv) then (rest, Some seg)
      else (queue, None)
  end.

(** [drain_out_of_order]; every turn takes a segment off the queue. *)
Fixpoint drain_out_of_order (fuel : nat) (delivered : bool) (t : TcpSocket) : TcpSocket * bool :=
  match fuel with
  | O => (t, delivered)
  | S fuel =>
      match take_next (out_of_order_queue t) (recv_seq t) with
      | (queue, None) => (with_out_of_order t queue, delivered)
      | (queue, Some segment) =>
          let t := with_out_of_order t queue in
          let recv := recv_seq t in
          let deliver (seq : Z) (payload : bytes) :=
            if negb (seq =? recv) then
              (insert_out_of_order seq payload (oo_src_ip segment) (oo_src_port segment) t, delivered)
            else
              let t := with_recv_seq t (u32 (recv + u32 (Z.of_nat (length payload)))) in
              drain_out_of_order fuel true (enqueue_payload payload (oo_src_ip segment) (oo_src_port segment) t) in
          if seq_before (oo_seq segment) recv then
            let trim := Z.to_nat (u32 (recv - oo_seq segment)) in
            if (length (oo_payload segment) <=? trim)%nat then drain_out_of_order fuel delivered t
            else deliver recv (drop trim (oo_payload segment))
          else deliver (oo_seq segment) (oo_payload segment)
      end
  end.

Definition consume_pending_fin_if_ready (t : TcpSocket) : TcpSocket * bool :=
  match pending_fin_seq t with
  | None => (t, false)
  | Some fin_seq =>
      if fin_seq =? recv_seq t
      then (with_state (with_recv_seq (with_pending_fin t None) (u32 (recv_seq t + 1))) TcpSocketState.CloseWait, true)
      else if seq_before fin_seq (recv_seq t) then (with_pending_fin t None, false)
      else (t, false)
  end.

Definition ingest_payload (seq : Z) (payload : bytes) (src_ip src_port : Z) (t : TcpSocket) : TcpSocket * bool :=
  if bool_decide (payload = []) then (t, false)
  else
    let recv := recv_seq t in
    let end_ := u32 (seq + u32 (Z.of_nat (length payload))) in
    let accept (seq : Z) (data : bytes) :=
      if negb (seq =? recv) then (t, false)
      else
        let t := enqueue_payload data src_ip src_port (with_recv_seq t (u32 (recv + u32 (Z.of_nat (length data))))) in
        (fst (drain_out_of_order (S (length (out_of_order_queue t))) false t), true) in
    if seq_after seq recv then (insert_out_of_order seq payload src_ip src_port t, false)
    else if seq_before seq recv then
      if negb (seq_after end_ recv) then (t, false)
      else
        let trim := Z.to_nat (u32 (recv - seq)) in
        if (length payload <=? trim)%nat then (t, false) else accept recv (drop trim payload)
    else accept seq payload.

(** ** Sending again *)

Definition track_segment (seq ack flags : Z) (payload : bytes) (now : Z) (t : TcpSocket) : TcpSocket :=
  if negb (segment_consumes_sequence flags (length payload)) then t
  else
    let queue := retransmit_queue t in
    let queue := if (TCP_MAX_RETRANSMIT_SEGMENTS <=? length queue)%nat then drop 1 queue else queue in
    with_retransmit t (queue ++ [mkRtx seq ack flags payload now TCP_INITIAL_RTO_US 0 false]).

Definition untrack_segment (seq : Z) (t : TcpSocket) : TcpSocket :=
  with_retransmit t (List.filter (fun seg => negb (rx_seq seg =? seq)) (retransmit_queue t)).

Definition take_error (t : TcpSocket) : TcpSocket * option SysError := (with_so_error t None, so_error t).

Definition ack_retransmit_queue (ack : Z) (t : TcpSocket) : TcpSocket :=
  with_retransmit t (List.filter (fun seg => seq_after (end_seq seg) ack) (retransmit_queue t)).

(** [flags & !mask], for a [u8]. *)
Definition clear_flags (flags mask : Z) : Z := Z.land flags (255 - mask).

(** The loop of [append_retransmit_chunks]. *)
Fixpoint chunk_loop (fuel : nat) (lip lport rip rport : Z) (seg : RetransmitSegment) (mss offset : nat) : list PendingRetransmit :=
  match fuel with
  | O => []
  | S fuel =>
      if (offset <? length (rx_payload seg))%nat then
        let end_ := Nat.min (offset + mss) (length (rx_payload seg)) in
        let first := (offset =? 0)%nat in
        let last := (end_ =? length (rx_payload seg))%nat in
        let flags := rx_flags seg in
        let flags := if negb first then clear_flags flags TCP_FLAG_SYN else flags in
        let flags := if negb last then clear_flags flags (Z.lor TCP_FLAG_FIN TCP_FLAG_PSH) else flags in
        let syn_advance := Z.b2z (has (rx_flags seg) TCP_FLAG_SYN) in
        mkTx lip rip lport rport
          (if first then rx_seq seg else u32 (u32 (rx_seq seg + syn_advance) + u32 (Z.of_nat offset)))
          (rx_ack seg) flags (slice offset end_ (rx_payload seg))
        :: chunk_loop fuel lip lport rip rport seg mss end_
      else []
  end.

Definition retransmit_chunks (lip lport rip rport : Z) (seg : RetransmitSegment) (mss : nat) : list PendingRetransmit :=
  let mss := Nat.max mss 1 in
  if (length (rx_payload seg) <=? mss)%nat
  then [mkTx lip rip lport rport (rx_seq seg) (rx_ack seg) (rx_flags seg) (rx_payload seg)]
  else chunk_loop (length (rx_payload seg)) lip lport rip rport seg mss 0.

(** [saturating_mul] and [saturating_add], to [w] bits. *)
Definition saturate (w z : Z) : Z := Z.min z (2 ^ w - 1).

(** A segment that is sent again. *)
Definition resent (now : Z) (seg : RetransmitSegment) : RetransmitSegment :=
  if needs_retransmit seg
  then mkRtx (rx_seq seg) (rx_ack seg) (rx_flags seg) (rx_payload seg) now TCP_INITIAL_RTO_US 0 false
  else mkRtx (rx_seq seg) (rx_ack seg) (rx_flags seg) (rx_payload seg) now
         (Z.min (saturate 64 (rto_us seg * 2)) TCP_MAX_RTO_US) (saturate 8 (retries seg + 1)) false.
