(* ===== verification/TcpSockSpec.v ===== *)
(** * TCP sockets: reassembly of the byte stream

    The peer sends a stream of bytes; the byte at offset [i] has the sequence
    number [isn + i] modulo 2^32.  Segments carry pieces of the stream; they
    arrive in any order, overlapping, repeated or not at all.  This file shows
    that what a socket hands to its user is the stream from its start, without
    gap, change or repetition, and that nothing that has arrived is held back. *)

From Stdlib Require Import Sorted.
From stdpp Require Import sorting.
From S2P Require Import Prelude SysErr NetState Tcp TcpSock.

(** ** Sequence numbers *)

Definition seq_at (isn i : Z) : Z := u32 (isn + i).

Lemma i32_small a : - 2 ^ 31 <= a < 2 ^ 31 -> signed 32 a = a.
Proof. intros H. unfold signed, wrap. change (2 ^ (32 - 1)) with (2 ^ 31). case_if; zlia. Qed.

Lemma i32_wrap a : signed 32 (u32 a) = signed 32 a.
Proof. unfold signed. by rewrite wrap_wrap. Qed.

Lemma seq_at_diff isn a b : - 2 ^ 31 <= a - b < 2 ^ 31 -> signed 32 (seq_at isn a - seq_at isn b) = a - b.
Proof.
  intros H. rewrite <- (i32_small (a - b)) by done. rewrite <- i32_wrap, <- (i32_wrap (a - b)).
  unfold seq_at, wrap. f_equal. zlia.
Qed.

(** Less than half the space apart, sequence numbers compare like offsets. *)
Lemma seq_before_at isn a b : - 2 ^ 31 < a - b < 2 ^ 31 -> seq_before (seq_at isn a) (seq_at isn b) = (a <? b).
Proof.
  intros H. unfold seq_before. rewrite seq_at_diff by lia. destruct (a <? b) eqn:E; to_prop; [apply Z.ltb_lt|apply Z.ltb_ge]; lia.
Qed.

Lemma seq_after_at isn a b : - 2 ^ 31 < a - b < 2 ^ 31 -> seq_after (seq_at isn a) (seq_at isn b) = (b <? a).
Proof. intros H. apply seq_before_at. lia. Qed.

Lemma seq_at_add isn a n : u32 (seq_at isn a + u32 n) = seq_at isn (a + n).
Proof. unfold seq_at. rewrite wrap_add_l, wrap_add_r. f_equal. lia. Qed.

Lemma seq_at_sub isn a b : 0 <= a - b < 2 ^ 32 -> u32 (seq_at isn a - seq_at isn b) = a - b.
Proof. intros H. unfold seq_at, wrap. zlia. Qed.

Lemma seq_at_inj isn a b : - 2 ^ 32 < a - b < 2 ^ 32 -> seq_at isn a = seq_at isn b -> a = b.
Proof. unfold seq_at, wrap. intros H E. zlia. Qed.

(** ** Pieces of the stream *)

Section Stream.
Context (stream : bytes) (isn : Z).

(** [payload] is the stream from [off] on. *)
Definition piece (off : nat) (payload : bytes) : Prop := payload `prefix_of` drop off stream.

Lemma piece_bound off payload : piece off payload -> payload <> [] -> (off + length payload <= length stream)%nat.
Proof. intros [k E] Hne. apply (f_equal length) in E. rewrite length_app, length_drop in E. destruct payload; [done|]. simpl in *. lia. Qed.

Lemma piece_drop off k payload : piece off payload -> (k <= length payload)%nat -> piece (off + k) (drop k payload).
Proof. intros [r E] Hk. exists r. rewrite <- drop_drop, E, drop_app_le by done. done. Qed.

Lemma piece_extend n payload : piece n payload -> (n <= length stream)%nat ->
  take n stream ++ payload = take (n + length payload) stream.
Proof.
  intros [r E] Hn. rewrite <- (take_drop n stream) at 2. rewrite E, take_app_ge by (rewrite length_take; lia).
  rewrite length_take, Nat.min_l by done. replace (n + length payload - n)%nat with (length payload) by lia.
  by rewrite take_app_length.
Qed.

(** ** The queue of segments out of order *)

(** The queue holds pieces, sorted by their offsets [offs]. *)
Definition holds (off : nat) (seg : OutOfOrderSegment) : Prop :=
  oo_seq seg = seq_at isn (Z.of_nat off) /\ piece off (oo_payload seg) /\ oo_payload seg <> [].

Definition seg_end (off : nat) (seg : OutOfOrderSegment) : nat := (off + length (oo_payload seg))%nat.

(** Everything in the queue is less than half the space around [n]. *)
Definition near (n off len : nat) : Prop :=
  Z.of_nat (off + len) - Z.of_nat n < 2 ^ 31 /\ Z.of_nat n - Z.of_nat off < 2 ^ 31 /\ Z.of_nat len < 2 ^ 31.

Record ooo_ok (n : nat) (offs : list nat) (queue : list OutOfOrderSegment) : Prop := {
  oo_holds : Forall2 holds offs queue;
  oo_near : Forall2 (fun off seg => near n off (length (oo_payload seg))) offs queue;
  oo_sorted : StronglySorted le offs }.

Lemma ooo_cons n off offs seg queue : ooo_ok n (off :: offs) (seg :: queue) <->
  holds off seg /\ near n off (length (oo_payload seg)) /\ Forall (le off) offs /\ ooo_ok n offs queue.
Proof.
  split.
  - intros [H1 H2 H3]. apply Forall2_cons in H1 as [? ?], H2 as [? ?]. apply StronglySorted_inv in H3 as [? ?]. by split_and!.
  - intros (? & ? & ? & [? ? ?]). split; by constructor.
Qed.

(** The receiver moves on, not past the end of a segment that starts earlier. *)
Lemma ooo_advance n n' low offs queue : ooo_ok n offs queue -> Forall (le low) offs -> (n <= n')%nat ->
  Z.of_nat n' - Z.of_nat low < 2 ^ 31 -> ooo_ok n' offs queue.
Proof.
  intros [H1 H2 H3] Hlow Hn Hd. split; [done| |done]. clear H1 H3. induction H2 as [|off seg offs queue Hx _ IH]; [constructor|].
  apply Forall_cons in Hlow as [Hl Hlow]. constructor; [|by apply IH]. unfold near in *. lia.
Qed.

(** The end of a held segment, as the code computes it. *)
Lemma holds_end off seg : holds off seg ->
  u32 (oo_seq seg + u32 (Z.of_nat (length (oo_payload seg)))) = seq_at isn (Z.of_nat (seg_end off seg)).
Proof. intros (-> & _). rewrite seq_at_add. f_equal. unfold seg_end. lia. Qed.

(** [take_next] drops what is stale and takes a segment that reaches over [n]. *)
Lemma take_next_spec n : forall queue offs, ooo_ok n offs queue ->
  exists stale_o stale offs' , Forall2 (fun off seg => (seg_end off seg <= n)%nat) stale_o stale /\
  match take_next queue (seq_at isn (Z.of_nat n)) with
  | (queue', None) => offs = stale_o ++ offs' /\ queue = stale ++ queue' /\ Forall (lt n) offs' /\ ooo_ok n offs' queue'
  | (queue', Some seg) => exists off, offs = stale_o ++ off :: offs' /\ queue = stale ++ seg :: queue' /\
      (off <= n < seg_end off seg)%nat /\ holds off seg /\ ooo_ok n offs' queue'
  end.
Proof.
  induction queue as [|seg queue IH]; intros offs Hok.
  { destruct Hok as [H _ _]. apply Forall2_nil_inv_r in H as ->. exists [], [], []. simpl. split; [constructor|].
    split_and!; try done. by split; constructor. }
  destruct offs as [|off offs]; [by destruct Hok as [H%Forall2_nil_cons_inv _ _]|].
  apply ooo_cons in Hok as (Hh & Hnear & Hle & Hok). cbn [take_next]. rewrite (holds_end off seg Hh).
  unfold near in Hnear. rewrite seq_after_at by (unfold seg_end; lia).
  destruct (Z.of_nat n <? Z.of_nat (seg_end off seg)) eqn:E1; cbn [negb]; to_prop.
  - rewrite (proj1 Hh), seq_after_at by lia. destruct (Z.of_nat n <? Z.of_nat off) eqn:E2; cbn [negb]; to_prop.
    + exists [], [], (off :: offs). simpl. split; [constructor|]. split_and!; try done.
      * constructor; [lia|]. eapply Forall_impl; [exact Hle|]. simpl. lia.
      * apply ooo_cons. by split_and!.
    + exists [], [], offs. simpl. split; [constructor|]. exists off. split_and!; try done; lia.
  - destruct (IH offs Hok) as (so & st & offs' & Hst & H). exists (off :: so), (seg :: st), offs'.
    split; [constructor; [lia|done]|]. destruct (take_next queue _) as [queue' [x|]].
    + destruct H as (o & -> & -> & ?). by exists o.
    + destruct H as (-> & -> & ?). done.
Qed.

(** ** The socket *)

Definition queued (t : TcpSocket) : bytes := concat ((fun e => e.1.1) <$> t_receive_queue t).

(** Fields that receiving data leaves alone. *)
Definition same_conn (t t' : TcpSocket) : Prop :=
  t_local_addr t' = t_local_addr t /\ t_remote_addr t' = t_remote_addr t /\ t_state t' = t_state t /\ send_seq t' = send_seq t /\
  retransmit_queue t' = retransmit_queue t /\ so_error t' = so_error t /\ pending_fin_seq t' = pending_fin_seq t /\
  accept_queue t' = accept_queue t /\ accept_waker t' = accept_waker t /\ recv_waker t' = recv_waker t.

Lemma same_conn_trans t1 t2 t3 : same_conn t1 t2 -> same_conn t2 t3 -> same_conn t1 t3.
Proof. unfold same_conn. intuition congruence. Qed.

(** [n] bytes have been received; [out] of them were read by the user. *)
Record rcv_ok (n : nat) (out : bytes) (t : TcpSocket) : Prop := {
  rc_seq : recv_seq t = seq_at isn (Z.of_nat n);
  rc_data : out ++ queued t = take n stream;
  rc_len : (n <= length stream)%nat;
  rc_ooo : exists offs, ooo_ok n offs (out_of_order_queue t) /\ Forall (lt n) offs }.

(** Byte [i] has been received or is held. *)
Definition covered (n : nat) (queue : list OutOfOrderSegment) (i : nat) : Prop :=
  (i < n)%nat \/ exists off seg, seg ∈ queue /\ holds off seg /\ near n off (length (oo_payload seg)) /\ (off <= i < seg_end off seg)%nat.

Lemma queued_enqueue p ip port t : queued (enqueue_payload p ip port t) = queued t ++ p.
Proof. unfold queued, enqueue_payload. simpl. rewrite fmap_app, concat_app. simpl. by rewrite app_nil_r. Qed.

Lemma ooo_lookup n offs queue seg : ooo_ok n offs queue -> seg ∈ queue -> exists off, off ∈ offs /\ holds off seg /\ near n off (length (oo_payload seg)).
Proof.
  intros [H1 H2 _] Hin. apply list_elem_of_lookup in Hin as [i Hi].
  destruct (Forall2_lookup_r _ _ _ _ _ H1 Hi) as (off & Ho & ?). destruct (Forall2_lookup_r _ _ _ _ _ H2 Hi) as (off' & Ho' & ?).
  simplify_eq. exists off. split; [by eapply list_elem_of_lookup_2|done].
Qed.

(** Offsets that hold the same segment near [n] are equal. *)
Lemma holds_inj n off off' seg : holds off seg -> holds off' seg -> near n off (length (oo_payload seg)) ->
  near n off' (length (oo_payload seg)) -> off = off'.
Proof.
  intros (E1 & _ & Hne) (E2 & _) N1 N2. unfold near in *. apply Nat2Z.inj, (seq_at_inj isn); [|congruence].
  destruct (oo_payload seg); [done|]. simpl in *. lia.
Qed.

Lemma covered_keep n n' offs queue seg off i : ooo_ok n offs queue -> ooo_ok n' offs queue -> seg ∈ queue ->
  holds off seg -> near n off (length (oo_payload seg)) -> (off <= i < seg_end off seg)%nat -> covered n' queue i.
Proof.
  intros Hn Hn' Hin Hh Hnear Hi. right. exists off, seg. split_and!; try done; try lia.
  apply list_elem_of_lookup in Hin as [k Hk]. destruct Hn as [H1 H2 _], Hn' as [_ H2' _].
  destruct (Forall2_lookup_r _ _ _ _ _ H1 Hk) as (o & Ho & Hho). destruct (Forall2_lookup_r _ _ _ _ _ H2 Hk) as (o' & Ho' & Hno).
  destruct (Forall2_lookup_r _ _ _ _ _ H2' Hk) as (o'' & Ho'' & Hno'). assert (o' = o) as -> by congruence. assert (o'' = o) as -> by congruence.
  by rewrite (holds_inj n off o seg).
Qed.

Lemma Forall2_in_r {A B} (P : A -> B -> Prop) (l : list A) (k : list B) y : Forall2 P l k -> y ∈ k -> exists x, x ∈ l /\ P x y.
Proof.
  intros H Hy. apply list_elem_of_lookup in Hy as [i Hi]. destruct (Forall2_lookup_r _ _ _ _ _ H Hi) as (x & Hx & ?).
  exists x. split; [by eapply list_elem_of_lookup_2|done].
Qed.

(** A stale segment holds nothing that has not been received. *)
Lemma stale_end n stale_o stale seg off : ooo_ok n stale_o stale -> Forall2 (fun off seg => (seg_end off seg <= n)%nat) stale_o stale ->
  seg ∈ stale -> holds off seg -> near n off (length (oo_payload seg)) -> (seg_end off seg <= n)%nat.
Proof.
  intros [H1 H2 _] Hst Hin Hh Hnear. apply list_elem_of_lookup in Hin as [k Hk].
  destruct (Forall2_lookup_r _ _ _ _ _ H1 Hk) as (o & Ho & Hho). destruct (Forall2_lookup_r _ _ _ _ _ H2 Hk) as (o' & Ho' & Hno).
  destruct (Forall2_lookup_r _ _ _ _ _ Hst Hk) as (o'' & Ho'' & He). assert (o' = o) as -> by congruence. assert (o'' = o) as -> by congruence.
  by rewrite (holds_inj n off o seg).
Qed.

Lemma ooo_app n offs1 offs2 q1 q2 : length offs1 = length q1 -> ooo_ok n (offs1 ++ offs2) (q1 ++ q2) ->
  ooo_ok n offs1 q1 /\ ooo_ok n offs2 q2 /\ (forall a b, a ∈ offs1 -> b ∈ offs2 -> (a <= b)%nat).
Proof.
  intros Hl [H1 H2 H3]. apply Forall2_app_inv in H1 as [? ?]; [|done]. apply Forall2_app_inv in H2 as [? ?]; [|done].
  apply StronglySorted_app in H3 as (Hc & ? & ?). split_and!; try by split. done.
Qed.

(** What a part of the receive path does to the state of the stream. *)
Record advances (out : bytes) (n : nat) (t : TcpSocket) (n' : nat) (t' : TcpSocket) : Prop := {
  ad_mono : (n <= n')%nat;
  ad_ok : rcv_ok n' out t';
  ad_same : same_conn t t';
  ad_covered i : covered n (out_of_order_queue t) i -> covered n' (out_of_order_queue t') i }.

(** One delivery: the bytes of the stream from [n] to [m]. *)
Lemma deliver_ok out n m data ip port t : recv_seq t = seq_at isn (Z.of_nat n) -> out ++ queued t = take n stream ->
  (n <= length stream)%nat -> piece n data -> data <> [] -> m = (n + length data)%nat ->
  let t' := enqueue_payload data ip port (with_recv_seq t (u32 (recv_seq t + u32 (Z.of_nat (length data))))) in
  recv_seq t' = seq_at isn (Z.of_nat m) /\ out ++ queued t' = take m stream /\ (m <= length stream)%nat /\ same_conn t t' /\
  out_of_order_queue t' = out_of_order_queue t.
Proof.
  intros Hr Hd Hn Hp Hne -> t'. split_and!; try done.
  - simpl. rewrite Hr, seq_at_add. f_equal. lia.
  - unfold t'. rewrite queued_enqueue, app_assoc. change (queued (with_recv_seq t _)) with (queued t). rewrite Hd.
    by apply piece_extend.
  - by apply piece_bound.
Qed.

(** The queue after a segment at [off] that reaches to [m] has been taken off it. *)
Lemma taken_ooo n off m offs stale_o stale seg queue : ooo_ok n (stale_o ++ off :: offs) (stale ++ seg :: queue) ->
  Forall2 (fun off seg => (seg_end off seg <= n)%nat) stale_o stale -> (off <= n < m)%nat -> m = seg_end off seg ->
  ooo_ok m offs queue /\ (forall i, covered n (stale ++ seg :: queue) i -> covered m queue i).
Proof.
  intros Hok Hst Hon ->. pose proof (Forall2_length _ _ _ Hst) as Hl. destruct (ooo_app _ _ _ _ _ Hl Hok) as (Hs & Hrest & _).
  apply ooo_cons in Hrest as (Hh & Hnear & Hle & Hok').
  assert (Hm : ooo_ok (seg_end off seg) offs queue).
  { apply (ooo_advance n _ off); try done; [lia|]. unfold near, seg_end in *. lia. }
  split; [done|]. intros i [Hi|(o & x & Hin & Hx & Hnx & Hi)]; [left; lia|].
  apply elem_of_app in Hin as [Hin|Hin]; [left; pose proof (stale_end n stale_o stale x o Hs Hst Hin Hx Hnx); lia|].
  apply elem_of_cons in Hin as [->|Hin].
  - rewrite <- (holds_inj n off o seg Hh Hx Hnear Hnx) in Hi. left. lia.
  - by apply (covered_keep n _ offs queue x o).
Qed.

Lemma drain_spec out : forall fuel t n offs d, (length (out_of_order_queue t) < fuel)%nat ->
  recv_seq t = seq_at isn (Z.of_nat n) -> out ++ queued t = take n stream -> (n <= length stream)%nat ->
  ooo_ok n offs (out_of_order_queue t) ->
  exists n', advances out n t n' (drain_out_of_order fuel d t).1.
Proof.
  induction fuel as [|fuel IH]; intros t n offs d Hf Hr Hd Hn Hok; [lia|]. cbn [drain_out_of_order]. rewrite Hr.
  destruct (take_next_spec n _ _ Hok) as (so & st & offs' & Hst & H). destruct (take_next _ _) as [queue' [seg|]].
  2:{ destruct H as (-> & Eq & Hlt & Hok'). exists n. split; [lia| |done|].
      - split; try done. by exists offs'.
      - rewrite Eq in *. intros i [Hi|(o & x & Hin & Hx & Hnx & Hi)]; [by left|].
        destruct (ooo_app _ _ _ _ _ (Forall2_length _ _ _ Hst) Hok) as (Hs & _ & _).
        apply elem_of_app in Hin as [Hin|Hin]; [left; pose proof (stale_end n so st x o Hs Hst Hin Hx Hnx); lia|].
        by apply (covered_keep n _ offs' queue' x o). }
  destruct H as (off & -> & Eq & Hon & Hh & Hok'). rewrite Eq in Hok.
  destruct (taken_ooo n off (seg_end off seg) offs' so st seg queue' Hok Hst ltac:(lia) eq_refl) as [Hokm Hcov].
  assert (Hq : (length queue' < fuel)%nat) by (rewrite Eq, length_app in Hf; simpl in Hf; lia).
  assert (Hgo : forall data, piece n data -> (n + length data)%nat = seg_end off seg -> forall d,
    let t1 := with_out_of_order t queue' in
    exists n', advances out n t n' (drain_out_of_order fuel d (enqueue_payload data (oo_src_ip seg) (oo_src_port seg)
      (with_recv_seq t1 (u32 (seq_at isn (Z.of_nat n) + u32 (Z.of_nat (length data))))))).1).
  { intros data Hp Hl d' t1. assert (Hne : data <> []) by (destruct data; [simpl in Hl; lia|done]).
    destruct (deliver_ok out n (seg_end off seg) data (oo_src_ip seg) (oo_src_port seg) t1 Hr Hd Hn Hp Hne (eq_sym Hl)) as (R1 & R2 & R3 & R4 & R5).
    change (recv_seq t1) with (recv_seq t) in *. rewrite Hr in *. set (t2 := enqueue_payload _ _ _ _) in *.
    destruct (IH t2 (seg_end off seg) offs' d' ltac:(by rewrite R5) R1 R2 R3 ltac:(by rewrite R5)) as (n' & [A1 A2 A3 A4]).
    exists n'. split; [lia|done| |].
    - eapply same_conn_trans; [|exact A3]. exact R4.
    - intros i Hi. apply A4. rewrite R5. apply Hcov. by rewrite <- Eq. }
  destruct Hh as (Es & Hp & Hne).
  assert (Hnear : near n off (length (oo_payload seg))).
  { destruct (ooo_app _ _ _ _ _ (Forall2_length _ _ _ Hst) Hok) as (_ & Hx & _). by apply ooo_cons in Hx as (_ & ? & _). }
  unfold near, seg_end in *. cbn [recv_seq with_out_of_order]. rewrite Hr, Es, seq_before_at by lia. case_if.
  - rewrite seq_at_sub by lia. replace (Z.to_nat (Z.of_nat n - Z.of_nat off)) with (n - off)%nat by lia.
    rewrite (proj2 (Nat.leb_gt _ _)) by lia. rewrite Z.eqb_refl. cbn [negb]. apply Hgo.
    + replace n with (off + (n - off))%nat at 1 by lia. apply piece_drop; [done|lia].
    + rewrite length_drop. lia.
  - assert (off = n) by lia. subst off. rewrite Z.eqb_refl. cbn [negb]. by apply Hgo.
Qed.

(** Inserting at the position the code finds keeps the queue sorted. *)
Lemma insert_position n off x (Hh : holds off x) (Hn : near n off (length (oo_payload x))) (Hgt : (n < off)%nat) :
  forall queue offs, ooo_ok n offs queue -> Forall (lt n) offs ->
  let f := fun seg => seq_before (seq_at isn (Z.of_nat off)) (oo_seq seg) in
  let pos := match position f queue with Some p => p | None => length queue end in
  exists offs', ooo_ok n offs' (take pos queue ++ x :: drop pos queue) /\ Forall (lt n) offs' /\
    (forall o, o ∈ offs' -> o = off \/ o ∈ offs).
Proof using Type.
  induction queue as [|y queue IH]; intros offs Hok Hlt; simpl.
  { exists [off]. destruct Hok as [H _ _]. apply Forall2_nil_inv_r in H as ->.
    split_and!; [apply ooo_cons; split_and!; [done|done|constructor|by split; constructor]|by constructor|]. intros o Ho. left. by apply list_elem_of_singleton in Ho. }
  destruct offs as [|oy offs]; [by destruct Hok as [H%Forall2_nil_cons_inv _ _]|]. pose proof Hok as Hall.
  apply ooo_cons in Hok as (Hy & Hny & Hle & Hok). apply Forall_cons in Hlt as [Hlty Hlt].
  rewrite (proj1 Hy). unfold near in Hn, Hny. rewrite seq_before_at by lia. case_if.
  - exists (off :: oy :: offs). split_and!; [|by repeat constructor|set_solver].
    apply ooo_cons. split_and!; try done. constructor; [lia|]. eapply Forall_impl; [exact Hle|]. simpl. lia.
  - destruct (IH offs Hok Hlt) as (offs' & Hok' & Hlt' & Hsub).
    assert (Hpos : match option_map S (position (fun seg => seq_before (seq_at isn (Z.of_nat off)) (oo_seq seg)) queue) with
      | Some p => p | None => S (length queue) end = S (match position (fun seg => seq_before (seq_at isn (Z.of_nat off)) (oo_seq seg)) queue with
      | Some p => p | None => length queue end)) by (by destruct (position _ queue)). rewrite Hpos. simpl.
    exists (oy :: offs'). split_and!; [|by constructor|].
    + apply ooo_cons. split_and!; try done. apply Forall_forall. intros o [->|Ho]%Hsub; [lia|].
      rewrite Forall_forall in Hle. by apply Hle.
    + intros o [->|Ho]%elem_of_cons; [right; by left|]. apply Hsub in Ho as [|]; [by left|right; by right].
Qed.

(** A segment after a gap. *)
Lemma insert_spec out n off payload ip port t : rcv_ok n out t -> (n < off)%nat -> piece off payload -> payload <> [] ->
  near n off (length payload) ->
  let t' := insert_out_of_order (seq_at isn (Z.of_nat off)) payload ip port t in
  advances out n t n t' /\
  ((length (out_of_order_queue t) < TCP_MAX_OUT_OF_ORDER_SEGMENTS)%nat ->
   forall i, (off <= i < off + length payload)%nat -> covered n (out_of_order_queue t') i).
Proof.
  intros Hok Hgt Hp Hne Hnear. assert (Hrefl : advances out n t n t) by (split; [lia|done|by repeat split|done]).
  unfold insert_out_of_order. rewrite bool_decide_eq_false_2 by done. destruct (rc_ooo _ _ _ Hok) as (offs & Hooo & Hlt).
  destruct (existsb _ _) eqn:Ee.
  { split; [done|]. intros _ i Hi. apply existsb_exists in Ee as (seg & Hin & Eb). apply list_elem_of_In in Hin.
    apply andb_true_iff in Eb as [E1 E2]. apply Z.eqb_eq in E1. apply Nat.eqb_eq in E2.
    destruct (ooo_lookup n offs _ seg Hooo Hin) as (o & Ho & Hh & Hno). right. exists o, seg. split_and!; try done.
    - rewrite Forall_forall in Hlt. specialize (Hlt o Ho).
      assert (o = off) as -> by (unfold near in *; apply Nat2Z.inj, (seq_at_inj isn); [lia|by rewrite <- (proj1 Hh)]). lia.
    - rewrite Forall_forall in Hlt. specialize (Hlt o Ho). unfold seg_end. rewrite E2.
      assert (o = off) as -> by (unfold near in *; apply Nat2Z.inj, (seq_at_inj isn); [lia|by rewrite <- (proj1 Hh)]). lia. }
  destruct (_ <=? _)%nat eqn:El; to_prop; [split; [done|intros; lia]|].
  set (x := mkOoo _ _ _ _). assert (Hx : holds off x) by done.
  destruct (insert_position n off x Hx Hnear Hgt _ offs Hooo Hlt) as (offs' & Hok' & Hlt' & _).
  change (oo_seq x) with (seq_at isn (Z.of_nat off)) in *. set (pos := match position _ _ with Some p => p | None => _ end) in *.
  split; [split; [lia| |by repeat split|]|].
  - destruct Hok. split; try done. by exists offs'.
  - intros i [Hi|(o & y & Hin & Hy)]; [by left|]. right. exists o, y. split; [|done]. simpl.
    rewrite <- (take_drop pos (out_of_order_queue t)) in Hin. set_solver.
  - intros _ i Hi. right. exists off, x. split_and!; try done; [simpl; set_solver|unfold seg_end; simpl; lia..].
Qed.

(** [ingest_payload]: a piece that is near the front of what was received. *)
Lemma ingest_spec out n off payload ip port t : rcv_ok n out t -> piece off payload -> near n off (length payload) ->
  let '(t', delivered) := ingest_payload (seq_at isn (Z.of_nat off)) payload ip port t in
  exists n', advances out n t n' t' /\ (delivered = true <-> (n < n')%nat) /\
    ((length (out_of_order_queue t) < TCP_MAX_OUT_OF_ORDER_SEGMENTS)%nat ->
     forall i, (off <= i < off + length payload)%nat -> covered n' (out_of_order_queue t') i).
Proof.
  intros Hok Hp Hnear. assert (Hrefl : advances out n t n t) by (split; [lia|done|by repeat split|done]).
  unfold ingest_payload. case_bool_decide as Hne; [exists n; subst; split; [done|]; split; [split; [done|lia]|simpl; intros; lia]|].
  pose proof (rc_seq _ _ _ Hok) as Hr. rewrite Hr. pose proof Hnear as (N1 & N2 & N3).
  assert (Hacc : forall data, piece n data -> data <> [] -> (n + length data)%nat = (off + length payload)%nat ->
    let t1 := enqueue_payload data ip port (with_recv_seq t (u32 (seq_at isn (Z.of_nat n) + u32 (Z.of_nat (length data))))) in
    exists n', advances out n t n' (drain_out_of_order (S (length (out_of_order_queue t1))) false t1).1 /\
    (true = true <-> (n < n')%nat) /\ ((length (out_of_order_queue t) < TCP_MAX_OUT_OF_ORDER_SEGMENTS)%nat ->
     forall i, (off <= i < off + length payload)%nat -> covered n' (out_of_order_queue (drain_out_of_order (S (length (out_of_order_queue t1))) false t1).1) i)).
  { intros data Hpd Hned Hl t1. pose proof (rc_ooo _ _ _ Hok) as (offs & Hooo & Hlt).
    assert (Hld : (0 < length data)%nat) by (destruct data; [done|simpl; lia]).
    destruct (deliver_ok out n (off + length payload) data ip port t Hr (rc_data _ _ _ Hok) (rc_len _ _ _ Hok) Hpd Hned (eq_sym Hl)) as (R1 & R2 & R3 & R4 & R5).
    rewrite Hr in *. fold t1 in R1, R2, R3, R4, R5.
    assert (Hoo1 : ooo_ok (off + length payload) offs (out_of_order_queue t1)).
    { rewrite R5. apply (ooo_advance n _ n); [done| |lia|lia]. eapply Forall_impl; [exact Hlt|]. simpl. lia. }
    destruct (drain_spec out (S (length (out_of_order_queue t1))) t1 _ offs false ltac:(lia) R1 R2 R3 Hoo1) as (n' & [A1 A2 A3 A4]).
    exists n'. split; [split; [lia|done|by eapply same_conn_trans|]|split; [split; [lia|done]|]].
    - intros i Hi. apply A4. rewrite R5. destruct Hi as [Hi|(o & x & Hin & Hx & Hnx & Hi)]; [left; lia|].
      apply (covered_keep n _ offs _ x o); try done.
    - intros _ i Hi. apply A4. left. lia. }
  rewrite seq_after_at by lia. destruct (Z.of_nat n <? Z.of_nat off) eqn:E1; to_prop.
  { destruct (insert_spec out n off payload ip port t Hok ltac:(lia) Hp Hne Hnear) as [Ha Hc]. exists n. split; [done|]. split; [|done].
    split; [done|lia]. }
  rewrite seq_before_at by lia. destruct (Z.of_nat off <? Z.of_nat n) eqn:E2; to_prop.
  - rewrite seq_at_add, seq_after_at by lia. destruct (Z.of_nat n <? _) eqn:E3; cbn [negb]; to_prop.
    + rewrite seq_at_sub by lia. replace (Z.to_nat (Z.of_nat n - Z.of_nat off)) with (n - off)%nat by lia.
      rewrite (proj2 (Nat.leb_gt _ _)) by lia. rewrite Z.eqb_refl. cbn [negb]. apply Hacc.
      * replace n with (off + (n - off))%nat at 1 by lia. apply piece_drop; [done|lia].
      * intros E. apply (f_equal length) in E. rewrite length_drop in E. simpl in E. lia.
      * rewrite length_drop. lia.
    + exists n. split; [done|]. split; [split; [done|lia]|]. intros _ i Hi. left. lia.
  - assert (off = n) by lia. subst off. rewrite Z.eqb_refl. cbn [negb]. by apply Hacc.
Qed.

End Stream.

(** ** Reading *)

Definition cat (queue : list (bytes * Z * Z)) : bytes := concat ((fun e => e.1.1) <$> queue).

Lemma splice_nil {A} k (l : list A) : splice k [] l = l.
Proof. unfold splice. simpl. rewrite Nat.add_0_r. apply take_drop. Qed.

Lemma splice_app_skip {A} k (src l1 l2 : list A) : (length l1 <= k)%nat -> splice k src (l1 ++ l2) = l1 ++ splice (k - length l1) src l2.
Proof.
  intros H. unfold splice. rewrite take_app_ge, drop_app_ge, <- app_assoc by lia.
  by replace (k + length src - length l1)%nat with (k - length l1 + length src)%nat by lia.
Qed.

Lemma splice_app_both {A} k (s1 s2 l1 l2 : list A) : (k + length s1 = length l1)%nat ->
  splice k (s1 ++ s2) (l1 ++ l2) = splice k s1 l1 ++ splice 0 s2 l2.
Proof.
  intros H. unfold splice. rewrite take_app_le, length_app by lia. rewrite (drop_app_ge l1) by lia. rewrite (drop_ge l1) by lia.
  rewrite take_0, !app_nil_r, <- !app_assoc. simpl. do 4 f_equal. lia.
Qed.

Lemma fill_slices_spec payload dst_len : forall bufs skip copied sc, (sc <= length payload)%nat ->
  (sc = length payload \/ (skip <= length (concat bufs) /\ copied <= dst_len /\ dst_len - copied = length (concat bufs) - skip))%nat ->
  let m := Nat.min (length (concat bufs) - skip) (length payload - sc) in
  exists bufs', fill_slices bufs payload skip copied sc dst_len = (bufs', copied + m, sc + m)%nat /\
    concat bufs' = splice skip (slice sc (sc + m) payload) (concat bufs) /\ length <$> bufs' = length <$> bufs.
Proof.
  induction bufs as [|b bufs IH]; intros skip copied sc Hsc Hpre m.
  { exists []. unfold m. simpl. rewrite !Nat.add_0_r. unfold slice. rewrite Nat.sub_diag, take_0, splice_nil. done. }
  cbn [fill_slices concat]. destruct (_ || _) eqn:Estop.
  - assert (Hm : m = 0%nat). { unfold m. simpl. to_prop. destruct Estop as [E|E]; to_prop; [destruct Hpre as [|Hpre]; [lia|]|lia]. simpl in Hpre. lia. }
    exists (b :: bufs). rewrite Hm, !Nat.add_0_r. unfold slice. rewrite Nat.sub_diag, take_0, splice_nil. done.
  - apply orb_false_iff in Estop as [E1 E2]. to_prop. destruct Hpre as [|Hpre]; [lia|]. simpl in Hpre. rewrite length_app in Hpre.
    destruct (length b <=? skip)%nat eqn:E3; to_prop.
    + destruct (IH (skip - length b)%nat copied sc Hsc ltac:(right; lia)) as (bufs' & E & Hcat & Hlen).
      assert (Hmm : Nat.min (length (concat bufs) - (skip - length b)) (length payload - sc) = m) by (unfold m; simpl; rewrite length_app; lia).
      rewrite Hmm in E, Hcat. rewrite E. exists (b :: bufs'). split; [done|]. cbn [concat]. rewrite Hcat, splice_app_skip, !fmap_cons, Hlen by lia. done.
    + set (k := Nat.min (length b - skip) (length payload - sc)).
      destruct (IH 0%nat (copied + k)%nat (sc + k)%nat ltac:(lia)) as (bufs' & E & Hcat & Hlen).
      { destruct (Nat.le_gt_cases (length b - skip) (length payload - sc)); [right|left]; lia. }
      set (m' := Nat.min (length (concat bufs) - 0) (length payload - (sc + k))) in *. assert (Hmm : (k + m' = m)%nat) by (unfold m, m', k; simpl; rewrite length_app; lia).
      rewrite E. exists (splice skip (slice sc (sc + k) payload) b :: bufs'). split; [rewrite <- Hmm, !Nat.add_assoc; done|].
      assert (Hk : length (slice sc (sc + k) payload) = k) by (rewrite slice_length; lia). cbn [concat]. rewrite !fmap_cons. split.
      * rewrite Hcat. assert (Hs : slice sc (sc + m) payload = slice sc (sc + k) payload ++ slice (sc + k) (sc + k + m') payload).
        { unfold slice. rewrite <- Hmm, (Nat.add_comm sc (k + m')), Nat.add_sub, (Nat.add_comm sc k), Nat.add_sub.
          replace (k + sc + m' - (k + sc))%nat with m' by lia. rewrite (Nat.add_comm k sc), <- drop_drop, take_take_drop. done. }
        rewrite Hs. destruct (Nat.le_gt_cases (length b - skip) (length payload - sc)).
        -- by rewrite splice_app_both by lia.
        -- assert (m' = 0%nat) as -> by lia. rewrite !Nat.add_0_r, (eq_refl : slice (sc + k) (sc + k) payload = take (sc + k - (sc + k)) (drop (sc + k) payload)).
           rewrite Nat.sub_diag, take_0, splice_nil, app_nil_r.
           unfold splice. rewrite take_app_le, drop_app_le, <- !app_assoc by lia. done.
      * rewrite splice_length by lia. by rewrite Hlen.
Qed.

Lemma recv_loop_spec dst_len : forall queue bufs copied src, length (concat bufs) = dst_len -> (copied <= dst_len)%nat ->
  let m := Nat.min (dst_len - copied) (length (cat queue)) in
  exists queue' bufs' src', recv_loop queue bufs copied dst_len src = (queue', bufs', copied + m, src')%nat /\
    cat queue = take m (cat queue) ++ cat queue' /\ concat bufs' = splice copied (take m (cat queue)) (concat bufs) /\
    length <$> bufs' = length <$> bufs.
Proof.
  induction queue as [|[[payload ip] port] queue IH]; intros bufs copied src Hl Hc m.
  { exists [], bufs, src. unfold m. cbn [recv_loop]. change (cat []) with (@nil Z). rewrite Nat.min_0_r, Nat.add_0_r, take_nil, splice_nil. done. }
  cbn [recv_loop]. change (cat ((payload, ip, port) :: queue)) with (payload ++ cat queue) in *. destruct (copied <? dst_len)%nat eqn:E; to_prop.
  2:{ assert (m = 0%nat) as -> by (unfold m; lia). exists ((payload, ip, port) :: queue), bufs, src.
      rewrite Nat.add_0_r, take_0, splice_nil. done. }
  set (src' := if (copied =? 0)%nat then _ else _).
  destruct (fill_slices_spec payload dst_len bufs copied copied 0 ltac:(lia) ltac:(right; lia)) as (bufs' & Ef & Hcat & Hlen).
  rewrite Nat.sub_0_r, Nat.add_0_l in Ef, Hcat. set (k := Nat.min (length (concat bufs) - copied) (length payload)) in *. rewrite Ef.
  assert (Hsl : slice 0 k payload = take k payload) by (unfold slice; by rewrite Nat.sub_0_r, drop_0). rewrite Hsl in Hcat.
  destruct (k <? length payload)%nat eqn:Ek; to_prop.
  - assert (Hmk : m = k) by (unfold m, k; rewrite length_app; lia). rewrite Hmk.
    exists ((drop k payload, ip, port) :: queue), bufs', src'. split; [done|]. rewrite take_app_le by lia.
    change (cat ((drop k payload, ip, port) :: queue)) with (drop k payload ++ cat queue). rewrite app_assoc, take_drop. done.
  - assert (k = length payload) as Hk by (unfold k in *; lia). rewrite Hk in *. rewrite firstn_all in Hcat.
    assert (Hl' : length (concat bufs') = dst_len) by (rewrite Hcat, splice_length; lia).
    destruct (IH bufs' (copied + length payload)%nat src' Hl' ltac:(lia)) as (queue' & bufs'' & src'' & Er & Hq & Hc'' & Hlen'').
    set (m' := Nat.min (dst_len - (copied + length payload)) (length (cat queue))) in *. assert (Hm : m = (length payload + m')%nat) by (unfold m, m'; rewrite length_app; lia).
    exists queue', bufs'', src''. rewrite Hm, take_app_add, Nat.add_assoc. split; [done|]. rewrite <- app_assoc, <- Hq. split; [done|].
    rewrite Hc'', Hcat, Hlen'', Hlen. split; [|done]. rewrite splice_adjacent; [done|]. rewrite length_take. lia.
Qed.

Lemma recv_from_spec buf t : match t_receive_queue t with
  | [] => tcp_recv_from buf t = (t, buf, Err EAGAIN)
  | (payload, ip, port) :: _ => let k := Nat.min (length buf) (length payload) in
      exists t', tcp_recv_from buf t = (t', take k (queued t) ++ drop k buf, Ok (k, ip, port)) /\
      queued t = take k (queued t) ++ queued t' /\ t' = with_receive_queue t (t_receive_queue t')
  end.
Proof.
  unfold tcp_recv_from. destruct (t_receive_queue t) as [|[[payload ip] port] queue] eqn:Eq; [done|]. cbv zeta.
  set (k := Nat.min _ _). assert (Hq : queued t = payload ++ cat queue) by (unfold queued; by rewrite Eq).
  assert (Htk : take k (queued t) = take k payload) by (rewrite Hq, take_app_le; [done|unfold k; lia]).
  eexists. split; [unfold splice; rewrite Htk, take_0, length_take, (Nat.min_l k) by (unfold k; lia); reflexivity|split; [|reflexivity]].
  - rewrite Htk, Hq. unfold queued. simpl. destruct (k <? length payload)%nat eqn:Ek; to_prop.
    + simpl. by rewrite app_assoc, take_drop.
    + rewrite take_ge by lia. done.
Qed.

Lemma recv_user_buffer_spec bufs t : if bool_decide (t_receive_queue t = []) then tcp_recv_user_buffer bufs t = (t, bufs, Err EAGAIN)
  else let k := Nat.min (length (concat bufs)) (length (queued t)) in
    exists t' bufs' ip port, tcp_recv_user_buffer bufs t = (t', bufs', Ok (k, ip, port)) /\
      concat bufs' = take k (queued t) ++ drop k (concat bufs) /\ length <$> bufs' = length <$> bufs /\
      queued t = take k (queued t) ++ queued t' /\ t' = with_receive_queue t (t_receive_queue t').
Proof.
  unfold tcp_recv_user_buffer. case_bool_decide as Eq; [done|].
  destruct (recv_loop_spec (length (concat bufs)) (t_receive_queue t) bufs 0 (0, 0) eq_refl ltac:(lia)) as (q' & bufs' & [ip port] & E & Hq & Hcat & Hlen).
  rewrite Nat.sub_0_r, Nat.add_0_l in *. cbv zeta. change (cat (t_receive_queue t)) with (queued t) in *. rewrite E.
  eexists _, bufs', ip, port. split; [reflexivity|]. split; [|split; [done|split; [exact Hq|reflexivity]]].
  rewrite Hcat. set (k := Nat.min (length (concat bufs)) (length (queued t))) in *. unfold splice. rewrite take_0, length_take.
  rewrite (Nat.min_l k) by (unfold k; lia). done.
Qed.

(** ** All arrivals and reads *)

Section Receiver.
Context (stream : bytes) (isn : Z).

(** The number of bytes received. *)
Definition count (s : TcpSocket * bytes) : nat := length (s.2 ++ queued s.1).

(** A piece arrives, the user reads, or something else happens to the socket. *)
Inductive rstep : TcpSocket * bytes -> TcpSocket * bytes -> Prop :=
| rs_segment t out off payload ip port : piece stream off payload -> near (count (t, out)) off (length payload) ->
    rstep (t, out) ((ingest_payload (seq_at isn (Z.of_nat off)) payload ip port t).1, out)
| rs_read t out buf t' buf' k ip port : tcp_recv_from buf t = (t', buf', Ok (k, ip, port)) -> rstep (t, out) (t', out ++ take k buf')
| rs_read_user t out bufs t' bufs' k ip port : tcp_recv_user_buffer bufs t = (t', bufs', Ok (k, ip, port)) ->
    rstep (t, out) (t', out ++ take k (concat bufs'))
| rs_other t t' out : recv_seq t' = recv_seq t -> t_receive_queue t' = t_receive_queue t ->
    out_of_order_queue t' = out_of_order_queue t -> rstep (t, out) (t', out).

(** Nothing has arrived yet. *)
Definition rstart (s : TcpSocket * bytes) : Prop :=
  recv_seq s.1 = seq_at isn 0 /\ t_receive_queue s.1 = [] /\ out_of_order_queue s.1 = [] /\ s.2 = [].

Definition rreachable (s : TcpSocket * bytes) : Prop := exists s0, rstart s0 /\ rtc rstep s0 s.

Lemma rcv_count n out t : rcv_ok stream isn n out t -> count (t, out) = n.
Proof. intros [_ Hd Hl _]. unfold count. simpl. rewrite Hd, length_take. lia. Qed.

Lemma rstep_ok n t out t' out' : rcv_ok stream isn n out t -> rstep (t, out) (t', out') ->
  exists n', rcv_ok stream isn n' out' t' /\ (n <= n')%nat /\
    (forall i, covered stream isn n (out_of_order_queue t) i -> covered stream isn n' (out_of_order_queue t') i).
Proof.
  intros Hok Hs. inversion Hs; subst; clear Hs.
  - rewrite (rcv_count n) in * by done. pose proof (ingest_spec stream isn out' n off payload ip port t Hok) as H.
    destruct (ingest_payload _ _ _ _ _) as [t1 d]. destruct H as (n' & [A1 A2 _ A4] & _); [done..|]. by exists n'.
  - pose proof (recv_from_spec buf t) as H. destruct (t_receive_queue t) as [|[[p ip'] port'] q] eqn:Eqq; [congruence|].
    assert (Hlp : (length p <= length (queued t))%nat) by (unfold queued; rewrite Eqq; simpl; rewrite length_app; lia).
    destruct H as (t1 & E & Hq & Et1). rewrite E in *. simplify_eq. exists n. split; [|split; [lia|by rewrite Et1]].
    destruct Hok as [K1 K2 K3 K4]. split; try (rewrite Et1; done); [|done].
    rewrite take_app_length', <- app_assoc, <- Hq by (rewrite length_take; lia). done.
  - pose proof (recv_user_buffer_spec bufs t) as H. case_bool_decide; [congruence|].
    destruct H as (t1 & bufs1 & ip' & port' & E & Hcat & _ & Hq & Et1). rewrite E in *. simplify_eq. exists n. split; [|split; [lia|by rewrite Et1]].
    destruct Hok as [K1 K2 K3 K4]. split; try (rewrite Et1; done); [|done].
    rewrite Hcat, take_app_length', <- app_assoc, <- Hq by (rewrite length_take; lia). done.
  - exists n. destruct Hok as [K1 K2 K3 K4]. split; [|split; [lia|congruence]]. unfold queued in *.
    split; [congruence|unfold queued; by rewrite H4|done|by rewrite H5].
Qed.
Lemma rreachable_ok s : rreachable s -> exists n, rcv_ok stream isn n s.2 s.1.
Proof.
  intros ((t0 & out0) & (H1 & H2 & H3 & H4) & Hr). assert (H0 : exists n, rcv_ok stream isn n out0 t0).
  { exists 0%nat. simpl in *. split; [done|by subst; unfold queued; rewrite H2|lia|]. rewrite H3. exists []. by split; [split; constructor|]. }
  clear H1 H2 H3 H4. remember (t0, out0) as s0. revert t0 out0 Heqs0 H0.
  induction Hr as [|x y z Hxy _ IH]; intros t0 out0 -> [n H0]; [by exists n|]. destruct y as [t1 out1].
  destruct (rstep_ok n _ _ _ _ H0 Hxy) as (n' & Hn' & _). apply (IH t1 out1 eq_refl). by exists n'.
Qed.

(** C18: the stream is delivered.  However the segments of the peer's stream
    arrive (reordered, overlapping, repeated, some lost), what the user has read
    followed by what waits to be read is the stream from its start, and the next
    sequence number expected is the one after it.  A segment is assumed to arrive
    before the stream has moved on by 2^31 bytes. *)
Theorem tcp_stream_delivered s : rreachable s ->
  (s.2 ++ queued s.1) `prefix_of` stream /\ recv_seq s.1 = seq_at isn (Z.of_nat (count s)).
Proof.
  intros Hr. destruct (rreachable_ok s Hr) as [n Hok]. destruct s as [t out]. rewrite (rcv_count n out t Hok).
  destruct Hok as [H1 H2 H3 _]. simpl in *. rewrite H2. split; [apply prefix_take|done].
Qed.

(** nothing is held back.  A segment that finds room in the queue of early
    segments is kept until its bytes are delivered, and once there is no gap in
    what has arrived up to some byte, everything up to that byte is delivered. *)
Theorem tcp_nothing_held_back s : rreachable s ->
  (forall m, (forall i, (i < m)%nat -> covered stream isn (count s) (out_of_order_queue s.1) i) -> (m <= count s)%nat) /\
  (forall s' i, rstep s s' -> covered stream isn (count s) (out_of_order_queue s.1) i ->
     covered stream isn (count s') (out_of_order_queue s'.1) i) /\
  (forall off payload ip port i, piece stream off payload -> near (count s) off (length payload) ->
     (length (out_of_order_queue s.1) < TCP_MAX_OUT_OF_ORDER_SEGMENTS)%nat -> (off <= i < off + length payload)%nat ->
     let t' := (ingest_payload (seq_at isn (Z.of_nat off)) payload ip port s.1).1 in
     covered stream isn (count (t', s.2)) (out_of_order_queue t') i).
Proof.
  intros Hr. destruct (rreachable_ok s Hr) as [n Hok]. destruct s as [t out]. simpl in Hok. rewrite (rcv_count n out t Hok). split_and!.
  - intros m Hm. destruct (Nat.le_gt_cases m n) as [|Hlt]; [done|]. exfalso.
    destruct (Hm n Hlt) as [|(off & seg & Hin & Hh & Hnear & Hi)]; [lia|].
    destruct (rc_ooo _ _ _ _ _ Hok) as (offs & Hooo & Hgt). destruct (ooo_lookup _ _ n offs _ seg Hooo Hin) as (o & Ho & Hho & Hno).
    rewrite (holds_inj _ _ n off o seg Hh Hho Hnear Hno) in Hi. rewrite Forall_forall in Hgt. specialize (Hgt o Ho). lia.
  - intros [t' out'] i Hs Hi. destruct (rstep_ok n t out t' out' Hok Hs) as (n' & Hok' & _ & Hc). rewrite (rcv_count n' out' t' Hok'). by apply Hc.
  - intros off payload ip port i Hp Hn Hroom Hi. simpl.
    pose proof (ingest_spec stream isn out n off payload ip port t Hok Hp Hn) as H. destruct (ingest_payload _ _ _ _ _) as [t1 d].
    destruct H as (n' & [_ A2 _ _] & _ & Hc). simpl. rewrite (rcv_count n' out t1 A2). by apply Hc.
Qed.

End Receiver.

(** reading.  Both reads return EAGAIN exactly when nothing is queued, and
    otherwise store the oldest bytes of the stream at the start of the buffer and
    keep the rest; a read into several slices takes as much as fits, a plain read
    the rest of the oldest segment. *)
Theorem tcp_read_exact t : 
  (forall buf, match t_receive_queue t with
   | [] => tcp_recv_from buf t = (t, buf, Err EAGAIN)
   | (payload, ip, port) :: _ => let k := Nat.min (length buf) (length payload) in
      exists t', tcp_recv_from buf t = (t', take k (queued t) ++ drop k buf, Ok (k, ip, port)) /\
      queued t = take k (queued t) ++ queued t' /\ t' = with_receive_queue t (t_receive_queue t')
   end) /\
  (forall bufs, if bool_decide (t_receive_queue t = []) then tcp_recv_user_buffer bufs t = (t, bufs, Err EAGAIN)
   else let k := Nat.min (length (concat bufs)) (length (queued t)) in
    exists t' bufs' ip port, tcp_recv_user_buffer bufs t = (t', bufs', Ok (k, ip, port)) /\
      concat bufs' = take k (queued t) ++ drop k (concat bufs) /\ length <$> bufs' = length <$> bufs /\
      queued t = take k (queued t) ++ queued t' /\ t' = with_receive_queue t (t_receive_queue t')).
Proof. split; intros; [apply recv_from_spec|apply recv_user_buffer_spec]. Qed.

(** ** A stream that wraps around and arrives out of order *)

Definition demo_stream : bytes := [1; 2; 3; 4; 5; 6; 7].
Definition demo_isn : Z := 4294967293.
Definition demo_t0 : TcpSocket := with_recv_seq (tcp_socket_new 0) demo_isn.
Definition demo_t1 : TcpSocket := (ingest_payload (seq_at demo_isn 4) [5; 6; 7] 1 2 demo_t0).1.
Definition demo_t2 : TcpSocket := (ingest_payload (seq_at demo_isn 0) [1; 2; 3; 4; 5] 1 2 demo_t1).1.

Lemma demo_segment t out off payload ip port rest : demo_stream = take off demo_stream ++ payload ++ rest ->
  near (count (t, out)) off (length payload) -> (off <= 7)%nat ->
  rstep demo_stream demo_isn (t, out) ((ingest_payload (seq_at demo_isn (Z.of_nat off)) payload ip port t).1, out).
Proof.
  intros E Hn Ho. apply rs_segment; [|done]. exists rest. rewrite E at 1. apply drop_app_length'. rewrite length_take. simpl. lia.
Qed.

Lemma demo_reach1 : rreachable demo_stream demo_isn (demo_t1, []).
Proof.
  exists (demo_t0, []). split; [by vm_compute|]. apply rtc_once. apply (demo_segment demo_t0 [] 4 [5; 6; 7] 1 2 []); [done|by vm_compute|lia].
Qed.

Lemma demo_reach2 : rreachable demo_stream demo_isn (demo_t2, []).
Proof.
  destruct demo_reach1 as (s0 & Hs0 & Hr). exists s0. split; [done|]. eapply rtc_r; [exact Hr|].
  apply (demo_segment demo_t1 [] 0 [1; 2; 3; 4; 5] 1 2 [6; 7]); [done|by vm_compute|lia].
Qed.

Lemma tcp_stream_delivered_witness : queued demo_t1 = [] /\ queued demo_t2 = demo_stream /\ queued demo_t2 `prefix_of` demo_stream /\ recv_seq demo_t2 = 4.
Proof.
  destruct (tcp_stream_delivered demo_stream demo_isn (demo_t2, []) demo_reach2) as [H1 H2].
  split; [done|]. split; [done|]. split; [exact H1|]. exact H2.
Defined.

Lemma tcp_nothing_held_back_witness : (7 <= count (demo_t2, []))%nat /\ covered demo_stream demo_isn (count (demo_t1, [])) (out_of_order_queue demo_t1) 6.
Proof.
  split.
  - apply (tcp_nothing_held_back demo_stream demo_isn (demo_t2, []) demo_reach2). intros i Hi. left. exact Hi.
  - assert (Hs : rreachable demo_stream demo_isn (demo_t0, [])) by (exists (demo_t0, []); split; [by vm_compute|constructor]).
    destruct (tcp_nothing_held_back demo_stream demo_isn (demo_t0, []) Hs) as (_ & _ & H).
    assert (Hp : piece demo_stream 4 [5; 6; 7]) by (exists []; reflexivity).
    refine (H 4%nat [5; 6; 7] 1 2 6%nat Hp _ _ _); [by vm_compute|vm_compute; lia|simpl; lia].
Defined.
