(* ===== verification/TcpSockSys.v ===== *)
(** * TCP sockets: tables, segments and calls (os/src/socket/tcp.rs)

    The tables of listeners and connections, what an arriving segment does, the
    retransmission timer, and the calls [connect], [listen], [accept] and
    [send_tracked].  An [Arc<Mutex<TcpSocket>>] is an identity in the store.

    The tables are a part of the state behind the interfaces of the network
    stack: [TcpHost] is the access to it.  A call that waits gives the CPU to
    other tasks: what they do is the next element of [env]; without one the
    call is still waiting, which is the result [None]. *)

From S2P Require Import Prelude SysErr NetState Pmtu Tcp TcpSock.

Record TcpTables := mkTables {
  LISTENERS : list (Z * Z * SockId);
  CONNECTIONS : list (Z * Z * Z * Z * SockId);
  RECENT_LISTENER_CLOSES : list (Z * Z * Z);
  NEXT_ISS : Z;
  NEXT_EPHEMERAL_PORT : Z;
  tcp_store : gmap SockId TcpSocket;
  next_sock : SockId }.

Definition with_listeners v g := mkTables v (CONNECTIONS g) (RECENT_LISTENER_CLOSES g) (NEXT_ISS g) (NEXT_EPHEMERAL_PORT g) (tcp_store g) (next_sock g).
Definition with_connections v g := mkTables (LISTENERS g) v (RECENT_LISTENER_CLOSES g) (NEXT_ISS g) (NEXT_EPHEMERAL_PORT g) (tcp_store g) (next_sock g).
Definition with_recent v g := mkTables (LISTENERS g) (CONNECTIONS g) v (NEXT_ISS g) (NEXT_EPHEMERAL_PORT g) (tcp_store g) (next_sock g).
Definition with_next_iss v g := mkTables (LISTENERS g) (CONNECTIONS g) (RECENT_LISTENER_CLOSES g) v (NEXT_EPHEMERAL_PORT g) (tcp_store g) (next_sock g).
Definition with_next_port v g := mkTables (LISTENERS g) (CONNECTIONS g) (RECENT_LISTENER_CLOSES g) (NEXT_ISS g) v (tcp_store g) (next_sock g).
Definition with_store v g := mkTables (LISTENERS g) (CONNECTIONS g) (RECENT_LISTENER_CLOSES g) (NEXT_ISS g) (NEXT_EPHEMERAL_PORT g) v (next_sock g).

(** [Arc::new(Mutex::new(t))]. *)
Definition new_sock (t : TcpSocket) (g : TcpTables) : SockId * TcpTables :=
  (next_sock g, mkTables (LISTENERS g) (CONNECTIONS g) (RECENT_LISTENER_CLOSES g) (NEXT_ISS g) (NEXT_EPHEMERAL_PORT g)
    (<[next_sock g := t]> (tcp_store g)) (S (next_sock g))).

(** ** Identifiers *)

(** The 64-bit mixer; [realtime] has 128 bits. *)
Definition tcp_boot_entropy (time realtime : Z) : Z :=
  let value := Z.lxor (Z.lxor (usize time) (usize realtime)) (usize (Z.shiftr realtime 64)) in
  let value := usize (Z.lxor value (Z.shiftr value 30) * 0xbf58476d1ce4e5b9) in
  let value := usize (Z.lxor value (Z.shiftr value 27) * 0x94d049bb133111eb) in
  Z.lxor value (Z.shiftr value 31).

Definition alloc_initial_sequence (entropy : Z) (g : TcpTables) : TcpTables * Z :=
  let g := if NEXT_ISS g =? 0 then with_next_iss (Z.lor (u32 entropy) 1) g else g in
  (with_next_iss (u32 (NEXT_ISS g + 65536)) g, NEXT_ISS g).

(** The loop: a second turn after the port counter has been seeded. *)
Definition alloc_ephemeral_port (entropy : Z) (g : TcpTables) : TcpTables * Z :=
  let g := if NEXT_EPHEMERAL_PORT g =? 0
           then with_next_port (u16 (EPHEMERAL_PORT_FIRST + u16 (entropy mod EPHEMERAL_PORT_COUNT))) g else g in
  let current := NEXT_EPHEMERAL_PORT g in
  (with_next_port (if current =? 65535 then EPHEMERAL_PORT_FIRST else current + 1) g, current).

(** ** Tables *)

Definition close_matches (addr : Z * Z) (e : Z * Z * Z) : bool :=
  let '(ip, port, _) := e in ((ip =? 0) || (ip =? fst addr) || (fst addr =? 0)) && (port =? snd addr).

Definition register_listener (listener : SockId) (g : TcpTables) : TcpTables * result unit string :=
  match tcp_store g !! listener ≫= t_local_addr with
  | None => (g, Err "listener not bound"%string)
  | Some addr =>
      let g := with_recent (List.filter (fun e => negb (close_matches addr e)) (RECENT_LISTENER_CLOSES g)) g in
      if existsb (fun '(ip, port, sock) => (ip =? fst addr) && (port =? snd addr) && (sock =? listener)%nat) (LISTENERS g)
      then (g, Ok tt)
      else (with_listeners (LISTENERS g ++ [(fst addr, snd addr, listener)]) g, Ok tt)
  end.

(** [entry.2 = expires] for the first entry of the address, or a new entry. *)
Fixpoint set_expiry (ip port expires : Z) (table : list (Z * Z * Z)) : list (Z * Z * Z) :=
  match table with
  | [] => [(ip, port, expires)]
  | (old_ip, old_port, until) :: table =>
      if (old_ip =? ip) && (old_port =? port) then (old_ip, old_port, expires) :: table
      else (old_ip, old_port, until) :: set_expiry ip port expires table
  end.

Definition remember_recent_listener_close (ip port now : Z) (g : TcpTables) : TcpTables :=
  let expires := saturate 64 (now + TCP_RECENT_LISTENER_CLOSE_GRACE_US) in
  let table := List.filter (fun '(_, _, until) => now <? until) (RECENT_LISTENER_CLOSES g) in
  with_recent (set_expiry ip port expires table) g.

Definition conn_key (local remote : Z * Z) : Z * Z * Z * Z := (fst remote, snd remote, fst local, snd local).

(** The part of [unregister_socket] for a listener. *)
Definition unregister_listener (ip port now : Z) (g : TcpTables) : TcpTables :=
  remember_recent_listener_close ip port now
    (with_listeners (List.filter (fun '(lip, lport, _) => negb ((lip =? ip) && (lport =? port))) (LISTENERS g)) g).

Definition unregister_socket (local_addr remote_addr : option (Z * Z)) (remove_listener : bool) (now : Z) (g : TcpTables) : TcpTables :=
  let g := match local_addr with
           | Some (ip, port) => if remove_listener then unregister_listener ip port now g else g
           | None => g
           end in
  match local_addr, remote_addr with
  | Some local, Some remote =>
      with_connections (List.filter (fun '(key, _) => negb (bool_decide (key = conn_key local remote))) (CONNECTIONS g)) g
  | _, _ => g
  end.

Definition silence_step (dst_ip dst_port now : Z) (g : TcpTables) : TcpTables * bool :=
  let alive := List.filter (fun '(_, _, until) => now <? until) (RECENT_LISTENER_CLOSES g) in
  (with_recent alive g,
   existsb (fun '(ip, port, _) => ((ip =? 0) || (ip =? dst_ip)) && (port =? dst_port)) alive).

(** The first entry of the key, or a new one. *)
Fixpoint set_connection (key : Z * Z * Z * Z) (sock : SockId) (table : list (Z * Z * Z * Z * SockId)) : list (Z * Z * Z * Z * SockId) :=
  match table with
  | [] => [(key, sock)]
  | (k, existing) :: table =>
      if bool_decide (k = key) then (k, sock) :: table else (k, existing) :: set_connection key sock table
  end.

Definition register_connection (sock : SockId) (g : TcpTables) : TcpTables * result unit string :=
  match tcp_store g !! sock ≫= t_local_addr, tcp_store g !! sock ≫= t_remote_addr with
  | None, _ => (g, Err "tcp socket not bound"%string)
  | _, None => (g, Err "tcp socket not connected"%string)
  | Some local, Some remote => (with_connections (set_connection (conn_key local remote) sock (CONNECTIONS g)) g, Ok tt)
  end.

Definition find_connection (src_ip src_port dst_ip dst_port : Z) (g : TcpTables) : option SockId :=
  snd <$> List.find (fun '(key, _) => bool_decide (key = (src_ip, src_port, dst_ip, dst_port))) (CONNECTIONS g).

Definition find_listener (dst_ip dst_port : Z) (g : TcpTables) : option SockId :=
  snd <$> List.find (fun '(ip, port, _) => ((ip =? 0) || (ip =? dst_ip)) && (port =? dst_port)) (LISTENERS g).

Definition pmtu_mark (quoted_seq new_mss : Z) (seg : RetransmitSegment) : RetransmitSegment :=
  if (rx_seq seg =? quoted_seq) || (new_mss <? Z.of_nat (length (rx_payload seg)))
  then mkRtx (rx_seq seg) (rx_ack seg) (rx_flags seg) (rx_payload seg) (last_sent_us seg) (rto_us seg) (retries seg) true
  else seg.

Definition pmtu_step (lip lport rip rport quoted_seq new_mss : Z) (g : TcpTables) : TcpTables :=
  match find_connection rip rport lip lport g with
  | None => g
  | Some id => with_store (alter (fun t => with_retransmit t (map (pmtu_mark quoted_seq new_mss) (retransmit_queue t))) id (tcp_store g)) g
  end.

(** ** A segment for a connection *)

(** What follows the update of the socket, in order. *)
Inductive SegAction :=
| ActSend (local remote : Z * Z) (seq ack flags : Z)
| ActUnregister (local remote : option (Z * Z))
| ActWake (w : Waker)
| ActWakeAccept (local : option (Z * Z)).

Definition take_recv_waker (t : TcpSocket) : TcpSocket * list SegAction :=
  (with_recv_waker t None, match recv_waker t with Some w => [ActWake w] | None => [] end).

(** [tcp_send_segment] with the addresses of the socket; [unwrap] may panic. *)
Definition act_send (t : TcpSocket) (seq ack flags : Z) : option SegAction :=
  match t_local_addr t, t_remote_addr t with
  | Some local, Some remote => Some (ActSend local remote seq ack flags)
  | _, _ => None
  end.
Definition act_ack (t : TcpSocket) : option SegAction := act_send t (send_seq t) (recv_seq t) TCP_FLAG_ACK.

(** The payload of a segment: the data, then the waker if some was delivered. *)
Definition accept_payload (seq : Z) (payload : bytes) (src_ip src_port : Z) (t : TcpSocket) : TcpSocket * list SegAction * bool :=
  if bool_decide (payload = []) then (t, [], false)
  else
    let '(t, delivered) := ingest_payload seq payload src_ip src_port t in
    if delivered then let '(t, acts) := take_recv_waker t in (t, acts, true) else (t, [], true).

Definition established_step (src_ip src_port seq flags : Z) (payload : bytes) (t : TcpSocket) : option (TcpSocket * list SegAction) :=
  let '(t, acts, need_ack) := accept_payload seq payload src_ip src_port t in
  let '(t, closed) := consume_pending_fin_if_ready t in
  if closed then
    let '(t, wakes) := take_recv_waker t in a ← act_ack t; Some (t, acts ++ wakes ++ [a])
  else
    let fin_seq := u32 (seq + u32 (Z.of_nat (length payload))) in
    if has flags TCP_FLAG_FIN then
      if seq_after fin_seq (recv_seq t) then
        let t := with_pending_fin t (Some fin_seq) in a ← act_ack t; Some (t, acts ++ [a])
      else if negb (fin_seq =? recv_seq t) then a ← act_ack t; Some (t, acts ++ [a])
      else
        let t := with_state (with_recv_seq (with_pending_fin t None) (u32 (recv_seq t + 1))) TcpSocketState.CloseWait in
        let '(t, wakes) := take_recv_waker t in a ← act_ack t; Some (t, acts ++ wakes ++ [a])
    else if need_ack then a ← act_ack t; Some (t, acts ++ [a])
    else Some (t, acts).

(** The states in which the own side is closed; [wake_fin]: the reader is woken by the peer's FIN. *)
Definition fin_wait_step (wake_fin : bool) (src_ip src_port seq flags : Z) (payload : bytes) (t : TcpSocket) : option (TcpSocket * list SegAction) :=
  let '(t, acts, need_ack) := accept_payload seq payload src_ip src_port t in
  let fin_seq := u32 (seq + u32 (Z.of_nat (length payload))) in
  if has flags TCP_FLAG_FIN && (fin_seq =? recv_seq t) then
    let t := with_state (with_recv_seq t (u32 (recv_seq t + 1))) TcpSocketState.Closed in
    a ← act_ack t;
    let '(t, wakes) := if wake_fin then take_recv_waker t else (t, []) in
    Some (t, acts ++ wakes ++ [a; ActUnregister (t_local_addr t) (t_remote_addr t)])
  else if has flags TCP_FLAG_FIN || need_ack then a ← act_ack t; Some (t, acts ++ [a])
  else Some (t, acts).

Definition segment_step (src_ip src_port seq ack flags : Z) (payload : bytes) (t : TcpSocket) : option (TcpSocket * list SegAction) :=
  if has flags TCP_FLAG_RST then
    let err := if bool_decide (t_state t = TcpSocketState.SynSent) then ECONNREFUSED else ECONNRESET in
    let t' := with_state (with_so_error (with_pending_fin (with_out_of_order (with_receive_queue t []) []) None) (Some err)) TcpSocketState.Closed in
    let '(t', wakes) := take_recv_waker t' in
    Some (t', ActUnregister (t_local_addr t) (t_remote_addr t) :: wakes)
  else
    let t := if has flags TCP_FLAG_ACK then ack_retransmit_queue ack t else t in
    match t_state t with
    | TcpSocketState.SynSent =>
        let syn_ack := Z.lor TCP_FLAG_SYN TCP_FLAG_ACK in
        if (Z.land flags syn_ack =? syn_ack) && (ack =? send_seq t) then
          let t := with_state (with_so_error (with_recv_seq t (u32 (seq + 1))) None) TcpSocketState.Established in
          a ← act_ack t; let '(t, wakes) := take_recv_waker t in Some (t, wakes ++ [a])
        else Some (t, [])
    | TcpSocketState.SynReceived =>
        if has flags TCP_FLAG_ACK && (ack =? send_seq t) then
          Some (with_state t TcpSocketState.Established, [ActWakeAccept (t_local_addr t)])
        else if has flags TCP_FLAG_SYN && negb (has flags TCP_FLAG_ACK) then
          let ack_to_send := u32 (seq + 1) in
          a ← act_send t (u32 (send_seq t - 1)) ack_to_send (Z.lor TCP_FLAG_SYN TCP_FLAG_ACK);
          Some (with_recv_seq t ack_to_send, [a])
        else Some (t, [])
    | TcpSocketState.Established => established_step src_ip src_port seq flags payload t
    | TcpSocketState.FinWait1 =>
        let t := if has flags TCP_FLAG_ACK && (ack =? send_seq t) then with_state t TcpSocketState.FinWait2 else t in
        fin_wait_step false src_ip src_port seq flags payload t
    | TcpSocketState.FinWait2 => fin_wait_step true src_ip src_port seq flags payload t
    | TcpSocketState.LastAck =>
        if has flags TCP_FLAG_ACK && (ack =? send_seq t)
        then Some (with_state t TcpSocketState.Closed, [ActUnregister (t_local_addr t) (t_remote_addr t)])
        else Some (t, [])
    | _ => Some (t, [])
    end.

(** ** On the network stack *)

(** The tables are a part of the state behind the interfaces. *)
Class TcpHost (X : Type) := { tcp_of : X -> TcpTables; put_tcp : TcpTables -> X -> X }.

Section Host.
Context {X : Type} `{NetDevices X} `{BuildConfig} `{TcpHost X}.
Implicit Types s : Net X.

Definition tables s : TcpTables := tcp_of (ext s).
Definition set_tables (g : TcpTables) s : Net X := set_ext (put_tcp g (ext s)) s.
Definition upd_tables (f : TcpTables -> TcpTables) s : Net X := set_tables (f (tables s)) s.
Definition sock (id : SockId) s : option TcpSocket := tcp_store (tables s) !! id.
Definition put_sock (id : SockId) (t : TcpSocket) s : Net X := upd_tables (fun g => with_store (<[id := t]> (tcp_store g)) g) s.
Definition wake (w : Waker) s : Net X := set_woken (NetState.woken s ++ [w]) s.

(** [waker_guard.take()] of the listener at an address, and [wake]. *)
Definition wake_accept (local : option (Z * Z)) s : Net X :=
  match local with
  | None => s
  | Some (ip, port) =>
      match find_listener ip port (tables s) with
      | None => s
      | Some id =>
          match sock id s with
          | Some t => let s := put_sock id (with_accept_waker t None) s in
                      match accept_waker t with Some w => wake w s | None => s end
          | None => s
          end
      end
  end.

Definition run_action s (a : SegAction) : Net X :=
  match a with
  | ActSend (lip, lport) (rip, rport) seq ack flags => fst (tcp_send_segment lip rip lport rport seq ack flags [] s)
  | ActUnregister local remote => upd_tables (unregister_socket local remote false (time_us s)) s
  | ActWake w => wake w s
  | ActWakeAccept local => wake_accept local s
  end.

(** A new connection for a listener. *)
Definition accept_syn (listener : SockId) (src_ip dst_ip src_port dst_port seq : Z) s : Net X :=
  let iss := NEXT_ISS (tables s) in
  let child := mkTcpSocket (Some (dst_ip, dst_port)) (Some (src_ip, src_port)) TcpSocketState.SynReceived
    (u32 (iss + 1)) (u32 (seq + 1)) [] [] [] None None [] None None in
  let s := upd_tables (with_next_iss (u32 (iss + 4096))) s in
  let '(id, g) := new_sock child (tables s) in
  let s := set_tables (fst (register_connection id g)) s in
  let s := upd_tables (fun g => with_store (alter (fun l => with_accept_queue l (accept_queue l ++ [id])) listener (tcp_store g)) g) s in
  fst (tcp_send_segment dst_ip src_ip dst_port src_port iss (u32 (seq + 1)) (Z.lor TCP_FLAG_SYN TCP_FLAG_ACK) [] s).

(** [dispatch_tcp_segment]; [None] is a panic.  The source looks for the
    connection a second time before it creates one; the tables have not changed
    since the first time, so that second lookup finds nothing. *)
Definition dispatch (src_ip dst_ip src_port dst_port seq ack flags : Z) (payload : bytes) s : option (Net X * bool) :=
  match find_connection src_ip src_port dst_ip dst_port (tables s) with
  | Some id =>
      t ← sock id s;
      '(t, acts) ← segment_step src_ip src_port seq ack flags payload t;
      Some (fold_left run_action acts (put_sock id t s), true)
  | None =>
      if has flags TCP_FLAG_SYN && negb (has flags TCP_FLAG_ACK) then
        match find_listener dst_ip dst_port (tables s) with
        | Some listener => Some (accept_syn listener src_ip dst_ip src_port dst_port seq s, true)
        | None => Some (s, false)
        end
      else Some (s, false)
  end.

(** The loop of [collect_retransmits] over the queue. *)
Fixpoint collect_loop (now lip lport rip rport : Z) (queue : list RetransmitSegment) s
  : list RetransmitSegment * list PendingRetransmit * bool * Net X :=
  match queue with
  | [] => ([], [], false, s)
  | seg :: rest =>
      let forced := needs_retransmit seg in
      if negb forced && (saturating_sub now (last_sent_us seg) <? rto_us seg) then
        let '(rest, pending, timed_out, s) := collect_loop now lip lport rip rport rest s in
        (seg :: rest, pending, timed_out, s)
      else if negb forced && (TCP_MAX_RETRIES <=? retries seg) then (queue, [], true, s)
      else
        let '(s, mss) := tcp_mss_for_dst rip s in
        let chunks := retransmit_chunks lip lport rip rport seg (Z.to_nat mss) in
        let '(rest, pending, timed_out, s) := collect_loop now lip lport rip rport rest s in
        (resent now seg :: rest, chunks ++ pending, timed_out, s)
  end.

Definition collect_retransmits (now : Z) (id : SockId) s : Net X * list PendingRetransmit :=
  match sock id s with
  | None => (s, [])
  | Some t =>
      match t_local_addr t, t_remote_addr t with
      | Some (lip, lport), Some (rip, rport) =>
          if bool_decide (t_state t = TcpSocketState.Closed) then (put_sock id (with_retransmit t []) s, [])
          else
            let '(queue, pending, timed_out, s) := collect_loop now lip lport rip rport (retransmit_queue t) s in
            if timed_out then
              let t' := with_state (with_so_error (with_pending_fin (with_out_of_order (with_receive_queue
                          (with_retransmit t []) []) []) None) (Some ETIMEDOUT)) TcpSocketState.Closed in
              let s := put_sock id (with_recv_waker t' None) s in
              (match recv_waker t with Some w => wake w s | None => s end, [])
            else (put_sock id (with_retransmit t queue) s, pending)
      | _, _ => (s, [])
      end
  end.

(** One socket of [poll_retransmits]. *)
Definition poll_socket (now : Z) s (id : SockId) : Net X :=
  let '(s, pending) := collect_retransmits now id s in
  let s := send_pending pending s in
  match sock id s with
  | Some t =>
      if bool_decide (t_state t = TcpSocketState.Closed) && bool_decide (retransmit_queue t = [])
      then upd_tables (unregister_socket (t_local_addr t) (t_remote_addr t) false (time_us s)) s
      else s
  | None => s
  end.

Definition poll_all s : Net X := fold_left (poll_socket (time_us s)) (map snd (CONNECTIONS (tables s))) s.

(** What the protocol layer sees of the sockets. *)
#[export] Instance tcp_sockets : TcpSocketLayer X := {
  dispatch_tcp_segment sip dip sport dport seq ack flags payload s :=
    default (s, true) (dispatch sip dip sport dport seq ack flags payload s);
  should_silence_unmatched_syn ip port s := let '(g, b) := silence_step ip port (time_us s) (tables s) in (set_tables g s, b);
  handle_pmtu_update lip lport rip rport seq mss s := upd_tables (pmtu_step lip lport rip rport seq mss) s;
  poll_retransmits s := poll_all s }.

(** ** Calls *)

Definition tcp_state_can_send (st : TcpSocketState) : bool :=
  match st with TcpSocketState.Established | TcpSocketState.CloseWait => true | _ => false end.

(** [Arc::new(Mutex::new(TcpSocket::new()))]. *)
Definition open_socket (entropy : Z) s : Net X * SockId :=
  let '(g, iss) := alloc_initial_sequence entropy (tables s) in
  let '(id, g) := new_sock (tcp_socket_new iss) g in (set_tables g s, id).

(** [TcpSocket::close]. *)
Definition tcp_close (id : SockId) s : Net X :=
  match sock id s with
  | None => s
  | Some t =>
      let s := upd_tables (unregister_socket (t_local_addr t) (t_remote_addr t)
                 (bool_decide (t_state t = TcpSocketState.Listening)) (time_us s)) s in
      put_sock id (with_state (with_accept_queue (with_pending_fin (with_retransmit (with_out_of_order
        (with_receive_queue t []) []) []) None) []) TcpSocketState.Closed) s
  end.

(** [Socket::close] and [Socket::shutdown] of socket/mod.rs for a TCP socket: the FIN is
    tracked and the state changed under the lock of the socket, then the segment is sent. *)
Record SocketFlags := mkSocketFlags { sf_closed : bool; shut_rd : bool; shut_wr : bool }.

Definition track_fin (next : TcpSocketState) (now : Z) (t : TcpSocket) : TcpSocket :=
  with_state (with_send_seq (track_segment (send_seq t) (recv_seq t) (Z.lor TCP_FLAG_FIN TCP_FLAG_ACK) [] now t)
    (u32 (send_seq t + 1))) next.

Definition send_fin (next : TcpSocketState) (id : SockId) (t : TcpSocket) (local remote : Z * Z) s : Net X :=
  fst (tcp_send_segment (fst local) (fst remote) (snd local) (snd remote) (send_seq t) (recv_seq t)
    (Z.lor TCP_FLAG_FIN TCP_FLAG_ACK) [] (put_sock id (track_fin next (time_us s) t) s)).

Definition socket_close (fl : SocketFlags) (id : SockId) s : Net X * SocketFlags * SysResult unit :=
  if sf_closed fl then (s, fl, Err EINVAL)
  else
    let fl := mkSocketFlags true (shut_rd fl) (shut_wr fl) in
    match sock id s with
    | None => (s, fl, Ok tt)
    | Some t =>
        if bool_decide (t_state t = TcpSocketState.Closed) then (s, fl, Ok tt)
        else
          let '(local, remote) := match t_local_addr t, t_remote_addr t with
                                  | Some l, Some r => (l, r)
                                  | _, _ => ((0, 0), (0, 0))
                                  end in
          if tcp_state_can_send (t_state t) && negb (snd remote =? 0) then
            let next := if bool_decide (t_state t = TcpSocketState.CloseWait) then TcpSocketState.LastAck else TcpSocketState.FinWait1 in
            (send_fin next id t local remote s, fl, Ok tt)
          else (tcp_close id s, fl, Ok tt)
    end.

(** The reading side: what has arrived is dropped. *)
Definition drop_received (id : SockId) s : Net X :=
  match sock id s with Some t => put_sock id (with_out_of_order (with_receive_queue t []) []) s | None => s end.

(** The writing side; [None]: the call returns here. *)
Definition shutdown_write (id : SockId) s : option (Net X) :=
  match sock id s with
  | None => None
  | Some t =>
      match t_local_addr t, t_remote_addr t with
      | Some local, Some remote =>
          if bool_decide (t_state t = TcpSocketState.Established) then Some (send_fin TcpSocketState.FinWait1 id t local remote s) else None
      | _, _ => None
      end
  end.

Definition socket_shutdown (how : Z) (fl : SocketFlags) (id : SockId) s : Net X * SocketFlags * result unit string :=
  if how =? 0 then (drop_received id s, mkSocketFlags (sf_closed fl) true (shut_wr fl), Ok tt)
  else if how =? 1 then
    if shut_wr fl then (s, fl, Ok tt)
    else (default s (shutdown_write id s), mkSocketFlags (sf_closed fl) (shut_rd fl) true, Ok tt)
  else if how =? 2 then
    let fl' := mkSocketFlags (sf_closed fl) true true in
    if shut_wr fl then (drop_received id s, fl', Ok tt)
    else match shutdown_write id s with
         | Some s => (drop_received id s, fl', Ok tt)
         | None => (s, fl', Ok tt)
         end
  else (s, fl, Err "Invalid how"%string).

(** One look at the send window: an error, room, or neither. *)
Definition check_window (id : SockId) s : Net X * option (SysResult unit) :=
  match sock id s with
  | None => (s, Some (Err ENOTCONN))
  | Some t =>
      let '(t, err) := take_error t in
      let s := put_sock id t s in
      (s, match err with
          | Some e => Some (Err e)
          | None => if negb (tcp_state_can_send (t_state t)) then Some (Err ENOTCONN)
                    else if (length (retransmit_queue t) <? TCP_SEND_WINDOW_SEGMENTS)%nat then Some (Ok tt) else None
          end)
  end.

Fixpoint wait_for_send_window (env : list (Net X -> Net X)) (start_us : Z) (id : SockId) s
  : Net X * list (Net X -> Net X) * option (SysResult unit) :=
  match check_window id s with
  | (s, Some r) => (s, env, Some r)
  | (s, None) =>
      let s := poll_rx_all s in
      match check_window id s with
      | (s, Some r) => (s, env, Some r)
      | (s, None) =>
          if TCP_SEND_WINDOW_TIMEOUT_US <=? saturating_sub (time_us s) start_us then (s, env, Some (Err ETIMEDOUT))
          else match env with
               | [] => (s, [], None)
               | e :: env => wait_for_send_window env start_us id (e s)
               end
      end
  end.

(** The segment of a turn of [send_tracked] is taken under the lock: the socket
    moves on and the segment is tracked. *)
Definition take_segment (data : bytes) (sent_total mss : nat) (now : Z) (t : TcpSocket) : TcpSocket * (Z * Z * Z * nat) :=
  let take_ := Nat.min mss (length data - sent_total) in
  let seq := send_seq t in
  let ack := recv_seq t in
  let flags := Z.lor TCP_FLAG_ACK TCP_FLAG_PSH in
  (track_segment seq ack flags (slice sent_total (sent_total + take_) data) now (with_send_seq t (segment_end_seq seq flags take_)),
   (seq, ack, flags, take_)).

Definition partial (sent_total : nat) (e : SysError) : SysResult nat := if (0 <? sent_total)%nat then Ok sent_total else Err e.

(** [send_tracked]: every turn sends at least one byte. *)
Fixpoint send_loop (fuel : nat) (env : list (Net X -> Net X)) (id : SockId) (data : bytes) (sent_total since_poll : nat) s
  : Net X * list (Net X -> Net X) * option (SysResult nat) :=
  match fuel with
  | O => (s, env, Some (Ok sent_total))
  | S fuel =>
      if (sent_total <? length data)%nat then
        match wait_for_send_window env (time_us s) id s with
        | (s, env, None) => (s, env, None)
        | (s, env, Some (Err e)) => (s, env, Some (Err e))
        | (s, env, Some (Ok _)) =>
            match sock id s with
            | None => (s, env, Some (Err ENOTCONN))
            | Some t =>
                if negb (tcp_state_can_send (t_state t)) then (s, env, Some (partial sent_total ENOTCONN))
                else match t_local_addr t, t_remote_addr t with
                | Some (lip, lport), Some (rip, rport) =>
                    let '(s, mss) := tcp_mss_for_dst rip s in
                    let '(t, (seq, ack, flags, take_)) := take_segment data sent_total (Nat.max (Z.to_nat mss) 1) (time_us s) t in
                    let s := put_sock id t s in
                    match tcp_send_segment lip rip lport rport seq ack flags (slice sent_total (sent_total + take_) data) s with
                    | (s, Err _) =>
                        let undo t :=
                          let t := untrack_segment seq t in
                          if send_seq t =? segment_end_seq seq flags take_ then with_send_seq t seq else t in
                        (upd_tables (fun g => with_store (alter undo id (tcp_store g)) g) s, env, Some (partial sent_total ENETUNREACH))
                    | (s, Ok _) =>
                        if (TCP_SEND_WINDOW_SEGMENTS <=? S since_poll)%nat
                        then send_loop fuel env id data (sent_total + take_) 0 (poll_rx_all s)
                        else send_loop fuel env id data (sent_total + take_) (S since_poll) s
                    end
                | _, _ => (s, env, Some (Err ENOTCONN))
                end
            end
        end
      else (s, env, Some (Ok sent_total))
  end.

Definition send_tracked (env : list (Net X -> Net X)) (id : SockId) (data : bytes) s :=
  if bool_decide (data = []) then (s, env, Some (Ok O)) else send_loop (length data) env id data 0 0 s.

(** The loop over the slices of a user buffer. *)
Fixpoint send_slices (env : list (Net X -> Net X)) (id : SockId) (bufs : list bytes) (sent_total : nat) s
  : Net X * list (Net X -> Net X) * option (SysResult nat) :=
  match bufs with
  | [] => (s, env, Some (Ok sent_total))
  | slice_ :: rest =>
      if bool_decide (slice_ = []) then send_slices env id rest sent_total s
      else match send_tracked env id slice_ s with
           | (s, env, None) => (s, env, None)
           | (s, env, Some (Ok sent)) =>
               if (sent <? length slice_)%nat then (s, env, Some (Ok (sent_total + sent)%nat))
               else send_slices env id rest (sent_total + sent)%nat s
           | (s, env, Some (Err err)) => (s, env, Some (if (sent_total =? 0)%nat then Err err else Ok sent_total))
           end
  end.

Definition send_user_buffer_tracked (env : list (Net X -> Net X)) (id : SockId) (bufs : list bytes) s := send_slices env id bufs 0 s.

(** The address that [do_connect_setup] gives an unbound socket. *)
Definition connect_addr (remote_ip entropy : Z) (local : option (Z * Z)) s : Net X * SysResult (Z * Z) :=
  let '(need_ip, need_port) := match local with None => (true, true) | Some (ip, port) => (ip =? 0, port =? 0) end in
  let old := default (0, 0) local in
  if need_ip || need_port then
    let local_ip :=
      if Z.land remote_ip 0xFF000000 =? 0x7F000000 then Ok 0x7F000001
      else match route_lookup s remote_ip with
           | Err _ => Err ENETUNREACH
           | Ok (dev, _) => if dev_ip dev =? 0 then Err EADDRNOTAVAIL else Ok (dev_ip dev)
           end in
    match local_ip with
    | Err e => (s, Err e)
    | Ok local_ip =>
        let '(s, port) := if need_port then let '(g, p) := alloc_ephemeral_port entropy (tables s) in (set_tables g s, p)
                          else (s, snd old) in
        (s, Ok (if need_ip then local_ip else fst old, port))
    end
  else (s, Ok old).

Definition do_connect_setup (entropy : Z) (id : SockId) (remote_ip remote_port : Z) s : Net X * SysResult Z :=
  match sock id s with
  | None => (s, Err EINVAL)
  | Some t =>
      match t_remote_addr t with
      | Some _ => (s, Err EISCONN)
      | None =>
          match connect_addr remote_ip entropy (t_local_addr t) s with
          | (s, Err e) => (s, Err e)
          | (s, Ok local) =>
              let t := with_state (with_addrs t (Some local) (Some (remote_ip, remote_port))) TcpSocketState.SynSent in
              let s := put_sock id t s in
              match register_connection id (tables s) with
              | (_, Err _) => (s, Err EINVAL)
              | (g, Ok _) =>
                  let s := set_tables g s in
                  let seq := send_seq t in
                  let s := put_sock id (track_segment seq 0 TCP_FLAG_SYN [] (time_us s) (with_send_seq t (u32 (seq + 1)))) s in
                  match tcp_send_segment (fst local) remote_ip (snd local) remote_port seq 0 TCP_FLAG_SYN [] s with
                  | (s, Err _) => (upd_tables (fun g => with_store (alter (untrack_segment seq) id (tcp_store g)) g) s, Err ENETUNREACH)
                  | (s, Ok _) => (s, Ok seq)
                  end
              end
          end
      end
  end.

Definition connect_nonblock (entropy : Z) (id : SockId) (remote_ip remote_port : Z) s : Net X * SysResult unit :=
  match do_connect_setup entropy id remote_ip remote_port s with
  | (s, Err e) => (s, Err e)
  | (s, Ok _) => (s, Err EINPROGRESS)
  end.

(** The wait of [connect]. *)
Fixpoint connect_wait (env : list (Net X -> Net X)) (deadline_us : Z) (id : SockId) s : Net X * option (SysResult unit) :=
  let s := poll_rx_all s in
  match sock id s with
  | None => (s, Some (Err EINVAL))
  | Some t =>
      match t_state t with
      | TcpSocketState.Established => (s, Some (Ok tt))
      | TcpSocketState.Closed =>
          let '(t, err) := take_error t in (put_sock id t s, Some (Err (default ECONNREFUSED err)))
      | _ =>
          if deadline_us <=? time_us s then
            let s := upd_tables (unregister_socket (t_local_addr t) (t_remote_addr t) false (time_us s)) s in
            (put_sock id (with_state (with_so_error t (Some ETIMEDOUT)) TcpSocketState.Closed) s, Some (Err ETIMEDOUT))
          else match env with
               | [] => (s, None)
               | e :: env => connect_wait env deadline_us id (e s)
               end
      end
  end.

Definition connect (env : list (Net X -> Net X)) (entropy : Z) (id : SockId) (remote_ip remote_port : Z) s : Net X * option (SysResult unit) :=
  match do_connect_setup entropy id remote_ip remote_port s with
  | (s, Err e) => (s, Some (Err e))
  | (s, Ok _) => connect_wait env (usize (time_us s + TCP_CONNECT_TIMEOUT_US)) id s
  end.

Definition listen (id : SockId) (backlog : Z) s : Net X * SysResult unit :=
  match sock id s with
  | None => (s, Err EINVAL)
  | Some t =>
      match tcp_listen backlog t with
      | (t, Err e) => (s, Err e)
      | (t, Ok _) =>
          let '(g, r) := register_listener id (tables (put_sock id t s)) in
          (set_tables g s, match r with Ok _ => Ok tt | Err _ => Err EINVAL end)
      end
  end.

Definition accept (id : SockId) s : Net X * option SockId :=
  match sock id s with
  | Some t => match accept_queue t with
              | child :: queue => (put_sock id (with_accept_queue t queue) s, Some child)
              | [] => (s, None)
              end
  | None => (s, None)
  end.

Definition accept_or_register (id : SockId) (w : Waker) s : Net X * option SockId :=
  match sock id s with
  | Some t => match accept_queue t with
              | child :: queue => (put_sock id (with_accept_queue t queue) s, Some child)
              | [] => (put_sock id (with_accept_waker t (Some w)) s, None)
              end
  | None => (s, None)
  end.

End Host.
