(* ===== verification/TcpSockInv.v ===== *)
(** * TCP sockets: the invariant of the tables

    Every connection in the table belongs to a socket with these addresses, no
    connection is listed twice, and the queues of every socket are within their
    bounds.  Every entry point keeps this, and then none of them panics. *)

From S2P Require Import Prelude SysErr Skb Wire NetState Neighbor IpOut Pmtu Tcp TcpSock TcpSockSys.

(** ** Sending a segment and what a device may do meanwhile *)

Section Keeps.
Context {X : Type} `{NetDevices X} `{BuildConfig} (P : Net X -> Prop).
Context (P_ext : forall s s' : Net X, ext s' = ext s -> P s -> P s').
Context (P_xmit : forall d skb s, P s -> P (fst (hard_start_xmit d skb s))).
Context (P_poll : forall d s, P s -> P (poll_rx d s)).

Lemma xmit_ip_packet_keeps skb mac dev s : P s -> P (fst (xmit_ip_packet skb mac dev s)).
Proof using P_xmit. unfold xmit_ip_packet. destruct (push_bytes _ _); [apply P_xmit|done]. Qed.

Lemma flush_keeps ip mac s : P s -> P (flush_pending_for ip mac s).
Proof using P_ext P_xmit.
  intros Hs. unfold flush_pending_for. destruct (take_waiting _ _) as [packets stay].
  assert (Hp1 : P (set_pending_packets stay s)) by (by apply (P_ext s)). revert Hp1. generalize (set_pending_packets stay s).
  clear s Hs stay. induction packets as [|p packets IH]; intros s Hs; [done|]. apply IH. by apply xmit_ip_packet_keeps.
Qed.

Lemma poll_loop_keeps n ip dev : forall s, P s -> P (poll_loop n ip dev s).
Proof using P_ext P_xmit P_poll.
  induction n as [|n IH]; intros s Hs; [done|]. cbn [poll_loop]. destruct (arp_lookup _ _); [apply flush_keeps|apply IH]; auto.
Qed.

Lemma neighbour_output_keeps skb ip dev s : P s -> P (fst (neighbour_output skb ip dev s)).
Proof using P_ext P_xmit P_poll.
  intros Hs. unfold neighbour_output. case_bool_decide; [auto|]. destruct (arp_lookup _ _); [apply xmit_ip_packet_keeps; auto|].
  set (s1 := queue_pending_packet _ _ _ _). assert (Hp1 : P s1) by (apply (P_ext (poll_rx dev s)); auto).
  assert (Hp2 : P (fst (arp_request ip dev s1))).
  { unfold arp_request. destruct (arp_frame _ _ _ _ _) as [sk|]; [|done]. pose proof (P_xmit dev sk s1 Hp1) as Hx.
    destruct (hard_start_xmit dev sk s1) as [? []]; done. }
  destruct (arp_request ip dev s1) as [s2 [|]]; [|done]. cbn [fst]. by apply poll_loop_keeps.
Qed.

Lemma tcp_send_segment_keeps lip rip lport rport seq ack flags payload s : P s ->
  P (fst (tcp_send_segment lip rip lport rport seq ack flags payload s)).
Proof using P_ext P_xmit P_poll.
  intros Hs. destruct (tcp_send_segment_spec lip rip lport rport seq ack flags payload s) as (skb & cache & window & opt & Wk & _ & _ & ->).
  assert (Hp1 : P (set_path_mtu_cache cache s)) by (by apply (P_ext s)). revert Hp1. generalize (set_path_mtu_cache cache s). clear s Hs. intros s Hs.
  destruct (ip_queue_xmit_spec skb lip rip 6 s Wk) as (skb' & _ & _ & ->).
  assert (Hp1 : P (fst (fast_random s))) by (apply (P_ext s); [by destruct s|done]).
  destruct (route_lookup s rip) as [[dev nh]|e]; [|done].
  pose proof (neighbour_output_keeps (set_dev skb' (Some dev)) nh dev _ Hp1) as Hn. destruct (neighbour_output _ _ _ _) as [? []]; done.
Qed.

Lemma send_pending_keeps pending : forall s, P s -> P (send_pending pending s).
Proof using P_ext P_xmit P_poll. induction pending as [|tx pending IH]; intros s Hs; [done|]. apply IH. by apply tcp_send_segment_keeps. Qed.

End Keeps.

(** ** One socket *)

Record sock_wf (t : TcpSocket) : Prop := {
  sw_ooo : (length (out_of_order_queue t) <= TCP_MAX_OUT_OF_ORDER_SEGMENTS)%nat;
  sw_rtx : (length (retransmit_queue t) <= TCP_MAX_RETRANSMIT_SEGMENTS)%nat;
  sw_send : in_u 32 (send_seq t);
  sw_recv : in_u 32 (recv_seq t) }.

(** What an operation on a socket does to its place in the tables: nothing. *)
Record same_place (t t' : TcpSocket) : Prop := {
  sp_local : t_local_addr t' = t_local_addr t;
  sp_remote : t_remote_addr t' = t_remote_addr t;
  sp_accept : accept_queue t' = accept_queue t }.

Lemma same_place_refl t : same_place t t.
Proof. done. Qed.
Lemma same_place_trans t1 t2 t3 : same_place t1 t2 -> same_place t2 t3 -> same_place t1 t3.
Proof. intros [? ? ?] [? ? ?]. split; congruence. Qed.

Definition keeps_sock (t t' : TcpSocket) : Prop := (sock_wf t -> sock_wf t') /\ same_place t t'.

Lemma keeps_sock_trans t1 t2 t3 : keeps_sock t1 t2 -> keeps_sock t2 t3 -> keeps_sock t1 t3.
Proof. intros [? ?] [? ?]. split; [auto|by eapply same_place_trans]. Qed.

Lemma u32_in z : in_u 32 (u32 z).
Proof. by apply wrap_range. Qed.
#[export] Hint Resolve u32_in : kairix.

(** Changes that touch no queue and no sequence number, or empty a queue. *)
Ltac plain_sock := split; [intros [? ? ? ?]; split; simpl; auto with kairix; unfold TCP_MAX_OUT_OF_ORDER_SEGMENTS, TCP_MAX_RETRANSMIT_SEGMENTS in *; lia|by split].

Lemma insert_out_of_order_keeps seq payload ip port t : keeps_sock t (insert_out_of_order seq payload ip port t).
Proof.
  unfold insert_out_of_order. case_bool_decide; [by split|]. destruct (existsb _ _); [by split|].
  destruct (_ <=? _)%nat eqn:E; to_prop; [by split|]. split; [|by split]. intros [? ? ? ?]. split; try done. simpl.
  rewrite length_app. simpl. rewrite length_take, length_drop.
  destruct (position _ _) as [p|]; unfold TCP_MAX_OUT_OF_ORDER_SEGMENTS in *; lia.
Qed.

Lemma take_next_length recv : forall queue, let '(queue', o) := take_next queue recv in
  (length queue' + (match o with Some _ => 1 | None => 0 end) <= length queue)%nat.
Proof.
  induction queue as [|seg queue IH]; simpl; [lia|]. destruct (negb _); [|destruct (negb _); simpl; lia].
  destruct (take_next queue recv) as [? []]; lia.
Qed.

Lemma drain_keeps : forall fuel d t, keeps_sock t (drain_out_of_order fuel d t).1.
Proof.
  induction fuel as [|fuel IH]; intros d t; [by split|]. cbn [drain_out_of_order].
  pose proof (take_next_length (recv_seq t) (out_of_order_queue t)) as Hl. destruct (take_next _ _) as [queue [seg|]].
  2:{ split; [|by split]. intros [? ? ? ?]. split; simpl; try done. lia. }
  assert (Hq : keeps_sock t (with_out_of_order t queue)) by (split; [|by split]; intros [? ? ? ?]; split; simpl; try done; lia).
  assert (Hd : forall data, keeps_sock t (enqueue_payload data (oo_src_ip seg) (oo_src_port seg)
    (with_recv_seq (with_out_of_order t queue) (u32 (recv_seq t + u32 (Z.of_nat (length data))))))).
  { intros data. eapply keeps_sock_trans; [exact Hq|]. plain_sock. }
  destruct (seq_before _ _); [destruct (_ <=? _)%nat; [by eapply keeps_sock_trans|]|]; cbv zeta;
    (destruct (negb _); [eapply keeps_sock_trans; [exact Hq|apply insert_out_of_order_keeps]|eapply keeps_sock_trans; [apply Hd|apply IH]]).
Qed.

Lemma ingest_keeps seq payload ip port t : keeps_sock t (ingest_payload seq payload ip port t).1.
Proof.
  unfold ingest_payload. case_bool_decide; [by split|]. cbv zeta.
  assert (Hacc : forall sq data, keeps_sock t (if negb (sq =? recv_seq t) then (t, false)
    else (fst (drain_out_of_order (S (length (out_of_order_queue (enqueue_payload data ip port (with_recv_seq t (u32 (recv_seq t + u32 (Z.of_nat (length data)))))))))
      false (enqueue_payload data ip port (with_recv_seq t (u32 (recv_seq t + u32 (Z.of_nat (length data))))))), true)).1).
  { intros sq data. destruct (negb _); [by split|]. eapply keeps_sock_trans; [|apply drain_keeps]. plain_sock. }
  destruct (seq_after _ _); [apply insert_out_of_order_keeps|]. destruct (seq_before _ _); [|apply Hacc].
  destruct (negb _); [by split|]. destruct (_ <=? _)%nat; [by split|apply Hacc].
Qed.

Lemma accept_payload_keeps seq payload ip port t : keeps_sock t (accept_payload seq payload ip port t).1.1.
Proof.
  unfold accept_payload. case_bool_decide; [by split|]. pose proof (ingest_keeps seq payload ip port t) as Hi.
  destruct (ingest_payload seq payload ip port t) as [t1 []]; [|done]. simpl in *. eapply keeps_sock_trans; [exact Hi|]. plain_sock.
Qed.

Lemma consume_fin_keeps t : keeps_sock t (consume_pending_fin_if_ready t).1.
Proof.
  unfold consume_pending_fin_if_ready. destruct (pending_fin_seq t); [|by split]. destruct (_ =? _); [plain_sock|].
  destruct (seq_before _ _); [plain_sock|by split].
Qed.

Lemma filter_retransmit_keeps (f : RetransmitSegment -> bool) t : keeps_sock t (with_retransmit t (List.filter f (retransmit_queue t))).
Proof.
  split; [|by split]. intros [? ? ? ?]. split; simpl; try done. pose proof (filter_length_le_b f (retransmit_queue t)). lia.
Qed.

Lemma track_segment_keeps seq ack flags payload now t : keeps_sock t (track_segment seq ack flags payload now t).
Proof.
  unfold track_segment. destruct (negb _); [by split|]. split; [|by split]. intros [? ? ? ?]. split; try done. cbn [retransmit_queue with_retransmit].
  rewrite length_app. cbn [length]. destruct (_ <=? _)%nat eqn:E; to_prop; rewrite ?length_drop; unfold TCP_MAX_RETRANSMIT_SEGMENTS in *; lia.
Qed.

(** ** A segment for a connection *)

Section Step.
Context (local remote : Z * Z).

(** A socket with these addresses, after [t]. *)
Definition at_addr (t t' : TcpSocket) : Prop :=
  keeps_sock t t' /\ t_local_addr t' = Some local /\ t_remote_addr t' = Some remote.

Lemma at_addr_step t t1 t2 : at_addr t t1 -> keeps_sock t1 t2 -> at_addr t t2.
Proof. intros (K & El & Er) K2. split; [by eapply keeps_sock_trans|]. destruct K2 as [_ [E1 E2 _]]. by rewrite E1, E2. Qed.

Lemma act_ack_some t t' : at_addr t t' -> exists a, act_ack t' = Some a.
Proof. intros (_ & El & Er). unfold act_ack, act_send. rewrite El, Er. eauto. Qed.

Lemma established_keeps ip port seq flags payload t : t_local_addr t = Some local -> t_remote_addr t = Some remote ->
  exists t' acts, established_step ip port seq flags payload t = Some (t', acts) /\ keeps_sock t t'.
Proof.
  intros El Er. assert (K0 : at_addr t t) by (by split). unfold established_step.
  pose proof (at_addr_step _ _ _ K0 (accept_payload_keeps seq payload ip port t)) as K1.
  destruct (accept_payload seq payload ip port t) as [[t1 acts] need]. simpl in K1.
  pose proof (at_addr_step _ _ _ K1 (consume_fin_keeps t1)) as K2. destruct (consume_pending_fin_if_ready t1) as [t2 closed]. simpl in K2.
  assert (Hfin : forall x, keeps_sock t2 x -> exists a, act_ack x = Some a /\ keeps_sock t x).
  { intros x Hx. pose proof (at_addr_step _ _ _ K2 Hx) as K3. destruct (act_ack_some _ _ K3) as [a Ha]. exists a. split; [done|apply K3]. }
  destruct closed; [|destruct (has _ _); [destruct (seq_after _ _); [|destruct (negb _)]|destruct need]]; cbn [take_recv_waker].
  - destruct (Hfin (with_recv_waker t2 None)) as (a & Ha & Hk); [plain_sock|]. rewrite Ha. simpl. eauto.
  - match goal with |- context [act_ack ?x] => destruct (Hfin x) as (a & Ha & Hk); [plain_sock|]; rewrite Ha end. simpl. eauto.
  - destruct (Hfin t2) as (a & Ha & Hk); [by split|]. rewrite Ha. simpl. eauto.
  - match goal with |- context [act_ack ?x] => destruct (Hfin x) as (a & Ha & Hk); [plain_sock|]; rewrite Ha end. simpl. eauto.
  - destruct (Hfin t2) as (a & Ha & Hk); [by split|]. rewrite Ha. simpl. eauto.
  - eexists _, _. split; [reflexivity|apply K2].
Qed.

Lemma fin_wait_keeps wf ip port seq flags payload t : t_local_addr t = Some local -> t_remote_addr t = Some remote ->
  exists t' acts, fin_wait_step wf ip port seq flags payload t = Some (t', acts) /\ keeps_sock t t'.
Proof.
  intros El Er. assert (K0 : at_addr t t) by (by split). unfold fin_wait_step.
  pose proof (at_addr_step _ _ _ K0 (accept_payload_keeps seq payload ip port t)) as K1.
  destruct (accept_payload seq payload ip port t) as [[t1 acts] need]. simpl in K1.
  assert (Hfin : forall x, keeps_sock t1 x -> exists a, act_ack x = Some a /\ keeps_sock t x).
  { intros x Hx. pose proof (at_addr_step _ _ _ K1 Hx) as K3. destruct (act_ack_some _ _ K3) as [a Ha]. exists a. split; [done|apply K3]. }
  destruct (_ && _).
  - match goal with |- context [act_ack ?x] => destruct (Hfin x) as (a & Ha & Hk); [plain_sock|]; rewrite Ha end. simpl.
    destruct wf; cbn [take_recv_waker]; eexists _, _; (split; [reflexivity|]); [|done]. eapply keeps_sock_trans; [exact Hk|]. plain_sock.
  - destruct (_ || _); [|eexists _, _; split; [reflexivity|apply K1]].
    destruct (Hfin t1) as (a & Ha & Hk); [by split|]. rewrite Ha. simpl. eauto.
Qed.

(** No panic on a socket that has its addresses, which it keeps. *)
Lemma segment_step_keeps ip port seq ack flags payload t : t_local_addr t = Some local -> t_remote_addr t = Some remote ->
  exists t' acts, segment_step ip port seq ack flags payload t = Some (t', acts) /\ keeps_sock t t'.
Proof.
  intros El Er. unfold segment_step. destruct (has _ TCP_FLAG_RST).
  { eexists _, _. split; [reflexivity|]. plain_sock. }
  set (t1 := if has flags TCP_FLAG_ACK then _ else _).
  assert (K1 : at_addr t t1) by (unfold t1; destruct (has _ _); [split; [apply filter_retransmit_keeps|done]|by split]).
  destruct K1 as (K1 & El1 & Er1). clearbody t1. cbv zeta.
  assert (Hs : forall o : option (TcpSocket * list SegAction), (exists t' acts, o = Some (t', acts) /\ keeps_sock t1 t') -> exists t' acts, o = Some (t', acts) /\ keeps_sock t t').
  { intros o (t' & acts & E & K). exists t', acts. split; [done|by eapply keeps_sock_trans]. }
  apply Hs. destruct (t_state t1); try (eexists _, _; split; [reflexivity|by split]).
  - unfold act_ack, act_send. simpl. rewrite El1, Er1. simpl. destruct (_ && _); eexists _, _; (split; [reflexivity|]); [plain_sock|by split].
  - destruct (_ && _); [eexists _, _; split; [reflexivity|plain_sock]|]. unfold act_send. rewrite El1, Er1. simpl.
    destruct (_ && _); eexists _, _; (split; [reflexivity|]); [plain_sock|by split].
  - by apply established_keeps.
  - set (t2 := if _ && _ then _ else _). assert (K2 : keeps_sock t1 t2) by (unfold t2; destruct (_ && _); [plain_sock|by split]).
    pose proof (proj2 K2) as [E1 E2 _].
    destruct (fin_wait_keeps false ip port seq flags payload t2) as (t' & acts & E & K); [congruence..|].
    exists t', acts. split; [done|by eapply keeps_sock_trans].
  - by apply fin_wait_keeps.
  - destruct (_ && _); eexists _, _; (split; [reflexivity|]); [plain_sock|by split].
Qed.

End Step.

(** ** The tables *)

Record TInv (g : TcpTables) : Prop := {
  ti_conn key id : (key, id) ∈ CONNECTIONS g -> exists t l r, tcp_store g !! id = Some t /\
    t_local_addr t = Some l /\ t_remote_addr t = Some r /\ key = conn_key l r;
  ti_keys : NoDup (CONNECTIONS g).*1;
  ti_fresh id t : tcp_store g !! id = Some t -> (id < next_sock g)%nat;
  ti_listen ip port id : (ip, port, id) ∈ LISTENERS g -> is_Some (tcp_store g !! id);
  ti_accept id t c : tcp_store g !! id = Some t -> c ∈ accept_queue t -> is_Some (tcp_store g !! c);
  ti_sock id t : tcp_store g !! id = Some t -> sock_wf t;
  ti_iss : in_u 32 (NEXT_ISS g) }.

(** A socket is replaced; the addresses of a connected one stay. *)
Lemma put_TInv id t t' g : TInv g -> tcp_store g !! id = Some t -> sock_wf t' ->
  (t_local_addr t <> None -> t_remote_addr t <> None -> t_local_addr t' = t_local_addr t /\ t_remote_addr t' = t_remote_addr t) ->
  (forall c, c ∈ accept_queue t' -> is_Some (tcp_store g !! c)) ->
  TInv (with_store (<[id := t']> (tcp_store g)) g).
Proof.
  intros I Ht Hwf Ha Hq. assert (Hd : forall i, is_Some (tcp_store g !! i) -> is_Some (<[id := t']> (tcp_store g) !! i)).
  { intros i Hi. rewrite lookup_insert. case_decide; eauto. }
  split; simpl; try apply I.
  - intros key i Hin. destruct (ti_conn g I key i Hin) as (x & l & r & Hx & El & Er & Ek). rewrite lookup_insert. case_decide as E; [|by exists x, l, r].
    subst i. rewrite Ht in Hx. injection Hx as <-. destruct (Ha ltac:(by rewrite El) ltac:(by rewrite Er)) as [E1 E2]. exists t', l, r. split_and!; congruence.
  - intros i x. rewrite lookup_insert. case_decide; [|apply (ti_fresh g I)]. intros _. subst i. by apply (ti_fresh g I id t).
  - intros ip port i Hin. by apply Hd, (ti_listen g I ip port).
  - intros i x c. rewrite lookup_insert. case_decide; [|intros Hx Hc; by apply Hd, (ti_accept g I i x)]. intros [= <-] Hc. apply Hd. by apply Hq.
  - intros i x. rewrite lookup_insert. case_decide; [by intros [= <-]|apply (ti_sock g I)].
Qed.

Lemma put_keeps_TInv id t t' g : TInv g -> tcp_store g !! id = Some t -> keeps_sock t t' -> TInv (with_store (<[id := t']> (tcp_store g)) g).
Proof.
  intros I Ht [Hwf [E1 E2 E3]]. apply (put_TInv id t); try done; [apply Hwf; by apply (ti_sock g I id)|].
  intros c. rewrite E3. by apply (ti_accept g I id).
Qed.

Lemma alter_TInv f id g : (forall t, tcp_store g !! id = Some t -> keeps_sock t (f t)) -> TInv g -> TInv (with_store (alter f id (tcp_store g)) g).
Proof.
  intros Hf I. destruct (tcp_store g !! id) as [t|] eqn:Et.
  - assert (E : alter f id (tcp_store g) = <[id := f t]> (tcp_store g)).
    { apply map_eq. intros i. rewrite lookup_alter, lookup_insert. case_decide; [subst i; by rewrite Et|done]. }
    rewrite E. apply (put_keeps_TInv id t); auto.
  - assert (E : alter f id (tcp_store g) = tcp_store g).
    { apply map_eq. intros i. rewrite lookup_alter. case_decide; [subst i; by rewrite Et|done]. }
    rewrite E. by destruct g.
Qed.

(** Fewer entries in the tables. *)
Lemma sub_TInv g conns lst recent iss port : TInv g -> in_u 32 iss -> conns `sublist_of` CONNECTIONS g -> lst `sublist_of` LISTENERS g ->
  TInv (mkTables lst conns recent iss port (tcp_store g) (next_sock g)).
Proof.
  intros I Hiss Hc Hl. split; simpl; try apply I; try done.
  - intros key id Hin. apply (ti_conn g I key id). by eapply sublist_subseteq.
  - eapply sublist_NoDup; [apply (ti_keys g I)|by apply fmap_sublist].
  - intros ip p id Hin. apply (ti_listen g I ip p). by eapply sublist_subseteq.
Qed.

Lemma filter_sublist_bool {A} (f : A -> bool) (l : list A) : List.filter f l `sublist_of` l.
Proof. induction l as [|x l IH]; simpl; [done|]. destruct (f x); [by apply sublist_skip|by apply sublist_cons]. Qed.

Lemma unregister_TInv local remote rl now g : TInv g -> TInv (unregister_socket local remote rl now g).
Proof.
  assert (Hl : forall ip port g, TInv g -> TInv (unregister_listener ip port now g))
    by (intros ip port g' I; apply (sub_TInv g'); [done|apply I|done|apply filter_sublist_bool]).
  assert (Hc : forall l r g, TInv g -> TInv (with_connections (List.filter (fun '(key, _) => negb (bool_decide (key = conn_key l r))) (CONNECTIONS g)) g))
    by (intros l r g' I; apply (sub_TInv g'); [done|apply I|apply filter_sublist_bool|done]).
  intros I. unfold unregister_socket. destruct local as [[ip port]|]; [|done]. destruct rl, remote as [[rip rport]|]; auto.
Qed.

Lemma set_connection_keys key sock table : NoDup table.*1 ->
  NoDup (set_connection key sock table).*1 /\
  (forall k i, (k, i) ∈ set_connection key sock table -> (k = key /\ i = sock) \/ (k, i) ∈ table).
Proof.
  assert (Hin : forall table k i, (k, i) ∈ set_connection key sock table -> (k = key /\ i = sock) \/ (k, i) ∈ table).
  { clear. induction table as [|[k0 i0] table IH]; intros k i; simpl.
    - intros H%list_elem_of_singleton. injection H as -> ->. by left.
    - case_bool_decide as E; intros [H|H]%elem_of_cons; [injection H as -> ->; subst; by left|right; by right|rewrite H; right; left|].
      apply IH in H as [|]; [by left|right; by right]. }
  intros Hn. split; [|by apply Hin]. induction table as [|[k0 i0] table IH]; simpl; [repeat constructor; set_solver|].
  apply NoDup_cons in Hn as [H1 H2]. case_bool_decide as E; simpl; [by constructor|]. constructor; [|by apply IH].
  intros (y & Ey & Hy)%list_elem_of_fmap. destruct y as [k i]. simpl in Ey. subst k. apply Hin in Hy as [[E' _]|Hy]; [done|].
  apply H1. apply list_elem_of_fmap. by exists (k0, i).
Qed.

Lemma register_connection_TInv id g : TInv g -> TInv (register_connection id g).1.
Proof.
  intros I. unfold register_connection. destruct (tcp_store g !! id) as [t|] eqn:Et; simpl; [|done].
  destruct (t_local_addr t) as [l|] eqn:El; simpl; [|done]. destruct (t_remote_addr t) as [r|] eqn:Er; simpl; [|done].
  destruct (set_connection_keys (conn_key l r) id (CONNECTIONS g) (ti_keys g I)) as [Hn Hin].
  split; simpl; try apply I; [|done]. intros key i [[-> ->]|Hk]%Hin; [by exists t, l, r|]. by apply (ti_conn g I).
Qed.

(** A new socket. *)
Lemma new_sock_TInv t g : TInv g -> sock_wf t -> accept_queue t = [] -> TInv (new_sock t g).2 /\
  tcp_store (new_sock t g).2 !! (new_sock t g).1 = Some t.
Proof.
  intros I Hwf Hq. assert (Hno : tcp_store g !! next_sock g = None).
  { destruct (tcp_store g !! next_sock g) as [x|] eqn:E; [|done]. pose proof (ti_fresh g I _ _ E). lia. }
  assert (Hd : forall i, is_Some (tcp_store g !! i) -> is_Some (<[next_sock g := t]> (tcp_store g) !! i)).
  { intros i Hi. rewrite lookup_insert. case_decide; eauto. }
  split; [|simpl; apply lookup_insert_eq]. split; simpl; try apply I.
  - intros key i Hin. destruct (ti_conn g I key i Hin) as (x & l & r & Hx & ?). exists x, l, r. split; [|done].
    rewrite lookup_insert_ne; [done|]. intros <-. congruence.
  - intros i x. rewrite lookup_insert. case_decide; [subst; lia|]. intros Hx. pose proof (ti_fresh g I _ _ Hx). lia.
  - intros ip port i Hin. by apply Hd, (ti_listen g I ip port).
  - intros i x c. rewrite lookup_insert. case_decide; [|intros Hx Hc; by apply Hd, (ti_accept g I i x)]. intros [= <-]. rewrite Hq. by intros ?%elem_of_nil.
  - intros i x. rewrite lookup_insert. case_decide; [by intros [= <-]|apply (ti_sock g I)].
Qed.

(** ** The entry points *)

(** The tables behind the interfaces are a component of the state. *)
Class TcpHostLaws (X : Type) `{TcpHost X} := {
  tcp_put g x : tcp_of (put_tcp g x) = g }.

(** The part of [accept_syn] before the answer is sent. *)
Definition syn_tables (listener : SockId) (sip dip sport dport seq : Z) (g : TcpTables) : TcpTables :=
  let iss := NEXT_ISS g in
  let child := mkTcpSocket (Some (dip, dport)) (Some (sip, sport)) TcpSocketState.SynReceived
    (u32 (iss + 1)) (u32 (seq + 1)) [] [] [] None None [] None None in
  let '(id, g) := new_sock child (with_next_iss (u32 (iss + 4096)) g) in
  let g := fst (register_connection id g) in
  with_store (alter (fun l => with_accept_queue l (accept_queue l ++ [id])) listener (tcp_store g)) g.

(** What the reception of a segment does to the tables, section by section: the sections of
    [dispatch_tcp_segment] under the lock of a socket, of its removals and wake-ups, of a new
    connection, and of the two other entry points of the protocol code. *)
Inductive table_step : TcpTables -> TcpTables -> Prop :=
| tb_segment sip sport dip dport id seq ack flags payload t t' acts g :
    find_connection sip sport dip dport g = Some id -> tcp_store g !! id = Some t ->
    segment_step sip sport seq ack flags payload t = Some (t', acts) -> table_step g (with_store (<[id := t']> (tcp_store g)) g)
| tb_unregister local remote now g : table_step g (unregister_socket local remote false now g)
| tb_waker id t g : tcp_store g !! id = Some t -> table_step g (with_store (<[id := with_accept_waker t None]> (tcp_store g)) g)
| tb_syn listener sip dip sport dport seq g : table_step g (syn_tables listener sip dip sport dport seq g)
| tb_silence ip port now g : table_step g (silence_step ip port now g).1
| tb_pmtu lip lport rip rport seq mss g : table_step g (pmtu_step lip lport rip rport seq mss g).

(** Appending an existing socket to the queue of a listener. *)
Lemma enqueue_TInv listener id g : TInv g -> is_Some (tcp_store g !! id) ->
  TInv (with_store (alter (fun l => with_accept_queue l (accept_queue l ++ [id])) listener (tcp_store g)) g).
Proof.
  intros I Hid. destruct (tcp_store g !! listener) as [t|] eqn:Et.
  - replace (alter _ listener (tcp_store g)) with (<[listener := with_accept_queue t (accept_queue t ++ [id])]> (tcp_store g)).
    + apply (put_TInv listener t); try done; [destruct (ti_sock g I _ _ Et); by split|]. simpl.
      intros c [Hc|Hc]%elem_of_app; [by apply (ti_accept g I listener t)|]. by apply list_elem_of_singleton in Hc as ->.
    + apply map_eq. intros i. rewrite lookup_alter, lookup_insert. case_decide; [subst i; by rewrite Et|done].
  - replace (alter _ listener (tcp_store g)) with (tcp_store g); [by destruct g|].
    apply map_eq. intros i. rewrite lookup_alter. case_decide; [subst i; by rewrite Et|done].
Qed.

Lemma syn_tables_TInv listener sip dip sport dport seq g : TInv g -> TInv (syn_tables listener sip dip sport dport seq g).
Proof.
  intros I. unfold syn_tables. set (child := mkTcpSocket _ _ _ _ _ _ _ _ _ _ _ _ _).
  assert (Hi1 : TInv (with_next_iss (u32 (NEXT_ISS g + 4096)) g)) by (apply (sub_TInv g); auto with kairix).
  assert (Hwf : sock_wf child) by (split; simpl; auto with kairix; unfold TCP_MAX_OUT_OF_ORDER_SEGMENTS, TCP_MAX_RETRANSMIT_SEGMENTS; lia).
  destruct (new_sock_TInv child _ Hi1 Hwf eq_refl) as [Hi2 Hid]. destruct (new_sock child _) as [id g1]. simpl in Hi2, Hid.
  apply enqueue_TInv; [by apply register_connection_TInv|]. unfold register_connection. rewrite Hid. simpl. rewrite Hid. eauto.
Qed.

Lemma pmtu_inv lip lport rip rport seq mss g : TInv g -> TInv (pmtu_step lip lport rip rport seq mss g).
Proof.
  intros I. unfold pmtu_step. destruct (find_connection _ _ _ _ _); [|done]. apply alter_TInv; [|done]. intros t _.
  split; [|by split]. intros [? ? ? ?]. split; simpl; try done. by rewrite length_map.
Qed.

Lemma find_connection_in sip sport dip dport g id : find_connection sip sport dip dport g = Some id -> ((sip, sport, dip, dport), id) ∈ CONNECTIONS g.
Proof.
  unfold find_connection. intros Hf. destruct (List.find _ _) as [[key i]|] eqn:E; [|done]. simpl in Hf. injection Hf as ->.
  apply find_some in E as [Hin Hk]. apply bool_decide_eq_true in Hk as ->. by apply list_elem_of_In.
Qed.

Lemma table_step_TInv g g' : table_step g g' -> TInv g -> TInv g'.
Proof.
  intros Hstep I. destruct Hstep as [sip sport dip dport id seq ack flags payload t t' acts g Hf Ht E|local remote now g|id t g Ht|listener sip dip sport dport seq g|ip port now g|lip lport rip rport seq mss g].
  - apply find_connection_in in Hf. destruct (ti_conn _ I _ _ Hf) as (t0 & l & r & Ht0 & El & Er & _). assert (t0 = t) as -> by congruence.
    destruct (segment_step_keeps l r sip sport seq ack flags payload t El Er) as (t1 & acts1 & E1 & K). rewrite E in E1. injection E1 as <- <-.
    by apply (put_keeps_TInv id t).
  - by apply unregister_TInv.
  - apply (put_keeps_TInv id t); [done..|plain_sock].
  - by apply syn_tables_TInv.
  - apply (sub_TInv g); try done. apply I.
  - by apply pmtu_inv.
Qed.

Lemma table_steps_TInv g g' : rtc table_step g g' -> TInv g -> TInv g'.
Proof. induction 1; eauto using table_step_TInv. Qed.

(** What a device may do to the tables when it is handed a frame (the loopback device
    delivers it) or polled (it delivers what has arrived): it calls the reception handler
    of the stack, so the tables change by the sections of that, in any number. *)
Class DeviceDelivers (X : Type) `{NetDevices X} `{TcpHost X} := {
  xmit_delivers d skb s : rtc table_step (tables s) (tables (fst (hard_start_xmit d skb s)));
  poll_delivers d s : rtc table_step (tables s) (tables (poll_rx d s)) }.

Section Entry.
Context {X : Type} `{NetDevices X} `{BuildConfig} `{TcpHost X} `{!TcpHostLaws X} `{!DeviceDelivers X}.
Implicit Types s : Net X.

Definition inv s : Prop := TInv (tables s).

Lemma tables_set g s : tables (set_tables g s) = g.
Proof. unfold tables, set_tables. simpl. apply tcp_put. Qed.

Lemma xmit_keeps d skb s : inv s -> inv (fst (hard_start_xmit d skb s)).
Proof. apply table_steps_TInv, xmit_delivers. Qed.

Lemma poll_keeps d s : inv s -> inv (poll_rx d s).
Proof. apply table_steps_TInv, poll_delivers. Qed.

Lemma inv_set g s : TInv g -> inv (set_tables g s).
Proof. unfold inv. by rewrite tables_set. Qed.

Lemma inv_upd f s : (forall g, TInv g -> TInv (f g)) -> inv s -> inv (upd_tables f s).
Proof. intros Hf Hs. apply inv_set. by apply Hf. Qed.

Lemma inv_put id t t' s : inv s -> sock id s = Some t -> keeps_sock t t' -> inv (put_sock id t' s).
Proof. intros Hs Ht K. apply inv_set. by apply (put_keeps_TInv id t). Qed.

Lemma inv_ext s s' : ext s' = ext s -> inv s -> inv s'.
Proof. unfold inv, tables. by intros ->. Qed.

Lemma inv_wake w s : inv s -> inv (wake w s).
Proof. by apply inv_ext. Qed.

Lemma inv_send lip rip lport rport seq ack flags payload s : inv s -> inv (fst (tcp_send_segment lip rip lport rport seq ack flags payload s)).
Proof. apply (tcp_send_segment_keeps inv inv_ext); intros; [by apply xmit_keeps|by apply poll_keeps]. Qed.

Lemma wake_accept_inv local s : inv s -> inv (wake_accept local s).
Proof.
  intros Hs. unfold wake_accept. destruct local as [[ip port]|]; [|done]. destruct (find_listener _ _ _) as [id|]; [|done].
  destruct (sock id s) as [t|] eqn:Et; [|done]. assert (inv (put_sock id (with_accept_waker t None) s)) by (apply (inv_put id t); [done..|plain_sock]).
  destruct (accept_waker t); [by apply inv_wake|done].
Qed.

Lemma run_action_inv a s : inv s -> inv (run_action s a).
Proof.
  intros Hs. destruct a as [[lip lport] [rip rport] seq ack flags|local remote|w|local]; simpl.
  - by apply inv_send.
  - apply inv_upd; [|done]. intros g. apply unregister_TInv.
  - by apply inv_wake.
  - by apply wake_accept_inv.
Qed.

Lemma run_actions_inv acts : forall s, inv s -> inv (fold_left run_action acts s).
Proof. induction acts as [|a acts IH]; intros s Hs; [done|]. apply IH. by apply run_action_inv. Qed.

(** [accept_syn] is that section, then the answer. *)
Lemma accept_syn_eq listener sip dip sport dport seq s : exists s', tables s' = syn_tables listener sip dip sport dport seq (tables s) /\
  accept_syn listener sip dip sport dport seq s =
  fst (tcp_send_segment dip sip dport sport (NEXT_ISS (tables s)) (u32 (seq + 1)) (Z.lor TCP_FLAG_SYN TCP_FLAG_ACK) [] s').
Proof.
  unfold accept_syn, syn_tables, upd_tables. rewrite tables_set. destruct (new_sock _ _) as [id g]. rewrite !tables_set.
  eexists. split; [|reflexivity]. apply tables_set.
Qed.

Lemma accept_syn_inv listener sip dip sport dport seq s : inv s -> inv (accept_syn listener sip dip sport dport seq s).
Proof.
  intros Hs. destruct (accept_syn_eq listener sip dip sport dport seq s) as (s' & Et & ->). apply inv_send. unfold inv. rewrite Et. by apply syn_tables_TInv.
Qed.

Lemma dispatch_inv sip dip sport dport seq ack flags payload s : inv s ->
  exists s' b, dispatch sip dip sport dport seq ack flags payload s = Some (s', b) /\ inv s'.
Proof.
  intros Hs. unfold dispatch. destruct (find_connection _ _ _ _ _) as [id|] eqn:Ef.
  - apply find_connection_in in Ef. destruct (ti_conn _ Hs _ _ Ef) as (t & l & r & Ht & El & Er & _).
    change (tcp_store (tables s) !! id) with (sock id s) in Ht. rewrite Ht. simpl.
    destruct (segment_step_keeps l r sip sport seq ack flags payload t El Er) as (t' & acts & E & K). rewrite E. simpl.
    eexists _, _. split; [reflexivity|]. apply run_actions_inv. by apply (inv_put id t).
  - destruct (_ && _); [destruct (find_listener _ _ _)|]; eexists _, _; (split; [reflexivity|]); try done. by apply accept_syn_inv.
Qed.

Lemma collect_loop_ext now lip lport rip rport : forall queue s,
  let '(queue', _, _, s') := collect_loop now lip lport rip rport queue s in length queue' = length queue /\ ext s' = ext s.
Proof.
  induction queue as [|seg queue IH]; intros s; simpl; [done|]. destruct (_ && _).
  { specialize (IH s). destruct (collect_loop _ _ _ _ _ queue s) as [[[q p] to] s']. simpl. by destruct IH as [-> ->]. }
  destruct (_ && _); [done|]. unfold tcp_mss_for_dst. set (s1 := set_path_mtu_cache _ s). specialize (IH s1).
  destruct (collect_loop _ _ _ _ _ queue s1) as [[[q p] to] s']. simpl. by destruct IH as [-> ->].
Qed.

Lemma collect_inv now id s : inv s -> inv (collect_retransmits now id s).1.
Proof.
  intros Hs. unfold collect_retransmits. destruct (sock id s) as [t|] eqn:Et; [|done].
  destruct (t_local_addr t) as [[lip lport]|]; [|done]. destruct (t_remote_addr t) as [[rip rport]|]; [|done].
  case_bool_decide; [apply (inv_put id t); [done..|plain_sock]|].
  pose proof (collect_loop_ext now lip lport rip rport (retransmit_queue t) s) as Hc.
  destruct (collect_loop _ _ _ _ _ _ s) as [[[q p] to] s1]. destruct Hc as [Hl He].
  assert (Hs1 : inv s1) by (by apply (inv_ext s)). assert (Et1 : sock id s1 = Some t) by (unfold sock, tables; by rewrite He).
  destruct to; cbn [fst].
  - match goal with |- inv (match _ with Some w => wake w ?x | None => _ end) => assert (Hx : inv x) end.
    { apply (inv_put id t); [done..|plain_sock]. }
    destruct (recv_waker t); [by apply inv_wake|done].
  - apply (inv_put id t); [done..|]. split; [|by split]. intros [? ? ? ?]. split; simpl; try done. by rewrite Hl.
Qed.

Lemma poll_socket_inv now s id : inv s -> inv (poll_socket now s id).
Proof.
  intros Hs. unfold poll_socket. pose proof (collect_inv now id s Hs) as Hi1. destruct (collect_retransmits now id s) as [s1 pending].
  assert (Hi2 : inv (send_pending pending s1)).
  { apply (send_pending_keeps inv inv_ext); intros; [by apply xmit_keeps|by apply poll_keeps|done]. }
  destruct (sock id _); [|done]. destruct (_ && _); [|done]. apply inv_upd; [|done]. intros g. apply unregister_TInv.
Qed.

Lemma poll_all_inv s : inv s -> inv (poll_all s).
Proof.
  unfold poll_all. generalize (time_us s). intros now. generalize (map snd (CONNECTIONS (tables s))). intros l. revert s.
  induction l as [|id l IH]; intros s Hs; [done|]. apply IH. by apply poll_socket_inv.
Qed.

Lemma poll_rx_all_inv s : inv s -> inv (poll_rx_all s).
Proof.
  intros Hs. unfold poll_rx_all. apply poll_all_inv. revert s Hs. generalize all_devices. induction l as [|d l IH]; intros s Hs; [done|].
  apply IH. by apply poll_keeps.
Qed.

Lemma silence_inv ip port now s : inv s -> TInv (silence_step ip port now (tables s)).1.
Proof. intros Hs. apply (sub_TInv (tables s)); try done. apply Hs. Qed.

(** ** Calls *)

(** The reception of a segment is such a sequence of sections, whatever the devices deliver
    while the answers are sent. *)
Lemma sections_send g0 lip rip lport rport seq ack flags payload s : rtc table_step g0 (tables s) ->
  rtc table_step g0 (tables (fst (tcp_send_segment lip rip lport rport seq ack flags payload s))).
Proof.
  apply (tcp_send_segment_keeps (fun s => rtc table_step g0 (tables s))).
  - unfold tables. by intros s1 s2 ->.
  - intros d skb s1 Hr. etrans; [exact Hr|apply xmit_delivers].
  - intros d s1 Hr. etrans; [exact Hr|apply poll_delivers].
Qed.

Lemma sections_action g0 a s : rtc table_step g0 (tables s) -> rtc table_step g0 (tables (run_action s a)).
Proof.
  intros Hr. destruct a as [[lip lport] [rip rport] seq ack flags|local remote|w|local]; simpl.
  - by apply sections_send.
  - unfold upd_tables. rewrite tables_set. eapply rtc_r; [exact Hr|constructor].
  - done.
  - unfold wake_accept. destruct local as [[ip port]|]; [|done]. destruct (find_listener _ _ _) as [id|]; [|done]. destruct (sock id s) as [t|] eqn:Et; [|done].
    assert (rtc table_step g0 (tables (put_sock id (with_accept_waker t None) s))); [|by destruct (accept_waker t)].
    unfold put_sock, upd_tables. rewrite tables_set. eapply rtc_r; [exact Hr|by constructor].
Qed.

Lemma dispatch_delivers sip dip sport dport seq ack flags payload s s' b :
  dispatch sip dip sport dport seq ack flags payload s = Some (s', b) -> rtc table_step (tables s) (tables s').
Proof.
  unfold dispatch. destruct (find_connection _ _ _ _ _) as [id|] eqn:Ef.
  - destruct (sock id s) as [t|] eqn:Et; [|done]. simpl. destruct (segment_step _ _ _ _ _ _ t) as [[t' acts]|] eqn:E; [|done]. intros [= <- _].
    assert (Hr : rtc table_step (tables s) (tables (put_sock id t' s))).
    { unfold put_sock, upd_tables. rewrite tables_set. apply rtc_once. by eapply tb_segment. }
    revert Hr. generalize (put_sock id t' s). clear E. induction acts as [|a acts IH]; intros s1 Hr; [done|]. apply IH. by apply sections_action.
  - destruct (_ && _); [|by intros [= <- _]]. destruct (find_listener _ _ _); [|by intros [= <- _]]. intros [= <- _].
    destruct (accept_syn_eq n sip dip sport dport seq s) as (s1 & Et & ->). apply sections_send. rewrite Et. apply rtc_once. constructor.
Qed.

Definition env_keeps (env : list (Net X -> Net X)) : Prop := Forall (fun e => forall s, inv s -> inv (e s)) env.

Lemma check_window_inv id s : inv s -> inv (check_window id s).1 /\
  match (check_window id s).2 with Some (Ok _) => exists t, sock id (check_window id s).1 = Some t | _ => True end.
Proof.
  intros Hs. unfold check_window. destruct (sock id s) as [t|] eqn:Et; [|done]. cbn [take_error fst snd].
  split; [apply (inv_put id t); [done..|plain_sock]|]. destruct (so_error t); [done|]. destruct (negb _); [done|].
  destruct (_ <? _)%nat; [|done]. eexists. unfold sock, put_sock, upd_tables. rewrite tables_set. apply lookup_insert_eq.
Qed.

Lemma wait_inv start id : forall env s, env_keeps env -> inv s ->
  let '(s', env', _) := wait_for_send_window env start id s in inv s' /\ env_keeps env'.
Proof.
  induction env as [|e env IH]; intros s He Hs; cbn [wait_for_send_window];
    pose proof (proj1 (check_window_inv id s Hs)) as Hc; destruct (check_window id s) as [s1 [r|]]; try done;
    pose proof (poll_rx_all_inv s1 Hc) as Hp; pose proof (proj1 (check_window_inv id _ Hp)) as Hc2;
    destruct (check_window id (poll_rx_all s1)) as [s2 [r|]]; try done; (destruct (_ <=? _); [done|]); [done|].
  apply Forall_cons in He as [He Hes]. apply IH; [done|]. by apply He.
Qed.

Lemma mss_inv rip s : inv s -> inv (tcp_mss_for_dst rip s).1 /\ (forall id, sock id (tcp_mss_for_dst rip s).1 = sock id s).
Proof. intros Hs. split; [by apply (inv_ext s)|done]. Qed.

Lemma take_segment_keeps data sent mss now t : keeps_sock t (take_segment data sent mss now t).1.
Proof. unfold take_segment. simpl. eapply keeps_sock_trans; [|apply track_segment_keeps]. unfold segment_end_seq. plain_sock. Qed.

Lemma untrack_keeps seq t : keeps_sock t (untrack_segment seq t).
Proof. apply filter_retransmit_keeps. Qed.

Lemma send_loop_inv id data : forall fuel env sent since s, env_keeps env -> inv s ->
  let '(s', env', _) := send_loop fuel env id data sent since s in inv s' /\ env_keeps env'.
Proof.
  induction fuel as [|fuel IH]; intros env sent since s He Hs; [done|]. cbn [send_loop]. destruct (_ <? _)%nat; [|done].
  pose proof (wait_inv (time_us s) id env s He Hs) as Hw. destruct (wait_for_send_window env (time_us s) id s) as [[s1 env1] [[u|e]|]]; [|done..].
  destruct Hw as [Hs1 He1]. destruct (sock id s1) as [t|] eqn:Et; [|done]. destruct (negb _); [done|].
  destruct (t_local_addr t) as [[lip lport]|]; [|done]. destruct (t_remote_addr t) as [[rip rport]|]; [|done].
  destruct (mss_inv rip s1 Hs1) as [Hs2 Hsk]. destruct (tcp_mss_for_dst rip s1) as [s2 mss]. simpl in Hs2, Hsk.
  pose proof (take_segment_keeps data sent (Nat.max (Z.to_nat mss) 1) (time_us s2) t) as K.
  assert (Hq : in_u 32 (take_segment data sent (Nat.max (Z.to_nat mss) 1) (time_us s2) t).2.1.1.1) by (apply (ti_sock _ Hs1 id t Et)).
  destruct (take_segment _ _ _ _ t) as [t' [[[seq ack] flags] take_]]. simpl in K, Hq.
  assert (Hs3 : inv (put_sock id t' s2)) by (apply (inv_put id t); [done|by rewrite Hsk|done]).
  pose proof (inv_send lip rip lport rport seq ack flags (slice sent (sent + take_) data) _ Hs3) as Hs4.
  destruct (tcp_send_segment _ _ _ _ _ _ _ _ _) as [s4 [u'|e]]; cbn [fst] in Hs4.
  - destruct (_ <=? _)%nat; [apply IH; [done|by apply poll_rx_all_inv]|by apply IH].
  - split; [|done]. apply inv_upd; [|done]. intros g Ig. apply alter_TInv; [|done]. intros x _.
    destruct (_ =? _); [|apply untrack_keeps]. eapply keeps_sock_trans; [apply untrack_keeps|].
    split; [|by split]. intros [W1 W2 W3 W4]. split; [exact W1|exact W2|exact Hq|exact W4].
Qed.

Lemma send_slices_inv id : forall bufs env sent s, env_keeps env -> inv s ->
  let '(s', env', _) := send_slices env id bufs sent s in inv s' /\ env_keeps env'.
Proof.
  induction bufs as [|b bufs IH]; intros env sent s He Hs; [done|]. cbn [send_slices]. case_bool_decide; [by apply IH|].
  unfold send_tracked. rewrite bool_decide_eq_false_2 by done. pose proof (send_loop_inv id b (length b) env 0 0 s He Hs) as Hl.
  destruct (send_loop _ _ _ _ _ _ s) as [[s1 env1] [[n|e]|]]; [|done..]. destruct Hl as [Hs1 He1].
  destruct (_ <? _)%nat; [done|]. by apply IH.
Qed.

Lemma connect_addr_inv rip entropy local s : inv s -> inv (connect_addr rip entropy local s).1 /\
  (forall id, sock id (connect_addr rip entropy local s).1 = sock id s).
Proof.
  intros Hs. unfold connect_addr. destruct (match local with None => _ | Some _ => _ end) as [ni np]. destruct (_ || _); [|done].
  destruct (if Z.land rip _ =? _ then _ else _) as [lip|e]; [|done]. destruct np; [|done].
  assert (Hst : tcp_store (alloc_ephemeral_port entropy (tables s)).1 = tcp_store (tables s))
    by (unfold alloc_ephemeral_port; by destruct (_ =? 0)).
  assert (Hin : TInv (alloc_ephemeral_port entropy (tables s)).1)
    by (unfold alloc_ephemeral_port; destruct (_ =? 0); apply (sub_TInv (tables s)); try done; apply Hs).
  destruct (alloc_ephemeral_port entropy (tables s)) as [g p]. simpl in *. split; [by apply inv_set|].
  intros id. unfold sock. by rewrite tables_set, Hst.
Qed.

Lemma sock_put id t s i : sock i (put_sock id t s) = if decide (i = id) then Some t else sock i s.
Proof. unfold sock, put_sock, upd_tables. rewrite tables_set. simpl. rewrite lookup_insert. repeat case_decide; congruence. Qed.

Lemma do_connect_inv entropy id rip rport s : inv s -> inv (do_connect_setup entropy id rip rport s).1.
Proof.
  intros Hs. unfold do_connect_setup. destruct (sock id s) as [t|] eqn:Et; [|done]. destruct (t_remote_addr t) eqn:Er; [done|].
  destruct (connect_addr_inv rip entropy (t_local_addr t) s Hs) as [Hs1 Hsk].
  destruct (connect_addr _ _ _ s) as [s1 [local|e]]; [|done]. simpl in Hs1, Hsk. specialize (Hsk id). rewrite Et in Hsk.
  set (t1 := with_state _ _). pose proof (ti_sock _ Hs1 id t Hsk) as Hwf.
  assert (Hs2 : inv (put_sock id t1 s1)).
  { apply inv_set. apply (put_TInv id t); try done; [by destruct Hwf; split|]. intros c Hc. by apply (ti_accept _ Hs1 id t). }
  pose proof (register_connection_TInv id _ Hs2) as Hr.
  assert (Hst : tcp_store (register_connection id (tables (put_sock id t1 s1))).1 = tcp_store (tables (put_sock id t1 s1))).
  { unfold register_connection. destruct (_ ≫= t_local_addr); [|done]. by destruct (_ ≫= t_remote_addr). }
  destruct (register_connection id (tables (put_sock id t1 s1))) as [g [u|e]]; [|done]. simpl in Hr, Hst.
  assert (Hs3 : inv (put_sock id (track_segment (send_seq t1) 0 TCP_FLAG_SYN [] (time_us (set_tables g (put_sock id t1 s1)))
    (with_send_seq t1 (u32 (send_seq t1 + 1)))) (set_tables g (put_sock id t1 s1)))).
  { apply (inv_put id t1); [by apply inv_set| |].
    - unfold sock. rewrite tables_set, Hst. change (sock id (put_sock id t1 s1) = Some t1). rewrite sock_put. by rewrite decide_True.
    - eapply keeps_sock_trans; [|apply track_segment_keeps]. plain_sock. }
  pose proof (inv_send (fst local) rip (snd local) rport (send_seq t1) 0 TCP_FLAG_SYN [] _ Hs3) as Hs4.
  destruct (tcp_send_segment _ _ _ _ _ _ _ _ _) as [s4 [u'|e]]; [done|]. apply inv_upd; [|done].
  intros g' Ig. apply alter_TInv; [|done]. intros x _. apply untrack_keeps.
Qed.

Lemma connect_wait_inv deadline id : forall env s, env_keeps env -> inv s -> inv (connect_wait env deadline id s).1.
Proof.
  assert (Hend : forall t s, inv s -> sock id s = Some t ->
    inv (put_sock id (with_state (with_so_error t (Some ETIMEDOUT)) TcpSocketState.Closed)
      (upd_tables (unregister_socket (t_local_addr t) (t_remote_addr t) false (time_us s)) s))).
  { intros t s Hs Et. apply (inv_put id t); [apply inv_upd; [intros g; apply unregister_TInv|done]| |plain_sock].
    unfold sock, upd_tables. rewrite tables_set. unfold unregister_socket.
    destruct (t_local_addr t) as [[? ?]|]; [|done]. by destruct (t_remote_addr t). }
  induction env as [|e env IH]; intros s He Hs; cbn [connect_wait]; pose proof (poll_rx_all_inv s Hs) as Hp;
    destruct (sock id (poll_rx_all s)) as [t|] eqn:Et; try done.
  - destruct (t_state t); try done; try (destruct (_ <=? _); [by apply Hend|done]). apply (inv_put id t); [done..|plain_sock].
  - apply Forall_cons in He as [He Hes]. destruct (t_state t); try done; try (destruct (_ <=? _); [by apply Hend|apply IH; [done|by apply He]]).
    apply (inv_put id t); [done..|plain_sock].
Qed.

Lemma listen_inv id backlog s : inv s -> inv (listen id backlog s).1.
Proof.
  intros Hs. unfold listen. destruct (sock id s) as [t|] eqn:Et; [|done]. unfold tcp_listen. destruct (t_local_addr t) as [a|] eqn:El; [|done].
  destruct (_ =? _); [done|]. set (t1 := with_state t _). assert (Hs1 : inv (put_sock id t1 s)) by (apply (inv_put id t); [done..|plain_sock]).
  assert (Hr : TInv (register_listener id (tables (put_sock id t1 s))).1).
  { unfold register_listener. destruct (_ ≫= t_local_addr) as [addr|]; [|done]. set (recent := List.filter _ _). cbv zeta.
    destruct (existsb _ _); [apply (sub_TInv (tables (put_sock id t1 s))); try done; apply Hs1|].
    destruct Hs1 as [J1 J2 J3 J4 J5 J6 J7]. split; try done. simpl. intros ip port i [Hin|Hin]%elem_of_app; [by apply (J4 ip port)|].
    apply list_elem_of_singleton in Hin. injection Hin as -> -> ->. change (is_Some (sock id (put_sock id t1 s))). rewrite sock_put, decide_True by done. eauto. }
  destruct (register_listener id _) as [g r]. simpl in *. by apply inv_set.
Qed.

Lemma accept_inv id w s : inv s -> inv (accept id s).1 /\ inv (accept_or_register id w s).1.
Proof.
  intros Hs. unfold accept, accept_or_register. destruct (sock id s) as [t|] eqn:Et; [|done].
  destruct (accept_queue t) as [|c q] eqn:Eq; [split; [done|]; apply (inv_put id t); [done..|plain_sock]|].
  assert (inv (put_sock id (with_accept_queue t q) s)); [|done]. apply inv_set. apply (put_TInv id t); try done; [by destruct (ti_sock _ Hs id t Et); split|].
  simpl. intros x Hx. apply (ti_accept _ Hs id t x Et). rewrite Eq. by right.
Qed.

Lemma close_inv id s : inv s -> inv (tcp_close id s).
Proof.
  intros Hs. unfold tcp_close. destruct (sock id s) as [t|] eqn:Et; [|done]. set (s1 := upd_tables _ s).
  assert (Hs1 : inv s1) by (apply inv_upd; [intros g; apply unregister_TInv|done]).
  assert (Et1 : tcp_store (tables s1) !! id = Some t).
  { unfold s1, upd_tables. rewrite tables_set. rewrite <- Et. unfold sock, unregister_socket. destruct (t_local_addr t) as [[ip port]|]; [|done].
    case_bool_decide; by destruct (t_remote_addr t). }
  apply inv_set. apply (put_TInv id t); try done.
  - destruct (ti_sock _ Hs id t Et). split; simpl; try done; unfold TCP_MAX_OUT_OF_ORDER_SEGMENTS, TCP_MAX_RETRANSMIT_SEGMENTS; lia.
  - simpl. by intros c ?%elem_of_nil.
Qed.

Lemma track_fin_keeps next now t : keeps_sock t (track_fin next now t).
Proof.
  assert (Hfin : forall x q, keeps_sock x (with_state (with_send_seq x (u32 q)) next)) by (intros; plain_sock).
  unfold track_fin. eapply keeps_sock_trans; [apply track_segment_keeps|apply Hfin].
Qed.

Lemma send_fin_inv next id t local remote s : inv s -> sock id s = Some t -> inv (send_fin next id t local remote s).
Proof. intros Hs Et. apply inv_send. apply (inv_put id t); [done..|apply track_fin_keeps]. Qed.

Lemma socket_close_inv fl id s : inv s -> inv (socket_close fl id s).1.1.
Proof.
  intros Hs. unfold socket_close. destruct (sf_closed fl); [done|]. destruct (sock id s) as [t|] eqn:Et; [|done].
  case_bool_decide; [done|]. destruct (match t_local_addr t with Some _ => _ | None => _ end) as [local remote].
  destruct (_ && _); [by apply send_fin_inv|by apply close_inv].
Qed.

Lemma drop_received_inv id s : inv s -> inv (drop_received id s).
Proof. intros Hs. unfold drop_received. destruct (sock id s) as [t|] eqn:Et; [|done]. apply (inv_put id t); [done..|plain_sock]. Qed.

Lemma shutdown_inv how fl id s : inv s -> inv (socket_shutdown how fl id s).1.1.
Proof.
  intros Hs. assert (Hw : forall s', shutdown_write id s = Some s' -> inv s').
  { unfold shutdown_write. intros s'. destruct (sock id s) as [t|] eqn:Et; [|done]. destruct (t_local_addr t); [|done]. destruct (t_remote_addr t); [|done].
    case_bool_decide; [|done]. intros [= <-]. by apply send_fin_inv. }
  unfold socket_shutdown. pose proof (drop_received_inv id s Hs). destruct (how =? 0); [done|]. destruct (how =? 1).
  - destruct (shut_wr fl); [done|]. simpl. destruct (shutdown_write id s) as [s'|]; [by apply Hw|done].
  - destruct (how =? 2); [|done]. destruct (shut_wr fl); [done|]. destruct (shutdown_write id s) as [s'|]; [by apply drop_received_inv, Hw|done].
Qed.

Lemma bind_inv id addr port t s : inv s -> sock id s = Some t -> inv (put_sock id (tcp_bind addr port t).1 s).
Proof.
  intros Hs Et. unfold tcp_bind. destruct (t_local_addr t) eqn:El; (apply inv_set; apply (put_TInv id t); try done).
  - by apply (ti_sock _ Hs id).
  - intros c. by apply (ti_accept _ Hs id).
  - by destruct (ti_sock _ Hs id t Et); split.
  - intros c. by apply (ti_accept _ Hs id t).
Qed.

End Entry.
