(* ===== verification/TcpSendSpec.v ===== *)
(** * TCP sockets: what is sent stays until it is acknowledged

    The retransmission queue holds the sent segments without gap, from the
    oldest byte that is not acknowledged to the next sequence number; an
    acknowledgement removes what it covers and nothing else; a segment that is
    due is sent again whole, in pieces that fit the path. *)

From S2P Require Import Prelude SysErr NetState Pmtu Tcp TcpSock TcpSockSpec TcpSockSys TcpSockInv.

(** ** Flags *)

Lemma has_bit f k : 0 <= k -> has f (2 ^ k) = Z.testbit f k.
Proof.
  intros Hk. unfold has. destruct (Z.testbit f k) eqn:E; [apply negb_true_iff, Z.eqb_neq|apply negb_false_iff, Z.eqb_eq].
  - intros Hz. assert (Hb : Z.testbit (Z.land f (2 ^ k)) k = true) by (rewrite Z.land_spec, E, Z.pow2_bits_true by done; done).
    rewrite Hz, Z.bits_0 in Hb. done.
  - apply Z.bits_inj'. intros n Hn. rewrite Z.land_spec, Z.bits_0. destruct (decide (n = k)) as [->|Hne]; [by rewrite E|].
    rewrite Z.pow2_bits_false by done. apply andb_false_r.
Qed.

Lemma clear_has f m k : 0 <= k -> has (clear_flags f m) (2 ^ k) = Z.testbit f k && Z.testbit (255 - m) k.
Proof. intros Hk. by rewrite has_bit, <- Z.land_spec by done. Qed.

(** ** Pieces of a segment *)

(** Segments that follow each other from [seq] to [e]. *)
Inductive tiles : Z -> list PendingRetransmit -> Z -> Prop :=
| tiles_nil seq : tiles seq [] seq
| tiles_cons seq tx l e : tx_seq tx = seq -> tiles (segment_end_seq seq (tx_flags tx) (length (tx_payload tx))) l e -> tiles seq (tx :: l) e.

Lemma tiles_one tx : tiles (tx_seq tx) [tx] (segment_end_seq (tx_seq tx) (tx_flags tx) (length (tx_payload tx))).
Proof. constructor; [done|constructor]. Qed.

Lemma has_syn f : has f TCP_FLAG_SYN = Z.testbit f 1.
Proof. by apply (has_bit f 1). Qed.
Lemma has_fin f : has f TCP_FLAG_FIN = Z.testbit f 0.
Proof. by apply (has_bit f 0). Qed.

Lemma end_seq_flat seq flags n : segment_end_seq seq flags n =
  u32 (seq + Z.of_nat n + Z.b2z (Z.testbit flags 1) + Z.b2z (Z.testbit flags 0)).
Proof. unfold segment_end_seq. rewrite has_syn, has_fin, wrap_add_l. rewrite <- Z.add_assoc, (Z.add_comm (u32 _)), Z.add_assoc, wrap_add_r. f_equal. lia. Qed.

Section Chunks.
Context (lip lport rip rport : Z) (seg : RetransmitSegment) (mss : nat) (Hmss : (0 < mss)%nat) (Hseq : in_u 32 (rx_seq seg)).

(** What every piece has from the segment. *)
Definition piece_ok (tx : PendingRetransmit) : Prop :=
  tx_local_ip tx = lip /\ tx_local_port tx = lport /\ tx_remote_ip tx = rip /\ tx_remote_port tx = rport /\
  tx_ack tx = rx_ack seg /\ (0 < length (tx_payload tx) <= mss)%nat.

Let n := length (rx_payload seg).

(** The sequence number at which the piece from [offset] on starts. *)
Definition chunk_seq (offset : nat) : Z :=
  if (offset =? 0)%nat then rx_seq seg else u32 (u32 (rx_seq seg + Z.b2z (has (rx_flags seg) TCP_FLAG_SYN)) + u32 (Z.of_nat offset)).

Lemma chunk_seq_flat offset : chunk_seq offset =
  u32 (rx_seq seg + Z.of_nat offset + (if (offset =? 0)%nat then 0 else Z.b2z (Z.testbit (rx_flags seg) 1))).
Proof using Hseq.
  clear Hmss. unfold chunk_seq. rewrite has_syn. destruct (offset =? 0)%nat eqn:E; to_prop.
  - subst. rewrite wrap_small by (by rewrite !Z.add_0_r). by rewrite !Z.add_0_r.
  - rewrite wrap_add_l, wrap_add_r. f_equal. lia.
Qed.

(** The flags of the piece from [offset] to [e]: SYN on the first, FIN on the last. *)
Definition chunk_flags (offset e : nat) : Z :=
  let flags := if negb (offset =? 0)%nat then clear_flags (rx_flags seg) TCP_FLAG_SYN else rx_flags seg in
  if negb (e =? n)%nat then clear_flags flags (Z.lor TCP_FLAG_FIN TCP_FLAG_PSH) else flags.

Lemma chunk_flags_bits offset e : Z.testbit (chunk_flags offset e) 1 = Z.testbit (rx_flags seg) 1 && (offset =? 0)%nat /\
  Z.testbit (chunk_flags offset e) 0 = Z.testbit (rx_flags seg) 0 && (e =? n)%nat.
Proof using Type.
  unfold chunk_flags, clear_flags. destruct (offset =? 0)%nat, (e =? n)%nat; cbn [negb]; rewrite ?Z.land_spec;
    change (Z.testbit (255 - TCP_FLAG_SYN) 1) with false; change (Z.testbit (255 - TCP_FLAG_SYN) 0) with true;
    change (Z.testbit (255 - Z.lor TCP_FLAG_FIN TCP_FLAG_PSH) 1) with true; change (Z.testbit (255 - Z.lor TCP_FLAG_FIN TCP_FLAG_PSH) 0) with false;
    by rewrite ?andb_true_r, ?andb_false_r.
Qed.

Lemma chunk_loop_spec : forall fuel offset, (offset < n)%nat -> (n <= offset + fuel)%nat ->
  let l := chunk_loop fuel lip lport rip rport seg mss offset in
  tiles (chunk_seq offset) l (end_seq seg) /\ concat (tx_payload <$> l) = drop offset (rx_payload seg) /\ Forall piece_ok l /\ l <> [].
Proof using Hmss Hseq.
  induction fuel as [|fuel IH]; intros offset Ho Hf; [lia|]. cbn [chunk_loop]. fold n. rewrite (proj2 (Nat.ltb_lt _ _)) by done.
  set (e := Nat.min (offset + mss) n). fold (chunk_seq offset). fold (chunk_flags offset e). cbv zeta. set (tx := mkTx _ _ _ _ _ _ _ _).
  assert (Hlen : length (slice offset e (rx_payload seg)) = (e - offset)%nat) by (rewrite slice_length; fold n; unfold e; lia).
  assert (Hok : piece_ok tx) by (unfold piece_ok, tx; simpl; rewrite Hlen; unfold e; split_and!; try done; lia).
  assert (Hend : segment_end_seq (chunk_seq offset) (chunk_flags offset e) (e - offset) = if (e =? n)%nat then end_seq seg else chunk_seq e).
  { unfold end_seq. fold n. rewrite !end_seq_flat, !chunk_seq_flat, (proj1 (chunk_flags_bits offset e)), (proj2 (chunk_flags_bits offset e)).
    rewrite <- !Z.add_assoc, wrap_add_l. destruct (e =? n)%nat eqn:Ee; to_prop.
    - f_equal. destruct (offset =? 0)%nat; rewrite ?andb_true_r, ?andb_false_r; unfold e in *; simpl Z.b2z; lia.
    - rewrite (proj2 (Nat.eqb_neq e 0)) by (unfold e; lia). f_equal. destruct (offset =? 0)%nat; rewrite ?andb_true_r, ?andb_false_r; unfold e in *; simpl Z.b2z; lia. }
  assert (Hcat : slice offset e (rx_payload seg) ++ drop e (rx_payload seg) = drop offset (rx_payload seg)).
  { unfold slice. replace e with (offset + (e - offset))%nat at 2 by (unfold e; lia). rewrite <- drop_drop. apply take_drop. }
  destruct (e =? n)%nat eqn:Ee; to_prop.
  - assert (Hnil : chunk_loop fuel lip lport rip rport seg mss e = []).
    { destruct fuel; [done|]. cbn [chunk_loop]. fold n. by rewrite (proj2 (Nat.ltb_ge _ _)) by lia. }
    rewrite Hnil. split; [constructor; [done|]; simpl; rewrite Hlen, Hend; constructor|]. split; [|split; [by apply Forall_singleton|done]].
    rewrite <- Hcat, (drop_ge (rx_payload seg) e) by (fold n; lia). done.
  - destruct (IH e ltac:(unfold e in *; lia) ltac:(unfold e in *; lia)) as (H1 & H2 & H3 & _).
    split; [constructor; [done|]; simpl; rewrite Hlen, Hend; done|]. split; [|by split; [constructor|]]. rewrite fmap_cons. cbn [concat]. rewrite H2. exact Hcat.
Qed.

End Chunks.

(** A segment is sent again whole, in pieces of at most the path's MSS. *)
Lemma retransmit_chunks_spec lip lport rip rport seg mss : in_u 32 (rx_seq seg) ->
  let l := retransmit_chunks lip lport rip rport seg mss in
  tiles (rx_seq seg) l (end_seq seg) /\ concat (tx_payload <$> l) = rx_payload seg /\ l <> [] /\
  Forall (fun tx => tx_local_ip tx = lip /\ tx_local_port tx = lport /\ tx_remote_ip tx = rip /\ tx_remote_port tx = rport /\
    tx_ack tx = rx_ack seg /\ (length (tx_payload tx) <= Nat.max mss 1)%nat) l.
Proof.
  intros Hs. unfold retransmit_chunks. destruct (_ <=? _)%nat eqn:E; to_prop.
  - split; [constructor; [done|constructor]|]. split; [apply app_nil_r|]. split; [done|]. by apply Forall_singleton.
  - destruct (chunk_loop_spec lip lport rip rport seg (Nat.max mss 1) ltac:(lia) Hs (length (rx_payload seg)) 0) as (H1 & H2 & H3 & H4); [lia|lia|].
    split; [exact H1|]. split; [exact H2|]. split; [done|]. eapply Forall_impl; [exact H3|]. unfold piece_ok. intros tx. simpl. intuition lia.
Qed.

(** ** The queue of sent segments *)

Definition seg_len (seg : RetransmitSegment) : Z :=
  Z.of_nat (length (rx_payload seg)) + Z.b2z (Z.testbit (rx_flags seg) 1) + Z.b2z (Z.testbit (rx_flags seg) 0).

Section Tracked.
Context (base : Z).

(** The segments follow each other from offset [o] to offset [o'] of the stream. *)
Inductive tracked : Z -> list RetransmitSegment -> Z -> Prop :=
| tr_nil o : tracked o [] o
| tr_cons o seg q o' : rx_seq seg = seq_at base o -> 0 < seg_len seg -> tracked (o + seg_len seg) q o' -> tracked o (seg :: q) o'.

Lemma tracked_le o q o' : tracked o q o' -> o <= o' /\ (o = o' -> q = []).
Proof. induction 1 as [|o seg q o' _ Hl _ [IH _]]; [split; [lia|done]|split; lia]. Qed.

Lemma tracked_app o q1 m q2 o' : tracked o q1 m -> tracked m q2 o' -> tracked o (q1 ++ q2) o'.
Proof. induction 1; simpl; [done|]. intros. constructor; auto. Qed.

Lemma tracked_end o seg : rx_seq seg = seq_at base o -> end_seq seg = seq_at base (o + seg_len seg).
Proof.
  intros E. unfold end_seq. rewrite end_seq_flat, E. unfold seq_at. rewrite <- !Z.add_assoc, wrap_add_l. f_equal. unfold seg_len. lia.
Qed.

(** An acknowledgement of everything before the queue removes nothing. *)
Lemma ack_before a o q o' : tracked o q o' -> a <= o -> o' - a < 2 ^ 31 -> List.filter (fun seg => seq_after (end_seq seg) (seq_at base a)) q = q.
Proof.
  induction 1 as [|o seg q o' E Hl Ht IH]; intros Ha Hd; [done|]. simpl. pose proof (tracked_le _ _ _ Ht) as [Hle _].
  rewrite (tracked_end o seg E), seq_after_at, (proj2 (Z.ltb_lt _ _)), IH by lia. done.
Qed.

Lemma ack_tracked a o q o' : tracked o q o' -> o <= a <= o' -> o' - o < 2 ^ 31 ->
  exists q1 q2 m, q = q1 ++ q2 /\ List.filter (fun seg => seq_after (end_seq seg) (seq_at base a)) q = q2 /\
    tracked o q1 m /\ tracked m q2 o' /\ o <= m <= a /\ match q2 with [] => a = o' | seg :: _ => a < m + seg_len seg end.
Proof.
  induction 1 as [o|o seg q o' E Hl Ht IH]; intros Ha Hd.
  { exists [], [], o. split_and!; try done; try constructor; lia. }
  pose proof (tracked_le _ _ _ Ht) as [Hle _]. simpl. rewrite (tracked_end o seg E), seq_after_at by lia.
  destruct (a <? o + seg_len seg) eqn:Ea; to_prop.
  - exists [], (seg :: q), o. rewrite (ack_before a (o + seg_len seg) q o') by (done || lia).
    split_and!; try done; try constructor; try lia; done.
  - destruct IH as (q1 & q2 & m & -> & Hf & H1 & H2 & Hm & Hnext); [lia|lia|]. exists (seg :: q1), q2, m.
    split_and!; try done; try lia. by constructor.
Qed.

(** ** The sender's state *)

Definition pending_bytes (t : TcpSocket) : bytes := concat (rx_payload <$> retransmit_queue t).

(** From [una], the oldest byte not acknowledged, to [nxt], the next one to send. *)
Record snd_ok (una nxt : Z) (t : TcpSocket) : Prop := {
  so_tracked : tracked una (retransmit_queue t) nxt;
  so_next : send_seq t = seq_at base nxt;
  so_span : nxt - una < 2 ^ 31 }.

(** what is sent stays.  The segment that a turn of [send_tracked] takes
    continues the queue of sent segments without gap; an acknowledgement removes
    the segments it covers whole and no others, and only an acknowledgement of
    everything empties the queue; the window the sender waits for keeps the queue
    below the size at which its oldest segment would be given up. *)
Theorem tcp_unacked_tracked una nxt t : snd_ok una nxt t ->
  (forall data sent mss now, (length (retransmit_queue t) < TCP_MAX_RETRANSMIT_SEGMENTS)%nat -> (sent < length data)%nat -> (0 < mss)%nat ->
     let n := Nat.min mss (length data - sent) in nxt + Z.of_nat n - una < 2 ^ 31 ->
     let t' := (take_segment data sent mss now t).1 in
     snd_ok una (nxt + Z.of_nat n) t' /\ pending_bytes t' = pending_bytes t ++ slice sent (sent + n) data) /\
  (forall a, una <= a <= nxt -> let t' := ack_retransmit_queue (seq_at base a) t in
     exists una', una <= una' <= a /\ snd_ok una' nxt t' /\ (exists gone, pending_bytes t = gone ++ pending_bytes t') /\
       match retransmit_queue t' with [] => a = nxt | seg :: _ => a < una' + seg_len seg end) /\
  (TCP_SEND_WINDOW_SEGMENTS < TCP_MAX_RETRANSMIT_SEGMENTS)%nat.
Proof.
  intros [Ht Hn Hs]. split_and!.
  - intros data sent mss now Hq Hsent Hmss n Hsp t'.
    assert (Hlen : length (slice sent (sent + n) data) = n) by (rewrite slice_length; unfold n; lia).
    assert (Hrq : retransmit_queue t' = retransmit_queue t ++ [mkRtx (send_seq t) (recv_seq t) (Z.lor TCP_FLAG_ACK TCP_FLAG_PSH)
      (slice sent (sent + n) data) now TCP_INITIAL_RTO_US 0 false]).
    { unfold t', take_segment. cbn [fst]. fold n. unfold track_segment, segment_consumes_sequence. rewrite Hlen, (proj2 (Nat.ltb_lt 0 n)) by (unfold n; lia).
      cbn [negb orb]. cbn [retransmit_queue with_retransmit with_send_seq]. rewrite (proj2 (Nat.leb_gt _ _)) by done. done. }
    assert (Hsq : send_seq t' = seq_at base (nxt + Z.of_nat n)).
    { unfold t', take_segment. cbn [fst]. fold n. unfold track_segment. destruct (negb _); cbn [send_seq with_retransmit with_send_seq];
        rewrite end_seq_flat, Hn; unfold seq_at; rewrite <- !Z.add_assoc, wrap_add_l; f_equal; simpl Z.b2z; lia. }
    split; [split; [|done|lia]|unfold pending_bytes; rewrite Hrq, fmap_app, concat_app; simpl; by rewrite app_nil_r].
    rewrite Hrq. eapply tracked_app; [exact Ht|]. constructor; [done| |].
    + unfold seg_len. simpl. rewrite Hlen. unfold n. lia.
    + replace (nxt + Z.of_nat n) with (nxt + seg_len (mkRtx (send_seq t) (recv_seq t) (Z.lor TCP_FLAG_ACK TCP_FLAG_PSH)
        (slice sent (sent + n) data) now TCP_INITIAL_RTO_US 0 false)); [constructor|]. unfold seg_len. simpl. rewrite Hlen. lia.
  - intros a Ha t'. destruct (ack_tracked a una _ nxt Ht Ha Hs) as (q1 & q2 & m & Eq & Hf & H1 & H2 & Hm & Hnext). exists m.
    assert (Hrq : retransmit_queue t' = q2) by exact Hf. split; [done|]. split; [split; [by rewrite Hrq|done|lia]|].
    split; [|by rewrite Hrq]. exists (concat (rx_payload <$> q1)). unfold pending_bytes. rewrite Hrq, Eq, fmap_app. apply concat_app.
  - unfold TCP_SEND_WINDOW_SEGMENTS, TCP_MAX_RETRANSMIT_SEGMENTS. lia.
Qed.

End Tracked.

(** ** The timer *)

Definition due (now : Z) (seg : RetransmitSegment) : bool :=
  needs_retransmit seg || (rto_us seg <=? saturating_sub now (last_sent_us seg)).
Definition hopeless (now : Z) (seg : RetransmitSegment) : bool :=
  due now seg && negb (needs_retransmit seg) && (TCP_MAX_RETRIES <=? retries seg).

Section Timer.
Context {X : Type} `{NetDevices X} `{TcpHost X}.
Implicit Types s : Net X.

Lemma mss_stable rip s : (tcp_mss_for_dst rip (tcp_mss_for_dst rip s).1).2 = (tcp_mss_for_dst rip s).2.
Proof. rewrite !tcp_mss_effective. f_equal. apply effective_mtu_prune. Qed.

Lemma collect_loop_spec now lip lport rip rport : forall queue s,
  let mss := Z.to_nat (tcp_mss_for_dst rip s).2 in
  let '(queue', pending, timed_out, _) := collect_loop now lip lport rip rport queue s in
  timed_out = existsb (hopeless now) queue /\
  (timed_out = false -> queue' = map (fun seg => if due now seg then resent now seg else seg) queue /\
    pending = concat (map (fun seg => if due now seg then retransmit_chunks lip lport rip rport seg mss else []) queue)).
Proof.
  induction queue as [|seg queue IH]; intros s; cbn [collect_loop]; [done|].
  assert (Hdue : negb (needs_retransmit seg) && (saturating_sub now (last_sent_us seg) <? rto_us seg) = negb (due now seg)).
  { unfold due. rewrite negb_orb, Z.leb_antisym, negb_involutive. done. }
  rewrite Hdue. cbn [existsb map concat]. unfold hopeless at 1. destruct (due now seg); cbn [negb andb orb].
  - destruct (negb (needs_retransmit seg) && (TCP_MAX_RETRIES <=? retries seg)) eqn:Eh; [done|].
    pose proof (mss_stable rip s) as Hm. destruct (tcp_mss_for_dst rip s) as [s1 m] eqn:Em. cbn [fst snd] in Hm. specialize (IH s1).
    destruct (collect_loop now lip lport rip rport queue s1) as [[[q p] to] s2]. destruct IH as [-> IH]. split; [done|].
    intros Hto. destruct (IH Hto) as [-> ->]. cbn [snd]. by rewrite Hm.
  - specialize (IH s). destruct (collect_loop now lip lport rip rport queue s) as [[[q p] to] s2]. destruct IH as [-> IH]. split; [done|].
    intros Hto. by destruct (IH Hto) as [-> ->].
Qed.

(** the retransmission timer.  A segment is due when its timeout has passed
    or the path MTU has shrunk.  Every due segment is sent again whole, in pieces
    of at most the path's MSS that follow each other with SYN on the first and
    FIN on the last; its timeout doubles up to 8 s.  A segment that is due after
    8 attempts closes the connection with ETIMEDOUT, drops what is queued, wakes
    the reader and sends nothing. *)
Theorem tcp_retransmit_exact now id t lip lport rip rport s : sock id s = Some t ->
  t_local_addr t = Some (lip, lport) -> t_remote_addr t = Some (rip, rport) -> t_state t <> TcpSocketState.Closed ->
  Forall (fun seg => in_u 32 (rx_seq seg)) (retransmit_queue t) ->
  let mss := Z.to_nat (tcp_mss_for_dst rip s).2 in
  let '(s', pending) := collect_retransmits now id s in
  (if existsb (hopeless now) (retransmit_queue t)
   then pending = [] /\ exists s1, ext s1 = ext s /\ s' = (match recv_waker t with Some w => wake w | None => fun s => s end)
     (put_sock id (with_recv_waker (with_state (with_so_error (with_pending_fin (with_out_of_order (with_receive_queue
       (with_retransmit t []) []) []) None) (Some ETIMEDOUT)) TcpSocketState.Closed) None) s1)
   else pending = concat (map (fun seg => if due now seg then retransmit_chunks lip lport rip rport seg mss else []) (retransmit_queue t)) /\
     exists s1, ext s1 = ext s /\
       s' = put_sock id (with_retransmit t (map (fun seg => if due now seg then resent now seg else seg) (retransmit_queue t))) s1) /\
  Forall (fun seg => let l := retransmit_chunks lip lport rip rport seg mss in
    tiles (rx_seq seg) l (end_seq seg) /\ concat (tx_payload <$> l) = rx_payload seg /\ l <> [] /\
    Forall (fun tx => (length (tx_payload tx) <= Nat.max mss 1)%nat) l /\ rto_us (resent now seg) <= TCP_MAX_RTO_US) (retransmit_queue t).
Proof.
  intros Ht El Er Hst Hseq mss. unfold collect_retransmits. rewrite Ht, El, Er, bool_decide_eq_false_2 by done.
  pose proof (collect_loop_spec now lip lport rip rport (retransmit_queue t) s) as Hc.
  pose proof (collect_loop_ext now lip lport rip rport (retransmit_queue t) s) as He.
  destruct (collect_loop now lip lport rip rport (retransmit_queue t) s) as [[[q p] to] s1]. destruct He as [_ He], Hc as [-> Hc].
  assert (Hch : Forall (fun seg => let l := retransmit_chunks lip lport rip rport seg mss in
    tiles (rx_seq seg) l (end_seq seg) /\ concat (tx_payload <$> l) = rx_payload seg /\ l <> [] /\
    Forall (fun tx => (length (tx_payload tx) <= Nat.max mss 1)%nat) l /\ rto_us (resent now seg) <= TCP_MAX_RTO_US) (retransmit_queue t)).
  { eapply Forall_impl; [exact Hseq|]. intros seg Hs. destruct (retransmit_chunks_spec lip lport rip rport seg mss Hs) as (R1 & R2 & R3 & R4).
    cbv zeta. split_and!; try done; [eapply Forall_impl; [exact R4|]; simpl; intuition|]. unfold resent. destruct (needs_retransmit seg); simpl; [|lia].
    unfold TCP_INITIAL_RTO_US, TCP_MAX_RTO_US. lia. }
  destruct (existsb (hopeless now) (retransmit_queue t)); (split; [|done]).
  - split; [done|]. exists s1. split; [done|]. by destruct (recv_waker t).
  - destruct (Hc eq_refl) as [-> ->]. split; [done|]. by exists s1.
Qed.
End Timer.

(** ** A sender whose sequence numbers wrap around *)

Definition demo_sender : TcpSocket := with_send_seq (tcp_socket_new 0) 4294967294.

Lemma tcp_unacked_tracked_witness :
  let t1 := (take_segment [1; 2; 3; 4; 5] 0 3 7 demo_sender).1 in
  snd_ok 4294967294 0 3 t1 /\ pending_bytes t1 = [1; 2; 3] /\ send_seq t1 = 1.
Proof.
  assert (Hd : snd_ok 4294967294 0 0 demo_sender) by (split; [constructor|reflexivity|lia]).
  destruct (tcp_unacked_tracked 4294967294 0 0 demo_sender Hd) as (H & _).
  destruct (H [1; 2; 3; 4; 5] 0%nat 3%nat 7) as [H1 H2]; [vm_compute; lia|simpl; lia|lia|vm_compute; reflexivity|].
  split; [exact H1|]. split; [exact H2|reflexivity].
Defined.
