(* ===== verification/TcpSockMain.v ===== *)
(** * TCP sockets on the network stack

    The safety of every entry point of the TCP sockets, the allocation of
    ephemeral ports, and the three-way handshake between two hosts: the client's
    [connect], the frames of the stack (Ip.v) and the sockets at both ends. *)

From S2P Require Import Prelude SysErr Skb Wire NetState Neighbor IpOut Udp Pmtu Tcp Ip TcpSock TcpSockSys TcpSockInv TcpSockSpec TcpSendSpec.

(** The tables and a link: they are different parts of the state. *)
Class TcpWire (X : Type) `{WireLaws X} `{TcpHost X} := {
  wire_put g x : on_wire (put_tcp g x) = on_wire x;
  xmit_tables d skb s : dev_name d <> "loopback"%string -> tables (fst (hard_start_xmit d skb s)) = tables s }.

(** The peer's acknowledgement covers the SYN. *)
Lemma syn_acked q ack now rto n b : seq_after (end_seq (mkRtx q ack TCP_FLAG_SYN [] now rto n b)) (u32 (q + 1)) = false.
Proof.
  unfold end_seq. rewrite end_seq_flat. cbn [rx_seq rx_flags rx_payload length]. replace (q + Z.of_nat 0 + _ + _) with (q + 1) by (cbn; lia).
  unfold seq_after, seq_before. rewrite Z.sub_diag. reflexivity.
Qed.

(** ** One host of a connection *)

Section OneHost.
Context {X : Type} `{WireLaws X} `{!NetDeviceTypes X} `{BuildConfig} `{TcpHost X} `{!TcpHostLaws X} `{!TcpWire X}.
Implicit Types s : Net X.

Lemma send_tables lip rip lport rport seq ack flags payload dev mac s : resolved s rip dev mac ->
  tables (fst (tcp_send_segment lip rip lport rport seq ack flags payload s)) = tables s.
Proof.
  intros [(nh & Hr & Ha) Hl Hi]. destruct (tcp_send_segment_spec lip rip lport rport seq ack flags payload s) as (skb & cache & window & opt & Wk & _ & _ & ->).
  destruct (ip_queue_xmit_spec skb lip rip 6 (set_path_mtu_cache cache s) Wk) as (skb' & _ & _ & ->).
  change (route_lookup (set_path_mtu_cache cache s) rip) with (route_lookup s rip). rewrite Hr.
  unfold neighbour_output. rewrite bool_decide_eq_false_2, Hi by done.
  change (arp_lookup (fst (fast_random (set_path_mtu_cache cache s))) nh) with (arp_lookup s nh). rewrite Ha. unfold xmit_ip_packet.
  destruct (push_bytes _ _) as [sk|]; [|done]. pose proof (xmit_tables dev sk (fst (fast_random (set_path_mtu_cache cache s))) Hl) as Hx.
  destruct (hard_start_xmit _ _ _) as [? []]; exact Hx.
Qed.

(** A segment that the sockets take is done with. *)
Lemma input_dispatch sip dip sport dport seq ack flags payload s s' : has flags TCP_FLAG_RST = false ->
  has flags TCP_FLAG_ACK || has flags TCP_FLAG_SYN = true ->
  dispatch sip dip sport dport seq ack flags payload s = Some (s', true) -> tcp_input sip dip sport dport seq ack flags payload s = s'.
Proof.
  intros Hr Hf Hd. unfold tcp_input. rewrite Hr. rewrite <- !orb_assoc, Hf, !orb_true_r. unfold try_dispatch_or_rst. simpl. by rewrite Hd.
Qed.

(** What a path depends on. *)
Lemma resolved_net s s' dst dev mac : route_table s' = route_table s -> arp_cache s' = arp_cache s -> resolved s dst dev mac -> resolved s' dst dev mac.
Proof.
  intros Er Ea [(nh & Hr & Ha) Hl Hi]. split; [|done..]. exists nh. unfold route_lookup, arp_lookup in *. by rewrite Er, Ea.
Qed.

Lemma find_set_connection key id table : List.find (fun '(k, _) => bool_decide (k = key)) (set_connection key id table) = Some (key, id).
Proof.
  induction table as [|[k i] table IH]; simpl; [by rewrite bool_decide_eq_true_2|].
  case_bool_decide; simpl; [subst; by rewrite bool_decide_eq_true_2|by rewrite bool_decide_eq_false_2].
Qed.

Lemma find_registered cip cport sip sport id t g : tcp_store g !! id = Some t -> t_local_addr t = Some (cip, cport) ->
  t_remote_addr t = Some (sip, sport) -> find_connection sip sport cip cport (register_connection id g).1 = Some id /\ (register_connection id g).2 = Ok tt.
Proof.
  intros Ht El Er. unfold register_connection. rewrite Ht. simpl. rewrite El, Er. split; [|done].
  unfold find_connection, conn_key. simpl. by rewrite find_set_connection.
Qed.

(** The same routes, neighbours and addresses, and nothing more on the wire. *)
Record same_link s s' : Prop := {
  sl_route : route_table s' = route_table s;
  sl_arp : arp_cache s' = arp_cache s;
  sl_local : local_ips s' = local_ips s;
  sl_wire : on_wire (ext s') = on_wire (ext s) }.

Lemma same_link_tables f s : same_link s (upd_tables f s).
Proof. split; try done. apply wire_put. Qed.

Lemma same_link_trans s1 s2 s3 : same_link s1 s2 -> same_link s2 s3 -> same_link s1 s3.
Proof. intros [? ? ? ?] [? ? ? ?]. split; congruence. Qed.

(** [connect]: the SYN leaves a socket that waits for the answer. *)
Lemma connect_syn entropy id t cip cport sip sport s : sock id s = Some t -> t_remote_addr t = None ->
  (connect_addr sip entropy (t_local_addr t) s).2 = Ok (cip, cport) ->
  exists s', same_link s s' /\ woken s' = woken s /\
    (let r := tcp_send_segment cip sip cport sport (send_seq t) 0 TCP_FLAG_SYN [] s' in
     r.2 = Ok tt -> do_connect_setup entropy id sip sport s = (r.1, Ok (send_seq t))) /\
    sock id s' = Some (track_segment (send_seq t) 0 TCP_FLAG_SYN [] (time_us s) (with_send_seq (with_state
      (with_addrs t (Some (cip, cport)) (Some (sip, sport))) TcpSocketState.SynSent) (u32 (send_seq t + 1)))) /\
    find_connection sip sport cip cport (tables s') = Some id.
Proof.
  intros Ht Er Hca. unfold do_connect_setup. rewrite Ht, Er.
  assert (Hs1 : exists f, (connect_addr sip entropy (t_local_addr t) s).1 = upd_tables f s \/ (connect_addr sip entropy (t_local_addr t) s).1 = s).
  { exists (fun _ => (alloc_ephemeral_port entropy (tables s)).1). unfold connect_addr. destruct (match t_local_addr t with None => _ | Some _ => _ end) as [ni np].
    destruct (_ || _); [|by right]. destruct (if Z.land sip _ =? _ then _ else _); [|by right]. destruct np; [|by right]. left.
    unfold upd_tables. by destruct (alloc_ephemeral_port entropy (tables s)). }
  destruct (connect_addr sip entropy (t_local_addr t) s) as [s1 r]. simpl in Hca, Hs1. subst r. cbv zeta.
  assert (L1 : same_link s s1 /\ woken s1 = woken s /\ time_us s1 = time_us s).
  { destruct Hs1 as (f & [-> | ->]); [split; [apply same_link_tables|done]|by split]. }
  destruct L1 as (L1 & Hw & Htm). clear Hs1. set (t1 := with_state _ _). set (s2 := put_sock id t1 s1).
  assert (Hs2 : tcp_store (tables s2) !! id = Some t1) by (change (sock id s2 = Some t1); unfold s2; rewrite sock_put; by rewrite decide_True).
  destruct (find_registered cip cport sip sport id t1 (tables s2) Hs2 eq_refl eq_refl) as [Hf Hok].
  destruct (register_connection id (tables s2)) as [g r] eqn:Eg. simpl in Hok, Hf. subst r. cbn [send_seq t1 with_state with_addrs fst snd].
  set (t2 := track_segment _ _ _ _ _ _). exists (put_sock id t2 (set_tables g s2)).
  split; [|split; [done|split; [|split]]].
  - eapply same_link_trans; [exact L1|]. eapply same_link_trans; [apply (same_link_tables (fun g => with_store (<[id := t1]> (tcp_store g)) g))|].
    eapply same_link_trans; [apply (same_link_tables (fun _ => g))|]. apply (same_link_tables (fun g => with_store (<[id := t2]> (tcp_store g)) g)).
  - intros Hr. change (send_seq t1) with (send_seq t). destruct (tcp_send_segment _ _ _ _ _ _ _ _ _) as [s4 r4]. simpl in Hr. by subst r4.
  - rewrite sock_put, decide_True by done. unfold t2. change (time_us (set_tables g s2)) with (time_us s1). by rewrite Htm.
  - unfold put_sock, upd_tables. rewrite !tables_set. exact Hf.
Qed.

(** The SYN at a listener: a new socket, known by its addresses and queued at the
    listener, answers. *)
Lemma listener_syn lid l cip cport sip sport seq ack s : TInv (tables s) -> find_connection cip cport sip sport (tables s) = None ->
  find_listener sip sport (tables s) = Some lid -> sock lid s = Some l ->
  let iss := NEXT_ISS (tables s) in let child := next_sock (tables s) in
  exists s', same_link s s' /\ woken s' = woken s /\
    dispatch cip sip cport sport seq ack TCP_FLAG_SYN [] s =
      Some (fst (tcp_send_segment sip cip sport cport iss (u32 (seq + 1)) (Z.lor TCP_FLAG_SYN TCP_FLAG_ACK) [] s'), true) /\
    sock child s' = Some (mkTcpSocket (Some (sip, sport)) (Some (cip, cport)) TcpSocketState.SynReceived
      (u32 (iss + 1)) (u32 (seq + 1)) [] [] [] None None [] None None) /\
    find_connection cip cport sip sport (tables s') = Some child /\ find_listener sip sport (tables s') = Some lid /\
    sock lid s' = Some (with_accept_queue l (accept_queue l ++ [child])) /\ lid <> child.
Proof.
  intros I Hc Hl Hlid iss child. assert (Hne : lid <> child) by (intros E; pose proof (ti_fresh _ I lid l Hlid); unfold child in *; lia).
  unfold dispatch. rewrite Hc, Hl. change (has TCP_FLAG_SYN TCP_FLAG_SYN && negb (has TCP_FLAG_SYN TCP_FLAG_ACK)) with true. cbv iota.
  unfold accept_syn. fold iss. set (ch := mkTcpSocket _ _ _ _ _ _ _ _ _ _ _ _ _).
  change (new_sock ch (tables (upd_tables (with_next_iss (u32 (iss + 4096))) s))) with
    (let g := tables (upd_tables (with_next_iss (u32 (iss + 4096))) s) in (next_sock g, (new_sock ch g).2)).
  assert (Et : tables (upd_tables (with_next_iss (u32 (iss + 4096))) s) = with_next_iss (u32 (iss + 4096)) (tables s)) by apply tables_set.
  rewrite Et. cbv zeta. change (next_sock (with_next_iss (u32 (iss + 4096)) (tables s))) with child.
  set (g := (new_sock ch _).2). assert (Hch : tcp_store g !! child = Some ch) by apply lookup_insert_eq.
  destruct (find_registered sip sport cip cport child ch g Hch eq_refl eq_refl) as [Hf _].
  assert (Hst : tcp_store (register_connection child g).1 = tcp_store g /\ LISTENERS (register_connection child g).1 = LISTENERS (tables s))
    by (unfold register_connection; rewrite Hch; done).
  destruct (register_connection child g) as [g1 r]. simpl in Hf, Hst. destruct Hst as [Hst Hls].
  eexists (upd_tables _ (set_tables g1 (upd_tables (with_next_iss (u32 (iss + 4096))) s))). split; [|split; [|split; [reflexivity|]]].
  - eapply same_link_trans; [apply (same_link_tables (with_next_iss (u32 (iss + 4096))))|].
    eapply same_link_trans; [apply (same_link_tables (fun _ => g1))|apply same_link_tables].
  - done.
  - unfold sock, upd_tables. rewrite !tables_set. cbn [tcp_store with_store fst]. rewrite Hst, !lookup_alter, decide_False, decide_True by done. split; [exact Hch|].
    split; [exact Hf|]. split; [unfold find_listener; cbn [LISTENERS with_store]; by rewrite Hls|].
    split; [|done]. replace (tcp_store g !! lid) with (Some l); [done|]. symmetry. change (<[child := ch]> (tcp_store (tables s)) !! lid = Some l).
    by rewrite lookup_insert_ne.
Qed.

(** The SYN|ACK at the client: it is established and acknowledges. *)
Lemma client_syn_ack id t cip cport sip sport seq s : find_connection sip sport cip cport (tables s) = Some id ->
  sock id s = Some t -> t_state t = TcpSocketState.SynSent -> t_local_addr t = Some (cip, cport) -> t_remote_addr t = Some (sip, sport) ->
  let t' := with_recv_waker (with_state (with_so_error (with_recv_seq (ack_retransmit_queue (send_seq t) t) (u32 (seq + 1))) None)
    TcpSocketState.Established) None in
  exists s', same_link s s' /\ woken s' = woken s ++ (match recv_waker t with Some w => [w] | None => [] end) /\
    dispatch sip cip sport cport seq (send_seq t) (Z.lor TCP_FLAG_SYN TCP_FLAG_ACK) [] s =
      Some (fst (tcp_send_segment cip sip cport sport (send_seq t) (u32 (seq + 1)) TCP_FLAG_ACK [] s'), true) /\
    sock id s' = Some t'.
Proof.
  intros Hf Ht Hst El Er t'. unfold dispatch. rewrite Hf, Ht. cbn [mbind option_bind]. unfold segment_step.
  change (has (Z.lor TCP_FLAG_SYN TCP_FLAG_ACK) TCP_FLAG_RST) with false. change (has (Z.lor TCP_FLAG_SYN TCP_FLAG_ACK) TCP_FLAG_ACK) with true. cbv iota zeta.
  change (t_state (ack_retransmit_queue (send_seq t) t)) with (t_state t). rewrite Hst. rewrite Z.land_diag, Z.eqb_refl.
  change (send_seq (ack_retransmit_queue (send_seq t) t)) with (send_seq t). rewrite Z.eqb_refl. cbn [andb].
  unfold act_ack, act_send. cbn -[tcp_send_segment fold_left]. rewrite El, Er. cbn -[tcp_send_segment fold_left].
  exists (fold_left run_action (match recv_waker t with Some w => [ActWake w] | None => [] end) (put_sock id t' s)).
  assert (Hl : same_link s (put_sock id t' s)) by (apply (same_link_tables (fun g => with_store (<[id := t']> (tcp_store g)) g))).
  assert (Hk : sock id (put_sock id t' s) = Some t') by (rewrite sock_put; by rewrite decide_True).
  destruct (recv_waker t); simpl; (split; [|split; [|split]]); try done; [by destruct Hl|by rewrite app_nil_r].
Qed.

(** The ACK at the server: the new socket is established and the listener's waker fires. *)
Lemma child_ack lid l child ch cip cport sip sport seq s : find_connection cip cport sip sport (tables s) = Some child ->
  sock child s = Some ch -> t_state ch = TcpSocketState.SynReceived -> t_local_addr ch = Some (sip, sport) -> retransmit_queue ch = [] ->
  find_listener sip sport (tables s) = Some lid -> sock lid s = Some l -> lid <> child ->
  exists s', dispatch cip sip cport sport seq (send_seq ch) TCP_FLAG_ACK [] s = Some (s', true) /\
    sock child s' = Some (with_state ch TcpSocketState.Established) /\ sock lid s' = Some (with_accept_waker l None) /\
    woken s' = woken s ++ (match accept_waker l with Some w => [w] | None => [] end).
Proof.
  intros Hf Ht Hst El Hq Hfl Hl Hne. unfold dispatch. rewrite Hf, Ht. cbn [mbind option_bind]. unfold segment_step.
  change (has TCP_FLAG_ACK TCP_FLAG_RST) with false. change (has TCP_FLAG_ACK TCP_FLAG_ACK) with true. cbv iota.
  assert (Ha : ack_retransmit_queue (send_seq ch) ch = ch) by (unfold ack_retransmit_queue; destruct ch; simpl in *; by subst).
  rewrite Ha, Hst, Z.eqb_refl. cbn [andb mbind option_bind fold_left run_action]. rewrite El. cbn [wake_accept].
  set (s1 := put_sock child _ s).
  assert (Hfl1 : find_listener sip sport (tables s1) = Some lid) by (unfold s1, put_sock, upd_tables; by rewrite tables_set).
  assert (Hl1 : sock lid s1 = Some l) by (unfold s1; by rewrite sock_put, decide_False).
  rewrite Hfl1, Hl1. eexists. split; [reflexivity|].
  assert (Hw : forall w x, sock x (wake w (put_sock lid (with_accept_waker l None) s1)) = sock x (put_sock lid (with_accept_waker l None) s1)) by done.
  assert (Hw1 : woken s1 = woken s) by done.
  destruct (accept_waker l); rewrite ?Hw, ?sock_put, decide_False, decide_True by done; unfold s1; rewrite sock_put, decide_True by done; simpl;
    rewrite ?app_nil_r; done.
Qed.
End OneHost.

(** ** Two hosts *)

Section Hop.
Context {X : Type} `{WireLaws X} `{!NetDeviceTypes X} `{BuildConfig} `{TcpHost X} `{!TcpHostLaws X} `{!TcpWire X}.
Context {Y : Type} `{WireLaws Y} `{!NetDeviceTypes Y} `{TcpHost Y} `{!TcpHostLaws Y} `{!TcpWire Y}.

(** A segment sent by one host and taken by a socket of the other. *)
Lemma hop (lip rip lport rport seq ack flags : Z) dev mac (s : Net X) :
  takes dev (54 + opt_len flags) s -> resolved s rip dev mac -> length mac = 6%nat ->
  in_u 32 lip -> in_u 32 rip -> in_u 16 lport -> in_u 16 rport -> in_u 32 seq -> in_u 32 ack -> in_u 8 flags ->
  has flags TCP_FLAG_RST = false -> has flags TCP_FLAG_ACK || has flags TCP_FLAG_SYN = true ->
  let r := tcp_send_segment lip rip lport rport seq ack flags [] s in
  r.2 = Ok tt /\ tables r.1 = tables s /\ tx_like s r.1 /\
  exists f, on_wire (ext r.1) = on_wire (ext s) ++ [(dev, f)] /\
    forall (rx : Skb) (pad : bytes) (d : DevId) (h : Net Y) (Q : Net Y -> Prop),
      wf_skb rx -> data rx = f ++ pad -> is_local_ip h rip = true ->
      (forall h0, same_link h h0 -> tables h0 = tables h -> woken h0 = woken h ->
         exists h1, dispatch lip rip lport rport seq ack flags [] h0 = Some (h1, true) /\ Q h1) ->
      Q (ethernet_rcv rx d h).1.
Proof.
  intros Ha Hr Hm Hl1 Hl2 Hp1 Hp2 Hs Hk Hf Hrst Hsyn r.
  destruct (tcp_segment_arrives (X := X) (Y := Y) lip rip lport rport seq ack flags [] dev mac s Hr Hm Hl1 Hl2 Hp1 Hp2 Hs Hk Hf)
    as (Htx & Hok & f & _ & Hw & Hrx); [by constructor|simpl; lia|]. rewrite Nat.add_0_r in Hok. fold r in Hok, Hw. specialize (Hok Ha). rewrite Hok in Hw.
  split; [done|]. split; [by eapply send_tables|]. split; [done|]. exists f. split; [done|].
  intros rx pad d h Q Hwf Hd Hloc HQ. destruct (Hrx rx pad d h Hwf Hd Hloc) as [seg E]. change ((ethernet_rcv rx d h).1) with (fst (ethernet_rcv rx d h)). rewrite E.
  assert (Hh : exists st, fst (deliver_raw_packet 6 seg lip h) = set_raw_store st h).
  { unfold deliver_raw_packet. destruct (deliver_raw_loop _ _ _ _ _ _) as [st ?]. by exists st. }
  destruct Hh as [st ->]. destruct (HQ (set_raw_store st h)) as (h1 & Hdis & Hq1); [by split|done|done|].
  by rewrite (input_dispatch _ _ _ _ _ _ _ _ _ _ Hrst Hsyn Hdis).
Qed.

Lemma tx_link (s s' : Net X) dst dev mac ip : tx_like s s' -> (resolved s dst dev mac -> resolved s' dst dev mac) /\ is_local_ip s' ip = is_local_ip s ip /\ woken s' = woken s.
Proof. intros Ht. split; [by apply tx_like_resolved|]. destruct Ht as (x & r & c & ->). done. Qed.
End Hop.

Section Handshake.
Context {X : Type} `{WireLaws X} `{!NetDeviceTypes X} `{BuildConfig} `{TcpHost X} `{!TcpHostLaws X} `{!TcpWire X}.
Context {Y : Type} `{WireLaws Y} `{!NetDeviceTypes Y} `{TcpHost Y} `{!TcpHostLaws Y} `{!TcpWire Y}.

(** The ends of an established connection: each expects what the other sends next. *)
Definition joined (client server : Z * Z) (t ch : TcpSocket) : Prop :=
  t_state t = TcpSocketState.Established /\ t_state ch = TcpSocketState.Established /\
  t_local_addr t = Some client /\ t_remote_addr t = Some server /\ t_local_addr ch = Some server /\ t_remote_addr ch = Some client /\
  send_seq t = recv_seq ch /\ recv_seq t = send_seq ch /\ retransmit_queue t = [] /\ retransmit_queue ch = [] /\ so_error t = None.

(** C32: the handshake.  A client with a socket that has no remote address and nothing
    unacknowledged calls [connect] for an address where a server listens that has no
    connection with the client's address and port; each host knows the route and the link
    address of the next hop towards the other, and the frames are delivered in turn, padded or
    not.  If the drivers take these frames (58 bytes for a SYN, 54 for the ACK; they are not
    busy) each host sends exactly these: the SYN makes the server create a socket, register it
    and queue it at the listener; its SYN|ACK establishes the client, whose queue of
    unacknowledged segments is empty again; the client's ACK establishes the new socket and
    fires the waker of a task that waits in [accept].  The two ends agree on both sequence
    numbers. *)
Theorem tcp_handshake entropy id t lid l cip cport sip sport dev mac dev' mac' (c : Net X) (s : Net Y) :
  takes dev 58 c -> takes dev' 58 s -> resolved c sip dev mac -> resolved s cip dev' mac' ->
  length mac = 6%nat -> length mac' = 6%nat -> is_local_ip c cip = true -> is_local_ip s sip = true ->
  in_u 32 cip -> in_u 32 sip -> in_u 16 cport -> in_u 16 sport -> in_u 32 (send_seq t) ->
  sock id c = Some t -> t_remote_addr t = None -> retransmit_queue t = [] ->
  (connect_addr sip entropy (t_local_addr t) c).2 = Ok (cip, cport) ->
  TInv (tables s) -> find_connection cip cport sip sport (tables s) = None ->
  find_listener sip sport (tables s) = Some lid -> sock lid s = Some l ->
  let child := next_sock (tables s) in
  let '(c1, r) := do_connect_setup entropy id sip sport c in
  r = Ok (send_seq t) /\ exists f1, on_wire (ext c1) = on_wire (ext c) ++ [(dev, f1)] /\
  forall rx1 pad1 d1, wf_skb rx1 -> data rx1 = f1 ++ pad1 -> let s1 := (ethernet_rcv rx1 d1 s).1 in
  exists f2, on_wire (ext s1) = on_wire (ext s) ++ [(dev', f2)] /\
  forall rx2 pad2 d2, wf_skb rx2 -> data rx2 = f2 ++ pad2 -> let c2 := (ethernet_rcv rx2 d2 c1).1 in
  takes dev 54 c1 -> exists f3, on_wire (ext c2) = on_wire (ext c1) ++ [(dev, f3)] /\
  forall rx3 pad3 d3, wf_skb rx3 -> data rx3 = f3 ++ pad3 -> let s2 := (ethernet_rcv rx3 d3 s1).1 in
  exists t2 ch, sock id c2 = Some t2 /\ sock child s2 = Some ch /\ joined (cip, cport) (sip, sport) t2 ch /\
    (exists l2, sock lid s2 = Some l2 /\ accept_queue l2 = accept_queue l ++ [child]) /\
    woken s2 = woken s1 ++ (match accept_waker l with Some w => [w] | None => [] end) /\
    woken c2 = woken c1 ++ (match recv_waker t with Some w => [w] | None => [] end).
Proof.
  intros HaX HaY Hrc Hrs Hm Hm' Hlc Hls Hcip Hsip Hcp Hsp Hseq Ht Ern Hq Hca I Hnc Hfl Hl child. pose proof (ti_iss _ I) as Hiss.
  destruct (connect_syn entropy id t cip cport sip sport c Ht Ern Hca) as (c' & [Lr La Ll Lw] & Hwk & Hdo & Hsk & Hfc).
  assert (Hb : forall z, in_u 32 (u32 z)) by (intros; apply u32_in).
  destruct (hop (X := X) (Y := Y) cip sip cport sport (send_seq t) 0 TCP_FLAG_SYN dev mac c') as (Hok1 & Htb1 & Htx1 & f1 & Hw1 & Hrx1);
    [by apply (takes_same _ _ c)|by apply (resolved_net c)|done..|unfold in_u; lia|done|done|done|].
  rewrite (Hdo Hok1). clear Hdo. set (c1 := (tcp_send_segment cip sip cport sport (send_seq t) 0 TCP_FLAG_SYN [] c').1) in *. clearbody c1.
  split; [done|]. exists f1. split; [by rewrite Hw1, Lw|]. intros rx1 pad1 d1 Wr1 Dr1.
  cbv zeta. pattern (ethernet_rcv rx1 d1 s).1. apply (Hrx1 rx1 pad1 d1 s _ Wr1 Dr1 Hls). clear Hrx1. intros s0 Ls0 Htb0 Hwk0.
  destruct (listener_syn lid l cip cport sip sport (send_seq t) 0 s0) as (s' & Ls' & Hwk' & Hdis & Hch & Hfch & Hfl' & Hlid & Hne);
    [by rewrite Htb0|by rewrite Htb0|by rewrite Htb0|unfold sock; by rewrite Htb0|].
  rewrite Htb0 in *. fold child in Hch, Hfch, Hlid, Hne. eexists. split; [exact Hdis|]. clear Hdis.
  pose proof (same_link_trans _ _ _ Ls0 Ls') as [Lr2 La2 Ll2 Lw2].
  destruct (hop (X := Y) (Y := X) sip cip sport cport (NEXT_ISS (tables s)) (u32 (send_seq t + 1)) (Z.lor TCP_FLAG_SYN TCP_FLAG_ACK) dev' mac' s')
    as (_ & Htb2 & Htx2 & f2 & Hw2 & Hrx2); [by apply (takes_same _ _ s)|by apply (resolved_net s)|done..|].
  set (s1 := (tcp_send_segment sip cip sport cport (NEXT_ISS (tables s)) (u32 (send_seq t + 1)) (Z.lor TCP_FLAG_SYN TCP_FLAG_ACK) [] s').1) in *. clearbody s1.
  exists f2. split; [by rewrite Hw2, Lw2|]. intros rx2 pad2 d2 Wr2 Dr2.
  destruct (tx_link c' c1 sip dev mac cip Htx1) as (Hres1 & Hloc1 & Hwk1).
  pattern (ethernet_rcv rx2 d2 c1).1. apply (Hrx2 rx2 pad2 d2 c1 _ Wr2 Dr2); [rewrite Hloc1; unfold is_local_ip; by rewrite Ll|]. clear Hrx2. intros c0 Lc0 Htc0 Hwc0.
  set (t1 := track_segment _ _ _ _ _ _) in Hsk.
  assert (Et1 : t1 = with_retransmit (with_send_seq (with_state (with_addrs t (Some (cip, cport)) (Some (sip, sport))) TcpSocketState.SynSent) (u32 (send_seq t + 1)))
    [mkRtx (send_seq t) 0 TCP_FLAG_SYN [] (time_us c) TCP_INITIAL_RTO_US 0 false]).
  { unfold t1, track_segment. cbn. by rewrite Hq. }
  clearbody t1. destruct (client_syn_ack id t1 cip cport sip sport (NEXT_ISS (tables s)) c0) as (c3 & Lc3 & Hwc3 & Hdis & Hsk3);
    [by rewrite Htc0, Htb1|unfold sock; by rewrite Htc0, Htb1|by rewrite Et1..|].
  subst t1. cbn [send_seq recv_waker with_retransmit with_send_seq with_state with_addrs] in Hdis, Hwc3.
  eexists. split; [exact Hdis|]. clear Hdis. pose proof (same_link_trans _ _ _ Lc0 Lc3) as [Lr4 La4 Ll4 Lw4]. intros Hack.
  destruct (hop (X := X) (Y := Y) cip sip cport sport (u32 (send_seq t + 1)) (u32 (NEXT_ISS (tables s) + 1)) TCP_FLAG_ACK dev mac c3)
    as (_ & Htb4 & Htx4 & f3 & Hw4 & Hrx4); [by apply (takes_same _ _ c1)|apply (resolved_net c1); [done..|]; apply Hres1; by apply (resolved_net c)|done..|].
  set (c2 := (tcp_send_segment cip sip cport sport (u32 (send_seq t + 1)) (u32 (NEXT_ISS (tables s) + 1)) TCP_FLAG_ACK [] c3).1) in *. clearbody c2.
  exists f3. split; [by rewrite Hw4, Lw4|]. intros rx3 pad3 d3 Wr3 Dr3.
  destruct (tx_link s' s1 cip dev' mac' sip Htx2) as (_ & Hloc2 & Hwk2). destruct (tx_link c3 c2 sip dev mac sip Htx4) as (_ & _ & Hwk4).
  pattern (ethernet_rcv rx3 d3 s1).1. apply (Hrx4 rx3 pad3 d3 s1 _ Wr3 Dr3); [rewrite Hloc2; unfold is_local_ip in *; by rewrite Ll2|]. clear Hrx4. intros s5 Ls5 Hts5 Hws5.
  destruct (child_ack lid (with_accept_queue l (accept_queue l ++ [child])) child _ cip cport sip sport (u32 (send_seq t + 1)) s5
    ltac:(by rewrite Hts5, Htb2) ltac:(unfold sock; rewrite Hts5, Htb2; exact Hch) eq_refl eq_refl eq_refl
    ltac:(by rewrite Hts5, Htb2) ltac:(unfold sock; rewrite Hts5, Htb2; exact Hlid) Hne) as (s6 & Hdis & Hch6 & Hl6 & Hw6).
  exists s6. split; [exact Hdis|]. eexists _, _. split; [unfold sock; rewrite Htb4; exact Hsk3|]. split; [exact Hch6|].
  split; [|split; [by eexists|by rewrite Hw6, Hws5, Hwk4, Hwc3, Hwc0]].
  split_and!; try done. cbn [retransmit_queue ack_retransmit_queue with_retransmit with_recv_waker with_state with_so_error with_recv_seq List.filter]. by rewrite syn_acked.
Qed.
End Handshake.

(** ** Every entry point *)

Section System.
Context {X : Type} `{NetDevices X} `{BuildConfig} `{TcpHost X} `{!TcpHostLaws X} `{!DeviceDelivers X}.
Implicit Types s : Net X.

(** What the stack and the tasks do with TCP sockets.  While a call waits, other
    tasks make steps of their own. *)
Inductive tcp_step : Net X -> Net X -> Prop :=
| ts_segment sip dip sport dport seq ack flags payload s s' b :
    dispatch sip dip sport dport seq ack flags payload s = Some (s', b) -> tcp_step s s'
| ts_poll s : tcp_step s (poll_rx_all s)
| ts_silence ip port s : tcp_step s (should_silence_unmatched_syn ip port s).1
| ts_pmtu lip lport rip rport seq mss s : tcp_step s (handle_pmtu_update lip lport rip rport seq mss s)
| ts_time now s : tcp_step s (set_time_us now s)
| ts_socket entropy s : tcp_step s (open_socket entropy s).1
| ts_bind id addr port t s : sock id s = Some t -> tcp_step s (put_sock id (tcp_bind addr port t).1 s)
| ts_listen id backlog s : tcp_step s (listen id backlog s).1
| ts_accept id w s : tcp_step s (accept_or_register id w s).1
| ts_accept_now id s : tcp_step s (accept id s).1
| ts_connect env entropy id ip port s : Forall (fun e => forall s, rtc tcp_step s (e s)) env -> tcp_step s (connect env entropy id ip port s).1
| ts_connect_nonblock entropy id ip port s : tcp_step s (connect_nonblock entropy id ip port s).1
| ts_send env id bufs s : Forall (fun e => forall s, rtc tcp_step s (e s)) env -> tcp_step s (send_user_buffer_tracked env id bufs s).1.1
| ts_recv id bufs t s : sock id s = Some t -> tcp_step s (put_sock id (tcp_recv_user_buffer bufs t).1.1 s)
| ts_wait id w t s : sock id s = Some t -> tcp_step s (put_sock id (with_recv_waker t w) s)
| ts_close id s : tcp_step s (tcp_close id s)
| ts_socket_close fl id s : tcp_step s (socket_close fl id s).1.1
| ts_shutdown how fl id s : tcp_step s (socket_shutdown how fl id s).1.1.

Definition tcp_boot s : Prop := tables s = mkTables [] [] [] 0 0 ∅ 0.

Lemma recv_keeps bufs t : keeps_sock t (tcp_recv_user_buffer bufs t).1.1.
Proof.
  pose proof (recv_user_buffer_spec bufs t) as Hr. case_bool_decide; [rewrite Hr; by split|]. destruct Hr as (t' & b & ip & port & -> & _ & _ & _ & Et).
  simpl. rewrite Et. plain_sock.
Qed.

Lemma socket_inv entropy s : inv s -> inv (open_socket entropy s).1.
Proof.
  intros Hs. unfold open_socket, alloc_initial_sequence.
  assert (Hiss : in_u 32 (Z.lor (u32 entropy) 1)).
  { unfold in_u. split; [apply Z.lor_nonneg; split; [apply (u32_in entropy)|lia]|]. pose proof (u32_in entropy) as [? ?].
    destruct (decide (u32 entropy = 0)) as [->|]; [done|]. apply Z.log2_lt_cancel. rewrite Z.log2_lor, Z.log2_pow2 by lia.
    assert (Z.log2 (u32 entropy) < 32) by (apply Z.log2_lt_pow2; lia). simpl Z.log2. lia. }
  apply inv_set. apply new_sock_TInv; [|split; try done; simpl; auto with kairix; try lia|done];
    (destruct (_ =? 0); [apply (sub_TInv (tables s)) || exact Hiss|apply (sub_TInv (tables s)) || apply Hs]; auto with kairix).
Qed.

Lemma boot_inv s : tcp_boot s -> inv s.
Proof. intros E. unfold inv. rewrite E. split; simpl; try set_solver; [constructor|done]. Qed.

(** Every step keeps the invariant; so do the steps of other tasks during a wait. *)
Lemma tcp_step_inv : forall s s', tcp_step s s' -> inv s -> inv s'.
Proof.
  fix IH 3. intros s s' Hstep.
  destruct Hstep as [sip dip sport dport seq ack flags payload s s' b Hd| | | | | | | | | |env entropy id ip port s Hf| |env id bufs s Hf| | | | |];
    try (assert (He : env_keeps env) by (induction Hf as [|e env He Hes IHf]; constructor; [|exact IHf]; intros s0; specialize (He s0); revert He;
      generalize (e s0); intros y Hr; induction Hr as [|x y z Hxy _ IHr]; [done|]; intros Hx; apply IHr, (IH _ _ Hxy Hx)));
    clear IH; intros Hs.
  - destruct (dispatch_inv sip dip sport dport seq ack flags payload s Hs) as (s1 & b1 & E & Hi). congruence.
  - by apply poll_rx_all_inv.
  - apply inv_set. by apply (silence_inv ip port (time_us s) s).
  - apply inv_upd; [|done]. intros g. apply pmtu_inv.
  - by apply (inv_ext s).
  - by apply socket_inv.
  - by apply bind_inv.
  - by apply listen_inv.
  - by apply accept_inv.
  - by apply (accept_inv id 0%nat).
  - unfold connect. pose proof (do_connect_inv entropy id ip port s Hs) as Hc. destruct (do_connect_setup _ _ _ _ _) as [s1 [u|e]]; [|done].
    by apply connect_wait_inv.
  - unfold connect_nonblock. pose proof (do_connect_inv entropy id ip port s Hs) as Hc. by destruct (do_connect_setup _ _ _ _ _) as [s1 [u|e]].
  - unfold send_user_buffer_tracked. pose proof (send_slices_inv id bufs env 0 s He Hs) as Hl. destruct (send_slices _ _ _ _ _) as [[? ?] ?]. apply Hl.
  - eapply inv_put; [done..|]. apply recv_keeps.
  - eapply inv_put; [done..|]. plain_sock.
  - by apply close_inv.
  - by apply socket_close_inv.
  - by apply shutdown_inv.
Qed.

Lemma reachable_inv s0 s : tcp_boot s0 -> rtc tcp_step s0 s -> inv s.
Proof. intros Hb%boot_inv Hr. induction Hr; eauto using tcp_step_inv. Qed.

(** C33: the tables of the TCP sockets.  Whatever segments arrive and whatever the tasks call
    (socket, bind, listen, accept, connect, send, receive, shutdown, close), in any order and also
    while calls wait: an arriving segment never meets a connection without its addresses (the code
    would panic), every connection in the table belongs to a socket with these addresses, no
    connection is listed twice, listeners and queued children are live sockets, and the
    queues of a socket stay within their bounds.  A call is one step but for its waits, where
    any steps come in between, and its transmissions and polls, where a device delivers
    frames: there the sections of the reception of any segments come in between ([DeviceDelivers],
    which is all that is assumed of the devices). *)
Theorem tcp_sockets_safe s0 s : tcp_boot s0 -> rtc tcp_step s0 s ->
  (forall sip dip sport dport seq ack flags payload, is_Some (dispatch sip dip sport dport seq ack flags payload s)) /\
  (forall sip sport dip dport id, find_connection sip sport dip dport (tables s) = Some id ->
     exists t, sock id s = Some t /\ t_local_addr t = Some (dip, dport) /\ t_remote_addr t = Some (sip, sport)) /\
  NoDup (CONNECTIONS (tables s)).*1 /\
  (forall ip port id, (ip, port, id) ∈ LISTENERS (tables s) -> is_Some (sock id s)) /\
  (forall id t, sock id s = Some t -> (forall c, c ∈ accept_queue t -> is_Some (sock c s)) /\
     (length (out_of_order_queue t) <= TCP_MAX_OUT_OF_ORDER_SEGMENTS)%nat /\ (length (retransmit_queue t) <= TCP_MAX_RETRANSMIT_SEGMENTS)%nat /\
     in_u 32 (send_seq t) /\ in_u 32 (recv_seq t)).
Proof.
  intros Hb Hr. pose proof (reachable_inv s0 s Hb Hr) as I.
  split; [|split; [|split; [apply I|split; [apply (ti_listen _ I)|]]]].
  - intros. destruct (dispatch_inv sip dip sport dport seq ack flags payload s I) as (s' & b & -> & _). eauto.
  - intros sip sport dip dport id Hf%find_connection_in. destruct (ti_conn _ I _ _ Hf) as (t & [l1 l2] & [r1 r2] & Ht & El & Er & Ek).
    injection Ek as -> -> -> ->. by exists t.
  - intros id t Ht. split; [intros c; by apply (ti_accept _ I id)|]. destruct (ti_sock _ I id t Ht). done.
Qed.
End System.

(** ** Ephemeral ports *)

(** The ports of successive calls. *)
Fixpoint alloc_ports (entropy : list Z) (g : TcpTables) : list Z :=
  match entropy with
  | [] => []
  | e :: entropy => let '(g, p) := alloc_ephemeral_port e g in p :: alloc_ports entropy g
  end.

Definition port_ok (p : Z) : Prop := EPHEMERAL_PORT_FIRST <= p <= 65535.
Definition nth_port (p i : Z) : Z := EPHEMERAL_PORT_FIRST + (p - EPHEMERAL_PORT_FIRST + i) mod EPHEMERAL_PORT_COUNT.

Lemma nth_port_succ p : port_ok p -> (if p =? 65535 then EPHEMERAL_PORT_FIRST else p + 1) = nth_port p 1 /\ port_ok (nth_port p 1).
Proof.
  unfold port_ok, nth_port, EPHEMERAL_PORT_FIRST, EPHEMERAL_PORT_COUNT. intros Hp. split; [|zlia]. destruct (p =? 65535) eqn:E; to_prop; [by subst|].
  rewrite Z.mod_small by lia. lia.
Qed.

Lemma alloc_port_spec e g : NEXT_EPHEMERAL_PORT g = 0 \/ port_ok (NEXT_EPHEMERAL_PORT g) ->
  let '(g', p) := alloc_ephemeral_port e g in port_ok p /\ NEXT_EPHEMERAL_PORT g' = nth_port p 1 /\ (NEXT_EPHEMERAL_PORT g <> 0 -> p = NEXT_EPHEMERAL_PORT g).
Proof.
  intros Hg. unfold alloc_ephemeral_port. set (g1 := if _ =? 0 then _ else g).
  assert (Hp : port_ok (NEXT_EPHEMERAL_PORT g1) /\ (NEXT_EPHEMERAL_PORT g <> 0 -> NEXT_EPHEMERAL_PORT g1 = NEXT_EPHEMERAL_PORT g)).
  { unfold g1. destruct (_ =? 0) eqn:E; to_prop; [|destruct Hg as [?|Hg]; [lia|by split]]. split; [|done]. simpl.
    unfold port_ok, u16, wrap, EPHEMERAL_PORT_FIRST, EPHEMERAL_PORT_COUNT. zlia. }
  destruct Hp as [Hp Heq]. split; [done|]. split; [|exact Heq]. simpl. apply nth_port_succ. exact Hp.
Qed.

Lemma alloc_ports_from : forall entropy g, port_ok (NEXT_EPHEMERAL_PORT g) ->
  alloc_ports entropy g = map (fun i => nth_port (NEXT_EPHEMERAL_PORT g) (Z.of_nat i)) (seq 0 (length entropy)).
Proof.
  induction entropy as [|e entropy IH]; intros g Hg; [done|]. cbn [alloc_ports]. pose proof (alloc_port_spec e g (or_intror Hg)) as Ha.
  destruct (alloc_ephemeral_port e g) as [g' p]. destruct Ha as (Hp & Hn & Heq).
  rewrite Heq in * by (unfold port_ok, EPHEMERAL_PORT_FIRST in Hg; lia). cbn [length seq map]. f_equal.
  - unfold nth_port, port_ok, EPHEMERAL_PORT_FIRST, EPHEMERAL_PORT_COUNT in *. rewrite Z.mod_small by lia. lia.
  - rewrite IH by (rewrite Hn; by apply nth_port_succ). rewrite <- seq_shift, map_map. apply map_ext. intros i. rewrite Hn.
    unfold nth_port, EPHEMERAL_PORT_COUNT, EPHEMERAL_PORT_FIRST. zlia.
Qed.

(** ephemeral ports.  Every port that [connect] gives out is in 49152-65535,
    whatever the boot entropy, and a port is given out again only after all the
    16384 ports have been: the ports of up to 16384 successive calls differ. *)
Theorem tcp_ephemeral_ports entropy g : NEXT_EPHEMERAL_PORT g = 0 \/ port_ok (NEXT_EPHEMERAL_PORT g) ->
  Forall port_ok (alloc_ports entropy g) /\
  (Z.of_nat (length entropy) <= EPHEMERAL_PORT_COUNT -> NoDup (alloc_ports entropy g)).
Proof.
  intros Hg. destruct entropy as [|e entropy]; [split; constructor|]. cbn [alloc_ports].
  pose proof (alloc_port_spec e g Hg) as Ha. destruct (alloc_ephemeral_port e g) as [g' p]. destruct Ha as (Hp & Hn & _).
  assert (E : p :: alloc_ports entropy g' = map (fun i => nth_port p (Z.of_nat i)) (seq 0 (S (length entropy)))).
  { rewrite alloc_ports_from by (rewrite Hn; by apply nth_port_succ). cbn [seq map]. f_equal.
    - unfold nth_port, port_ok, EPHEMERAL_PORT_FIRST, EPHEMERAL_PORT_COUNT in *. rewrite Z.mod_small by lia. lia.
    - rewrite <- seq_shift, map_map. apply map_ext. intros i. rewrite Hn. unfold nth_port, EPHEMERAL_PORT_COUNT, EPHEMERAL_PORT_FIRST. zlia. }
  rewrite E. split.
  - apply Forall_forall. intros x (i & -> & _)%list_elem_of_fmap. unfold port_ok, nth_port, EPHEMERAL_PORT_FIRST, EPHEMERAL_PORT_COUNT. zlia.
  - intros Hl. apply NoDup_fmap_2_strong; [|apply NoDup_seq]. intros i j Hi%elem_of_seq Hj%elem_of_seq. cbn [length] in Hl.
    unfold nth_port, port_ok, EPHEMERAL_PORT_FIRST, EPHEMERAL_PORT_COUNT in *. zlia.
Qed.

(** ** A host with one card *)

Module TestHost.

Record Link := mkLink { frames : list (DevId * bytes); link_tcp : TcpTables }.

#[export] Instance devices : NetDevices Link := {
  dev_name _ := "eth0"%string;
  dev_mtu _ := 1500;
  dev_mac d := [2; 0; 0; 0; 0; Z.of_nat d mod 256];
  dev_ip d := 167772672 + Z.of_nat d mod 256;
  hard_start_xmit d skb s :=
    if (1514 <? length (data skb))%nat then (s, Err "Invalid"%string)
    else (set_ext (mkLink (frames (ext s) ++ [(d, data skb)]) (link_tcp (ext s))) s, Ok rx_none);
  poll_rx _ s := s;
  all_devices := [15%nat] }.

#[export] Instance tcp_part : TcpHost Link := { tcp_of := link_tcp; put_tcp g x := mkLink (frames x) g }.

#[export] Instance device_types : NetDeviceTypes Link.
Proof.
  split; intros d; cbn [dev_mac dev_mtu dev_ip devices].
  - done.
  - repeat constructor; unfold is_byte; zlia.
  - unfold in_u; lia.
  - unfold in_u; zlia.
Qed.

#[export] Instance link_wire : WireLaws Link.
Proof.
  apply (Build_WireLaws Link _ frames). intros d skb s _. cbn [hard_start_xmit devices]. destruct (1514 <? length (data skb))%nat; [|by eexists].
  exists (ext s). split; [by destruct s|by rewrite app_nil_r].
Defined.

#[export] Instance tcp_part_laws : TcpHostLaws Link.
Proof. by split. Qed.

#[export] Instance link_delivers : DeviceDelivers Link.
Proof.
  split; intros; cbn [hard_start_xmit poll_rx devices]; [|apply rtc_refl]. destruct (1514 <? _)%nat; apply rtc_refl.
Qed.

#[export] Instance link_tcp_wire : TcpWire Link.
Proof. split; [done|]. intros d skb s _. cbn [hard_start_xmit devices]. by destruct (1514 <? _)%nat. Qed.

#[export] Instance qemu : BuildConfig := { board := Qemu }.

Definition no_tables : TcpTables := mkTables [] [] [] 0 0 ∅ 0.

(** A host with address [ip] that knows the link address of its gateway. *)
Definition machine (ip : Z) : Net Link :=
  set_local_ips [ip] (set_arp_cache {[ 167772674 := mkArpEntry [2; 0; 0; 0; 0; 2] 15 ]} (init Qemu 0 (Some 15%nat) (boot_net 1000000 (mkLink [] no_tables)))).

End TestHost.

Import TestHost.

Lemma link_takes d n (s : Net Link) : (n <= 1514)%nat -> takes d n s.
Proof. intros Hn skb s' _ Hl. cbn [hard_start_xmit devices]. by rewrite (proj2 (Nat.ltb_ge _ _)) by lia. Qed.

Lemma link_resolved ip dst : route_lookup (machine ip) dst = Ok (15%nat, 167772674) -> forall s : Net Link,
  route_table s = route_table (machine ip) -> arp_cache s = arp_cache (machine ip) -> resolved s dst 15 [2; 0; 0; 0; 0; 2].
Proof. intros Hr s Er Ea. apply (resolved_net (machine ip)); [done..|]. split; [|done..]. exists 167772674. by split. Qed.

(** A client at 10.0.2.15 with an unbound socket; a server at 1.1.1.1 that listens
    on port 80 and whose task 9 waits in [accept]. *)
Definition demo_client : Net Link := (open_socket 7 (machine 167772687)).1.
Definition demo_open : Net Link := (open_socket 11 (machine 16843009)).1.
Definition demo_listener : TcpSocket := default (tcp_socket_new 0) (sock 0 demo_open).
Definition demo_bound : Net Link := put_sock 0 (tcp_bind 0 80 demo_listener).1 demo_open.
Definition demo_server : Net Link := (accept_or_register 0 9 (listen 0 5 demo_bound).1).1.

Lemma demo_server_steps : rtc tcp_step (machine 16843009) demo_server.
Proof.
  apply (rtc_l _ _ demo_open); [apply ts_socket|].
  apply (rtc_l _ _ demo_bound); [apply ts_bind; vm_compute; reflexivity|].
  apply (rtc_l _ _ (listen 0 5 demo_bound).1); [apply ts_listen|]. apply rtc_once. apply ts_accept.
Qed.

Lemma tcp_sockets_safe_witness : is_Some (dispatch 167772687 16843009 49152 80 1 0 TCP_FLAG_SYN [] demo_server).
Proof. exact (proj1 (tcp_sockets_safe (machine 16843009) demo_server eq_refl demo_server_steps) 167772687 16843009 49152 80 1 0 TCP_FLAG_SYN []). Defined.

Lemma tcp_ephemeral_ports_witness : alloc_ports [16383; 0; 0] no_tables = [65535; 49152; 49153] /\ NoDup (alloc_ports [16383; 0; 0] no_tables).
Proof.
  split; [reflexivity|]. apply (tcp_ephemeral_ports [16383; 0; 0] no_tables); [by left|vm_compute; discriminate].
Defined.

(** The frame that the client sends for [connect], received by the server. *)
Lemma tcp_handshake_witness : exists f, frames (ext (do_connect_setup 7 0 16843009 80 demo_client).1) = [(15%nat, f)] /\
  forall rx, wf_skb rx -> data rx = f -> exists g, frames (ext (ethernet_rcv rx 15 demo_server).1) = [(15%nat, g)].
Proof.
  pose proof (tcp_handshake 7 0 (default (tcp_socket_new 0) (sock 0 demo_client)) 0 (default (tcp_socket_new 0) (sock 0 demo_server))
    167772687 49159 16843009 80 15 [2; 0; 0; 0; 0; 2] 15 [2; 0; 0; 0; 0; 2] demo_client demo_server
    (link_takes 15 58 _ ltac:(lia)) (link_takes 15 58 _ ltac:(lia))
    (link_resolved 167772687 16843009 eq_refl demo_client eq_refl eq_refl) (link_resolved 16843009 167772687 eq_refl demo_server eq_refl eq_refl)
    eq_refl eq_refl eq_refl eq_refl) as H.
  destruct (do_connect_setup 7 0 16843009 80 demo_client) as [c1 r].
  destruct H as (_ & f & Hw & Hrx).
  5: vm_compute; split; [discriminate|reflexivity].
  1-4: unfold in_u; lia.
  5: exact (reachable_inv (machine 16843009) demo_server eq_refl demo_server_steps).
  1-7: vm_compute; reflexivity.
  exists f. split; [exact Hw|]. intros rx Wr Dr. destruct (Hrx rx [] 15%nat Wr) as (g & Hg & _); [by rewrite app_nil_r|]. exists g. exact Hg.
Defined.

(** A connection with one unacknowledged segment of 5 bytes. *)
Definition demo_sending : TcpSocket :=
  mkTcpSocket (Some (167772687, 4000)) (Some (16843009, 80)) TcpSocketState.Established 106 7 [] []
    [mkRtx 101 7 (Z.lor TCP_FLAG_ACK TCP_FLAG_PSH) [1; 2; 3; 4; 5] 0 TCP_INITIAL_RTO_US 0 false] None None [] None None.
Definition demo_sender_host : Net Link := put_sock 0 demo_sending (machine 167772687).

Lemma tcp_retransmit_exact_witness : existsb (hopeless 9000000) (retransmit_queue demo_sending) = false /\
  tx_payload <$> (collect_retransmits 9000000 0 demo_sender_host).2 = [[1; 2; 3; 4; 5]].
Proof.
  split; [reflexivity|].
  pose proof (tcp_retransmit_exact 9000000 0 demo_sending 167772687 4000 16843009 80 demo_sender_host eq_refl eq_refl eq_refl) as H.
  destruct (collect_retransmits 9000000 0 demo_sender_host) as [s' pending]. destruct H as [[-> _] _]; [discriminate| |vm_compute; reflexivity].
  apply Forall_singleton. unfold in_u. simpl. lia.
Defined.

(** Every state of the closing handshake is reached: the client of the example is connected,
    then shuts down its side, or answers the peer's FIN with [close]. *)
Definition after (o : option (Net Link * bool)) (d : Net Link) : Net Link := match o with Some (s, _) => s | None => d end.
Definition demo_sent : Net Link := (connect_nonblock 7 0 16843009 80 demo_client).1.
Definition demo_connected : Net Link := after (dispatch 16843009 167772687 80 49159 100 8 (Z.lor TCP_FLAG_SYN TCP_FLAG_ACK) [] demo_sent) demo_sent.
Definition demo_shut : Net Link := (socket_shutdown 1 (mkSocketFlags false false false) 0 demo_connected).1.1.
Definition demo_peer_fin : Net Link := after (dispatch 16843009 167772687 80 49159 101 8 (Z.lor TCP_FLAG_FIN TCP_FLAG_ACK) [] demo_connected) demo_connected.
Definition demo_last : Net Link := (socket_close (mkSocketFlags false false false) 0 demo_peer_fin).1.1.

Lemma segment_run sip dip sport dport seq ack flags payload s : option_map snd (dispatch sip dip sport dport seq ack flags payload s) = Some true ->
  tcp_step s (after (dispatch sip dip sport dport seq ack flags payload s) s).
Proof. destruct (dispatch sip dip sport dport seq ack flags payload s) as [[s' b]|] eqn:E; [|done]. intros _. by eapply ts_segment. Qed.

Lemma demo_connected_reached : rtc tcp_step (machine 167772687) demo_connected.
Proof.
  apply (rtc_l _ _ demo_client); [apply ts_socket|]. apply (rtc_l _ _ demo_sent); [apply ts_connect_nonblock|].
  apply rtc_once. apply segment_run. vm_compute. reflexivity.
Qed.

Example closing_states_reached :
  (rtc tcp_step (machine 167772687) demo_shut /\ option_map t_state (sock 0 demo_shut) = Some TcpSocketState.FinWait1) /\
  (rtc tcp_step (machine 167772687) demo_last /\ option_map t_state (sock 0 demo_last) = Some TcpSocketState.LastAck).
Proof.
  split; (split; [etransitivity; [exact demo_connected_reached|]|vm_compute; reflexivity]).
  - apply rtc_once. apply ts_shutdown.
  - apply (rtc_l _ _ demo_peer_fin); [apply segment_run; vm_compute; reflexivity|]. apply rtc_once. apply ts_socket_close.
Qed.
