(* ===== verification/Futex.v ===== *)
(** * Futexes (os/src/syscall/futex.rs)

    The futex table, the states of priority-inheritance (PI) locks and the
    operations on them.  A task is an identity in a store; what the operations
    ask of the scheduler ([wakeup_task], requeueing after a change of priority,
    a reschedule interrupt) is appended to a log.

    Kernel code runs on several processors.  A critical section of the source
    is one definition here; a call that goes through several sections is a
    machine with a program counter, which FutexSys.v runs.  A user word that is
    loaded before a compare-and-exchange in the same section is an argument of
    the section: other processors may have changed the word meanwhile. *)

From stdpp Require Import sorting.
From S2P Require Import Prelude SysErr.

Abbreviation TaskId := nat.

Definition FUTEX_OWNER_DIED : Z := 0x40000000.
Definition FUTEX_WAITERS : Z := 0x80000000.
Definition FUTEX_TID_MASK : Z := 0x3fffffff.
Definition ROBUST_LIST_LIMIT : nat := Z.to_nat 2048.

Definition FUTEX_WAIT : Z := 0.
Definition FUTEX_WAKE : Z := 1.
Definition FUTEX_REQUEUE : Z := 3.
Definition FUTEX_CMP_REQUEUE : Z := 4.
Definition FUTEX_WAKE_OP : Z := 5.
Definition FUTEX_LOCK_PI : Z := 6.
Definition FUTEX_UNLOCK_PI : Z := 7.
Definition FUTEX_TRYLOCK_PI : Z := 8.
Definition FUTEX_WAIT_BITSET : Z := 9.
Definition FUTEX_WAKE_BITSET : Z := 10.
Definition FUTEX_WAIT_REQUEUE_PI : Z := 11.
Definition FUTEX_CMP_REQUEUE_PI : Z := 12.
Definition FUTEX_LOCK_PI2 : Z := 13.
Definition FUTEX_PRIVATE_FLAG : Z := 128.
Definition FUTEX_CLOCK_REALTIME : Z := 256.
Definition FUTEX_BITSET_MATCH_ANY : Z := 0xffffffff.
Definition FUTEX_32 : Z := 2.

(** [u64::MAX], and [usize::MAX] as "no index". *)
Definition NO_FUTEX_DEADLINE : Z := 0xffffffffffffffff.
Definition usize_max : Z := 0xffffffffffffffff.

Inductive FutexTimeoutMode := Relative | AbsoluteMonotonic | AbsoluteRealtime.

Inductive FutexKey := Private (pid uaddr : Z) | Shared (paddr : Z).

#[export] Instance FutexKey_eq_dec : EqDecision FutexKey.
Proof. solve_decision. Defined.
#[export] Instance FutexKey_countable : Countable FutexKey.
Proof.
  refine (inj_countable' (fun k => match k with Private p u => inl (p, u) | Shared p => inr p end)
    (fun x => match x with inl (p, u) => Private p u | inr p => Shared p end) _). by intros [].
Defined.

(** The derived order of the keys, which is the order of a [BTreeMap]. *)
Definition futex_key_leb (a b : FutexKey) : bool :=
  match a, b with
  | Private p u, Private p' u' => (p <? p') || ((p =? p') && (u <=? u'))
  | Private _ _, Shared _ => true
  | Shared _, Private _ _ => false
  | Shared p, Shared p' => p <=? p'
  end.

Definition key_le (a b : FutexKey) : Prop := futex_key_leb a b = true.
#[export] Instance key_le_dec : RelDecision key_le.
Proof. intros a b. unfold key_le. apply _. Defined.

Record FutexWaiter := mkWaiter {
  w_task : TaskId;
  waiter_tid : Z;
  enqueue_ns : Z;
  bitset : Z;
  deadline_ns : option Z;
  wake_index : Z;
  pi_waiter : bool;
  requeue_pi_target : option FutexKey }.

Record PiState := mkPi { owner_tid : Z; max_waiter_priority : Z }.

(** The fields of a task that futexes use. *)
Record Task := mkTask {
  global_tid : Z;
  t_pid : Z;
  t_token : Z;
  sched_priority : Z;
  pi_boost_priority : Z;
  futex_woken : bool;
  futex_timed_out : bool;
  futex_waitv_index : Z;
  interrupted_by_signal : bool;
  zombie_flag : bool;
  ready_queued : bool;
  on_cpu : option nat }.

Definition with_boost v t := mkTask (global_tid t) (t_pid t) (t_token t) (sched_priority t) v (futex_woken t) (futex_timed_out t) (futex_waitv_index t) (interrupted_by_signal t) (zombie_flag t) (ready_queued t) (on_cpu t).
Definition with_woken v t := mkTask (global_tid t) (t_pid t) (t_token t) (sched_priority t) (pi_boost_priority t) v (futex_timed_out t) (futex_waitv_index t) (interrupted_by_signal t) (zombie_flag t) (ready_queued t) (on_cpu t).
Definition with_timed_out v t := mkTask (global_tid t) (t_pid t) (t_token t) (sched_priority t) (pi_boost_priority t) (futex_woken t) v (futex_waitv_index t) (interrupted_by_signal t) (zombie_flag t) (ready_queued t) (on_cpu t).
Definition with_waitv_index v t := mkTask (global_tid t) (t_pid t) (t_token t) (sched_priority t) (pi_boost_priority t) (futex_woken t) (futex_timed_out t) v (interrupted_by_signal t) (zombie_flag t) (ready_queued t) (on_cpu t).
Definition with_interrupted v t := mkTask (global_tid t) (t_pid t) (t_token t) (sched_priority t) (pi_boost_priority t) (futex_woken t) (futex_timed_out t) (futex_waitv_index t) v (zombie_flag t) (ready_queued t) (on_cpu t).

(** What the scheduler is asked to do. *)
Inductive SchedEvent :=
| EvWake (task : TaskId)
| EvRequeue (task : TaskId)
| EvIpi (cpu : nat).

Abbreviation FutexTable := (gmap FutexKey (list FutexWaiter)).

Record FutexWorld (M : Type) := mkFW {
  user_mem : M;
  FUTEX_TABLE : FutexTable;
  PI_STATES : gmap FutexKey PiState;
  NEXT_FUTEX_DEADLINE_NS : Z;
  clock : Z;
  realtime : Z;
  tasks : gmap TaskId Task;
  TID2TASK : gmap Z TaskId;
  sched_log : list SchedEvent }.
Arguments mkFW {M}.
Arguments user_mem {M}.
Arguments FUTEX_TABLE {M}.
Arguments PI_STATES {M}.
Arguments NEXT_FUTEX_DEADLINE_NS {M}.
Arguments clock {M}.
Arguments realtime {M}.
Arguments tasks {M}.
Arguments TID2TASK {M}.
Arguments sched_log {M}.

Section Setters.
Context {M : Type}.
Implicit Types w : FutexWorld M.
Definition set_mem (v : M) w := mkFW v (FUTEX_TABLE w) (PI_STATES w) (NEXT_FUTEX_DEADLINE_NS w) (clock w) (realtime w) (tasks w) (TID2TASK w) (sched_log w).
Definition set_table v w := mkFW (user_mem w) v (PI_STATES w) (NEXT_FUTEX_DEADLINE_NS w) (clock w) (realtime w) (tasks w) (TID2TASK w) (sched_log w).
Definition set_states v w := mkFW (user_mem w) (FUTEX_TABLE w) v (NEXT_FUTEX_DEADLINE_NS w) (clock w) (realtime w) (tasks w) (TID2TASK w) (sched_log w).
Definition set_next_deadline v w := mkFW (user_mem w) (FUTEX_TABLE w) (PI_STATES w) v (clock w) (realtime w) (tasks w) (TID2TASK w) (sched_log w).
Definition set_tasks v w := mkFW (user_mem w) (FUTEX_TABLE w) (PI_STATES w) (NEXT_FUTEX_DEADLINE_NS w) (clock w) (realtime w) v (TID2TASK w) (sched_log w).
Definition log_event e w := mkFW (user_mem w) (FUTEX_TABLE w) (PI_STATES w) (NEXT_FUTEX_DEADLINE_NS w) (clock w) (realtime w) (tasks w) (TID2TASK w) (sched_log w ++ [e]).
Definition upd_task (f : Task -> Task) (t : TaskId) w := set_tasks (alter f t (tasks w)) w.
End Setters.

(** ** User memory

    The page tables and the memory of user programs are an interface.  A futex
    word is named by its physical address. *)

Class FutexMem (M : Type) := {
  pte_access : M -> Z -> Z -> option (bool * bool);
  translate_va : M -> Z -> Z -> option Z;
  load_word : M -> Z -> Z;
  store_word : Z -> Z -> M -> M;
  no_fault_slices : M -> Z -> Z -> nat -> SysResult (list bytes);
  fault_slices : M -> Z -> Z -> nat -> M * SysResult (list bytes);
  translated_timespec : M -> Z -> Z -> SysResult (Z * Z) }.

(** A word can be changed, and nothing else changes with it. *)
Class FutexMemLaws (M : Type) `{FutexMem M} := {
  load_store p p' v m : load_word (store_word p v m) p' = if decide (p' = p) then u32 v else load_word m p';
  load_u32 p m : in_u 32 (load_word m p);
  pte_store p v m tok a : pte_access (store_word p v m) tok a = pte_access m tok a;
  va_store p v m tok a : translate_va (store_word p v m) tok a = translate_va m tok a }.

(** ** Addresses and keys *)

Section Ops.
Context {M : Type} `{FutexMem M}.
Implicit Types w : FutexWorld M.

(** Copying the slices of a buffer of [n] bytes. *)
Fixpoint gather (n : nat) (got : bytes) (buffers : list bytes) : bytes :=
  match buffers with
  | [] => got
  | buffer :: rest =>
      let got := got ++ take (Nat.min (n - length got) (length buffer)) buffer in
      if (length got =? n)%nat then got else gather n got rest
  end.

Definition read_user_word (n : nat) (token uaddr : Z) w : SysResult Z :=
  let? buffers := no_fault_slices (user_mem w) token uaddr n in
  let got := gather n [] buffers in
  if negb (length got =? n)%nat then Err EFAULT else Ok (le_load got).

Definition read_user_u32_with_token (token uaddr : Z) w : SysResult Z := read_user_word 4 token uaddr w.
Definition read_user_usize_with_token (token uaddr : Z) w : SysResult Z := read_user_word 8 token uaddr w.

Definition validate_futex_addr (addr : Z) : SysResult Z :=
  if negb (Z.land addr (4 - 1) =? 0) then Err EINVAL else Ok addr.

Definition read_user_u32_mapped (token uaddr : Z) w : SysResult Z :=
  match pte_access (user_mem w) token uaddr with
  | None => Err EFAULT
  | Some (readable, _) =>
      if negb readable then Err EFAULT
      else match translate_va (user_mem w) token uaddr with
           | None => Err EFAULT
           | Some pa => Ok (load_word (user_mem w) pa)
           end
  end.

(** The word itself, by its physical address. *)
Definition user_atomic_u32 (token uaddr : Z) (write : bool) w : SysResult Z :=
  let? _ := validate_futex_addr uaddr in
  match pte_access (user_mem w) token uaddr with
  | None => Err EFAULT
  | Some (readable, writable) =>
      if negb readable || write && negb writable then Err EFAULT
      else ok_or (translate_va (user_mem w) token uaddr) EFAULT
  end.

(** [pid] and [token] are those of the current task. *)
Definition make_key (pid token uaddr : Z) (is_private : bool) w : SysResult FutexKey :=
  if is_private then Ok (Private pid uaddr)
  else match translate_va (user_mem w) token uaddr with
       | Some pa => Ok (Shared pa)
       | None => Err EFAULT
       end.

Definition word_at (pa : Z) w : Z := load_word (user_mem w) pa.
Definition put_word (pa v : Z) w : FutexWorld M := set_mem (store_word pa v (user_mem w)) w.

(** ** Time *)

Definition monotonic_now_ns w : Z := Z.min (clock w) (NO_FUTEX_DEADLINE - 1).

Definition publish_futex_deadline (deadline : Z) w : FutexWorld M :=
  if deadline <? NEXT_FUTEX_DEADLINE_NS w then set_next_deadline deadline w else w.

Definition saturating_add128 (a b : Z) : Z := Z.min (a + b) (2 ^ 128 - 1).

Definition parse_futex_deadline (token timeout : Z) (mode : FutexTimeoutMode) w : SysResult (option Z) :=
  if timeout =? 0 then Ok None
  else
    let? (tv_sec, tv_nsec) := translated_timespec (user_mem w) token timeout in
    if (tv_sec <? 0) || (tv_nsec <? 0) || (1000000000 <=? tv_nsec) then Err EINVAL
    else
      let requested := saturating_add128 (Z.min (tv_sec * 1000000000) (2 ^ 128 - 1)) tv_nsec in
      let deadline := match mode with
                      | Relative => saturating_add128 (clock w) requested
                      | AbsoluteMonotonic => requested
                      | AbsoluteRealtime => saturating_add128 (clock w) (Z.max (requested - realtime w) 0)
                      end in
      Ok (Some (Z.min deadline (NO_FUTEX_DEADLINE - 1))).

(** ** Queues *)

Definition queue_of (key : FutexKey) (table : FutexTable) : list FutexWaiter := default [] (table !! key).

(** [*queue = remaining], or [table.remove(key)] when it is empty. *)
Definition put_queue (key : FutexKey) (queue : list FutexWaiter) (table : FutexTable) : FutexTable :=
  if bool_decide (queue = []) then delete key table else <[key := queue]> table.

(** [table.entry(key).or_insert_with(VecDeque::new).extend(..)] *)
Definition enqueue_at (key : FutexKey) (waiters : list FutexWaiter) (table : FutexTable) : FutexTable :=
  <[key := queue_of key table ++ waiters]> table.

(** The keys in the order in which the map is traversed. *)
Definition sorted_keys (table : FutexTable) : list FutexKey := merge_sort key_le (map fst (map_to_list table)).

Definition remove_waitv_siblings_locked (task : TaskId) (table : FutexTable) : FutexTable :=
  omap (fun queue => let queue := List.filter (fun waiter => negb (w_task waiter =? task)%nat) queue in
                     if bool_decide (queue = []) then None else Some queue) table.

(** The loop over the selected waiters; the inner loop removes later
    selections of the same task. *)
Fixpoint commit_loop (fuel : nat) (selected : list FutexWaiter) (table : FutexTable) : FutexTable * list FutexWaiter :=
  match fuel, selected with
  | S fuel, waiter :: rest =>
      if wake_index waiter =? usize_max then
        let '(table, rest) := commit_loop fuel rest table in (table, waiter :: rest)
      else
        let rest := List.filter (fun other => negb (w_task other =? w_task waiter)%nat) rest in
        let '(table, rest) := commit_loop fuel rest (remove_waitv_siblings_locked (w_task waiter) table) in (table, waiter :: rest)
  | _, _ => (table, selected)
  end.

Definition commit_waitv_wake_selections_locked (selected : list FutexWaiter) (table : FutexTable) : FutexTable * list FutexWaiter :=
  commit_loop (length selected) selected table.

(** A waiter that only PI operations may select. *)
Definition special (waiter : FutexWaiter) : bool := pi_waiter waiter || bool_decide (is_Some (requeue_pi_target waiter)).

(** [to_wake] and [remaining] of a queue. *)
Fixpoint select (nr_wake : nat) (bits : Z) (queue : list FutexWaiter) : list FutexWaiter * list FutexWaiter :=
  match queue with
  | [] => ([], [])
  | waiter :: queue =>
      if (0 <? nr_wake)%nat && negb (Z.land (bitset waiter) bits =? 0)
      then let '(wake, remaining) := select (nr_wake - 1) bits queue in (waiter :: wake, remaining)
      else let '(wake, remaining) := select nr_wake bits queue in (wake, waiter :: remaining)
  end.

(** ** Waking *)

Definition wakeup_task (t : TaskId) w : FutexWorld M := log_event (EvWake t) w.

Definition wake_futex_waiter w (waiter : FutexWaiter) : FutexWorld M :=
  wakeup_task (w_task waiter) (upd_task (fun t => with_woken true (with_waitv_index (wake_index waiter) t)) (w_task waiter) w).

Definition wake_all (waiters : list FutexWaiter) w : FutexWorld M := fold_left wake_futex_waiter waiters w.

(** An operation is a section, which takes waiters out of the table under its
    lock, and the waking of these after the lock is released. *)
Definition wake_up {R : Type} (r : FutexWorld M * list FutexWaiter * R) : FutexWorld M * R :=
  let '(w, to_wake, v) := r in (wake_all to_wake w, v).

(** ** Waking and requeueing *)

(** The section of [futex_wake]. *)
Definition wake_locked (key : FutexKey) (nr_wake : nat) (bits : Z) w : FutexWorld M * list FutexWaiter :=
  let '(table, to_wake) :=
    match FUTEX_TABLE w !! key with
    | Some queue => let '(to_wake, remaining) := select nr_wake bits queue in (put_queue key remaining (FUTEX_TABLE w), to_wake)
    | None => (FUTEX_TABLE w, [])
    end in
  let '(table, to_wake) := commit_waitv_wake_selections_locked to_wake table in
  (set_table table w, to_wake).

(** The waiters that a section selects, with their number as the result. *)
Definition counted (r : FutexWorld M * list FutexWaiter) : FutexWorld M * list FutexWaiter * SysResult Z :=
  let '(w, to_wake) := r in (w, to_wake, Ok (Z.of_nat (length to_wake))).

Definition futex_wake_section (pid token uaddr nr_wake bits : Z) (is_private : bool) w : FutexWorld M * list FutexWaiter * SysResult Z :=
  if bits =? 0 then (w, [], Err EINVAL)
  else match (let? a := validate_futex_addr uaddr in make_key pid token a is_private w) with
       | Err e => (w, [], Err e)
       | Ok key =>
           if bool_decide (is_Some (PI_STATES w !! key)) then (w, [], Err EINVAL)
           else counted (wake_locked key (Z.to_nat nr_wake) bits w)
       end.

Definition futex_wake (pid token uaddr nr_wake bits : Z) (is_private : bool) w : FutexWorld M * SysResult Z :=
  wake_up (futex_wake_section pid token uaddr nr_wake bits is_private w).

Definition futex_wake_with_pid_section (pid uaddr nr_wake bits : Z) w : FutexWorld M * list FutexWaiter * SysResult Z :=
  if bits =? 0 then (w, [], Err EINVAL)
  else counted (wake_locked (Private pid uaddr) (Z.to_nat nr_wake) bits w).

Definition futex_wake_with_pid (pid uaddr nr_wake bits : Z) w : FutexWorld M * SysResult Z :=
  wake_up (futex_wake_with_pid_section pid uaddr nr_wake bits w).

(** [queue.pop_front()] up to [limit] times. *)
Definition pop_front (key : FutexKey) (limit : nat) (table : FutexTable) : FutexTable * list FutexWaiter :=
  match table !! key with
  | None => (table, [])
  | Some queue => (put_queue key (drop limit queue) table, take limit queue)
  end.

Definition futex_wake_one_section (uaddr pid : Z) (paddr : option Z) w : FutexWorld M * list FutexWaiter * Z :=
  let '(table, to_wake) := pop_front (Private pid uaddr) 1 (FUTEX_TABLE w) in
  let '(table, to_wake) :=
    if bool_decide (to_wake = [])
    then match paddr with Some pa => pop_front (Shared pa) 1 table | None => (table, to_wake) end
    else (table, to_wake) in
  let '(table, to_wake) := commit_waitv_wake_selections_locked to_wake table in
  (set_table table w, to_wake, Z.of_nat (length to_wake)).

Definition futex_wake_one (uaddr pid : Z) (paddr : option Z) w : FutexWorld M * Z := wake_up (futex_wake_one_section uaddr pid paddr w).

(** No PI lock at either word. *)
Definition plain_keys (key1 key2 : FutexKey) w : bool :=
  negb (bool_decide (is_Some (PI_STATES w !! key1)) || bool_decide (is_Some (PI_STATES w !! key2))) &&
  negb (existsb special (queue_of key1 (FUTEX_TABLE w)) || existsb special (queue_of key2 (FUTEX_TABLE w))).

(** The rest of the section of [futex_requeue] and [futex_cmp_requeue]. *)
Definition requeue_locked (key1 key2 : FutexKey) (nr_wake nr_requeue : nat) w : FutexWorld M * list FutexWaiter :=
  let '(table, to_wake, to_move) :=
    match FUTEX_TABLE w !! key1 with
    | None => (FUTEX_TABLE w, [], [])
    | Some queue =>
        let rest := drop nr_wake queue in
        (put_queue key1 (drop nr_requeue rest) (FUTEX_TABLE w), take nr_wake queue, take nr_requeue rest)
    end in
  let table := if bool_decide (to_move = []) then table else enqueue_at key2 to_move table in
  let '(table, to_wake) := commit_waitv_wake_selections_locked to_wake table in
  (set_table table w, to_wake).

(** [cmpval] is [None] for [FUTEX_REQUEUE]. *)
Definition futex_requeue_section (pid token uaddr nr_wake nr_requeue uaddr2 : Z) (cmpval : option Z) (is_private : bool) w
  : FutexWorld M * list FutexWaiter * SysResult Z :=
  match (let? a := validate_futex_addr uaddr in let? key1 := make_key pid token a is_private w in
         let? b := validate_futex_addr uaddr2 in let? key2 := make_key pid token b is_private w in Ok (key1, key2)) with
  | Err e => (w, [], Err e)
  | Ok (key1, key2) =>
      if negb (plain_keys key1 key2 w) then (w, [], Err EINVAL)
      else match (match cmpval with
                  | None => Ok tt
                  | Some v => let? current := read_user_u32_mapped token uaddr w in if negb (current =? v) then Err EAGAIN else Ok tt
                  end) with
           | Err e => (w, [], Err e)
           | Ok _ => counted (requeue_locked key1 key2 (Z.to_nat nr_wake) (Z.to_nat nr_requeue) w)
           end
  end.

Definition futex_requeue (pid token uaddr nr_wake nr_requeue uaddr2 : Z) (cmpval : option Z) (is_private : bool) w
  : FutexWorld M * SysResult Z :=
  wake_up (futex_requeue_section pid token uaddr nr_wake nr_requeue uaddr2 cmpval is_private w).

(** ** FUTEX_WAKE_OP *)

Definition sign_extend_12 (value : Z) : Z := Z.shiftr (signed 32 (Z.shiftl value 20)) 20.

(** The operation and the comparison that are encoded in the last argument. *)
Definition decode_wake_op (encoded_op : Z) : SysResult (Z * Z * Z * Z) :=
  let op := Z.land (Z.shiftr encoded_op 28) 15 in
  let cmp := Z.land (Z.shiftr encoded_op 24) 15 in
  let op_arg := sign_extend_12 (Z.land (Z.shiftr encoded_op 12) 4095) in
  let cmp_arg := sign_extend_12 (Z.land encoded_op 4095) in
  let? (op, op_arg) :=
    if negb (Z.land op 8 =? 0) then
      if negb ((0 <=? op_arg) && (op_arg <? 32)) then Err EINVAL
      else Ok (Z.land op 7, signed 32 (Z.shiftl 1 op_arg))
    else Ok (op, op_arg) in
  if (4 <? op) || (5 <? cmp) then Err ENOSYS else Ok (op, op_arg, cmp, cmp_arg).

Definition apply_op (op op_arg old : Z) : Z :=
  let arg := u32 op_arg in
  if op =? 0 then arg
  else if op =? 1 then u32 (old + arg)
  else if op =? 2 then Z.lor old arg
  else if op =? 3 then Z.land old (2 ^ 32 - 1 - arg)
  else Z.lxor old arg.

Definition apply_cmp (cmp cmp_arg old : Z) : bool :=
  let old := signed 32 old in
  if cmp =? 0 then old =? cmp_arg
  else if cmp =? 1 then negb (old =? cmp_arg)
  else if cmp =? 2 then old <? cmp_arg
  else if cmp =? 3 then old <=? cmp_arg
  else if cmp =? 4 then cmp_arg <? old
  else cmp_arg <=? old.

(** The exchange of the word repeats until it succeeds. *)
Definition futex_wake_op_section (pid token uaddr nr_wake nr_wake2 uaddr2 encoded_op : Z) (is_private : bool) w
  : FutexWorld M * list FutexWaiter * SysResult Z :=
  match (let? a := validate_futex_addr uaddr in let? b := validate_futex_addr uaddr2 in
         let? d := decode_wake_op encoded_op in
         let? key1 := make_key pid token a is_private w in let? key2 := make_key pid token b is_private w in
         let? word := user_atomic_u32 token b true w in Ok (d, key1, key2, word)) with
  | Err e => (w, [], Err e)
  | Ok (op, op_arg, cmp, cmp_arg, key1, key2, word) =>
      if negb (plain_keys key1 key2 w) then (w, [], Err EINVAL)
      else
        let old := word_at word w in
        let w := put_word word (apply_op op op_arg old) w in
        let '(table, wake1) := pop_front key1 (Z.to_nat nr_wake) (FUTEX_TABLE w) in
        let '(table, wake2) := if apply_cmp cmp cmp_arg old then pop_front key2 (Z.to_nat nr_wake2) table else (table, []) in
        let '(table, to_wake) := commit_waitv_wake_selections_locked (wake1 ++ wake2) table in
        counted (set_table table w, to_wake)
  end.

Definition futex_wake_op (pid token uaddr nr_wake nr_wake2 uaddr2 encoded_op : Z) (is_private : bool) w : FutexWorld M * SysResult Z :=
  wake_up (futex_wake_op_section pid token uaddr nr_wake nr_wake2 uaddr2 encoded_op is_private w).

(** ** Priority inheritance *)

(** [effective_sched_priority]. *)
Definition effective_sched_priority w (t : TaskId) : Z :=
  match tasks w !! t with Some t => Z.max (sched_priority t) (pi_boost_priority t) | None => 0 end.

(** [.max().unwrap_or(0)] *)
Definition maximum (l : list Z) : Z := match l with [] => 0 | x :: l => fold_left Z.max l x end.

Definition max_waiting (key : FutexKey) w : Z :=
  maximum (map (fun waiter => effective_sched_priority w (w_task waiter)) (List.filter pi_waiter (queue_of key (FUTEX_TABLE w)))).

Definition set_pi_boost_priority (priority : Z) (t : TaskId) w : FutexWorld M := upd_task (with_boost (Z.min (Z.max priority 0) 99)) t w.

Definition set_max (priority : Z) (st : PiState) : PiState := mkPi (owner_tid st) priority.

(** The new maxima of the locks that a task waits for, and their owners. *)
Fixpoint propagate (tid : Z) (keys : list FutexKey) (owners : list Z) w : FutexWorld M * list Z :=
  match keys with
  | [] => (w, owners)
  | key :: keys =>
      match PI_STATES w !! key with
      | None => propagate tid keys owners w
      | Some st =>
          let w := set_states (<[key := set_max (max_waiting key w) st]> (PI_STATES w)) w in
          let owners := if negb (owner_tid st =? tid) && negb (bool_decide (owner_tid st ∈ owners)) then owners ++ [owner_tid st] else owners in
          propagate tid keys owners w
      end
  end.

Definition boost_priority (tid : Z) w : Z :=
  maximum (map (fun kv => max_waiter_priority (snd kv)) (List.filter (fun kv => owner_tid (snd kv) =? tid) (map_to_list (PI_STATES w)))).

(** The task gets its priority; a queued one is queued anew, a running one is interrupted. *)
Definition boost_task (priority : Z) (t : TaskId) w : FutexWorld M :=
  let queued := match tasks w !! t with Some task => ready_queued task | None => false end in
  let w := set_pi_boost_priority priority t w in
  if queued then log_event (EvRequeue t) w
  else match tasks w !! t ≫= on_cpu with Some cpu => log_event (EvIpi cpu) w | None => w end.

Definition waiting_keys (tid : Z) w : list FutexKey :=
  List.filter (fun key => existsb (fun waiter => pi_waiter waiter && (waiter_tid waiter =? tid)) (queue_of key (FUTEX_TABLE w)))
    (sorted_keys (FUTEX_TABLE w)).

(** One turn for the task on top of the stack. *)
Definition boost_turn (tid : Z) (visited : list Z) w : FutexWorld M * list Z * list Z :=
  if (tid =? 0) || bool_decide (tid ∈ visited) then (w, visited, [])
  else
    let visited := visited ++ [tid] in
    match TID2TASK w !! tid with
    | None => (w, visited, [])
    | Some t =>
        let w := boost_task (boost_priority tid w) t w in
        let '(w, owners) := propagate tid (waiting_keys tid w) [] w in
        (w, visited, owners)
    end.

(** [pending] is a stack, its top the last element. *)
Fixpoint boost_loop (fuel : nat) (pending visited : list Z) w : FutexWorld M * list Z :=
  match fuel, last pending with
  | S fuel, Some tid =>
      let '(w, visited, upstream) := boost_turn tid visited w in
      boost_loop fuel (removelast pending ++ upstream) visited w
  | _, _ => (w, pending)
  end.

(** Every lock has one owner, so at most [n + 1] tasks are visited, each with at
    most [n] owners upstream. *)
Definition boost_fuel w : nat := let n := size (PI_STATES w) in S (S n * n).

Definition apply_pi_boost (tid : Z) w : FutexWorld M := fst (boost_loop (boost_fuel w) [tid] [] w).

(** What an operation does after its section, with the table unlocked: it wakes
    a waiter, gives a task its new priority, or tells a task that its time is over. *)
Inductive Post :=
| PostWake (waiter : FutexWaiter)
| PostBoost (tid : Z)
| PostExpire (t : TaskId).

Definition post w (p : Post) : FutexWorld M :=
  match p with
  | PostWake waiter => wake_futex_waiter w waiter
  | PostBoost tid => apply_pi_boost tid w
  | PostExpire t => wakeup_task t (upd_task (fun task => with_timed_out true (with_woken false task)) t w)
  end.

Definition post_all (posts : list Post) w : FutexWorld M := fold_left post posts w.

(** [if let Some(previous) = previous.filter(|p| p != tid) { apply_pi_boost(previous) }] *)
Definition boost_previous (previous : option Z) (tid : Z) : list Post :=
  match previous with Some p => if negb (p =? tid) then [PostBoost p] else [] | None => [] end.

Definition post_waiter (waiter : option FutexWaiter) : list Post := match waiter with Some waiter => [PostWake waiter] | None => [] end.

Definition tid_of (word : Z) : Z := Z.land word FUTEX_TID_MASK.

(** [max_by_key]: the last of the waiters with the highest priority. *)
Fixpoint max_position (w : FutexWorld M) (best : nat) (best_priority : Z) (index : nat) (queue : list FutexWaiter) : nat :=
  match queue with
  | [] => best
  | waiter :: queue =>
      let priority := effective_sched_priority w (w_task waiter) in
      if best_priority <=? priority then max_position w index priority (S index) queue
      else max_position w best best_priority (S index) queue
  end.

Definition take_highest w (queue : list FutexWaiter) : option (FutexWaiter * list FutexWaiter) :=
  match queue with
  | [] => None
  | waiter :: rest =>
      let position := max_position w 0 (effective_sched_priority w (w_task waiter)) 1 rest in
      match queue !! position with Some waiter => Some (waiter, delete position queue) | None => None end
  end.

Definition non_pi_waiter (key : FutexKey) w : bool := existsb (fun waiter => negb (pi_waiter waiter)) (queue_of key (FUTEX_TABLE w)).

(** ** FUTEX_UNLOCK_PI *)

(** The section: [observed] is the word as it was loaded, with the owner already
    checked.  A failing exchange returns from the section at once. *)
Definition unlock_pi_locked (key : FutexKey) (word observed : Z) w : FutexWorld M * SysResult (Z * option FutexWaiter * option Z) :=
  let finish next_owner next_waiter (w : FutexWorld M) :=
    let previous := owner_tid <$> PI_STATES w !! key in
    let w := if next_owner =? 0 then set_states (delete key (PI_STATES w)) w
             else set_states (<[key := mkPi next_owner (max_waiting key w)]> (PI_STATES w)) w in
    (w, Ok (next_owner, next_waiter, previous)) in
  let release (w : FutexWorld M) :=
    if word_at word w =? observed then finish 0 None (put_word word 0 w) else (w, Err EAGAIN) in
  match FUTEX_TABLE w !! key with
  | None => release w
  | Some queue =>
      match take_highest w queue with
      | None => release (set_table (delete key (FUTEX_TABLE w)) w)
      | Some (waiter, rest) =>
          let next_owner := waiter_tid waiter in
          let replacement := Z.lor (u32 next_owner) (if bool_decide (rest = []) then 0 else FUTEX_WAITERS) in
          if word_at word w =? observed
          then finish next_owner (Some waiter) (set_table (put_queue key rest (FUTEX_TABLE w)) (put_word word replacement w))
          else (set_table (<[key := rest]> (FUTEX_TABLE w)) w, Err EAGAIN)
      end
  end.

(** After the section. *)
Definition unlock_pi_finish (tid next_owner : Z) (next_waiter : option FutexWaiter) (previous : option Z) : list Post :=
  PostBoost tid :: boost_previous previous tid ++ (if negb (next_owner =? 0) then [PostBoost next_owner] else []) ++ post_waiter next_waiter.

(** [race] is what other processors do to the word between load and exchange. *)
Definition futex_unlock_pi_section (race : Z -> Z) (pid token tid uaddr : Z) (is_private : bool) w : FutexWorld M * list Post * SysResult Z :=
  match (let? a := validate_futex_addr uaddr in let? key := make_key pid token a is_private w in
         let? word := user_atomic_u32 token a true w in Ok (key, word)) with
  | Err e => (w, [], Err e)
  | Ok (key, word) =>
      let observed := word_at word w in
      if negb (tid_of observed =? u32 tid) then (w, [], Err EPERM)
      else match unlock_pi_locked key word observed (put_word word (race observed) w) with
           | (w, Err e) => (w, [], Err e)
           | (w, Ok (next_owner, next_waiter, previous)) => (w, unlock_pi_finish tid next_owner next_waiter previous, Ok 0)
           end
  end.

Definition posted {R : Type} (r : FutexWorld M * list Post * R) : FutexWorld M * R := let '(w, posts, v) := r in (post_all posts w, v).

Definition futex_unlock_pi (race : Z -> Z) (pid token tid uaddr : Z) (is_private : bool) w : FutexWorld M * SysResult Z :=
  posted (futex_unlock_pi_section race pid token tid uaddr is_private w).

(** ** FUTEX_LOCK_PI *)

Record LockPi := mkLockPi {
  lp_task : TaskId;
  lp_tid : Z;
  lp_key : FutexKey;
  lp_word : Z;
  lp_deadline : option Z;
  lp_try : bool }.

(** Where the call is: at the top of its loop; about to take a free lock; about
    to set [FUTEX_WAITERS]; about to clear the task's flags; about to queue;
    about to raise the owner's priority; about to publish the deadline; waiting. *)
Inductive LockPc :=
| LpTop
| LpAcquire
| LpAcquired (previous : option Z)
| LpMark (observed : Z)
| LpReset (owner : Z)
| LpEnqueue (owner : Z)
| LpBoost (owner : Z)
| LpPublish
| LpWait.

(** The checks before the loop. *)
Definition lock_pi_prepare (t : TaskId) (pid token tid uaddr timeout : Z) (is_private clock_realtime try_only : bool) w : SysResult LockPi :=
  let? a := validate_futex_addr uaddr in
  let? key := make_key pid token a is_private w in
  if FUTEX_TID_MASK <? tid then Err EOVERFLOW
  else
    let? word := user_atomic_u32 token a true w in
    let? deadline := parse_futex_deadline token timeout (if clock_realtime then AbsoluteRealtime else AbsoluteMonotonic) w in
    Ok (mkLockPi t tid key word deadline try_only).

Definition expired (deadline : option Z) w : bool :=
  match deadline with Some d => d <=? monotonic_now_ns w | None => false end.

Definition lock_pi_top (a : LockPi) w : LockPc + SysResult Z :=
  let observed := word_at (lp_word a) w in
  if tid_of observed =? u32 (lp_tid a) then inr (Err EDEADLK)
  else if tid_of observed =? 0 then inl LpAcquire
  else if lp_try a then inr (Err EAGAIN)
  else if expired (lp_deadline a) w then inr (Err ETIMEDOUT)
  else if Z.land observed FUTEX_WAITERS =? 0 then inl (LpMark observed)
  else inl (LpReset (tid_of observed)).

(** The section that takes a free lock, when its exchange succeeds. *)
Definition lock_pi_acquire (a : LockPi) w : FutexWorld M * (LockPc + SysResult Z) :=
  let observed := word_at (lp_word a) w in
  if negb (tid_of observed =? 0) then (w, inl LpTop)
  else if non_pi_waiter (lp_key a) w then (w, inr (Err EINVAL))
  else
    let replacement := Z.lor (Z.land observed (Z.lor FUTEX_OWNER_DIED FUTEX_WAITERS)) (u32 (lp_tid a)) in
    let w := put_word (lp_word a) replacement w in
    let previous := owner_tid <$> PI_STATES w !! lp_key a in
    (set_states (<[lp_key a := mkPi (lp_tid a) (max_waiting (lp_key a) w)]> (PI_STATES w)) w, inl (LpAcquired previous)).

(** The section that queues behind the owner. *)
Definition lock_pi_enqueue (a : LockPi) (owner : Z) w : FutexWorld M * (LockPc + SysResult Z) :=
  let current := tid_of (word_at (lp_word a) w) in
  if negb (current =? u32 owner) || (current =? 0) then (w, inl LpTop)
  else if non_pi_waiter (lp_key a) w then (w, inr (Err EINVAL))
  else
    let waiter := mkWaiter (lp_task a) (lp_tid a) (monotonic_now_ns w) FUTEX_BITSET_MATCH_ANY (lp_deadline a) usize_max true None in
    let w := set_table (enqueue_at (lp_key a) [waiter] (FUTEX_TABLE w)) w in
    let max_priority := match PI_STATES w !! lp_key a with Some st => max_waiter_priority st | None => 0 end in
    (set_states (<[lp_key a := mkPi owner (Z.max max_priority (effective_sched_priority w (lp_task a)))]> (PI_STATES w)) w, inl (LpBoost owner)).

Definition flag (f : Task -> bool) (t : TaskId) w : bool := match tasks w !! t with Some task => f task | None => false end.

(** *** Leaving a queue *)

Definition is_task (t : TaskId) (waiter : FutexWaiter) : bool := (w_task waiter =? t)%nat.

(** The new maximum of a lock, and its owner. *)
Definition refresh_max (key : FutexKey) w : FutexWorld M * option Z :=
  match PI_STATES w !! key with
  | None => (w, None)
  | Some st => (set_states (<[key := set_max (max_waiting key w) st]> (PI_STATES w)) w, Some (owner_tid st))
  end.

Definition remove_task_from_futex_queue (key : FutexKey) (t : TaskId) w : FutexWorld M * option Z :=
  match FUTEX_TABLE w !! key with
  | None => (w, None)
  | Some queue =>
      let removed_pi := existsb (fun waiter => is_task t waiter && pi_waiter waiter) queue in
      let w := set_table (put_queue key (List.filter (fun waiter => negb (is_task t waiter)) queue) (FUTEX_TABLE w)) w in
      if negb removed_pi then (w, None) else refresh_max key w
  end.

Definition boost_owner (owner : option Z) w : FutexWorld M := match owner with Some tid => apply_pi_boost tid w | None => w end.

(** The loop over the keys with a removed PI waiter. *)
Fixpoint refresh_all (keys : list FutexKey) (owners : list Z) w : FutexWorld M * list Z :=
  match keys with
  | [] => (w, owners)
  | key :: keys =>
      let '(w, owner) := refresh_max key w in
      let owners := match owner with
                    | Some tid => if bool_decide (tid ∈ owners) then owners else owners ++ [tid]
                    | None => owners
                    end in
      refresh_all keys owners w
  end.

Definition remove_task_from_futex_table (t : TaskId) w : FutexWorld M :=
  let keys := List.filter (fun key => existsb (fun waiter => is_task t waiter && pi_waiter waiter) (queue_of key (FUTEX_TABLE w)))
                (sorted_keys (FUTEX_TABLE w)) in
  let w := set_table (remove_waitv_siblings_locked t (FUTEX_TABLE w)) w in
  let '(w, owners) := refresh_all keys [] w in
  fold_left (fun w tid => apply_pi_boost tid w) owners w.

(** One turn of the wait; the task's flags are read and cleared under its lock. *)
Definition lock_pi_wait (a : LockPi) w : FutexWorld M * option (LockPc + SysResult Z) :=
  let t := lp_task a in
  if flag futex_woken t w then
    let w := upd_task (with_woken false) t w in
    (w, Some (if tid_of (word_at (lp_word a) w) =? u32 (lp_tid a) then inr (Ok 0) else inl LpTop))
  else if flag futex_timed_out t w || flag interrupted_by_signal t w then
    let timed_out := flag futex_timed_out t w in
    let w := upd_task (fun task => with_interrupted false (with_timed_out false task)) t w in
    let '(w, owner) := remove_task_from_futex_queue (lp_key a) t w in
    (boost_owner owner w, Some (inr (Err (if timed_out then ETIMEDOUT else EINTR))))
  else (w, None).

(** A step of the call; [None]: it blocks. *)
Definition lock_pi_step (a : LockPi) (pc : LockPc) w : FutexWorld M * option (LockPc + SysResult Z) :=
  match pc with
  | LpTop => (w, Some (lock_pi_top a w))
  | LpAcquire => let '(w, r) := lock_pi_acquire a w in (w, Some r)
  | LpAcquired previous => (post_all (boost_previous previous (lp_tid a) ++ [PostBoost (lp_tid a)]) w, Some (inr (Ok 0)))
  | LpMark observed =>
      if word_at (lp_word a) w =? observed
      then (put_word (lp_word a) (Z.lor observed FUTEX_WAITERS) w, Some (inl (LpReset (tid_of (Z.lor observed FUTEX_WAITERS)))))
      else (w, Some (inl LpTop))
  | LpReset owner => (upd_task (fun t => with_timed_out false (with_woken false t)) (lp_task a) w, Some (inl (LpEnqueue owner)))
  | LpEnqueue owner => let '(w, r) := lock_pi_enqueue a owner w in (w, Some r)
  | LpBoost owner => (apply_pi_boost owner w, Some (inl LpPublish))
  | LpPublish => (match lp_deadline a with Some d => publish_futex_deadline d w | None => w end, Some (inl LpWait))
  | LpWait => lock_pi_wait a w
  end.

(** ** FUTEX_CMP_REQUEUE_PI *)

(** The lock at [word] as the section found it ([observed]) and as its exchange
    finds it: a free lock goes to the waiter with the highest priority. *)
Definition requeue_pi_owner (word observed : Z) (queue2 : list FutexWaiter) w : FutexWorld M * list FutexWaiter * Z * option FutexWaiter :=
  if tid_of observed =? 0 then
    match take_highest w queue2 with
    | None => (w, queue2, 0, None)
    | Some (waiter, rest) =>
        let current := word_at word w in
        if tid_of current =? 0 then
          (put_word word (Z.lor (u32 (waiter_tid waiter)) (if bool_decide (rest = []) then 0 else FUTEX_WAITERS)) w, rest, waiter_tid waiter, Some waiter)
        else (w, waiter :: rest, tid_of current, None)
    end
  else (w, queue2, tid_of observed, None).

Definition as_pi (waiter : FutexWaiter) : FutexWaiter :=
  mkWaiter (w_task waiter) (waiter_tid waiter) (enqueue_ns waiter) (bitset waiter) (deadline_ns waiter) (wake_index waiter) true (requeue_pi_target waiter).

Definition futex_cmp_requeue_pi_section (race : Z -> Z) (pid token uaddr nr_wake nr_requeue uaddr2 cmpval : Z) (is_private : bool) w
  : FutexWorld M * list Post * SysResult Z :=
  if negb (nr_wake =? 1) || (uaddr =? uaddr2) || (uaddr2 =? 0) then (w, [], Err EINVAL)
  else match (let? a := validate_futex_addr uaddr in let? key1 := make_key pid token a is_private w in
              let? b := validate_futex_addr uaddr2 in let? key2 := make_key pid token b is_private w in
              let? word2 := user_atomic_u32 token uaddr2 true w in
              let? current := read_user_u32_mapped token uaddr w in
              if negb (current =? cmpval) then Err EAGAIN else Ok (key1, key2, word2)) with
  | Err e => (w, [], Err e)
  | Ok (key1, key2, word2) =>
      let limit := Z.to_nat (Z.min (nr_wake + nr_requeue) usize_max) in
      let queue := queue_of key1 (FUTEX_TABLE w) in
      if existsb (fun waiter => negb (bool_decide (requeue_pi_target waiter = Some key2))) (take limit queue) then (w, [], Err EINVAL)
      else
        let moved := map as_pi (take limit queue) in
        let w := if bool_decide (is_Some (FUTEX_TABLE w !! key1)) then set_table (put_queue key1 (drop limit queue) (FUTEX_TABLE w)) w else w in
        if bool_decide (moved = []) then (w, [], Ok 0)
        else
          let queue2 := queue_of key2 (FUTEX_TABLE w) ++ moved in
          let observed := word_at word2 w in
          let w := put_word word2 (race observed) w in
          let '(w, queue2, owner, acquired) := requeue_pi_owner word2 observed queue2 w in
          let w := set_table (<[key2 := queue2]> (FUTEX_TABLE w)) w in
          let w := if bool_decide (queue2 = []) then w else put_word word2 (Z.lor (word_at word2 w) FUTEX_WAITERS) w in
          let previous := owner_tid <$> PI_STATES w !! key2 in
          let w := set_states (<[key2 := mkPi owner (max_waiting key2 w)]> (PI_STATES w)) w in
          (w, boost_previous previous owner ++ PostBoost owner :: post_waiter acquired, Ok (Z.of_nat (length moved)))
  end.

Definition futex_cmp_requeue_pi (race : Z -> Z) (pid token uaddr nr_wake nr_requeue uaddr2 cmpval : Z) (is_private : bool) w
  : FutexWorld M * SysResult Z :=
  posted (futex_cmp_requeue_pi_section race pid token uaddr nr_wake nr_requeue uaddr2 cmpval is_private w).

(** ** FUTEX_WAIT *)

Record Wait := mkWait {
  wt_task : TaskId;
  wt_tid : Z;
  wt_token : Z;
  wt_uaddr : Z;
  wt_val : Z;
  wt_bitset : Z;
  wt_key : FutexKey;
  wt_deadline : option Z;
  wt_target : option FutexKey }.

(** About to clear the task's flags; about to queue; about to publish the
    deadline; waiting. *)
Inductive WaitPc := WtReset | WtEnqueue | WtPublish | WtWait.

Definition wait_prepare (t : TaskId) (pid token tid uaddr val timeout bits : Z) (is_private : bool) (mode : FutexTimeoutMode)
    (target : option FutexKey) w : SysResult Wait :=
  if bits =? 0 then Err EINVAL
  else
    let? a := validate_futex_addr uaddr in
    let? current := read_user_u32_with_token token uaddr w in
    if negb (current =? val) then Err EAGAIN
    else
      let? key := make_key pid token a is_private w in
      let? deadline := parse_futex_deadline token timeout mode w in
      Ok (mkWait t tid token a val bits key deadline target).

(** The section that compares the word and queues. *)
Definition wait_enqueue (a : Wait) w : FutexWorld M * (WaitPc + SysResult Z) :=
  if bool_decide (is_Some (PI_STATES w !! wt_key a)) || existsb special (queue_of (wt_key a) (FUTEX_TABLE w)) then (w, inr (Err EINVAL))
  else match read_user_u32_mapped (wt_token a) (wt_uaddr a) w with
       | Err e => (w, inr (Err e))
       | Ok current =>
           if negb (current =? wt_val a) then (w, inr (Err EAGAIN))
           else if expired (wt_deadline a) w then (w, inr (Err ETIMEDOUT))
           else
             let waiter := mkWaiter (wt_task a) (wt_tid a) (monotonic_now_ns w) (wt_bitset a) (wt_deadline a) usize_max false (wt_target a) in
             (set_table (enqueue_at (wt_key a) [waiter] (FUTEX_TABLE w)) w, inl WtPublish)
       end.

(** One turn of the wait. *)
Definition wait_turn (t : TaskId) w : FutexWorld M * option (SysResult Z) :=
  if flag futex_timed_out t w then (upd_task (with_timed_out false) t w, Some (Err ETIMEDOUT))
  else if flag futex_woken t w then (upd_task (with_woken false) t w, Some (Ok 0))
  else if flag interrupted_by_signal t w then
    (remove_task_from_futex_table t (upd_task (with_interrupted false) t w), Some (Err EINTR))
  else if flag zombie_flag t w then (remove_task_from_futex_table t w, Some (Err EINTR))
  else (w, None).

Definition wait_step (a : Wait) (pc : WaitPc) w : FutexWorld M * option (WaitPc + SysResult Z) :=
  match pc with
  | WtReset => (upd_task (fun t => with_timed_out false (with_woken false t)) (wt_task a) w, Some (inl WtEnqueue))
  | WtEnqueue => let '(w, r) := wait_enqueue a w in (w, Some r)
  | WtPublish => (match wt_deadline a with Some d => publish_futex_deadline d w | None => w end, Some (inl WtWait))
  | WtWait => let '(w, r) := wait_turn (wt_task a) w in (w, inr <$> r)
  end.

(** ** futex_waitv *)

Record Waitv := mkWaitv {
  wv_task : TaskId;
  wv_tid : Z;
  wv_token : Z;
  wv_entries : list (Z * FutexKey * Z);
  wv_deadline : option Z }.

(** The fields [val], [uaddr], [flags] and [__reserved] of one element. *)
Definition decode_waitv (raw : bytes) : Z * Z * Z * Z :=
  (le_load (slice 0 8 raw), le_load (slice 8 16 raw), le_load (slice 16 20 raw), le_load (slice 20 24 raw)).

Fixpoint waitv_entries (pid token : Z) (n index : nat) (raw : bytes) w : SysResult (list (Z * FutexKey * Z)) :=
  match n with
  | O => Ok []
  | S n =>
      let '(val, uaddr, flags, reserved) := decode_waitv (slice (index * 24) (index * 24 + 24) raw) in
      if negb (reserved =? 0) || (2 ^ 32 - 1 <? val) || (usize_max <? uaddr) ||
         negb (Z.land flags (2 ^ 32 - 1 - Z.lor FUTEX_32 FUTEX_PRIVATE_FLAG) =? 0) || (Z.land flags FUTEX_32 =? 0)
      then Err EINVAL
      else
        let? a := validate_futex_addr uaddr in
        let? key := make_key pid token a (negb (Z.land flags FUTEX_PRIVATE_FLAG =? 0)) w in
        let? current := read_user_u32_with_token token a w in
        if negb (current =? u32 val) then Err EAGAIN
        else let? rest := waitv_entries pid token n (S index) raw w in Ok ((a, key, u32 val) :: rest)
  end.

Definition FUTEX_WAITV_MAX : Z := 128.

(** Reading the array may bring its pages in. *)
Definition waitv_prepare (t : TaskId) (pid token tid waiters nr_futexes flags timeout clockid : Z) w : FutexWorld M * SysResult Waitv :=
  if waiters =? 0 then (w, Err EFAULT)
  else if (nr_futexes =? 0) || (FUTEX_WAITV_MAX <? nr_futexes) || negb (flags =? 0) then (w, Err EINVAL)
  else match (if clockid =? 0 then Ok AbsoluteRealtime else if clockid =? 1 then Ok AbsoluteMonotonic else Err EINVAL) with
  | Err e => (w, Err e)
  | Ok mode =>
      let n := Z.to_nat nr_futexes in
      let '(m, r) := fault_slices (user_mem w) token waiters (n * 24) in
      let w := set_mem m w in
      (w, let? buffers := r in
          let raw := concat buffers in
          if negb (length raw =? n * 24)%nat then Err EFAULT
          else
            let? entries := waitv_entries pid token n 0 raw w in
            let? deadline := parse_futex_deadline token timeout mode w in
            Ok (mkWaitv t tid token entries deadline))
  end.

(** Every word has its expected value. *)
Fixpoint check_words (token : Z) (entries : list (Z * FutexKey * Z)) w : SysResult unit :=
  match entries with
  | [] => Ok tt
  | (uaddr, _, expected) :: entries =>
      let? current := read_user_u32_mapped token uaddr w in
      if negb (current =? expected) then Err EAGAIN else check_words token entries w
  end.

Fixpoint enqueue_entries (a : Waitv) (now : Z) (index : Z) (entries : list (Z * FutexKey * Z)) (table : FutexTable) : FutexTable :=
  match entries with
  | [] => table
  | (_, key, _) :: entries =>
      let waiter := mkWaiter (wv_task a) (wv_tid a) now FUTEX_BITSET_MATCH_ANY (wv_deadline a) index false None in
      enqueue_entries a now (index + 1) entries (enqueue_at key [waiter] table)
  end.

Definition waitv_enqueue (a : Waitv) w : FutexWorld M * (WaitPc + SysResult Z) :=
  if existsb (fun '(_, key, _) => bool_decide (is_Some (PI_STATES w !! key))) (wv_entries a) then (w, inr (Err EINVAL))
  else match check_words (wv_token a) (wv_entries a) w with
       | Err e => (w, inr (Err e))
       | Ok _ =>
           if expired (wv_deadline a) w then (w, inr (Err ETIMEDOUT))
           else (set_table (enqueue_entries a (monotonic_now_ns w) 0 (wv_entries a) (FUTEX_TABLE w)) w, inl WtPublish)
       end.

Definition waitv_turn (a : Waitv) w : FutexWorld M * option (SysResult Z) :=
  let t := wv_task a in
  if flag futex_timed_out t w then (remove_task_from_futex_table t (upd_task (with_timed_out false) t w), Some (Err ETIMEDOUT))
  else if flag futex_woken t w then
    let index := match tasks w !! t with Some task => futex_waitv_index task | None => usize_max end in
    let w := upd_task (fun task => with_waitv_index usize_max (with_woken false task)) t w in
    (remove_task_from_futex_table t w, Some (if index <? Z.of_nat (length (wv_entries a)) then Ok index else Err EINTR))
  else if flag interrupted_by_signal t w || flag zombie_flag t w then
    (remove_task_from_futex_table t (upd_task (with_interrupted false) t w), Some (Err EINTR))
  else (w, None).

Definition waitv_step (a : Waitv) (pc : WaitPc) w : FutexWorld M * option (WaitPc + SysResult Z) :=
  match pc with
  | WtReset =>
      (upd_task (fun t => with_waitv_index usize_max (with_timed_out false (with_woken false t))) (wv_task a) w, Some (inl WtEnqueue))
  | WtEnqueue => let '(w, r) := waitv_enqueue a w in (w, Some r)
  | WtPublish => (match wv_deadline a with Some d => publish_futex_deadline d w | None => w end, Some (inl WtWait))
  | WtWait => let '(w, r) := waitv_turn a w in (w, inr <$> r)
  end.

(** ** Timeouts *)

(** The first waiter of a queue whose deadline has passed, or the earliest deadline. *)
Fixpoint search_queue (now : Z) (index : nat) (following : Z) (queue : list FutexWaiter) : nat + Z :=
  match queue with
  | [] => inr following
  | waiter :: queue =>
      match deadline_ns waiter with
      | Some deadline => if deadline <=? now then inl index else search_queue now (S index) (Z.min following deadline) queue
      | None => search_queue now (S index) following queue
      end
  end.

Fixpoint search_expired (now following : Z) (keys : list FutexKey) (table : FutexTable) : FutexKey * nat + Z :=
  match keys with
  | [] => inr following
  | key :: keys =>
      match search_queue now 0 following (queue_of key table) with
      | inl index => inl (key, index)
      | inr following => search_expired now following keys table
      end
  end.

(** One turn: an expired waiter leaves the table, or the next deadline is published. *)
Definition timeout_section (now : Z) w : FutexWorld M * option (TaskId * option Z) :=
  match search_expired now NO_FUTEX_DEADLINE (sorted_keys (FUTEX_TABLE w)) (FUTEX_TABLE w) with
  | inr following => (set_next_deadline following w, None)
  | inl (key, index) =>
      let queue := queue_of key (FUTEX_TABLE w) in
      match queue !! index with
      | None => (w, None)
      | Some waiter =>
          let w := set_table (put_queue key (delete index queue) (FUTEX_TABLE w)) w in
          let w := if negb (wake_index waiter =? usize_max)
                   then set_table (remove_waitv_siblings_locked (w_task waiter) (FUTEX_TABLE w)) w else w in
          let '(w, owner) := if pi_waiter waiter then refresh_max key w else (w, None) in
          (w, Some (w_task waiter, owner))
      end
  end.

Definition expire_task (t : TaskId) (owner : option Z) : list Post :=
  match owner with Some tid => [PostBoost tid] | None => [] end ++ [PostExpire t].

Fixpoint timeout_loop (fuel : nat) (now : Z) w : FutexWorld M :=
  match fuel with
  | O => w
  | S fuel =>
      match timeout_section now w with
      | (w, None) => w
      | (w, Some (t, owner)) => timeout_loop fuel now (post_all (expire_task t owner) w)
      end
  end.

Definition waiters_of (table : FutexTable) : list FutexWaiter := concat (map snd (map_to_list table)).

(** Every turn but the last takes a waiter out. *)
Definition check_futex_timeouts w : FutexWorld M :=
  let next_deadline := NEXT_FUTEX_DEADLINE_NS w in
  if next_deadline =? NO_FUTEX_DEADLINE then w
  else
    let now := monotonic_now_ns w in
    if now <? next_deadline then w else timeout_loop (S (length (waiters_of (FUTEX_TABLE w)))) now w.

(** ** Robust lists *)

Definition robust_mark_owner_died (token pid tid futex_uaddr : Z) w : FutexWorld M :=
  match user_atomic_u32 token futex_uaddr true w with
  | Err _ => w
  | Ok word =>
      let observed := word_at word w in
      if negb (tid_of observed =? u32 tid) then w
      else
        let w := put_word word (Z.lor (Z.land observed FUTEX_WAITERS) FUTEX_OWNER_DIED) w in
        fst (futex_wake_one futex_uaddr pid (translate_va (user_mem w) token futex_uaddr) w)
  end.

(** [p & !1]. *)
Definition untag (p : Z) : Z := Z.land p (usize_max - 1).

Fixpoint robust_loop (fuel : nat) (token pid tid head futex_offset next_ptr : Z) w : FutexWorld M :=
  match fuel with
  | O => w
  | S fuel =>
      let node := untag next_ptr in
      if (node =? 0) || (node =? head) then w
      else match read_user_usize_with_token token node w with
           | Err _ => w
           | Ok node_next =>
               robust_loop fuel token pid tid head futex_offset node_next
                 (robust_mark_owner_died token pid tid (usize (node + futex_offset)) w)
           end
  end.

Definition handle_robust_list_exit (tid token pid head : Z) w : FutexWorld M :=
  if head =? 0 then w
  else match (let? next_ptr := read_user_usize_with_token token head w in
              let? offset_bits := read_user_usize_with_token token (usize (head + 8)) w in
              let? pending_ptr := read_user_usize_with_token token (usize (head + 16)) w in Ok (next_ptr, offset_bits, pending_ptr)) with
  | Err _ => w
  | Ok (next_ptr, offset_bits, pending_ptr) =>
      let futex_offset := signed 64 offset_bits in
      let w := robust_loop ROBUST_LIST_LIMIT token pid tid head futex_offset next_ptr w in
      let pending := untag pending_ptr in
      if negb (pending =? 0) && negb (pending =? head)
      then robust_mark_owner_died token pid tid (usize (pending + futex_offset)) w else w
  end.
End Ops.
