(* ===== verification/FutexSys.v ===== *)
(** * Futexes: system calls and the system of all tasks

    The calls [sys_futex] and [sys_futex_waitv], each run from its first to its
    last section, and the step relation in which all tasks run their sections
    in any order.  What happens while a call sleeps is the next element of
    [env]; a call that sleeps on has the result [None]. *)

From S2P Require Import Prelude SysErr Futex.

Section Calls.
Context {M : Type} `{FutexMem M}.
Implicit Types w : FutexWorld M.

(** A machine is run; every sleep takes an element of [env]. *)
Fixpoint run {Pc : Type} (step : Pc -> FutexWorld M -> FutexWorld M * option (Pc + SysResult Z)) (fuel : nat)
    (env : list (FutexWorld M -> FutexWorld M)) (pc : Pc) w : FutexWorld M * list (FutexWorld M -> FutexWorld M) * option (SysResult Z) :=
  match fuel with
  | O => (w, env, None)
  | S fuel =>
      match step pc w with
      | (w, Some (inr r)) => (w, env, Some r)
      | (w, Some (inl pc)) => run step fuel env pc w
      | (w, None) => match env with [] => (w, [], None) | e :: env => run step fuel env pc (e w) end
      end
  end.

(** The task that makes the call. *)
Record Caller := mkCaller { c_task : TaskId; c_pid : Z; c_token : Z; c_tid : Z }.

Definition futex_wait (c : Caller) (fuel : nat) env (uaddr val timeout bits : Z) (is_private : bool) (mode : FutexTimeoutMode) (target : option FutexKey) w :=
  match wait_prepare (c_task c) (c_pid c) (c_token c) (c_tid c) uaddr val timeout bits is_private mode target w with
  | Err e => (w, env, Some (Err e))
  | Ok a => run (wait_step a) fuel env WtReset w
  end.

Definition futex_lock_pi (c : Caller) (fuel : nat) env (uaddr timeout : Z) (is_private clock_realtime try_only : bool) w :=
  match lock_pi_prepare (c_task c) (c_pid c) (c_token c) (c_tid c) uaddr timeout is_private clock_realtime try_only w with
  | Err e => (w, env, Some (Err e))
  | Ok a => run (lock_pi_step a) fuel env LpTop w
  end.

Definition futex_wait_requeue_pi (c : Caller) (fuel : nat) env (uaddr val timeout uaddr2 : Z) (is_private clock_realtime : bool) w :=
  if (uaddr =? uaddr2) || (uaddr2 =? 0) then (w, env, Some (Err EINVAL))
  else match (let? b := validate_futex_addr uaddr2 in make_key (c_pid c) (c_token c) b is_private w) with
  | Err e => (w, env, Some (Err e))
  | Ok target =>
      match futex_wait c fuel env uaddr val timeout FUTEX_BITSET_MATCH_ANY is_private
              (if clock_realtime then AbsoluteRealtime else AbsoluteMonotonic) (Some target) w with
      | (w, env, Some (Ok _)) =>
          match user_atomic_u32 (c_token c) uaddr2 true w with
          | Err e => (w, env, Some (Err e))
          | Ok word =>
              if tid_of (word_at word w) =? u32 (c_tid c) then (w, env, Some (Ok 0))
              else futex_lock_pi c fuel env uaddr2 0 is_private false false w
          end
      | r => r
      end
  end.

Definition now_result (env : list (FutexWorld M -> FutexWorld M)) (r : FutexWorld M * SysResult Z)
  : FutexWorld M * list (FutexWorld M -> FutexWorld M) * option (SysResult Z) := (fst r, env, Some (snd r)).

(** [val2] is the argument [timeout]; the words are not changed by others in
    the middle of a section. *)
Definition sys_futex (c : Caller) (fuel : nat) env (uaddr futex_op val val2 uaddr2 val3 : Z) w :=
  let op := Z.land futex_op (Z.lnot (Z.lor FUTEX_PRIVATE_FLAG FUTEX_CLOCK_REALTIME)) in
  let is_private := negb (Z.land futex_op FUTEX_PRIVATE_FLAG =? 0) in
  let clock_realtime := negb (Z.land futex_op FUTEX_CLOCK_REALTIME =? 0) in
  let pid := c_pid c in let token := c_token c in
  if clock_realtime && negb (existsb (Z.eqb op) [FUTEX_WAIT; FUTEX_WAIT_BITSET; FUTEX_LOCK_PI; FUTEX_LOCK_PI2; FUTEX_WAIT_REQUEUE_PI])
  then (w, env, Some (Err EINVAL))
  else if op =? FUTEX_WAIT then futex_wait c fuel env uaddr val val2 FUTEX_BITSET_MATCH_ANY is_private Relative None w
  else if op =? FUTEX_WAIT_BITSET then
    futex_wait c fuel env uaddr val val2 val3 is_private (if clock_realtime then AbsoluteRealtime else AbsoluteMonotonic) None w
  else if op =? FUTEX_WAKE then now_result env (futex_wake pid token uaddr val FUTEX_BITSET_MATCH_ANY is_private w)
  else if op =? FUTEX_WAKE_BITSET then now_result env (futex_wake pid token uaddr val val3 is_private w)
  else if op =? FUTEX_REQUEUE then now_result env (futex_requeue pid token uaddr val val2 uaddr2 None is_private w)
  else if op =? FUTEX_CMP_REQUEUE then now_result env (futex_requeue pid token uaddr val val2 uaddr2 (Some val3) is_private w)
  else if op =? FUTEX_WAKE_OP then now_result env (futex_wake_op pid token uaddr val val2 uaddr2 val3 is_private w)
  else if (op =? FUTEX_LOCK_PI) || (op =? FUTEX_LOCK_PI2) then futex_lock_pi c fuel env uaddr val2 is_private clock_realtime false w
  else if op =? FUTEX_TRYLOCK_PI then futex_lock_pi c fuel env uaddr 0 is_private false true w
  else if op =? FUTEX_UNLOCK_PI then now_result env (futex_unlock_pi (fun v => v) pid token (c_tid c) uaddr is_private w)
  else if op =? FUTEX_WAIT_REQUEUE_PI then futex_wait_requeue_pi c fuel env uaddr val val2 uaddr2 is_private clock_realtime w
  else if op =? FUTEX_CMP_REQUEUE_PI then
    now_result env (futex_cmp_requeue_pi (fun v => v) pid token uaddr val val2 uaddr2 val3 is_private w)
  else (w, env, Some (Err ENOSYS)).

Definition sys_futex_waitv (c : Caller) (fuel : nat) env (waiters nr_futexes flags timeout clockid : Z) w :=
  match waitv_prepare (c_task c) (c_pid c) (c_token c) (c_tid c) waiters nr_futexes flags timeout clockid w with
  | (w, Err e) => (w, env, Some (Err e))
  | (w, Ok a) => run (waitv_step a) fuel env WtReset w
  end.
End Calls.

(** ** All tasks together *)

Inductive Call :=
| CWait (a : Wait) (pc : WaitPc)
| CWaitv (a : Waitv) (pc : WaitPc)
| CLock (a : LockPi) (pc : LockPc).

Section System.
Context {M : Type} `{FutexMem M}.
Implicit Types w : FutexWorld M.

Definition call_step (c : Call) w : FutexWorld M * option (Call + SysResult Z) :=
  match c with
  | CWait a pc => let '(w, r) := wait_step a pc w in (w, (fun r => match r with inl pc => inl (CWait a pc) | inr v => inr v end) <$> r)
  | CWaitv a pc => let '(w, r) := waitv_step a pc w in (w, (fun r => match r with inl pc => inl (CWaitv a pc) | inr v => inr v end) <$> r)
  | CLock a pc => let '(w, r) := lock_pi_step a pc w in (w, (fun r => match r with inl pc => inl (CLock a pc) | inr v => inr v end) <$> r)
  end.

(** The world; what operations have still to do after their sections; the call
    that each task is in; and for a sleeping task the length of the scheduler's
    log when it found nothing to do. *)
Record Sys := mkSys {
  world : FutexWorld M;
  posts : list Post;
  calls : gmap TaskId Call;
  sleeping : gmap TaskId nat }.

Definition set_world w (s : Sys) : Sys := mkSys w (posts s) (calls s) (sleeping s).

(** A call that has passed its checks. *)
Inductive begins w (t : TaskId) (task : Task) : Call -> FutexWorld M -> Prop :=
| begin_wait uaddr val timeout bits priv mode target a :
    wait_prepare t (t_pid task) (t_token task) (global_tid task) uaddr val timeout bits priv mode target w = Ok a -> begins w t task (CWait a WtReset) w
| begin_waitv waiters n flags timeout clockid a w' :
    waitv_prepare t (t_pid task) (t_token task) (global_tid task) waiters n flags timeout clockid w = (w', Ok a) -> begins w t task (CWaitv a WtReset) w'
| begin_lock uaddr timeout priv rt try_only a :
    lock_pi_prepare t (t_pid task) (t_token task) (global_tid task) uaddr timeout priv rt try_only w = Ok a -> begins w t task (CLock a LpTop) w.

(** The section of an operation that does not wait, by any task or by the
    scheduler, with what is left to do after it.  The list of a robust mutex owner
    is a sequence of stores and of [sec_wake_one].  [race] is what other processors
    do to the word inside a section.  [dropped] holds the tasks whose entry the
    exchange of [FUTEX_UNLOCK_PI] may drop: when the exchange fails, the code
    returns EAGAIN with the waiter already out of its queue.  With all tasks in
    [dropped] nothing is excluded. *)
Inductive section_step (dropped : TaskId -> Prop) w : FutexWorld M -> list Post -> Prop :=
| sec_wake pid token uaddr n bits priv w' l r : futex_wake_section pid token uaddr n bits priv w = (w', l, r) -> section_step dropped w w' (PostWake <$> l)
| sec_wake_with_pid pid uaddr n bits w' l r : futex_wake_with_pid_section pid uaddr n bits w = (w', l, r) -> section_step dropped w w' (PostWake <$> l)
| sec_wake_one uaddr pid paddr w' l r : futex_wake_one_section uaddr pid paddr w = (w', l, r) -> section_step dropped w w' (PostWake <$> l)
| sec_requeue pid token uaddr nw nr uaddr2 cmp priv w' l r :
    futex_requeue_section pid token uaddr nw nr uaddr2 cmp priv w = (w', l, r) -> section_step dropped w w' (PostWake <$> l)
| sec_wake_op pid token uaddr nw nw2 uaddr2 enc priv w' l r :
    futex_wake_op_section pid token uaddr nw nw2 uaddr2 enc priv w = (w', l, r) -> section_step dropped w w' (PostWake <$> l)
| sec_unlock race pid token tid uaddr priv w' l r : futex_unlock_pi_section race pid token tid uaddr priv w = (w', l, r) ->
    (forall x, r = Err EAGAIN -> waiters_of (FUTEX_TABLE w) ≡ₚ x :: waiters_of (FUTEX_TABLE w') -> dropped (w_task x)) -> section_step dropped w w' l
| sec_requeue_pi race pid token uaddr nw nr uaddr2 cmp priv w' l r :
    futex_cmp_requeue_pi_section race pid token uaddr nw nr uaddr2 cmp priv w = (w', l, r) -> section_step dropped w w' l
| sec_expire now w' t owner : now <= monotonic_now_ns w -> timeout_section now w = (w', Some (t, owner)) -> section_step dropped w w' (expire_task t owner)
| sec_publish now w' : now <= monotonic_now_ns w -> timeout_section now w = (w', None) -> section_step dropped w w' []
| sec_store pa v : section_step dropped w (put_word pa v w) []
| sec_clock now rt : clock w <= now ->
    section_step dropped w (mkFW (user_mem w) (FUTEX_TABLE w) (PI_STATES w) (NEXT_FUTEX_DEADLINE_NS w) now rt (tasks w) (TID2TASK w) (sched_log w)) [].

(** A signal; the end of a thread at the request of another ([request_tasks_exit],
    the threads of a process that calls execve), blocked or running; the end of the
    process. *)
Definition signal_task (t : TaskId) w : FutexWorld M := wakeup_task t (upd_task (with_interrupted true) t w).
Definition set_zombie (task : Task) : Task :=
  mkTask (global_tid task) (t_pid task) (t_token task) (sched_priority task) (pi_boost_priority task) (futex_woken task) (futex_timed_out task)
    (futex_waitv_index task) (interrupted_by_signal task) true (ready_queued task) (on_cpu task).
Definition kill_task (t : TaskId) w : FutexWorld M :=
  wakeup_task t (remove_task_from_futex_table t (upd_task (fun task => with_interrupted true (set_zombie task)) t w)).
Definition mark_task (t : TaskId) w : FutexWorld M := upd_task (fun task => with_interrupted true (set_zombie task)) t w.
Definition exit_group_task (t : TaskId) w : FutexWorld M := wakeup_task t (upd_task set_zombie t w).

Inductive fstep (dropped : TaskId -> Prop) : Sys -> Sys -> Prop :=
| fs_begin s t task c w : calls s !! t = None -> tasks (world s) !! t = Some task -> begins (world s) t task c w ->
    fstep dropped s (mkSys w (posts s) (<[t := c]> (calls s)) (sleeping s))
| fs_run s t c w c' : calls s !! t = Some c -> sleeping s !! t = None -> call_step c (world s) = (w, Some (inl c')) ->
    fstep dropped s (mkSys w (posts s) (<[t := c']> (calls s)) (sleeping s))
| fs_return s t c w r : calls s !! t = Some c -> sleeping s !! t = None -> call_step c (world s) = (w, Some (inr r)) ->
    fstep dropped s (mkSys w (posts s) (delete t (calls s)) (sleeping s))
| fs_sleep s t c w : calls s !! t = Some c -> sleeping s !! t = None -> call_step c (world s) = (w, None) ->
    fstep dropped s (mkSys w (posts s) (calls s) (<[t := length (sched_log w)]> (sleeping s)))
| fs_resume s t : fstep dropped s (mkSys (world s) (posts s) (calls s) (delete t (sleeping s)))
| fs_retry s t a pc : calls s !! t = Some (CLock a pc) -> (pc = LpAcquire \/ exists v, pc = LpMark v) -> sleeping s !! t = None ->
    fstep dropped s (mkSys (world s) (posts s) (<[t := CLock a LpTop]> (calls s)) (sleeping s))
| fs_section s w l : section_step dropped (world s) w l -> fstep dropped s (mkSys w (posts s ++ l) (calls s) (sleeping s))
| fs_post s l1 p l2 : posts s = l1 ++ p :: l2 -> fstep dropped s (mkSys (post (world s) p) (l1 ++ l2) (calls s) (sleeping s))
| fs_signal s t : fstep dropped s (set_world (signal_task t (world s)) s)
| fs_kill s t : fstep dropped s (set_world (kill_task t (world s)) s)
| fs_mark s t : sleeping s !! t = None -> fstep dropped s (set_world (mark_task t (world s)) s)
| fs_exit_group s t : fstep dropped s (set_world (exit_group_task t (world s)) s)
| fs_exit s t : calls s !! t = None -> fstep dropped s (set_world (remove_task_from_futex_table t (world s)) s).

Definition futex_boot (s : Sys) : Prop :=
  FUTEX_TABLE (world s) = ∅ /\ PI_STATES (world s) = ∅ /\ NEXT_FUTEX_DEADLINE_NS (world s) = NO_FUTEX_DEADLINE /\ posts s = [] /\
  calls s = ∅ /\ sleeping s = ∅.

Definition freach (dropped : TaskId -> Prop) (s : Sys) : Prop := exists s0, futex_boot s0 /\ rtc (fstep dropped) s0 s.
End System.
Arguments Sys M : clear implicits.
