(* ===== verification/FutexSpec.v ===== *)
(** * Futexes: what the operations do

    Queues as seen through [queue_of], the exact effect of waking and
    requeueing, deadlines, and the words that [FUTEX_WAKE_OP] writes. *)

From stdpp Require Import sorting.
From S2P Require Import Prelude SysErr Futex FutexSys.

(** ** Queues *)

Lemma queue_of_put key queue table k : queue_of k (put_queue key queue table) = if decide (k = key) then queue else queue_of k table.
Proof.
  unfold put_queue, queue_of. case_bool_decide as E.
  - rewrite lookup_delete. case_decide; [subst; by rewrite decide_True|by rewrite decide_False].
  - rewrite lookup_insert. case_decide; [subst; by rewrite decide_True|by rewrite decide_False].
Qed.

Lemma queue_of_insert key queue (table : FutexTable) k : queue_of k (<[key := queue]> table) = if decide (k = key) then queue else queue_of k table.
Proof. unfold queue_of. rewrite lookup_insert. case_decide; [subst; by rewrite decide_True|by rewrite decide_False]. Qed.

Lemma queue_of_enqueue key ws table k : queue_of k (enqueue_at key ws table) = queue_of k table ++ (if decide (k = key) then ws else []).
Proof. unfold enqueue_at. rewrite queue_of_insert. case_decide; [by subst|by rewrite app_nil_r]. Qed.

Lemma queue_of_delete key (table : FutexTable) k : queue_of k (delete key table) = if decide (k = key) then [] else queue_of k table.
Proof. unfold queue_of. rewrite lookup_delete. case_decide; [subst; by rewrite decide_True|by rewrite decide_False]. Qed.

(** The waiters of other tasks than [t]. *)
Definition others (t : TaskId) (queue : list FutexWaiter) : list FutexWaiter := List.filter (fun x => negb (is_task t x)) queue.

Lemma queue_of_siblings t table k : queue_of k (remove_waitv_siblings_locked t table) = others t (queue_of k table).
Proof.
  unfold remove_waitv_siblings_locked, queue_of. rewrite lookup_omap. destruct (table !! k) as [q|]; [|done]. simpl.
  unfold others, is_task. case_bool_decide as E; [|done]. simpl. by rewrite E.
Qed.

(** The waiters of tasks outside a list. *)
Definition without (ts : list TaskId) (queue : list FutexWaiter) : list FutexWaiter :=
  List.filter (fun x => negb (bool_decide (w_task x ∈ ts))) queue.

Lemma without_nil queue : without [] queue = queue.
Proof. induction queue as [|x queue IH]; [done|]. simpl. unfold without in *. by rewrite IH. Qed.

Lemma filter_andb {A} (f g : A -> bool) l : List.filter f (List.filter g l) = List.filter (fun x => g x && f x) l.
Proof. induction l as [|x l IH]; [done|]. simpl. destruct (g x); simpl; [destruct (f x)|]; by rewrite IH. Qed.

Lemma filter_ext_b {A} (f g : A -> bool) l : (forall x, f x = g x) -> List.filter f l = List.filter g l.
Proof. intros E. induction l as [|x l IH]; [done|]. simpl. by rewrite E, IH. Qed.

Lemma without_others t ts queue : without ts (others t queue) = without (t :: ts) queue.
Proof.
  unfold without, others. rewrite filter_andb. apply filter_ext_b. intros x. unfold is_task. rewrite <- negb_orb. f_equal.
  destruct (w_task x =? t)%nat eqn:E; to_prop; simpl.
  - symmetry. apply bool_decide_eq_true. subst. set_solver.
  - apply bool_decide_ext. set_solver.
Qed.

(** ** Selecting waiters *)

Definition matches (bits : Z) (x : FutexWaiter) : bool := negb (Z.land (bitset x) bits =? 0).

(** The queue is scanned up to the last waiter that is selected. *)
Lemma select_spec bits : forall queue n, exists q1 q2, queue = q1 ++ q2 /\
  select n bits queue = (List.filter (matches bits) q1, List.filter (fun x => negb (matches bits x)) q1 ++ q2) /\
  (length (List.filter (matches bits) q1) = n \/ (q2 = [] /\ (length (List.filter (matches bits) q1) <= n)%nat)).
Proof.
  induction queue as [|x queue IH]; intros n; [exists [], []; split; [done|]; split; [done|right; split; [done|simpl; lia]]|].
  cbn [select]. fold (matches bits x). destruct n as [|n].
  { exists [], (x :: queue). cbn [Nat.ltb Nat.leb andb]. destruct (IH 0%nat) as (q1 & q2 & -> & -> & Hl).
    split; [done|]. split; [|by left]. simpl.
    assert (E : List.filter (matches bits) q1 = []) by (apply length_zero_iff_nil; destruct Hl as [?|[_ ?]]; lia).
    rewrite E. f_equal. f_equal. f_equal.
    clear -E. induction q1 as [|y q1 IH]; [done|]. simpl in *. destruct (matches bits y); [done|]. simpl. by rewrite IH. }
  change (0 <? S n)%nat with true. cbn [andb]. destruct (matches bits x) eqn:Ex.
  - replace (S n - 1)%nat with n by lia. destruct (IH n) as (q1 & q2 & -> & -> & Hl). exists (x :: q1), q2.
    split; [done|]. simpl. rewrite Ex. simpl. split; [done|]. destruct Hl as [?|[? ?]]; [left; lia|right; split; [done|lia]].
  - destruct (IH (S n)) as (q1 & q2 & -> & -> & Hl). exists (x :: q1), q2. split; [done|]. simpl. rewrite Ex. simpl. by split.
Qed.

(** ** Members of futex_waitv sets *)

Definition is_waitv (x : FutexWaiter) : bool := negb (wake_index x =? usize_max).
Definition waitv_tasks (l : list FutexWaiter) : list TaskId := w_task <$> List.filter is_waitv l.

Lemma filter_in {A} (f : A -> bool) l x : x ∈ List.filter f l <-> x ∈ l /\ f x = true.
Proof. rewrite !list_elem_of_In. apply filter_In. Qed.

(** One selection per waitv set, and the set leaves the table. *)
Lemma commit_loop_spec : forall fuel sel table, (length sel <= fuel)%nat ->
  let '(table', sel') := commit_loop fuel sel table in
  sel' `sublist_of` sel /\ NoDup (waitv_tasks sel') /\
  (forall x, x ∈ sel -> x ∈ sel' \/ w_task x ∈ waitv_tasks sel') /\
  (forall k, queue_of k table' = without (waitv_tasks sel') (queue_of k table)) /\
  (Forall (fun x => is_waitv x = false) sel -> sel' = sel /\ table' = table).
Proof.
  induction fuel as [|fuel IH]; intros sel table Hl.
  { destruct sel; [|simpl in Hl; lia]. simpl. split_and!; try done; [constructor|set_solver|]. intros k. by rewrite without_nil. }
  destruct sel as [|x sel]; [simpl; split_and!; try done; [constructor|set_solver|]; intros k; by rewrite without_nil|].
  cbn [commit_loop]. assert (Ex : is_waitv x = negb (wake_index x =? usize_max)) by done. destruct (wake_index x =? usize_max); simpl in Ex.
  - specialize (IH sel table ltac:(simpl in Hl; lia)). destruct (commit_loop fuel sel table) as [t' s']. destruct IH as (H1 & H2 & H3 & H4 & H5).
    assert (Ew : waitv_tasks (x :: s') = waitv_tasks s') by (unfold waitv_tasks; simpl; by rewrite Ex).
    rewrite Ew. split_and!; try done; [by apply sublist_skip| |].
    + intros y [->|Hy]%elem_of_cons; [left; left|]. destruct (H3 y Hy); [left; by right|by right].
    + intros [_ Ha]%Forall_cons. destruct (H5 Ha) as [-> ->]. done.
  - set (rest := List.filter _ sel). specialize (IH rest (remove_waitv_siblings_locked (w_task x) table)).
    assert (Hr : (length rest <= length sel)%nat) by apply sublist_length, filter_sublist_b.
    destruct (commit_loop fuel rest _) as [t' s']. destruct IH as (H1 & H2 & H3 & H4 & H5); [simpl in Hl; lia|].
    assert (Ew : waitv_tasks (x :: s') = w_task x :: waitv_tasks s') by (unfold waitv_tasks; simpl; by rewrite Ex).
    assert (Hno : forall y, y ∈ s' -> w_task y <> w_task x).
    { intros y Hy. assert (Hy' : y ∈ rest) by (by eapply sublist_subseteq). apply filter_in in Hy' as [_ Hy']. by to_prop. }
    rewrite Ew. split_and!.
    + apply sublist_skip. etrans; [exact H1|apply filter_sublist_b].
    + constructor; [|done]. intros (y & Ey & Hy)%list_elem_of_fmap. apply filter_in in Hy as [Hy _]. by apply (Hno y Hy).
    + intros y [->|Hy]%elem_of_cons; [left; left|]. destruct (decide (w_task y = w_task x)) as [E|E]; [right; rewrite E; left|].
      destruct (H3 y) as [?|?]; [apply filter_in; split; [done|]; by apply negb_true_iff, Nat.eqb_neq|left; by right|right; by right].
    + intros k. by rewrite H4, queue_of_siblings, without_others.
    + intros [Hx _]%Forall_cons. congruence.
Qed.

Lemma commit_spec sel table : let '(table', sel') := commit_waitv_wake_selections_locked sel table in
  sel' `sublist_of` sel /\ NoDup (waitv_tasks sel') /\
  (forall x, x ∈ sel -> x ∈ sel' \/ w_task x ∈ waitv_tasks sel') /\
  (forall k, queue_of k table' = without (waitv_tasks sel') (queue_of k table)) /\
  (Forall (fun x => is_waitv x = false) sel -> sel' = sel /\ table' = table).
Proof. by apply commit_loop_spec. Qed.

(** ** Waking tasks *)

Section Waking.
Context {M : Type} `{FutexMem M}.
Implicit Types w : FutexWorld M.

(** What waking leaves of a world. *)
Record wakes (ws : list FutexWaiter) w w' : Prop := {
  wk_table : FUTEX_TABLE w' = FUTEX_TABLE w;
  wk_states : PI_STATES w' = PI_STATES w;
  wk_next : NEXT_FUTEX_DEADLINE_NS w' = NEXT_FUTEX_DEADLINE_NS w;
  wk_clock : clock w' = clock w;
  wk_mem : user_mem w' = user_mem w;
  wk_tids : TID2TASK w' = TID2TASK w;
  wk_log : sched_log w' = sched_log w ++ (EvWake <$> (w_task <$> ws));
  wk_task t : tasks w' !! t = if decide (t ∈ w_task <$> ws)
    then (fun task => with_woken true (with_waitv_index (default 0 (wake_index <$> last (List.filter (is_task t) ws))) task)) <$> tasks w !! t
    else tasks w !! t }.

Lemma wake_all_spec : forall ws w, wakes ws w (wake_all ws w).
Proof.
  induction ws as [|x ws IH] using rev_ind; intros w.
  { split; try done. simpl. by rewrite app_nil_r. }
  unfold wake_all. rewrite fold_left_app. simpl. fold (wake_all ws w). destruct (IH w) as [E1 E2 E3 E4 E5 E6 E7 E8].
  split; simpl; try done.
  - rewrite E7, <- app_assoc. by rewrite !fmap_app.
  - intros t. rewrite List.filter_app, fmap_app. simpl. unfold is_task at 2. destruct (decide (w_task x = t)) as [<-|Hne].
    + rewrite lookup_alter_eq, E8, Nat.eqb_refl, last_snoc. rewrite (decide_True (P := w_task x ∈ (w_task <$> ws) ++ _)) by set_solver. simpl.
      destruct (decide (w_task x ∈ w_task <$> ws)); destruct (tasks w !! w_task x); done.
    + rewrite lookup_alter_ne, E8, (proj2 (Nat.eqb_neq _ _)), app_nil_r by done.
      destruct (decide (t ∈ w_task <$> ws)); [rewrite decide_True by set_solver|rewrite decide_False by set_solver]; done.
Qed.

(** The waiters that are woken, and what leaves the table with them. *)
Record woken_of (wake : list FutexWaiter) (base : FutexKey -> list FutexWaiter) (w w' : FutexWorld M) (chosen : list FutexWaiter) : Prop := {
  wo_sub : chosen `sublist_of` wake;
  wo_once : NoDup (waitv_tasks chosen);
  wo_all x : x ∈ wake -> x ∈ chosen \/ w_task x ∈ waitv_tasks chosen;
  wo_plain : Forall (fun x => is_waitv x = false) wake -> chosen = wake;
  wo_queue k : queue_of k (FUTEX_TABLE w') = without (waitv_tasks chosen) (base k);
  wo_rest : wakes chosen (set_table (FUTEX_TABLE w') w) w' }.

Lemma woken_intro wake table w : exists chosen, let '(table', c) := commit_waitv_wake_selections_locked wake table in
  c = chosen /\ woken_of wake (fun k => queue_of k table) w (wake_all c (set_table table' w)) chosen.
Proof.
  pose proof (commit_spec wake table) as Hc. destruct (commit_waitv_wake_selections_locked wake table) as [table' c].
  destruct Hc as (H1 & H2 & H3 & H4 & H5). exists c. split; [done|]. pose proof (wake_all_spec c (set_table table' w)) as Hw.
  assert (Et : FUTEX_TABLE (wake_all c (set_table table' w)) = table') by apply Hw.
  split; try done; [intros Ha; by apply H5|by rewrite Et|by rewrite Et].
Qed.

Lemma woken_ext wake base base' w w' chosen : (forall k, base k = base' k) -> woken_of wake base w w' chosen -> woken_of wake base' w w' chosen.
Proof. intros E [? ? ? ? ? ?]. split; try done. intros k. by rewrite <- E. Qed.

Lemma valid_addr uaddr : validate_futex_addr uaddr = if Z.land uaddr 3 =? 0 then Ok uaddr else Err EINVAL.
Proof. unfold validate_futex_addr. change (4 - 1) with 3. by destruct (_ =? 0). Qed.

Lemma wake_locked_spec key n bits w : exists chosen,
  let '(wake, rest) := select n bits (queue_of key (FUTEX_TABLE w)) in
  let '(w1, c) := wake_locked key n bits w in c = chosen /\
  woken_of wake (fun k => if decide (k = key) then rest else queue_of k (FUTEX_TABLE w)) w (wake_all c w1) chosen.
Proof.
  unfold wake_locked. destruct (FUTEX_TABLE w !! key) as [q|] eqn:Eq.
  - assert (Eqq : queue_of key (FUTEX_TABLE w) = q) by (unfold queue_of; by rewrite Eq). rewrite Eqq. destruct (select n bits q) as [wake rest]. cbv iota beta. destruct (woken_intro wake (put_queue key rest (FUTEX_TABLE w)) w) as [chosen Hc]. exists chosen.
    destruct (commit_waitv_wake_selections_locked wake _) as [table' c]. destruct Hc as [-> Hc]. split; [done|].
    eapply woken_ext; [|exact Hc]. intros k. apply queue_of_put.
  - assert (Eqq : queue_of key (FUTEX_TABLE w) = []) by (unfold queue_of; by rewrite Eq). rewrite Eqq. cbn [select]. destruct (woken_intro [] (FUTEX_TABLE w) w) as [chosen Hc]. exists chosen.
    destruct (commit_waitv_wake_selections_locked [] _) as [table' c]. destruct Hc as [-> Hc]. split; [done|].
    eapply woken_ext; [|exact Hc]. intros k. cbn beta. case_decide; [by subst|done].
Qed.

(** FUTEX_WAKE.  The queue is scanned from its front; the first [nr_wake]
    waiters whose bit set meets [bits] are woken in this order and no others, and
    the rest keep their order.  Of a futex_waitv set one member is counted and
    the whole set leaves the table.  Nothing else changes, and the result is the
    number of tasks woken.  An empty bit set, a misaligned address and a word that
    is a PI lock are refused. *)
Theorem futex_wake_exact pid token uaddr n bits priv key w : Z.land uaddr 3 = 0 -> make_key pid token uaddr priv w = Ok key ->
  if (bits =? 0) || bool_decide (is_Some (PI_STATES w !! key)) then futex_wake pid token uaddr n bits priv w = (w, Err EINVAL)
  else exists q1 q2 chosen w', queue_of key (FUTEX_TABLE w) = q1 ++ q2 /\
    (let wake := List.filter (matches bits) q1 in
     futex_wake pid token uaddr n bits priv w = (w', Ok (Z.of_nat (length chosen))) /\
     (length wake = Z.to_nat n \/ (q2 = [] /\ (length wake <= Z.to_nat n)%nat)) /\
     woken_of wake (fun k => if decide (k = key) then List.filter (fun x => negb (matches bits x)) q1 ++ q2 else queue_of k (FUTEX_TABLE w)) w w' chosen).
Proof.
  intros Ha Hk. unfold futex_wake, futex_wake_section, counted. rewrite valid_addr, Ha. cbn [Z.eqb rbind]. rewrite Hk. destruct (bits =? 0); [done|]. cbn [orb].
  case_bool_decide; [done|]. destruct (select_spec bits (queue_of key (FUTEX_TABLE w)) (Z.to_nat n)) as (q1 & q2 & Eq & Es & Hl).
  destruct (wake_locked_spec key (Z.to_nat n) bits w) as [chosen Hw]. rewrite Es in Hw. exists q1, q2, chosen.
  destruct (wake_locked key (Z.to_nat n) bits w) as [w1 c]. destruct Hw as [-> Hw]. eexists. split; [done|]. split; [done|]. by split.
Qed.

(** FUTEX_REQUEUE and FUTEX_CMP_REQUEUE.  The first [nr_wake] waiters of the
    first word are woken, the next [nr_requeue] are appended to the queue of the
    second in their order, and the rest stay; the result is the number woken.  A
    word that has not the expected value, a PI lock or a PI waiter at either word
    leaves everything as it is. *)
Theorem futex_requeue_exact pid token uaddr nw nr uaddr2 cmp priv key1 key2 w :
  Z.land uaddr 3 = 0 -> Z.land uaddr2 3 = 0 -> make_key pid token uaddr priv w = Ok key1 -> make_key pid token uaddr2 priv w = Ok key2 ->
  if negb (plain_keys key1 key2 w) then futex_requeue pid token uaddr nw nr uaddr2 cmp priv w = (w, Err EINVAL)
  else match (match cmp with None => Ok 0 | Some _ => read_user_u32_mapped token uaddr w end) with
  | Err e => futex_requeue pid token uaddr nw nr uaddr2 cmp priv w = (w, Err e)
  | Ok v =>
      if match cmp with Some c => negb (v =? c) | None => false end then futex_requeue pid token uaddr nw nr uaddr2 cmp priv w = (w, Err EAGAIN)
      else
        let q := queue_of key1 (FUTEX_TABLE w) in
        let rest := drop (Z.to_nat nw) q in
        exists chosen w', futex_requeue pid token uaddr nw nr uaddr2 cmp priv w = (w', Ok (Z.of_nat (length chosen))) /\
          woken_of (take (Z.to_nat nw) q) (fun k => (if decide (k = key1) then drop (Z.to_nat nr) rest else queue_of k (FUTEX_TABLE w)) ++
            (if decide (k = key2) then take (Z.to_nat nr) rest else [])) w w' chosen
  end.
Proof.
  intros Ha Hb Hk1 Hk2. unfold futex_requeue, futex_requeue_section. rewrite !valid_addr, Ha, Hb. cbn [Z.eqb rbind]. rewrite Hk1. cbn [rbind]. rewrite Hk2. cbn [rbind].
  destruct (negb (plain_keys key1 key2 w)); [done|].
  assert (Hmain : let q := queue_of key1 (FUTEX_TABLE w) in let rest := drop (Z.to_nat nw) q in
    exists chosen w', wake_up (counted (requeue_locked key1 key2 (Z.to_nat nw) (Z.to_nat nr) w)) = (w', Ok (E := SysError) (Z.of_nat (length chosen))) /\
      woken_of (take (Z.to_nat nw) q) (fun k => (if decide (k = key1) then drop (Z.to_nat nr) rest else queue_of k (FUTEX_TABLE w)) ++
        (if decide (k = key2) then take (Z.to_nat nr) rest else [])) w w' chosen).
  { unfold requeue_locked. set (q := queue_of key1 (FUTEX_TABLE w)). set (rest := drop (Z.to_nat nw) q). cbv zeta.
    set (tb := match FUTEX_TABLE w !! key1 with None => FUTEX_TABLE w | Some _ => put_queue key1 (drop (Z.to_nat nr) rest) (FUTEX_TABLE w) end).
    assert (Etb : match FUTEX_TABLE w !! key1 with None => (FUTEX_TABLE w, [], []) | Some queue =>
      (put_queue key1 (drop (Z.to_nat nr) (drop (Z.to_nat nw) queue)) (FUTEX_TABLE w), take (Z.to_nat nw) queue, take (Z.to_nat nr) (drop (Z.to_nat nw) queue)) end =
      (tb, take (Z.to_nat nw) q, take (Z.to_nat nr) rest)).
    { unfold tb, rest, q, queue_of. destruct (FUTEX_TABLE w !! key1); simpl; [done|]. by rewrite drop_nil, !take_nil. }
    rewrite Etb. set (tb2 := if bool_decide _ then _ else _). destruct (woken_intro (take (Z.to_nat nw) q) tb2 w) as [chosen Hc].
    exists chosen. destruct (commit_waitv_wake_selections_locked _ tb2) as [table' c]. destruct Hc as [-> Hc]. eexists. split; [done|].
    eapply woken_ext; [|exact Hc]. intros k. cbn beta.
    assert (Eq : queue_of k tb = if decide (k = key1) then drop (Z.to_nat nr) rest else queue_of k (FUTEX_TABLE w)).
    { unfold tb. destruct (FUTEX_TABLE w !! key1) eqn:E1; [apply queue_of_put|]. case_decide; [|done]. subst k. unfold rest, q, queue_of. rewrite E1. simpl. by rewrite !drop_nil. }
    unfold tb2. case_bool_decide as Em; [|by rewrite queue_of_enqueue, Eq]. rewrite Em, Eq. destruct (decide (k = key2)); by rewrite app_nil_r. }
  destruct cmp as [c|]; [|exact Hmain]. destruct (read_user_u32_mapped token uaddr w) as [v|e]; [|done]. cbn [rbind]. destruct (negb (v =? c)); [done|exact Hmain].
Qed.
End Waking.

(** ** FUTEX_WAKE_OP *)

(** The encoding of the operation by user programs ([FUTEX_OP] of linux/futex.h). *)
Definition encode_wake_op (op op_arg cmp cmp_arg : Z) : Z := op * 2 ^ 28 + cmp * 2 ^ 24 + (op_arg mod 4096) * 2 ^ 12 + cmp_arg mod 4096.

Lemma sign_extend_spec x : -2048 <= x < 2048 -> sign_extend_12 (x mod 4096) = x.
Proof.
  intros Hx. unfold sign_extend_12. rewrite Z.shiftr_div_pow2, Z.shiftl_mul_pow2 by lia. unfold signed, wrap. change (2 ^ 20) with 1048576.
  change (2 ^ 32) with 4294967296. change (2 ^ (32 - 1)) with 2147483648. case_if; zlia.
Qed.

Lemma decode_encode op op_arg cmp cmp_arg : 0 <= op < 16 -> 0 <= cmp <= 5 -> -2048 <= op_arg < 2048 -> -2048 <= cmp_arg < 2048 ->
  decode_wake_op (encode_wake_op op op_arg cmp cmp_arg) =
    if op <? 8 then if op <=? 4 then Ok (op, op_arg, cmp, cmp_arg) else Err ENOSYS
    else if (0 <=? op_arg) && (op_arg <? 32) then if op - 8 <=? 4 then Ok (op - 8, signed 32 (2 ^ op_arg), cmp, cmp_arg) else Err ENOSYS
    else Err EINVAL.
Proof.
  intros Hop Hcmp Ha Hc. unfold decode_wake_op, encode_wake_op. set (e := op * 2 ^ 28 + _ + _ + _).
  assert (He : e = op * 268435456 + cmp * 16777216 + (op_arg mod 4096) * 4096 + cmp_arg mod 4096) by reflexivity. clearbody e.
  assert (E1 : Z.land (Z.shiftr e 28) 15 = op) by (change 15 with (Z.ones 4); rewrite Z.land_ones, Z.shiftr_div_pow2 by lia; subst e; change (2 ^ 28) with 268435456; change (2 ^ 4) with 16; zlia).
  assert (E2 : Z.land (Z.shiftr e 24) 15 = cmp) by (change 15 with (Z.ones 4); rewrite Z.land_ones, Z.shiftr_div_pow2 by lia; subst e; change (2 ^ 24) with 16777216; change (2 ^ 4) with 16; zlia).
  assert (E3 : Z.land (Z.shiftr e 12) 4095 = op_arg mod 4096) by (change 4095 with (Z.ones 12); rewrite Z.land_ones, Z.shiftr_div_pow2 by lia; subst e; change (2 ^ 12) with 4096; zlia).
  assert (E4 : Z.land e 4095 = cmp_arg mod 4096) by (change 4095 with (Z.ones 12); rewrite Z.land_ones by lia; subst e; change (2 ^ 12) with 4096; zlia).
  rewrite E1, E2, E3, E4, !sign_extend_spec by done. clear E1 E2 E3 E4 He e. rewrite Z.shiftl_1_l.
  assert (H16 : op = 0 \/ op = 1 \/ op = 2 \/ op = 3 \/ op = 4 \/ op = 5 \/ op = 6 \/ op = 7 \/ op = 8 \/ op = 9 \/ op = 10 \/ op = 11 \/ op = 12 \/ op = 13 \/ op = 14 \/ op = 15) by lia.
  assert (Hcm : (5 <? cmp) = false) by (apply Z.ltb_ge; lia).
  destruct H16 as [->|[->|[->|[->|[->|[->|[->|[->|[->|[->|[->|[->|[->|[->|[->| ->]]]]]]]]]]]]]]]; cbn -[Z.ltb Z.leb signed Z.pow]; rewrite ?Hcm;
    try reflexivity; destruct ((0 <=? op_arg) && (op_arg <? 32)); cbn -[Z.ltb signed Z.pow]; rewrite ?Hcm; reflexivity.
Qed.

(** The operations of the header, on 32-bit words. *)
Definition spec_op (op op_arg old : Z) : Z :=
  match op with
  | 0 => op_arg mod 2 ^ 32
  | 1 => (old + op_arg) mod 2 ^ 32
  | 2 => Z.lor old (op_arg mod 2 ^ 32)
  | 3 => Z.ldiff old (op_arg mod 2 ^ 32)
  | _ => Z.lxor old (op_arg mod 2 ^ 32)
  end.

Lemma land_not old arg : in_u 32 old -> in_u 32 arg -> Z.land old (2 ^ 32 - 1 - arg) = Z.ldiff old arg.
Proof.
  intros Ho Ha. replace (2 ^ 32 - 1 - arg) with (Z.ldiff (Z.ones 32) arg).
  - apply Z.bits_inj'. intros n Hn. rewrite Z.land_spec, !Z.ldiff_spec. destruct (Z.ltb_spec n 32).
    + rewrite Z.ones_spec_low by lia. by rewrite andb_true_l.
    + rewrite Z.ones_spec_high by lia. rewrite andb_false_l, andb_false_r. destruct (Z.eq_dec old 0) as [->|]; [by rewrite Z.bits_0|].
      rewrite (Z.bits_above_log2 old n); [done|unfold in_u in Ho; lia|]. apply Z.log2_lt_pow2; [unfold in_u in Ho; lia|].
      apply Z.lt_le_trans with (2 ^ 32); [apply Ho|apply Z.pow_le_mono_r; lia].
  - change (2 ^ 32 - 1) with (Z.ones 32). symmetry. apply Z.sub_nocarry_ldiff. apply Z.bits_inj'. intros n Hn. rewrite Z.ldiff_spec, Z.bits_0.
    destruct (Z.ltb_spec n 32); [rewrite Z.ones_spec_low by lia; by rewrite andb_false_r|].
    destruct (Z.eq_dec arg 0) as [->|]; [by rewrite Z.bits_0|].
    rewrite (Z.bits_above_log2 arg n); [done|unfold in_u in Ha; lia|]. apply Z.log2_lt_pow2; [unfold in_u in Ha; lia|].
    apply Z.lt_le_trans with (2 ^ 32); [apply Ha|apply Z.pow_le_mono_r; lia].
Qed.

Lemma apply_op_spec op op_arg old : 0 <= op <= 4 -> in_u 32 old -> apply_op op op_arg old = spec_op op op_arg old.
Proof.
  intros Hop Ho. unfold apply_op, spec_op. pose proof (wrap_range 32 op_arg ltac:(lia)) as Hw.
  assert (Hc : op = 0 \/ op = 1 \/ op = 2 \/ op = 3 \/ op = 4) by lia.
  destruct Hc as [->|[->|[->|[->| ->]]]]; cbn [Z.eqb Pos.eqb]; try done; [by rewrite wrap_add_r|by rewrite land_not].
Qed.

Section WakeOp.
Context {M : Type} `{FutexMem M} `{!FutexMemLaws M}.
Implicit Types w : FutexWorld M.

Lemma pop_front_spec key n table : let '(table', popped) := pop_front key n table in
  popped = take n (queue_of key table) /\ forall k, queue_of k table' = if decide (k = key) then drop n (queue_of key table) else queue_of k table.
Proof.
  unfold pop_front. destruct (table !! key) as [q|] eqn:E.
  - assert (Eq : queue_of key table = q) by (unfold queue_of; by rewrite E). rewrite Eq. split; [done|]. intros k. apply queue_of_put.
  - assert (Eq : queue_of key table = []) by (unfold queue_of; by rewrite E). rewrite Eq, take_nil, drop_nil. split; [done|].
    intros k. case_decide; by subst.
Qed.

Lemma drop_taken {A} n (l : list A) : drop (length (take n l)) l = drop n l.
Proof. rewrite length_take. destruct (Nat.le_gt_cases n (length l)); [by rewrite Nat.min_l|]. rewrite Nat.min_r, !drop_ge by lia. done. Qed.

(** FUTEX_WAKE_OP.  For an operation that user programs encode, the second
    word is replaced by the operation's result on its old value, in 32 bits; up to
    [nr_wake] waiters of the first word are woken and, when the comparison holds
    of the old value as a signed number, up to [nr_wake2] of the second, in the
    order of their queues.  A shift outside 0-31 is EINVAL, an unknown operation
    ENOSYS, and then nothing changes. *)
Theorem futex_wake_op_exact pid token uaddr nw nw2 uaddr2 op op_arg cmp cmp_arg priv key1 key2 word w :
  Z.land uaddr 3 = 0 -> Z.land uaddr2 3 = 0 -> make_key pid token uaddr priv w = Ok key1 -> make_key pid token uaddr2 priv w = Ok key2 ->
  user_atomic_u32 token uaddr2 true w = Ok word -> plain_keys key1 key2 w = true ->
  0 <= op < 16 -> 0 <= cmp <= 5 -> -2048 <= op_arg < 2048 -> -2048 <= cmp_arg < 2048 ->
  let call := futex_wake_op pid token uaddr nw nw2 uaddr2 (encode_wake_op op op_arg cmp cmp_arg) priv w in
  if (8 <=? op) && negb ((0 <=? op_arg) && (op_arg <? 32)) then call = (w, Err EINVAL)
  else if 4 <? op mod 8 then call = (w, Err ENOSYS)
  else
    let arg := if 8 <=? op then signed 32 (2 ^ op_arg) else op_arg in
    let old := word_at word w in
    let w1 := put_word word (spec_op (op mod 8) arg old) w in
    let q1 := queue_of key1 (FUTEX_TABLE w) in
    let base k := if decide (k = key1) then drop (Z.to_nat nw) q1 else queue_of k (FUTEX_TABLE w) in
    let second := if apply_cmp cmp cmp_arg old then take (Z.to_nat nw2) (base key2) else [] in
    exists chosen w', call = (w', Ok (Z.of_nat (length chosen))) /\
      woken_of (take (Z.to_nat nw) q1 ++ second) (fun k => if decide (k = key2) then drop (length second) (base key2) else base k) w1 w' chosen.
Proof using All.
  intros Ha Hb Hk1 Hk2 Hw Hp Hop Hcmp Hoa Hca call. unfold call, futex_wake_op, futex_wake_op_section. rewrite !valid_addr, Ha, Hb. cbn [Z.eqb rbind].
  rewrite decode_encode by done.
  assert (Hm : op mod 8 = if op <? 8 then op else op - 8) by (destruct (op <? 8) eqn:E; to_prop; zlia). rewrite Hm.
  rewrite (Z.leb_antisym op 8). destruct (op <? 8) eqn:E8; cbn [negb andb].
  2: destruct ((0 <=? op_arg) && (op_arg <? 32)); cbn [negb]; [|done].
  all: match goal with |- context [4 <? ?x] => rewrite (Z.leb_antisym 4 x); destruct (4 <? x) eqn:E4; [done|] end; cbn [negb rbind].
  all: rewrite Hk1; cbn [rbind]; rewrite Hk2; cbn [rbind]; rewrite Hw; cbn [rbind]; rewrite Hp; cbn [negb].
  all: rewrite apply_op_spec by (try apply load_u32; to_prop; lia).
  all: cbv zeta; set (w1 := put_word word _ w); change (FUTEX_TABLE w1) with (FUTEX_TABLE w).
  all: pose proof (pop_front_spec key1 (Z.to_nat nw) (FUTEX_TABLE w)) as H1; destruct (pop_front key1 (Z.to_nat nw) (FUTEX_TABLE w)) as [tb1 wake1]; destruct H1 as [-> H1].
  all: pose proof (pop_front_spec key2 (Z.to_nat nw2) tb1) as H2.
  all: destruct (apply_cmp cmp cmp_arg (word_at word w)).
  all: try (destruct (pop_front key2 (Z.to_nat nw2) tb1) as [tb2 wake2]; destruct H2 as [-> H2]).
  all: match goal with |- context [commit_waitv_wake_selections_locked ?l ?t] => destruct (woken_intro l t w1) as [chosen Hc]; exists chosen;
    destruct (commit_waitv_wake_selections_locked l t) as [table' c] end; destruct Hc as [-> Hc]; eexists; (split; [done|]).
  all: rewrite ?H1 in *; eapply woken_ext; [|exact Hc]; intros k; cbn beta; rewrite ?H2, ?H1.
  all: destruct (decide (k = key2)) as [->|]; rewrite ?drop_taken; done.
Qed.
End WakeOp.
