(* ===== verification/FutexInv.v ===== *)
(** * Futexes: what a section may do to the waiters

    The waiters of the table as one collection, and [shrink]: waiters leave, but
    only those of tasks that the section's operation goes on to tell; all others
    keep their deadline.  Every section of every operation is a [shrink]. *)

From stdpp Require Import sorting.
From S2P Require Import Prelude SysErr Futex FutexSys FutexSpec.

(** ** The waiters of a table *)

Lemma waiters_insert k q (table : FutexTable) : table !! k = None -> waiters_of (<[k := q]> table) ≡ₚ q ++ waiters_of table.
Proof. intros Hk. unfold waiters_of. rewrite (map_to_list_insert table k q Hk). done. Qed.

Lemma waiters_delete k (table : FutexTable) : waiters_of table ≡ₚ queue_of k table ++ waiters_of (delete k table).
Proof.
  unfold queue_of. destruct (table !! k) as [q|] eqn:E; simpl.
  - rewrite <- (insert_delete_id table k q E) at 1. apply waiters_insert, lookup_delete_eq.
  - by rewrite delete_id.
Qed.

Lemma waiters_put_raw k q (table : FutexTable) : waiters_of (<[k := q]> table) ≡ₚ q ++ waiters_of (delete k table).
Proof. rewrite <- insert_delete_eq. apply waiters_insert, lookup_delete_eq. Qed.

Lemma waiters_put k q table : waiters_of (put_queue k q table) ≡ₚ q ++ waiters_of (delete k table).
Proof. unfold put_queue. case_bool_decide as E; [by subst|apply waiters_put_raw]. Qed.

Lemma waiters_enqueue k ws table : waiters_of (enqueue_at k ws table) ≡ₚ ws ++ waiters_of table.
Proof. unfold enqueue_at. rewrite waiters_put_raw, (waiters_delete k table). rewrite (Permutation_app_comm (queue_of k table) ws). by rewrite app_assoc. Qed.

Lemma filter_perm {A} (f : A -> bool) l l' : l ≡ₚ l' -> List.filter f l ≡ₚ List.filter f l'.
Proof. induction 1 as [|x l l' _ IH|x y l|]; simpl; [done| | |by etrans]; repeat case_match; auto. by constructor. Qed.

Lemma waiters_siblings t (table : FutexTable) : waiters_of (remove_waitv_siblings_locked t table) ≡ₚ others t (waiters_of table).
Proof.
  induction table as [|k q table Hk IH] using map_ind; [done|]. unfold remove_waitv_siblings_locked in *. unfold others in *.
  rewrite (filter_perm _ _ _ (waiters_insert k q table Hk)), List.filter_app, <- IH.
  set (f := fun queue : list FutexWaiter => let queue := List.filter (fun waiter => negb (w_task waiter =? t)%nat) queue in
    if bool_decide (queue = []) then None else Some queue) in *.
  destruct (f q) as [q'|] eqn:Ef.
  - rewrite (omap_insert_Some f table k q q' Ef). rewrite waiters_insert by (rewrite lookup_omap, Hk; done).
    unfold f in Ef. case_bool_decide; [done|]. injection Ef as <-. done.
  - rewrite (omap_insert_None f table k q Ef). rewrite delete_id by (rewrite lookup_omap, Hk; done).
    unfold f in Ef. case_bool_decide as En; [|done]. unfold is_task. by rewrite En.
Qed.

Lemma queue_in k x table : x ∈ queue_of k table -> x ∈ waiters_of table.
Proof. intros Hx. rewrite (waiters_delete k table). apply elem_of_app. by left. Qed.

(** Tables that agree up to a filter on every queue. *)
Lemma waiters_filter (f : FutexWaiter -> bool) : forall (table table' : FutexTable),
  (forall k, queue_of k table' = List.filter f (queue_of k table)) -> waiters_of table' ≡ₚ List.filter f (waiters_of table).
Proof.
  intros table. induction table as [|k q table Hk IH] using map_ind; intros table' Hq.
  - assert (He : forall k, queue_of k table' = []) by (intros k; rewrite Hq; done). clear Hq. unfold waiters_of at 2. simpl.
    induction table' as [|k q table' Hk IH] using map_ind; [done|].
    rewrite waiters_insert by done. pose proof (He k) as E. rewrite queue_of_insert, decide_True in E by done. subst q. apply IH.
    intros k'. specialize (He k'). rewrite queue_of_insert in He. case_decide; [subst k'; unfold queue_of; by rewrite Hk|done].
  - rewrite (waiters_delete k table'), (filter_perm f _ _ (waiters_insert k q table Hk)), List.filter_app, Hq, queue_of_insert, decide_True by done.
    f_equiv. apply IH. intros k'. rewrite queue_of_delete. case_decide as E; [subst k'; unfold queue_of; by rewrite Hk|].
    by rewrite Hq, queue_of_insert, decide_False.
Qed.

(** ** What a section may do *)

(** The task of an entry, its index in its set, its deadline and the thread. *)
Definition sig (x : FutexWaiter) : TaskId * Z * option Z * Z := (w_task x, wake_index x, deadline_ns x, waiter_tid x).

Lemma sig_fields x y : sig x = sig y -> w_task x = w_task y /\ wake_index x = wake_index y /\ deadline_ns x = deadline_ns y /\ waiter_tid x = waiter_tid y.
Proof. intros E. injection E. auto. Qed.

(** The tasks that posts will tell. *)
Definition alert (p : Post) : option TaskId :=
  match p with PostWake x => Some (w_task x) | PostBoost _ => None | PostExpire t => Some t end.
Definition alerts (l : list Post) : list TaskId := omap alert l.

Lemma alerts_app l1 l2 : alerts (l1 ++ l2) = alerts l1 ++ alerts l2.
Proof. apply omap_app. Qed.

Lemma alerts_wakes l : alerts (PostWake <$> l) = w_task <$> l.
Proof. induction l as [|x l IH]; [done|]. unfold alerts in *. simpl. by f_equal. Qed.

Lemma alerts_previous p tid : alerts (boost_previous p tid) = [].
Proof. unfold boost_previous. repeat case_match; done. Qed.

Lemma alerts_waiter x : alerts (post_waiter x) = match x with Some x => [w_task x] | None => [] end.
Proof. by destruct x. Qed.

Section Shrink.
Context {M : Type} `{FutexMem M}.
Implicit Types w : FutexWorld M.

(** A task that waits has been told to stop. *)
Definition told (t : TaskId) w : bool := flag futex_woken t w || flag futex_timed_out t w || flag interrupted_by_signal t w.

(** The tasks and what they have been told stay as they are. *)
Record calm w w' : Prop := {
  cm_tasks t : is_Some (tasks w' !! t) <-> is_Some (tasks w !! t);
  cm_flags t : flag futex_woken t w' = flag futex_woken t w /\ flag futex_timed_out t w' = flag futex_timed_out t w /\
    flag interrupted_by_signal t w' = flag interrupted_by_signal t w;
  cm_log : sched_log w `prefix_of` sched_log w' }.

Record quiet w w' : Prop := {
  qt_table : FUTEX_TABLE w' = FUTEX_TABLE w;
  qt_next : NEXT_FUTEX_DEADLINE_NS w' = NEXT_FUTEX_DEADLINE_NS w;
  qt_calm : calm w w' }.

Record shrink (gone : list TaskId) w w' : Prop := {
  sh_table : exists removed kept, waiters_of (FUTEX_TABLE w) ≡ₚ removed ++ kept /\ sig <$> waiters_of (FUTEX_TABLE w') ≡ₚ sig <$> kept /\
    forall x, x ∈ removed -> w_task x ∈ gone;
  sh_next : NEXT_FUTEX_DEADLINE_NS w' = NEXT_FUTEX_DEADLINE_NS w \/
    forall x d, x ∈ waiters_of (FUTEX_TABLE w') -> deadline_ns x = Some d -> NEXT_FUTEX_DEADLINE_NS w' <= d;
  sh_calm : calm w w' }.

Lemma calm_told w w' t : calm w w' -> told t w' = told t w.
Proof. intros [_ F _]. destruct (F t) as (E1 & E2 & E3). unfold told. by rewrite E1, E2, E3. Qed.

Lemma calm_refl w : calm w w.
Proof. by split. Qed.
Lemma calm_trans w1 w2 w3 : calm w1 w2 -> calm w2 w3 -> calm w1 w3.
Proof.
  intros [T1 F1 L1] [T2 F2 L2]. split; [intros t; by rewrite T2| |by etrans].
  intros t. destruct (F1 t) as (? & ? & ?), (F2 t) as (? & ? & ?). split_and!; congruence.
Qed.

Lemma quiet_refl w : quiet w w.
Proof. split; [done..|apply calm_refl]. Qed.
Lemma quiet_trans w1 w2 w3 : quiet w1 w2 -> quiet w2 w3 -> quiet w1 w3.
Proof. intros [T1 N1 C1] [T2 N2 C2]. split; [congruence..|by eapply calm_trans]. Qed.

(** A waiter after a section, with the one it was before. *)
Lemma shrink_from gone w w' x : shrink gone w w' -> x ∈ waiters_of (FUTEX_TABLE w') -> exists y, y ∈ waiters_of (FUTEX_TABLE w) /\ sig y = sig x.
Proof.
  intros [(removed & kept & Hp & Hk & _) _ _] Hx.
  assert (Hs : sig x ∈ sig <$> kept) by (rewrite <- Hk; apply list_elem_of_fmap; by exists x).
  apply list_elem_of_fmap in Hs as (y & Ey & Hy). exists y. split; [rewrite Hp; set_solver|done].
Qed.

(** A waiter that stays. *)
Lemma shrink_to gone w w' x : shrink gone w w' -> x ∈ waiters_of (FUTEX_TABLE w) -> w_task x ∉ gone ->
  exists y, y ∈ waiters_of (FUTEX_TABLE w') /\ sig y = sig x.
Proof.
  intros [(removed & kept & Hp & Hk & Hr) _ _] Hx Hn. rewrite Hp in Hx. apply elem_of_app in Hx as [Hx|Hx]; [by apply Hr in Hx|].
  assert (Hs : sig x ∈ sig <$> waiters_of (FUTEX_TABLE w')) by (rewrite Hk; apply list_elem_of_fmap; by exists x).
  apply list_elem_of_fmap in Hs as (y & Ey & Hy). by exists y.
Qed.

Lemma quiet_shrink w w' : quiet w w' -> shrink [] w w'.
Proof. intros [T N C]. split; [|by left|done]. exists [], (waiters_of (FUTEX_TABLE w)). rewrite T. split_and!; [done..|]. intros x ?. set_solver. Qed.

Lemma shrink_trans g1 g2 w1 w2 w3 : shrink g1 w1 w2 -> shrink g2 w2 w3 -> shrink (g1 ++ g2) w1 w3.
Proof.
  intros C1 C2. pose proof C1 as [(r1 & k1 & Hp1 & Hs1 & Hr1) N1 Q1]. pose proof C2 as [(r2 & k2 & Hp2 & Hs2 & Hr2) N2 Q2].
  split; [| |by eapply calm_trans].
  - assert (Hs : sig <$> k1 ≡ₚ (sig <$> r2) ++ (sig <$> k2)) by (rewrite <- Hs1, Hp2, fmap_app; done).
    symmetry in Hs. apply Permutation_map_inv in Hs as (k1' & Ek & Hpk). symmetry in Ek. apply fmap_app_inv in Ek as (r & k & Er & Ek2 & ->).
    exists (r1 ++ r), k. split; [by rewrite Hp1, Hpk, app_assoc|]. split; [by rewrite Hs2, Ek2|].
    intros x [Hx|Hx]%elem_of_app; [apply elem_of_app; left; by apply Hr1|].
    assert (Hx' : sig x ∈ sig <$> r2) by (rewrite Er; apply list_elem_of_fmap; by exists x).
    apply list_elem_of_fmap in Hx' as (y & Ey & Hy). apply elem_of_app. right. injection Ey as -> _ _ _. by apply Hr2.
  - destruct N2 as [N2|N2]; [|by right]. destruct N1 as [N1|N1]; [left; congruence|]. right. intros x d Hx Ed. rewrite N2.
    destruct (shrink_from _ _ _ x C2 Hx) as (y & Hy & Ey). apply (N1 y); [done|]. apply sig_fields in Ey as (_ & _ & -> & _). done.
Qed.

Lemma shrink_quiet_r g w1 w2 w3 : shrink g w1 w2 -> quiet w2 w3 -> shrink g w1 w3.
Proof. intros C Q. rewrite <- (app_nil_r g). eapply shrink_trans; [exact C|by apply quiet_shrink]. Qed.
Lemma shrink_quiet_l g w1 w2 w3 : quiet w1 w2 -> shrink g w2 w3 -> shrink g w1 w3.
Proof. intros Q C. change g with ([] ++ g). eapply shrink_trans; [by apply quiet_shrink|exact C]. Qed.
Lemma shrink_more g g' w w' : g ⊆ g' -> shrink g w w' -> shrink g' w w'.
Proof. intros Hg [(r & k & Hp & Hs & Hr) N C]. split; [|done..]. exists r, k. split_and!; [done..|]. intros x Hx. by apply Hg, Hr. Qed.
Lemma shrink_refl g w : shrink g w w.
Proof. apply (shrink_more []); [set_solver|]. apply quiet_shrink, quiet_refl. Qed.

(** Waiters leave the table. *)
Lemma shrink_table gone removed table w : waiters_of (FUTEX_TABLE w) ≡ₚ removed ++ waiters_of table -> (forall x, x ∈ removed -> w_task x ∈ gone) ->
  shrink gone w (set_table table w).
Proof. intros Hp Hr. split; [|by left|by split]. exists removed, (waiters_of table). done. Qed.

(** The waiters are only moved, or marked. *)
Lemma shrink_sig table w : sig <$> waiters_of table ≡ₚ sig <$> waiters_of (FUTEX_TABLE w) -> shrink [] w (set_table table w).
Proof. intros Hs. split; [|by left|by split]. exists [], (waiters_of (FUTEX_TABLE w)). split_and!; [done..|]. intros x ?. set_solver. Qed.

(** ** Priorities leave the waiters alone *)

Lemma upd_some f t w t' : is_Some (tasks (upd_task f t w) !! t') <-> is_Some (tasks w !! t').
Proof. simpl. rewrite lookup_alter. case_decide; [|done]. subst. destruct (tasks w !! t'); simpl; split; intros [? ?]; eauto; done. Qed.

Lemma flag_upd (g : Task -> bool) f t w t' : flag g t' (upd_task f t w) = if decide (t' = t) then match tasks w !! t with Some task => g (f task) | None => false end else flag g t' w.
Proof. unfold flag. simpl. rewrite lookup_alter. destruct (decide (t = t')) as [->|]; [rewrite decide_True by done|by rewrite decide_False]. by destruct (tasks w !! t'). Qed.

Lemma quiet_event e w : quiet w (log_event e w).
Proof. split; [done..|]. split; [done..|]. by apply prefix_app_r. Qed.

Lemma quiet_upd f t w : (forall task, futex_woken (f task) = futex_woken task /\ futex_timed_out (f task) = futex_timed_out task /\
  interrupted_by_signal (f task) = interrupted_by_signal task) -> quiet w (upd_task f t w).
Proof.
  intros Hf. split; [done..|]. split; [intros t'; apply upd_some| |done].
  intros t'. rewrite !flag_upd. case_decide; [|done]. subst. unfold flag. destruct (tasks w !! t) as [task|]; [|done]. by destruct (Hf task) as (-> & -> & ->).
Qed.

Lemma quiet_states st w : quiet w (set_states st w).
Proof. split; [done..|]. by split. Qed.

Lemma quiet_mem m w : quiet w (set_mem m w).
Proof. split; [done..|]. by split. Qed.

Lemma quiet_word pa v w : quiet w (put_word pa v w).
Proof. apply quiet_mem. Qed.

Lemma quiet_boost_task p t w : quiet w (boost_task p t w).
Proof.
  unfold boost_task, set_pi_boost_priority. eapply quiet_trans; [by apply (quiet_upd (with_boost (Z.min (Z.max p 0) 99)) t)|].
  repeat case_match; try apply quiet_event; apply quiet_refl.
Qed.

Lemma quiet_propagate tid : forall keys owners w, quiet w (propagate tid keys owners w).1.
Proof.
  induction keys as [|k keys IH]; intros owners w; [apply quiet_refl|]. cbn [propagate]. destruct (PI_STATES w !! k); [|apply IH].
  eapply quiet_trans; [apply quiet_states|apply IH].
Qed.

Lemma quiet_boost_turn tid visited w : quiet w (boost_turn tid visited w).1.1.
Proof.
  unfold boost_turn. destruct (_ || _); [apply quiet_refl|]. destruct (TID2TASK w !! tid); [|apply quiet_refl].
  set (w1 := boost_task _ _ w). pose proof (quiet_propagate tid (waiting_keys tid w1) [] w1) as Q. destruct (propagate _ _ _ w1) as [w2 owners].
  eapply quiet_trans; [apply quiet_boost_task|exact Q].
Qed.

Lemma quiet_boost_loop : forall fuel pending visited w, quiet w (boost_loop fuel pending visited w).1.
Proof.
  induction fuel as [|fuel IH]; intros pending visited w; [apply quiet_refl|]. cbn [boost_loop]. destruct (last pending) as [tid|]; [|apply quiet_refl].
  pose proof (quiet_boost_turn tid visited w) as Q. destruct (boost_turn tid visited w) as [[w1 visited1] up]. eapply quiet_trans; [exact Q|apply IH].
Qed.

Lemma quiet_boost tid w : quiet w (apply_pi_boost tid w).
Proof. apply quiet_boost_loop. Qed.

Lemma quiet_refresh key w : quiet w (refresh_max key w).1.
Proof. unfold refresh_max. destruct (PI_STATES w !! key); [apply quiet_states|apply quiet_refl]. Qed.

(** Posts that tell nobody. *)
Lemma quiet_posts : forall l w, alerts l = [] -> quiet w (post_all l w).
Proof.
  induction l as [|p l IH]; intros w Hl; [apply quiet_refl|]. destruct p as [x|tid|t]; try done. simpl. fold (post_all l (apply_pi_boost tid w)).
  eapply quiet_trans; [apply quiet_boost|by apply IH].
Qed.

(** ** Sections that wake *)

Lemma wake_shrink wake table w : waiters_of (FUTEX_TABLE w) ≡ₚ wake ++ waiters_of table ->
  let '(table', c) := commit_waitv_wake_selections_locked wake table in shrink (w_task <$> c) w (set_table table' w).
Proof.
  intros Hp. pose proof (commit_spec wake table) as Hc. destruct (commit_waitv_wake_selections_locked wake table) as [table' c].
  destruct Hc as (H1 & _ & H3 & H4 & _). pose proof (waiters_filter _ table table' H4) as Hf. fold (without (waitv_tasks c) (waiters_of table)) in Hf.
  assert (Hsub : forall t, t ∈ waitv_tasks c -> t ∈ w_task <$> c).
  { intros t (x & -> & Hx)%list_elem_of_fmap. apply filter_in in Hx as [Hx _]. apply list_elem_of_fmap. by exists x. }
  apply (shrink_table _ (wake ++ List.filter (fun x => bool_decide (w_task x ∈ waitv_tasks c)) (waiters_of table))).
  - rewrite Hf, Hp, <- app_assoc. f_equiv. clear. induction (waiters_of table) as [|x l IH]; [done|]. unfold without in *. simpl.
    case_bool_decide; simpl; [by rewrite IH at 1|]. rewrite <- Permutation_middle. by rewrite IH at 1.
  - intros x [Hx|Hx]%elem_of_app.
    + destruct (H3 x Hx) as [Hc|Hc]; [apply list_elem_of_fmap; by exists x|by apply Hsub].
    + apply filter_in in Hx as [_ Hx]. apply bool_decide_eq_true in Hx. by apply Hsub.
Qed.

Lemma queue_split key q1 q2 table : queue_of key table ≡ₚ q1 ++ q2 -> waiters_of table ≡ₚ q1 ++ waiters_of (put_queue key q2 table).
Proof. intros Hq. rewrite (waiters_delete key table), waiters_put, Hq. by rewrite app_assoc. Qed.

Lemma select_perm n bits queue : queue ≡ₚ (select n bits queue).1 ++ (select n bits queue).2.
Proof.
  destruct (select_spec bits queue n) as (q1 & q2 & -> & -> & _). simpl. rewrite app_assoc. f_equiv.
  induction q1 as [|x q1 IH]; [done|]. simpl. destruct (matches bits x); simpl; [by rewrite IH at 1|].
  rewrite <- Permutation_middle. by rewrite IH at 1.
Qed.

Lemma pop_split key n table : waiters_of table ≡ₚ (pop_front key n table).2 ++ waiters_of (pop_front key n table).1.
Proof.
  unfold pop_front. destruct (table !! key) as [q|] eqn:E; [|done]. simpl. apply queue_split. unfold queue_of. rewrite E. simpl. by rewrite take_drop.
Qed.

(** A section whose selection is woken by its operation. *)
Definition shrinks {R : Type} w (r : FutexWorld M * list FutexWaiter * R) : Prop := let '(w', l, _) := r in shrink (w_task <$> l) w w'.

Lemma shrinks_refl {R : Type} w (v : R) : shrinks w (w, [], v).
Proof. apply shrink_refl. Qed.

Lemma counted_shrinks w r : (let '(w', l) := r in shrink (w_task <$> l) w w') -> shrinks w (counted r).
Proof. by destruct r. Qed.

Lemma wake_locked_shrinks key n bits w : shrinks w (counted (wake_locked key n bits w)).
Proof.
  apply counted_shrinks. unfold wake_locked. destruct (FUTEX_TABLE w !! key) as [q|] eqn:E.
  - pose proof (select_perm n bits q) as Hs. destruct (select n bits q) as [wake rest]. simpl in Hs.
    pose proof (wake_shrink wake (put_queue key rest (FUTEX_TABLE w)) w) as Hc.
    destruct (commit_waitv_wake_selections_locked wake _) as [table' c]. apply Hc. apply queue_split. unfold queue_of. by rewrite E.
  - pose proof (wake_shrink [] (FUTEX_TABLE w) w) as Hc. destruct (commit_waitv_wake_selections_locked [] _) as [table' c]. by apply Hc.
Qed.

Lemma futex_wake_shrinks pid token uaddr n bits priv w : shrinks w (futex_wake_section pid token uaddr n bits priv w).
Proof. unfold futex_wake_section. repeat case_match; try apply shrinks_refl; apply wake_locked_shrinks. Qed.

Lemma futex_wake_with_pid_shrinks pid uaddr n bits w : shrinks w (futex_wake_with_pid_section pid uaddr n bits w).
Proof. unfold futex_wake_with_pid_section. case_match; [apply shrinks_refl|apply wake_locked_shrinks]. Qed.

Lemma wake_one_shrinks uaddr pid paddr w : shrinks w (futex_wake_one_section uaddr pid paddr w).
Proof.
  unfold futex_wake_one_section. pose proof (pop_split (Private pid uaddr) 1 (FUTEX_TABLE w)) as H1. destruct (pop_front _ 1 (FUTEX_TABLE w)) as [tb wk]. simpl in H1.
  assert (H2 : exists tb2 wk2, (if bool_decide (wk = []) then match paddr with Some pa => pop_front (Shared pa) 1 tb | None => (tb, wk) end else (tb, wk)) = (tb2, wk2) /\
    waiters_of (FUTEX_TABLE w) ≡ₚ wk2 ++ waiters_of tb2).
  { case_bool_decide; [|by eexists _, _]. subst wk. destruct paddr as [pa|]; [|by eexists _, _]. pose proof (pop_split (Shared pa) 1 tb) as H2.
    destruct (pop_front (Shared pa) 1 tb) as [tb2 wk2]. exists tb2, wk2. split; [done|]. by rewrite H1. }
  destruct H2 as (tb2 & wk2 & -> & H2). pose proof (wake_shrink wk2 tb2 w H2) as Hc. by destruct (commit_waitv_wake_selections_locked wk2 tb2).
Qed.

Lemma requeue_shrinks pid token uaddr nw nr uaddr2 cmp priv w : shrinks w (futex_requeue_section pid token uaddr nw nr uaddr2 cmp priv w).
Proof.
  unfold futex_requeue_section. destruct (rbind _ _) as [[key1 key2]|]; [|apply shrinks_refl]. destruct (negb _); [apply shrinks_refl|].
  destruct (match cmp with None => _ | Some _ => _ end); [|apply shrinks_refl]. apply counted_shrinks.
  unfold requeue_locked. set (n1 := Z.to_nat nw). set (n2 := Z.to_nat nr).
  assert (Hm : exists tb wk mv, match FUTEX_TABLE w !! key1 with None => (FUTEX_TABLE w, [], []) | Some queue =>
      (put_queue key1 (drop n2 (drop n1 queue)) (FUTEX_TABLE w), take n1 queue, take n2 (drop n1 queue)) end = (tb, wk, mv) /\
    waiters_of (FUTEX_TABLE w) ≡ₚ wk ++ mv ++ waiters_of tb).
  { destruct (FUTEX_TABLE w !! key1) as [q|] eqn:E; [|by eexists _, _, _]. eexists _, _, _. split; [done|]. rewrite app_assoc. apply queue_split.
    unfold queue_of. rewrite E. simpl. by rewrite <- app_assoc, take_drop, take_drop. }
  cbv zeta. destruct Hm as (tb & wk & mv & -> & Hm). set (tb2 := if bool_decide (mv = []) then tb else _).
  assert (H2 : mv ++ waiters_of tb ≡ₚ waiters_of tb2) by (unfold tb2; case_bool_decide; [by subst|by rewrite waiters_enqueue]).
  pose proof (wake_shrink wk tb2 w) as Hc. destruct (commit_waitv_wake_selections_locked wk tb2) as [t' c]. simpl. apply Hc. by rewrite <- H2.
Qed.

Lemma wake_op_shrinks pid token uaddr nw nw2 uaddr2 enc priv w : shrinks w (futex_wake_op_section pid token uaddr nw nw2 uaddr2 enc priv w).
Proof.
  unfold futex_wake_op_section. destruct (rbind _ _) as [[[[[[[op oa] cmp] ca] key1] key2] word]|]; [|apply shrinks_refl].
  destruct (negb _); [apply shrinks_refl|]. cbv zeta. set (w1 := put_word word _ w).
  pose proof (pop_split key1 (Z.to_nat nw) (FUTEX_TABLE w1)) as H1. destruct (pop_front key1 _ (FUTEX_TABLE w1)) as [tb1 wk1]. simpl in H1.
  assert (H2 : exists tb2 wk2, (if apply_cmp cmp ca (word_at word w) then pop_front key2 (Z.to_nat nw2) tb1 else (tb1, [])) = (tb2, wk2) /\
    waiters_of tb1 ≡ₚ wk2 ++ waiters_of tb2).
  { destruct (apply_cmp _ _ _); [|by eexists _, _]. pose proof (pop_split key2 (Z.to_nat nw2) tb1) as H2. destruct (pop_front key2 _ tb1) as [a b]. by exists a, b. }
  destruct H2 as (tb2 & wk2 & -> & H2). pose proof (wake_shrink (wk1 ++ wk2) tb2 w1) as Hc.
  destruct (commit_waitv_wake_selections_locked (wk1 ++ wk2) tb2) as [t' c]. apply counted_shrinks. eapply shrink_quiet_l; [apply (quiet_word word)|].
  apply Hc. simpl. by rewrite H1, H2, app_assoc.
Qed.
End Shrink.

Section Locks.
Context {M : Type} `{FutexMem M} `{!FutexMemLaws M}.
Implicit Types w : FutexWorld M.

(** ** Sections of PI locks *)

Lemma take_highest_perm w queue x rest : take_highest w queue = Some (x, rest) -> queue ≡ₚ x :: rest.
Proof.
  unfold take_highest. destruct queue as [|y queue]; [done|]. set (i := max_position _ _ _ _ _). destruct ((y :: queue) !! i) as [z|] eqn:E; [|done].
  intros [= <- <-]. by apply delete_Permutation.
Qed.

Lemma max_position_bound w : forall queue best p index, (best < index)%nat -> (max_position w best p index queue < index + length queue)%nat.
Proof.
  induction queue as [|x queue IH]; intros best p index Hb; simpl; [lia|]. destruct (_ <=? _).
  - specialize (IH index (effective_sched_priority w (w_task x)) (S index) ltac:(lia)). lia.
  - specialize (IH best p (S index) ltac:(lia)). lia.
Qed.

Lemma take_highest_none w queue : take_highest w queue = None -> queue = [].
Proof.
  destruct queue as [|x queue]; [done|]. unfold take_highest. set (i := max_position _ _ _ _ _).
  assert (Hi : (i < 1 + length queue)%nat) by (apply max_position_bound; lia).
  destruct (lookup_lt_is_Some_2 (x :: queue) i) as [y ->]; [simpl; lia|done].
Qed.

Lemma word_put pa v w pa' : word_at pa' (put_word pa v w) = if decide (pa' = pa) then u32 v else word_at pa' w.
Proof. unfold word_at, put_word. apply load_store. Qed.

Lemma word_same pa w : word_at pa (put_word pa (word_at pa w) w) = word_at pa w.
Proof. rewrite word_put, decide_True by done. apply wrap_small. apply load_u32. Qed.

Lemma alerts_unlock tid next x previous : alerts (unlock_pi_finish tid next x previous) = match x with Some x => [w_task x] | None => [] end.
Proof. unfold unlock_pi_finish. rewrite !app_comm_cons, !alerts_app, alerts_waiter. simpl. rewrite alerts_previous. by destruct (negb _). Qed.

(** The exchange succeeds and the waiter is told, or it fails and the waiter is
    dropped. *)
Lemma unlock_shrink race pid token tid uaddr priv w :
  let '(w', l, r) := futex_unlock_pi_section race pid token tid uaddr priv w in
  shrink (alerts l) w w' \/ exists x, r = Err EAGAIN /\ waiters_of (FUTEX_TABLE w) ≡ₚ x :: waiters_of (FUTEX_TABLE w') /\ shrink [w_task x] w w'.
Proof using All.
  unfold futex_unlock_pi_section. destruct (rbind _ _) as [[key word]|]; [|left; apply shrink_refl]. cbv zeta. destruct (negb _); [left; apply shrink_refl|].
  set (observed := word_at word w). set (w1 := put_word word (race observed) w). assert (Q1 : quiet w w1) by apply quiet_word. clearbody w1.
  assert (Hrel : forall w2, shrink [] w w2 -> let '(w', r) := if word_at word w2 =? observed
      then (set_states (delete key (PI_STATES (put_word word 0 w2))) (put_word word 0 w2), Ok (0, None, owner_tid <$> PI_STATES (put_word word 0 w2) !! key))
      else (w2, Err EAGAIN) in
    let '(w', l, _) := match r with Err e => (w', [], Err e) | Ok (o, x, p) => (w', unlock_pi_finish tid o x p, Ok 0) end in shrink (alerts l) w w').
  { intros w2 Sh. destruct (_ =? _); [|done]. rewrite alerts_unlock. eapply shrink_quiet_r; [exact Sh|]. eapply quiet_trans; [apply quiet_word|apply quiet_states]. }
  unfold unlock_pi_locked. destruct (FUTEX_TABLE w1 !! key) as [queue|] eqn:Eq.
  2:{ specialize (Hrel w1 ltac:(by apply quiet_shrink)). cbn [Z.eqb]. destruct (_ =? _); by left. }
  assert (Eqq : queue_of key (FUTEX_TABLE w1) = queue) by (unfold queue_of; by rewrite Eq).
  destruct (take_highest w1 queue) as [[x rest]|] eqn:Eh.
  - pose proof (take_highest_perm w1 queue x rest Eh) as Hp.
    assert (Hs : forall w2, FUTEX_TABLE w2 = FUTEX_TABLE w1 -> forall tb, waiters_of tb ≡ₚ rest ++ waiters_of (delete key (FUTEX_TABLE w1)) -> waiters_of (FUTEX_TABLE w1) ≡ₚ x :: waiters_of tb /\ shrink [w_task x] w2 (set_table tb w2)).
    { intros w2 E2 tb Htb. assert (Hw : waiters_of (FUTEX_TABLE w1) ≡ₚ x :: waiters_of tb) by (rewrite (waiters_delete key), Eqq, Hp, Htb; done).
      split; [done|]. apply (shrink_table _ [x]); [by rewrite E2, Hw|set_solver]. }
    destruct (_ =? observed).
    + left. cbv zeta. set (w2 := put_word word _ w1). destruct (Hs w2 eq_refl (put_queue key rest (FUTEX_TABLE w2))) as [_ Sh]; [apply waiters_put|].
      rewrite alerts_unlock. eapply shrink_quiet_l; [exact Q1|]. eapply shrink_quiet_l; [apply (quiet_word word)|]. fold w2.
      destruct (_ =? 0); (eapply shrink_quiet_r; [exact Sh|apply quiet_states]).
    + right. exists x. destruct (Hs w1 eq_refl (<[key := rest]> (FUTEX_TABLE w1))) as [Hw Sh]; [apply waiters_put_raw|]. split; [done|].
      split; [|by eapply shrink_quiet_l]. destruct Q1 as [ET _ _]. by rewrite <- ET.
  - apply take_highest_none in Eh. rewrite Eh in Eqq. specialize (Hrel (set_table (delete key (FUTEX_TABLE w1)) w1)). cbn [Z.eqb].
    destruct (_ =? _); left; apply Hrel; (eapply shrink_quiet_l; [exact Q1|]); (apply (shrink_table _ []); [by rewrite (waiters_delete key (FUTEX_TABLE w1)), Eqq|set_solver]).
Qed.

Lemma requeue_pi_owner_spec word observed q2 w : let '(w2, q3, owner, acq) := requeue_pi_owner word observed q2 w in
  (exists m, w2 = set_mem m w) /\ match acq with Some x => q2 ≡ₚ x :: q3 | None => q3 ≡ₚ q2 end.
Proof.
  assert (Hself : exists m, w = set_mem m w) by (exists (user_mem w); by destruct w).
  unfold requeue_pi_owner. destruct (tid_of observed =? 0); [|done]. destruct (take_highest w q2) as [[x rest]|] eqn:E; [|done].
  apply take_highest_perm in E. destruct (_ =? 0); [|by split]. split; [by eexists|done].
Qed.

Lemma requeue_pi_shrink race pid token uaddr nw nr uaddr2 cmp priv w :
  let '(w', l, _) := futex_cmp_requeue_pi_section race pid token uaddr nw nr uaddr2 cmp priv w in shrink (alerts l) w w'.
Proof.
  unfold futex_cmp_requeue_pi_section. destruct (_ || _ || _); [apply shrink_refl|]. destruct (rbind _ _) as [[[key1 key2] word2]|]; [|apply shrink_refl].
  cbv zeta. set (limit := Z.to_nat _). set (q := queue_of key1 (FUTEX_TABLE w)). destruct (existsb _ _); [apply shrink_refl|].
  set (moved := map as_pi (take limit q)). set (tb1 := put_queue key1 (drop limit q) (FUTEX_TABLE w)).
  assert (Hw1 : (if bool_decide (is_Some (FUTEX_TABLE w !! key1)) then set_table tb1 w else w) = w /\ moved = [] \/
    (if bool_decide (is_Some (FUTEX_TABLE w !! key1)) then set_table tb1 w else w) = set_table tb1 w).
  { case_bool_decide as E; [by right|left]. split; [done|]. unfold moved, q, queue_of. destruct (FUTEX_TABLE w !! key1); [by destruct E|]. simpl. by rewrite take_nil. }
  assert (Hs : waiters_of (FUTEX_TABLE w) ≡ₚ take limit q ++ waiters_of tb1) by (apply queue_split; by rewrite take_drop).
  destruct Hw1 as [[-> Hm]|Hw1]; [rewrite bool_decide_eq_true_2 by done; apply shrink_refl|]. rewrite Hw1. clear Hw1. case_bool_decide as Em.
  { apply (shrink_table _ []); [|set_solver]. rewrite Hs. apply fmap_nil_inv in Em. by rewrite Em. }
  change (FUTEX_TABLE (set_table tb1 w)) with tb1. set (Q2 := queue_of key2 tb1 ++ moved).
  set (w1 := put_word word2 _ (set_table tb1 w)). pose proof (requeue_pi_owner_spec word2 (word_at word2 (set_table tb1 w)) Q2 w1) as Ho.
  destruct (requeue_pi_owner word2 _ Q2 w1) as [[[w2 Q3] owner] acq]. destruct Ho as [[m ->] Hacq].
  change (FUTEX_TABLE (set_mem m w1)) with tb1. rewrite alerts_app, alerts_previous. simpl. fold (alerts (post_waiter acq)). rewrite alerts_waiter.
  apply (shrink_trans [] _ w (set_table (<[key2 := Q2]> tb1) w)).
  { apply shrink_sig. unfold Q2. change (<[key2 := queue_of key2 tb1 ++ moved]> tb1) with (enqueue_at key2 moved tb1).
    rewrite waiters_enqueue, Hs, !fmap_app. f_equiv. unfold moved. clear. induction (take limit q); [done|]. simpl. by f_equiv. }
  apply (shrink_quiet_r _ _ (set_table (<[key2 := Q3]> tb1) w)).
  - change (set_table (<[key2 := Q3]> tb1) w) with (set_table (<[key2 := Q3]> tb1) (set_table (<[key2 := Q2]> tb1) w)).
    apply (shrink_table _ (match acq with Some x => [x] | None => [] end)).
    + simpl. rewrite !waiters_put_raw. destruct acq as [x|]; [by rewrite Hacq|]. by rewrite Hacq.
    + destruct acq; intros y Hy; set_solver.
  - eapply quiet_trans; [|apply quiet_states]. case_bool_decide; [by split; [..|split]|]. eapply quiet_trans; [|apply quiet_word]. by split; [..|split].
Qed.

End Locks.

(** ** Leaving *)

Section Leaving.
Context {M : Type} `{FutexMem M}.
Implicit Types w : FutexWorld M.

Lemma quiet_refresh_all : forall keys owners w, quiet w (refresh_all keys owners w).1.
Proof.
  induction keys as [|k keys IH]; intros owners w; [apply quiet_refl|]. cbn [refresh_all]. pose proof (quiet_refresh k w) as Q.
  destruct (refresh_max k w) as [w1 o]. eapply quiet_trans; [exact Q|apply IH].
Qed.

Lemma remove_quiet t w : quiet (set_table (remove_waitv_siblings_locked t (FUTEX_TABLE w)) w) (remove_task_from_futex_table t w).
Proof.
  unfold remove_task_from_futex_table. set (keys := List.filter _ _). set (w1 := set_table _ w). pose proof (quiet_refresh_all keys [] w1) as Q.
  destruct (refresh_all keys [] w1) as [w2 owners]. simpl in Q. eapply quiet_trans; [exact Q|]. clear. revert w2.
  induction owners as [|o owners IH]; intros w2; [apply quiet_refl|]. simpl. eapply quiet_trans; [apply quiet_boost|apply IH].
Qed.

Lemma filter_split_b {A} (f : A -> bool) l : l ≡ₚ List.filter f l ++ List.filter (fun x => negb (f x)) l.
Proof. induction l as [|x l IH]; [done|]. simpl. destruct (f x); simpl; [by rewrite IH at 1|]. rewrite <- Permutation_middle. by rewrite IH at 1. Qed.

Lemma is_task_eq t x : is_task t x = true -> w_task x = t.
Proof. unfold is_task. intros. by to_prop. Qed.

Lemma siblings_split t (table : FutexTable) : waiters_of table ≡ₚ List.filter (is_task t) (waiters_of table) ++ waiters_of (remove_waitv_siblings_locked t table).
Proof. rewrite waiters_siblings. apply filter_split_b. Qed.

Lemma remove_shrink t w : shrink [t] w (remove_task_from_futex_table t w).
Proof.
  eapply shrink_quiet_r; [|apply remove_quiet]. eapply shrink_table; [apply siblings_split|].
  intros x [_ Hx]%filter_in. rewrite (is_task_eq t x Hx). set_solver.
Qed.

Lemma remove_queue_shrink key t w : shrink [t] w (remove_task_from_futex_queue key t w).1.
Proof.
  unfold remove_task_from_futex_queue. destruct (FUTEX_TABLE w !! key) as [q|] eqn:E; [|apply shrink_refl]. cbv zeta. set (w1 := set_table _ w).
  assert (S : shrink [t] w w1).
  { apply (shrink_table _ (List.filter (is_task t) q)); [apply queue_split; unfold queue_of; rewrite E; apply filter_split_b|].
    intros x [_ Hx]%filter_in. rewrite (is_task_eq t x Hx). set_solver. }
  destruct (negb _); [exact S|]. eapply shrink_quiet_r; [exact S|apply quiet_refresh].
Qed.
End Leaving.
