(* ===== verification/FutexStep.v ===== *)
(** * Futexes: timeouts, and every section of the system

    The scheduler's scan of the table takes out the waiters whose deadline has
    passed, always finishes, and leaves the next deadline; with it, every section
    of every operation that does not wait is a [shrink] of the waiters. *)

From stdpp Require Import sorting.
From S2P Require Import Prelude SysErr Futex FutexSys FutexSpec FutexInv.

(** ** The scan *)

Definition due (now : Z) (x : FutexWaiter) : bool := match deadline_ns x with Some d => d <=? now | None => false end.

Definition later (now bound : Z) (x : FutexWaiter) : Prop := forall d, deadline_ns x = Some d -> now < d /\ bound <= d.

Lemma search_queue_spec now : forall queue index following, match search_queue now index following queue with
  | inl i => (index <= i)%nat /\ exists x, queue !! (i - index)%nat = Some x /\ due now x = true
  | inr f => f <= following /\ Forall (later now f) queue end.
Proof.
  induction queue as [|x queue IH]; intros index following; simpl; [by split|].
  assert (Hn : forall following', (following' <= following /\ forall f, f <= following' -> later now f x) -> match search_queue now (S index) following' queue with
    | inl i => (index <= i)%nat /\ exists y, (x :: queue) !! (i - index)%nat = Some y /\ due now y = true
    | inr f => f <= following /\ Forall (later now f) (x :: queue) end).
  { intros following' [Hle Hx]. specialize (IH (S index) following'). destruct (search_queue _ _ _ _) as [i|f].
    - destruct IH as (Hi & y & Hy & Hd). split; [lia|]. exists y. split; [|done]. by replace (i - index)%nat with (S (i - S index)) by lia.
    - destruct IH as [Hf Hq]. split; [lia|]. constructor; [by apply Hx|done]. }
  destruct (deadline_ns x) as [d|] eqn:Ed.
  - destruct (d <=? now) eqn:El.
    + split; [done|]. exists x. rewrite Nat.sub_diag. split; [done|]. unfold due. by rewrite Ed.
    + apply Hn. to_prop. split; [lia|]. intros f Hf d'. rewrite Ed. intros [= <-]. lia.
  - apply Hn. split; [lia|]. intros f _ d'. by rewrite Ed.
Qed.

Lemma search_expired_spec now table : forall keys following, match search_expired now following keys table with
  | inl (key, i) => exists x, queue_of key table !! i = Some x /\ due now x = true
  | inr f => f <= following /\ forall key, key ∈ keys -> Forall (later now f) (queue_of key table) end.
Proof.
  induction keys as [|key keys IH]; intros following; [split; [done|set_solver]|]. cbn [search_expired].
  pose proof (search_queue_spec now (queue_of key table) 0 following) as Hs. destruct (search_queue _ _ _ _) as [i|f].
  - destruct Hs as (_ & x & Hx & Hd). exists x. by rewrite Nat.sub_0_r in Hx.
  - specialize (IH f). destruct (search_expired _ _ _ _) as [[k i]|f']; [done|]. destruct Hs as [Hf Hq], IH as [Hf' Hk]. split; [lia|].
    intros k [->|Hk']%elem_of_cons; [|by apply Hk]. eapply Forall_impl; [exact Hq|]. intros x Hx d Ed. destruct (Hx d Ed). lia.
Qed.

Lemma sorted_keys_all x table : x ∈ waiters_of table -> exists key, key ∈ sorted_keys table /\ x ∈ queue_of key table.
Proof.
  unfold waiters_of. intros (q & Hq & Hx)%list_elem_of_In%in_concat. apply in_map_iff in Hq as ([key q'] & Eq & Hk). simpl in Eq. subst q'.
  apply list_elem_of_In, elem_of_map_to_list in Hk. exists key. split.
  - unfold sorted_keys. rewrite merge_sort_Permutation. apply list_elem_of_fmap. exists (key, q). split; [done|]. by apply elem_of_map_to_list.
  - unfold queue_of. rewrite Hk. simpl. by apply list_elem_of_In.
Qed.

Section Timeouts.
Context {M : Type} `{FutexMem M}.
Implicit Types w : FutexWorld M.

(** One turn: a waiter whose deadline has passed leaves. *)
Lemma timeout_turn now w : match timeout_section now w with
  | (w', None) => shrink [] w w' /\ tasks w' = tasks w /\ sched_log w' = sched_log w /\ forall x, x ∈ waiters_of (FUTEX_TABLE w') -> later now (NEXT_FUTEX_DEADLINE_NS w') x
  | (w', Some (t, owner)) => shrink [t] w w' /\ (length (waiters_of (FUTEX_TABLE w')) < length (waiters_of (FUTEX_TABLE w)))%nat /\
      exists x, x ∈ waiters_of (FUTEX_TABLE w) /\ w_task x = t /\ due now x = true end.
Proof.
  unfold timeout_section. pose proof (search_expired_spec now (FUTEX_TABLE w) (sorted_keys (FUTEX_TABLE w)) NO_FUTEX_DEADLINE) as Hs.
  destruct (search_expired _ _ _ _) as [[key i]|f].
  2:{ destruct Hs as [_ Hk]. assert (Hl : forall x, x ∈ waiters_of (FUTEX_TABLE w) -> later now f x).
      { intros x Hx. destruct (sorted_keys_all x _ Hx) as (key & Hkey & Hq). specialize (Hk key Hkey). rewrite Forall_forall in Hk. by apply Hk. }
      split_and!; [|done..|exact Hl]. destruct (shrink_refl [] w) as [T1 _ T3]. split; [done| |by destruct T3]. right. intros x d Hx Ed. by apply (Hl x Hx). }
  destruct Hs as (x & Hx & Hd). rewrite Hx. pose proof (list_elem_of_lookup_2 _ _ _ Hx) as Hin. set (rest := delete i _). cbv zeta.
  assert (Hs : waiters_of (FUTEX_TABLE w) ≡ₚ [x] ++ waiters_of (put_queue key rest (FUTEX_TABLE w))) by (apply queue_split; by apply delete_Permutation).
  set (tb1 := put_queue key rest (FUTEX_TABLE w)) in *. change (FUTEX_TABLE (set_table tb1 w)) with tb1.
  assert (Hm : exists removed tb2, (if negb (wake_index x =? usize_max) then set_table (remove_waitv_siblings_locked (w_task x) tb1) (set_table tb1 w) else set_table tb1 w) = set_table tb2 w /\
    waiters_of (FUTEX_TABLE w) ≡ₚ (x :: removed) ++ waiters_of tb2 /\ (forall y, y ∈ removed -> w_task y = w_task x)).
  { destruct (negb _) eqn:Ew; [|exists [], tb1; split_and!; [done..|set_solver]]. eexists _, _. split; [done|]. split; [rewrite Hs; simpl; constructor; apply siblings_split|].
    intros y [_ Hy]%filter_in. by apply is_task_eq. }
  destruct Hm as (removed & tb2 & -> & Hp & Hr).
  assert (Q : quiet (set_table tb2 w) (if pi_waiter x then refresh_max key (set_table tb2 w) else (set_table tb2 w, None)).1)
    by (destruct (pi_waiter x); [apply quiet_refresh|apply quiet_refl]).
  destruct (if pi_waiter x then _ else _) as [w1 owner]. simpl in Q. split; [|split].
  - eapply shrink_quiet_r; [|exact Q]. apply (shrink_table _ (x :: removed)); [exact Hp|]. intros y [->|Hy]%elem_of_cons; [set_solver|rewrite (Hr y Hy); set_solver].
  - destruct Q as [-> _ _]. simpl. rewrite Hp. simpl. rewrite length_app. lia.
  - exists x. split; [by eapply queue_in|done].
Qed.

Lemma alerts_expire t owner : alerts (expire_task t owner) = [t].
Proof. by destruct owner. Qed.

(** The task is told that its time is over. *)
Lemma expire_spec t owner w : let w' := post_all (expire_task t owner) w in
  FUTEX_TABLE w' = FUTEX_TABLE w /\ (forall t', is_Some (tasks w' !! t') <-> is_Some (tasks w !! t')) /\
  (forall t', flag futex_timed_out t' w' = (if decide (t' = t) then bool_decide (is_Some (tasks w !! t)) else flag futex_timed_out t' w) /\
    flag futex_woken t' w' = (if decide (t' = t) then false else flag futex_woken t' w)) /\
  exists suf, sched_log w' = sched_log w ++ suf /\ EvWake t ∈ suf.
Proof.
  assert (Hq : exists w1, quiet w w1 /\ post_all (expire_task t owner) w = post w1 (PostExpire t)).
  { destruct owner as [tid|]; [exists (apply_pi_boost tid w); split; [apply quiet_boost|done]|]. exists w. split; [apply quiet_refl|done]. }
  destruct Hq as (w1 & [QT _ [K F L]] & ->). cbn zeta. cbn [post]. split_and!.
  - exact QT.
  - intros t'. unfold wakeup_task. simpl. rewrite <- K. apply (upd_some _ t w1).
  - intros t'. unfold wakeup_task. assert (E : forall g, flag g t' (log_event (EvWake t) (upd_task (fun task => with_timed_out true (with_woken false task)) t w1)) =
      flag g t' (upd_task (fun task => with_timed_out true (with_woken false task)) t w1)) by done. rewrite !E, !flag_upd. destruct (F t') as (-> & -> & _).
    case_decide; [|done]. specialize (K t). destruct (tasks w1 !! t) eqn:E1; simpl; (split; [|done]); symmetry; [apply bool_decide_eq_true|apply bool_decide_eq_false]; rewrite <- K; [eauto|by intros [? ?]].
  - destruct L as [suf Hl]. exists (suf ++ [EvWake t]). simpl. rewrite Hl, app_assoc. split; [done|set_solver].
Qed.

(** The whole scan: [gone] are the tasks that were due. *)
Lemma timeout_loop_spec now : forall fuel w, (length (waiters_of (FUTEX_TABLE w)) < fuel)%nat ->
  exists gone : list TaskId, let w' := timeout_loop fuel now w in
    (forall t, t ∈ gone -> exists x, x ∈ waiters_of (FUTEX_TABLE w) /\ w_task x = t /\ due now x = true) /\
    (forall x, x ∈ waiters_of (FUTEX_TABLE w) -> w_task x ∉ gone -> exists y, y ∈ waiters_of (FUTEX_TABLE w') /\ sig y = sig x) /\
    (forall x, x ∈ waiters_of (FUTEX_TABLE w') -> later now (NEXT_FUTEX_DEADLINE_NS w') x) /\
    (forall t, is_Some (tasks w' !! t) <-> is_Some (tasks w !! t)) /\
    (forall t, flag futex_timed_out t w' = (if decide (t ∈ gone) then bool_decide (is_Some (tasks w !! t)) else flag futex_timed_out t w) /\
      flag futex_woken t w' = (if decide (t ∈ gone) then false else flag futex_woken t w)) /\
    exists suf, sched_log w' = sched_log w ++ suf /\ forall t, t ∈ gone -> EvWake t ∈ suf.
Proof.
  induction fuel as [|fuel IH]; intros w Hl; [lia|]. cbn [timeout_loop]. pose proof (timeout_turn now w) as Hturn.
  destruct (timeout_section now w) as [w1 [[t owner]|]].
  2:{ destruct Hturn as (S & Et & Elog & L). exists []. unfold flag. rewrite Et, Elog. split_and!; try done; [set_solver| |].
      - intros x Hx Hn. by eapply shrink_to.
      - exists []. rewrite app_nil_r. split; [done|set_solver]. }
  destruct Hturn as (S & Hlen & x & Hx & Et & Hd). destruct (expire_spec t owner w1) as (ET & EK & EF & s1 & EL & EE). set (w2 := post_all _ w1) in *.
  destruct (IH w2) as (gone & G1 & G2 & G3 & G4 & G5 & s2 & G6 & G7); [rewrite ET; lia|]. pose proof (sh_calm _ _ _ S) as [CK CF [s0 CL]].
  exists (t :: gone). split_and!.
  - intros t' [->|Hg]%elem_of_cons; [by exists x|]. destruct (G1 t' Hg) as (y & Hy & Ey & Hdy). rewrite ET in Hy.
    destruct (shrink_from _ _ _ y S Hy) as (z & Hz & Ez). apply sig_fields in Ez as (E1 & _ & E3 & _). exists z. split; [done|]. split; [congruence|].
    unfold due in *. by rewrite E3.
  - intros y Hy Hn. destruct (shrink_to _ _ _ y S Hy) as (z & Hz & Ez); [set_solver|]. rewrite <- ET in Hz.
    destruct (G2 z Hz) as (z' & Hz' & Ez'); [apply sig_fields in Ez as (-> & _); set_solver|]. exists z'. split; [done|congruence].
  - exact G3.
  - intros t'. by rewrite G4, EK, CK.
  - intros t'. destruct (G5 t') as [-> ->], (EF t') as [-> ->], (CF t') as (-> & -> & _).
    assert (Ew : forall t0, bool_decide (is_Some (tasks w1 !! t0)) = bool_decide (is_Some (tasks w !! t0))) by (intros t0; apply bool_decide_ext, CK).
    assert (Ew2 : forall t0, bool_decide (is_Some (tasks w2 !! t0)) = bool_decide (is_Some (tasks w !! t0))) by (intros t0; apply bool_decide_ext; by rewrite EK, CK).
    rewrite !Ew, !Ew2. destruct (decide (t' ∈ gone)); [rewrite !decide_True by set_solver; done|].
    destruct (decide (t' = t)) as [->|]; [rewrite !decide_True by set_solver; done|rewrite !decide_False by set_solver; done].
  - exists (s0 ++ s1 ++ s2). rewrite G6, EL, CL, !app_assoc. split; [done|]. intros t' [->|Hg]%elem_of_cons; [set_solver|]. specialize (G7 t' Hg). set_solver.
Qed.
End Timeouts.

(** ** Every section *)

Section Sections.
Context {M : Type} `{FutexMem M} `{!FutexMemLaws M}.
Implicit Types w : FutexWorld M.

Lemma shrinks_post {R : Type} w w' l (r : R) res : shrinks w res -> res = (w', l, r) -> shrink (alerts (PostWake <$> l)) w w'.
Proof. intros S ->. by rewrite alerts_wakes. Qed.

(** [lost] are the tasks that a failing exchange has dropped. *)
Lemma section_shrink dropped w w' l : section_step dropped w w' l -> exists lost, Forall dropped lost /\ shrink (alerts l ++ lost) w w'.
Proof.
  assert (Hnone : forall g w', shrink g w w' -> exists lost, Forall dropped lost /\ shrink (g ++ lost) w w') by (intros g w2 Sh; exists []; by rewrite app_nil_r).
  intros [pid token uaddr n bits priv w1 l1 r E|pid uaddr n bits w1 l1 r E|uaddr pid paddr w1 l1 r E|pid token uaddr nw nr uaddr2 cmp priv w1 l1 r E
    |pid token uaddr nw nw2 uaddr2 enc priv w1 l1 r E|race pid token tid uaddr priv w1 l1 r E Hd|race pid token uaddr nw nr uaddr2 cmp priv w1 l1 r E
    |now w1 t owner _ E|now w1 _ E|pa v|now rt _].
  - eapply Hnone, shrinks_post; [apply futex_wake_shrinks|exact E].
  - eapply Hnone, shrinks_post; [apply futex_wake_with_pid_shrinks|exact E].
  - eapply Hnone, shrinks_post; [apply wake_one_shrinks|exact E].
  - eapply Hnone, shrinks_post; [apply requeue_shrinks|exact E].
  - eapply Hnone, shrinks_post; [apply wake_op_shrinks|exact E].
  - pose proof (unlock_shrink race pid token tid uaddr priv w) as Sh. rewrite E in Sh. destruct Sh as [Sh|(x & Er & Hp & Sh)]; [by apply Hnone|].
    exists [w_task x]. split; [repeat constructor; by apply Hd|]. eapply shrink_more; [|exact Sh]. set_solver.
  - apply Hnone. pose proof (requeue_pi_shrink race pid token uaddr nw nr uaddr2 cmp priv w) as Sh. by rewrite E in Sh.
  - apply Hnone. pose proof (timeout_turn now w) as Sh. rewrite E in Sh. rewrite alerts_expire. apply Sh.
  - apply Hnone. pose proof (timeout_turn now w) as Sh. rewrite E in Sh. apply Sh.
  - apply Hnone, quiet_shrink, quiet_word.
  - apply Hnone, quiet_shrink. by split; [..|split].
Qed.
End Sections.
