(* ===== verification/FutexWait.v ===== *)
(** * Futexes: the invariant of all tasks

    What every reachable state guarantees to a task that waits and whose entry no
    failing exchange of FUTEX_UNLOCK_PI has dropped: it is in the
    table with its deadline, or some operation is about to tell it, or it has been
    told and woken; and the deadline that the scheduler compares with the clock is
    not later than any deadline in the table whose call has published it. *)

From stdpp Require Import sorting.
From S2P Require Import Prelude SysErr Futex FutexSys FutexSpec FutexInv FutexStep.

(** ** Calls *)

Definition call_task (c : Call) : TaskId :=
  match c with CWait a _ => wt_task a | CWaitv a _ => wv_task a | CLock a _ => lp_task a end.
Definition call_deadline (c : Call) : option Z :=
  match c with CWait a _ => wt_deadline a | CWaitv a _ => wv_deadline a | CLock a _ => lp_deadline a end.

(** The index of an entry in the set that is waited for. *)
Definition call_indices (c : Call) : list Z :=
  match c with CWaitv a _ => seqZ 0 (Z.of_nat (length (wv_entries a))) | _ => [usize_max] end.

(** The call has put its entries into the table; its deadline is published. *)
Definition queued (c : Call) : bool :=
  match c with
  | CWait _ (WtPublish | WtWait) | CWaitv _ (WtPublish | WtWait) | CLock _ (LpBoost _ | LpPublish | LpWait) => true
  | _ => false
  end.
Definition waiting (c : Call) : bool :=
  match c with CWait _ WtWait | CWaitv _ WtWait | CLock _ LpWait => true | _ => false end.

Lemma waiting_queued c : waiting c = true -> queued c = true.
Proof. by destruct c as [? []|? []|? []]. Qed.

Section Invariant.
Context {M : Type} `{FutexMem M} (dropped : TaskId -> Prop).
Implicit Types (w : FutexWorld M) (s : Sys M).

Definition in_table (t : TaskId) (i : Z) (d : option Z) w : Prop :=
  exists x, x ∈ waiters_of (FUTEX_TABLE w) /\ w_task x = t /\ wake_index x = i /\ deadline_ns x = d.

Record FInv s : Prop := {
  fi_call t c : calls s !! t = Some c -> call_task c = t /\ is_Some (tasks (world s) !! t);
  fi_queued t c i : ~ dropped t -> calls s !! t = Some c -> queued c = true -> i ∈ call_indices c ->
    in_table t i (call_deadline c) (world s) \/ told t (world s) = true \/ t ∈ alerts (posts s);
  fi_sleep t n : sleeping s !! t = Some n -> (exists c, calls s !! t = Some c /\ waiting c = true) /\ (n <= length (sched_log (world s)))%nat /\
    (told t (world s) = true -> EvWake t ∈ drop n (sched_log (world s)));
  fi_deadline x d : x ∈ waiters_of (FUTEX_TABLE (world s)) -> deadline_ns x = Some d -> NEXT_FUTEX_DEADLINE_NS (world s) <= d \/
    exists c, calls s !! w_task x = Some c /\ queued c = true /\ waiting c = false /\ call_deadline c = Some d }.

Lemma told_some t w : told t w = true -> is_Some (tasks w !! t).
Proof. unfold told, flag. by destruct (tasks w !! t); [eauto|]. Qed.

Lemma in_table_sig x y w : y ∈ waiters_of (FUTEX_TABLE w) -> sig y = sig x -> in_table (w_task x) (wake_index x) (deadline_ns x) w.
Proof. intros Hy E. apply sig_fields in E as (? & ? & ? & _). by exists y. Qed.

(** ** Steps of the environment *)

Record env s s' : Prop := {
  ev_calls : calls s' = calls s;
  ev_sleeping : sleeping s' = sleeping s;
  ev_tasks t : is_Some (tasks (world s) !! t) -> is_Some (tasks (world s') !! t);
  ev_keep x : ~ dropped (w_task x) -> x ∈ waiters_of (FUTEX_TABLE (world s)) -> is_Some (tasks (world s) !! w_task x) ->
    (exists y, y ∈ waiters_of (FUTEX_TABLE (world s')) /\ sig y = sig x) \/ told (w_task x) (world s') = true \/ w_task x ∈ alerts (posts s');
  ev_from x : x ∈ waiters_of (FUTEX_TABLE (world s')) -> exists y, y ∈ waiters_of (FUTEX_TABLE (world s)) /\ sig y = sig x;
  ev_told t : told t (world s) = true -> told t (world s') = true;
  ev_alert t : t ∈ alerts (posts s) -> is_Some (tasks (world s) !! t) -> told t (world s') = true \/ t ∈ alerts (posts s');
  ev_log : exists suf, sched_log (world s') = sched_log (world s) ++ suf /\
    forall t, told t (world s') = true -> told t (world s) = true \/ EvWake t ∈ suf;
  ev_next : NEXT_FUTEX_DEADLINE_NS (world s') = NEXT_FUTEX_DEADLINE_NS (world s) \/
    forall x d, x ∈ waiters_of (FUTEX_TABLE (world s')) -> deadline_ns x = Some d -> NEXT_FUTEX_DEADLINE_NS (world s') <= d }.

Lemma env_inv s s' : env s s' -> FInv s -> FInv s'.
Proof.
  intros [EC ES ET EK EF ED EA (suf & EL & EW) EN] [I1 I2 I3 I4]. split.
  - intros t c. rewrite EC. intros Hc. destruct (I1 t c Hc). auto.
  - intros t c i Hd. rewrite EC. intros Hc Hq Hi. destruct (I1 t c Hc) as [_ Hs]. destruct (I2 t c i Hd Hc Hq Hi) as [(x & Hx & <- & <- & <-)|[Ht|Ha]].
    + destruct (EK x Hd Hx Hs) as [(y & Hy & Ey)|[?|?]]; [left; by apply (in_table_sig x y)|auto..].
    + right. left. by apply ED.
    + right. by apply EA.
  - intros t n. rewrite ES, EC. intros Hn. destruct (I3 t n Hn) as (Hc & Hle & Ht). split; [done|]. rewrite EL, length_app. split; [lia|].
    intros Ht'. rewrite drop_app_le by done. apply elem_of_app. destruct (EW t Ht'); auto.
  - intros x d Hx Ed. destruct EN as [EN|EN]; [|left; by eapply EN]. destruct (EF x Hx) as (y & Hy & Ey). apply sig_fields in Ey as (Et & _ & Edd & _).
    rewrite EN, EC, <- Et. apply I4; [done|congruence].
Qed.

End Invariant.
Arguments fi_call {M dropped} s.
Arguments fi_queued {M dropped} s.
Arguments fi_sleep {M dropped} s.
Arguments fi_deadline {M dropped} s.

(** ** Steps of a task itself *)

Section Own.
Context {M : Type} `{FutexMem M}.
Implicit Types (w : FutexWorld M) (s : Sys M).

(** What a task does to the others; [new] are the entries that it adds. *)
Record mine (t : TaskId) (new : list FutexWaiter) w w' : Prop := {
  mi_tasks t' : is_Some (tasks w !! t') -> is_Some (tasks w' !! t');
  mi_keep x : x ∈ waiters_of (FUTEX_TABLE w) -> w_task x <> t -> exists y, y ∈ waiters_of (FUTEX_TABLE w') /\ sig y = sig x;
  mi_from x : x ∈ waiters_of (FUTEX_TABLE w') -> (exists y, y ∈ waiters_of (FUTEX_TABLE w) /\ sig y = sig x) \/ x ∈ new;
  mi_told t' : t' <> t -> told t' w' = told t' w;
  mi_log : sched_log w `prefix_of` sched_log w';
  mi_next : NEXT_FUTEX_DEADLINE_NS w' <= NEXT_FUTEX_DEADLINE_NS w }.

Lemma mine_trans t w1 w2 w3 : mine t [] w1 w2 -> mine t [] w2 w3 -> mine t [] w1 w3.
Proof.
  intros [T1 K1 F1 D1 L1 N1] [T2 K2 F2 D2 L2 N2]. split; [auto| | | |by etrans|lia].
  - intros x Hx Hn. destruct (K1 x Hx Hn) as (y & Hy & Ey). destruct (K2 y Hy) as (z & Hz & Ez); [apply sig_fields in Ey as (-> & _); done|]. exists z. split; [done|congruence].
  - intros x Hx. destruct (F2 x Hx) as [(y & Hy & Ey)|?]; [|set_solver]. destruct (F1 y Hy) as [(z & Hz & Ez)|?]; [|set_solver]. left. exists z. split; [done|congruence].
  - intros t' Hn. by rewrite D2, D1.
Qed.

Lemma mine_calm t w w' : FUTEX_TABLE w' = FUTEX_TABLE w -> NEXT_FUTEX_DEADLINE_NS w' <= NEXT_FUTEX_DEADLINE_NS w -> calm w w' -> mine t [] w w'.
Proof.
  intros ET EN C. pose proof C as [T F L]. split; [intros t'; apply T|rewrite ET; eauto..| |done|done].
  intros t' _. by apply calm_told.
Qed.

Lemma mine_quiet t w w' : quiet w w' -> mine t [] w w'.
Proof. intros [ET EN C]. apply mine_calm; [done|lia|done]. Qed.

Lemma mine_upd t f w : mine t [] w (upd_task f t w).
Proof.
  split; [intros t'; apply upd_some|eauto..| |done|done]. intros t' Hn. unfold told. by rewrite !flag_upd, !decide_False.
Qed.

Lemma mine_shrink t w w' : NEXT_FUTEX_DEADLINE_NS w' = NEXT_FUTEX_DEADLINE_NS w -> shrink [t] w w' -> mine t [] w w'.
Proof.
  intros EN S. pose proof (sh_calm _ _ _ S) as C. pose proof C as [T F L]. split; [intros t'; apply T| | | |done|lia].
  - intros x Hx Hn. eapply shrink_to; [exact S|done|set_solver].
  - intros x Hx. left. by eapply shrink_from.
  - intros t' _. by apply calm_told.
Qed.

Lemma next_remove t w : NEXT_FUTEX_DEADLINE_NS (remove_task_from_futex_table t w) = NEXT_FUTEX_DEADLINE_NS w.
Proof. by destruct (remove_quiet t w) as [_ -> _]. Qed.

Lemma mine_remove t w : mine t [] w (remove_task_from_futex_table t w).
Proof. apply mine_shrink; [apply next_remove|apply remove_shrink]. Qed.

Lemma mine_enqueue t new table w : waiters_of table ≡ₚ new ++ waiters_of (FUTEX_TABLE w) -> mine t new w (set_table table w).
Proof.
  intros Hp. split; [done| | |done..].
  - intros x Hx _. exists x. split; [|done]. simpl. rewrite Hp. set_solver.
  - intros x Hx. simpl in Hx. rewrite Hp in Hx. apply elem_of_app in Hx as [?|?]; [by right|left; eauto].
Qed.

Lemma mine_boost_owner t o w : mine t [] w (boost_owner o w).
Proof. apply mine_quiet. destruct o; [apply quiet_boost|apply quiet_refl]. Qed.

Lemma mine_remove_queue t key w : mine t [] w (remove_task_from_futex_queue key t w).1.
Proof.
  apply mine_shrink; [|apply remove_queue_shrink]. unfold remove_task_from_futex_queue, refresh_max. by repeat case_match.
Qed.

(** What a step of a call does, by where it leads. *)
Inductive outcome (t : TaskId) (c : Call) w w' : option (Call + SysResult Z) -> Prop :=
| oc_block : w' = w -> waiting c = true -> told t w = false -> outcome t c w w' None
| oc_return r : mine t [] w w' -> (queued c = true -> waiting c = true) -> outcome t c w w' (Some (inr r))
| oc_outside c' : call_task c' = t -> mine t [] w w' -> (queued c = true -> waiting c = true) -> queued c' = false -> outcome t c w w' (Some (inl c'))
| oc_enqueue c' new : call_task c' = t -> mine t new w w' -> queued c = false -> queued c' = true -> waiting c' = false ->
    (forall x, x ∈ new -> w_task x = t /\ deadline_ns x = call_deadline c') ->
    (forall i, i ∈ call_indices c' -> exists x, x ∈ new /\ wake_index x = i) -> (forall x, x ∈ new -> x ∈ waiters_of (FUTEX_TABLE w')) ->
    outcome t c w w' (Some (inl c'))
| oc_on c' : call_task c' = t -> FUTEX_TABLE w' = FUTEX_TABLE w -> calm w w' -> NEXT_FUTEX_DEADLINE_NS w' <= NEXT_FUTEX_DEADLINE_NS w ->
    queued c = true -> waiting c = false -> queued c' = true -> call_deadline c' = call_deadline c -> call_indices c' = call_indices c ->
    (waiting c' = true -> forall d, call_deadline c = Some d -> NEXT_FUTEX_DEADLINE_NS w' <= d) -> outcome t c w w' (Some (inl c')).

Lemma publish_spec d w : let w' := match d with Some d => publish_futex_deadline d w | None => w end in
  FUTEX_TABLE w' = FUTEX_TABLE w /\ calm w w' /\ NEXT_FUTEX_DEADLINE_NS w' <= NEXT_FUTEX_DEADLINE_NS w /\ forall e, d = Some e -> NEXT_FUTEX_DEADLINE_NS w' <= e.
Proof.
  destruct d as [d|]; [|by split_and!; [|apply calm_refl|..]]. unfold publish_futex_deadline. cbn zeta. destruct (d <? NEXT_FUTEX_DEADLINE_NS w) eqn:E; to_prop.
  - split_and!; [done|by split|simpl; lia|]. intros e [= <-]. simpl. lia.
  - split_and!; [done|apply calm_refl|lia|]. intros e [= <-]. lia.
Qed.

Lemma told_flags t w : flag futex_woken t w = false -> flag futex_timed_out t w = false -> flag interrupted_by_signal t w = false -> told t w = false.
Proof. unfold told. by intros -> -> ->. Qed.

Lemma wait_outcome a pc w : let '(w', r) := call_step (CWait a pc) w in outcome (wt_task a) (CWait a pc) w w' r.
Proof.
  destruct pc; cbn.
  - eapply oc_outside; [done|apply mine_upd|done..].
  - unfold wait_enqueue. destruct (_ || _); [apply oc_return; [apply mine_quiet, quiet_refl|done]|].
    destruct (read_user_u32_mapped _ _ _); [|apply oc_return; [apply mine_quiet, quiet_refl|done]].
    destruct (negb _); [apply oc_return; [apply mine_quiet, quiet_refl|done]|]. destruct (expired _ _); [apply oc_return; [apply mine_quiet, quiet_refl|done]|].
    set (x := mkWaiter _ _ _ _ _ _ _ _). eapply (oc_enqueue _ _ _ _ _ [x]); try done.
    + apply mine_enqueue. apply waiters_enqueue.
    + intros y ->%list_elem_of_singleton. done.
    + intros i ->%list_elem_of_singleton. exists x. set_solver.
    + intros y Hy. simpl. rewrite waiters_enqueue. set_solver.
  - destruct (publish_spec (wt_deadline a) w) as (ET & EC & EN & ED). by apply oc_on.
  - unfold wait_turn. destruct (flag futex_timed_out _ _) eqn:E1; [apply oc_return; [apply mine_upd|done]|].
    destruct (flag futex_woken _ _) eqn:E2; [apply oc_return; [apply mine_upd|done]|].
    destruct (flag interrupted_by_signal _ _) eqn:E3; [apply oc_return; [eapply mine_trans; [apply mine_upd|apply mine_remove]|done]|].
    destruct (flag zombie_flag _ _); [apply oc_return; [apply mine_remove|done]|]. apply oc_block; [done..|by apply told_flags].
Qed.

(** The entries of a set. *)
Lemma enqueue_entries_spec a now : forall entries index table, exists new, waiters_of (enqueue_entries a now index entries table) ≡ₚ new ++ waiters_of table /\
  (forall x, x ∈ new -> w_task x = wv_task a /\ deadline_ns x = wv_deadline a) /\ wake_index <$> new = seqZ index (Z.of_nat (length entries)).
Proof.
  induction entries as [|[[u key] v] entries IH]; intros index table; cbn [enqueue_entries].
  { exists []. split_and!; [done|set_solver|done]. }
  set (x := mkWaiter _ _ _ _ _ _ _ _). destruct (IH (index + 1) (enqueue_at key [x] table)) as (new & Hp & Hn & Hi). exists (x :: new). split_and!.
  - rewrite Hp, waiters_enqueue. simpl. by rewrite Permutation_middle.
  - intros y [->|Hy]%elem_of_cons; [done|by apply Hn].
  - simpl length. rewrite Nat2Z.inj_succ, seqZ_cons by lia. rewrite fmap_cons. f_equal. rewrite Hi. f_equal; lia.
Qed.

Lemma waitv_outcome a pc w : let '(w', r) := call_step (CWaitv a pc) w in outcome (wv_task a) (CWaitv a pc) w w' r.
Proof.
  destruct pc; cbn.
  - eapply oc_outside; [done|apply mine_upd|done..].
  - unfold waitv_enqueue. destruct (existsb _ _); [apply oc_return; [apply mine_quiet, quiet_refl|done]|].
    destruct (check_words _ _ _); [|apply oc_return; [apply mine_quiet, quiet_refl|done]]. destruct (expired _ _); [apply oc_return; [apply mine_quiet, quiet_refl|done]|].
    destruct (enqueue_entries_spec a (monotonic_now_ns w) (wv_entries a) 0 (FUTEX_TABLE w)) as (new & Hp & Hn & Hi).
    eapply (oc_enqueue _ _ _ _ _ new); try done.
    + by apply mine_enqueue.
    + cbn [call_indices]. intros i Hin. rewrite <- Hi in Hin. apply list_elem_of_fmap in Hin as (x & -> & Hx). by exists x.
    + intros y Hy. simpl. rewrite Hp. set_solver.
  - destruct (publish_spec (wv_deadline a) w) as (ET & EC & EN & ED). by apply oc_on.
  - unfold waitv_turn. destruct (flag futex_timed_out _ _) eqn:E1; [apply oc_return; [eapply mine_trans; [apply mine_upd|apply mine_remove]|done]|].
    destruct (flag futex_woken _ _) eqn:E2; [apply oc_return; [eapply mine_trans; [apply mine_upd|apply mine_remove]|done]|].
    destruct (flag interrupted_by_signal _ _) eqn:E3; [apply oc_return; [eapply mine_trans; [apply mine_upd|apply mine_remove]|done]|].
    destruct (flag zombie_flag _ _); [apply oc_return; [eapply mine_trans; [apply mine_upd|apply mine_remove]|done]|]. apply oc_block; [done..|by apply told_flags].
Qed.

Lemma lock_outcome a pc w : let '(w', r) := call_step (CLock a pc) w in outcome (lp_task a) (CLock a pc) w w' r.
Proof.
  assert (Hself : forall t, mine t [] w w) by (intros t; apply mine_quiet, quiet_refl).
  destruct pc as [| |previous|observed|owner|owner|owner| |]; cbn.
  - unfold lock_pi_top. repeat case_match; simplify_eq; by constructor.
  - unfold lock_pi_acquire. destruct (negb _); [by apply oc_outside|]. destruct (non_pi_waiter _ _); [by apply oc_return|].
    apply oc_outside; [done| |done..]. apply mine_quiet. eapply quiet_trans; [apply quiet_word|apply quiet_states].
  - apply oc_return; [|done]. apply mine_quiet, quiet_posts. by rewrite alerts_app, alerts_previous.
  - destruct (_ =? _); [|by apply oc_outside]. apply oc_outside; [done| |done..]. apply mine_quiet, quiet_word.
  - apply oc_outside; [done|apply mine_upd|done..].
  - unfold lock_pi_enqueue. destruct (_ || _); [by apply oc_outside|]. destruct (non_pi_waiter _ _); [by apply oc_return|]. cbv zeta.
    set (x := mkWaiter _ _ _ _ _ _ _ _). set (w1 := set_table _ w). eapply (oc_enqueue _ _ _ _ _ [x]); try done.
    + destruct (mine_enqueue (lp_task a) [x] (enqueue_at (lp_key a) [x] (FUTEX_TABLE w)) w) as [T K F D L N]; [apply waiters_enqueue|]. by split.
    + intros y ->%list_elem_of_singleton. done.
    + intros i ->%list_elem_of_singleton. exists x. set_solver.
    + intros y Hy. simpl. rewrite waiters_enqueue. set_solver.
  - destruct (quiet_boost owner w) as [ET EN EC]. apply oc_on; try done. lia.
  - destruct (publish_spec (lp_deadline a) w) as (ET & EC & EN & ED). by apply oc_on.
  - unfold lock_pi_wait. destruct (flag futex_woken _ _) eqn:E2; cbn.
    { destruct (_ =? _); [apply oc_return; [apply mine_upd|done]|apply oc_outside; [done|apply mine_upd|done..]]. }
    destruct (flag futex_timed_out _ _) eqn:E1; [|destruct (flag interrupted_by_signal _ _) eqn:E3; [|apply oc_block; [done..|by apply told_flags]]]; cbn.
    all: match goal with |- context [remove_task_from_futex_queue ?k ?t ?w1] => pose proof (mine_remove_queue t k w1) as Hr;
      destruct (remove_task_from_futex_queue k t w1) as [w2 owner] end; cbn in *.
    all: apply oc_return; [|done]; eapply mine_trans; [apply mine_upd|]; eapply mine_trans; [exact Hr|apply mine_boost_owner].
Qed.

Lemma call_outcome c w w' r : call_step c w = (w', r) -> outcome (call_task c) c w w' r.
Proof.
  intros E. destruct c as [a pc|a pc|a pc].
  - pose proof (wait_outcome a pc w) as O. by rewrite E in O.
  - pose proof (waitv_outcome a pc w) as O. by rewrite E in O.
  - pose proof (lock_outcome a pc w) as O. by rewrite E in O.
Qed.

End Own.

Section Keeps.
Context {M : Type} `{FutexMem M} (dropped : TaskId -> Prop).
Implicit Types (w : FutexWorld M) (s : Sys M).

(** A step of the task [t], which does not sleep, keeps the invariant for the
    others; what it owes to [t] is left. *)
Lemma own_inv s t new w' cs : FInv dropped s -> sleeping s !! t = None -> mine t new (world s) w' -> (forall t', t' <> t -> cs !! t' = calls s !! t') ->
  (forall c, cs !! t = Some c -> call_task c = t /\ is_Some (tasks w' !! t)) ->
  (forall c i, ~ dropped t -> cs !! t = Some c -> queued c = true -> i ∈ call_indices c -> in_table t i (call_deadline c) w' \/ told t w' = true \/ t ∈ alerts (posts s)) ->
  (forall x, x ∈ new -> w_task x = t) ->
  (forall x d, x ∈ waiters_of (FUTEX_TABLE w') -> w_task x = t -> deadline_ns x = Some d -> NEXT_FUTEX_DEADLINE_NS w' <= d \/
    exists c, cs !! t = Some c /\ queued c = true /\ waiting c = false /\ call_deadline c = Some d) ->
  FInv dropped (mkSys w' (posts s) cs (sleeping s)).
Proof.
  intros [I1 I2 I3 I4] Hsl [MT MK MF MD [suf ML] MN] Hcs H1 H2 H3 H4. split; simpl.
  - intros t' c Hc. destruct (decide (t' = t)) as [->|Hn]; [by apply H1|]. rewrite Hcs in Hc by done. destruct (I1 t' c Hc). auto.
  - intros t' c i Hd Hc Hq Hi. destruct (decide (t' = t)) as [->|Hn]; [by eapply H2|]. rewrite Hcs in Hc by done.
    destruct (I2 t' c i Hd Hc Hq Hi) as [(x & Hx & <- & <- & <-)|[Ht|Ha]]; [|right; left; by rewrite MD|by right; right].
    destruct (MK x Hx Hn) as (y & Hy & Ey). left. by apply (in_table_sig x y).
  - intros t' n Hn. assert (t' <> t) by (intros ->; congruence). rewrite Hcs by done. destruct (I3 t' n Hn) as (Hc & Hle & Ht). split; [done|].
    rewrite ML, length_app. split; [lia|]. rewrite MD by done. intros Ht'. rewrite drop_app_le by done. apply elem_of_app. auto.
  - intros x d Hx Ed. destruct (decide (w_task x = t)) as [E|Hn]; [rewrite E; by eapply H4|]. rewrite Hcs by done.
    destruct (MF x Hx) as [(y & Hy & Ey)|Hnew]; [|by apply H3 in Hnew]. apply sig_fields in Ey as (Et & _ & Edd & _).
    destruct (I4 y d Hy) as [?|Hc]; [congruence|left; lia|]. right. by rewrite <- Et.
Qed.

(** The deadlines of a task whose call is not about to publish one. *)
Lemma own_deadline s t c x d : FInv dropped s -> calls s !! t = Some c -> (queued c = true -> waiting c = true) -> x ∈ waiters_of (FUTEX_TABLE (world s)) ->
  w_task x = t -> deadline_ns x = Some d -> NEXT_FUTEX_DEADLINE_NS (world s) <= d.
Proof.
  intros I Hc Hq Hx Et Ed. destruct (fi_deadline s I x d Hx Ed) as [?|(c' & Hc' & Hq' & Hw & _)]; [done|]. rewrite Et, Hc in Hc'. injection Hc' as <-.
  rewrite Hq in Hw by done. done.
Qed.

Lemma lookup_new t t' c (cs : gmap TaskId Call) : t' <> t -> <[t := c]> cs !! t' = cs !! t'.
Proof. intros. by rewrite lookup_insert_ne. Qed.

Lemma run_inv s t c w' c' : FInv dropped s -> calls s !! t = Some c -> sleeping s !! t = None -> call_step c (world s) = (w', Some (inl c')) ->
  FInv dropped (mkSys w' (posts s) (<[t := c']> (calls s)) (sleeping s)).
Proof.
  intros I Hc Hsl E. destruct (fi_call s I t c Hc) as [Et Hs]. apply call_outcome in E. rewrite Et in E. inversion E as [| |c2 E1 Hm Hq Hq' E2|c2 new E1 Hm Hq Hq' Hw Hn Hi Ht E2|c2 E1 ET EC EN Hq Hw Hq' Hd Hi Hp E2]; subst c2.
  - eapply own_inv; try done; [intros t' Hne; by apply lookup_new|..].
    + intros c0. rewrite lookup_insert_eq. intros [= <-]. split; [done|]. by apply Hm.
    + intros c0 i Hdr. rewrite lookup_insert_eq. intros [= <-]. congruence.
    + set_solver.
    + intros x d Hx Ex Ed. left. destruct (mi_from _ _ _ _ Hm x Hx) as [(y & Hy & Ey)|?]; [|set_solver]. apply sig_fields in Ey as (Ety & _ & Edy & _).
      pose proof (mi_next _ _ _ _ Hm). pose proof (own_deadline s t c y d I Hc Hq Hy ltac:(congruence) ltac:(congruence)). lia.
  - eapply own_inv; try done; [intros t' Hne; by apply lookup_new|..].
    + intros c0. rewrite lookup_insert_eq. intros [= <-]. split; [done|]. by apply Hm.
    + intros c0 i Hdr. rewrite lookup_insert_eq. intros [= <-] _ Hin. left. destruct (Hi i Hin) as (x & Hx & <-). destruct (Hn x Hx) as [E3 E4]. exists x. auto.
    + intros x Hx. by apply Hn.
    + intros x d Hx Ex Ed. destruct (mi_from _ _ _ _ Hm x Hx) as [(y & Hy & Ey)|Hnew].
      * left. apply sig_fields in Ey as (Ety & _ & Edy & _). pose proof (mi_next _ _ _ _ Hm).
        assert (Hqw : queued c = true -> waiting c = true) by (rewrite Hq; done).
        pose proof (own_deadline s t c y d I Hc Hqw Hy ltac:(congruence) ltac:(congruence)). lia.
      * right. exists c'. rewrite lookup_insert_eq. destruct (Hn x Hnew) as [_ E4]. split_and!; try done. congruence.
  - eapply own_inv; [done|done|by apply mine_calm|intros t' Hne; by apply lookup_new|..].
    + intros c0. rewrite lookup_insert_eq. intros [= <-]. split; [done|]. by apply EC.
    + intros c0 i Hdr. rewrite lookup_insert_eq. intros [= <-] _ Hin. rewrite Hi in Hin. unfold in_table. rewrite ET, Hd, (calm_told _ _ t EC). by apply (fi_queued s I t c i Hdr).
    + set_solver.
    + intros x d Hx Ex Ed. rewrite ET in Hx. destruct (fi_deadline s I x d Hx Ed) as [?|(c0 & Hc0 & Hq0 & Hw0 & Hd0)]; [left; lia|].
      rewrite Ex, Hc in Hc0. injection Hc0 as <-. destruct (waiting c') eqn:Ew; [left; by apply Hp|]. right. exists c'. rewrite lookup_insert_eq. split_and!; try done. congruence.
Qed.

Lemma return_inv s t c w' r : FInv dropped s -> calls s !! t = Some c -> sleeping s !! t = None -> call_step c (world s) = (w', Some (inr r)) ->
  FInv dropped (mkSys w' (posts s) (delete t (calls s)) (sleeping s)).
Proof.
  intros I Hc Hsl E. destruct (fi_call s I t c Hc) as [Et Hs]. apply call_outcome in E. rewrite Et in E. inversion E as [|r' Hm Hq E2| | |]; subst r'.
  eapply own_inv; try done; [intros t' Hne; by rewrite lookup_delete_ne|by intros c0; rewrite lookup_delete_eq|by intros c0 i _; rewrite lookup_delete_eq|set_solver|].
  intros x d Hx Ex Ed. left. destruct (mi_from _ _ _ _ Hm x Hx) as [(y & Hy & Ey)|?]; [|set_solver]. apply sig_fields in Ey as (Ety & _ & Edy & _).
  pose proof (mi_next _ _ _ _ Hm). pose proof (own_deadline s t c y d I Hc Hq Hy ltac:(congruence) ltac:(congruence)). lia.
Qed.

Lemma sleep_inv s t c w' : FInv dropped s -> calls s !! t = Some c -> call_step c (world s) = (w', None) ->
  FInv dropped (mkSys w' (posts s) (calls s) (<[t := length (sched_log w')]> (sleeping s))).
Proof.
  intros I Hc E. pose proof I as [I1 I2 I3 I4]. destruct (I1 t c Hc) as [Et Hs]. apply call_outcome in E. rewrite Et in E.
  inversion E as [E1 Hw Ht| | | |]. subst w'. split; simpl; [done..| |done].
  intros t' n. destruct (decide (t' = t)) as [->|Hn]; [|rewrite lookup_insert_ne by done; apply I3].
  rewrite lookup_insert_eq. intros [= <-]. split; [eauto|]. split; [done|]. congruence.
Qed.
End Keeps.
Arguments own_deadline {M dropped} s.

(** ** Every step *)

Section Steps.
Context {M : Type} `{FutexMem M} `{!FutexMemLaws M} (dropped : TaskId -> Prop).
Implicit Types (w : FutexWorld M) (s : Sys M).

Lemma env_shrink s w' l lost : Forall dropped lost -> shrink (alerts l ++ lost) (world s) w' -> env dropped s (mkSys w' (posts s ++ l) (calls s) (sleeping s)).
Proof.
  intros Hl S. pose proof (sh_calm _ _ _ S) as C. rewrite Forall_forall in Hl. split; simpl; try done.
  - intros t. apply C.
  - intros x Hd Hx _. rewrite alerts_app. destruct (decide (w_task x ∈ alerts l)); [right; right; set_solver|]. left. eapply shrink_to; [exact S|done|].
    intros [?|?]%elem_of_app; [done|]. by apply Hd, Hl.
  - intros x. by eapply shrink_from.
  - intros t. by rewrite (calm_told _ _ t C).
  - intros t Ht _. right. rewrite alerts_app. set_solver.
  - destruct (cm_log _ _ C) as [suf L]. exists suf. split; [done|]. intros t. rewrite (calm_told _ _ t C). auto.
  - apply (sh_next _ _ _ S).
Qed.

Lemma env_quiet s w' : quiet (world s) w' -> env dropped s (mkSys w' (posts s ++ []) (calls s) (sleeping s)).
Proof. intros Q. apply (env_shrink s w' [] []); [done|by apply quiet_shrink]. Qed.

(** A world in which one task has been told and woken. *)
Record tells (t : TaskId) (gone : list TaskId) w w' : Prop := {
  tl_tasks t' : is_Some (tasks w !! t') -> is_Some (tasks w' !! t');
  tl_keep x : x ∈ waiters_of (FUTEX_TABLE w) -> w_task x ∉ gone -> exists y, y ∈ waiters_of (FUTEX_TABLE w') /\ sig y = sig x;
  tl_from x : x ∈ waiters_of (FUTEX_TABLE w') -> exists y, y ∈ waiters_of (FUTEX_TABLE w) /\ sig y = sig x;
  tl_told : is_Some (tasks w !! t) -> told t w' = true;
  tl_same t' : t' <> t -> told t' w' = told t' w;
  tl_log : exists suf, sched_log w' = sched_log w ++ suf /\ EvWake t ∈ suf;
  tl_next : NEXT_FUTEX_DEADLINE_NS w' = NEXT_FUTEX_DEADLINE_NS w }.

Lemma env_tells t gone s w' posts' : gone ⊆ [t] -> tells t gone (world s) w' -> (forall t', t' ∈ alerts (posts s) -> t' = t \/ t' ∈ alerts posts') ->
  env dropped s (mkSys w' posts' (calls s) (sleeping s)).
Proof.
  intros Hg [TT TK TF TD TS (suf & TL & TE) TN] Ha. split; simpl; try done.
  - intros x _ Hx Hs. destruct (decide (w_task x ∈ gone)) as [Hin|Hin]; [|left; by apply TK]. apply Hg, list_elem_of_singleton in Hin. right. left. rewrite Hin in *. by apply TD.
  - intros t' Ht'. destruct (decide (t' = t)) as [->|]; [apply TD; by apply told_some in Ht'|by rewrite TS].
  - intros t' Hin Hs. destruct (Ha t' Hin) as [->|?]; [left; by apply TD|by right].
  - exists suf. split; [done|]. intros t' Ht'. destruct (decide (t' = t)) as [->|]; [by right|left; by rewrite <- TS].
  - by left.
Qed.

Lemma tells_upd t f w : (forall task, futex_woken (f task) || futex_timed_out (f task) || interrupted_by_signal (f task) = true) -> tells t [] w (wakeup_task t (upd_task f t w)).
Proof.
  intros Hf. split; try done; [intros t'; apply upd_some|eauto..| | |exists [EvWake t]; split; [done|set_solver]].
  - intros [task Hs]. change (told t (upd_task f t w) = true). unfold told. rewrite !flag_upd, !decide_True by done. by rewrite Hs.
  - intros t' Hn. change (told t' (upd_task f t w) = told t' w). unfold told. by rewrite !flag_upd, !decide_False.
Qed.

Lemma tells_kill t w : tells t [t] w (kill_task t w).
Proof.
  unfold kill_task. set (w0 := upd_task _ t w). pose proof (remove_shrink t w0) as S. pose proof (sh_calm _ _ _ S) as C. destruct (cm_log _ _ C) as [suf L].
  destruct (tells_upd t (fun task => with_interrupted true (set_zombie task)) w) as [T1 _ _ T4 T5 _ _]; [intros task; apply orb_true_r|]. fold w0 in T1, T4, T5.
  split; simpl.
  - intros t' Ht'. apply C. by apply T1.
  - intros x Hx Hn. by apply (shrink_to _ w0 _ x S).
  - intros x Hx. by apply (shrink_from _ w0 _ x S).
  - intros Hs. change (told t (remove_task_from_futex_table t w0) = true). rewrite (calm_told _ _ t C). by apply T4.
  - intros t' Hn. change (told t' (remove_task_from_futex_table t w0) = told t' w). rewrite (calm_told _ _ t' C). by apply T5.
  - exists (suf ++ [EvWake t]). rewrite L, app_assoc. split; [done|set_solver].
  - apply (next_remove t w0).
Qed.

Lemma post_env s l1 p l2 : posts s = l1 ++ p :: l2 -> env dropped s (mkSys (post (world s) p) (l1 ++ l2) (calls s) (sleeping s)).
Proof.
  intros Hp. assert (Ha : forall t', t' ∈ alerts (posts s) -> alert p = Some t' \/ t' ∈ alerts (l1 ++ l2)).
  { intros t'. rewrite Hp, !alerts_app. unfold alerts. simpl. destruct (alert p); simpl; set_solver. }
  destruct p as [x|tid|t]; cbn [post].
  - apply (env_tells (w_task x) []); [set_solver|by apply tells_upd|]. intros t' Ht'. destruct (Ha t' Ht') as [[= ->]|?]; auto.
  - assert (E : env dropped s (mkSys (apply_pi_boost tid (world s)) (posts s ++ []) (calls s) (sleeping s))).
    { apply env_quiet, quiet_boost. }
    destruct E as [E1 E2 E3 E4 E5 E6 E7 E8 E9]. rewrite app_nil_r in *. assert (Hsub : forall t', t' ∈ alerts (posts s) -> t' ∈ alerts (l1 ++ l2)).
    { intros t' Ht'. by destruct (Ha t' Ht'). }
    split; try done; simpl in *; [|intros t' Ht' _; right; by apply Hsub]. intros y Hd Hy Hs. destruct (E4 y Hd Hy Hs) as [?|[?|?]]; auto.
  - apply (env_tells t []); [set_solver|by apply tells_upd|]. intros t' Ht'. destruct (Ha t' Ht') as [[= ->]|?]; auto.
Qed.

Lemma set_world_env s w' : env dropped s (mkSys w' (posts s ++ []) (calls s) (sleeping s)) -> env dropped s (set_world w' s).
Proof. rewrite app_nil_r. by destruct s. Qed.

Lemma not_sleeping s t : FInv dropped s -> calls s !! t = None -> sleeping s !! t = None.
Proof. intros I Hc. destruct (sleeping s !! t) as [n|] eqn:E; [|done]. destruct (fi_sleep s I t n E) as ((c & Hc' & _) & _). congruence. Qed.

Lemma begins_spec w t task c w' : begins w t task c w' -> call_task c = t /\ queued c = false /\ quiet w w'.
Proof.
  intros [uaddr val timeout bits priv mode target a E|waiters n flags timeout clockid a w1 E|uaddr timeout priv rt try_only a E].
  - unfold wait_prepare in E. repeat (case_match || unfold rbind in E); simplify_eq; (split_and!; [done..|apply quiet_refl]).
  - unfold waitv_prepare in E. repeat (case_match || unfold rbind in E); simplify_eq; (split_and!; [done..|]); apply quiet_mem.
  - unfold lock_pi_prepare in E. repeat (case_match || unfold rbind in E); simplify_eq; (split_and!; [done..|apply quiet_refl]).
Qed.

Lemma begin_inv s t task c w' : FInv dropped s -> calls s !! t = None -> tasks (world s) !! t = Some task -> begins (world s) t task c w' ->
  FInv dropped (mkSys w' (posts s) (<[t := c]> (calls s)) (sleeping s)).
Proof.
  intros I Hc Ht Hb. apply begins_spec in Hb as (Et & Hq & Q). pose proof Q as [QT QN QC].
  eapply own_inv; [done|by apply not_sleeping|by apply mine_quiet|intros t' Hne; by apply lookup_new|..].
  - intros c0. rewrite lookup_insert_eq. intros [= <-]. split; [done|]. apply QC. eauto.
  - intros c0 i Hdr. rewrite lookup_insert_eq. intros [= <-]. congruence.
  - set_solver.
  - intros x d Hx Ex Ed. left. rewrite QT in Hx. rewrite QN. destruct (fi_deadline s I x d Hx Ed) as [?|(c0 & Hc0 & _)]; [done|]. rewrite Ex in Hc0. congruence.
Qed.

Lemma retry_inv s t a pc : FInv dropped s -> calls s !! t = Some (CLock a pc) -> (pc = LpAcquire \/ exists v, pc = LpMark v) -> sleeping s !! t = None ->
  FInv dropped (mkSys (world s) (posts s) (<[t := CLock a LpTop]> (calls s)) (sleeping s)).
Proof.
  intros I Hc Hpc Hsl. destruct (fi_call s I t _ Hc) as [Et Hs]. assert (Hq : queued (CLock a pc) = false) by (by destruct Hpc as [->|[v ->]]).
  eapply own_inv; [done|done|apply mine_quiet, quiet_refl|intros t' Hne; by apply lookup_new|..].
  - intros c0. rewrite lookup_insert_eq. intros [= <-]. done.
  - intros c0 i Hdr. rewrite lookup_insert_eq. intros [= <-]. done.
  - set_solver.
  - intros x d Hx Ex Ed. left. eapply own_deadline; [done|exact Hc|congruence|done..].
Qed.

Lemma exit_inv s t : FInv dropped s -> calls s !! t = None -> FInv dropped (set_world (remove_task_from_futex_table t (world s)) s).
Proof.
  intros I Hc. pose proof (mine_remove t (world s)) as Hm. eapply own_inv; [done|by apply not_sleeping|exact Hm|done|intros c; congruence|intros c i _; congruence|set_solver|].
  intros x d Hx Ex Ed. left. rewrite next_remove. destruct (mi_from _ _ _ _ Hm x Hx) as [(y & Hy & Ey)|?]; [|set_solver]. apply sig_fields in Ey as (Ety & _ & Edy & _).
  destruct (fi_deadline s I y d Hy) as [?|(c0 & Hc0 & _)]; [congruence|done|]. rewrite Ety, Ex in Hc0. congruence.
Qed.

Lemma mark_inv s t : FInv dropped s -> sleeping s !! t = None -> FInv dropped (set_world (mark_task t (world s)) s).
Proof.
  intros I Hs. destruct (tells_upd t (fun task => with_interrupted true (set_zombie task)) (world s)) as [_ _ _ Htold _ _ _]; [intros task; apply orb_true_r|].
  eapply own_inv; [done|done|apply (mine_upd t)|done|..].
  - intros c Hc. destruct (fi_call s I t c Hc) as [Et Hk]. split; [done|]. by apply upd_some.
  - intros c i _ Hc _ _. right. left. apply Htold. by apply (fi_call s I t c).
  - set_solver.
  - intros x d Hx Et Ed. destruct (fi_deadline s I x d Hx Ed) as [?|(c & Hc & ?)]; [by left|]. right. exists c. by rewrite <- Et.
Qed.

Lemma fstep_inv s s' : fstep dropped s s' -> FInv dropped s -> FInv dropped s'.
Proof.
  intros Hstep. destruct Hstep as [s t task c w Hc Ht Hb|s t c w c' Hc Hs E|s t c w r Hc Hs E|s t c w Hc Hs E|s t|s t a pc Hc Hpc Hs|s w l Hst|s l1 p l2 Hp|s t|s t|s t Hs|s t|s t Hc]; intros I.
  - by eapply begin_inv.
  - by eapply run_inv.
  - by eapply return_inv.
  - by eapply sleep_inv.
  - destruct I as [I1 I2 I3 I4]. split; simpl; try done. intros t' n [_ Hn]%lookup_delete_Some. by apply I3.
  - by eapply retry_inv.
  - eapply env_inv; [|exact I]. apply section_shrink in Hst as (lost & Hl & Sh). by eapply env_shrink.
  - eapply env_inv; [|exact I]. by apply post_env.
  - eapply env_inv; [|exact I]. apply (env_tells t []); [set_solver|apply tells_upd; intros task; apply orb_true_r|auto].
  - eapply env_inv; [|exact I]. apply (env_tells t [t]); [set_solver|apply tells_kill|auto].
  - by apply mark_inv.
  - eapply env_inv; [|exact I]. apply set_world_env, env_quiet. eapply quiet_trans; [by apply (quiet_upd set_zombie t)|apply quiet_event].
  - by apply exit_inv.
Qed.

Lemma futex_boot_inv s : futex_boot s -> FInv dropped s.
Proof.
  intros (E1 & _ & _ & _ & E5 & E6). split; intros *; rewrite ?E5, ?E6, ?E1; try done; unfold waiters_of; simpl; set_solver.
Qed.

Lemma reach_inv s : freach dropped s -> FInv dropped s.
Proof.
  intros (s0 & Hb & Hr). apply futex_boot_inv in Hb. induction Hr as [s|s1 s2 s3 Hst _ IH]; [done|]. by eapply IH, fstep_inv.
Qed.
End Steps.
