(* ===== verification/FutexPi.v ===== *)
(** * Futexes: PI locks

    Who gets a lock and who may give it away, and that the propagation of
    priorities along chains of locks ends, also when the chain is a cycle. *)

From stdpp Require Import sorting.
From S2P Require Import Prelude SysErr Futex FutexSys FutexSpec FutexInv.

Section Handover.
Context {M : Type} `{FutexMem M}.
Implicit Types w : FutexWorld M.

Definition prio w (x : FutexWaiter) : Z := effective_sched_priority w (w_task x).

(** Position [i] has the highest priority, and the last one that has. *)
Definition highest_at w (full : list FutexWaiter) (n i : nat) (p : Z) : Prop := (i < n)%nat /\ (exists x, full !! i = Some x /\ prio w x = p) /\
  (forall j y, (j < i)%nat -> full !! j = Some y -> prio w y <= p) /\ (forall j y, (i < j < n)%nat -> full !! j = Some y -> prio w y < p).

Lemma max_position_spec w full : forall queue pre best p, full = pre ++ queue -> highest_at w full (length pre) best p ->
  exists p', highest_at w full (length full) (max_position w best p (length pre) queue) p'.
Proof.
  induction queue as [|x queue IH]; intros pre best p -> Hb; [exists p; by rewrite app_nil_r in *|].
  assert (Hx : (pre ++ x :: queue) !! length pre = Some x) by (rewrite lookup_app_r, Nat.sub_diag by lia; done).
  cbn [max_position]. destruct Hb as (Hb1 & (b & Hb2 & Hb3) & Hb4 & Hb5).
  assert (E : pre ++ x :: queue = (pre ++ [x]) ++ queue) by (by rewrite <- app_assoc). fold (prio w x).
  replace (S (length pre)) with (length (pre ++ [x])) by (rewrite length_app; simpl; lia). destruct (Z.leb_spec p (prio w x)).
  - apply IH; [done|]. rewrite length_app. simpl. split_and!; [lia|by exists x| |intros j y Hj; lia].
    intros j y Hj Hy. destruct (Nat.lt_trichotomy j best) as [Hlt|[->|Hgt]]; [specialize (Hb4 j y Hlt Hy); lia|simplify_eq; lia|].
    specialize (Hb5 j y ltac:(lia) Hy). lia.
  - apply IH; [done|]. rewrite length_app. simpl. split_and!; [lia|by exists b|done|].
    intros j y Hj Hy. destruct (decide (j = length pre)) as [->|]; [simplify_eq; lia|]. apply (Hb5 j y); [lia|done].
Qed.

Lemma take_highest_spec w queue : queue <> [] -> exists q1 x q2, queue = q1 ++ x :: q2 /\ take_highest w queue = Some (x, q1 ++ q2) /\
  (forall y, y ∈ q1 -> prio w y <= prio w x) /\ (forall y, y ∈ q2 -> prio w y < prio w x).
Proof.
  intros Hq. destruct queue as [|x0 rest]; [done|]. unfold take_highest.
  destruct (max_position_spec w (x0 :: rest) rest [x0] 0 (effective_sched_priority w (w_task x0))) as (p & Hi & (x & Hx & Hp) & H1 & H2); [done| |].
  { split_and!; [simpl; lia|by exists x0|intros; lia|simpl; intros; lia]. }
  change (length [x0]) with 1%nat in *. set (i := max_position _ _ _ _ _) in *. rewrite Hx. exists (take i (x0 :: rest)), x, (drop (S i) (x0 :: rest)).
  split; [by rewrite take_drop_middle|]. split; [by rewrite delete_take_drop|]. split.
  - intros y (j & Hy)%list_elem_of_lookup. apply lookup_take_Some in Hy as [Hy Hj]. rewrite Hp. by apply (H1 j).
  - intros y (j & Hy)%list_elem_of_lookup. rewrite lookup_drop in Hy. rewrite Hp. apply (H2 (S i + j)%nat); [|done]. apply lookup_lt_Some in Hy. lia.
Qed.
End Handover.

Section Locks.
Context {M : Type} `{FutexMem M} `{!FutexMemLaws M}.
Implicit Types w : FutexWorld M.

Lemma handover_word tid (last : bool) : 0 <= tid <= FUTEX_TID_MASK -> let v := u32 (Z.lor (u32 tid) (if last then 0 else FUTEX_WAITERS)) in
  tid_of v = tid /\ Z.testbit v 31 = negb last.
Proof.
  intros Ht. assert (Hu : u32 tid = tid) by (apply wrap_small; unfold in_u, FUTEX_TID_MASK in *; lia). rewrite Hu. cbv zeta.
  assert (Hl : Z.land tid (Z.ones 30) = tid) by (rewrite Z.land_ones, Z.mod_small; unfold FUTEX_TID_MASK in *; lia).
  unfold tid_of, u32, wrap. change FUTEX_TID_MASK with (Z.ones 30). rewrite <- Z.land_ones, <- Z.land_assoc by lia. change (Z.land (Z.ones 32) (Z.ones 30)) with (Z.ones 30).
  rewrite Z.land_lor_distr_l, Hl. assert (Hb : Z.testbit tid 31 = false).
  { rewrite <- Hl, Z.land_spec, Z.ones_spec_high by lia. apply andb_false_r. }
  split; [by destruct last; rewrite Z.lor_0_r|]. rewrite Z.land_spec, Z.lor_spec, Hb. by destruct last.
Qed.

(** FUTEX_UNLOCK_PI.  A task that does not own the lock gets EPERM and changes
    nothing.  With no waiters the word becomes 0 and the lock's state is dropped.
    Otherwise the lock goes to a waiter of the highest effective priority (of
    several, the one that queued last): the word holds its thread number, with
    FUTEX_WAITERS exactly when others still wait, the state names it as the owner,
    the other waiters keep their order, and it is the one task that is woken. *)
Theorem futex_unlock_pi_exact pid token tid uaddr priv key word w :
  Z.land uaddr 3 = 0 -> make_key pid token uaddr priv w = Ok key -> user_atomic_u32 token uaddr true w = Ok word ->
  (forall x, x ∈ queue_of key (FUTEX_TABLE w) -> 0 < waiter_tid x <= FUTEX_TID_MASK) ->
  let '(w', posts, r) := futex_unlock_pi_section (fun v => v) pid token tid uaddr priv w in
  if negb (tid_of (word_at word w) =? u32 tid) then w' = w /\ posts = [] /\ r = Err EPERM
  else r = Ok 0 /\ (forall pa, pa <> word -> word_at pa w' = word_at pa w) /\ (forall k, k <> key -> PI_STATES w' !! k = PI_STATES w !! k) /\
    match queue_of key (FUTEX_TABLE w) with
    | [] => word_at word w' = 0 /\ PI_STATES w' !! key = None /\ (forall k, queue_of k (FUTEX_TABLE w') = queue_of k (FUTEX_TABLE w)) /\ alerts posts = []
    | queue => exists q1 x q2, queue = q1 ++ x :: q2 /\ (forall y, y ∈ q1 -> prio w y <= prio w x) /\ (forall y, y ∈ q2 -> prio w y < prio w x) /\
        tid_of (word_at word w') = waiter_tid x /\ (Z.testbit (word_at word w') 31 = negb (bool_decide (q1 ++ q2 = []))) /\
        owner_tid <$> PI_STATES w' !! key = Some (waiter_tid x) /\
        (forall k, queue_of k (FUTEX_TABLE w') = if decide (k = key) then q1 ++ q2 else queue_of k (FUTEX_TABLE w)) /\ alerts posts = [w_task x]
    end.
Proof using All.
  intros Hal Hkey Hword Htids. unfold futex_unlock_pi_section. rewrite valid_addr, Hal. cbn [Z.eqb rbind]. rewrite Hkey. cbn [rbind]. rewrite Hword. cbn [rbind].
  destruct (negb _); [done|]. set (w1 := put_word word (word_at word w) w).
  assert (Hw1 : (word_at word w1 =? word_at word w) = true) by (apply Z.eqb_eq, word_same).
  assert (Hother : forall pa v, pa <> word -> word_at pa (put_word word v w1) = word_at pa w) by (intros pa v Hpa; unfold w1; by rewrite !word_put, !decide_False).
  unfold unlock_pi_locked. change (FUTEX_TABLE w1) with (FUTEX_TABLE w). destruct (FUTEX_TABLE w !! key) as [[|x0 rest0]|] eqn:Eq.
  - assert (Eqq : queue_of key (FUTEX_TABLE w) = []) by (unfold queue_of; by rewrite Eq). rewrite Eqq. cbn [take_highest].
    change (word_at word (set_table _ w1)) with (word_at word w1). rewrite Hw1. cbn [Z.eqb]. rewrite alerts_unlock. split_and!; [done|intros pa Hpa; by apply (Hother pa 0)| | | | |done].
    + intros k Hk. simpl. by rewrite lookup_delete_ne.
    + change (word_at word (put_word word 0 w1) = 0). by rewrite word_put, decide_True.
    + simpl. by rewrite lookup_delete_eq.
    + intros k. simpl. rewrite queue_of_delete. case_decide; by subst.
  - assert (Eqq : queue_of key (FUTEX_TABLE w) = x0 :: rest0) by (unfold queue_of; by rewrite Eq). rewrite Eqq in Htids |- *.
    destruct (take_highest_spec w1 (x0 :: rest0)) as (q1 & x & q2 & E & -> & H1 & H2); [done|]. rewrite Hw1. cbv zeta.
    assert (Hx : 0 < waiter_tid x <= FUTEX_TID_MASK) by (apply Htids; rewrite E; set_solver).
    rewrite (proj2 (Z.eqb_neq (waiter_tid x) 0)) by lia. rewrite alerts_unlock.
    destruct (handover_word (waiter_tid x) (bool_decide (q1 ++ q2 = []))) as [T1 T2]; [lia|].
    split_and!; [done|intros pa Hpa; by apply Hother|intros k Hk; simpl; by rewrite lookup_insert_ne|]. exists q1, x, q2. split; [done|]. split_and!; try done.
    + change (tid_of (word_at word (put_word word (Z.lor (u32 (waiter_tid x)) (if bool_decide (q1 ++ q2 = []) then 0 else FUTEX_WAITERS)) w1)) = waiter_tid x).
      by rewrite word_put, decide_True.
    + change (Z.testbit (word_at word (put_word word (Z.lor (u32 (waiter_tid x)) (if bool_decide (q1 ++ q2 = []) then 0 else FUTEX_WAITERS)) w1)) 31 = negb (bool_decide (q1 ++ q2 = []))).
      by rewrite word_put, decide_True.
    + simpl. by rewrite lookup_insert_eq.
    + intros k. simpl. apply queue_of_put.
  - assert (Eqq : queue_of key (FUTEX_TABLE w) = []) by (unfold queue_of; by rewrite Eq). rewrite Eqq. rewrite Hw1. cbn [Z.eqb]. rewrite alerts_unlock.
    split_and!; [done|intros pa Hpa; by apply (Hother pa 0)| | | |done|done].
    + intros k Hk. simpl. by rewrite lookup_delete_ne.
    + change (word_at word (put_word word 0 w1) = 0). by rewrite word_put, decide_True.
    + simpl. by rewrite lookup_delete_eq.
Qed.
End Locks.

(** ** Priorities along chains of locks *)

Section Boost.
Context {M : Type} `{FutexMem M}.
Implicit Types w : FutexWorld M.

Definition lock_owners w : gmap FutexKey Z := owner_tid <$> PI_STATES w.
Definition owner_list w : list Z := (map_to_list (lock_owners w)).*2.

Lemma owner_list_length w : length (owner_list w) = size (PI_STATES w).
Proof. unfold owner_list, lock_owners. rewrite length_fmap, length_map_to_list. apply map_size_fmap. Qed.

Lemma owner_listed key st w : PI_STATES w !! key = Some st -> owner_tid st ∈ owner_list w.
Proof.
  intros Hk. unfold owner_list, lock_owners. apply list_elem_of_fmap. exists (key, owner_tid st). split; [done|]. apply elem_of_map_to_list. by rewrite lookup_fmap, Hk.
Qed.

Lemma lock_owners_max key p st w : PI_STATES w !! key = Some st -> lock_owners (set_states (<[key := set_max p st]> (PI_STATES w)) w) = lock_owners w.
Proof. intros Hk. unfold lock_owners. simpl. rewrite fmap_insert. simpl. apply insert_id. by rewrite lookup_fmap, Hk. Qed.

Lemma propagate_spec tid : forall keys owners w, NoDup owners -> owners ⊆ owner_list w ->
  let '(w', owners') := propagate tid keys owners w in
  lock_owners w' = lock_owners w /\ user_mem w' = user_mem w /\ NoDup owners' /\ owners' ⊆ owner_list w.
Proof.
  induction keys as [|key keys IH]; intros owners w Hd Hs; [done|]. cbn [propagate]. destruct (PI_STATES w !! key) as [st|] eqn:Ek; [|by apply IH].
  set (w1 := set_states _ w). assert (E1 : lock_owners w1 = lock_owners w) by (by apply lock_owners_max).
  assert (E2 : owner_list w1 = owner_list w) by (unfold owner_list; by rewrite E1). cbv zeta. set (owners1 := if _ && _ then _ else _).
  assert (Ho : NoDup owners1 /\ owners1 ⊆ owner_list w1).
  { rewrite E2. unfold owners1. destruct (_ && _) eqn:E; [|done]. apply andb_true_iff in E as [_ E]. apply negb_true_iff, bool_decide_eq_false in E. split.
    - apply NoDup_app. split_and!; [done|intros x Hx Hy%list_elem_of_singleton; by subst|apply NoDup_singleton].
    - intros x [Hx|Hx%list_elem_of_singleton]%elem_of_app; [by apply Hs|subst; by eapply owner_listed]. }
  specialize (IH owners1 w1 (proj1 Ho) (proj2 Ho)). destruct (propagate tid keys owners1 w1) as [w' o']. destruct IH as (I1 & I2 & I3 & I4).
  split_and!; [congruence|by rewrite I2|done|by rewrite <- E2].
Qed.

Lemma boost_task_states p t w : PI_STATES (boost_task p t w) = PI_STATES w /\ user_mem (boost_task p t w) = user_mem w.
Proof. unfold boost_task, set_pi_boost_priority. repeat case_match; done. Qed.

Lemma boost_turn_spec tid visited w : let '(w', visited', up) := boost_turn tid visited w in
  lock_owners w' = lock_owners w /\ user_mem w' = user_mem w /\
  ((visited' = visited /\ up = []) \/ (tid ∉ visited /\ visited' = visited ++ [tid] /\ NoDup up /\ up ⊆ owner_list w)).
Proof.
  unfold boost_turn. destruct (_ || _) eqn:E; [split_and!; [done..|by left]|]. apply orb_false_iff in E as [_ E]. apply bool_decide_eq_false in E.
  destruct (TID2TASK w !! tid) as [t|]; [|split_and!; [done..|right; split_and!; [done..|constructor|set_solver]]].
  cbv zeta. set (w1 := boost_task _ t w). destruct (boost_task_states (boost_priority tid w) t w) as [B1 B2]. fold w1 in B1, B2.
  assert (E1 : lock_owners w1 = lock_owners w) by (unfold lock_owners; by rewrite B1).
  pose proof (propagate_spec tid (waiting_keys tid w1) [] w1 NoDup_nil_2 (list_subseteq_nil _)) as Hp. destruct (propagate _ _ _ w1) as [w2 up].
  destruct Hp as (P1 & P2 & P3 & P4). split_and!; [congruence..|]. right. split_and!; [done..|]. unfold owner_list in *. by rewrite <- E1.
Qed.

Lemma NoDup_within (l l' : list Z) : NoDup l -> l ⊆ l' -> (length l <= length l')%nat.
Proof. intros Hd Hs. apply submseteq_length. by apply NoDup_submseteq. Qed.

Lemma boost_loop_ends tid n : forall fuel pending visited w, size (PI_STATES w) = n -> NoDup visited -> visited ⊆ tid :: owner_list w -> pending ⊆ tid :: owner_list w ->
  (length pending + n * (S n - length visited) <= fuel)%nat -> (boost_loop fuel pending visited w).2 = [].
Proof.
  induction fuel as [|fuel IH]; intros pending visited w Hn Hd Hv Hp Hf.
  { destruct pending; [done|cbn [length Nat.add] in Hf; by apply Nat.nle_succ_0 in Hf]. }
  cbn [boost_loop]. destruct (last pending) as [top|] eqn:El; [|by apply last_None in El].
  apply last_Some in El as [rest ->]. rewrite removelast_last. pose proof (boost_turn_spec top visited w) as Ht. destruct (boost_turn top visited w) as [[w1 visited1] up].
  destruct Ht as (E1 & _ & Hcase). assert (Eo : owner_list w1 = owner_list w) by (unfold owner_list; by rewrite E1).
  assert (Es : size (PI_STATES w1) = n) by (rewrite <- owner_list_length, Eo, owner_list_length; done). rewrite length_app in Hf. simpl in Hf.
  assert (Hrest : rest ⊆ tid :: owner_list w1) by (rewrite Eo; intros x Hx; apply Hp; set_solver).
  destruct Hcase as [[-> ->]|(Hnv & -> & Hdu & Hu)].
  - apply IH; try done; [by rewrite Eo|by rewrite app_nil_r|]. rewrite app_nil_r. lia.
  - assert (Hd1 : NoDup (visited ++ [top])) by (apply NoDup_app; split_and!; [done|intros x Hx Hy%list_elem_of_singleton; by subst|apply NoDup_singleton]).
    assert (Hv1 : visited ++ [top] ⊆ tid :: owner_list w) by (intros x [Hx|Hx%list_elem_of_singleton]%elem_of_app; [by apply Hv|subst; apply Hp; set_solver]).
    pose proof (NoDup_within _ _ Hd1 Hv1) as Hl. pose proof (NoDup_within _ _ Hdu Hu) as Hl2. rewrite owner_list_length in Hl2. simpl in Hl. rewrite owner_list_length, length_app in Hl. simpl in Hl.
    apply IH; try done; [by rewrite Eo| |].
    + rewrite Eo in *. intros x [Hx|Hx]%elem_of_app; [by apply Hrest|]. right. by apply Hu.
    + rewrite !length_app. simpl. rewrite Hn in *.
      replace (S n - length visited)%nat with (S (S n - (length visited + 1))) in Hf by lia. rewrite Nat.mul_succ_r in Hf. lia.
Qed.

Lemma boost_loop_keeps : forall fuel pending visited w, let w' := (boost_loop fuel pending visited w).1 in
  lock_owners w' = lock_owners w /\ user_mem w' = user_mem w.
Proof.
  induction fuel as [|fuel IH]; intros pending visited w; [done|]. cbn [boost_loop]. destruct (last pending) as [top|]; [|done].
  pose proof (boost_turn_spec top visited w) as Ht. destruct (boost_turn top visited w) as [[w1 visited1] up]. destruct Ht as (E1 & E2 & _).
  destruct (IH (removelast pending ++ up) visited1 w1) as [-> ->]. done.
Qed.

(** C26: Priority inheritance ends.  Propagating a priority from a task along the
    locks that it owns and waits for visits every task at most once, so that with
    [n] PI locks at most [1 + n * (n + 1)] turns are taken until the stack is empty,
    whatever the shape of the chain of owners, cycles included; no owner of a lock
    and no user word changes. *)
Theorem pi_boost_terminates tid w :
  (boost_loop (boost_fuel w) [tid] [] w).2 = [] /\ lock_owners (apply_pi_boost tid w) = lock_owners w /\ user_mem (apply_pi_boost tid w) = user_mem w.
Proof.
  split.
  - apply (boost_loop_ends tid (size (PI_STATES w))); [done|constructor|set_solver|set_solver|]. unfold boost_fuel. simpl. lia.
  - apply boost_loop_keeps.
Qed.
End Boost.

(** ** Taking a lock *)

Section Taking.
Context {M : Type} `{FutexMem M} `{!FutexMemLaws M}.
Implicit Types w : FutexWorld M.

Lemma tid_of_u32 v : tid_of (u32 v) = tid_of v.
Proof.
  unfold tid_of, u32, wrap. change FUTEX_TID_MASK with (Z.ones 30). rewrite <- Z.land_ones, <- Z.land_assoc by lia. by change (Z.land (Z.ones 32) (Z.ones 30)) with (Z.ones 30).
Qed.

Lemma tid_of_lor a b : tid_of (Z.lor a b) = Z.lor (tid_of a) (tid_of b).
Proof. apply Z.land_lor_distr_l. Qed.

Lemma tid_of_tid tid : 0 <= tid <= FUTEX_TID_MASK -> tid_of (u32 tid) = tid.
Proof. intros Ht. rewrite tid_of_u32. unfold tid_of. change FUTEX_TID_MASK with (Z.ones 30). rewrite Z.land_ones, Z.mod_small; unfold FUTEX_TID_MASK in *; lia. Qed.

Lemma tid_of_flags v : tid_of (Z.land v (Z.lor FUTEX_OWNER_DIED FUTEX_WAITERS)) = 0.
Proof. unfold tid_of. rewrite <- Z.land_assoc. change (Z.land (Z.lor FUTEX_OWNER_DIED FUTEX_WAITERS) FUTEX_TID_MASK) with 0. apply Z.land_0_r. Qed.

Lemma post_boosts_mem : forall l w, alerts l = [] -> user_mem (post_all l w) = user_mem w.
Proof.
  induction l as [|p l IH]; intros w Hl; [done|]. destruct p as [x|tid|t]; try done. simpl. fold (post_all l (apply_pi_boost tid w)).
  rewrite IH by done. apply boost_loop_keeps.
Qed.

Lemma remove_queue_mem key t w : user_mem (remove_task_from_futex_queue key t w).1 = user_mem w.
Proof. unfold remove_task_from_futex_queue, refresh_max. repeat case_match; done. Qed.

Lemma boost_owner_mem o w : user_mem (boost_owner o w) = user_mem w.
Proof. destruct o; [apply boost_loop_keeps|done]. Qed.

(** C25: A PI lock is never stolen.  A step of FUTEX_LOCK_PI writes no word but that
    of its lock, and changes the owner in it only from nobody to the caller, in the
    section that goes on to report success; a caller that waited returns success
    only when the word names it; one that already owns the lock gets EDEADLK. *)
Theorem pi_lock_never_stolen a pc w w' r : 0 < lp_tid a <= FUTEX_TID_MASK -> lock_pi_step a pc w = (w', r) ->
  let old := word_at (lp_word a) w in let new := word_at (lp_word a) w' in
  (forall pa, pa <> lp_word a -> word_at pa w' = word_at pa w) /\
  (tid_of new = tid_of old \/ (tid_of old = 0 /\ tid_of new = lp_tid a /\ exists previous, r = Some (inl (LpAcquired previous)))) /\
  (pc = LpWait -> r = Some (inr (Ok 0)) -> tid_of new = lp_tid a) /\ (pc = LpTop -> tid_of old = lp_tid a -> r = Some (inr (Err EDEADLK))).
Proof using All.
  intros Ht Hstep old new. assert (Hu : u32 (lp_tid a) = lp_tid a) by (apply wrap_small; unfold in_u, FUTEX_TID_MASK in *; lia).
  assert (Hsame : user_mem w' = user_mem w -> pc <> LpWait -> pc <> LpTop -> (forall pa, pa <> lp_word a -> word_at pa w' = word_at pa w) /\
    (tid_of new = tid_of old \/ (tid_of old = 0 /\ tid_of new = lp_tid a /\ exists previous, r = Some (inl (LpAcquired previous)))) /\
    (pc = LpWait -> r = Some (inr (Ok 0)) -> tid_of new = lp_tid a) /\ (pc = LpTop -> tid_of old = lp_tid a -> r = Some (inr (Err EDEADLK)))).
  { intros E H1 H2. unfold new, old, word_at. rewrite E. split_and!; try done. by left. }
  destruct pc as [| |previous|observed|owner|owner|owner| |]; cbn in Hstep.
  - simplify_eq. split_and!; try done; [by left|]. intros _ Eo. unfold lock_pi_top. fold old. by rewrite Eo, Hu, Z.eqb_refl.
  - unfold lock_pi_acquire in Hstep. fold old in Hstep. destruct (tid_of old =? 0) eqn:E0; cbn in Hstep; [|simplify_eq; by apply Hsame].
    destruct (non_pi_waiter _ _); simplify_eq; [by apply Hsame|]. to_prop. split_and!; try done; [intros pa Hpa; etrans; [apply (word_put (lp_word a))|by rewrite decide_False]|].
    right. split; [done|]. split; [|by eexists]. unfold new.
    change (tid_of (word_at (lp_word a) (put_word (lp_word a) (Z.lor (Z.land old (Z.lor FUTEX_OWNER_DIED FUTEX_WAITERS)) (u32 (lp_tid a))) w)) = lp_tid a).
    rewrite word_put, decide_True, tid_of_u32, tid_of_lor, tid_of_flags, tid_of_tid by (done || lia). done.
  - simplify_eq. apply Hsame; [|done..]. apply post_boosts_mem. by rewrite alerts_app, alerts_previous.
  - destruct (_ =? observed) eqn:Eo; simplify_eq; [|by apply Hsame]. to_prop. subst observed. split_and!; try done; [intros pa Hpa; by rewrite word_put, decide_False|]. left.
    unfold new. rewrite word_put, decide_True, tid_of_u32, tid_of_lor by done. change (tid_of FUTEX_WAITERS) with 0. by rewrite Z.lor_0_r.
  - simplify_eq. by apply Hsame.
  - unfold lock_pi_enqueue in Hstep. destruct (_ || _); simplify_eq; [by apply Hsame|]. destruct (non_pi_waiter _ _); simplify_eq; by apply Hsame.
  - simplify_eq. apply Hsame; [|done..]. apply boost_loop_keeps.
  - simplify_eq. apply Hsame; [|done..]. destruct (lp_deadline a); [|done]. unfold publish_futex_deadline. by destruct (_ <? _).
  - assert (Hm : user_mem w' = user_mem w /\ (r = Some (inr (Ok 0)) -> tid_of new = lp_tid a)).
    { unfold lock_pi_wait in Hstep. destruct (flag futex_woken _ _).
      - simplify_eq. split; [done|]. unfold new. rewrite <- Hu at 2. intros Hr. by destruct (Z.eqb_spec (tid_of (word_at (lp_word a) (upd_task (with_woken false) (lp_task a) w))) (u32 (lp_tid a))).
      - destruct (_ || _); [|by simplify_eq]. pose proof (remove_queue_mem (lp_key a) (lp_task a) (upd_task (fun task => with_interrupted false (with_timed_out false task)) (lp_task a) w)) as Hq.
        destruct (remove_task_from_futex_queue _ _ _) as [w1 o]. simplify_eq. rewrite boost_owner_mem. split; [exact Hq|]. by destruct (flag futex_timed_out _ _). }
    destruct Hm as [E Hok]. unfold new, old, word_at. rewrite E. split_and!; try done; [by left|]. intros _ Hr. specialize (Hok Hr). unfold new, word_at in Hok. by rewrite E in Hok.
Qed.
End Taking.
