(* ===== verification/FutexMain.v ===== *)
(** * Futexes: the guarantees of the system

    No wakeup is lost, timeouts fire, a waiter and a waker cannot miss each
    other, PI locks change hands as they should, priority inheritance ends; and
    what the code does where it falls short of this.  A small user memory, whose
    virtual and physical addresses are equal, serves the examples. *)

From stdpp Require Import sorting.
From S2P Require Import Prelude SysErr Futex FutexSys FutexSpec FutexInv FutexStep FutexWait FutexPi.

(** ** A user memory *)

Abbreviation WordMem := (gmap Z Z).
Definition word_load (m : WordMem) (a : Z) : Z := u32 (default 0 (m !! a)).

(** The bytes from [a] on, word by word. *)
Definition word_bytes (m : WordMem) (a : Z) (n : nat) : bytes :=
  take n (concat (map (fun i => le_store 4 (word_load m (a + 4 * Z.of_nat i))) (seq 0 (n / 4 + 1)))).

#[export] Instance WordMem_mem : FutexMem WordMem := {
  pte_access _ _ a := if a =? 0 then None else Some (true, true);
  translate_va _ _ a := if a =? 0 then None else Some a;
  load_word := word_load;
  store_word a v m := <[a := v]> m;
  no_fault_slices m _ a n := if a =? 0 then Err EFAULT else Ok [word_bytes m a n];
  fault_slices m _ a n := (m, if a =? 0 then Err EFAULT else Ok [word_bytes m a n]);
  translated_timespec m _ a := Ok (word_load m a, word_load m (a + 8)) }.

#[export] Instance WordMem_laws : FutexMemLaws WordMem.
Proof.
  split; try done.
  - intros p p' v m. simpl. unfold word_load. rewrite lookup_insert. destruct (decide (p' = p)) as [->|]; [by rewrite decide_True|by rewrite decide_False].
  - intros p m. apply wrap_range. lia.
Qed.

Definition plain_task (tid prio : Z) : Task := mkTask tid 1 7 prio 0 false false usize_max false false false None.

(** Three threads of a process with the numbers 101, 102 and 103. *)
Definition demo_world (m : WordMem) (now : Z) : FutexWorld WordMem :=
  mkFW m ∅ ∅ NO_FUTEX_DEADLINE now 0 (<[1%nat := plain_task 101 0]> (<[2%nat := plain_task 102 5]> (<[3%nat := plain_task 103 9]> ∅)))
    (<[101 := 1%nat]> (<[102 := 2%nat]> (<[103 := 3%nat]> ∅))) [].
Definition demo_sys (m : WordMem) (now : Z) : Sys WordMem := mkSys (demo_world m now) [] ∅ ∅.

Lemma demo_boot m now : futex_boot (demo_sys m now).
Proof. done. Qed.

Section Guarantees.
Context {M : Type} `{FutexMem M} `{!FutexMemLaws M}.
Implicit Types (w : FutexWorld M) (s : Sys M).

(** C23: No wakeup is lost, but by one path.  However the sections of the tasks
    interleave, a task that sleeps in futex_wait, futex_waitv or FUTEX_LOCK_PI and
    whose entry no failing exchange of FUTEX_UNLOCK_PI has dropped has all its
    entries, with its deadline, in the table, so that a wake, a handover or the
    scheduler finds it; or an operation that took it out is about to tell it; or it
    has been told that it is woken, timed out or interrupted and has been made
    runnable since it last looked.  [dropped] is any set of tasks that holds the
    exceptions: when another processor changes the word between the load and the
    exchange of futex_unlock_pi, the code returns EAGAIN with the waiter already
    out of its queue, and nobody tells it ([unlock_pi_race_drops_waiter]). *)
Theorem futex_no_lost_wakeup dropped s t n : freach dropped s -> ~ dropped t -> sleeping s !! t = Some n -> exists c, calls s !! t = Some c /\
  ((forall i, i ∈ call_indices c -> in_table t i (call_deadline c) (world s)) \/ t ∈ alerts (posts s) \/
   (told t (world s) = true /\ EvWake t ∈ drop n (sched_log (world s)))).
Proof.
  intros Hr Hd Hs. apply reach_inv in Hr as I. destruct (fi_sleep s I t n Hs) as ((c & Hc & Hw) & _ & Ht). exists c. split; [done|].
  destruct (told t (world s)) eqn:E; [right; right; auto|]. destruct (decide (t ∈ alerts (posts s))); [by right; left|].
  left. intros i Hi. destruct (fi_queued s I t c i Hd Hc (waiting_queued c Hw) Hi) as [?|[?|?]]; [done|congruence|done].
Qed.

(** Timeouts fire.  In a reachable state, when the scheduler looks at the
    table at a time at which the deadline of a sleeping task has passed, it does
    not overlook it: the task is told that its time is over and made runnable, no
    entry whose deadline has passed stays, the published deadline is not later than
    any entry that stays, and entries of tasks that are not due are kept. *)
Theorem futex_timeouts_fire dropped s t n x d : freach dropped s -> sleeping s !! t = Some n -> x ∈ waiters_of (FUTEX_TABLE (world s)) -> w_task x = t ->
  deadline_ns x = Some d -> d <= monotonic_now_ns (world s) -> let w := world s in let w' := check_futex_timeouts w in
  flag futex_timed_out t w' = true /\ flag futex_woken t w' = false /\ EvWake t ∈ drop (length (sched_log w)) (sched_log w') /\
  (forall y e, y ∈ waiters_of (FUTEX_TABLE w') -> deadline_ns y = Some e -> monotonic_now_ns w < e /\ NEXT_FUTEX_DEADLINE_NS w' <= e) /\
  (forall y, y ∈ waiters_of (FUTEX_TABLE w) -> (forall z, z ∈ waiters_of (FUTEX_TABLE w) -> w_task z = w_task y -> due (monotonic_now_ns w) z = false) ->
    exists z, z ∈ waiters_of (FUTEX_TABLE w') /\ sig z = sig y).
Proof.
  intros Hr Hs Hx Et Ed Hd w w'. apply reach_inv in Hr as I. destruct (fi_sleep s I t n Hs) as ((c & Hc & Hw) & _ & _).
  destruct (fi_call s I t c Hc) as [_ Htask]. fold w in Hx, Hd, Htask.
  assert (Hn : NEXT_FUTEX_DEADLINE_NS w <= d) by (apply (own_deadline s t c x d I Hc); [by intros _|done..]).
  assert (Hmax : monotonic_now_ns w <= NO_FUTEX_DEADLINE - 1) by (unfold monotonic_now_ns; lia).
  assert (Ew : w' = timeout_loop (S (length (waiters_of (FUTEX_TABLE w)))) (monotonic_now_ns w) w).
  { unfold w', check_futex_timeouts. rewrite (proj2 (Z.eqb_neq _ _)), (proj2 (Z.ltb_ge _ _)) by lia. done. }
  destruct (timeout_loop_spec (monotonic_now_ns w) (S (length (waiters_of (FUTEX_TABLE w)))) w) as (gone & G1 & G2 & G3 & G4 & G5 & suf & G6 & G7); [lia|].
  rewrite <- Ew in *. assert (Hg : t ∈ gone).
  { destruct (decide (t ∈ gone)) as [|Hg]; [done|]. exfalso. destruct (G2 x Hx) as (y & Hy & Ey); [by rewrite Et|]. apply sig_fields in Ey as (_ & _ & Edy & _).
    destruct (G3 y Hy d) as [? _]; [congruence|]. lia. }
  destruct (G5 t) as [-> ->]. rewrite !decide_True by done. rewrite bool_decide_eq_true_2 by done. rewrite G6, drop_app_length. split_and!; try done.
  - by apply G7.
  - intros y e Hy. by apply G3.
  - intros y Hy Hz. apply G2; [done|]. intros Hin. destruct (G1 _ Hin) as (z & Hzz & Ez & Hdz). rewrite (Hz z Hzz Ez) in Hdz. done.
Qed.

(** ** Waiting and waking *)

Lemma select_last bits q x n : matches bits x = true -> (length (List.filter (matches bits) q) < n)%nat -> x ∈ (select n bits (q ++ [x])).1.
Proof.
  intros Hx Hn. destruct (select_spec bits (q ++ [x]) n) as (q1 & q2 & E & -> & Hl). simpl. apply filter_in. split; [|done].
  destruct (decide (q2 = [])) as [->|Hq2]; [rewrite app_nil_r in E; subst; set_solver|]. exfalso.
  destruct (exists_last Hq2) as (q2' & y & ->). rewrite app_assoc in E. apply app_inj_tail in E as [E _]. destruct Hl as [Hl|[? _]]; [|done].
  rewrite E, List.filter_app, length_app in Hn. lia.
Qed.

Lemma make_key_put pid token uaddr priv pa v w : make_key pid token uaddr priv (put_word pa v w) = make_key pid token uaddr priv w.
Proof. unfold make_key. simpl. by rewrite va_store. Qed.

(** C24: A waiter and a waker cannot miss each other.  A program that waits while a
    word has the value [wt_val], against one that stores another value and then
    wakes: if the store comes first, futex_wait does not sleep but returns EAGAIN
    (EINVAL at a PI lock) and nothing changes; if the waiter is queued first, a wake
    whose bits match and whose count reaches it after the store tells the task and
    makes it runnable. *)
Theorem futex_wait_wake_race a pa wr v pid token uaddr n bits priv w :
  pte_access (user_mem w) (wt_token a) (wt_uaddr a) = Some (true, wr) -> translate_va (user_mem w) (wt_token a) (wt_uaddr a) = Some pa ->
  u32 v <> wt_val a -> is_Some (tasks w !! wt_task a) -> Z.land uaddr 3 = 0 -> make_key pid token uaddr priv w = Ok (wt_key a) ->
  Z.land (wt_bitset a) bits <> 0 -> Z.of_nat (length (List.filter (matches bits) (queue_of (wt_key a) (FUTEX_TABLE w)))) < n ->
  (exists e, wait_enqueue a (put_word pa v w) = (put_word pa v w, inr (Err e)) /\ (e = EAGAIN \/ e = EINVAL)) /\
  match wait_enqueue a w with
  | (w1, inr r) => w1 = w /\ exists e, r = Err e
  | (w1, inl pc) => pc = WtPublish /\ exists w2 k, futex_wake pid token uaddr n bits priv (put_word pa v w1) = (w2, Ok k) /\ 1 <= k /\
      flag futex_woken (wt_task a) w2 = true /\ EvWake (wt_task a) ∈ drop (length (sched_log w)) (sched_log w2)
  end.
Proof using All.
  intros Hpte Hva Hv [task Htask] Hal Hkey Hbits Hn. split.
  - unfold wait_enqueue. destruct (_ || _); [eauto|]. unfold read_user_u32_mapped. simpl. rewrite pte_store, va_store, Hpte, Hva. simpl.
    rewrite load_store, decide_True by done. rewrite (proj2 (Z.eqb_neq _ _)) by done. simpl. eauto.
  - unfold wait_enqueue. destruct (_ || _) eqn:Epi; [eauto|]. apply orb_false_iff in Epi as [Epi _]. destruct (read_user_u32_mapped _ _ w) as [current|e]; [|eauto].
    destruct (negb _); [eauto|]. destruct (expired _ w); [eauto|]. split; [done|].
    set (x := mkWaiter _ _ _ _ _ _ _ _). set (w1 := put_word pa v _).
    assert (Eq : queue_of (wt_key a) (FUTEX_TABLE w1) = queue_of (wt_key a) (FUTEX_TABLE w) ++ [x]) by (unfold w1; simpl; rewrite queue_of_enqueue, decide_True; done).
    pose proof (select_last bits (queue_of (wt_key a) (FUTEX_TABLE w)) x (Z.to_nat n)) as Hsel. rewrite <- Eq in Hsel.
    unfold futex_wake, futex_wake_section. rewrite (proj2 (Z.eqb_neq bits 0)) by (intros ->; by rewrite Z.land_0_r in Hbits). rewrite valid_addr, Hal. cbn [Z.eqb rbind].
    unfold w1. rewrite make_key_put. change (make_key pid token uaddr priv (set_table _ w)) with (make_key pid token uaddr priv w). rewrite Hkey. fold w1.
    change (PI_STATES w1) with (PI_STATES w). rewrite Epi. destruct (wake_locked_spec (wt_key a) (Z.to_nat n) bits w1) as [chosen Hw].
    destruct (select _ _ _) as [wake rest]. destruct (wake_locked _ _ _ w1) as [w2 sel]. destruct Hw as [-> [Ws _ Wa _ _ Wr]]. simpl.
    assert (Hin : w_task x ∈ w_task <$> chosen).
    { destruct (Wa x) as [Hx|Hx]; [apply Hsel; [by apply negb_true_iff, Z.eqb_neq|lia]|apply list_elem_of_fmap; by exists x|].
      apply list_elem_of_fmap in Hx as (y & Ey & Hy). apply filter_in in Hy as [Hy _]. apply list_elem_of_fmap. by exists y. }
    eexists _, _. split; [done|]. destruct Wr as [_ _ _ _ _ _ WL WT]. simpl in WL, WT. split_and!.
    + destruct chosen; [set_solver|]. simpl. lia.
    + unfold flag. rewrite (WT (wt_task a)), decide_True by done. by rewrite Htask.
    + rewrite WL, drop_app_length. apply list_elem_of_fmap. by exists (wt_task a).
Qed.
End Guarantees.

(** ** Deadlines *)

Section Deadlines.
Context {M : Type} `{FutexMem M}.
Implicit Types w : FutexWorld M.

(** Deadlines.  For a valid time the deadline is the clock plus the time
    (relative), the time itself (absolute, monotonic), or the clock plus what is
    left until the time (absolute, real time; nothing when it is past), exactly; only
    a deadline beyond the 64-bit clock is lowered, and it stays below the mark for
    "no deadline", so that no timed wait becomes an endless one.  No pointer means no
    deadline, a negative or too large number of nanoseconds is EINVAL. *)
Theorem futex_deadline_exact token timeout mode sec nsec w : 0 <= clock w < 2 ^ 64 -> 0 <= realtime w < 2 ^ 127 -> - 2 ^ 63 <= sec < 2 ^ 63 ->
  translated_timespec (user_mem w) token timeout = Ok (sec, nsec) ->
  parse_futex_deadline token timeout mode w =
    if timeout =? 0 then Ok None
    else if (0 <=? sec) && (0 <=? nsec) && (nsec <? 1000000000)
    then Ok (Some (Z.min (match mode with
      | Relative => clock w + (sec * 1000000000 + nsec)
      | AbsoluteMonotonic => sec * 1000000000 + nsec
      | AbsoluteRealtime => clock w + Z.max (sec * 1000000000 + nsec - realtime w) 0 end) (NO_FUTEX_DEADLINE - 1)))
    else Err EINVAL.
Proof.
  intros Hc Hr Hs Ht. unfold parse_futex_deadline. destruct (timeout =? 0); [done|]. rewrite Ht. cbn [rbind].
  rewrite (Z.leb_antisym sec 0), (Z.leb_antisym nsec 0). destruct (sec <? 0) eqn:E1, (nsec <? 0) eqn:E2; cbn [negb andb orb]; try done.
  rewrite (Z.ltb_antisym 1000000000 nsec). destruct (1000000000 <=? nsec) eqn:E3; cbn [negb]; [done|]. to_prop.
  change (2 ^ 63) with 9223372036854775808 in *. change (2 ^ 64) with 18446744073709551616 in *. change (2 ^ 127) with 170141183460469231731687303715884105728 in *. unfold saturating_add128.
  change (2 ^ 128) with 340282366920938463463374607431768211456. repeat f_equal. rewrite (Z.min_l (sec * _)) by lia. destruct mode; lia.
Qed.
End Deadlines.

(** ** A task asleep *)

Definition demo_mem : WordMem := <[1000 := 0]> (<[2000 := 0]> (<[3000 := 0]> (<[3008 := 500]> ∅))).

(** Thread 101 waits for the word at 1000 to change from 0, for at most 500 ns. *)
Definition demo_wait : Wait := mkWait 1 101 7 1000 0 FUTEX_BITSET_MATCH_ANY (Private 1 1000) (Some 510) None.

Definition demo_asleep : Sys WordMem :=
  let w := demo_world demo_mem 10 in
  let w := (wait_step demo_wait WtReset w).1 in
  let w := (wait_step demo_wait WtEnqueue w).1 in
  let w := (wait_step demo_wait WtPublish w).1 in
  mkSys w [] (<[1%nat := CWait demo_wait WtWait]> ∅) (<[1%nat := 0%nat]> ∅).

Lemma insert_twice (c c' : Call) : <[1%nat := c']> (<[1%nat := c]> (∅ : gmap TaskId Call)) = <[1%nat := c']> ∅.
Proof. apply insert_insert_eq. Qed.

Lemma demo_asleep_reach dropped : freach dropped demo_asleep.
Proof.
  exists (demo_sys demo_mem 10). split; [apply demo_boot|].
  eapply rtc_l; [eapply (fs_begin _ _ 1 (plain_task 101 0) (CWait demo_wait WtReset)); [done|done|apply (begin_wait _ _ _ 1000 0 3000 FUTEX_BITSET_MATCH_ANY true Relative None); vm_compute; reflexivity]|].
  eapply rtc_l; [eapply (fs_run _ _ 1); [done|done|reflexivity]|]. cbn [calls posts world sleeping]. rewrite insert_twice.
  eapply rtc_l; [eapply (fs_run _ _ 1); [done|done|reflexivity]|]. cbn [calls posts world sleeping]. rewrite insert_twice.
  eapply rtc_l; [eapply (fs_run _ _ 1); [done|done|reflexivity]|]. cbn [calls posts world sleeping]. rewrite insert_twice.
  eapply rtc_l; [eapply (fs_sleep _ _ 1); [done|done|reflexivity]|]. apply rtc_refl.
Qed.

(** Every other task may be dropped. *)
Lemma futex_no_lost_wakeup_witness : exists c, calls demo_asleep !! 1%nat = Some c /\
  ((forall i, i ∈ call_indices c -> in_table 1 i (call_deadline c) (world demo_asleep)) \/ 1%nat ∈ alerts (posts demo_asleep) \/
   (told 1 (world demo_asleep) = true /\ EvWake 1 ∈ drop 0 (sched_log (world demo_asleep)))).
Proof. apply (futex_no_lost_wakeup (fun t => t <> 1%nat) demo_asleep 1 0); [apply demo_asleep_reach|intros Hn; by apply Hn|reflexivity]. Defined.

(** The same state after its deadline. *)
Definition demo_late : Sys WordMem :=
  let w := world demo_asleep in
  mkSys (mkFW (user_mem w) (FUTEX_TABLE w) (PI_STATES w) (NEXT_FUTEX_DEADLINE_NS w) 600 0 (tasks w) (TID2TASK w) (sched_log w)) [] (calls demo_asleep) (sleeping demo_asleep).
Definition demo_entry : FutexWaiter := mkWaiter 1 101 10 FUTEX_BITSET_MATCH_ANY (Some 510) usize_max false None.

Lemma demo_late_reach dropped : freach dropped demo_late.
Proof.
  destruct (demo_asleep_reach dropped) as (s0 & Hb & Hr). exists s0. split; [done|]. eapply rtc_r; [exact Hr|].
  apply (fs_section _ demo_asleep (world demo_late) []). apply sec_clock. by vm_compute.
Qed.

Lemma futex_timeouts_fire_witness : let w := world demo_late in let w' := check_futex_timeouts w in
  flag futex_timed_out 1 w' = true /\ flag futex_woken 1 w' = false /\ EvWake 1 ∈ drop (length (sched_log w)) (sched_log w') /\
  (forall y e, y ∈ waiters_of (FUTEX_TABLE w') -> deadline_ns y = Some e -> monotonic_now_ns w < e /\ NEXT_FUTEX_DEADLINE_NS w' <= e) /\
  (forall y, y ∈ waiters_of (FUTEX_TABLE w) -> (forall z, z ∈ waiters_of (FUTEX_TABLE w) -> w_task z = w_task y -> due (monotonic_now_ns w) z = false) ->
    exists z, z ∈ waiters_of (FUTEX_TABLE w') /\ sig z = sig y).
Proof.
  apply (futex_timeouts_fire (fun _ => True) demo_late 1 0 demo_entry 510); [apply demo_late_reach|reflexivity| |reflexivity|reflexivity|by vm_compute].
  change (waiters_of (FUTEX_TABLE (world demo_late))) with [demo_entry]. left.
Defined.

Lemma futex_deadline_exact_witness : let w := demo_world demo_mem 10 in parse_futex_deadline 7 3000 Relative w =
    if 3000 =? 0 then Ok None else if (0 <=? 0) && (0 <=? 500) && (500 <? 1000000000)
    then Ok (Some (Z.min (clock w + (0 * 1000000000 + 500)) (NO_FUTEX_DEADLINE - 1))) else Err EINVAL.
Proof. apply (futex_deadline_exact 7 3000 Relative 0 500 (demo_world demo_mem 10)); [by vm_compute..|reflexivity]. Defined.

Lemma futex_wait_wake_race_witness : (exists e, wait_enqueue demo_wait (put_word 1000 1 (demo_world demo_mem 10)) = (put_word 1000 1 (demo_world demo_mem 10), inr (Err e)) /\ (e = EAGAIN \/ e = EINVAL)) /\
  match wait_enqueue demo_wait (demo_world demo_mem 10) with
  | (w1, inr r) => w1 = demo_world demo_mem 10 /\ exists e, r = Err e
  | (w1, inl pc) => pc = WtPublish /\ exists w2 k, futex_wake 1 7 1000 1 FUTEX_BITSET_MATCH_ANY true (put_word 1000 1 w1) = (w2, Ok k) /\ 1 <= k /\
      flag futex_woken (wt_task demo_wait) w2 = true /\ EvWake (wt_task demo_wait) ∈ drop (length (sched_log (demo_world demo_mem 10))) (sched_log w2)
  end.
Proof.
  apply (futex_wait_wake_race demo_wait 1000 true 1 1 7 1000 1 FUTEX_BITSET_MATCH_ANY true (demo_world demo_mem 10)); try reflexivity; [by vm_compute|eexists; reflexivity|by vm_compute].
Defined.

(** ** A table with waiters *)

Definition demo_waiter (t : TaskId) (tid : Z) (pi : bool) : FutexWaiter := mkWaiter t tid 0 FUTEX_BITSET_MATCH_ANY None usize_max pi None.

(** Threads 101, 102 and 103 wait at 1000. *)
Definition demo_queue (pi : bool) (word : Z) : FutexWorld WordMem :=
  set_table (<[Private 1 1000 := [demo_waiter 1 101 pi; demo_waiter 2 102 pi; demo_waiter 3 103 pi]]> ∅) (demo_world (<[1000 := word]> demo_mem) 10).

Lemma futex_wake_exact_witness : let w := demo_queue false 0 in let key := Private 1 1000 in
  if (FUTEX_BITSET_MATCH_ANY =? 0) || bool_decide (is_Some (PI_STATES w !! key)) then futex_wake 1 7 1000 2 FUTEX_BITSET_MATCH_ANY true w = (w, Err EINVAL)
  else exists q1 q2 chosen w', queue_of key (FUTEX_TABLE w) = q1 ++ q2 /\
    (let wake := List.filter (matches FUTEX_BITSET_MATCH_ANY) q1 in
     futex_wake 1 7 1000 2 FUTEX_BITSET_MATCH_ANY true w = (w', Ok (Z.of_nat (length chosen))) /\
     (length wake = Z.to_nat 2 \/ (q2 = [] /\ (length wake <= Z.to_nat 2)%nat)) /\
     woken_of wake (fun k => if decide (k = key) then List.filter (fun x => negb (matches FUTEX_BITSET_MATCH_ANY x)) q1 ++ q2 else queue_of k (FUTEX_TABLE w)) w w' chosen).
Proof. apply (futex_wake_exact 1 7 1000 2 FUTEX_BITSET_MATCH_ANY true (Private 1 1000) (demo_queue false 0)); reflexivity. Defined.

Lemma futex_requeue_exact_witness : let w := demo_queue false 0 in let key1 := Private 1 1000 in let key2 := Private 1 2000 in
  if negb (plain_keys key1 key2 w) then futex_requeue 1 7 1000 1 1 2000 (Some 0) true w = (w, Err EINVAL)
  else match read_user_u32_mapped 7 1000 w with
  | Err e => futex_requeue 1 7 1000 1 1 2000 (Some 0) true w = (w, Err e)
  | Ok v =>
      if negb (v =? 0) then futex_requeue 1 7 1000 1 1 2000 (Some 0) true w = (w, Err EAGAIN)
      else
        let q := queue_of key1 (FUTEX_TABLE w) in
        let rest := drop (Z.to_nat 1) q in
        exists chosen w', futex_requeue 1 7 1000 1 1 2000 (Some 0) true w = (w', Ok (Z.of_nat (length chosen))) /\
          woken_of (take (Z.to_nat 1) q) (fun k => (if decide (k = key1) then drop (Z.to_nat 1) rest else queue_of k (FUTEX_TABLE w)) ++
            (if decide (k = key2) then take (Z.to_nat 1) rest else [])) w w' chosen
  end.
Proof. apply (futex_requeue_exact 1 7 1000 1 1 2000 (Some 0) true (Private 1 1000) (Private 1 2000) (demo_queue false 0)); reflexivity. Defined.

(** Add 3 to the word at 2000; wake there when it was 0. *)
Lemma futex_wake_op_exact_witness : let w := demo_queue false 0 in let call := futex_wake_op 1 7 1000 1 1 2000 (encode_wake_op 1 3 0 0) true w in
  if (8 <=? 1) && negb ((0 <=? 3) && (3 <? 32)) then call = (w, Err EINVAL)
  else if 4 <? 1 mod 8 then call = (w, Err ENOSYS)
  else
    let arg := if 8 <=? 1 then signed 32 (2 ^ 3) else 3 in
    let old := word_at 2000 w in
    let w1 := put_word 2000 (spec_op (1 mod 8) arg old) w in
    let q1 := queue_of (Private 1 1000) (FUTEX_TABLE w) in
    let base k := if decide (k = Private 1 1000) then drop (Z.to_nat 1) q1 else queue_of k (FUTEX_TABLE w) in
    let second := if apply_cmp 0 0 old then take (Z.to_nat 1) (base (Private 1 2000)) else [] in
    exists chosen w', call = (w', Ok (Z.of_nat (length chosen))) /\
      woken_of (take (Z.to_nat 1) q1 ++ second) (fun k => if decide (k = Private 1 2000) then drop (length second) (base (Private 1 2000)) else base k) w1 w' chosen.
Proof.
  apply (futex_wake_op_exact 1 7 1000 1 1 2000 1 3 0 0 true (Private 1 1000) (Private 1 2000) 2000 (demo_queue false 0)); try reflexivity; by vm_compute.
Defined.

Lemma futex_unlock_pi_exact_witness : let w := demo_queue true 104 in
  let '(w', posts, r) := futex_unlock_pi_section (fun v => v) 1 7 104 1000 true w in
  if negb (tid_of (word_at 1000 w) =? u32 104) then w' = w /\ posts = [] /\ r = Err EPERM
  else r = Ok 0 /\ (forall pa, pa <> 1000 -> word_at pa w' = word_at pa w) /\ (forall k, k <> Private 1 1000 -> PI_STATES w' !! k = PI_STATES w !! k) /\
    match queue_of (Private 1 1000) (FUTEX_TABLE w) with
    | [] => word_at 1000 w' = 0 /\ PI_STATES w' !! Private 1 1000 = None /\ (forall k, queue_of k (FUTEX_TABLE w') = queue_of k (FUTEX_TABLE w)) /\ alerts posts = []
    | queue => exists q1 x q2, queue = q1 ++ x :: q2 /\ (forall y, y ∈ q1 -> prio w y <= prio w x) /\ (forall y, y ∈ q2 -> prio w y < prio w x) /\
        tid_of (word_at 1000 w') = waiter_tid x /\ (Z.testbit (word_at 1000 w') 31 = negb (bool_decide (q1 ++ q2 = []))) /\
        owner_tid <$> PI_STATES w' !! Private 1 1000 = Some (waiter_tid x) /\
        (forall k, queue_of k (FUTEX_TABLE w') = if decide (k = Private 1 1000) then q1 ++ q2 else queue_of k (FUTEX_TABLE w)) /\ alerts posts = [w_task x]
    end.
Proof.
  apply (futex_unlock_pi_exact 1 7 104 1000 true (Private 1 1000) 1000 (demo_queue true 104)); try reflexivity.
  change (queue_of (Private 1 1000) (FUTEX_TABLE (demo_queue true 104))) with [demo_waiter 1 101 true; demo_waiter 2 102 true; demo_waiter 3 103 true].
  intros x Hx. repeat (apply elem_of_cons in Hx as [->|Hx]; [by vm_compute|]). set_solver.
Defined.

Definition demo_lock : LockPi := mkLockPi 1 101 (Private 1 1000) 1000 None false.

Lemma pi_lock_never_stolen_witness : let w := demo_world demo_mem 10 in let w' := (lock_pi_step demo_lock LpAcquire w).1 in
  let r := (lock_pi_step demo_lock LpAcquire w).2 in let old := word_at (lp_word demo_lock) w in let new := word_at (lp_word demo_lock) w' in
  (forall pa, pa <> lp_word demo_lock -> word_at pa w' = word_at pa w) /\
  (tid_of new = tid_of old \/ (tid_of old = 0 /\ tid_of new = lp_tid demo_lock /\ exists previous, r = Some (inl (LpAcquired previous)))) /\
  (LpAcquire = LpWait -> r = Some (inr (Ok 0)) -> tid_of new = lp_tid demo_lock) /\ (LpAcquire = LpTop -> tid_of old = lp_tid demo_lock -> r = Some (inr (Err EDEADLK))).
Proof. apply (pi_lock_never_stolen demo_lock LpAcquire (demo_world demo_mem 10)); [by vm_compute|apply surjective_pairing]. Defined.

(** ** Where the code falls short *)

(** An executable schedule of the system. *)
Inductive Act :=
| ActWait (t : TaskId) (uaddr val timeout : Z)
| ActLock (t : TaskId) (uaddr : Z)
| ActRun (t : TaskId)
| ActResume (t : TaskId)
| ActWake (pid token uaddr n : Z)
| ActStore (pa v : Z)
| ActPost
| ActSignal (t : TaskId).

Section Schedule.
Context {M : Type} `{FutexMem M}.

Definition act (s : Sys M) (a : Act) : option (Sys M) :=
  match a with
  | ActWait t uaddr val timeout =>
      match calls s !! t, tasks (world s) !! t with
      | None, Some task =>
          match wait_prepare t (t_pid task) (t_token task) (global_tid task) uaddr val timeout FUTEX_BITSET_MATCH_ANY true Relative None (world s) with
          | Ok c => Some (mkSys (world s) (posts s) (<[t := CWait c WtReset]> (calls s)) (sleeping s))
          | Err _ => None
          end
      | _, _ => None
      end
  | ActLock t uaddr =>
      match calls s !! t, tasks (world s) !! t with
      | None, Some task =>
          match lock_pi_prepare t (t_pid task) (t_token task) (global_tid task) uaddr 0 true false false (world s) with
          | Ok c => Some (mkSys (world s) (posts s) (<[t := CLock c LpTop]> (calls s)) (sleeping s))
          | Err _ => None
          end
      | _, _ => None
      end
  | ActRun t =>
      match calls s !! t, sleeping s !! t with
      | Some c, None => Some match call_step c (world s) with
          | (w, Some (inl c')) => mkSys w (posts s) (<[t := c']> (calls s)) (sleeping s)
          | (w, Some (inr _)) => mkSys w (posts s) (delete t (calls s)) (sleeping s)
          | (w, None) => mkSys w (posts s) (calls s) (<[t := length (sched_log w)]> (sleeping s))
          end
      | _, _ => None
      end
  | ActResume t => Some (mkSys (world s) (posts s) (calls s) (delete t (sleeping s)))
  | ActWake pid token uaddr n =>
      let '(w, l, _) := futex_wake_section pid token uaddr n FUTEX_BITSET_MATCH_ANY true (world s) in
      Some (mkSys w (posts s ++ (PostWake <$> l)) (calls s) (sleeping s))
  | ActStore pa v => Some (mkSys (put_word pa v (world s)) (posts s ++ []) (calls s) (sleeping s))
  | ActPost => match posts s with [] => None | p :: l => Some (mkSys (post (world s) p) l (calls s) (sleeping s)) end
  | ActSignal t => Some (set_world (signal_task t (world s)) s)
  end.

Fixpoint schedule (l : list Act) (s : Sys M) : option (Sys M) :=
  match l with [] => Some s | a :: l => match act s a with Some s => schedule l s | None => None end end.

Lemma act_step dropped s a s' : act s a = Some s' -> fstep dropped s s'.
Proof.
  destruct a as [t uaddr val timeout|t uaddr|t|t|pid token uaddr n|pa v| |t]; cbn [act]; intros E.
  - destruct (calls s !! t) eqn:Hc; [done|]. destruct (tasks (world s) !! t) as [task|] eqn:Ht; [|done]. destruct (wait_prepare _ _ _ _ _ _ _ _ _ _ _ _) as [c|] eqn:Ep; simplify_eq.
    eapply fs_begin; [done..|]. by eapply begin_wait.
  - destruct (calls s !! t) eqn:Hc; [done|]. destruct (tasks (world s) !! t) as [task|] eqn:Ht; [|done]. destruct (lock_pi_prepare _ _ _ _ _ _ _ _ _ _) as [c|] eqn:Ep; simplify_eq.
    eapply fs_begin; [done..|]. by eapply begin_lock.
  - destruct (calls s !! t) as [c|] eqn:Hc; [|done]. destruct (sleeping s !! t) eqn:Hs; [done|]. destruct (call_step c (world s)) as [w [[c'|r]|]] eqn:Ec; simplify_eq.
    + by eapply fs_run.
    + by eapply fs_return.
    + by eapply fs_sleep.
  - simplify_eq. apply fs_resume.
  - destruct (futex_wake_section _ _ _ _ _ _ _) as [[w l] r] eqn:Ew. simplify_eq. eapply fs_section. by eapply sec_wake.
  - simplify_eq. eapply fs_section, sec_store.
  - destruct (posts s) as [|p l] eqn:Ep; [done|]. simplify_eq. by apply (fs_post _ s [] p l).
  - simplify_eq. apply fs_signal.
Qed.

Lemma schedule_steps dropped : forall l s s', schedule l s = Some s' -> rtc (fstep dropped) s s'.
Proof.
  induction l as [|a l IH]; intros s s' E; simpl in E; [by simplify_eq|]. destruct (act s a) as [s1|] eqn:Ea; [|done].
  eapply rtc_l; [by eapply act_step|by apply IH].
Qed.

Lemma schedule_reach dropped l s0 s : futex_boot s0 -> schedule l s0 = Some s -> freach dropped s.
Proof. intros Hb E. exists s0. split; [done|by eapply schedule_steps]. Qed.
End Schedule.

(** A waiter is told after the table's lock is released.  Meanwhile the task may
    have returned because of a signal and wait anew; the late wake ends the new wait
    and its entry stays behind.  A later wake of one task is spent on this entry, and
    the task that does wait sleeps on. *)
Lemma delayed_wake_strands_waiter : exists s : Sys WordMem, freach (fun _ => False) s /\ calls s !! 1%nat = None /\ sleeping s !! 2%nat = Some 2%nat /\
  let '(w', r) := futex_wake 1 7 1000 1 FUTEX_BITSET_MATCH_ANY true (world s) in r = Ok 1 /\ told 2 w' = false /\ EvWake 2 ∉ sched_log w'.
Proof.
  eexists. split; [apply (schedule_reach _ ([ActWait 1 1000 0 3000] ++ replicate 4 (ActRun 1) ++ [ActWake 1 7 1000 1; ActSignal 1; ActResume 1; ActRun 1;
    ActWait 1 1000 0 0] ++ replicate 3 (ActRun 1) ++ [ActPost; ActRun 1; ActWait 2 1000 0 0] ++ replicate 4 (ActRun 2)) (demo_sys demo_mem 10));
    [apply demo_boot|vm_compute; reflexivity]|].
  vm_compute. split_and!; try reflexivity. intros Hin. repeat (apply elem_of_cons in Hin as [[=]|Hin]). by apply elem_of_nil in Hin.
Qed.

(** The section of FUTEX_LOCK_PI that queues compares the owner again, but not
    FUTEX_WAITERS: an owner that unlocks and locks in user space meanwhile leaves a
    waiter behind a word without the mark, and a user-space unlock never enters the
    kernel. *)
Lemma pi_waiter_without_mark : exists s : Sys WordMem, freach (fun _ => False) s /\ sleeping s !! 2%nat = Some 0%nat /\ calls s !! 2%nat = Some (CLock (mkLockPi 2 102 (Private 1 1000) 1000 None false) LpWait) /\
  word_at 1000 (world s) = 101 /\ in_table 2 usize_max None (world s).
Proof.
  eexists. split; [apply (schedule_reach _ ([ActStore 1000 101; ActLock 2 1000; ActRun 2; ActRun 2; ActStore 1000 0; ActStore 1000 101] ++ replicate 5 (ActRun 2)) (demo_sys demo_mem 10));
    [apply demo_boot|vm_compute; reflexivity]|].
  split; [reflexivity|]. split; [reflexivity|]. split; [reflexivity|]. exists (mkWaiter 2 102 10 FUTEX_BITSET_MATCH_ANY None usize_max true None). split; [vm_compute; left|by vm_compute].
Qed.

(** Thread 102 waits for the lock of thread 101, whose word has no mark, as above.
    Thread 101 unlocks, and between the load and the exchange another processor
    sets the mark: FUTEX_UNLOCK_PI returns EAGAIN, the lock keeps its owner, and the
    waiter is gone from the table without having been told or made runnable. *)
Lemma unlock_pi_race_drops_waiter : exists s : Sys WordMem, freach (fun _ => True) s /\ sleeping s !! 2%nat = Some 0%nat /\
  calls s !! 2%nat = Some (CLock (mkLockPi 2 102 (Private 1 1000) 1000 None false) LpWait) /\
  posts s = [] /\ waiters_of (FUTEX_TABLE (world s)) = [] /\ told 2 (world s) = false /\ sched_log (world s) = [] /\ tid_of (word_at 1000 (world s)) = 101.
Proof.
  set (l := [ActStore 1000 101; ActLock 2 1000; ActRun 2; ActRun 2; ActStore 1000 0; ActStore 1000 101] ++ replicate 5 (ActRun 2)).
  set (s1 := default (demo_sys demo_mem 10) (schedule l (demo_sys demo_mem 10))).
  assert (Hr : freach (fun _ => True) s1) by (apply (schedule_reach _ l (demo_sys demo_mem 10)); [apply demo_boot|vm_compute; reflexivity]).
  set (res := futex_unlock_pi_section (fun v => Z.lor v FUTEX_WAITERS) 1 7 101 1000 true (world s1)).
  exists (mkSys res.1.1 (posts s1 ++ res.1.2) (calls s1) (sleeping s1)). split.
  - destruct Hr as (s0 & Hb & Hr). exists s0. split; [done|]. eapply rtc_r; [exact Hr|]. apply fs_section. unfold res.
    apply (sec_unlock _ _ (fun v => Z.lor v FUTEX_WAITERS) 1 7 101 1000 true _ _ res.2); [unfold res; by destruct (futex_unlock_pi_section _ _ _ _ _ _ _) as [[? ?] ?]|done].
  - by vm_compute.
Qed.

(** FUTEX_LOCK_PI does not look at the flag that exit_group sets: a thread that
    waits for a PI lock when its process ends goes on waiting. *)
Lemma lock_pi_ignores_exit {M : Type} `{FutexMem M} a (w : FutexWorld M) : told (lp_task a) w = false ->
  lock_pi_step a LpWait (exit_group_task (lp_task a) w) = (exit_group_task (lp_task a) w, None).
Proof.
  intros Ht. assert (Hf : forall g, (forall task, g (set_zombie task) = g task) -> flag g (lp_task a) (exit_group_task (lp_task a) w) = flag g (lp_task a) w).
  { intros g Hg. change (flag g (lp_task a) (upd_task set_zombie (lp_task a) w) = flag g (lp_task a) w). rewrite flag_upd, decide_True by done. unfold flag. by destruct (tasks w !! lp_task a). }
  unfold told in Ht. apply orb_false_iff in Ht as [[H1 H2]%orb_false_iff H3]. simpl. unfold lock_pi_wait.
  rewrite !Hf by done. by rewrite H1, H2, H3.
Qed.

(** One task may wait with FUTEX_WAIT_REQUEUE_PI at a word; the next is refused. *)
Lemma second_requeue_pi_waiter_refused {M : Type} `{FutexMem M} a x (w : FutexWorld M) : x ∈ queue_of (wt_key a) (FUTEX_TABLE w) -> is_Some (requeue_pi_target x) ->
  wait_enqueue a w = (w, inr (Err EINVAL)).
Proof.
  intros Hx Ht. unfold wait_enqueue. assert (Hs : existsb special (queue_of (wt_key a) (FUTEX_TABLE w)) = true).
  { apply existsb_exists. exists x. split; [by apply list_elem_of_In|]. unfold special. rewrite bool_decide_eq_true_2 by done. apply orb_true_r. }
  by rewrite Hs, orb_true_r.
Qed.
