(* ===== verification/SleepMutex.v ===== *)
(** * The blocking mutex (os/src/sync/mutex/sleep_mutex.rs)

    A mutex whose contenders sleep in a queue; the fair variant reserves the lock
    for the oldest waiter after a number of releases.  The inner spin lock makes
    each section one definition.  What the owner of a mutex protects is not part
    of it; a guard is an agent at [PHold]. *)

From S2P Require Import Prelude.

Definition FAIR_HANDOFF_TIMEOUT_NS : Z := 10000000.
Definition FAIR_HANDOFF_INTERVAL : Z := 8.
Definition NO_OWNER : Z := 2 ^ 64 - 1.

Record BlockingInner := mkInner {
  locked : bool;
  handoff : option nat;
  handoff_started_ns : Z;
  fair_bypass_releases : Z;
  wait_queue : list nat }.

Record BlockingMutex := mkMutex {
  inner : BlockingInner;
  fair : bool;
  owner_hart : Z;
  owner_pid : Z;
  owner_line : Z }.

(** What the mutex sees of a task: whether a [Weak] to it can be upgraded, its
    process, its state, and the nesting of kernel critical sections. *)
Record MutexTask := mkMTask {
  strong : bool;
  process : option Z;
  zombie : bool;
  kernel_critical_depth : Z }.

Record MutexWorld := mkMW {
  mutex : BlockingMutex;
  mtasks : gmap nat MutexTask;
  now_ns : Z }.

Implicit Types w : MutexWorld.

Definition set_inner (i : BlockingInner) w : MutexWorld :=
  let m := mutex w in mkMW (mkMutex i (fair m) (owner_hart m) (owner_pid m) (owner_line m)) (mtasks w) (now_ns w).
Definition set_owner (hart pid line : Z) w : MutexWorld :=
  let m := mutex w in mkMW (mkMutex (inner m) (fair m) hart pid line) (mtasks w) (now_ns w).
Definition set_handoff (h : option nat) (started : Z) (i : BlockingInner) : BlockingInner :=
  mkInner (locked i) h started (fair_bypass_releases i) (wait_queue i).
Definition set_locked (b : bool) (i : BlockingInner) : BlockingInner :=
  mkInner b (handoff i) (handoff_started_ns i) (fair_bypass_releases i) (wait_queue i).
Definition set_queue (q : list nat) (i : BlockingInner) : BlockingInner :=
  mkInner (locked i) (handoff i) (handoff_started_ns i) (fair_bypass_releases i) q.
Definition set_releases (n : Z) (i : BlockingInner) : BlockingInner :=
  mkInner (locked i) (handoff i) (handoff_started_ns i) n (wait_queue i).
Definition set_depth (d : Z) (t : MutexTask) : MutexTask := mkMTask (strong t) (process t) (zombie t) d.

Definition inn w : BlockingInner := inner (mutex w).
Definition upgrade (t : nat) w : bool := match mtasks w !! t with Some k => strong k | None => false end.
Definition pid_of (t : option nat) w : Z :=
  match t with Some t => match mtasks w !! t with Some k => default NO_OWNER (process k) | None => NO_OWNER end | None => NO_OWNER end.

Definition new_with_fairness (fairness : bool) : BlockingMutex := mkMutex (mkInner false None 0 0 []) fairness NO_OWNER NO_OWNER 0.

(** [None]: the assertion fails. *)
Definition enter_kernel_critical_section (t : option nat) w : option MutexWorld :=
  match t with
  | None => Some w
  | Some t =>
      match mtasks w !! t with
      | None => Some w
      | Some k => if kernel_critical_depth k =? NO_OWNER then None
                  else Some (mkMW (mutex w) (<[t := set_depth (kernel_critical_depth k + 1) k]> (mtasks w)) (now_ns w))
      end
  end.

Definition leave_kernel_critical_section (t : option nat) w : option MutexWorld :=
  match t with
  | None => Some w
  | Some t =>
      match mtasks w !! t with
      | None => Some w
      | Some k => if kernel_critical_depth k =? 0 then None
                  else Some (mkMW (mutex w) (<[t := set_depth (kernel_critical_depth k - 1) k]> (mtasks w)) (now_ns w))
      end
  end.

(** Whether [waiting] may take an unlocked mutex; reservations that are over are dropped. *)
Definition handoff_allows_acquire (waiting : option nat) w : MutexWorld * bool :=
  let clear := set_inner (set_handoff None 0 (inn w)) w in
  if negb (fair (mutex w)) then (w, true)
  else match handoff (inn w) with
       | None => (clear, true)
       | Some reserved =>
           if negb (upgrade reserved w) then (clear, true)
           else if bool_decide (waiting = Some reserved) then (clear, true)
           else if FAIR_HANDOFF_TIMEOUT_NS <=? Z.max (now_ns w - handoff_started_ns (inn w)) 0 then (clear, true)
           else (w, false)
       end.

(** What one turn of [lock] ends in. *)
Inductive LockTurn := Acquired | Spin | Block.

Definition acquire (owner : option nat) (hart pid line : Z) w : option MutexWorld :=
  enter_kernel_critical_section owner (set_owner hart pid line (set_inner (set_locked true (inn w)) w)).

(** [pid] was read before the first turn. *)
Definition lock_turn (waiting : option nat) (hart pid line : Z) w : option (MutexWorld * LockTurn) :=
  let '(w, allowed) := if negb (locked (inn w)) then handoff_allows_acquire waiting w else (w, false) in
  if allowed then (fun w => (w, Acquired)) <$> acquire waiting hart pid line w
  else match waiting with
       | None => Some (w, Spin)
       | Some t =>
           let still_queued := existsb (fun q => upgrade q w && (q =? t)%nat) (wait_queue (inn w)) in
           Some (if still_queued then w else set_inner (set_queue (wait_queue (inn w) ++ [t]) (inn w)) w, Block)
       end.

(** [current]: whether the processor runs a task, and the task when its table is not busy. *)
Definition try_lock (current : option (option nat)) (hart line : Z) w : option (MutexWorld * bool) :=
  match current with
  | Some None => Some (w, false)
  | _ =>
      let owner := match current with Some t => t | None => None end in
      if locked (inn w) then Some (w, false)
      else let '(w, allowed) := handoff_allows_acquire None w in
           if negb allowed then Some (w, false) else (fun w => (w, true)) <$> acquire owner hart (pid_of owner w) line w
  end.

(** The inner loop of [drop]: the first waiter that can be woken. *)
Fixpoint pop_waiter (queue : list nat) w : list nat * option nat :=
  match queue with
  | [] => ([], None)
  | t :: queue =>
      if negb (upgrade t w) then pop_waiter queue w
      else match mtasks w !! t ≫= process with None => pop_waiter queue w | Some _ => (queue, Some t) end
  end.

(** From the top of the outer loop of [drop] to the release of the inner lock. *)
Definition release_section w : MutexWorld * option nat :=
  match pop_waiter (wait_queue (inn w)) w with
  | (_, None) => (set_inner (mkInner (locked (inn w)) None 0 0 []) w, None)
  | (queue, Some next) =>
      let w := set_inner (set_queue queue (inn w)) w in
      let releases := Z.min (fair_bypass_releases (inn w) + 1) NO_OWNER in
      let reserve := fair (mutex w) && (FAIR_HANDOFF_INTERVAL <=? releases) in
      let w := if fair (mutex w) then set_inner (set_releases (if reserve then 0 else releases) (inn w)) w else w in
      (set_inner (if reserve then set_handoff (Some next) (now_ns w) (inn w) else set_handoff None 0 (inn w)) w, Some next)
  end.

Definition drop_first w : MutexWorld * option nat :=
  release_section (set_inner (set_locked false (inn w)) (set_owner NO_OWNER NO_OWNER 0 w)).

(** After [next] could not be woken. *)
Definition drop_again (next : nat) w : MutexWorld * option nat :=
  let reserved := match handoff (inn w) with Some t => upgrade t w && (t =? next)%nat | None => false end in
  release_section (if reserved then set_inner (set_handoff None 0 (inn w)) w else w).

(** The snapshot for diagnostics; [inner_busy]: the inner lock could not be taken. *)
Record BlockingMutexStats := mkStats {
  st_inner_busy : bool; st_locked : bool; st_handoff : bool; st_waiters : Z; st_live_waiters : Z;
  st_owner_hart : Z; st_owner_pid : Z; st_owner_line : Z }.

Definition stats (inner_busy : bool) w : BlockingMutexStats :=
  let m := mutex w in
  if inner_busy then mkStats true false false 0 0 (owner_hart m) (owner_pid m) (owner_line m)
  else mkStats false (locked (inn w)) (match handoff (inn w) with Some t => upgrade t w | None => false end)
         (Z.of_nat (length (wait_queue (inn w)))) (Z.of_nat (length (List.filter (fun t => upgrade t w) (wait_queue (inn w)))))
         (owner_hart m) (owner_pid m) (owner_line m).

(** ** All agents together

    An agent is a task, or a processor without one (boot, interrupts).  A holder
    is at [PHold]; one that released the lock and is about to wake [next] is at
    [PWake next], and at [PRetry next] when [wakeup_task_front] returned false.
    That function refuses zombies; it can also return false after a wake-up, when
    the woken task has run and left the processor before it looks again. *)

Inductive Pc := PIdle | PTry | PBlocked | PHold | PWake (next : nat) | PRetry (next : nat).

Record MutexSys := mkMS { mw : MutexWorld; pcs : gmap nat Pc; panicked : bool }.
Definition pc_of (a : nat) (s : MutexSys) : Pc := default PIdle (pcs s !! a).

Definition is_zombie (t : nat) w : bool := match mtasks w !! t with Some k => zombie k | None => true end.

(** Whether the agent keeps the task alive after it popped it from the queue. *)
Definition in_hand (t : nat) (pc : Pc) : bool :=
  match pc with PWake n | PRetry n => (n =? t)%nat | _ => false end.

Section System.
(** The current task of each agent; may a blocked task run without being woken by
    the mutex (a signal, a wake-up left from before). *)
Context (task_of : nat -> option nat) (spurious : bool).

(** An agent can only run code when its task exists and has not exited. *)
Definition runs (a : nat) (s : MutexSys) : Prop :=
  forall t, task_of a = Some t -> upgrade t (mw s) = true /\ is_zombie t (mw s) = false.

(** The agent leaves its critical section and is done. *)
Definition finish (a : nat) (w : MutexWorld) (ps : gmap nat Pc) (p : bool) : MutexSys :=
  match leave_kernel_critical_section (task_of a) w with
  | Some w => mkMS w (<[a := PIdle]> ps) p
  | None => mkMS w ps true
  end.

Definition after_release (a : nat) (r : MutexWorld * option nat) (s : MutexSys) : MutexSys :=
  match r with
  | (w, None) => finish a w (pcs s) (panicked s)
  | (w, Some next) => mkMS w (<[a := PWake next]> (pcs s)) (panicked s)
  end.

(** A woken task goes on if it was blocked in this mutex. *)
Definition unblock (t : nat) (ps : gmap nat Pc) : gmap nat Pc :=
  map_imap (fun a pc => Some (match pc with PBlocked => if bool_decide (task_of a = Some t) then PTry else PBlocked | _ => pc end)) ps.

Definition turn_pc (r : LockTurn) : Pc := match r with Acquired => PHold | Spin => PTry | Block => PBlocked end.

Definition current (a : nat) (busy : bool) : option (option nat) :=
  match task_of a with None => None | Some t => Some (if busy then None else Some t) end.

Inductive mstep : MutexSys -> MutexSys -> Prop :=
| ms_lock s a : pc_of a s = PIdle -> runs a s -> mstep s (mkMS (mw s) (<[a := PTry]> (pcs s)) (panicked s))
| ms_turn s a hart pid line w r : pc_of a s = PTry -> lock_turn (task_of a) hart pid line (mw s) = Some (w, r) ->
    mstep s (mkMS w (<[a := turn_pc r]> (pcs s)) (panicked s))
| ms_turn_panic s a hart pid line : pc_of a s = PTry -> lock_turn (task_of a) hart pid line (mw s) = None ->
    mstep s (mkMS (mw s) (pcs s) true)
| ms_try s a busy hart line w (b : bool) : pc_of a s = PIdle -> runs a s ->
    try_lock (current a busy) hart line (mw s) = Some (w, b) ->
    mstep s (mkMS w (<[a := if b then PHold else PIdle]> (pcs s)) (panicked s))
| ms_try_panic s a busy hart line : pc_of a s = PIdle -> runs a s -> try_lock (current a busy) hart line (mw s) = None ->
    mstep s (mkMS (mw s) (pcs s) true)
| ms_spurious s a : spurious = true -> pc_of a s = PBlocked -> mstep s (mkMS (mw s) (<[a := PTry]> (pcs s)) (panicked s))
| ms_drop s a : pc_of a s = PHold -> mstep s (after_release a (drop_first (mw s)) s)
| ms_wake s a next : pc_of a s = PWake next -> is_zombie next (mw s) = false ->
    mstep s (finish a (mw s) (unblock next (pcs s)) (panicked s))
| ms_wake_gone s a next : pc_of a s = PWake next -> is_zombie next (mw s) = false ->
    mstep s (mkMS (mw s) (<[a := PRetry next]> (unblock next (pcs s))) (panicked s))
| ms_wake_zombie s a next : pc_of a s = PWake next -> is_zombie next (mw s) = true ->
    mstep s (mkMS (mw s) (<[a := PRetry next]> (pcs s)) (panicked s))
| ms_again s a next : pc_of a s = PRetry next -> mstep s (after_release a (drop_again next (mw s)) s)
| ms_clock s now : now_ns (mw s) <= now -> mstep s (mkMS (mkMW (mutex (mw s)) (mtasks (mw s)) now) (pcs s) (panicked s))
| ms_process_gone s t k : mtasks (mw s) !! t = Some k ->
    mstep s (mkMS (mkMW (mutex (mw s)) (<[t := mkMTask (strong k) None (zombie k) (kernel_critical_depth k)]> (mtasks (mw s))) (now_ns (mw s))) (pcs s) (panicked s))
| ms_exit s t k keep : mtasks (mw s) !! t = Some k -> (forall a, task_of a = Some t -> pc_of a s = PIdle) ->
    keep = true \/ (forall a, in_hand t (pc_of a s) = false) ->
    mstep s (mkMS (mkMW (mutex (mw s)) (<[t := mkMTask (strong k && keep) (process k) true (kernel_critical_depth k)]> (mtasks (mw s))) (now_ns (mw s))) (pcs s) (panicked s)).

Definition mutex_boot (s : MutexSys) : Prop :=
  mutex (mw s) = new_with_fairness (fair (mutex (mw s))) /\ pcs s = ∅ /\ panicked s = false /\
  (forall t k, mtasks (mw s) !! t = Some k -> 0 <= kernel_critical_depth k < NO_OWNER).

Definition mreach (s : MutexSys) : Prop := exists s0, mutex_boot s0 /\ rtc mstep s0 s.
End System.
