(* ===== verification/SleepMutexSpec.v ===== *)
(** * The blocking mutex: mutual exclusion, no lost wake-up, fairness

    The invariants of the agents of [SleepMutex].  [SInv] holds whatever wakes a
    blocked task: one holder, the flag and the critical-section depths agree with
    it, no assertion fails.  [WInv] is about the wait queue when only the mutex
    wakes its waiters. *)

From S2P Require Import Prelude SleepMutex.

Implicit Types w : MutexWorld.

Lemma rtc_preserve_b {A} (R : A -> A -> Prop) (P : A -> Prop) x : (forall x y, P x -> R x y -> P y) -> forall y, rtc R x y -> P x -> P y.
Proof. intros H y. induction 1; eauto. Qed.

(** ** What each section changes *)

Definition depth_of (k : MutexTask) : Z := kernel_critical_depth k.

(** The tasks of [w'] are those of [w], with [d] added to the depth of [o]'s. *)
Definition tasks_plus (o : option nat) (d : Z) w w' : Prop :=
  forall u, mtasks w' !! u = (fun k => if decide (o = Some u) then set_depth (kernel_critical_depth k + d) k else k) <$> mtasks w !! u.

Lemma tasks_plus_same o w w' : mtasks w' = mtasks w -> tasks_plus o 0 w w'.
Proof. intros E u. rewrite E. destruct (mtasks w !! u) as [[]|]; [|done]. cbn. case_decide; [unfold set_depth; cbn; rewrite Z.add_0_r|]; done. Qed.

Lemma set_depth_id k : set_depth (kernel_critical_depth k) k = k.
Proof. by destruct k. Qed.

Lemma enter_spec o w :
  match enter_kernel_critical_section o w with
  | Some w' => mutex w' = mutex w /\ now_ns w' = now_ns w /\ tasks_plus o 1 w w'
  | None => exists t k, o = Some t /\ mtasks w !! t = Some k /\ kernel_critical_depth k = NO_OWNER
  end.
Proof.
  destruct o as [t|]; cbn; [|repeat split; intros u; by destruct (mtasks w !! u)].
  destruct (mtasks w !! t) as [k|] eqn:E.
  - destruct (Z.eqb_spec (kernel_critical_depth k) NO_OWNER); [by eauto 6|]. repeat split. intros u. cbn.
    destruct (decide (t = u)) as [->|]; [rewrite lookup_insert_eq, E; cbn; by rewrite decide_True|].
    rewrite lookup_insert_ne by done. destruct (mtasks w !! u); cbn; [rewrite decide_False; [done|congruence]|done].
  - repeat split. intros u. destruct (mtasks w !! u) eqn:Eu; cbn; [rewrite decide_False; [done|congruence]|done].
Qed.

Lemma leave_spec o w :
  match leave_kernel_critical_section o w with
  | Some w' => mutex w' = mutex w /\ now_ns w' = now_ns w /\ tasks_plus o (-1) w w'
  | None => exists t k, o = Some t /\ mtasks w !! t = Some k /\ kernel_critical_depth k = 0
  end.
Proof.
  destruct o as [t|]; cbn; [|repeat split; intros u; by destruct (mtasks w !! u)].
  destruct (mtasks w !! t) as [k|] eqn:E.
  - destruct (Z.eqb_spec (kernel_critical_depth k) 0); [by eauto 6|]. repeat split. intros u. cbn.
    destruct (decide (t = u)) as [->|]; [rewrite lookup_insert_eq, E; cbn; by rewrite decide_True|].
    rewrite lookup_insert_ne by done. destruct (mtasks w !! u); cbn; [rewrite decide_False; [done|congruence]|done].
  - repeat split. intros u. destruct (mtasks w !! u) eqn:Eu; cbn; [rewrite decide_False; [done|congruence]|done].
Qed.

(** A reservation that is in force. *)
Definition reserved_for (r : nat) w : Prop :=
  fair (mutex w) = true /\ handoff (inn w) = Some r /\ upgrade r w = true /\
  Z.max (now_ns w - handoff_started_ns (inn w)) 0 < FAIR_HANDOFF_TIMEOUT_NS.

Lemma handoff_spec waiting w w' b : handoff_allows_acquire waiting w = (w', b) ->
  if b then mtasks w' = mtasks w /\ locked (inn w') = locked (inn w) /\ wait_queue (inn w') = wait_queue (inn w) /\
            (forall r, reserved_for r w -> waiting = Some r)
  else w' = w /\ exists r, reserved_for r w /\ waiting <> Some r.
Proof.
  unfold handoff_allows_acquire, reserved_for. destruct (fair (mutex w)) eqn:F; cbn [negb].
  2:{ intros [= <- <-]. repeat split; try done. by intros r [? _]. }
  destruct (handoff (inn w)) as [r|] eqn:R.
  2:{ intros [= <- <-]. repeat split; try done. by intros r (_ & ? & _). }
  destruct (upgrade r w) eqn:U; cbn [negb].
  2:{ intros [= <- <-]. repeat split; try done. intros r' (_ & [= ->] & ? & _). congruence. }
  case_bool_decide as Hw.
  { intros [= <- <-]. repeat split; try done. intros r' (_ & [= ->] & _). done. }
  destruct (Z.leb_spec FAIR_HANDOFF_TIMEOUT_NS (Z.max (now_ns w - handoff_started_ns (inn w)) 0)) as [L|L].
  - intros [= <- <-]. repeat split; try done. intros r' (_ & _ & _ & ?). lia.
  - intros [= <- <-]. split; [done|]. exists r. done.
Qed.

Lemma acquire_spec o hart pid line w :
  match acquire o hart pid line w with
  | Some w' => locked (inn w') = true /\ wait_queue (inn w') = wait_queue (inn w) /\ tasks_plus o 1 w w'
  | None => exists t k, o = Some t /\ mtasks w !! t = Some k /\ kernel_critical_depth k = NO_OWNER
  end.
Proof.
  unfold acquire. pose proof (enter_spec o (set_owner hart pid line (set_inner (set_locked true (inn w)) w))) as H.
  destruct (enter_kernel_critical_section _ _) as [w'|]; [|done]. destruct H as (E & _ & T). unfold inn. rewrite E. done.
Qed.

(** One turn of [lock]: it takes a free mutex that is not reserved for another
    task, and otherwise queues its task once. *)
Lemma turn_spec o hart pid line w :
  match lock_turn o hart pid line w with
  | Some (w', Acquired) => locked (inn w) = false /\ (forall r, reserved_for r w -> o = Some r) /\ locked (inn w') = true /\
                           wait_queue (inn w') = wait_queue (inn w) /\ tasks_plus o 1 w w'
  | Some (w', Spin) => w' = w /\ o = None /\ (locked (inn w) = true \/ exists r, reserved_for r w)
  | Some (w', Block) => (locked (inn w) = true \/ exists r, reserved_for r w /\ o <> Some r) /\ exists t, o = Some t /\
      w' = (if existsb (fun q => upgrade q w && (q =? t)%nat) (wait_queue (inn w)) then w
            else set_inner (set_queue (wait_queue (inn w) ++ [t]) (inn w)) w)
  | None => exists t k, o = Some t /\ mtasks w !! t = Some k /\ kernel_critical_depth k = NO_OWNER
  end.
Proof.
  unfold lock_turn. destruct (locked (inn w)) eqn:L; cbn [negb]; [by destruct o; eauto|].
  destruct (handoff_allows_acquire o w) as [w' []] eqn:H; apply handoff_spec in H.
  - destruct H as (T & L' & Q & R). pose proof (acquire_spec o hart pid line w') as A.
    destruct (acquire _ _ _ _ _) as [w''|]; cbn; [|by rewrite <- T]. destruct A as (? & E & A).
    repeat split; [done|done|congruence|]. intros u. rewrite A, T. done.
  - destruct H as [-> (r & R & N)]. destruct o; [|by eauto 6]. split; [right; eauto|by eexists].
Qed.

Lemma try_spec cur hart line w :
  match try_lock cur hart line w with
  | Some (w', true) => cur <> Some None /\ locked (inn w) = false /\ (forall r, ~ reserved_for r w) /\ locked (inn w') = true /\
                       wait_queue (inn w') = wait_queue (inn w) /\ tasks_plus (mjoin cur) 1 w w'
  | Some (w', false) => w' = w
  | None => exists t k, mjoin cur = Some t /\ mtasks w !! t = Some k /\ kernel_critical_depth k = NO_OWNER
  end.
Proof.
  unfold try_lock. destruct cur as [[t|]|]; [|done|].
  all: destruct (locked (inn w)) eqn:L; [done|].
  all: destruct (handoff_allows_acquire None w) as [w' []] eqn:H; apply handoff_spec in H; cbn [negb]; [|by destruct H].
  all: destruct H as (T & L' & Q & R).
  - pose proof (acquire_spec (Some t) hart (pid_of (Some t) w') line w') as A. destruct (acquire _ _ _ _ _) as [w''|]; cbn; [|by rewrite <- T].
    destruct A as (? & E & A). repeat split; [done|by intros r ?%R|done|congruence|]. intros u. rewrite A, T. done.
  - pose proof (acquire_spec None hart (pid_of None w') line w') as A. destruct (acquire _ _ _ _ _) as [w''|]; cbn; [|by rewrite <- T].
    destruct A as (? & E & A). repeat split; [done|by intros r ?%R|done|congruence|]. intros u. rewrite A, T. done.
Qed.

(** A waiter that an unlock can wake. *)
Definition has_process (t : nat) w : bool := match mtasks w !! t ≫= process with Some _ => true | None => false end.
Definition live (t : nat) w : bool := upgrade t w && has_process t w.

Lemma pop_spec q w q' r : pop_waiter q w = (q', r) ->
  match r with
  | None => q' = [] /\ forall t, t ∈ q -> live t w = false
  | Some n => exists pre, q = pre ++ n :: q' /\ live n w = true /\ forall t, t ∈ pre -> live t w = false
  end.
Proof.
  unfold live, has_process. induction q as [|t q IH]; cbn; [intros [= <- <-]; split; [done|by intros t ?%not_elem_of_nil]|].
  assert (forall b, b = false -> upgrade t w && has_process t w = b -> pop_waiter q w = (q', r) -> match r with
    | None => q' = [] /\ forall u, u ∈ t :: q -> upgrade u w && has_process u w = false
    | Some n => exists pre, t :: q = pre ++ n :: q' /\ upgrade n w && has_process n w = true /\ forall u, u ∈ pre -> upgrade u w && has_process u w = false end) as K.
  { intros b -> Hb E%IH. destruct r as [n|].
    - destruct E as (pre & -> & ? & P). exists (t :: pre). split; [done|]. split; [done|]. intros u [->|?]%elem_of_cons; [done|by apply P].
    - destruct E as [-> P]. split; [done|]. intros u [->|?]%elem_of_cons; [done|by apply P]. }
  unfold has_process in K. destruct (upgrade t w) eqn:U; cbn [negb]; [|by apply (K _ eq_refl)].
  destruct (mtasks w !! t ≫= process) eqn:E; [|by apply (K _ eq_refl)].
  intros [= <- <-]. exists []. cbn. rewrite U, E. split; [done|]. split; [done|]. by intros u ?%not_elem_of_nil.
Qed.

(** What a release does to the queue and to the reservation. *)
Lemma release_spec w w' r : release_section w = (w', r) ->
  mtasks w' = mtasks w /\ now_ns w' = now_ns w /\ locked (inn w') = locked (inn w) /\ fair (mutex w') = fair (mutex w) /\
  match r with
  | None => wait_queue (inn w') = [] /\ handoff (inn w') = None /\ fair_bypass_releases (inn w') = 0 /\
            (forall t, t ∈ wait_queue (inn w) -> live t w = false)
  | Some n => (exists pre, wait_queue (inn w) = pre ++ n :: wait_queue (inn w') /\ live n w = true /\ forall t, t ∈ pre -> live t w = false) /\
      let releases := Z.min (fair_bypass_releases (inn w) + 1) NO_OWNER in
      let reserve := fair (mutex w) && (FAIR_HANDOFF_INTERVAL <=? releases) in
      fair_bypass_releases (inn w') = (if fair (mutex w) then if reserve then 0 else releases else fair_bypass_releases (inn w)) /\
      handoff (inn w') = (if reserve then Some n else None) /\ (reserve = true -> handoff_started_ns (inn w') = now_ns w)
  end.
Proof.
  unfold release_section. destruct (pop_waiter _ _) as [q [n|]] eqn:P; apply pop_spec in P.
  - intros [= <- <-]. cbn [fair mutex set_inner]. destruct (fair (mutex w)) eqn:F; cbn [andb]; [|repeat split; try done; apply P].
    case_if; repeat split; try done; apply P.
  - intros [= <- <-]. destruct P. repeat split; done.
Qed.

(** ** One holder *)

(** The agent is inside its kernel critical section. *)
Definition inside (pc : Pc) : Z := match pc with PHold | PWake _ | PRetry _ => 1 | _ => 0 end.
Definition is_hold (pc : Pc) : bool := match pc with PHold => true | _ => false end.

Section Safety.
Context (task_of : nat -> option nat) (spurious : bool).
Hypothesis agents_differ : forall a b t, task_of a = Some t -> task_of b = Some t -> a = b.

Record SInv (base : nat -> Z) (s : MutexSys) : Prop := {
  si_one a b : pc_of a s = PHold -> pc_of b s = PHold -> a = b;
  si_locked : locked (inn (mw s)) = true <-> exists a, pc_of a s = PHold;
  si_depth t k : mtasks (mw s) !! t = Some k -> 0 <= base t < NO_OWNER /\
    forall a, task_of a = Some t -> kernel_critical_depth k = base t + inside (pc_of a s);
  si_ok : panicked s = false }.

Lemma pc_of_insert a b p w ps o : pc_of b (mkMS w (<[a := p]> ps) o) = if decide (a = b) then p else default PIdle (ps !! b).
Proof. unfold pc_of; cbn. case_decide; [subst; by rewrite lookup_insert_eq|by rewrite lookup_insert_ne]. Qed.

Lemma pc_of_unblock t b w ps o : pc_of b (mkMS w (unblock task_of t ps) o) =
  match default PIdle (ps !! b) with PBlocked => if bool_decide (task_of b = Some t) then PTry else PBlocked | pc => pc end.
Proof. unfold pc_of, unblock; cbn. rewrite map_lookup_imap. by destruct (ps !! b) as [[]|]. Qed.

(** An agent moves to [p]; the flag and its depth follow. *)
Lemma sinv_move base s a p w' : SInv base s ->
  tasks_plus (task_of a) (inside p - inside (pc_of a s)) (mw s) w' ->
  (is_hold p = true -> pc_of a s <> PHold -> locked (inn (mw s)) = false) ->
  locked (inn w') = (if is_hold p then true else if is_hold (pc_of a s) then false else locked (inn (mw s))) ->
  SInv base (mkMS w' (<[a := p]> (pcs s)) (panicked s)).
Proof.
  intros [One Lk Dp Ok] T Free L.
  assert (forall b, is_hold p = true -> pc_of b s = PHold -> b = a) as Alone.
  { intros b Hp Hb. destruct (decide (is_hold (pc_of a s) = true)) as [Ha|Ha].
    - apply (One b a); [done|]. by destruct (pc_of a s).
    - exfalso. assert (locked (inn (mw s)) = true) as E by (apply Lk; eauto). rewrite Free in E; [done|done|].
      intros Eq. by rewrite Eq in Ha. }
  split; cbn [mw pcs panicked]; [| | |done].
  - intros b c. rewrite !pc_of_insert. fold (pc_of b s) (pc_of c s). do 2 case_decide; subst; intros Hb Hc; try done.
    + symmetry. apply Alone; [by rewrite Hb|done].
    + apply Alone; [by rewrite Hc|done].
    + by apply One.
  - rewrite L. destruct (is_hold p) eqn:Hp.
    { split; [|done]. intros _. exists a. rewrite pc_of_insert, decide_True by done. by destruct p. }
    destruct (is_hold (pc_of a s)) eqn:Ha.
    + split; [done|]. intros [b Hb]. rewrite pc_of_insert in Hb. case_decide as Hne; [by subst|].
      fold (pc_of b s) in Hb. exfalso. apply Hne. apply One; [by destruct (pc_of a s)|done].
    + rewrite Lk. split; intros [b Hb]; exists b; rewrite pc_of_insert in *; fold (pc_of b s) in *.
      * rewrite decide_False; [done|]. intros ->. by rewrite Hb in Ha.
      * case_decide; [by subst|done].
  - intros t k' Hk. rewrite T in Hk. destruct (mtasks (mw s) !! t) as [k|] eqn:Ek; [|done]. injection Hk as <-.
    destruct (Dp t k Ek) as [Hb Hd]. split; [done|]. intros b Eb. rewrite pc_of_insert. fold (pc_of b s).
    case_decide as Ea; [assert (b = a) as -> by eauto; rewrite decide_True by done; cbn; rewrite (Hd a Eb); lia|].
    rewrite decide_False by congruence. by apply Hd.
Qed.

Lemma sinv_unblock base s t : SInv base s -> SInv base (mkMS (mw s) (unblock task_of t (pcs s)) (panicked s)).
Proof.
  intros [One Lk Dp Ok].
  assert (forall b, pc_of b (mkMS (mw s) (unblock task_of t (pcs s)) (panicked s)) = PHold <-> pc_of b s = PHold) as K.
  { intros b. rewrite pc_of_unblock. fold (pc_of b s). destruct (pc_of b s); try done. by case_bool_decide. }
  split; cbn [mw panicked]; [| | |done].
  - intros a b Ha%K Hb%K. by apply One.
  - rewrite Lk. by setoid_rewrite K.
  - intros u k Hk. destruct (Dp u k Hk) as [? Hd]. split; [done|]. intros a Ha. rewrite (Hd a Ha), pc_of_unblock.
    fold (pc_of a s). destruct (pc_of a s); try done. by case_bool_decide.
Qed.

Lemma sinv_finish base s w a : SInv base s -> mtasks w = mtasks (mw s) ->
  locked (inn w) = (if is_hold (pc_of a s) then false else locked (inn (mw s))) -> inside (pc_of a s) = 1 ->
  SInv base (finish task_of a w (pcs s) (panicked s)).
Proof.
  intros I T L In. unfold finish. pose proof (leave_spec (task_of a) w) as H.
  destruct (leave_kernel_critical_section _ _) as [w'|].
  - destruct H as (E & _ & P). apply sinv_move; [done| |done|].
    + intros u. rewrite P, T, In. done.
    + cbn. unfold inn in *. by rewrite E.
  - exfalso. destruct H as (t & k & Ea & Ek & D). rewrite T in Ek. destruct (si_depth _ _ I t k Ek) as [? Hd]. specialize (Hd a Ea). lia.
Qed.

Lemma sinv_release base s w a : SInv base s -> mtasks w = mtasks (mw s) ->
  locked (inn w) = (if is_hold (pc_of a s) then false else locked (inn (mw s))) -> inside (pc_of a s) = 1 ->
  SInv base (after_release task_of a (release_section w) s).
Proof.
  intros I T L In. destruct (release_section w) as [w' r] eqn:R. apply release_spec in R as (T' & _ & L' & _).
  destruct r as [n|]; cbn.
  - apply sinv_move; [done| |done|by rewrite L', L]. rewrite In. apply tasks_plus_same. congruence.
  - apply sinv_finish; [done|congruence|congruence|done].
Qed.

(** Something happens to the tasks that the mutex does not depend on. *)
Lemma sinv_tasks base s ts now : SInv base s ->
  (forall u k', ts !! u = Some k' -> exists k, mtasks (mw s) !! u = Some k /\ kernel_critical_depth k' = kernel_critical_depth k) ->
  SInv base (mkMS (mkMW (mutex (mw s)) ts now) (pcs s) (panicked s)).
Proof.
  intros [One Lk Dp Ok] H. split; cbn [mw mtasks panicked]; [done|done| |done].
  intros t k' (k & E & D)%H. rewrite D. by apply Dp.
Qed.

Lemma sinv_same base s a p : SInv base s -> inside p = inside (pc_of a s) -> is_hold p = is_hold (pc_of a s) ->
  SInv base (mkMS (mw s) (<[a := p]> (pcs s)) (panicked s)).
Proof.
  intros I H1 H2. apply sinv_move; [done| | |].
  - rewrite H1, Z.sub_diag. by apply tasks_plus_same.
  - rewrite H2. by destruct (pc_of a s).
  - rewrite H2. destruct (is_hold (pc_of a s)) eqn:E; [|done]. apply (si_locked _ _ I). exists a. by destruct (pc_of a s).
Qed.

Lemma sinv_step base s s' : SInv base s -> mstep task_of spurious s s' -> SInv base s'.
Proof.
  intros I St. destruct St as [s a Ha R|s a hart pid line w r Ha T|s a hart pid line Ha T|s a busy hart line w b Ha R T
    |s a busy hart line Ha R T|s a _ Ha|s a Ha|s a n Ha Z|s a n Ha Z|s a n Ha Z|s a n Ha|s now L|s t k E|s t k keep E Idle H].
  - apply sinv_same; by rewrite ?Ha.
  - pose proof (turn_spec (task_of a) hart pid line (mw s)) as H. rewrite T in H. destruct r; cbn [turn_pc].
    + destruct H as (L & _ & L' & _ & P). apply sinv_move; rewrite ?Ha; done.
    + destruct H as (-> & _). apply sinv_same; by rewrite ?Ha.
    + destruct H as (_ & t & _ & ->). apply sinv_move; rewrite ?Ha; [done| |done|].
      * apply tasks_plus_same. by case_if.
      * by case_if.
  - exfalso. pose proof (turn_spec (task_of a) hart pid line (mw s)) as H. rewrite T in H. destruct H as (t & k & Ea & Ek & D).
    destruct (si_depth _ _ I t k Ek) as [? Hd]. specialize (Hd a Ea). rewrite Ha in Hd. cbn in Hd. lia.
  - pose proof (try_spec (current task_of a busy) hart line (mw s)) as H. rewrite T in H. destruct b.
    + destruct H as (C & L & _ & L' & _ & P). apply sinv_move; rewrite ?Ha; try done.
      unfold current in *. destruct (task_of a); [|done]. by destruct busy.
    + subst w. apply sinv_same; by rewrite ?Ha.
  - exfalso. pose proof (try_spec (current task_of a busy) hart line (mw s)) as H. rewrite T in H. destruct H as (t & k & Ea & Ek & D).
    assert (task_of a = Some t) as Ea' by (unfold current in Ea; destruct (task_of a); [destruct busy|]; done).
    destruct (si_depth _ _ I t k Ek) as [? Hd]. specialize (Hd a Ea'). rewrite Ha in Hd. cbn in Hd. lia.
  - apply sinv_same; by rewrite ?Ha.
  - apply sinv_release; rewrite ?Ha; done.
  - pose proof (sinv_unblock base s n I) as U. pose proof (pc_of_unblock n a (mw s) (pcs s) (panicked s)) as Ea. fold (pc_of a s) in Ea. rewrite Ha in Ea.
    apply (sinv_finish _ _ (mw s) a U); rewrite ?Ea; done.
  - pose proof (sinv_unblock base s n I) as U. pose proof (pc_of_unblock n a (mw s) (pcs s) (panicked s)) as Ea. fold (pc_of a s) in Ea. rewrite Ha in Ea.
    apply (sinv_same _ _ a (PRetry n) U); rewrite ?Ea; done.
  - apply sinv_same; by rewrite ?Ha.
  - unfold drop_again. apply sinv_release; rewrite ?Ha; try case_if; done.
  - apply sinv_tasks; [done|]. eauto.
  - apply sinv_tasks; [done|]. intros u k' Hk. destruct (decide (t = u)) as [->|]; [rewrite lookup_insert_eq in Hk; injection Hk as <-; eauto|].
    rewrite lookup_insert_ne in Hk by done. eauto.
  - apply sinv_tasks; [done|]. intros u k' Hk. destruct (decide (t = u)) as [->|]; [rewrite lookup_insert_eq in Hk; injection Hk as <-; eauto|].
    rewrite lookup_insert_ne in Hk by done. eauto.
Qed.

Lemma sinv_reach s : mreach task_of spurious s -> exists base, SInv base s.
Proof.
  intros (s0 & (E & P & Ok & D) & R). exists (fun t => default 0 (kernel_critical_depth <$> mtasks (mw s0) !! t)).
  apply (rtc_preserve_b _ _ _ (sinv_step _) _ R). split; [| | |done].
  - intros a b. unfold pc_of. rewrite P, lookup_empty. done.
  - unfold inn. rewrite E. unfold pc_of. rewrite P. split; [done|]. intros [a Ha]. by rewrite lookup_empty in Ha.
  - intros t k Hk. rewrite Hk. cbn. split; [by apply D in Hk|]. intros a _. unfold pc_of. rewrite P, lookup_empty. cbn. lia.
Qed.
End Safety.

(** ** No lost wake-up *)

Section Waiters.
Context (task_of : nat -> option nat).
Hypothesis agents_differ : forall a b t, task_of a = Some t -> task_of b = Some t -> a = b.

(** The agent will look at the mutex again without being woken. *)
Definition active (pc : Pc) : bool := match pc with PTry | PWake _ | PRetry _ => true | _ => false end.

Definition blocked_task (t : nat) (s : MutexSys) : Prop := exists a, task_of a = Some t /\ pc_of a s = PBlocked.

(** Every entry of the queue is that of a task that is still in [lock].  (The source does not keep
    this: see the end of [SleepMutexMain].) *)
Definition clean (s : MutexSys) : Prop :=
  forall t, t ∈ wait_queue (inn (mw s)) -> exists a, task_of a = Some t /\ (pc_of a s = PTry \/ pc_of a s = PBlocked).

(** The agent looks at the mutex at its next step, or makes another one do so. *)
Definition effective (a : nat) (s : MutexSys) : Prop :=
  pc_of a s = PTry \/ (exists n, pc_of a s = PRetry n) \/ (exists n, pc_of a s = PWake n /\ blocked_task n s).

Record WInv (s : MutexSys) : Prop := {
  wi_alive a t : task_of a = Some t -> pc_of a s <> PIdle -> upgrade t (mw s) = true /\ is_zombie t (mw s) = false;
  wi_blocked b : pc_of b s = PBlocked -> exists t, task_of b = Some t /\
    (t ∈ wait_queue (inn (mw s)) \/ (exists a, pc_of a s = PWake t) \/ has_process t (mw s) = false);
  wi_handoff r : locked (inn (mw s)) = false -> handoff (inn (mw s)) = Some r ->
    (exists a, task_of a = Some r /\ pc_of a s = PTry) \/ (blocked_task r s /\ exists a, pc_of a s = PWake r);
  wi_free : locked (inn (mw s)) = false -> wait_queue (inn (mw s)) = [] \/ exists a, effective a s }.

Lemma handoff_effective s r : WInv s -> locked (inn (mw s)) = false -> handoff (inn (mw s)) = Some r -> exists a, effective a s.
Proof. intros I L H. destruct (wi_handoff _ I r L H) as [(a & _ & Ha)|[B [a Ha]]]; exists a; [by left|right; right; eauto]. Qed.

(** What the mutex sees of the tasks stays, but processes may vanish. *)
Definition same_view w w' : Prop :=
  forall t, upgrade t w' = upgrade t w /\ is_zombie t w' = is_zombie t w /\ (has_process t w = false -> has_process t w' = false).

Lemma same_view_plus o d w w' : tasks_plus o d w w' -> same_view w w'.
Proof.
  intros H t. unfold upgrade, is_zombie, has_process. rewrite H. destruct (mtasks w !! t) as [k|]; cbn; [|done]. by case_decide.
Qed.
Lemma same_view_eq w w' : mtasks w' = mtasks w -> same_view w w'.
Proof. intros H. apply (same_view_plus None 0). by apply tasks_plus_same. Qed.

(** One agent moves; the tasks that are blocked and the wake-ups under way before are there after. *)
Section Move.
Context (s : MutexSys) (a : nat) (p : Pc) (w' : MutexWorld).
Let s' : MutexSys := mkMS w' (<[a := p]> (pcs s)) (panicked s).

Lemma moved b : pc_of b s' = if decide (a = b) then p else pc_of b s.
Proof. unfold s'. by rewrite pc_of_insert. Qed.

Lemma move_blocked t : pc_of a s <> PBlocked \/ p = PBlocked -> blocked_task t s -> blocked_task t s'.
Proof. intros Ha (b & Eb & Hb). exists b. split; [done|]. rewrite moved. case_decide; [subst b; destruct Ha; congruence|done]. Qed.

Lemma move_wake b n : (forall m, pc_of a s <> PWake m) -> pc_of b s = PWake n -> pc_of b s' = PWake n.
Proof. intros Ha Hb. rewrite moved. case_decide; [subst b; by apply Ha in Hb|done]. Qed.

Lemma move_alive : (forall t, task_of a = Some t -> p <> PIdle -> upgrade t (mw s) = true /\ is_zombie t (mw s) = false) -> WInv s -> same_view (mw s) w' ->
  forall b t, task_of b = Some t -> pc_of b s' <> PIdle -> upgrade t w' = true /\ is_zombie t w' = false.
Proof.
  intros Run I V b t Eb. destruct (V t) as (-> & -> & _). rewrite moved. case_decide; [subst b; eauto|by apply (wi_alive _ I b t Eb)].
Qed.
End Move.

(** An agent that neither waits nor wakes moves, and the queue stays. *)
Lemma winv_quiet s a p w' : WInv s -> same_view (mw s) w' -> wait_queue (inn w') = wait_queue (inn (mw s)) ->
  (pc_of a s <> PBlocked /\ forall n, pc_of a s <> PWake n) -> p <> PBlocked ->
  (p <> PIdle -> forall t, task_of a = Some t -> upgrade t (mw s) = true /\ is_zombie t (mw s) = false) ->
  (locked (inn w') = false -> locked (inn (mw s)) = false /\ handoff (inn w') = handoff (inn (mw s)) /\
     (pc_of a s = PTry -> p = PTry) /\ (forall n, pc_of a s <> PRetry n)) ->
  WInv (mkMS w' (<[a := p]> (pcs s)) (panicked s)).
Proof.
  intros I V Q [Ha1 Ha2] Hp Run L.
  assert (forall b n, pc_of b s = PWake n -> pc_of b (mkMS w' (<[a := p]> (pcs s)) (panicked s)) = PWake n) as KW by (intros; by apply move_wake).
  assert (forall t, blocked_task t s -> blocked_task t (mkMS w' (<[a := p]> (pcs s)) (panicked s))) as KB by (intros t; apply move_blocked; by left).
  split; cbn [mw]; rewrite ?Q.
  - apply move_alive; auto.
  - intros b. rewrite moved. case_decide as Nab; [done|]. intros (t & Et & H)%(wi_blocked _ I). exists t. split; [done|].
    destruct H as [?|[[c ?]|H]]; [by left|right; left; eauto|right; right]. by apply V.
  - intros r [L0 [-> [T _]]]%L Hr. destruct (wi_handoff _ I r L0 Hr) as [(b & Eb & Hb)|[B [b Hb]]]; [left|right; eauto].
    exists b. split; [done|]. rewrite moved. case_decide as Ea; [subst b; auto|done].
  - intros [L0 [_ [T R]]]%L. destruct (wi_free _ I L0) as [?|[b Hb]]; [by left|right; exists b].
    destruct Hb as [Hb|[[n Hb]|(n & Hb & B)]]; [left|right; left; exists n|right; right; exists n; auto]; rewrite moved; (case_decide as Ea; [subst b|done]); [auto|].
    by apply R in Hb.
Qed.

(** A blocked task is woken by something else. *)
Lemma winv_spurious s a : WInv s -> pc_of a s = PBlocked -> WInv (mkMS (mw s) (<[a := PTry]> (pcs s)) (panicked s)).
Proof.
  intros I Ha. set (s' := mkMS _ _ _).
  assert (forall b n, pc_of b s = PWake n -> pc_of b s' = PWake n) as KW by (intros; apply move_wake; [congruence|done]).
  assert (pc_of a s' = PTry) as Ka by (unfold s'; by rewrite moved, decide_True).
  assert (forall t, blocked_task t s -> blocked_task t s' \/ task_of a = Some t) as KB.
  { intros t (b & Eb & Hb). destruct (decide (a = b)) as [<-|]; [by right|left]. exists b. split; [done|]. unfold s'. by rewrite moved, decide_False. }
  split; cbn [mw s'].
  - apply (move_alive s a PTry (mw s)); [|done|by apply same_view_eq]. intros t Et _. apply (wi_alive _ I a t Et). congruence.
  - intros b. unfold s'. rewrite moved. case_decide as Nab; [done|]. intros (t & Et & H)%(wi_blocked _ I). exists t. split; [done|].
    destruct H as [?|[[c ?]|H]]; [by left|right; left; exists c; by apply KW|by right; right].
  - intros r L Hr. destruct (wi_handoff _ I r L Hr) as [(b & Eb & Hb)|[[B|B]%KB [b Hb]]]; [left; exists b|right; eauto|left; eauto].
    split; [done|]. unfold s'. rewrite moved. by case_decide.
  - intros _. right. exists a. by left.
Qed.

(** [lock] queues its task and sleeps. *)
Lemma winv_block s a t w' : WInv s -> pc_of a s = PTry -> task_of a = Some t ->
  (locked (inn (mw s)) = true \/ exists r, reserved_for r (mw s) /\ task_of a <> Some r) ->
  w' = (if existsb (fun q => upgrade q (mw s) && (q =? t)%nat) (wait_queue (inn (mw s))) then mw s
        else set_inner (set_queue (wait_queue (inn (mw s)) ++ [t]) (inn (mw s))) (mw s)) ->
  WInv (mkMS w' (<[a := PBlocked]> (pcs s)) (panicked s)).
Proof.
  intros I Ha Ea Why E.
  assert (mtasks w' = mtasks (mw s) /\ locked (inn w') = locked (inn (mw s)) /\ handoff (inn w') = handoff (inn (mw s))) as (ET & EL & EH) by (rewrite E; by case_if).
  assert ((forall u, u ∈ wait_queue (inn (mw s)) -> u ∈ wait_queue (inn w')) /\ t ∈ wait_queue (inn w')) as [Qin Qt].
  { rewrite E. destruct (existsb _ _) eqn:X; [|cbn; set_solver]. split; [done|]. apply existsb_exists in X as (q & Hq & (_ & ->%Nat.eqb_eq)%andb_true_iff). by apply list_elem_of_In. }
  set (s' := mkMS _ _ _).
  assert (forall b n, pc_of b s = PWake n -> pc_of b s' = PWake n) as KW by (intros; apply move_wake; [congruence|done]).
  assert (forall u, blocked_task u s -> blocked_task u s') as KB by (intros u; apply move_blocked; by right).
  assert (forall r, locked (inn (mw s)) = false -> handoff (inn (mw s)) = Some r ->
    (exists b, task_of b = Some r /\ pc_of b s' = PTry) \/ (blocked_task r s' /\ exists b, pc_of b s' = PWake r)) as Ho.
  { intros r L Hr. destruct (wi_handoff _ I r L Hr) as [(b & Eb & Hb)|[B [b Hb]]]; [left|right; eauto]. exists b. split; [done|].
    unfold s'. rewrite moved. case_decide as Ab; [subst b|done]. exfalso. destruct Why as [?|(r' & (_ & H & _) & N)]; [congruence|]. apply N. congruence. }
  split; cbn [mw s']; rewrite ?EL, ?EH.
  - apply (move_alive s a PBlocked w'); [|done|by apply same_view_eq]. intros u Eu _. apply (wi_alive _ I a u Eu). congruence.
  - intros b. unfold s'. rewrite moved. case_decide as Ab; [subst b; intros _; eauto|]. intros (u & Eu & H)%(wi_blocked _ I). exists u. split; [done|].
    destruct H as [?|[[c ?]|H]]; [left; auto|right; left; exists c; by apply KW|right; right; by apply (same_view_eq (mw s) w')].
  - exact Ho.
  - intros L. right. destruct Why as [?|(r & (_ & H & _) & _)]; [congruence|].
    destruct (Ho r L H) as [(b & _ & Hb)|[B [b Hb]]]; exists b; [by left|right; right; eauto].
Qed.

(** A release: the first waiter that can be woken leaves the queue with the waker. *)
Lemma winv_pop s a w n w' : WInv s -> clean s -> pc_of a s = PHold \/ (exists m, pc_of a s = PRetry m) ->
  mtasks w = mtasks (mw s) -> wait_queue (inn w) = wait_queue (inn (mw s)) -> release_section w = (w', Some n) ->
  WInv (mkMS w' (<[a := PWake n]> (pcs s)) (panicked s)).
Proof.
  intros I Cl Ha T Q R. apply release_spec in R as (T' & _ & _ & _ & (pre & E & Ln & Pre) & _ & H & _). rewrite Q in E.
  assert (same_view (mw s) w') as V by (apply same_view_eq; congruence).
  assert (forall t, live t w = live t (mw s)) as Lw by (intros; unfold live, upgrade, has_process; by rewrite T).
  set (s' := mkMS _ _ _).
  assert (pc_of a s' = PWake n) as Haw by (unfold s'; by rewrite moved, decide_True).
  assert (forall b m, pc_of b s = PWake m -> pc_of b s' = PWake m) as KW by (intros; apply move_wake; [destruct Ha as [Ha|[? Ha]]; congruence|done]).
  destruct (Cl n) as (b0 & E0 & H0); [rewrite E; set_solver|].
  assert (pc_of b0 s' = pc_of b0 s) as K0 by (unfold s'; rewrite moved; case_decide; [subst b0; destruct Ha as [Ha|[? Ha]], H0; congruence|done]).
  assert (pc_of b0 s' = PTry \/ blocked_task n s') as K1 by (destruct H0 as [H0|H0]; [left|right; exists b0; split; [done|]]; congruence).
  split; cbn [mw s'].
  - apply (move_alive s a (PWake n) w'); [|done|done]. intros t Et _. apply (wi_alive _ I a t Et). destruct Ha as [Ha|[? Ha]]; congruence.
  - intros b. unfold s'. rewrite moved. case_decide as Nab; [done|]. intros Hb. destruct (wi_blocked _ I b Hb) as (t & Et & D). exists t. split; [done|].
    destruct D as [D|[[c Hc%KW]|?]]; [|right; left; eauto|right; right; by apply V]. rewrite E in D.
    apply elem_of_app in D as [D|[->|D]%elem_of_cons]; [|right; left; eauto|by left].
    right; right. apply V. specialize (Pre t D). rewrite Lw in Pre. unfold live in Pre. destruct (wi_alive _ I b t Et) as [U _]; [congruence|]. by rewrite U in Pre.
  - intros r _ Hr. rewrite H in Hr. case_if_in Hr; [injection Hr as <-|done]. destruct K1 as [K1|K1]; [left|right]; eauto.
  - intros _. right. destruct K1 as [K1|K1]; [exists b0; by left|exists a; right; right; eauto].
Qed.

Lemma winv_empty s a w w1 w' : WInv s -> pc_of a s = PHold \/ (exists m, pc_of a s = PRetry m) ->
  mtasks w = mtasks (mw s) -> wait_queue (inn w) = wait_queue (inn (mw s)) -> release_section w = (w1, None) ->
  same_view w1 w' -> mutex w' = mutex w1 ->
  WInv (mkMS w' (<[a := PIdle]> (pcs s)) (panicked s)).
Proof.
  intros I Ha T Q R V1 M. apply release_spec in R as (T' & _ & _ & _ & Q' & H & _ & D).
  assert (same_view (mw s) w1) as V0 by (apply same_view_eq; congruence).
  assert (forall t, live t w = live t (mw s)) as Lw by (intros; unfold live, upgrade, has_process; by rewrite T).
  rewrite Q in D.
  assert (same_view (mw s) w') as V by (intros t; destruct (V1 t) as (-> & -> & ?), (V0 t) as (-> & -> & ?); auto).
  split; cbn [mw]; unfold inn; rewrite ?M; fold (inn w1); rewrite ?Q', ?H; [by apply move_alive| |done|by left].
  intros b. rewrite moved. case_decide as Nab; [done|]. intros Hb. destruct (wi_blocked _ I b Hb) as (t & Et & W). exists t. split; [done|]. right.
  destruct W as [W|[[c Hc]|W]]; [|left; exists c; apply move_wake; [destruct Ha as [Ha|[? Ha]]; congruence|done]|right; by apply V].
  right. apply V. specialize (D t W). rewrite Lw in D. unfold live in D. destruct (wi_alive _ I b t Et) as [U _]; [congruence|]. by rewrite U in D.
Qed.

(** The popped waiter is woken. *)
Lemma winv_wake s a n p w' o : WInv s -> pc_of a s = PWake n -> p = PIdle \/ p = PRetry n ->
  same_view (mw s) w' -> mutex w' = mutex (mw s) ->
  WInv (mkMS w' (<[a := p]> (unblock task_of n (pcs s))) o).
Proof.
  intros I Ha Hp V M. set (s' := mkMS _ _ _).
  assert (forall b, pc_of b s' = if decide (a = b) then p else
    match pc_of b s with PBlocked => if bool_decide (task_of b = Some n) then PTry else PBlocked | q => q end) as K.
  { intros b. subst s'. rewrite pc_of_insert. case_decide; [done|]. exact (pc_of_unblock task_of n b w' (pcs s) o). }
  assert (forall b, pc_of b s = PTry -> pc_of b s' = PTry) as KT by (intros b Hb; rewrite K, Hb, decide_False by congruence; done).
  assert (forall b m, pc_of b s = PRetry m -> pc_of b s' = PRetry m) as KR by (intros b m Hb; rewrite K, Hb, decide_False by congruence; done).
  assert (forall b m, m <> n -> pc_of b s = PWake m -> pc_of b s' = PWake m) as KW by (intros b m N Hb; rewrite K, Hb, decide_False by congruence; done).
  assert (forall t, blocked_task t s -> t <> n /\ blocked_task t s' \/ t = n /\ exists b, task_of b = Some n /\ pc_of b s' = PTry) as KB.
  { intros t (b & Eb & Hb). specialize (K b). rewrite Hb, decide_False in K by congruence. destruct (decide (t = n)) as [->|N]; [right|left]; (split; [done|]); exists b; (split; [done|]).
    - by rewrite K, bool_decide_true.
    - rewrite K, bool_decide_false; [done|congruence]. }
  split; cbn [mw s']; unfold inn; rewrite ?M; fold (inn (mw s)).
  - intros b t Eb Hb. destruct (V t) as (-> & -> & _). apply (wi_alive _ I b t Eb). intros Hi. rewrite K in Hb. case_decide; [congruence|]. by rewrite Hi in Hb.
  - intros b Hb. assert (pc_of b s = PBlocked /\ task_of b <> Some n) as [Hb' N].
    { rewrite K in Hb. case_decide; [by destruct Hp as [->| ->]|]. destruct (pc_of b s); try done. by case_bool_decide. }
    destruct (wi_blocked _ I b Hb') as (t & Et & W). exists t. split; [done|].
    destruct W as [W|[[c W]|W]]; [by left|right; left; exists c; apply KW; [congruence|done]|right; right; by apply V].
  - intros r L Hr. destruct (wi_handoff _ I r L Hr) as [(c & Ec & Hc)|[[[N B]|[-> B]]%KB [c Hc]]]; [left|right|left]; eauto.
  - intros L. destruct (wi_free _ I L) as [?|[c Hc]]; [by left|right].
    destruct Hc as [Hc|[[m Hc]|(m & Hc & [[N B]|[-> (b & _ & Hb)]]%KB)]]; [exists c; left; auto|exists c; right; left; eauto|exists c; right; right; eauto|exists b; by left].
Qed.

(** The popped waiter has exited meanwhile. *)
Lemma winv_wake_zombie s a n : WInv s -> pc_of a s = PWake n -> is_zombie n (mw s) = true -> WInv (mkMS (mw s) (<[a := PRetry n]> (pcs s)) (panicked s)).
Proof.
  intros I Ha Z. set (s' := mkMS _ _ _).
  assert (forall t, blocked_task t s -> t <> n /\ blocked_task t s') as KB.
  { intros t (b & Eb & Hb). split; [intros ->; destruct (wi_alive _ I b n Eb); congruence|]. exists b. split; [done|]. unfold s'. rewrite moved, decide_False by congruence. done. }
  assert (forall b m, m <> n -> pc_of b s = PWake m -> pc_of b s' = PWake m) as KW by (intros b m N Hb; unfold s'; rewrite moved, decide_False by congruence; done).
  split; cbn [mw s'].
  - apply (move_alive s a (PRetry n) (mw s)); [|done|by apply same_view_eq]. intros t Et _. apply (wi_alive _ I a t Et). congruence.
  - intros b. unfold s'. rewrite moved. case_decide as Nab; [done|]. intros Hb. destruct (wi_blocked _ I b Hb) as (t & Et & H). exists t. split; [done|].
    destruct H as [?|[[c Hc]|H]]; [by left|right; left; exists c; apply KW; [|done]|by right; right]. apply (KB t). by exists b.
  - intros r L Hr. destruct (wi_handoff _ I r L Hr) as [(b & Eb & Hb)|[[N B]%KB [b Hb]]]; [left; exists b|right; eauto].
    split; [done|]. unfold s'. rewrite moved, decide_False by congruence. done.
  - intros _. right. exists a. right. left. exists n. unfold s'. by rewrite moved, decide_True.
Qed.

(** Time passes, tasks that are not in the mutex exit, processes go. *)
Lemma winv_tasks s ts now : WInv s ->
  (forall t, has_process t (mw s) = false -> has_process t (mkMW (mutex (mw s)) ts now) = false) ->
  (forall a t, task_of a = Some t -> pc_of a s <> PIdle -> upgrade t (mkMW (mutex (mw s)) ts now) = upgrade t (mw s) /\
     is_zombie t (mkMW (mutex (mw s)) ts now) = is_zombie t (mw s)) ->
  WInv (mkMS (mkMW (mutex (mw s)) ts now) (pcs s) (panicked s)).
Proof.
  intros [Al Bl Ho Fr] Hp Hv. split; try done.
  - intros a t Ea Hi. cbn [mw]. destruct (Hv a t Ea Hi) as [-> ->]. by apply (Al a t).
  - intros b Hb. destruct (Bl b Hb) as (t & Et & W). exists t. split; [done|]. destruct W as [?|[?|?]]; [by left|by right; left|right; right; by apply Hp].
Qed.

Lemma winv_release s a w : WInv s -> clean s -> pc_of a s = PHold \/ (exists m, pc_of a s = PRetry m) ->
  mtasks w = mtasks (mw s) -> wait_queue (inn w) = wait_queue (inn (mw s)) ->
  panicked (after_release task_of a (release_section w) s) = false ->
  WInv (after_release task_of a (release_section w) s).
Proof.
  intros I Cl Ha T Q. destruct (release_section w) as [w1 [n|]] eqn:R; cbn; [intros _; by eapply winv_pop|].
  unfold finish. pose proof (leave_spec (task_of a) w1) as L. destruct (leave_kernel_critical_section _ _) as [w'|]; [|done].
  intros _. destruct L as (M & _ & P). eapply winv_empty; [done|done|exact T|done|done|by eapply same_view_plus|done].
Qed.

Lemma winv_step base s s' : SInv task_of base s -> WInv s -> clean s -> mstep task_of true s s' -> WInv s'.
Proof.
  intros S I Cl St. pose proof (sinv_step _ _ agents_differ _ _ _ S St) as S'. apply si_ok in S'.
  destruct St as [s a Ha R|s a hart pid line w r Ha T|s a hart pid line Ha T|s a busy hart line w b Ha R T
    |s a busy hart line Ha R T|s a F Ha|s a Ha|s a n Ha Z|s a n Ha Z|s a n Ha Z|s a n Ha|s now L|s t k E|s t k keep E Idle H]; try done.
  - apply winv_quiet; rewrite ?Ha; done.
  - pose proof (turn_spec (task_of a) hart pid line (mw s)) as H. rewrite T in H. destruct r; cbn [turn_pc].
    + destruct H as (_ & _ & L & Q & P). apply winv_quiet; rewrite ?Ha; try done; [by eapply same_view_plus| |congruence].
      intros _ t Et. apply (wi_alive _ I a t Et). congruence.
    + destruct H as (-> & N & _). apply winv_quiet; rewrite ?Ha; try done. intros _ t Et. congruence.
    + destruct H as (Why & t & Et & E). by eapply winv_block.
  - pose proof (try_spec (current task_of a busy) hart line (mw s)) as H. rewrite T in H. destruct b.
    + destruct H as (_ & _ & _ & L & Q & P). apply winv_quiet; rewrite ?Ha; try done; [by eapply same_view_plus|congruence].
    + subst w. apply winv_quiet; rewrite ?Ha; done.
  - by apply winv_spurious.
  - apply winv_release; auto.
  - unfold finish in *. pose proof (leave_spec (task_of a) (mw s)) as L. destruct (leave_kernel_critical_section _ _) as [w'|]; [|done].
    destruct L as (M & _ & P). apply winv_wake; auto. by eapply same_view_plus.
  - apply winv_wake; auto. by apply same_view_eq.
  - by apply winv_wake_zombie.
  - unfold drop_again in *. apply winv_release; eauto; by case_if.
  - by apply winv_tasks.
  - apply winv_tasks; [done| |]; unfold has_process, upgrade, is_zombie; cbn [mtasks].
    + intros u. by destruct (decide (t = u)) as [->|]; [rewrite lookup_insert_eq|rewrite lookup_insert_ne].
    + intros a u _ _. destruct (decide (t = u)) as [->|]; [by rewrite lookup_insert_eq, E|by rewrite lookup_insert_ne].
  - apply winv_tasks; [done| |]; unfold has_process, upgrade, is_zombie; cbn [mtasks].
    + intros u. destruct (decide (t = u)) as [->|]; [by rewrite lookup_insert_eq, E|by rewrite lookup_insert_ne].
    + intros a u Ea Hi. rewrite lookup_insert_ne; [done|]. intros ->. by apply Hi, Idle.
Qed.

(** The states reached by runs that leave no entry behind. *)
Definition clean_reach (s : MutexSys) : Prop :=
  exists s0, mutex_boot s0 /\ rtc (fun x y => mstep task_of true x y /\ clean y) s0 s.

Lemma clean_reach_mreach s : clean_reach s -> mreach task_of true s.
Proof. intros (s0 & B & R). exists s0. split; [done|]. eapply rtc_subrel; [|exact R]. by intros x y [? _]. Qed.

Lemma winv_reach s : clean_reach s -> WInv s /\ clean s.
Proof.
  intros (s0 & B & R).
  assert (exists base, SInv task_of base s0) as [base S0] by (apply (sinv_reach _ false agents_differ); exists s0; split; [done|apply rtc_refl]).
  assert (SInv task_of base s /\ WInv s /\ clean s) as [_ ?]; [|done]. destruct B as (E & P & Ok & _).
  apply (rtc_preserve_b (fun x y => mstep task_of true x y /\ clean y) (fun s => SInv task_of base s /\ WInv s /\ clean s) s0) with (y := s); [|done|split; [done|]].
  { intros x y (Sx & Wx & Cx) [St Cy]. split; [by apply (sinv_step _ _ agents_differ _ _ _ Sx St)|split; [by apply (winv_step base x)|done]]. }
  assert (forall a, pc_of a s0 = PIdle) as Id by (intros a; unfold pc_of; by rewrite P, lookup_empty).
  remember (fair (mutex (mw s0))) as f eqn:Ef. clear Ef. split; [split|]; unfold clean, inn; rewrite ?E; cbn.
  - intros a t _ H. by rewrite Id in H.
  - intros b. by rewrite Id.
  - done.
  - by left.
  - by intros t ?%not_elem_of_nil.
Qed.
End Waiters.

(** ** Fairness *)

Section Fair.
Context (task_of : nat -> option nat) (spurious : bool).

Lemma releases_step s s' : 0 <= fair_bypass_releases (inn (mw s)) < FAIR_HANDOFF_INTERVAL -> mstep task_of spurious s s' ->
  0 <= fair_bypass_releases (inn (mw s')) < FAIR_HANDOFF_INTERVAL.
Proof.
  assert (forall o w w' b, handoff_allows_acquire o w = (w', b) -> fair_bypass_releases (inn w') = fair_bypass_releases (inn w)) as KH.
  { intros o w w' b. unfold handoff_allows_acquire. repeat case_if; try destruct (handoff (inn w)); repeat case_if; by intros [= <- _]. }
  assert (forall o h p l w w', acquire o h p l w = Some w' -> fair_bypass_releases (inn w') = fair_bypass_releases (inn w)) as KA.
  { intros o h p l w w' E. unfold acquire in E. pose proof (enter_spec o (set_owner h p l (set_inner (set_locked true (inn w)) w))) as X.
    rewrite E in X. destruct X as [M _]. unfold inn. by rewrite M. }
  assert (forall a w s, 0 <= fair_bypass_releases (inn w) < FAIR_HANDOFF_INTERVAL ->
    0 <= fair_bypass_releases (inn (mw (after_release task_of a (release_section w) s))) < FAIR_HANDOFF_INTERVAL) as KR.
  { intros a w x B. destruct (release_section w) as [w' r] eqn:R. apply release_spec in R as (_ & _ & _ & _ & R).
    destruct r as [n|]; cbn.
    - destruct R as (_ & -> & _). case_if; [|done]. case_if; unfold FAIR_HANDOFF_INTERVAL, NO_OWNER in *; lia.
    - unfold finish. pose proof (leave_spec (task_of a) w') as L. destruct R as (_ & _ & R & _).
      destruct (leave_kernel_critical_section _ _); cbn; [destruct L as [M _]; unfold inn in *; rewrite M|]; rewrite R; done. }
  intros B St. destruct St as [s a Ha R|s a hart pid line w r Ha H0|s a hart pid line Ha T|s a busy hart line w b Ha R H1
    |s a busy hart line Ha R T|s a F Ha|s a Ha|s a n Ha Z|s a n Ha Z|s a n Ha Z|s a n Ha|s now L|s t k E|s t k keep E Idle H]; try done; cbn [mw].
  - unfold lock_turn in H0. destruct (if negb _ then _ else _) as [w1 al] eqn:E1.
    assert (fair_bypass_releases (inn w1) = fair_bypass_releases (inn (mw s))) as X by (case_if_in E1; [by eapply KH|by injection E1 as <- _]).
    rewrite <- X in B.
    destruct al; [destruct (acquire _ _ _ _ w1) as [w2|] eqn:E2; [injection H0 as <- _; by rewrite (KA _ _ _ _ _ _ E2)|done]|].
    destruct (task_of a); [|by injection H0 as <- _]. injection H0 as <- _. by case_if.
  - unfold try_lock in H1. destruct (current task_of a busy) as [[t|]|]; [|by injection H1 as <- _|].
    all: case_if_in H1; [by injection H1 as <- _|].
    all: destruct (handoff_allows_acquire None (mw s)) as [w1 al] eqn:E1; pose proof (KH _ _ _ _ E1) as E3; rewrite <- E3 in B.
    all: case_if_in H1; [by injection H1 as <- _|].
    all: destruct (acquire _ _ _ _ w1) as [w2|] eqn:E2; [injection H1 as <- _; by rewrite (KA _ _ _ _ _ _ E2)|done].
  - by apply KR.
  - unfold finish. pose proof (leave_spec (task_of a) (mw s)) as L. destruct (leave_kernel_critical_section _ _); cbn; [|done].
    destruct L as [M _]. unfold inn. by rewrite M.
  - unfold drop_again. apply KR. by case_if.
Qed.

Lemma releases_reach s : mreach task_of spurious s -> 0 <= fair_bypass_releases (inn (mw s)) < FAIR_HANDOFF_INTERVAL.
Proof.
  intros (s0 & (E & _) & R). apply (rtc_preserve_b _ _ _ releases_step _ R).
  unfold inn. rewrite E. cbn. unfold FAIR_HANDOFF_INTERVAL. lia.
Qed.
End Fair.
