(* ===== verification/SleepMutexMain.v ===== *)
(** * The blocking mutex: the theorems

    Mutual exclusion, no lost wake-up and the bounded reservation, each with a
    schedule of three tasks that reaches the situation; and the schedule in which
    an entry left in the queue absorbs a wake-up. *)

From S2P Require Import Prelude SleepMutex SleepMutexSpec.

Implicit Types w : MutexWorld.

(** ** Properties *)

Section Claims.
Context (task_of : nat -> option nat).
Hypothesis agents_differ : forall a b t, task_of a = Some t -> task_of b = Some t -> a = b.

(** C27: Mutual exclusion.  In every reachable state, also when blocked tasks are woken by others, at
    most one agent holds the mutex, [locked] is set exactly while one does, and the assertions on the
    depth of critical sections have not failed. *)
Theorem sleeplock_mutual_exclusion spurious s :
  mreach task_of spurious s ->
  panicked s = false /\
  (forall a b, pc_of a s = PHold -> pc_of b s = PHold -> a = b) /\
  (locked (inn (mw s)) = true <-> exists a, pc_of a s = PHold).
Proof. intros [base [One Lk _ Ok]]%(sinv_reach _ _ agents_differ). auto. Qed.

(** The next turn of the agent takes the mutex. *)
Definition acquires (a : nat) (s : MutexSys) : Prop :=
  forall hart pid line, exists w', lock_turn (task_of a) hart pid line (mw s) = Some (w', Acquired).

Lemma unreserved_acquires base s a : SInv task_of base s -> locked (inn (mw s)) = false -> pc_of a s = PTry ->
  (forall r, reserved_for r (mw s) -> task_of a = Some r) -> acquires a s.
Proof.
  intros S L Ha H hart pid line. pose proof (turn_spec (task_of a) hart pid line (mw s)) as T.
  destruct (lock_turn _ _ _ _ _) as [[w' []]|]; [by eauto| | |]; exfalso.
  - destruct T as (_ & N & [?|[r R%H]]); congruence.
  - destruct T as ([?|(r & R%H & N)] & _); congruence.
  - destruct T as (t & k & Et & Ek & D). destruct (si_depth _ _ _ S t k Ek) as [? Hd]. specialize (Hd a Et). rewrite Ha in Hd. cbn in Hd. lia.
Qed.

(** C28: No lost wake-up, also when signals and other events wake blocked tasks: when the mutex is
    free and a task whose process exists is blocked on it, some agent takes the mutex at its next turn, or
    is on its way to wake a task that is blocked on it, or is about to look for the next waiter: the
    mutex does not stay free while everybody sleeps.  This holds in the runs in which every entry of the queue
    is that of a task that is still in [lock] ([clean]).  The code does not ensure that: a task that
    something else woke and that then takes the mutex leaves its entry behind, and a later release
    is spent on it (see the findings). *)
Theorem sleeplock_no_lost_wakeup s b t :
  clean_reach task_of s -> locked (inn (mw s)) = false ->
  pc_of b s = PBlocked -> task_of b = Some t -> has_process t (mw s) = true ->
  exists a, (pc_of a s = PTry /\ acquires a s) \/ (exists n, pc_of a s = PRetry n) \/
    (exists n c, pc_of a s = PWake n /\ task_of c = Some n /\ pc_of c s = PBlocked).
Proof.
  intros R L Hb Eb Pb. destruct (sinv_reach _ _ agents_differ s (clean_reach_mreach _ _ R)) as [base S].
  destruct (winv_reach _ agents_differ s R) as [I Cl].
  assert (exists a, effective task_of a s) as [a Eff].
  { destruct (wi_blocked _ _ I b Hb) as (t' & E & [Q|[[a Ha]|?]]); [| |congruence].
    - destruct (wi_free _ _ I L) as [E0|?]; [|done]. rewrite E0 in Q. by apply not_elem_of_nil in Q.
    - exists a. right. right. exists t'. split; [done|]. by exists b. }
  assert (forall r, handoff (inn (mw s)) = Some r -> exists c, (pc_of c s = PTry /\ acquires c s) \/ (exists n, pc_of c s = PRetry n) \/
    (exists n c0, pc_of c s = PWake n /\ task_of c0 = Some n /\ pc_of c0 s = PBlocked)) as Res.
  { intros r Hr. destruct (wi_handoff _ _ I r L Hr) as [(c & Ec & Hc)|[(c0 & E0 & H0) [c Hc]]]; exists c; [left|right; right; eauto].
    split; [done|]. eapply unreserved_acquires; [done|done|done|]. intros r' (_ & Hr' & _). congruence. }
  destruct Eff as [Ha|[[n Ha]|(n & Ha & c & Ec & Hc)]]; [|exists a; eauto|exists a; right; right; eauto].
  destruct (handoff_allows_acquire (task_of a) (mw s)) as [w' []] eqn:H; apply handoff_spec in H.
  - exists a. left. split; [done|]. eapply unreserved_acquires; [done|done|done|apply H].
  - destruct H as [_ (r & (_ & Hr & _) & _)]. by apply (Res r).
Qed.

(** The world at a later time. *)
Definition at_time (now : Z) w : MutexWorld := mkMW (mutex w) (mtasks w) now.

(** The reservation.  When the holder of a fair mutex releases it and [n] is woken, [n] is the first
    waiter of the queue that can be; seven releases of eight only count, the eighth reserves the mutex:
    for ten milliseconds nobody but [n] can take it, neither by [lock] nor by [try_lock], and then
    everybody can. *)
Theorem sleeplock_fair_handoff spurious s a w n :
  mreach task_of spurious s -> pc_of a s = PHold -> fair (mutex (mw s)) = true -> drop_first (mw s) = (w, Some n) ->
  let c := fair_bypass_releases (inn (mw s)) in
  0 <= c < 8 /\ locked (inn w) = false /\
  (exists pre, wait_queue (inn (mw s)) = pre ++ n :: wait_queue (inn w) /\ forall t, t ∈ pre -> live t (mw s) = false) /\
  (c < 7 -> fair_bypass_releases (inn w) = c + 1 /\ handoff (inn w) = None) /\
  (c = 7 -> fair_bypass_releases (inn w) = 0 /\ forall now, now_ns w <= now ->
     (now < now_ns w + 10000000 ->
        (forall o hart pid line w', lock_turn o hart pid line (at_time now w) = Some (w', Acquired) -> o = Some n) /\
        (forall cur hart line w', try_lock cur hart line (at_time now w) <> Some (w', true))) /\
     (now_ns w + 10000000 <= now -> forall r, ~ reserved_for r (at_time now w))).
Proof.
  intros R Ha F D c. pose proof (releases_reach _ _ s R) as B. fold c in B. unfold drop_first in D.
  apply release_spec in D as (T & N & L & F' & (pre & Q & Ln & P) & C & H & St). cbn in Q, F', N, L. rewrite F in F'.
  cbn [fair mutex set_inner set_owner inner inn set_locked fair_bypass_releases] in C, H, St. rewrite F in C, H, St. cbn [andb] in C, H, St.
  fold c in C, H, St.
  assert (Z.min (c + 1) NO_OWNER = c + 1) as M by (unfold NO_OWNER, FAIR_HANDOFF_INTERVAL in *; lia). rewrite M in C, H, St.
  split; [done|]. split; [done|]. split; [exists pre; split; [done|]; intros t Ht; by apply P in Ht|].
  destruct (Z.leb_spec FAIR_HANDOFF_INTERVAL (c + 1)) as [G|G]; unfold FAIR_HANDOFF_INTERVAL in *.
  - split; [lia|]. intros _. split; [done|]. intros now Hn. specialize (St eq_refl). cbn [now_ns set_inner set_owner] in St. split.
    + intros Hl. assert (reserved_for n (at_time now w)) as Rs.
      { split; [done|]. split; [done|]. split; [|change (inn (at_time now w)) with (inn w); rewrite St; cbn [now_ns at_time]; unfold FAIR_HANDOFF_TIMEOUT_NS; lia].
        apply andb_true_iff in Ln as [Ln _]. unfold upgrade in *. cbn in *. by rewrite T. }
      split.
      * intros o hart pid line w' E. pose proof (turn_spec o hart pid line (at_time now w)) as X. rewrite E in X. by apply X.
      * intros cur hart line w' E. pose proof (try_spec cur hart line (at_time now w)) as X. rewrite E in X. destruct X as (_ & _ & X & _). by apply X in Rs.
    + intros Hl r (_ & _ & _ & E). change (inn (at_time now w)) with (inn w) in E. rewrite St in E. cbn [now_ns at_time] in E. unfold FAIR_HANDOFF_TIMEOUT_NS in E. lia.
  - split; [done|]. lia.
Qed.
End Claims.

(** ** Schedules *)

Section Demo.
Context (spurious : bool).
Definition demo_task (a : nat) : option nat := Some a.

Inductive MAct := ALock (a : nat) | ATurn (a : nat) | ASpurious (a : nat) | ADrop (a : nat) | AWake (a : nat) | ATime (now : Z).

Definition runs_b (a : nat) (s : MutexSys) : bool := upgrade a (mw s) && negb (is_zombie a (mw s)).

Definition mact (s : MutexSys) (x : MAct) : option MutexSys :=
  match x with
  | ALock a => match pc_of a s with PIdle => if runs_b a s then Some (mkMS (mw s) (<[a := PTry]> (pcs s)) (panicked s)) else None | _ => None end
  | ATurn a => match pc_of a s, lock_turn (demo_task a) 0 0 0 (mw s) with
               | PTry, Some (w, r) => Some (mkMS w (<[a := turn_pc r]> (pcs s)) (panicked s)) | _, _ => None end
  | ASpurious a => match pc_of a s with PBlocked => if spurious then Some (mkMS (mw s) (<[a := PTry]> (pcs s)) (panicked s)) else None | _ => None end
  | ADrop a => match pc_of a s with PHold => Some (after_release demo_task a (drop_first (mw s)) s) | _ => None end
  | AWake a => match pc_of a s with PWake n => if is_zombie n (mw s) then None else Some (finish demo_task a (mw s) (unblock demo_task n (pcs s)) (panicked s)) | _ => None end
  | ATime now => if now_ns (mw s) <=? now then Some (mkMS (mkMW (mutex (mw s)) (mtasks (mw s)) now) (pcs s) (panicked s)) else None
  end.

Lemma mact_step s x s' : mact s x = Some s' -> mstep demo_task spurious s s'.
Proof.
  destruct x as [a|a|a|a|a|now]; cbn.
  - destruct (pc_of a s) eqn:E; try done. destruct (runs_b a s) eqn:R; [|done]. intros [= <-]. apply ms_lock; [done|].
    intros t [= <-]. unfold runs_b in R. apply andb_true_iff in R as [? ?%negb_true_iff]. done.
  - destruct (pc_of a s) eqn:E; try done. destruct (lock_turn _ _ _ _ _) as [[w r]|] eqn:T; [|done]. intros [= <-]. by eapply ms_turn.
  - destruct (pc_of a s) eqn:E; try done. destruct spurious eqn:F; [|done]. intros [= <-]. by apply ms_spurious.
  - destruct (pc_of a s) eqn:E; try done. intros [= <-]. by apply ms_drop.
  - destruct (pc_of a s) eqn:E; try done. destruct (is_zombie _ _) eqn:Z; [done|]. intros [= <-]. by apply ms_wake.
  - destruct (Z.leb_spec (now_ns (mw s)) now); [|done]. intros [= <-]. by apply ms_clock.
Qed.

Fixpoint mschedule (l : list MAct) (s : MutexSys) : option MutexSys :=
  match l with [] => Some s | x :: l => match mact s x with Some s => mschedule l s | None => None end end.

Lemma mschedule_steps l : forall s s', mschedule l s = Some s' -> rtc (mstep demo_task spurious) s s'.
Proof.
  induction l as [|x l IH]; cbn; intros s s'; [intros [= <-]; apply rtc_refl|].
  destruct (mact s x) as [s1|] eqn:E; [|done]. intros H. eapply rtc_l; [by apply mact_step in E|by apply IH].
Qed.

Definition demo_mtask (t : nat) : MutexTask := mkMTask true (Some (Z.of_nat t)) false 0.
Definition demo_boot (f : bool) : MutexSys :=
  mkMS (mkMW (new_with_fairness f) {[1%nat := demo_mtask 1; 2%nat := demo_mtask 2; 3%nat := demo_mtask 3]} 100) ∅ false.

Lemma demo_boot_ok f : mutex_boot (demo_boot f).
Proof.
  split; [done|]. split; [done|]. split; [done|]. intros t k E. cut (kernel_critical_depth k = 0); [unfold NO_OWNER; lia|].
  revert t k E. change (map_Forall (fun _ k => kernel_critical_depth k = 0) (mtasks (mw (demo_boot f)))).
  cbn [demo_boot mw mtasks]. repeat (apply map_Forall_insert_2; [done|]). apply map_Forall_empty.
Qed.

Lemma mschedule_reach f l s : mschedule l (demo_boot f) = Some s -> mreach demo_task spurious s.
Proof. intros E. exists (demo_boot f). split; [apply demo_boot_ok|by eapply mschedule_steps]. Qed.
End Demo.

Lemma demo_differ : forall a b t : nat, demo_task a = Some t -> demo_task b = Some t -> a = b.
Proof. unfold demo_task. congruence. Qed.

(** Task 1 holds the mutex, 3 and 2 wait, 1 has released it and wakes 3. *)
Definition demo_wake : list MAct := [ALock 1; ATurn 1; ALock 3; ATurn 3; ALock 2; ATurn 2; ADrop 1].

Lemma sleeplock_mutual_exclusion_witness : exists s,
  mreach demo_task true s /\ pc_of 1 s = PHold /\ panicked s = false /\ (forall b, pc_of b s = PHold -> b = 1%nat).
Proof.
  eexists. split; [by apply (mschedule_reach true false [ALock 1; ATurn 1; ALock 3; ATurn 3; ASpurious 3; ATurn 3]); vm_compute|].
  split; [by vm_compute|].
  edestruct (sleeplock_mutual_exclusion demo_task demo_differ true) as (Ok & One & _);
    [by apply (mschedule_reach true false [ALock 1; ATurn 1; ALock 3; ATurn 3; ASpurious 3; ATurn 3]); vm_compute|].
  split; [exact Ok|]. intros b Hb. apply (One b 1%nat Hb). by vm_compute.
Defined.

(** Schedules that leave no entry behind. *)
Definition clean_b (s : MutexSys) : bool :=
  forallb (fun t => match pc_of t s with PTry | PBlocked => true | _ => false end) (wait_queue (inn (mw s))).

Fixpoint cschedule (l : list MAct) (s : MutexSys) : option MutexSys :=
  match l with [] => Some s | x :: l => match mact true s x with Some s => if clean_b s then cschedule l s else None | None => None end end.

Lemma cschedule_reach f l s : cschedule l (demo_boot f) = Some s -> clean_reach demo_task s.
Proof.
  intros E. exists (demo_boot f). split; [apply demo_boot_ok|]. revert E. generalize (demo_boot f). induction l as [|x l IH]; cbn; intros s1; [intros [= <-]; apply rtc_refl|].
  destruct (mact true s1 x) as [s2|] eqn:E; [|done]. destruct (clean_b s2) eqn:C; [|done]. intros H. eapply rtc_l; [|by apply IH].
  split; [by eapply mact_step|]. intros t Ht%list_elem_of_In. unfold clean_b in C. rewrite forallb_forall in C. specialize (C t Ht).
  exists t. split; [done|]. destruct (pc_of t s2); auto; done.
Qed.

(** As above; 2 is woken by something else and goes back to sleep before the release. *)
Definition demo_disturbed : list MAct := [ALock 1; ATurn 1; ALock 3; ATurn 3; ALock 2; ATurn 2; ASpurious 2; ATurn 2; ADrop 1; AWake 1].

Lemma sleeplock_no_lost_wakeup_witness : exists s,
  clean_reach demo_task s /\ pc_of 2 s = PBlocked /\
  exists a, (pc_of a s = PTry /\ acquires demo_task a s) \/ (exists n, pc_of a s = PRetry n) \/
    (exists n c, pc_of a s = PWake n /\ demo_task c = Some n /\ pc_of c s = PBlocked).
Proof.
  eexists. split; [by apply (cschedule_reach false demo_disturbed); vm_compute|]. split; [by vm_compute|].
  apply (sleeplock_no_lost_wakeup demo_task demo_differ _ 2 2); [by apply (cschedule_reach false demo_disturbed); vm_compute|..]; by vm_compute.
Defined.

(** Task 1 takes and releases the mutex again and again while 3 waits: 3 loses every race until its turn. *)
Definition demo_round : list MAct := [AWake 1; ALock 1; ATurn 1; ATurn 3; ADrop 1].
Definition demo_rounds : list MAct := [ALock 1; ATurn 1; ALock 3; ATurn 3; ADrop 1] ++ concat (replicate 6 demo_round) ++ [AWake 1; ALock 1; ATurn 1; ATurn 3].

Lemma sleeplock_fair_handoff_witness : exists s w,
  mreach demo_task false s /\ drop_first (mw s) = (w, Some 3%nat) /\ fair_bypass_releases (inn (mw s)) = 7 /\
  forall cur hart line w', try_lock cur hart line (at_time 200 w) <> Some (w', true).
Proof.
  eexists _, _. split; [by apply (mschedule_reach false true demo_rounds); vm_compute|]. split; [by vm_compute|]. split; [by vm_compute|].
  edestruct (fun s => sleeplock_fair_handoff demo_task false s 1) as (_ & _ & _ & _ & H);
    [by apply (mschedule_reach false true demo_rounds); vm_compute|by vm_compute|by vm_compute|by vm_compute|].
  destruct (H eq_refl) as [_ K]. apply (K 200); vm_compute; congruence.
Defined.

Lemma calm_agents s : map_Forall (fun _ pc => is_true (negb (active pc) && negb (is_hold pc))) (pcs s) ->
  forall a, active (pc_of a s) = false /\ pc_of a s <> PHold.
Proof.
  intros H a. unfold pc_of. destruct (pcs s !! a) as [pc|] eqn:E; [|done].
  specialize (H a pc E). cbn in H. by destruct pc.
Qed.

(** [lock] leaves its entry in the queue when it takes the mutex without having been popped; that entry
    absorbs the wake-up of a later release.  Here 2 is woken by something else and takes the mutex, 3
    goes back to sleep behind 2's old entry, and 2's release wakes 2 itself: the mutex is free, 3 is
    queued and asleep, and nobody is on the way to wake it. *)
Lemma sleeplock_stale_entry_loses_wakeup : exists s,
  mreach demo_task true s /\ locked (inn (mw s)) = false /\ wait_queue (inn (mw s)) = [3%nat] /\ pc_of 3 s = PBlocked /\
  has_process 3 (mw s) = true /\ forall a, active (pc_of a s) = false /\ pc_of a s <> PHold.
Proof.
  eexists. split; [by apply (mschedule_reach true false (demo_wake ++ [AWake 1; ASpurious 2; ATurn 2; ATurn 3; ADrop 2; AWake 2])); vm_compute|].
  repeat (split; [by vm_compute|]). apply calm_agents. apply (bool_decide_unpack _). by vm_compute.
Qed.
