(* ===== verification/Inotify.v ===== *)
(** * Inotify (os/src/fs/notify/inotify.rs)

    An instance keeps watches in the order of their descriptors and a queue of
    events.  File-system operations offer every event to every instance, which
    queues it for the watches that match by path or inode number; a reader takes
    events out in the wire format of inotify(7).

    Paths and names are byte strings.  A [Weak] reference to a task is upgraded by
    [live]; a [wakeup_task] is an entry of the list that an operation returns.  A
    weak reference to an instance is upgraded by looking it up in [ino_files]. *)

From S2P Require Import Prelude SysErr.

Definition IN_CLOEXEC : Z := 0x80000.
Definition IN_NONBLOCK : Z := 0x800.
Definition O_NONBLOCK : Z := 0x800.
Definition IN_ACCESS : Z := 0x1.
Definition IN_MODIFY : Z := 0x2.
Definition IN_ATTRIB : Z := 0x4.
Definition IN_CLOSE_WRITE : Z := 0x8.
Definition IN_CLOSE_NOWRITE : Z := 0x10.
Definition IN_OPEN : Z := 0x20.
Definition IN_MOVED_FROM : Z := 0x40.
Definition IN_MOVED_TO : Z := 0x80.
Definition IN_CREATE : Z := 0x100.
Definition IN_DELETE : Z := 0x200.
Definition IN_DELETE_SELF : Z := 0x400.
Definition IN_MOVE_SELF : Z := 0x800.
Definition IN_UNMOUNT : Z := 0x2000.
Definition IN_Q_OVERFLOW : Z := 0x4000.
Definition IN_IGNORED : Z := 0x8000.
Definition IN_ONLYDIR : Z := 0x1000000.
Definition IN_DONT_FOLLOW : Z := 0x2000000.
Definition IN_EXCL_UNLINK : Z := 0x4000000.
Definition IN_MASK_CREATE : Z := 0x10000000.
Definition IN_MASK_ADD : Z := 0x20000000.
Definition IN_ISDIR : Z := 0x40000000.
Definition IN_ONESHOT : Z := 0x80000000.

Definition INOTIFY_EVENT_SIZE : nat := 16.
Definition INOTIFY_NAME_ALIGN : nat := 16.
Definition INOTIFY_EVENT_MASK : Z := Z.lor (Z.lor (Z.lor 0xfff IN_UNMOUNT) IN_Q_OVERFLOW) IN_IGNORED.
Definition INOTIFY_WATCH_FLAGS : Z := Z.lor IN_EXCL_UNLINK IN_ONESHOT.
Definition INOTIFY_ADD_FLAGS : Z :=
  Z.lor (Z.lor (Z.lor (Z.lor (Z.lor IN_ONLYDIR IN_DONT_FOLLOW) IN_EXCL_UNLINK) IN_MASK_CREATE) IN_MASK_ADD) IN_ONESHOT.
Definition INOTIFY_DEFAULT_MAX_USER_INSTANCES : Z := 128.
Definition INOTIFY_DEFAULT_MAX_USER_WATCHES : Z := 8192.
Definition INOTIFY_DEFAULT_MAX_QUEUED_EVENTS : Z := 16384.

Record InotifyWatch := mkWatch {
  w_wd : Z; w_path : bytes; w_ino : option Z; w_aliases : list bytes; w_mask : Z; w_unlinked_children : list bytes }.
Record InotifyEvent := mkEvent { ev_wd : Z; ev_mask : Z; ev_cookie : Z; ev_name : bytes }.
Record InotifyState := mkIS {
  next_wd : Z;
  watches : list InotifyWatch;   (* ordered by [w_wd], the key of the map *)
  events : list InotifyEvent;
  is_read_waiters : list nat;
  is_poll_waiters : list nat;
  overflowed : bool }.
Record InotifyFile := mkIF { if_status_flags : Z; if_state : InotifyState }.

#[export] Instance InotifyEvent_eq_dec : EqDecision InotifyEvent.
Proof. solve_decision. Defined.

Implicit Types (st : InotifyState) (wt : InotifyWatch) (e : InotifyEvent).

Definition has_bit (mask bit : Z) : bool := negb (Z.land mask bit =? 0).

Definition set_watches (ws : list InotifyWatch) st : InotifyState :=
  mkIS (next_wd st) ws (events st) (is_read_waiters st) (is_poll_waiters st) (overflowed st).
Definition set_events (es : list InotifyEvent) st : InotifyState :=
  mkIS (next_wd st) (watches st) es (is_read_waiters st) (is_poll_waiters st) (overflowed st).
Definition set_overflowed (b : bool) st : InotifyState :=
  mkIS (next_wd st) (watches st) (events st) (is_read_waiters st) (is_poll_waiters st) b.
Definition set_read_waiters (q : list nat) st : InotifyState :=
  mkIS (next_wd st) (watches st) (events st) q (is_poll_waiters st) (overflowed st).
Definition set_poll_waiters (q : list nat) st : InotifyState :=
  mkIS (next_wd st) (watches st) (events st) (is_read_waiters st) q (overflowed st).

Definition new_state : InotifyState := mkIS 1 [] [] [] [] false.
Definition new_file (status_flags : Z) : InotifyFile := mkIF status_flags new_state.

(** ** Paths and masks *)

Definition SLASH : Z := 47.

Definition is_path (a b : bytes) : bool := bool_decide (a = b).

(** [trim_end_matches('/')] *)
Fixpoint trim_rev (r : bytes) : bytes :=
  match r with c :: r' => if c =? SLASH then trim_rev r' else r | [] => [] end.
Definition trim_end_slashes (p : bytes) : bytes := rev (trim_rev (rev p)).

(** [rfind('/')], as what comes before and after it. *)
Fixpoint split_rev (r name : bytes) : option (bytes * bytes) :=
  match r with
  | [] => None
  | c :: r' => if c =? SLASH then Some (rev r', name) else split_rev r' (c :: name)
  end.

Definition parent_and_name (path : bytes) : option (bytes * bytes) :=
  let path := trim_end_slashes path in
  if bool_decide (path = []) || is_path path [SLASH] then None
  else match split_rev (rev path) [] with
       | Some ([], name) => Some ([SLASH], name)
       | Some (parent, name) => Some (parent, name)
       | None => Some ([46], path)
       end.

Definition parent_path (path : bytes) : option bytes := fst <$> parent_and_name path.

Definition starts_with_slash (p : bytes) : bool := match p with c :: _ => c =? SLASH | [] => false end.

Fixpoint strip_prefix (prefix p : bytes) : option bytes :=
  match prefix, p with
  | [], _ => Some p
  | a :: prefix, b :: p => if a =? b then strip_prefix prefix p else None
  | _, [] => None
  end.

Definition path_is_at_or_below_mount (path mount_path : bytes) : bool :=
  let mount_path := trim_end_slashes mount_path in
  if is_path mount_path [SLASH] then starts_with_slash path
  else is_path path mount_path || match strip_prefix mount_path path with Some rest => starts_with_slash rest | None => false end.

Definition mask_matches (watch_mask event_mask : Z) : bool := has_bit watch_mask (Z.land event_mask INOTIFY_EVENT_MASK).
Definition sanitize_watch_mask (mask : Z) : Z := Z.land mask (Z.lor INOTIFY_EVENT_MASK INOTIFY_WATCH_FLAGS).

Definition validate_watch_mask (mask : Z) : SysResult unit :=
  if has_bit mask (Z.lxor (2 ^ 32 - 1) (Z.lor INOTIFY_EVENT_MASK INOTIFY_ADD_FLAGS)) then Err EINVAL
  else if Z.land mask (Z.lor IN_MASK_ADD IN_MASK_CREATE) =? Z.lor IN_MASK_ADD IN_MASK_CREATE then Err EINVAL
  else if negb (has_bit mask INOTIFY_EVENT_MASK) then Err EINVAL
  else Ok tt.

(** ** Watches *)

Definition same_ino (a b : option Z) : bool := match a with Some _ => bool_decide (a = b) | None => false end.

Definition matches_path (path : bytes) wt : bool := is_path (w_path wt) path || existsb (fun a => is_path a path) (w_aliases wt).
Definition matches_target (path : bytes) (ino : option Z) wt : bool := same_ino (w_ino wt) ino || matches_path path wt.
Definition matches_child_parent (parent : bytes) (parent_ino : option Z) wt : bool := same_ino (w_ino wt) parent_ino || matches_path parent wt.

Definition add_alias (path : bytes) wt : InotifyWatch :=
  if negb (is_path (w_path wt) path) && negb (existsb (fun a => is_path a path) (w_aliases wt))
  then mkWatch (w_wd wt) (w_path wt) (w_ino wt) (w_aliases wt ++ [path]) (w_mask wt) (w_unlinked_children wt) else wt.

Definition oneshot wt : bool := has_bit (w_mask wt) IN_ONESHOT.

Definition set_unlinked (l : list bytes) wt : InotifyWatch := mkWatch (w_wd wt) (w_path wt) (w_ino wt) (w_aliases wt) (w_mask wt) l.

Definition note_unlinked_child (path : bytes) wt : InotifyWatch :=
  if has_bit (w_mask wt) IN_EXCL_UNLINK && negb (existsb (fun u => is_path u path) (w_unlinked_children wt))
  then set_unlinked (w_unlinked_children wt ++ [path]) wt else wt.

Definition forget_unlinked_child (path : bytes) wt : InotifyWatch :=
  set_unlinked (List.filter (fun u => negb (is_path u path)) (w_unlinked_children wt)) wt.

Definition excludes_unlinked_child (path : bytes) wt : bool :=
  has_bit (w_mask wt) IN_EXCL_UNLINK && existsb (fun u => is_path u path) (w_unlinked_children wt).

Definition is_under_mount (mount_path : bytes) wt : bool :=
  path_is_at_or_below_mount (w_path wt) mount_path || existsb (fun a => path_is_at_or_below_mount a mount_path) (w_aliases wt).

(** [name] with its terminator, padded to the alignment. *)
Definition event_name (name : bytes) : bytes :=
  let n := (length name + 1)%nat in
  name ++ [0] ++ repeat 0 ((INOTIFY_NAME_ALIGN - n mod INOTIFY_NAME_ALIGN) mod INOTIFY_NAME_ALIGN).

(** The map of watches. *)
Fixpoint insert_watch wt (ws : list InotifyWatch) : list InotifyWatch :=
  match ws with
  | [] => [wt]
  | x :: ws => if w_wd wt <? w_wd x then wt :: x :: ws else if w_wd wt =? w_wd x then wt :: ws else x :: insert_watch wt ws
  end.

Definition has_watch (wd : Z) (ws : list InotifyWatch) : bool := existsb (fun wt => w_wd wt =? wd) ws.
Definition delete_watch (wd : Z) (ws : list InotifyWatch) : list InotifyWatch := List.filter (fun wt => negb (w_wd wt =? wd)) ws.

Fixpoint update_first (f : InotifyWatch -> bool) (g : InotifyWatch -> InotifyWatch) (ws : list InotifyWatch) : list InotifyWatch :=
  match ws with [] => [] | x :: ws => if f x then g x :: ws else x :: update_first f g ws end.

Definition live_inotify_watch_count_locked st : Z := Z.of_nat (length (watches st)).

(** [max_watches]: [inotify_max_user_watches()]. *)
Definition add_watch (max_watches : Z) (path : bytes) (ino : option Z) (mask : Z) st : InotifyState * SysResult Z :=
  let same wt := same_ino (w_ino wt) ino || (bool_decide (w_ino wt = None) && is_path (w_path wt) path) in
  match List.find same (watches st) with
  | Some watch =>
      if has_bit mask IN_MASK_CREATE then (st, Err EEXIST)
      else let update wt :=
             if has_bit mask IN_MASK_ADD
             then mkWatch (w_wd wt) (w_path wt) (w_ino wt) (w_aliases wt) (Z.lor (w_mask wt) (sanitize_watch_mask mask)) (w_unlinked_children wt)
             else mkWatch (w_wd wt) path ino (w_aliases wt) (sanitize_watch_mask mask) []
           in (set_watches (update_first same update (watches st)) st, Ok (w_wd watch))
  | None =>
      if max_watches <=? live_inotify_watch_count_locked st then (st, Err ENOSPC)
      else let wd := next_wd st in
           (mkIS (signed 32 (wrap 32 (wd + 1))) (insert_watch (mkWatch wd path ino [] (sanitize_watch_mask mask) []) (watches st))
              (events st) (is_read_waiters st) (is_poll_waiters st) (overflowed st), Ok wd)
  end.

Definition ignored (wd : Z) : InotifyEvent := mkEvent wd IN_IGNORED 0 [].

Definition remove_watch (wd : Z) st : InotifyState * SysResult unit :=
  if has_watch wd (watches st)
  then (set_events (events st ++ [ignored wd]) (set_watches (delete_watch wd (watches st)) st), Ok tt)
  else (st, Err EINVAL).

(** ** Waiters *)

Section Ops.
Context (live : nat -> bool).

Definition register_waiter (waiters : list nat) (task : nat) : list nat :=
  let kept := List.filter live waiters in
  if existsb (fun t => (t =? task)%nat) kept then kept else kept ++ [task].
Definition clear_waiter (waiters : list nat) (task : nat) : list nat := List.filter (fun t => live t && negb (t =? task)%nat) waiters.
Definition wake_waiter_queue (waiters : list nat) : list nat := List.filter live waiters.

Definition wake_waiters st : InotifyState * list nat :=
  (set_poll_waiters [] (set_read_waiters [] st), wake_waiter_queue (is_read_waiters st) ++ wake_waiter_queue (is_poll_waiters st)).

(** ** The queue *)

Definition overflow_event : InotifyEvent := mkEvent (-1) IN_Q_OVERFLOW 0 [].

(** [limit]: [inotify_max_queued_events()]. *)
Definition push_event (limit : Z) st e : InotifyState * bool :=
  if overflowed st then (st, false)
  else if bool_decide (last (events st) = Some e) then (st, false)
  else if limit <=? Z.of_nat (length (events st))
       then (set_overflowed true (set_events (removelast (events st) ++ [overflow_event]) st), true)
       else (set_events (events st ++ [e]) st, true).

Fixpoint push_events (limit : Z) (es : list InotifyEvent) (pushed : bool) st : InotifyState * bool :=
  match es with
  | [] => (st, pushed)
  | e :: es => let '(st, p) := push_event limit st e in push_events limit es (pushed || p) st
  end.

Definition push_and_wake (limit : Z) (es : list InotifyEvent) st : InotifyState * list nat :=
  let '(st, pushed) := push_events limit es false st in if pushed then wake_waiters st else (st, []).

(** A loop over the watches: what becomes of a watch, its events, whether it is to be ignored. *)
Fixpoint each_watch (f : InotifyWatch -> InotifyWatch * list InotifyEvent * list Z) (ws : list InotifyWatch) :
    list InotifyWatch * list InotifyEvent * list Z :=
  match ws with
  | [] => ([], [], [])
  | wt :: ws => let '(wt, es, ig) := f wt in let '(ws, es', ig') := each_watch f ws in (wt :: ws, es ++ es', ig ++ ig')
  end.

(** The loop over the watches that are done, with their last event. *)
Fixpoint drop_ignored (wds : list Z) (ws : list InotifyWatch) (es : list InotifyEvent) : list InotifyWatch * list InotifyEvent :=
  match wds with
  | [] => (ws, es)
  | wd :: wds => if has_watch wd ws then drop_ignored wds (delete_watch wd ws) (es ++ [ignored wd]) else drop_ignored wds ws es
  end.

Definition once wt (queued : bool) : list Z := if queued && oneshot wt then [w_wd wt] else [].

Definition matching_watch (path : bytes) (ino parent_ino : option Z) (mask : Z) wt : InotifyWatch * list InotifyEvent * list Z :=
  if matches_target path ino wt then
    if mask_matches (w_mask wt) mask then (wt, [mkEvent (w_wd wt) mask 0 []], once wt true) else (wt, [], [])
  else match parent_and_name path with
       | Some (parent, name) =>
           if matches_child_parent parent parent_ino wt then
             let wt := if has_bit mask IN_CREATE then forget_unlinked_child path wt else wt in
             if excludes_unlinked_child path wt then (wt, [], [])
             else if mask_matches (w_mask wt) mask then (wt, [mkEvent (w_wd wt) mask 0 (event_name name)], once wt true)
             else (wt, [], [])
           else (wt, [], [])
       | None => (wt, [], [])
       end.

Definition queue_matching_event (limit : Z) (path : bytes) (ino parent_ino : option Z) (mask : Z) st : InotifyState * list nat :=
  let '(ws, es, ig) := each_watch (matching_watch path ino parent_ino mask) (watches st) in
  let '(ws, es) := drop_ignored ig ws es in
  push_and_wake limit es (set_watches ws st).

Definition delete_child (path : bytes) (parent_ino : option Z) (child_mask : Z) wt : InotifyWatch * list InotifyEvent :=
  match parent_and_name path with
  | Some (parent, name) =>
      if matches_child_parent parent parent_ino wt then
        let wt := note_unlinked_child path wt in
        (wt, if mask_matches (w_mask wt) child_mask then [mkEvent (w_wd wt) child_mask 0 (event_name name)] else [])
      else (wt, [])
  | None => (wt, [])
  end.

Definition delete_watch_events (path : bytes) (ino parent_ino : option Z) (is_dir removed : bool) wt : InotifyWatch * list InotifyEvent * list Z :=
  let '(wt, child) := delete_child path parent_ino (Z.lor IN_DELETE (if is_dir then IN_ISDIR else 0)) wt in
  let target := matches_target path ino wt in
  let attrib := if target && (negb is_dir && mask_matches (w_mask wt) IN_ATTRIB) then [mkEvent (w_wd wt) IN_ATTRIB 0 []] else [] in
  let self := if target && removed && mask_matches (w_mask wt) IN_DELETE_SELF then [mkEvent (w_wd wt) IN_DELETE_SELF 0 []] else [] in
  let queued := negb (bool_decide (child ++ attrib ++ self = [])) in
  (wt, child ++ attrib ++ self ++ (if target && removed then [ignored (w_wd wt)] else []),
   (if target && removed then [w_wd wt] else []) ++ once wt queued).

Definition queue_delete_event (limit : Z) (path : bytes) (ino parent_ino : option Z) (is_dir removed : bool) st : InotifyState * list nat :=
  let '(ws, es, ig) := each_watch (delete_watch_events path ino parent_ino is_dir removed) (watches st) in
  push_and_wake limit es (set_watches (fold_left (fun ws wd => delete_watch wd ws) ig ws) st).

Definition moved_child (path : bytes) (parent_ino : option Z) (mask cookie : Z) wt : list InotifyEvent :=
  match parent_and_name path with
  | Some (parent, name) =>
      if matches_child_parent parent parent_ino wt && mask_matches (w_mask wt) mask
      then [mkEvent (w_wd wt) mask cookie (event_name name)] else []
  | None => []
  end.

Definition move_watch_events (old_path new_path : bytes) (ino old_parent_ino new_parent_ino : option Z) (is_dir : bool) (cookie : Z) wt :
    InotifyWatch * list InotifyEvent * list Z :=
  let dir := if is_dir then IN_ISDIR else 0 in
  let watches_old := matches_target old_path ino wt in
  let watches_new := matches_target new_path ino wt in
  let es := moved_child old_path old_parent_ino (Z.lor IN_MOVED_FROM dir) cookie wt ++
            moved_child new_path new_parent_ino (Z.lor IN_MOVED_TO dir) cookie wt ++
            (if (watches_old || watches_new) && mask_matches (w_mask wt) IN_MOVE_SELF then [mkEvent (w_wd wt) IN_MOVE_SELF 0 []] else []) in
  let wt := if watches_old then add_alias new_path wt else wt in
  let wt := if watches_new then add_alias old_path wt else wt in
  (wt, es, once wt (negb (bool_decide (es = [])))).

Definition queue_move_event (limit : Z) (old_path new_path : bytes) (ino old_parent_ino new_parent_ino : option Z) (is_dir : bool) (cookie : Z) st :
    InotifyState * list nat :=
  let '(ws, es, ig) := each_watch (move_watch_events old_path new_path ino old_parent_ino new_parent_ino is_dir cookie) (watches st) in
  let '(ws, es) := drop_ignored ig ws es in
  push_and_wake limit es (set_watches ws st).

Fixpoint unmount_loop (wds : list Z) (ws : list InotifyWatch) (es : list InotifyEvent) : list InotifyWatch * list InotifyEvent :=
  match wds with
  | [] => (ws, es)
  | wd :: wds => if has_watch wd ws then unmount_loop wds (delete_watch wd ws) (es ++ [mkEvent wd IN_UNMOUNT 0 []; ignored wd]) else unmount_loop wds ws es
  end.

Definition queue_unmount_events (limit : Z) (mount_path : bytes) st : InotifyState * list nat :=
  let affected := w_wd <$> List.filter (is_under_mount mount_path) (watches st) in
  let '(ws, es) := unmount_loop affected (watches st) [] in
  push_and_wake limit es (set_watches ws st).

Definition has_events st : bool := negb (bool_decide (events st = [])).

(** ** Reading *)

Definition encode_event e : bytes :=
  le_store 4 (wrap 32 (ev_wd e)) ++ le_store 4 (ev_mask e) ++ le_store 4 (ev_cookie e) ++
  le_store 4 (wrap 32 (Z.of_nat (length (ev_name e)))) ++ ev_name e.

Definition event_len e : nat := INOTIFY_EVENT_SIZE + length (ev_name e).

Fixpoint read_loop (buf_len : nat) (out : bytes) (es : list InotifyEvent) (over : bool) : bytes * list InotifyEvent * bool :=
  match es with
  | [] => (out, [], over)
  | e :: rest =>
      if (buf_len <? length out + event_len e)%nat then (out, es, over)
      else read_loop buf_len (out ++ encode_event e) rest (if ev_mask e =? IN_Q_OVERFLOW then false else over)
  end.

(** The copy into the slices of the user buffer. *)
Fixpoint copy_out (bufs : list bytes) (out : bytes) (written : nat) : list bytes * nat :=
  match bufs with
  | [] => ([], written)
  | b :: rest =>
      if (length out <=? written)%nat then (b :: rest, written)
      else let n := Nat.min (length b) (length out - written) in
           let '(rest, total) := copy_out rest out (written + n) in
           (splice 0 (slice written (written + n) out) b :: rest, total)
  end.

Inductive ReadTurn := ReadDone (bufs : list bytes) (r : SysResult nat) | ReadBlocked.

(** One turn of [read] by [task], from the lock of the state to its release. *)
Definition read_turn (task : nat) (bufs : list bytes) (f : InotifyFile) : InotifyFile * ReadTurn :=
  let buf_len := length (concat bufs) in
  let st := if_state f in
  if (buf_len =? 0)%nat then (f, ReadDone bufs (Ok 0%nat))
  else match events st with
       | [] => if has_bit (if_status_flags f) O_NONBLOCK then (f, ReadDone bufs (Err EAGAIN))
               else (mkIF (if_status_flags f) (set_read_waiters (register_waiter (is_read_waiters st) task) st), ReadBlocked)
       | front :: _ =>
           if (buf_len <? event_len front)%nat then (f, ReadDone bufs (Err EINVAL))
           else let '(out, es, over) := read_loop buf_len [] (events st) (overflowed st) in
                let '(bufs, written) := copy_out bufs out 0 in
                (mkIF (if_status_flags f) (set_overflowed over (set_events es st)), ReadDone bufs (Ok written))
       end.

(** After the sleep; [interrupted]: the process is a zombie or a signal interrupts the call. *)
Definition read_resume (interrupted : bool) (task : nat) (bufs : list bytes) (f : InotifyFile) : InotifyFile * ReadTurn :=
  if interrupted then (f, ReadDone bufs (Err EINTR)) else read_turn task bufs f.

Definition set_status_flags (flags : Z) (f : InotifyFile) : InotifyFile :=
  mkIF (Z.lor (Z.land (if_status_flags f) (Z.lxor (2 ^ 32 - 1) O_NONBLOCK)) (Z.land flags O_NONBLOCK)) (if_state f).

Definition register_poll_waker (task : nat) st : InotifyState := set_poll_waiters (register_waiter (is_poll_waiters st) task) st.
Definition clear_poll_waker (task : nat) st : InotifyState := set_poll_waiters (clear_waiter (is_poll_waiters st) task) st.
Definition wake_poll_waiters st : InotifyState * list nat := (set_poll_waiters [] st, wake_waiter_queue (is_poll_waiters st)).
End Ops.

(** ** All instances *)

Record NotifyWorld := mkNW {
  INOTIFY_INSTANCES : list nat;
  ino_files : gmap nat InotifyFile;    (* those that are still open *)
  INOTIFY_INSTANCE_HINT : Z;
  NEXT_COOKIE : Z;
  INOTIFY_MAX_USER_INSTANCES : Z;
  INOTIFY_MAX_USER_WATCHES : Z;
  INOTIFY_MAX_QUEUED_EVENTS : Z;
  nt_live : gset nat;                  (* tasks that a weak reference still reaches *)
  nt_woken : list nat }.               (* [wakeup_task], oldest first *)

Implicit Types w : NotifyWorld.

Definition task_live w (t : nat) : bool := bool_decide (t ∈ nt_live w).

Definition set_files (files : gmap nat InotifyFile) (woken : list nat) w : NotifyWorld :=
  mkNW (INOTIFY_INSTANCES w) files (INOTIFY_INSTANCE_HINT w) (NEXT_COOKIE w) (INOTIFY_MAX_USER_INSTANCES w)
    (INOTIFY_MAX_USER_WATCHES w) (INOTIFY_MAX_QUEUED_EVENTS w) (nt_live w) (nt_woken w ++ woken).
Definition set_instances (l : list nat) w : NotifyWorld :=
  mkNW l (ino_files w) (INOTIFY_INSTANCE_HINT w) (NEXT_COOKIE w) (INOTIFY_MAX_USER_INSTANCES w)
    (INOTIFY_MAX_USER_WATCHES w) (INOTIFY_MAX_QUEUED_EVENTS w) (nt_live w) (nt_woken w).
Definition set_cookie (c : Z) w : NotifyWorld :=
  mkNW (INOTIFY_INSTANCES w) (ino_files w) (INOTIFY_INSTANCE_HINT w) c (INOTIFY_MAX_USER_INSTANCES w)
    (INOTIFY_MAX_USER_WATCHES w) (INOTIFY_MAX_QUEUED_EVENTS w) (nt_live w) (nt_woken w).
Definition set_hint (h : Z) w : NotifyWorld :=
  mkNW (INOTIFY_INSTANCES w) (ino_files w) h (NEXT_COOKIE w) (INOTIFY_MAX_USER_INSTANCES w)
    (INOTIFY_MAX_USER_WATCHES w) (INOTIFY_MAX_QUEUED_EVENTS w) (nt_live w) (nt_woken w).

Definition inotify_may_have_instances w : bool := negb (INOTIFY_INSTANCE_HINT w =? 0).

Definition is_open w (id : nat) : bool := bool_decide (is_Some (ino_files w !! id)).

(** [flags] is an [i32]. *)
Definition create_inotify_file (flags : Z) : SysResult InotifyFile :=
  if has_bit (wrap 32 flags) (Z.lxor (2 ^ 32 - 1) (Z.lor IN_CLOEXEC IN_NONBLOCK)) then Err EINVAL
  else Ok (new_file (if has_bit (wrap 32 flags) IN_NONBLOCK then O_NONBLOCK else 0)).

Definition inotify_init_cloexec (flags : Z) : bool := has_bit (wrap 32 flags) IN_CLOEXEC.

Definition register_inotify_file (id : nat) w : NotifyWorld * SysResult unit :=
  let w := set_instances (List.filter (is_open w) (INOTIFY_INSTANCES w)) w in
  if INOTIFY_MAX_USER_INSTANCES w <=? Z.of_nat (length (INOTIFY_INSTANCES w)) then (w, Err EMFILE)
  else (set_hint 1 (set_instances (INOTIFY_INSTANCES w ++ [id]) w), Ok tt).

(** What an event knows of a dentry: its path, its inode with whether that is a directory, its parent's inode. *)
Record NotifyDentry := mkND { nd_path : bytes; nd_inode : option (Z * bool); nd_parent_ino : option Z }.
Definition nd_ino (d : NotifyDentry) : option Z := fst <$> nd_inode d.
Definition nd_is_dir (d : NotifyDentry) : bool := match nd_inode d with Some (_, b) => b | None => false end.

Definition inotify_add_watch (id : nat) (d : NotifyDentry) (mask : Z) w : NotifyWorld * SysResult Z :=
  match validate_watch_mask mask with
  | Err e => (w, Err e)
  | Ok _ =>
      match nd_inode d with
      | None => (w, Err ENOENT)
      | Some (ino, is_dir) =>
          if has_bit mask IN_ONLYDIR && negb is_dir then (w, Err ENOTDIR)
          else match ino_files w !! id with
               | None => (w, Err EBADF)
               | Some f => let '(st, r) := add_watch (INOTIFY_MAX_USER_WATCHES w) (nd_path d) (Some ino) mask (if_state f) in
                           (set_files (<[id := mkIF (if_status_flags f) st]> (ino_files w)) [] w, r)
               end
      end
  end.

Definition inotify_remove_watch (id : nat) (wd : Z) w : NotifyWorld * SysResult unit :=
  match ino_files w !! id with
  | None => (w, Err EBADF)
  | Some f => let '(st, r) := remove_watch wd (if_state f) in
              (set_files (<[id := mkIF (if_status_flags f) st]> (ino_files w)) [] w, r)
  end.

Definition inotify_file_from_file (id : nat) w : NotifyWorld * option nat :=
  let kept := List.filter (is_open w) (INOTIFY_INSTANCES w) in
  (set_instances kept w, List.find (fun i => (i =? id)%nat) kept).

(** [instances.retain], each open instance running [f]. *)
Fixpoint run_instances (f : InotifyState -> InotifyState * list nat) (ids : list nat) w : NotifyWorld :=
  match ids with
  | [] => w
  | id :: ids =>
      match ino_files w !! id with
      | None => run_instances f ids w
      | Some file => let '(st, woken) := f (if_state file) in
                     run_instances f ids (set_files (<[id := mkIF (if_status_flags file) st]> (ino_files w)) woken w)
      end
  end.

Definition retain_instances (f : InotifyState -> InotifyState * list nat) w : NotifyWorld :=
  set_instances (List.filter (is_open w) (INOTIFY_INSTANCES w)) (run_instances f (INOTIFY_INSTANCES w) w).

Definition inotify_notify_path (path : bytes) (mask : Z) w : NotifyWorld :=
  if negb (inotify_may_have_instances w) then w
  else retain_instances (queue_matching_event (task_live w) (INOTIFY_MAX_QUEUED_EVENTS w) path None None mask) w.

Definition inotify_notify_dentry (d : NotifyDentry) (mask : Z) w : NotifyWorld :=
  if negb (inotify_may_have_instances w) then w
  else retain_instances (queue_matching_event (task_live w) (INOTIFY_MAX_QUEUED_EVENTS w) (nd_path d) (nd_ino d) (nd_parent_ino d) mask) w.

Definition inotify_notify_delete (path : bytes) (is_dir removed : bool) w : NotifyWorld :=
  retain_instances (queue_delete_event (task_live w) (INOTIFY_MAX_QUEUED_EVENTS w) path None None is_dir removed) w.

Definition inotify_notify_delete_dentry (d : NotifyDentry) (removed : bool) w : NotifyWorld :=
  retain_instances (queue_delete_event (task_live w) (INOTIFY_MAX_QUEUED_EVENTS w) (nd_path d) (nd_ino d) (nd_parent_ino d) (nd_is_dir d) removed) w.

Definition take_cookie w : NotifyWorld * Z :=
  (set_cookie (wrap 32 (NEXT_COOKIE w + 1)) w, if NEXT_COOKIE w =? 0 then 1 else NEXT_COOKIE w).

Definition inotify_notify_move (old_path new_path : bytes) (is_dir : bool) w : NotifyWorld :=
  let '(w, cookie) := take_cookie w in
  retain_instances (queue_move_event (task_live w) (INOTIFY_MAX_QUEUED_EVENTS w) old_path new_path None None None is_dir cookie) w.

(** [find_ino]: the inode number of the dentry that [find_dentry] finds. *)
Definition inotify_notify_move_dentry (find_ino : bytes -> option Z) (old_path new_path : bytes) (target : option NotifyDentry) (is_dir : bool) w : NotifyWorld :=
  let '(w, cookie) := take_cookie w in
  retain_instances (queue_move_event (task_live w) (INOTIFY_MAX_QUEUED_EVENTS w) old_path new_path (target ≫= nd_ino)
    (parent_path old_path ≫= find_ino) (parent_path new_path ≫= find_ino) is_dir cookie) w.

Definition inotify_notify_unmount (mount_path : bytes) w : NotifyWorld :=
  retain_instances (queue_unmount_events (task_live w) (INOTIFY_MAX_QUEUED_EVENTS w) mount_path) w.
