(* ===== verification/InotifySpec.v ===== *)
(** * Inotify: delivery, the queue, descriptors, the wire format

    What an instance promises: events of matching watches are queued in order or
    the queue says that it overflowed; a watch that goes away is announced; the
    overflow mark is in the queue exactly while the instance drops events;
    descriptors are fresh; what [read] returns decodes to the oldest events. *)

From Stdlib Require Import Sorted.
From S2P Require Import Prelude SysErr Inotify.

Implicit Types (st : InotifyState) (wt : InotifyWatch) (e : InotifyEvent).

(** ** The queue *)

Definition is_overflow e : bool := ev_mask e =? IN_Q_OVERFLOW.
Definition overflow_count (es : list InotifyEvent) : nat := length (List.filter is_overflow es).

(** The mark is queued exactly once while events are dropped, and not at all otherwise. *)
Definition marked st : Prop := overflow_count (events st) = (if overflowed st then 1 else 0)%nat.

Lemma overflow_count_app a b : overflow_count (a ++ b) = (overflow_count a + overflow_count b)%nat.
Proof. unfold overflow_count. by rewrite List.filter_app, length_app. Qed.

Lemma removelast_elem {A} (l : list A) x : x ∈ removelast l -> x ∈ l.
Proof.
  destruct l as [|y l]; [done|]. intros H. rewrite (app_removelast_last y (l := y :: l)) by done. apply elem_of_app. by left.
Qed.
Lemma removelast_length_b {A} (l : list A) : length (removelast l) = (length l - 1)%nat.
Proof.
  destruct l as [|y l]; [done|]. rewrite (app_removelast_last y (l := y :: l)) at 2 by done. rewrite length_app. cbn [length]. lia.
Qed.

Lemma sublist_elem_b {A} (l k : list A) x : l `sublist_of` k -> x ∈ l -> x ∈ k.
Proof. induction 1; set_solver. Qed.

(** [push_events] keeps what each [push_event] keeps. *)
Lemma push_events_ind limit (P : InotifyState -> Prop) es :
  (forall st e, e ∈ es -> P st -> P (fst (push_event limit st e))) ->
  forall p st, P st -> P (fst (push_events limit es p st)).
Proof.
  induction es as [|e es IH]; cbn; intros H p st Hp; [done|]. destruct (push_event limit st e) as [st1 p1] eqn:E.
  apply IH; [intros; apply H; [by right|done]|]. replace st1 with (fst (push_event limit st e)) by (by rewrite E). apply H; [by left|done].
Qed.

Definition same_rest st st' : Prop :=
  next_wd st' = next_wd st /\ watches st' = watches st /\ is_read_waiters st' = is_read_waiters st /\ is_poll_waiters st' = is_poll_waiters st.

Lemma push_events_rest limit es p st : same_rest st (fst (push_events limit es p st)).
Proof.
  apply (push_events_ind limit (same_rest st)); [|done]. intros st1 e _ H. unfold push_event. by repeat case_if.
Qed.

Lemma push_events_in limit es e : forall p st, e ∈ events st \/ e ∈ es ->
  e ∈ events (fst (push_events limit es p st)) \/ overflowed (fst (push_events limit es p st)) = true.
Proof.
  assert (forall es p st, e ∈ events st \/ overflowed st = true ->
    e ∈ events (fst (push_events limit es p st)) \/ overflowed (fst (push_events limit es p st)) = true) as K.
  { intros es'. apply (push_events_ind limit (fun st => e ∈ events st \/ overflowed st = true)). intros st x _ H. unfold push_event.
    repeat case_if; cbn; try (by right); destruct H as [H|H]; try done; left; set_solver. }
  induction es as [|x es IH]; cbn; intros p st H.
  { destruct H as [?|?%not_elem_of_nil]; [by left|done]. }
  destruct (push_event limit st x) as [st1 p1] eqn:E. destruct (decide (e = x \/ e ∈ events st)) as [H1|H1].
  - apply K. unfold push_event in E. repeat case_if_in E; injection E as <- _; cbn; auto.
    + left. destruct H1 as [->|]; [|done]. match goal with L : last _ = Some _ |- _ => apply last_Some in L as [l ->] end. set_solver.
    + left. set_solver.
  - apply IH. right. destruct H as [H|H]; [tauto|]. apply elem_of_cons in H. tauto.
Qed.

Lemma push_events_prefix limit es p st :
  overflowed (fst (push_events limit es p st)) = true \/ events st `prefix_of` events (fst (push_events limit es p st)).
Proof.
  apply (push_events_ind limit (fun st' => overflowed st' = true \/ events st `prefix_of` events st')); [|by right].
  intros st1 e _ H. unfold push_event. repeat case_if; cbn; try (by left); destruct H as [H|H]; try done; right; [done|by apply prefix_app_r].
Qed.

Lemma push_events_sound limit es p st e : e ∈ events (fst (push_events limit es p st)) -> e ∈ events st \/ e ∈ es \/ e = overflow_event.
Proof.
  revert e. apply (push_events_ind limit (fun st' => forall e, e ∈ events st' -> e ∈ events st \/ e ∈ es \/ e = overflow_event)); [|auto].
  intros st1 x Hx H e. unfold push_event. repeat case_if; cbn; [auto|auto| |].
  - intros [He|He%list_elem_of_singleton]%elem_of_app; [|auto]. by apply H, removelast_elem.
  - intros [He|He%list_elem_of_singleton]%elem_of_app; [auto|subst; auto].
Qed.

Lemma overflow_count_none es : (forall e, e ∈ es -> is_overflow e = false) -> overflow_count es = 0%nat.
Proof. intros H. unfold overflow_count. rewrite filter_none; [done|]. apply Forall_forall. auto. Qed.

Lemma overflow_count_zero es : overflow_count es = 0%nat -> forall e, e ∈ es -> is_overflow e = false.
Proof.
  unfold overflow_count. intros H e He. apply not_true_is_false. intros O. apply nil_length_inv in H.
  assert (In e (List.filter is_overflow es)) as I by (apply filter_In; split; [by apply list_elem_of_In|done]). by rewrite H in I.
Qed.

Lemma push_events_marked limit es p st : (forall e, e ∈ es -> is_overflow e = false) -> marked st -> marked (fst (push_events limit es p st)).
Proof.
  intros He. apply (push_events_ind limit marked). intros st1 e Hin M. unfold push_event. destruct (overflowed st1) eqn:O; [done|].
  unfold marked in M. rewrite O in M. repeat case_if; cbn [fst]; unfold marked; cbn [events overflowed set_events set_overflowed]; rewrite ?overflow_count_app, ?O; [done| |].
  - rewrite overflow_count_none; [done|]. intros x Hx. by apply (overflow_count_zero (events st1) M), removelast_elem.
  - rewrite M. cbn. unfold overflow_count. cbn. by rewrite (He e Hin).
Qed.

Lemma push_events_length limit es p st :
  Z.of_nat (length (events (fst (push_events limit es p st)))) <= Z.max (Z.of_nat (length (events st))) (Z.max limit 1).
Proof.
  apply (push_events_ind limit (fun st' => Z.of_nat (length (events st')) <= Z.max (Z.of_nat (length (events st))) (Z.max limit 1))); [|lia].
  intros st1 e _ H. unfold push_event. repeat case_if; cbn; try done; rewrite length_app, ?removelast_length_b; cbn [length]; lia.
Qed.

(** Nothing pushed: nothing to push, or the queue was not empty. *)
Lemma push_events_false limit es : forall p st, snd (push_events limit es p st) = false ->
  p = false /\ fst (push_events limit es p st) = st /\ (es = [] \/ events st <> [] \/ overflowed st = true).
Proof.
  induction es as [|e es IH]; cbn; intros p st; [by auto|]. destruct (push_event limit st e) as [st1 p1] eqn:E.
  intros (Hp & -> & _)%IH. apply orb_false_iff in Hp as [-> ->]. split; [done|]. unfold push_event in E.
  repeat case_if_in E; injection E as E; subst; try done; split; auto.
  right. left. match goal with L : last _ = Some _ |- _ => intros Em; by rewrite Em in L end.
Qed.

(** Events that repeat the one before them are dropped. *)
Fixpoint squeeze (prev : option InotifyEvent) (es : list InotifyEvent) : list InotifyEvent :=
  match es with
  | [] => []
  | e :: es => if bool_decide (prev = Some e) then squeeze prev es else e :: squeeze (Some e) es
  end.

(** What becomes of a queue [q] to which [es] are offered: it takes them in order, each unless it
    repeats the event before it, as long as there is room for [limit] events; if one does not fit,
    the newest event in the queue gives way to the overflow mark, and the rest is dropped. *)
Definition queue_after (limit : Z) (over : bool) (q es : list InotifyEvent) : bool * list InotifyEvent :=
  let all := q ++ squeeze (last q) es in
  let room := Nat.max (length q) (Z.to_nat limit) in
  if over then (true, q)
  else if (length all <=? room)%nat then (false, all)
  else (true, removelast (take room all) ++ [overflow_event]).

Lemma push_events_exact limit es : forall p st, let st' := fst (push_events limit es p st) in
  (overflowed st', events st') = queue_after limit (overflowed st) (events st) es.
Proof.
  induction es as [|e es IH]; intros p st; cbn [push_events]; cbv zeta.
  { unfold queue_after. cbn [squeeze fst]. rewrite app_nil_r. destruct (overflowed st); [done|]. by rewrite (proj2 (Nat.leb_le _ _)) by lia. }
  destruct (push_event limit st e) as [st1 p1] eqn:E. cbv zeta in IH. rewrite IH. clear IH. unfold push_event in E. unfold queue_after. cbn [squeeze].
  destruct (overflowed st) eqn:O; [injection E as <- _; by rewrite O|].
  destruct (bool_decide (last (events st) = Some e)); [injection E as <- _; by rewrite O|].
  destruct (Z.leb_spec limit (Z.of_nat (length (events st)))); injection E as <- _; cbn [overflowed events set_events set_overflowed].
  - rewrite length_app. cbn [length]. rewrite (proj2 (Nat.leb_gt _ _)) by lia. replace (Nat.max (length (events st)) (Z.to_nat limit)) with (length (events st)) by lia.
    by rewrite take_app_length.
  - rewrite O, last_snoc, <- app_assoc. cbn [app]. rewrite (length_app _ [e]). cbn [length].
    replace (Nat.max (length (events st) + 1) (Z.to_nat limit)) with (Nat.max (length (events st)) (Z.to_nat limit)) by lia. done.
Qed.

(** ** Loops over the watches *)

Abbreviation wds ws := (w_wd <$> ws).

Lemma each_watch_eq f ws : each_watch f ws =
  ((fun wt => (f wt).1.1) <$> ws, concat ((fun wt => (f wt).1.2) <$> ws), concat ((fun wt => (f wt).2) <$> ws)).
Proof.
  induction ws as [|wt ws IH]; cbn; [done|]. rewrite IH. by destruct (f wt) as [[? ?] ?].
Qed.

Lemma has_watch_spec wd ws : has_watch wd ws = true <-> wd ∈ wds ws.
Proof.
  unfold has_watch. rewrite existsb_exists, list_elem_of_fmap. split.
  - intros (x & ? & ?%Z.eqb_eq). exists x. split; [done|by apply list_elem_of_In].
  - intros (x & -> & ?). exists x. split; [by apply list_elem_of_In|apply Z.eqb_refl].
Qed.

Lemma delete_watch_elem wd ws x : x ∈ wds (delete_watch wd ws) <-> x ∈ wds ws /\ x <> wd.
Proof.
  unfold delete_watch. rewrite !list_elem_of_fmap. setoid_rewrite filter_In_iff. split.
  - intros (y & -> & ? & ?%negb_true_iff%Z.eqb_neq). eauto.
  - intros [(y & -> & ?) N]. exists y. split; [done|]. split; [done|]. by apply negb_true_iff, Z.eqb_neq.
Qed.

Lemma delete_watch_sublist wd ws : wds (delete_watch wd ws) `sublist_of` wds ws.
Proof.
  unfold delete_watch. induction ws as [|x ws IH]; cbn; [constructor|]. case_if; cbn; [by apply sublist_skip|by apply sublist_cons].
Qed.

Lemma drop_ignored_spec l : forall ws es ws' es', drop_ignored l ws es = (ws', es') ->
  (exists new, es' = es ++ new /\ (forall e, e ∈ new -> exists wd, wd ∈ l /\ wd ∈ wds ws /\ e = ignored wd)) /\
  wds ws' `sublist_of` wds ws /\
  (forall wd, wd ∈ wds ws' <-> wd ∈ wds ws /\ wd ∉ l) /\
  (forall wd, wd ∈ wds ws -> wd ∈ l -> ignored wd ∈ es').
Proof.
  induction l as [|x l IH]; intros ws es ws' es'; cbn.
  { intros [= <- <-]. split; [exists []; split; [by rewrite app_nil_r|by intros e ?%not_elem_of_nil]|]. split; [done|]. set_solver. }
  destruct (has_watch x ws) eqn:Hx.
  - intros ((new & -> & Hn) & Hs & Hw & Hi)%IH. apply has_watch_spec in Hx. split; [|split; [|split]].
    + exists (ignored x :: new). split; [by rewrite <- app_assoc|]. intros e [->|(wd & ? & Hd & ->)%Hn]%elem_of_cons; [exists x; set_solver|].
      apply delete_watch_elem in Hd as [? _]. exists wd. set_solver.
    + etrans; [done|apply delete_watch_sublist].
    + intros wd. rewrite Hw, delete_watch_elem. set_solver.
    + intros wd Hw1 Hl. destruct (decide (wd = x)) as [->|]; [set_solver|]. apply Hi; [by apply delete_watch_elem|set_solver].
  - intros ((new & -> & Hn) & Hs & Hw & Hi)%IH. assert (x ∉ wds ws) as Nx by (rewrite <- has_watch_spec; by rewrite Hx). split; [|split; [|split]].
    + exists new. split; [done|]. intros e (wd & ? & ? & ->)%Hn. exists wd. set_solver.
    + done.
    + intros wd. rewrite Hw. set_solver.
    + intros wd ? Hl. apply Hi; [done|]. set_solver.
Qed.

Lemma drop_ignored_exact l : forall ws es, NoDup l -> (forall wd, wd ∈ l -> wd ∈ wds ws) -> (drop_ignored l ws es).2 = es ++ (ignored <$> l).
Proof.
  induction l as [|x l IH]; intros ws es Nd Hl; cbn; [by rewrite app_nil_r|]. apply NoDup_cons in Nd as [Nx Nd].
  rewrite (proj2 (has_watch_spec x ws)) by (apply Hl; by left). rewrite IH; [by rewrite <- app_assoc|done|].
  intros wd Hwd. apply delete_watch_elem. split; [apply Hl; by right|]. by intros ->.
Qed.

Lemma fold_delete_spec l : forall ws, wds (fold_left (fun ws wd => delete_watch wd ws) l ws) `sublist_of` wds ws /\
  forall wd, wd ∈ wds (fold_left (fun ws wd => delete_watch wd ws) l ws) <-> wd ∈ wds ws /\ wd ∉ l.
Proof.
  induction l as [|x l IH]; intros ws; cbn; [split; [done|set_solver]|]. destruct (IH (delete_watch x ws)) as [H1 H2]. split.
  - etrans; [done|apply delete_watch_sublist].
  - intros wd. rewrite H2, delete_watch_elem. set_solver.
Qed.

Lemma unmount_spec l : forall ws es ws' es', unmount_loop l ws es = (ws', es') ->
  (exists new, es' = es ++ new /\ (forall e, e ∈ new -> exists wd, wd ∈ l /\ wd ∈ wds ws /\ (e = ignored wd \/ e = mkEvent wd IN_UNMOUNT 0 []))) /\
  wds ws' `sublist_of` wds ws /\
  (forall wd, wd ∈ wds ws' <-> wd ∈ wds ws /\ wd ∉ l) /\
  (forall wd, wd ∈ wds ws -> wd ∈ l -> ignored wd ∈ es').
Proof.
  induction l as [|x l IH]; intros ws es ws' es'; cbn.
  { intros [= <- <-]. split; [exists []; split; [by rewrite app_nil_r|by intros e ?%not_elem_of_nil]|]. split; [done|]. set_solver. }
  destruct (has_watch x ws) eqn:Hx.
  - intros ((new & -> & Hn) & Hs & Hw & Hi)%IH. apply has_watch_spec in Hx. split; [|split; [|split]].
    + exists (mkEvent x IN_UNMOUNT 0 [] :: ignored x :: new). split; [by rewrite <- app_assoc|].
      intros e [->|[->|(wd & ? & Hd & ?)%Hn]%elem_of_cons]%elem_of_cons; [exists x; set_solver|exists x; set_solver|].
      apply delete_watch_elem in Hd as [? _]. exists wd. set_solver.
    + etrans; [done|apply delete_watch_sublist].
    + intros wd. rewrite Hw, delete_watch_elem. set_solver.
    + intros wd Hw1 Hl. destruct (decide (wd = x)) as [->|]; [set_solver|]. apply Hi; [by apply delete_watch_elem|set_solver].
  - intros ((new & -> & Hn) & Hs & Hw & Hi)%IH. assert (x ∉ wds ws) as Nx by (rewrite <- has_watch_spec; by rewrite Hx). split; [|split; [|split]].
    + exists new. split; [done|]. intros e (wd & ? & ? & ?)%Hn. exists wd. set_solver.
    + done.
    + intros wd. rewrite Hw. set_solver.
    + intros wd ? Hl. apply Hi; [done|]. set_solver.
Qed.

(** What each loop body does to its watch. *)
Record body_ok (f : InotifyWatch -> InotifyWatch * list InotifyEvent * list Z) : Prop := {
  bo_wd wt : w_wd (f wt).1.1 = w_wd wt;
  bo_events wt e : e ∈ (f wt).1.2 -> is_overflow e = false /\ ev_wd e = w_wd wt;
  bo_ignored wt wd : wd ∈ (f wt).2 -> wd = w_wd wt }.

Lemma each_watch_wds f (ws : list InotifyWatch) : body_ok f -> wds ((fun wt => (f wt).1.1) <$> ws) = wds ws.
Proof. intros F. rewrite <- list_fmap_compose. apply list_fmap_ext. intros i wt _. apply F. Qed.

Lemma elem_of_concat_fmap {A B} (g : A -> list B) (l : list A) y : y ∈ concat (g <$> l) <-> exists x, x ∈ l /\ y ∈ g x.
Proof.
  rewrite list_elem_of_In, in_concat. split.
  - intros (k & Hk & Hy). apply list_elem_of_In, list_elem_of_fmap in Hk as (x & -> & Hx). exists x. split; [done|by apply list_elem_of_In].
  - intros (x & Hx & Hy). exists (g x). split; [|by apply list_elem_of_In]. apply list_elem_of_In, list_elem_of_fmap. eauto.
Qed.

Lemma once_elem wt q wd : wd ∈ once wt q -> wd = w_wd wt /\ q = true /\ oneshot wt = true.
Proof. unfold once. case_if; [intros ->%list_elem_of_singleton; done|by intros ?%not_elem_of_nil]. Qed.

Lemma matching_body path ino pino mask : mask <> IN_Q_OVERFLOW -> body_ok (matching_watch path ino pino mask).
Proof.
  intros Hm. assert (forall n x, is_overflow (mkEvent n mask 0 x) = false) as O by (intros; by apply Z.eqb_neq).
  assert (forall (wt : InotifyWatch) wd, wd ∈ once wt true -> wd = w_wd wt) as K by (intros wt wd ?%once_elem; tauto).
  split; intros wt; unfold matching_watch; repeat case_if; try done; try destruct (parent_and_name path) as [[parent name]|]; repeat case_if; try done; cbn;
    try (by intros ? ?%not_elem_of_nil); try (by intros e ->%list_elem_of_singleton; cbn; auto); try (intros wd Hw%K; done).
Qed.

Lemma delete_child_spec path pino mask wt wt' child : delete_child path pino mask wt = (wt', child) ->
  w_wd wt' = w_wd wt /\ w_mask wt' = w_mask wt /\ forall e, e ∈ child -> ev_mask e = mask /\ ev_wd e = w_wd wt.
Proof.
  unfold delete_child. assert (w_wd (note_unlinked_child path wt) = w_wd wt /\ w_mask (note_unlinked_child path wt) = w_mask wt) as [N1 N2] by (unfold note_unlinked_child; by case_if).
  destruct (parent_and_name path) as [[parent name]|]; [case_if|]; intros [= <- <-]; (split; [done|]); (split; [done|]); try (by intros e ?%not_elem_of_nil).
  case_if; [|by intros e ?%not_elem_of_nil]. by intros e ->%list_elem_of_singleton.
Qed.

Lemma delete_body path ino pino is_dir removed : body_ok (delete_watch_events path ino pino is_dir removed).
Proof.
  split; intros wt; unfold delete_watch_events; destruct (delete_child _ _ _ wt) as [wt' child] eqn:D; apply delete_child_spec in D as (W & M & C); cbn [fst snd].
  - exact W.
  - intros e. rewrite !elem_of_app. intros [[Em ?]%C|[H|[H|H]]]; [split; [unfold is_overflow; rewrite Em; by destruct is_dir|done]|..];
      case_if_in H; try (by apply not_elem_of_nil in H); apply list_elem_of_singleton in H as ->; done.
  - intros wd. rewrite elem_of_app, <- W. intros [H|(-> & _)%once_elem]; [|done]. case_if_in H; [by apply list_elem_of_singleton in H as ->|by apply not_elem_of_nil in H].
Qed.

Lemma moved_child_elem path pino mask cookie wt e : e ∈ moved_child path pino mask cookie wt -> ev_mask e = mask /\ ev_wd e = w_wd wt.
Proof.
  unfold moved_child. destruct (parent_and_name path) as [[parent name]|]; [case_if|]; try (by intros ?%not_elem_of_nil). by intros ->%list_elem_of_singleton.
Qed.

Lemma add_alias_fields path wt : w_wd (add_alias path wt) = w_wd wt /\ w_mask (add_alias path wt) = w_mask wt.
Proof. unfold add_alias. by case_if. Qed.

Lemma move_body old new ino opi npi is_dir cookie : body_ok (move_watch_events old new ino opi npi is_dir cookie).
Proof.
  assert (forall wt, w_wd (move_watch_events old new ino opi npi is_dir cookie wt).1.1 = w_wd wt) as W.
  { intros wt. unfold move_watch_events. cbn [fst]. repeat case_if; by rewrite ?(proj1 (add_alias_fields _ _)). }
  split; [exact W| |].
  - intros wt e. unfold move_watch_events. cbn [fst snd]. rewrite !elem_of_app. unfold is_overflow.
    intros [[-> ?]%moved_child_elem|[[-> ?]%moved_child_elem|H]]; [by destruct is_dir|by destruct is_dir|].
    case_if_in H; [by apply list_elem_of_singleton in H as ->|by apply not_elem_of_nil in H].
  - intros wt wd Hw. rewrite <- W. unfold move_watch_events in *. cbn [fst snd] in *. by apply once_elem in Hw as (-> & _).
Qed.

(** ** Offering events *)

Section Offer.
Context (live : nat -> bool).

(** Nobody sleeps in [read] while there are events. *)
Definition no_sleeper st : Prop := events st <> [] -> is_read_waiters st = [].

(** Pushing and waking, as pushing. *)
Lemma paw_fields limit es st : let r := push_and_wake live limit es st in let st' := fst (push_events limit es false st) in
  events (fst r) = events st' /\ overflowed (fst r) = overflowed st' /\ watches (fst r) = watches st /\ next_wd (fst r) = next_wd st.
Proof.
  cbn. unfold push_and_wake. destruct (push_events_rest limit es false st) as (? & ? & _ & _).
  destruct (push_events limit es false st) as [st' []]; done.
Qed.

Lemma paw_no_sleeper limit es st : no_sleeper st -> no_sleeper (fst (push_and_wake live limit es st)).
Proof.
  unfold push_and_wake. destruct (push_events limit es false st) as [st' p] eqn:E. destruct p; [done|].
  assert (snd (push_events limit es false st) = false) as (_ & Es & _)%push_events_false by (by rewrite E). rewrite E in Es. cbn in Es. by subst.
Qed.

(** A reader that sleeps is woken when the queue is not empty any more. *)
Lemma paw_wakes limit es st t : t ∈ is_read_waiters st -> live t = true -> no_sleeper st ->
  t ∈ snd (push_and_wake live limit es st) \/ (t ∈ is_read_waiters (fst (push_and_wake live limit es st)) /\ events (fst (push_and_wake live limit es st)) = []).
Proof.
  intros Ht Hl N. unfold push_and_wake. destruct (push_events_rest limit es false st) as (_ & _ & R & P).
  destruct (push_events limit es false st) as [st' p] eqn:E. cbn [fst] in *. destruct p.
  - left. cbn. rewrite R. apply elem_of_app. left. unfold wake_waiter_queue. by apply filter_In_iff.
  - right. assert (snd (push_events limit es false st) = false) as (_ & Es & _)%push_events_false by (by rewrite E). rewrite E in Es. cbn in Es. subst st'.
    split; [done|]. cbn. destruct (events st) eqn:Ev; [done|]. unfold no_sleeper in N. rewrite Ev in N. rewrite N in Ht by done. by apply not_elem_of_nil in Ht.
Qed.

(** ** The invariant of an instance *)

Record IInv st : Prop := {
  ii_sorted : StronglySorted Z.lt (wds (watches st));
  ii_range wd : wd ∈ wds (watches st) -> 0 < wd < next_wd st;
  ii_next : 0 < next_wd st;
  ii_marked : marked st }.

Lemma sorted_sublist (l k : list Z) : l `sublist_of` k -> StronglySorted Z.lt k -> StronglySorted Z.lt l.
Proof.
  induction 1 as [|x l k S IH|x l k S IH]; intros H; [done| |]; apply StronglySorted_inv in H as [H F]; [|auto].
  constructor; [auto|]. apply Forall_forall. intros y Hy. rewrite Forall_forall in F. apply F. by eapply sublist_elem_b.
Qed.

Lemma sorted_snoc (l : list Z) y : StronglySorted Z.lt l -> (forall x, x ∈ l -> x < y) -> StronglySorted Z.lt (l ++ [y]).
Proof.
  induction 1 as [|x l S IH F]; intros H; cbn; [repeat constructor|]. constructor; [apply IH; set_solver|].
  apply Forall_app. split; [done|]. constructor; [apply H; set_solver|constructor].
Qed.

(** An event is offered and some watches go. *)
Lemma offer_inv limit es ws st : wds ws `sublist_of` wds (watches st) -> (forall e, e ∈ es -> is_overflow e = false) ->
  IInv st -> IInv (fst (push_and_wake live limit es (set_watches ws st))).
Proof.
  intros Sub O [So Ra Ne Ma]. destruct (paw_fields limit es (set_watches ws st)) as (Ev & Ov & Wa & Nx). split.
  - rewrite Wa. by eapply sorted_sublist.
  - intros wd. rewrite Wa, Nx. intros Hw. apply Ra. by eapply sublist_elem_b.
  - by rewrite Nx.
  - unfold marked. rewrite Ev, Ov. by apply push_events_marked.
Qed.

(** The three kinds of offers, seen as a list of events and the watches that stay. *)
Lemma each_offer f st ws es ig : body_ok f -> each_watch f (watches st) = (ws, es, ig) ->
  wds ws = wds (watches st) /\ (forall e, e ∈ es -> is_overflow e = false) /\
  (forall e, e ∈ es <-> exists wt, wt ∈ watches st /\ e ∈ (f wt).1.2) /\ (forall wd, wd ∈ ig <-> exists wt, wt ∈ watches st /\ wd ∈ (f wt).2).
Proof.
  intros F E. rewrite each_watch_eq in E. injection E as <- <- <-. split; [by apply each_watch_wds|].
  assert (forall e, e ∈ concat ((fun wt => (f wt).1.2) <$> watches st) <-> exists wt, wt ∈ watches st /\ e ∈ (f wt).1.2) as K by (intros; apply elem_of_concat_fmap).
  split; [intros e (wt & _ & He)%K; by apply (bo_events _ F) in He as [? _]|]. split; [done|]. intros; apply elem_of_concat_fmap.
Qed.

Lemma drop_offer f st ws es ig ws' es' : body_ok f -> each_watch f (watches st) = (ws, es, ig) -> drop_ignored ig ws es = (ws', es') ->
  wds ws' `sublist_of` wds (watches st) /\ (forall e, e ∈ es' -> is_overflow e = false) /\
  (forall e, e ∈ es' -> e ∈ es \/ exists wd, wd ∈ ig /\ e = ignored wd) /\ (forall e, e ∈ es -> e ∈ es') /\
  (forall wd, wd ∈ wds ws' <-> wd ∈ wds (watches st) /\ wd ∉ ig) /\ (forall wd, wd ∈ wds (watches st) -> wd ∈ ig -> ignored wd ∈ es').
Proof.
  intros F E D. destruct (each_offer f st ws es ig F E) as (W & O & _ & _).
  destruct (drop_ignored_spec _ _ _ _ _ D) as ((new & -> & Hn) & Hs & Hw & Hi). rewrite W in *. split; [done|]. split; [|split; [|split]].
  - intros e [?|(wd & _ & _ & ->)%Hn]%elem_of_app; [auto|done].
  - intros e [?|(wd & ? & _ & ->)%Hn]%elem_of_app; [auto|eauto].
  - intros e ?. apply elem_of_app. by left.
  - done.
Qed.
End Offer.

(** ** The operations on an instance *)

Inductive IOp :=
| IAdd (max : Z) (path : bytes) (ino : option Z) (mask : Z)
| IRemove (wd : Z)
| IMatch (limit : Z) (path : bytes) (ino parent_ino : option Z) (mask : Z)
| IDelete (limit : Z) (path : bytes) (ino parent_ino : option Z) (is_dir removed : bool)
| IMove (limit : Z) (old_path new_path : bytes) (ino old_parent_ino new_parent_ino : option Z) (is_dir : bool) (cookie : Z)
| IUnmount (limit : Z) (mount_path : bytes)
| IRead (task : nat) (bufs : list bytes)
| IFlags (flags : Z)
| IPollRegister (task : nat) | IPollClear (task : nat) | IPollWake.

Section Run.
Context (live : nat -> bool).

Definition on_state (r : InotifyState * list nat) (f : InotifyFile) : InotifyFile * list nat := (mkIF (if_status_flags f) (fst r), snd r).

Definition iapply (op : IOp) (f : InotifyFile) : InotifyFile * list nat :=
  let st := if_state f in
  match op with
  | IAdd max path ino mask => on_state (fst (add_watch max path ino mask st), []) f
  | IRemove wd => on_state (fst (remove_watch wd st), []) f
  | IMatch limit path ino pino mask => on_state (queue_matching_event live limit path ino pino mask st) f
  | IDelete limit path ino pino is_dir removed => on_state (queue_delete_event live limit path ino pino is_dir removed st) f
  | IMove limit old new ino opi npi is_dir cookie => on_state (queue_move_event live limit old new ino opi npi is_dir cookie st) f
  | IUnmount limit path => on_state (queue_unmount_events live limit path st) f
  | IRead task bufs => (fst (read_turn live task bufs f), [])
  | IFlags flags => (set_status_flags flags f, [])
  | IPollRegister task => on_state (register_poll_waker live task st, []) f
  | IPollClear task => on_state (clear_poll_waker live task st, []) f
  | IPollWake => on_state (wake_poll_waiters live st) f
  end.

Fixpoint irun (ops : list IOp) (f : InotifyFile) : InotifyFile :=
  match ops with [] => f | op :: ops => irun ops (fst (iapply op f)) end.

(** The kernel never offers the overflow mark as an event. *)
Definition sane (op : IOp) : Prop := match op with IMatch _ _ _ _ mask => mask <> IN_Q_OVERFLOW | _ => True end.
Definition is_remove (op : IOp) : bool := match op with IRemove _ => true | _ => false end.

(** ** Every operation keeps the invariant *)

Lemma read_events_spec n es : forall out over out' es' over', read_loop n out es over = (out', es', over') ->
  exists k, (k <= length es)%nat /\ es' = drop k es /\ out' = out ++ concat (encode_event <$> take k es) /\
    over' = (if existsb is_overflow (take k es) then false else over) /\
    (es' = [] \/ exists e rest, es' = e :: rest /\ (n < length out' + event_len e)%nat) /\ ((length out <= n)%nat -> (length out' <= n)%nat).
Proof.
  assert (forall e, length (encode_event e) = event_len e) as Le.
  { intros e. unfold encode_event, event_len. rewrite !length_app, !le_store_length. unfold INOTIFY_EVENT_SIZE. lia. }
  induction es as [|e es IH]; intros out over out' es' over'; cbn [read_loop].
  - intros [= <- <- <-]. exists 0%nat. cbn. rewrite app_nil_r. auto 10.
  - case_if.
    + intros [= <- <- <-]. exists 0%nat. cbn. rewrite app_nil_r. split; [lia|]. repeat (split; [done|]). split; [right; eauto|done].
    + intros (k & Hk & -> & -> & -> & Hn & Hl)%IH. exists (S k). cbn. split; [lia|]. split; [done|]. split; [by rewrite <- app_assoc|]. split.
      { unfold is_overflow at 2. destruct (ev_mask e =? IN_Q_OVERFLOW); cbn; [by case_if|done]. }
      split; [done|]. intros _. apply Hl. rewrite length_app, Le. lia.
Qed.

Lemma insert_watch_last wt ws : (forall x, x ∈ wds ws -> x < w_wd wt) -> insert_watch wt ws = ws ++ [wt].
Proof.
  induction ws as [|x ws IH]; intros H; cbn; [done|]. assert (w_wd x < w_wd wt) by (apply H; cbn; left). rewrite IH by set_solver.
  repeat case_if; try lia; done.
Qed.

Lemma update_first_wds p g ws : (forall wt, w_wd (g wt) = w_wd wt) -> wds (update_first p g ws) = wds ws.
Proof. intros H. induction ws as [|x ws IH]; cbn; [done|]. case_if; cbn; [by rewrite H|by rewrite IH]. Qed.

Lemma add_watch_cases max path ino mask st :
  let st' := fst (add_watch max path ino mask st) in
  (events st' = events st /\ overflowed st' = overflowed st /\ is_read_waiters st' = is_read_waiters st) /\
  ((wds (watches st') = wds (watches st) /\ next_wd st' = next_wd st /\
     (forall wd, snd (add_watch max path ino mask st) = Ok wd -> wd ∈ wds (watches st))) \/
  (snd (add_watch max path ino mask st) = Ok (next_wd st) /\ next_wd st' = signed 32 (wrap 32 (next_wd st + 1)) /\
     watches st' = insert_watch (mkWatch (next_wd st) path ino [] (sanitize_watch_mask mask) []) (watches st))).
Proof.
  cbn. unfold add_watch. destruct (List.find _ _) as [wt|] eqn:F.
  - split; [by case_if|]. left. apply find_some in F as [F _]. case_if; cbn; [done|]. split; [|split; [done|]].
    + apply update_first_wds. intros x. by case_if.
    + intros wd [= <-]. apply list_elem_of_fmap. exists wt. split; [done|by apply list_elem_of_In].
  - split; [by case_if|]. case_if; cbn; [by left|by right].
Qed.

(** An operation that offers events. *)
Definition offers (r : InotifyState * list nat) st : Prop :=
  exists limit es ws, r = push_and_wake live limit es (set_watches ws st) /\ wds ws `sublist_of` wds (watches st) /\ forall e, e ∈ es -> is_overflow e = false.

Lemma match_offers limit path ino pino mask st : mask <> IN_Q_OVERFLOW -> offers (queue_matching_event live limit path ino pino mask st) st.
Proof.
  intros Hm. unfold queue_matching_event. destruct (each_watch _ _) as [[ws es] ig] eqn:E. destruct (drop_ignored ig ws es) as [ws' es'] eqn:D.
  destruct (drop_offer _ _ _ _ _ _ _ (matching_body path ino pino mask Hm) E D) as (? & ? & _). by exists limit, es', ws'.
Qed.
Lemma move_offers limit old new ino opi npi is_dir cookie st : offers (queue_move_event live limit old new ino opi npi is_dir cookie st) st.
Proof.
  unfold queue_move_event. destruct (each_watch _ _) as [[ws es] ig] eqn:E. destruct (drop_ignored ig ws es) as [ws' es'] eqn:D.
  destruct (drop_offer _ _ _ _ _ _ _ (move_body _ _ _ _ _ _ _) E D) as (? & ? & _). by exists limit, es', ws'.
Qed.
Lemma delete_offers limit path ino pino is_dir removed st : offers (queue_delete_event live limit path ino pino is_dir removed st) st.
Proof.
  unfold queue_delete_event. destruct (each_watch _ _) as [[ws es] ig] eqn:E.
  destruct (each_offer _ _ _ _ _ (delete_body _ _ _ _ _) E) as (W & ? & _). eexists limit, es, _. split; [done|]. split; [|done].
  rewrite <- W. apply fold_delete_spec.
Qed.
Lemma unmount_offers limit mount st : offers (queue_unmount_events live limit mount st) st.
Proof.
  unfold queue_unmount_events. destruct (unmount_loop _ _ _) as [ws es] eqn:E. apply unmount_spec in E as ((new & -> & Hn) & Hs & _).
  exists limit, ([] ++ new), ws. split; [done|]. split; [done|]. intros e (wd & _ & _ & [->| ->])%Hn; done.
Qed.

(** What is kept by an operation. *)
Record kept st st' (rm : bool) : Prop := {
  ke_next : 0 < next_wd st < 2 ^ 31 - 1 -> next_wd st <= next_wd st' <= next_wd st + 1;
  ke_inv : IInv st -> next_wd st < 2 ^ 31 - 1 -> IInv st';
  ke_sleep : rm = false -> no_sleeper st -> no_sleeper st' }.

Lemma offers_kept r st : offers r st -> kept st (fst r) false.
Proof.
  intros (limit & es & ws & -> & Sub & O). split.
  - intros _. destruct (paw_fields live limit es (set_watches ws st)) as (_ & _ & _ & ->). cbn. lia.
  - intros I _. by apply offer_inv.
  - intros _ N. by apply paw_no_sleeper.
Qed.

Lemma add_kept max path ino mask st : kept st (fst (add_watch max path ino mask st)) false.
Proof.
  destruct (add_watch_cases max path ino mask st) as [(Ev & Ov & Rd) C]. set (st' := fst _) in *.
  assert (next_wd st < 2 ^ 31 - 1 -> 0 < next_wd st -> signed 32 (wrap 32 (next_wd st + 1)) = next_wd st + 1) as Sg.
  { intros ? ?. rewrite wrap_small by (unfold in_u; lia). apply signed_small; lia. }
  split.
  - intros [? ?]. destruct C as [(_ & -> & _)|(_ & -> & _)]; [lia|]. rewrite Sg by done. lia.
  - intros [So Ra Ne Ma] Lt. assert (marked st') as M by (unfold marked in *; by rewrite Ev, Ov). destruct C as [(W & N & _)|(_ & N & W)].
    + split; rewrite ?W, ?N; done.
    + rewrite Sg in N by done. rewrite insert_watch_last in W by (intros x ?%Ra; cbn; lia). split; rewrite ?W, ?N; [| |lia|done].
      * rewrite fmap_app. apply sorted_snoc; [done|]. intros x ?%Ra. cbn. lia.
      * intros wd. rewrite fmap_app. intros [?%Ra|Hy%list_elem_of_singleton]%elem_of_app; [lia|subst wd; cbn; lia].
  - intros _ Ns. unfold no_sleeper. by rewrite Ev, Rd.
Qed.

Lemma remove_kept wd st : kept st (fst (remove_watch wd st)) true.
Proof.
  unfold remove_watch. case_if; [|by split; [cbn; lia| |]]. split; cbn; [lia| |done]. intros [So Ra Ne Ma] _. split; cbn.
  - eapply sorted_sublist; [apply delete_watch_sublist|done].
  - intros x [Hx _]%delete_watch_elem. by apply Ra.
  - done.
  - unfold marked in *. cbn [events overflowed set_events set_watches]. rewrite overflow_count_app, Ma. cbn. lia.
Qed.

(** Only the waiters change. *)
Lemma waiters_kept st st' : next_wd st' = next_wd st -> watches st' = watches st -> events st' = events st -> overflowed st' = overflowed st ->
  (no_sleeper st -> no_sleeper st') -> kept st st' false.
Proof.
  intros N W E O S. split; [rewrite N; lia| |done]. intros [So Ra Ne Ma] _. split; rewrite ?N, ?W; try done. unfold marked in *. by rewrite E, O.
Qed.

Lemma read_kept task bufs f : kept (if_state f) (if_state (fst (read_turn live task bufs f))) false.
Proof.
  unfold read_turn. case_if; [by apply waiters_kept|]. destruct (events (if_state f)) as [|front rest] eqn:Ev.
  { case_if; cbn; apply waiters_kept; try done. unfold no_sleeper. cbn. by rewrite Ev. }
  case_if; [by apply waiters_kept|]. rewrite <- Ev in *. destruct (read_loop _ _ _ _) as [[out es] over] eqn:R.
  destruct (copy_out bufs out 0) as [bufs' n]. cbn. apply read_events_spec in R as (k & Hk & -> & _ & -> & _). split; cbn; [lia| |].
  - intros [So Ra Ne Ma] _. split; try done. unfold marked in *. cbn [events overflowed set_overflowed set_events].
    rewrite <- (take_drop k (events (if_state f))), overflow_count_app in Ma at 1.
    destruct (existsb is_overflow (take k (events (if_state f)))) eqn:X.
    + apply existsb_exists in X as (x & Hx & Ox). assert (overflow_count (take k (events (if_state f))) <> 0%nat); [|destruct (overflowed (if_state f)); lia].
      intros Z. apply list_elem_of_In in Hx. rewrite (overflow_count_zero _ Z x Hx) in Ox. done.
    + assert (overflow_count (take k (events (if_state f))) = 0%nat) as Z; [|lia]. apply overflow_count_none. intros x Hx.
      apply not_true_is_false. intros Ox. apply not_true_iff_false in X. apply X. apply existsb_exists. exists x. split; [by apply list_elem_of_In|done].
  - intros _ N _. cbn. apply N. by rewrite Ev.
Qed.

Lemma iapply_kept op f : sane op -> kept (if_state f) (if_state (fst (iapply op f))) (is_remove op).
Proof.
  destruct op; cbn; intros Hs; try (apply waiters_kept; done).
  - apply add_kept.
  - apply remove_kept.
  - by apply offers_kept, match_offers.
  - apply offers_kept, delete_offers.
  - apply offers_kept, move_offers.
  - apply offers_kept, unmount_offers.
  - apply read_kept.
Qed.

Lemma irun_kept ops f : Forall sane ops -> 0 < next_wd (if_state f) -> next_wd (if_state f) + Z.of_nat (length ops) < 2 ^ 31 ->
  IInv (if_state f) -> IInv (if_state (irun ops f)).
Proof.
  revert f. induction ops as [|op ops IH]; cbn [irun length]; intros f Hs H0 Hn I; [done|]. apply Forall_cons in Hs as [H1 H2].
  destruct (iapply_kept op f H1) as [K1 K2 _]. apply IH; [done|lia|lia|]. apply K2; [done|lia].
Qed.

Lemma irun_no_sleeper ops f : Forall sane ops -> existsb is_remove ops = false -> no_sleeper (if_state f) -> no_sleeper (if_state (irun ops f)).
Proof.
  revert f. induction ops as [|op ops IH]; cbn; intros f Hs Hr N; [done|]. apply Forall_cons in Hs as [H1 H2]. apply orb_false_iff in Hr as [R1 R2].
  apply IH; [done|done|]. by apply (ke_sleep _ _ _ (iapply_kept op f H1)).
Qed.

Lemma new_inv : IInv new_state.
Proof. split; cbn; [constructor|by intros wd ?%not_elem_of_nil|lia|done]. Qed.
End Run.
