(* ===== verification/InotifyMain.v ===== *)
(** * Inotify: the theorems

    Delivery to every instance, the announcement of watches that go, the invariant
    of the queue and of the descriptors, the wake-up of readers and the wire
    format, with concrete instances; and the cases in which a watch goes silently
    or a reader sleeps on. *)

From Stdlib Require Import Sorted.
From S2P Require Import Prelude SysErr Inotify InotifySpec.

Implicit Types (st : InotifyState) (wt : InotifyWatch) (e : InotifyEvent) (w : NotifyWorld).

(** ** All instances run an operation *)

Lemma run_instances_lookup f ids : NoDup ids -> forall w id,
  ino_files (run_instances f ids w) !! id =
    (fun file => if decide (id ∈ ids) then mkIF (if_status_flags file) (fst (f (if_state file))) else file) <$> ino_files w !! id.
Proof.
  induction 1 as [|x ids Nx Nd IH]; intros w id; cbn [run_instances].
  { destruct (ino_files w !! id); cbn; [rewrite decide_False by set_solver|]; done. }
  destruct (ino_files w !! x) as [file|] eqn:Ex.
  - destruct (f (if_state file)) as [st wk] eqn:Ef. rewrite IH. cbn [ino_files set_files]. destruct (decide (id = x)) as [->|Ne].
    + rewrite lookup_insert_eq, Ex. cbn. rewrite decide_False by done. rewrite decide_True by set_solver. by rewrite Ef.
    + rewrite lookup_insert_ne by done. destruct (ino_files w !! id); cbn; [|done]. f_equal. destruct (decide (id ∈ ids)); [rewrite decide_True by set_solver|rewrite decide_False by set_solver]; done.
  - rewrite IH. destruct (ino_files w !! id) eqn:Ei; cbn; [|done]. assert (id <> x) by congruence.
    f_equal. destruct (decide (id ∈ ids)); [rewrite decide_True by set_solver|rewrite decide_False by set_solver]; done.
Qed.

(** ** Delivery *)

(** The event that a watch is owed when [mask] happens to [d]. *)
Inductive concerns (d : NotifyDentry) (mask : Z) wt : InotifyEvent -> Prop :=
| concerns_target : matches_target (nd_path d) (nd_ino d) wt = true -> mask_matches (w_mask wt) mask = true ->
    concerns d mask wt (mkEvent (w_wd wt) mask 0 [])
| concerns_child parent name : matches_target (nd_path d) (nd_ino d) wt = false ->
    parent_and_name (nd_path d) = Some (parent, name) -> matches_child_parent parent (nd_parent_ino d) wt = true ->
    has_bit mask IN_CREATE = true \/ excludes_unlinked_child (nd_path d) wt = false -> mask_matches (w_mask wt) mask = true ->
    concerns d mask wt (mkEvent (w_wd wt) mask 0 (event_name name)).

Lemma forget_excludes path wt : excludes_unlinked_child path (forget_unlinked_child path wt) = false.
Proof.
  unfold excludes_unlinked_child, forget_unlinked_child. cbn. apply andb_false_iff. right. apply not_true_is_false. rewrite existsb_exists.
  intros (x & [Hx N]%filter_In & E). unfold is_path in *. by rewrite E in N.
Qed.

Lemma concerns_iff d mask wt e : concerns d mask wt e <-> e ∈ (matching_watch (nd_path d) (nd_ino d) (nd_parent_ino d) mask wt).1.2.
Proof.
  unfold matching_watch. split.
  - destruct 1 as [T M|parent name T P C X M]; rewrite T; [rewrite M; by left|]. rewrite P, C.
    assert (excludes_unlinked_child (nd_path d) (if has_bit mask IN_CREATE then forget_unlinked_child (nd_path d) wt else wt) = false) as ->.
    { destruct (has_bit mask IN_CREATE); [apply forget_excludes|by destruct X]. }
    destruct (has_bit mask IN_CREATE); cbn; rewrite M; by left.
  - destruct (matches_target _ _ wt) eqn:T.
    { destruct (mask_matches _ _) eqn:M; [intros ->%list_elem_of_singleton; by constructor|by intros ?%not_elem_of_nil]. }
    destruct (parent_and_name _) as [[parent name]|] eqn:P; [|by intros ?%not_elem_of_nil].
    destruct (matches_child_parent _ _ wt) eqn:C; [|by intros ?%not_elem_of_nil].
    destruct (has_bit mask IN_CREATE) eqn:B; destruct (excludes_unlinked_child _ _) eqn:X; try (by intros ?%not_elem_of_nil); cbn;
      (destruct (mask_matches _ _) eqn:M; [|by intros ?%not_elem_of_nil]); intros ->%list_elem_of_singleton; by apply (concerns_child _ _ _ parent); auto.
Qed.

Lemma matching_ignored path ino pino mask wt wd : wd ∈ (matching_watch path ino pino mask wt).2 <->
  wd = w_wd wt /\ oneshot wt = true /\ (matching_watch path ino pino mask wt).1.2 <> [].
Proof.
  assert (forall x : InotifyWatch, oneshot (forget_unlinked_child path x) = oneshot x) as F by done.
  unfold matching_watch, once. repeat case_if; try destruct (parent_and_name path) as [[parent name]|]; repeat case_if; cbn; rewrite ?F in *;
    (split; [try (by intros ?%not_elem_of_nil); intros ->%list_elem_of_singleton; auto|]); intros (-> & ? & ?); try done; first [by left|naive_solver congruence].
Qed.

(** The event owed to a watch, computed. *)
Definition owed (d : NotifyDentry) (mask : Z) wt : option InotifyEvent :=
  head (matching_watch (nd_path d) (nd_ino d) (nd_parent_ino d) mask wt).1.2.

Lemma matching_shape d mask wt : matching_watch (nd_path d) (nd_ino d) (nd_parent_ino d) mask wt =
  ((matching_watch (nd_path d) (nd_ino d) (nd_parent_ino d) mask wt).1.1, match owed d mask wt with Some e => [e] | None => [] end,
   if oneshot wt && bool_decide (is_Some (owed d mask wt)) then [w_wd wt] else []).
Proof.
  assert (forall x : InotifyWatch, oneshot (forget_unlinked_child (nd_path d) x) = oneshot x) as F by done.
  unfold owed, matching_watch, once. destruct (matches_target _ _ wt); [destruct (mask_matches _ _); by destruct (oneshot wt)|].
  destruct (parent_and_name _) as [[parent name]|]; [|by destruct (oneshot wt)]. destruct (matches_child_parent _ _ wt); [|by destruct (oneshot wt)].
  destruct (has_bit mask IN_CREATE); rewrite ?F; destruct (excludes_unlinked_child _ _); try (by destruct (oneshot wt));
    destruct (mask_matches _ _); by destruct (oneshot wt).
Qed.

Lemma owed_iff d mask wt e : owed d mask wt = Some e <-> concerns d mask wt e.
Proof.
  rewrite concerns_iff, matching_shape. cbn [fst snd]. destruct (owed d mask wt) as [x|]; split; try done.
  - intros [= ->]. by left.
  - by intros ->%list_elem_of_singleton.
  - by intros ?%not_elem_of_nil.
Qed.

(** The watches that go: one-shot ones that are owed an event. *)
Definition spent (d : NotifyDentry) (mask : Z) (ws : list InotifyWatch) : list InotifyWatch :=
  List.filter (fun wt => oneshot wt && bool_decide (is_Some (owed d mask wt))) ws.

Lemma matching_lists d mask ws : let body := matching_watch (nd_path d) (nd_ino d) (nd_parent_ino d) mask in
  concat ((fun wt => (body wt).1.2) <$> ws) = omap (owed d mask) ws /\ concat ((fun wt => (body wt).2) <$> ws) = w_wd <$> spent d mask ws.
Proof.
  cbv zeta. unfold spent. induction ws as [|wt ws [IH1 IH2]]; [done|]. rewrite !fmap_cons. cbn [concat omap list_omap List.filter].
  rewrite (matching_shape d mask wt). cbn [fst snd]. rewrite IH1, IH2. destruct (owed d mask wt), (oneshot wt); done.
Qed.

Lemma filter_wds_NoDup (f : InotifyWatch -> bool) ws : NoDup (wds ws) -> NoDup (wds (List.filter f ws)).
Proof.
  intros H. eapply sublist_NoDup; [exact H|]. clear H. induction ws as [|x ws IH]; cbn; [constructor|]. destruct (f x); cbn; [by apply sublist_skip|by apply sublist_cons].
Qed.

(** C29: Delivery.  When something happens to a dentry, every open instance is offered, in the order of its
    watches, the event that each watch is owed ([concerns]), then [IN_IGNORED] for each one-shot watch that
    was owed one.  The queue takes them in this order behind what was queued, each unless it is equal to
    the newest event in the queue at that point (to that one only), as long as the queue is shorter
    than the limit; if one does not fit, the newest event in the queue gives way to the overflow mark and
    the rest is dropped, as everything is while the mark is queued.  Nothing else changes in the queue.
    Exactly the one-shot watches that were owed an event are gone afterwards.  The descriptors of the
    watches are distinct (they are the keys of a map). *)
Theorem inotify_delivery d mask w id f :
  inotify_may_have_instances w = true -> NoDup (INOTIFY_INSTANCES w) -> id ∈ INOTIFY_INSTANCES w -> ino_files w !! id = Some f ->
  mask <> IN_Q_OVERFLOW -> NoDup (wds (watches (if_state f))) ->
  exists f', ino_files (inotify_notify_dentry d mask w) !! id = Some f' /\
    (forall wt e, owed d mask wt = Some e <-> concerns d mask wt e) /\
    (overflowed (if_state f'), events (if_state f')) =
      queue_after (INOTIFY_MAX_QUEUED_EVENTS w) (overflowed (if_state f)) (events (if_state f))
        (omap (owed d mask) (watches (if_state f)) ++ ((fun wt => ignored (w_wd wt)) <$> spent d mask (watches (if_state f)))) /\
    (forall wd, wd ∈ wds (watches (if_state f')) <-> wd ∈ wds (watches (if_state f)) /\
       ~ exists wt e, wt ∈ watches (if_state f) /\ w_wd wt = wd /\ oneshot wt = true /\ concerns d mask wt e).
Proof.
  intros Hh Nd Hid Hf Hm Nw. eexists. unfold inotify_notify_dentry. rewrite Hh. cbn [negb retain_instances]. unfold retain_instances. cbn [ino_files set_instances].
  rewrite run_instances_lookup, Hf by done. cbn. rewrite decide_True by done. split; [done|]. split; [apply owed_iff|]. cbn [if_state].
  set (body := matching_watch (nd_path d) (nd_ino d) (nd_parent_ino d) mask). unfold queue_matching_event. fold body.
  destruct (each_watch body _) as [[ws es] ig] eqn:E. destruct (drop_ignored ig ws es) as [ws' es'] eqn:D.
  pose proof (matching_body (nd_path d) (nd_ino d) (nd_parent_ino d) mask Hm) as B.
  destruct (each_offer _ _ _ _ _ B E) as (_ & _ & He & Hg). destruct (drop_offer _ _ _ _ _ _ _ B E D) as (_ & _ & _ & _ & Hw & _).
  set (limit := INOTIFY_MAX_QUEUED_EVENTS w). set (live := task_live w).
  destruct (paw_fields live limit es' (set_watches ws' (if_state f))) as (Ev & Ov & Wa & _). rewrite Ev, Ov, Wa. cbn [watches set_watches].
  split.
  - pose proof (push_events_exact limit es' false (set_watches ws' (if_state f))) as Hq. cbv zeta in Hq. rewrite Hq. cbn [overflowed events set_watches].
    f_equal. destruct (matching_lists d mask (watches (if_state f))) as [L1 L2]. fold body in L1, L2.
    rewrite each_watch_eq in E. injection E as <- <- <-. rewrite L1, L2 in D.
    pose proof (drop_ignored_exact (w_wd <$> spent d mask (watches (if_state f))) ((fun wt => (body wt).1.1) <$> watches (if_state f)) (omap (owed d mask) (watches (if_state f)))) as Hd.
    rewrite D in Hd. cbn [snd] in Hd. rewrite Hd; [by rewrite <- list_fmap_compose|by apply filter_wds_NoDup|].
    rewrite each_watch_wds by done. intros wd (wt & -> & Hwt)%list_elem_of_fmap. apply list_elem_of_fmap. exists wt. split; [done|].
    by apply list_elem_of_In, filter_In in Hwt as [?%list_elem_of_In _].
  - intros wd. rewrite Hw. split; intros [H1 H2]; (split; [done|]).
    + intros (wt & e & Hwt & <- & Ho & Hc%concerns_iff). apply H2, Hg. exists wt. split; [done|]. apply matching_ignored.
      split; [done|]. split; [done|]. intros Z. unfold body in *. rewrite Z in Hc. by apply not_elem_of_nil in Hc.
    + intros (wt & Hwt & (-> & Ho & Hn)%matching_ignored)%Hg. apply H2. destruct ((matching_watch (nd_path d) (nd_ino d) (nd_parent_ino d) mask wt).1.2) as [|e l] eqn:Z; [done|].
      exists wt, e. do 3 (split; [done|]). apply concerns_iff. rewrite Z. by left.
Qed.

(** ** Watches that go *)

Lemma insert_watch_keeps wt ws x : x ∈ wds ws -> x ∈ wds (insert_watch wt ws).
Proof.
  induction ws as [|y ws IH]; cbn; [by intros ?%not_elem_of_nil|]. repeat case_if; cbn; [set_solver|set_solver|set_solver].
Qed.

Lemma offered_in live limit es st e : e ∈ es ->
  e ∈ events (fst (push_and_wake live limit es st)) \/ overflowed (fst (push_and_wake live limit es st)) = true.
Proof. intros He. destruct (paw_fields live limit es st) as (-> & -> & _). apply push_events_in. by right. Qed.

Definition is_delete (op : IOp) : bool := match op with IDelete _ _ _ _ _ _ => true | _ => false end.

(** No watch goes silently.  Whatever operation makes a watch disappear, [IN_IGNORED] for its
    descriptor is in the queue afterwards or the queue has overflowed; the exception is a one-shot watch
    that goes in the deletion of a file. *)
Theorem inotify_gone_announced live op f wd :
  sane op -> wd ∈ wds (watches (if_state f)) -> wd ∉ wds (watches (if_state (fst (iapply live op f)))) ->
  (is_delete op = true -> forall wt, wt ∈ watches (if_state f) -> w_wd wt = wd -> oneshot wt = false) ->
  ignored wd ∈ events (if_state (fst (iapply live op f))) \/ overflowed (if_state (fst (iapply live op f))) = true.
Proof.
  intros Hs Hin Hout Hd. set (st := if_state f) in *.
  destruct op as [max path ino mask|x|limit path ino pino mask|limit path ino pino is_dir removed|limit old new ino opi npi is_dir cookie|limit mount|task bufs| | | |];
    cbn [iapply on_state fst if_state] in *; fold st in Hout |- *; try done.
  - exfalso. destruct (add_watch_cases max path ino mask st) as [_ [(W & _)|(_ & _ & W)]]; rewrite W in Hout; [done|by apply Hout, insert_watch_keeps].
  - left. unfold remove_watch in *. case_if; cbn in *; [|done]. rewrite delete_watch_elem in Hout. destruct (decide (wd = x)) as [->|]; [set_solver|exfalso; auto].
  - unfold queue_matching_event in *. destruct (each_watch _ _) as [[ws es] ig] eqn:E. destruct (drop_ignored ig ws es) as [ws' es'] eqn:D.
    destruct (drop_offer _ _ _ _ _ _ _ (matching_body _ _ _ _ Hs) E D) as (_ & _ & _ & _ & Hw & Hi).
    destruct (paw_fields live limit es' (set_watches ws' st)) as (_ & _ & W & _). rewrite W in Hout. cbn in Hout. rewrite Hw in Hout.
    apply offered_in, Hi; [done|]. destruct (decide (wd ∈ ig)); [done|]. exfalso; auto.
  - unfold queue_delete_event in *. destruct (each_watch _ _) as [[ws es] ig] eqn:E.
    destruct (each_offer _ _ _ _ _ (delete_body path ino pino is_dir removed) E) as (W & _ & He & Hg).
    match type of Hout with context [push_and_wake live limit es ?s] => destruct (paw_fields live limit es s) as (_ & _ & W' & _); rewrite W' in Hout end.
    cbn in Hout. rewrite (proj2 (fold_delete_spec ig ws)), W in Hout. assert (wd ∈ ig) as (wt & Hwt & Hig)%Hg by (destruct (decide (wd ∈ ig)); [done|exfalso; auto]).
    apply offered_in, He. exists wt. split; [done|]. pose proof (bo_ignored _ (delete_body path ino pino is_dir removed) wt wd Hig) as ->.
    unfold delete_watch_events in *. destruct (delete_child _ _ _ wt) as [wt' child] eqn:C. apply delete_child_spec in C as (Cw & Cm & _). cbn [fst snd] in *.
    apply elem_of_app in Hig as [Hig|(_ & _ & Ho)%once_elem].
    + case_if_in Hig; [|by apply not_elem_of_nil in Hig]. rewrite !elem_of_app. right; right; right. rewrite Cw. by left.
    + exfalso. unfold oneshot in *. rewrite Cm in Ho. specialize (Hd eq_refl wt Hwt eq_refl). congruence.
  - unfold queue_move_event in *. destruct (each_watch _ _) as [[ws es] ig] eqn:E. destruct (drop_ignored ig ws es) as [ws' es'] eqn:D.
    destruct (drop_offer _ _ _ _ _ _ _ (move_body old new ino opi npi is_dir cookie) E D) as (_ & _ & _ & _ & Hw & Hi).
    destruct (paw_fields live limit es' (set_watches ws' st)) as (_ & _ & W & _). rewrite W in Hout. cbn in Hout. rewrite Hw in Hout.
    apply offered_in, Hi; [done|]. destruct (decide (wd ∈ ig)); [done|]. exfalso; auto.
  - unfold queue_unmount_events in *. destruct (unmount_loop _ _ _) as [ws es] eqn:E. apply unmount_spec in E as (_ & _ & Hw & Hi).
    destruct (paw_fields live limit es (set_watches ws st)) as (_ & _ & W & _). rewrite W in Hout. cbn in Hout. rewrite Hw in Hout.
    apply offered_in, Hi; [done|]. destruct (decide (wd ∈ wds (List.filter (is_under_mount mount) (watches st)))); [done|]. exfalso; auto.
  - exfalso. apply Hout. unfold read_turn. fold st. case_if; [done|]. destruct (events st) as [|front rest]; [by case_if|]. case_if; [done|].
    destruct (read_loop _ _ _ _) as [[out es] over]. by destruct (copy_out bufs out 0).
Qed.

(** ** The queue and the descriptors *)

Lemma irun_app live ops1 ops2 f : irun live (ops1 ++ ops2) f = irun live ops2 (irun live ops1 f).
Proof. revert f. induction ops1 as [|op ops1 IH]; cbn; intros f; [done|]. apply IH. Qed.

Lemma irun_next live ops f : Forall sane ops -> 0 < next_wd (if_state f) -> next_wd (if_state f) + Z.of_nat (length ops) < 2 ^ 31 ->
  next_wd (if_state f) <= next_wd (if_state (irun live ops f)) <= next_wd (if_state f) + Z.of_nat (length ops).
Proof.
  revert f. induction ops as [|op ops IH]; cbn [irun length]; intros f Hs H0 Hn; [lia|]. apply Forall_cons in Hs as [H1 H2].
  pose proof (ke_next _ _ _ (iapply_kept live op f H1)) as K. specialize (IH (fst (iapply live op f)) H2). lia.
Qed.

(** The queue and the descriptors.  After any sequence of operations (fewer than 2^31 - 1): descriptors
    are positive, different and below the next one; a descriptor given to a new watch was never in use
    before; the overflow mark is queued exactly once while events are dropped and not at all otherwise,
    so that an instance whose queue has been read empty takes events again. *)
Theorem inotify_instance_invariant live flags ops :
  Forall sane ops -> Z.of_nat (length ops) < 2 ^ 31 - 2 ->
  let st := if_state (irun live ops (new_file flags)) in
  NoDup (wds (watches st)) /\ (forall wd, wd ∈ wds (watches st) -> 0 < wd < next_wd st) /\
  (forall max path ino mask wd, snd (add_watch max path ino mask st) = Ok wd -> wd ∈ wds (watches st) \/
     forall ops1 ops2, ops = ops1 ++ ops2 -> wd ∉ wds (watches (if_state (irun live ops1 (new_file flags))))) /\
  overflow_count (events st) = (if overflowed st then 1 else 0)%nat /\
  (events st = [] -> overflowed st = false).
Proof.
  intros Hs Hn st. assert (forall ops1, Forall sane ops1 -> Z.of_nat (length ops1) < 2 ^ 31 - 2 -> IInv (if_state (irun live ops1 (new_file flags)))) as I.
  { intros o H1 H2. apply irun_kept; [done|cbn; lia|cbn; lia|apply new_inv]. }
  destruct (I ops Hs Hn) as [So Ra Ne Ma]. fold st in So, Ra, Ne, Ma. split; [|split; [done|split; [|split; [done|]]]].
  - clear -So. induction So as [|x l S IH F]; constructor; [|done]. intros Hx. rewrite Forall_forall in F. apply F in Hx. lia.
  - intros max path ino mask wd E. destruct (add_watch_cases max path ino mask st) as [_ [(_ & _ & H)|(H & _)]]; [left; auto|right].
    rewrite E in H. injection H as ->. intros ops1 ops2 ->. apply Forall_app in Hs as [H1 H2]. rewrite length_app in Hn.
    intros Hw%(ii_range _ (I ops1 H1 ltac:(lia))). unfold st in *. rewrite irun_app in *.
    pose proof (irun_next live ops1 (new_file flags) H1 ltac:(cbn; lia) ltac:(cbn; lia)) as B1. cbn in B1.
    pose proof (irun_next live ops2 (irun live ops1 (new_file flags)) H2 ltac:(lia) ltac:(lia)). lia.
  - intros E. unfold marked in Ma. rewrite E in Ma. by destruct (overflowed st).
Qed.

Definition op_limit (op : IOp) : option Z :=
  match op with
  | IMatch limit _ _ _ _ | IDelete limit _ _ _ _ _ | IMove limit _ _ _ _ _ _ _ | IUnmount limit _ => Some limit
  | _ => None
  end.

Lemma iapply_length live op f L : sane op -> is_remove op = false -> default L (op_limit op) <= L -> 1 <= L ->
  Z.of_nat (length (events (if_state f))) <= L -> Z.of_nat (length (events (if_state (fst (iapply live op f))))) <= L.
Proof.
  intros Hs Hr Hl H1 H. assert (forall r limit es ws, r = push_and_wake live limit es (set_watches ws (if_state f)) -> limit <= L ->
    Z.of_nat (length (events (fst r))) <= L) as K.
  { intros r limit es ws -> Hb. destruct (paw_fields live limit es (set_watches ws (if_state f))) as (-> & _).
    pose proof (push_events_length limit es false (set_watches ws (if_state f))) as B. cbn [events set_watches] in B. lia. }
  destruct op as [max path ino mask|x|limit path ino pino mask|limit path ino pino is_dir removed|limit old new ino opi npi is_dir cookie|limit mount|task bufs| | | |];
    cbn [iapply on_state fst if_state default op_limit] in *; try done.
  - destruct (add_watch_cases max path ino mask (if_state f)) as [(-> & _) _]. done.
  - unfold queue_matching_event. destruct (each_watch _ _) as [[ws es] ig]. destruct (drop_ignored ig ws es) as [ws' es']. by eapply K.
  - unfold queue_delete_event. destruct (each_watch _ _) as [[ws es] ig]. by eapply K.
  - unfold queue_move_event. destruct (each_watch _ _) as [[ws es] ig]. destruct (drop_ignored ig ws es) as [ws' es']. by eapply K.
  - unfold queue_unmount_events. destruct (unmount_loop _ _ _) as [ws es]. by eapply K.
  - unfold read_turn. case_if; [done|]. destruct (events (if_state f)) as [|front rest] eqn:Ev; [case_if; cbn; rewrite ?Ev; done|]. case_if; [by cbn; rewrite ?Ev|].
    rewrite <- Ev in *. destruct (read_loop _ _ _ _) as [[out es] over] eqn:R. destruct (copy_out bufs out 0). cbn.
    apply read_events_spec in R as (k & _ & -> & _). rewrite length_drop. lia.
Qed.

(** C31: The queue is bounded.  While the limit on queued events does not exceed [L], the queue never
    holds more than [L] events (nor more than one, for the overflow mark, if [L] is less), whatever
    happens and however slowly it is read, as long as no watch is removed by hand. *)
Theorem inotify_queue_bounded live flags ops L :
  Forall sane ops -> Forall (fun op => default L (op_limit op) <= L) ops -> existsb is_remove ops = false ->
  Z.of_nat (length (events (if_state (irun live ops (new_file flags))))) <= Z.max L 1.
Proof.
  intros Hs Hl Hr. assert (Z.of_nat (length (events (if_state (new_file flags)))) <= Z.max L 1) as H by (cbn; lia).
  revert H. generalize (new_file flags). revert Hs Hl Hr. induction ops as [|op ops IH]; cbn [irun existsb]; intros Hs Hl Hr f H; [done|].
  apply Forall_cons in Hs as [? ?], Hl as [? ?]. apply orb_false_iff in Hr as [? ?]. apply IH; try done.
  apply iapply_length; try done; [|lia]. destruct (op_limit op); cbn in *; lia.
Qed.

(** ** Readers *)

(** No reader sleeps while there are events.  As long as no watch is removed by hand: in every state
    a task that waits in [read] waits for an empty queue; and the operation that queues the first event
    wakes it. *)
Theorem inotify_reader_woken live flags ops op t :
  Forall sane ops -> existsb is_remove ops = false -> sane op -> is_remove op = false ->
  let f := irun live ops (new_file flags) in
  t ∈ is_read_waiters (if_state f) -> live t = true ->
  events (if_state f) = [] /\
  (t ∈ snd (iapply live op f) \/
   (t ∈ is_read_waiters (if_state (fst (iapply live op f))) /\ events (if_state (fst (iapply live op f))) = [])).
Proof.
  intros Hs Hr So Ro f Ht Hl. assert (no_sleeper (if_state f)) as N by (apply irun_no_sleeper; done).
  assert (events (if_state f) = []) as Ev. { destruct (events (if_state f)) eqn:E; [done|]. unfold no_sleeper in N. rewrite E in N. rewrite N in Ht by done. by apply not_elem_of_nil in Ht. }
  split; [done|]. assert (forall r, offers live r (if_state f) -> t ∈ snd r \/ (t ∈ is_read_waiters (fst r) /\ events (fst r) = [])) as K.
  { intros r (limit & es & ws & -> & _). by apply paw_wakes. }
  destruct op as [max path ino mask|x|limit path ino pino mask|limit path ino pino is_dir removed|limit old new ino opi npi is_dir cookie|limit mount|task bufs| | | |];
    cbn [iapply on_state fst snd if_state] in *; try (right; done).
  - right. destruct (add_watch_cases max path ino mask (if_state f)) as [(-> & _ & ->) _]. done.
  - by apply K, match_offers.
  - apply K, delete_offers.
  - apply K, move_offers.
  - apply K, unmount_offers.
  - right. unfold read_turn. rewrite Ev. repeat case_if; cbn; try done. split; [|done]. unfold register_waiter.
    assert (t ∈ List.filter live (is_read_waiters (if_state f))) by (by apply filter_In_iff). case_if; set_solver.
Qed.

(** ** The wire format *)

(** The records of inotify(7): four words, the last of them the length of the name that follows. *)
Fixpoint decode_events (fuel : nat) (bs : bytes) : option (list InotifyEvent) :=
  match fuel with
  | O => None
  | S fuel =>
      match bs with
      | [] => Some []
      | _ => if (length bs <? 16)%nat then None
             else let word i := le_load (slice (4 * i) (4 * i + 4) bs) in
                  let len := Z.to_nat (word 3%nat) in
                  if (length bs <? 16 + len)%nat then None
                  else (mkEvent (signed 32 (word 0%nat)) (word 1%nat) (word 2%nat) (slice 16 (16 + len) bs) ::.) <$> decode_events fuel (drop (16 + len) bs)
      end
  end.

Definition event_ok e : Prop := in_i 32 (ev_wd e) /\ in_u 32 (ev_mask e) /\ in_u 32 (ev_cookie e) /\ Z.of_nat (length (ev_name e)) < 2 ^ 32.

Lemma slice_app_exact {A} (a b c : list A) : slice (length a) (length a + length b) (a ++ b ++ c) = b.
Proof. unfold slice. rewrite drop_app_length. replace (length a + length b - length a)%nat with (length b) by lia. by rewrite take_app_length. Qed.

Lemma word_at (a : bytes) z c n m : length a = n -> m = (n + 4)%nat -> in_u 32 z -> le_load (slice n m (a ++ le_store 4 z ++ c)) = z.
Proof.
  intros <- -> H. pose proof (slice_app_exact a (le_store 4 z) c) as E. rewrite le_store_length in E. rewrite E, le_load_store. by apply wrap_small.
Qed.

Lemma decode_one fuel e rest : event_ok e ->
  decode_events (S fuel) (encode_event e ++ rest) = (e ::.) <$> decode_events fuel rest.
Proof.
  intros (Hw & Hm & Hc & Hn). set (A := le_store 4 (wrap 32 (ev_wd e))). set (B := le_store 4 (ev_mask e)). set (C := le_store 4 (ev_cookie e)).
  set (n := length (ev_name e)) in *. set (D := le_store 4 (wrap 32 (Z.of_nat n))).
  assert (length A = 4 /\ length B = 4 /\ length C = 4 /\ length D = 4)%nat as (LA & LB & LC & LD) by (repeat split; apply le_store_length).
  assert (encode_event e ++ rest = A ++ B ++ C ++ D ++ ev_name e ++ rest) as E by (unfold encode_event; by rewrite <- !app_assoc).
  assert (length (encode_event e ++ rest) = 16 + n + length rest)%nat as Le by (rewrite E, !length_app; fold n; lia).
  assert (wrap 32 (Z.of_nat n) = Z.of_nat n) as Wn by (apply wrap_small; unfold in_u; lia).
  assert (le_load (slice 0 4 (encode_event e ++ rest)) = wrap 32 (ev_wd e)) as W0 by (rewrite E; apply (word_at []); [done|done|by apply wrap_range]).
  assert (le_load (slice 4 8 (encode_event e ++ rest)) = ev_mask e) as W1 by (rewrite E; by apply word_at).
  assert (le_load (slice 8 12 (encode_event e ++ rest)) = ev_cookie e) as W2.
  { rewrite E, (app_assoc A B). apply word_at; [by rewrite length_app, LA, LB|done|done]. }
  assert (le_load (slice 12 16 (encode_event e ++ rest)) = Z.of_nat n) as W3.
  { rewrite E, (app_assoc A B), (app_assoc (A ++ B) C). unfold D. rewrite Wn. apply word_at; [by rewrite !length_app, LA, LB, LC|done|unfold in_u; lia]. }
  assert (encode_event e ++ rest = (A ++ B ++ C ++ D) ++ ev_name e ++ rest) as E4 by (rewrite E; by rewrite <- !app_assoc).
  assert (length (A ++ B ++ C ++ D) = 16%nat) as L16 by (rewrite !length_app; lia).
  assert (slice 16 (16 + n) (encode_event e ++ rest) = ev_name e) as Sn by (rewrite E4, <- L16 at 1; rewrite <- L16; apply slice_app_exact).
  assert (drop (16 + n) (encode_event e ++ rest) = rest) as Dr.
  { rewrite E4, <- L16, <- drop_drop, drop_app_length. apply drop_app_length. }
  cbn [decode_events]. destruct (encode_event e ++ rest) as [|b bs] eqn:Eb; [cbn in Le; lia|]. rewrite <- Eb in *. clear Eb.
  cbn [Nat.mul Nat.add] in *. rewrite W0, W1, W2, W3, Nat2Z.id. rewrite (proj2 (Nat.ltb_ge _ _)) by lia. rewrite (proj2 (Nat.ltb_ge _ _)) by lia.
  change (S (S (S (S (S (S (S (S (S (S (S (S (S (S (S (S n)))))))))))))))) with (16 + n)%nat in *. rewrite Sn, Dr, signed_wrap by (unfold in_i in *; lia || done). by destruct e.
Qed.

Lemma decode_encode_events es fuel : Forall event_ok es -> (length es < fuel)%nat -> decode_events fuel (concat (encode_event <$> es)) = Some es.
Proof.
  revert fuel. induction es as [|e es IH]; intros fuel H Hf; destruct fuel as [|fuel]; [lia|done|lia|].
  apply Forall_cons in H as [H1 H2]. cbn [fmap list_fmap concat]. rewrite decode_one by done. rewrite IH; [done|done|cbn in Hf; lia].
Qed.

Lemma copy_out_spec out bufs : forall written bufs' total, (written <= length out)%nat -> (length out - written <= length (concat bufs))%nat ->
  copy_out bufs out written = (bufs', total) ->
  total = length out /\ concat bufs' = drop written out ++ drop (length out - written) (concat bufs) /\ length <$> bufs' = length <$> bufs.
Proof.
  induction bufs as [|b bufs IH]; intros written bufs' total Hw Hl; cbn [copy_out].
  - intros [= <- <-]. cbn in *. rewrite drop_nil, app_nil_r. split; [lia|]. split; [|done]. rewrite drop_ge by lia. done.
  - case_if.
    + intros [= <- <-]. split; [lia|]. rewrite (drop_ge out) by lia. replace (length out - written)%nat with 0%nat by lia. done.
    + set (n := Nat.min (length b) (length out - written)). destruct (copy_out bufs out (written + n)) as [rest tot] eqn:R.
      intros [= <- <-]. cbn [concat] in *. rewrite length_app in Hl. assert (n = Nat.min (length b) (length out - written)) as Dn by done.
      clearbody n. destruct (IH (written + n)%nat rest tot ltac:(lia) ltac:(lia) R) as (-> & Hc & Hn). split; [done|].
      assert (length (slice written (written + n) out) = n) as Ls by (rewrite slice_length; lia).
      assert (splice 0 (slice written (written + n) out) b = slice written (written + n) out ++ drop n b) as Sp by (unfold splice; rewrite Ls; done).
      split; [|rewrite !fmap_cons, Hn; f_equal; rewrite Sp, length_app, Ls, length_drop; lia].
      rewrite Sp, Hc. rewrite <- (take_drop n (drop written out)). rewrite drop_drop. unfold slice at 1.
      replace (written + n - written)%nat with n by lia. rewrite drop_app. rewrite <- !app_assoc. f_equal.
      destruct (Nat.le_gt_cases (length b) (length out - written)).
      * replace n with (length b) by lia. rewrite drop_all. rewrite (drop_ge b) by lia. cbn. f_equal. f_equal. lia.
      * replace n with (length out - written)%nat by lia. rewrite !(drop_ge out) by lia. cbn. f_equal. f_equal. lia.
Qed.

(** C30: The wire format.  A [read] with room for the oldest event stores, in order and from the start of
    the user buffer, as many of the oldest events as fit whole; what it stored decodes to exactly these
    events, the rest of the buffer is untouched, and these events and no others leave the queue. *)
Theorem inotify_read_roundtrip live task bufs f front rest :
  events (if_state f) = front :: rest -> (event_len front <= length (concat bufs))%nat -> Forall event_ok (events (if_state f)) ->
  exists k f' bufs' written, read_turn live task bufs f = (f', ReadDone bufs' (Ok written)) /\
    (1 <= k)%nat /\ events (if_state f') = drop k (events (if_state f)) /\ watches (if_state f') = watches (if_state f) /\
    decode_events (S k) (take written (concat bufs')) = Some (take k (events (if_state f))) /\
    drop written (concat bufs') = drop written (concat bufs) /\ length <$> bufs' = length <$> bufs /\
    (drop k (events (if_state f)) = [] \/ exists e l, drop k (events (if_state f)) = e :: l /\ (length (concat bufs) < written + event_len e)%nat).
Proof.
  intros Ev Hf Hok. unfold read_turn. assert (length (concat bufs) <> 0)%nat as Nz by (unfold event_len, INOTIFY_EVENT_SIZE in Hf; lia).
  rewrite (proj2 (Nat.eqb_neq _ _) Nz), Ev, (proj2 (Nat.ltb_ge _ _) Hf). rewrite <- Ev.
  destruct (read_loop _ _ _ _) as [[out es] over] eqn:R. apply read_events_spec in R as (k & Hk & -> & Eo & _ & Hstop & Hl). rewrite app_nil_l in Eo.
  specialize (Hl ltac:(cbn; lia)). destruct (copy_out bufs out 0) as [bufs' total] eqn:C.
  destruct (copy_out_spec out bufs 0 bufs' total ltac:(lia) ltac:(lia) C) as (-> & Ec & El). rewrite drop_0, Nat.sub_0_r in Ec.
  exists k. eexists _, _, _. split; [done|]. cbn [if_state events watches set_overflowed set_events]. split; [|split; [done|split; [done|]]].
  - destruct k as [|k]; [|lia]. exfalso. rewrite drop_0, Ev in Hstop. rewrite take_0 in Eo. cbn in Eo. subst out. destruct Hstop as [?|(e & l & [= <- _] & ?)]; [done|cbn in *; lia].
  - rewrite Ec, take_app_length, drop_app_length. split; [|done]. rewrite Eo. apply decode_encode_events; [by apply Forall_take|rewrite length_take; lia].
Qed.

(** ** Concrete instances *)

Definition demo_alive (t : nat) : bool := (t <? 10)%nat.
Definition demo_dir : bytes := [47; 100].                 (* "/d" *)
Definition demo_file : bytes := [47; 100; 47; 102].       (* "/d/f" *)
Definition demo_dentry : NotifyDentry := mkND demo_file (Some (7, false)) (Some 5).

(** A watch on the directory, one-shot or not; a reader asleep. *)
Definition demo_ops (mask : Z) : list IOp := [IAdd 8192 demo_dir (Some 5) mask; IRead 3 [repeat 0 64]].
Definition demo_instance (mask : Z) : InotifyFile := irun demo_alive (demo_ops mask) (new_file 0).
Definition demo_notify (mask : Z) : NotifyWorld := mkNW [4%nat] {[4%nat := demo_instance mask]} 1 1 128 8192 16384 {[3%nat]} [].

Lemma inotify_delivery_witness : exists f',
  ino_files (inotify_notify_dentry demo_dentry IN_MODIFY (demo_notify (Z.lor IN_MODIFY IN_ONESHOT))) !! 4%nat = Some f' /\
  events (if_state f') = [mkEvent 1 IN_MODIFY 0 (event_name [102]); ignored 1].
Proof.
  destruct (inotify_delivery demo_dentry IN_MODIFY (demo_notify (Z.lor IN_MODIFY IN_ONESHOT)) 4 (demo_instance (Z.lor IN_MODIFY IN_ONESHOT)))
    as (f' & E & _ & D & _); [done|by apply (bool_decide_unpack _); vm_compute|by left|by vm_compute|done|by apply (bool_decide_unpack _); vm_compute|].
  exists f'. split; [exact E|]. apply (f_equal snd) in D. etransitivity; [exact D|]. vm_compute. reflexivity.
Defined.

Lemma inotify_gone_announced_witness :
  ignored 1 ∈ events (if_state (fst (iapply demo_alive (IUnmount 16384 [47]) (demo_instance IN_MODIFY)))) \/
  overflowed (if_state (fst (iapply demo_alive (IUnmount 16384 [47]) (demo_instance IN_MODIFY)))) = true.
Proof. apply inotify_gone_announced; [done|by left|by apply (bool_decide_unpack _); vm_compute|done]. Defined.

Lemma inotify_instance_invariant_witness :
  let st := if_state (irun demo_alive (demo_ops IN_MODIFY ++ [IMatch 0 demo_file None (Some 5) IN_MODIFY]) (new_file 0)) in
  overflowed st = true /\ overflow_count (events st) = 1%nat.
Proof.
  split; [by vm_compute|]. edestruct (inotify_instance_invariant demo_alive 0 (demo_ops IN_MODIFY ++ [IMatch 0 demo_file None (Some 5) IN_MODIFY])) as (_ & _ & _ & H & _);
    [by repeat constructor|by vm_compute|]. exact H.
Defined.

Lemma inotify_queue_bounded_witness :
  Z.of_nat (length (events (if_state (irun demo_alive (demo_ops IN_MODIFY ++ [IMatch 2 demo_file None (Some 5) IN_MODIFY]) (new_file 0))))) <= Z.max 2 1.
Proof. apply inotify_queue_bounded; [by repeat constructor|by repeat constructor; cbn; lia|by vm_compute]. Defined.

Lemma inotify_reader_woken_witness :
  3%nat ∈ is_read_waiters (if_state (demo_instance IN_MODIFY)) /\
  3%nat ∈ snd (iapply demo_alive (IMatch 16384 demo_file None (Some 5) IN_MODIFY) (demo_instance IN_MODIFY)).
Proof.
  split; [by left|]. destruct (inotify_reader_woken demo_alive 0 (demo_ops IN_MODIFY) (IMatch 16384 demo_file None (Some 5) IN_MODIFY) 3) as [_ [H|[H _]]];
    [by repeat constructor|by vm_compute|done|done|by left|done|exact H|by apply not_elem_of_nil in H].
Defined.

Definition demo_queued : InotifyFile :=
  irun demo_alive (demo_ops IN_MODIFY ++ [IMatch 16384 demo_file None (Some 5) IN_MODIFY; IUnmount 16384 demo_dir]) (new_file 0).

Lemma inotify_read_roundtrip_witness : exists k f' bufs' written,
  read_turn demo_alive 3 [repeat 9 20; repeat 9 20] demo_queued = (f', ReadDone bufs' (Ok written)) /\ (1 <= k)%nat /\
  decode_events (S k) (take written (concat bufs')) = Some (take k (events (if_state demo_queued))).
Proof.
  edestruct (inotify_read_roundtrip demo_alive 3 [repeat 9 20; repeat 9 20] demo_queued) as (k & f' & bufs' & written & E & K & _ & _ & D & _);
    [by vm_compute|by apply Nat.leb_le; vm_compute| |exists k, f', bufs', written; done].
  repeat constructor; by vm_compute.
Defined.

(** A one-shot watch on a directory reports the deletion of a file in it and is gone; [IN_IGNORED] does
    not follow, as it does for every other event of a one-shot watch. *)
Lemma inotify_oneshot_delete_silent :
  let f := demo_instance (Z.lor IN_DELETE IN_ONESHOT) in
  let f' := fst (iapply demo_alive (IDelete 16384 demo_file (Some 7) (Some 5) false true) f) in
  wds (watches (if_state f)) = [1] /\ watches (if_state f') = [] /\ overflowed (if_state f') = false /\
  events (if_state f') = [mkEvent 1 IN_DELETE 0 (event_name [102])].
Proof. by vm_compute. Qed.

(** Removing a watch by hand queues [IN_IGNORED] and wakes nobody: the reader sleeps on. *)
Lemma inotify_remove_wakes_nobody :
  let r := iapply demo_alive (IRemove 1) (demo_instance IN_MODIFY) in
  events (if_state (fst r)) = [ignored 1] /\ is_read_waiters (if_state (fst r)) = [3%nat] /\ snd r = [].
Proof. by vm_compute. Qed.

(** ... and is not subject to the limit of the queue. *)
Lemma inotify_remove_exceeds_limit :
  let f := irun demo_alive [IAdd 8192 demo_dir (Some 5) IN_MODIFY; IAdd 8192 demo_file (Some 7) IN_MODIFY; IMatch 0 demo_file (Some 7) None IN_MODIFY; IRemove 1; IRemove 2] (new_file 0) in
  length (events (if_state f)) = 3%nat.
Proof. by vm_compute. Qed.
