(* ===== verification/Sched.v ===== *)
(** * The scheduler: run queues, wake-ups and switches
    (os/src/task/manager.rs, and what of os/src/task/task.rs, task/mod.rs and
    task/processor.rs decides where a task is)

    Each processor has a queue of realtime tasks and four levels of feedback
    queues.  A task carries two markers: [on_cpu], the processor that has claimed
    it, and [ready_queued], the processor whose queue holds it; its status and its
    wake-up flags are under the lock of the task.

    A section is what runs under one lock (of a run queue, or of a task); each is
    one definition.  Spinning for a run-queue lock, the flags by which processors
    give way to each other, and the diagnostic counters and markers are left out;
    that a fetch may find the queue contended is a step of the system that does
    nothing.  An interrupt sent to a processor is an entry of [ipis]. *)

From stdpp Require Import functions.
From S2P Require Import Prelude.

(** ** Tasks *)

Inductive TaskStatus := Ready | Running | Blocked | Zombie | Sleep.

#[export] Instance TaskStatus_eq_dec : EqDecision TaskStatus.
Proof. solve_decision. Defined.

Definition MAX_CPU_NUM : nat := 8.
Definition MLFQ_LEVELS : nat := 4.
Definition MLFQ_TOP_LEVEL : nat := 0.
Definition MLFQ_DEFAULT_LEVEL : nat := 1.
Definition MLFQ_BOTTOM_LEVEL : nat := MLFQ_LEVELS - 1.
Definition MLFQ_AGING_THRESHOLD : Z := 64.
Definition MLFQ_TIME_SLICES : list Z := [2; 4; 8; 16].
Definition MLFQ_AGING_SCAN_BUDGET : nat := 32.
Definition RUN_QUEUE_MIN_CAPACITY : nat := 16.
Definition WAKE_AFFINITY_LOAD_MARGIN : Z := 1.

Record SchedTask := mkST {
  task_status : TaskStatus;
  pending_wakeup : bool;
  group_stopped : bool;
  group_stop_resume : bool;
  requeue_after_switch : bool;
  requeue_front_after_switch : bool;
  mlfq_level_raw : nat;
  mlfq_slice_remaining : Z;
  mlfq_enqueue_epoch : Z;
  on_cpu : option nat;
  ready_queued : option nat;
  last_cpu : option nat;
  affinity_mask : Z;
  sched_priority : Z;
  pi_boost_priority : Z;
  sched_policy : Z;
  kernel_critical : bool }.

Implicit Types k : SchedTask.

(** The five fields under the task's lock, set at once. *)
Definition set_inner (s : TaskStatus) (pend rq rqf : bool) k : SchedTask :=
  mkST s pend (group_stopped k) (group_stop_resume k) rq rqf (mlfq_level_raw k) (mlfq_slice_remaining k) (mlfq_enqueue_epoch k)
    (on_cpu k) (ready_queued k) (last_cpu k) (affinity_mask k) (sched_priority k) (pi_boost_priority k) (sched_policy k) (kernel_critical k).
Definition set_stop (gs gr : bool) k : SchedTask :=
  mkST (task_status k) (pending_wakeup k) gs gr (requeue_after_switch k) (requeue_front_after_switch k) (mlfq_level_raw k) (mlfq_slice_remaining k)
    (mlfq_enqueue_epoch k) (on_cpu k) (ready_queued k) (last_cpu k) (affinity_mask k) (sched_priority k) (pi_boost_priority k) (sched_policy k) (kernel_critical k).
Definition set_status (s : TaskStatus) k : SchedTask := set_inner s (pending_wakeup k) (requeue_after_switch k) (requeue_front_after_switch k) k.
Definition set_pending (b : bool) k : SchedTask := set_inner (task_status k) b (requeue_after_switch k) (requeue_front_after_switch k) k.
Definition set_mlfq (level : nat) (slice epoch : Z) k : SchedTask :=
  mkST (task_status k) (pending_wakeup k) (group_stopped k) (group_stop_resume k) (requeue_after_switch k) (requeue_front_after_switch k) level slice epoch
    (on_cpu k) (ready_queued k) (last_cpu k) (affinity_mask k) (sched_priority k) (pi_boost_priority k) (sched_policy k) (kernel_critical k).
Definition set_markers (on rq last : option nat) k : SchedTask :=
  mkST (task_status k) (pending_wakeup k) (group_stopped k) (group_stop_resume k) (requeue_after_switch k) (requeue_front_after_switch k) (mlfq_level_raw k)
    (mlfq_slice_remaining k) (mlfq_enqueue_epoch k) on rq last (affinity_mask k) (sched_priority k) (pi_boost_priority k) (sched_policy k) (kernel_critical k).

Definition new_task : SchedTask :=
  mkST Ready false false false false false MLFQ_DEFAULT_LEVEL 4 0 None None None (2 ^ 64 - 1) 0 0 0 false.

Definition clamp_mlfq_level (level : nat) : nat := Nat.min level MLFQ_BOTTOM_LEVEL.
Definition mlfq_slice_for_level (level : nat) : Z := nth (clamp_mlfq_level level) MLFQ_TIME_SLICES 0.
Definition mlfq_level k : nat := clamp_mlfq_level (mlfq_level_raw k).

Definition reset_mlfq_slice k : SchedTask := set_mlfq (mlfq_level_raw k) (mlfq_slice_for_level (mlfq_level k)) (mlfq_enqueue_epoch k) k.
Definition set_mlfq_level (level : nat) k : SchedTask :=
  reset_mlfq_slice (set_mlfq (clamp_mlfq_level level) (mlfq_slice_remaining k) (mlfq_enqueue_epoch k) k).
Definition boost_mlfq_level k : SchedTask :=
  if (MLFQ_TOP_LEVEL <? mlfq_level k)%nat then set_mlfq_level (mlfq_level k - 1) k else reset_mlfq_slice k.
Definition demote_mlfq_level k : SchedTask :=
  if (mlfq_level k <? MLFQ_BOTTOM_LEVEL)%nat then set_mlfq_level (mlfq_level k + 1) k else reset_mlfq_slice k.
Definition consume_mlfq_tick k : SchedTask * bool :=
  if mlfq_slice_remaining k <=? 1 then (set_mlfq (mlfq_level_raw k) 0 (mlfq_enqueue_epoch k) k, true)
  else (set_mlfq (mlfq_level_raw k) (mlfq_slice_remaining k - 1) (mlfq_enqueue_epoch k) k, false).
Definition note_mlfq_enqueued (epoch : Z) k : SchedTask :=
  let k := set_mlfq (mlfq_level_raw k) (mlfq_slice_remaining k) epoch k in
  if mlfq_slice_remaining k =? 0 then reset_mlfq_slice k else k.
Definition mlfq_wait_expired (epoch : Z) k : bool := MLFQ_AGING_THRESHOLD <=? usize (epoch - mlfq_enqueue_epoch k).

Definition effective_sched_priority k : Z := Z.max (sched_priority k) (pi_boost_priority k).
Definition is_realtime k : bool := 0 <? effective_sched_priority k.
Definition is_sched_fifo k : bool :=
  (sched_priority k <? effective_sched_priority k) || ((sched_policy k =? 1) && (0 <? sched_priority k)).
Definition is_sched_rr k : bool := (sched_policy k =? 2) && (0 <? sched_priority k).
Definition cpu_bit (mask : Z) (cpu : nat) : bool := Z.testbit mask (Z.of_nat cpu).
Definition allows_cpu (cpu : nat) k : bool := (cpu <? 64)%nat && cpu_bit (affinity_mask k) cpu.

(** The markers are changed by compare-and-exchange. *)
Definition try_mark_ready_queued (cpu : nat) k : option SchedTask :=
  match ready_queued k with None => Some (set_markers (on_cpu k) (Some cpu) (last_cpu k) k) | Some _ => None end.
Definition is_ready_queued_at (cpu : nat) k : bool := bool_decide (ready_queued k = Some cpu).
Definition try_clear_ready_queued (cpu : nat) k : SchedTask :=
  if is_ready_queued_at cpu k then set_markers (on_cpu k) None (last_cpu k) k else k.
Definition try_claim_queued (queued_cpu run_cpu : nat) k : SchedTask * bool :=
  match on_cpu k with
  | Some _ => (k, false)
  | None => if is_ready_queued_at queued_cpu k then (set_markers (Some run_cpu) None (Some run_cpu) k, true) else (k, false)
  end.
Definition clear_on_cpu k : SchedTask := set_markers None (ready_queued k) (last_cpu k) k.
Definition is_on_cpu k : bool := match on_cpu k with Some _ => true | None => false end.
Definition is_ready_queued k : bool := match ready_queued k with Some _ => true | None => false end.

(** ** Run queues *)

Record TaskManager := mkTM {
  ready_queues : list (list nat);
  realtime_queue : list nat;
  queue_caps : list nat;        (* [capacity()] of each level *)
  realtime_cap : nat;
  sched_epoch : Z;
  aging_cursor_level : nat }.

Definition new_manager : TaskManager := mkTM (replicate MLFQ_LEVELS []) [] (replicate MLFQ_LEVELS 0%nat) 0 0 1.

Implicit Types (m : TaskManager) (ts : nat -> SchedTask).

Definition queue_len m : nat := length (realtime_queue m) + length (concat (ready_queues m)).
Definition level_queue (level : nat) m : list nat := default [] (ready_queues m !! level).
Definition level_cap (level : nat) m : nat := default 0%nat (queue_caps m !! level).

Definition set_level (level : nat) (q : list nat) m : TaskManager :=
  mkTM (<[level := q]> (ready_queues m)) (realtime_queue m) (queue_caps m) (realtime_cap m) (sched_epoch m) (aging_cursor_level m).
Definition set_realtime (q : list nat) m : TaskManager :=
  mkTM (ready_queues m) q (queue_caps m) (realtime_cap m) (sched_epoch m) (aging_cursor_level m).
Definition set_cursor (c : nat) m : TaskManager :=
  mkTM (ready_queues m) (realtime_queue m) (queue_caps m) (realtime_cap m) (sched_epoch m) c.

(** A [VecDeque] that is full grows when an element is pushed. *)
Definition grown (cap len : nat) : nat := if (len <? cap)%nat then cap else Nat.max 4 (2 * cap).

Definition push_level (level : nat) (front : bool) (t : nat) m : TaskManager :=
  let q := level_queue level m in
  let m' := set_level level (if front then t :: q else q ++ [t]) m in
  mkTM (ready_queues m') (realtime_queue m') (<[level := grown (level_cap level m) (length q)]> (queue_caps m)) (realtime_cap m) (sched_epoch m) (aging_cursor_level m).
Definition insert_realtime (i : nat) (t : nat) m : TaskManager :=
  let q := realtime_queue m in
  mkTM (ready_queues m) (take i q ++ t :: drop i q) (queue_caps m) (grown (realtime_cap m) (length q)) (sched_epoch m) (aging_cursor_level m).

Definition queue_index k : nat := Nat.min (mlfq_level k) MLFQ_BOTTOM_LEVEL.

(** [add] and [add_front]. *)
Definition add_queued (front : bool) (t : nat) m ts : TaskManager * (nat -> SchedTask) :=
  if is_realtime (ts t) then
    let priority := effective_sched_priority (ts t) in
    let before q := if front then effective_sched_priority (ts q) <=? priority else effective_sched_priority (ts q) <? priority in
    (insert_realtime (default (length (realtime_queue m)) (position before (realtime_queue m))) t m, ts)
  else
    let ts := <[t := note_mlfq_enqueued (sched_epoch m) (ts t)]> ts in
    (push_level (queue_index (ts t)) front t m, ts).

Definition complete_selection m : TaskManager :=
  mkTM (ready_queues m) (realtime_queue m) (queue_caps m) (realtime_cap m) (usize (sched_epoch m + 1)) (aging_cursor_level m).

(** One turn of a queue: the first task allowed on [cpu]; those before it go to the back. *)
Fixpoint rotate (cpu : nat) ts (n : nat) (q : list nat) : list nat * option nat :=
  match n, q with
  | S n, t :: q => if allows_cpu cpu (ts t) then (q, Some t) else rotate cpu ts n (q ++ [t])
  | _, _ => (q, None)
  end.

Fixpoint pop_levels (cpu : nat) ts (levels : list nat) m : TaskManager * option nat :=
  match levels with
  | [] => (m, None)
  | level :: levels =>
      let q := level_queue level m in
      match rotate cpu ts (length q) q with
      | (q, Some t) => (set_level level q m, Some t)
      | (q, None) => pop_levels cpu ts levels (set_level level q m)
      end
  end.

Definition pop_next (cpu : nat) ts m : TaskManager * option nat :=
  match rotate cpu ts (length (realtime_queue m)) (realtime_queue m) with
  | (q, Some t) => (set_realtime q m, Some t)
  | (q, None) => pop_levels cpu ts (seq 0 MLFQ_LEVELS) (set_realtime q m)
  end.

Definition requeue_after_failed_claim (t : nat) m ts : TaskManager * (nat -> SchedTask) :=
  if is_realtime (ts t) then add_queued true t m ts else (push_level (queue_index (ts t)) false t m, ts).

Definition next_aging_level m : TaskManager * nat :=
  let level := Nat.max 1 (Nat.min (aging_cursor_level m) MLFQ_BOTTOM_LEVEL) in
  let c := (aging_cursor_level m + 1)%nat in
  (set_cursor (if (MLFQ_LEVELS <=? c)%nat then 1%nat else c) m, level).

(** Promote from one level while its oldest task has waited too long. *)
Fixpoint age_level (level : nat) (budget : nat) m ts : TaskManager * (nat -> SchedTask) * nat :=
  match budget, level_queue level m with
  | S budget, t :: q =>
      if mlfq_wait_expired (sched_epoch m) (ts t) then
        if (length (level_queue (level - 1) m) =? level_cap (level - 1) m)%nat then (m, ts, S budget)
        else let ts := <[t := note_mlfq_enqueued (sched_epoch m) (set_mlfq_level (level - 1) (ts t))]> ts in
             age_level level budget (push_level (level - 1) false t (set_level level q m)) ts
      else (m, ts, S budget)
  | _, _ => (m, ts, budget)
  end.

Fixpoint age_rounds (rounds budget : nat) m ts : TaskManager * (nat -> SchedTask) :=
  match rounds with
  | O => (m, ts)
  | S rounds =>
      if (budget =? 0)%nat then (m, ts)
      else let '(m, level) := next_aging_level m in
           let '(m, ts, budget) := age_level level budget m ts in age_rounds rounds budget m ts
  end.

Definition age_queued_tasks m ts : TaskManager * (nat -> SchedTask) := age_rounds (MLFQ_LEVELS - 1) MLFQ_AGING_SCAN_BUDGET m ts.

(** [remove]: the first entry of the task, realtime queue first. *)
Definition remove_one (t : nat) (q : list nat) : option (list nat) :=
  match position (fun x => (x =? t)%nat) q with Some i => Some (delete i q) | None => None end.

Fixpoint remove_levels (t : nat) (qs : list (list nat)) : option (list (list nat)) :=
  match qs with
  | [] => None
  | q :: qs => match remove_one t q with Some q => Some (q :: qs) | None => (q ::.) <$> remove_levels t qs end
  end.

Definition remove (t : nat) m : TaskManager * bool :=
  match remove_one t (realtime_queue m) with
  | Some q => (set_realtime q m, true)
  | None => match remove_levels t (ready_queues m) with
            | Some qs => (mkTM qs (realtime_queue m) (queue_caps m) (realtime_cap m) (sched_epoch m) (aging_cursor_level m), true)
            | None => (m, false)
            end
  end.
