(* ===== verification/SchedSys.v ===== *)
(** * The scheduler: the sections and all processors together

    What the scheduler, a wake-up, a block and a group stop do under the lock of a
    run queue or of a task, and the step relation in which the sections of all
    processors interleave.  [os/src/task/manager.rs], [task/mod.rs],
    [task/processor.rs], and the per-task part of [stop_process] and
    [continue_process] of [syscall/signal/common.rs]. *)

From stdpp Require Import functions.
From S2P Require Import Prelude Sched.

Record SchedWorld := mkSW {
  stasks : nat -> SchedTask;
  TASK_MANAGER : nat -> TaskManager;
  READY_TASKS : nat -> Z;
  ONLINE_CPUS : nat -> bool;
  IDLE_CPUS : nat -> bool;
  proc_current : nat -> option nat;     (* [PROCESSORS[cpu].current] *)
  ipis : list nat }.

Implicit Types w : SchedWorld.

Definition set_task (t : nat) (k : SchedTask) w : SchedWorld :=
  mkSW (<[t := k]> (stasks w)) (TASK_MANAGER w) (READY_TASKS w) (ONLINE_CPUS w) (IDLE_CPUS w) (proc_current w) (ipis w).
Definition set_manager (cpu : nat) (m : TaskManager) (ts : nat -> SchedTask) w : SchedWorld :=
  mkSW ts (<[cpu := m]> (TASK_MANAGER w)) (READY_TASKS w) (ONLINE_CPUS w) (IDLE_CPUS w) (proc_current w) (ipis w).
Definition set_ready_tasks (cpu : nat) (n : Z) w : SchedWorld :=
  mkSW (stasks w) (TASK_MANAGER w) (<[cpu := n]> (READY_TASKS w)) (ONLINE_CPUS w) (IDLE_CPUS w) (proc_current w) (ipis w).
Definition set_current (cpu : nat) (o : option nat) w : SchedWorld :=
  mkSW (stasks w) (TASK_MANAGER w) (READY_TASKS w) (ONLINE_CPUS w) (IDLE_CPUS w) (<[cpu := o]> (proc_current w)) (ipis w).
Definition set_idle (cpu : nat) (b : bool) w : SchedWorld :=
  mkSW (stasks w) (TASK_MANAGER w) (READY_TASKS w) (ONLINE_CPUS w) (<[cpu := b]> (IDLE_CPUS w)) (proc_current w) (ipis w).
Definition send_ipi (cpu : nat) w : SchedWorld :=
  mkSW (stasks w) (TASK_MANAGER w) (READY_TASKS w) (ONLINE_CPUS w) (IDLE_CPUS w) (proc_current w) (ipis w ++ [cpu]).

(** ** Placement *)

Definition valid_cpu (cpu : nat) : nat := if (cpu <? MAX_CPU_NUM)%nat then cpu else 0%nat.
Definition cpu_is_online (cpu : nat) w : bool := ONLINE_CPUS w cpu.
Definition online_cpu_mask w : Z :=
  fold_left (fun mask cpu => if cpu_is_online cpu w then Z.lor mask (Z.shiftl 1 (Z.of_nat cpu)) else mask) (seq 0 MAX_CPU_NUM) 0.

Definition mark_cpu_online (cpu : nat) w : SchedWorld :=
  if (cpu <? MAX_CPU_NUM)%nat
  then mkSW (stasks w) (TASK_MANAGER w) (READY_TASKS w) (<[cpu := true]> (ONLINE_CPUS w)) (IDLE_CPUS w) (proc_current w) (ipis w) else w.
Definition mark_cpu_idle (cpu : nat) w : SchedWorld := if (cpu <? MAX_CPU_NUM)%nat then set_idle cpu true w else w.
Definition mark_cpu_active (cpu : nat) w : SchedWorld := if (cpu <? MAX_CPU_NUM)%nat then set_idle cpu false w else w.
Definition cpu_has_ready_tasks (cpu : nat) w : bool := (cpu <? MAX_CPU_NUM)%nat && negb (READY_TASKS w cpu =? 0).

(** [stalled]: [scheduler_cpu_stalled]; [locked]: the processor's record is locked by somebody. *)
Section Placement.
Context (stalled locked : nat -> bool).

Definition cpu_has_current_task (cpu : nat) w : bool :=
  (cpu <? MAX_CPU_NUM)%nat && (locked cpu || match proc_current w cpu with Some _ => true | None => false end).
Definition cpu_load (cpu : nat) w : Z := READY_TASKS w cpu + Z.b2z (cpu_has_current_task cpu w).

Definition better (preferred mask : Z) (candidate : nat) (best : nat * Z) w : nat * Z :=
  let '(selected, load) := best in
  if negb (cpu_is_online candidate w) || negb (cpu_bit mask candidate) then best
  else if negb (Z.of_nat candidate =? preferred) && negb (IDLE_CPUS w candidate) && stalled candidate then best
  else let l := cpu_load candidate w in if l <? load then (candidate, l) else best.

Definition select_enqueue_cpu (preferred_cpu : nat) (mask : Z) w : nat :=
  let preferred := valid_cpu preferred_cpu in
  let allowed := Z.land mask (online_cpu_mask w) in
  let first := if cpu_is_online preferred w && cpu_bit mask preferred then preferred
               else default preferred (List.find (cpu_bit allowed) (seq 0 MAX_CPU_NUM)) in
  fst (fold_left (fun best offset => better (Z.of_nat preferred) mask ((preferred + offset) mod MAX_CPU_NUM) best w)
         (seq 0 MAX_CPU_NUM) (first, cpu_load first w)).

(** [current]: the processor that runs the call. *)
Definition select_wakeup_cpu (current preferred_cpu : nat) (mask : Z) w : nat :=
  let preferred := valid_cpu preferred_cpu in
  if negb (cpu_is_online preferred w) || negb (cpu_bit mask preferred) then select_enqueue_cpu current mask w
  else if negb (IDLE_CPUS w preferred) && stalled preferred then select_enqueue_cpu current mask w
  else let selected := select_enqueue_cpu preferred mask w in
       if (selected =? preferred)%nat || (cpu_load preferred w <=? cpu_load selected w + WAKE_AFFINITY_LOAD_MARGIN) then preferred else selected.

(** Where [add_task_to_cpu] enqueues. *)
Definition add_target (current cpu t : nat) w : nat :=
  if allows_cpu (valid_cpu cpu) (stasks w t) then valid_cpu cpu else select_enqueue_cpu current (affinity_mask (stasks w t)) w.

Definition woken_target (current t : nat) w : nat :=
  select_wakeup_cpu current (default current (last_cpu (stasks w t))) (affinity_mask (stasks w t)) w.

(** Where a task goes that has been switched away from [previous]. *)
Definition requeue_target (previous : nat) (front : bool) (t : nat) w : nat :=
  let previous := valid_cpu previous in
  if front || is_realtime (stasks w t) || kernel_critical (stasks w t) then previous
  else select_enqueue_cpu previous (affinity_mask (stasks w t)) w.
End Placement.

(** ** Sections under a run-queue lock *)

Definition next_power_of_two (n : nat) : nat := Z.to_nat (2 ^ Z.log2_up (Z.of_nat n)).

Definition reserve (required : nat) (m : TaskManager) : TaskManager :=
  if forallb (fun c => (required <=? c)%nat) (queue_caps m) && (required <=? realtime_cap m)%nat then m
  else let capacity := next_power_of_two (Nat.max required RUN_QUEUE_MIN_CAPACITY) in
       mkTM (ready_queues m) (realtime_queue m) (replicate MLFQ_LEVELS capacity) capacity (sched_epoch m) (aging_cursor_level m).

(** [enqueue_task_on_cpu] under the lock of the queue.  The markers of the task are not
    under that lock: between the test and the mark, the other processors go on. *)
Definition enqueue_check (t : nat) w : bool := negb (is_ready_queued (stasks w t)) && negb (is_on_cpu (stasks w t)).

Definition mark_section (cpu t : nat) (front : bool) w : SchedWorld * bool :=
  let m := reserve (queue_len (TASK_MANAGER w cpu) + 1) (TASK_MANAGER w cpu) in
  match try_mark_ready_queued cpu (stasks w t) with
  | None => (set_manager cpu m (stasks w) w, false)
  | Some k =>
      let '(m, ts) := add_queued front t m (<[t := k]> (stasks w)) in
      (set_ready_tasks cpu (READY_TASKS w cpu + 1) (set_manager cpu m ts w), true)
  end.

Definition decrement_ready_tasks (cpu : nat) w : SchedWorld := set_ready_tasks cpu (Z.max (READY_TASKS w cpu - 1) 0) w.

(** After the enqueue: interrupts for a remote processor. *)
Definition kick_remote_idle_cpu (current cpu : nat) w : SchedWorld :=
  if (cpu =? current)%nat || negb (cpu_is_online cpu w) || negb (IDLE_CPUS w cpu) then w else send_ipi cpu w.
Definition notify_enqueued (current cpu t : nat) w : SchedWorld :=
  let w := kick_remote_idle_cpu current cpu w in
  if negb (cpu =? current)%nat && is_realtime (stasks w t) then send_ipi cpu w else w.

(** [remove_task]; whether [READY_TASKS] is still to be decremented, and where. *)
Definition remove_section (t : nat) w : SchedWorld * option nat :=
  match ready_queued (stasks w t) with
  | None => (w, None)
  | Some cpu =>
      let '(m, removed) := remove t (TASK_MANAGER w cpu) in
      let w := set_manager cpu m (<[t := try_clear_ready_queued cpu (stasks w t)]> (stasks w)) w in
      if removed then (w, Some cpu) else (set_ready_tasks cpu (Z.of_nat (queue_len m)) w, None)
  end.

Fixpoint claim_loop (fuel cpu : nat) w : SchedWorld * option nat :=
  match fuel with
  | O => (w, None)
  | S fuel =>
      match pop_next cpu (stasks w) (TASK_MANAGER w cpu) with
      | (m, None) => (set_manager cpu m (stasks w) w, None)
      | (m, Some t) =>
          let '(k, claimed) := try_claim_queued cpu cpu (stasks w t) in
          let w := set_manager cpu m (<[t := k]> (stasks w)) w in
          if claimed then (set_manager cpu (complete_selection m) (stasks w) (decrement_ready_tasks cpu w), Some t)
          else if is_ready_queued_at cpu k then
            let '(m, ts) := requeue_after_failed_claim t m (stasks w) in claim_loop fuel cpu (set_manager cpu m ts w)
          else (decrement_ready_tasks cpu w, None)
      end
  end.

(** [claim_task_from_cpu] for the processor's own queue. *)
Definition claim_section (cpu : nat) w : SchedWorld * option nat :=
  let candidates := queue_len (TASK_MANAGER w cpu) in
  let w := if (1 <? candidates)%nat then let '(m, ts) := age_queued_tasks (TASK_MANAGER w cpu) (stasks w) in set_manager cpu m ts w else w in
  claim_loop (queue_len (TASK_MANAGER w cpu)) cpu w.

(** ** Sections under a task's lock *)

Inductive WakeNext := WakeDone (b : bool) | WakeCheck | WakeEnqueue.

(** [wakeup_task] and [wakeup_task_front]. *)
Definition wake_section (front : bool) (t : nat) w : SchedWorld * WakeNext :=
  let k := stasks w t in
  if decide (task_status k = Zombie) then (w, WakeDone false)
  else if group_stopped k then (set_task t (set_pending true (set_stop true true k)) w, WakeDone true)
  else if is_on_cpu k then
    let k := set_pending true k in
    let k := if decide (task_status k = Running) then k
             else set_status Ready (if decide (task_status k = Blocked) then set_inner Blocked true true front k else k) in
    (set_task t k w, WakeDone true)
  else if decide (task_status k = Running) then (set_task t (set_pending true k) w, WakeDone true)
  else if decide (task_status k = Ready) then (w, WakeCheck)
  else (set_task t (set_status Ready (boost_mlfq_level k)) w, WakeEnqueue).

Inductive Dispatch := DRun | DSkip | DDrop.

(** The scheduler looks at the task it has claimed: run it, skip it and let it go, or drop it. *)
Definition dispatch_section (cpu t : nat) w : SchedWorld * Dispatch :=
  let k := stasks w t in
  if decide (task_status k = Ready) then
    if decide (on_cpu k = Some cpu) then (set_current cpu (Some t) (set_task t (set_status Running k) w), DRun)
    else (set_current cpu None w, DDrop)
  else (set_current cpu None w, DSkip).

Definition skip_section (t : nat) w : SchedWorld := set_task t (clear_on_cpu (stasks w t)) w.

(** [block_current_and_run_next_impl]; [cancel]: the task and its process are dying.  Whether it switches away. *)
Definition block_section (cpu t : nat) (cancel : bool) w : SchedWorld * bool :=
  let k := stasks w t in
  if cancel then (set_task t (set_status Running k) w, false)
  else if pending_wakeup k then (set_task t (set_inner Running false false false k) w, false)
  else (set_current cpu None (set_task t (set_status Blocked k) w), true).

(** [suspend_current_and_run_next] and the like. *)
Definition yield_section (cpu t : nat) (front : bool) w : SchedWorld :=
  let k := stasks w t in set_current cpu None (set_task t (set_inner Ready (pending_wakeup k) true front k) w).

(** [preempt_current_and_run_next]. *)
Definition preempt_section (cpu t : nat) w : SchedWorld :=
  let k := stasks w t in
  let '(k, expired) := if is_sched_fifo k then (k, false) else consume_mlfq_tick k in
  let k := if expired && negb (is_realtime k) then demote_mlfq_level k
           else if expired && is_sched_rr k then reset_mlfq_slice k else k in
  yield_section cpu t (is_sched_fifo k || negb expired) (set_task t k w).

(** [schedule_stopped_task]. *)
Definition stopped_section (cpu t : nat) w : SchedWorld :=
  let k := stasks w t in set_current cpu None (set_task t (set_inner Blocked (pending_wakeup k) false false k) w).

(** The end of [exit_current_and_run_next]. *)
Definition exit_section (cpu t : nat) w : SchedWorld := set_current cpu None (set_task t (set_status Zombie (stasks w t)) w).

(** On the idle stack, after the switch; whether the task is to be queued again, and at which end. *)
Definition switched_section (t : nat) w : SchedWorld * option bool :=
  let k := clear_on_cpu (stasks w t) in
  if requeue_after_switch k then
    (set_task t (set_inner (if decide (task_status k = Zombie) then Zombie else Ready) false false false k) w, Some (requeue_front_after_switch k))
  else (set_task t k w, None).

(** [stop_process] and [continue_process], for one task. *)
Definition stop_section (t : nat) w : SchedWorld :=
  let k := stasks w t in
  if decide (task_status k = Zombie) then w
  else let k := if group_stopped k then k
                else set_stop true (bool_decide (task_status k = Ready) || bool_decide (task_status k = Running)) k in
       set_task t (if group_stop_resume k then set_inner Blocked (pending_wakeup k) false false k else k) w.

Definition continue_section (t : nat) w : SchedWorld * bool :=
  let k := stasks w t in
  let should_wake := group_stopped k && group_stop_resume k && negb (bool_decide (task_status k = Zombie)) in
  let k := set_stop false false k in
  (set_task t (if should_wake then set_pending false k else k) w, should_wake).

(** ** All processors *)

(** Where a processor's scheduler is. *)
Inductive CpuPc := CIdle | CFetched (t : nat) | CSkip (t : nat) | CStart (t : nat) | CRun (t : nat) | CSwitch (t : nat).

(** What is left to do of calls under way. *)
Inductive Post :=
| PoWake (t : nat) (front : bool)         (* [wakeup_task] *)
| PoCheck (t : nat) (front : bool)        (* ... found it ready: is it somewhere? *)
| PoPlace (t : nat) (front : bool)        (* [enqueue_woken_task] *)
| PoAdd (t cpu : nat) (front : bool)      (* [add_task_to_cpu] *)
| PoEnq (t cpu : nat) (front : bool)      (* ... its status was checked *)
| PoMark (t cpu : nat) (front : bool)     (* ... the markers were checked *)
| PoMove (t : nat)                        (* [remove_task], then [add_task] *)
| PoKill (t : nat)                        (* [remove_task], then [wakeup_task] *)
| PoRemove (t : nat)                      (* [remove_task] *)
| PoDecr (cpu : nat).

Definition post_task (p : Post) : option nat :=
  match p with
  | PoWake t _ | PoCheck t _ | PoPlace t _ | PoAdd t _ _ | PoEnq t _ _ | PoMark t _ _ | PoMove t | PoKill t | PoRemove t => Some t
  | PoDecr _ => None
  end.

Record SchedSys := mkSS { sw : SchedWorld; cpus : nat -> CpuPc; posts : list Post }.

Definition after_wake (front : bool) (t : nat) (r : WakeNext) : list Post :=
  match r with WakeDone _ => [] | WakeCheck => [PoCheck t front] | WakeEnqueue => [PoPlace t front] end.

Definition decr_post (d : option nat) : list Post := match d with Some c => [PoDecr c] | None => [] end.

(** The fields that scheduling parameters do not touch. *)
Definition same_state (k k' : SchedTask) : Prop :=
  task_status k' = task_status k /\ pending_wakeup k' = pending_wakeup k /\ requeue_after_switch k' = requeue_after_switch k /\
  group_stopped k' = group_stopped k /\ group_stop_resume k' = group_stop_resume k /\ on_cpu k' = on_cpu k /\ ready_queued k' = ready_queued k.

Section System.
(** Are there group stops?  Can others look at a task between the decision to skip
    it and its release?  In the source both are so; the other values describe parts of
    its runs. *)
Context (job_control split_skip : bool).

Inductive sstep : SchedSys -> SchedSys -> Prop :=
(* a processor's scheduler *)
| ss_claim s c w o : cpus s c = CIdle -> claim_section c (sw s) = (w, o) ->
    sstep s (mkSS w (<[c := match o with Some t => CFetched t | None => CIdle end]> (cpus s)) (posts s))
| ss_run s c t w : cpus s c = CFetched t -> dispatch_section c t (sw s) = (w, DRun) -> sstep s (mkSS w (<[c := CStart t]> (cpus s)) (posts s))
| ss_enter s c t : cpus s c = CStart t -> sstep s (mkSS (sw s) (<[c := CRun t]> (cpus s)) (posts s))
| ss_skip s c t w : cpus s c = CFetched t -> dispatch_section c t (sw s) = (w, DSkip) ->
    sstep s (if split_skip then mkSS w (<[c := CSkip t]> (cpus s)) (posts s) else mkSS (skip_section t w) (<[c := CIdle]> (cpus s)) (posts s))
| ss_drop s c t w : cpus s c = CFetched t -> dispatch_section c t (sw s) = (w, DDrop) -> sstep s (mkSS w (<[c := CIdle]> (cpus s)) (posts s))
| ss_skipped s c t : cpus s c = CSkip t -> sstep s (mkSS (skip_section t (sw s)) (<[c := CIdle]> (cpus s)) (posts s))
| ss_orphan s c t : cpus s c = CStart t ->
    sstep s (mkSS (skip_section t (set_current c None (sw s))) (<[c := CIdle]> (cpus s)) (posts s))
| ss_switched s c t w o stalled locked : cpus s c = CSwitch t -> switched_section t (sw s) = (w, o) ->
    sstep s (mkSS w (<[c := CIdle]> (cpus s))
      (match o with Some front => PoAdd t (requeue_target stalled locked c front t w) front :: posts s | None => posts s end))
| ss_idle s c (b : bool) : sstep s (mkSS (if b then mark_cpu_idle c (sw s) else mark_cpu_active c (sw s)) (cpus s) (posts s))
| ss_online s c : sstep s (mkSS (mark_cpu_online c (sw s)) (cpus s) (posts s))
(* the task that runs *)
| ss_block s c t cancel w b : cpus s c = CRun t -> block_section c t cancel (sw s) = (w, b) ->
    sstep s (mkSS w (if b then <[c := CSwitch t]> (cpus s) else cpus s) (posts s))
| ss_yield s c t front : cpus s c = CRun t -> sstep s (mkSS (yield_section c t front (sw s)) (<[c := CSwitch t]> (cpus s)) (posts s))
| ss_preempt s c t : cpus s c = CRun t -> sstep s (mkSS (preempt_section c t (sw s)) (<[c := CSwitch t]> (cpus s)) (posts s))
| ss_stopped s c t : job_control = true -> cpus s c = CRun t -> sstep s (mkSS (stopped_section c t (sw s)) (<[c := CSwitch t]> (cpus s)) (posts s))
| ss_exit s c t : cpus s c = CRun t -> sstep s (mkSS (exit_section c t (sw s)) (<[c := CSwitch t]> (cpus s)) (posts s))
| ss_sleep s c t : cpus s c = CRun t -> sstep s (mkSS (set_task t (set_status Sleep (stasks (sw s) t)) (sw s)) (cpus s) (posts s))
(* anybody *)
| ss_new s t cur stalled locked : on_cpu (stasks (sw s) t) = None -> ready_queued (stasks (sw s) t) = None -> (forall p, p ∈ posts s -> post_task p <> Some t) ->
    sstep s (mkSS (set_task t new_task (sw s)) (cpus s) (PoAdd t (select_enqueue_cpu stalled locked cur (affinity_mask new_task) (sw s)) false :: posts s))
| ss_wake s t front : sstep s (mkSS (sw s) (cpus s) (PoWake t front :: posts s))
| ss_kill s t : sstep s (mkSS (sw s) (cpus s) (PoKill t :: posts s))
| ss_reap s t : task_status (stasks (sw s) t) = Zombie -> sstep s (mkSS (sw s) (cpus s) (PoRemove t :: posts s))
| ss_sched s t k (queued : bool) : same_state (stasks (sw s) t) k ->
    sstep s (mkSS (set_task t k (sw s)) (cpus s) (if queued then PoMove t :: posts s else posts s))
| ss_stop s t : job_control = true -> sstep s (mkSS (stop_section t (sw s)) (cpus s) (PoRemove t :: posts s))
| ss_continue s t w b : job_control = true -> continue_section t (sw s) = (w, b) ->
    sstep s (mkSS w (cpus s) (if b then PoWake t false :: posts s else posts s))
(* calls under way *)
| ss_po_wake s t front ps1 ps2 w r : posts s = ps1 ++ PoWake t front :: ps2 -> wake_section front t (sw s) = (w, r) ->
    sstep s (mkSS w (cpus s) (ps1 ++ after_wake front t r ++ ps2))
| ss_po_check s t front ps1 ps2 : posts s = ps1 ++ PoCheck t front :: ps2 ->
    sstep s (mkSS (sw s) (cpus s) (ps1 ++ (if is_ready_queued (stasks (sw s) t) || is_on_cpu (stasks (sw s) t) then [] else [PoPlace t front]) ++ ps2))
| ss_po_place s t front ps1 ps2 cur stalled locked : posts s = ps1 ++ PoPlace t front :: ps2 ->
    sstep s (mkSS (sw s) (cpus s) (ps1 ++ [PoAdd t (woken_target stalled locked cur t (sw s)) front] ++ ps2))
| ss_po_add s t cpu front ps1 ps2 cur stalled locked : posts s = ps1 ++ PoAdd t cpu front :: ps2 ->
    sstep s (mkSS (sw s) (cpus s)
      (ps1 ++ (if decide (task_status (stasks (sw s) t) = Ready) then [PoEnq t (add_target stalled locked cur cpu t (sw s)) front] else []) ++ ps2))
| ss_po_enq s t cpu front ps1 ps2 : posts s = ps1 ++ PoEnq t cpu front :: ps2 ->
    sstep s (mkSS (sw s) (cpus s) (ps1 ++ (if enqueue_check t (sw s) then [PoMark t cpu front] else []) ++ ps2))
| ss_po_mark s t cpu front ps1 ps2 cur w b : posts s = ps1 ++ PoMark t cpu front :: ps2 -> mark_section cpu t front (sw s) = (w, b) ->
    sstep s (mkSS (if b then notify_enqueued cur cpu t w else w) (cpus s) (ps1 ++ ps2))
| ss_po_move s t ps1 ps2 w d cur stalled locked : posts s = ps1 ++ PoMove t :: ps2 -> remove_section t (sw s) = (w, d) ->
    sstep s (mkSS w (cpus s) (ps1 ++ (PoAdd t (select_enqueue_cpu stalled locked cur (affinity_mask (stasks w t)) w) false :: decr_post d) ++ ps2))
| ss_po_kill s t ps1 ps2 w d : posts s = ps1 ++ PoKill t :: ps2 -> remove_section t (sw s) = (w, d) ->
    sstep s (mkSS w (cpus s) (ps1 ++ (PoWake t false :: decr_post d) ++ ps2))
| ss_po_remove s t ps1 ps2 w d : posts s = ps1 ++ PoRemove t :: ps2 -> remove_section t (sw s) = (w, d) ->
    sstep s (mkSS w (cpus s) (ps1 ++ decr_post d ++ ps2))
| ss_po_decr s c ps1 ps2 : posts s = ps1 ++ PoDecr c :: ps2 -> sstep s (mkSS (decrement_ready_tasks c (sw s)) (cpus s) (ps1 ++ ps2)).

(** At boot the queues are empty; the tasks that are ready are about to be added. *)
Definition sched_boot (s : SchedSys) : Prop :=
  (forall c, TASK_MANAGER (sw s) c = new_manager /\ READY_TASKS (sw s) c = 0 /\ proc_current (sw s) c = None /\ cpus s c = CIdle) /\
  (forall t, on_cpu (stasks (sw s) t) = None /\ ready_queued (stasks (sw s) t) = None /\ group_stopped (stasks (sw s) t) = false /\
     pending_wakeup (stasks (sw s) t) = false) /\
  (forall t, task_status (stasks (sw s) t) = Ready -> exists cpu front, PoAdd t cpu front ∈ posts s) /\
  (forall p, p ∈ posts s -> exists t cpu front, p = PoAdd t cpu front).

Definition sreach (s : SchedSys) : Prop := exists s0, sched_boot s0 /\ rtc sstep s0 s.
End System.
