(* ===== verification/SchedSpec.v ===== *)
(** * The scheduler: what the run queues hold

    Every operation on a run queue permutes its tasks, adds one or takes one out;
    none outgrows the capacity that was reserved; the task that is picked is the
    first one allowed on the processor in the order of the queues. *)

From stdpp Require Import functions.
From S2P Require Import Prelude Sched SchedSys.

Implicit Types (m : TaskManager) (ts : nat -> SchedTask) (k : SchedTask).

Definition all_tasks m : list nat := realtime_queue m ++ concat (ready_queues m).

Lemma all_tasks_length m : length (all_tasks m) = queue_len m.
Proof. unfold all_tasks, queue_len. by rewrite length_app. Qed.

(** Four levels, each with room for [n] tasks, and so the realtime queue. *)
Record room (n : nat) m : Prop := {
  ro_levels : length (ready_queues m) = MLFQ_LEVELS;
  ro_caps : length (queue_caps m) = MLFQ_LEVELS;
  ro_room c : c ∈ queue_caps m -> (n <= c)%nat;
  ro_realtime : (n <= realtime_cap m)%nat }.

(** What changes of tasks while they are queued: their place in the feedback queues. *)
Definition keeps k k' : Prop := same_state k k' /\ affinity_mask k' = affinity_mask k.
Definition same_tasks ts ts' : Prop := forall u, keeps (ts u) (ts' u).

Lemma same_tasks_refl ts : same_tasks ts ts.
Proof. by intros u. Qed.
Lemma same_tasks_trans ts1 ts2 ts3 : same_tasks ts1 ts2 -> same_tasks ts2 ts3 -> same_tasks ts1 ts3.
Proof. intros H1 H2 u. specialize (H1 u). specialize (H2 u). unfold keeps, same_state in *. intuition congruence. Qed.
Lemma same_tasks_insert t k ts : keeps (ts t) k -> same_tasks ts (<[t := k]> ts).
Proof. intros H u. destruct (decide (t = u)) as [->|]; [by rewrite fn_lookup_insert|by rewrite fn_lookup_insert_ne]. Qed.

Lemma note_same epoch k : keeps k (note_mlfq_enqueued epoch k).
Proof. unfold note_mlfq_enqueued. by case_if. Qed.
Lemma set_level_same level k : keeps k (set_mlfq_level level k).
Proof. done. Qed.

(** ** Levels *)

Lemma concat_insert_perm {A} (qs : list (list A)) l q q' (extra : list A) : qs !! l = Some q -> q' ≡ₚ extra ++ q ->
  concat (<[l := q']> qs) ≡ₚ extra ++ concat qs.
Proof.
  revert l. induction qs as [|x qs IH]; intros [|l] E P; cbn in *; [done|done| |].
  - injection E as ->. rewrite P. by rewrite <- app_assoc.
  - rewrite (IH l E P). rewrite !app_assoc. by rewrite (Permutation_app_comm x extra).
Qed.

Lemma queue_index_lt k : (queue_index k < MLFQ_LEVELS)%nat.
Proof. unfold queue_index, MLFQ_BOTTOM_LEVEL, MLFQ_LEVELS. lia. Qed.

Lemma level_queue_some n l m : room n m -> (l < MLFQ_LEVELS)%nat -> ready_queues m !! l = Some (level_queue l m).
Proof. intros R H. unfold level_queue. destruct (ready_queues m !! l) eqn:E; [done|]. apply lookup_ge_None in E. rewrite (ro_levels _ _ R) in E. lia. Qed.

Lemma level_queue_le n l m : room n m -> (l < MLFQ_LEVELS)%nat -> (length (level_queue l m) <= queue_len m)%nat.
Proof.
  intros R H. pose proof (level_queue_some n l m R H) as E. apply list_elem_of_split_length in E as (q1 & q2 & Eq & _).
  unfold queue_len. rewrite Eq, concat_app. cbn. rewrite !length_app. lia.
Qed.

Lemma cap_room n l m : room n m -> (l < MLFQ_LEVELS)%nat -> queue_caps m !! l = Some (level_cap l m) /\ (n <= level_cap l m)%nat.
Proof.
  intros R H. unfold level_cap. destruct (queue_caps m !! l) eqn:E; cbn.
  - split; [done|]. apply (ro_room _ _ R). by eapply list_elem_of_lookup_2.
  - apply lookup_ge_None in E. rewrite (ro_caps _ _ R) in E. lia.
Qed.

(** Only the contents of the queues change. *)
Definition same_room m m' : Prop :=
  length (ready_queues m') = length (ready_queues m) /\ queue_caps m' = queue_caps m /\ realtime_cap m' = realtime_cap m.
Lemma room_same n m m' : same_room m m' -> room n m -> room n m'.
Proof. intros (H1 & H2 & H3) [A B C D]. split; [congruence|congruence|by rewrite H2|by rewrite H3]. Qed.
Lemma room_le n n' m : (n' <= n)%nat -> room n m -> room n' m.
Proof. intros H [A B C D]. split; [done|done| |lia]. intros c ?%C. lia. Qed.
Lemma set_level_room l q m : same_room m (set_level l q m).
Proof. repeat split. cbn. by rewrite length_insert. Qed.

Lemma set_level_perm n l q extra m : room n m -> (l < MLFQ_LEVELS)%nat -> q ≡ₚ extra ++ level_queue l m -> all_tasks (set_level l q m) ≡ₚ extra ++ all_tasks m.
Proof.
  intros R H P. unfold all_tasks. cbn. rewrite (concat_insert_perm _ l (level_queue l m) q extra); [|by eapply level_queue_some|done].
  rewrite !app_assoc. by rewrite (Permutation_app_comm extra).
Qed.

(** Taking [extra] out of a level. *)
Lemma set_level_out n l q extra m : room n m -> (l < MLFQ_LEVELS)%nat -> level_queue l m ≡ₚ extra ++ q -> all_tasks m ≡ₚ extra ++ all_tasks (set_level l q m).
Proof.
  intros R H P. assert (all_tasks m = all_tasks (set_level l (level_queue l m) (set_level l q m))) as E.
  { unfold all_tasks. cbn. rewrite list_insert_insert_eq. by rewrite list_insert_id by (by eapply level_queue_some). }
  rewrite E. apply (set_level_perm n); [by eapply room_same; [apply set_level_room|]|done|].
  rewrite P. unfold level_queue. cbn. by rewrite list_lookup_insert_eq by (rewrite (ro_levels _ _ R); done).
Qed.

(** ** Adding *)

Lemma push_level_spec n l front t m : room n m -> (queue_len m < n)%nat -> (l < MLFQ_LEVELS)%nat ->
  all_tasks (push_level l front t m) ≡ₚ t :: all_tasks m /\ room n (push_level l front t m) /\ sched_epoch (push_level l front t m) = sched_epoch m.
Proof.
  intros R Hn Hl. split; [|split; [|done]].
  - apply (set_level_perm n l (if front then t :: level_queue l m else level_queue l m ++ [t]) [t]); [done|done|]. destruct front; [done|]. by rewrite Permutation_app_comm.
  - destruct (cap_room n l m R Hl) as [Ec Hc]. pose proof (level_queue_le n l m R Hl).
    apply (room_same n m); [|done]. repeat split; cbn; [by rewrite length_insert|]. unfold grown. case_if; [|lia]. by rewrite list_insert_id.
Qed.

Lemma add_queued_spec n front t m ts m' ts' : add_queued front t m ts = (m', ts') -> room n m -> (queue_len m < n)%nat ->
  all_tasks m' ≡ₚ t :: all_tasks m /\ room n m' /\ same_tasks ts ts'.
Proof.
  unfold add_queued. case_if.
  - intros [= <- <-] R Hn. set (i := default _ _). unfold all_tasks, insert_realtime. cbn. split; [|split; [|done]].
    + rewrite <- app_assoc. cbn. rewrite <- Permutation_middle. rewrite <- (take_drop i (realtime_queue m)) at 3. by rewrite <- app_assoc.
    + apply (room_same n m); [|done]. repeat split. cbn. unfold grown. case_if; [done|]. pose proof (ro_realtime _ _ R). unfold queue_len in *. lia.
  - intros [= <- <-] R Hn. destruct (push_level_spec n (queue_index (<[t := note_mlfq_enqueued (sched_epoch m) (ts t)]> ts t)) front t m R Hn (queue_index_lt _)) as (? & ? & _).
    split; [done|]. split; [done|]. apply same_tasks_insert, note_same.
Qed.

Lemma reserve_spec m : room (queue_len m) m -> room (queue_len m + 1) (reserve (queue_len m + 1) m) /\
  ready_queues (reserve (queue_len m + 1) m) = ready_queues m /\ realtime_queue (reserve (queue_len m + 1) m) = realtime_queue m.
Proof.
  intros R. unfold reserve. destruct (forallb _ _ && _) eqn:E.
  - split; [|done]. apply andb_true_iff in E as [E1 E2%Nat.leb_le]. split; [apply R|apply R| |done].
    intros c Hc. rewrite forallb_forall in E1. apply Nat.leb_le, E1. by apply list_elem_of_In.
  - set (c := next_power_of_two _). assert (queue_len m + 1 <= c)%nat as Hc.
    { subst c. unfold next_power_of_two. set (x := Nat.max _ _). assert (queue_len m + 1 <= x)%nat by lia.
      pose proof (Z.log2_up_spec (Z.of_nat x) ltac:(unfold x, RUN_QUEUE_MIN_CAPACITY; lia)). lia. }
    split; [|done]. split; cbn; [apply R|done| |done]. intros y [->|[->|[->|[->|?%not_elem_of_nil]%elem_of_cons]%elem_of_cons]%elem_of_cons]%elem_of_cons; done.
Qed.

(** ** Picking *)

Section Pick.
Context (cpu : nat) (ts : nat -> SchedTask).
Abbreviation ok := (fun t => allows_cpu cpu (ts t)).

Lemma rotate_spec q : forall n p, length q = n ->
  match List.find ok q with
  | Some t => exists pre post, q = pre ++ t :: post /\ rotate cpu ts n (q ++ p) = (post ++ p ++ pre, Some t)
  | None => rotate cpu ts n (q ++ p) = (p ++ q, None)
  end.
Proof.
  induction q as [|t q IH]; intros n p <-; cbn [length rotate List.find app].
  { rewrite app_nil_r. by destruct p. }
  destruct (allows_cpu cpu (ts t)) eqn:A.
  - exists [], q. by rewrite !app_nil_r.
  - rewrite <- app_assoc. specialize (IH (length q) (p ++ [t]) eq_refl). destruct (List.find ok q) as [u|] eqn:F.
    + destruct IH as (pre & post & Eq & E). exists (t :: pre), post. split; [by rewrite Eq|]. rewrite E. by rewrite <- app_assoc.
    + rewrite IH. by rewrite <- app_assoc.
Qed.

Lemma set_level_id n l m : room n m -> (l < MLFQ_LEVELS)%nat -> set_level l (level_queue l m) m = m.
Proof. intros R H. unfold set_level. rewrite list_insert_id by (by eapply level_queue_some). by destruct m. Qed.

(** What is picked from a queue is its first allowed task; the others stay. *)
Definition picked (q : list nat) m m' (o : option nat) : Prop :=
  List.find ok q = o /\ match o with None => m' = m | Some t => all_tasks m ≡ₚ t :: all_tasks m' /\ same_room m m' /\ sched_epoch m' = sched_epoch m end.

Lemma find_app_none {A} (f : A -> bool) a b : List.find f a = None -> List.find f (a ++ b) = List.find f b.
Proof. induction a as [|x a IH]; cbn; [done|]. by destruct (f x). Qed.
Lemma find_app_some {A} (f : A -> bool) a b x : List.find f a = Some x -> List.find f (a ++ b) = Some x.
Proof. induction a as [|y a IH]; cbn; [done|]. by destruct (f y). Qed.

Lemma pop_levels_spec r m : room r m -> forall n l, (l + n = MLFQ_LEVELS)%nat -> forall m' o,
  pop_levels cpu ts (seq l n) m = (m', o) -> picked (concat (drop l (ready_queues m))) m m' o.
Proof.
  intros R n. induction n as [|n IH]; intros l Hl m' o; cbn [seq pop_levels].
  { intros [= <- <-]. rewrite drop_ge by (rewrite (ro_levels _ _ R); lia). done. }
  assert (l < MLFQ_LEVELS)%nat as Hlt by lia. pose proof (level_queue_some r l m R Hlt) as El.
  rewrite (drop_S _ _ _ El). cbn [concat]. set (q := level_queue l m) in *.
  pose proof (rotate_spec q (length q) [] eq_refl) as Ro. rewrite app_nil_r in Ro. destruct (List.find ok q) as [t|] eqn:F.
  - destruct Ro as (pre & post & Eq & ->). intros [= <- <-]. split; [by apply find_app_some|]. split; [|split; [apply set_level_room|done]].
    apply (set_level_out r l _ [t]); [done|done|]. fold q. rewrite Eq. cbn. rewrite <- Permutation_middle. by rewrite (Permutation_app_comm pre).
  - rewrite Ro. cbn. unfold q. rewrite (set_level_id r) by done. intros [E P]%(IH (S l)); [|lia]. split; [by rewrite find_app_none|done].
Qed.

Lemma pop_next_spec r m m' o : room r m -> pop_next cpu ts m = (m', o) -> picked (all_tasks m) m m' o.
Proof.
  intros R. unfold pop_next. pose proof (rotate_spec (realtime_queue m) (length (realtime_queue m)) [] eq_refl) as Ro. rewrite app_nil_r in Ro.
  destruct (List.find ok (realtime_queue m)) as [t|] eqn:F.
  - destruct Ro as (pre & post & Eq & ->). intros [= <- <-]. split; [by apply find_app_some|]. split; [|done]. unfold all_tasks. cbn. rewrite Eq.
    rewrite <- app_assoc. cbn. rewrite <- Permutation_middle. rewrite !app_assoc. by rewrite (Permutation_app_comm pre).
  - rewrite Ro. cbn [app]. assert (set_realtime (realtime_queue m) m = m) as -> by (by destruct m).
    intros [E P]%(pop_levels_spec r m R 4 0 eq_refl). split; [|done]. unfold all_tasks. by rewrite find_app_none.
Qed.
End Pick.

(** ** Aging *)

Lemma age_level_spec n l budget : (0 < l < MLFQ_LEVELS)%nat -> forall m ts m' ts' b', age_level l budget m ts = (m', ts', b') -> room n m -> (queue_len m <= n)%nat ->
  all_tasks m' ≡ₚ all_tasks m /\ room n m' /\ same_tasks ts ts'.
Proof.
  intros Hl. induction budget as [|budget IH]; intros m ts m' ts' b'; cbn [age_level]; [by intros [= <- <- <-]|].
  destruct (level_queue l m) as [|t q] eqn:Q; [by intros [= <- <- <-]|]. case_if; [|by intros [= <- <- <-]]. case_if; [by intros [= <- <- <-]|].
  intros Ea R Hn. assert (all_tasks m ≡ₚ [t] ++ all_tasks (set_level l q m)) as P1 by (apply (set_level_out n); [done|lia|by rewrite Q]).
  assert (room n (set_level l q m)) as R1 by (eapply room_same; [apply set_level_room|done]).
  assert (queue_len m = S (queue_len (set_level l q m))) as L1 by (rewrite <- !all_tasks_length, P1; done).
  destruct (push_level_spec n (l - 1) false t (set_level l q m) R1 ltac:(lia) ltac:(lia)) as (P2 & R2 & _).
  assert (queue_len (push_level (l - 1) false t (set_level l q m)) = queue_len m) as L2 by (rewrite <- all_tasks_length, P2; cbn [length]; rewrite all_tasks_length; lia).
  destruct (IH _ _ _ _ _ Ea R2 ltac:(lia)) as (P3 & R3 & S3). split; [by rewrite P3, P2, P1|]. split; [done|].
  eapply same_tasks_trans; [|done]. apply same_tasks_insert. destruct (note_same (sched_epoch m) (set_mlfq_level (l - 1) (ts t))) as ((?&?&?&?&?&?&?) & ?). unfold keeps, same_state. by repeat split.
Qed.

Lemma age_spec n m ts m' ts' : age_queued_tasks m ts = (m', ts') -> room n m -> (queue_len m <= n)%nat ->
  all_tasks m' ≡ₚ all_tasks m /\ room n m' /\ same_tasks ts ts'.
Proof.
  unfold age_queued_tasks. generalize MLFQ_AGING_SCAN_BUDGET as budget. generalize (MLFQ_LEVELS - 1)%nat as rounds.
  intros rounds. revert m ts. induction rounds as [|rounds IH]; intros m ts budget; cbn [age_rounds]; [by intros [= <- <-]|].
  case_if; [by intros [= <- <-]|]. destruct (next_aging_level m) as [m1 l] eqn:N. unfold next_aging_level in N. injection N as <- Hl.
  destruct (age_level l budget _ ts) as [[m2 ts2] b2] eqn:A. intros Ea R Hn.
  apply (age_level_spec n) in A as (P1 & R1 & S1); [|unfold MLFQ_BOTTOM_LEVEL, MLFQ_LEVELS in *; lia|by apply (room_same n m)|done].
  assert (queue_len m2 = queue_len m) as L by (rewrite <- all_tasks_length, P1; exact (all_tasks_length m)).
  destruct (IH _ _ _ Ea R1 ltac:(lia)) as (P2 & R2 & S2). split; [by rewrite P2, P1|]. split; [done|]. by eapply same_tasks_trans.
Qed.

(** ** Removing *)

Lemma remove_one_spec t q : match remove_one t q with Some q' => q ≡ₚ t :: q' | None => t ∉ q end.
Proof.
  unfold remove_one. induction q as [|x q IH]; cbn; [apply not_elem_of_nil|]. destruct (Nat.eqb_spec x t) as [->|N]; cbn; [done|].
  destruct (position _ q); cbn in *; [|set_solver]. rewrite IH at 1. constructor.
Qed.

Lemma remove_levels_spec t qs : match remove_levels t qs with Some qs' => concat qs ≡ₚ t :: concat qs' /\ length qs' = length qs | None => t ∉ concat qs end.
Proof.
  induction qs as [|q qs IH]; cbn; [apply not_elem_of_nil|]. pose proof (remove_one_spec t q) as O. destruct (remove_one t q) as [q'|].
  - cbn. split; [by rewrite O|done].
  - destruct (remove_levels t qs) as [qs'|]; cbn; [|set_solver]. destruct IH as [IH L]. split; [|by rewrite L]. rewrite IH. by rewrite Permutation_middle.
Qed.

Lemma remove_spec t m m' b : remove t m = (m', b) ->
  same_room m m' /\ if b then all_tasks m ≡ₚ t :: all_tasks m' else m' = m /\ t ∉ all_tasks m.
Proof.
  unfold remove. pose proof (remove_one_spec t (realtime_queue m)) as O. destruct (remove_one t _) as [q|].
  - intros [= <- <-]. split; [done|]. unfold all_tasks. cbn. by rewrite O.
  - pose proof (remove_levels_spec t (ready_queues m)) as L. destruct (remove_levels t _) as [qs|].
    + destruct L as [L E]. intros [= <- <-]. split; [done|]. unfold all_tasks. cbn. rewrite L. by rewrite Permutation_middle.
    + intros [= <- <-]. split; [done|]. split; [done|]. unfold all_tasks. set_solver.
Qed.
