(* ===== verification/SchedInv.v ===== *)
(** * The scheduler: where a task can be

    The invariant of the markers: a task is in at most one queue and there once,
    exactly when its marker names that processor; it is claimed by at most one
    processor; the counters of ready tasks agree with the queues. *)

From stdpp Require Import functions.
From S2P Require Import Prelude Sched SchedSys SchedSpec.

Implicit Types (w : SchedWorld) (s : SchedSys) (ts : nat -> SchedTask) (k : SchedTask).

Definition holds (pc : CpuPc) : option nat :=
  match pc with CIdle => None | CFetched t | CSkip t | CStart t | CRun t | CSwitch t => Some t end.
Definition running (pc : CpuPc) : option nat := match pc with CStart t | CRun t => Some t | _ => None end.
Definition is_decr (c : nat) (p : Post) : bool := match p with PoDecr c' => (c' =? c)%nat | _ => false end.
Definition decrs (c : nat) (ps : list Post) : nat := length (List.filter (is_decr c) ps).

Definition queue w (c : nat) : list nat := all_tasks (TASK_MANAGER w c).

Record QInv s : Prop := {
  qi_queue c t : t ∈ queue (sw s) c <-> ready_queued (stasks (sw s) t) = Some c;
  qi_nodup c : NoDup (queue (sw s) c);
  qi_cpu c t : on_cpu (stasks (sw s) t) = Some c <-> holds (cpus s c) = Some t;
  qi_current c : proc_current (sw s) c = running (cpus s c);
  qi_count c : READY_TASKS (sw s) c = Z.of_nat (length (queue (sw s) c) + decrs c (posts s));
  qi_room c : room (length (queue (sw s) c)) (TASK_MANAGER (sw s) c) }.

Lemma decrs_app c a b : decrs c (a ++ b) = (decrs c a + decrs c b)%nat.
Proof. unfold decrs. by rewrite List.filter_app, length_app. Qed.
Lemma decrs_post c d : decrs c (decr_post d) = (if decide (d = Some c) then 1 else 0)%nat.
Proof.
  unfold decrs, decr_post. destruct d as [x|]; cbn; [|done]. destruct (Nat.eqb_spec x c); [subst; by rewrite decide_True|].
  rewrite decide_False; [done|congruence].
Qed.

(** ** Sections of the tasks *)

Definition same_marks w w' : Prop := forall u, on_cpu (stasks w' u) = on_cpu (stasks w u) /\ ready_queued (stasks w' u) = ready_queued (stasks w u).
Definition same_queues w w' : Prop := forall c, TASK_MANAGER w' c = TASK_MANAGER w c /\ READY_TASKS w' c = READY_TASKS w c.

Lemma qinv_same s s' : same_marks (sw s) (sw s') -> same_queues (sw s) (sw s') ->
  (forall c, decrs c (posts s') = decrs c (posts s)) -> (forall c, holds (cpus s' c) = holds (cpus s c)) ->
  (forall c, proc_current (sw s') c = running (cpus s' c)) -> QInv s -> QInv s'.
Proof.
  intros M Q D H C [Iq In Ic Iu Io Ir]. assert (forall c, queue (sw s') c = queue (sw s) c) as K by (intros c; unfold queue; by rewrite (proj1 (Q c))).
  split; intros; rewrite ?K in *.
  - by rewrite (proj2 (M t)).
  - done.
  - by rewrite (proj1 (M t)), H.
  - done.
  - by rewrite (proj2 (Q c)), D.
  - by rewrite (proj1 (Q c)).
Qed.

(** A processor lets its task go. *)
Lemma qinv_release s c t w' ps' : QInv s -> holds (cpus s c) = Some t ->
  (forall u, ready_queued (stasks w' u) = ready_queued (stasks (sw s) u) /\
             on_cpu (stasks w' u) = if decide (u = t) then None else on_cpu (stasks (sw s) u)) ->
  same_queues (sw s) w' -> (forall c', decrs c' ps' = decrs c' (posts s)) ->
  (forall c', proc_current w' c' = if decide (c' = c) then None else proc_current (sw s) c') ->
  QInv (mkSS w' (<[c := CIdle]> (cpus s)) ps').
Proof.
  intros [Iq In Ic Iu Io Ir] Hc M Q D C.
  assert (forall c, queue w' c = queue (sw s) c) as K by (intros x; unfold queue; by rewrite (proj1 (Q x))).
  split; cbn [sw cpus posts]; intros; rewrite ?K in *.
  - by rewrite (proj1 (M t0)).
  - done.
  - rewrite (proj2 (M t0)). destruct (decide (c = c0)) as [->|Nc].
    + rewrite fn_lookup_insert. cbn. case_decide as Et; [done|]. rewrite Ic, Hc. split; congruence.
    + rewrite fn_lookup_insert_ne by done. case_decide as Et; [|apply Ic]. subst t0. split; [done|]. intros H%Ic. apply Ic in Hc. congruence.
  - rewrite C. destruct (decide (c = c0)) as [->|Nc]; [by rewrite decide_True, fn_lookup_insert|].
    rewrite decide_False by congruence. by rewrite fn_lookup_insert_ne.
  - by rewrite (proj2 (Q c0)), D.
  - by rewrite (proj1 (Q c0)).
Qed.

(** ** Sections of a run queue *)

(** [t]'s marker becomes [rq], [on], everything else that matters stays. *)
Definition remarked t (on rq : option nat) ts ts' : Prop :=
  forall u, task_status (ts' u) = task_status (ts u) /\ pending_wakeup (ts' u) = pending_wakeup (ts u) /\
    requeue_after_switch (ts' u) = requeue_after_switch (ts u) /\ group_stopped (ts' u) = group_stopped (ts u) /\ group_stop_resume (ts' u) = group_stop_resume (ts u) /\
    on_cpu (ts' u) = (if decide (u = t) then on else on_cpu (ts u)) /\ ready_queued (ts' u) = (if decide (u = t) then rq else ready_queued (ts u)).

Lemma remarked_same t on rq ts ts' ts'' : remarked t on rq ts ts' -> same_tasks ts' ts'' -> remarked t on rq ts ts''.
Proof.
  intros H1 H2 u. destruct (H1 u) as (?&?&?&?&?&?&?), (H2 u) as ((?&?&?&?&?&?&?) & _). repeat split; congruence.
Qed.
Lemma same_remarked t on rq ts ts' ts'' : same_tasks ts ts' -> remarked t on rq ts' ts'' -> remarked t on rq ts ts''.
Proof.
  intros H2 H1 u. destruct (H1 u) as (?&?&?&?&?&?&?), (H2 u) as ((?&?&?&?&?&?&?) & _). repeat split; try congruence; case_decide; congruence.
Qed.
Lemma remarked_insert t on rq last ts : remarked t on rq ts (<[t := set_markers on rq last (ts t)]> ts).
Proof.
  intros u. destruct (decide (u = t)) as [->|N]; [by rewrite fn_lookup_insert|]. rewrite fn_lookup_insert_ne by done. done.
Qed.

Definition elsewhere c w w' : Prop :=
  (forall c', c' <> c -> TASK_MANAGER w' c' = TASK_MANAGER w c' /\ READY_TASKS w' c' = READY_TASKS w c') /\ proc_current w' = proc_current w.

Lemma mark_spec c t front w w' b : room (length (queue w c)) (TASK_MANAGER w c) -> mark_section c t front w = (w', b) ->
  elsewhere c w w' /\ room (length (queue w' c)) (TASK_MANAGER w' c) /\
  if b then ready_queued (stasks w t) = None /\ queue w' c ≡ₚ t :: queue w c /\ READY_TASKS w' c = READY_TASKS w c + 1 /\
            remarked t (on_cpu (stasks w t)) (Some c) (stasks w) (stasks w')
  else is_ready_queued (stasks w t) = true /\ queue w' c = queue w c /\ READY_TASKS w' c = READY_TASKS w c /\ stasks w' = stasks w.
Proof.
  intros R. unfold mark_section, try_mark_ready_queued, is_ready_queued. unfold queue in *. rewrite all_tasks_length in R.
  destruct (reserve_spec (TASK_MANAGER w c) R) as (R1 & Q1 & Q2). set (m1 := reserve _ _) in *.
  assert (all_tasks m1 = all_tasks (TASK_MANAGER w c)) as A1 by (unfold all_tasks; by rewrite Q1, Q2).
  assert (queue_len m1 = queue_len (TASK_MANAGER w c)) as L1 by (rewrite <- !all_tasks_length; by rewrite A1).
  destruct (ready_queued (stasks w t)) eqn:Eq.
  - intros [= <- <-]. cbn. rewrite fn_lookup_insert. split; [split; [|done]; intros c' N; cbn; by rewrite fn_lookup_insert_ne|].
    rewrite A1, all_tasks_length. split; [|done]. eapply room_le; [|exact R1]. lia.
  - destruct (add_queued front t m1 _) as [m2 ts2] eqn:A. intros [= <- <-].
    apply (add_queued_spec (queue_len (TASK_MANAGER w c) + 1)) in A as (P & R2 & S2); [|done|lia]. rewrite A1 in P.
    cbn [TASK_MANAGER set_manager set_ready_tasks]. rewrite fn_lookup_insert. split; [split; [|done]; intros c' N; cbn; by rewrite !fn_lookup_insert_ne|].
    split; [|split; [done|split; [done|split; [cbn; by rewrite fn_lookup_insert|cbn; eapply remarked_same; [|exact S2]; apply remarked_insert]]]].
    rewrite P. cbn [length]. rewrite all_tasks_length. by replace (S (queue_len (TASK_MANAGER w c))) with (queue_len (TASK_MANAGER w c) + 1)%nat by lia.
Qed.

Lemma remove_section_spec t w w' d : (forall c, ready_queued (stasks w t) = Some c -> t ∈ queue w c) -> remove_section t w = (w', d) ->
  match d with
  | None => w' = w /\ ready_queued (stasks w t) = None
  | Some c => ready_queued (stasks w t) = Some c /\ queue w c ≡ₚ t :: queue w' c /\ same_room (TASK_MANAGER w c) (TASK_MANAGER w' c) /\
      READY_TASKS w' c = READY_TASKS w c /\ elsewhere c w w' /\ remarked t (on_cpu (stasks w t)) None (stasks w) (stasks w')
  end.
Proof.
  intros H. unfold remove_section. destruct (ready_queued (stasks w t)) as [c|] eqn:Eq; [|intros [= <- <-]; done].
  destruct (remove t (TASK_MANAGER w c)) as [m b] eqn:E. apply remove_spec in E as [R E]. destruct b; [|exfalso; apply E, (H c eq_refl)].
  intros [= <- <-]. split; [done|]. unfold queue. cbn. rewrite !fn_lookup_insert. split; [done|]. split; [done|]. split; [done|]. split.
  - split; [|done]. intros c' N. cbn. by rewrite !fn_lookup_insert_ne.
  - unfold try_clear_ready_queued, is_ready_queued_at. rewrite Eq, bool_decide_true by done. apply remarked_insert.
Qed.

(** Before it picks, the processor promotes the tasks that have waited too long. *)
Definition aged (c : nat) w : TaskManager * (nat -> SchedTask) :=
  if (1 <? queue_len (TASK_MANAGER w c))%nat then age_queued_tasks (TASK_MANAGER w c) (stasks w) else (TASK_MANAGER w c, stasks w).

Lemma aged_spec c w : room (length (queue w c)) (TASK_MANAGER w c) ->
  all_tasks (fst (aged c w)) ≡ₚ queue w c /\ room (length (queue w c)) (fst (aged c w)) /\ same_tasks (stasks w) (snd (aged c w)).
Proof.
  intros R. unfold aged. case_if; [|by split; [done|split; [done|apply same_tasks_refl]]]. destruct (age_queued_tasks _ _) as [m ts] eqn:A.
  apply (age_spec (length (queue w c))) in A; [done|done|]. unfold queue. by rewrite all_tasks_length.
Qed.

Lemma requeue_spec n t m ts m' ts' : requeue_after_failed_claim t m ts = (m', ts') -> room n m -> (queue_len m < n)%nat ->
  all_tasks m' ≡ₚ t :: all_tasks m /\ room n m' /\ same_tasks ts ts'.
Proof.
  unfold requeue_after_failed_claim. case_if; [apply add_queued_spec|]. intros [= <- <-] R Hn.
  destruct (push_level_spec n (queue_index (ts t)) false t m R Hn (queue_index_lt _)) as (? & ? & _). done.
Qed.

Lemma elsewhere_trans c w1 w2 w3 : elsewhere c w1 w2 -> elsewhere c w2 w3 -> elsewhere c w1 w3.
Proof. intros [A B] [C D]. split; [|congruence]. intros c' N. destruct (A _ N), (C _ N). split; congruence. Qed.

(** What a claim leaves: the same tasks, but the one it has taken, which was on no processor. *)
Definition claimed_from c w w' (o : option nat) : Prop :=
  elsewhere c w w' /\ room (length (queue w c)) (TASK_MANAGER w' c) /\
  match o with
  | None => queue w' c ≡ₚ queue w c /\ READY_TASKS w' c = READY_TASKS w c /\ same_tasks (stasks w) (stasks w')
  | Some t => queue w c ≡ₚ t :: queue w' c /\ READY_TASKS w' c = Z.max (READY_TASKS w c - 1) 0 /\ on_cpu (stasks w t) = None /\ remarked t (Some c) None (stasks w) (stasks w')
  end.

(** Rearranging the queue before the claim makes no difference. *)
Lemma claimed_after c w1 w2 w3 o : elsewhere c w1 w2 -> queue w2 c ≡ₚ queue w1 c -> READY_TASKS w2 c = READY_TASKS w1 c -> same_tasks (stasks w1) (stasks w2) ->
  claimed_from c w2 w3 o -> claimed_from c w1 w3 o.
Proof.
  intros E P N S (E2 & R & C). split; [by eapply elsewhere_trans|]. split; [by rewrite <- P|]. destruct o as [t|]; destruct C as (C1 & C2 & C3).
  - destruct C3 as [C3 C4]. rewrite <- P, <- N. split; [done|]. split; [done|]. split; [|by eapply same_remarked]. destruct (S t) as ((_&_&_&_&_&<-&_)&_). done.
  - rewrite <- P, <- N. split; [done|]. split; [done|]. by eapply same_tasks_trans.
Qed.

Lemma claimed_none c w w' : room (length (queue w c)) (TASK_MANAGER w c) -> elsewhere c w w' -> TASK_MANAGER w' c = TASK_MANAGER w c -> READY_TASKS w' = READY_TASKS w ->
  stasks w' = stasks w -> claimed_from c w w' None.
Proof. intros R E M N S. unfold claimed_from, queue. rewrite M, N, S. split; [done|]. split; [done|]. split; [done|]. split; [done|apply same_tasks_refl]. Qed.

Definition marked_here c w : Prop := forall t, t ∈ queue w c -> ready_queued (stasks w t) = Some c.

Lemma marked_perm c w w' : marked_here c w -> queue w' c ≡ₚ queue w c -> same_tasks (stasks w) (stasks w') -> marked_here c w'.
Proof. intros M P S t. rewrite P. destruct (S t) as ((_&_&_&_&_&_&->)&_). apply M. Qed.

Lemma claim_loop_inv c fuel : forall w w' o, room (length (queue w c)) (TASK_MANAGER w c) -> marked_here c w -> claim_loop fuel c w = (w', o) -> claimed_from c w w' o.
Proof.
  induction fuel as [|fuel IH]; intros w w' o R H; cbn [claim_loop]; [intros [= <- <-]; by apply claimed_none|].
  destruct (pop_next c (stasks w) (TASK_MANAGER w c)) as [m [t|]] eqn:P; apply (pop_next_spec _ _ (length (queue w c))) in P as [F P]; [|done| |done].
  2:{ subst m. intros [= <- <-]. apply claimed_none; [done|split; [|done]; intros c' N; cbn; by rewrite fn_lookup_insert_ne|cbn; by rewrite fn_lookup_insert|done|done]. }
  destruct P as (Pm & Rm & _). pose proof (H t ltac:(unfold queue; rewrite Pm; left)) as Hr.
  unfold try_claim_queued, is_ready_queued_at. rewrite Hr, bool_decide_true by done. destruct (on_cpu (stasks w t)) eqn:Ho.
  - cbn. rewrite Hr, bool_decide_true by done. set (ts1 := <[t := stasks w t]> (stasks w)).
    destruct (requeue_after_failed_claim t m ts1) as [m2 ts2] eqn:Q.
    apply (requeue_spec (length (queue w c))) in Q as (P2 & R2 & S2); [|by apply (room_same _ _ _ Rm)|unfold queue; rewrite Pm; cbn [length]; rewrite all_tasks_length; lia].
    set (w2 := set_manager c m2 ts2 _). assert (TASK_MANAGER w2 c = m2) as E2 by apply fn_lookup_insert.
    assert (queue w2 c ≡ₚ queue w c) as Pq by (unfold queue; by rewrite E2, P2, Pm).
    assert (same_tasks (stasks w) (stasks w2)) as S1 by (eapply same_tasks_trans; [|exact S2]; by apply same_tasks_insert).
    intros C. apply (claimed_after c w w2); [split; [|done]; intros c' N; cbn; by rewrite !fn_lookup_insert_ne|done|done|done|].
    apply IH; [rewrite Pq, E2; exact R2|by eapply marked_perm|done].
  - intros [= <- <-]. unfold claimed_from, queue in *. cbn. rewrite !fn_lookup_insert. split; [split; [|done]; intros c' N; cbn; by rewrite !fn_lookup_insert_ne|].
    split; [by apply (room_same _ (TASK_MANAGER w c))|]. split; [done|]. split; [done|]. split; [done|apply remarked_insert].
Qed.

Lemma aged_world c w : let w1 := if (1 <? queue_len (TASK_MANAGER w c))%nat then let '(m, ts) := age_queued_tasks (TASK_MANAGER w c) (stasks w) in set_manager c m ts w else w in
  TASK_MANAGER w1 c = fst (aged c w) /\ stasks w1 = snd (aged c w) /\ elsewhere c w w1 /\ READY_TASKS w1 = READY_TASKS w.
Proof.
  unfold aged. cbv zeta. destruct (1 <? _)%nat; [|done]. destruct (age_queued_tasks _ _). cbn. rewrite fn_lookup_insert. repeat split. cbn. by rewrite fn_lookup_insert_ne.
Qed.

Lemma claim_inv c w w' o : room (length (queue w c)) (TASK_MANAGER w c) -> marked_here c w -> claim_section c w = (w', o) -> claimed_from c w w' o.
Proof.
  intros R H. destruct (aged_spec c w R) as (Pa & Ra & Sa). unfold claim_section. pose proof (aged_world c w) as (Em & Es & El & Er).
  set (w1 := if (1 <? _)%nat then _ else w) in *. assert (queue w1 c ≡ₚ queue w c) as P by (unfold queue at 1; by rewrite Em).
  rewrite <- Es in Sa. intros C. apply (claimed_after c w w1); [done|done|by rewrite Er|done|].
  eapply claim_loop_inv; [by rewrite P, Em|by eapply marked_perm|done].
Qed.

(** When no queued task is on a processor, the first attempt is the last. *)
Lemma find_ext_in {A} (f g : A -> bool) l : (forall x, f x = g x) -> List.find f l = List.find g l.
Proof. intros H. induction l as [|x l IH]; cbn; [done|]. by rewrite H, IH. Qed.

Lemma claim_pick c w w' o : room (length (queue w c)) (TASK_MANAGER w c) -> marked_here c w -> (forall t, t ∈ queue w c -> on_cpu (stasks w t) = None) ->
  claim_section c w = (w', o) -> o = List.find (fun t => allows_cpu c (stasks w t)) (all_tasks (fst (aged c w))).
Proof.
  intros R H Hn. destruct (aged_spec c w R) as (Pa & Ra & Sa). unfold claim_section. pose proof (aged_world c w) as (Em & Es & _ & _).
  set (w1 := if (1 <? _)%nat then _ else w) in *.
  assert (List.find (fun t => allows_cpu c (stasks w t)) (all_tasks (fst (aged c w))) = List.find (fun t => allows_cpu c (stasks w1 t)) (all_tasks (TASK_MANAGER w1 c))) as ->.
  { rewrite Em. apply find_ext_in. intros t. unfold allows_cpu. by rewrite Es, (proj2 (Sa t)). }
  rewrite <- Em in Pa, Ra. rewrite <- Es in Sa. rewrite <- all_tasks_length. destruct (length (all_tasks (TASK_MANAGER w1 c))) as [|fuel] eqn:L; cbn [claim_loop].
  { intros [= <- <-]. by destruct (all_tasks (TASK_MANAGER w1 c)). }
  destruct (pop_next c (stasks w1) (TASK_MANAGER w1 c)) as [m [t|]] eqn:P; apply (pop_next_spec _ _ (length (queue w c))) in P as [F P]; [|done| |done].
  - destruct P as (Pm & _). assert (t ∈ queue w c) as Ht by (rewrite <- Pa, Pm; left). destruct (Sa t) as ((_&_&_&_&_&Eo&Eq)&_).
    unfold try_claim_queued, is_ready_queued_at. rewrite Eo, Eq, (Hn t Ht), (H t Ht), bool_decide_true by done. intros [= <- <-]. done.
  - by intros [= <- <-].
Qed.

(** ** The invariant and the run queues *)

(** One queue and the markers of one task change. *)
Lemma qinv_queue s s' c t on rq : QInv s -> elsewhere c (sw s) (sw s') -> remarked t on rq (stasks (sw s)) (stasks (sw s')) ->
  (forall c', ready_queued (stasks (sw s) t) = Some c' -> c' = c) -> (forall c', rq = Some c' -> c' = c) ->
  (forall u, u ∈ queue (sw s') c <-> if decide (u = t) then rq = Some c else u ∈ queue (sw s) c) -> NoDup (queue (sw s') c) ->
  room (length (queue (sw s') c)) (TASK_MANAGER (sw s') c) -> READY_TASKS (sw s') c = Z.of_nat (length (queue (sw s') c) + decrs c (posts s')) ->
  (forall c', c' <> c -> decrs c' (posts s') = decrs c' (posts s)) ->
  (forall c' u, (if decide (u = t) then on else on_cpu (stasks (sw s) u)) = Some c' <-> holds (cpus s' c') = Some u) ->
  (forall c', proc_current (sw s) c' = running (cpus s' c')) -> QInv s'.
Proof.
  intros [Iq In Ic Iu Io Ir] [E Ep] M Hr Hrq Hq Hn Hm Hc Hd Hh Hp.
  assert (forall c', c' <> c -> queue (sw s') c' = queue (sw s) c') as K by (intros x N; unfold queue; by rewrite (proj1 (E x N))).
  split; intros.
  - destruct (M t0) as (_&_&_&_&_&_&->). destruct (decide (c0 = c)) as [->|N]; [|rewrite (K _ N)].
    + rewrite Hq. case_decide; [done|apply Iq].
    + rewrite Iq. case_decide as D; [|done]. subst. split; [by intros ?%Hr|by intros ?%Hrq].
  - destruct (decide (c0 = c)) as [->|N]; [done|by rewrite (K _ N)].
  - destruct (M t0) as (_&_&_&_&_&->&_). apply Hh.
  - by rewrite Ep.
  - destruct (decide (c0 = c)) as [->|N]; [done|]. by rewrite (K _ N), (proj2 (E _ N)), Hd, Io.
  - destruct (decide (c0 = c)) as [->|N]; [done|]. by rewrite (K _ N), (proj1 (E _ N)).
Qed.

(** A queue is rearranged. *)
Lemma qinv_perm s s' c : QInv s -> elsewhere c (sw s) (sw s') -> same_marks (sw s) (sw s') -> queue (sw s') c ≡ₚ queue (sw s) c ->
  room (length (queue (sw s) c)) (TASK_MANAGER (sw s') c) -> READY_TASKS (sw s') c = READY_TASKS (sw s) c -> (forall c', decrs c' (posts s') = decrs c' (posts s)) ->
  (forall c', cpus s' c' = cpus s c') -> QInv s'.
Proof.
  intros [Iq In Ic Iu Io Ir] [E Ep] M P R N D H.
  assert (forall c', queue (sw s') c' ≡ₚ queue (sw s) c') as K by (intros x; destruct (decide (x = c)) as [->|Nx]; [done|unfold queue; by rewrite (proj1 (E x Nx))]).
  split; intros; rewrite ?K, ?D, ?H, ?Ep in *.
  - by rewrite (proj2 (M t)).
  - done.
  - by rewrite (proj1 (M t)).
  - done.
  - destruct (decide (c0 = c)) as [->|Nx]; [by rewrite N|by rewrite (proj2 (E _ Nx))].
  - destruct (decide (c0 = c)) as [->|Nx]; [done|by rewrite (proj1 (E _ Nx))].
Qed.

Lemma qinv_mark s c t front w b ps : QInv s -> mark_section c t front (sw s) = (w, b) -> (forall c', decrs c' ps = decrs c' (posts s)) ->
  QInv (mkSS w (cpus s) ps).
Proof.
  intros I E D. pose proof I as [Iq In Ic Iu Io Ir]. apply mark_spec in E as (El & R & E); [|apply Ir]. destruct b.
  2:{ destruct E as (_ & Q & N & S). apply (qinv_perm s _ c); cbn [sw cpus posts]; [done|done|intros u; by rewrite S|by rewrite Q|by rewrite Q in R|done|done|done]. }
  destruct E as (Hr & P & N & M). eapply (qinv_queue s _ c t (on_cpu (stasks (sw s) t)) (Some c)); cbn [sw cpus posts]; [done|done|done| | | | |done| | | |done].
  - by rewrite Hr.
  - by intros c' [= ->].
  - intros u. rewrite P, elem_of_cons. case_decide as U; [|set_solver]. subst. split; [done|by left].
  - rewrite P. apply NoDup_cons. split; [|apply In]. rewrite Iq. by rewrite Hr.
  - rewrite N, Io, D, P. cbn [length]. lia.
  - intros c' _. apply D.
  - intros c' u. rewrite <- Ic. by case_decide; subst.
Qed.

Lemma qinv_claim s c w o : QInv s -> cpus s c = CIdle -> claim_section c (sw s) = (w, o) ->
  QInv (mkSS w (<[c := match o with Some t => CFetched t | None => CIdle end]> (cpus s)) (posts s)).
Proof.
  intros I Hc E. pose proof I as [Iq In Ic Iu Io Ir].
  apply claim_inv in E as (El & R & E); [|apply Ir|intros t; apply Iq].
  assert (forall c', proc_current (sw s) c' = running (<[c := match o with Some t => CFetched t | None => CIdle end]> (cpus s) c')) as Hp.
  { intros c'. rewrite Iu. destruct (decide (c = c')) as [->|N]; [|by rewrite fn_lookup_insert_ne]. rewrite fn_lookup_insert, Hc. by destruct o. }
  destruct o as [t|]; destruct E as (P & N & M).
  - destruct M as [Ho M]. assert (ready_queued (stasks (sw s) t) = Some c) as Hr by (apply Iq; rewrite P; left).
    assert (NoDup (t :: queue w c)) as [Hn Nd]%NoDup_cons by (rewrite <- P; apply In).
    eapply (qinv_queue s _ c t (Some c) None); cbn [sw cpus posts]; [done|done|done| |done| |done| | |done| |done].
    + intros c' ?. congruence.
    + intros u. case_decide as U; [by subst|]. rewrite P. set_solver.
    + eapply room_le; [|exact R]. rewrite P. cbn [length]. lia.
    + rewrite N, Io, P. cbn [length]. lia.
    + intros c' u. destruct (decide (c = c')) as [<-|Nc]; [rewrite fn_lookup_insert; cbn|rewrite fn_lookup_insert_ne by done].
      * case_decide as U; [by subst|]. rewrite Ic, Hc. cbn. split; congruence.
      * case_decide as U; [|apply Ic]. subst. split; [congruence|]. rewrite <- Ic. by rewrite Ho.
  - eapply (qinv_perm s _ c); [done|done| |done|done|done|done|].
    + intros u. by destruct (M u) as ((?&?&?&?&?&?&?)&_).
    + intros c'. cbn. destruct (decide (c = c')) as [->|Nx]; [by rewrite fn_lookup_insert|by rewrite fn_lookup_insert_ne].
Qed.

Lemma qinv_remove s t w d ps : QInv s -> remove_section t (sw s) = (w, d) -> (forall c, decrs c ps = (decrs c (decr_post d) + decrs c (posts s))%nat) ->
  QInv (mkSS w (cpus s) ps).
Proof.
  intros I E D. pose proof I as [Iq In Ic Iu Io Ir]. apply remove_section_spec in E; [|intros c; apply Iq]. destruct d as [c|].
  2:{ destruct E as [-> _]. by apply (qinv_same s). }
  destruct E as (Hr & P & R & N & El & M). assert (NoDup (t :: queue w c)) as [Hn Nd]%NoDup_cons by (rewrite <- P; apply In).
  eapply (qinv_queue s _ c t (on_cpu (stasks (sw s) t)) None); cbn [sw cpus posts]; [done|done|done| |done| |done| | | | |done].
  - intros c' ?. congruence.
  - intros u. case_decide as U; [by subst|]. rewrite P. set_solver.
  - apply (room_same _ _ _ R). eapply room_le; [|apply Ir]. rewrite P. cbn [length]. lia.
  - rewrite N, Io, D, P, decrs_post, decide_True by done. cbn [length]. lia.
  - intros c' Nc. rewrite D, decrs_post, decide_False by congruence. done.
  - intros c' u. rewrite <- Ic. by case_decide; subst.
Qed.

(** ** Every step *)

Lemma same_marks_task t k w : on_cpu k = on_cpu (stasks w t) -> ready_queued k = ready_queued (stasks w t) -> same_marks w (set_task t k w).
Proof. intros A B u. cbn. destruct (decide (t = u)) as [->|N]; [by rewrite fn_lookup_insert|by rewrite fn_lookup_insert_ne]. Qed.

(** A processor goes on with the task it has. *)
Lemma qinv_pc s c t pc w' ps : QInv s -> holds (cpus s c) = Some t -> holds pc = Some t -> same_marks (sw s) w' -> same_queues (sw s) w' ->
  (forall c', decrs c' ps = decrs c' (posts s)) -> (forall c', proc_current w' c' = <[c := running pc]> (proc_current (sw s)) c') -> QInv (mkSS w' (<[c := pc]> (cpus s)) ps).
Proof.
  intros I Hc Hp M Q D C. apply (qinv_same s); [done|done|done| | |done]; intros c'; cbn; destruct (decide (c = c')) as [->|N].
  - rewrite fn_lookup_insert. congruence.
  - by rewrite fn_lookup_insert_ne.
  - rewrite C. by rewrite !fn_lookup_insert.
  - rewrite C. rewrite !fn_lookup_insert_ne by done. apply I.
Qed.

Lemma qinv_task s w' ps : QInv s -> same_marks (sw s) w' -> same_queues (sw s) w' -> proc_current w' = proc_current (sw s) ->
  (forall c', decrs c' ps = decrs c' (posts s)) -> QInv (mkSS w' (cpus s) ps).
Proof. intros I M Q C D. apply (qinv_same s); [done|done|done|done| |done]. intros c. cbn. rewrite C. apply I. Qed.

Lemma release_marks t k w u : on_cpu k = None -> ready_queued k = ready_queued (stasks w t) ->
  ready_queued (stasks (set_task t k w) u) = ready_queued (stasks w u) /\ on_cpu (stasks (set_task t k w) u) = if decide (u = t) then None else on_cpu (stasks w u).
Proof. intros A B. cbn. destruct (decide (u = t)) as [->|N]; [by rewrite fn_lookup_insert|by rewrite fn_lookup_insert_ne]. Qed.

Lemma current_released s c : QInv s -> running (cpus s c) = None -> forall c', proc_current (sw s) c' = if decide (c' = c) then None else proc_current (sw s) c'.
Proof. intros I H c'. case_decide as E; [|done]. subst. rewrite (qi_current _ I). done. Qed.

Lemma decr_middle c p ps1 ps2 : is_decr c p = false -> decrs c (ps1 ++ p :: ps2) = decrs c (ps1 ++ ps2).
Proof. intros H. rewrite !decrs_app. unfold decrs at 2. cbn. by rewrite H. Qed.

Lemma decr_after_wake c front t r ps1 ps2 : decrs c (ps1 ++ after_wake front t r ++ ps2) = decrs c (ps1 ++ ps2).
Proof. rewrite !decrs_app. by destruct r. Qed.

Lemma wake_marks front t w w' r : wake_section front t w = (w', r) -> same_marks w w' /\ same_queues w w' /\ proc_current w' = proc_current w.
Proof.
  unfold wake_section. repeat first [case_decide | case_if]; intros [= <- <-]; split_and!; try done; apply same_marks_task; try done;
    unfold boost_mlfq_level; by case_if.
Qed.

Lemma preempt_marks c t w : same_marks w (preempt_section c t w) /\ same_queues w (preempt_section c t w) /\
  proc_current (preempt_section c t w) = <[c := None]> (proc_current w).
Proof.
  unfold preempt_section, yield_section. destruct (if is_sched_fifo _ then _ else _) as [k e] eqn:E.
  assert (on_cpu k = on_cpu (stasks w t) /\ ready_queued k = ready_queued (stasks w t)) as [A B].
  { revert E. unfold consume_mlfq_tick. repeat case_if; intros [= <- <-]; done. }
  split_and!; [|done|done]. intros u. cbn. destruct (decide (t = u)) as [->|N]; [|by rewrite !fn_lookup_insert_ne].
  rewrite !fn_lookup_insert. cbn. unfold demote_mlfq_level. repeat case_if; done.
Qed.

Lemma skip_release s c t w : QInv s -> holds (cpus s c) = Some t -> stasks w = stasks (sw s) -> same_queues (sw s) w ->
  (forall c', proc_current w c' = if decide (c' = c) then None else proc_current (sw s) c') -> QInv (mkSS (skip_section t w) (<[c := CIdle]> (cpus s)) (posts s)).
Proof.
  intros I Hc E Q C. apply (qinv_release s c t); [done|done| |done|done|done]. intros u. rewrite <- E. by apply release_marks.
Qed.

Lemma qinv_switched s c t w o ps : QInv s -> cpus s c = CSwitch t -> switched_section t (sw s) = (w, o) -> (forall c', decrs c' ps = decrs c' (posts s)) ->
  QInv (mkSS w (<[c := CIdle]> (cpus s)) ps).
Proof.
  intros I Hc E D. assert (holds (cpus s c) = Some t /\ running (cpus s c) = None) as [Hh Hr] by (by rewrite Hc).
  unfold switched_section in E. destruct (requeue_after_switch _) in E; injection E as <- <-;
    (apply (qinv_release s c t); [done|done|intros u; by apply release_marks|done|done|by apply current_released]).
Qed.

Lemma decr_cons c p ps : is_decr c p = false -> decrs c (p :: ps) = decrs c ps.
Proof. intros H. unfold decrs. cbn. by rewrite H. Qed.

Lemma block_marks c t cancel w w' b : block_section c t cancel w = (w', b) -> same_marks w w' /\ same_queues w w' /\
  proc_current w' = if b then <[c := None]> (proc_current w) else proc_current w.
Proof. unfold block_section. destruct cancel, (pending_wakeup (stasks w t)); intros [= <- <-]; split_and!; try done; by apply same_marks_task. Qed.

Lemma fn_id (f : nat -> option nat) c x : f c = x -> forall c', f c' = <[c := x]> f c'.
Proof. intros H c'. destruct (decide (c = c')) as [->|N]; [by rewrite fn_lookup_insert|by rewrite fn_lookup_insert_ne]. Qed.

Lemma qinv_decr s c ps1 ps2 : QInv s -> posts s = ps1 ++ PoDecr c :: ps2 -> QInv (mkSS (decrement_ready_tasks c (sw s)) (cpus s) (ps1 ++ ps2)).
Proof.
  intros [Iq In Ic Iu Io Ir] Hp. split; try done. intros c'. cbn [sw posts]. change (queue (decrement_ready_tasks c (sw s)) c') with (queue (sw s) c').
  cbn. rewrite !Io, Hp. destruct (decide (c = c')) as [<-|N]; [rewrite fn_lookup_insert|rewrite fn_lookup_insert_ne by done; rewrite Io, Hp]; rewrite !decrs_app; unfold decrs; cbn.
  - rewrite Nat.eqb_refl. cbn. lia.
  - destruct (Nat.eqb_spec c c'); [done|]. lia.
Qed.

(** The claimed task is still claimed. *)
Lemma never_dropped s c t w : QInv s -> holds (cpus s c) = Some t -> dispatch_section c t (sw s) <> (w, DDrop).
Proof. intros I Hc. apply (qi_cpu _ I) in Hc. unfold dispatch_section. rewrite Hc. by repeat case_decide. Qed.

Lemma qinv_step jc sk s s' : sstep jc sk s s' -> QInv s -> QInv s'.
Proof.
  intros St I. destruct St as [s c w o Hc E|s c t w Hc E|s c t Hc|s c t w Hc E|s c t w Hc E|s c t Hc|s c t Hc|s c t w o stalled locked Hc E|s c b|s c
    |s c t cancel w b Hc E|s c t front Hc|s c t Hc|s c t J Hc|s c t Hc|s c t Hc
    |s t cur stalled locked Ho Hr Hp|s t front|s t|s t Hz|s t k queued Hk|s t J|s t w b J E
    |s t front ps1 ps2 w r Hp E|s t front ps1 ps2 Hp|s t front ps1 ps2 cur stalled locked Hp|s t cpu front ps1 ps2 cur stalled locked Hp
    |s t cpu front ps1 ps2 Hp|s t cpu front ps1 ps2 cur w b Hp E|s t ps1 ps2 w d cur stalled locked Hp E|s t ps1 ps2 w d Hp E|s t ps1 ps2 w d Hp E|s c ps1 ps2 Hp].
  - by apply qinv_claim.
  - unfold dispatch_section in E. case_decide; [|done]. case_decide; [|done]. injection E as <-. by apply (qinv_pc s c t); [done|rewrite Hc|done|apply same_marks_task|done|done|].
  - apply (qinv_pc s c t); [done|by rewrite Hc|done|done|done|done|]. apply fn_id. by rewrite (qi_current _ I), Hc.
  - unfold dispatch_section in E. case_decide; [by case_decide|]. injection E as <-. destruct sk.
    + by apply (qinv_pc s c t); [done|rewrite Hc| | | | |].
    + apply (skip_release s c t); [done|by rewrite Hc|done|done|]. intros c'. cbn. destruct (decide (c' = c)) as [->|N]; [by rewrite fn_lookup_insert|by rewrite fn_lookup_insert_ne].
  - by eapply never_dropped in E; [|done|rewrite Hc].
  - apply (skip_release s c t); [done|by rewrite Hc|done|done|]. apply current_released; [done|by rewrite Hc].
  - apply (skip_release s c t); [done|by rewrite Hc|done|done|]. intros c'. cbn. destruct (decide (c' = c)) as [->|N]; [by rewrite fn_lookup_insert|by rewrite fn_lookup_insert_ne].
  - eapply qinv_switched; [done|done|done|]. intros c'. by destruct o.
  - unfold mark_cpu_idle, mark_cpu_active. destruct b; case_if; by apply qinv_task.
  - unfold mark_cpu_online. case_if; by apply qinv_task.
  - apply block_marks in E as (M & Q & C). destruct b; [|by apply qinv_task].
    apply (qinv_pc s c t); [done|by rewrite Hc|done|done|done|done|]. by rewrite C.
  - by apply (qinv_pc s c t); [done|rewrite Hc|done|apply same_marks_task|done|done|].
  - destruct (preempt_marks c t (sw s)) as (M & Q & C). apply (qinv_pc s c t); [done|by rewrite Hc|done|done|done|done|]. by rewrite C.
  - by apply (qinv_pc s c t); [done|rewrite Hc|done|apply same_marks_task|done|done|].
  - by apply (qinv_pc s c t); [done|rewrite Hc|done|apply same_marks_task|done|done|].
  - by apply qinv_task; [|apply same_marks_task| | |].
  - by apply qinv_task; [|apply same_marks_task| | |].
  - by apply qinv_task.
  - by apply qinv_task.
  - by apply qinv_task.
  - destruct Hk as (?&?&?&?&?&?&?). apply qinv_task; [done|by apply same_marks_task|done|done|]. by destruct queued.
  - apply qinv_task; [done| | | |done]; unfold stop_section; case_decide; try done. apply same_marks_task; repeat case_if; done.
  - unfold continue_section in E. injection E as <- <-. apply qinv_task; [done| |done|done|by case_if]. apply same_marks_task; by case_if.
  - apply wake_marks in E as (M & Q & C). apply qinv_task; [done|done|done|done|]. intros c'. by rewrite Hp, decr_after_wake, decr_middle.
  - apply qinv_task; [done|done|done|done|]. intros c'. rewrite Hp, (decr_middle _ _ ps1 ps2), !decrs_app by done. by case_if.
  - apply qinv_task; [done|done|done|done|]. intros c'. rewrite Hp. cbn [app]. by rewrite !decr_middle.
  - apply qinv_task; [done|done|done|done|]. intros c'. rewrite Hp, (decr_middle _ _ ps1 ps2), !decrs_app by done. by case_decide.
  - apply qinv_task; [done|done|done|done|]. intros c'. rewrite Hp, (decr_middle _ _ ps1 ps2), !decrs_app by done. by case_if.
  - assert (QInv (mkSS w (cpus s) (ps1 ++ ps2))) as I' by (eapply qinv_mark; [done|done|]; intros c'; by rewrite Hp, decr_middle).
    destruct b; [|done]. unfold notify_enqueued, kick_remote_idle_cpu. repeat case_if; by apply (qinv_task _ _ _ I').
  - eapply qinv_remove; [done|done|]. intros c'. rewrite Hp, (decr_middle _ _ ps1 ps2), !decrs_app, decr_cons by done. cbn. lia.
  - eapply qinv_remove; [done|done|]. intros c'. rewrite Hp, (decr_middle _ _ ps1 ps2), !decrs_app, decr_cons by done. cbn. lia.
  - eapply qinv_remove; [done|done|]. intros c'. rewrite Hp, (decr_middle _ _ ps1 ps2), !decrs_app by done. cbn. lia.
  - by apply (qinv_decr s c ps1 ps2).
Qed.

Lemma qinv_boot s : sched_boot s -> QInv s.
Proof.
  intros (B & T & _ & P). assert (forall c, queue (sw s) c = []) as Q by (intros c; unfold queue; by rewrite (proj1 (B c))).
  split; intros; rewrite ?Q; try (destruct (T t) as (H1 & H2 & _)); try (destruct (B c) as (H3 & H4 & H5 & H6)).
  - rewrite H2. split; [by intros ?%not_elem_of_nil|done].
  - constructor.
  - rewrite H1, H6. done.
  - by rewrite H5, H6.
  - rewrite H4. enough (decrs c (posts s) = 0%nat) as -> by done. unfold decrs. induction (posts s) as [|p ps IH]; [done|]. cbn.
    destruct (P p) as (x & y & z & ->); [left|]. cbn. apply IH. intros q Hq. apply P. by right.
  - rewrite H3. split; [done|done|intros; cbn; lia|cbn; lia].
Qed.

(** What holds at boot and is preserved by every step of states with the invariant. *)
Lemma sreach_ind jc sk (J : SchedSys -> Prop) : (forall s, sched_boot s -> J s) -> (forall s s', QInv s -> sstep jc sk s s' -> J s -> J s') ->
  forall s, sreach jc sk s -> QInv s /\ J s.
Proof.
  intros B S s (s0 & Hb & R). assert (QInv s0 /\ J s0) as H by (split; [by apply qinv_boot|by apply B]). clear Hb B.
  induction R as [|x y z St _ IH]; [done|]. apply IH. destruct H as [I HJ]. split; [by eapply qinv_step|by eapply S].
Qed.

Lemma qinv_reach jc sk s : sreach jc sk s -> QInv s.
Proof. intros R. by apply (sreach_ind jc sk (fun _ => True)). Qed.
