(* ===== verification/SchedLive.v ===== *)
(** * The scheduler: no ready task is lost

    For a task that no group stop touches, and that no processor lets go of after
    it has become ready again between being skipped and released: when it is ready,
    it is queued, claimed, or about to be queued by a call under way; when it has
    been woken, it does not block before it has run. *)

From stdpp Require Import functions.
From S2P Require Import Prelude Sched SchedSys SchedSpec SchedInv.

Implicit Types (w : SchedWorld) (s : SchedSys) (ts : nat -> SchedTask) (k : SchedTask).

(** The task a call under way will look for or put into a queue. *)
Definition promise (p : Post) : option nat :=
  match p with PoRemove _ | PoDecr _ => None | _ => post_task p end.
Definition promised (t : nat) (ps : list Post) : Prop := exists p, p ∈ ps /\ promise p = Some t.

Definition switch_ok k : Prop := (task_status k = Ready /\ requeue_after_switch k = true) \/ task_status k = Blocked \/ task_status k = Zombie.

Definition pc_ok (pc : CpuPc) ts : Prop :=
  match pc with
  | CIdle | CFetched _ | CSkip _ => True
  | CStart t => task_status (ts t) = Running
  | CRun t => task_status (ts t) <> Zombie /\ (task_status (ts t) = Ready -> pending_wakeup (ts t) = true)
  | CSwitch t => switch_ok (ts t)
  end.

(** Somebody has the task or will look for it. *)
Definition located (t : nat) s : Prop :=
  is_ready_queued (stasks (sw s) t) = true \/ is_on_cpu (stasks (sw s) t) = true \/ promised t (posts s).

Definition others (t : nat) ts ts' : Prop := forall u, u <> t -> same_state (ts u) (ts' u).

Lemma pc_ok_same pc ts ts' : (forall u, holds pc = Some u -> same_state (ts u) (ts' u)) -> pc_ok pc ts -> pc_ok pc ts'.
Proof. intros H. destruct pc; unfold pc_ok, switch_ok in *; try done; destruct (H _ eq_refl) as (E1&E2&E3&_); rewrite ?E1, ?E2, ?E3; done. Qed.

Lemma others_task t k w : others t (stasks w) (stasks (set_task t k w)).
Proof. intros u N. cbn. rewrite fn_lookup_insert_ne by done. done. Qed.
Lemma others_remarked t on rq ts ts' : remarked t on rq ts ts' -> others t ts ts'.
Proof. intros M u N. destruct (M u) as (?&?&?&?&?&Eo&Eq). rewrite decide_False in Eo, Eq by done. done. Qed.

Lemma promised_cons u p ps : promised u ps -> promised u (p :: ps).
Proof. intros (q & H & E). exists q. split; [by right|done]. Qed.
Lemma promised_app u a b : promised u (a ++ b) <-> promised u a \/ promised u b.
Proof. unfold promised. set_solver. Qed.
Lemma promised_one u p : promised u [p] <-> promise p = Some u.
Proof. unfold promised. split; [by intros (q & ->%list_elem_of_singleton & E)|]. intros E. exists p. by rewrite list_elem_of_singleton. Qed.

(** A call under way goes on. *)
Lemma promised_next u t p new a b : post_task p = Some t -> u <> t -> promised u (a ++ p :: b) -> promised u (a ++ new ++ b).
Proof.
  intros Hp N. change (p :: b) with ([p] ++ b). rewrite !promised_app, promised_one. intros [H|[H|H]]; [by left| |by right; right].
  destruct p; cbn in *; congruence.
Qed.
Lemma remove_next u p new a b : (forall v, PoRemove v ∉ new) -> PoRemove u ∈ a ++ new ++ b -> PoRemove u ∈ a ++ p :: b.
Proof. intros H. specialize (H u). set_solver. Qed.

Lemma on_cpu_held s c t : QInv s -> holds (cpus s c) = Some t -> is_on_cpu (stasks (sw s) t) = true.
Proof. intros I H. apply (qi_cpu _ I) in H. unfold is_on_cpu. by rewrite H. Qed.

Lemma remarked_refl t ts : remarked t (on_cpu (ts t)) (ready_queued (ts t)) ts ts.
Proof. intros u. repeat split; by case_decide; subst. Qed.

(** What a wake-up leaves. *)
Record Woken k k' (r : WakeNext) : Prop := {
  wk_stop : group_stopped k' = false;
  wk_zombie : task_status k = Zombie -> task_status k' = Zombie;
  wk_running : task_status k = Running -> task_status k' = Running;
  wk_alive : task_status k' = Zombie -> task_status k = Zombie;
  wk_not_blocked : task_status k' <> Blocked;
  wk_switch : is_on_cpu k = true -> switch_ok k -> switch_ok k';
  wk_pending : is_on_cpu k = true -> task_status k <> Zombie -> pending_wakeup k' = true;
  wk_marks : on_cpu k' = on_cpu k /\ ready_queued k' = ready_queued k;
  wk_found : task_status k' = Ready -> is_on_cpu k = true \/ r = WakeCheck \/ r = WakeEnqueue;
  wk_woken : task_status k' = Zombie \/ task_status k' = Ready \/ pending_wakeup k' = true }.

Lemma wake_spec front t w w' r : group_stopped (stasks w t) = false -> wake_section front t w = (w', r) ->
  others t (stasks w) (stasks w') /\ Woken (stasks w t) (stasks w' t) r.
Proof.
  intros Hs. unfold wake_section. rewrite Hs. unfold boost_mlfq_level.
  repeat first [case_decide | case_if]; intros [= <- <-]; (split; [try apply others_task; try done|]); cbn; rewrite ?fn_lookup_insert; split; unfold switch_ok; cbn; try done; try tauto; try congruence; auto.
Qed.

Lemma wake_others front t w w' r : wake_section front t w = (w', r) -> others t (stasks w) (stasks w').
Proof. unfold wake_section. repeat first [case_decide | case_if]; intros [= <- <-]; first [done|apply others_task]. Qed.

Lemma after_wake_new front t r v : PoRemove v ∉ after_wake front t r.
Proof. destruct r; cbn; set_solver. Qed.

Lemma decr_post_new d v : PoRemove v ∉ decr_post d.
Proof. destruct d; cbn; set_solver. Qed.

(** What the running task does to itself. *)
Record Acts t w w' : Prop := {
  ac_others : others t (stasks w) (stasks w');
  ac_stop : group_stopped (stasks w' t) = group_stopped (stasks w t);
  ac_on : on_cpu (stasks w' t) = on_cpu (stasks w t) }.

Lemma acts_task t k w w' : group_stopped k = group_stopped (stasks w t) -> on_cpu k = on_cpu (stasks w t) -> stasks w' = <[t := k]> (stasks w) -> Acts t w w'.
Proof. intros A B E. split; rewrite E, ?fn_lookup_insert; try done. apply (others_task t k w). Qed.

Lemma block_spec c t cancel w w' b : block_section c t cancel w = (w', b) ->
  Acts t w w' /\ if b then task_status (stasks w' t) = Blocked /\ pending_wakeup (stasks w' t) = false else task_status (stasks w' t) = Running.
Proof.
  unfold block_section. destruct cancel; [|destruct (pending_wakeup (stasks w t)) eqn:P]; intros [= <- <-]; (split; [by eapply acts_task; [| |reflexivity]|]); cbn; rewrite fn_lookup_insert; done.
Qed.

Lemma preempt_spec c t w : Acts t w (preempt_section c t w) /\ task_status (stasks (preempt_section c t w) t) = Ready /\ requeue_after_switch (stasks (preempt_section c t w) t) = true.
Proof.
  unfold preempt_section, yield_section. destruct (if is_sched_fifo _ then _ else _) as [k e] eqn:E.
  assert (on_cpu k = on_cpu (stasks w t) /\ group_stopped k = group_stopped (stasks w t)) as [A B].
  { revert E. unfold consume_mlfq_tick. repeat case_if; intros [= <- <-]; done. }
  cbn. rewrite !fn_lookup_insert. split_and!; [split|done|done]; cbn; rewrite ?fn_lookup_insert; unfold demote_mlfq_level; [|by repeat case_if|by repeat case_if].
  intros u N. cbn. by rewrite !fn_lookup_insert_ne.
Qed.

(** ** The steps that spare a task *)

(** Every step of the code but a group stop of [t] itself, and the release of [t] by
    a processor that has decided to skip it when it is ready by then: the lock of the
    task is dropped between the decision and the release. *)
Inductive spared (t : nat) : SchedSys -> SchedSys -> Prop :=
| sp_step s s' : sstep false true s s' -> (forall c, cpus s c = CSkip t -> cpus s' c = CIdle -> task_status (stasks (sw s) t) <> Ready) -> spared t s s'
| sp_stop s u : u <> t -> spared t s (mkSS (stop_section u (sw s)) (cpus s) (PoRemove u :: posts s))
| sp_stopped s c u : u <> t -> cpus s c = CRun u -> spared t s (mkSS (stopped_section c u (sw s)) (<[c := CSwitch u]> (cpus s)) (posts s))
| sp_continue s u w b : continue_section u (sw s) = (w, b) -> spared t s (mkSS w (cpus s) (if b then PoWake u false :: posts s else posts s)).

Definition spared_reach t s : Prop := exists s0, sched_boot s0 /\ rtc (spared t) s0 s.

(** The same step with group stops around, and back. *)
Ltac same_step := first [by eapply ss_claim|by eapply ss_run|by eapply ss_enter|by eapply ss_skip|by eapply ss_drop|by eapply ss_skipped|by eapply ss_orphan
  |by eapply ss_switched|by eapply ss_idle|by eapply ss_online|by eapply ss_block|by eapply ss_yield|by eapply ss_preempt|by eapply ss_exit|by eapply ss_sleep|by eapply ss_new
  |by eapply ss_wake|by eapply ss_kill|by eapply ss_reap|by eapply ss_sched|by eapply ss_po_wake|by eapply ss_po_check|by eapply ss_po_place|by eapply ss_po_add
  |by eapply ss_po_enq|by eapply ss_po_mark|by eapply ss_po_move|by eapply ss_po_kill|by eapply ss_po_remove|by eapply ss_po_decr].

Lemma job_control_more sk s s' : sstep false sk s s' -> sstep true sk s s'.
Proof. intros [ ]; first [done|same_step]. Qed.

Lemma job_control_cases sk s s' : sstep true sk s s' -> sstep false sk s s' \/
  (exists u, s' = mkSS (stop_section u (sw s)) (cpus s) (PoRemove u :: posts s)) \/
  (exists c u, cpus s c = CRun u /\ s' = mkSS (stopped_section c u (sw s)) (<[c := CSwitch u]> (cpus s)) (posts s)) \/
  (exists u w b, continue_section u (sw s) = (w, b) /\ s' = mkSS w (cpus s) (if b then PoWake u false :: posts s else posts s)).
Proof. intros [ ]; first [left; same_step|right; left; by eexists|right; right; left; by eexists _, _|right; right; right; by eexists _, _, _]. Qed.

Lemma insert_skip (f : nat -> CpuPc) (c : nat) pc (c' : nat) u : (forall v, f c <> CSkip v) -> f c' = CSkip u -> <[c := pc]> f c' <> CIdle.
Proof. intros N E. destruct (decide (c = c')) as [<-|Nc]; [by apply N in E|]. rewrite fn_lookup_insert_ne by done. congruence. Qed.

(** Only its release takes a processor out of a skip. *)
Lemma skip_stays jc s s' : sstep jc true s s' -> (exists c u, cpus s c = CSkip u /\ s' = mkSS (skip_section u (sw s)) (<[c := CIdle]> (cpus s)) (posts s)) \/
  forall c u, cpus s c = CSkip u -> cpus s' c <> CIdle.
Proof.
  intros [ ]; try (right; intros c' u' Hc'; cbn; congruence); try (right; intros c' u' Hc'; cbn; eapply insert_skip; [intros v; congruence|exact Hc']).
  - left. eauto.
  - right. intros c' u' Hc'. cbn. destruct b; [eapply insert_skip; [intros v; congruence|exact Hc']|congruence].
Qed.

Lemma spared_sstep t s s' : spared t s s' -> sstep true true s s'.
Proof. intros [s1 s2 St _|s1 u _|s1 c u _ Hc|s1 u w b E]; [by apply job_control_more|by apply ss_stop|by apply ss_stopped|by apply ss_continue]. Qed.

(** Nothing else is left out. *)
Lemma spared_all t s s' : sstep true true s s' -> spared t s s' \/
  s' = mkSS (stop_section t (sw s)) (cpus s) (PoRemove t :: posts s) \/
  (exists c, cpus s c = CRun t /\ s' = mkSS (stopped_section c t (sw s)) (<[c := CSwitch t]> (cpus s)) (posts s)) \/
  (exists c, cpus s c = CSkip t /\ cpus s' c = CIdle /\ task_status (stasks (sw s) t) = Ready).
Proof.
  intros St. destruct (skip_stays _ _ _ St) as [(c & u & Hc & ->)|Hs].
  - destruct (decide (u = t /\ task_status (stasks (sw s) t) = Ready)) as [[-> R]|N]; [right; right; right; exists c; cbn; by rewrite fn_lookup_insert|].
    left. apply sp_step; [by apply ss_skipped|]. intros c' Hc' Hi R. cbn in Hi. apply N. split; [|done].
    destruct (decide (c = c')) as [<-|Nc]; [congruence|]. rewrite fn_lookup_insert_ne in Hi by done. congruence.
  - destruct (job_control_cases _ _ _ St) as [St'|[(u & ->)|[(c & u & Hc & ->)|(u & w & b & E & ->)]]].
    + left. apply sp_step; [done|]. intros c Hc Hi. by apply Hs in Hc.
    + destruct (decide (u = t)) as [->|N]; [by right; left|left; by apply sp_stop].
    + destruct (decide (u = t)) as [->|N]; [right; right; left; eauto|left; by apply sp_stopped].
    + left. by apply sp_continue.
Qed.

(** ** What holds of the task *)

Section Task.
Context (t : nat).

Record LInv s : Prop := {
  li_stop : group_stopped (stasks (sw s) t) = false;
  li_pc c : holds (cpus s c) = Some t -> pc_ok (cpus s c) (stasks (sw s));
  li_gone : PoRemove t ∈ posts s -> task_status (stasks (sw s) t) = Zombie;
  li_block : task_status (stasks (sw s) t) = Blocked -> pending_wakeup (stasks (sw s) t) = false;
  li_ready : task_status (stasks (sw s) t) = Ready -> located t s }.

(** Nothing of it changes. *)
Lemma li_keep s s' : LInv s -> same_state (stasks (sw s) t) (stasks (sw s') t) -> (promised t (posts s) -> promised t (posts s')) ->
  (PoRemove t ∈ posts s' -> PoRemove t ∈ posts s \/ task_status (stasks (sw s') t) = Zombie) ->
  (forall c, holds (cpus s' c) = Some t -> cpus s' c = cpus s c \/ pc_ok (cpus s' c) (stasks (sw s'))) -> LInv s'.
Proof.
  intros L S P G C. pose proof S as (E1 & E2 & E3 & E4 & E5 & E6 & E7). split.
  - rewrite E4. apply L.
  - intros c Hc. destruct (C c Hc) as [E|H]; [|done]. rewrite E in *. eapply pc_ok_same; [|by apply L]. intros u. rewrite Hc. by intros [= <-].
  - intros [H|H]%G; [|done]. rewrite E1. by apply L.
  - rewrite E1, E2. apply L.
  - rewrite E1. intros [H|[H|H]]%(li_ready _ L); [left|right; left|right; right; by apply P].
    + unfold is_ready_queued in *. by rewrite E7.
    + unfold is_on_cpu in *. by rewrite E6.
Qed.

(** A processor, or a call under way, goes on with another task. *)
Lemma li_far s c u pc w ps : LInv s -> u <> t -> others u (stasks (sw s)) (stasks w) -> holds pc <> Some t -> (promised t (posts s) -> promised t ps) ->
  (PoRemove t ∈ ps -> PoRemove t ∈ posts s) -> LInv (mkSS w (<[c := pc]> (cpus s)) ps).
Proof.
  intros L N O Hp P G. apply (li_keep s); [done|by apply O|done|by left; apply G|]. intros c'. cbn.
  destruct (decide (c = c')) as [<-|Nc]; [by rewrite fn_lookup_insert|]. rewrite fn_lookup_insert_ne by done. by left.
Qed.

Lemma li_far_call s w u p new ps1 ps2 : LInv s -> u <> t -> others u (stasks (sw s)) (stasks w) -> posts s = ps1 ++ p :: ps2 -> post_task p = Some u -> PoRemove t ∉ new ->
  LInv (mkSS w (cpus s) (ps1 ++ new ++ ps2)).
Proof.
  intros L N O Hp Hu G. apply (li_keep s); cbn; [done|by apply O| | |by left].
  - rewrite Hp. by apply (promised_next t u).
  - rewrite Hp. intros H. left. set_solver.
Qed.

(** ** Steps of a processor *)

Section Held.
Context s (c : nat) (I : QInv s) (L : LInv s) (Hc : holds (cpus s c) = Some t).

Lemma li_cpu pc w ps : let k := stasks w t in
  group_stopped k = false -> (task_status (stasks (sw s) t) = Zombie -> task_status k = Zombie) -> (task_status k = Blocked -> pending_wakeup k = false) ->
  (task_status k = Ready -> is_on_cpu k = true \/ promised t ps) -> pc_ok pc (stasks w) -> (PoRemove t ∈ ps -> PoRemove t ∈ posts s) ->
  LInv (mkSS w (<[c := pc]> (cpus s)) ps).
Proof.
  intros k Hs Hz Hb Hr Hp G. split; cbn; try done.
  - intros c'. destruct (decide (c = c')) as [<-|N]; [by rewrite fn_lookup_insert|]. rewrite fn_lookup_insert_ne by done.
    intros H. apply (qi_cpu _ I) in H, Hc. congruence.
  - intros ?%G%(li_gone _ L). by apply Hz.
  - intros [?|?]%Hr; unfold located; auto.
Qed.

(** It keeps the task. *)
Lemma li_cpu_keep pc w : let k := stasks w t in
  group_stopped k = group_stopped (stasks (sw s) t) -> on_cpu k = on_cpu (stasks (sw s) t) -> (task_status (stasks (sw s) t) = Zombie -> task_status k = Zombie) ->
  (task_status k = Blocked -> pending_wakeup k = false) -> pc_ok pc (stasks w) -> LInv (mkSS w (<[c := pc]> (cpus s)) (posts s)).
Proof.
  intros k Hs Ho Hz Hb Hp. apply li_cpu; try done; fold k.
  - rewrite Hs. apply L.
  - intros _. left. unfold is_on_cpu. rewrite Ho. by apply (on_cpu_held s c).
Qed.

(** It lets the task go. *)
Lemma li_cpu_release w : stasks w = stasks (sw s) -> task_status (stasks (sw s) t) <> Ready ->
  LInv (mkSS (skip_section t w) (<[c := CIdle]> (cpus s)) (posts s)).
Proof. intros E Hr. apply li_cpu; cbn; rewrite ?fn_lookup_insert, ?E; cbn; try done; apply L. Qed.
End Held.

Lemma li_release s c u w : QInv s -> LInv s -> holds (cpus s c) = Some u -> stasks w = stasks (sw s) -> (u = t -> task_status (stasks (sw s) t) <> Ready) ->
  LInv (mkSS (skip_section u w) (<[c := CIdle]> (cpus s)) (posts s)).
Proof.
  intros I L Hc E Hr. destruct (decide (u = t)) as [->|N]; [by apply li_cpu_release; auto|].
  eapply li_far; [done|done| |done..]. unfold skip_section. rewrite <- E. apply others_task.
Qed.

Lemma li_switched s c u w o (x : bool -> nat) : QInv s -> LInv s -> cpus s c = CSwitch u -> switched_section u (sw s) = (w, o) ->
  LInv (mkSS w (<[c := CIdle]> (cpus s)) (match o with Some front => PoAdd u (x front) front :: posts s | None => posts s end)).
Proof.
  intros I L Hc E. unfold switched_section in E. cbn in E. destruct (decide (u = t)) as [->|N].
  - pose proof (li_pc _ L c) as Hp. rewrite Hc in Hp. specialize (Hp eq_refl). cbn in Hp.
    destruct (requeue_after_switch (stasks (sw s) t)) eqn:R; injection E as <- <-; (apply (li_cpu s c); [done|done|by rewrite Hc|..]); cbn;
      rewrite ?fn_lookup_insert; cbn; try done; try apply L.
    + intros Z. by rewrite decide_True.
    + intros _. right. eexists (PoAdd t _ _). split; [left|done].
    + set_solver.
    + intros Hs. destruct Hp as [[_ ?]|[?|?]]; congruence.
  - apply (li_far s c u); [done|done| |done| |].
    + destruct (requeue_after_switch _); injection E as <- <-; apply others_task.
    + destruct o; [apply promised_cons|done].
    + destruct o; [|done]. set_solver.
Qed.

(** Its markers change, and the calls under way that concern it. *)
Lemma li_remarked s s' on rq : LInv s -> remarked t on rq (stasks (sw s)) (stasks (sw s')) -> (PoRemove t ∈ posts s' -> PoRemove t ∈ posts s) ->
  (task_status (stasks (sw s) t) = Ready -> located t s') -> 
  (forall c, holds (cpus s' c) = Some t -> pc_ok (cpus s' c) (stasks (sw s')) \/ cpus s' c = cpus s c) -> LInv s'.
Proof.
  intros L M G Hr Hp. destruct (M t) as (E1 & E2 & E3 & E4 & E5 & E6 & E7). split.
  - rewrite E4. apply L.
  - intros c Hc. destruct (Hp c Hc) as [H|H]; [done|]. rewrite H in *. pose proof (li_pc _ L c Hc) as Hpc.
    destruct (cpus s c) as [|v|v|v|v|v]; unfold pc_ok, switch_ok in *; try done; injection Hc as ->; rewrite ?E1, ?E2, ?E3; done.
  - intros ?%G. rewrite E1. by apply (li_gone _ L).
  - rewrite E1, E2. apply L.
  - by rewrite E1.
Qed.

Lemma li_claim s c w o : QInv s -> LInv s -> cpus s c = CIdle -> claim_section c (sw s) = (w, o) ->
  LInv (mkSS w (<[c := match o with Some t => CFetched t | None => CIdle end]> (cpus s)) (posts s)).
Proof.
  intros I L Hc E. apply claim_inv in E as (El & R & E); [|apply I|intros u; apply I]. destruct o as [u|]; destruct E as (P & N & M).
  - destruct M as [_ M]. destruct (decide (u = t)) as [->|Nu]; [|apply (li_far s c u); try done; [by eapply others_remarked|cbn; congruence]].
    apply (li_remarked s _ (Some c) None); try done.
    + intros _. right. left. cbn. destruct (M t) as (_&_&_&_&_&Eo&_). unfold is_on_cpu. by rewrite Eo, decide_True.
    + intros c'. cbn. destruct (decide (c = c')) as [<-|Nc]; [rewrite fn_lookup_insert; by left|rewrite fn_lookup_insert_ne by done; by right].
  - apply (li_keep s); try done; cbn.
    + apply M.
    + by left.
    + intros c'. destruct (decide (c = c')) as [<-|Nc]; [by rewrite fn_lookup_insert|rewrite fn_lookup_insert_ne by done; by left].
Qed.

(** ** Calls under way *)

Lemma li_call s w u on rq p new ps1 ps2 : LInv s -> posts s = ps1 ++ p :: ps2 -> post_task p = Some u -> (forall v, PoRemove v ∉ new) ->
  remarked u on rq (stasks (sw s)) (stasks w) -> (u = t -> task_status (stasks (sw s) t) = Ready -> is_Some on \/ is_Some rq \/ promised t new) ->
  LInv (mkSS w (cpus s) (ps1 ++ new ++ ps2)).
Proof.
  intros L Hp Ht G M Hr. destruct (decide (u = t)) as [->|N]; [|by eapply li_far_call; [| |by eapply others_remarked|..]].
  apply (li_remarked s _ on rq); cbn [sw cpus posts]; [done|done| | |auto].
  - rewrite Hp. by apply remove_next.
  - intros S%Hr; [|done]. destruct (M t) as (_&_&_&_&_&Eo&Eq). rewrite decide_True in Eo, Eq by done. unfold located, is_ready_queued, is_on_cpu. cbn.
    rewrite Eo, Eq. destruct S as [[x ->]|[[x ->]|S]]; [auto|auto|]. right. right. rewrite !promised_app. auto.
Qed.

Lemma li_wake s u front ps1 ps2 w r : QInv s -> LInv s -> posts s = ps1 ++ PoWake u front :: ps2 -> wake_section front u (sw s) = (w, r) ->
  LInv (mkSS w (cpus s) (ps1 ++ after_wake front u r ++ ps2)).
Proof.
  intros I L Hp E. destruct (decide (u = t)) as [->|N].
  2:{ eapply li_far_call; [done|exact N| |done|done|apply after_wake_new]. by eapply wake_others. }
  apply wake_spec in E as [O [Ws Wz Wr Wa Wb Wc Wp [Wo Wq] Wf _]]; [|apply L]. split; cbn [sw cpus posts]; try done.
  - intros c Hc. pose proof (li_pc _ L c Hc) as Hpc. pose proof (on_cpu_held _ _ _ I Hc) as Ho.
    destruct (cpus s c) as [|v|v|v|v|v]; cbn in *; try done; injection Hc as ->; naive_solver.
  - intros H. apply Wz, (li_gone _ L). rewrite Hp. by apply (remove_next t _ (after_wake front t r)); [intros v; apply after_wake_new|].
  - intros Hr. destruct (Wf Hr) as [H|H]; unfold located; cbn.
    + right. left. unfold is_on_cpu in *. by rewrite Wo.
    + right. right. rewrite !promised_app. right. left. destruct H as [->| ->]; by apply promised_one.
Qed.

Lemma li_remove s u p new ps1 ps2 w d : QInv s -> LInv s -> posts s = ps1 ++ p :: ps2 -> post_task p = Some u -> remove_section u (sw s) = (w, d) ->
  (forall v, PoRemove v ∉ new) -> (u = t -> task_status (stasks (sw s) t) = Ready -> promised t new) -> LInv (mkSS w (cpus s) (ps1 ++ new ++ ps2)).
Proof.
  intros I L Hp Ht E G Hr. apply remove_section_spec in E; [|intros c; apply I]. destruct d as [c|].
  - destruct E as (_ & _ & _ & _ & _ & M). by eapply li_call; eauto.
  - destruct E as [-> _]. eapply li_call; eauto using remarked_refl.
Qed.

Lemma li_mark s u cpu front ps1 ps2 w b : QInv s -> LInv s -> posts s = ps1 ++ PoMark u cpu front :: ps2 -> mark_section cpu u front (sw s) = (w, b) ->
  LInv (mkSS w (cpus s) (ps1 ++ ps2)).
Proof.
  intros I L Hp E. apply mark_spec in E as (_ & _ & E); [|apply I]. change (ps1 ++ ps2) with (ps1 ++ [] ++ ps2). destruct b.
  - destruct E as (_ & _ & _ & M). eapply li_call; [done|done|done| |done|]; [intros v; apply not_elem_of_nil|eauto].
  - destruct E as (H & _ & _ & S). eapply (li_call _ _ u (on_cpu (stasks (sw s) u)) (ready_queued (stasks (sw s) u))); [done|done|done| |rewrite S; apply remarked_refl|]; [intros v; apply not_elem_of_nil|].
    unfold is_ready_queued in H. intros _ _. destruct (ready_queued _); [eauto|done].
Qed.

(** ** Every step *)

Lemma li_run s c u pc w : QInv s -> LInv s -> cpus s c = CRun u -> Acts u (sw s) w ->
  (u = t -> (task_status (stasks w t) = Blocked -> pending_wakeup (stasks w t) = false) /\ pc_ok pc (stasks w)) -> holds pc = Some u ->
  LInv (mkSS w (<[c := pc]> (cpus s)) (posts s)).
Proof.
  intros I L Hc [O Hs Ho] Hb Hh. destruct (decide (u = t)) as [->|N]; [|apply (li_far s c u); try done; congruence].
  pose proof (li_pc _ L c) as Hpc. rewrite Hc in Hpc. destruct (Hb eq_refl). specialize (Hpc eq_refl).
  apply (li_cpu_keep s c); try done; [by rewrite Hc|]. by intros ?%(proj1 Hpc).
Qed.

(** A processor that stays where it is. *)
Lemma li_stay s c w ps : LInv (mkSS w (<[c := cpus s c]> (cpus s)) ps) -> LInv (mkSS w (cpus s) ps).
Proof.
  intros L. apply (li_keep _ _ L); cbn; auto; [done|]. intros c' _. left. destruct (decide (c = c')) as [->|N]; [by rewrite fn_lookup_insert|by rewrite fn_lookup_insert_ne].
Qed.

(** Somebody else changes, outside of processors and calls. *)
Lemma li_else s u w ps : LInv s -> u <> t -> others u (stasks (sw s)) (stasks w) -> (promised t (posts s) -> promised t ps) ->
  (PoRemove t ∈ ps -> PoRemove t ∈ posts s) -> LInv (mkSS w (cpus s) ps).
Proof. intros L N O P G. apply (li_keep s); [done|by apply O|done|by left; apply G|by left]. Qed.

Lemma li_new s u x : LInv s -> on_cpu (stasks (sw s) u) = None -> (forall p, p ∈ posts s -> post_task p <> Some u) -> QInv s ->
  LInv (mkSS (set_task u new_task (sw s)) (cpus s) (PoAdd u x false :: posts s)).
Proof.
  intros L Ho Hp I. destruct (decide (u = t)) as [->|N]; [|apply (li_else s u); try done; [apply others_task|apply promised_cons|set_solver]].
  split; cbn; rewrite ?fn_lookup_insert; try done.
  - intros c. rewrite <- (qi_cpu _ I). by rewrite Ho.
  - intros [?|H]%elem_of_cons; [done|]. by apply Hp in H.
  - intros _. right. right. exists (PoAdd t x false). split; [left|done].
Qed.

Lemma li_sstep s s' : QInv s -> sstep false true s s' -> (forall c, cpus s c = CSkip t -> cpus s' c = CIdle -> task_status (stasks (sw s) t) <> Ready) -> LInv s -> LInv s'.
Proof.
  intros I St Sk L. destruct St as [s c w o Hc E|s c u w Hc E|s c u Hc|s c u w Hc E|s c u w Hc E|s c u Hc|s c u Hc|s c u w o stalled locked Hc E|s c b|s c
    |s c u cancel w b Hc E|s c u front Hc|s c u Hc|s c u J Hc|s c u Hc|s c u Hc
    |s u cur stalled locked Ho Hr Hp|s u front|s u|s u Hz|s u k queued Hk|s u J|s u w b J E
    |s u front ps1 ps2 w r Hp E|s u front ps1 ps2 Hp|s u front ps1 ps2 cur stalled locked Hp|s u cpu front ps1 ps2 cur stalled locked Hp
    |s u cpu front ps1 ps2 Hp|s u cpu front ps1 ps2 cur w b Hp E|s u ps1 ps2 w d cur stalled locked Hp E|s u ps1 ps2 w d Hp E|s u ps1 ps2 w d Hp E|s c ps1 ps2 Hp]; try done.
  - by apply li_claim.
  - unfold dispatch_section in E. case_decide as Hs; [|done]. case_decide; [|done]. injection E as <-.
    destruct (decide (u = t)) as [->|N]; [|apply (li_far s c u); try done; [apply (others_task u _ (sw s))|cbn; congruence]].
    apply (li_cpu_keep s c); try done; [by rewrite Hc|..]; cbn; rewrite fn_lookup_insert; cbn; done || congruence.
  - pose proof (li_pc _ L c) as Hp. rewrite Hc in Hp. cbn in Hp. apply (li_keep s); try done; [by left|]. intros c'. cbn. destruct (decide (c = c')) as [->|N]; [|left; by rewrite fn_lookup_insert_ne].
    rewrite fn_lookup_insert. cbn. intros [= ->]. right. specialize (Hp eq_refl). split; congruence.
  - unfold dispatch_section in E. case_decide as Hs; [by case_decide|]. injection E as <-. apply (li_keep s); try done; [by left|].
    intros c'. cbn. destruct (decide (c = c')) as [->|N]; [|left; by rewrite fn_lookup_insert_ne]. rewrite fn_lookup_insert. by right.
  - by eapply never_dropped in E; [|done|rewrite Hc].
  - apply li_release; [done|done|by rewrite Hc|done|]. intros ->. apply (Sk c); [done|]. cbn. by rewrite fn_lookup_insert.
  - pose proof (li_pc _ L c) as Hp. rewrite Hc in Hp. cbn in Hp. apply li_release; [done|done|by rewrite Hc|done|]. intros ->. specialize (Hp eq_refl). congruence.
  - by apply (li_switched s c u w o (fun front => requeue_target stalled locked c front u w)).
  - unfold mark_cpu_idle, mark_cpu_active. apply (li_keep s); auto; destruct b; case_if; done.
  - unfold mark_cpu_online. apply (li_keep s); auto; case_if; done.
  - apply block_spec in E as [A E]. destruct b.
    + destruct E as [E1 E2]. apply (li_run s c u); try done. intros ->. split; [done|]. cbn. by right; left.
    + apply (li_stay s c). rewrite Hc. apply (li_run s c u); try done. intros ->. cbn. by rewrite E.
  - apply (li_run s c u); try done; [by eapply acts_task; [| |reflexivity]|]. intros ->. cbn. rewrite fn_lookup_insert. cbn. split; [done|by left].
  - destruct (preempt_spec c u (sw s)) as (A & E1 & E2). apply (li_run s c u); try done. intros ->. split; [congruence|]. by left.
  - apply (li_run s c u); try done; [by eapply acts_task; [| |reflexivity]|]. intros ->. cbn. rewrite fn_lookup_insert. cbn. split; [done|by right; right].
  - apply (li_stay s c). rewrite Hc. apply (li_run s c u); try done; [by eapply acts_task; [| |reflexivity]|]. intros ->. cbn. rewrite fn_lookup_insert. done.
  - by apply li_new.
  - apply (li_keep s); auto; cbn; [done|apply promised_cons|set_solver].
  - apply (li_keep s); auto; cbn; [done|apply promised_cons|set_solver].
  - apply (li_keep s); auto; cbn; [done|apply promised_cons|]. intros [[= ->]|H]%elem_of_cons; auto.
  - apply (li_keep s); cbn; auto.
    + destruct (decide (t = u)) as [->|N]; [by rewrite fn_lookup_insert|]. rewrite fn_lookup_insert_ne by done. done.
    + destruct queued; [apply promised_cons|done].
    + destruct queued; set_solver.
  - by apply li_wake.
  - eapply li_call; [done|done|done| |apply remarked_refl|].
    + intros v. destruct (_ || _); set_solver.
    + intros -> _. unfold is_ready_queued, is_on_cpu. destruct (ready_queued _), (on_cpu _); cbn; eauto. right. right. by apply promised_one.
  - eapply li_call; [done|done|done|set_solver|apply remarked_refl|]. intros -> _. right. right. by apply promised_one.
  - eapply li_call; [done|done|done| |apply remarked_refl|]; [intros v; case_decide; set_solver|].
    intros -> Hr. right. right. rewrite decide_True by done. by apply promised_one.
  - eapply li_call; [done|done|done| |apply remarked_refl|]; unfold enqueue_check.
    + intros v. destruct (_ && _); set_solver.
    + intros -> _. unfold is_ready_queued, is_on_cpu. destruct (ready_queued _), (on_cpu _); cbn; eauto. right. right. by apply promised_one.
  - pose proof (li_mark _ _ _ _ _ _ _ _ I L Hp E) as L'. destruct b; [|done].
    apply (li_keep _ _ L'); cbn; auto. unfold notify_enqueued, kick_remote_idle_cpu. repeat case_if; done.
  - eapply li_remove; [done|done|done|done|done| |]; [intros v [?|?%decr_post_new]%elem_of_cons; done|]. intros -> _. eexists. split; [left|done].
  - eapply li_remove; [done|done|done|done|done| |]; [intros v [?|?%decr_post_new]%elem_of_cons; done|]. intros -> _. eexists. split; [left|done].
  - eapply li_remove; [done|done|done|done|done|apply decr_post_new|]. intros -> Hr. exfalso. 
    assert (task_status (stasks (sw s) t) = Zombie); [apply (li_gone _ L); rewrite Hp; set_solver|congruence].
  - apply (li_keep s); cbn; auto; try rewrite Hp; try done.
    + intros (p & [H|[->|H]%elem_of_cons]%elem_of_app & Ep); [| |]; try done; exists p; set_solver.
    + set_solver.
Qed.

Lemma li_step s s' : QInv s -> spared t s s' -> LInv s -> LInv s'.
Proof.
  intros I St L. destruct St as [s s' St Sk|s u N|s c u N Hc|s u w b E].
  - by eapply li_sstep.
  - apply (li_else s u); [done|done| |apply promised_cons|set_solver]. unfold stop_section. case_decide; [done|apply others_task].
  - apply (li_run s c u); try done. by eapply acts_task; [| |reflexivity].
  - destruct (decide (u = t)) as [->|N].
    + unfold continue_section in E. rewrite (li_stop _ L) in E. injection E as <- <-. destruct L as [_ L2 L3 L4 L5]. split; cbn; rewrite ?fn_lookup_insert; cbn; try done.
      * intros c Hc. pose proof (L2 c Hc) as Hp. destruct (cpus s c) as [|v|v|v|v|v]; unfold pc_ok, switch_ok in *; try done; injection Hc as ->; rewrite fn_lookup_insert; done.
      * intros [H|[H|H]]%L5; unfold located; cbn; rewrite ?fn_lookup_insert; auto.
    + apply (li_else s u); [done|done| |destruct b; [apply promised_cons|done]|destruct b; set_solver]. unfold continue_section in E. injection E as <- _. apply others_task.
Qed.

Lemma li_boot s : sched_boot s -> LInv s.
Proof.
  intros (B & T & R & P). split.
  - apply T.
  - intros c. by rewrite (proj2 (proj2 (proj2 (B c)))).
  - by intros (?&?&?&?)%P.
  - intros _. apply T.
  - intros H. right. right. destruct (R t H) as (cpu & front & Hp). exists (PoAdd t cpu front). done.
Qed.

Lemma li_reach s : spared_reach t s -> QInv s /\ LInv s.
Proof.
  intros (s0 & Hb & R). assert (QInv s0 /\ LInv s0) as H by (split; [by apply qinv_boot|by apply li_boot]). clear Hb.
  induction R as [|x y z St _ IH]; [done|]. apply IH. destruct H as [I L]. split; [by eapply qinv_step; [eapply spared_sstep|]|by eapply li_step].
Qed.
End Task.

(** ** Woken tasks *)

Definition woken (t : nat) s : Prop := task_status (stasks (sw s) t) = Ready \/ pending_wakeup (stasks (sw s) t) = true.

(** The task goes on: a processor starts it, or its own call to block returns at once. *)
Definition resumed (t : nat) s s' : Prop :=
  (exists c, cpus s c = CFetched t /\ cpus s' c = CStart t) \/
  (exists c w, cpus s c = CRun t /\ block_section c t false (sw s) = (w, false) /\ s' = mkSS w (cpus s) (posts s)).

Definition kept (t : nat) s s' : Prop := task_status (stasks (sw s') t) = Zombie \/ woken t s' \/ resumed t s s'.

Lemma kept_same t s s' : same_state (stasks (sw s) t) (stasks (sw s') t) -> woken t s -> kept t s s'.
Proof. intros (E1 & E2 & _) W. right. left. unfold woken. by rewrite E1, E2. Qed.
Lemma kept_remarked u t on rq s s' : remarked u on rq (stasks (sw s)) (stasks (sw s')) -> woken t s -> kept t s s'.
Proof. intros M W. destruct (M t) as (E1 & E2 & _). right. left. unfold woken. by rewrite E1, E2. Qed.
(** Only [u] changes. *)
Lemma kept_others u t s s' : others u (stasks (sw s)) (stasks (sw s')) -> (u = t -> woken t s -> kept t s s') -> woken t s -> kept t s s'.
Proof. intros O H W. destruct (decide (t = u)) as [->|N]; [by apply H|]. apply kept_same; [by apply O|done]. Qed.

Lemma kept_claim s c w o t : QInv s -> claim_section c (sw s) = (w, o) -> woken t s -> kept t s (mkSS w (<[c := match o with Some t => CFetched t | None => CIdle end]> (cpus s)) (posts s)).
Proof.
  intros I E. apply claim_inv in E as (_ & _ & E); [|apply I|intros u; apply I].
  destruct o as [u|]; destruct E as (_ & _ & M); [destruct M as [_ M]; by apply (kept_remarked u t (Some c) None)|apply kept_same, M].
Qed.

Lemma kept_remove s u w d t cs ps : QInv s -> remove_section u (sw s) = (w, d) -> woken t s -> kept t s (mkSS w cs ps).
Proof.
  intros I E. apply remove_section_spec in E; [|intros c; apply I]. destruct d as [c|].
  - destruct E as (_&_&_&_&_&M). by eapply kept_remarked.
  - destruct E as [-> _]. by apply kept_same.
Qed.

(** The running task blocks; nobody else changes. *)
Lemma kept_block s c u cancel w b t : QInv s -> LInv t s -> cpus s c = CRun u -> block_section c u cancel (sw s) = (w, b) ->
  woken t s -> kept t s (mkSS w (if b then <[c := CSwitch u]> (cpus s) else cpus s) (posts s)).
Proof.
  intros I L Hc E. pose proof (li_pc _ _ L c) as Hp. rewrite Hc in Hp.
  apply (kept_others u); [exact (ac_others _ _ _ (proj1 (block_spec _ _ _ _ _ _ E)))|]. intros -> W. destruct (Hp eq_refl) as [_ Hq].
  assert (pending_wakeup (stasks (sw s) t) = true) as P by (destruct W; auto). destruct cancel.
  - injection E as <- <-. right. left. right. cbn. by rewrite fn_lookup_insert.
  - unfold block_section in E. rewrite P in E. injection E as <- <-. right. right. right. exists c. eexists. split; [done|]. split; [|reflexivity]. unfold block_section. by rewrite P.
Qed.

Lemma notify_tasks cur cpu t w : stasks (notify_enqueued cur cpu t w) = stasks w.
Proof. unfold notify_enqueued, kick_remote_idle_cpu. by repeat case_if. Qed.

Lemma kept_sstep s s' t : QInv s -> LInv t s -> sstep false true s s' -> woken t s -> kept t s s'.
Proof.
  intros I L St. destruct St as [s c w o Hc E|s c u w Hc E|s c u Hc|s c u w Hc E|s c u w Hc E|s c u Hc|s c u Hc|s c u w o stalled locked Hc E|s c b|s c
    |s c u cancel w b Hc E|s c u front Hc|s c u Hc|s c u J Hc|s c u Hc|s c u Hc
    |s u cur stalled locked Ho Hr Hp|s u front|s u|s u Hz|s u k queued Hk|s u J|s u w b J E
    |s u front ps1 ps2 w r Hp E|s u front ps1 ps2 Hp|s u front ps1 ps2 cur stalled locked Hp|s u cpu front ps1 ps2 cur stalled locked Hp
    |s u cpu front ps1 ps2 Hp|s u cpu front ps1 ps2 cur w b Hp E|s u ps1 ps2 w d cur stalled locked Hp E|s u ps1 ps2 w d Hp E|s u ps1 ps2 w d Hp E|s c ps1 ps2 Hp];
    try done; try (by apply kept_same).
  - by apply kept_claim.
  - unfold dispatch_section in E. case_decide as Hs; [|done]. case_decide; [|done]. injection E as <-. apply (kept_others u); [apply (others_task u _ (sw s))|]. intros -> _.
    right. right. left. exists c. cbn. by rewrite fn_lookup_insert.
  - unfold dispatch_section in E. case_decide as Hs; [by case_decide|]. injection E as <-. by apply kept_same.
  - by eapply never_dropped in E; [|done|rewrite Hc].
  - apply (kept_others u); [apply (others_task u _ (sw s))|]. intros -> W. right. left. unfold woken. cbn. by rewrite fn_lookup_insert.
  - apply (kept_others u); [apply (others_task u _ (sw s))|]. intros -> W. right. left. unfold woken. cbn. by rewrite fn_lookup_insert.
  - unfold switched_section in E. apply (kept_others u); [destruct (requeue_after_switch _); injection E as <- <-; apply others_task|]. intros -> W.
    destruct (requeue_after_switch _); injection E as <- <-; unfold kept, woken; cbn; rewrite fn_lookup_insert; cbn; [case_decide; auto|auto].
  - unfold mark_cpu_idle, mark_cpu_active. apply kept_same. destruct b; case_if; done.
  - unfold mark_cpu_online. apply kept_same. case_if; done.
  - by eapply kept_block.
  - apply (kept_others u); [apply (others_task u _ (sw s))|]. intros -> _. right. left. left. cbn. by rewrite fn_lookup_insert.
  - destruct (preempt_spec c u (sw s)) as ([O _ _] & E1 & _). apply (kept_others u); [done|]. intros -> _. right. left. by left.
  - apply (kept_others u); [apply (others_task u _ (sw s))|]. intros -> _. left. cbn. by rewrite fn_lookup_insert.
  - apply (kept_others u); [apply (others_task u _ (sw s))|]. intros -> W. right. left. right. cbn. rewrite fn_lookup_insert. cbn.
    pose proof (li_pc _ _ L c) as Hp. rewrite Hc in Hp. destruct W; [by apply (Hp eq_refl)|done].
  - apply (kept_others u); [apply (others_task u _ (sw s))|]. intros -> _. right. left. left. cbn. by rewrite fn_lookup_insert.
  - apply kept_same. cbn. destruct (decide (t = u)) as [->|N]; [by rewrite fn_lookup_insert|]. rewrite fn_lookup_insert_ne by done. done.
  - apply (kept_others u); [by eapply wake_others|]. intros -> _. apply wake_spec in E as [O W]; [|apply L]. unfold kept, woken. cbn. destruct (wk_woken _ _ _ W) as [?|[?|?]]; auto.
  - apply mark_spec in E as (_ & _ & E); [|apply I]. destruct b; destruct E as (_ & _ & _ & M); [|apply kept_same; cbn; by rewrite M].
    eapply kept_remarked. cbn. rewrite notify_tasks. exact M.
  - by eapply kept_remove.
  - by eapply kept_remove.
  - by eapply kept_remove.
Qed.

Lemma kept_step s s' t : QInv s -> LInv t s -> spared t s s' -> woken t s -> kept t s s'.
Proof.
  intros I L St. destruct St as [s s' St _|s u N|s c u N Hc|s u w b E].
  - by apply kept_sstep.
  - apply (kept_others u); [unfold stop_section; cbn; case_decide; [done|apply others_task]|by intros ->].
  - apply (kept_others u); [apply (others_task u _ (sw s))|by intros ->].
  - unfold continue_section in E. apply (kept_others u); [injection E as <- _; apply others_task|]. intros -> W. rewrite (li_stop _ _ L) in E. injection E as <- <-.
    right. left. unfold woken. cbn. by rewrite fn_lookup_insert.
Qed.
