(* ===== verification/SchedPlace.v ===== *)
(** * The scheduler: where a task goes, and which comes first

    The processor chosen for a task is online and allowed, and the least loaded of
    those that are not stalled; the realtime queue stays sorted by priority when a
    task is added, so the highest priority is picked first. *)

From Stdlib Require Import Sorted.
From stdpp Require Import functions.
From S2P Require Import Prelude Sched SchedSys SchedSpec.

Implicit Types (m : TaskManager) (ts : nat -> SchedTask) (w : SchedWorld).

(** ** Placement *)

Lemma online_fold_testbit w c l : forall mask, Z.testbit (fold_left (fun mask cpu => if cpu_is_online cpu w then Z.lor mask (Z.shiftl 1 (Z.of_nat cpu)) else mask) l mask) (Z.of_nat c)
  = Z.testbit mask (Z.of_nat c) || (existsb (fun x => (x =? c)%nat) l && cpu_is_online c w).
Proof.
  induction l as [|x l IH]; intros mask; cbn; [by rewrite orb_false_r|]. rewrite IH. destruct (Nat.eqb_spec x c) as [->|N]; cbn.
  - destruct (cpu_is_online c w); [|by rewrite andb_false_r]. rewrite Z.lor_spec, Z.shiftl_1_l, Z.pow2_bits_true by lia. by rewrite !orb_true_r.
  - destruct (cpu_is_online x w); [|done]. rewrite Z.lor_spec, Z.shiftl_1_l, Z.pow2_bits_false by lia. by rewrite orb_false_r.
Qed.

Section Placed.
Context (stalled locked : nat -> bool) (mask : Z) (w : SchedWorld).

Definition eligible (c : nat) : Prop := (c < MAX_CPU_NUM)%nat /\ cpu_is_online c w = true /\ cpu_bit mask c = true.
Abbreviation load c := (cpu_load locked c w).

Definition considered (preferred c : nat) : Prop := eligible c /\ (c = preferred \/ IDLE_CPUS w c = true \/ stalled c = false).

Lemma valid_cpu_lt c : (valid_cpu c < MAX_CPU_NUM)%nat.
Proof. unfold valid_cpu, MAX_CPU_NUM. case_if; lia. Qed.

Lemma better_spec preferred c best : eligible (fst best) -> snd best = load (fst best) -> (c < MAX_CPU_NUM)%nat ->
  let best' := better stalled locked (Z.of_nat preferred) mask c best w in
  eligible (fst best') /\ snd best' = load (fst best') /\ snd best' <= snd best /\ (considered preferred c -> snd best' <= load c).
Proof.
  destruct best as [sel l]. intros He Hl Hc. unfold better. destruct (cpu_is_online c w) eqn:O; cbn [negb orb].
  2:{ cbn. repeat split; try done; try apply He; try lia. intros ((_ & ? & _) & _). congruence. }
  destruct (cpu_bit mask c) eqn:B; cbn [negb orb]. 2:{ cbn. repeat split; try done; try apply He; try lia. intros ((_ & _ & ?) & _). congruence. }
  destruct (negb _ && negb _ && stalled c) eqn:S.
  - apply andb_true_iff in S as [[S1 S2]%andb_true_iff S3]. apply negb_true_iff in S1, S2. apply Z.eqb_neq in S1. cbn. repeat split; try done; try apply He; try lia.
    intros (_ & [?|[?|?]]); [lia|congruence|congruence].
  - cbn. destruct (Z.ltb_spec (load c) l); cbn in *; (repeat split; try done; try apply He; lia).
Qed.

Lemma offset_onto preferred c : (preferred < MAX_CPU_NUM)%nat -> (c < MAX_CPU_NUM)%nat -> exists o, o ∈ seq 0 MAX_CPU_NUM /\ ((preferred + o) mod MAX_CPU_NUM)%nat = c.
Proof.
  intros Hp Hc. exists (if (preferred <=? c)%nat then c - preferred else c + MAX_CPU_NUM - preferred)%nat. unfold MAX_CPU_NUM in *. rewrite elem_of_seq.
  destruct (Nat.leb_spec preferred c); (split; [lia|]).
  - replace (preferred + (c - preferred))%nat with c by lia. by apply Nat.mod_small.
  - replace (preferred + (c + 8 - preferred))%nat with (c + 1 * 8)%nat by lia. rewrite Nat.Div0.mod_add. by apply Nat.mod_small.
Qed.

Lemma better_fold preferred l : forall best, eligible (fst best) -> snd best = load (fst best) ->
  let best' := fold_left (fun best o => better stalled locked (Z.of_nat preferred) mask ((preferred + o) mod MAX_CPU_NUM) best w) l best in
  eligible (fst best') /\ snd best' = load (fst best') /\ snd best' <= snd best /\ forall o, o ∈ l -> considered preferred ((preferred + o) mod MAX_CPU_NUM)%nat -> snd best' <= load ((preferred + o) mod MAX_CPU_NUM)%nat.
Proof.
  induction l as [|x l IH]; intros best He Hl; cbn [fold_left].
  { split; [done|]. split; [done|]. split; [lia|]. intros o ?%not_elem_of_nil. done. }
  destruct (better_spec preferred ((preferred + x) mod MAX_CPU_NUM)%nat best He Hl) as (He1 & Hl1 & Hle & Hx); [apply Nat.mod_upper_bound; done|].
  destruct (IH _ He1 Hl1) as (He2 & Hl2 & Hle2 & Ho). split; [done|]. split; [done|]. split; [lia|].
  intros o [->|H]%elem_of_cons C; [specialize (Hx C); lia|by apply Ho].
Qed.

Lemma allowed_online c : (c < MAX_CPU_NUM)%nat -> cpu_bit (Z.land mask (online_cpu_mask w)) c = cpu_bit mask c && cpu_is_online c w.
Proof.
  intros Hc. unfold cpu_bit, online_cpu_mask. rewrite Z.land_spec, online_fold_testbit, Z.bits_0. cbn [orb].
  assert (existsb (fun x => (x =? c)%nat) (seq 0 MAX_CPU_NUM) = true) as -> by (apply existsb_exists; exists c; rewrite Nat.eqb_refl, in_seq; split; [lia|done]). done.
Qed.

Lemma first_eligible preferred c0 : eligible c0 -> (preferred < MAX_CPU_NUM)%nat ->
  eligible (if cpu_is_online preferred w && cpu_bit mask preferred then preferred else default preferred (List.find (cpu_bit (Z.land mask (online_cpu_mask w))) (seq 0 MAX_CPU_NUM))).
Proof.
  intros (H0 & H1 & H2) Hp. destruct (_ && _) eqn:O; [apply andb_true_iff in O; by split|].
  destruct (List.find _ _) as [c|] eqn:F; cbn.
  - apply find_some in F as [[_ Hc]%in_seq F]. rewrite allowed_online in F by done. by apply andb_true_iff in F as [? ?].
  - assert (In c0 (seq 0 MAX_CPU_NUM)) as Hi by (apply in_seq; lia). pose proof (find_none _ _ F c0 Hi) as N. rewrite allowed_online, H1, H2 in N by done. done.
Qed.

Lemma select_enqueue_spec preferred c0 : eligible c0 ->
  eligible (select_enqueue_cpu stalled locked preferred mask w) /\
  forall c, considered (valid_cpu preferred) c -> load (select_enqueue_cpu stalled locked preferred mask w) <= load c.
Proof.
  intros H0. unfold select_enqueue_cpu. pose proof (valid_cpu_lt preferred) as Hv. pose proof (first_eligible _ _ H0 Hv) as Hf. set (first := if _ && _ then _ else _) in *.
  destruct (better_fold (valid_cpu preferred) (seq 0 MAX_CPU_NUM) (first, load first) Hf eq_refl) as (He & Hl & _ & Ho). split; [done|].
  intros c Hc. destruct (offset_onto (valid_cpu preferred) c Hv (proj1 (proj1 Hc))) as (o & Hi & E). rewrite <- Hl. specialize (Ho o Hi). rewrite E in Ho. by apply Ho.
Qed.

Lemma select_wakeup_eligible current preferred c0 : eligible c0 -> eligible (select_wakeup_cpu stalled locked current preferred mask w).
Proof.
  intros H0. unfold select_wakeup_cpu. destruct (negb _ || negb _) eqn:O; [by eapply select_enqueue_spec|].
  apply orb_false_iff in O as [O1%negb_false_iff O2%negb_false_iff]. repeat case_if; try (by eapply select_enqueue_spec). split; [apply valid_cpu_lt|done].
Qed.
End Placed.

(** ** Realtime tasks *)

Section Realtime.
Context (ts : nat -> SchedTask).
Abbreviation prio t := (effective_sched_priority (ts t)).

Definition by_priority (q : list nat) : Prop := StronglySorted (fun a b => prio b <= prio a) q.

Lemma sorted_insert a b t : by_priority (a ++ b) -> Forall (fun y => prio t <= prio y) a -> Forall (fun y => prio y <= prio t) b -> by_priority (a ++ t :: b).
Proof.
  unfold by_priority. induction a as [|x a IH]; cbn; intros S Ha Hb; [by constructor|]. inversion S as [|? ? S' F]; subst. inversion Ha; subst.
  constructor; [by apply IH|]. apply Forall_app in F as [F1 F2]. apply Forall_app. split; [done|]. by constructor.
Qed.

Lemma sorted_tail a b : by_priority (a ++ b) -> by_priority b.
Proof. unfold by_priority. induction a as [|x a IH]; cbn; [done|]. intros S. inversion S; subst. auto. Qed.

Lemma sorted_all_le x b : by_priority (x :: b) -> Forall (fun y => prio y <= prio x) (x :: b).
Proof. intros S. inversion S; subst. by constructor; [lia|]. Qed.

(** A realtime task goes before the first of lower priority, or, at the front, of no higher priority. *)
Lemma insert_sorted (front : bool) t q : by_priority q ->
  let before (u : nat) := if front then prio u <=? prio t else prio u <? prio t in
  let i := default (length q) (position before q) in by_priority (take i q ++ t :: drop i q).
Proof.
  intros S before i. subst i. pose proof (position_spec before q) as P. destruct (position before q) as [i|]; simpl default.
  - destruct P as (a & x & b & -> & <- & Hx & Ha). rewrite take_app_length, drop_app_length. apply sorted_insert; [done| |].
    + eapply Forall_impl; [exact Ha|]. unfold before. intros y. cbn. destruct front; lia.
    + eapply Forall_impl; [apply sorted_all_le; by eapply sorted_tail|]. unfold before in Hx. intros y. cbn. destruct front; lia.
  - rewrite take_ge, drop_ge by done. apply sorted_insert; [by rewrite app_nil_r| |done].
    eapply Forall_impl; [exact P|]. unfold before. intros y. cbn. destruct front; lia.
Qed.

(** In a sorted queue the first allowed task has the highest priority of the allowed ones. *)
Lemma first_is_highest (f : nat -> bool) q t : by_priority q -> List.find f q = Some t -> forall u, u ∈ q -> f u = true -> prio u <= prio t.
Proof.
  unfold by_priority. induction q as [|x q IH]; cbn; [done|]. intros S. inversion S as [|? ? S' F]; subst. destruct (f x) eqn:E.
  - intros [= <-] u [->|H]%elem_of_cons _; [lia|]. rewrite Forall_forall in F. by apply F.
  - intros Hf u [->|H]%elem_of_cons Hu; [congruence|]. by apply IH.
Qed.
End Realtime.
