(* ===== verification/SchedMain.v ===== *)
(** * The scheduler: theorems

    The properties of the scheduler with their witnesses, and the two schedules on
    which a ready task is lost. *)

From Stdlib Require Import Sorted.
From stdpp Require Import functions.
From S2P Require Import Prelude Sched SchedSys SchedSpec SchedInv SchedLive SchedPlace.

Implicit Types (w : SchedWorld) (s : SchedSys) (ts : nat -> SchedTask) (k : SchedTask).

(** ** Calls under way finish *)

Section Finish.
Abbreviation sstep := (SchedSys.sstep true true).

(** One of the calls under way goes on; the processors stay where they are. *)
Definition goes_on s s' : Prop :=
  sstep s s' /\ cpus s' = cpus s /\ exists ps1 p new ps2, posts s = ps1 ++ p :: ps2 /\ posts s' = ps1 ++ new ++ ps2 /\ p ∉ new.

Definition found t s : Prop := is_ready_queued (stasks (sw s) t) = true \/ is_on_cpu (stasks (sw s) t) = true.
Definition finishes t s : Prop := exists s', rtc goes_on s s' /\ found t s'.

Lemma finishes_now t s : found t s -> finishes t s.
Proof. intros F. exists s. by split; [apply rtc_refl|]. Qed.

Lemma finishes_step t s w p new ps1 ps2 : posts s = ps1 ++ p :: ps2 -> p ∉ new -> sstep s (mkSS w (cpus s) (ps1 ++ new ++ ps2)) ->
  finishes t (mkSS w (cpus s) (ps1 ++ new ++ ps2)) -> finishes t s.
Proof. intros Hp N St (s2 & R & F). exists s2. split; [|done]. eapply rtc_l; [|exact R]. split; [done|]. split; [done|]. by exists ps1, p, new, ps2. Qed.

Lemma mark_finishes s t cpu front ps1 ps2 : QInv s -> posts s = ps1 ++ PoMark t cpu front :: ps2 -> finishes t s.
Proof.
  intros I Hp. destruct (mark_section cpu t front (sw s)) as [w b] eqn:E. eapply (finishes_step t s _ _ []); [exact Hp|apply not_elem_of_nil|by eapply (ss_po_mark _ _ s t cpu front _ _ 0)|].
  apply mark_spec in E as (_ & _ & E); [|apply I]. apply finishes_now. left. destruct b; cbn; destruct E as (H & _ & _ & M).
  - rewrite notify_tasks. destruct (M t) as (_&_&_&_&_&_&Eq). unfold is_ready_queued. by rewrite Eq, decide_True.
  - by rewrite M.
Qed.

Lemma enq_finishes s t cpu front ps1 ps2 : QInv s -> posts s = ps1 ++ PoEnq t cpu front :: ps2 -> finishes t s.
Proof.
  intros I Hp. pose proof (ss_po_enq true true s t cpu front ps1 ps2 Hp) as St. destruct (enqueue_check t (sw s)) eqn:C.
  - eapply finishes_step; [exact Hp| |exact St|]; [set_solver|]. eapply mark_finishes; [by eapply qinv_step|reflexivity].
  - apply finishes_now. unfold enqueue_check in C. unfold found. by destruct (is_ready_queued _), (is_on_cpu _); auto.
Qed.

(** A ready task that nobody has. *)
Definition waits t s : Prop := QInv s /\ group_stopped (stasks (sw s) t) = false /\ task_status (stasks (sw s) t) = Ready.

Lemma waits_step t s s' : waits t s -> sstep s s' -> stasks (sw s') t = stasks (sw s) t -> waits t s'.
Proof. intros (I & L & R) St E. split; [by eapply qinv_step|]. by rewrite E. Qed.

Lemma add_finishes s t cpu front ps1 ps2 : waits t s -> posts s = ps1 ++ PoAdd t cpu front :: ps2 -> finishes t s.
Proof.
  intros W Hp. pose proof (ss_po_add true true s t cpu front ps1 ps2 0 (fun _ => false) (fun _ => false) Hp) as St. rewrite decide_True in St by apply W.
  eapply finishes_step; [exact Hp| |exact St|]; [set_solver|]. eapply enq_finishes; [by eapply qinv_step; [exact St|apply W]|reflexivity].
Qed.

Lemma place_finishes s t front ps1 ps2 : waits t s -> posts s = ps1 ++ PoPlace t front :: ps2 -> finishes t s.
Proof.
  intros W Hp. pose proof (ss_po_place true true s t front ps1 ps2 0 (fun _ => false) (fun _ => false) Hp) as St.
  eapply finishes_step; [exact Hp| |exact St|]; [set_solver|]. eapply add_finishes; [by eapply waits_step|reflexivity].
Qed.

Lemma check_finishes s t front ps1 ps2 : waits t s -> posts s = ps1 ++ PoCheck t front :: ps2 -> finishes t s.
Proof.
  intros W Hp. pose proof (ss_po_check true true s t front ps1 ps2 Hp) as St. destruct (_ || _) eqn:F.
  - apply finishes_now. by apply orb_true_iff in F.
  - eapply finishes_step; [exact Hp| |exact St|]; [set_solver|]. eapply place_finishes; [by eapply waits_step|reflexivity].
Qed.

Lemma wake_finishes s t front ps1 ps2 : waits t s -> posts s = ps1 ++ PoWake t front :: ps2 -> finishes t s.
Proof.
  intros W Hp. destruct (is_on_cpu (stasks (sw s) t)) eqn:O; [apply finishes_now; by right|]. pose proof W as (I & L & R).
  assert (wake_section front t (sw s) = (sw s, WakeCheck)) as E by (unfold wake_section; rewrite L, O, R; done).
  pose proof (ss_po_wake true true s t front ps1 ps2 _ _ Hp E) as St. eapply finishes_step; [exact Hp| |exact St|]; [set_solver|].
  eapply check_finishes; [by eapply waits_step|reflexivity].
Qed.

Lemma remove_unqueued t w : is_ready_queued (stasks w t) = false -> remove_section t w = (w, None).
Proof. unfold remove_section, is_ready_queued. by destruct (ready_queued _). Qed.

Lemma ready_finishes t s : waits t s -> located t s -> finishes t s.
Proof.
  intros W [F|[F|(p & [ps1 [ps2 Hp]]%list_elem_of_split & Ep)]]; [apply finishes_now; by left|apply finishes_now; by right|].
  destruct (is_ready_queued (stasks (sw s) t)) eqn:Q; [apply finishes_now; by left|]. pose proof (remove_unqueued t (sw s) Q) as Er.
  destruct p; cbn in Ep; try done; injection Ep as ->.
  - by eapply wake_finishes.
  - by eapply check_finishes.
  - by eapply place_finishes.
  - by eapply add_finishes.
  - eapply enq_finishes; [apply W|done].
  - eapply mark_finishes; [apply W|done].
  - pose proof (ss_po_move true true s t ps1 ps2 _ _ 0 (fun _ => false) (fun _ => false) Hp Er) as St. eapply finishes_step; [exact Hp| |exact St|]; [set_solver|].
    eapply add_finishes; [by eapply waits_step|reflexivity].
  - pose proof (ss_po_kill true true s t ps1 ps2 _ _ Hp Er) as St. eapply finishes_step; [exact Hp| |exact St|]; [set_solver|]. eapply wake_finishes; [by eapply waits_step|reflexivity].
Qed.
End Finish.

(** ** Schedules *)

Inductive Act := AClaim (c : nat) | ADispatch (c : nat) | AEnter (c : nat) | ASkipped (c : nat) | ASwitched (c : nat) | ABlock (c : nat) | AYield (c : nat)
| ANew (t : nat) | AWake (t : nat) | AStop (t : nat) | AContinue (t : nat) | APost (i : nat) | APostAt (i cur stalled : nat).

Section Schedule.
Context (job_control split_skip : bool).
Abbreviation no := (fun _ : nat => false).
Abbreviation sstep := (SchedSys.sstep job_control split_skip).

(** The [i]-th call under way; [cur]: the processor it runs on; [stalled]: those that look stalled to it. *)
Definition exec_post (cur : nat) (stalled : nat -> bool) (i : nat) s : SchedSys :=
  let ps1 := take i (posts s) in
  let ps2 := drop (S i) (posts s) in
  match posts s !! i with
  | Some (PoWake t front) => let '(w, r) := wake_section front t (sw s) in mkSS w (cpus s) (ps1 ++ after_wake front t r ++ ps2)
  | Some (PoCheck t front) => mkSS (sw s) (cpus s) (ps1 ++ (if is_ready_queued (stasks (sw s) t) || is_on_cpu (stasks (sw s) t) then [] else [PoPlace t front]) ++ ps2)
  | Some (PoPlace t front) => mkSS (sw s) (cpus s) (ps1 ++ [PoAdd t (woken_target stalled no cur t (sw s)) front] ++ ps2)
  | Some (PoAdd t cpu front) =>
      mkSS (sw s) (cpus s) (ps1 ++ (if decide (task_status (stasks (sw s) t) = Ready) then [PoEnq t (add_target stalled no cur cpu t (sw s)) front] else []) ++ ps2)
  | Some (PoEnq t cpu front) => mkSS (sw s) (cpus s) (ps1 ++ (if enqueue_check t (sw s) then [PoMark t cpu front] else []) ++ ps2)
  | Some (PoMark t cpu front) => let '(w, b) := mark_section cpu t front (sw s) in mkSS (if b then notify_enqueued cur cpu t w else w) (cpus s) (ps1 ++ ps2)
  | Some (PoRemove t) => let '(w, d) := remove_section t (sw s) in mkSS w (cpus s) (ps1 ++ decr_post d ++ ps2)
  | Some (PoDecr c) => mkSS (decrement_ready_tasks c (sw s)) (cpus s) (ps1 ++ ps2)
  | _ => s
  end.

Lemma exec_post_ok cur stalled i s : exec_post cur stalled i s = s \/ sstep s (exec_post cur stalled i s).
Proof.
  unfold exec_post. destruct (posts s !! i) as [p|] eqn:E; [|by left]. apply take_drop_middle in E. symmetry in E.
  destruct p; try (by left); repeat (match goal with |- context [let '(_, _) := ?x in _] => destruct x eqn:? end); right.
  - by eapply ss_po_wake.
  - by apply ss_po_check.
  - by apply (ss_po_place _ _ _ _ _ _ _ cur stalled no).
  - by apply (ss_po_add _ _ _ _ _ _ _ _ cur stalled no).
  - by apply ss_po_enq.
  - by eapply (ss_po_mark _ _ _ _ _ _ _ _ cur).
  - by eapply ss_po_remove.
  - by apply ss_po_decr.
Qed.

Definition exec (a : Act) s : SchedSys :=
  match a with
  | AClaim c => match cpus s c with CIdle => let '(w, o) := claim_section c (sw s) in mkSS w (<[c := match o with Some t => CFetched t | None => CIdle end]> (cpus s)) (posts s) | _ => s end
  | ADispatch c => match cpus s c with
      | CFetched t => match dispatch_section c t (sw s) with
          | (w, DRun) => mkSS w (<[c := CStart t]> (cpus s)) (posts s)
          | (w, DDrop) => mkSS w (<[c := CIdle]> (cpus s)) (posts s)
          | (w, DSkip) => if split_skip then mkSS w (<[c := CSkip t]> (cpus s)) (posts s) else mkSS (skip_section t w) (<[c := CIdle]> (cpus s)) (posts s) end
      | _ => s end
  | AEnter c => match cpus s c with CStart t => mkSS (sw s) (<[c := CRun t]> (cpus s)) (posts s) | _ => s end
  | ASkipped c => match cpus s c with CSkip t => mkSS (skip_section t (sw s)) (<[c := CIdle]> (cpus s)) (posts s) | _ => s end
  | ASwitched c => match cpus s c with
      | CSwitch t => let '(w, o) := switched_section t (sw s) in
          mkSS w (<[c := CIdle]> (cpus s)) (match o with Some front => PoAdd t (requeue_target no no c front t w) front :: posts s | None => posts s end)
      | _ => s end
  | ABlock c => match cpus s c with CRun t => let '(w, b) := block_section c t false (sw s) in mkSS w (if b then <[c := CSwitch t]> (cpus s) else cpus s) (posts s) | _ => s end
  | AYield c => match cpus s c with CRun t => mkSS (yield_section c t false (sw s)) (<[c := CSwitch t]> (cpus s)) (posts s) | _ => s end
  | ANew t => match on_cpu (stasks (sw s) t), ready_queued (stasks (sw s) t), forallb (fun p => negb (bool_decide (post_task p = Some t))) (posts s) with
      | None, None, true => mkSS (set_task t new_task (sw s)) (cpus s) (PoAdd t (select_enqueue_cpu no no 0 (affinity_mask new_task) (sw s)) false :: posts s)
      | _, _, _ => s end
  | AWake t => mkSS (sw s) (cpus s) (PoWake t false :: posts s)
  | AStop t => if job_control then mkSS (stop_section t (sw s)) (cpus s) (PoRemove t :: posts s) else s
  | AContinue t => if job_control then let '(w, b) := continue_section t (sw s) in mkSS w (cpus s) (if b then PoWake t false :: posts s else posts s) else s
  | APost i => exec_post 0 no i s
  | APostAt i cur st => exec_post cur (fun c => (c =? st)%nat) i s
  end.

Lemma exec_ok a s : exec a s = s \/ sstep s (exec a s).
Proof.
  destruct a as [c|c|c|c|c|c|c|t|t|t|t|i|i cur st]; cbn [exec]; try (destruct (cpus s c) eqn:Hc; try (by left)).
  - destruct (claim_section c (sw s)) eqn:E. right; by apply ss_claim.
  - destruct (dispatch_section c t (sw s)) as [w []] eqn:E; right; [by apply ss_run|by apply (ss_skip job_control split_skip s c t w)|by eapply ss_drop].
  - right; by apply ss_enter.
  - right; by apply ss_skipped.
  - destruct (switched_section t (sw s)) eqn:E. right; by apply (ss_switched _ _ s c t _ _ no no).
  - destruct (block_section c t false (sw s)) eqn:E. right; by apply (ss_block _ _ s c t false).
  - right; by apply ss_yield.
  - destruct (on_cpu (stasks (sw s) t)) eqn:Eo, (ready_queued (stasks (sw s) t)) eqn:Eq; try (by left).
    destruct (forallb _ _) eqn:F; try (by left). right; apply (ss_new _ _ s t 0 no no); [done|done|].
    intros p Hp Ep. rewrite forallb_forall in F. apply list_elem_of_In in Hp. apply F in Hp. rewrite bool_decide_true in Hp by done. done.
  - right; apply ss_wake.
  - destruct job_control eqn:J; [|by left]. right; by apply ss_stop.
  - destruct job_control eqn:J; [|by left]. destruct (continue_section t (sw s)) eqn:E. right; by apply ss_continue.
  - apply exec_post_ok.
  - apply exec_post_ok.
Qed.

(** Two processors are online, no task exists yet. *)
Definition boot0 : SchedSys :=
  mkSS (mkSW (fun _ => set_status Zombie new_task) (fun _ => new_manager) (fun _ => 0) (fun c => (c <? 2)%nat) (fun _ => false) (fun _ => None) []) (fun _ => CIdle) [].

Definition run_acts (acts : list Act) : SchedSys := fold_left (fun s a => exec a s) acts boot0.

Lemma run_acts_reach acts : sreach job_control split_skip (run_acts acts).
Proof.
  exists boot0. split.
  - split; [done|]. split; [done|]. split; [done|]. by intros p ?%not_elem_of_nil.
  - unfold run_acts. generalize boot0. induction acts as [|a acts IH]; intros s; cbn; [apply rtc_refl|]. destruct (exec_ok a s) as [->|St]; [apply IH|]. eapply rtc_l; [exact St|apply IH].
Qed.
End Schedule.

(** A new task is queued; processor 0 takes it and runs it. *)
Definition start1 : list Act := [ANew 1; APost 0; APost 0; APost 0].
Definition run1 : list Act := [AClaim 0; ADispatch 0; AEnter 0].
Definition sleep1 : list Act := [ABlock 0; ASwitched 0].
(** A wake-up up to its enqueue, which is still to come. *)
Definition wake1 (n : nat) : list Act := AWake 1 :: replicate n (APost 0).

(** Two wake-ups of the same sleep: the second enqueues the task after it has run and gone to sleep again. *)
Definition lost_skip : list Act :=
  start1 ++ run1 ++ sleep1 ++ wake1 3 ++ wake1 6 ++ run1 ++ sleep1 ++ [APost 0; APost 0; AClaim 0; ADispatch 0] ++ wake1 1 ++ [ASkipped 0].

Definition lost_stop : list Act := start1 ++ [AStop 1; AContinue 1] ++ replicate 4 (APost 0) ++ [APost 0; APost 0].

(** ** The order in which tasks are picked *)

Lemma age_realtime m ts m' ts' : age_queued_tasks m ts = (m', ts') -> realtime_queue m' = realtime_queue m.
Proof.
  unfold age_queued_tasks. generalize MLFQ_AGING_SCAN_BUDGET as budget. generalize (MLFQ_LEVELS - 1)%nat as rounds. intros rounds. revert m ts.
  assert (forall l b m ts m' ts' b', age_level l b m ts = (m', ts', b') -> realtime_queue m' = realtime_queue m) as A.
  { intros l b. induction b as [|b IH]; intros m ts m1 ts1 b'; cbn [age_level]; [by intros [= <- <- <-]|]. destruct (level_queue l m); [by intros [= <- <- <-]|].
    repeat case_if; try (by intros [= <- <- <-]). by intros ->%IH. }
  induction rounds as [|rounds IH]; intros m ts budget; cbn [age_rounds]; [by intros [= <- <-]|]. case_if; [by intros [= <- <-]|].
  destruct (next_aging_level m) as [m1 l] eqn:N. injection N as <- _. destruct (age_level l budget _ ts) as [[m2 ts2] b2] eqn:El. intros H%IH. rewrite H. by apply A in El.
Qed.

Lemma aged_realtime c w : realtime_queue (fst (aged c w)) = realtime_queue (TASK_MANAGER w c).
Proof. unfold aged. case_if; [|done]. destruct (age_queued_tasks _ _) eqn:Ea. by apply age_realtime in Ea. Qed.

Lemma find_in_front {A} (f : A -> bool) a b u : u ∈ a -> f u = true -> List.find f (a ++ b) = List.find f a /\ is_Some (List.find f a).
Proof.
  intros Hu Fu. destruct (List.find f a) as [x|] eqn:E; [split; [by apply find_app_some|done]|].
  apply list_elem_of_In in Hu. pose proof (find_none _ _ E u Hu). congruence.
Qed.

(** ** Theorems *)

(** C19: in every reachable state, with or without group stops, a task is in at most
    one run queue and there once, exactly when its marker names that processor; no two
    processors have claimed the same task; what a processor has claimed carries its
    mark; and the current task of a processor is the one it has dispatched. *)
Theorem sched_exclusive job_control split_skip s : sreach job_control split_skip s ->
  (forall c, NoDup (queue (sw s) c)) /\
  (forall c c' t, t ∈ queue (sw s) c -> t ∈ queue (sw s) c' -> c = c') /\
  (forall c t, t ∈ queue (sw s) c <-> ready_queued (stasks (sw s) t) = Some c) /\
  (forall c t, holds (cpus s c) = Some t <-> on_cpu (stasks (sw s) t) = Some c) /\
  (forall c c' t, holds (cpus s c) = Some t -> holds (cpus s c') = Some t -> c = c') /\
  (forall c, proc_current (sw s) c = running (cpus s c)).
Proof.
  intros I%qinv_reach. split_and!.
  - apply I.
  - intros c c' t H1%(qi_queue _ I) H2%(qi_queue _ I). congruence.
  - apply I.
  - intros c t. symmetry. apply I.
  - intros c c' t H1%(qi_cpu _ I) H2%(qi_cpu _ I). congruence.
  - apply I.
Qed.

Lemma sched_exclusive_witness : proc_current (sw (run_acts true true (start1 ++ run1))) 0 = running (cpus (run_acts true true (start1 ++ run1)) 0).
Proof. apply (sched_exclusive true true _ (run_acts_reach true true (start1 ++ run1))). Defined.

(** C20: A ready task is not lost, but by two paths.  In every run of the whole system,
    with group stops and with the lock of a skipped task dropped before its release,
    a task that is ready is queued, claimed by a processor, or looked for by a call
    under way; and letting calls under way go on, with no other step, brings it into
    a queue or onto a processor.  The run may hold any step but two
    ([spared_all]): a group stop of this very task, and its release by a
    processor that has decided to skip it when it has become ready in between; on
    these paths the code does lose the task ([sched_stop_loses_task],
    [sched_skip_loses_task]). *)
Theorem sched_ready_not_lost s t : spared_reach t s -> task_status (stasks (sw s) t) = Ready ->
  located t s /\ exists s', rtc goes_on s s' /\ found t s'.
Proof.
  intros [I L]%li_reach R. pose proof (li_ready _ _ L R) as F. split; [done|]. apply ready_finishes; [|done]. split; [done|]. split; [apply L|done].
Qed.

(** A schedule that lets no processor finish a skip. *)
Definition no_skip (a : Act) : bool := match a with ASkipped _ => false | _ => true end.

Lemma exec_skip a s c t : no_skip a = true -> cpus s c = CSkip t -> cpus (exec false true a s) c <> CIdle.
Proof.
  intros Ha Hc. destruct a; try done; unfold exec, exec_post; repeat case_match; cbn; first [congruence|eapply insert_skip; [intros v; congruence|exact Hc]].
Qed.

Lemma run_acts_spared t acts : forallb no_skip acts = true -> spared_reach t (run_acts false true acts).
Proof.
  intros Ha. exists boot0. split; [split; [done|]; split; [done|]; split; [done|by intros p ?%not_elem_of_nil]|].
  unfold run_acts. revert Ha. generalize boot0. induction acts as [|a acts IH]; intros s0; cbn; [intros _; apply rtc_refl|].
  intros [Ha H]%andb_true_iff. destruct (exec_ok false true a s0) as [->|St]; [by apply IH|]. eapply rtc_l; [|by apply IH].
  apply sp_step; [done|]. intros c Hc Hi. by eapply exec_skip in Hi.
Qed.

(** The task has been woken and its waker is about to queue it. *)
Definition being_woken : list Act := start1 ++ run1 ++ sleep1 ++ wake1 3.

Lemma sched_ready_not_lost_witness : exists s', rtc goes_on (run_acts false true being_woken) s' /\ found 1 s'.
Proof. apply (sched_ready_not_lost _ 1 (run_acts_spared 1 being_woken eq_refl)). vm_compute. reflexivity. Defined.

(** C21: No wake-up is lost, in every run of the whole system that [spared_all]
    describes: any step but a group stop of the task itself and its release by a
    processor that has decided to skip it when it has become ready in between.  A
    wake-up leaves a task that is not dead ready or with the wake-up pending; and a
    task that is ready or has a wake-up pending stays so through every such step,
    and does not block, until a processor starts it or its own call to block returns
    at once, or it dies. *)
Theorem sched_wakeup_not_lost s t : spared_reach t s ->
  (forall front w r, wake_section front t (sw s) = (w, r) -> task_status (stasks (sw s) t) <> Zombie ->
     task_status (stasks w t) = Ready \/ pending_wakeup (stasks w t) = true) /\
  (forall s', spared t s s' -> woken t s -> task_status (stasks (sw s') t) <> Zombie ->
     resumed t s s' \/ woken t s' /\ task_status (stasks (sw s') t) <> Blocked).
Proof.
  intros [I L]%li_reach. split.
  - intros front w r [_ W]%wake_spec Z; [|apply L]. destruct (wk_woken _ _ _ W) as [H|H]; [|done]. by apply (wk_alive _ _ _ W) in H.
  - intros s' St W Z. destruct (kept_step _ _ _ I L St W) as [?|[K|?]]; [done| |by left]. right. split; [done|]. intros B.
    pose proof (li_block _ _ (li_step _ _ _ I St L) B) as P. destruct K; congruence.
Qed.

Definition asleep1 : SchedSys := run_acts false true (start1 ++ run1 ++ sleep1).

Lemma sched_wakeup_not_lost_witness : let w := fst (wake_section false 1 (sw asleep1)) in task_status (stasks w 1) = Ready \/ pending_wakeup (stasks w 1) = true.
Proof.
  apply (proj1 (sched_wakeup_not_lost asleep1 1 (run_acts_spared 1 (start1 ++ run1 ++ sleep1) eq_refl)) false _ _ (surjective_pairing _)).
  vm_compute. discriminate.
Defined.

(** the counters and the capacities of the run queues are right in every
    reachable state: [READY_TASKS] of a processor is the number of its queued tasks
    plus the removals whose decrement is still to come (so it never underflows);
    and each of the five queues of a processor has room for all its queued tasks, so
    no promotion between levels has to allocate. *)
Theorem sched_counts_exact job_control split_skip s c : sreach job_control split_skip s ->
  READY_TASKS (sw s) c = Z.of_nat (length (queue (sw s) c) + decrs c (posts s)) /\
  length (ready_queues (TASK_MANAGER (sw s) c)) = MLFQ_LEVELS /\
  (forall l, (l < MLFQ_LEVELS)%nat -> (length (queue (sw s) c) <= level_cap l (TASK_MANAGER (sw s) c))%nat) /\
  (length (queue (sw s) c) <= realtime_cap (TASK_MANAGER (sw s) c))%nat.
Proof.
  intros I%qinv_reach. pose proof (qi_room _ I c) as R. split_and!; [apply I|apply R| |apply (ro_realtime _ _ R)].
  intros l Hl. by apply (cap_room _ l _ R Hl).
Qed.

Lemma sched_counts_exact_witness : READY_TASKS (sw (run_acts false false start1)) 0 = 1.
Proof. apply (sched_counts_exact false false _ 0 (run_acts_reach false false start1)). Defined.

(** C22: a processor picks, of its own queue after the promotions, the first task in
    queue order (realtime first, then the levels from the top) that is allowed on
    it, and none only when no queued task is allowed on it, provided that no queued
    task is still on a processor; when the realtime queue
    is sorted, a realtime task is picked whenever one is allowed, and none of the
    allowed ones has a higher priority; and queueing a realtime task keeps the queue
    sorted. *)
Theorem sched_pick_order job_control split_skip s c w o : sreach job_control split_skip s -> (forall t, t ∈ queue (sw s) c -> on_cpu (stasks (sw s) t) = None) ->
  claim_section c (sw s) = (w, o) ->
  let ts := stasks (sw s) in
  let q := all_tasks (fst (aged c (sw s))) in
  let rt := realtime_queue (TASK_MANAGER (sw s) c) in
  q ≡ₚ queue (sw s) c /\ o = List.find (fun t => allows_cpu c (ts t)) q /\
  (o = None <-> forall t, t ∈ queue (sw s) c -> allows_cpu c (ts t) = false) /\
  (by_priority ts rt -> forall u, u ∈ rt -> allows_cpu c (ts u) = true ->
     exists t, o = Some t /\ t ∈ rt /\ effective_sched_priority (ts u) <= effective_sched_priority (ts t)) /\
  (by_priority ts rt -> forall front t, is_realtime (ts t) = true -> by_priority ts (realtime_queue (fst (add_queued front t (TASK_MANAGER (sw s) c) ts)))).
Proof.
  intros I%qinv_reach Hn E ts q rt. destruct (aged_spec c (sw s) (qi_room _ I c)) as (Pq & _ & _).
  apply claim_pick in E as Eo; [|apply I|intros t; apply I|done].
  split_and!; [done|done| | |].
  - rewrite Eo. split.
    + intros F t Ht. apply (find_none _ _ F). apply list_elem_of_In. by rewrite Pq.
    + intros H. destruct (List.find _ _) as [x|] eqn:F; [|done]. apply find_some in F as [Hx Fx]. apply list_elem_of_In in Hx. rewrite Pq in Hx. rewrite H in Fx by done. done.
  - intros S u Hu Fu. unfold all_tasks in Eo. rewrite aged_realtime in Eo. fold rt in Eo.
    destruct (find_in_front (fun t => allows_cpu c (ts t)) rt (concat (ready_queues (fst (aged c (sw s))))) u Hu Fu) as [Ef [x Ex]].
    fold ts in Eo. rewrite Ef, Ex in Eo. exists x. split; [done|]. split; [apply find_some in Ex as [Hx _]; by apply list_elem_of_In|]. by eapply first_is_highest.
  - intros S front t R. unfold add_queued. rewrite R. by apply insert_sorted.
Qed.

Lemma sched_pick_order_witness : exists w, claim_section 0 (sw (run_acts false false start1)) = (w, Some 1%nat) /\ allows_cpu 0 (stasks (sw (run_acts false false start1)) 1) = true.
Proof.
  destruct (claim_section 0 (sw (run_acts false false start1))) as [w o] eqn:E.
  destruct (sched_pick_order false false _ 0 w o (run_acts_reach false false start1)) as (_ & Eo & _); [|exact E|].
  { intros t Ht. vm_compute in Ht. apply list_elem_of_singleton in Ht. rewrite Ht. vm_compute. reflexivity. }
  exists w. vm_compute in Eo. rewrite Eo. split; [reflexivity|]. vm_compute. reflexivity.
Defined.

(** a task is placed on a processor that is online and allowed by its mask
    whenever there is one, by [select_enqueue_cpu] and by [select_wakeup_cpu]; and the
    one that [select_enqueue_cpu] takes is no more loaded than any other that is
    online, allowed and not stalled, or idle, or the preferred one. *)
Theorem sched_placement stalled locked mask w c0 current preferred : eligible mask w c0 ->
  eligible mask w (select_enqueue_cpu stalled locked preferred mask w) /\
  eligible mask w (select_wakeup_cpu stalled locked current preferred mask w) /\
  forall c, eligible mask w c -> c = valid_cpu preferred \/ IDLE_CPUS w c = true \/ stalled c = false ->
    cpu_load locked (select_enqueue_cpu stalled locked preferred mask w) w <= cpu_load locked c w.
Proof.
  intros H. destruct (select_enqueue_spec stalled locked mask w preferred c0 H) as [H1 H2]. split_and!; [done|by eapply select_wakeup_eligible|].
  intros c Hc Hs. by apply H2.
Qed.

(** Two processors online, the preferred one with a task queued. *)
Lemma sched_placement_witness : eligible 3 (sw (run_acts false false start1)) (select_enqueue_cpu (fun _ => false) (fun _ => false) 0 3 (sw (run_acts false false start1))).
Proof. apply (sched_placement (fun _ => false) (fun _ => false) 3 (sw (run_acts false false start1)) 1 0 0). vm_compute. repeat split; lia. Defined.

(** ** Races *)

(** Two wake-ups for two processors: the first has checked the markers and waits to
    mark the task; the second queues it and processor 0 runs it. *)
Definition race_mark : list Act :=
  start1 ++ run1 ++ sleep1 ++ [AWake 1; APost 0; APostAt 0 1 0; APost 0; APost 0] ++ wake1 6 ++ run1 ++ [APost 0].

(** A task can be queued on one processor while another runs it, although the comment
    in [enqueue_task_on_cpu] rules out that the test of [on_cpu] races with a claim; the
    claim of the queued entry then fails until the task leaves its processor. *)
Theorem sched_queued_while_running : exists s, sreach false true s /\ cpus s 0 = CRun 1 /\ ready_queued (stasks (sw s) 1) = Some 1%nat.
Proof. exists (run_acts false true race_mark). split; [apply run_acts_reach|]. vm_compute. split; reflexivity. Qed.

(** ** Lost tasks *)

Definition lost t s : Prop := task_status (stasks (sw s) t) = Ready /\ is_ready_queued (stasks (sw s) t) = false /\ is_on_cpu (stasks (sw s) t) = false /\ posts s = [].

Lemma lost_not_located t s : lost t s -> ~ located t s.
Proof. intros (_ & H1 & H2 & H3) [?|[?|(p & Hp & _)]]; [congruence|congruence|]. rewrite H3 in Hp. by apply not_elem_of_nil in Hp. Qed.

(** The scheduler releases a task it skips after it has released the task's lock:
    a wake-up in between leaves the task ready, in no queue and on no processor. *)
Theorem sched_skip_loses_task : exists s, sreach false true s /\ lost 1 s.
Proof. exists (run_acts false true lost_skip). split; [apply run_acts_reach|]. vm_compute. repeat split. Qed.

(** A group stop takes the task off its queue after it has released the task's lock:
    a continue in between leaves the task ready and in no queue. *)
Theorem sched_stop_loses_task : exists s, sreach true true s /\ lost 1 s.
Proof. exists (run_acts true true lost_stop). split; [apply run_acts_reach|]. vm_compute. repeat split. Qed.
