(* ===== verification/Vm.v ===== *)
(** * Virtual memory: areas, page tables and the searches over them

    The data of a user address space ([os/src/mm/vm_area.rs], [os/src/mm/vm_set.rs],
    [polyhal/src/pagetable]) and the operations every system call and every fault
    shares: the binary searches over the sorted vector of areas, the insertion of
    an area, the moves of an area's bounds and the flags a page-table entry gets.

    A reference to a frame ([Arc<FrameTracker>]) is the number of the frame, since a
    tracker is the only owner of its number; [None] of an operation is a panic of
    the code ([expect], [assert!], an index out of range). *)

From stdpp Require Import gmap.
From S2P Require Import Prelude SysErr FrameAlloc.

(** ** Addresses *)

(** [USER_MEMORY_SPACE], inclusive bounds. *)
Definition USER_FIRST : Z := 0.
Definition USER_LAST : Z := 0x3fffffffff.
Definition MMAP_BASE : Z := 0x40000000.

Definition floor (va : Z) : Z := va / PAGE_SIZE.
Definition ceil (va : Z) : Z := if va =? 0 then 0 else (va - 1 + PAGE_SIZE) / PAGE_SIZE.
(** [x & (PAGE_SIZE - 1)] and [x & !(PAGE_SIZE - 1)]. *)
Definition page_offset (x : Z) : Z := Z.land x (PAGE_SIZE - 1).
Definition page_mask (x : Z) : Z := Z.land x (Z.lnot (PAGE_SIZE - 1)).

(** [usize::checked_sub]. *)
Definition checked_sub (a b : Z) : option Z := if b <=? a then Some (a - b) else None.

(** ** Permissions and page-table entries *)

(** The bits of [MapPermission], [MappingFlags] and [PTEFlags] that user mappings
    use; [A] and [D] of an entry follow [R] and [W], and an entry that is in the
    page table is valid. *)
Record Access := mkAcc { acc_r : bool; acc_w : bool; acc_x : bool; acc_u : bool }.

#[export] Instance Access_eq_dec : EqDecision Access.
Proof. solve_decision. Defined.

(** [MapPermission::from_prot]. *)
Definition from_prot (prot : Z) : Access :=
  let w := negb (Z.land prot 2 =? 0) in
  mkAcc (negb (Z.land prot 1 =? 0) || w) w (negb (Z.land prot 4 =? 0)) true.

(** [MappingFlags::from(MapPermission)]. *)
Definition mapping_flags (p : Access) : Access := mkAcc (acc_r p || acc_w p) (acc_w p) (acc_x p) (acc_u p).
(** [PTEFlags::from(MappingFlags)]. *)
Definition pte_flags (f : Access) : Access := mkAcc (acc_r f || acc_w f) (acc_w f) (acc_x f) (acc_u f).
(** What both fault paths do before they map a page: [X] without [R] gets [R]. *)
Definition exec_readable (f : Access) : Access := mkAcc (acc_r f || acc_x f) (acc_w f) (acc_x f) (acc_u f).

Definition cow_mapping_flags (p : Access) : Access :=
  let f := mapping_flags p in mkAcc true false (acc_x f) (acc_u f).

Record PTE := mkPTE { pte_ppn : Z; pte_acc : Access }.
Abbreviation PageTable := (gmap Z PTE).

(** A valid entry without [R], [W] and [X] counts as a pointer to a table. *)
Definition is_table (e : PTE) : bool := negb (acc_r (pte_acc e) || acc_w (pte_acc e) || acc_x (pte_acc e)).
Definition translate (pt : PageTable) (vpn : Z) : option PTE :=
  match pt !! vpn with Some e => if is_table e then None else Some e | None => None end.
Definition map_page (pt : PageTable) (vpn ppn : Z) (f : Access) : PageTable := <[vpn := mkPTE ppn (pte_flags f)]> pt.
(** [unmap_page] asserts that the entry is valid. *)
Definition unmap_page (pt : PageTable) (vpn : Z) : option PageTable :=
  match pt !! vpn with Some _ => Some (delete vpn pt) | None => None end.
(** [*pte = PTE::new(pte.ppn(), flags)], on a valid entry. *)
Definition set_pte_flags (pt : PageTable) (vpn : Z) (f : Access) : PageTable := alter (fun e => mkPTE (pte_ppn e) f) vpn pt.

(** ** Areas *)

Inductive UserMapAreaType := Elf | Stack | Heap | TrapContext | RtSigreturnTrampoline | Mmap | Shm.
Inductive MmapType := MapShared | MapPrivate.
Inductive MapType := Identical | Framed.
Inductive AccessType := Read | Write | Execute.

#[export] Instance UserMapAreaType_eq_dec : EqDecision UserMapAreaType.
Proof. solve_decision. Defined.
#[export] Instance MmapType_eq_dec : EqDecision MmapType.
Proof. solve_decision. Defined.
#[export] Instance MapType_eq_dec : EqDecision MapType.
Proof. solve_decision. Defined.
#[export] Instance AccessType_eq_dec : EqDecision AccessType.
Proof. solve_decision. Defined.

(** [map_file], [mapping_path] and [shared_anonymous] are the identities of the
    shared objects ([Arc::ptr_eq]). *)
Record UserMapArea := mkArea {
  va_start : Z;
  va_end : Z;
  data_frames : gmap Z Z;
  map_type : MapType;
  map_perm : Access;
  area_type : UserMapAreaType;
  cow_flag : bool;
  lazy_flag : bool;
  growdown_flag : bool;
  map_file : option Z;
  mapping_path : option Z;
  file_offset : Z;
  file_zero_start : option Z;
  mmap_flags : MmapType;
  shmid : option Z;
  shared_anonymous : option Z;
  shared_anonymous_offset : Z }.

Implicit Types a b : UserMapArea.

Definition set_start (x : Z) a := mkArea x (va_end a) (data_frames a) (map_type a) (map_perm a) (area_type a) (cow_flag a) (lazy_flag a) (growdown_flag a) (map_file a) (mapping_path a) (file_offset a) (file_zero_start a) (mmap_flags a) (shmid a) (shared_anonymous a) (shared_anonymous_offset a).
Definition set_end (x : Z) a := mkArea (va_start a) x (data_frames a) (map_type a) (map_perm a) (area_type a) (cow_flag a) (lazy_flag a) (growdown_flag a) (map_file a) (mapping_path a) (file_offset a) (file_zero_start a) (mmap_flags a) (shmid a) (shared_anonymous a) (shared_anonymous_offset a).
Definition set_frames (x : gmap Z Z) a := mkArea (va_start a) (va_end a) x (map_type a) (map_perm a) (area_type a) (cow_flag a) (lazy_flag a) (growdown_flag a) (map_file a) (mapping_path a) (file_offset a) (file_zero_start a) (mmap_flags a) (shmid a) (shared_anonymous a) (shared_anonymous_offset a).
Definition set_perm (x : Access) a := mkArea (va_start a) (va_end a) (data_frames a) (map_type a) x (area_type a) (cow_flag a) (lazy_flag a) (growdown_flag a) (map_file a) (mapping_path a) (file_offset a) (file_zero_start a) (mmap_flags a) (shmid a) (shared_anonymous a) (shared_anonymous_offset a).
Definition set_cow (x : bool) a := mkArea (va_start a) (va_end a) (data_frames a) (map_type a) (map_perm a) (area_type a) x (lazy_flag a) (growdown_flag a) (map_file a) (mapping_path a) (file_offset a) (file_zero_start a) (mmap_flags a) (shmid a) (shared_anonymous a) (shared_anonymous_offset a).
Definition set_lazy (x : bool) a := mkArea (va_start a) (va_end a) (data_frames a) (map_type a) (map_perm a) (area_type a) (cow_flag a) x (growdown_flag a) (map_file a) (mapping_path a) (file_offset a) (file_zero_start a) (mmap_flags a) (shmid a) (shared_anonymous a) (shared_anonymous_offset a).
Definition set_growdown (x : bool) a := mkArea (va_start a) (va_end a) (data_frames a) (map_type a) (map_perm a) (area_type a) (cow_flag a) (lazy_flag a) x (map_file a) (mapping_path a) (file_offset a) (file_zero_start a) (mmap_flags a) (shmid a) (shared_anonymous a) (shared_anonymous_offset a).
Definition set_file (f p : option Z) (off : Z) a := mkArea (va_start a) (va_end a) (data_frames a) (map_type a) (map_perm a) (area_type a) (cow_flag a) (lazy_flag a) (growdown_flag a) f p off (file_zero_start a) (mmap_flags a) (shmid a) (shared_anonymous a) (shared_anonymous_offset a).
Definition set_flags (x : MmapType) a := mkArea (va_start a) (va_end a) (data_frames a) (map_type a) (map_perm a) (area_type a) (cow_flag a) (lazy_flag a) (growdown_flag a) (map_file a) (mapping_path a) (file_offset a) (file_zero_start a) x (shmid a) (shared_anonymous a) (shared_anonymous_offset a).
Definition set_shared (x : option Z) (off : Z) a := mkArea (va_start a) (va_end a) (data_frames a) (map_type a) (map_perm a) (area_type a) (cow_flag a) (lazy_flag a) (growdown_flag a) (map_file a) (mapping_path a) (file_offset a) (file_zero_start a) (mmap_flags a) (shmid a) x off.

Definition start_vpn a : Z := floor (va_start a).
Definition end_vpn a : Z := ceil (va_end a).

(** [UserMapArea::new]. *)
Definition new_area (s e : Z) (perm : Access) (t : UserMapAreaType) (is_lazy : bool) : UserMapArea :=
  mkArea s e ∅ Framed perm t false is_lazy false None None 0 None MapPrivate None None 0.

(** [metadata_from_another]: everything but the resident frames. *)
Definition metadata_from_another a : UserMapArea := set_frames ∅ a.

(** [MAP_SHARED] mappings and SysV segments; the other areas are private. *)
Definition shared_area a : bool :=
  bool_decide (area_type a = Shm) || (bool_decide (area_type a = Mmap) && bool_decide (mmap_flags a = MapShared)).

Definition tracks_shared_file_dirty a : bool :=
  bool_decide (area_type a = Mmap) && bool_decide (mmap_flags a = MapShared) && bool_decide (is_Some (map_file a)) && acc_w (map_perm a).

Definition initial_mapping_flags a : Access :=
  let f := mapping_flags (map_perm a) in
  if tracks_shared_file_dirty a then mkAcc (acc_r f) false (acc_x f) (acc_u f) else f.

Definition trim_start (new_start : Z) a : option UserMapArea :=
  delta_bytes ← checked_sub new_start (va_start a);
  off ← match map_file a with Some _ => checked_add (file_offset a) delta_bytes | None => Some (file_offset a) end;
  soff ← match shared_anonymous a with
         | Some _ => checked_add (shared_anonymous_offset a) (saturating_sub (floor new_start) (floor (va_start a)))
         | None => Some (shared_anonymous_offset a)
         end;
  Some (set_start new_start (set_shared (shared_anonymous a) soff (set_file (map_file a) (mapping_path a) off a))).

(** [data_frames.retain(|vpn, _| lo <= vpn && vpn < hi)]. *)
Definition retain (lo hi : Z) (m : gmap Z Z) : gmap Z Z := filter (fun kv : Z * Z => lo <= kv.1 < hi) m.
Definition keep_in_range a : UserMapArea := set_frames (retain (start_vpn a) (end_vpn a) (data_frames a)) a.

(** ** Address spaces *)

Record UserVMSet := mkVM { page_table : PageTable; areas : list UserMapArea }.

Implicit Types vs : UserVMSet.
Implicit Types l : list UserMapArea.

(** The loop the searches share: the first index of [left .. right) whose area
    fails [before].  Each turn halves the interval, so [right - left] turns are enough. *)
Fixpoint lower_bound (fuel : nat) (before : UserMapArea -> bool) l (left right : nat) : nat :=
  match fuel with
  | O => left
  | S fuel =>
      if (left <? right)%nat then
        let mid := ((left + right) / 2)%nat in
        match l !! mid with
        | Some a => if before a then lower_bound fuel before l (mid + 1) right else lower_bound fuel before l left mid
        | None => left
        end
      else left
  end.

Definition find_area_index l (va : Z) : option nat :=
  let vpn := floor va in
  let left := lower_bound (length l) (fun a => start_vpn a <=? vpn) l 0 (length l) in
  match left with
  | O => None
  | S idx => match l !! idx with Some a => if vpn <? end_vpn a then Some idx else None | None => None end
  end.

Definition find_area l (va : Z) : option UserMapArea := idx ← find_area_index l va; l !! idx.

Definition first_area_ending_after l (vpn : Z) : nat :=
  lower_bound (length l) (fun a => end_vpn a <=? vpn) l 0 (length l).

Fixpoint start_vpn_search (fuel : nat) l (target : Z) (left right : nat) : option nat :=
  match fuel with
  | O => None
  | S fuel =>
      if (left <? right)%nat then
        let mid := ((left + right) / 2)%nat in
        a ← l !! mid;
        if start_vpn a <? target then start_vpn_search fuel l target (mid + 1) right
        else if target <? start_vpn a then start_vpn_search fuel l target left mid
        else Some mid
      else None
  end.
Definition find_area_start_vpn_index l (target : Z) : option nat := start_vpn_search (length l) l target 0 (length l).

Definition area_insert_index l (start_va : Z) : nat :=
  lower_bound (length l) (fun a => start_vpn a <=? floor start_va) l 0 (length l).

(** [assert_user_area_range]. *)
Definition user_area_range a : bool :=
  (va_start a <? va_end a) && (USER_FIRST <=? va_start a) && (va_end a - 1 <=? USER_LAST).

(** [Vec::insert]. *)
Definition vec_insert {A} (idx : nat) (x : A) (l : list A) : list A := take idx l ++ x :: drop idx l.

Definition insert_area_sorted a l : option (list UserMapArea) :=
  if user_area_range a then Some (vec_insert (area_insert_index l (va_start a)) a l) else None.

Definition page_align_up (addr : Z) : option Z := option_map page_mask (checked_add addr (PAGE_SIZE - 1)).

(** [find_free_area]: the loop over the areas. *)
Fixpoint free_scan (len user_end : Z) l (current : Z) : option Z :=
  match l with
  | [] =>
      current_end ← checked_add current len;
      if current_end <=? user_end then Some current else None
  | a :: l =>
      if end_vpn a * PAGE_SIZE <=? current then free_scan len user_end l current
      else
        current_end ← checked_add current len;
        if current_end <=? start_vpn a * PAGE_SIZE then (if current_end <=? user_end then Some current else None)
        else
          current ← page_align_up (end_vpn a * PAGE_SIZE);
          if user_end <=? current then None else free_scan len user_end l current
  end.

Definition find_free_area l (start len : Z) : option Z :=
  len ← page_align_up len;
  current ← (if start =? 0 then Some MMAP_BASE else page_align_up start);
  free_scan len (USER_LAST + 1) l current.

(** ** Argument checks of the memory system calls *)

Definition page_align_len (len : Z) : SysResult Z :=
  match page_align_up len with
  | Some x => if x =? 0 then Err EINVAL else Ok x
  | None => Err EINVAL
  end.

Definition valid_user_range (s e : Z) : bool := (USER_FIRST <=? s) && (s <? e) && (1 <=? e) && (e - 1 <=? USER_LAST).

Definition vm_range_is_free l (s e : Z) : bool := forallb (fun a => (e <=? va_start a) || (va_end a <=? s)) l.
