(* ===== verification/VmSpec.v ===== *)
(** * Virtual memory: what an address space means

    The invariant of the vector of areas, what a process sees at a page number
    ([view]), and the correctness of the searches: the binary searches find the area
    that a scan of the whole vector finds, an insertion keeps the order, and
    [find_free_area] returns the lowest free range from its hint on. *)

From Stdlib Require Import Sorted.
From stdpp Require Import gmap.
From S2P Require Import Prelude SysErr FrameAlloc Vm.

Implicit Types a b : UserMapArea.
Implicit Types l : list UserMapArea.

(** ** The invariant *)

Definition in_area a (v : Z) : bool := (start_vpn a <=? v) && (v <? end_vpn a).

(** Offsets into a file or into a shared backing stay in range up to the end of the area. *)
Definition offsets_ok a : Prop :=
  (is_Some (map_file a) -> 0 <= file_offset a /\ file_offset a + (end_vpn a - start_vpn a) * PAGE_SIZE < 2 ^ 64) /\
  (is_Some (shared_anonymous a) -> 0 <= shared_anonymous_offset a /\ shared_anonymous_offset a + (end_vpn a - start_vpn a) < 2 ^ 64).

Record area_ok a : Prop := {
  ao_aligned : va_start a mod PAGE_SIZE = 0;
  ao_range : 0 <= va_start a < va_end a;
  ao_user : va_end a <= USER_LAST + 1;
  ao_frames : forall v p, data_frames a !! v = Some p -> in_area a v = true;
  ao_offsets : offsets_ok a }.

Definition before a b : Prop := end_vpn a <= start_vpn b.

Record areas_ok l : Prop := {
  so_sorted : StronglySorted before l;
  so_areas : Forall area_ok l }.

(** ** What a process sees *)

(** The attributes of one page; a file-backed page has its offset in the file, a
    page of a shared anonymous mapping its index in the backing. *)
Record PageInfo := mkPage {
  pg_perm : Access;
  pg_type : UserMapAreaType;
  pg_growdown : bool;
  pg_file : option (Z * Z);
  pg_path : option Z;
  pg_zero : option Z;
  pg_flags : MmapType;
  pg_shmid : option Z;
  pg_shared : option (Z * Z);
  pg_cow : bool;
  pg_frame : option Z }.

Definition page_info a (v : Z) : PageInfo :=
  mkPage (map_perm a) (area_type a) (growdown_flag a)
    (option_map (fun f => (f, file_offset a + (v - start_vpn a) * PAGE_SIZE)) (map_file a))
    (mapping_path a) (file_zero_start a) (mmap_flags a) (shmid a)
    (option_map (fun s => (s, shared_anonymous_offset a + (v - start_vpn a))) (shared_anonymous a))
    (cow_flag a) (data_frames a !! v).

(** The area of a page, by a scan of the whole vector. *)
Definition area_at l (v : Z) : option UserMapArea := List.find (fun a => in_area a v) l.
Definition view l (v : Z) : option PageInfo := option_map (fun a => page_info a v) (area_at l v).
Definition resident l (v : Z) : option Z := a ← area_at l v; data_frames a !! v.

(** ** Arithmetic of pages *)

Lemma floor_page v : floor (v * PAGE_SIZE) = v.
Proof. unfold floor. by rewrite Z.div_mul. Qed.

Lemma ceil_page v : 0 <= v -> ceil (v * PAGE_SIZE) = v.
Proof. intros. unfold ceil, PAGE_SIZE. case_if; zlia. Qed.

Lemma aligned_floor x : x mod PAGE_SIZE = 0 -> floor x * PAGE_SIZE = x.
Proof. unfold floor, PAGE_SIZE. intros. zlia. Qed.

Lemma aligned_ceil x : 0 <= x -> x mod PAGE_SIZE = 0 -> ceil x = floor x.
Proof. unfold floor, ceil, PAGE_SIZE. intros. case_if; zlia. Qed.

Lemma floor_lt_ceil x y : 0 <= x < y -> floor x < ceil y.
Proof. unfold floor, ceil, PAGE_SIZE. intros. case_if; zlia. Qed.

Lemma ceil_le x y : 0 <= x <= y -> ceil x <= ceil y.
Proof. unfold ceil, PAGE_SIZE. intros. repeat case_if; zlia. Qed.

(** An aligned byte range and a range of pages. *)
Lemma ceil_le_aligned x y : 0 <= x -> 0 <= y -> x mod PAGE_SIZE = 0 -> (ceil y <= floor x <-> y <= x).
Proof. unfold floor, ceil, PAGE_SIZE. intros. case_if; split; intros; zlia. Qed.

Lemma page_offset_mod x : page_offset x = x mod PAGE_SIZE.
Proof. unfold page_offset. change (PAGE_SIZE - 1) with (Z.ones 12). rewrite Z.land_ones by lia. done. Qed.

Lemma page_mask_div x : page_mask x = floor x * PAGE_SIZE.
Proof.
  unfold page_mask, floor. change (PAGE_SIZE - 1) with (Z.ones 12). change PAGE_SIZE with (2 ^ 12).
  rewrite <- Z.ldiff_land, Z.ldiff_ones_r, Z.shiftl_mul_pow2, Z.shiftr_div_pow2 by lia. done.
Qed.

Lemma page_align_up_spec x r : 0 <= x -> page_align_up x = Some r ->
  r mod PAGE_SIZE = 0 /\ x <= r < x + PAGE_SIZE /\ r = ceil x * PAGE_SIZE.
Proof.
  unfold page_align_up, checked_add. intros Hx. case_if; [|done]. simpl. intros [= <-].
  rewrite page_mask_div. unfold floor, ceil, PAGE_SIZE in *. case_if; split_and?; zlia.
Qed.

Lemma page_align_up_defined x : 0 <= x < 2 ^ 64 - PAGE_SIZE -> exists r, page_align_up x = Some r.
Proof. intros. unfold page_align_up, checked_add, PAGE_SIZE in *. case_if; [by eexists|lia]. Qed.

(** ** Areas and pages *)

Lemma in_area_spec a v : in_area a v = true <-> start_vpn a <= v < end_vpn a.
Proof. unfold in_area. rewrite andb_true_iff, Z.leb_le, Z.ltb_lt. done. Qed.

Lemma in_area_false a v : in_area a v = false <-> ~ (start_vpn a <= v < end_vpn a).
Proof. rewrite <- in_area_spec. by destruct (in_area a v). Qed.

Lemma area_ok_vpn a : area_ok a -> 0 <= start_vpn a < end_vpn a.
Proof.
  intros H. destruct (ao_range a H). unfold start_vpn, end_vpn. split; [|by apply floor_lt_ceil].
  unfold floor, PAGE_SIZE. zlia.
Qed.

Lemma area_start_page a : area_ok a -> start_vpn a * PAGE_SIZE = va_start a.
Proof. intros H. by apply aligned_floor, (ao_aligned a H). Qed.

Lemma areas_ok_cons a l : areas_ok (a :: l) <-> area_ok a /\ Forall (before a) l /\ areas_ok l.
Proof.
  split.
  - intros [Hs Hf]. inversion Hs; inversion Hf; subst. split_and!; done.
  - intros (Ha & Hb & [Hs Hf]). split; by constructor.
Qed.

Lemma areas_ok_app l1 l2 : areas_ok (l1 ++ l2) <->
  areas_ok l1 /\ areas_ok l2 /\ (forall a b, a ∈ l1 -> b ∈ l2 -> before a b).
Proof.
  induction l1 as [|a l1 IH]; simpl.
  - split; [|tauto]. intros H. split_and!; [by repeat constructor|done|]. intros ? ? H1. by apply not_elem_of_nil in H1.
  - rewrite !areas_ok_cons, IH, Forall_app, !Forall_forall. split.
    + intros (Ha & [H1 H2] & H3 & H4 & H5). split_and!; try done. intros x y [-> | Hx]%elem_of_cons Hy; auto.
    + intros ((Ha & H1 & H3) & H4 & H5). split_and!; try done.
      * intros y Hy. apply H5; [left|done].
      * intros x y Hx Hy. apply H5; [by right|done].
Qed.

Lemma areas_ok_in l a : areas_ok l -> a ∈ l -> area_ok a.
Proof. intros H. pose proof (so_areas l H) as Hf. rewrite Forall_forall in Hf. apply Hf. Qed.

Lemma area_at_cons a l v : area_at (a :: l) v = if in_area a v then Some a else area_at l v.
Proof. done. Qed.

Lemma view_cons a l v : view (a :: l) v = if in_area a v then Some (page_info a v) else view l v.
Proof. unfold view. rewrite area_at_cons. by destruct (in_area a v). Qed.

Lemma area_at_app l1 l2 v : area_at (l1 ++ l2) v = match area_at l1 v with Some a => Some a | None => area_at l2 v end.
Proof. apply find_app_b. Qed.

Lemma view_app l1 l2 v : view (l1 ++ l2) v = match view l1 v with Some x => Some x | None => view l2 v end.
Proof. unfold view. rewrite area_at_app. by destruct (area_at l1 v). Qed.

Lemma view_nil v : view [] v = None.
Proof. done. Qed.

Lemma area_at_Some l v a : area_at l v = Some a -> a ∈ l /\ start_vpn a <= v < end_vpn a.
Proof.
  intros H. apply List.find_some in H as [H1 H2]. split; [by apply list_elem_of_In|by apply in_area_spec].
Qed.

Lemma area_at_None l v : area_at l v = None <-> Forall (fun a => in_area a v = false) l.
Proof.
  rewrite Forall_forall. split.
  - intros H a Ha. apply (List.find_none _ _ H). by apply list_elem_of_In.
  - intros H. apply find_none_b, Forall_forall, H.
Qed.

(** The area of a page is unique, so any area that has the page is the one. *)
Lemma area_at_unique l a v : areas_ok l -> a ∈ l -> in_area a v = true -> area_at l v = Some a.
Proof.
  induction l as [|b l IH]; intros H Ha Hv; [by apply not_elem_of_nil in Ha|].
  apply areas_ok_cons in H as (Hb & Hbl & Hl). rewrite area_at_cons. apply elem_of_cons in Ha as [-> | Ha]; [by rewrite Hv|].
  rewrite Forall_forall in Hbl. specialize (Hbl a Ha). unfold before in Hbl. apply in_area_spec in Hv as Hv'.
  rewrite (proj2 (in_area_false b v)) by lia. by apply IH.
Qed.

Lemma resident_view l v : resident l v = view l v ≫= pg_frame.
Proof. unfold resident, view. by destruct (area_at l v). Qed.

(** ** The binary searches *)

Definition prefix_test (f : UserMapArea -> bool) l : Prop :=
  forall i j a b, (i < j)%nat -> l !! i = Some a -> l !! j = Some b -> f b = true -> f a = true.

Lemma lower_bound_spec fuel f l left right :
  prefix_test f l -> (left <= right <= length l)%nat -> (right - left <= fuel)%nat ->
  (forall i a, (i < left)%nat -> l !! i = Some a -> f a = true) ->
  (forall i a, (right <= i)%nat -> l !! i = Some a -> f a = false) ->
  forall i a, l !! i = Some a -> f a = (i <? lower_bound fuel f l left right)%nat.
Proof.
  intros Hp. revert left right. induction fuel as [|fuel IH]; intros left right Hlr Hfu Hlo Hhi i a Hi; cbn [lower_bound].
  - assert (left = right) as -> by lia. destruct (Nat.ltb_spec i right); eauto.
  - destruct (Nat.ltb_spec left right).
    2: { assert (left = right) as -> by lia. destruct (Nat.ltb_spec i right); eauto. }
    set (mid := ((left + right) / 2)%nat).
    assert (Hm : (left <= mid < right)%nat).
    { subst mid. split; [apply Nat.div_le_lower_bound; lia|apply Nat.Div0.div_lt_upper_bound; lia]. }
    destruct (l !! mid) as [b|] eqn:Eb; [|apply lookup_ge_None in Eb; lia].
    destruct (f b) eqn:Ef; apply IH; try done; try lia.
    + intros j c Hj Hc. destruct (decide (j = mid)) as [-> |]; [congruence|]. apply (Hp j mid c b); auto. lia.
    + intros j c Hj Hc. destruct (decide (j = mid)) as [-> |]; [congruence|].
      destruct (f c) eqn:Ec; [|done]. rewrite (Hp mid j b c) in Ef; [done|lia|done..].
Qed.

Lemma lower_bound_le fuel f l left right :
  (left <= right)%nat -> (left <= lower_bound fuel f l left right <= right)%nat.
Proof.
  revert left right. induction fuel as [|fuel IH]; intros left right H; cbn [lower_bound]; [lia|].
  destruct (Nat.ltb_spec left right); [|lia]. set (mid := ((left + right) / 2)%nat).
  assert (left <= mid < right)%nat.
  { subst mid. split; [apply Nat.div_le_lower_bound; lia|apply Nat.Div0.div_lt_upper_bound; lia]. }
  destruct (l !! mid); [|lia]. case_if; [specialize (IH (mid + 1)%nat right)|specialize (IH left mid)]; lia.
Qed.

Lemma sorted_lookup l i j a b : areas_ok l -> (i < j)%nat -> l !! i = Some a -> l !! j = Some b -> before a b.
Proof.
  intros [Hs _] Hij. revert i j Hij. induction Hs as [|c l Hs IH Hc]; intros i j Hij Hi Hj; [by rewrite lookup_nil in Hi|].
  destruct j as [|j]; [lia|]. simpl in Hj. destruct i as [|i]; simpl in Hi.
  - injection Hi as <-. rewrite Forall_forall in Hc. by apply Hc, list_elem_of_lookup_2 with j.
  - apply (IH i j); auto with lia.
Qed.

Lemma start_prefix l v : areas_ok l -> prefix_test (fun a => start_vpn a <=? v) l.
Proof.
  intros H i j a b Hij Ha Hb. pose proof (sorted_lookup l i j a b H Hij Ha Hb) as Hab. unfold before in Hab.
  pose proof (area_ok_vpn a (areas_ok_in l a H (list_elem_of_lookup_2 _ _ _ Ha))). rewrite !Z.leb_le. lia.
Qed.

Lemma end_prefix l v : areas_ok l -> prefix_test (fun a => end_vpn a <=? v) l.
Proof.
  intros H i j a b Hij Ha Hb. pose proof (sorted_lookup l i j a b H Hij Ha Hb) as Hab. unfold before in Hab.
  pose proof (area_ok_vpn b (areas_ok_in l b H (list_elem_of_lookup_2 _ _ _ Hb))). rewrite !Z.leb_le. lia.
Qed.

Lemma lower_bound_full f l : prefix_test f l ->
  (lower_bound (length l) f l 0 (length l) <= length l)%nat /\
  forall i a, l !! i = Some a -> f a = (i <? lower_bound (length l) f l 0 (length l))%nat.
Proof.
  intros Hp. split; [apply lower_bound_le; lia|]. apply lower_bound_spec; [done|lia..|].
  intros i a Hi Ha. apply lookup_lt_Some in Ha. lia.
Qed.

Lemma find_area_index_spec l va i : areas_ok l ->
  find_area_index l va = Some i <-> exists a, l !! i = Some a /\ in_area a (floor va) = true.
Proof.
  intros Hl. unfold find_area_index. destruct (lower_bound_full _ l (start_prefix l (floor va) Hl)) as [Hr Hs].
  set (r := lower_bound _ _ _ _ _) in *. split.
  - destruct r as [|k]; [done|]. destruct (l !! k) as [a|] eqn:Ek; [|done]. case_if; [|done]. intros [= <-].
    exists a. split; [done|]. apply in_area_spec. specialize (Hs k a Ek). rewrite (proj2 (Nat.ltb_lt _ _)) in Hs by lia.
    apply Z.leb_le in Hs. lia.
  - intros (a & Ha & Hin). apply in_area_spec in Hin. pose proof (Hs i a Ha) as H1.
    rewrite (proj2 (Z.leb_le _ _)) in H1 by lia. symmetry in H1. apply Nat.ltb_lt in H1.
    destruct r as [|k]; [lia|]. destruct (decide (i = k)) as [-> |].
    + rewrite Ha. by rewrite (proj2 (Z.ltb_lt _ _)) by lia.
    + exfalso. assert (Hk : (k < length l)%nat) by lia. apply lookup_lt_is_Some in Hk as [b Hb].
      pose proof (sorted_lookup l i k a b Hl ltac:(lia) Ha Hb) as Hab. unfold before in Hab.
      specialize (Hs k b Hb). rewrite (proj2 (Nat.ltb_lt _ _)) in Hs by lia. apply Z.leb_le in Hs. lia.
Qed.

Lemma find_area_at l va : areas_ok l -> find_area l va = area_at l (floor va).
Proof.
  intros Hl. unfold find_area. destruct (find_area_index l va) as [i|] eqn:E; simpl.
  - apply find_area_index_spec in E as (a & Ha & Hin); [|done]. rewrite Ha. symmetry.
    apply area_at_unique; [done|by apply list_elem_of_lookup_2 in Ha|done].
  - destruct (area_at l (floor va)) as [a|] eqn:Ea; [|done]. exfalso.
    apply area_at_Some in Ea as [Hin Hr]. apply list_elem_of_lookup in Hin as [i Hi].
    assert (find_area_index l va = Some i); [|congruence].
    apply find_area_index_spec; [done|]. exists a. split; [done|by apply in_area_spec].
Qed.

(** [first_area_ending_after] splits the vector into the areas that end at [vpn] or
    before, and the others. *)
Lemma first_area_split l v : areas_ok l ->
  Forall (fun a => end_vpn a <= v) (take (first_area_ending_after l v) l) /\
  Forall (fun a => v < end_vpn a) (drop (first_area_ending_after l v) l).
Proof.
  intros Hl. destruct (lower_bound_full _ l (end_prefix l v Hl)) as [Hr Hs]. unfold first_area_ending_after.
  set (r := lower_bound _ _ _ _ _) in *. rewrite !Forall_lookup. split; intros i a Hi.
  - apply lookup_take_Some in Hi as [Hi Hlt]. specialize (Hs i a Hi). rewrite (proj2 (Nat.ltb_lt _ _)) in Hs by lia.
    by apply Z.leb_le in Hs.
  - rewrite lookup_drop in Hi. specialize (Hs _ a Hi). rewrite (proj2 (Nat.ltb_ge _ _)) in Hs by lia.
    by apply Z.leb_gt in Hs.
Qed.

Lemma start_vpn_search_spec fuel l t left right :
  areas_ok l -> (left <= right <= length l)%nat -> (right - left <= fuel)%nat ->
  (forall i a, (i < left)%nat \/ (right <= i)%nat -> l !! i = Some a -> start_vpn a <> t) ->
  forall i, start_vpn_search fuel l t left right = Some i <-> exists a, l !! i = Some a /\ start_vpn a = t.
Proof.
  intros Hl. revert left right. induction fuel as [|fuel IH]; intros left right Hlr Hfu Hout i; cbn [start_vpn_search].
  - split; [done|]. intros (a & Ha & E). destruct (Hout i a); [lia|done..].
  - destruct (Nat.ltb_spec left right).
    2: { split; [done|]. intros (a & Ha & E). destruct (Hout i a); [lia|done..]. }
    set (mid := ((left + right) / 2)%nat).
    assert (Hm : (left <= mid < right)%nat).
    { subst mid. split; [apply Nat.div_le_lower_bound; lia|apply Nat.Div0.div_lt_upper_bound; lia]. }
    destruct (l !! mid) as [b|] eqn:Eb; [|apply lookup_ge_None in Eb; lia]. cbn [mbind option_bind].
    assert (Hord : forall j c, l !! j = Some c -> ((j < mid)%nat -> start_vpn c < start_vpn b) /\ ((mid < j)%nat -> start_vpn b < start_vpn c)).
    { intros j c Hc. pose proof (area_ok_vpn b (areas_ok_in l b Hl (list_elem_of_lookup_2 _ _ _ Eb))).
      pose proof (area_ok_vpn c (areas_ok_in l c Hl (list_elem_of_lookup_2 _ _ _ Hc))).
      split; intros Hj; [pose proof (sorted_lookup l j mid c b Hl Hj Hc Eb)|pose proof (sorted_lookup l mid j b c Hl Hj Eb Hc)];
        unfold before in *; lia. }
    destruct (Z.ltb_spec (start_vpn b) t); [|destruct (Z.ltb_spec t (start_vpn b))].
    + apply IH; [lia..|]. intros j c Hj Hc. destruct (decide (j < left \/ right <= j)%nat); [by apply (Hout j)|].
      destruct (Hord j c Hc). destruct (decide (j = mid)) as [-> |]; [assert (c = b) as -> by congruence; lia|]. lia.
    + apply IH; [lia..|]. intros j c Hj Hc. destruct (decide (j < left \/ right <= j)%nat); [by apply (Hout j)|].
      destruct (Hord j c Hc). destruct (decide (j = mid)) as [-> |]; [assert (c = b) as -> by congruence; lia|]. lia.
    + assert (start_vpn b = t) by lia. split; [intros [= <-]; by exists b|]. intros (c & Hc & E). f_equal.
      destruct (Hord i c Hc). lia.
Qed.

(** ** Insertion *)

Definition apart a b : Prop := before a b \/ before b a.

Lemma insert_index_split l a : areas_ok l -> area_ok a -> Forall (apart a) l ->
  Forall (fun b => before b a) (take (area_insert_index l (va_start a)) l) /\
  Forall (before a) (drop (area_insert_index l (va_start a)) l).
Proof.
  intros Hl Ha Hap. destruct (lower_bound_full _ l (start_prefix l (start_vpn a) Hl)) as [Hr Hs].
  unfold area_insert_index. fold (start_vpn a). set (r := lower_bound _ _ _ _ _) in *.
  rewrite Forall_lookup in Hap. pose proof (area_ok_vpn a Ha). rewrite !Forall_lookup. split; intros i b Hi.
  - apply lookup_take_Some in Hi as [Hi Hlt]. specialize (Hs i b Hi). rewrite (proj2 (Nat.ltb_lt _ _)) in Hs by lia.
    apply Z.leb_le in Hs. destruct (Hap i b Hi) as [H1|]; [|done]. unfold before in *. lia.
  - rewrite lookup_drop in Hi. specialize (Hs _ b Hi). rewrite (proj2 (Nat.ltb_ge _ _)) in Hs by lia.
    apply Z.leb_gt in Hs. destruct (Hap _ b Hi) as [|H1]; [done|].
    pose proof (area_ok_vpn b (areas_ok_in l b Hl (list_elem_of_lookup_2 _ _ _ Hi))). unfold before in *. lia.
Qed.

Lemma area_ok_user a : area_ok a -> user_area_range a = true.
Proof. intros [_ ? ? _ _]. unfold user_area_range, USER_FIRST. rewrite !andb_true_iff, Z.ltb_lt, !Z.leb_le. lia. Qed.

Lemma insert_sorted_ok l a : areas_ok l -> area_ok a -> Forall (apart a) l ->
  exists l', insert_area_sorted a l = Some l' /\ areas_ok l' /\ l' ≡ₚ a :: l /\
    forall v, view l' v = if in_area a v then Some (page_info a v) else view l v.
Proof.
  intros Hl Ha Hap. destruct (insert_index_split l a Hl Ha Hap) as [H1 H2].
  unfold insert_area_sorted. rewrite (area_ok_user a Ha). eexists. split; [done|]. unfold vec_insert. set (k := area_insert_index _ _) in *.
  rewrite <- (take_drop k l) in Hl. apply areas_ok_app in Hl as (Ht & Hd & Hc). split_and!.
  - apply areas_ok_app. split_and!; [done| |].
    + apply areas_ok_cons. split_and!; done.
    + intros x y Hx Hy. apply elem_of_cons in Hy as [-> | Hy]; [|by apply Hc]. rewrite Forall_forall in H1. by apply H1.
  - rewrite <- (take_drop k l) at 3. by rewrite Permutation_middle.
  - intros v. rewrite <- (take_drop k l) at 3. rewrite !view_app, view_cons. destruct (in_area a v) eqn:E; [|done].
    destruct (view (take k l) v) as [x|] eqn:Ev; [|done]. exfalso. unfold view in Ev.
    destruct (area_at (take k l) v) as [b|] eqn:Eb; [|done]. apply area_at_Some in Eb as [Hb Hv].
    rewrite Forall_forall in H1. specialize (H1 b Hb). unfold before in H1. apply in_area_spec in E. lia.
Qed.

(** ** Free ranges *)

Definition range_free l (s e : Z) : Prop :=
  Forall (fun a => e <= start_vpn a * PAGE_SIZE \/ end_vpn a * PAGE_SIZE <= s) l.

Lemma free_scan_spec len ue l cur : areas_ok l -> 0 < len -> 0 <= cur -> cur mod PAGE_SIZE = 0 -> ue < 2 ^ 60 ->
  match free_scan len ue l cur with
  | Some r => r mod PAGE_SIZE = 0 /\ cur <= r /\ r + len <= ue /\ range_free l r (r + len) /\
              forall c, cur <= c < r -> ~ range_free l c (c + len)
  | None => forall c, cur <= c -> c + len <= ue -> ~ range_free l c (c + len)
  end.
Proof.
  intros Hl Hlen. revert cur. induction l as [|a l IH]; intros cur Hc0 Hca Hue; simpl.
  - unfold checked_add. case_if; simpl; [|intros; lia]. case_if; [|intros; lia].
    split_and!; [done|lia..|constructor|intros; lia].
  - apply areas_ok_cons in Hl as (Ha & Hal & Hl). specialize (IH Hl). pose proof (area_ok_vpn a Ha) as Hv.
    assert (Hu : end_vpn a * PAGE_SIZE <= USER_LAST + 1).
    { pose proof (ao_user a Ha). pose proof (ao_range a Ha). unfold end_vpn, ceil, USER_LAST, PAGE_SIZE in *. case_if; zlia. }
    assert (Htail : forall s e, e <= start_vpn a * PAGE_SIZE -> range_free l s e).
    { intros s e He. apply Forall_forall. intros b Hb. rewrite Forall_forall in Hal. specialize (Hal b Hb). unfold before in Hal.
      left. unfold PAGE_SIZE in *. lia. }
    case_if.
    { specialize (IH cur Hc0 Hca Hue). destruct (free_scan len ue l cur) as [r|].
      - destruct IH as (H1 & H2 & H3 & H4 & H5). split_and!; try done.
        + constructor; [right; lia|done].
        + intros c Hc [_ Hf]%Forall_cons. by apply (H5 c).
      - intros c H1 H2 [_ Hf]%Forall_cons. by apply (IH c). }
    assert (Hjump : forall c, cur <= c -> start_vpn a * PAGE_SIZE < cur + len -> c < end_vpn a * PAGE_SIZE -> ~ range_free (a :: l) c (c + len)).
    { intros c H1 H2 H3 [Hf _]%Forall_cons. lia. }
    unfold checked_add. case_if; simpl; [|intros; lia]. case_if.
    { case_if; [|intros; lia]. split_and!; [done|lia..| |intros; lia]. constructor; [left; lia|apply Htail; lia]. }
    unfold page_align_up, checked_add, USER_LAST, PAGE_SIZE in *. case_if; [|lia]. simpl.
    rewrite page_mask_div. unfold floor, PAGE_SIZE in *.
    assert (En : (end_vpn a * 4096 + (4096 - 1)) / 4096 * 4096 = end_vpn a * 4096) by zlia. rewrite En.
    case_if.
    { intros c H1 H2. apply Hjump; lia. }
    specialize (IH (end_vpn a * 4096) ltac:(lia) ltac:(zlia) Hue). destruct (free_scan len ue l (end_vpn a * 4096)) as [r|].
    + destruct IH as (H1 & H2 & H3 & H4 & H5). split_and!; [done|lia..| |].
      * constructor; [right; unfold PAGE_SIZE; lia|done].
      * intros c Hc. destruct (Z.lt_ge_cases c (end_vpn a * 4096)); [apply Hjump; lia|].
        intros [_ Hf]%Forall_cons. apply (H5 c); [lia|done].
    + intros c H1 H2. destruct (Z.lt_ge_cases c (end_vpn a * 4096)); [apply Hjump; lia|].
      intros [_ Hf]%Forall_cons. apply (IH c); [lia|done..].
Qed.

(** The base the search starts from and the length it looks for. *)
Lemma page_align_up_None x : 0 <= x -> page_align_up x = None -> USER_LAST + 1 < ceil x * PAGE_SIZE.
Proof.
  intros Hx. unfold page_align_up, checked_add. case_if; [done|]. intros _. unfold ceil, USER_LAST, PAGE_SIZE in *. case_if; zlia.
Qed.

Lemma find_free_area_spec l start len : areas_ok l -> 0 <= start -> 0 < len ->
  let n := ceil len * PAGE_SIZE in
  let base := if start =? 0 then MMAP_BASE else ceil start * PAGE_SIZE in
  match find_free_area l start len with
  | Some r => r mod PAGE_SIZE = 0 /\ base <= r /\ r + n <= USER_LAST + 1 /\ range_free l r (r + n) /\
              forall c, base <= c < r -> ~ range_free l c (c + n)
  | None => forall c, base <= c -> c + n <= USER_LAST + 1 -> ~ range_free l c (c + n)
  end.
Proof.
  intros Hl Hs Hlen n base. unfold find_free_area.
  assert (Hb0 : 0 <= base) by (subst base; case_if; unfold MMAP_BASE, ceil, PAGE_SIZE; [lia|case_if; zlia]).
  assert (Hn0 : 0 < n) by (subst n; unfold ceil, PAGE_SIZE; case_if; zlia).
  destruct (page_align_up len) as [x|] eqn:Hx; simpl; [|apply page_align_up_None in Hx; [intros; subst n; lia|lia]].
  apply page_align_up_spec in Hx as (Hx1 & Hx2 & Hx3); [|lia]. fold n in Hx3. subst x.
  destruct (if start =? 0 then Some MMAP_BASE else page_align_up start) as [y|] eqn:Ey; simpl.
  - assert (Hb : y = base /\ y mod PAGE_SIZE = 0).
    { subst base. destruct (Z.eqb_spec start 0); [by injection Ey as <-|]. apply page_align_up_spec in Ey as (? & ? & ?); [done|lia]. }
    destruct Hb as [-> Hy]. apply free_scan_spec; try done; unfold PAGE_SIZE, USER_LAST in *; lia.
  - subst base. destruct (start =? 0) eqn:E0; [done|]. apply page_align_up_None in Ey; [|lia]. intros. lia.
Qed.

(** ** Page tables *)

(** The access a page-table entry may give to a page of an area; an executable page
    is also readable. *)
Definition grants (i : PageInfo) (f : Access) : Prop :=
  (acc_w f = true -> acc_w (pg_perm i) = true) /\
  (acc_x f = true -> acc_x (pg_perm i) = true) /\
  (acc_r f = true -> acc_r (pg_perm i) || acc_w (pg_perm i) || acc_x (pg_perm i) = true).

(** The areas and the page table agree: a resident page has an entry for its frame,
    an entry that gives any access belongs to a resident page, and gives no more than
    the area does. *)
Record vm_ok (vs : UserVMSet) : Prop := {
  vo_areas : areas_ok (areas vs);
  vo_resident : forall v p, resident (areas vs) v = Some p -> exists f, page_table vs !! v = Some (mkPTE p f);
  vo_mapped : forall v e, translate (page_table vs) v = Some e -> resident (areas vs) v = Some (pte_ppn e);
  vo_access : forall v e i, translate (page_table vs) v = Some e -> view (areas vs) v = Some i -> grants i (pte_acc e) }.

Lemma translate_Some (pt : PageTable) v e : translate pt v = Some e <-> pt !! v = Some e /\ is_table e = false.
Proof.
  unfold translate. destruct (pt !! v) as [x|]; [|by split; [|intros [? ?]]].
  destruct (is_table x) eqn:E; split; [done|intros [[= ->] ?]; congruence|intros [= ->]; done|intros [[= ->] ?]; done].
Qed.

(** An operation that leaves each page as it was, or takes its frame away. *)
Lemma vm_ok_restrict vs vs' : vm_ok vs -> areas_ok (areas vs') ->
  (forall v, (view (areas vs') v = view (areas vs) v /\ page_table vs' !! v = page_table vs !! v) \/
             (resident (areas vs') v = None /\ translate (page_table vs') v = None)) -> vm_ok vs'.
Proof.
  intros [_ Hr Hm Ha] Hl Hv. split; [done|..].
  - intros v p Hp. destruct (Hv v) as [[E1 E2]|[E _]]; [|congruence]. rewrite resident_view, E1, <- resident_view in Hp.
    rewrite E2. by apply Hr.
  - intros v e He. destruct (Hv v) as [[E1 E2]|[_ E]]; [|congruence]. rewrite resident_view, E1, <- resident_view. apply Hm.
    unfold translate in *. by rewrite <- E2.
  - intros v e i He Hi. destruct (Hv v) as [[E1 E2]|[_ E]]; [|congruence]. apply (Ha v); [|by rewrite <- E1].
    unfold translate in *. by rewrite <- E2.
Qed.
