(* ===== verification/VmSys.v ===== *)
(** * Virtual memory: the system calls on one address space

    [os/src/syscall/mm.rs] ([munmap], [mprotect], [mremap], [madvise], the address
    choice and the area of [mmap]) and [brk] of [os/src/syscall/process.rs] with
    [os/src/mm/heap.rs].  The code holds the lock of the address space throughout.
    [None] is a panic; a call returns the new address space, the frames it retired
    (dropped after the translations are gone) and the result. *)

From stdpp Require Import gmap.
From S2P Require Import Prelude SysErr FrameAlloc Vm.

Implicit Types a b : UserMapArea.
Implicit Types l : list UserMapArea.
Implicit Types vs : UserVMSet.
Implicit Types pt : PageTable.

(** [VPNRange::new(lo, hi)]. *)
Definition vpn_range (lo hi : Z) : list Z := seqZ lo (hi - lo).

(** ** Unmapping a range *)

Definition trimmable (t : UserMapAreaType) : bool :=
  match t with Elf | Stack | Heap | Mmap | Shm => true | TrapContext | RtSigreturnTrampoline => false end.

(** One area's pages leave its frames and the page table. *)
Fixpoint drop_pages pt (m : gmap Z Z) (retired : list Z) (vpns : list Z) : option (PageTable * gmap Z Z * list Z) :=
  match vpns with
  | [] => Some (pt, m, retired)
  | v :: vpns =>
      match m !! v with
      | Some p => pt ← unmap_page pt v; drop_pages pt (delete v m) (retired ++ [p]) vpns
      | None => drop_pages pt m retired vpns
      end
  end.

(** What [trim_user_range] has done so far; [tr_released] are the SysV areas it
    handed to [release_shm_attaches]. *)
Record Trim := mkTrim { tr_pt : PageTable; tr_retired : list Z; tr_released : list UserMapArea }.

(** The body of the loop for the area at [idx]: the areas that stay in its place. *)
Definition trim_area (s e : Z) a (t : Trim) : option (list UserMapArea * Trim) :=
  if negb (trimmable (area_type a)) then Some ([a], t)
  else
    let overlap_start := Z.max s (va_start a) in
    let overlap_end := Z.min e (va_end a) in
    if overlap_end <=? overlap_start then Some ([a], t)
    else
      '(pt, m, retired) ← drop_pages (tr_pt t) (data_frames a) (tr_retired t) (vpn_range (floor overlap_start) (ceil overlap_end));
      let t' := mkTrim pt retired (tr_released t) in
      let a' := set_frames m a in
      if (overlap_start =? va_start a) && (overlap_end =? va_end a) then
        Some ([], if bool_decide (area_type a = Shm) then mkTrim pt retired (tr_released t ++ [a']) else t')
      else if overlap_start =? va_start a then
        a' ← trim_start overlap_end a';
        Some ([keep_in_range a'], t')
      else if overlap_end =? va_end a then
        Some ([keep_in_range (set_end overlap_start a')], t')
      else
        rgt ← trim_start overlap_end a';
        Some ([keep_in_range (set_end overlap_start a'); keep_in_range (set_end (va_end a) rgt)], t').

Fixpoint trim_areas (s e : Z) l (t : Trim) : option (list UserMapArea * Trim) :=
  match l with
  | [] => Some ([], t)
  | a :: l =>
      '(kept, t) ← trim_area s e a t;
      '(rest, t) ← trim_areas s e l t;
      Some (kept ++ rest, t)
  end.

Definition trim_user_range vs (s e : Z) : option (UserVMSet * list Z * list UserMapArea) :=
  '(l, t) ← trim_areas s e (areas vs) (mkTrim (page_table vs) [] []);
  Some (mkVM (tr_pt t) l, tr_retired t, tr_released t).

(** What a memory call leaves: the address space, the retired frames, the detached
    SysV areas, the result. *)
Record Outcome := mkOut { out_vs : UserVMSet; out_retired : list Z; out_released : list UserMapArea; out_result : SysResult Z }.
Definition fail_out vs (err : SysError) : option Outcome := Some (mkOut vs [] [] (Err err)).
Definition ok_out vs (r : Z) : option Outcome := Some (mkOut vs [] [] (Ok r)).

Definition sys_munmap vs (start len : Z) : option Outcome :=
  if (len =? 0) || negb (page_offset start =? 0) then fail_out vs EINVAL
  else match page_align_len len with
  | Err err => fail_out vs err
  | Ok n =>
      match checked_add start n with
      | None => fail_out vs EINVAL
      | Some e =>
          if negb (valid_user_range start e) then fail_out vs EINVAL
          else '(vs, retired, released) ← trim_user_range vs start e; Some (mkOut vs retired released (Ok 0))
      end
  end.

(** ** Changing the protection of a range *)

(** [strong_count]: the number of references to a frame ([Arc::strong_count]). *)
Section Mprotect.
Context (strong_count : Z -> Z).

Definition frames_shared (m : gmap Z Z) : bool := existsb (fun kv : Z * Z => 1 <? strong_count kv.2) (map_to_list m).

Definition area_needs_mprotect_cow a (new_perm : Access) : bool :=
  if negb (acc_w new_perm) then false
  else if bool_decide (area_type a = Shm) then false
  else if bool_decide (area_type a = Mmap) && bool_decide (mmap_flags a = MapShared) then false
  else frames_shared (data_frames a).

Definition area_pte_flags a : Access :=
  pte_flags (if cow_flag a && acc_w (map_perm a) then cow_mapping_flags (map_perm a) else initial_mapping_flags a).

Definition mprotect_area_state_needs_update a (new_perm : Access) : bool :=
  if negb (bool_decide (map_perm a = new_perm)) then true
  else if negb (acc_w new_perm) then cow_flag a
  else negb (cow_flag a) && area_needs_mprotect_cow a new_perm.

Definition apply_mprotect_area_state a (new_perm : Access) : UserMapArea :=
  let a := set_perm new_perm a in
  if negb (acc_w new_perm) then set_cow false a
  else if area_needs_mprotect_cow a new_perm then set_cow true a
  else a.

(** [split_mprotect_area]: [data_frames.split_off] at both ends of the overlap. *)
Definition split_mprotect_area a (os oe : Z) (new_perm : Access) : option (list UserMapArea * UserMapArea * list UserMapArea) :=
  let meta := metadata_from_another a in
  let below := filter (fun kv : Z * Z => kv.1 < os) (data_frames a) in
  let middle := filter (fun kv : Z * Z => os <= kv.1 < oe) (data_frames a) in
  let above := filter (fun kv : Z * Z => os <= kv.1 /\ oe <= kv.1) (data_frames a) in
  lft ← Some (if start_vpn a <? os then [set_frames below (set_end (os * PAGE_SIZE) meta)] else []);
  rgt ← (if oe <? end_vpn a then r ← trim_start (oe * PAGE_SIZE) meta; Some [set_frames above r] else Some []);
  a' ← trim_start (os * PAGE_SIZE) a;
  Some (lft, apply_mprotect_area_state (set_frames middle (set_end (oe * PAGE_SIZE) a')) new_perm, rgt).

Definition same_file_backing a b : bool :=
  match map_file a, map_file b with
  | None, None => true
  | Some f, Some g => (f =? g) && bool_decide (checked_add (file_offset a) (va_end a - va_start a) = Some (file_offset b))
  | _, _ => false
  end.

Definition same_shared_anonymous_backing a b : bool :=
  match shared_anonymous a, shared_anonymous b with
  | None, None => true
  | Some f, Some g => (f =? g) && bool_decide (checked_add (shared_anonymous_offset a) (end_vpn a - start_vpn a) = Some (shared_anonymous_offset b))
  | _, _ => false
  end.

Definition mprotect_area_metadata_mergeable a b : bool :=
  bool_decide (area_type a = Mmap) && bool_decide (area_type b = Mmap) && (va_end a =? va_start b) &&
  bool_decide (map_type a = map_type b) && eqb (lazy_flag a) (lazy_flag b) && eqb (growdown_flag a) (growdown_flag b) &&
  bool_decide (mmap_flags a = mmap_flags b) && bool_decide (shmid a = shmid b) && bool_decide (file_zero_start a = file_zero_start b) &&
  bool_decide (mapping_path a = mapping_path b) && same_file_backing a b && same_shared_anonymous_backing a b.

Definition mprotect_areas_mergeable_with_state a b (perm : Access) (cow : bool) : bool :=
  mprotect_area_metadata_mergeable a b && bool_decide (map_perm a = perm) && eqb (cow_flag a) cow.

Definition mprotect_areas_state_mergeable a b : bool := mprotect_areas_mergeable_with_state a b (map_perm b) (cow_flag b).

(** [BTreeMap::append]. *)
Definition merge_into a b : UserMapArea := set_frames (data_frames b ∪ data_frames a) (set_end (va_end b) a).

(** [merge_mprotect_areas] from the area [a] on. *)
Fixpoint merge_from (last : Z) a l : list UserMapArea :=
  match l with
  | [] => [a]
  | b :: l =>
      if start_vpn a <=? last then
        if mprotect_areas_state_mergeable a b then merge_from last (merge_into a b) l else a :: merge_from last b l
      else a :: b :: l
  end.
Definition merge_mprotect_areas l (index : nat) (last : Z) : list UserMapArea :=
  take index l ++ match drop index l with [] => [] | a :: rest => merge_from last a rest end.

Definition mprotect_range_needs_cow a (lo hi : Z) (new_perm : Access) : bool :=
  if negb (acc_w new_perm) || bool_decide (area_type a = Shm) || (bool_decide (area_type a = Mmap) && bool_decide (mmap_flags a = MapShared))
  then false else frames_shared (retain lo hi (data_frames a)).

(** [try_expand_mprotect_prefix] with the previous area [prev]: both areas with the
    boundary moved; the inner [None] is "not possible". *)
Definition try_expand_mprotect_prefix (prev : option UserMapArea) a (os oe : Z) (new_perm : Access) : option (option (UserMapArea * UserMapArea)) :=
  match prev with
  | None => Some None
  | Some lft =>
      if negb (os =? start_vpn a) || (end_vpn a <=? oe) then Some None
      else if negb (mprotect_areas_mergeable_with_state lft a new_perm (mprotect_range_needs_cow a os oe new_perm)) then Some None
      else
        let prefix := filter (fun kv : Z * Z => kv.1 < oe) (data_frames a) in
        let rest := filter (fun kv : Z * Z => oe <= kv.1) (data_frames a) in
        rgt ← trim_start (oe * PAGE_SIZE) (set_frames rest a);
        Some (Some (set_end (oe * PAGE_SIZE) (set_frames (prefix ∪ data_frames lft) lft), rgt))
  end.

(** The update loop: [passed] are the areas before index [i], nearest first.  A
    prefix extension does not advance, so the loop runs once more on what is left of
    the area: one turn more than there are areas is enough. *)
Fixpoint mprotect_update (fuel : nat) (s e : Z) (new_perm : Access) (passed l : list UserMapArea) (merge : bool) :
    option (list UserMapArea * bool) :=
  match fuel with
  | O => None
  | S fuel =>
      match l with
      | [] => Some (rev passed, merge)
      | a :: rest =>
          if e <=? start_vpn a then Some (rev passed ++ l, merge)
          else if negb (mprotect_area_state_needs_update a new_perm) then mprotect_update fuel s e new_perm (a :: passed) rest merge
          else
            let os := Z.max s (start_vpn a) in
            let oe := Z.min e (end_vpn a) in
            if (os =? start_vpn a) && (oe =? end_vpn a)
            then mprotect_update fuel s e new_perm (apply_mprotect_area_state a new_perm :: passed) rest true
            else
              ext ← try_expand_mprotect_prefix (head passed) a os oe new_perm;
              match ext with
              | Some (lft, rgt) => mprotect_update fuel s e new_perm (lft :: tail passed) (rgt :: rest) merge
              | None =>
                  '(lft, middle, rgt) ← split_mprotect_area a os oe new_perm;
                  mprotect_update fuel s e new_perm (rgt ++ middle :: lft ++ passed) rest true
              end
      end
  end.

(** The preflight: every page of the range is mapped, and no sealed file gets a
    writable shared mapping.  [sealed f]: [F_SEAL_WRITE] of the file. *)
Fixpoint mprotect_preflight (sealed : Z -> bool) (e : Z) (new_perm : Access) l (covered : Z) : SysResult Z :=
  match l with
  | [] => Ok covered
  | a :: l =>
      if e <=? covered then Ok covered
      else if covered <? start_vpn a then Ok covered
      else if acc_w new_perm && bool_decide (mmap_flags a = MapShared) && match map_file a with Some f => sealed f | None => false end
      then Err EPERM
      else mprotect_preflight sealed e new_perm l (end_vpn a)
  end.

(** The flags of the resident pages, and what has to be flushed. *)
Definition pte_change_requires_remote_shootdown (old new : Access) : bool :=
  (acc_r old && negb (acc_r new)) || (acc_w old && negb (acc_w new)) || (acc_x old && negb (acc_x new)) || (acc_u old && negb (acc_u new)).

Record Walk := mkWalk { wk_pt : PageTable; wk_changed : bool; wk_remote : bool; wk_isync : bool }.

Definition walk_page (new : Access) (w : Walk) (vpn : Z) : Walk :=
  match wk_pt w !! vpn with
  | Some pte =>
      let old := pte_acc pte in
      if bool_decide (old = new) then w
      else mkWalk (set_pte_flags (wk_pt w) vpn new) true
             (wk_remote w || pte_change_requires_remote_shootdown old new)
             (wk_isync w || (negb (acc_x old) && acc_x new))
  | None => w
  end.

Fixpoint walk_areas (s e : Z) l (w : Walk) : Walk :=
  match l with
  | [] => w
  | a :: l =>
      if e <=? start_vpn a then w
      else if end_vpn a <=? s then walk_areas s e l w
      else walk_areas s e l
             (fold_left (walk_page (area_pte_flags a))
                (map_to_list (retain (Z.max s (start_vpn a)) (Z.min e (end_vpn a)) (data_frames a))).*1 w)
  end.

Inductive TlbKind := TlbNone | TlbIcache | TlbRemote | TlbLocal.
Definition tlb_kind (w : Walk) : TlbKind :=
  if wk_isync w then TlbIcache else if wk_remote w then TlbRemote else if wk_changed w then TlbLocal else TlbNone.

(** Everything after the preflight. *)
Definition mprotect_apply vs (s e : Z) (new_perm : Access) : option (UserVMSet * TlbKind) :=
  let first := first_area_ending_after (areas vs) s in
  '(l, merge) ← mprotect_update (S (length (areas vs))) s e new_perm (rev (take first (areas vs))) (drop first (areas vs)) false;
  let l := if merge : bool then merge_mprotect_areas l (first - 1) e else l in
  let w := walk_areas s e (drop (first - 1) l) (mkWalk (page_table vs) false false false) in
  Some (mkVM (wk_pt w) l, tlb_kind w).

Definition sys_mprotect_inner (sealed : Z -> bool) vs (start len prot : Z) : option (UserVMSet * TlbKind * SysResult Z) :=
  let fail err := Some (vs, TlbNone, Err err) in
  if len =? 0 then Some (vs, TlbNone, Ok 0)
  else if negb (page_offset start =? 0) then fail EINVAL
  else if negb (Z.land prot (Z.lnot 7) =? 0) then fail EINVAL
  else match page_align_up len with
  | None => fail ENOMEM
  | Some n =>
      if n =? 0 then fail ENOMEM
      else match checked_add start n with
      | None => fail ENOMEM
      | Some e =>
          if (e <=? start) || negb (valid_user_range start e) then fail ENOMEM
          else
            let s := floor start in
            let e := ceil e in
            let new_perm := from_prot prot in
            match mprotect_preflight sealed e new_perm (drop (first_area_ending_after (areas vs) s) (areas vs)) s with
            | Err err => fail err
            | Ok covered => if covered <? e then fail ENOMEM else '(vs, k) ← mprotect_apply vs s e new_perm; Some (vs, k, Ok 0)
            end
      end
  end.

End Mprotect.

(** ** Moving a mapping *)

Definition mremap_source l (s e : Z) : option nat :=
  position (fun a => bool_decide (area_type a = Mmap) && (va_start a <=? s) && (e <=? va_end a)) l.

(** [take_mremap_range]: the part [[s, e)] of its area, the parts around it stay. *)
Definition take_mremap_range l (s e : Z) : option (list UserMapArea * SysResult UserMapArea) :=
  match mremap_source l s e with
  | None => Some (l, Err EFAULT)
  | Some idx =>
      a ← l !! idx;
      match checked_add (file_offset a) (s - va_start a), checked_add (file_offset a) (e - va_start a) with
      | Some middle_offset, Some right_offset =>
          let l := take idx l ++ drop (S idx) l in
          let lft := if va_start a <? s then Some (keep_in_range (set_end s a)) else None in
          rgt ← (if e <? va_end a
                   then r ← trim_start e a; Some (Some (keep_in_range (set_file (map_file r) (mapping_path r) right_offset r)))
                   else Some None);
          mid ← (if va_start a <? s
                 then r ← trim_start s a; Some (set_file (map_file r) (mapping_path r) middle_offset r)
                 else Some a);
          let mid := keep_in_range (set_end e mid) in
          l ← match lft with Some b => insert_area_sorted b l | None => Some l end;
          l ← match rgt with Some b => insert_area_sorted b l | None => Some l end;
          Some (l, Ok mid)
      | _, _ => Some (l, Err EOVERFLOW)
      end
  end.

Definition unmap_translated pt (vpns : list Z) : option PageTable :=
  fold_left (fun opt v => pt ← opt; match translate pt v with Some _ => unmap_page pt v | None => Some pt end) vpns (Some pt).

(** One resident page finds its new place, or retires. *)
Definition relocate_page (old_first new_first pages : Z) (f : Access) (st : PageTable * gmap Z Z * list Z) (kv : Z * Z) : PageTable * gmap Z Z * list Z :=
  let '(pt, m, retired) := st in
  let rel := saturating_sub kv.1 old_first in
  if pages <=? rel then (pt, m, retired ++ [kv.2])
  else (map_page pt (new_first + rel) kv.2 f, <[new_first + rel := kv.2]> m, retired).

Definition relocate_mremap_area pt a (old_start new_start new_len : Z) : option (PageTable * UserMapArea * list Z) :=
  let pages := new_len / PAGE_SIZE in
  let f := if cow_flag a && acc_w (map_perm a) then cow_mapping_flags (map_perm a) else mapping_flags (map_perm a) in
  let frames := map_to_list (data_frames a) in
  pt ← unmap_translated pt frames.*1;
  let '(pt, m, retired) := fold_left (relocate_page (floor old_start) (floor new_start) pages f) frames (pt, ∅, []) in
  let a := set_end (new_start + new_len) (set_start new_start (set_frames m a)) in
  Some (pt, set_lazy (Z.of_nat (size m) <? pages) a, retired).

Definition MREMAP_MAYMOVE : Z := 1.
Definition MREMAP_FIXED : Z := 2.
Definition MREMAP_DONTUNMAP : Z := 4.
Definition flag_set (flags bit : Z) : bool := negb (Z.land flags bit =? 0).

(** The move of [sys_mremap], once the target is known. *)
Definition mremap_move vs (old_address old_end target new_len : Z) (dontunmap : bool) (retired : list Z) (released : list UserMapArea) : option Outcome :=
  '(l, taken) ← take_mremap_range (areas vs) old_address old_end;
  match taken with
  | Err err => Some (mkOut (mkVM (page_table vs) l) retired released (Err err))
  | Ok a =>
      '(pt, a', more) ← relocate_mremap_area (page_table vs) a old_address target new_len;
      l ← insert_area_sorted a' l;
      l ← (if dontunmap then insert_area_sorted (set_lazy true (metadata_from_another a)) l else Some l);
      Some (mkOut (mkVM pt l) (retired ++ more) released (Ok target))
  end.

(** The checks of the arguments: the rounded lengths and the end of the source. *)
Definition mremap_args (old_address old_size new_size flags : Z) : SysResult (Z * Z * Z) :=
  if negb (page_offset old_address =? 0) || (old_size =? 0) || (new_size =? 0) || negb (Z.land flags (Z.lnot 7) =? 0)
     || (flag_set flags MREMAP_FIXED && negb (flag_set flags MREMAP_MAYMOVE))
     || (flag_set flags MREMAP_DONTUNMAP && negb (flag_set flags MREMAP_MAYMOVE)) then Err EINVAL
  else
    let? old_len := page_align_len old_size in
    let? new_len := page_align_len new_size in
    if flag_set flags MREMAP_DONTUNMAP && negb (old_len =? new_len) then Err EINVAL
    else match checked_add old_address old_len with
    | None => Err EINVAL
    | Some old_end => if negb (valid_user_range old_address old_end) then Err EFAULT else Ok (old_len, new_len, old_end)
    end.

(** The cases that stay in place, [None] when the mapping has to move. *)
Definition mremap_in_place vs (idx : nat) (old_address old_len new_len old_end : Z) : option (option Outcome) :=
  if new_len =? old_len then Some (ok_out vs old_address)
  else if new_len <? old_len then
    '(vs, retired, released) ← trim_user_range vs (old_address + new_len) old_end;
    Some (Some (mkOut vs retired released (Ok old_address)))
  else
    a ← areas vs !! idx;
    match checked_add old_address new_len with
    | None => Some (fail_out vs ENOMEM)
    | Some new_end =>
        if (va_end a =? old_end) && valid_user_range old_address new_end && vm_range_is_free (areas vs) old_end new_end
        then Some (ok_out (mkVM (page_table vs) (<[idx := set_lazy true (set_end new_end a)]> (areas vs))) old_address)
        else Some None
    end.

Definition mremap_relocate vs (old_address old_end new_len flags new_address : Z) : option Outcome :=
  if negb (flag_set flags MREMAP_MAYMOVE) then fail_out vs ENOMEM
  else if flag_set flags MREMAP_FIXED then
    if negb (page_offset new_address =? 0) then fail_out vs EINVAL
    else match checked_add new_address new_len with
    | None => fail_out vs ENOMEM
    | Some target_end =>
        if negb (valid_user_range new_address target_end) || ((new_address <? old_end) && (old_address <? target_end)) then fail_out vs EINVAL
        else
          '(vs, retired, released) ← trim_user_range vs new_address target_end;
          if negb (vm_range_is_free (areas vs) new_address target_end) then Some (mkOut vs retired released (Err EINVAL))
          else mremap_move vs old_address old_end new_address new_len (flag_set flags MREMAP_DONTUNMAP) retired released
    end
  else match find_free_area (areas vs) 0 new_len with
  | None => fail_out vs ENOMEM
  | Some target => mremap_move vs old_address old_end target new_len (flag_set flags MREMAP_DONTUNMAP) [] []
  end.

Definition sys_mremap vs (old_address old_size new_size flags new_address : Z) : option Outcome :=
  match mremap_args old_address old_size new_size flags with
  | Err err => fail_out vs err
  | Ok (old_len, new_len, old_end) =>
      match mremap_source (areas vs) old_address old_end with
      | None => fail_out vs EFAULT
      | Some idx =>
          placed ← (if Z.land flags (Z.lor MREMAP_FIXED MREMAP_DONTUNMAP) =? 0
                    then mremap_in_place vs idx old_address old_len new_len old_end else Some None);
          match placed with
          | Some out => Some out
          | None => mremap_relocate vs old_address old_end new_len flags new_address
          end
      end
  end.

(** ** Discarding pages *)

Definition MADV_DONTNEED : Z := 4.
Definition MADV_FREE : Z := 8.
Definition madvise_hints : list Z := [0; 1; 2; 3; 14; 15; 21].

(** How far the areas cover the range from its start on. *)
Fixpoint madvise_covered (e : Z) l (covered : Z) : Z :=
  match l with
  | [] => covered
  | a :: l =>
      if end_vpn a <=? covered then madvise_covered e l covered
      else if covered <? start_vpn a then covered
      else if e <=? end_vpn a then end_vpn a else madvise_covered e l (end_vpn a)
  end.

Definition madvise_supported (advice s e : Z) a : bool :=
  (end_vpn a <=? s) || (e <=? start_vpn a) ||
  (match area_type a with Heap | Stack | Mmap => true | _ => false end && bool_decide (shared_anonymous a = None) &&
   negb ((advice =? MADV_FREE) && (negb (bool_decide (area_type a = Mmap)) || bool_decide (is_Some (map_file a)) || bool_decide (mmap_flags a = MapShared)))).

(** The frames of the range leave the area. *)
Definition madvise_area (s e : Z) a : UserMapArea * list (Z * Z) :=
  let first := Z.max (start_vpn a) s in
  let last := Z.min (end_vpn a) e in
  if last <=? first then (a, [])
  else (set_lazy true (set_frames (filter (fun kv : Z * Z => ~ first <= kv.1 < last) (data_frames a)) a),
        map_to_list (retain first last (data_frames a))).

Definition sys_madvice vs (addr len advice : Z) : option Outcome :=
  if len =? 0 then fail_out vs EINVAL
  else if negb (page_offset addr =? 0) then fail_out vs EINVAL
  else match page_align_up len ≫= checked_add addr with
  | None => fail_out vs EINVAL
  | Some e =>
      let s := floor addr in
      let e := ceil e in
      if madvise_covered e (areas vs) s <? e then fail_out vs ENOMEM
      else if bool_decide (advice ∈ madvise_hints) then ok_out vs 0
      else if (advice =? MADV_DONTNEED) || (advice =? MADV_FREE) then
        if negb (forallb (madvise_supported advice s e) (areas vs)) then fail_out vs EINVAL
        else
          let rs := map (madvise_area s e) (areas vs) in
          let removed := concat rs.*2 in
          pt ← unmap_translated (page_table vs) removed.*1;
          Some (mkOut (mkVM pt rs.*1) removed.*2 [] (Ok 0))
      else fail_out vs EINVAL
  end.

(** ** New mappings *)

(** What [sys_mmap] asks of the open file. *)
Inductive FileKind := RegularFile | CharDevice | BlockDevice | OtherFile.
Record MmapFile := mkMF { mf_id : Z; mf_path : Z; mf_kind : option FileKind; mf_cached : bool; mf_readable : bool; mf_writable : bool; mf_sealed : bool }.

#[export] Instance FileKind_eq_dec : EqDecision FileKind.
Proof. solve_decision. Defined.

Definition MAP_SHARED : Z := 0x1.
Definition MAP_PRIVATE : Z := 0x2.
Definition MAP_FIXED : Z := 0x10.
Definition MAP_ANONYMOUS : Z := 0x20.
Definition MAP_FIXED_NOREPLACE : Z := 0x100000.
Definition MAP_GROWSDOWN : Z := 0x100.
Definition MAP_POPULATE : Z := 0x2000.
Definition MAP_NONBLOCK : Z := 0x400.
Definition PROT_WRITE : Z := 0x2.

(** The area [insert_framed_area] builds for a mapping; [backing] is the identity of
    the object [enable_shared_anonymous] creates. *)
Definition mmap_new_area (s e : Z) (perm : Access) (file : option Z) (offset flags backing : Z) : UserMapArea :=
  let kind := if Z.land flags 3 =? 1 then MapShared else MapPrivate in
  let a := set_flags kind (set_file file None offset (new_area s e perm Mmap true)) in
  let a := if bool_decide (is_Some file) && bool_decide (kind = MapPrivate) && acc_w perm then set_cow true a else a in
  if bool_decide (file = None) && bool_decide (kind = MapShared) then set_shared (Some backing) 0 a else a.

(** [find_area(start_va)] of the new area, and its update. *)
Definition update_area l (va : Z) (f : UserMapArea -> UserMapArea) : list UserMapArea :=
  match find_area_index l va with Some i => alter f i l | None => l end.

(** The checks on the file of a file mapping. *)
Definition mmap_file_check (file : MmapFile) (prot flags : Z) : SysResult unit :=
  let regular := bool_decide (mf_kind file = Some RegularFile) in
  match mf_kind file with
  | None => Err ENODEV
  | Some kind =>
      if flag_set flags MAP_POPULATE && negb regular then Err ENOENT
      else if flag_set flags MAP_NONBLOCK && negb regular then Err ENOENT
      else if bool_decide (kind = OtherFile) then Err ENODEV
      else if regular && negb (mf_cached file) then Err ENODEV
      else if negb (mf_readable file) then Err EACCES
      else if flag_set prot PROT_WRITE && flag_set flags MAP_SHARED && negb (mf_writable file) then Err EACCES
      else if flag_set prot PROT_WRITE && flag_set flags MAP_SHARED && mf_sealed file then Err EPERM
      else Ok tt
  end.

(** The address range, after the checks of the arguments. *)
Definition mmap_target l (start len flags offset : Z) : SysResult (Z * Z) :=
  let fixed := negb (Z.land flags (Z.lor MAP_FIXED MAP_FIXED_NOREPLACE) =? 0) in
  let anon := flag_set flags MAP_ANONYMOUS in
  if len =? 0 then Err EINVAL
  else if Z.land flags (Z.lor MAP_SHARED MAP_PRIVATE) =? 0 then Err EINVAL
  else if fixed && negb (page_offset start =? 0) then Err EINVAL
  else if negb anon && negb (page_offset offset =? 0) then Err EINVAL
  else match page_align_up len with
  | None => Err ENOMEM
  | Some n =>
      if negb anon && bool_decide (checked_add offset n = None) then Err EOVERFLOW
      else match checked_add start n with
      | None => Err ENOMEM
      | Some end_req =>
          if end_req =? 0 then Err ENOMEM
          else
            match (if fixed then Some start else find_free_area l (if start =? 0 then 0 else page_mask start) n) with
            | None => Err ENOMEM
            | Some s =>
                match checked_add s n with
                | None => Err ENOMEM
                | Some e => if valid_user_range s e then Ok (s, e) else Err ENOMEM
                end
            end
      end
  end.

(** [sys_mmap] up to [MAP_POPULATE].  [file]: the open file of the descriptor, asked
    for unless the mapping is anonymous. *)
Definition mmap_install vs (file : option MmapFile) (backing start len prot flags offset : Z) : option Outcome :=
  let anon := flag_set flags MAP_ANONYMOUS in
  if negb anon && bool_decide (file = None) then fail_out vs EBADF
  else match mmap_target (areas vs) start len flags offset with
  | Err err => fail_out vs err
  | Ok (s, e) =>
      if flag_set flags MAP_FIXED_NOREPLACE && existsb (fun a => (s <? va_end a) && (va_start a <? e)) (areas vs) then fail_out vs EEXIST
      else
        '(vs, retired, released) ← (if negb (flag_set flags MAP_FIXED_NOREPLACE) && flag_set flags MAP_FIXED then trim_user_range vs s e else Some (vs, [], []));
        let perm := from_prot prot in
        let grow a := if flag_set flags MAP_GROWSDOWN then set_growdown true a else a in
        match (if anon then None else file) with
        | None =>
            l ← insert_area_sorted (mmap_new_area s e perm None offset flags backing) (areas vs);
            let l := update_area l s (fun a => let a := grow a in if flag_set flags MAP_SHARED then set_flags MapShared a else a) in
            Some (mkOut (mkVM (page_table vs) l) retired released (Ok s))
        | Some file =>
            match mmap_file_check file prot flags with
            | Err err => Some (mkOut vs retired released (Err err))
            | Ok _ =>
                l ← insert_area_sorted (mmap_new_area s e perm (Some (mf_id file)) offset flags backing) (areas vs);
                let l := update_area l s (fun a => grow (set_file (map_file a) (Some (mf_path file)) (file_offset a) a)) in
                Some (mkOut (mkVM (page_table vs) l) retired released (Ok s))
            end
        end
  end.

(** ** The heap *)

Definition heap_areas l : list UserMapArea := List.filter (fun a => bool_decide (area_type a = Heap)) l.

(** [Iterator::min] and [Iterator::max]. *)
Definition list_min (x : Z) (xs : list Z) : Z := fold_left Z.min xs x.
Definition list_max (x : Z) (xs : list Z) : Z := fold_left Z.max xs x.

Definition heap_start_va l : option Z := match heap_areas l with [] => None | a :: r => Some (list_min (va_start a) (map va_start r)) end.
Definition heap_end_va l : option Z := match heap_areas l with [] => None | a :: r => Some (list_max (va_end a) (map va_end r)) end.

(** The index of the heap area with the greatest end, the last of equals ([max_by_key]). *)
Fixpoint heap_index_from l (i : nat) (best : option (nat * Z)) : option (nat * Z) :=
  match l with
  | [] => best
  | a :: l =>
      let best :=
        if bool_decide (area_type a = Heap)
        then match best with
             | Some (j, x) => if x <=? va_end a then Some (i, va_end a) else best
             | None => Some (i, va_end a)
             end
        else best in
      heap_index_from l (S i) best
  end.
Definition heap_index l : option nat := option_map fst (heap_index_from l 0 None).

(** [get_heap_area_mut().range_va_mut().end = x]. *)
Definition set_heap_end l (x : Z) : option (list UserMapArea) := i ← heap_index l; Some (alter (set_end x) i l).

Definition append_to l (end_va : Z) : option (list UserMapArea) :=
  cur ← heap_end_va l;
  if end_va <? cur then None else set_heap_end l (end_va + 1).

Definition shrink_to vs (end_va : Z) : option (UserVMSet * list Z) :=
  i ← heap_index (areas vs);
  a ← areas vs !! i;
  if va_end a <? end_va then None
  else
    let lo := ceil (end_va + 1) in
    '(pt, m, retired) ← drop_pages (page_table vs) (data_frames a) [] (map_to_list (retain lo (end_vpn a) (data_frames a))).*1;
    Some (mkVM pt (<[i := set_frames m (set_end (end_va + 1) a)]> (areas vs)), retired).

Definition current_brk l : option Z := e ← heap_end_va l; Some (e - 1).

Definition brk_request_is_valid l (ptr aligned_end : Z) : option bool :=
  match checked_add ptr 1 with
  | None => Some false
  | Some requested_end =>
      if (USER_LAST + 1 <? requested_end) || (USER_LAST + 1 <? aligned_end) then Some false
      else
        heap_start ← heap_start_va l;
        Some (forallb (fun a => bool_decide (area_type a = Heap) ||
                negb ((heap_start <? end_vpn a * PAGE_SIZE) && (start_vpn a * PAGE_SIZE <? aligned_end))) l)
  end.

(** The end of [sys_brk]: the exact break. *)
Definition brk_finish vs (retired : list Z) (ptr : Z) : option Outcome :=
  l ← set_heap_end (areas vs) (ptr + 1); Some (mkOut (mkVM (page_table vs) l) retired [] (Ok ptr)).

Definition sys_brk vs (ptr : Z) : option Outcome :=
  old_brk ← current_brk (areas vs);
  if ptr =? 0 then ok_out vs old_brk
  else if old_brk =? ptr then ok_out vs old_brk
  else
    heap_start ← heap_start_va (areas vs);
    if ptr <? heap_start then ok_out vs old_brk
    else match checked_add ptr 1 with
    | None => ok_out vs old_brk
    | Some _ =>
        let aligned_end := ceil ptr * PAGE_SIZE in
        valid ← brk_request_is_valid (areas vs) ptr aligned_end;
        if negb valid then ok_out vs old_brk
        else if ceil old_brk =? ceil ptr then brk_finish vs [] ptr
        else if old_brk <? ptr then
          l ← append_to (areas vs) aligned_end; brk_finish (mkVM (page_table vs) l) [] ptr
        else
          '(vs, retired) ← shrink_to vs aligned_end; brk_finish vs retired ptr
    end.

(** [take_area_with_start_vpn]: an area leaves the address space with its frames. *)
Definition take_area_with_start_vpn vs (target : Z) : option (UserVMSet * option UserMapArea) :=
  match find_area_start_vpn_index (areas vs) target with
  | None => Some (vs, None)
  | Some idx =>
      a ← areas vs !! idx;
      '(pt, _, _) ← drop_pages (page_table vs) (data_frames a) [] (vpn_range (start_vpn a) (end_vpn a));
      Some (mkVM pt (take idx (areas vs) ++ drop (S idx) (areas vs)), Some a)
  end.
