(* ===== verification/VmMap.v ===== *)
(** * Virtual memory: unmapping a range

    [trim_user_range] removes exactly the pages of the range, keeps everything a
    process sees elsewhere, and never panics on a well-formed address space. *)

From Stdlib Require Import Sorted.
From stdpp Require Import gmap.
From S2P Require Import Prelude SysErr FrameAlloc Vm VmSpec VmSys.

Implicit Types a b : UserMapArea.
Implicit Types l : list UserMapArea.
Implicit Types vs : UserVMSet.
Implicit Types pt : PageTable.

(** ** The attributes of a page without its frame *)

Definition page_meta a (v : Z) : PageInfo := page_info (set_frames ∅ a) v.
Definition with_frame (o : option Z) (i : PageInfo) : PageInfo :=
  mkPage (pg_perm i) (pg_type i) (pg_growdown i) (pg_file i) (pg_path i) (pg_zero i) (pg_flags i) (pg_shmid i) (pg_shared i) (pg_cow i) o.

Lemma page_info_meta a v : page_info a v = with_frame (data_frames a !! v) (page_meta a v).
Proof. done. Qed.

Lemma page_meta_frames a m v : page_meta (set_frames m a) v = page_meta a v.
Proof. done. Qed.

Lemma page_meta_end a x v : page_meta (set_end x a) v = page_meta a v.
Proof. done. Qed.

Lemma retain_lookup lo hi (m : gmap Z Z) v : retain lo hi m !! v = if bool_decide (lo <= v < hi) then m !! v else None.
Proof.
  unfold retain. case_bool_decide as E; destruct (m !! v) as [p|] eqn:Em.
  - by apply map_lookup_filter_Some_2.
  - apply map_lookup_filter_None_2. by left.
  - apply map_lookup_filter_None_2. right. intros p' _. exact E.
  - apply map_lookup_filter_None_2. by left.
Qed.

(** A move of the start keeps what every page shows. *)
Lemma trim_start_ok a x : area_ok a -> x mod PAGE_SIZE = 0 -> va_start a <= x < va_end a ->
  exists a', trim_start x a = Some a' /\ va_start a' = x /\ va_end a' = va_end a /\ data_frames a' = data_frames a /\
    offsets_ok a' /\ (forall v, page_meta a' v = page_meta a v) /\ lazy_flag a' = lazy_flag a /\ map_type a' = map_type a.
Proof.
  intros [Hal Hr Hu _ [Hf Hs]] Hx Hlt. unfold trim_start, checked_sub. rewrite (proj2 (Z.leb_le _ _)) by lia. simpl.
  assert (Hv : floor (va_start a) <= floor x /\ floor x < end_vpn a).
  { unfold end_vpn, floor, ceil, PAGE_SIZE in *. case_if; split; zlia. }
  assert (H1 : exists off, match map_file a with Some _ => checked_add (file_offset a) (x - va_start a) | None => Some (file_offset a) end = Some off /\
     (is_Some (map_file a) -> off = file_offset a + (x - va_start a))).
  { destruct (map_file a) as [f|] eqn:Ef; [|exists (file_offset a); split; [done|intros [? ?]; done]].
    destruct Hf as [? ?]; [done|]. unfold checked_add. case_if; [by eexists|].
    assert (x - va_start a < (end_vpn a - start_vpn a) * PAGE_SIZE); [|lia].
    unfold end_vpn, start_vpn, floor, ceil, PAGE_SIZE in *. case_if; zlia. }
  assert (H2 : exists off, match shared_anonymous a with
                     | Some _ => checked_add (shared_anonymous_offset a) (saturating_sub (floor x) (floor (va_start a)))
                     | None => Some (shared_anonymous_offset a) end = Some off /\
     (is_Some (shared_anonymous a) -> off = shared_anonymous_offset a + (floor x - floor (va_start a)))).
  { destruct (shared_anonymous a) as [f|] eqn:Ef; [|exists (shared_anonymous_offset a); split; [done|intros [? ?]; done]].
    destruct Hs as [? ?]; [done|]. unfold start_vpn in *. unfold checked_add, saturating_sub. rewrite Z.max_r by lia.
    case_if; [by eexists|lia]. }
  destruct H1 as (off & -> & Ho), H2 as (soff & -> & Hso). simpl. eexists. split_and!; try done.
  - split; intros Hi; cbn in Hi |- *.
    + specialize (Hf Hi). specialize (Ho Hi). pose proof (aligned_floor x Hx). pose proof (aligned_floor _ Hal).
      unfold start_vpn, end_vpn, PAGE_SIZE in *. cbn. lia.
    + specialize (Hs Hi). specialize (Hso Hi). unfold start_vpn, end_vpn in *. cbn. lia.
  - intros v. unfold page_meta, page_info. cbn. f_equal.
    + destruct (map_file a) as [f|] eqn:Ef; [|done]. cbn. rewrite (Ho ltac:(done)). do 2 f_equal. unfold start_vpn. cbn.
      rewrite <- (aligned_floor x Hx) at 1. rewrite <- (aligned_floor (va_start a) Hal) at 1. lia.
    + destruct (shared_anonymous a) as [f|] eqn:Ef; [|done]. cbn. rewrite (Hso ltac:(done)). do 2 f_equal. unfold start_vpn. cbn. lia.
Qed.

(** A part of an area: its bounds inside, its pages as in the area. *)
Record part_of a b : Prop := {
  po_ok : area_ok b;
  po_meta : forall v, page_meta b v = page_meta a v;
  po_lo : start_vpn a <= start_vpn b;
  po_hi : end_vpn b <= end_vpn a }.

Lemma keep_in_range_ok a : va_start a mod PAGE_SIZE = 0 -> 0 <= va_start a < va_end a -> va_end a <= USER_LAST + 1 -> offsets_ok a ->
  area_ok (keep_in_range a).
Proof.
  intros H1 H2 H3 H4. split; try done. intros v p. cbn. rewrite retain_lookup. case_bool_decide; [|done]. intros _.
  by apply in_area_spec.
Qed.

Lemma offsets_end a x : offsets_ok a -> 0 <= x <= va_end a -> offsets_ok (set_end x a).
Proof.
  intros [Hf Hs] Hx. pose proof (ceil_le x (va_end a) Hx). split; cbn; intros Hi; [specialize (Hf Hi)|specialize (Hs Hi)];
    unfold start_vpn, end_vpn, PAGE_SIZE in *; cbn; lia.
Qed.

Lemma cut_end_part a x m : area_ok a -> va_start a < x <= va_end a ->
  part_of a (keep_in_range (set_end x (set_frames m a))).
Proof.
  intros [? ? ? _ Ho] Hx. split.
  - apply keep_in_range_ok; try done; cbn; [lia..|]. apply (offsets_end (set_frames m a)); [done|cbn; lia].
  - done.
  - done.
  - apply ceil_le. cbn. lia.
Qed.

Lemma cut_start_part a x m b : area_ok a -> x mod PAGE_SIZE = 0 -> va_start a <= x < va_end a ->
  trim_start x (set_frames m a) = Some b ->
  part_of a (keep_in_range (set_end (va_end a) b)) /\ part_of a (keep_in_range b) /\ va_start b = x /\ data_frames b = m.
Proof.
  intros Ha Hx Hlt E. pose proof Ha as [Hal Hr Hu Hf Ho].
  assert (E' : exists a', trim_start x a = Some a' /\ b = set_frames m a').
  { unfold trim_start in *. cbn in E. destruct (checked_sub x (va_start a)); [|done]. cbn in *.
    destruct (match map_file a with Some _ => _ | None => _ end); [|done]. cbn in *.
    destruct (match shared_anonymous a with Some _ => _ | None => _ end); [|done]. cbn in *.
    injection E as <-. by eexists. }
  destruct E' as (a' & Ea & ->). destruct (trim_start_ok a x Ha Hx Hlt) as (a1 & E1 & E2 & E3 & E4 & E5 & E6 & _).
  assert (a1 = a') as -> by congruence. subst x.
  assert (Hs : start_vpn a <= start_vpn a') by (unfold start_vpn, floor, PAGE_SIZE; zlia).
  assert (He : end_vpn a' = end_vpn a) by (unfold end_vpn; congruence).
  split_and!; try done.
  - split; [|by intros v; rewrite <- E6|done|done]. apply keep_in_range_ok; cbn; try done; try lia.
    apply (offsets_end (set_frames m a')); [done|]. cbn. lia.
  - split; [|by intros v; rewrite <- E6|done|]. { apply keep_in_range_ok; cbn; try done; lia. } unfold end_vpn in *. cbn. lia.
Qed.

(** ** Pages that leave *)

Lemma drop_pages_spec vpns pt (m : gmap Z Z) r :
  (forall v p, v ∈ vpns -> m !! v = Some p -> is_Some (pt !! v)) ->
  exists pt' m' r', drop_pages pt m r vpns = Some (pt', m', r') /\
    (forall v, m' !! v = if bool_decide (v ∈ vpns) then None else m !! v) /\
    (forall v, pt' !! v = if bool_decide (v ∈ vpns) && bool_decide (is_Some (m !! v)) then None else pt !! v).
Proof.
  revert pt m r. induction vpns as [|x vpns IH]; intros pt m r H; cbn [drop_pages].
  - exists pt, m, r. split_and!; [done|..]; intros v; by rewrite (bool_decide_eq_false_2 _ (not_elem_of_nil v)).
  - destruct (m !! x) as [p|] eqn:Ex.
    + destruct (H x p) as [pte Hp]; [left|done|]. unfold unmap_page. rewrite Hp. cbn [mbind option_bind].
      destruct (IH (delete x pt) (delete x m) (r ++ [p])) as (pt' & m' & r' & E & Hm & Hpt).
      { intros v q Hv Hq. apply lookup_delete_Some in Hq as [Hne Hq]. rewrite lookup_delete_ne by done. apply (H v q); [by right|done]. }
      exists pt', m', r'. split_and!; [done|..]; intros v; [rewrite Hm|rewrite Hpt]; destruct (decide (v = x)) as [-> |Hne].
      * rewrite lookup_delete_eq. rewrite (bool_decide_eq_true_2 (x ∈ x :: vpns)) by left. by case_bool_decide.
      * rewrite lookup_delete_ne by done. assert (Hb : bool_decide (v ∈ vpns) = bool_decide (v ∈ x :: vpns)); [|by rewrite Hb]. apply bool_decide_ext. set_solver.
      * rewrite (bool_decide_eq_true_2 (x ∈ x :: vpns)) by left. rewrite Ex, !lookup_delete_eq. simpl. by repeat case_bool_decide.
      * rewrite !lookup_delete_ne by done. assert (Hb : bool_decide (v ∈ vpns) = bool_decide (v ∈ x :: vpns)); [|by rewrite Hb].
        apply bool_decide_ext. set_solver.
    + destruct (IH pt m r) as (pt' & m' & r' & E & Hm & Hpt). { intros v q Hv. apply H. by right. }
      exists pt', m', r'. split_and!; [done|..]; intros v; [rewrite Hm|rewrite Hpt]; destruct (decide (v = x)) as [-> |Hne].
      * rewrite Ex. by repeat case_bool_decide.
      * assert (Hb : bool_decide (v ∈ vpns) = bool_decide (v ∈ x :: vpns)); [|by rewrite Hb]. apply bool_decide_ext. set_solver.
      * rewrite Ex. rewrite (bool_decide_eq_false_2 (is_Some None)) by (intros [? ?]; done). by rewrite !andb_false_r.
      * assert (Hb : bool_decide (v ∈ vpns) = bool_decide (v ∈ x :: vpns)); [|by rewrite Hb]. apply bool_decide_ext. set_solver.
Qed.

(** ** One area *)

Definition trim_hit (s e : Z) a (v : Z) : bool := trimmable (area_type a) && (floor s <=? v) && (v <? floor e).

Lemma in_vpn_range lo hi v : v ∈ vpn_range lo hi <-> lo <= v < hi.
Proof. unfold vpn_range. rewrite elem_of_seqZ. lia. Qed.

(** What a part of an area shows, when its frames in range are those of the area. *)
Lemma view_part a b m v : part_of a b -> data_frames b = retain (start_vpn b) (end_vpn b) m ->
  (in_area b v = true -> m !! v = data_frames a !! v) ->
  in_area b v = true -> page_info b v = page_info a v.
Proof.
  intros Hp Hm Hv Hin. rewrite !page_info_meta, (po_meta a b Hp), Hm, retain_lookup. apply in_area_spec in Hin as H'.
  rewrite bool_decide_eq_true_2 by done. by rewrite Hv.
Qed.

Lemma areas_ok_nil : areas_ok [].
Proof. split; constructor. Qed.

Lemma areas_ok_one a : area_ok a -> areas_ok [a].
Proof. intros. apply areas_ok_cons. split_and!; [done|constructor|apply areas_ok_nil]. Qed.

Lemma areas_ok_two a b : area_ok a -> area_ok b -> before a b -> areas_ok [a; b].
Proof. intros. apply areas_ok_cons. split_and!; [done|by constructor|by apply areas_ok_one]. Qed.

Lemma part_refl a : area_ok a -> part_of a a.
Proof. by split. Qed.

Lemma view_one a v : view [a] v = if in_area a v then Some (page_info a v) else None.
Proof. by rewrite view_cons. Qed.

(** The four shapes a cut leaves. *)
Lemma kept_low a x m : area_ok a -> x mod PAGE_SIZE = 0 -> va_start a < x <= va_end a ->
  (forall v, v < floor x -> m !! v = data_frames a !! v) ->
  let b := keep_in_range (set_end x (set_frames m a)) in
  part_of a b /\ end_vpn b = floor x /\ forall v, in_area b v = in_area a v && (v <? floor x) /\ (in_area b v = true -> page_info b v = page_info a v).
Proof.
  intros Ha Hx Hlt Hm b. pose proof (ao_range a Ha). pose proof (cut_end_part a x m Ha ltac:(lia)) as Hp.
  assert (He : end_vpn b = floor x) by (apply aligned_ceil; [lia|done]).
  assert (Hle : end_vpn b <= end_vpn a) by apply (po_hi _ _ Hp). split_and!; [done..|]. intros v.
  assert (Hin : in_area b v = in_area a v && (v <? floor x)).
  { unfold in_area. rewrite He. change (start_vpn b) with (start_vpn a). rewrite He in Hle.
    destruct (Z.leb_spec (start_vpn a) v), (Z.ltb_spec v (floor x)), (Z.ltb_spec v (end_vpn a)); try done; lia. }
  split; [done|]. intros Hv. apply (view_part a b m); [done|done|intros _|done].
  apply Hm. rewrite Hin, andb_true_iff, Z.ltb_lt in Hv. lia.
Qed.

Lemma kept_high a x m b b' : area_ok a -> x mod PAGE_SIZE = 0 -> va_start a <= x < va_end a ->
  trim_start x (set_frames m a) = Some b -> b' = b \/ b' = set_end (va_end a) b ->
  (forall v, floor x <= v -> m !! v = data_frames a !! v) ->
  let c := keep_in_range b' in
  part_of a c /\ start_vpn c = floor x /\ forall v, in_area c v = in_area a v && (floor x <=? v) /\ (in_area c v = true -> page_info c v = page_info a v).
Proof.
  intros Ha Hx Hlt E Hb Hm c. destruct (cut_start_part a x m b Ha Hx Hlt E) as (Hp1 & Hp2 & Hs & Hf).
  assert (Hp : part_of a c) by (subst c; destruct Hb as [-> | ->]; done).
  assert (Hsc : start_vpn c = floor x) by (subst c; destruct Hb as [-> | ->]; unfold start_vpn; cbn; by rewrite Hs).
  assert (Hec : end_vpn c = end_vpn a).
  { subst c. destruct Hb as [-> | ->]; [|done]. unfold trim_start in E. cbn in E. unfold end_vpn. cbn.
    destruct (checked_sub x (va_start a)); [|done]. cbn in E. destruct (match map_file a with Some _ => _ | None => _ end); [|done]. cbn in E.
    destruct (match shared_anonymous a with Some _ => _ | None => _ end); [|done]. cbn in E. by injection E as <-. }
  pose proof (po_lo a c Hp). split_and!; [done..|]. intros v.
  assert (Hin : in_area c v = in_area a v && (floor x <=? v)).
  { unfold in_area. rewrite Hec, Hsc. rewrite Hsc in H.
    destruct (Z.leb_spec (start_vpn a) v), (Z.leb_spec (floor x) v), (Z.ltb_spec v (end_vpn a)); try done; lia. }
  split; [done|]. intros Hv. apply (view_part a c m); [done| |intros _|done].
  - subst c. destruct Hb as [-> | ->]; cbn; by rewrite Hf.
  - apply Hm. rewrite Hin, andb_true_iff, Z.leb_le in Hv. lia.
Qed.

(** What the body of the loop has to establish. *)
Definition trimmed (s e : Z) a (t : Trim) (kept : list UserMapArea) (t' : Trim) : Prop :=
  areas_ok kept /\ Forall (part_of a) kept /\
  (forall v, view kept v = if trim_hit s e a v then None else view [a] v) /\
  (forall v, tr_pt t' !! v = if trim_hit s e a v && bool_decide (is_Some (data_frames a !! v)) then None else tr_pt t !! v).

Lemma trim_miss s e a t : area_ok a -> (forall v, in_area a v = true -> trim_hit s e a v = false) -> trimmed s e a t [a] t.
Proof.
  intros Ha Hno. split_and!; [by apply areas_ok_one|by constructor; [apply part_refl|]|..]; intros v.
  - rewrite view_one. destruct (in_area a v) eqn:E; [by rewrite Hno|]. by destruct (trim_hit s e a v).
  - destruct (in_area a v) eqn:E; [by rewrite Hno|].
    destruct (data_frames a !! v) as [p|] eqn:Ep; [by rewrite (ao_frames a Ha v p Ep) in E|].
    rewrite (bool_decide_eq_false_2 (is_Some None)) by (intros [? ?]; done). by rewrite andb_false_r.
Qed.

(** The pages the loop drops are those of the range. *)
Lemma trim_overlap s e a v : area_ok a -> s mod PAGE_SIZE = 0 -> e mod PAGE_SIZE = 0 -> 0 <= s < e -> trimmable (area_type a) = true ->
  in_area a v = true ->
  bool_decide (v ∈ vpn_range (floor (Z.max s (va_start a))) (ceil (Z.min e (va_end a)))) = trim_hit s e a v.
Proof.
  intros Ha Hs He Hse Et Hv. pose proof (ao_range a Ha). pose proof (ao_aligned a Ha).
  apply in_area_spec in Hv. unfold trim_hit. rewrite Et. unfold start_vpn, end_vpn in Hv.
  assert (Hc : v < ceil (Z.min e (va_end a)) <-> v < floor e).
  { destruct (Z.min_spec e (va_end a)) as [[? ->] | [? ->]]; [by rewrite aligned_ceil by (lia || done)|].
    split; [|lia]. intros. pose proof (ceil_le (va_end a) e ltac:(lia)) as Hce. rewrite (aligned_ceil e) in Hce by (lia || done). lia. }
  assert (Hfl : floor (Z.max s (va_start a)) <= v <-> floor s <= v).
  { unfold floor, PAGE_SIZE in *. destruct (Z.max_spec s (va_start a)) as [[? ->] | [? ->]]; split; intros; zlia. }
  apply eq_bool_prop_intro. rewrite bool_decide_spec, in_vpn_range, !andb_True, !Is_true_true, Z.leb_le, Z.ltb_lt. tauto.
Qed.

Lemma trim_no_overlap s e a v : area_ok a -> s mod PAGE_SIZE = 0 -> e mod PAGE_SIZE = 0 -> 0 <= s < e ->
  Z.min e (va_end a) <= Z.max s (va_start a) -> in_area a v = true -> trim_hit s e a v = false.
Proof.
  intros Ha Hs He Hse Hov Hv. pose proof (ao_range a Ha). pose proof (ao_aligned a Ha).
  apply in_area_spec in Hv. unfold trim_hit. unfold start_vpn, end_vpn in Hv.
  destruct (trimmable _); [|done]. destruct (Z.leb_spec (floor s) v); [|done]. destruct (Z.ltb_spec v (floor e)); [|done]. exfalso.
  destruct (Z.le_gt_cases e (va_start a)); [unfold floor, PAGE_SIZE in *; zlia|].
  assert (va_end a <= s) by lia. pose proof (proj2 (ceil_le_aligned s (va_end a) ltac:(lia) ltac:(lia) Hs)). lia.
Qed.

Lemma trim_start_frames x m a : trim_start x (set_frames m a) = option_map (set_frames m) (trim_start x a).
Proof.
  unfold trim_start. cbn. destruct (checked_sub x (va_start a)); [|done]. cbn.
  destruct (match map_file a with Some _ => _ | None => _ end); [|done]. cbn.
  by destruct (match shared_anonymous a with Some _ => _ | None => _ end).
Qed.

(** The parts of an area around the pages from [os] to [oe]. *)
Definition parts_around a (os oe : Z) (kept : list UserMapArea) : Prop :=
  areas_ok kept /\ Forall (part_of a) kept /\
  forall v, view kept v = if in_area a v && negb ((floor os <=? v) && (v <? ceil oe)) then Some (page_info a v) else None.

Section Parts.
Context (a : UserMapArea) (os oe : Z) (m : gmap Z Z).
Context (Ha : area_ok a) (Hos : os mod PAGE_SIZE = 0) (Hlo : va_start a <= os) (Hlt : os < oe) (Hhi : oe <= va_end a).
Context (Hfree : forall v, v < floor os \/ ceil oe <= v -> m !! v = data_frames a !! v).

Lemma parts_none : os = va_start a -> oe = va_end a -> parts_around a os oe [].
Proof.
  intros E1 E2. split_and!; [apply areas_ok_nil|constructor|]. intros v. rewrite E1, E2, view_nil.
  unfold in_area, start_vpn, end_vpn. by destruct ((floor (va_start a) <=? v) && (v <? ceil (va_end a))).
Qed.

Lemma parts_low : os <> va_start a -> oe = va_end a -> parts_around a os oe [keep_in_range (set_end os (set_frames m a))].
Proof.
  intros E1 E2. destruct (kept_low a os m Ha Hos ltac:(lia)) as (Hp & He & Hv); [intros; apply Hfree; lia|].
  split_and!; [apply areas_ok_one, (po_ok _ _ Hp)|by constructor|]. intros v. rewrite view_one. destruct (Hv v) as [Hin Hpg].
  destruct (in_area _ v) eqn:Ei at 1; rewrite Ei in Hin.
  - rewrite Hpg by done. symmetry in Hin. apply andb_true_iff in Hin as [-> Hx%Z.ltb_lt].
    rewrite (proj2 (Z.leb_gt _ _)) by lia. done.
  - rewrite E2. destruct (in_area a v) eqn:Ea; [|done]. cbn [andb] in *. symmetry in Hin. apply Z.ltb_ge in Hin.
    rewrite (proj2 (Z.leb_le _ _)) by lia. apply in_area_spec in Ea. fold (end_vpn a).
    rewrite (proj2 (Z.ltb_lt _ _)) by lia. done.
Qed.

Lemma parts_high : os = va_start a -> oe <> va_end a -> oe mod PAGE_SIZE = 0 ->
  exists b, trim_start oe (set_frames m a) = Some b /\ parts_around a os oe [keep_in_range b].
Proof.
  intros E1 E2 Hoe. pose proof (ao_range a Ha). destruct (trim_start_ok a oe Ha Hoe ltac:(lia)) as (b0 & Eb & _).
  exists (set_frames m b0). pose proof (trim_start_frames oe m a) as Et. rewrite Eb in Et. split; [done|].
  rewrite (aligned_ceil oe) in Hfree by (lia || done).
  destruct (kept_high a oe m _ _ Ha Hoe ltac:(lia) Et (or_introl eq_refl)) as (Hp & Hsv & Hv); [intros; apply Hfree; lia|].
  split_and!; [apply areas_ok_one, (po_ok _ _ Hp)|by constructor|]. intros v. rewrite view_one. destruct (Hv v) as [Hin Hpg].
  rewrite (aligned_ceil oe) by (lia || done). destruct (in_area _ v) eqn:Ei at 1; rewrite Ei in Hin.
  - rewrite Hpg by done. symmetry in Hin. apply andb_true_iff in Hin as [-> Hx%Z.leb_le].
    rewrite (proj2 (Z.ltb_ge _ _)) by lia. by rewrite andb_false_r.
  - destruct (in_area a v) eqn:Ea; [|done]. cbn [andb] in *. symmetry in Hin. apply Z.leb_gt in Hin.
    apply in_area_spec in Ea. rewrite E1. fold (start_vpn a). rewrite (proj2 (Z.leb_le _ _)), (proj2 (Z.ltb_lt _ _)) by lia. done.
Qed.

Lemma parts_both : os <> va_start a -> oe <> va_end a -> oe mod PAGE_SIZE = 0 ->
  exists b, trim_start oe (set_frames m a) = Some b /\
    parts_around a os oe [keep_in_range (set_end os (set_frames m a)); keep_in_range (set_end (va_end a) b)].
Proof.
  intros E1 E2 Hoe. pose proof (ao_range a Ha). destruct (trim_start_ok a oe Ha Hoe ltac:(lia)) as (b0 & Eb & _).
  exists (set_frames m b0). pose proof (trim_start_frames oe m a) as Et. rewrite Eb in Et. split; [done|].
  rewrite (aligned_ceil oe) in Hfree by (lia || done).
  assert (Hoo : floor os < floor oe) by (unfold floor, PAGE_SIZE in *; zlia).
  destruct (kept_high a oe m _ _ Ha Hoe ltac:(lia) Et (or_intror eq_refl)) as (Hp & Hsv & Hv); [intros; apply Hfree; lia|].
  destruct (kept_low a os m Ha Hos ltac:(lia)) as (Hp' & He' & Hv'); [intros; apply Hfree; lia|].
  split_and!; [apply areas_ok_two; [apply (po_ok _ _ Hp')|apply (po_ok _ _ Hp)|unfold before; lia]|by repeat (constructor; [done|])|].
  intros v. rewrite view_cons, view_one. destruct (Hv v) as [Hin Hpg], (Hv' v) as [Hin' Hpg']. rewrite (aligned_ceil oe) by (lia || done).
  destruct (in_area _ v) eqn:Ei at 1; rewrite Ei in Hin'.
  { rewrite Hpg' by done. symmetry in Hin'. apply andb_true_iff in Hin' as [-> Hx%Z.ltb_lt].
    rewrite (proj2 (Z.leb_gt _ _)) by lia. done. }
  destruct (in_area (keep_in_range (set_end (va_end a) _)) v) eqn:Ei' at 1; rewrite Ei' in Hin.
  { rewrite Hpg by done. symmetry in Hin. apply andb_true_iff in Hin as [-> Hx%Z.leb_le].
    rewrite (proj2 (Z.ltb_ge _ _)) by lia. by rewrite andb_false_r. }
  destruct (in_area a v); [|done]. cbn [andb] in *. symmetry in Hin, Hin'. apply Z.leb_gt in Hin. apply Z.ltb_ge in Hin'.
  rewrite (proj2 (Z.leb_le _ _)), (proj2 (Z.ltb_lt _ _)) by lia. done.
Qed.

End Parts.

Lemma trim_area_spec s e a t : area_ok a -> s mod PAGE_SIZE = 0 -> e mod PAGE_SIZE = 0 -> 0 <= s < e ->
  (forall v p, data_frames a !! v = Some p -> is_Some (tr_pt t !! v)) ->
  exists kept t', trim_area s e a t = Some (kept, t') /\ trimmed s e a t kept t'.
Proof.
  intros Ha Hs He Hse Hpt. unfold trim_area. pose proof Ha as [Hal Hr Hu Hf Ho].
  destruct (trimmable (area_type a)) eqn:Et; cbn [negb].
  2: { exists [a], t. split; [done|]. apply trim_miss; [done|]. intros. unfold trim_hit. by rewrite Et. }
  destruct (Z.leb_spec (Z.min e (va_end a)) (Z.max s (va_start a))) as [Hov|Hov].
  { exists [a], t. split; [done|]. apply trim_miss; [done|]. intros. by apply trim_no_overlap. }
  pose proof (fun v => trim_overlap s e a v Ha Hs He Hse Et) as Hrange.
  set (os := Z.max s (va_start a)) in *. set (oe := Z.min e (va_end a)) in *.
  assert (Hos : os mod PAGE_SIZE = 0) by (subst os; destruct (Z.max_spec s (va_start a)) as [[_ ->] | [_ ->]]; done).
  assert (Hoe : oe <> va_end a -> oe mod PAGE_SIZE = 0 /\ ceil oe = floor oe /\ oe = e).
  { subst oe. intros. destruct (Z.min_spec e (va_end a)) as [[? E] | [? E]]; rewrite E in *; [|done].
    split_and!; [done|by apply aligned_ceil; [lia|]|done]. }
  destruct (drop_pages_spec (vpn_range (floor os) (ceil oe)) (tr_pt t) (data_frames a) (tr_retired t)) as (pt' & m & r' & -> & Hm & Hp).
  { intros v p _. apply Hpt. }
  cbn [mbind option_bind].
  assert (Hpt' : forall v, pt' !! v = if trim_hit s e a v && bool_decide (is_Some (data_frames a !! v)) then None else tr_pt t !! v).
  { intros v. rewrite Hp. destruct (data_frames a !! v) as [p|] eqn:Ep; [by rewrite Hrange by by apply (Hf v p)|].
    rewrite (bool_decide_eq_false_2 (is_Some None)) by (intros [? ?]; done). by rewrite !andb_false_r. }
  assert (Hfree : forall v, v < floor os \/ ceil oe <= v -> m !! v = data_frames a !! v).
  { intros v Hv. rewrite Hm, bool_decide_eq_false_2; [done|]. rewrite in_vpn_range. lia. }
  assert (Hhit : forall v, in_area a v = true -> trim_hit s e a v = (floor os <=? v) && (v <? ceil oe)).
  { intros v Hv. rewrite <- Hrange by done. apply eq_bool_prop_intro.
    rewrite bool_decide_spec, in_vpn_range, !andb_True, !Is_true_true, Z.leb_le, Z.ltb_lt. done. }
  assert (Hfin : forall kept t', parts_around a os oe kept -> tr_pt t' = pt' -> trimmed s e a t kept t').
  { intros kept t' (H1 & H2 & H3) Ept. split_and!; [done..| |by rewrite Ept]. intros v. rewrite H3, view_one.
    destruct (in_area a v) eqn:Ev; [rewrite Hhit by done; by destruct ((floor os <=? v) && (v <? ceil oe))|by destruct (trim_hit s e a v)]. }
  assert (Hb : va_start a <= os /\ oe <= va_end a) by lia. destruct Hb as [Hb1 Hb2].
  destruct (Z.eqb_spec os (va_start a)) as [E1|E1], (Z.eqb_spec oe (va_end a)) as [E2|E2]; cbn [andb].
  - eexists _, _. split; [done|]. apply Hfin; [by apply parts_none|by case_bool_decide].
  - destruct (parts_high a os oe m Ha Hov Hb2 Hfree E1 E2 (proj1 (Hoe E2))) as (b & -> & Hk).
    eexists _, _. split; [done|]. by apply Hfin.
  - eexists _, _. split; [done|]. apply Hfin; [by apply parts_low|done].
  - destruct (parts_both a os oe m Ha Hos Hb1 Hov Hb2 Hfree E1 E2 (proj1 (Hoe E2))) as (b & -> & Hk).
    eexists _, _. split; [done|]. by apply Hfin.
Qed.

(** ** All areas *)

(** The pages [trim_user_range] unmaps. *)
Definition unmapped (s e : Z) l (v : Z) : bool := match area_at l v with Some a => trim_hit s e a v | None => false end.

Lemma before_disjoint a l v : Forall (before a) l -> in_area a v = true -> area_at l v = None.
Proof.
  intros Hb Hv. apply area_at_None, Forall_forall. intros b Hin. rewrite Forall_forall in Hb. specialize (Hb b Hin).
  unfold before in Hb. apply in_area_spec in Hv. apply in_area_false. lia.
Qed.

Lemma resident_cons a l v : resident (a :: l) v = if in_area a v then data_frames a !! v else resident l v.
Proof. unfold resident. rewrite area_at_cons. by destruct (in_area a v). Qed.

Lemma part_bounds a b v : part_of a b -> in_area b v = true -> in_area a v = true.
Proof. intros [_ _ ? ?]. rewrite !in_area_spec. lia. Qed.

Lemma parts_ok_cons a kept l' : areas_ok kept -> Forall (part_of a) kept -> areas_ok l' ->
  (forall b, b ∈ l' -> exists c, before a c /\ part_of c b) -> areas_ok (kept ++ l').
Proof.
  intros Hk Hp Hl Hb. apply areas_ok_app. split_and!; [done..|]. intros x y Hx Hy. rewrite Forall_forall in Hp.
  pose proof (po_hi _ _ (Hp x Hx)). destruct (Hb y Hy) as (c & Hac & Hc). pose proof (po_lo _ _ Hc). unfold before in *. lia.
Qed.

Lemma trim_areas_spec s e l t : areas_ok l -> s mod PAGE_SIZE = 0 -> e mod PAGE_SIZE = 0 -> 0 <= s < e ->
  (forall v p, resident l v = Some p -> is_Some (tr_pt t !! v)) ->
  exists l' t', trim_areas s e l t = Some (l', t') /\ areas_ok l' /\ Forall (fun b => exists a, a ∈ l /\ part_of a b) l' /\
    (forall v, view l' v = if unmapped s e l v then None else view l v) /\
    (forall v, tr_pt t' !! v = if unmapped s e l v && bool_decide (is_Some (resident l v)) then None else tr_pt t !! v).
Proof.
  intros Hl Hs He Hse. revert t. induction l as [|a l IH]; intros t Hpt; cbn [trim_areas].
  { exists [], t. split_and!; [done|done|constructor|done|done]. }
  apply areas_ok_cons in Hl as (Ha & Hal & Hl).
  destruct (trim_area_spec s e a t Ha Hs He Hse) as (kept & t1 & -> & Hk & Hp & Hv & Hpt1).
  { intros v p Hf. apply (Hpt v p). by rewrite resident_cons, (ao_frames a Ha v p Hf). }
  cbn [mbind option_bind]. destruct (IH Hl t1) as (l' & t2 & -> & Hl' & Hp' & Hv' & Hpt2).
  { intros v p Hr. destruct (in_area a v) eqn:Ea.
    - unfold resident in Hr. by rewrite (before_disjoint a l v) in Hr.
    - rewrite Hpt1. destruct (data_frames a !! v) as [q|] eqn:Eq; [by rewrite (ao_frames a Ha v q Eq) in Ea|].
      rewrite (bool_decide_eq_false_2 (is_Some None)) by (intros [? ?]; done). rewrite andb_false_r. apply (Hpt v p).
      by rewrite resident_cons, Ea. }
  cbn [mbind option_bind]. exists (kept ++ l'), t2. split; [done|]. rewrite Forall_forall in Hal, Hp, Hp'. split_and!.
  - apply (parts_ok_cons a); [done|by apply Forall_forall|done|]. intros b Hb. destruct (Hp' b Hb) as (c & Hc & Hpc). eauto.
  - apply Forall_forall. intros b [Hb|Hb]%elem_of_app; [exists a; split; [left|auto]|].
    destruct (Hp' b Hb) as (c & Hc & Hpc). exists c. split; [by right|done].
  - intros v. rewrite view_app, Hv, Hv', view_one, view_cons. unfold unmapped. rewrite area_at_cons.
    destruct (in_area a v) eqn:Ea; [|by destruct (trim_hit s e a v)]. unfold view.
    rewrite (before_disjoint a l v) by (done || by apply Forall_forall). by destruct (trim_hit s e a v).
  - intros v. rewrite Hpt2, Hpt1, resident_cons. unfold unmapped. rewrite area_at_cons.
    destruct (in_area a v) eqn:Ea.
    + unfold resident. by rewrite (before_disjoint a l v) by (done || by apply Forall_forall).
    + destruct (data_frames a !! v) as [q|] eqn:Eq; [by rewrite (ao_frames a Ha v q Eq) in Ea|].
      rewrite (bool_decide_eq_false_2 (is_Some None)) by (intros [? ?]; done). by rewrite andb_false_r.
Qed.

(** ** The range *)

Lemma trim_user_range_spec vs s e : vm_ok vs -> s mod PAGE_SIZE = 0 -> e mod PAGE_SIZE = 0 -> 0 <= s < e ->
  exists vs' retired released, trim_user_range vs s e = Some (vs', retired, released) /\ vm_ok vs' /\
    (forall v, view (areas vs') v = if unmapped s e (areas vs) v then None else view (areas vs) v) /\
    (forall v, translate (page_table vs') v = if unmapped s e (areas vs) v then None else translate (page_table vs) v) /\
    (forall v, unmapped s e (areas vs) v = false -> page_table vs' !! v = page_table vs !! v) /\
    Forall (fun b => exists a, a ∈ areas vs /\ part_of a b) (areas vs').
Proof.
  intros Hok Hs He Hse. unfold trim_user_range. pose proof Hok as [Hl Hr Hm Hac].
  destruct (trim_areas_spec s e (areas vs) (mkTrim (page_table vs) [] []) Hl Hs He Hse) as (l' & t' & -> & Hl' & Hparts & Hv & Hpt).
  { intros v p Hp. destruct (Hr v p Hp) as [f Hf]. by exists (mkPTE p f). }
  cbn [mbind option_bind]. exists (mkVM (tr_pt t') l'), (tr_retired t'), (tr_released t'). split; [done|]. cbn [areas page_table].
  assert (Ht : forall v, translate (tr_pt t') v = if unmapped s e (areas vs) v then None else translate (page_table vs) v).
  { intros v. unfold translate at 1. rewrite Hpt. destruct (unmapped s e (areas vs) v); [|done]. cbn [andb].
    case_bool_decide as Hi; [done|]. fold (translate (page_table vs) v). destruct (translate (page_table vs) v) as [x|] eqn:E; [|done].
    destruct Hi. rewrite (Hm v x E). by eexists. }
  split_and!; [|done|done|intros v Hu; by rewrite Hpt, Hu|done]. apply (vm_ok_restrict vs); [done|done|]. intros v. cbn [areas page_table]. rewrite Ht, resident_view, Hv, Hpt.
  destruct (unmapped s e (areas vs) v); [by right|by left].
Qed.

Lemma valid_user_range_spec s e : valid_user_range s e = true <-> 0 <= s < e /\ e <= USER_LAST + 1.
Proof. unfold valid_user_range, USER_FIRST. rewrite !andb_true_iff, !Z.leb_le, Z.ltb_lt. lia. Qed.

Lemma page_align_len_spec len n : 0 < len -> page_align_len len = Ok n -> n mod PAGE_SIZE = 0 /\ len <= n < len + PAGE_SIZE.
Proof.
  intros H. unfold page_align_len. destruct (page_align_up len) as [x|] eqn:E; [|done]. case_if; [done|]. intros [= <-].
  apply page_align_up_spec in E as (? & ? & ?); [done|lia].
Qed.

Lemma mod_add_page s n : s mod PAGE_SIZE = 0 -> n mod PAGE_SIZE = 0 -> (s + n) mod PAGE_SIZE = 0.
Proof. unfold PAGE_SIZE. intros. zlia. Qed.
