(* ===== verification/VmProt.v ===== *)
(** * Virtual memory: changing the protection of a range

    What [mprotect] does to the vector of areas: splitting, extending a neighbour and
    merging are invisible, each page of the range gets the new permission and no other
    page changes; the walk over the page table then installs the flags of each area,
    and every change that takes access away is followed by a remote shootdown. *)

From Stdlib Require Import Sorted.
From stdpp Require Import gmap.
From S2P Require Import Prelude SysErr FrameAlloc Vm VmSpec VmSys VmMap.

Implicit Types a b : UserMapArea.
Implicit Types l : list UserMapArea.
Implicit Types pt : PageTable.

(** ** The state of a page under a new permission *)

Definition set_prot (perm : Access) (cow : bool) (i : PageInfo) : PageInfo :=
  mkPage perm (pg_type i) (pg_growdown i) (pg_file i) (pg_path i) (pg_zero i) (pg_flags i) (pg_shmid i) (pg_shared i) cow (pg_frame i).

Definition shared_page (i : PageInfo) : bool :=
  bool_decide (pg_type i = Shm) || (bool_decide (pg_type i = Mmap) && bool_decide (pg_flags i = MapShared)).

Lemma shared_page_area a v : shared_page (page_info a v) = shared_area a.
Proof. done. Qed.

(** What the code looks at when it decides on copy-on-write. *)
Record Attr := mkAttr { at_perm : Access; at_type : UserMapAreaType; at_file : bool; at_flags : MmapType; at_cow : bool; at_anon : bool }.
Definition attr a : Attr := mkAttr (map_perm a) (area_type a) (bool_decide (is_Some (map_file a))) (mmap_flags a) (cow_flag a) (bool_decide (is_Some (shared_anonymous a))).

Definition private_attr (A : Attr) : bool :=
  negb (bool_decide (at_type A = Shm) || (bool_decide (at_type A = Mmap) && bool_decide (at_flags A = MapShared))).

Lemma private_attr_area a : private_attr (attr a) = negb (shared_area a).
Proof. done. Qed.

(** ** Pieces *)

Lemma trim_start_attr x a a' : trim_start x a = Some a' ->
  attr a' = attr a /\ va_start a' = x /\ va_end a' = va_end a /\ data_frames a' = data_frames a.
Proof.
  unfold trim_start. destruct (checked_sub x (va_start a)); [|done]. cbn.
  destruct (match map_file a with Some _ => _ | None => _ end); [|done]. cbn.
  destruct (match shared_anonymous a with Some _ => _ | None => _ end); [|done]. cbn. by intros [= <-].
Qed.

Lemma set_frames_same m a : data_frames a = m -> set_frames m a = a.
Proof. intros <-. by destruct a. Qed.

Lemma set_frames_twice m m' a : set_frames m (set_frames m' a) = set_frames m a.
Proof. done. Qed.

Lemma set_end_frames x m a : set_end x (set_frames m a) = set_frames m (set_end x a).
Proof. done. Qed.

Lemma filter_retain (P : Z * Z -> Prop) `{Hdec : !forall kv, Decision (P kv)} lo hi (m : gmap Z Z) :
  (forall v p, m !! v = Some p -> P (v, p) <-> lo <= v < hi) -> filter P m = retain lo hi m.
Proof.
  intros H. apply map_eq. intros v. rewrite retain_lookup. destruct (m !! v) as [p|] eqn:E.
  - specialize (H v p E). case_bool_decide as Hb.
    + apply map_lookup_filter_Some_2; [done|]. by apply H.
    + apply map_lookup_filter_None_2. right. intros q Hq. rewrite E in Hq. injection Hq as <-. by rewrite H.
  - rewrite map_lookup_filter_None_2 by by left. by case_bool_decide.
Qed.

Lemma frames_bounds a v p : area_ok a -> data_frames a !! v = Some p -> start_vpn a <= v < end_vpn a.
Proof. intros Ha Hp. apply in_area_spec, (ao_frames a Ha v p Hp). Qed.

(** A piece of an area: bounds inside, its own frames, the pages as before. *)
Definition piece a (lo hi : Z) b : Prop :=
  part_of a b /\ attr b = attr a /\ start_vpn b = lo /\ end_vpn b = hi /\ forall v, in_area b v = true -> page_info b v = page_info a v.

Lemma piece_intro a b lo hi : area_ok a -> attr b = attr a -> (forall v, page_meta b v = page_meta a v) ->
  va_start b = lo * PAGE_SIZE -> end_vpn b = hi -> va_start b < va_end b <= USER_LAST + 1 ->
  start_vpn a <= lo < hi -> hi <= end_vpn a -> offsets_ok b ->
  data_frames b = retain lo hi (data_frames a) -> piece a lo hi b.
Proof.
  intros Ha Hat Hm Hs Hev Hse Hlo Hhi Ho Hf. pose proof (area_ok_vpn a Ha) as Hv.
  assert (Hsv : start_vpn b = lo) by (unfold start_vpn; rewrite Hs; apply floor_page).
  assert (Hin : forall v, in_area b v = true -> page_info b v = page_info a v).
  { intros v Hi. rewrite !page_info_meta, Hm, Hf, retain_lookup. apply in_area_spec in Hi. rewrite Hsv, Hev in Hi.
    by rewrite bool_decide_eq_true_2. }
  split_and!; [|done..]. split; [split|done|lia|lia].
  - rewrite Hs. by apply Z.mod_mul.
  - rewrite Hs in *. unfold PAGE_SIZE in *. lia.
  - lia.
  - intros v p. rewrite Hf, retain_lookup. case_bool_decide; [|done]. intros _. apply in_area_spec. lia.
  - done.
Qed.

Lemma offsets_range a b : offsets_ok a -> map_file b = map_file a -> shared_anonymous b = shared_anonymous a ->
  file_offset b = file_offset a -> shared_anonymous_offset b = shared_anonymous_offset a ->
  start_vpn b = start_vpn a -> end_vpn b <= end_vpn a -> offsets_ok b.
Proof.
  intros [Hf Hs] E1 E2 E3 E4 E5 E6. split; rewrite ?E1, ?E2, ?E3, ?E4, ?E5; intros Hi; [specialize (Hf Hi)|specialize (Hs Hi)];
    unfold PAGE_SIZE in *; lia.
Qed.

Lemma trim_start_page a x : area_ok a -> start_vpn a <= x < end_vpn a ->
  exists a', trim_start (x * PAGE_SIZE) a = Some a' /\ attr a' = attr a /\ va_start a' = x * PAGE_SIZE /\ va_end a' = va_end a /\
    data_frames a' = data_frames a /\ offsets_ok a' /\ (forall v, page_meta a' v = page_meta a v).
Proof.
  intros Ha Hx. pose proof (ao_range a Ha). pose proof (area_start_page a Ha).
  assert (Hb : va_start a <= x * PAGE_SIZE < va_end a).
  { unfold end_vpn, ceil, PAGE_SIZE in *. destruct (Z.eqb_spec (va_end a) 0); zlia. }
  destruct (trim_start_ok a (x * PAGE_SIZE) Ha) as (a' & E & ? & ? & ? & ? & ? & _); [by apply Z.mod_mul|done|].
  destruct (trim_start_attr _ _ _ E) as [? _]. exists a'. split_and!; done.
Qed.

Lemma end_page_user a : area_ok a -> va_end a <= end_vpn a * PAGE_SIZE <= USER_LAST + 1.
Proof. intros Ha. pose proof (ao_user a Ha). pose proof (ao_range a Ha). unfold end_vpn, ceil, USER_LAST, PAGE_SIZE in *. case_if; zlia. Qed.

Section Split.
Context (a : UserMapArea) (Ha : area_ok a).

Lemma left_piece os : start_vpn a < os <= end_vpn a ->
  piece a (start_vpn a) os (set_frames (filter (fun kv : Z * Z => kv.1 < os) (data_frames a)) (set_end (os * PAGE_SIZE) (metadata_from_another a))).
Proof.
  intros Hos. pose proof (area_ok_vpn a Ha). pose proof (end_page_user a Ha). pose proof (area_start_page a Ha).
  apply piece_intro; try done; try lia.
  - unfold end_vpn. cbn. apply ceil_page. lia.
  - cbn. unfold PAGE_SIZE in *. lia.
  - apply (offsets_range a); try done; [apply (ao_offsets a Ha)|]. unfold end_vpn at 1. cbn. rewrite ceil_page; lia.
  - apply filter_retain. intros v p Hp. cbn. apply (frames_bounds a v p) in Hp; [lia|done].
Qed.

Lemma right_piece oe m m' r : start_vpn a <= oe < end_vpn a -> trim_start (oe * PAGE_SIZE) (set_frames m' a) = Some r ->
  m = retain oe (end_vpn a) (data_frames a) -> piece a oe (end_vpn a) (set_frames m r).
Proof.
  intros Hoe E Em. destruct (trim_start_page a oe Ha Hoe) as (a' & E' & Hat & Hs & Hen & Hf & Ho & Hm).
  rewrite trim_start_frames, E' in E. injection E as <-. apply piece_intro; try done; try lia.
  - unfold end_vpn. cbn. by rewrite Hen.
  - pose proof (ao_user a Ha). cbn. rewrite Hs, Hen. split; [|done].
    unfold end_vpn, ceil, PAGE_SIZE in *. destruct (Z.eqb_spec (va_end a) 0); zlia.
Qed.

Lemma middle_piece os oe a' : start_vpn a <= os < oe -> oe <= end_vpn a -> trim_start (os * PAGE_SIZE) a = Some a' ->
  piece a os oe (set_frames (filter (fun kv : Z * Z => os <= kv.1 < oe) (data_frames a)) (set_end (oe * PAGE_SIZE) a')).
Proof.
  intros Hos Hoe E. destruct (trim_start_page a os Ha ltac:(lia)) as (a1 & E1 & Hat & Hs & Hen & Hf & Ho & Hm).
  assert (a1 = a') as -> by congruence. pose proof (end_page_user a Ha). pose proof (area_ok_vpn a Ha).
  assert (Hev : ceil (oe * PAGE_SIZE) = oe) by (apply ceil_page; lia).
  apply piece_intro; try done; try lia.
  - cbn. unfold PAGE_SIZE in *. lia.
  - apply (offsets_range a'); try done. unfold end_vpn at 1. cbn. unfold end_vpn. rewrite Hen. unfold end_vpn in Hoe. lia.
Qed.
End Split.

(** ** Views of pieces *)

Lemma piece_view a lo hi b v : piece a lo hi b -> view [b] v = if (lo <=? v) && (v <? hi) then Some (page_info a v) else None.
Proof.
  intros (_ & _ & Hs & He & Hv). rewrite view_one. unfold in_area in *. rewrite Hs, He in *. by destruct (_ && _) eqn:E; [rewrite Hv|].
Qed.

Lemma piece_ok a lo hi b : piece a lo hi b -> area_ok b.
Proof. intros (H & _). apply (po_ok _ _ H). Qed.

Section Update.
Context (rc : Z -> Z) (s e : Z) (np : Access).

(** A page of the range after the call: the new permission; copy-on-write off when
    it is not writable, on when its frame is shared and it is private. *)
Definition prot_page (i i' : PageInfo) : Prop :=
  exists c, i' = set_prot np c i /\ (acc_w np = false -> c = false) /\
    (acc_w np = true -> shared_page i = false -> forall p, pg_frame i = Some p -> 1 < rc p -> c = true).

Definition in_range (v : Z) : bool := (s <=? v) && (v <? e).

Definition prot_view (o o' : option PageInfo) (v : Z) : Prop :=
  match o with
  | Some i => if in_range v then exists i', o' = Some i' /\ prot_page i i' else o' = Some i
  | None => o' = None
  end.

Lemma frames_shared_spec (m : gmap Z Z) : frames_shared rc m = true <-> exists v p, m !! v = Some p /\ 1 < rc p.
Proof.
  unfold frames_shared. rewrite existsb_exists. split.
  - intros ([v p] & Hin & Hp). apply list_elem_of_In, elem_of_map_to_list in Hin. apply Z.ltb_lt in Hp. eauto.
  - intros (v & p & Hp & Hr). exists (v, p). split; [by apply list_elem_of_In, elem_of_map_to_list|]. by apply Z.ltb_lt.
Qed.

Lemma needs_cow_shared a : acc_w np = true -> shared_area a = false -> forall v p, data_frames a !! v = Some p -> 1 < rc p ->
  area_needs_mprotect_cow rc a np = true.
Proof.
  intros Hw Hs v p Hp Hr. unfold area_needs_mprotect_cow. rewrite Hw. unfold shared_area in Hs. apply orb_false_iff in Hs as [-> ->].
  apply frames_shared_spec. eauto.
Qed.

(** An area that needs no update has the right pages already. *)
Lemma no_update_page a v : mprotect_area_state_needs_update rc a np = false -> prot_page (page_info a v) (page_info a v).
Proof.
  unfold mprotect_area_state_needs_update. case_bool_decide as Hp; cbn [negb]; [|done]. intros H. exists (cow_flag a). split_and!.
  - unfold set_prot. rewrite <- Hp. done.
  - intros Hw. by rewrite Hw in H.
  - intros Hw Hs p Hf Hr. rewrite Hw in H. cbn [negb] in H. rewrite (needs_cow_shared a Hw Hs v p Hf Hr), andb_true_r in H.
    by apply negb_false_iff in H.
Qed.

Lemma apply_page a v : prot_page (page_info a v) (page_info (apply_mprotect_area_state rc a np) v).
Proof.
  unfold apply_mprotect_area_state. destruct (acc_w np) eqn:Hw; cbn [negb].
  - destruct (area_needs_mprotect_cow rc (set_perm np a) np) eqn:En.
    + exists true. by split_and!; [|congruence|].
    + exists (cow_flag a). split_and!; [done|congruence|]. intros _ Hs p Hp Hr.
      by rewrite (needs_cow_shared (set_perm np a) Hw Hs v p Hp Hr) in En.
  - exists false. by split_and!; [| |congruence].
Qed.

Lemma apply_same a : let b := apply_mprotect_area_state rc a np in
  va_start b = va_start a /\ va_end b = va_end a /\ data_frames b = data_frames a /\ (area_ok a -> area_ok b).
Proof.
  unfold apply_mprotect_area_state. destruct (acc_w np); cbn [negb]; [destruct (area_needs_mprotect_cow _ _ _)|];
    (split_and!; [done..|]; intros [? ? ? ? ?]; by split).
Qed.
End Update.

(** ** Areas that can be one *)

Lemma mergeable_facts a b perm cow : area_ok b -> area_ok a -> mprotect_areas_mergeable_with_state a b perm cow = true ->
  va_end a = va_start b /\ end_vpn a = start_vpn b /\ map_perm a = perm /\ cow_flag a = cow /\
  attr a = mkAttr perm (area_type b) (at_file (attr b)) (mmap_flags b) cow (at_anon (attr b)) /\
  (forall v, page_meta a v = set_prot perm cow (page_meta b v)) /\
  (is_Some (map_file a) -> is_Some (map_file b) /\ file_offset b = file_offset a + (start_vpn b - start_vpn a) * PAGE_SIZE) /\
  (is_Some (shared_anonymous a) -> is_Some (shared_anonymous b) /\ shared_anonymous_offset b = shared_anonymous_offset a + (start_vpn b - start_vpn a)).
Proof.
  intros Hb Ha H. unfold mprotect_areas_mergeable_with_state, mprotect_area_metadata_mergeable in H.
  rewrite !andb_true_iff, !bool_decide_eq_true, !eqb_true_iff, Z.eqb_eq in H.
  destruct H as [[[[[[[[[[[[[T1 T2] He] Hm] Hz] Hg] Hf] Hs] Hzs] Hpa] Hfb] Hsb] Hp] Hc].
  assert (Hv : end_vpn a = start_vpn b).
  { unfold end_vpn, start_vpn. rewrite He. apply aligned_ceil; [|apply (ao_aligned b Hb)]. pose proof (ao_range b Hb). lia. }
  assert (Hl : va_end a - va_start a = (start_vpn b - start_vpn a) * PAGE_SIZE).
  { pose proof (area_start_page a Ha). pose proof (area_start_page b Hb). unfold PAGE_SIZE in *. lia. }
  assert (Hfile : map_file a = map_file b /\ (is_Some (map_file a) -> file_offset b = file_offset a + (start_vpn b - start_vpn a) * PAGE_SIZE)).
  { unfold same_file_backing in Hfb. destruct (map_file a) as [f|], (map_file b) as [g|]; try done.
    apply andb_true_iff in Hfb as [->%Z.eqb_eq Hx%bool_decide_eq_true]. split; [done|]. intros _. unfold checked_add in Hx.
      case_if_in Hx; [|done]. injection Hx. lia. }
  assert (Hshared : shared_anonymous a = shared_anonymous b /\ (is_Some (shared_anonymous a) -> shared_anonymous_offset b = shared_anonymous_offset a + (start_vpn b - start_vpn a))).
  { unfold same_shared_anonymous_backing in Hsb. destruct (shared_anonymous a) as [f|], (shared_anonymous b) as [g|]; try done.
    apply andb_true_iff in Hsb as [->%Z.eqb_eq Hx%bool_decide_eq_true]. split; [done|]. intros _. unfold checked_add in Hx.
      case_if_in Hx; [|done]. injection Hx. lia. }
  destruct Hfile as [E1 E2], Hshared as [E3 E4]. split_and!; try done.
  - unfold attr. rewrite E1, E3. cbn. congruence.
  - intros v. unfold page_meta, page_info, set_prot. cbn. f_equal; try congruence.
    + rewrite <- E1. destruct (map_file a); [|done]. cbn. rewrite E2 by done. do 2 f_equal. unfold start_vpn. cbn. unfold PAGE_SIZE. lia.
    + rewrite <- E3. destruct (shared_anonymous a); [|done]. cbn. rewrite E4 by done. do 2 f_equal. unfold start_vpn. cbn. lia.
  - intros Hi. rewrite <- E1. auto.
  - intros Hi. rewrite <- E3. auto.
Qed.

Lemma extend_ok a b perm cow x m : area_ok a -> area_ok b -> mprotect_areas_mergeable_with_state a b perm cow = true ->
  va_start b < x <= USER_LAST + 1 -> ceil x <= end_vpn b -> (forall v p, m !! v = Some p -> start_vpn a <= v < ceil x) ->
  area_ok (set_end x (set_frames m a)).
Proof.
  intros Ha Hb Hm Hx Hc Hf. pose proof Ha as [Hal Hr Hu _ _]. pose proof (ao_offsets b Hb) as [Bf Bs].
  destruct (ao_offsets a Ha) as [Af As].
  destruct (mergeable_facts a b perm cow Hb Ha Hm) as (H1 & H2 & _ & _ & _ & _ & H3 & H4). split; cbn; try done; try lia.
  - intros v p Hp. apply in_area_spec. unfold start_vpn, end_vpn. cbn. apply (Hf v p Hp).
  - split; cbn; intros Hi; [destruct (H3 Hi) as [Hi' E]; specialize (Bf Hi'); specialize (Af Hi)|destruct (H4 Hi) as [Hi' E]; specialize (Bs Hi'); specialize (As Hi)];
      unfold start_vpn, end_vpn, PAGE_SIZE in *; cbn; lia.
Qed.

(** ** Merging is invisible *)

Lemma merge_into_ok a b : area_ok a -> area_ok b -> mprotect_areas_state_mergeable a b = true ->
  area_ok (merge_into a b) /\ start_vpn (merge_into a b) = start_vpn a /\ end_vpn (merge_into a b) = end_vpn b /\
  attr (merge_into a b) = attr a /\ (forall v, view [merge_into a b] v = view [a; b] v).
Proof.
  intros Ha Hb Hm. pose proof (mergeable_facts a b _ _ Hb Ha Hm) as (H1 & H2 & Hp & Hc & _ & Hmeta & _).
  pose proof (area_ok_vpn a Ha). pose proof (area_ok_vpn b Hb). split_and!; try done.
  - change (area_ok (set_end (va_end b) (set_frames (data_frames b ∪ data_frames a) a))).
    apply (extend_ok a b (map_perm b) (cow_flag b)); [done..| |done|]. { pose proof (ao_range b Hb). pose proof (ao_user b Hb). lia. }
    intros v p Hf. apply lookup_union_Some_raw in Hf as [Hf|[_ Hf]].
    + apply (frames_bounds b v p) in Hf; [|done]. unfold end_vpn in *. lia.
    + apply (frames_bounds a v p) in Hf; [|done]. unfold end_vpn in *. lia.
  - intros v. rewrite view_one, view_cons, view_one. unfold in_area.
    change (start_vpn (merge_into a b)) with (start_vpn a). change (end_vpn (merge_into a b)) with (end_vpn b).
    assert (Hbm : page_meta b v = page_meta a v).
    { rewrite Hmeta. unfold set_prot, page_meta, page_info. done. }
    assert (Hx : (start_vpn a <= v < end_vpn a -> data_frames b !! v = None) /\ (start_vpn b <= v < end_vpn b -> data_frames a !! v = None)).
    { split; intros Hv.
      - destruct (data_frames b !! v) as [p|] eqn:E; [|done]. apply (frames_bounds b v p) in E; [lia|done].
      - destruct (data_frames a !! v) as [p|] eqn:E; [|done]. apply (frames_bounds a v p) in E; [lia|done]. }
    rewrite !page_info_meta, Hbm. unfold merge_into at 1. cbn [data_frames set_frames set_end]. rewrite lookup_union.
    change (page_meta (merge_into a b) v) with (page_meta a v).
    destruct (Z.leb_spec (start_vpn a) v), (Z.ltb_spec v (end_vpn b)), (Z.ltb_spec v (end_vpn a)), (Z.leb_spec (start_vpn b) v); cbn [andb]; try done; try lia.
    + rewrite (proj1 Hx) by lia. by rewrite (left_id_L None _).
    + rewrite (proj2 Hx) by lia. by rewrite (right_id_L None _).
Qed.

Lemma merge_from_spec last a l : areas_ok (a :: l) ->
  areas_ok (merge_from last a l) /\ (forall v, view (merge_from last a l) v = view (a :: l) v) /\
  Forall (fun b => start_vpn a <= start_vpn b) (merge_from last a l) /\
  forall (Q : Attr -> Prop), Forall (fun b => Q (attr b)) (a :: l) -> Forall (fun b => Q (attr b)) (merge_from last a l).
Proof.
  revert a. induction l as [|b l IH]; intros a Hok; cbn [merge_from].
  { split_and!; [done|done|by constructor|done]. }
  apply areas_ok_cons in Hok as (Ha & Hab & Hl). pose proof Hl as (Hb & Hbl & Hl')%areas_ok_cons.
  apply Forall_cons in Hab as [Hab Hal]. pose proof (area_ok_vpn a Ha). pose proof (area_ok_vpn b Hb).
  assert (Hsame : areas_ok (a :: b :: l)). { apply areas_ok_cons. split_and!; [done|by constructor|done]. }
  assert (Hstart : Forall (fun c => start_vpn a <= start_vpn c) (b :: l)).
  { apply Forall_forall. intros c Hc. assert (before a c); [|unfold before in *; lia].
    apply elem_of_cons in Hc as [-> | Hc]; [done|]. rewrite Forall_forall in Hal. auto. }
  case_raw E1; [case_raw E2|].
  - destruct (merge_into_ok a b Ha Hb E2) as (Hc & Hs & He & Hat & Hv).
    destruct (IH (merge_into a b)) as (I1 & I2 & I3 & I4).
    { apply areas_ok_cons. split_and!; [done| |done]. eapply Forall_impl; [exact Hbl|]. intros c. unfold before. by rewrite He. }
    split_and!; [done| | |].
    + intros v. rewrite I2. change (merge_into a b :: l) with ([merge_into a b] ++ l). change (a :: b :: l) with ([a; b] ++ l).
      by rewrite !view_app, Hv.
    + by rewrite Hs in I3.
    + intros Q [Qa [Qb Ql]%Forall_cons]%Forall_cons. apply I4. constructor; [by rewrite Hat|done].
  - destruct (IH b Hl) as (I1 & I2 & I3 & I4). split_and!.
    + apply areas_ok_cons. split_and!; [done| |done]. eapply Forall_impl; [exact I3|]. intros c. unfold before in *. lia.
    + intros v. by rewrite !(view_cons a), I2.
    + constructor; [lia|]. eapply Forall_impl; [exact I3|]. cbn. unfold before in *. lia.
    + intros Q [Qa Ql]%Forall_cons. constructor; auto.
  - split_and!; [done|done|by constructor|done].
Qed.

Lemma needs_cow_private rc np a : area_needs_mprotect_cow rc a np = true -> private_attr (attr a) = true.
Proof.
  unfold area_needs_mprotect_cow, private_attr. cbn. destruct (acc_w np); [|done]. cbn [negb].
  destruct (bool_decide (area_type a = Shm)); [done|]. by destruct (bool_decide (area_type a = Mmap) && bool_decide (mmap_flags a = MapShared)).
Qed.

(** ** The update loop *)

Section Loop.
Context (rc : Z -> Z) (s e : Z) (np : Access) (Hse : s < e).
(** A property of what the copy-on-write decisions look at, with a condition [G] on
    the areas that are changed. *)
Context (Q G : Attr -> Prop).
Context (HQ : forall A c, Q A -> G A -> (c = true /\ private_attr A = true) \/ c = at_cow A -> Q (mkAttr np (at_type A) (at_file A) (at_flags A) (if acc_w np then c else false) (at_anon A))).

Abbreviation good := (fun a => Q (attr a)).
Abbreviation pview := (prot_view rc s e np).

(** The areas [la] in the place of [a]. *)
Record updates a (la : list UserMapArea) : Prop := {
  up_ok : areas_ok la;
  up_bounds : Forall (fun b => start_vpn a <= start_vpn b /\ end_vpn b <= end_vpn a) la;
  up_view : forall v, pview (view [a] v) (view la v) v;
  up_attr : Q (attr a) -> G (attr a) -> Forall good la }.

Lemma apply_attr a : Q (attr a) -> G (attr a) -> Q (attr (apply_mprotect_area_state rc a np)).
Proof.
  intros Hq Hg. unfold apply_mprotect_area_state. destruct (acc_w np) eqn:Hw; cbn [negb].
  - destruct (area_needs_mprotect_cow _ _ _) eqn:En.
    + apply needs_cow_private in En. pose proof (HQ (attr a) true Hq Hg (or_introl (conj eq_refl En))) as H. by rewrite ?Hw in H.
    + pose proof (HQ (attr a) (cow_flag a) Hq Hg (or_intror eq_refl)) as H. by rewrite ?Hw in H.
  - pose proof (HQ (attr a) (cow_flag a) Hq Hg (or_intror eq_refl)) as H. by rewrite ?Hw in H.
Qed.

Lemma update_none a : area_ok a -> mprotect_area_state_needs_update rc a np = false -> updates a [a].
Proof.
  intros Ha Hn. split; [by apply areas_ok_one|by constructor|..].
  - intros v. unfold prot_view. rewrite view_one. destruct (in_area a v); [|done]. case_if; [|done].
    eexists. split; [done|]. by apply no_update_page.
  - intros Hq _. by constructor.
Qed.

Lemma update_whole a : area_ok a -> s <= start_vpn a -> end_vpn a <= e -> updates a [apply_mprotect_area_state rc a np].
Proof.
  intros Ha Hs He. destruct (apply_same rc np a) as (E1 & E2 & E3 & Hok). set (b := apply_mprotect_area_state rc a np) in *.
  assert (Es : start_vpn b = start_vpn a /\ end_vpn b = end_vpn a) by (unfold start_vpn, end_vpn; by rewrite E1, E2).
  split; [by apply areas_ok_one, Hok|constructor; [lia|done]|..].
  - intros v. unfold prot_view. rewrite !view_one. unfold in_area. destruct Es as [-> ->].
    destruct (Z.leb_spec (start_vpn a) v), (Z.ltb_spec v (end_vpn a)); cbn [andb]; try done.
    unfold in_range. rewrite (proj2 (Z.leb_le _ _)), (proj2 (Z.ltb_lt _ _)) by lia. cbn [andb].
    eexists. split; [done|]. apply apply_page.
  - intros Hq Hg. constructor; [by apply apply_attr|done].
Qed.

(** An optional piece of an area. *)
Definition opt_piece a (lo hi : Z) (o : list UserMapArea) : Prop := (o = [] /\ lo = hi) \/ (exists r, o = [r] /\ lo < hi /\ piece a lo hi r).

Lemma opt_piece_facts a lo hi o : opt_piece a lo hi o -> areas_ok o /\ (length o <= 1)%nat /\
  Forall (fun b => start_vpn b = lo /\ end_vpn b = hi /\ attr b = attr a) o /\
  forall v, view o v = if (lo <=? v) && (v <? hi) then Some (page_info a v) else None.
Proof.
  intros [[-> ->]|(r & -> & Hlt & Hp)].
  - split_and!; [apply areas_ok_nil|cbn; lia|constructor|]. intros v. rewrite view_nil.
    destruct (Z.leb_spec hi v), (Z.ltb_spec v hi); cbn [andb]; try done; lia.
  - pose proof Hp as (H1 & H2 & H3 & H4 & _). split_and!; [apply areas_ok_one, (po_ok _ _ H1)|cbn; lia|by constructor|].
    intros v. by apply piece_view.
Qed.

Lemma split_updates a os oe lft mid rgt : area_ok a -> start_vpn a <= os < oe -> oe <= end_vpn a ->
  (forall v, in_area a v = true -> in_range s e v = (os <=? v) && (v <? oe)) ->
  opt_piece a (start_vpn a) os lft -> piece a os oe mid -> opt_piece a oe (end_vpn a) rgt ->
  updates a (lft ++ apply_mprotect_area_state rc mid np :: rgt).
Proof.
  intros Ha Hos Hoe Hr (L1 & _ & L2 & L3)%opt_piece_facts Hmid (R1 & _ & R2 & R3)%opt_piece_facts.
  destruct (apply_same rc np mid) as (E1 & E2 & E3 & Hok). set (b := apply_mprotect_area_state rc mid np) in *.
  pose proof Hmid as (M1 & M2 & M3 & M4 & M5).
  assert (Es : start_vpn b = os /\ end_vpn b = oe) by (unfold start_vpn, end_vpn in *; by rewrite E1, E2).
  rewrite Forall_forall in L2, R2. split.
  - apply areas_ok_app. split_and!; [done| |].
    + apply areas_ok_cons. split_and!; [apply Hok, (po_ok _ _ M1)| |done]. apply Forall_forall. intros c Hc. destruct (R2 c Hc).
      unfold before. lia.
    + intros x y Hx Hy. destruct (L2 x Hx) as (_ & ? & _). unfold before. apply elem_of_cons in Hy as [-> | Hy]; [lia|]. destruct (R2 y Hy). lia.
  - apply Forall_app. split; [|constructor]; [apply Forall_forall; intros c Hc; destruct (L2 c Hc) as (? & ? & _); lia|lia|].
    apply Forall_forall. intros c Hc. destruct (R2 c Hc) as (? & ? & _). lia.
  - intros v. assert (Hib : in_area b v = (os <=? v) && (v <? oe)) by (unfold in_area; by destruct Es as [-> ->]).
    unfold prot_view. rewrite view_one, view_app, view_cons, L3, R3, Hib.
    destruct (in_area a v) eqn:Ev.
    + rewrite Hr by done. apply in_area_spec in Ev.
      destruct (Z.leb_spec os v), (Z.ltb_spec v oe), (Z.leb_spec (start_vpn a) v), (Z.ltb_spec v os); cbn [andb]; try done; try lia.
      * eexists. split; [done|]. rewrite <- M5 by (apply in_area_spec; lia). apply apply_page.
      * rewrite (proj2 (Z.leb_le oe v)), (proj2 (Z.ltb_lt v (end_vpn a))) by lia. done.
    + apply in_area_false in Ev.
      destruct (Z.leb_spec os v), (Z.ltb_spec v oe), (Z.leb_spec (start_vpn a) v), (Z.ltb_spec v os), (Z.leb_spec oe v), (Z.ltb_spec v (end_vpn a));
        cbn [andb]; try done; lia.
  - intros Hq Hg. apply Forall_app. split; [|constructor].
    + apply Forall_forall. intros c Hc. destruct (L2 c Hc) as (_ & _ & ->). done.
    + apply apply_attr; by rewrite M2.
    + apply Forall_forall. intros c Hc. destruct (R2 c Hc) as (_ & _ & ->). done.
Qed.

Lemma update_split a : area_ok a -> let os := Z.max s (start_vpn a) in let oe := Z.min e (end_vpn a) in os < oe ->
  exists lft mid rgt, split_mprotect_area rc a os oe np = Some (lft, mid, rgt) /\ updates a (lft ++ mid :: rgt) /\
    (length lft <= 1)%nat /\ (length rgt <= 1)%nat.
Proof.
  intros Ha os oe Hoo. pose proof (area_ok_vpn a Ha) as Hv. unfold split_mprotect_area. cbn [mbind option_bind].
  set (lft := if start_vpn a <? os then _ else []).
  assert (Hr : exists rgt, (if oe <? end_vpn a then r ← trim_start (oe * PAGE_SIZE) (metadata_from_another a);
     Some [set_frames (filter (fun kv : Z * Z => os <= kv.1 /\ oe <= kv.1) (data_frames a)) r] else Some []) = Some rgt /\
     opt_piece a oe (end_vpn a) rgt).
  { destruct (Z.ltb_spec oe (end_vpn a)); [|exists []; split; [done|left; split; [done|lia]]].
    destruct (trim_start_page a oe Ha) as (a' & E & _); [lia|]. unfold metadata_from_another. rewrite trim_start_frames, E. cbn.
    eexists. split; [done|]. right. eexists. split_and!; [done|lia|]. eapply (right_piece a Ha oe _ ∅); [lia|by rewrite trim_start_frames, E|].
    apply filter_retain. intros v p Hp. apply (frames_bounds a v p) in Hp; [|done]. cbn. lia. }
  destruct Hr as (rgt & -> & Hrgt). cbn [mbind option_bind].
  destruct (trim_start_page a os Ha) as (a' & E & _); [lia|]. rewrite E. cbn [mbind option_bind].
  pose proof (middle_piece a Ha os oe a' ltac:(lia) ltac:(lia) E) as Hmid. set (mid := set_frames _ (set_end (oe * PAGE_SIZE) a')) in *.
  assert (Hlft : opt_piece a (start_vpn a) os lft).
  { subst lft. destruct (Z.ltb_spec (start_vpn a) os); [|left; split; [done|lia]]. right. eexists. split_and!; [done|done|].
    apply left_piece; [done|lia]. }
  clearbody lft mid. exists lft, (apply_mprotect_area_state rc mid np), rgt. split; [done|].
  split_and!; [|by apply (opt_piece_facts _ _ _ _ Hlft)|by apply (opt_piece_facts _ _ _ _ Hrgt)].
  apply (split_updates a os oe); try done; [lia..|]. intros v Hin. apply in_area_spec in Hin. unfold in_range.
  destruct (Z.leb_spec s v), (Z.ltb_spec v e), (Z.leb_spec os v), (Z.ltb_spec v oe); cbn [andb]; try done; lia.
Qed.
Lemma range_cow_page a v lo hi : lo <= v < hi ->
  let c := mprotect_range_needs_cow rc a lo hi np in
  (acc_w np = false -> c = false) /\
  (acc_w np = true -> shared_area a = false -> forall p, data_frames a !! v = Some p -> 1 < rc p -> c = true).
Proof.
  intros Hv c. subst c. unfold mprotect_range_needs_cow. split; [by intros ->|]. intros Hw Hs p Hp Hr.
  unfold shared_area in Hs. apply orb_false_iff in Hs as [E1 E2]. rewrite Hw, E1, E2. cbn [negb orb].
  apply frames_shared_spec. exists v, p. split; [|done]. rewrite retain_lookup. by rewrite bool_decide_eq_true_2.
Qed.

(** The boundary between two areas moved over the range. *)
Record expanded prev a lft rgt : Prop := {
  ex_ok : areas_ok [lft; rgt];
  ex_lo : start_vpn lft = start_vpn prev;
  ex_mid : start_vpn rgt = e;
  ex_hi : end_vpn rgt = end_vpn a;
  ex_gap : end_vpn prev = start_vpn a;
  ex_attr : attr lft = attr prev /\ attr rgt = attr a;
  ex_prev : forall v, in_area prev v = true -> view [lft; rgt] v = Some (page_info prev v);
  ex_view : forall v, in_area a v = true -> pview (Some (page_info a v)) (view [lft; rgt] v) v }.

Lemma expand_spec prev a : area_ok prev -> area_ok a -> before prev a ->
  let os := Z.max s (start_vpn a) in let oe := Z.min e (end_vpn a) in os < oe ->
  exists o, try_expand_mprotect_prefix rc (Some prev) a os oe np = Some o /\
    match o with Some (lft, rgt) => expanded prev a lft rgt | None => True end.
Proof.
  intros Hp Ha Hb os oe Hoo. unfold try_expand_mprotect_prefix. case_raw E1; [by exists None|]. case_raw E2; [by exists None|].
  apply orb_false_iff in E1 as [E1%negb_false_iff%Z.eqb_eq E3%Z.leb_gt]. apply negb_false_iff in E2.
  assert (Ee : oe = e) by (subst oe; lia). assert (Hs : s <= start_vpn a) by (subst os; lia). clearbody oe os. subst os oe.
  pose proof (area_ok_vpn a Ha) as Hva. pose proof (area_ok_vpn prev Hp) as Hvp.
  destruct (mergeable_facts prev a _ _ Ha Hp E2) as (F1 & F2 & _ & _ & _ & Fm & _).
  set (prefix := filter (fun kv : Z * Z => kv.1 < e) (data_frames a)).
  assert (Hprefix : prefix = retain (start_vpn a) e (data_frames a)).
  { apply filter_retain. intros v p Hf. apply (frames_bounds a v p) in Hf; [cbn; lia|done]. }
  destruct (trim_start_page a e Ha ltac:(lia)) as (a' & Et & _). rewrite trim_start_frames, Et. cbn [mbind option_bind option_map].
  eexists. split; [done|]. set (rest := filter _ (data_frames a)).
  assert (Hrest : rest = retain e (end_vpn a) (data_frames a)).
  { apply filter_retain. intros v p Hf. apply (frames_bounds a v p) in Hf; [cbn; lia|done]. }
  assert (Hrp : piece a e (end_vpn a) (set_frames rest a')).
  { apply (right_piece a Ha e rest ∅ (set_frames ∅ a')); [lia|by rewrite trim_start_frames, Et|done]. }
  set (lft := set_end (e * PAGE_SIZE) (set_frames (prefix ∪ data_frames prev) prev)).
  assert (Hce : end_vpn lft = e) by (apply ceil_page; lia).
  assert (Hlok : area_ok lft).
  { apply (extend_ok prev a np (mprotect_range_needs_cow rc a (start_vpn a) e np)); try done.
    - pose proof (area_start_page a Ha). pose proof (end_page_user a Ha). unfold PAGE_SIZE in *. lia.
    - change (end_vpn lft <= end_vpn a). lia.
    - change (forall v p, (prefix ∪ data_frames prev) !! v = Some p -> start_vpn prev <= v < end_vpn lft).
      intros v p [Hf|[_ Hf]]%lookup_union_Some_raw; [|apply (frames_bounds prev v p) in Hf; [lia|done]].
      rewrite Hprefix, retain_lookup in Hf. case_bool_decide; [|done]. lia. }
  pose proof Hrp as (R1 & R2 & R3 & R4 & R5).
  assert (Hfp : forall v, start_vpn a <= v -> data_frames prev !! v = None).
  { intros v Hv. destruct (data_frames prev !! v) as [p|] eqn:E; [|done]. apply (frames_bounds prev v p) in E; [lia|done]. }
  split; try done.
  - apply areas_ok_two; [done|apply (piece_ok _ _ _ _ Hrp)|unfold before; lia].
  - intros v Hv. apply in_area_spec in Hv. rewrite view_cons. unfold in_area at 1. rewrite Hce. change (start_vpn lft) with (start_vpn prev).
    rewrite (proj2 (Z.leb_le _ _)), (proj2 (Z.ltb_lt _ _)) by lia. cbn [andb]. f_equal. rewrite !page_info_meta. f_equal.
    cbn [lft data_frames set_end set_frames]. rewrite lookup_union, Hprefix, retain_lookup. rewrite bool_decide_eq_false_2 by lia.
    by rewrite (left_id_L None _).
  - intros v Hv. apply in_area_spec in Hv. rewrite view_cons, view_one. unfold in_area. rewrite Hce, R3, R4. change (start_vpn lft) with (start_vpn prev).
    unfold prot_view, in_range. rewrite (proj2 (Z.leb_le (start_vpn prev) v)), (proj2 (Z.leb_le s v)) by lia. cbn [andb].
    destruct (Z.ltb_spec v e).
    + eexists. split; [done|]. exists (mprotect_range_needs_cow rc a (start_vpn a) e np). split; [|by apply (range_cow_page a v); lia].
      rewrite !page_info_meta. change (page_meta lft v) with (page_meta prev v). rewrite Fm. unfold with_frame, set_prot. cbn. f_equal.
      change (data_frames lft) with (prefix ∪ data_frames prev). rewrite lookup_union, Hfp by lia.
      rewrite (right_id_L None _), Hprefix, retain_lookup. rewrite bool_decide_eq_true_2 by lia. done.
    + rewrite (proj2 (Z.leb_le e v)), (proj2 (Z.ltb_lt v (end_vpn a))) by lia. cbn [andb]. rewrite R5; [done|]. apply in_area_spec. lia.
Qed.
(** What the loop leaves, from the areas it has passed and those it has not. *)
Record looped (passed l res : list UserMapArea) : Prop := {
  lp_ok : areas_ok res;
  lp_view : forall v, match view l v with Some i => pview (Some i) (view res v) v | None => view res v = view (rev passed) v end;
  lp_tail : exists tl, res = rev (tail passed) ++ tl;
  lp_attr : Forall good (rev passed ++ l) -> Forall (fun a => start_vpn a < e -> G (attr a)) l -> Forall good res }.

Lemma replace_ok l1 a l2 la : areas_ok (l1 ++ a :: l2) -> areas_ok la ->
  Forall (fun b => start_vpn a <= start_vpn b /\ end_vpn b <= end_vpn a) la -> areas_ok (l1 ++ la ++ l2).
Proof.
  intros H Hla Hb. apply areas_ok_app in H as (H1 & H2 & H3). apply areas_ok_cons in H2 as (_ & H4 & H5). rewrite Forall_forall in Hb, H4.
  apply areas_ok_app. split_and!; [done|apply areas_ok_app; split_and!; [done..|]|].
  - intros x y Hx Hy. specialize (Hb x Hx). specialize (H4 y Hy). unfold before in *. lia.
  - intros x y Hx [Hy|Hy]%elem_of_app.
    + specialize (Hb y Hy). assert (before x a) by (apply H3; [done|left]). unfold before in *. lia.
    + apply H3; [done|by right].
Qed.

Lemma view_split_None l1 a l2 v : areas_ok (l1 ++ a :: l2) -> in_area a v = true -> view l1 v = None /\ view l2 v = None.
Proof.
  intros H Hv. apply areas_ok_app in H as (H1 & H2 & H3). apply areas_ok_cons in H2 as (_ & H4 & H5). unfold view. split.
  - assert (E : area_at l1 v = None); [|by rewrite E]. apply area_at_None, Forall_forall. intros b Hb.
    assert (Hba : before b a) by (apply H3; [done|left]). unfold before in Hba. apply in_area_spec in Hv. apply in_area_false. lia.
  - by rewrite (before_disjoint a l2 v).
Qed.

Lemma loop_step passed a l la res : areas_ok (rev passed ++ a :: l) -> start_vpn a < e -> la <> [] -> updates a la ->
  looped (rev la ++ passed) l res -> looped passed (a :: l) res.
Proof.
  intros Hok Hlt Hne [U1 U2 U3 U4] [L1 L2 (tl & L3) L4].
  assert (Er : rev (rev la ++ passed) = rev passed ++ la) by (by rewrite rev_app_distr, rev_involutive). rewrite Er in *. split; [done|..].
  - intros v. specialize (L2 v). specialize (U3 v). rewrite view_one in U3. rewrite view_cons. destruct (in_area a v) eqn:Ev.
    + destruct (view_split_None _ _ _ _ Hok Ev) as [E1 E2]. rewrite E2 in L2. by rewrite L2, view_app, E1.
    + destruct (view l v); [done|]. rewrite L2, view_app. cbn in U3. rewrite U3. by destruct (view (rev passed) v).
  - assert (Hr : exists t, rev la = t ++ tail (rev la) /\ t <> []).
    { destruct (rev la) as [|x t] eqn:E; [|by exists [x]]. apply (f_equal (@rev _)) in E. rewrite rev_involutive in E. done. }
    destruct (rev la) as [|x t] eqn:E; [by destruct Hr as (? & Hr & Hn); rewrite app_nil_r in Hr; subst|]. cbn [tail app] in L3.
    rewrite rev_app_distr in L3. destruct passed as [|y p]; cbn [tail rev]; [by exists (rev t ++ tl); rewrite L3, <- app_assoc|].
    exists ([y] ++ rev t ++ tl). rewrite L3. cbn [rev]. by rewrite <- !app_assoc.
  - intros Hg [Ga Gl]%Forall_cons. apply L4; [|done]. apply Forall_app in Hg as [H1 [Ha H2]%Forall_cons].
    rewrite !Forall_app. split_and!; [done|by apply U4; [|apply Ga]|done].
Qed.

Lemma rev_short {A} (l : list A) : (length l <= 1)%nat -> rev l = l.
Proof. destruct l as [|x [|]]; cbn; [done..|lia]. Qed.

Lemma loop_stop passed l : areas_ok (rev passed ++ l) -> Forall (fun a => e <= start_vpn a) l -> looped passed l (rev passed ++ l).
Proof.
  intros Hok Hl. split; [done|..].
  - intros v. destruct (view l v) as [i|] eqn:E; rewrite view_app.
    + unfold view in E. destruct (area_at l v) as [a|] eqn:Ea; [|done]. injection E as <-. pose proof Ea as [Hin Hv]%area_at_Some.
      assert (view (rev passed) v = None) as ->.
      { apply list_elem_of_split in Hin as (l1 & l2 & ->). rewrite app_assoc in Hok.
        destruct (view_split_None _ _ _ v Hok) as [H1 _]; [by apply in_area_spec|]. rewrite view_app in H1. by destruct (view (rev passed) v). }
      unfold prot_view, in_range. rewrite Forall_forall in Hl. specialize (Hl a Hin).
      rewrite (proj2 (Z.ltb_ge v e)) by lia. rewrite andb_false_r. unfold view. by rewrite Ea.
    + rewrite E. by destruct (view (rev passed) v).
  - destruct passed as [|y p]; [by eexists|]. exists ([y] ++ l). cbn [tail rev]. by rewrite <- app_assoc.
  - done.
Qed.
Lemma loop_expand passed prev a l lft rgt : areas_ok (rev (prev :: passed) ++ a :: l) -> Forall (fun b => e <= start_vpn b) l ->
  expanded prev a lft rgt -> looped (prev :: passed) (a :: l) (rev (lft :: passed) ++ rgt :: l).
Proof.
  intros Hok Hl [E1 E2 E3 E4 Eg [E5 E6] E7 E8]. cbn [rev] in *. rewrite <- app_assoc in *. cbn [app] in *.
  pose proof E1 as (Hlft & Hlr & Hrgt)%areas_ok_cons. apply Forall_cons in Hlr as [Hlr _]. apply areas_ok_cons in Hrgt as (Hrgt & _ & _).
  pose proof (area_ok_vpn _ Hlft). pose proof (area_ok_vpn _ Hrgt).
  pose proof Hok as (P1 & P2 & P3)%areas_ok_app. pose proof P2 as (Hp & P4 & P5)%areas_ok_cons. pose proof P5 as (Ha & P6 & P7)%areas_ok_cons.
  apply Forall_cons in P4 as [Hpa P4].
  assert (Hres : areas_ok (rev passed ++ [lft; rgt] ++ l)).
  { rewrite Forall_forall in P6. apply areas_ok_app. split_and!; [done|apply areas_ok_app; split_and!; [done..|]|].
    - intros x y Hx Hy. specialize (P6 y Hy). assert (end_vpn x <= end_vpn a); [|unfold before in *; lia].
      apply elem_of_cons in Hx as [-> | ->%list_elem_of_singleton]; unfold before in *; lia.
    - intros x y Hx Hy. apply elem_of_app in Hy as [Hy|Hy]; [|apply P3; [done|by right; right]].
      assert (before x prev) by (apply P3; [done|left]). apply elem_of_cons in Hy as [-> | ->%list_elem_of_singleton]; unfold before in *; lia. }
  split; [done|..].
  - intros v. cbn [rev]. change (rev passed ++ lft :: rgt :: l) with (rev passed ++ [lft; rgt] ++ l). rewrite !view_app, !view_cons, view_nil.
    destruct (in_area a v) eqn:Ea.
    + destruct (view_split_None (rev passed ++ [prev]) a l v) as [V1 V2]; [by rewrite <- app_assoc|done|]. rewrite view_app in V1.
      destruct (view (rev passed) v); [done|]. rewrite V2. specialize (E8 v Ea). rewrite view_cons, view_one in E8.
      by destruct (in_area lft v), (in_area rgt v).
    + destruct (in_area prev v) eqn:Ep.
      * destruct (view_split_None (rev passed) prev (a :: l) v Hok Ep) as [V1 V2]. rewrite view_cons, Ea in V2. rewrite V1, V2.
        specialize (E7 v Ep). rewrite view_cons, view_one in E7. by destruct (in_area lft v), (in_area rgt v).
      * assert (in_area lft v = false /\ in_area rgt v = false) as [-> ->].
        { rewrite in_area_false in Ea, Ep. split; apply in_area_false; unfold before in *; lia. }
        destruct (view l v) as [i|] eqn:El; [|by destruct (view (rev passed) v)].
        pose proof (loop_stop (rev (rev passed ++ [prev; a])) l) as Hs. rewrite rev_involutive, <- app_assoc in Hs.
        specialize (lp_view _ _ _ (Hs Hok Hl) v) as Hv. rewrite El in Hv. unfold prot_view in *.
        rewrite view_app in Hv. cbn [app] in Hv. rewrite !view_cons, Ea, Ep in Hv. by rewrite El in Hv.
  - by eexists.
  - cbn [rev]. rewrite <- app_assoc. intros [H1 [H2 [H3 H4]%Forall_cons]%Forall_cons]%Forall_app _.
    apply Forall_app. split; [done|]. constructor; [by rewrite E5|]. constructor; [by rewrite E6|done].
Qed.

Lemma mprotect_update_spec l : forall fuel passed mg, (length l < fuel)%nat -> areas_ok (rev passed ++ l) -> Forall (fun a => s < end_vpn a) l ->
  exists res mg', mprotect_update rc fuel s e np passed l mg = Some (res, mg') /\ looped passed l res.
Proof.
  induction l as [|a l IH]; intros fuel passed mg Hfuel Hok Hs; (destruct fuel as [|fuel]; [cbn in Hfuel; lia|]); cbn [mprotect_update].
  { eexists _, _. split; [done|]. pose proof (loop_stop passed [] Hok) as H. rewrite app_nil_r in H. by apply H. }
  apply Forall_cons in Hs as [Hsa Hs]. cbn [length] in Hfuel.
  pose proof Hok as (_ & (Ha & Hal & Hl)%areas_ok_cons & Hpass)%areas_ok_app. pose proof (area_ok_vpn a Ha).
  destruct (Z.leb_spec e (start_vpn a)).
  { eexists _, _. split; [done|]. apply loop_stop; [done|]. constructor; [done|]. eapply Forall_impl; [exact Hal|].
    intros b. unfold before. lia. }
  assert (Hgo : forall la mg, la <> [] -> updates a la ->
    exists res mg', mprotect_update rc fuel s e np (rev la ++ passed) l mg = Some (res, mg') /\ looped passed (a :: l) res).
  { intros la mg1 Hne Hu. destruct (IH fuel (rev la ++ passed) mg1) as (res & mg' & E & Hloop); [lia| |done|].
    - rewrite rev_app_distr, rev_involutive, <- app_assoc. apply (replace_ok _ a); [done|apply (up_ok _ _ Hu)|apply (up_bounds _ _ Hu)].
    - exists res, mg'. split; [done|]. by apply (loop_step _ _ _ la). }
  destruct (mprotect_area_state_needs_update rc a np) eqn:En; cbn [negb].
  2: { apply (Hgo [a]); [done|]. by apply update_none. }
  case_raw Ew.
  { apply andb_true_iff in Ew as [?%Z.eqb_eq ?%Z.eqb_eq]. apply (Hgo [apply_mprotect_area_state rc a np]); [done|].
    apply update_whole; [done|lia..]. }
  set (os := Z.max s (start_vpn a)). set (oe := Z.min e (end_vpn a)). assert (Hoo : os < oe) by lia.
  assert (Hsplit : exists res mg', ('(lft, middle, rgt) ← split_mprotect_area rc a os oe np;
     mprotect_update rc fuel s e np (rgt ++ middle :: lft ++ passed) l true) = Some (res, mg') /\ looped passed (a :: l) res).
  { destruct (update_split a Ha Hoo) as (lft & mid & rgt & Es & Hu & H1 & H2). fold os oe in Es. rewrite Es. cbn [mbind option_bind].
    specialize (Hgo (lft ++ mid :: rgt) true). rewrite rev_app_distr in Hgo. cbn [rev] in Hgo. rewrite (rev_short lft), (rev_short rgt) in Hgo by done.
    rewrite <- !app_assoc in Hgo. cbn [app] in Hgo. apply Hgo; [by destruct lft|done]. }
  destruct passed as [|prev passed]; cbn [head]; [exact Hsplit|].
  destruct (expand_spec prev a) as (o & Eo & Ho); [|done| |done|].
  { apply (areas_ok_in _ _ Hok). cbn [rev]. rewrite !elem_of_app. left. right. by apply list_elem_of_singleton. }
  { apply Hpass; [|left]. cbn [rev]. apply elem_of_app. right. by apply list_elem_of_singleton. }
  fold os oe in Eo. rewrite Eo. cbn [mbind option_bind]. destruct o as [[lft rgt]|]; [|exact Hsplit].
  destruct fuel as [|fuel]; [lia|]. cbn [mprotect_update tail]. rewrite (proj2 (Z.leb_le e (start_vpn rgt))) by (rewrite (ex_mid _ _ _ _ Ho); lia).
  eexists _, _. split; [done|]. apply loop_expand; [done| |done]. pose proof (ex_ok _ _ _ _ Ho) as (_ & _ & (Hr & _ & _)%areas_ok_cons)%areas_ok_cons.
  pose proof (area_ok_vpn rgt Hr). pose proof (ex_mid _ _ _ _ Ho). pose proof (ex_hi _ _ _ _ Ho).
  eapply Forall_impl; [exact Hal|]. intros b. unfold before. lia.
Qed.
End Loop.
