(* ===== verification/VmProtSpec.v ===== *)
(** * Virtual memory: the whole of [mprotect]

    The walk over the page table after the areas are updated, and the call. *)

From Stdlib Require Import Sorted.
From stdpp Require Import gmap.
From S2P Require Import Prelude SysErr FrameAlloc Vm VmSpec VmSys VmMap VmProt.

Implicit Types a b : UserMapArea.
Implicit Types l : list UserMapArea.
Implicit Types pt : PageTable.

(** ** The walk *)

(** [g] gives at least the access that [f] gives. *)
Definition acc_sub (f g : Access) : Prop :=
  (acc_r f = true -> acc_r g = true) /\ (acc_w f = true -> acc_w g = true) /\ (acc_x f = true -> acc_x g = true) /\ (acc_u f = true -> acc_u g = true).

Lemma no_shootdown_sub f g : pte_change_requires_remote_shootdown f g = false -> acc_sub f g.
Proof.
  unfold pte_change_requires_remote_shootdown, acc_sub. destruct f as [[] [] [] []], g as [[] [] [] []]; cbn; intros H; split_and!; done.
Qed.

(** No entry that was there before the walk gives less access after it. *)
Definition no_revocation pt pt' : Prop :=
  forall v e, pt !! v = Some e -> exists e', pt' !! v = Some e' /\ pte_ppn e' = pte_ppn e /\ acc_sub (pte_acc e) (pte_acc e').

Lemma no_revocation_refl pt : no_revocation pt pt.
Proof. intros v e He. exists e. by split_and!. Qed.

Lemma no_revocation_trans pt1 pt2 pt3 : no_revocation pt1 pt2 -> no_revocation pt2 pt3 -> no_revocation pt1 pt3.
Proof.
  intros H1 H2 v e He. destruct (H1 v e He) as (e' & E' & P' & (A1 & A2 & A3 & A4)).
  destruct (H2 v e' E') as (e'' & E'' & P'' & (B1 & B2 & B3 & B4)). exists e''. unfold acc_sub. split_and!; try done; auto. congruence.
Qed.

Lemma walk_page_lookup new w x v :
  wk_pt (walk_page new w x) !! v = if bool_decide (v = x) then option_map (fun e => mkPTE (pte_ppn e) new) (wk_pt w !! v) else wk_pt w !! v.
Proof.
  unfold walk_page. case_bool_decide as Ev; [subst x|].
  - destruct (wk_pt w !! v) as [e|] eqn:E; [|done]. cbn [option_map]. case_bool_decide as En; cbn [wk_pt].
    + rewrite E, <- En. by destruct e.
    + unfold set_pte_flags. by rewrite lookup_alter_eq, E.
  - destruct (wk_pt w !! x) as [e|]; [|done]. case_bool_decide; [done|]. cbn [wk_pt]. unfold set_pte_flags. by rewrite lookup_alter_ne.
Qed.

Lemma walk_page_flags new w x : wk_remote (walk_page new w x) = false -> wk_remote w = false /\ no_revocation (wk_pt w) (wk_pt (walk_page new w x)).
Proof.
  intros H. split.
  - unfold walk_page in H. destruct (wk_pt w !! x); [|done]. case_bool_decide; [done|]. cbn in H. by apply orb_false_iff in H as [? _].
  - intros v e He. rewrite walk_page_lookup. case_bool_decide as Ev; [subst x|exists e; by split_and!]. rewrite He. cbn [option_map].
    eexists. split_and!; [done|done|]. cbn [pte_acc]. unfold walk_page in H. rewrite He in H. case_bool_decide as En; [by subst new|].
    cbn in H. apply orb_false_iff in H as [_ H]. by apply no_shootdown_sub.
Qed.

Lemma walk_pages_lookup new keys w v :
  wk_pt (fold_left (walk_page new) keys w) !! v =
    if bool_decide (v ∈ keys) then option_map (fun e => mkPTE (pte_ppn e) new) (wk_pt w !! v) else wk_pt w !! v.
Proof.
  revert w. induction keys as [|x keys IH]; intros w; cbn [fold_left]; [by rewrite (bool_decide_eq_false_2 _ (not_elem_of_nil v))|].
  rewrite IH, walk_page_lookup. destruct (bool_decide_reflect (v = x)) as [-> |Hne].
  - rewrite (bool_decide_eq_true_2 (x ∈ x :: keys)) by left. case_bool_decide; [|done]. by destruct (wk_pt w !! x).
  - assert (bool_decide (v ∈ x :: keys) = bool_decide (v ∈ keys)) as -> by (apply bool_decide_ext; set_solver). done.
Qed.

Lemma walk_pages_flags new keys w : wk_remote (fold_left (walk_page new) keys w) = false ->
  wk_remote w = false /\ no_revocation (wk_pt w) (wk_pt (fold_left (walk_page new) keys w)).
Proof.
  revert w. induction keys as [|x keys IH]; intros w; cbn [fold_left]; [intros; split; [done|apply no_revocation_refl]|].
  intros H. destruct (IH _ H) as [H1 H2]. destruct (walk_page_flags new w x H1) as [H3 H4]. split; [done|].
  by apply no_revocation_trans with (wk_pt (walk_page new w x)).
Qed.

Lemma walk_areas_flags s e l w : wk_remote (walk_areas s e l w) = false ->
  wk_remote w = false /\ no_revocation (wk_pt w) (wk_pt (walk_areas s e l w)).
Proof.
  revert w. induction l as [|a l IH]; intros w; cbn [walk_areas]; [intros; split; [done|apply no_revocation_refl]|].
  case_if; [intros; split; [done|apply no_revocation_refl]|]. case_if; [apply IH|]. intros H. destruct (IH _ H) as [H1 H2].
  destruct (walk_pages_flags _ _ _ H1) as [H3 H4]. split; [done|]. eapply no_revocation_trans; [exact H4|exact H2].
Qed.

(** The flags the walk installs, from what a page shows. *)
Definition page_pte_flags (i : PageInfo) : Access :=
  let p := pg_perm i in
  let f := mapping_flags p in
  pte_flags
    (if pg_cow i && acc_w p then cow_mapping_flags p
     else if bool_decide (pg_type i = Mmap) && bool_decide (pg_flags i = MapShared) && bool_decide (is_Some (pg_file i)) && acc_w p
          then mkAcc (acc_r f) false (acc_x f) (acc_u f) else f).

Lemma page_pte_flags_area a v : page_pte_flags (page_info a v) = area_pte_flags a.
Proof.
  unfold page_pte_flags, area_pte_flags, initial_mapping_flags, tracks_shared_file_dirty. cbn [page_info pg_perm pg_cow pg_type pg_flags pg_file].
  assert (bool_decide (is_Some (option_map (fun f => (f, file_offset a + (v - start_vpn a) * PAGE_SIZE)) (map_file a))) = bool_decide (is_Some (map_file a))) as ->; [|done].
  by destruct (map_file a).
Qed.

Lemma key_retain lo hi (m : gmap Z Z) v : v ∈ (map_to_list (retain lo hi m)).*1 <-> lo <= v < hi /\ is_Some (m !! v).
Proof.
  rewrite list_elem_of_fmap. split.
  - intros ([k p] & -> & H%elem_of_map_to_list). rewrite retain_lookup in H. case_bool_decide; [|done]. split; [done|by exists p].
  - intros [Hv [p Hp]]. exists (v, p). split; [done|]. apply elem_of_map_to_list. rewrite retain_lookup. by rewrite bool_decide_eq_true_2.
Qed.

Lemma walk_areas_lookup s e l w v : areas_ok l ->
  wk_pt (walk_areas s e l w) !! v =
    match view l v with
    | Some i => if in_range s e v && bool_decide (is_Some (pg_frame i))
                then option_map (fun x => mkPTE (pte_ppn x) (page_pte_flags i)) (wk_pt w !! v) else wk_pt w !! v
    | None => wk_pt w !! v
    end.
Proof.
  revert w. induction l as [|a l IH]; intros w Hok; cbn [walk_areas]; [done|]. apply areas_ok_cons in Hok as (Ha & Hal & Hl).
  pose proof (area_ok_vpn a Ha). rewrite view_cons. unfold in_range.
  destruct (Z.leb_spec e (start_vpn a)).
  { assert (v < start_vpn a \/ e <= v) as [Hv|Hv] by lia; [|rewrite (proj2 (Z.ltb_ge v e)), andb_false_r by lia; by repeat case_match].
    rewrite (proj2 (in_area_false a v)) by lia. assert (view l v = None) as ->; [|done]. unfold view.
    destruct (area_at l v) as [b|] eqn:Eb; [|done]. apply area_at_Some in Eb as [Hb ?]. rewrite Forall_forall in Hal.
    specialize (Hal b Hb). unfold before in Hal. lia. }
  destruct (Z.leb_spec (end_vpn a) s).
  { rewrite IH by done. destruct (in_area a v) eqn:Ev; [|done]. unfold view. rewrite (before_disjoint a l v) by done. apply in_area_spec in Ev.
    by rewrite (proj2 (Z.leb_gt s v)) by lia. }
  rewrite IH by done. rewrite walk_pages_lookup. set (ks := bool_decide (v ∈ _)).
  assert (Hk : ks = in_range s e v && in_area a v && bool_decide (is_Some (data_frames a !! v))).
  { subst ks. apply eq_bool_prop_intro. unfold in_range. rewrite bool_decide_spec, key_retain, !andb_True, bool_decide_spec, !Is_true_true, in_area_spec, Z.leb_le, Z.ltb_lt. split; intros Hx; destruct_and!; split_and!; (done || lia). }
  destruct (in_area a v) eqn:Ev.
  - unfold view. rewrite (before_disjoint a l v) by done. cbn [option_map page_info pg_frame]. fold (page_info a v).
    rewrite page_pte_flags_area, Hk, andb_true_r. unfold in_range. done.
  - rewrite Hk, andb_false_r. cbn [andb]. done.
Qed.

(** ** The areas after the call *)

Lemma merge_areas_split pre tl n last : areas_ok (pre ++ tl) -> length pre = n ->
  exists tl', merge_mprotect_areas (pre ++ tl) n last = pre ++ tl' /\ areas_ok (pre ++ tl') /\
    (forall v, view (pre ++ tl') v = view (pre ++ tl) v) /\
    (forall Q : Attr -> Prop, Forall (fun b => Q (attr b)) (pre ++ tl) -> Forall (fun b => Q (attr b)) (pre ++ tl')).
Proof.
  intros Hok <-. unfold merge_mprotect_areas. rewrite take_app_length, drop_app_length. destruct tl as [|a tl]; [by exists []|].
  pose proof Hok as (H1 & H2 & H3)%areas_ok_app. destruct (merge_from_spec last a tl H2) as (M1 & M2 & M3 & M4).
  exists (merge_from last a tl). split_and!; [done| | |].
  - apply areas_ok_app. split_and!; [done..|]. intros x y Hx Hy. rewrite Forall_forall in M3. specialize (M3 y Hy).
    assert (before x a) by (apply H3; [done|left]). unfold before in *. lia.
  - intros v. by rewrite !view_app, M2.
  - intros Q. rewrite !Forall_app. intros [? ?]. split; [done|by apply M4].
Qed.

Lemma tail_rev_take {A} (l : list A) n : (n <= length l)%nat -> rev (tail (rev (take n l))) = take (n - 1) l /\ length (take (n - 1) l) = (n - 1)%nat.
Proof.
  intros Hn. split; [|rewrite length_take; lia]. destruct n as [|n]; [done|]. replace (S n - 1)%nat with n by lia.
  destruct (lookup_lt_is_Some_2 l n) as [x Hx]; [lia|]. rewrite (take_S_r l n x Hx), rev_app_distr. cbn. by rewrite rev_involutive.
Qed.

Lemma view_beyond l v s : Forall (fun a => end_vpn a <= s) l -> s <= v -> view l v = None.
Proof.
  intros Hl Hv. unfold view. destruct (area_at l v) as [a|] eqn:E; [|done]. apply area_at_Some in E as [Hin ?]. rewrite Forall_forall in Hl.
  specialize (Hl a Hin). lia.
Qed.

Section Apply.
Context (rc : Z -> Z) (s e : Z) (np : Access) (Hse : s < e).

(** What the call has done to the page table. *)
Definition walked pt pt' l' : Prop :=
  forall v, pt' !! v = match view l' v with
                       | Some i => if in_range s e v && bool_decide (is_Some (pg_frame i))
                                   then option_map (fun x => mkPTE (pte_ppn x) (page_pte_flags i)) (pt !! v) else pt !! v
                       | None => pt !! v
                       end.

Lemma mprotect_apply_spec vs : areas_ok (areas vs) ->
  exists vs' k, mprotect_apply rc vs s e np = Some (vs', k) /\ areas_ok (areas vs') /\
    (forall v, prot_view rc s e np (view (areas vs) v) (view (areas vs') v) v) /\
    walked (page_table vs) (page_table vs') (areas vs') /\
    (k = TlbLocal \/ k = TlbNone -> no_revocation (page_table vs) (page_table vs')) /\
    (forall Q G : Attr -> Prop,
      (forall A c, Q A -> G A -> (c = true /\ private_attr A = true) \/ c = at_cow A -> Q (mkAttr np (at_type A) (at_file A) (at_flags A) (if acc_w np then c else false) (at_anon A))) ->
      Forall (fun a => Q (attr a)) (areas vs) -> Forall (fun a => s < end_vpn a -> start_vpn a < e -> G (attr a)) (areas vs) ->
      Forall (fun a => Q (attr a)) (areas vs')).
Proof.
  intros Hok. set (l := areas vs) in *. unfold mprotect_apply. fold l. set (first := first_area_ending_after l s).
  destruct (first_area_split l s Hok) as [Ft Fd]. fold first in Ft, Fd.
  assert (Hlen : (first <= length l)%nat) by (apply lower_bound_le; lia).
  assert (Hfuel : (length (drop first l) < S (length l))%nat) by (rewrite length_drop; lia).
  assert (Hok' : areas_ok (rev (rev (take first l)) ++ drop first l)) by (by rewrite rev_involutive, take_drop).
  destruct (mprotect_update_spec rc s e np Hse (fun _ => True) (fun _ => True) (fun _ _ _ _ _ => I) (drop first l) (S (length l)) (rev (take first l)) false Hfuel Hok' Fd)
    as (res & mg & Eres & [L1 L2 (tl & L3) _]).
  destruct (tail_rev_take l first Hlen) as [Etail Elen]. rewrite Etail in L3. set (pre := take (first - 1) l) in *. rewrite rev_involutive in L2.
  rewrite Eres. cbn [mbind option_bind].
  assert (Hm : exists tl', (if mg then merge_mprotect_areas res (first - 1) e else res) = pre ++ tl' /\ areas_ok (pre ++ tl') /\
    (forall v, view (pre ++ tl') v = view res v) /\ (forall Q : Attr -> Prop, Forall (fun b => Q (attr b)) res -> Forall (fun b => Q (attr b)) (pre ++ tl'))).
  { rewrite L3 in *. destruct mg; [by apply merge_areas_split|]. by exists tl. }
  destruct Hm as (tl' & -> & M1 & M2 & M3). rewrite <- Elen, drop_app_length. eexists _, _. split; [done|]. cbn [areas page_table].
  pose proof M1 as (N1 & N2 & N3)%areas_ok_app.
  assert (Hpre : forall v, s <= v -> view pre v = None).
  { intros v. apply view_beyond. subst pre. apply Forall_take with (n := (first - 1)%nat) in Ft. rewrite take_take in Ft.
    by replace (Nat.min (first - 1) first) with (first - 1)%nat in Ft by lia. }
  split_and!; [done|..].
  - intros v. specialize (L2 v). rewrite M2. rewrite <- (take_drop first l), view_app.
    destruct (view (take first l) v) as [x|] eqn:Et; [|destruct (view (drop first l) v); [done|by rewrite L2]].
    assert (Hv : v < s). { destruct (Z.lt_ge_cases v s); [done|]. by rewrite (view_beyond _ _ _ Ft) in Et by lia. }
    assert (view (drop first l) v = None) as Ed.
    { unfold view in *. destruct (area_at (take first l) v) as [b|] eqn:Eb; [|done]. apply area_at_Some in Eb as [Hb Hbv].
      apply list_elem_of_split in Hb as (l1 & l2 & Eq). rewrite Eq in *. rewrite rev_involutive, <- app_assoc in Hok'. cbn [app] in Hok'.
      destruct (view_split_None l1 b (l2 ++ drop first l) v Hok') as [_ V]; [by apply in_area_spec|]. rewrite view_app in V.
      unfold view in V. by destruct (option_map _ (area_at l2 v)). }
    rewrite Ed in L2. unfold prot_view, in_range. rewrite (proj2 (Z.leb_gt s v)) by lia. done.
  - intros v. rewrite walk_areas_lookup by done. cbn [wk_pt]. rewrite view_app. unfold in_range. destruct (Z.leb_spec s v).
    + by rewrite Hpre.
    + cbn [andb]. by repeat case_match.
  - set (w := walk_areas s e tl' _). intros Hk. refine (proj2 (walk_areas_flags s e tl' (mkWalk (page_table vs) false false false) _)).
    fold w. unfold tlb_kind in Hk. destruct (wk_isync w), (wk_remote w); [naive_solver..|done].
  - intros Q G HQ HG Hg. apply M3.
    destruct (mprotect_update_spec rc s e np Hse Q G HQ (drop first l) (S (length l)) (rev (take first l)) false Hfuel Hok' Fd) as (res' & mg' & E' & [_ _ _ La]).
    assert (res' = res) as -> by congruence. apply La; [by rewrite rev_involutive, take_drop|].
    rewrite Forall_forall in Hg, Fd |- *. intros a Ha Hlt. apply Hg; [|by apply Fd|done]. rewrite <- (take_drop first l). apply elem_of_app. by right.
Qed.
End Apply.

(** ** The address space after the call *)

Lemma page_pte_flags_grants i : grants i (page_pte_flags i).
Proof.
  unfold page_pte_flags, grants, pte_flags, cow_mapping_flags, mapping_flags. destruct (pg_perm i) as [[] [] [] []], (pg_cow i); cbn;
    repeat case_bool_decide; cbn; done.
Qed.

Lemma prot_view_frame rc s e np o o' v : prot_view rc s e np o o' v -> o' ≫= pg_frame = o ≫= pg_frame.
Proof.
  unfold prot_view. destruct o as [i|]; [|by intros ->]. destruct (in_range s e v); [|by intros ->].
  intros (i' & -> & c & -> & _). done.
Qed.

Lemma mprotect_vm_ok rc s e np vs vs' : vm_ok vs -> areas_ok (areas vs') ->
  (forall v, prot_view rc s e np (view (areas vs) v) (view (areas vs') v) v) -> walked s e (page_table vs) (page_table vs') (areas vs') -> vm_ok vs'.
Proof.
  intros [_ Hr Hm Ha] Hok Hv Hw.
  assert (Hres : forall v, resident (areas vs') v = resident (areas vs) v).
  { intros v. rewrite !resident_view. eapply prot_view_frame, Hv. }
  assert (Hpt : forall v x', page_table vs' !! v = Some x' ->
    (page_table vs !! v = Some x' /\ (in_range s e v = true -> resident (areas vs') v = None)) \/
    (exists i x, view (areas vs') v = Some i /\ page_table vs !! v = Some x /\ x' = mkPTE (pte_ppn x) (page_pte_flags i))).
  { intros v x' Hx. rewrite (Hw v) in Hx. rewrite resident_view. destruct (view (areas vs') v) as [i|] eqn:Ei; [|by left].
    destruct (in_range s e v); cbn [andb] in Hx; [|by left]. case_bool_decide as Hf.
    - destruct (page_table vs !! v) as [x|] eqn:Ex; [|done]. injection Hx as <-. right. eauto.
    - left. split; [done|]. intros _. cbn. by apply eq_None_not_Some. }
  split; [done|..].
  - intros v p Hp. rewrite Hres in Hp. destruct (Hr v p Hp) as [f Hf]. rewrite (Hw v). destruct (view (areas vs') v); [|by eexists].
    destruct (_ && _); [|by eexists]. rewrite Hf. by eexists.
  - intros v x' Hx. apply translate_Some in Hx as [Hx Ht]. rewrite Hres. destruct (Hpt v x' Hx) as [[H _]|(i & x & Ei & H & ->)].
    + apply Hm. by apply translate_Some.
    + rewrite (Hw v), Ei in Hx. destruct (in_range s e v && _) eqn:Eb.
      * apply andb_true_iff in Eb as [_ [p Hp]%bool_decide_eq_true]. cbn [pte_ppn]. rewrite <- Hres, resident_view, Ei. cbn.
        assert (Hrp : resident (areas vs) v = Some p) by (by rewrite <- Hres, resident_view, Ei). destruct (Hr v p Hrp) as [f Hf].
        rewrite Hf in H. injection H as <-. done.
      * rewrite <- Hres. rewrite Hx in H. injection H as H. rewrite Hres. rewrite <- H in *. apply Hm. by apply translate_Some.
  - intros v x' i Hx Hi. apply translate_Some in Hx as [Hx Ht]. destruct (Hpt v x' Hx) as [[H Hn]|(i' & x & Ei & H & ->)].
    + assert (Hold : translate (page_table vs) v = Some x') by (by apply translate_Some).
      specialize (Hv v). unfold prot_view in Hv. destruct (in_range s e v) eqn:Er.
      * rewrite Hres in Hn. rewrite (Hm v x' Hold) in Hn. by specialize (Hn eq_refl).
      * destruct (view (areas vs) v) as [j|] eqn:Ej; [|congruence]. assert (i = j) as -> by congruence. by apply (Ha v).
    + assert (i' = i) as -> by congruence. apply page_pte_flags_grants.
Qed.

(** ** The preflight *)

Definition mapped_range l (s e : Z) : Prop := forall v, s <= v < e -> is_Some (view l v).

Lemma preflight_spec sealed e np l s : areas_ok l -> Forall (fun a => s < end_vpn a) l ->
  match mprotect_preflight sealed e np l s with
  | Ok covered => (e <= covered <-> mapped_range l s e \/ e <= s)
  | Err err => err = EPERM /\ acc_w np = true /\ exists a f, a ∈ l /\ start_vpn a < e /\ map_file a = Some f /\ sealed f = true
  end.
Proof.
  revert s. induction l as [|a l IH]; intros s Hok Hs; cbn [mprotect_preflight].
  { split; [by right|]. intros [H|H]; [|done]. destruct (Z.le_gt_cases e s); [done|]. destruct (H s) as [? Hx]; [lia|done]. }
  apply areas_ok_cons in Hok as (Ha & Hal & Hl). apply Forall_cons in Hs as [Hsa Hs]. pose proof (area_ok_vpn a Ha) as Hva.
  destruct (Z.leb_spec e s). { split; [by right|done]. }
  assert (Hbelow : forall v, v < end_vpn a -> view l v = None).
  { intros v Hv. unfold view. destruct (area_at l v) as [b|] eqn:Eb; [|done]. apply area_at_Some in Eb as [Hb ?]. rewrite Forall_forall in Hal.
    specialize (Hal b Hb). unfold before in Hal. lia. }
  destruct (Z.ltb_spec s (start_vpn a)).
  { split; [lia|]. intros [Hm|Hm]; [|lia]. destruct (Hm s) as [i Hi]; [lia|]. rewrite view_cons, (proj2 (in_area_false a s)) in Hi by lia.
    by rewrite Hbelow in Hi by lia. }
  case_raw E.
  { apply andb_true_iff in E as [[Hw _]%andb_true_iff Hf]. destruct (map_file a) as [f|] eqn:Ef; [|done].
    split_and!; [done..|]. exists a, f. split_and!; [left|lia|done..]. }
  specialize (IH (end_vpn a) Hl). destruct (mprotect_preflight sealed e np l (end_vpn a)) as [covered|err].
  - rewrite IH. 2: { apply Forall_forall. intros b Hb. pose proof (area_ok_vpn b (areas_ok_in l b Hl Hb)). rewrite Forall_forall in Hal.
      specialize (Hal b Hb). unfold before in Hal. lia. }
    split.
    + intros [Hm|Hm]; left; intros v Hv; rewrite view_cons; destruct (in_area a v) eqn:Ev; try (by eexists); apply in_area_false in Ev;
        [apply Hm; lia|lia].
    + intros [Hm|Hm]; [|lia]. destruct (Z.le_gt_cases e (end_vpn a)); [by right|]. left. intros v Hv.
      specialize (Hm v ltac:(lia)). rewrite view_cons, (proj2 (in_area_false a v)) in Hm by lia. done.
  - destruct IH as (-> & Hw & b & f & Hb & Hlt & Hf & Hse); [|split_and!; [done..|]; exists b, f; split_and!; [by right|done..]].
    apply Forall_forall. intros b Hb. pose proof (area_ok_vpn b (areas_ok_in l b Hl Hb)). rewrite Forall_forall in Hal.
    specialize (Hal b Hb). unfold before in Hal. lia.
Qed.

(** ** The call *)

(** A call that passes the checks runs the update; every other call changes nothing. *)
Lemma sys_mprotect_cases rc sealed vs start len prot : areas_ok (areas vs) -> 0 <= start -> 0 <= len ->
  (exists r, sys_mprotect_inner rc sealed vs start len prot = Some (vs, TlbNone, r) /\ (r = Ok 0 -> len = 0)) \/
  (exists n, page_align_up len = Some n /\ start mod PAGE_SIZE = 0 /\ n mod PAGE_SIZE = 0 /\ 0 < n /\ start + n <= USER_LAST + 1 /\
     mapped_range (areas vs) (floor start) (floor (start + n)) /\
     sys_mprotect_inner rc sealed vs start len prot =
       '(vs', k) ← mprotect_apply rc vs (floor start) (floor (start + n)) (from_prot prot); Some (vs', k, Ok 0)).
Proof.
  intros Hok Hs Hlen. unfold sys_mprotect_inner. destruct (Z.eqb_spec len 0) as [|Hl0]; [left; by eexists|].
  destruct (Z.eqb_spec (page_offset start) 0) as [Ho|]; cbn [negb]; [|left; by eexists]. rewrite page_offset_mod in Ho.
  case_raw E1; [left; by eexists|]. destruct (page_align_up len) as [n|] eqn:En; [|left; by eexists].
  pose proof En as En'. destruct (Z.eqb_spec n 0); [left; by eexists|]. apply page_align_up_spec in En' as (N1 & N2 & _); [|lia].
  destruct (checked_add start n) as [e|] eqn:Ee; [|left; by eexists]. unfold checked_add in Ee. case_if_in Ee; [|done]. injection Ee as <-.
  case_raw E2; [left; by eexists|]. apply orb_false_iff in E2 as [_ E2%negb_false_iff%valid_user_range_spec].
  rewrite (aligned_ceil (start + n)) by (lia || by apply mod_add_page).
  set (first := first_area_ending_after (areas vs) (floor start)). destruct (first_area_split (areas vs) (floor start) Hok) as [Ft Fd].
  fold first in Ft, Fd. rewrite <- (take_drop first (areas vs)) in Hok. apply areas_ok_app in Hok as (_ & Hd & _).
  pose proof (preflight_spec sealed (floor (start + n)) (from_prot prot) _ (floor start) Hd Fd) as Hp.
  destruct (mprotect_preflight _ _ _ _ _) as [covered|err]; [|left; by eexists].
  destruct (Z.ltb_spec covered (floor (start + n))); [left; by eexists|]. right. exists n. split_and!; try done; [lia..|].
  assert (Hlt : floor start < floor (start + n)) by (unfold floor, PAGE_SIZE in *; zlia).
  apply Hp in H as [Hm|]; [|lia]. intros v Hv. destruct (Hm v Hv) as [i Hi]. rewrite <- (take_drop first (areas vs)), view_app.
  destruct (view (take first (areas vs)) v); by eexists.
Qed.
