(* ===== verification/VmFault.v ===== *)
(** * Virtual memory: page faults and fork

    The fault handlers of [os/src/mm/vm_set.rs], [os/src/mm/mod.rs] and
    [os/src/trap/mod.rs], [MAP_POPULATE], and the copy-on-write [fork].  A handler runs on
    the address space of the process, the shared anonymous backings and the memory.

    What a handler asks of its surroundings is a [FaultEnv]: the frame the allocator
    hands out (a handler asks for one at most; [None] when memory is exhausted), the
    page cache of the files, and the user stack pointer.  The kernel heap is not
    exhausted, and the code of the RISC-V build is modelled. *)

From stdpp Require Import gmap functions.
From S2P Require Import Prelude SysErr FrameAlloc Vm VmSys.

Implicit Types a b : UserMapArea.
Implicit Types l : list UserMapArea.
Implicit Types pt : PageTable.

(** ** State and surroundings *)

Record FaultSt := mkFS { fs_vs : UserVMSet; fs_backings : gmap Z (gmap Z Z); fs_mem : Z -> bytes }.
Implicit Types st : FaultSt.

(** [fe_cache file page]: [File::get_cache_frame], which reads the page if it has to;
    [fe_cached]: [get_cached_frame], which does not; [fe_mark]: [mark_cache_page_dirty]
    succeeds. *)
Record FaultEnv := mkFE {
  fe_fresh : option Z;
  fe_size : Z -> Z;
  fe_cache : Z -> Z -> option Z;
  fe_cached : Z -> Z -> option Z;
  fe_mark : Z -> Z -> bool;
  fe_sp : Z }.

Inductive PageFaultError := InvalidAddress | BeyondFileSize | OutOfMemory | InvalidMapping | Normal.

#[export] Instance PageFaultError_eq_dec : EqDecision PageFaultError.
Proof. solve_decision. Defined.

Definition zero_page : bytes := replicate (Z.to_nat PAGE_SIZE) 0.
(** [frame_alloc_copy_from]: the rest of the page is zero. *)
Definition copy_page (src : bytes) : bytes := take (Z.to_nat PAGE_SIZE) (src ++ zero_page).

Definition put_areas l st : FaultSt := mkFS (mkVM (page_table (fs_vs st)) l) (fs_backings st) (fs_mem st).
Definition put_pt pt st : FaultSt := mkFS (mkVM pt (areas (fs_vs st))) (fs_backings st) (fs_mem st).
Definition put_page (p : Z) (bs : bytes) st : FaultSt := mkFS (fs_vs st) (fs_backings st) (<[p := bs]> (fs_mem st)).

Definition st_areas st : list UserMapArea := areas (fs_vs st).
Definition st_pt st : PageTable := page_table (fs_vs st).

(** [area.data_frames.insert(vpn, frame)] and the lazy flag after it. *)
Definition add_frame (vpn p : Z) a : UserMapArea :=
  let a := set_frames (<[vpn := p]> (data_frames a)) a in
  if end_vpn a - start_vpn a <=? Z.of_nat (size (data_frames a)) then set_lazy false a else a.

(** The byte of the file at the start of a page of the area. *)
Definition page_file_offset a (vpn : Z) : Z := file_offset a + (vpn - start_vpn a) * PAGE_SIZE.

(** ** Anonymous and lazily mapped pages *)

Section Handlers.
Context (env : FaultEnv).

(** [allocate_shared_anonymous_frame]: the page of the backing, created on first use. *)
Definition allocate_shared_anonymous_frame (backing : Z) a (vpn : Z) st : option (Z * FaultSt) :=
  let page_index := shared_anonymous_offset a + (vpn - start_vpn a) in
  let frames := fs_backings st !!! backing in
  match frames !! page_index with
  | Some p => Some (p, st)
  | None =>
      p ← fe_fresh env;
      let st := put_page p zero_page st in
      Some (p, mkFS (fs_vs st) (<[backing := <[page_index := p]> frames]> (fs_backings st)) (fs_mem st))
  end.

(** A new page of the area: the frame, whether it has to stay copy-on-write and
    whether it is a private copy made for a write. *)
Definition zeroed_page st : PageFaultError + (Z * bool * bool * FaultSt) :=
  match fe_fresh env with Some p => inr (p, false, false, put_page p zero_page st) | None => inl OutOfMemory end.

Definition mapping_page a (vpn : Z) (access : AccessType) st : PageFaultError + (Z * bool * bool * FaultSt) :=
  match map_file a with
  | Some file =>
      let off := page_file_offset a vpn in
      if fe_size env file <=? off then inl BeyondFileSize
      else match fe_cache env file (off / PAGE_SIZE) with
      | None => inl InvalidMapping
      | Some cached =>
          if bool_decide (mmap_flags a = MapPrivate) && bool_decide (access = Write) then
            match fe_fresh env with
            | None => inl OutOfMemory
            | Some p => inr (p, false, true, put_page p (copy_page (take (Z.to_nat (Z.min (fe_size env file - off) PAGE_SIZE)) (fs_mem st cached))) st)
            end
          else inr (cached, bool_decide (mmap_flags a = MapPrivate) && cow_flag a, false, st)
      end
  | None =>
      match shared_anonymous a with
      | Some backing => match allocate_shared_anonymous_frame backing a vpn st with
                        | Some (p, st) => inr (p, false, false, st)
                        | None => inl OutOfMemory
                        end
      | None => zeroed_page st
      end
  end.

Definition new_page a (vpn : Z) (access : AccessType) st : PageFaultError + (Z * bool * bool * FaultSt) :=
  match area_type a with
  | Heap | Stack | Elf | TrapContext | RtSigreturnTrampoline => zeroed_page st
  | Mmap | Shm => mapping_page a vpn access st
  end.

(** The page is mapped with the flags of the area, or read-only while it is shared. *)
Definition map_fault_page (vpn p : Z) (needs_cow : bool) a st : FaultSt :=
  let f := if needs_cow then cow_mapping_flags (map_perm a) else initial_mapping_flags a in
  put_pt (map_page (st_pt st) vpn p (exec_readable f)) st.

Definition handle_unalloc_page_fault (va : Z) (access : AccessType) st : FaultSt * option PageFaultError :=
  let vpn := floor va in
  match find_area_index (st_areas st) va with
  | None => (st, None)
  | Some idx =>
      match st_areas st !! idx with
      | None => (st, None)
      | Some a =>
          match st_pt st !! vpn, data_frames a !! vpn with
          | Some pte, Some _ =>
              let expected := pte_flags (mapping_flags (map_perm a)) in
              (if bool_decide (pte_acc pte = expected) then st else put_pt (set_pte_flags (st_pt st) vpn expected) st, Some Normal)
          | pte, resident =>
              let st := match pte with Some _ => put_pt (delete vpn (st_pt st)) st | None => st end in
              match resident with
              | Some p => (map_fault_page vpn p (cow_flag a) a st, Some Normal)
              | None =>
                  match new_page a vpn access st with
                  | inl err => (st, Some err)
                  | inr (p, needs_cow, private_copy, st) =>
                      let a' := add_frame vpn p a in
                      (map_fault_page vpn p (needs_cow && negb private_copy) a' (put_areas (<[idx := a']> (st_areas st)) st), Some Normal)
                  end
              end
          end
      end
  end.

(** ** Copy on write *)

(** [strong_count]: as in [VmSys.Mprotect]. *)
Definition handle_cow_page_fault (strong_count : Z -> Z) (va : Z) st : FaultSt * option PageFaultError :=
  let vpn := floor va in
  match translate (st_pt st) vpn with
  | None => (st, None)
  | Some pte =>
      if acc_w (pte_acc pte) then (st, Some Normal)
      else
        match find_area_index (st_areas st) va with
        | None => (st, None)
        | Some idx =>
            match st_areas st !! idx with
            | None => (st, None)
            | Some a =>
                match data_frames a !! vpn with
                | None => (st, None)
                | Some old =>
                    let writable a := set_perm (mkAcc (acc_r (map_perm a)) true (acc_x (map_perm a)) (acc_u (map_perm a))) a in
                    let install p a st :=
                      let st := put_areas (<[idx := a]> (st_areas st)) st in
                      (put_pt (alter (fun _ => mkPTE p (pte_flags (mapping_flags (map_perm a)))) vpn (st_pt st)) st, Some Normal) in
                    if strong_count old =? 1 then install old (writable a) st
                    else match fe_fresh env with
                    | None => (st, Some OutOfMemory)
                    | Some p => install p (writable (set_frames (<[vpn := p]> (data_frames a)) a)) (put_page p (copy_page (fs_mem st old)) st)
                    end
                end
            end
        end
  end.

(** ** Stack growth *)

Definition STACK_EXPAND_LIMIT : Z := PAGE_SIZE * 2.
Definition MAX_STACK_SIZE : Z := 8 * 1024 * 1024.

(** The nearest stack above the address: its index and the distance. *)
Fixpoint nearest_stack (va : Z) l (i : nat) (best : option (nat * Z)) : option (nat * Z) :=
  match l with
  | [] => best
  | a :: l =>
      let growable := bool_decide (area_type a = Stack) || (bool_decide (area_type a = Mmap) && growdown_flag a) in
      let near := (saturating_sub (va_start a) va <=? STACK_EXPAND_LIMIT) || (saturating_sub (fe_sp env) PAGE_SIZE <=? va) in
      let distance := va_start a - va in
      let best :=
        if growable && (va <? va_start a) && near && match best with Some (_, d) => distance <? d | None => distance <? 2 ^ 64 - 1 end
        then Some (i, distance) else best in
      nearest_stack va l (S i) best
  end.

Definition try_expand_stack (va : Z) st : option (option FaultSt) :=
  match nearest_stack va (st_areas st) 0 None with
  | None => Some None
  | Some (idx, _) =>
      a ← st_areas st !! idx;
      let first := floor va in
      if start_vpn a <=? first then Some None
      else if MAX_STACK_SIZE <? start_vpn a * PAGE_SIZE - first * PAGE_SIZE then Some None
      else if existsb (fun b => (first * PAGE_SIZE <? va_end b) && (va_start b <? start_vpn a * PAGE_SIZE)) (st_areas st) then Some None
      else match fe_fresh env with
      | None => Some None
      | Some p =>
          let l := take idx (st_areas st) ++ drop (S idx) (st_areas st) in
          let a := set_start (first * PAGE_SIZE) (set_frames (<[first := p]> (data_frames a)) a) in
          let a := if end_vpn a - start_vpn a <=? Z.of_nat (size (data_frames a)) then set_lazy false a else a in
          l ← insert_area_sorted a l;
          Some (Some (put_areas l (put_pt (map_page (st_pt st) first p (mapping_flags (map_perm a))) (put_page p zero_page st))))
      end
  end.

(** ** Pages of files *)

Definition fault_access_allowed a (access : AccessType) (allow_execute_as_read : bool) : bool :=
  match access with
  | Read => acc_r (map_perm a) || (allow_execute_as_read && acc_x (map_perm a))
  | Write => acc_w (map_perm a) || cow_flag a
  | Execute => acc_x (map_perm a)
  end.

Record FileBackedFault := mkFBF { ff_file : Z; ff_vpn : Z; ff_end : Z; ff_offset : Z; ff_flags : MmapType; ff_type : UserMapAreaType; ff_zero : option Z }.

Definition mmap_or_elf (t : UserMapAreaType) : bool := match t with Mmap | Elf => true | _ => false end.

(** [None]: not a fault of a file page; [Some None]: the access is not allowed. *)
Definition file_backed_fault_snapshot (va : Z) (access : AccessType) (xr : bool) st : option (option FileBackedFault) :=
  let vpn := floor va in
  match translate (st_pt st) vpn with
  | Some _ => None
  | None =>
      a ← find_area (st_areas st) va;
      file ← map_file a;
      if negb (mmap_or_elf (area_type a)) then None
      else if bool_decide (is_Some (data_frames a !! vpn)) then None
      else if negb (fault_access_allowed a access xr) then Some None
      else Some (Some (mkFBF file vpn (end_vpn a) (page_file_offset a vpn) (mmap_flags a) (area_type a) (file_zero_start a)))
  end.

Definition FILE_FAULT_AROUND_PAGES : Z := 16.

(** The run of cached pages after the demanded one. *)
Fixpoint collect_around (fault : FileBackedFault) (distances : list Z) : list (Z * Z) :=
  match distances with
  | [] => []
  | d :: distances =>
      let vpn := ff_vpn fault + d in
      let off := ff_offset fault + d * PAGE_SIZE in
      if ff_end fault <=? vpn then []
      else if 2 ^ 64 <=? off then []
      else if fe_size env (ff_file fault) <=? off then []
      else if bool_decide (ff_type fault = Elf) && match ff_zero fault with Some z => z <? vpn * PAGE_SIZE + PAGE_SIZE | None => false end then []
      else match fe_cached env (ff_file fault) (off / PAGE_SIZE) with
      | None => []
      | Some p => (vpn, p) :: collect_around fault distances
      end
  end.
Definition collect_file_fault_around_frames (fault : FileBackedFault) : list (Z * Z) := collect_around fault (seqZ 1 (FILE_FAULT_AROUND_PAGES - 1)).

Definition clear_lazy_if_full a : UserMapArea := if end_vpn a - start_vpn a <=? Z.of_nat (size (data_frames a)) then set_lazy false a else a.

(** One page around the demanded one: the area, the mappings so far. *)
Definition install_around (fault : FileBackedFault) (acc : UserMapArea * list (Z * Z * Access)) (cand : Z * Z) : UserMapArea * list (Z * Z * Access) :=
  let '(a, maps) := acc in
  let '(vpn, p) := cand in
  if (vpn <? start_vpn a) || (end_vpn a <=? vpn) then acc
  else if negb (page_file_offset a vpn =? ff_offset fault + (vpn - ff_vpn fault) * PAGE_SIZE) then acc
  else
    let '(target, a) := match data_frames a !! vpn with
                        | Some q => (q, a)
                        | None => (p, set_frames (<[vpn := p]> (data_frames a)) a)
                        end in
    (a, maps ++ [(vpn, target, if cow_flag a then cow_mapping_flags (map_perm a) else initial_mapping_flags a)]).

(** [install_file_backed_fault_page], under the lock again: everything the snapshot
    said is checked once more. *)
Definition install_file_backed_fault_page (va : Z) (fault : FileBackedFault) (p : Z) (around : list (Z * Z))
    (private_write shared_write : bool) (access : AccessType) (xr : bool) st : FaultSt * option PageFaultError :=
  match translate (st_pt st) (ff_vpn fault) with
  | Some _ => (st, Some Normal)
  | None =>
      let around := List.filter (fun c => bool_decide (translate (st_pt st) c.1 = None)) around in
      match find_area_index (st_areas st) va with
      | None => (st, None)
      | Some idx =>
          match st_areas st !! idx with
          | None => (st, None)
          | Some a =>
              if negb (mmap_or_elf (area_type a)) || negb (bool_decide (map_file a = Some (ff_file fault))) || negb (bool_decide (mmap_flags a = ff_flags fault))
                 || negb (page_file_offset a (ff_vpn fault) =? ff_offset fault) || negb (fault_access_allowed a access xr)
              then (st, None)
              else
                let '(target, installed, a) := match data_frames a !! ff_vpn fault with
                                               | Some q => (q, false, a)
                                               | None => (p, true, clear_lazy_if_full (set_frames (<[ff_vpn fault := p]> (data_frames a)) a))
                                               end in
                let primary := if shared_write then mapping_flags (map_perm a)
                               else if cow_flag a && negb (private_write && installed) then cow_mapping_flags (map_perm a)
                               else initial_mapping_flags a in
                let '(a, maps) := fold_left (install_around fault) around (a, [(ff_vpn fault, target, primary)]) in
                let a := clear_lazy_if_full a in
                let pt := fold_left (fun pt (m : Z * Z * Access) => let '(v, q, f) := m in map_page pt v q (exec_readable f)) maps (st_pt st) in
                (put_pt pt (put_areas (<[idx := a]> (st_areas st)) st), Some Normal)
          end
      end
  end.

(** A store to a present page of a writable shared file mapping: the page is marked
    dirty, then the entry becomes writable. *)
Definition handle_shared_file_write_fault_current (va : Z) st : option (FaultSt * option PageFaultError) :=
  let vpn := floor va in
  pte ← translate (st_pt st) vpn;
  a ← find_area (st_areas st) va;
  p ← data_frames a !! vpn;
  if negb (tracks_shared_file_dirty a) then None
  else if acc_w (pte_acc pte) then Some (st, Some Normal)
  else
    file ← map_file a;
    off ← checked_add (file_offset a) ((vpn - start_vpn a) * PAGE_SIZE);
    if negb (fe_mark env file (off / PAGE_SIZE)) then Some (st, Some InvalidMapping)
    else if negb (pte_ppn pte =? p) then None
    else Some (put_pt (<[vpn := mkPTE p (pte_flags (mapping_flags (map_perm a)))]> (st_pt st)) st, Some Normal).

(** The frame for the demanded page, between the snapshot and the installation; the
    flag says that it is a new frame and not one of the page cache. *)
Definition fault_frame (fault : FileBackedFault) (private_write shared_write : bool) (mem : Z -> bytes) : PageFaultError + (Z * bool * (Z -> bytes)) :=
  let size := fe_size env (ff_file fault) in
  let zero_bytes := if bool_decide (ff_type fault = Elf)
                    then option_map (fun z => Z.min (saturating_sub z (ff_vpn fault * PAGE_SIZE)) PAGE_SIZE) (ff_zero fault) else None in
  if bool_decide (zero_bytes = Some 0) then
    match fe_fresh env with Some p => inr (p, true, <[p := zero_page]> mem) | None => inl OutOfMemory end
  else if size <=? ff_offset fault then inl BeyondFileSize
  else match fe_cache env (ff_file fault) (ff_offset fault / PAGE_SIZE) with
  | None => inl InvalidMapping
  | Some cached =>
      if shared_write && negb (fe_mark env (ff_file fault) (ff_offset fault / PAGE_SIZE)) then inl InvalidMapping
      else
        let copy_size := match zero_bytes with Some n => n | None => Z.min (size - ff_offset fault) PAGE_SIZE end in
        if private_write || (bool_decide (ff_type fault = Elf) && (copy_size <? PAGE_SIZE)) then
          match fe_fresh env with
          | Some p => inr (p, true, <[p := copy_page (take (Z.to_nat copy_size) (mem cached))]> mem)
          | None => inl OutOfMemory
          end
        else inr (cached, false, mem)
  end.

Definition handle_file_backed_page_fault_current (va : Z) (access : AccessType) (xr : bool) st : option (FaultSt * option PageFaultError) :=
  match (if bool_decide (access = Write) then handle_shared_file_write_fault_current va st else None) with
  | Some r => Some r
  | None =>
      match file_backed_fault_snapshot va access xr st with
      | None => None
      | Some None => Some (st, None)
      | Some (Some fault) =>
          let private_write := bool_decide (ff_flags fault = MapPrivate) && bool_decide (access = Write) in
          let shared_write := bool_decide (ff_type fault = Mmap) && bool_decide (ff_flags fault = MapShared) && bool_decide (access = Write) in
          match fault_frame fault private_write shared_write (fs_mem st) with
          | inl err => Some (st, Some err)
          | inr (p, _, mem) =>
              Some (install_file_backed_fault_page va fault p (collect_file_fault_around_frames fault) private_write shared_write access xr
                      (mkFS (fs_vs st) (fs_backings st) mem))
          end
      end
  end.

(** ** The traps *)

(** The result of a handler; the outer [None] is a panic. *)
Abbreviation Handled := (option (FaultSt * option PageFaultError)).

Definition expand_or_fail (va : Z) st : Handled :=
  grown ← try_expand_stack va st;
  Some match grown with Some st => (st, Some Normal) | None => (st, None) end.

Definition handle_load_page_fault (va : Z) st : Handled :=
  match handle_file_backed_page_fault_current va Read true st with
  | Some r => Some r
  | None =>
      match find_area (st_areas st) va with
      | Some a =>
          if negb (acc_r (map_perm a)) && negb (acc_x (map_perm a)) then Some (st, None)
          else Some (handle_unalloc_page_fault va Read st)
      | None => expand_or_fail va st
      end
  end.

Definition handle_store_page_fault (strong_count : Z -> Z) (va : Z) st : Handled :=
  match handle_file_backed_page_fault_current va Write false st with
  | Some r => Some r
  | None =>
      let pte := translate (st_pt st) (floor va) in
      match find_area (st_areas st) va with
      | Some a =>
          match pte with
          | Some e =>
              if cow_flag a then Some (handle_cow_page_fault strong_count va st)
              else if negb (acc_w (pte_acc e)) && negb (acc_w (map_perm a)) then Some (st, None)
              else Some (handle_unalloc_page_fault va Write st)
          | None =>
              if negb (acc_w (map_perm a)) then Some (st, None) else Some (handle_unalloc_page_fault va Write st)
          end
      | None => expand_or_fail va st
      end
  end.

Definition handle_instruction_page_fault (va : Z) st : Handled :=
  match handle_file_backed_page_fault_current va Execute false st with
  | Some r => Some r
  | None =>
      match translate (st_pt st) (floor va) with
      | Some _ =>
          match find_area (st_areas st) va with
          | Some a =>
              if acc_x (map_perm a)
              then Some (put_pt (set_pte_flags (st_pt st) (floor va) (pte_flags (mapping_flags (map_perm a)))) st, Some Normal)
              else Some (st, None)
          | None => Some (st, None)
          end
      | None => Some (handle_unalloc_page_fault va Execute st)
      end
  end.

Definition handle_page_fault (strong_count : Z -> Z) (va : Z) (access : AccessType) st : Handled :=
  match access with
  | Read => handle_load_page_fault va st
  | Write => handle_store_page_fault strong_count va st
  | Execute => handle_instruction_page_fault va st
  end.

(** [handle_store_page_fault_set] with [UserMapArea::access_check]: the faults the
    kernel takes for a process. *)
Definition handle_store_page_fault_set (strong_count : Z -> Z) (va : Z) (access : AccessType) st : Handled :=
  match find_area (st_areas st) va with
  | None => match access with Execute => Some (st, None) | _ => expand_or_fail va st end
  | Some a =>
      match access with
      | Write =>
          if cow_flag a then
            match translate (st_pt st) (floor va) with
            | Some _ => Some (handle_cow_page_fault strong_count va st)
            | None => Some (handle_unalloc_page_fault va Write st)
            end
          else if acc_w (map_perm a) then Some (handle_unalloc_page_fault va Write st) else Some (st, None)
      | Read => if acc_r (map_perm a) then Some (handle_unalloc_page_fault va Read st) else Some (st, None)
      | Execute => Some (st, None)
      end
  end.

Definition fault_current_user_page (strong_count : Z -> Z) (va : Z) (access : AccessType) st : Handled :=
  if (va <? USER_FIRST) || (USER_LAST <? va) then Some (st, None)
  else match handle_file_backed_page_fault_current va access false st with
  | Some r => Some r
  | None => handle_store_page_fault_set strong_count va access st
  end.

End Handlers.

(** [populate_mmap_range]: a read fault on each page; [envs] are the surroundings of
    the faults one after the other. *)
Fixpoint populate_pages (vpns : list Z) (envs : list FaultEnv) st : FaultSt * SysResult unit :=
  match vpns, envs with
  | vpn :: vpns, env :: envs =>
      let '(st, r) := handle_unalloc_page_fault env (vpn * PAGE_SIZE) Read st in
      match r with
      | Some Normal => populate_pages vpns envs st
      | Some OutOfMemory => (st, Err ENOMEM)
      | Some BeyondFileSize => (st, Err ENXIO)
      | Some InvalidMapping | Some InvalidAddress | None => (st, Err EFAULT)
      end
  | _, _ => (st, Ok tt)
  end.

Definition populate_mmap_range (start len : Z) (envs : list FaultEnv) st : FaultSt * SysResult unit :=
  match checked_add start len with
  | None => (st, Err ENOMEM)
  | Some e => populate_pages (vpn_range (floor start) (ceil e)) envs st
  end.

(** The whole of [sys_mmap]. *)
Definition sys_mmap (file : option MmapFile) (backing start len prot flags offset : Z) (envs : list FaultEnv) st :
    option (FaultSt * list Z * list UserMapArea * SysResult Z) :=
  out ← mmap_install (fs_vs st) file backing start len prot flags offset;
  let st := mkFS (out_vs out) (fs_backings st) (fs_mem st) in
  match out_result out with
  | Err err => Some (st, out_retired out, out_released out, Err err)
  | Ok s =>
      if flag_set flags MAP_POPULATE then
        match page_align_up len with
        | None => None
        | Some n =>
            let '(st, r) := populate_mmap_range s n envs st in
            Some (st, out_retired out, out_released out, match r with Ok _ => Ok s | Err err => Err err end)
        end
      else Some (st, out_retired out, out_released out, Ok s)
  end.

(** ** Fork *)

(** The areas the child gets frames of its own for. *)
Definition direct_clone (t : UserMapAreaType) : bool := match t with TrapContext | RtSigreturnTrampoline => true | _ => false end.

(** [map] of the new area: a new frame for each page, with the bytes of the parent's
    page copied afterwards.  The result is the frames, the page table, the memory and
    the frames of the supply that are left. *)
Fixpoint clone_pages (parent_pt : PageTable) (f : Access) (vpns : list Z) (supply : list Z) (m : gmap Z Z) pt (mem : Z -> bytes) :
    option (gmap Z Z * PageTable * (Z -> bytes) * list Z) :=
  match vpns with
  | [] => Some (m, pt, mem, supply)
  | vpn :: vpns =>
      match supply with
      | [] => None
      | p :: supply =>
          let pt := map_page pt vpn p f in
          let bytes := match translate parent_pt vpn, translate pt vpn with Some e, Some _ => mem (pte_ppn e) | _, _ => zero_page end in
          clone_pages parent_pt f vpns supply (<[vpn := p]> m) pt (<[p := bytes]> mem)
      end
  end.

(** [map_page] for all the frames of an area. *)
Definition map_frames (m : gmap Z Z) (f : Access) pt : PageTable := fold_left (fun pt (kv : Z * Z) => map_page pt kv.1 kv.2 f) (map_to_list m) pt.
(** [pte.set_flag] on the parent's valid entries. *)
Definition protect_frames (m : gmap Z Z) (f : Access) pt : PageTable := fold_left (fun pt v => set_pte_flags pt v f) (map_to_list m).*1 pt.

Record ForkSt := mkFork { fk_parent : list UserMapArea; fk_parent_pt : PageTable; fk_child : UserVMSet; fk_mem : Z -> bytes; fk_supply : list Z }.

(** One area of the parent; [fk_parent] collects the parent's areas. *)
Definition fork_area (parent_pt0 : PageTable) (k : ForkSt) a : option ForkSt :=
  let child := fk_child k in
  if direct_clone (area_type a) then
    if negb (user_area_range a) then None
    else
      let vpns := if lazy_flag a || cow_flag a then [] else vpn_range (start_vpn a) (end_vpn a) in
      '(m, pt, mem, supply) ← clone_pages parent_pt0 (initial_mapping_flags a) vpns (fk_supply k) ∅ (page_table child) (fk_mem k);
      l ← insert_area_sorted (set_frames m a) (areas child);
      Some (mkFork (fk_parent k ++ [a]) (fk_parent_pt k) (mkVM pt l) mem supply)
  else if shared_area a then
    l ← insert_area_sorted a (areas child);
    Some (mkFork (fk_parent k ++ [a]) (fk_parent_pt k) (mkVM (map_frames (data_frames a) (initial_mapping_flags a) (page_table child)) l) (fk_mem k) (fk_supply k))
  else
    let writable := acc_w (map_perm a) in
    let a' := if writable then set_cow true a else a in
    let parent_flags := pte_flags (if writable then cow_mapping_flags (map_perm a) else mapping_flags (map_perm a)) in
    let child_flags := if cow_flag a' then cow_mapping_flags (map_perm a) else mapping_flags (map_perm a) in
    l ← insert_area_sorted a' (areas child);
    Some (mkFork (fk_parent k ++ [a']) (protect_frames (data_frames a) parent_flags (fk_parent_pt k))
            (mkVM (map_frames (data_frames a) child_flags (page_table child)) l) (fk_mem k) (fk_supply k)).

(** [from_existed_user_cow]: the parent's and the child's address space.  [supply]:
    the frames the allocator hands out for the child's own pages. *)
Definition from_existed_user_cow (parent : UserVMSet) (mem : Z -> bytes) (supply : list Z) : option (UserVMSet * UserVMSet * (Z -> bytes)) :=
  k ← fold_left (fun ok a => k ← ok; fork_area (page_table parent) k a) (areas parent)
        (Some (mkFork [] (page_table parent) (mkVM ∅ []) mem supply));
  Some (mkVM (fk_parent_pt k) (fk_parent k), fk_child k, fk_mem k).
