(* ===== verification/VmWorld.v ===== *)
(** * Virtual memory: all address spaces together

    References to frames ([Arc::strong_count] over all address spaces, shared backings
    and the references held elsewhere, and how it changes with the resident pages); then the
    address spaces of all processes, the shared backings, the page cache and the memory as one
    world, and the invariant that makes copy-on-write sound. *)

From Stdlib Require Import Sorted.
From stdpp Require Import gmap functions.
From S2P Require Import Prelude SysErr FrameAlloc Vm VmSpec VmSys VmMap VmProt VmFault.

Implicit Types a b : UserMapArea.
Implicit Types l : list UserMapArea.
Implicit Types vs : UserVMSet.

(** ** Counting *)

Definition count (p : Z) (ps : list Z) : Z := Z.of_nat (length (List.filter (Z.eqb p) ps)).

Lemma count_nil p : count p [] = 0.
Proof. done. Qed.

Lemma count_cons p q ps : count p (q :: ps) = (if p =? q then 1 else 0) + count p ps.
Proof. unfold count. simpl. destruct (p =? q); simpl; lia. Qed.

Lemma count_app p ps qs : count p (ps ++ qs) = count p ps + count p qs.
Proof. unfold count. rewrite List.filter_app, length_app. lia. Qed.

Lemma count_nonneg p ps : 0 <= count p ps.
Proof. unfold count. lia. Qed.

#[export] Instance count_perm p : Proper ((≡ₚ) ==> eq) (count p).
Proof.
  intros ps qs H. induction H; rewrite ?count_cons; [done|lia|lia|congruence].
Qed.

Lemma count_pos p ps : 0 < count p ps <-> p ∈ ps.
Proof.
  induction ps as [|q ps IH]; [rewrite count_nil; split; [lia|by intros H%not_elem_of_nil]|].
  rewrite count_cons, elem_of_cons, <- IH. pose proof (count_nonneg p ps). destruct (Z.eqb_spec p q); split; intros; [by left|lia|right; lia|].
  destruct H0; [done|lia].
Qed.

(** ** Frames of a map *)

Definition frames (m : gmap Z Z) : list Z := (map_to_list m).*2.
Definition mcount (m : gmap Z Z) (p : Z) : Z := count p (frames m).

Lemma mcount_empty p : mcount ∅ p = 0.
Proof. unfold mcount, frames. by rewrite map_to_list_empty. Qed.

Lemma mcount_insert m v q p : m !! v = None -> mcount (<[v := q]> m) p = (if p =? q then 1 else 0) + mcount m p.
Proof. intros H. unfold mcount, frames. rewrite map_to_list_insert by done. apply count_cons. Qed.

Lemma mcount_delete m v q p : m !! v = Some q -> mcount m p = (if p =? q then 1 else 0) + mcount (delete v m) p.
Proof.
  intros H. rewrite <- (insert_delete_id m v q H) at 1. apply mcount_insert. apply lookup_delete_eq.
Qed.

Lemma mcount_nonneg m p : 0 <= mcount m p.
Proof. apply count_nonneg. Qed.

Lemma mcount_pos m p : 0 < mcount m p <-> exists v, m !! v = Some p.
Proof.
  unfold mcount. rewrite count_pos. unfold frames. rewrite list_elem_of_fmap. split.
  - intros ([v q] & -> & H%elem_of_map_to_list). by exists v.
  - intros [v H]. exists (v, p). split; [done|by apply elem_of_map_to_list].
Qed.

Lemma mcount_sub m m' p : m ⊆ m' -> mcount m p <= mcount m' p.
Proof.
  revert m'. induction m as [|v q m Hv IH] using map_ind; intros m' Hs.
  - rewrite mcount_empty. apply mcount_nonneg.
  - rewrite mcount_insert by done. assert (Hq : m' !! v = Some q). { eapply lookup_weaken; [|exact Hs]. apply lookup_insert_eq. }
    rewrite (mcount_delete m' v q p Hq). assert (m ⊆ delete v m') as H%IH; [|lia].
    rewrite <- (delete_id m v Hv). apply delete_mono. etrans; [|exact Hs]. by apply insert_subseteq.
Qed.

(** Two pages with one frame are two references. *)
Lemma mcount_two m v v' p : v <> v' -> m !! v = Some p -> m !! v' = Some p -> 2 <= mcount m p.
Proof.
  intros Hne H1 H2. rewrite (mcount_delete m v p p H1), Z.eqb_refl.
  assert (0 < mcount (delete v m) p); [|lia]. apply mcount_pos. exists v'. by rewrite lookup_delete_ne.
Qed.

Lemma mcount_union m1 m2 p : m1 ##ₘ m2 -> mcount (m1 ∪ m2) p = mcount m1 p + mcount m2 p.
Proof.
  revert m2. induction m1 as [|v q m1 Hv IH] using map_ind; intros m2 Hd.
  - by rewrite (left_id_L ∅ _), mcount_empty.
  - apply map_disjoint_insert_l in Hd as [H2 Hd]. rewrite <- insert_union_l, !mcount_insert, IH; [lia|done|done|].
    by apply lookup_union_None.
Qed.

(** ** The resident pages of an address space *)

Fixpoint rmap l : gmap Z Z := match l with [] => ∅ | a :: l => data_frames a ∪ rmap l end.

Lemma rmap_lookup l v : areas_ok l -> rmap l !! v = resident l v.
Proof.
  induction l as [|a l IH]; intros Hok; [done|]. apply areas_ok_cons in Hok as (Ha & Hal & Hl). cbn [rmap].
  rewrite resident_cons, lookup_union, IH by done. destruct (in_area a v) eqn:E.
  - unfold resident. rewrite (before_disjoint a l v) by done. cbn. by rewrite (right_id_L None _).
  - destruct (data_frames a !! v) as [p|] eqn:Ep; [by rewrite (ao_frames a Ha v p Ep) in E|]. by rewrite (left_id_L None _).
Qed.

(** The references of one address space, as the code counts them. *)
Definition space_refs (vs : UserVMSet) : list Z := concat (map (fun a => frames (data_frames a)) (areas vs)).

Lemma space_refs_count vs p : areas_ok (areas vs) -> count p (space_refs vs) = mcount (rmap (areas vs)) p.
Proof.
  unfold space_refs. induction (areas vs) as [|a l IH]; intros Hok; [by rewrite mcount_empty|]. cbn [map concat rmap].
  pose proof Hok as (Ha & Hal & Hl)%areas_ok_cons. rewrite count_app, IH by done. rewrite mcount_union; [done|].
  apply map_disjoint_spec. intros v p1 p2 H1 H2. rewrite rmap_lookup in H2 by done. unfold resident in H2.
  by rewrite (before_disjoint a l v Hal (ao_frames a Ha v p1 H1)) in H2.
Qed.

(** * The world *)

Record VmWorld := mkVW {
  vw_spaces : gmap Z UserVMSet;
  vw_backings : gmap Z (gmap Z Z);
  vw_held : list Z;
  vw_mem : Z -> bytes }.

Implicit Types w : VmWorld.

(** References outside the address spaces. *)
Definition outside (bk : gmap Z (gmap Z Z)) (held : list Z) : list Z := concat (map frames (map_to_list bk).*2) ++ held.
Definition spaces_refs (sp : gmap Z UserVMSet) : list Z := concat (map space_refs (map_to_list sp).*2).
(** [Arc::strong_count] of every frame. *)
Definition strong_count w (p : Z) : Z := count p (spaces_refs (vw_spaces w) ++ outside (vw_backings w) (vw_held w)).

(** ** What has to hold of each address space *)

(** A private writable mapping of a file is copy-on-write; copy-on-write mappings are
    private and writable; executables are mapped privately; only shared anonymous
    mappings have a shared backing; all but trap contexts and trampolines is user memory. *)
Record attr_ok (A : Attr) : Prop := {
  ak_file : private_attr A = true -> at_file A = true -> acc_w (at_perm A) = true -> at_cow A = true;
  ak_cow : at_cow A = true -> acc_w (at_perm A) = true /\ private_attr A = true;
  ak_elf : at_type A = Elf -> at_flags A = MapPrivate;
  ak_anon : at_anon A = true -> private_attr A = false /\ at_file A = false;
  ak_user : at_cow A = true \/ direct_clone (at_type A) = false -> acc_u (at_perm A) = true }.

(** A private page that is writable now, or that a fault makes writable without a
    copy, has the only reference to its frame. *)
Definition page_sole (cnt : Z -> Z) vs : Prop :=
  forall v i p, view (areas vs) v = Some i -> pg_frame i = Some p -> shared_page i = false ->
    (acc_w (pg_perm i) = true -> pg_cow i = false -> cnt p = 1) /\
    (forall e, translate (page_table vs) v = Some e -> acc_w (pte_acc e) = true -> cnt p = 1).

(** The entry of a resident page gives the reads and the execution its area allows, and is
    for user mode exactly when its area is. *)
Definition page_served vs : Prop :=
  forall v i p f, view (areas vs) v = Some i -> pg_frame i = Some p -> page_table vs !! v = Some (mkPTE p f) ->
    (acc_r (pg_perm i) || acc_w (pg_perm i) = true -> acc_r f = true) /\ (acc_x (pg_perm i) = true -> acc_x f = true) /\ acc_u f = acc_u (pg_perm i).

Record space_ok (cnt : Z -> Z) vs : Prop := {
  sk_vm : vm_ok vs;
  sk_attr : Forall (fun a => attr_ok (attr a)) (areas vs);
  sk_sole : page_sole cnt vs;
  sk_served : page_served vs }.

Definition world_ok w : Prop := forall s vs, vw_spaces w !! s = Some vs -> space_ok (strong_count w) vs.

(** ** Counting in a world *)

Lemma spaces_refs_insert sp s vs p : sp !! s = None -> count p (spaces_refs (<[s := vs]> sp)) = count p (space_refs vs) + count p (spaces_refs sp).
Proof. intros H. unfold spaces_refs. rewrite map_to_list_insert by done. cbn. by rewrite count_app. Qed.

Lemma spaces_refs_delete sp s vs p : sp !! s = Some vs -> count p (spaces_refs sp) = count p (space_refs vs) + count p (spaces_refs (delete s sp)).
Proof. intros H. rewrite <- (insert_delete_id sp s vs H) at 1. apply spaces_refs_insert, lookup_delete_eq. Qed.

(** The references that are not those of one address space. *)
Definition others w (s : Z) (p : Z) : Z := count p (spaces_refs (delete s (vw_spaces w))) + count p (outside (vw_backings w) (vw_held w)).

Lemma strong_count_split w s vs p : vw_spaces w !! s = Some vs -> strong_count w p = count p (space_refs vs) + others w s p.
Proof. intros H. unfold strong_count, others. rewrite count_app, (spaces_refs_delete _ s vs) by done. lia. Qed.

Lemma others_nonneg w s p : 0 <= others w s p.
Proof. unfold others. pose proof (count_nonneg p (spaces_refs (delete s (vw_spaces w)))). pose proof (count_nonneg p (outside (vw_backings w) (vw_held w))). lia. Qed.

Lemma strong_count_nonneg w p : 0 <= strong_count w p.
Proof. apply count_nonneg. Qed.

Lemma outside_le w p : count p (outside (vw_backings w) (vw_held w)) <= strong_count w p.
Proof. unfold strong_count. rewrite count_app. pose proof (count_nonneg p (spaces_refs (vw_spaces w))). lia. Qed.

Lemma resident_count w s vs v p : vw_spaces w !! s = Some vs -> areas_ok (areas vs) -> resident (areas vs) v = Some p ->
  1 <= count p (space_refs vs) /\ 1 + others w s p <= strong_count w p.
Proof.
  intros Hs Hok Hr. rewrite (strong_count_split w s vs p Hs). rewrite space_refs_count by done.
  assert (0 < mcount (rmap (areas vs)) p); [|lia]. apply mcount_pos. exists v. by rewrite rmap_lookup.
Qed.

(** A frame with one reference is resident once and referenced nowhere else. *)
Lemma sole_unique w s vs v p : vw_spaces w !! s = Some vs -> areas_ok (areas vs) -> resident (areas vs) v = Some p -> strong_count w p = 1 ->
  others w s p = 0 /\ forall v', resident (areas vs) v' = Some p -> v' = v.
Proof.
  intros Hs Hok Hr Hc. pose proof (resident_count w s vs v p Hs Hok Hr). pose proof (others_nonneg w s p). split; [lia|].
  intros v' Hr'. destruct (decide (v' = v)); [done|]. rewrite (strong_count_split w s vs p Hs), space_refs_count in Hc by done.
  assert (2 <= mcount (rmap (areas vs)) p); [|lia]. apply (mcount_two _ v v'); [done|by rewrite rmap_lookup..].
Qed.

Lemma others_other w s s' vs vs' v p : s <> s' -> vw_spaces w !! s = Some vs -> vw_spaces w !! s' = Some vs' -> areas_ok (areas vs') ->
  resident (areas vs') v = Some p -> 1 <= others w s p.
Proof.
  intros Hne Hs Hs' Hok Hr. unfold others. pose proof (count_nonneg p (outside (vw_backings w) (vw_held w))).
  rewrite (spaces_refs_delete (delete s (vw_spaces w)) s' vs') by (by rewrite lookup_delete_ne). rewrite space_refs_count by done.
  pose proof (count_nonneg p (spaces_refs (delete s' (delete s (vw_spaces w))))).
  assert (0 < mcount (rmap (areas vs')) p); [|lia]. apply mcount_pos. exists v. by rewrite rmap_lookup.
Qed.

(** ** When the counts change *)

(** New references go only to frames that nobody refers to, or that are also
    referenced outside the address spaces. *)
Definition frame_safe w w' : Prop :=
  forall p, strong_count w' p <= strong_count w p \/ strong_count w p = 0 \/ 0 < count p (outside (vw_backings w) (vw_held w)).

Lemma page_sole_mono (c c' : Z -> Z) vs :
  (forall v p, resident (areas vs) v = Some p -> c p = 1 -> c' p = 1) -> page_sole c vs -> page_sole c' vs.
Proof.
  intros Hc Hs v i p Hv Hp Hsh. destruct (Hs v i p Hv Hp Hsh) as [H1 H2].
  assert (Hr : resident (areas vs) v = Some p) by (rewrite resident_view, Hv; done). split; eauto.
Qed.

Lemma space_ok_mono c c' vs : (forall v p, resident (areas vs) v = Some p -> c p = 1 -> c' p = 1) -> space_ok c vs -> space_ok c' vs.
Proof. intros Hc [? ? ? ?]. split; try done. by apply (page_sole_mono c). Qed.

(** An address space that the step leaves alone. *)
Lemma space_ok_frame w w' s vs : frame_safe w w' -> vw_spaces w !! s = Some vs -> vw_spaces w' !! s = Some vs ->
  space_ok (strong_count w) vs -> space_ok (strong_count w') vs.
Proof.
  intros Hf Hs Hs' Hok. apply (space_ok_mono (strong_count w)); [|done]. intros v p Hr Hc.
  pose proof (vo_areas _ (sk_vm _ _ Hok)) as Ha.
  pose proof (resident_count w s vs v p Hs Ha Hr). pose proof (resident_count w' s vs v p Hs' Ha Hr) as H'. pose proof (others_nonneg w' s p).
  destruct (Hf p) as [|[|Ho]]; [lia|lia|]. unfold others in *. pose proof (count_nonneg p (spaces_refs (delete s (vw_spaces w)))). lia.
Qed.

(** A step of one address space: its frames come from nowhere else. *)
Lemma world_ok_space w w' s vs' : world_ok w -> frame_safe w w' -> vw_spaces w' = <[s := vs']> (vw_spaces w) -> space_ok (strong_count w') vs' -> world_ok w'.
Proof.
  intros Hok Hf Hsp Hnew s1 vs1 H1. destruct (decide (s1 = s)) as [-> |Hne].
  - rewrite Hsp, lookup_insert_eq in H1. by injection H1 as <-.
  - pose proof H1 as H2. rewrite Hsp, lookup_insert_ne in H2 by done. apply (space_ok_frame w w' s1); [done..|]. by apply (Hok s1).
Qed.

(** The world after an operation on one address space. *)
Definition put_space w (s : Z) vs (mem : Z -> bytes) : VmWorld := mkVW (<[s := vs]> (vw_spaces w)) (vw_backings w) (vw_held w) mem.

Lemma put_space_count w s vs mem p : areas_ok (areas vs) ->
  strong_count (put_space w s vs mem) p = mcount (rmap (areas vs)) p + others w s p.
Proof.
  intros Hok. rewrite (strong_count_split _ s vs) by apply lookup_insert_eq. rewrite space_refs_count by done. unfold others, put_space.
  cbn [vw_spaces vw_backings vw_held]. by rewrite delete_insert_eq.
Qed.

Lemma space_count w s vs p : vw_spaces w !! s = Some vs -> areas_ok (areas vs) -> strong_count w p = mcount (rmap (areas vs)) p + others w s p.
Proof. intros Hs Hok. by rewrite (strong_count_split w s vs p Hs), space_refs_count. Qed.

(** An operation whose resident pages were resident before. *)
Lemma put_space_safe w s vs vs' mem : vw_spaces w !! s = Some vs -> areas_ok (areas vs) -> areas_ok (areas vs') ->
  (forall v p, resident (areas vs') v = Some p -> resident (areas vs) v = Some p) ->
  frame_safe w (put_space w s vs' mem) /\
  forall v p, resident (areas vs') v = Some p -> strong_count w p = 1 -> strong_count (put_space w s vs' mem) p = 1.
Proof.
  intros Hs Hok Hok' Hsub.
  assert (Hle : forall p, strong_count (put_space w s vs' mem) p <= strong_count w p).
  { intros p. rewrite put_space_count, (space_count w s vs) by done. assert (rmap (areas vs') ⊆ rmap (areas vs)) as Hm; [|pose proof (mcount_sub _ _ p Hm); lia].
    apply map_subseteq_spec. intros v q. rewrite !rmap_lookup by done. apply Hsub. }
  split; [by left|]. intros v p Hr Hc. specialize (Hle p).
  pose proof (resident_count (put_space w s vs' mem) s vs' v p ltac:(apply lookup_insert_eq) Hok' Hr). pose proof (others_nonneg (put_space w s vs' mem) s p). lia.
Qed.

(** ** Operations that only take pages away *)

Lemma restrict_world_ok w s vs vs' mem : world_ok w -> vw_spaces w !! s = Some vs -> areas_ok (areas vs') ->
  (forall v, (view (areas vs') v = view (areas vs) v /\ page_table vs' !! v = page_table vs !! v) \/
             (resident (areas vs') v = None /\ translate (page_table vs') v = None)) ->
  (Forall (fun a => attr_ok (attr a)) (areas vs) -> Forall (fun a => attr_ok (attr a)) (areas vs')) ->
  world_ok (put_space w s vs' mem).
Proof.
  intros Hw Hs Hok' Hv Hat. pose proof (Hw s vs Hs) as [Hvm Hatt Hso Hse]. pose proof (vo_areas _ Hvm) as Hok.
  assert (Hres : forall v p, resident (areas vs') v = Some p -> resident (areas vs) v = Some p).
  { intros v p Hr. destruct (Hv v) as [[E _]|[E _]]; [|congruence]. by rewrite resident_view, <- E, <- resident_view. }
  destruct (put_space_safe w s vs vs' mem Hs Hok Hok' Hres) as [Hf Hc].
  apply (world_ok_space w _ s vs'); [done..|]. split; [by apply (vm_ok_restrict vs)|by apply Hat|..].
  - intros v i p Hi Hp Hsh. assert (Hr : resident (areas vs') v = Some p) by (by rewrite resident_view, Hi).
    destruct (Hv v) as [[E Ept]|[E _]]; [|congruence]. rewrite E in Hi. destruct (Hso v i p Hi Hp Hsh) as [S1 S2]. split.
    + intros ? ?. eapply Hc; [done|auto].
    + intros e He Hw'. eapply Hc; [done|]. apply (S2 e); [|done]. unfold translate in *. by rewrite <- Ept.
  - intros v i p f Hi Hp Hpt. assert (Hr : resident (areas vs') v = Some p) by (by rewrite resident_view, Hi).
    destruct (Hv v) as [[E Ept]|[E _]]; [|congruence]. rewrite E in Hi. rewrite Ept in Hpt. by apply (Hse v i p f).
Qed.
