(* ===== verification/VmCow.v ===== *)
(** * Virtual memory: the system calls keep the invariant *)

From Stdlib Require Import Sorted.
From stdpp Require Import gmap functions.
From S2P Require Import Prelude SysErr FrameAlloc Vm VmSpec VmSys VmMap VmProt VmProtSpec VmFault VmWorld.

Implicit Types a b : UserMapArea.
Implicit Types l : list UserMapArea.
Implicit Types vs : UserVMSet.
Implicit Types w : VmWorld.

Lemma part_attr a b : part_of a b -> attr b = attr a.
Proof.
  intros H. pose proof (po_meta a b H 0) as E. unfold page_meta, page_info in E. injection E as E1 E2 E3 E4 E5 E6 E7 E8 E9 E10.
  unfold attr. rewrite E1, E2, E7, E10. cbn in E4, E9. f_equal; [by destruct (map_file a), (map_file b)|by destruct (shared_anonymous a), (shared_anonymous b)].
Qed.

Lemma parts_attr (Q : Attr -> Prop) l l' : Forall (fun b => exists a, a ∈ l /\ part_of a b) l' -> Forall (fun a => Q (attr a)) l -> Forall (fun a => Q (attr a)) l'.
Proof.
  intros Hp Hq. rewrite Forall_forall in Hp, Hq. apply Forall_forall. intros b Hb. destruct (Hp b Hb) as (a & Ha & Hpart).
  rewrite (part_attr a b Hpart). auto.
Qed.

(** ** Unmapping *)

Lemma trim_world_ok w s vs st e : world_ok w -> vw_spaces w !! s = Some vs -> st mod PAGE_SIZE = 0 -> e mod PAGE_SIZE = 0 -> 0 <= st < e ->
  exists vs' retired released, trim_user_range vs st e = Some (vs', retired, released) /\ forall mem, world_ok (put_space w s vs' mem).
Proof.
  intros Hw Hs H1 H2 H3. pose proof (Hw s vs Hs) as [Hvm Hat _ _].
  destruct (trim_user_range_spec vs st e Hvm H1 H2 H3) as (vs' & r & rel & E & Hvm' & Hv & Ht & Hpt & Hparts).
  exists vs', r, rel. split; [done|]. intros mem. apply (restrict_world_ok w s vs); [done|done|apply (vo_areas _ Hvm')| |by apply parts_attr].
  intros v. rewrite resident_view, Ht, !Hv. destruct (unmapped st e (areas vs) v) eqn:Eu; [by right|left]. by rewrite Hpt.
Qed.

Lemma put_same w s vs : world_ok w -> vw_spaces w !! s = Some vs -> forall mem, world_ok (put_space w s vs mem).
Proof.
  intros Hw Hs mem. apply (restrict_world_ok w s vs); try done; [apply (vo_areas _ (sk_vm _ _ (Hw s vs Hs)))|]. by left.
Qed.

Lemma munmap_world_ok w s vs start len : world_ok w -> vw_spaces w !! s = Some vs -> 0 <= start -> 0 <= len ->
  exists out, sys_munmap vs start len = Some out /\ forall mem, world_ok (put_space w s (out_vs out) mem).
Proof.
  intros Hw Hs H1 H2. pose proof (put_same w s vs Hw Hs) as Hsame. unfold sys_munmap, fail_out.
  case_raw E; [by eexists|]. apply orb_false_iff in E as [El%Z.eqb_neq Eo%negb_false_iff%Z.eqb_eq]. rewrite page_offset_mod in Eo.
  destruct (page_align_len len) as [n|] eqn:En; [|by eexists]. apply page_align_len_spec in En as [N1 N2]; [|lia].
  destruct (checked_add start n) as [e|] eqn:Ee; [|by eexists]. unfold checked_add in Ee. case_if_in Ee; [|done]. injection Ee as <-.
  case_raw Ev; [by eexists|]. apply negb_false_iff, valid_user_range_spec in Ev as [? ?].
  destruct (trim_world_ok w s vs start (start + n) Hw Hs Eo) as (vs' & r & rel & -> & Hok); [by apply mod_add_page|done|].
  cbn. eexists. split; [done|]. exact Hok.
Qed.

(** ** Protection *)

(** No private mapping of a file becomes writable: the call leaves it without
    copy-on-write while none of its pages is resident. *)
Definition mprotect_safe vs (s e : Z) (np : Access) : Prop :=
  acc_w np = true -> Forall (fun a => s < end_vpn a -> start_vpn a < e -> private_attr (attr a) = true -> at_file (attr a) = true -> acc_w (map_perm a) = true) (areas vs).

Lemma attr_update np A c : attr_ok A -> acc_u np = true -> (acc_w np = true -> private_attr A = true -> at_file A = true -> acc_w (at_perm A) = true) ->
  (c = true /\ private_attr A = true) \/ c = at_cow A -> attr_ok (mkAttr np (at_type A) (at_file A) (at_flags A) (if acc_w np then c else false) (at_anon A)).
Proof.
  intros [K1 K2 K3 K4 K5] Hu Hg Hc. set (B := mkAttr _ _ _ _ _ _). assert (EB : private_attr B = private_attr A) by done. split; rewrite ?EB; cbn.
  - intros P1 P2 P3. rewrite P3. destruct Hc as [[-> _] | ->]; auto.
  - destruct (acc_w np); [|done]. intros ->. split; [done|]. destruct Hc as [[_ ?]|Hc]; [done|]. by apply K2.
  - done.
  - done.
  - done.
Qed.

Lemma page_pte_flags_serves i :
  (acc_r (pg_perm i) || acc_w (pg_perm i) = true -> acc_r (page_pte_flags i) = true) /\ (acc_x (pg_perm i) = true -> acc_x (page_pte_flags i) = true) /\ acc_u (page_pte_flags i) = acc_u (pg_perm i).
Proof.
  unfold page_pte_flags, pte_flags, cow_mapping_flags, mapping_flags. destruct (pg_perm i) as [[] [] [] []], (pg_cow i); cbn;
    repeat case_bool_decide; cbn; done.
Qed.

Lemma mprotect_world_ok w s vs lo hi np : world_ok w -> vw_spaces w !! s = Some vs -> lo < hi -> acc_u np = true -> mprotect_safe vs lo hi np ->
  exists vs' k, mprotect_apply (strong_count w) vs lo hi np = Some (vs', k) /\ forall mem, world_ok (put_space w s vs' mem).
Proof.
  intros Hw Hs Hlt Hu Hg. pose proof (Hw s vs Hs) as [Hvm Hat Hso Hse]. pose proof (vo_areas _ Hvm) as Hok.
  destruct (mprotect_apply_spec (strong_count w) lo hi np Hlt vs Hok) as (vs' & k & E & Hok' & Hv & Hwalk & _ & Hattr).
  exists vs', k. split; [done|]. intros mem.
  pose proof (mprotect_vm_ok _ _ _ _ vs vs' Hvm Hok' Hv Hwalk) as Hvm'.
  assert (Hres : forall v, resident (areas vs') v = resident (areas vs) v).
  { intros v. rewrite !resident_view. eapply prot_view_frame, Hv. }
  destruct (put_space_safe w s vs vs' mem Hs Hok Hok') as [Hf Hc]; [intros v p; by rewrite Hres|].
  apply (world_ok_space w _ s vs'); [done..|]. split; [done|..].
  - apply (Hattr attr_ok (fun A => acc_w np = true -> private_attr A = true -> at_file A = true -> acc_w (at_perm A) = true)); [|done|].
    + intros A c HA HG. by apply attr_update.
    + destruct (acc_w np) eqn:Enp; [|apply Forall_forall; intros; done]. specialize (Hg Enp). eapply Forall_impl; [exact Hg|]. cbn. auto.
  - intros v i p Hi Hp Hsh. assert (Hr : resident (areas vs') v = Some p) by (by rewrite resident_view, Hi).
    assert (Hrc : 1 <= strong_count w p).
    { rewrite Hres in Hr. pose proof (resident_count w s vs v p Hs Hok Hr). pose proof (others_nonneg w s p). lia. }
    specialize (Hv v). unfold prot_view in Hv. destruct (view (areas vs) v) as [j|] eqn:Ej; [|congruence]. destruct (in_range lo hi v) eqn:Er.
    + destruct Hv as (i' & Ei' & c & -> & C1 & C2). rewrite Hi in Ei'. injection Ei' as ->.
      assert (Hsole : acc_w np = true -> c = false -> strong_count (put_space w s vs' mem) p = 1).
      { intros Hnp ->. apply (Hc v); [done|]. destruct (Z.lt_trichotomy (strong_count w p) 1) as [|[|]]; [lia|done|].
        by specialize (C2 Hnp Hsh p Hp ltac:(lia)). }
      split; [exact Hsole|]. intros e He Hwr. apply translate_Some in He as [He _].
      rewrite (Hwalk v), Hi, Er in He. cbn [andb] in He. rewrite bool_decide_eq_true_2 in He by (by exists p).
      destruct (page_table vs !! v); [|done]. injection He as <-. cbn [pte_acc] in Hwr. apply Hsole.
      * destruct (page_pte_flags_grants (set_prot np c j)) as (G1 & _). by apply G1.
      * destruct c; [|done]. unfold page_pte_flags, pte_flags, cow_mapping_flags in Hwr. cbn [set_prot pg_perm pg_cow] in Hwr.
        destruct (acc_w np) eqn:Enp; [done|]. discriminate (C1 eq_refl).
    + rewrite Hi in Hv. injection Hv as ->. destruct (Hso v j p Ej Hp Hsh) as [S1 S2]. split; [intros; eapply Hc; eauto|].
      intros e He Hwr. eapply Hc; [done|]. apply (S2 e); [|done]. unfold translate in *. rewrite (Hwalk v), Hi, Er in He. done.
  - intros v i p f Hi Hp Hpt. rewrite (Hwalk v), Hi in Hpt. rewrite (bool_decide_eq_true_2 (is_Some (pg_frame i))), andb_true_r in Hpt by (by exists p).
    specialize (Hv v). unfold prot_view in Hv. destruct (view (areas vs) v) as [j|] eqn:Ej; [|congruence]. destruct (in_range lo hi v).
    + destruct (page_table vs !! v) as [x|]; [|done]. injection Hpt as _ <-. apply page_pte_flags_serves.
    + assert (i = j) as -> by congruence. by apply (Hse v j p f).
Qed.

(** ** Discarding pages *)

Lemma unmap_translated_spec vpns (pt : PageTable) : exists pt', unmap_translated pt vpns = Some pt' /\
  forall v, pt' !! v = if bool_decide (v ∈ vpns) && bool_decide (is_Some (translate pt v)) then None else pt !! v.
Proof.
  unfold unmap_translated. revert pt. induction vpns as [|x vpns IH]; intros pt; cbn [fold_left].
  { exists pt. split; [done|]. intros v. by rewrite (bool_decide_eq_false_2 _ (not_elem_of_nil v)). }
  cbn [mbind option_bind]. destruct (translate pt x) as [e|] eqn:Et.
  - pose proof Et as [Ee _]%translate_Some. assert (unmap_page pt x = Some (delete x pt)) as -> by (unfold unmap_page; by rewrite Ee).
    destruct (IH (delete x pt)) as (pt' & -> & Hv). exists pt'. split; [done|].
    intros v. rewrite Hv. destruct (decide (v = x)) as [-> |Hne].
    + rewrite (bool_decide_eq_true_2 (x ∈ x :: vpns)) by left. rewrite Et, lookup_delete_eq. rewrite (bool_decide_eq_true_2 (is_Some (Some e))) by done.
      by destruct (_ && _).
    + unfold translate. rewrite lookup_delete_ne by done. assert (bool_decide (v ∈ x :: vpns) = bool_decide (v ∈ vpns)) as -> by (apply bool_decide_ext; set_solver). done.
  - destruct (IH pt) as (pt' & -> & Hv). exists pt'. split; [done|]. intros v. rewrite Hv. destruct (decide (v = x)) as [-> |Hne].
    + rewrite Et, (bool_decide_eq_false_2 (is_Some None)) by (by intros [? ?]). by rewrite !andb_false_r.
    + assert (bool_decide (v ∈ x :: vpns) = bool_decide (v ∈ vpns)) as -> by (apply bool_decide_ext; set_solver). done.
Qed.

(** An operation that keeps the bounds of each area. *)
Lemma area_at_map f l v : (forall a, start_vpn (f a) = start_vpn a /\ end_vpn (f a) = end_vpn a) -> area_at (map f l) v = option_map f (area_at l v).
Proof.
  intros Hf. induction l as [|a l IH]; [done|]. cbn [map]. rewrite !area_at_cons. unfold in_area. destruct (Hf a) as [-> ->]. by case_match.
Qed.

Lemma areas_ok_map f l : (forall a, start_vpn (f a) = start_vpn a /\ end_vpn (f a) = end_vpn a) -> (forall a, area_ok a -> area_ok (f a)) ->
  areas_ok l -> areas_ok (map f l).
Proof.
  intros Hf Ha. induction l as [|a l IH]; [done|]. cbn [map]. rewrite !areas_ok_cons. intros (H1 & H2 & H3). split_and!; auto.
  apply Forall_map. eapply Forall_impl; [exact H2|]. intros b. unfold before. destruct (Hf a) as [_ ->], (Hf b) as [-> _]. done.
Qed.

Lemma madvise_area_facts lo hi a : let b := (madvise_area lo hi a).1 in
  start_vpn b = start_vpn a /\ end_vpn b = end_vpn a /\ attr b = attr a /\ (area_ok a -> area_ok b) /\
  (forall v, page_meta b v = page_meta a v) /\
  (forall v, data_frames b !! v = if (lo <=? v) && (v <? hi) && in_area a v then None else data_frames a !! v) /\
  (forall v, v ∈ (madvise_area lo hi a).2.*1 <-> lo <= v < hi /\ in_area a v = true /\ is_Some (data_frames a !! v)).
Proof.
  unfold madvise_area. destruct (Z.leb_spec (Z.min (end_vpn a) hi) (Z.max (start_vpn a) lo)); cbn [fst snd].
  - split_and!; try done; intros v.
    + destruct ((lo <=? v) && (v <? hi)) eqn:E; [|done]. apply andb_true_iff in E as [?%Z.leb_le ?%Z.ltb_lt].
      by rewrite (proj2 (in_area_false a v)) by lia.
    + cbn. split; [by intros H1%not_elem_of_nil|]. intros (H1 & H2%in_area_spec & _). lia.
  - set (m := filter _ _).
    assert (Hm : forall v, m !! v = if (lo <=? v) && (v <? hi) && in_area a v then None else data_frames a !! v).
    { intros v. subst m. unfold in_area. destruct (data_frames a !! v) as [p|] eqn:E.
      - destruct (Z.leb_spec lo v), (Z.ltb_spec v hi), (Z.leb_spec (start_vpn a) v), (Z.ltb_spec v (end_vpn a)); cbn [andb];
          (apply map_lookup_filter_Some_2; [done|cbn; lia]) || (apply map_lookup_filter_None_2; right; intros ? _; cbn; lia).
      - destruct (_ && _); apply map_lookup_filter_None_2; by left. }
    split_and!; try done; cbn.
    + intros [? ? ? Hf ?]. split; try done. intros v p. cbn. rewrite Hm. destruct (_ && _); [done|]. apply Hf.
    + intros v. rewrite key_retain, in_area_spec. split; [intros [? ?]; split_and!; (done || lia)|]. intros (? & ? & ?). split; [lia|done].
Qed.

Lemma concat_keys (rs : list (UserMapArea * list (Z * Z))) v : v ∈ (concat rs.*2).*1 <-> exists r, r ∈ rs /\ v ∈ r.2.*1.
Proof.
  induction rs as [|r rs IH]; cbn; [split; [by intros H%not_elem_of_nil|intros (r & H%not_elem_of_nil & _); done]|].
  rewrite fmap_app, elem_of_app, IH. split.
  - intros [H|(r' & H1 & H2)]; [exists r; split; [left|done]|exists r'; split; [by right|done]].
  - intros (r' & [-> | H1]%elem_of_cons & H2); [by left|right; eauto].
Qed.

Lemma madvise_world_ok w s vs addr len advice : world_ok w -> vw_spaces w !! s = Some vs ->
  exists out, sys_madvice vs addr len advice = Some out /\ forall mem, world_ok (put_space w s (out_vs out) mem).
Proof.
  intros Hw Hs. pose proof (put_same w s vs Hw Hs) as Hsame. unfold sys_madvice, fail_out, ok_out.
  repeat (case_raw E; [by eexists|clear E]). destruct (_ ≫= _) as [e|]; [|by eexists]. case_raw E; [by eexists|clear E].
  case_raw E; [by eexists|clear E]. case_raw E; [clear E|by eexists]. case_raw E; [by eexists|clear E].
  set (lo := floor addr). set (hi := ceil e). pose proof (Hw s vs Hs) as [Hvm _ _ _]. pose proof (vo_areas _ Hvm) as Hok.
  destruct (unmap_translated_spec (concat (map (madvise_area lo hi) (areas vs)).*2).*1 (page_table vs)) as (pt' & -> & Hpt). cbn [mbind option_bind].
  eexists. split; [done|]. cbn [out_vs]. set (f := fun a => (madvise_area lo hi a).1).
  assert (Ef : (map (madvise_area lo hi) (areas vs)).*1 = map f (areas vs)) by (subst f; rewrite <- list_fmap_compose; done). rewrite Ef.
  assert (Hb : forall a, start_vpn (f a) = start_vpn a /\ end_vpn (f a) = end_vpn a).
  { intros a. destruct (madvise_area_facts lo hi a) as (? & ? & _). done. }
  intros mem. apply (restrict_world_ok w s vs); [done|done| | |].
  - apply areas_ok_map; [done| |done]. intros a. apply (madvise_area_facts lo hi a).
  - intros v. cbn [areas page_table]. unfold view, resident. rewrite area_at_map by done.
    destruct (area_at (areas vs) v) as [a|] eqn:Ea; cbn [option_map option_bind mbind].
    2: { left. split; [done|]. rewrite Hpt. destruct (translate (page_table vs) v) as [x|] eqn:Et;
           [apply (vo_mapped vs Hvm) in Et; unfold resident in Et; by rewrite Ea in Et|].
         rewrite (bool_decide_eq_false_2 (is_Some None)) by (by intros [? ?]). by rewrite andb_false_r. }
    pose proof Ea as [Hin Hav%in_area_spec]%area_at_Some.
    destruct (madvise_area_facts lo hi a) as (_ & _ & _ & _ & Hm & Hfr & _). fold (f a) in Hm, Hfr.
    destruct ((lo <=? v) && (v <? hi)) eqn:Er.
    + right. rewrite Hfr, Er, Hav. split; [done|]. destruct (translate pt' v) as [x|] eqn:Et; [|done]. exfalso.
      pose proof Et as [Ex Hx]%translate_Some. rewrite Hpt in Ex. case_raw_in Ex Eb; [done|].
      assert (Ht : translate (page_table vs) v = Some x) by (by apply translate_Some). rewrite Ht in Eb.
      rewrite (bool_decide_eq_true_2 (is_Some (Some x))), andb_true_r in Eb by done. apply bool_decide_eq_false in Eb. apply Eb, concat_keys.
      exists (madvise_area lo hi a). apply andb_true_iff in Er as [?%Z.leb_le ?%Z.ltb_lt].
      split; [apply list_elem_of_fmap; by exists a|]. apply madvise_area_facts. split_and!; [lia..|done|].
      apply (vo_mapped vs Hvm) in Ht. unfold resident in Ht. rewrite Ea in Ht. cbn in Ht. by eexists.
    + left. split; [f_equal; by rewrite !page_info_meta, Hm, Hfr, Er|]. rewrite Hpt, bool_decide_eq_false_2; [done|]. rewrite concat_keys.
      intros (r & (b & -> & Hb')%list_elem_of_fmap & Hv%madvise_area_facts). apply andb_false_iff in Er as [?%Z.leb_gt|?%Z.ltb_ge]; lia.
  - intros Hat. apply Forall_map. eapply Forall_impl; [exact Hat|]. intros a. cbn. destruct (madvise_area_facts lo hi a) as (_ & _ & Ha & _).
    unfold f. by rewrite Ha.
Qed.
