(* ===== verification/VmFaultSpec.v ===== *)
(** * Virtual memory: page faults keep the invariant

    The three things a fault does to an address space (a new page, new flags for a
    resident page, another frame for a resident page), and each handler in terms of them. *)

From Stdlib Require Import Sorted.
From stdpp Require Import gmap functions.
From S2P Require Import Prelude SysErr FrameAlloc Vm VmSpec VmSys VmMap VmProt VmProtSpec VmFault VmWorld VmCow.

Implicit Types a b : UserMapArea.
Implicit Types l : list UserMapArea.
Implicit Types vs : UserVMSet.
Implicit Types w : VmWorld.

Definition outside_count w (p : Z) : Z := count p (outside (vw_backings w) (vw_held w)).

(** The reads, the execution and the mode that an entry has to give to a page. *)
Definition serves (i : PageInfo) (f : Access) : Prop :=
  (acc_r (pg_perm i) || acc_w (pg_perm i) = true -> acc_r f = true) /\ (acc_x (pg_perm i) = true -> acc_x f = true) /\ acc_u f = acc_u (pg_perm i).

(** One page of one address space changes: its frame and its entry. *)
Record page_step w w' (s : Z) vs vs' (v p : Z) (f : Access) (i : PageInfo) : Prop := {
  ps_old : vw_spaces w !! s = Some vs;
  ps_new : vw_spaces w' = <[s := vs']> (vw_spaces w);
  ps_ok : areas_ok (areas vs');
  ps_view : view (areas vs') v = Some i;
  ps_frame : pg_frame i = Some p;
  ps_others : forall u, u <> v -> view (areas vs') u = view (areas vs) u;
  ps_entry : page_table vs' !! v = Some (mkPTE p f);
  ps_entries : forall u, u <> v -> page_table vs' !! u = page_table vs !! u;
  ps_grants : grants i f;
  ps_serves : serves i f;
  ps_attr : Forall (fun a => attr_ok (attr a)) (areas vs') }.

Section PageStep.
Context (w w' : VmWorld) (s : Z) (vs vs' : UserVMSet) (v p : Z) (f : Access) (i : PageInfo).
Context (Hw : world_ok w) (Hps : page_step w w' s vs vs' v p f i).

Lemma ps_resident u : resident (areas vs') u = if bool_decide (u = v) then Some p else resident (areas vs) u.
Proof.
  rewrite !resident_view. case_bool_decide as E; [subst u; by rewrite (ps_view _ _ _ _ _ _ _ _ _ Hps), <- (ps_frame _ _ _ _ _ _ _ _ _ Hps)|].
  by rewrite (ps_others _ _ _ _ _ _ _ _ _ Hps) by done.
Qed.

Lemma ps_rmap : rmap (areas vs') = <[v := p]> (rmap (areas vs)).
Proof.
  pose proof (vo_areas _ (sk_vm _ _ (Hw s vs (ps_old _ _ _ _ _ _ _ _ _ Hps)))) as Hok.
  apply map_eq. intros u. rewrite rmap_lookup by apply (ps_ok _ _ _ _ _ _ _ _ _ Hps). rewrite ps_resident.
  case_bool_decide as E; [subst u; by rewrite lookup_insert_eq|]. rewrite lookup_insert_ne by done. by rewrite rmap_lookup.
Qed.

(** The counts of the step are all there is to check. *)
Lemma page_step_ok : frame_safe w w' ->
  (forall u q, u <> v -> resident (areas vs) u = Some q -> strong_count w q = 1 -> strong_count w' q = 1) ->
  (shared_page i = false -> (acc_w (pg_perm i) = true /\ pg_cow i = false) \/ acc_w f = true -> strong_count w' p = 1) -> world_ok w'.
Proof.
  intros Hf Hc Hp. destruct Hps as [Hs Hsp Hok' Hi Hfr Hoth He Hes Hgr Hse Hat].
  pose proof (Hw s vs Hs) as [Hvm _ Hso Hsv]. pose proof Hvm as [Hok Hr Hm Hac]. pose proof ps_resident as Hres.
  assert (Htr : forall u, u <> v -> translate (page_table vs') u = translate (page_table vs) u) by (intros u Hu; unfold translate; by rewrite Hes).
  apply (world_ok_space w w' s vs'); [done..|]. split; [split|done|..]; [done|..].
  - intros u q. rewrite Hres. case_bool_decide as E; [subst u; intros [= <-]; eauto|]. intros Hq. rewrite Hes by done. eauto.
  - intros u e Hu. rewrite Hres. case_bool_decide as E; [subst u|rewrite Htr in Hu by done; eauto].
    apply translate_Some in Hu as [Hu _]. rewrite He in Hu. by injection Hu as <-.
  - intros u e j Hu Hj. destruct (decide (u = v)) as [-> |Hne].
    + apply translate_Some in Hu as [Hu _]. rewrite He in Hu. injection Hu as <-. rewrite Hi in Hj. by injection Hj as <-.
    + rewrite Htr in Hu by done. rewrite Hoth in Hj by done. by apply (Hac u).
  - intros u j q Hj Hq Hsh. destruct (decide (u = v)) as [-> |Hne].
    + rewrite Hi in Hj. injection Hj as <-. rewrite Hfr in Hq. injection Hq as <-. split; [by auto|].
      intros e Hu Hwr. apply translate_Some in Hu as [Hu _]. rewrite He in Hu. injection Hu as <-. auto.
    + rewrite Hoth in Hj by done. rewrite Htr by done. destruct (Hso u j q Hj Hq Hsh) as [S1 S2].
      assert (Hrq : resident (areas vs) u = Some q) by (by rewrite resident_view, Hj). split; eauto.
  - intros u j q g Hj Hq Hu. destruct (decide (u = v)) as [-> |Hne].
    + rewrite Hi in Hj. injection Hj as <-. rewrite He in Hu. injection Hu as <- <-. done.
    + rewrite Hoth in Hj by done. rewrite Hes in Hu by done. by apply (Hsv u j q g).
Qed.

(** A new page. *)
Lemma install_ok : resident (areas vs) v = None ->
  (forall q, q <> p -> outside_count w' q = outside_count w q) -> outside_count w p <= outside_count w' p ->
  (strong_count w p = 0 \/ 0 < outside_count w p) ->
  (shared_page i = false -> (acc_w (pg_perm i) = true /\ pg_cow i = false) \/ acc_w f = true -> strong_count w p = 0 /\ outside_count w' p = 0) ->
  world_ok w'.
Proof.
  intros Hn Ho Hop Hp Hfresh. destruct Hps as [Hs Hsp Hok' Hi Hfr Hoth He Hes Hgr Hse Hat].
  pose proof (vo_areas _ (sk_vm _ _ (Hw s vs Hs))) as Hok.
  assert (Hcnt : forall q, strong_count w' q = (if q =? p then 1 else 0) + mcount (rmap (areas vs)) q + count q (spaces_refs (delete s (vw_spaces w))) + outside_count w' q).
  { intros q. assert (Hs' : vw_spaces w' !! s = Some vs') by (rewrite Hsp; apply lookup_insert_eq).
    rewrite (space_count w' s vs' q Hs' Hok'), ps_rmap, mcount_insert by (by rewrite rmap_lookup). unfold others, outside_count.
    rewrite Hsp, delete_insert_eq. lia. }
  assert (Hold : forall q, strong_count w q = mcount (rmap (areas vs)) q + count q (spaces_refs (delete s (vw_spaces w))) + outside_count w q).
  { intros q. rewrite (space_count w s vs q Hs Hok). unfold others, outside_count. lia. }
  pose proof (mcount_nonneg (rmap (areas vs)) p). pose proof (count_nonneg p (spaces_refs (delete s (vw_spaces w)))).
  pose proof (count_nonneg p (outside (vw_backings w) (vw_held w))).
  apply page_step_ok.
  - intros q. destruct (decide (q = p)) as [-> |Hne]; [right; done|left]. rewrite Hcnt, Hold, Ho by done.
    destruct (Z.eqb_spec q p); [done|lia].
  - intros u q Hu Hq Hc. destruct (decide (q = p)) as [-> |Hne].
    + exfalso. pose proof (resident_count w s vs u p Hs Hok Hq). pose proof (others_nonneg w s p). unfold others, outside_count in *. lia.
    + rewrite Hcnt, Ho by done. rewrite Hold in Hc. destruct (Z.eqb_spec q p); [done|lia].
  - intros Hsh Hcase. destruct (Hfresh Hsh Hcase) as [F0 F1]. rewrite Hcnt, Z.eqb_refl. rewrite Hold in F0. unfold outside_count in *. lia.
Qed.

(** New flags for a resident page. *)
Lemma reflag_ok : resident (areas vs) v = Some p -> (forall q, outside_count w' q = outside_count w q) ->
  (shared_page i = false -> (acc_w (pg_perm i) = true /\ pg_cow i = false) \/ acc_w f = true -> strong_count w p = 1) -> world_ok w'.
Proof.
  intros Hn Ho Hp. destruct Hps as [Hs Hsp Hok' Hi Hfr Hoth He Hes Hgr Hse Hat]. pose proof (vo_areas _ (sk_vm _ _ (Hw s vs Hs))) as Hok.
  assert (Hcnt : forall q, strong_count w' q = strong_count w q).
  { intros q. assert (Hs' : vw_spaces w' !! s = Some vs') by (rewrite Hsp; apply lookup_insert_eq).
    rewrite (space_count w' s vs' q Hs' Hok'), (space_count w s vs q Hs Hok), ps_rmap, insert_id by (by rewrite rmap_lookup).
    unfold others. rewrite Hsp, delete_insert_eq. specialize (Ho q). unfold outside_count in Ho. lia. }
  apply page_step_ok.
  - left. by rewrite Hcnt.
  - intros u q _ _. by rewrite Hcnt.
  - intros Hsh Hcase. rewrite Hcnt. auto.
Qed.

(** A resident page gets a frame of its own. *)
Lemma reframe_ok old : resident (areas vs) v = Some old -> (forall q, outside_count w' q = outside_count w q) -> strong_count w p = 0 -> world_ok w'.
Proof.
  intros Hn Ho Hp. destruct Hps as [Hs Hsp Hok' Hi Hfr Hoth He Hes Hgr Hse Hat]. pose proof (vo_areas _ (sk_vm _ _ (Hw s vs Hs))) as Hok.
  assert (Hcnt : forall q, strong_count w' q + (if q =? old then 1 else 0) = strong_count w q + (if q =? p then 1 else 0)).
  { intros q. assert (Hs' : vw_spaces w' !! s = Some vs') by (rewrite Hsp; apply lookup_insert_eq).
    rewrite (space_count w' s vs' q Hs' Hok'), (space_count w s vs q Hs Hok), ps_rmap.
    rewrite <- insert_delete_eq, mcount_insert by apply lookup_delete_eq.
    rewrite (mcount_delete (rmap (areas vs)) v old q) by (by rewrite rmap_lookup).
    unfold others. rewrite Hsp, delete_insert_eq. specialize (Ho q). unfold outside_count in Ho. lia. }
  assert (Hpo : p <> old). { intros ->. pose proof (resident_count w s vs v old Hs Hok Hn). pose proof (others_nonneg w s old). lia. }
  apply page_step_ok.
  - intros q. specialize (Hcnt q). destruct (Z.eqb_spec q p); [subst q; by right; left|left]. destruct (q =? old); lia.
  - intros u q Hu Hq Hc. specialize (Hcnt q). destruct (Z.eqb_spec q old); [subst q|].
    + exfalso. destruct (sole_unique w s vs v old Hs Hok Hn Hc) as [_ Hun]. by rewrite (Hun u Hq) in Hu.
    + destruct (Z.eqb_spec q p); [subst q|lia]. pose proof (resident_count w s vs u p Hs Hok Hq). pose proof (others_nonneg w s p). lia.
  - intros _ _. specialize (Hcnt p). rewrite Z.eqb_refl in Hcnt. destruct (Z.eqb_spec p old); [done|lia].
Qed.
End PageStep.

(** ** One area of the vector *)

Lemma set_area_ok l idx a a' : areas_ok l -> l !! idx = Some a -> area_ok a' -> start_vpn a' = start_vpn a -> end_vpn a' = end_vpn a ->
  areas_ok (<[idx := a']> l) /\ forall u, view (<[idx := a']> l) u = if in_area a u then Some (page_info a' u) else view l u.
Proof.
  intros Hok Ha Ha' Es Ee. rewrite (insert_take_drop _ _ _ (lookup_lt_Some _ _ _ Ha)).
  pose proof (take_drop_middle l idx a Ha) as El. rewrite <- El in Hok.
  pose proof (replace_ok _ _ _ [a'] Hok (areas_ok_one a' Ha')) as Hr. split; [apply Hr; constructor; [lia|done]|].
  intros u. rewrite <- El at 3. rewrite !view_app, !view_cons. unfold in_area at 1. rewrite Es, Ee. fold (in_area a u).
  destruct (in_area a u) eqn:Eu; [|done]. destruct (view_split_None _ _ _ _ Hok Eu) as [-> _]. done.
Qed.

Lemma set_area_attr l idx a a' : l !! idx = Some a -> attr a' = attr a -> Forall (fun a => attr_ok (attr a)) l -> Forall (fun a => attr_ok (attr a)) (<[idx := a']> l).
Proof. intros Ha Hat Hl. apply Forall_insert; [done|]. rewrite Hat. rewrite Forall_lookup in Hl. by apply (Hl idx). Qed.

(** The area with one more page, whatever becomes of its lazy flag. *)
Definition with_page (v p : Z) a a' : Prop :=
  attr a' = attr a /\ start_vpn a' = start_vpn a /\ end_vpn a' = end_vpn a /\ (forall u, page_meta a' u = page_meta a u) /\ data_frames a' = <[v := p]> (data_frames a) /\
  (area_ok a -> in_area a v = true -> area_ok a').

Lemma with_page_frames v p a : with_page v p a (set_frames (<[v := p]> (data_frames a)) a).
Proof.
  split_and!; try done. intros [? ? ? Hf ?] Hv. split; try done. intros u q. cbn. destruct (decide (u = v)) as [-> |].
  - by intros _.
  - rewrite lookup_insert_ne by done. apply Hf.
Qed.

Lemma with_page_lazy (z : bool) v p a a' : with_page v p a a' -> with_page v p a (set_lazy z a').
Proof. intros (H1 & H2 & H3 & H4 & H5 & H6). split_and!; try done. intros Ha Hv. destruct (H6 Ha Hv) as [? ? ? ? ?]. by split. Qed.

Lemma with_page_add v p a : with_page v p a (add_frame v p a).
Proof. unfold add_frame. case_if; [apply with_page_lazy|]; apply with_page_frames. Qed.

Lemma with_page_full v p a a' : with_page v p a a' -> with_page v p a (clear_lazy_if_full a').
Proof. intros H. unfold clear_lazy_if_full. case_if; [by apply with_page_lazy|done]. Qed.

(** The world after a handler. *)
Definition put_st w (s : Z) (st : FaultSt) : VmWorld := mkVW (<[s := fs_vs st]> (vw_spaces w)) (fs_backings st) (vw_held w) (fs_mem st).
Definition get_st w vs : FaultSt := mkFS vs (vw_backings w) (vw_mem w).

(** The page step of a handler that gives a page to an area. *)
Lemma with_page_step w s vs st' idx a a' v p f : world_ok w -> vw_spaces w !! s = Some vs -> areas vs !! idx = Some a -> in_area a v = true ->
  with_page v p a a' -> areas (fs_vs st') = <[idx := a']> (areas vs) ->
  page_table (fs_vs st') !! v = Some (mkPTE p f) -> (forall u, u <> v -> page_table (fs_vs st') !! u = page_table vs !! u) ->
  grants (page_info a' v) f -> serves (page_info a' v) f ->
  page_step w (put_st w s st') s vs (fs_vs st') v p f (page_info a' v).
Proof.
  intros Hw Hs Ha Hv (W1 & W2 & W3 & W4 & W5 & W6) El Hpt Hpts Hg Hsv. pose proof (Hw s vs Hs) as [Hvm Hat _ _]. pose proof (vo_areas _ Hvm) as Hok.
  pose proof (areas_ok_in _ a Hok (list_elem_of_lookup_2 _ _ _ Ha)) as Haok.
  destruct (set_area_ok (areas vs) idx a a' Hok Ha (W6 Haok Hv) W2 W3) as [Hok' Hview]. split; try done.
  - by rewrite El.
  - rewrite El, Hview, Hv. done.
  - cbn. by rewrite W5, lookup_insert_eq.
  - intros u Hu. rewrite El, Hview. destruct (in_area a u) eqn:Eu; [|done]. unfold view.
    rewrite (area_at_unique (areas vs) a u Hok (list_elem_of_lookup_2 _ _ _ Ha) Eu). cbn. rewrite !page_info_meta, W4, W5, lookup_insert_ne by done. done.
  - rewrite El. by apply (set_area_attr _ _ a).
Qed.

Definition env_ok w (env : FaultEnv) : Prop :=
  (forall p, fe_fresh env = Some p -> strong_count w p = 0) /\
  (forall f i p, fe_cache env f i = Some p -> p ∈ vw_held w) /\
  (forall f i p, fe_cached env f i = Some p -> p ∈ vw_held w).

Lemma held_outside w p : p ∈ vw_held w -> 0 < outside_count w p.
Proof.
  intros H. apply count_pos in H. unfold outside_count, outside. rewrite count_app.
  pose proof (count_nonneg p (concat (map frames (map_to_list (vw_backings w)).*2))). lia.
Qed.

Lemma fresh_outside w p : strong_count w p = 0 -> outside_count w p = 0.
Proof. intros H. pose proof (outside_le w p). pose proof (count_nonneg p (outside (vw_backings w) (vw_held w))). unfold outside_count. lia. Qed.

(** Flags of a new page. *)
Lemma initial_flags_ok a v : grants (page_info a v) (pte_flags (exec_readable (initial_mapping_flags a))) /\ serves (page_info a v) (pte_flags (exec_readable (initial_mapping_flags a))).
Proof.
  unfold grants, serves, pte_flags, exec_readable, initial_mapping_flags, mapping_flags. cbn [page_info pg_perm].
  destruct (tracks_shared_file_dirty a), (map_perm a) as [[] [] [] []]; cbn; done.
Qed.

Lemma cow_flags_ok a v : acc_w (map_perm a) = true ->
  grants (page_info a v) (pte_flags (exec_readable (cow_mapping_flags (map_perm a)))) /\ serves (page_info a v) (pte_flags (exec_readable (cow_mapping_flags (map_perm a)))).
Proof.
  intros Hwr. unfold grants, serves, pte_flags, exec_readable, cow_mapping_flags, mapping_flags. cbn [page_info pg_perm].
  destruct (map_perm a) as [[] [] [] []]; cbn in *; done.
Qed.

(** ** Shared backings *)

Definition bcount (bk : gmap Z (gmap Z Z)) (q : Z) : Z := count q (concat (map frames (map_to_list bk).*2)).

Lemma bcount_split bk k q : bcount bk q = mcount (bk !!! k) q + bcount (delete k bk) q.
Proof.
  unfold bcount. destruct (bk !! k) as [m|] eqn:E.
  - rewrite (lookup_total_correct _ _ _ E). rewrite <- (insert_delete_id bk k m E) at 1. rewrite map_to_list_insert by apply lookup_delete_eq. cbn.
    by rewrite count_app.
  - assert (bk !!! k = ∅) as -> by (unfold lookup_total, map_lookup_total; by rewrite E). by rewrite mcount_empty, delete_id.
Qed.

Lemma bcount_insert bk k j p q : (bk !!! k : gmap Z Z) !! j = None ->
  bcount (<[k := <[j := p]> (bk !!! k)]> bk) q = (if q =? p then 1 else 0) + bcount bk q.
Proof.
  intros H. rewrite (bcount_split (<[k := _]> bk) k), (bcount_split bk k), lookup_total_insert_eq, delete_insert_eq, mcount_insert by done. lia.
Qed.

Lemma outside_bcount w q : outside_count w q = bcount (vw_backings w) q + count q (vw_held w).
Proof. unfold outside_count, outside. by rewrite count_app. Qed.

Lemma backing_outside w k j p : (vw_backings w !!! k : gmap Z Z) !! j = Some p -> 0 < outside_count w p.
Proof.
  intros H. rewrite outside_bcount, (bcount_split _ k). assert (0 < mcount (vw_backings w !!! k) p) by (apply mcount_pos; eauto).
  pose proof (count_nonneg p (concat (map frames (map_to_list (delete k (vw_backings w))).*2))). pose proof (count_nonneg p (vw_held w)).
  unfold bcount at 1. lia.
Qed.

(** ** Where a new page comes from *)

Inductive page_source (env : FaultEnv) a (st st' : FaultSt) (p : Z) (nc : bool) : Prop :=
| from_allocator : fe_fresh env = Some p -> fs_backings st' = fs_backings st -> nc = false -> page_source env a st st' p nc
| from_cache f j : area_type a = Mmap \/ area_type a = Shm -> map_file a = Some f -> fe_cache env f j = Some p -> fs_backings st' = fs_backings st ->
    nc = bool_decide (mmap_flags a = MapPrivate) && cow_flag a -> page_source env a st st' p nc
| from_backing k j : shared_anonymous a = Some k -> (fs_backings st !!! k : gmap Z Z) !! j = Some p -> fs_backings st' = fs_backings st -> nc = false ->
    page_source env a st st' p nc
| from_new_backing k j : shared_anonymous a = Some k -> fe_fresh env = Some p -> (fs_backings st !!! k : gmap Z Z) !! j = None ->
    fs_backings st' = <[k := <[j := p]> (fs_backings st !!! k)]> (fs_backings st) -> nc = false -> page_source env a st st' p nc.

Lemma zeroed_page_source env a st p nc pc st' : zeroed_page env st = inr (p, nc, pc, st') ->
  fs_vs st' = fs_vs st /\ page_source env a st st' p (nc && negb pc).
Proof. unfold zeroed_page. destruct (fe_fresh env) eqn:E; [|done]. intros [= <- <- <- <-]. split; [done|]. by apply from_allocator. Qed.

Lemma mapping_page_source env a vpn access st p nc pc st' : area_type a = Mmap \/ area_type a = Shm -> mapping_page env a vpn access st = inr (p, nc, pc, st') ->
  fs_vs st' = fs_vs st /\ page_source env a st st' p (nc && negb pc).
Proof.
  intros Ht. unfold mapping_page. destruct (map_file a) as [f|] eqn:Ef; cbn zeta.
  - case_if; [done|]. destruct (fe_cache env f _) as [q|] eqn:Ec; [|done]. case_if.
    + destruct (fe_fresh env) eqn:Efr; [|done]. intros [= <- <- <- <-]. split; [done|]. by apply from_allocator.
    + intros [= <- <- <- <-]. split; [done|]. rewrite andb_true_r. by eapply from_cache.
  - destruct (shared_anonymous a) as [k|] eqn:Ek; [|apply zeroed_page_source]. unfold allocate_shared_anonymous_frame.
    destruct (_ !! _) as [q|] eqn:Eq; [intros [= <- <- <- <-]; split; [done|]; by eapply from_backing|].
    destruct (fe_fresh env) as [q|] eqn:Efr; [|done]. cbn. intros [= <- <- <- <-]. split; [done|]. by eapply from_new_backing.
Qed.

Lemma new_page_source env a vpn access st p nc pc st' : new_page env a vpn access st = inr (p, nc, pc, st') ->
  fs_vs st' = fs_vs st /\ page_source env a st st' p (nc && negb pc).
Proof.
  unfold new_page. destruct (area_type a) eqn:Et; try apply zeroed_page_source; apply mapping_page_source; [by left|by right].
Qed.

(** A page from one of these sources keeps the invariant. *)
Lemma source_ok env w s vs st st' idx a a' v p nc : world_ok w -> vw_spaces w !! s = Some vs -> env_ok w env ->
  areas vs !! idx = Some a -> in_area a v = true -> resident (areas vs) v = None -> with_page v p a a' ->
  page_source env a st st' p nc -> fs_backings st = vw_backings w ->
  forall st1, fs_backings st1 = fs_backings st' -> areas (fs_vs st1) = <[idx := a']> (areas vs) ->
  (forall u, page_table (fs_vs st1) !! u = if bool_decide (u = v) then Some (mkPTE p (pte_flags (exec_readable (if nc then cow_mapping_flags (map_perm a') else initial_mapping_flags a')))) else page_table vs !! u) ->
  world_ok (put_st w s st1).
Proof.
  intros Hw Hs (He1 & He2 & He3) Ha Hv Hn Hwp Hsrc Hbk st1 Hb1 Hl1 Hpt. pose proof (Hw s vs Hs) as [_ Hat _ _].
  rewrite Forall_lookup in Hat. pose proof (Hat idx a Ha) as Hatt. pose proof Hwp as (W1 & _).
  assert (Hperm : map_perm a' = map_perm a) by (change (at_perm (attr a') = at_perm (attr a)); by rewrite W1).
  assert (Hcow : cow_flag a' = cow_flag a) by (change (at_cow (attr a') = at_cow (attr a)); by rewrite W1).
  assert (Hsh : shared_area a' = negb (private_attr (attr a))) by (rewrite <- W1, private_attr_area; by destruct (shared_area a')).
  set (f := pte_flags _) in Hpt.
  assert (Hw_f : acc_w f = true -> acc_w (map_perm a) = true /\ nc = false).
  { subst f. rewrite Hperm. destruct nc; [done|]. unfold initial_mapping_flags. rewrite Hperm. cbn. destruct (tracks_shared_file_dirty a'); done. }
  assert (Hncw : nc = true -> acc_w (map_perm a) = true).
  { intros ->. destruct Hsrc as [| f1 j _ _ _ _ E| |]; try done. symmetry in E. apply andb_true_iff in E as [_ E]. by apply (ak_cow _ Hatt E). }
  assert (Hgs : grants (page_info a' v) f /\ serves (page_info a' v) f).
  { subst f. destruct nc; [apply cow_flags_ok; rewrite Hperm; auto|apply initial_flags_ok]. }
  assert (Hps : page_step w (put_st w s st1) s vs (fs_vs st1) v p f (page_info a' v)).
  { apply (with_page_step w s vs st1 idx a a'); try done; [rewrite Hpt; by rewrite bool_decide_eq_true_2| |apply Hgs..].
    intros u Hu. rewrite Hpt. by rewrite bool_decide_eq_false_2. }
  assert (Hob : forall q, outside_count (put_st w s st1) q = bcount (fs_backings st') q + count q (vw_held w)) by (intros q; rewrite outside_bcount; cbn; by rewrite Hb1).
  assert (Hsame : fs_backings st' = fs_backings st -> forall q, outside_count (put_st w s st1) q = outside_count w q).
  { intros E q. by rewrite Hob, E, Hbk, outside_bcount. }
  apply (install_ok w _ s vs (fs_vs st1) v p f (page_info a' v) Hw Hps Hn); rewrite ?shared_page_area, ?Hsh.
  - intros q Hq. destruct Hsrc as [_ E _|? ? _ _ _ E _|? ? _ _ E _|k j _ _ Ej E _]; try by apply Hsame.
    rewrite Hob, E, bcount_insert, Hbk, outside_bcount by done. destruct (Z.eqb_spec q p); [done|lia].
  - destruct Hsrc as [_ E _|? ? _ _ _ E _|? ? _ _ E _|k j _ _ Ej E _]; try (rewrite Hsame by done; lia).
    rewrite Hob, E, bcount_insert, Hbk, outside_bcount by done. destruct (p =? p); lia.
  - destruct Hsrc as [Hf _ _|? ? _ _ Hc _ _|k j _ Hj _ _|k j _ Hf _ _ _]; [left; by apply He1|right; by apply held_outside, (He2 _ _ _ Hc)| |left; by apply He1].
    right. rewrite Hbk in Hj. by apply (backing_outside w k j).
  - intros Hpriv Hcase. apply negb_false_iff in Hpriv. cbn [page_info pg_perm pg_cow] in Hcase. rewrite Hperm, Hcow in Hcase.
    destruct Hsrc as [Hf E _|f1 j Ht Hm Hc E Enc|k j Hk Hj _ _|k j Hk Hf _ _ _].
    + rewrite Hsame by done. split; [by apply He1|]. by apply fresh_outside, He1.
    + exfalso. assert (Hfile : at_file (attr a) = true) by (cbn; rewrite Hm; done).
      assert (Hwc : acc_w (map_perm a) = true -> cow_flag a = true) by (intros; by apply (ak_file _ Hatt)).
      destruct Hcase as [[H1 H2]|H1]; [rewrite Hwc in H2; done|]. destruct (Hw_f H1) as [H2 H3]. rewrite H3, Hwc, andb_true_r in Enc by done.
      symmetry in Enc. apply bool_decide_eq_false in Enc. rewrite private_attr_area in Hpriv. apply negb_true_iff, orb_false_iff in Hpriv as [P1 P2].
      apply bool_decide_eq_false in P1. destruct Ht as [Ht|Ht]; [|done]. rewrite Ht in P2. cbn in P2. apply bool_decide_eq_false in P2.
      by destruct (mmap_flags a).
    + exfalso. destruct (ak_anon _ Hatt) as [Hx _]; [cbn; rewrite Hk; done|]. congruence.
    + exfalso. destruct (ak_anon _ Hatt) as [Hx _]; [cbn; rewrite Hk; done|]. congruence.
Qed.

(** ** The handlers *)

Lemma put_get_ok w s vs : world_ok w -> vw_spaces w !! s = Some vs -> world_ok (put_st w s (get_st w vs)).
Proof. intros. by apply (put_same w s vs). Qed.

(** New flags for a resident page of an unchanged vector of areas. *)
Lemma reflag_world_ok w s vs a v p f st1 : world_ok w -> vw_spaces w !! s = Some vs -> area_at (areas vs) v = Some a -> data_frames a !! v = Some p ->
  grants (page_info a v) f -> serves (page_info a v) f ->
  (shared_area a = false -> acc_w f = true -> strong_count w p = 1) ->
  areas (fs_vs st1) = areas vs -> fs_backings st1 = vw_backings w ->
  page_table (fs_vs st1) !! v = Some (mkPTE p f) -> (forall u, u <> v -> page_table (fs_vs st1) !! u = page_table vs !! u) -> world_ok (put_st w s st1).
Proof.
  intros Hw Hs Ha Hp Hg Hsv Hc El Eb Hpt Hpts. pose proof (Hw s vs Hs) as [Hvm Hat Hso _].
  assert (Hv : view (areas vs) v = Some (page_info a v)) by (unfold view; by rewrite Ha).
  assert (Hps : page_step w (put_st w s st1) s vs (fs_vs st1) v p f (page_info a v)).
  { split; rewrite ?El; try done. apply (vo_areas _ Hvm). }
  eapply reflag_ok; [done|exact Hps| | |].
  - by rewrite resident_view, Hv.
  - intros q. rewrite !outside_bcount. cbn. by rewrite Eb.
  - intros Hsh [[H1 H2]|H1]; [|by apply Hc]. by apply (proj1 (Hso v _ p Hv Hp Hsh)).
Qed.

Lemma full_flags_ok a v : grants (page_info a v) (pte_flags (mapping_flags (map_perm a))) /\ serves (page_info a v) (pte_flags (mapping_flags (map_perm a))).
Proof.
  unfold grants, serves, pte_flags, mapping_flags. cbn [page_info pg_perm]. destruct (map_perm a) as [[] [] [] []]; cbn; done.
Qed.

(** A resident page that is not copy-on-write may get the flags of its area. *)
Lemma full_flags_world_ok w s vs a v p st1 : world_ok w -> vw_spaces w !! s = Some vs -> area_at (areas vs) v = Some a -> data_frames a !! v = Some p ->
  (shared_area a = false -> acc_w (map_perm a) = true -> cow_flag a = false \/ strong_count w p = 1) ->
  areas (fs_vs st1) = areas vs -> fs_backings st1 = vw_backings w ->
  page_table (fs_vs st1) !! v = Some (mkPTE p (pte_flags (mapping_flags (map_perm a)))) -> (forall u, u <> v -> page_table (fs_vs st1) !! u = page_table vs !! u) ->
  world_ok (put_st w s st1).
Proof.
  intros Hw Hs Ha Hp Hc El Eb Hpt Hpts. pose proof (Hw s vs Hs) as [Hvm Hat Hso _].
  apply (reflag_world_ok w s vs a v p (pte_flags (mapping_flags (map_perm a)))); try done; [apply full_flags_ok..|].
  intros Hsh Hwr. destruct (Hc Hsh) as [Hc'|Hc']; [exact Hwr| |done].
  assert (Hv : view (areas vs) v = Some (page_info a v)) by (unfold view; by rewrite Ha).
  by apply (proj1 (Hso v _ p Hv Hp Hsh)).
Qed.

Lemma find_index_at l va idx : areas_ok l -> find_area_index l va = Some idx -> exists a, l !! idx = Some a /\ area_at l (floor va) = Some a /\ in_area a (floor va) = true.
Proof.
  intros Hok Hi. apply find_area_index_spec in Hi as (a & Ha & Hin); [|done]. exists a. split_and!; [done| |done].
  apply area_at_unique; [done|by eapply list_elem_of_lookup_2|done].
Qed.

Lemma set_flags_lookup (pt : PageTable) v f u : set_pte_flags pt v f !! u = if bool_decide (u = v) then option_map (fun e => mkPTE (pte_ppn e) f) (pt !! u) else pt !! u.
Proof. unfold set_pte_flags. case_bool_decide as E; [subst u; by rewrite lookup_alter_eq|by rewrite lookup_alter_ne]. Qed.

Lemma unalloc_world_ok env w s vs va access st' r : world_ok w -> vw_spaces w !! s = Some vs -> env_ok w env ->
  (forall a, area_at (areas vs) (floor va) = Some a -> is_Some (data_frames a !! floor va) -> cow_flag a = false) ->
  handle_unalloc_page_fault env va access (get_st w vs) = (st', r) -> world_ok (put_st w s st').
Proof.
  intros Hw Hs He Hcow. pose proof (Hw s vs Hs) as [Hvm _ _ _]. pose proof (vo_areas _ Hvm) as Hok. set (v := floor va) in *.
  unfold handle_unalloc_page_fault. fold v. change (st_areas (get_st w vs)) with (areas vs). change (st_pt (get_st w vs)) with (page_table vs).
  destruct (find_area_index (areas vs) va) as [idx|] eqn:Ei; [|intros H; injection H as <- _; by apply put_get_ok].
  destruct (find_index_at _ _ _ Hok Ei) as (a & Ha & Hat & Hin). fold v in Hat, Hin. rewrite Ha.
  assert (Hres : resident (areas vs) v = data_frames a !! v) by (unfold resident; by rewrite Hat).
  assert (Hrestr : forall pt', (pt' = page_table vs \/ pt' = delete v (page_table vs)) -> data_frames a !! v = None -> world_ok (put_st w s (mkFS (mkVM pt' (areas vs)) (vw_backings w) (vw_mem w)))).
  { intros pt' Hpt Hn. apply (restrict_world_ok w s vs); try done. intros u. cbn [areas page_table fs_vs].
    destruct (decide (u = v)) as [-> |Hne]; [|left; split; [done|]; destruct Hpt as [-> | ->]; [done|by rewrite lookup_delete_ne]].
    right. split; [congruence|]. destruct Hpt as [-> | ->]; [|unfold translate; by rewrite lookup_delete_eq].
    destruct (translate (page_table vs) v) eqn:Et; [|done]. apply (vo_mapped _ Hvm) in Et. congruence. }
  destruct (data_frames a !! v) as [p|] eqn:Ep.
  - destruct (vo_resident _ Hvm v p Hres) as [f Hf]. rewrite Hf. cbn [pte_acc]. intros H; injection H as <- _. case_bool_decide as Eq; [by apply put_get_ok|].
    apply (full_flags_world_ok w s vs a v p); try done.
    + intros _ _. left. by apply Hcow.
    + cbn. rewrite set_flags_lookup, bool_decide_eq_true_2 by done. by rewrite Hf.
    + intros u Hu. cbn. rewrite set_flags_lookup. by rewrite bool_decide_eq_false_2.
  - assert (Hgo : forall pt0, (pt0 = page_table vs \/ pt0 = delete v (page_table vs)) -> let st0 := mkFS (mkVM pt0 (areas vs)) (vw_backings w) (vw_mem w) in
      match new_page env a v access st0 with
      | inl err => (st0, Some err)
      | inr (p, needs_cow, private_copy, st) =>
          let a' := add_frame v p a in
          (map_fault_page v p (needs_cow && negb private_copy) a' (put_areas (<[idx := a']> (st_areas st)) st), Some Normal)
      end = (st', r) -> world_ok (put_st w s st')).
    { intros pt0 Hpt0 st0. destruct (new_page env a v access st0) as [err|[[[p nc] pc] st1]] eqn:En; [intros H; injection H as <- _; by apply Hrestr|].
      intros H; injection H as <- _. apply new_page_source in En as [Evs Hsrc].
      eapply (source_ok env w s vs st0 st1 idx a (add_frame v p a) v p (nc && negb pc)); try done; [apply with_page_add| |].
      - unfold st_areas. by rewrite Evs.
      - intros u. unfold map_fault_page, st_pt. cbn. rewrite Evs. unfold map_page. cbn. case_bool_decide as Eu; [subst u; by rewrite lookup_insert_eq|].
        rewrite lookup_insert_ne by done. destruct Hpt0 as [-> | ->]; [done|by rewrite lookup_delete_ne]. }
    assert (Eg : get_st w vs = mkFS (mkVM (page_table vs) (areas vs)) (vw_backings w) (vw_mem w)) by (by destruct vs).
    destruct (page_table vs !! v); [apply (Hgo (delete v (page_table vs))); by right|rewrite Eg; apply (Hgo (page_table vs)); by left].
Qed.

Lemma set_perm_id a : acc_w (map_perm a) = true -> set_perm (mkAcc (acc_r (map_perm a)) true (acc_x (map_perm a)) (acc_u (map_perm a))) a = a.
Proof. destruct a; cbn. destruct map_perm; cbn. by intros ->. Qed.

Lemma cow_world_ok env w s vs va st' r : world_ok w -> vw_spaces w !! s = Some vs -> env_ok w env ->
  (forall a, area_at (areas vs) (floor va) = Some a -> cow_flag a = true) ->
  handle_cow_page_fault env (strong_count w) va (get_st w vs) = (st', r) -> world_ok (put_st w s st').
Proof.
  intros Hw Hs He Hcow. pose proof (Hw s vs Hs) as [Hvm Hatt _ _]. pose proof (vo_areas _ Hvm) as Hok. set (v := floor va) in *.
  assert (Hsame : forall r0, (get_st w vs, r0) = (st', r) -> world_ok (put_st w s st')) by (intros r0 H; injection H as <- _; by apply put_get_ok).
  unfold handle_cow_page_fault. fold v. change (st_areas (get_st w vs)) with (areas vs). change (st_pt (get_st w vs)) with (page_table vs).
  destruct (translate (page_table vs) v) as [e|] eqn:Et; [|apply Hsame]. destruct (acc_w (pte_acc e)) eqn:Ew; [apply Hsame|].
  destruct (find_area_index (areas vs) va) as [idx|] eqn:Ei; [|apply Hsame].
  destruct (find_index_at _ _ _ Hok Ei) as (a & Ha & Hat & Hin). fold v in Hat, Hin. rewrite Ha.
  destruct (data_frames a !! v) as [old|] eqn:Eo; [|apply Hsame]. pose proof (Hcow a Hat) as Hc.
  assert (Hwr : acc_w (map_perm a) = true) by (rewrite Forall_lookup in Hatt; by apply (ak_cow _ (Hatt idx a Ha))).
  assert (Hres : resident (areas vs) v = Some old) by (unfold resident; by rewrite Hat).
  destruct (vo_resident _ Hvm v old Hres) as [f Hf]. cbv zeta. destruct (Z.eqb_spec (strong_count w old) 1) as [E1|E1].
  - rewrite set_perm_id by done. intros H; injection H as <- _.
    apply (full_flags_world_ok w s vs a v old); try done; cbn -[alter].
    + by right.
    + by apply list_insert_id.
    + by rewrite lookup_alter_eq, Hf.
    + intros u Hu. by rewrite lookup_alter_ne.
  - destruct (fe_fresh env) as [p|] eqn:Ef; [|apply Hsame]. set (a' := set_frames _ a). rewrite (set_perm_id a') by done. intros H; injection H as <- _.
    eapply reframe_ok; [done| |done|done|by apply He].
    eapply (with_page_step w s vs _ idx a a' v p); try done; [apply with_page_frames|..]; cbn -[alter].
    + by rewrite lookup_alter_eq, Hf.
    + intros u Hu. by rewrite lookup_alter_ne.
    + apply (full_flags_ok a').
    + apply (full_flags_ok a').
Qed.

Lemma tracks_shared a : tracks_shared_file_dirty a = true -> shared_area a = true.
Proof. unfold tracks_shared_file_dirty, shared_area. destruct (area_type a), (mmap_flags a); try done; cbn; by rewrite ?andb_false_r, ?andb_false_l. Qed.

Lemma shared_write_world_ok env w s vs va st' r : world_ok w -> vw_spaces w !! s = Some vs ->
  handle_shared_file_write_fault_current env va (get_st w vs) = Some (st', r) -> world_ok (put_st w s st').
Proof.
  intros Hw Hs. pose proof (Hw s vs Hs) as [Hvm _ _ _]. pose proof (vo_areas _ Hvm) as Hok. set (v := floor va) in *.
  unfold handle_shared_file_write_fault_current. fold v. change (st_areas (get_st w vs)) with (areas vs). change (st_pt (get_st w vs)) with (page_table vs).
  destruct (translate (page_table vs) v) as [e|] eqn:Et; [|done]. rewrite find_area_at by done. fold v. cbn [mbind option_bind].
  destruct (area_at (areas vs) v) as [a|] eqn:Ea; [|done]. cbn [mbind option_bind]. destruct (data_frames a !! v) as [p|] eqn:Ep; [|done]. cbn [mbind option_bind].
  destruct (tracks_shared_file_dirty a) eqn:Etr; [|done]. cbn [negb].
  destruct (acc_w (pte_acc e)); [intros [= <- _]; by apply put_get_ok|]. destruct (map_file a) as [f|]; [|done]. cbn [mbind option_bind].
  destruct (checked_add _ _) as [off|]; [|done]. cbn [mbind option_bind]. destruct (fe_mark env f _); [|intros [= <- _]; by apply put_get_ok].
  cbn [negb]. destruct (pte_ppn e =? p); [|done]. intros [= <- _]. apply tracks_shared in Etr.
  apply (full_flags_world_ok w s vs a v p); try done; cbn.
  - congruence.
  - by rewrite lookup_insert_eq.
  - intros u Hu. by rewrite lookup_insert_ne.
Qed.
