(* ===== verification/VmFileFault.v ===== *)
(** * Virtual memory: page faults of file mappings keep the invariant

    The page that the fault asked for and the run of cached pages after it are
    installed one by one; each one keeps the invariant. *)

From Stdlib Require Import Sorted.
From stdpp Require Import gmap functions.
From S2P Require Import Prelude SysErr FrameAlloc Vm VmSpec VmSys VmMap VmProt VmProtSpec VmFault VmWorld VmCow VmFaultSpec.

Implicit Types a b : UserMapArea.
Implicit Types l : list UserMapArea.
Implicit Types vs : UserVMSet.
Implicit Types w : VmWorld.

Lemma put_space_twice w s vs1 m1 vs2 m2 : put_space (put_space w s vs1 m1) s vs2 m2 = put_space w s vs2 m2.
Proof. unfold put_space. cbn. by rewrite insert_insert_eq. Qed.

Lemma with_page_resident v p a : data_frames a !! v = Some p -> with_page v p a a.
Proof. intros H. split_and!; try done. by rewrite insert_id. Qed.

(** The conditions under which a page of a file mapping may get a frame and flags. *)
Record file_page w a (v p : Z) (fl : Access) : Prop := {
  fp_source : data_frames a !! v = None -> strong_count w p = 0 \/ p ∈ vw_held w;
  fp_write : shared_area a = false -> acc_w fl = true -> match data_frames a !! v with Some _ => cow_flag a = false | None => strong_count w p = 0 end }.

Section Page.
Context (w : VmWorld) (s : Z) (vs : UserVMSet) (idx : nat) (a a' : UserMapArea) (v p : Z) (fl : Access) (mem : Z -> bytes).
Context (Hw : world_ok w) (Hs : vw_spaces w !! s = Some vs) (Ha : areas vs !! idx = Some a) (Hin : in_area a v = true).
Context (Hfile : at_file (attr a) = true) (Hfp : file_page w a v p fl).

Let q := default p (data_frames a !! v).

Context (Hwp : with_page v q a a') (Hg : grants (page_info a' v) fl) (Hsv : serves (page_info a' v) fl).

Let vs' := mkVM (<[v := mkPTE q fl]> (page_table vs)) (<[idx := a']> (areas vs)).

Lemma give_page_step : page_step w (put_space w s vs' mem) s vs vs' v q fl (page_info a' v).
Proof.
  apply (with_page_step w s vs (mkFS vs' (vw_backings w) mem) idx a a' v q fl); try done; cbn.
  - by rewrite lookup_insert_eq.
  - intros u Hu. by rewrite lookup_insert_ne.
Qed.

Lemma give_page_ok : world_ok (put_space w s vs' mem).
Proof.
  pose proof (Hw s vs Hs) as [Hvm Hat Hso _]. pose proof (vo_areas _ Hvm) as Hok. rewrite Forall_lookup in Hat. pose proof (Hat idx a Ha) as Hak.
  pose proof give_page_step as Hps. pose proof Hwp as (W1 & _).
  assert (Hat' : area_at (areas vs) v = Some a) by (apply area_at_unique; [done|by eapply list_elem_of_lookup_2|done]).
  assert (Hperm : map_perm a' = map_perm a) by (change (at_perm (attr a') = at_perm (attr a)); by rewrite W1).
  assert (Hcow : cow_flag a' = cow_flag a) by (change (at_cow (attr a') = at_cow (attr a)); by rewrite W1).
  assert (Hsh : shared_area a' = shared_area a) by (rewrite <- (negb_involutive (shared_area a')), <- private_attr_area, W1, private_attr_area, negb_involutive; done).
  assert (Hfw : acc_w fl = true -> acc_w (map_perm a) = true) by (intros H; apply Hg in H; cbn in H; congruence).
  destruct Hfp as [Fs Fw]. destruct (data_frames a !! v) as [q0|] eqn:Eq; cbn in *; subst q.
  - assert (Hr : resident (areas vs) v = Some q0) by (unfold resident; by rewrite Hat').
    apply (reflag_ok w _ s vs _ v _ fl _ Hw Hps Hr); [done|]. rewrite shared_page_area, Hsh. cbn. rewrite Hperm, Hcow. intros S Hcase.
    assert (acc_w (map_perm a) = true /\ cow_flag a = false) as [H1 H2] by (destruct Hcase; auto).
    assert (Hv : view (areas vs) v = Some (page_info a v)) by (unfold view; by rewrite Hat'). by apply (proj1 (Hso v _ q0 Hv Eq S)).
  - apply (install_ok w _ s vs _ v _ fl _ Hw Hps); try done.
    + unfold resident. by rewrite Hat'.
    + destruct (Fs eq_refl); [by left|right]. by apply held_outside.
    + rewrite shared_page_area, Hsh. cbn. rewrite Hperm, Hcow. intros S [[H1 H2]|H1].
      * exfalso. pose proof (ak_file _ Hak) as H3. cbn in H3. rewrite H3 in H2; [done|by rewrite private_attr_area, S|done|done].
      * split; [by apply Fw|]. change (outside_count w p = 0). apply fresh_outside. by apply Fw.
Qed.
End Page.

(** The flags of a page that is not the demanded one. *)
Definition around_flags a : Access := pte_flags (exec_readable (if cow_flag a then cow_mapping_flags (map_perm a) else initial_mapping_flags a)).

Lemma around_flags_ok a v : (cow_flag a = true -> acc_w (map_perm a) = true) -> grants (page_info a v) (around_flags a) /\ serves (page_info a v) (around_flags a).
Proof. intros H. unfold around_flags. destruct (cow_flag a); [by apply cow_flags_ok, H|apply initial_flags_ok]. Qed.

Lemma around_flags_write a : acc_w (around_flags a) = true -> acc_w (map_perm a) = true /\ cow_flag a = false.
Proof. unfold around_flags. destruct (cow_flag a); [done|]. unfold initial_mapping_flags. cbn. destruct (tracks_shared_file_dirty a); [done|]. by intros. Qed.

Definition map_pages (maps : list (Z * Z * Access)) (pt : PageTable) : PageTable :=
  fold_left (fun pt (m : Z * Z * Access) => let '(v, q, f) := m in map_page pt v q (exec_readable f)) maps pt.

Section Around.
Context (w : VmWorld) (s : Z) (l : list UserMapArea) (pt : PageTable) (idx : nat) (mem : Z -> bytes).

(** The world while the pages are installed. *)
Definition installing a (maps : list (Z * Z * Access)) : VmWorld := put_space w s (mkVM (map_pages maps pt) (<[idx := a]> l)) mem.

Lemma installing_attr a maps : (idx < length l)%nat -> world_ok (installing a maps) -> attr_ok (attr a).
Proof.
  intros Hlt Hw. destruct (Hw s _ (lookup_insert_eq _ _ _)) as [_ Hat _ _]. cbn in Hat. rewrite Forall_lookup in Hat. apply (Hat idx). by apply list_lookup_insert_eq.
Qed.

(** A private writable file page is copy-on-write. *)
Lemma file_around a : attr_ok (attr a) -> at_file (attr a) = true -> shared_area a = false -> acc_w (around_flags a) = true -> False.
Proof.
  intros Hak Hf S H. apply around_flags_write in H as [H1 H2]. pose proof (ak_file _ Hak) as H3. cbn in H3. rewrite H3 in H2; [done| |done|done].
  by rewrite private_attr_area, S.
Qed.

Lemma installing_step a a' maps v p fl : (idx < length l)%nat -> world_ok (installing a maps) -> at_file (attr a) = true -> in_area a v = true ->
  file_page (installing a maps) a v p (pte_flags (exec_readable fl)) -> with_page v (default p (data_frames a !! v)) a a' ->
  grants (page_info a' v) (pte_flags (exec_readable fl)) -> serves (page_info a' v) (pte_flags (exec_readable fl)) ->
  world_ok (installing a' (maps ++ [(v, default p (data_frames a !! v), fl)])).
Proof.
  intros Hlt Hw Hf Hin Hfp Hwp Hg Hsv.
  pose proof (give_page_ok (installing a maps) s _ idx a a' v p (pte_flags (exec_readable fl)) mem Hw (lookup_insert_eq _ _ _)) as H. cbn [areas page_table] in H.
  unfold installing in H. rewrite put_space_twice, list_insert_insert_eq in H. unfold installing, map_pages. rewrite fold_left_app. cbn [fold_left].
  unfold map_page. apply H; try done. by apply list_lookup_insert_eq.
Qed.

Lemma install_around_ok fault a maps c : (idx < length l)%nat -> world_ok (installing a maps) -> at_file (attr a) = true -> c.2 ∈ vw_held w ->
  let '(a', maps') := install_around fault (a, maps) c in
  world_ok (installing a' maps') /\ attr a' = attr a /\ (forall u, in_area a' u = in_area a u).
Proof.
  intros Hlt Hw Hf Hc. destruct c as [v p]. unfold install_around. case_raw E1; [done|]. case_raw E2; [done|]. cbn in Hc.
  assert (Hin : in_area a v = true) by (apply in_area_spec; apply orb_false_iff in E1 as [? ?]; lia).
  pose proof (installing_attr a maps Hlt Hw) as Hak. pose proof (ak_cow _ Hak) as Hcow. cbn in Hcow.
  set (a' := match data_frames a !! v with Some _ => a | None => set_frames (<[v := p]> (data_frames a)) a end).
  assert (Hwp : with_page v (default p (data_frames a !! v)) a a').
  { subst a'. destruct (data_frames a !! v) eqn:E; [by apply with_page_resident|apply with_page_frames]. }
  assert (Ea : around_flags a' = around_flags a) by (subst a'; by destruct (data_frames a !! v)).
  assert (Hcow' : cow_flag a' = true -> acc_w (map_perm a') = true) by (intros H; subst a'; destruct (data_frames a !! v); by apply Hcow).
  assert (Hfp : file_page (installing a maps) a v p (around_flags a')).
  { rewrite Ea. split; [by right|]. intros S H. by destruct (file_around a Hak Hf S H). }
  destruct (around_flags_ok a' v Hcow') as [Hg Hsv]. pose proof (installing_step a a' maps v p _ Hlt Hw Hf Hin Hfp Hwp Hg Hsv) as Hnew.
  clear Hfp Hg Hsv Hcow' Ea. destruct Hwp as (W1 & W2 & W3 & _).
  assert (Hu : forall u, in_area a' u = in_area a u) by (intros u; unfold in_area; by rewrite W2, W3).
  subst a'. destruct (data_frames a !! v); done.
Qed.

Lemma install_arounds_ok fault cs a maps : (idx < length l)%nat -> world_ok (installing a maps) -> at_file (attr a) = true -> Forall (fun c => c.2 ∈ vw_held w) cs ->
  let '(a', maps') := fold_left (install_around fault) cs (a, maps) in world_ok (installing a' maps').
Proof.
  intros Hlt. revert a maps. induction cs as [|c cs IH]; intros a maps Hw Hf Hcs; [done|]. cbn [fold_left]. inversion Hcs as [|? ? Hc Hcs']; subst.
  pose proof (install_around_ok fault a maps c Hlt Hw Hf Hc) as H. destruct (install_around fault (a, maps) c) as [a' maps']. destruct H as (H1 & H2 & _).
  apply IH; [done|by rewrite H2|done].
Qed.

(** The lazy flag does not matter. *)
Lemma installing_lazy a maps : (idx < length l)%nat -> world_ok (installing a maps) -> world_ok (installing (clear_lazy_if_full a) maps).
Proof.
  intros Hlt Hw. unfold clear_lazy_if_full. case_if; [|done]. unfold installing. rewrite <- (list_insert_insert_eq l idx (set_lazy false a) a), <- (put_space_twice w s (mkVM (map_pages maps pt) (<[idx := a]> l)) mem).
  pose proof (Hw s _ (lookup_insert_eq _ _ _)) as [Hvm _ _ _]. pose proof (vo_areas _ Hvm) as Hok. cbn in Hok.
  assert (Hi : <[idx := a]> l !! idx = Some a) by by apply list_lookup_insert_eq.
  pose proof (areas_ok_in _ a Hok (list_elem_of_lookup_2 _ _ _ Hi)) as [? ? ? ? ?].
  destruct (set_area_ok (<[idx := a]> l) idx a (set_lazy false a) Hok Hi) as [Hok' Hview]; [by split|done..|].
  eapply restrict_world_ok; [exact Hw|apply lookup_insert_eq|exact Hok'| |].
  - intros u. left. split; [|done]. cbn [areas]. rewrite Hview. destruct (in_area a u) eqn:Eu; [|done]. unfold view.
    by rewrite (area_at_unique (<[idx := a]> l) a u Hok (list_elem_of_lookup_2 _ _ _ Hi) Eu).
  - apply (set_area_attr _ _ a); done.
Qed.
End Around.

(** The flags of the demanded page. *)
Definition primary_flags (sw pw installed : bool) a : Access :=
  if sw then mapping_flags (map_perm a) else if cow_flag a && negb (pw && installed) then cow_mapping_flags (map_perm a) else initial_mapping_flags a.

Lemma primary_flags_ok sw pw installed a v : (cow_flag a = true -> acc_w (map_perm a) = true) ->
  grants (page_info a v) (pte_flags (exec_readable (primary_flags sw pw installed a))) /\ serves (page_info a v) (pte_flags (exec_readable (primary_flags sw pw installed a))).
Proof.
  intros H. unfold primary_flags. destruct sw.
  - unfold grants, serves, pte_flags, exec_readable, mapping_flags. cbn [page_info pg_perm]. destruct (map_perm a) as [[] [] [] []]; cbn; done.
  - destruct (cow_flag a && negb (pw && installed)) eqn:E; [|apply initial_flags_ok]. apply cow_flags_ok, H. by destruct (cow_flag a).
Qed.

Lemma primary_flags_write sw pw installed a : sw = false -> acc_w (pte_flags (exec_readable (primary_flags sw pw installed a))) = true ->
  acc_w (map_perm a) = true /\ (cow_flag a = false \/ (pw = true /\ installed = true)).
Proof.
  unfold primary_flags. intros ->. destruct (cow_flag a && negb (pw && installed)) eqn:E; [done|]. unfold initial_mapping_flags. cbn.
  destruct (tracks_shared_file_dirty a); [done|]. cbn. intros ->. split; [done|]. destruct (cow_flag a), pw, installed; auto; done.
Qed.

Section InstallFile.
Context (w : VmWorld) (s : Z) (vs : UserVMSet) (fault : FileBackedFault) (p : Z) (pw sw : bool).
Context (Hw : world_ok w) (Hs : vw_spaces w !! s = Some vs).
Context (Hsrc : strong_count w p = 0 \/ p ∈ vw_held w) (Hpw : pw = true -> strong_count w p = 0) (Hsw : sw = true -> ff_flags fault = MapShared).

(** The first page of the installation. *)
Lemma primary_ok idx a mem : areas vs !! idx = Some a -> in_area a (ff_vpn fault) = true -> at_file (attr a) = true ->
  mmap_or_elf (area_type a) = true -> mmap_flags a = ff_flags fault ->
  let '(target, installed, a') := match data_frames a !! ff_vpn fault with
    | Some q => (q, false, a)
    | None => (p, true, clear_lazy_if_full (set_frames (<[ff_vpn fault := p]> (data_frames a)) a)) end in
  world_ok (installing w s (areas vs) (page_table vs) idx mem a' [(ff_vpn fault, target, primary_flags sw pw installed a')]) /\ at_file (attr a') = true.
Proof.
  intros Ha Hin Hf Ht Hfl. set (v := ff_vpn fault) in *. pose proof (lookup_lt_Some _ _ _ Ha) as Hlt.
  assert (Hw0 : world_ok (installing w s (areas vs) (page_table vs) idx mem a [])).
  { unfold installing, map_pages. cbn [fold_left]. rewrite list_insert_id by done. destruct vs. by apply (put_same w s). }
  pose proof (installing_attr _ _ _ _ _ _ _ _ Hlt Hw0) as Hak. pose proof (ak_cow _ Hak) as Hcow. cbn in Hcow.
  set (b := bool_decide (data_frames a !! v = None)).
  set (a' := match data_frames a !! v with Some _ => a | None => clear_lazy_if_full (set_frames (<[v := p]> (data_frames a)) a) end).
  assert (Hwp : with_page v (default p (data_frames a !! v)) a a').
  { subst a'. destruct (data_frames a !! v) eqn:E; [by apply with_page_resident|apply with_page_full, with_page_frames]. }
  assert (Eat : attr a' = attr a) by apply Hwp.
  assert (Hcow' : cow_flag a' = true -> acc_w (map_perm a') = true) by (change (at_cow (attr a') = true -> acc_w (at_perm (attr a')) = true); rewrite Eat; intros; by apply Hcow).
  destruct (primary_flags_ok sw pw b a' v Hcow') as [Hg Hsv].
  assert (Hfp : file_page (installing w s (areas vs) (page_table vs) idx mem a []) a v p (pte_flags (exec_readable (primary_flags sw pw b a')))).
  { assert (Hcnt : forall q, strong_count (installing w s (areas vs) (page_table vs) idx mem a []) q = strong_count w q).
    { intros q. unfold installing, map_pages, strong_count, put_space. cbn [fold_left vw_spaces vw_backings vw_held]. rewrite list_insert_id by done. destruct vs. by rewrite insert_id. }
    split; rewrite Hcnt; [done|]. intros S H. destruct sw eqn:Esw.
    - exfalso. rewrite Hsw in Hfl by done. unfold shared_area in S. rewrite Hfl in S. cbn in S. pose proof (ak_elf _ Hak) as Hel. cbn in Hel.
      destruct (area_type a); try done. by rewrite Hel in Hfl.
    - apply primary_flags_write in H as [H1 H2]; [|done]. change (cow_flag a') with (at_cow (attr a')) in H2. rewrite Eat in H2. cbn in H2. subst b.
      destruct (data_frames a !! v); [destruct H2 as [|[_ ?]]; done|]. destruct H2 as [H2|[H2 _]]; [|by apply Hpw].
      exfalso. change (acc_w (at_perm (attr a')) = true) in H1. rewrite Eat in H1. pose proof (ak_file _ Hak) as H3. cbn in H3.
      rewrite H3 in H2; [done|by rewrite private_attr_area, S|done|done]. }
  pose proof (installing_step _ _ _ _ _ _ a a' [] v p _ Hlt Hw0 Hf Hin Hfp Hwp Hg Hsv) as Hnew. rewrite <- Eat in Hf. cbn [app] in Hnew. subst b.
  clear Hfp Hg Hsv Hcow' Eat Hwp. subst a'. destruct (data_frames a !! v); done.
Qed.

Lemma install_file_ok va around access xr mem st' r : ff_vpn fault = floor va -> Forall (fun c => c.2 ∈ vw_held w) around ->
  install_file_backed_fault_page va fault p around pw sw access xr (mkFS vs (vw_backings w) mem) = (st', r) -> world_ok (put_st w s st').
Proof.
  intros Hv Hc. pose proof (Hw s vs Hs) as [Hvm _ _ _]. pose proof (vo_areas _ Hvm) as Hok.
  assert (Hsame : forall r0, (mkFS vs (vw_backings w) mem, r0) = (st', r) -> world_ok (put_st w s st')) by (intros r0 H; injection H as <- _; by apply (put_same w s vs)).
  unfold install_file_backed_fault_page, st_areas, st_pt. cbn [fs_vs].
  destruct (translate (page_table vs) (ff_vpn fault)); [apply Hsame|]. destruct (find_area_index (areas vs) va) as [idx|] eqn:Ei; [|apply Hsame].
  destruct (find_index_at _ _ _ Hok Ei) as (a & Ha & Hat & Hin). rewrite <- Hv in *. rewrite Ha.
  case_raw E; [apply Hsame|]. rewrite !orb_false_iff, !negb_false_iff in E. destruct E as ((((E1 & E2) & E3) & _) & _).
  apply bool_decide_eq_true in E2, E3. assert (Hf : at_file (attr a) = true) by (cbn; by rewrite E2).
  pose proof (primary_ok idx a mem Ha Hin Hf E1 E3) as H.
  destruct (match data_frames a !! ff_vpn fault with Some _ => _ | None => _ end) as [[target installed] a']. destruct H as [H Hf'].
  pose proof (lookup_lt_Some _ _ _ Ha) as Hlt. set (ar := List.filter _ around).
  assert (Hc' : Forall (fun c => c.2 ∈ vw_held w) ar) by (rewrite Forall_forall in Hc |- *; intros c Hx; apply Hc; apply list_elem_of_In in Hx; apply filter_In in Hx as [Hx _]; by apply list_elem_of_In).
  pose proof (install_arounds_ok w s (areas vs) (page_table vs) idx mem fault ar a' _ Hlt H Hf' Hc') as H2. fold (primary_flags sw pw installed a').
  destruct (fold_left (install_around fault) ar _) as [a2 maps]. apply installing_lazy in H2; [|done]. cbv zeta. intros X. injection X as <- _. exact H2.
Qed.
End InstallFile.

(** ** The whole handler *)

Lemma collect_held env w fault ds : env_ok w env -> Forall (fun c => c.2 ∈ vw_held w) (collect_around env fault ds).
Proof.
  intros (_ & _ & He). induction ds as [|d ds IH]; cbn -[Z.leb]; [constructor|]. repeat case_if; try constructor.
  destruct (fe_cached _ _ _) as [q|] eqn:Eq; constructor; [by apply (He _ _ _ Eq)|done].
Qed.

Lemma fault_frame_source env w fault pw sw mem p n mem' : env_ok w env -> fault_frame env fault pw sw mem = inr (p, n, mem') ->
  (strong_count w p = 0 \/ p ∈ vw_held w) /\ (pw = true -> strong_count w p = 0).
Proof.
  intros (He1 & He2 & _). unfold fault_frame. cbv zeta.
  assert (Hfr : forall q X, match fe_fresh env with Some p0 => inr (p0, true, X p0) | None => inl OutOfMemory end = inr (p, n, mem') -> q = p ->
    (strong_count w q = 0 \/ q ∈ vw_held w) /\ (pw = true -> strong_count w q = 0)).
  { intros q X H ->. destruct (fe_fresh env) as [q|] eqn:E; [|done]. injection H as -> _ _. pose proof (He1 p eq_refl). auto. }
  set (zb := if bool_decide (ff_type fault = Elf) then option_map _ _ else None). clearbody zb.
  case_if; [intros H; exact (Hfr p (fun p0 => <[p0 := zero_page]> mem) H eq_refl)|]. case_if; [done|].
  destruct (fe_cache env _ _) as [c|] eqn:Ec; [|done]. case_if; [done|]. case_raw Ep.
  - set (cs := match _ with Some n => n | None => _ end). intros H. exact (Hfr p (fun p0 => <[p0 := copy_page (take (Z.to_nat cs) (mem c))]> mem) H eq_refl).
  - intros [= <- _ _]. apply orb_false_iff in Ep as [-> _]. split; [right; by apply (He2 _ _ _ Ec)|done].
Qed.

Lemma file_backed_world_ok env w s vs va access xr st' r : world_ok w -> vw_spaces w !! s = Some vs -> env_ok w env ->
  handle_file_backed_page_fault_current env va access xr (get_st w vs) = Some (st', r) -> world_ok (put_st w s st').
Proof.
  intros Hw Hs He. unfold handle_file_backed_page_fault_current.
  destruct (if bool_decide (access = Write) then _ else None) as [[st1 r1]|] eqn:Esw.
  { case_bool_decide; [|done]. intros [= <- <-]. by eapply shared_write_world_ok. }
  destruct (file_backed_fault_snapshot va access xr (get_st w vs)) as [[fault|]|] eqn:Es; [|intros X; injection X as <- _; by apply put_get_ok|done].
  set (pw := bool_decide (ff_flags fault = MapPrivate) && _). set (sw := bool_decide (ff_type fault = Mmap) && _ && _).
  destruct (fault_frame env fault pw sw _) as [err|[[p n] mem]] eqn:Ef; [intros X; injection X as <- _; by apply put_get_ok|].
  destruct (fault_frame_source _ w _ _ _ _ _ _ _ He Ef) as [Hsrc Hpw]. intros [= X].
  eapply (install_file_ok w s vs fault p pw sw Hw Hs Hsrc Hpw); [| |by apply collect_held|exact X].
  - subst sw. intros H. apply andb_true_iff in H as [H _]. apply andb_true_iff in H as [_ H]. by apply bool_decide_eq_true in H.
  - unfold file_backed_fault_snapshot in Es. destruct (translate _ _); [done|]. destruct (find_area _ _) as [a|]; [|done]. cbn in Es.
    destruct (map_file a) as [f|]; [|done]. cbn in Es. case_raw_in Es E1; [done|]. case_raw_in Es E2; [done|]. case_raw_in Es E3; [done|]. by injection Es as <-.
Qed.
