(* ===== verification/VmGrow.v ===== *)
(** * Virtual memory: stack growth keeps the invariant

    The stack grows down to the faulting page over a range that no other area uses;
    that page alone gets a frame. *)

From Stdlib Require Import Sorted.
From stdpp Require Import gmap functions.
From S2P Require Import Prelude SysErr FrameAlloc Vm VmSpec VmSys VmMap VmProt VmProtSpec VmFault VmWorld VmCow VmFaultSpec VmFileFault.

Implicit Types a b : UserMapArea.
Implicit Types l : list UserMapArea.
Implicit Types vs : UserVMSet.
Implicit Types w : VmWorld.

Definition growable a : bool := bool_decide (area_type a = Stack) || (bool_decide (area_type a = Mmap) && growdown_flag a).

(** Areas that grow are anonymous and private.  (The code also grows a [MAP_GROWSDOWN]
    mapping of a file, and then every page of it shows other bytes.) *)
Definition stacks_plain l : Prop := Forall (fun a => growable a = true -> map_file a = None /\ shared_anonymous a = None) l.

Lemma nearest_stack_spec env va l i best r d : nearest_stack env va l i best = Some (r, d) ->
  best = Some (r, d) \/ exists k a, r = (i + k)%nat /\ l !! k = Some a /\ growable a = true /\ va < va_start a.
Proof.
  revert i best. induction l as [|a l IH]; intros i best; [by left|]. cbn [nearest_stack]. intros H. apply IH in H as [H|(k & b & -> & Hk & Hg)].
  - fold (growable a) in H. case_raw_in H E; [|by left]. injection H as <- _. right. exists 0%nat, a. rewrite !andb_true_iff, Z.ltb_lt in E.
    split_and!; [lia|done|apply E|apply E].
  - right. exists (S k), b. split_and!; [lia|done|apply Hg..].
Qed.

Section Grow.
Context (l : list UserMapArea) (idx : nat) (a : UserMapArea) (first : Z).
Context (Hok : areas_ok l) (Ha : l !! idx = Some a) (Hpl : map_file a = None /\ shared_anonymous a = None).
Context (H0 : 0 <= first) (Hlt : first < start_vpn a).
Context (Hfree : existsb (fun b => (first * PAGE_SIZE <? va_end b) && (va_start b <? start_vpn a * PAGE_SIZE)) l = false).

Let rest := take idx l ++ drop (S idx) l.

Lemma rest_split : l ≡ₚ a :: rest.
Proof. subst rest. rewrite <- (take_drop_middle l idx a Ha) at 1. by rewrite Permutation_middle. Qed.

Lemma rest_ok : areas_ok rest.
Proof.
  subst rest. pose proof Hok as H. rewrite <- (take_drop_middle l idx a Ha) in H. apply areas_ok_app in H as (H1 & H2 & H3). apply areas_ok_cons in H2 as (_ & _ & H2).
  apply areas_ok_app. split_and!; [done|done|]. intros x y Hx Hy. apply H3; [done|by right].
Qed.

Lemma rest_apart : Forall (apart a) rest.
Proof.
  subst rest. pose proof Hok as H. rewrite <- (take_drop_middle l idx a Ha) in H. apply areas_ok_app in H as (_ & H2 & H3). apply areas_ok_cons in H2 as (_ & H2 & _).
  apply Forall_app. split; [|eapply Forall_impl; [exact H2|]; by left]. apply Forall_forall. intros b Hb. right. apply H3; [done|left].
Qed.

Lemma rest_view v : view l v = if in_area a v then Some (page_info a v) else view rest v.
Proof.
  subst rest. pose proof Hok as H. pose proof (take_drop_middle l idx a Ha) as El. rewrite <- El in H. rewrite <- El at 1.
  rewrite !view_app, view_cons. destruct (in_area a v) eqn:Ev; [|done]. destruct (view_split_None _ _ _ _ H Ev) as [-> _]. done.
Qed.

(** The grown area, with the new frame or without. *)
Definition grown (m : gmap Z Z) (z : bool) : UserMapArea := set_lazy z (set_start (first * PAGE_SIZE) (set_frames m a)).

Lemma grown_start m z : start_vpn (grown m z) = first.
Proof. apply floor_page. Qed.

Lemma grown_ok m z : (forall v p, m !! v = Some p -> first <= v < end_vpn a) -> area_ok (grown m z).
Proof.
  intros Hm. destruct (areas_ok_in _ _ Hok (list_elem_of_lookup_2 _ _ _ Ha)) as [A1 A2 A3 A4 A5].
  pose proof (aligned_floor _ A1) as Ef. fold (start_vpn a) in Ef. destruct Hpl as [P1 P2].
  split; try done; cbn.
  - by rewrite Z.mod_mul.
  - unfold PAGE_SIZE in *. lia.
  - intros v p Hv. apply in_area_spec. rewrite grown_start. by apply (Hm v p).
  - split; cbn; [rewrite P1|rewrite P2]; by intros [? ?].
Qed.

Lemma grown_apart m z : Forall (apart (grown m z)) rest.
Proof.
  pose proof rest_apart as Hap. pose proof rest_ok as Hro. pose proof rest_split as Hp. rewrite Forall_forall in Hap. apply Forall_forall. intros b Hb.
  assert (Hbl : b ∈ l) by (rewrite Hp; by right). pose proof (areas_ok_in _ _ Hok Hbl) as Hbo. pose proof (area_ok_vpn b Hbo). destruct Hbo as [B1 B2 B3 B4 B5].
  assert (Hf : (first * PAGE_SIZE <? va_end b) && (va_start b <? start_vpn a * PAGE_SIZE) = false).
  { destruct (_ && _) eqn:E; [|done]. rewrite <- Hfree. symmetry. apply existsb_exists. exists b. split; [by apply list_elem_of_In|done]. }
  apply andb_false_iff in Hf as [Hf%Z.ltb_ge|Hf%Z.ltb_ge].
  - right. unfold before. rewrite grown_start. unfold end_vpn. rewrite <- (floor_page first). apply ceil_le_aligned; [lia|lia|by apply Z.mod_mul|done].
  - left. unfold before. change (end_vpn (grown m z)) with (end_vpn a). destruct (Hap b Hb) as [Hx|Hx]; [done|]. unfold before in Hx.
    pose proof (aligned_floor _ B1) as Eb. fold (start_vpn b) in Eb. unfold PAGE_SIZE in *. lia.
Qed.

Lemma grown_insert m z : (forall v p, m !! v = Some p -> first <= v < end_vpn a) ->
  exists l', insert_area_sorted (grown m z) rest = Some l' /\ areas_ok l' /\ l' ≡ₚ grown m z :: rest /\
    (forall v, view l' v = if (first <=? v) && (v <? end_vpn a) then Some (with_frame (m !! v) (page_meta a 0)) else view l v).
Proof.
  intros Hm. destruct (insert_sorted_ok rest (grown m z) rest_ok (grown_ok m z Hm) (grown_apart m z)) as (l' & E & Hok' & Hp & Hv).
  exists l'. split_and!; try done. intros v. rewrite Hv, rest_view. unfold in_area. rewrite grown_start. change (end_vpn (grown m z)) with (end_vpn a).
  destruct Hpl as [P1 P2]. destruct (Z.leb_spec first v), (Z.leb_spec (start_vpn a) v), (Z.ltb_spec v (end_vpn a)); cbn [andb]; try done; try lia;
    unfold page_info, page_meta, with_frame; cbn; by rewrite ?P1, ?P2.
Qed.
End Grow.

(** The area without the new frame: nothing else changes. *)
Lemma grown_world_ok w s vs idx a first l1 : world_ok w -> vw_spaces w !! s = Some vs -> areas vs !! idx = Some a -> map_file a = None /\ shared_anonymous a = None ->
  first < start_vpn a -> areas_ok l1 -> (exists b, attr b = attr a /\ l1 ≡ₚ b :: take idx (areas vs) ++ drop (S idx) (areas vs)) ->
  (forall v, first <= v < start_vpn a -> area_at (areas vs) v = None) ->
  (forall v, view l1 v = if (first <=? v) && (v <? end_vpn a) then Some (with_frame (data_frames a !! v) (page_meta a 0)) else view (areas vs) v) ->
  let vs1 := mkVM (page_table vs) l1 in
  (forall mem, world_ok (put_space w s vs1 mem)) /\ (forall mem p, strong_count (put_space w s vs1 mem) p = strong_count w p) /\
  (forall v, resident l1 v = resident (areas vs) v).
Proof.
  intros Hw Hs Ha [P1 P2] Hlt Hok1 (b & Hb & Hp) Hnone Hv vs1. pose proof (Hw s vs Hs) as [Hvm Hat _ _]. pose proof (vo_areas _ Hvm) as Hok.
  assert (Hav : forall v, start_vpn a <= v < end_vpn a -> view l1 v = view (areas vs) v).
  { intros v H. rewrite Hv, (proj2 (Z.leb_le first v)), (proj2 (Z.ltb_lt v _)) by lia. cbn. unfold view.
    rewrite (area_at_unique _ a v Hok (list_elem_of_lookup_2 _ _ _ Ha)) by (by apply in_area_spec). cbn. unfold page_info, page_meta, with_frame. cbn. by rewrite P1, P2. }
  assert (Hout : forall v, ~ (first <= v < end_vpn a) -> view l1 v = view (areas vs) v).
  { intros v H. rewrite Hv. destruct (Z.leb_spec first v), (Z.ltb_spec v (end_vpn a)); cbn; try done. lia. }
  assert (Hnew : forall v, first <= v < start_vpn a -> resident l1 v = None).
  { intros v H. pose proof (areas_ok_in _ _ Hok (list_elem_of_lookup_2 _ _ _ Ha)) as Haok. pose proof (area_ok_vpn a Haok).
    rewrite resident_view, Hv, (proj2 (Z.leb_le first v)), (proj2 (Z.ltb_lt v _)) by lia. cbn.
    destruct (data_frames a !! v) as [q|] eqn:Eq; [|done]. apply (ao_frames a Haok) in Eq. apply in_area_spec in Eq. lia. }
  assert (Hres : forall v, resident l1 v = resident (areas vs) v).
  { intros v. destruct (decide (first <= v < start_vpn a)) as [H|H].
    - rewrite Hnew by done. unfold resident. by rewrite Hnone.
    - rewrite !resident_view. destruct (decide (first <= v < end_vpn a)); [rewrite Hav by lia|rewrite Hout by lia]; done. }
  split_and!; [|intros mem p; rewrite put_space_count, (space_count w s vs) by done; do 2 f_equal; apply map_eq; intros v; by rewrite !rmap_lookup by done|done].
  intros mem. apply (restrict_world_ok w s vs); [done|done|done| |].
  - intros v. destruct (decide (first <= v < start_vpn a)) as [H|H].
    + right. split; [by apply Hnew|]. cbn. destruct (translate (page_table vs) v) as [e|] eqn:Et; [|done]. apply (vo_mapped _ Hvm) in Et. unfold resident in Et. by rewrite Hnone in Et.
    + left. split; [|done]. cbn. destruct (decide (first <= v < end_vpn a)); [rewrite Hav by lia|rewrite Hout by lia]; done.
  - intros _. cbn. rewrite Hp. rewrite <- (take_drop_middle _ _ _ Ha) in Hat. apply Forall_app in Hat as [A1 A2]. inversion A2; subst.
    constructor; [by rewrite Hb|]. by apply Forall_app.
Qed.

Lemma free_area_at l a first v : areas_ok l -> existsb (fun b => (first * PAGE_SIZE <? va_end b) && (va_start b <? start_vpn a * PAGE_SIZE)) l = false ->
  first <= v < start_vpn a -> area_at l v = None.
Proof.
  intros Hok Hf Hv. destruct (area_at l v) as [b|] eqn:E; [|done]. exfalso. apply area_at_Some in E as [Hb Hin]. pose proof (areas_ok_in _ _ Hok Hb) as [B1 B2 _ _ _].
  assert (existsb (fun b => (first * PAGE_SIZE <? va_end b) && (va_start b <? start_vpn a * PAGE_SIZE)) l = true); [|congruence].
  apply existsb_exists. exists b. split; [by apply list_elem_of_In|]. rewrite andb_true_iff, !Z.ltb_lt.
  pose proof (aligned_floor _ B1) as Eb. fold (start_vpn b) in Eb. set (x := start_vpn a) in *. clearbody x. split; [|unfold PAGE_SIZE in *; lia].
  assert (v * PAGE_SIZE < va_end b); [|unfold PAGE_SIZE in *; lia]. unfold end_vpn, ceil, PAGE_SIZE in *. destruct (Z.eqb_spec (va_end b) 0); zlia.
Qed.

(** The area as the code builds it. *)
Lemma grown_eq a first (m : gmap Z Z) :
  (let a0 := set_start (first * PAGE_SIZE) (set_frames m a) in
   if end_vpn a0 - start_vpn a0 <=? Z.of_nat (size (data_frames a0)) then set_lazy false a0 else a0) =
  grown a first m (if end_vpn a - first <=? Z.of_nat (size m) then false else lazy_flag a).
Proof.
  unfold grown. cbv zeta. change (start_vpn (set_start _ _)) with (floor (first * PAGE_SIZE)). rewrite floor_page. change (end_vpn (set_start _ _)) with (end_vpn a).
  cbn [data_frames set_start set_frames]. by case_if; destruct a.
Qed.

Section Expand.
Context (env : FaultEnv) (w : VmWorld) (s : Z) (vs : UserVMSet).
Context (Hw : world_ok w) (Hs : vw_spaces w !! s = Some vs) (He : env_ok w env) (Hpl : stacks_plain (areas vs)).

Lemma grown_meta a first m z v : map_file a = None /\ shared_anonymous a = None -> page_info (grown a first m z) v = with_frame (m !! v) (page_meta a 0).
Proof. intros [P1 P2]. unfold page_info, page_meta, with_frame, grown. cbn. by rewrite P1, P2. Qed.

Lemma expand_install k a first p z mem : areas vs !! k = Some a -> map_file a = None /\ shared_anonymous a = None -> 0 <= first < start_vpn a ->
  existsb (fun b => (first * PAGE_SIZE <? va_end b) && (va_start b <? start_vpn a * PAGE_SIZE)) (areas vs) = false -> strong_count w p = 0 ->
  exists l2, insert_area_sorted (grown a first (<[first := p]> (data_frames a)) z) (take k (areas vs) ++ drop (S k) (areas vs)) = Some l2 /\
    world_ok (put_space w s (mkVM (map_page (page_table vs) first p (mapping_flags (map_perm a))) l2) mem).
Proof.
  intros Ha Hplain [H0 E1] E3 Hfr. pose proof (Hw s vs Hs) as [Hvm Hat _ _]. pose proof (vo_areas _ Hvm) as Hok.
  pose proof (areas_ok_in _ _ Hok (list_elem_of_lookup_2 _ _ _ Ha)) as Haok. pose proof (area_ok_vpn a Haok).
  assert (Hm0 : forall v q, data_frames a !! v = Some q -> first <= v < end_vpn a) by (intros v q Hq; apply (ao_frames a Haok) in Hq; apply in_area_spec in Hq; lia).
  set (m := <[first := p]> (data_frames a)).
  assert (Hm : forall v q, m !! v = Some q -> first <= v < end_vpn a).
  { intros v q. subst m. destruct (decide (v = first)) as [-> |]; [intros; lia|]. rewrite lookup_insert_ne by done. apply Hm0. }
  destruct (grown_insert (areas vs) k a first Hok Ha Hplain H0 E1 E3 (data_frames a) z Hm0) as (l1 & _ & Hok1 & Hp1 & Hv1).
  destruct (grown_insert (areas vs) k a first Hok Ha Hplain H0 E1 E3 m z Hm) as (l2 & El2 & Hok2 & Hp2 & Hv2). exists l2. split; [done|].
  destruct (grown_world_ok w s vs k a first l1 Hw Hs Ha Hplain E1 Hok1) as (W1 & W2 & W3); [by exists (grown a first (data_frames a) z)|intros v; by apply free_area_at|done|].
  pose proof (free_area_at _ a first first Hok E3 ltac:(lia)) as Hnone.
  set (vs1 := mkVM (page_table vs) l1) in *. set (vs2 := mkVM _ l2). set (w1 := put_space w s vs1 mem) in *.
  assert (E2 : put_space w s vs2 mem = put_space w1 s vs2 mem) by (subst w1; by rewrite put_space_twice). rewrite E2.
  assert (Hs1 : vw_spaces w1 !! s = Some vs1) by apply lookup_insert_eq.
  assert (Hat2 : Forall (fun a => attr_ok (attr a)) l2).
  { rewrite Hp2. rewrite <- (take_drop_middle _ _ _ Ha) in Hat. apply Forall_app in Hat as [A1 A2]. inversion A2; subst. constructor; [done|by apply Forall_app]. }
  assert (Hps : page_step w1 (put_space w1 s vs2 mem) s vs1 vs2 first p (pte_flags (mapping_flags (map_perm a))) (page_info (grown a first m z) first)).
  { split; try done; cbn [vs1 vs2 areas page_table].
    - rewrite Hv2, grown_meta, (proj2 (Z.leb_le first first)), (proj2 (Z.ltb_lt first _)) by (done || lia). done.
    - subst m. cbn. by rewrite lookup_insert_eq.
    - intros u Hu. rewrite Hv1, Hv2. subst m. by rewrite lookup_insert_ne.
    - unfold map_page. by rewrite lookup_insert_eq.
    - intros u Hu. unfold map_page. by rewrite lookup_insert_ne.
    - apply (full_flags_ok (grown a first m z)).
    - apply (full_flags_ok (grown a first m z)). }
  assert (Hf1 : strong_count w1 p = 0) by (by rewrite <- Hfr; apply W2).
  apply (install_ok w1 _ s vs1 vs2 first p _ _ (W1 mem) Hps); try done.
  - cbn [vs1 areas]. rewrite W3. unfold resident. by rewrite Hnone.
  - by left.
  - intros _ _. split; [done|]. change (outside_count w1 p = 0). by apply fresh_outside.
Qed.

Lemma expand_world_ok va : 0 <= va -> exists r, try_expand_stack env va (get_st w vs) = Some r /\
  match r with None => True | Some st' => world_ok (put_st w s st') end.
Proof.
  intros Hva. unfold try_expand_stack. change (st_areas (get_st w vs)) with (areas vs).
  destruct (nearest_stack env va (areas vs) 0 None) as [[idx d]|] eqn:En; [|by eexists].
  apply nearest_stack_spec in En as [En|(k & a & -> & Ha & Hg & Hlt)]; [done|]. cbn [Nat.add]. rewrite Ha. cbn [mbind option_bind]. set (first := floor va).
  case_raw E1; [by eexists|]. case_raw E2; [by eexists|]. case_raw E3; [by eexists|]. apply Z.leb_gt in E1.
  destruct (fe_fresh env) as [p|] eqn:Ef; [|by eexists]. unfold stacks_plain in Hpl. rewrite Forall_lookup in Hpl. pose proof (Hpl k a Ha Hg) as Hplain.
  assert (H0 : 0 <= first) by (subst first; unfold floor, PAGE_SIZE; zlia).
  set (m := <[first := p]> (data_frames a)). set (z := if end_vpn a - first <=? Z.of_nat (size m) then false else lazy_flag a).
  pose proof (grown_eq a first m) as Ea. cbv zeta in Ea |- *. rewrite Ea. fold z.
  destruct (expand_install k a first p z (<[p := zero_page]> (vw_mem w)) Ha Hplain (conj H0 E1) E3) as (l2 & El & H2); [by apply He|]. fold m in El. rewrite El.
  cbn [mbind option_bind]. eexists. split; [done|]. exact H2.
Qed.
End Expand.
