(* ===== verification/VmTrap.v ===== *)
(** * Virtual memory: the page-fault traps

    The handlers of the three page-fault traps and of the kernel's own accesses to user
    memory keep the invariant; and with the memory and the page of the file at hand, one fault
    makes a permitted access possible. *)

From Stdlib Require Import Sorted.
From stdpp Require Import gmap functions.
From S2P Require Import Prelude SysErr FrameAlloc Vm VmSpec VmSys VmMap VmProt VmProtSpec VmFault VmWorld VmCow VmFaultSpec VmFileFault VmGrow.

Implicit Types a b : UserMapArea.
Implicit Types l : list UserMapArea.
Implicit Types vs : UserVMSet.
Implicit Types w : VmWorld.
Implicit Types pt : PageTable.

(** The access an entry gives, to the mode it is for.  (That it is for user mode exactly when
    its area is, is [page_served], which every step keeps.) *)
Definition entry_allows (pt : PageTable) (v : Z) (access : AccessType) : bool :=
  match translate pt v with
  | None => false
  | Some e => match access with Read => acc_r (pte_acc e) | Write => acc_w (pte_acc e) | Execute => acc_x (pte_acc e) end
  end.

(** A fault on a copy-on-write page is taken because the entry does not give the access
    (and not because the translation cache still has an older entry). *)
Definition genuine vs (v : Z) (access : AccessType) : Prop :=
  forall a, area_at (areas vs) v = Some a -> cow_flag a = true -> entry_allows (page_table vs) v access = false.

Section Trap.
Context (env : FaultEnv) (w : VmWorld) (s : Z) (vs : UserVMSet).
Context (Hw : world_ok w) (Hs : vw_spaces w !! s = Some vs) (He : env_ok w env) (Hpl : stacks_plain (areas vs)).

(** A resident copy-on-write page is readable, and executable if its area is. *)
Lemma resident_cow a v p : area_at (areas vs) v = Some a -> data_frames a !! v = Some p -> cow_flag a = true ->
  exists f, translate (page_table vs) v = Some (mkPTE p f) /\ acc_r f = true /\ (acc_x (map_perm a) = true -> acc_x f = true).
Proof.
  intros Ha Hp Hc. pose proof (Hw s vs Hs) as [Hvm Hat _ Hse]. assert (Hv : view (areas vs) v = Some (page_info a v)) by (unfold view; by rewrite Ha).
  assert (Hr : resident (areas vs) v = Some p) by (unfold resident; by rewrite Ha). destruct (vo_resident _ Hvm v p Hr) as [f Hf]. exists f.
  destruct (Hse v _ p f Hv Hp Hf) as (S1 & S2 & _). rewrite Forall_forall in Hat. apply area_at_Some in Ha as [Hin _].
  pose proof (ak_cow _ (Hat a Hin) Hc) as [Hwr _]. cbn in Hwr, S1. assert (acc_r f = true) by (apply S1; rewrite Hwr; apply orb_true_r).
  split_and!; [|done|done]. apply translate_Some. split; [done|]. unfold is_table. cbn. rewrite H. done.
Qed.

Lemma unalloc_read va access st' r : access <> Write -> genuine vs (floor va) access ->
  (forall a, area_at (areas vs) (floor va) = Some a -> access = Execute -> acc_x (map_perm a) = true \/ translate (page_table vs) (floor va) = None) ->
  handle_unalloc_page_fault env va access (get_st w vs) = (st', r) -> world_ok (put_st w s st').
Proof.
  intros Hne Hg Hx. apply unalloc_world_ok; try done. intros a Ha [p Hp]. destruct (cow_flag a) eqn:Ec; [|done]. exfalso.
  destruct (resident_cow a _ p Ha Hp Ec) as (f & Ht & F1 & F2). specialize (Hg a Ha Ec). unfold entry_allows in Hg. rewrite Ht in Hg. cbn in Hg.
  destruct access; [congruence|done|]. destruct (Hx a Ha eq_refl) as [H|H]; [rewrite F2 in Hg; done|congruence].
Qed.

Lemma expand_or_fail_ok va st' r : 0 <= va -> expand_or_fail env va (get_st w vs) = Some (st', r) -> world_ok (put_st w s st').
Proof.
  intros Hva. unfold expand_or_fail. destruct (expand_world_ok env w s vs Hw Hs He Hpl va Hva) as ([st1|] & -> & H); cbn; intros [= <- _]; [done|by apply put_get_ok].
Qed.

Lemma load_world_ok va st' r : 0 <= va -> genuine vs (floor va) Read -> handle_load_page_fault env va (get_st w vs) = Some (st', r) -> world_ok (put_st w s st').
Proof.
  intros Hva Hg. unfold handle_load_page_fault. destruct (handle_file_backed_page_fault_current _ _ _ _ _) as [[st1 r1]|] eqn:E; [intros [= <- _]; by eapply file_backed_world_ok|].
  change (st_areas (get_st w vs)) with (areas vs). destruct (find_area (areas vs) va) as [a|]; [|by apply expand_or_fail_ok].
  case_if; [intros [= <- _]; by apply put_get_ok|]. intros [= H]. by eapply (unalloc_read va Read).
Qed.

Lemma present_not_cow va access st' r a : find_area (areas vs) va = Some a -> (cow_flag a = false \/ translate (page_table vs) (floor va) = None) ->
  handle_unalloc_page_fault env va access (get_st w vs) = (st', r) -> world_ok (put_st w s st').
Proof.
  pose proof (vo_areas _ (sk_vm _ _ (Hw s vs Hs))) as Hok. intros Ha Hc. rewrite find_area_at in Ha by done. apply unalloc_world_ok; try done.
  intros b Hb [p Hp]. rewrite Ha in Hb. injection Hb as <-. destruct Hc as [|Hc]; [done|]. destruct (cow_flag a) eqn:Ec; [|done].
  destruct (resident_cow a _ p Ha Hp Ec) as (f & Ht & _). congruence.
Qed.

Lemma cow_area_ok va st' r a : find_area (areas vs) va = Some a -> cow_flag a = true ->
  handle_cow_page_fault env (strong_count w) va (get_st w vs) = (st', r) -> world_ok (put_st w s st').
Proof.
  pose proof (vo_areas _ (sk_vm _ _ (Hw s vs Hs))) as Hok. intros Ha Hc. rewrite find_area_at in Ha by done. apply cow_world_ok; try done. intros b Hb. congruence.
Qed.

Lemma store_world_ok va st' r : 0 <= va -> handle_store_page_fault env (strong_count w) va (get_st w vs) = Some (st', r) -> world_ok (put_st w s st').
Proof.
  intros Hva. unfold handle_store_page_fault. destruct (handle_file_backed_page_fault_current _ _ _ _ _) as [[st1 r1]|] eqn:E; [intros [= <- _]; by eapply file_backed_world_ok|].
  change (st_areas (get_st w vs)) with (areas vs). change (st_pt (get_st w vs)) with (page_table vs).
  destruct (find_area (areas vs) va) as [a|] eqn:Ea; [|by apply expand_or_fail_ok]. destruct (translate (page_table vs) (floor va)) as [e|] eqn:Et.
  - destruct (cow_flag a) eqn:Ec; [intros [= H]; by eapply cow_area_ok|]. case_if; [intros [= <- _]; by apply put_get_ok|].
    intros [= H]. eapply present_not_cow; [done| |done]. by left.
  - case_if; [intros [= <- _]; by apply put_get_ok|]. intros [= H]. eapply present_not_cow; [done| |done]. by right.
Qed.

Lemma instruction_world_ok va st' r : genuine vs (floor va) Execute -> handle_instruction_page_fault env va (get_st w vs) = Some (st', r) -> world_ok (put_st w s st').
Proof.
  intros Hg. pose proof (Hw s vs Hs) as [Hvm _ _ _]. pose proof (vo_areas _ Hvm) as Hok. unfold handle_instruction_page_fault.
  destruct (handle_file_backed_page_fault_current _ _ _ _ _) as [[st1 r1]|] eqn:E; [intros [= <- _]; by eapply file_backed_world_ok|].
  change (st_areas (get_st w vs)) with (areas vs). change (st_pt (get_st w vs)) with (page_table vs). destruct (translate (page_table vs) (floor va)) as [e|] eqn:Et.
  2: { intros [= H]. eapply (unalloc_read va Execute); [done|done| |done]. by right. }
  rewrite find_area_at by done. destruct (area_at (areas vs) (floor va)) as [a|] eqn:Ea; [|intros [= <- _]; by apply put_get_ok].
  destruct (acc_x (map_perm a)) eqn:Ex; intros [= <- _]; [|by apply put_get_ok]. pose proof (vo_mapped _ Hvm _ _ Et) as Hr. unfold resident in Hr. rewrite Ea in Hr. cbn in Hr.
  apply (full_flags_world_ok w s vs a (floor va) (pte_ppn e)); try done; cbn.
  - intros _ _. left. destruct (cow_flag a) eqn:Ec; [|done]. exfalso. destruct (resident_cow a _ _ Ea Hr Ec) as (f & Ht & _ & F2).
    specialize (Hg a Ea Ec). unfold entry_allows in Hg. rewrite Ht in Hg. cbn in Hg. rewrite F2 in Hg; done.
  - apply translate_Some in Et as [Et _]. by rewrite set_flags_lookup, bool_decide_eq_true_2, Et.
  - intros u Hu. by rewrite set_flags_lookup, bool_decide_eq_false_2.
Qed.

Lemma page_fault_world_ok va access st' r : 0 <= va -> genuine vs (floor va) access -> handle_page_fault env (strong_count w) va access (get_st w vs) = Some (st', r) ->
  world_ok (put_st w s st').
Proof. destruct access; cbn; intros; [by eapply load_world_ok|by eapply store_world_ok|by eapply instruction_world_ok]. Qed.

Lemma kernel_fault_world_ok va access st' r : genuine vs (floor va) access -> fault_current_user_page env (strong_count w) va access (get_st w vs) = Some (st', r) ->
  world_ok (put_st w s st').
Proof.
  intros Hg. unfold fault_current_user_page. case_raw Er; [intros [= <- _]; by apply put_get_ok|]. apply orb_false_iff in Er as [Er _]. apply Z.ltb_ge in Er.
  assert (Hva : 0 <= va) by (unfold USER_FIRST in Er; lia).
  destruct (handle_file_backed_page_fault_current _ _ _ _ _) as [[st1 r1]|] eqn:E; [intros [= <- _]; by eapply file_backed_world_ok|].
  unfold handle_store_page_fault_set. change (st_areas (get_st w vs)) with (areas vs). change (st_pt (get_st w vs)) with (page_table vs).
  destruct (find_area (areas vs) va) as [a|] eqn:Ea.
  2: { destruct access; [by apply expand_or_fail_ok|by apply expand_or_fail_ok|intros [= <- _]; by apply put_get_ok]. }
  destruct access.
  - case_if; [intros [= H]; by eapply (unalloc_read va Read)|intros [= <- _]; by apply put_get_ok].
  - destruct (cow_flag a) eqn:Ec; [destruct (translate (page_table vs) (floor va)) eqn:Et|].
    + intros [= H]. by eapply cow_area_ok.
    + intros [= H]. eapply present_not_cow; [done| |done]. by right.
    + case_if; [intros [= H]; eapply present_not_cow; [done| |done]; by left|intros [= <- _]; by apply put_get_ok].
  - intros [= <- _]. by apply put_get_ok.
Qed.
End Trap.

(** * A permitted access faults once *)

Definition access_bit (f : Access) (access : AccessType) : bool := match access with Read => acc_r f | Write => acc_w f | Execute => acc_x f end.

(** A frame is free; the page of a file mapping lies within the file, can be read, and
    can be marked dirty. *)
Definition resources (env : FaultEnv) a (v : Z) : Prop :=
  is_Some (fe_fresh env) /\
  forall f, map_file a = Some f -> page_file_offset a v < fe_size env f /\ is_Some (fe_cache env f (page_file_offset a v / PAGE_SIZE)) /\ fe_mark env f (page_file_offset a v / PAGE_SIZE) = true.

Lemma entry_allows_Some pt v p f access : pt !! v = Some (mkPTE p f) -> access_bit f access = true -> entry_allows pt v access = true.
Proof.
  intros H1 H2. unfold entry_allows, translate. rewrite H1. unfold is_table. cbn. destruct f as [r0 w0 x0 u0]. cbn in *. destruct access; cbn in H2; subst; cbn; rewrite ?orb_true_r; done.
Qed.

Lemma initial_bit a access : access_bit (map_perm a) access = true -> (access = Write -> tracks_shared_file_dirty a = false) -> access_bit (pte_flags (exec_readable (initial_mapping_flags a))) access = true.
Proof.
  unfold initial_mapping_flags. intros H1 H2. destruct access; cbn in *; [|rewrite H2 by done; done|]; destruct (tracks_shared_file_dirty a); cbn; by rewrite ?H1.
Qed.

Lemma full_bit (p : Access) access : access_bit p access = true -> access_bit (pte_flags (mapping_flags p)) access = true.
Proof. destruct access; cbn; intros H; by rewrite ?H. Qed.

Lemma cow_bit (p : Access) access : access_bit p access = true -> access <> Write -> access_bit (pte_flags (exec_readable (cow_mapping_flags p))) access = true.
Proof. destruct access; cbn; done. Qed.

(** ** The pages around the demanded one *)

Lemma map_pages_other maps pt v : Forall (fun m : Z * Z * Access => m.1.1 <> v) maps -> map_pages maps pt !! v = pt !! v.
Proof.
  unfold map_pages. revert pt. induction maps as [|[[u q] f] maps IH]; intros pt H; [done|]. inversion H as [|? ? H1 H2]; subst. cbn in H1 |- *. rewrite IH by done.
  unfold map_page. by rewrite lookup_insert_ne.
Qed.

Lemma install_arounds_maps fault v cs a maps : Forall (fun c : Z * Z => c.1 <> v) cs ->
  exists extra, (fold_left (install_around fault) cs (a, maps)).2 = maps ++ extra /\ Forall (fun m : Z * Z * Access => m.1.1 <> v) extra.
Proof.
  revert a maps. induction cs as [|[u p] cs IH]; intros a maps H; cbn [fold_left]; [exists []; by rewrite app_nil_r|]. inversion H as [|? ? H1 H2]; subst. cbn in H1.
  assert (Hone : exists a' extra, install_around fault (a, maps) (u, p) = (a', maps ++ extra) /\ Forall (fun m : Z * Z * Access => m.1.1 <> v) extra).
  { unfold install_around. case_raw E1; [exists a, []; by rewrite app_nil_r|]. case_raw E2; [exists a, []; by rewrite app_nil_r|]. destruct (data_frames a !! u); eexists _, _; split; [done|by constructor|done|by constructor]. }
  destruct Hone as (a' & e1 & -> & F1). destruct (IH a' (maps ++ e1) H2) as (e2 & -> & F2). exists (e1 ++ e2). split; [by rewrite (assoc_L app)|by apply Forall_app].
Qed.

Lemma collect_around_after env fault ds : Forall (fun d => 0 < d) ds -> Forall (fun c : Z * Z => c.1 <> ff_vpn fault) (collect_around env fault ds).
Proof.
  induction ds as [|d ds IH]; intros H; cbn -[Z.leb]; [constructor|]. inversion H; subst. repeat case_if; try constructor. destruct (fe_cached _ _ _); constructor; [cbn; lia|by apply IH].
Qed.

Lemma collect_after env fault : Forall (fun c : Z * Z => c.1 <> ff_vpn fault) (collect_file_fault_around_frames env fault).
Proof. apply collect_around_after. apply Forall_forall. intros d Hd%elem_of_seqZ. lia. Qed.

Section Progress.
Context (env : FaultEnv) (w : VmWorld) (s : Z) (vs : UserVMSet) (va : Z) (a : UserMapArea).
Context (Hw : world_ok w) (Hs : vw_spaces w !! s = Some vs).
Let v := floor va.
Context (Ha : area_at (areas vs) v = Some a) (Hres : resources env a v).

Lemma progress_index : exists idx, find_area_index (areas vs) va = Some idx /\ areas vs !! idx = Some a /\ in_area a v = true.
Proof.
  pose proof (vo_areas _ (sk_vm _ _ (Hw s vs Hs))) as Hok. pose proof Ha as [Hin Hr]%area_at_Some. apply list_elem_of_lookup in Hin as [i Hi].
  exists i. split_and!; [apply find_area_index_spec; [done|]; exists a; split; [done|by apply in_area_spec]|done|by apply in_area_spec].
Qed.

Lemma progress_find : find_area (areas vs) va = Some a.
Proof. rewrite find_area_at; [done|]. apply (vo_areas _ (sk_vm _ _ (Hw s vs Hs))). Qed.

Lemma progress_attr : attr_ok (attr a).
Proof. pose proof (sk_attr _ _ (Hw s vs Hs)) as Hat. rewrite Forall_forall in Hat. pose proof Ha as [Hin _]%area_at_Some. by apply Hat. Qed.

(** A page without a frame, of the anonymous kinds. *)
Lemma new_page_defined access st : (is_Some (map_file a) -> mmap_or_elf (area_type a) = false) -> exists p nc pc st', new_page env a v access st = inr (p, nc, pc, st') /\
  fs_vs st' = fs_vs st /\ (access = Write -> nc && negb pc = false).
Proof.
  intros Hf. destruct Hres as [[q Hq] Hfile]. assert (Hz : exists p nc pc st', zeroed_page env st = inr (p, nc, pc, st') /\ fs_vs st' = fs_vs st /\ (access = Write -> nc && negb pc = false)).
  { unfold zeroed_page. rewrite Hq. by eexists _, _, _, _. }
  assert (Hm : exists p nc pc st', mapping_page env a v access st = inr (p, nc, pc, st') /\ fs_vs st' = fs_vs st /\ (access = Write -> nc && negb pc = false)).
  { unfold mapping_page. destruct (map_file a) as [f|] eqn:Ef; cbn zeta.
    - destruct (Hfile f eq_refl) as (F1 & [c F2] & _). rewrite (proj2 (Z.leb_gt _ _) F1), F2. case_raw Ep; [rewrite Hq; by eexists _, _, _, _|]. eexists _, _, _, _. split_and!; [done|done|].
      intros ->. rewrite (bool_decide_eq_true_2 (Write = Write)), andb_true_r in Ep by done. by rewrite Ep.
    - destruct (shared_anonymous a) as [k|]; [|done]. unfold allocate_shared_anonymous_frame. rewrite Hq. destruct ((fs_backings st !!! k) !! _); cbn; eexists _, _, _, _; split_and!; done. }
  unfold new_page. destruct (area_type a) eqn:Et; try done.
Qed.

Lemma unalloc_progress access : access_bit (map_perm a) access = true -> data_frames a !! v = None -> (is_Some (map_file a) -> mmap_or_elf (area_type a) = false) ->
  exists st', handle_unalloc_page_fault env va access (get_st w vs) = (st', Some Normal) /\ entry_allows (page_table (fs_vs st')) v access = true.
Proof.
  intros Hb Hn Hf. destruct progress_index as (idx & Hi & Hla & _). unfold handle_unalloc_page_fault. fold v. change (st_areas (get_st w vs)) with (areas vs). change (st_pt (get_st w vs)) with (page_table vs).
  rewrite Hi, Hla, Hn.
  assert (Hgo : forall st0, exists st', match new_page env a v access st0 with
      | inl err => (st0, Some err)
      | inr (p, needs_cow, private_copy, st) =>
          let a' := add_frame v p a in
          (map_fault_page v p (needs_cow && negb private_copy) a' (put_areas (<[idx := a']> (st_areas st)) st), Some Normal)
      end = (st', Some Normal) /\ entry_allows (page_table (fs_vs st')) v access = true).
  { intros st0. destruct (new_page_defined access st0 Hf) as (p & nc & pc & st1 & -> & Evs & Hnc). eexists. split; [done|].
    set (a' := add_frame v p a). assert (Hpa : map_perm a' = map_perm a /\ tracks_shared_file_dirty a' = tracks_shared_file_dirty a) by (subst a'; unfold add_frame; by case_if).
    destruct Hpa as [Ep Etr]. eapply entry_allows_Some; [cbn; unfold map_page; by rewrite lookup_insert_eq|].
    destruct (nc && negb pc) eqn:Ec; [apply cow_bit; [by rewrite Ep|intros ->; by specialize (Hnc eq_refl)]|].
    apply initial_bit; [by rewrite Ep|]. intros _. rewrite Etr. unfold tracks_shared_file_dirty. destruct (map_file a) as [f|]; [|by rewrite !andb_false_r].
    rewrite bool_decide_eq_false_2; [done|]. intros Et. rewrite Et in Hf. by specialize (Hf ltac:(by eexists)). }
  destruct (page_table vs !! v); apply Hgo.
Qed.

(** ** A page of a file *)

Lemma fault_frame_defined fault pw sw m : ff_file fault = default 0 (map_file a) -> is_Some (map_file a) -> ff_offset fault = page_file_offset a v ->
  exists p n m', fault_frame env fault pw sw m = inr (p, n, m').
Proof.
  intros E1 [f Hf] E2. destruct Hres as [[q Hq] Hfile]. destruct (Hfile f Hf) as (F1 & [c F2] & F3). rewrite Hf in E1. cbn in E1. unfold fault_frame. rewrite Hq, E1, E2.
  cbv zeta. set (zb := if bool_decide (ff_type fault = Elf) then option_map _ _ else None). clearbody zb. case_if; [eauto|]. rewrite (proj2 (Z.leb_gt _ _) F1), F2, F3. cbn [negb].
  rewrite andb_false_r. case_if; eauto.
Qed.

Lemma file_progress access xr : access_bit (map_perm a) access = true -> data_frames a !! v = None -> is_Some (map_file a) -> mmap_or_elf (area_type a) = true ->
  exists st', handle_file_backed_page_fault_current env va access xr (get_st w vs) = Some (st', Some Normal) /\ entry_allows (page_table (fs_vs st')) v access = true.
Proof.
  intros Hb Hn Hf Ht. destruct progress_index as (idx & Hi & Hla & _). pose proof (Hw s vs Hs) as [Hvm _ _ _]. pose proof progress_attr as Hak.
  assert (Htr : translate (page_table vs) v = None).
  { destruct (translate (page_table vs) v) as [e|] eqn:E; [|done]. apply (vo_mapped _ Hvm) in E. unfold resident in E. rewrite Ha in E. cbn in E. congruence. }
  assert (Hallow : fault_access_allowed a access xr = true) by (destruct access; cbn in *; by rewrite Hb).
  unfold handle_file_backed_page_fault_current, handle_shared_file_write_fault_current, file_backed_fault_snapshot. fold v.
  change (st_areas (get_st w vs)) with (areas vs). change (st_pt (get_st w vs)) with (page_table vs). rewrite Htr. cbn [mbind option_bind].
  destruct Hf as [f Ef]. assert (Hno : (if bool_decide (access = Write) then None else None : option (FaultSt * option PageFaultError)) = None) by (by case_if). rewrite Hno.
  rewrite progress_find. cbn [mbind option_bind]. rewrite Ef. cbn [mbind option_bind]. rewrite Ht, Hn, Hallow. cbn [negb].
  rewrite (bool_decide_eq_false_2 (is_Some None)) by (by intros [? ?]). cbv zeta. set (fault := mkFBF _ _ _ _ _ _ _). set (pw := _ && _). set (sw := _ && _ && _).
  destruct (fault_frame_defined fault pw sw (fs_mem (get_st w vs))) as (p & n & m' & ->); [by rewrite Ef|by exists f|done|].
  unfold install_file_backed_fault_page. change (ff_vpn fault) with v. change (st_areas _) with (areas vs). change (st_pt _) with (page_table vs). rewrite Htr, Hi, Hla, Ht, Hallow.
  rewrite (bool_decide_eq_true_2 (map_file a = _)) by done. rewrite (bool_decide_eq_true_2 (mmap_flags a = _)) by done. change (ff_offset fault) with (page_file_offset a v). rewrite Z.eqb_refl. cbn [negb orb].
  rewrite Hn. set (a1 := clear_lazy_if_full _). set (ar := List.filter _ _).
  assert (Har : Forall (fun c : Z * Z => c.1 <> v) ar).
  { subst ar. pose proof (collect_after env fault) as Hc. rewrite Forall_forall in Hc |- *. intros c Hx%list_elem_of_In. apply filter_In in Hx as [Hx _]. by apply Hc, list_elem_of_In. }
  set (prim := if sw then _ else _). destruct (install_arounds_maps fault v ar a1 [(v, p, prim)] Har) as (extra & Em & Hex).
  destruct (fold_left (install_around fault) ar (a1, [(v, p, prim)])) as [a2 maps]. cbn in Em. subst maps. eexists. split; [done|].
  eapply entry_allows_Some; [cbn; fold (map_pages extra (map_page (page_table vs) v p (exec_readable prim))); rewrite map_pages_other by done; unfold map_page; by rewrite lookup_insert_eq|].
  assert (H1 : map_perm a1 = map_perm a /\ cow_flag a1 = cow_flag a /\ tracks_shared_file_dirty a1 = tracks_shared_file_dirty a) by (subst a1; unfold clear_lazy_if_full; by case_if).
  destruct H1 as (P1 & P2 & P3). subst prim. destruct sw eqn:Esw.
  { rewrite P1. destruct access; cbn in *; by rewrite ?Hb. }
  rewrite P2. destruct (cow_flag a && negb (pw && true)) eqn:Ec.
  - apply cow_bit; [by rewrite P1|]. intros ->. apply andb_true_iff in Ec as [Ec1 Ec2]. subst pw. rewrite (bool_decide_eq_true_2 (Write = Write)), !andb_true_r in Ec2 by done.
    apply negb_true_iff, bool_decide_eq_false in Ec2. pose proof (ak_cow _ Hak Ec1) as [_ Hp]. pose proof (ak_elf _ Hak) as He. rewrite private_attr_area in Hp. unfold shared_area in Hp. cbn in He, Ec2.
    destruct (mmap_flags a); [|done]. destruct (area_type a); try done. by specialize (He eq_refl).
  - apply initial_bit; [by rewrite P1|]. intros ->. rewrite P3. unfold tracks_shared_file_dirty. subst sw. cbn in Esw. rewrite (bool_decide_eq_true_2 (Write = Write)), andb_true_r in Esw by done. by rewrite Esw.
Qed.

(** ** A store to a resident page *)

Lemma resident_entry p : data_frames a !! v = Some p -> exists f, page_table vs !! v = Some (mkPTE p f) /\
  (acc_r (map_perm a) || acc_w (map_perm a) = true -> acc_r f = true) /\ (acc_x (map_perm a) = true -> acc_x f = true) /\ acc_u f = acc_u (map_perm a).
Proof.
  intros Hp. pose proof (Hw s vs Hs) as [Hvm _ _ Hse]. assert (Hr : resident (areas vs) v = Some p) by (unfold resident; by rewrite Ha).
  destruct (vo_resident _ Hvm v p Hr) as [f Hf]. exists f. split; [done|]. apply (Hse v (page_info a v) p f); [unfold view; by rewrite Ha|done|done].
Qed.

Lemma store_resident p : acc_w (map_perm a) = true -> data_frames a !! v = Some p ->
  exists st', handle_store_page_fault env (strong_count w) va (get_st w vs) = Some (st', Some Normal) /\ entry_allows (page_table (fs_vs st')) v Write = true.
Proof.
  intros Hb Hp. destruct progress_index as (idx & Hi & Hla & _). destruct (resident_entry p Hp) as (f & Hf & F1 & _ & _). rewrite Hb, orb_true_r in F1. specialize (F1 eq_refl).
  assert (Htr : translate (page_table vs) v = Some (mkPTE p f)) by (unfold translate; rewrite Hf; unfold is_table; cbn; by rewrite F1).
  assert (Hent : forall st' q fl, page_table (fs_vs st') !! v = Some (mkPTE q fl) -> acc_w fl = true -> entry_allows (page_table (fs_vs st')) v Write = true) by (intros; by eapply entry_allows_Some).
  assert (Hfull : acc_w (pte_flags (mapping_flags (map_perm a))) = true) by (cbn; done).
  unfold handle_store_page_fault, handle_file_backed_page_fault_current, handle_shared_file_write_fault_current, file_backed_fault_snapshot. fold v.
  change (st_areas (get_st w vs)) with (areas vs). change (st_pt (get_st w vs)) with (page_table vs). rewrite Htr. cbn [mbind option_bind]. rewrite progress_find. cbn [mbind option_bind].
  rewrite Hp. cbn [mbind option_bind]. rewrite (bool_decide_eq_true_2 (Write = Write)) by done. cbn [pte_acc pte_ppn]. destruct (tracks_shared_file_dirty a) eqn:Etr; cbn [negb].
  - destruct (acc_w f) eqn:Ew; [eexists; split; [done|]; by eapply Hent|].
    assert (Hmf : exists g, map_file a = Some g).
    { unfold tracks_shared_file_dirty in Etr. rewrite !andb_true_iff in Etr. destruct Etr as ((_ & Etr) & _). apply bool_decide_eq_true in Etr. done. }
    destruct Hmf as [g Hg]. rewrite Hg. cbn [mbind option_bind]. destruct Hres as [_ Hfile]. destruct (Hfile g Hg) as (_ & _ & Hmark).
    pose proof Ha as [Hin Hr]%area_at_Some. pose proof (areas_ok_in _ _ (vo_areas _ (sk_vm _ _ (Hw s vs Hs))) Hin) as [_ _ _ _ [Hoff _]].
    destruct (Hoff ltac:(by exists g)) as [O1 O2]. unfold checked_add. fold v.
    assert (Hlt : file_offset a + (v - start_vpn a) * PAGE_SIZE < 2 ^ 64) by (fold v in Hr; unfold PAGE_SIZE in *; lia).
    rewrite (proj2 (Z.ltb_lt _ _) Hlt). cbn [mbind option_bind]. unfold page_file_offset in Hmark. rewrite Hmark. cbn [negb]. rewrite Z.eqb_refl. cbn [negb].
    eexists. split; [done|]. eapply Hent; [cbn; by rewrite lookup_insert_eq|done].
  - destruct (cow_flag a) eqn:Ec.
    + unfold handle_cow_page_fault. fold v. change (st_areas (get_st w vs)) with (areas vs). change (st_pt (get_st w vs)) with (page_table vs). rewrite Htr. cbn [pte_acc].
      destruct (acc_w f) eqn:Ew; [eexists; split; [done|]; by eapply Hent|]. rewrite Hi, Hla, Hp. destruct Hres as [[q Hq] _]. rewrite Hq.
      case_if; (eexists; split; [done|]; eapply Hent; [cbn -[alter]; by rewrite lookup_alter_eq, Hf|done]).
    + rewrite Hb, andb_false_r. unfold handle_unalloc_page_fault. fold v. change (st_areas (get_st w vs)) with (areas vs). change (st_pt (get_st w vs)) with (page_table vs).
      rewrite Hi, Hla, Hf, Hp. eexists. split; [done|]. cbn [pte_acc]. case_bool_decide as E; [eapply Hent; [exact Hf|by rewrite E]|].
      eapply Hent; [cbn -[set_pte_flags]; rewrite set_flags_lookup, bool_decide_eq_true_2, Hf by done; done|done].
Qed.

Lemma not_file_backed access xr : data_frames a !! v = None -> (is_Some (map_file a) -> mmap_or_elf (area_type a) = false) ->
  handle_file_backed_page_fault_current env va access xr (get_st w vs) = None /\ translate (page_table vs) v = None.
Proof.
  intros Hn Hf. pose proof (Hw s vs Hs) as [Hvm _ _ _].
  assert (Htr : translate (page_table vs) v = None).
  { destruct (translate (page_table vs) v) as [e|] eqn:E; [|done]. apply (vo_mapped _ Hvm) in E. unfold resident in E. rewrite Ha in E. cbn in E. congruence. }
  split; [|done]. unfold handle_file_backed_page_fault_current, handle_shared_file_write_fault_current, file_backed_fault_snapshot. fold v.
  change (st_areas (get_st w vs)) with (areas vs). change (st_pt (get_st w vs)) with (page_table vs). rewrite Htr. cbn [mbind option_bind]. rewrite progress_find. cbn [mbind option_bind].
  assert ((if bool_decide (access = Write) then None else None : option (FaultSt * option PageFaultError)) = None) as -> by (by case_if).
  destruct (map_file a) as [f|]; [|done]. cbn [mbind option_bind]. by rewrite Hf.
Qed.

Lemma page_fault_progress access : access_bit (map_perm a) access = true -> entry_allows (page_table vs) v access = false ->
  exists st', handle_page_fault env (strong_count w) va access (get_st w vs) = Some (st', Some Normal) /\ entry_allows (page_table (fs_vs st')) v access = true.
Proof.
  intros Hb Hd. destruct (data_frames a !! v) as [p|] eqn:Ep.
  { destruct access; [|by eapply store_resident|]; exfalso; destruct (resident_entry p Ep) as (f & Hf & F1 & F2 & _); cbn in Hb.
    - rewrite Hb in F1. by rewrite (entry_allows_Some _ _ _ _ Read Hf) in Hd by auto.
    - by rewrite (entry_allows_Some _ _ _ _ Execute Hf) in Hd by auto. }
  destruct (decide (is_Some (map_file a) /\ mmap_or_elf (area_type a) = true)) as [[H1 H2]|Hnf].
  { assert (Hfp : forall xr, exists st', handle_file_backed_page_fault_current env va access xr (get_st w vs) = Some (st', Some Normal) /\ entry_allows (page_table (fs_vs st')) v access = true) by (intros; by apply file_progress).
    destruct access; cbn [handle_page_fault]; unfold handle_load_page_fault, handle_store_page_fault, handle_instruction_page_fault;
      [destruct (Hfp true) as (st' & -> & H)|destruct (Hfp false) as (st' & -> & H)..]; by exists st'. }
  assert (Hf : is_Some (map_file a) -> mmap_or_elf (area_type a) = false) by (intros H; destruct (mmap_or_elf (area_type a)) eqn:E; [by destruct Hnf|done]).
  destruct (unalloc_progress access Hb Ep Hf) as (st' & Hu & He). exists st'. split; [|done].
  destruct access; cbn [handle_page_fault]; unfold handle_load_page_fault, handle_store_page_fault, handle_instruction_page_fault; fold v.
  - destruct (not_file_backed Read true Ep Hf) as [-> _]. change (st_areas (get_st w vs)) with (areas vs). rewrite progress_find. cbn in Hb. rewrite Hb, Hu. done.
  - destruct (not_file_backed Write false Ep Hf) as [-> Htr]. change (st_areas (get_st w vs)) with (areas vs). change (st_pt (get_st w vs)) with (page_table vs).
    rewrite progress_find, Htr. cbn in Hb. rewrite Hb, Hu. done.
  - destruct (not_file_backed Execute false Ep Hf) as [-> Htr]. change (st_pt (get_st w vs)) with (page_table vs). rewrite Htr, Hu. done.
Qed.

(** ** The same for the kernel *)

Lemma kernel_store_eq : USER_FIRST <= va <= USER_LAST -> acc_w (map_perm a) = true ->
  fault_current_user_page env (strong_count w) va Write (get_st w vs) = handle_store_page_fault env (strong_count w) va (get_st w vs).
Proof.
  intros Hu Hb. unfold fault_current_user_page, handle_store_page_fault, handle_store_page_fault_set. rewrite (proj2 (Z.ltb_ge _ _)), (proj2 (Z.ltb_ge _ _)) by lia. cbn [orb].
  destruct (handle_file_backed_page_fault_current _ _ _ _ _); [done|]. change (st_areas (get_st w vs)) with (areas vs). rewrite progress_find, Hb. cbn [negb].
  destruct (cow_flag a), (translate _ _); rewrite ?andb_false_r; done.
Qed.

Lemma kernel_fault_progress access : access <> Execute -> USER_FIRST <= va <= USER_LAST -> access_bit (map_perm a) access = true -> entry_allows (page_table vs) v access = false ->
  exists st', fault_current_user_page env (strong_count w) va access (get_st w vs) = Some (st', Some Normal) /\ entry_allows (page_table (fs_vs st')) v access = true.
Proof.
  intros Hx Hu Hb Hd. destruct access; [|rewrite kernel_store_eq by done; by apply (page_fault_progress Write)|done].
  destruct (data_frames a !! v) as [p|] eqn:Ep.
  { exfalso. destruct (resident_entry p Ep) as (f & Hf & F1 & _). cbn in Hb. rewrite Hb in F1. by rewrite (entry_allows_Some _ _ _ _ Read Hf) in Hd by auto. }
  unfold fault_current_user_page, handle_store_page_fault_set. rewrite (proj2 (Z.ltb_ge _ _)), (proj2 (Z.ltb_ge _ _)) by lia. cbn [orb].
  destruct (decide (is_Some (map_file a) /\ mmap_or_elf (area_type a) = true)) as [[H1 H2]|Hnf]; [destruct (file_progress Read false) as (st' & -> & H); try done; by exists st'|].
  assert (Hf : is_Some (map_file a) -> mmap_or_elf (area_type a) = false) by (intros H; destruct (mmap_or_elf (area_type a)) eqn:E; [by destruct Hnf|done]).
  destruct (not_file_backed Read false Ep Hf) as [-> _]. change (st_areas (get_st w vs)) with (areas vs). rewrite progress_find. cbn in Hb. rewrite Hb.
  destruct (unalloc_progress Read Hb Ep Hf) as (st' & -> & He). by exists st'.
Qed.
End Progress.
