(* ===== verification/VmFork.v ===== *)
(** * Virtual memory: fork

    The areas of the child, its page table and its memory, area by area. *)

From Stdlib Require Import Sorted.
From stdpp Require Import gmap functions.
From S2P Require Import Prelude SysErr FrameAlloc Vm VmSpec VmSys VmMap VmProt VmProtSpec VmFault VmWorld VmCow VmFaultSpec.

Implicit Types a b : UserMapArea.
Implicit Types l : list UserMapArea.
Implicit Types vs : UserVMSet.
Implicit Types w : VmWorld.
Implicit Types pt : PageTable.

(** Areas whose frames both processes keep, read-only where they are private. *)
Definition cow_area a : bool := negb (direct_clone (area_type a)) && negb (shared_area a).

(** The area after the fork, in the parent and, but for the frames, in the child. *)
Definition fork_parent a : UserMapArea := if cow_area a && acc_w (map_perm a) then set_cow true a else a.

Definition forked a b : Prop := exists m, b = set_frames m (fork_parent a) /\ (direct_clone (area_type a) = false -> m = data_frames a) /\
  (direct_clone (area_type a) = true -> lazy_flag a || cow_flag a = false -> forall v, in_area a v = true -> is_Some (m !! v)).

(** The flags of the child's pages. *)
Definition child_flags b : Access :=
  pte_flags (if negb (cow_area b) then initial_mapping_flags b else if cow_flag b then cow_mapping_flags (map_perm b) else mapping_flags (map_perm b)).
Definition parent_flags a : Access := pte_flags (if acc_w (map_perm a) then cow_mapping_flags (map_perm a) else mapping_flags (map_perm a)).

Definition table_of l (v : Z) : option PTE :=
  match area_at l v with Some b => option_map (fun p => mkPTE p (child_flags b)) (data_frames b !! v) | None => None end.
Definition protected l pt (v : Z) : option PTE :=
  match area_at l v with
  | Some a => if cow_area a && bool_decide (is_Some (data_frames a !! v)) then option_map (fun e => mkPTE (pte_ppn e) (parent_flags a)) (pt !! v) else pt !! v
  | None => pt !! v
  end.

(** ** Pages of one area *)

Lemma insert_sorted_last l a : areas_ok l -> area_ok a -> Forall (fun b => before b a) l -> insert_area_sorted a l = Some (l ++ [a]).
Proof.
  intros Hl Ha Hb. destruct (insert_index_split l a Hl Ha) as [_ H2]; [eapply Forall_impl; [exact Hb|]; by right|].
  unfold insert_area_sorted. rewrite (area_ok_user a Ha). unfold vec_insert. set (k := area_insert_index _ _) in *.
  assert (Hd : drop k l = []).
  { destruct (drop k l) as [|b r] eqn:E; [done|]. exfalso. inversion H2 as [|? ? H3]; subst. assert (Hbl : b ∈ l) by (rewrite <- (take_drop k l), E; set_solver).
    rewrite Forall_forall in Hb. specialize (Hb b Hbl). pose proof (area_ok_vpn a Ha). pose proof (area_ok_vpn b (areas_ok_in _ _ Hl Hbl)). unfold before in *. lia. }
  rewrite Hd. rewrite <- (take_drop k l) at 2. by rewrite Hd, app_nil_r.
Qed.

Lemma map_frames_lookup (m : gmap Z Z) f pt v : map_frames m f pt !! v = match m !! v with Some p => Some (mkPTE p (pte_flags f)) | None => pt !! v end.
Proof.
  unfold map_frames. assert (Hk : NoDup (map_to_list m).*1) by apply NoDup_fst_map_to_list.
  assert (Hm : m !! v = (list_to_map (map_to_list m) : gmap Z Z) !! v) by (by rewrite list_to_map_to_list). rewrite Hm. clear Hm.
  revert pt Hk. induction (map_to_list m) as [|[u p] kvs IH]; intros pt Hk; [done|]. cbn [fold_left fmap list_fmap fst snd] in *. apply NoDup_cons in Hk as [Hu Hk].
  rewrite IH by done. cbn [list_to_map foldr]. destruct (decide (u = v)) as [-> |Hne].
  - rewrite not_elem_of_list_to_map_1 by done. cbn. unfold map_page. by rewrite !lookup_insert_eq.
  - cbn. unfold map_page. by rewrite !lookup_insert_ne by done.
Qed.

Lemma protect_frames_lookup (m : gmap Z Z) f pt v : protect_frames m f pt !! v = if bool_decide (is_Some (m !! v)) then option_map (fun e => mkPTE (pte_ppn e) f) (pt !! v) else pt !! v.
Proof.
  unfold protect_frames. assert (Hm : bool_decide (is_Some (m !! v)) = bool_decide (v ∈ (map_to_list m).*1)).
  { apply bool_decide_ext. rewrite list_elem_of_fmap. split; [intros [p Hp]; exists (v, p); by rewrite elem_of_map_to_list|].
    intros ([u p] & -> & H%elem_of_map_to_list). by exists p. }
  rewrite Hm. clear Hm. revert pt. induction (map_to_list m).*1 as [|u us IH]; intros pt; cbn [fold_left].
  { by rewrite (bool_decide_eq_false_2 _ (not_elem_of_nil v)). }
  rewrite IH, set_flags_lookup. destruct (decide (v = u)) as [-> |Hne].
  - rewrite (bool_decide_eq_true_2 (u = u)), (bool_decide_eq_true_2 (u ∈ u :: us)) by (done || left). case_bool_decide; [|done]. by destruct (pt !! u).
  - rewrite (bool_decide_eq_false_2 (v = u)) by done. assert (bool_decide (v ∈ u :: us) = bool_decide (v ∈ us)) as -> by (apply bool_decide_ext; set_solver). done.
Qed.

(** What the child reads in a page of its own. *)
Definition cloned_bytes pt (f : Access) (mem : Z -> bytes) (v : Z) : bytes :=
  match translate pt v with Some e => if is_table (mkPTE 0 (pte_flags f)) then zero_page else mem (pte_ppn e) | None => zero_page end.

Lemma clone_pages_spec ppt f vpns supply m pt mem :
  NoDup vpns -> (length vpns <= length supply)%nat -> NoDup supply -> (forall v e, translate ppt v = Some e -> pte_ppn e ∉ supply) ->
  exists m' pt' mem' used rest, clone_pages ppt f vpns supply m pt mem = Some (m', pt', mem', rest) /\ supply = used ++ rest /\ length used = length vpns /\
    (forall v, v ∉ vpns -> m' !! v = m !! v) /\
    (forall v, v ∈ vpns -> exists q, m' !! v = Some q /\ q ∈ used /\ mem' q = cloned_bytes ppt f mem v) /\
    (forall v1 v2 q, v1 ∈ vpns -> v2 ∈ vpns -> m' !! v1 = Some q -> m' !! v2 = Some q -> v1 = v2) /\
    (forall v, pt' !! v = if bool_decide (v ∈ vpns) then option_map (fun q => mkPTE q (pte_flags f)) (m' !! v) else pt !! v) /\
    (forall q, q ∉ used -> mem' q = mem q).
Proof.
  revert supply m pt mem. induction vpns as [|x vpns IH]; intros supply m pt mem Hnd Hlen Hns Hpp; cbn [clone_pages].
  { exists m, pt, mem, [], supply. split_and!; try done; intros; by match goal with H : _ ∈ [] |- _ => apply not_elem_of_nil in H end. }
  destruct supply as [|p supply]; [cbn in Hlen; lia|]. apply NoDup_cons in Hnd as [Hx Hnd]. apply NoDup_cons in Hns as [Hp Hns]. cbn in Hlen.
  cbv zeta. set (bs := match translate ppt x with Some _ => _ | None => _ end).
  assert (Ebs : bs = cloned_bytes ppt f mem x).
  { subst bs. unfold cloned_bytes. destruct (translate ppt x); [|done]. unfold translate, map_page. rewrite lookup_insert_eq. unfold is_table. cbn. by destruct (negb _). }
  destruct (IH supply (<[x := p]> m) (map_page pt x p f) (<[p := bs]> mem) Hnd ltac:(lia) Hns) as (m' & pt' & mem' & used & rest & -> & -> & Hul & M1 & M2 & M3 & M4 & M5).
  { intros v e H. specialize (Hpp v e H). set_solver. }
  assert (Hcb : forall v, cloned_bytes ppt f (<[p := bs]> mem) v = cloned_bytes ppt f mem v).
  { intros v. unfold cloned_bytes. destruct (translate ppt v) as [e|] eqn:Et; [|done]. destruct (is_table _); [done|]. specialize (Hpp v e Et). rewrite fn_lookup_insert_ne; [done|set_solver]. }
  assert (Hpu : p ∉ used) by set_solver. assert (Hmx : m' !! x = Some p) by (by rewrite M1, lookup_insert_eq).
  exists m', pt', mem', (p :: used), rest. split_and!; try done; [cbn; lia|..].
  - intros v Hv. rewrite M1 by set_solver. rewrite lookup_insert_ne; [done|set_solver].
  - intros v [-> | Hv]%elem_of_cons.
    + exists p. split_and!; [done|left|]. by rewrite M5, fn_lookup_insert, Ebs.
    + destruct (M2 v Hv) as (q & ? & ? & ?). exists q. split_and!; [done|by right|]. by rewrite <- Hcb.
  - assert (Hd : forall v q, v ∈ vpns -> m' !! v = Some q -> q <> p) by (intros v q Hv Hq ->; destruct (M2 v Hv) as (q' & ? & ? & _); congruence).
    intros v1 v2 q [-> | H1]%elem_of_cons [-> | H2]%elem_of_cons E1 E2; [done|..]; [..|by apply (M3 v1 v2 q)].
    + assert (q = p) by congruence. by destruct (Hd v2 q H2 E2).
    + assert (q = p) by congruence. by destruct (Hd v1 q H1 E1).
  - intros v. rewrite M4. destruct (decide (v = x)) as [-> |Hne].
    + rewrite (bool_decide_eq_false_2 (x ∈ vpns)), (bool_decide_eq_true_2 (x ∈ x :: vpns)) by (done || left). unfold map_page. by rewrite lookup_insert_eq, Hmx.
    + assert (bool_decide (v ∈ x :: vpns) = bool_decide (v ∈ vpns)) as -> by (apply bool_decide_ext; set_solver). unfold map_page. by rewrite lookup_insert_ne.
  - intros q Hq. rewrite M5 by set_solver. rewrite fn_lookup_insert_ne; [done|set_solver].
Qed.

(** ** Area by area *)

Definition clone_range a : list Z := if lazy_flag a || cow_flag a then [] else vpn_range (start_vpn a) (end_vpn a).
(** The frames the child needs for pages of its own. *)
Definition fork_need a : nat := if direct_clone (area_type a) then length (clone_range a) else 0.

Section Fork.
Context (vs : UserVMSet) (supply : list Z) (mem : Z -> bytes).
Context (Hok : areas_ok (areas vs)) (Hnd : NoDup supply) (Hpp : forall v e, translate (page_table vs) v = Some e -> pte_ppn e ∉ supply).

(** What holds when the areas [l] of the parent have been copied. *)
Record fork_inv l (k : ForkSt) (used : list Z) : Prop := {
  fi_parent : fk_parent k = map fork_parent l;
  fi_ppt : forall v, fk_parent_pt k !! v = protected l (page_table vs) v;
  fi_child : Forall2 forked l (areas (fk_child k));
  fi_ok : areas_ok (areas (fk_child k));
  fi_pt : forall v, page_table (fk_child k) !! v = table_of (areas (fk_child k)) v;
  fi_own : forall b v q, b ∈ areas (fk_child k) -> direct_clone (area_type b) = true -> data_frames b !! v = Some q ->
    q ∈ used /\ fk_mem k q = cloned_bytes (page_table vs) (initial_mapping_flags b) mem v;
  fi_inj : forall b1 b2 v1 v2 q, b1 ∈ areas (fk_child k) -> b2 ∈ areas (fk_child k) -> direct_clone (area_type b1) = true -> direct_clone (area_type b2) = true ->
    data_frames b1 !! v1 = Some q -> data_frames b2 !! v2 = Some q -> v1 = v2;
  fi_mem : forall q, q ∉ used -> fk_mem k q = mem q;
  fi_supply : supply = used ++ fk_supply k }.

Lemma forked_bounds a b : forked a b -> start_vpn b = start_vpn a /\ end_vpn b = end_vpn a /\ area_type b = area_type a.
Proof. intros (m & -> & _). unfold fork_parent. by case_if. Qed.

Lemma forked_before l lc a : Forall2 forked l lc -> Forall (fun b => before b a) l -> Forall (fun b => before b a) lc.
Proof.
  intros H. induction H as [|x y l lc Hxy H IH]; intros Hf; [done|]. inversion Hf; subst. constructor; [|by apply IH]. unfold before in *.
  by destruct (forked_bounds x y Hxy) as (_ & -> & _).
Qed.

Lemma table_of_snoc l b v : Forall (fun c => before c b) l -> areas_ok l -> table_of (l ++ [b]) v =
  if in_area b v then option_map (fun p => mkPTE p (child_flags b)) (data_frames b !! v) else table_of l v.
Proof.
  intros Hb Hl. unfold table_of. rewrite area_at_app. destruct (area_at l v) as [c|] eqn:E.
  - apply area_at_Some in E as [Hc Hv]. rewrite Forall_forall in Hb. specialize (Hb c Hc). unfold before in Hb.
    by rewrite (proj2 (in_area_false b v)) by lia.
  - cbn. by destruct (in_area b v).
Qed.

Lemma protected_snoc l a pt v : Forall (fun c => before c a) l -> protected (l ++ [a]) pt v =
  if in_area a v then if cow_area a && bool_decide (is_Some (data_frames a !! v)) then option_map (fun e => mkPTE (pte_ppn e) (parent_flags a)) (pt !! v) else pt !! v
  else protected l pt v.
Proof.
  intros Hb. unfold protected. rewrite area_at_app. destruct (area_at l v) as [c|] eqn:E.
  - apply area_at_Some in E as [Hc Hv]. rewrite Forall_forall in Hb. specialize (Hb c Hc). unfold before in Hb.
    by rewrite (proj2 (in_area_false a v)) by lia.
  - cbn. by destruct (in_area a v).
Qed.

Lemma table_of_before l b v : Forall (fun c => before c b) l -> in_area b v = true -> table_of l v = None.
Proof.
  intros Hb Hv%in_area_spec. unfold table_of. destruct (area_at l v) as [c|] eqn:E; [|done]. apply area_at_Some in E as [Hc Hin].
  rewrite Forall_forall in Hb. specialize (Hb c Hc). unfold before in Hb. lia.
Qed.

Lemma protected_before l a pt v : Forall (fun c => before c a) l -> in_area a v = true -> protected l pt v = pt !! v.
Proof.
  intros Hb Hv%in_area_spec. unfold protected. destruct (area_at l v) as [c|] eqn:E; [|done]. apply area_at_Some in E as [Hc Hin].
  rewrite Forall_forall in Hb. specialize (Hb c Hc). unfold before in Hb. lia.
Qed.

Lemma fork_frames_ok a m : area_ok a -> (forall v q, m !! v = Some q -> in_area a v = true) -> area_ok (set_frames m (fork_parent a)).
Proof. intros [A1 A2 A3 A4 A5] Hm. unfold fork_parent. case_if; split; try done; intros v q; cbn; apply Hm. Qed.

(** The child's and the parent's side of one more area. *)
Lemma fork_inv_snoc l k used a m pt ppt mem' used' supply' : fork_inv l k used -> area_ok a -> Forall (fun b => before b a) l ->
  forked a (set_frames m (fork_parent a)) -> (forall v q, m !! v = Some q -> in_area a v = true) ->
  (forall v, ppt !! v = if cow_area a && bool_decide (is_Some (data_frames a !! v)) then option_map (fun e => mkPTE (pte_ppn e) (parent_flags a)) (fk_parent_pt k !! v) else fk_parent_pt k !! v) ->
  (forall v, pt !! v = match m !! v with Some p => Some (mkPTE p (child_flags (fork_parent a))) | None => page_table (fk_child k) !! v end) ->
  (direct_clone (area_type a) = true -> forall v q, m !! v = Some q -> q ∈ used' /\ mem' q = cloned_bytes (page_table vs) (initial_mapping_flags a) mem v) ->
  (direct_clone (area_type a) = true -> forall v1 v2 q, m !! v1 = Some q -> m !! v2 = Some q -> v1 = v2) ->
  (forall q, q ∉ used' -> mem' q = fk_mem k q) -> fk_supply k = used' ++ supply' ->
  fork_inv (l ++ [a]) (mkFork (fk_parent k ++ [fork_parent a]) ppt (mkVM pt (areas (fk_child k) ++ [set_frames m (fork_parent a)])) mem' supply') (used ++ used').
Proof.
  intros [F1 F2 F3 F4 F5 F6 F7 F8 F9] Ha Hb Hfk Hm Hppt Hpt Hown Hinj Hmem Hsup. set (b := set_frames m (fork_parent a)).
  destruct (forked_bounds a b Hfk) as (Bs & Be & Bt). assert (Hin : forall v, in_area b v = in_area a v) by (intros v; unfold in_area; by rewrite Bs, Be).
  assert (Hbb : Forall (fun c => before c b) (areas (fk_child k))).
  { eapply Forall_impl; [eapply forked_before; [exact F3|exact Hb]|]. intros c. unfold before. by rewrite Bs. }
  assert (Hdis : forall q, q ∈ used -> q ∉ used') by (intros q H1 H2; rewrite F9, Hsup in Hnd; apply NoDup_app in Hnd as (_ & Hd & _); specialize (Hd q H1); set_solver).
  assert (Hcl : direct_clone (area_type a) = true -> fork_parent a = a) by (intros H; unfold fork_parent, cow_area; by rewrite H).
  split; cbn [fk_parent fk_parent_pt fk_child fk_mem fk_supply areas page_table].
  - by rewrite F1, map_app.
  - intros v. rewrite protected_snoc, Hppt by done. destruct (in_area a v) eqn:Ev.
    + rewrite F2, (protected_before l a) by done. done.
    + rewrite (bool_decide_eq_false_2 (is_Some _)), andb_false_r; [apply F2|]. intros [q Hq]. apply (ao_frames a Ha) in Hq. congruence.
  - apply Forall2_app; [done|]. by constructor.
  - apply areas_ok_app. split_and!; [done|apply areas_ok_one; by apply fork_frames_ok|]. intros x y Hx Hy%list_elem_of_singleton. subst y. rewrite Forall_forall in Hbb. by apply Hbb.
  - intros v. rewrite table_of_snoc, Hpt, Hin by done. destruct (in_area a v) eqn:Ev.
    + cbn. destruct (m !! v); [done|]. cbn. rewrite F5. apply (table_of_before _ b); [done|by rewrite Hin].
    + destruct (m !! v) eqn:Em; [apply Hm in Em; congruence|apply F5].
  - intros c v q Hc Hcc Hq. apply elem_of_app in Hc as [Hc|Hc%list_elem_of_singleton].
    + destruct (F6 c v q Hc Hcc Hq) as [H1 H2]. split; [set_solver|]. by rewrite Hmem by auto.
    + subst c. rewrite Bt in Hcc. cbn in Hq. destruct (Hown Hcc v q Hq) as [H1 H2]. split; [set_solver|]. rewrite H2. subst b. by rewrite Hcl.
  - intros b1 b2 v1 v2 q H1 H2 C1 C2 Q1 Q2. apply elem_of_app in H1 as [H1|H1%list_elem_of_singleton], H2 as [H2|H2%list_elem_of_singleton].
    + by apply (F7 b1 b2 v1 v2 q).
    + subst b2. rewrite Bt in C2. destruct (F6 b1 v1 q H1 C1 Q1) as [U1 _]. destruct (Hown C2 v2 q Q2) as [U2 _]. by destruct (Hdis q U1).
    + subst b1. rewrite Bt in C1. destruct (F6 b2 v2 q H2 C2 Q2) as [U1 _]. destruct (Hown C1 v1 q Q1) as [U2 _]. by destruct (Hdis q U1).
    + subst b1 b2. rewrite Bt in C1. by apply (Hinj C1 v1 v2 q).
  - intros q Hq. rewrite Hmem by set_solver. apply F8. set_solver.
  - by rewrite F9, Hsup, (assoc_L app).
Qed.

Lemma clone_range_in a v : v ∈ clone_range a <-> lazy_flag a || cow_flag a = false /\ in_area a v = true.
Proof. unfold clone_range. destruct (lazy_flag a || cow_flag a); [split; [by intros H%not_elem_of_nil|by intros [? _]]|]. rewrite in_vpn_range, in_area_spec. tauto. Qed.

Lemma fork_insert l k used a m : fork_inv l k used -> area_ok a -> Forall (fun b => before b a) l -> (forall v q, m !! v = Some q -> in_area a v = true) ->
  insert_area_sorted (set_frames m (fork_parent a)) (areas (fk_child k)) = Some (areas (fk_child k) ++ [set_frames m (fork_parent a)]).
Proof.
  intros [F1 F2 F3 F4 F5 F6 F7 F8 F9] Ha Hb Hm. apply insert_sorted_last; [done|by apply fork_frames_ok|]. eapply Forall_impl; [eapply forked_before; [exact F3|exact Hb]|].
  intros c. unfold before, fork_parent. by case_if.
Qed.

(** An area whose pages are copied. *)
Lemma fork_clone_step l k used a : fork_inv l k used -> area_ok a -> Forall (fun b => before b a) l -> direct_clone (area_type a) = true -> (fork_need a <= length (fk_supply k))%nat ->
  exists k' used', fork_area (page_table vs) k a = Some k' /\ fork_inv (l ++ [a]) k' (used ++ used') /\ length used' = fork_need a.
Proof.
  intros Hi Ha Hb Ec Hn. pose proof Hi as [F1 F2 F3 F4 F5 F6 F7 F8 F9]. pose proof (fun m => fork_insert l k used a m Hi Ha Hb) as Hlast.
  unfold fork_area. rewrite Ec.
  rewrite (area_ok_user a Ha). cbn [negb]. fold (clone_range a). unfold fork_need in *. rewrite Ec in *.
  assert (Hfp : fork_parent a = a) by (unfold fork_parent, cow_area; by rewrite Ec).
  destruct (clone_pages_spec (page_table vs) (initial_mapping_flags a) (clone_range a) (fk_supply k) ∅ (page_table (fk_child k)) (fk_mem k))
    as (m & pt & mem' & used' & rest & E & Esup & Elen & M1 & M2 & M3 & M4 & M5).
  { unfold clone_range. case_if; [constructor|apply NoDup_seqZ]. }
  { done. }
  { rewrite F9 in Hnd. apply NoDup_app in Hnd. apply Hnd. }
  { intros v e He. specialize (Hpp v e He). rewrite F9 in Hpp. set_solver. }
  rewrite E. cbn [mbind option_bind].
  assert (Hm : forall v q, m !! v = Some q -> v ∈ clone_range a).
  { intros v q Hq. destruct (decide (v ∈ clone_range a)) as [|Hne]; [done|]. by rewrite M1 in Hq. }
  assert (Hm' : forall v q, m !! v = Some q -> in_area a v = true) by (intros v q Hq; apply Hm, clone_range_in in Hq; apply Hq).
  specialize (Hlast m Hm'). rewrite Hfp in Hlast. rewrite Hlast. cbn [mbind option_bind]. eexists _, used'. split; [done|]. split; [|done].
  rewrite <- Hfp at 2 3. apply fork_inv_snoc; try done; rewrite ?Hfp.
  - exists m. split_and!; [by rewrite Hfp|congruence|]. intros _ Hlz v Hv. destruct (M2 v) as (q & Hq & _); [by apply clone_range_in|by exists q].
  - intros v. unfold cow_area. by rewrite Ec.
  - intros v. rewrite M4. unfold child_flags, cow_area. rewrite Ec. cbn [negb andb]. case_bool_decide as E1.
    + destruct (M2 v E1) as (q & -> & _). done.
    + destruct (m !! v) eqn:Em; [by apply Hm in Em|done].
  - intros _ v q Hq. destruct (M2 v (Hm v q Hq)) as (q' & Hq' & Hu & Hb'). assert (q' = q) as -> by congruence. split; [done|]. rewrite Hb'.
    unfold cloned_bytes. destruct (translate (page_table vs) v) as [e|] eqn:Et; [|done]. destruct (is_table _); [done|]. apply F8. specialize (Hpp v e Et).
    rewrite F9 in Hpp. set_solver.
  - intros _ v1 v2 q H1 H2. apply (M3 v1 v2 q); eauto.
Qed.

(** An area whose frames are shared. *)
Lemma fork_share_step l k used a : fork_inv l k used -> area_ok a -> Forall (fun b => before b a) l -> direct_clone (area_type a) = false -> (fork_need a <= length (fk_supply k))%nat ->
  exists k' used', fork_area (page_table vs) k a = Some k' /\ fork_inv (l ++ [a]) k' (used ++ used') /\ length used' = fork_need a.
Proof.
  intros Hi Ha Hb Ec Hn. pose proof Hi as [F1 F2 F3 F4 F5 F6 F7 F8 F9]. pose proof (fun m => fork_insert l k used a m Hi Ha Hb) as Hlast.
  unfold fork_area. rewrite Ec.
  exists (mkFork (fk_parent k ++ [fork_parent a]) (if cow_area a then protect_frames (data_frames a) (parent_flags a) (fk_parent_pt k) else fk_parent_pt k)
    (mkVM (map_frames (data_frames a) (if negb (cow_area a) then initial_mapping_flags a else if cow_flag (fork_parent a) then cow_mapping_flags (map_perm a) else mapping_flags (map_perm a)) (page_table (fk_child k)))
      (areas (fk_child k) ++ [set_frames (data_frames a) (fork_parent a)])) (fk_mem k) (fk_supply k)), [].
  assert (Hself : set_frames (data_frames a) (fork_parent a) = fork_parent a) by (unfold fork_parent; case_if; by destruct a).
  split_and!; [| |by unfold fork_need; rewrite Ec].
  - pose proof (Hlast (data_frames a) (ao_frames a Ha)) as Hl. rewrite Hself in Hl |- *. unfold fork_parent, cow_area in *. rewrite Ec in *. cbn [negb andb] in *.
    destruct (shared_area a); cbn [negb andb] in *; [by rewrite Hl|]. unfold parent_flags. rewrite Hl. done.
  - apply (fork_inv_snoc l k used a (data_frames a)); try done.
    + exists (data_frames a). by rewrite Ec.
    + apply (ao_frames a Ha).
    + intros v. destruct (cow_area a); [apply protect_frames_lookup|done].
    + intros v. rewrite map_frames_lookup. unfold child_flags. destruct (data_frames a !! v); [|done]. do 2 f_equal. unfold fork_parent.
      destruct (cow_area a && acc_w (map_perm a)) eqn:Ew; done.
    + congruence.
    + congruence.
Qed.

Lemma fork_area_step l k used a : fork_inv l k used -> area_ok a -> Forall (fun b => before b a) l -> (fork_need a <= length (fk_supply k))%nat ->
  exists k' used', fork_area (page_table vs) k a = Some k' /\ fork_inv (l ++ [a]) k' (used ++ used') /\ length used' = fork_need a.
Proof. intros. destruct (direct_clone (area_type a)) eqn:Ec; [by apply fork_clone_step|by apply fork_share_step]. Qed.

Definition fork_needs l : nat := foldr (fun a n => fork_need a + n)%nat 0%nat l.

Lemma fork_areas_spec l2 l1 k used : areas vs = l1 ++ l2 -> fork_inv l1 k used -> (fork_needs l2 <= length (fk_supply k))%nat ->
  exists k' used', fold_left (fun ok a => k0 ← ok; fork_area (page_table vs) k0 a) l2 (Some k) = Some k' /\ fork_inv (areas vs) k' used'.
Proof.
  revert l1 k used. induction l2 as [|a l2 IH]; intros l1 k used El Hi Hn; cbn [fold_left].
  { rewrite app_nil_r in El. rewrite El. eauto. }
  assert (Hfr : area_ok a /\ Forall (fun b => before b a) l1).
  { pose proof Hok as Ho. rewrite El in Ho. apply areas_ok_app in Ho as (_ & Ho2 & Ho3). apply areas_ok_cons in Ho2 as (? & _). split; [done|].
    apply Forall_forall. intros b Hb. apply Ho3; [done|left]. }
  destruct Hfr as [Ha Hb]. change (fork_needs (a :: l2)) with (fork_need a + fork_needs l2)%nat in Hn. destruct (fork_area_step l1 k used a Hi Ha Hb ltac:(lia)) as (k1 & used1 & E1 & Hi1 & Hl1).
  cbn [mbind option_bind]. rewrite E1. apply (IH (l1 ++ [a]) k1 (used ++ used1)); [by rewrite <- (assoc_L app)|done|].
  pose proof (fi_supply _ _ _ Hi) as S0. pose proof (fi_supply _ _ _ Hi1) as S1. rewrite S1, <- (assoc_L app) in S0. apply app_inv_head in S0.
  rewrite <- S0, length_app in Hn. lia.
Qed.

Lemma fork_spec : (fork_needs (areas vs) <= length supply)%nat -> exists k used, fork_inv (areas vs) k used /\
  from_existed_user_cow vs mem supply = Some (mkVM (fk_parent_pt k) (fk_parent k), fk_child k, fk_mem k).
Proof.
  intros Hn. destruct (fork_areas_spec (areas vs) [] (mkFork [] (page_table vs) (mkVM ∅ []) mem supply) []) as (k & used & E & Hi); [done| |done|].
  { split; try done; try apply areas_ok_nil; cbn; intros; by match goal with H : _ ∈ [] |- _ => apply not_elem_of_nil in H end. }
  exists k, used. split; [done|]. unfold from_existed_user_cow. rewrite E. done.
Qed.
End Fork.
