(* ===== verification/VmForkSpec.v ===== *)
(** * Virtual memory: fork keeps the invariant

    The two address spaces after a fork, page by page, and the reference counts. *)

From Stdlib Require Import Sorted.
From stdpp Require Import gmap functions.
From S2P Require Import Prelude SysErr FrameAlloc Vm VmSpec VmSys VmMap VmProt VmProtSpec VmFault VmWorld VmCow VmFaultSpec VmFork.

Implicit Types a b : UserMapArea.
Implicit Types l : list UserMapArea.
Implicit Types vs : UserVMSet.
Implicit Types w : VmWorld.

Lemma fork_parent_bounds a : start_vpn (fork_parent a) = start_vpn a /\ end_vpn (fork_parent a) = end_vpn a.
Proof. unfold fork_parent. by case_if. Qed.

Lemma fork_parent_same a : data_frames (fork_parent a) = data_frames a /\ map_perm (fork_parent a) = map_perm a /\ area_type (fork_parent a) = area_type a /\
  shared_area (fork_parent a) = shared_area a /\ cow_area (fork_parent a) = cow_area a.
Proof. unfold fork_parent. by case_if. Qed.

Lemma fork_parent_cow a : cow_area a = true -> acc_w (map_perm a) = true -> cow_flag (fork_parent a) = true.
Proof. intros H1 H2. unfold fork_parent. by rewrite H1, H2. Qed.

Lemma fork_parent_ok a : area_ok a -> area_ok (fork_parent a).
Proof. intros [? ? ? ? ?]. unfold fork_parent. by case_if; split. Qed.

Lemma cow_area_private a : cow_area a = true -> shared_area a = false.
Proof. intros H. apply andb_true_iff in H as [_ H]. by apply negb_true_iff. Qed.

Lemma fork_parent_attr a : attr_ok (attr a) -> attr_ok (attr (fork_parent a)).
Proof.
  intros [K1 K2 K3 K4 K5]. unfold fork_parent. destruct (cow_area a && acc_w (map_perm a)) eqn:E; [|done]. apply andb_true_iff in E as [E1 E2].
  assert (Hd : direct_clone (area_type a) = false) by (apply andb_true_iff in E1 as [E1 _]; by apply negb_true_iff). apply cow_area_private in E1. split; try done.
  - intros _. split; [done|]. rewrite private_attr_area. change (shared_area (set_cow true a)) with (shared_area a). by rewrite E1.
  - intros _. apply K5. by right.
Qed.

Lemma child_flags_ok b v : (cow_flag b = true -> acc_w (map_perm b) = true) -> grants (page_info b v) (child_flags b) /\ serves (page_info b v) (child_flags b).
Proof.
  intros H. unfold grants, serves, child_flags, initial_mapping_flags, pte_flags, cow_mapping_flags, mapping_flags. cbn [page_info pg_perm].
  destruct (cow_area b), (cow_flag b), (tracks_shared_file_dirty b), (map_perm b) as [[] [] [] []]; cbn in *; try done; by specialize (H eq_refl).
Qed.

Lemma child_flags_write b : cow_area b = true -> (acc_w (map_perm b) = true -> cow_flag b = true) -> acc_w (child_flags b) = false.
Proof. intros H1 H2. unfold child_flags. rewrite H1. cbn. destruct (cow_flag b); [done|]. cbn. by destruct (acc_w (map_perm b)); [discriminate H2|]. Qed.

Lemma parent_flags_ok a v : grants (page_info a v) (parent_flags a) /\ serves (page_info a v) (parent_flags a) /\ acc_w (parent_flags a) = false.
Proof.
  unfold grants, serves, parent_flags, pte_flags, cow_mapping_flags, mapping_flags. cbn [page_info pg_perm].
  destruct (map_perm a) as [[] [] [] []]; cbn; done.
Qed.

Lemma forked_at l lc v : Forall2 forked l lc -> option_Forall2 forked (area_at l v) (area_at lc v).
Proof.
  intros H. induction H as [|a b l lc Hab H IH]; [constructor|]. rewrite !area_at_cons. destruct (forked_bounds a b Hab) as (H1 & H2 & _).
  assert (in_area b v = in_area a v) as -> by (unfold in_area; by rewrite H1, H2). destruct (in_area a v); [by constructor|done].
Qed.

Lemma mcount_unique (m : gmap Z Z) v q : m !! v = Some q -> (forall v', m !! v' = Some q -> v' = v) -> mcount m q = 1.
Proof.
  intros Hv Hu. rewrite (mcount_delete m v q q Hv), Z.eqb_refl. pose proof (mcount_nonneg (delete v m) q).
  destruct (Z.lt_trichotomy 0 (mcount (delete v m) q)) as [H1|[H1|H1]]; [|lia|lia].
  apply mcount_pos in H1 as [v' H1]. destruct (decide (v' = v)) as [-> |Hne]; [by rewrite lookup_delete_eq in H1|]. rewrite lookup_delete_ne in H1 by done. by apply Hu in H1.
Qed.

Section ForkWorld.
Context (w : VmWorld) (s c : Z) (vs : UserVMSet) (supply : list Z) (k : ForkSt) (used : list Z).
Context (Hw : world_ok w) (Hs : vw_spaces w !! s = Some vs) (Hc : vw_spaces w !! c = None).
Context (Hnd : NoDup supply) (Hfresh : Forall (fun p => strong_count w p = 0) supply).
Context (Hi : fork_inv vs supply (vw_mem w) (areas vs) k used).

Let parent := mkVM (fk_parent_pt k) (fk_parent k).
Let child := fk_child k.

Definition forked_world : VmWorld := mkVW (<[c := child]> (<[s := parent]> (vw_spaces w))) (vw_backings w) (vw_held w) (fk_mem k).

Lemma fork_areas_ok : areas_ok (areas vs).
Proof. apply (vo_areas _ (sk_vm _ _ (Hw s vs Hs))). Qed.

Lemma fork_parent_at v : area_at (fk_parent k) v = option_map fork_parent (area_at (areas vs) v).
Proof. rewrite (fi_parent _ _ _ _ _ _ Hi). apply area_at_map. apply fork_parent_bounds. Qed.

Lemma fork_parent_resident v : resident (fk_parent k) v = resident (areas vs) v.
Proof. unfold resident. rewrite fork_parent_at. destruct (area_at (areas vs) v) as [a|]; [|done]. cbn. by destruct (fork_parent_same a) as (-> & _). Qed.

Lemma fork_parent_areas_ok : areas_ok (fk_parent k).
Proof. rewrite (fi_parent _ _ _ _ _ _ Hi). apply areas_ok_map; [apply fork_parent_bounds|apply fork_parent_ok|apply fork_areas_ok]. Qed.

(** A page of the child: a copy of its own, or the parent's frame. *)
Lemma fork_child_resident v q : resident (areas child) v = Some q -> exists a b, area_at (areas vs) v = Some a /\ area_at (areas child) v = Some b /\ forked a b /\ data_frames b !! v = Some q /\
  if direct_clone (area_type a) then q ∈ used else data_frames a !! v = Some q.
Proof.
  unfold resident. pose proof (forked_at (areas vs) (areas child) v (fi_child _ _ _ _ _ _ Hi)) as Hf. inversion Hf as [a b Hab E1 E2|]; [|done]. cbn. intros Hq.
  exists a, b. split_and!; try done. destruct (forked_bounds a b Hab) as (_ & _ & Ht). destruct Hab as (m & -> & Hm & _). destruct (direct_clone (area_type a)) eqn:Ec.
  - symmetry in E2. apply area_at_Some in E2 as [Hin _]. rewrite <- Ht in Ec. by apply (fi_own _ _ _ _ _ _ Hi _ v q Hin Ec).
  - cbn in Hq. by rewrite Hm in Hq.
Qed.

Lemma used_fresh q : q ∈ used -> strong_count w q = 0.
Proof. intros H. rewrite Forall_forall in Hfresh. apply Hfresh. rewrite (fi_supply _ _ _ _ _ _ Hi). set_solver. Qed.

Lemma forked_count q : strong_count forked_world q = strong_count w q + mcount (rmap (areas child)) q.
Proof.
  assert (Hcs : c <> s) by congruence. unfold strong_count at 1, forked_world. cbn [vw_spaces vw_backings vw_held]. rewrite count_app, spaces_refs_insert by (by rewrite lookup_insert_ne).
  rewrite space_refs_count by apply (fi_ok _ _ _ _ _ _ Hi). pose proof (put_space_count w s parent (fk_mem k) q fork_parent_areas_ok) as Hp.
  unfold strong_count, put_space in Hp. cbn [vw_spaces vw_backings vw_held] in Hp. rewrite count_app in Hp.
  rewrite (space_count w s vs q Hs fork_areas_ok). assert (rmap (areas parent) = rmap (areas vs)) as E; [|rewrite E in Hp; lia].
  apply map_eq. intros v. cbn. rewrite !rmap_lookup by (apply fork_areas_ok || apply fork_parent_areas_ok). apply fork_parent_resident.
Qed.

(** A frame that no copied area has is not in the child. *)
Lemma child_absent q : 0 < strong_count w q -> (forall v a, area_at (areas vs) v = Some a -> direct_clone (area_type a) = false -> data_frames a !! v <> Some q) ->
  strong_count forked_world q = strong_count w q.
Proof.
  intros Hq Hn. rewrite forked_count. pose proof (mcount_nonneg (rmap (areas child)) q). destruct (Z.eq_dec (mcount (rmap (areas child)) q) 0) as [E|E]; [lia|]. exfalso.
  assert (0 < mcount (rmap (areas child)) q) as [v Hv]%mcount_pos by lia. rewrite rmap_lookup in Hv by apply (fi_ok _ _ _ _ _ _ Hi).
  apply fork_child_resident in Hv as (a & b & Ha & _ & _ & _ & Hcase). destruct (direct_clone (area_type a)) eqn:Ec; [apply used_fresh in Hcase; lia|]. by apply (Hn v a).
Qed.

(** The child's own frames are referenced once. *)
Lemma child_own_count v a b q : area_at (areas vs) v = Some a -> area_at (areas child) v = Some b -> direct_clone (area_type a) = true -> area_type b = area_type a -> data_frames b !! v = Some q -> strong_count forked_world q = 1.
Proof.
  intros Ha Hb Hcl Ht Hq. pose proof (fi_ok _ _ _ _ _ _ Hi) as Hcok. pose proof Hb as [Hin _]%area_at_Some.
  assert (Hu : q ∈ used) by (rewrite <- Ht in Hcl; by apply (fi_own _ _ _ _ _ _ Hi b v q Hin Hcl)).
  rewrite forked_count, (used_fresh q Hu). rewrite (mcount_unique (rmap (areas child)) v q); [done| |].
  - rewrite rmap_lookup by done. unfold resident. fold child in Hb. rewrite Hb. done.
  - intros v' Hv'. rewrite rmap_lookup in Hv' by done. apply fork_child_resident in Hv' as (a' & b' & Ha' & Hb' & Hf' & Hq' & Hcase).
    destruct (direct_clone (area_type a')) eqn:Ec'.
    + apply area_at_Some in Hb' as [Hin' _]. destruct (forked_bounds a' b' Hf') as (_ & _ & Ht'). apply (fi_inj _ _ _ _ _ _ Hi b' b v' v q); done || congruence.
    + exfalso. pose proof (used_fresh q Hu). assert (Hr : resident (areas vs) v' = Some q) by (unfold resident; by rewrite Ha').
      pose proof (resident_count w s vs v' q Hs fork_areas_ok Hr). pose proof (others_nonneg w s q). lia.
Qed.

(** The parent's entries. *)
Lemma fork_parent_entry v a q f : area_at (areas vs) v = Some a -> data_frames a !! v = Some q -> fk_parent_pt k !! v = Some (mkPTE q f) ->
  if cow_area a then f = parent_flags a else page_table vs !! v = Some (mkPTE q f).
Proof.
  intros Ha Hq. rewrite (fi_ppt _ _ _ _ _ _ Hi). unfold protected. rewrite Ha, (bool_decide_eq_true_2 (is_Some _)), andb_true_r by (by exists q).
  destruct (cow_area a); [|done]. destruct (page_table vs !! v); [|done]. intros [= _ <-]. done.
Qed.

Lemma fork_parent_translate v e : translate (fk_parent_pt k) v = Some e -> exists a q, area_at (areas vs) v = Some a /\ data_frames a !! v = Some q /\ e = mkPTE q (pte_acc e) /\
  fk_parent_pt k !! v = Some (mkPTE q (pte_acc e)).
Proof.
  pose proof (Hw s vs Hs) as [Hvm _ _ _]. intros He. pose proof He as [Hpt Htab]%translate_Some. rewrite (fi_ppt _ _ _ _ _ _ Hi) in Hpt. unfold protected in Hpt.
  assert (Hkeep : page_table vs !! v = Some e -> exists a q, area_at (areas vs) v = Some a /\ data_frames a !! v = Some q /\ q = pte_ppn e).
  { intros H. assert (Ht : translate (page_table vs) v = Some e) by (by apply translate_Some). apply (vo_mapped _ Hvm) in Ht. unfold resident in Ht.
    destruct (area_at (areas vs) v) as [a|]; [|done]. exists a, (pte_ppn e). done. }
  assert (Hex : exists a q, area_at (areas vs) v = Some a /\ data_frames a !! v = Some q /\ q = pte_ppn e).
  { destruct (area_at (areas vs) v) as [a|] eqn:Ea; [|auto]. case_raw_in Hpt E; [|auto]. apply andb_true_iff in E as [_ E%bool_decide_eq_true]. destruct E as [q Hq].
    assert (Hr : resident (areas vs) v = Some q) by (unfold resident; by rewrite Ea). destruct (vo_resident _ Hvm v q Hr) as [f Hf]. rewrite Hf in Hpt. injection Hpt as <-. by exists a, q. }
  destruct Hex as (a & q & Ha & Hq & ->). exists a, (pte_ppn e). destruct e. split_and!; try done. by apply translate_Some in He as [He _].
Qed.

Lemma fork_parent_space : space_ok (strong_count forked_world) parent.
Proof.
  pose proof (Hw s vs Hs) as [Hvm Hat Hso Hse]. pose proof fork_areas_ok as Hok.
  assert (Hview : forall v i, view (fk_parent k) v = Some i -> exists a, area_at (areas vs) v = Some a /\ i = page_info (fork_parent a) v).
  { intros v i. unfold view. rewrite fork_parent_at. destruct (area_at (areas vs) v) as [a|]; [|done]. intros [= <-]. by exists a. }
  assert (Hfl : forall v a, grants (page_info (fork_parent a) v) (parent_flags a) /\ serves (page_info (fork_parent a) v) (parent_flags a) /\ acc_w (parent_flags a) = false).
  { intros v a. assert (parent_flags a = parent_flags (fork_parent a)) as -> by (unfold parent_flags; by destruct (fork_parent_same a) as (_ & -> & _)). apply parent_flags_ok. }
  assert (Hcl : forall v a q, area_at (areas vs) v = Some a -> data_frames a !! v = Some q -> cow_area a = false -> shared_area a = false -> strong_count w q = 1 -> strong_count forked_world q = 1).
  { intros v a q Ha Hq C1 C2 C3. rewrite <- C3. assert (Hr : resident (areas vs) v = Some q) by (unfold resident; by rewrite Ha).
    apply child_absent; [lia|]. intros v' a' Ha' Hd' Hq'. destruct (sole_unique w s vs v q Hs Hok Hr C3) as [_ Hun].
    assert (v' = v) as -> by (apply Hun; unfold resident; by rewrite Ha'). unfold cow_area in C1. rewrite C2 in C1. assert (a' = a) as -> by congruence. by rewrite Hd' in C1. }
  split; [split|..]; cbn [parent areas page_table].
  - apply fork_parent_areas_ok.
  - intros v q Hq. rewrite fork_parent_resident in Hq. destruct (vo_resident _ Hvm v q Hq) as [f Hf]. rewrite (fi_ppt _ _ _ _ _ _ Hi). unfold protected.
    destruct (area_at (areas vs) v); [|by exists f]. case_if; [|by exists f]. rewrite Hf. cbn. by eexists.
  - intros v e He. apply fork_parent_translate in He as (a & q & Ha & Hq & -> & _). rewrite fork_parent_resident. unfold resident. by rewrite Ha.
  - intros v e i He Hv. pose proof He as (a & q & Ha & Hq & Ee & Hpt)%fork_parent_translate. destruct (Hview v i Hv) as (a' & Ha' & ->). assert (a' = a) as -> by congruence.
    pose proof (fork_parent_entry v a q _ Ha Hq Hpt) as Hcase. destruct (cow_area a) eqn:Ec; [rewrite Hcase; apply Hfl|].
    assert (Hfp : fork_parent a = a) by (unfold fork_parent; by rewrite Ec). rewrite Hfp. apply (vo_access _ Hvm v e); [|unfold view; by rewrite Ha].
    apply translate_Some in He as [_ He]. apply translate_Some. split; [|done]. by rewrite Ee.
  - rewrite (fi_parent _ _ _ _ _ _ Hi). apply Forall_map. eapply Forall_impl; [exact Hat|]. intros a. apply fork_parent_attr.
  - intros v i q Hv Hq Hsh. destruct (Hview v i Hv) as (a & Ha & ->). cbn in Hq. rewrite shared_page_area in Hsh. destruct (fork_parent_same a) as (E1 & E2 & _ & E4 & _). rewrite E1 in Hq. rewrite E4 in Hsh.
    cbn. rewrite E2. assert (Hva : view (areas vs) v = Some (page_info a v)) by (unfold view; by rewrite Ha). destruct (Hso v _ q Hva Hq Hsh) as [S1 S2]. cbn in S1. split.
    + intros Hwr Hcw. destruct (cow_area a) eqn:Ec; [by rewrite fork_parent_cow in Hcw|]. apply (Hcl v a q); try done. apply S1; [done|]. unfold fork_parent in Hcw. by rewrite Ec in Hcw.
    + intros e He Hwr. pose proof He as (a' & q' & Ha' & Hq' & Ee & Hpt)%fork_parent_translate. assert (a' = a) as -> by congruence. assert (q' = q) as -> by congruence.
      pose proof (fork_parent_entry v a q _ Ha Hq Hpt) as Hcase. destruct (cow_area a) eqn:Ec; [rewrite Hcase in Hwr; destruct (Hfl v a) as (_ & _ & Hno); congruence|].
      apply (Hcl v a q); try done. apply (S2 e); [|done]. apply translate_Some in He as [_ He]. apply translate_Some. split; [|done]. by rewrite Ee.
  - intros v i q f Hv Hq Hpt. destruct (Hview v i Hv) as (a & Ha & ->). cbn in Hq. destruct (fork_parent_same a) as (E1 & E2 & _). rewrite E1 in Hq.
    pose proof (fork_parent_entry v a q f Ha Hq Hpt) as Hcase. destruct (cow_area a) eqn:Ec; [rewrite Hcase; apply Hfl|].
    cbn. rewrite E2. apply (Hse v (page_info a v) q f); [unfold view; by rewrite Ha|done|done].
Qed.

Lemma fork_child_space : space_ok (strong_count forked_world) child.
Proof.
  pose proof (Hw s vs Hs) as [Hvm Hat Hso Hse]. rewrite Forall_forall in Hat. pose proof (fi_ok _ _ _ _ _ _ Hi) as Hcok.
  assert (Hbat : forall a b, a ∈ areas vs -> forked a b -> attr_ok (attr b)).
  { intros a b Ha (m & -> & _). apply (fork_parent_attr a). auto. }
  assert (Hv : forall v i, view (areas child) v = Some i -> exists a b, area_at (areas vs) v = Some a /\ area_at (areas child) v = Some b /\ forked a b /\ i = page_info b v /\ attr_ok (attr b)).
  { intros v i. unfold view. pose proof (forked_at (areas vs) (areas child) v (fi_child _ _ _ _ _ _ Hi)) as Hf. inversion Hf as [a b Hab E1 E2|]; [|done]. intros [= <-].
    exists a, b. split_and!; try done. apply (Hbat a b); [|done]. symmetry in E1. by apply area_at_Some in E1 as [? _]. }
  assert (Hent : forall v b q, area_at (areas child) v = Some b -> data_frames b !! v = Some q -> page_table child !! v = Some (mkPTE q (child_flags b))).
  { intros v b q Hb Hq. unfold child. rewrite (fi_pt _ _ _ _ _ _ Hi). unfold table_of. fold child. by rewrite Hb, Hq. }
  assert (Htr : forall v e, translate (page_table child) v = Some e -> exists b, area_at (areas child) v = Some b /\ data_frames b !! v = Some (pte_ppn e) /\ pte_acc e = child_flags b).
  { intros v e [He _]%translate_Some. unfold child in He. rewrite (fi_pt _ _ _ _ _ _ Hi) in He. unfold table_of in He. fold child in He. destruct (area_at (areas child) v) as [b|]; [|done].
    exists b. destruct (data_frames b !! v); [|done]. injection He as <-. done. }
  assert (Hcw : forall b, attr_ok (attr b) -> cow_flag b = true -> acc_w (map_perm b) = true) by (intros b Hb Hx; by apply (ak_cow _ Hb)).
  split; [split|..]; [done|..].
  - intros v q Hq. unfold resident in Hq. destruct (area_at (areas child) v) as [b|] eqn:Eb; [|done]. eexists. by apply (Hent v b q).
  - intros v e He. destruct (Htr v e He) as (b & Hb & Hq & _). unfold resident. by rewrite Hb.
  - intros v e i He Hvi. destruct (Htr v e He) as (b & Hb & _ & ->). destruct (Hv v i Hvi) as (a & b' & _ & Hb' & _ & -> & Hak). assert (b' = b) as -> by congruence.
    apply child_flags_ok. auto.
  - pose proof (fi_child _ _ _ _ _ _ Hi) as Hf. fold child in Hf. apply Forall_forall. intros b Hb. apply list_elem_of_lookup in Hb as [n Hb].
    destruct (Forall2_lookup_r _ _ _ _ _ Hf Hb) as (a & Ha & Hab). apply (Hbat a b); [by eapply list_elem_of_lookup_2|done].
  - intros v i q Hvi Hq Hsh. destruct (Hv v i Hvi) as (a & b & Ha & Hb & Hab & -> & Hak). rewrite shared_page_area in Hsh. cbn in Hq.
    destruct (forked_bounds a b Hab) as (_ & _ & Ht). destruct (direct_clone (area_type a)) eqn:Ec.
    { assert (strong_count forked_world q = 1) by (by eapply child_own_count). done. }
    assert (Hca : cow_area b = true) by (unfold cow_area; by rewrite Ht, Ec, Hsh).
    assert (Hwc : acc_w (map_perm b) = true -> cow_flag b = true).
    { destruct Hab as (m & -> & _). cbn. intros Hx. destruct (fork_parent_same a) as (_ & E2 & _ & _ & E5). apply fork_parent_cow; [|by rewrite <- E2].
      rewrite <- E5. done. }
    split; [cbn; intros H1 H2; rewrite Hwc in H2; done|]. intros e He Hwr. destruct (Htr v e He) as (b' & Hb' & _ & Ee). assert (b' = b) as -> by congruence.
    by rewrite Ee, child_flags_write in Hwr.
  - intros v i q f Hvi Hq Hpt. destruct (Hv v i Hvi) as (a & b & Ha & Hb & Hab & -> & Hak). rewrite (Hent v b q Hb Hq) in Hpt. injection Hpt as <-.
    apply (child_flags_ok b v). auto.
Qed.

Lemma fork_world_ok : world_ok forked_world.
Proof.
  intros s1 vs1 H1. unfold forked_world in H1. cbn in H1. destruct (decide (s1 = c)) as [-> |Hnc]; [rewrite lookup_insert_eq in H1; injection H1 as <-; apply fork_child_space|].
  rewrite lookup_insert_ne in H1 by done. destruct (decide (s1 = s)) as [-> |Hns]; [rewrite lookup_insert_eq in H1; injection H1 as <-; apply fork_parent_space|].
  rewrite lookup_insert_ne in H1 by done. apply (space_ok_mono (strong_count w)); [|by apply (Hw s1)]. intros v q Hq Hcnt. rewrite <- Hcnt. apply child_absent; [lia|].
  intros v' a' Ha' _ Hq'. pose proof (vo_areas _ (sk_vm _ _ (Hw s1 vs1 H1))) as Hok1. assert (Hr : resident (areas vs) v' = Some q) by (unfold resident; by rewrite Ha').
  pose proof (others_other w s s1 vs vs1 v q ltac:(congruence) Hs H1 Hok1 Hq). pose proof (resident_count w s vs v' q Hs fork_areas_ok Hr). lia.
Qed.

(** ** What both processes see *)

(** The attributes of a page after the fork. *)
Definition forked_page (i : PageInfo) : PageInfo :=
  if negb (direct_clone (pg_type i)) && negb (shared_page i) && acc_w (pg_perm i) then set_prot (pg_perm i) true i else i.

Lemma fork_parent_view v : view (areas parent) v = option_map forked_page (view (areas vs) v).
Proof.
  unfold view. cbn [parent areas]. rewrite fork_parent_at. destruct (area_at (areas vs) v) as [a|]; [|done]. cbn. f_equal. unfold forked_page. rewrite shared_page_area. cbn.
  unfold fork_parent, cow_area. by case_if.
Qed.

Lemma fork_child_view v : option_map (with_frame None) (view (areas child) v) = option_map (with_frame None) (view (areas parent) v).
Proof.
  unfold view. cbn [parent areas]. rewrite fork_parent_at. pose proof (forked_at (areas vs) (areas child) v (fi_child _ _ _ _ _ _ Hi)) as Hf.
  inversion Hf as [a b Hab E1 E2|E1 E2]; [|done]. destruct Hab as (m & -> & _). done.
Qed.

(** An entry that gives an access survives in both. *)
Lemma fork_translate v e a : translate (page_table vs) v = Some e -> area_at (areas vs) v = Some a -> (direct_clone (area_type a) = true -> lazy_flag a || cow_flag a = false) ->
  (exists e1, translate (page_table parent) v = Some e1 /\ pte_ppn e1 = pte_ppn e) /\
  (exists e2, translate (page_table child) v = Some e2 /\ fk_mem k (pte_ppn e2) = vw_mem w (pte_ppn e)).
Proof.
  intros He Ha Hl. pose proof (Hw s vs Hs) as [Hvm Hat _ _]. pose proof (vo_mapped _ Hvm v e He) as Hr. unfold resident in Hr. rewrite Ha in Hr. cbn in Hr.
  pose proof He as [Hpt Htab]%translate_Some. pose proof (vo_access _ Hvm v e (page_info a v) He ltac:(unfold view; by rewrite Ha)) as (G1 & G2 & G3). cbn in G1, G2, G3.
  assert (Hany : acc_r (map_perm a) || acc_w (map_perm a) || acc_x (map_perm a) = true).
  { unfold is_table in Htab. apply negb_false_iff in Htab. rewrite !orb_true_iff in Htab |- *. destruct Htab as [[H|H]|H]; [rewrite <- !orb_true_iff; by apply G3|left; right; by apply G1|right; by apply G2]. }
  assert (Hlive : forall i q f, pg_perm i = map_perm a -> serves i f -> is_table (mkPTE q f) = false).
  { intros i q f Ep (S1 & S2 & _). rewrite Ep in S1, S2. unfold is_table. cbn. apply negb_false_iff. apply orb_true_iff in Hany as [H|H]; [by rewrite S1|rewrite S2 by done; by rewrite orb_true_r]. }
  split.
  - cbn [parent page_table].
    assert (Hpp : fk_parent_pt k !! v = Some (if cow_area a then mkPTE (pte_ppn e) (parent_flags a) else e)).
    { rewrite (fi_ppt _ _ _ _ _ _ Hi). unfold protected. rewrite Ha, (bool_decide_eq_true_2 (is_Some _)), andb_true_r, Hpt by (by eexists). by destruct (cow_area a). }
    destruct (cow_area a) eqn:Ec; (eexists; split; [apply translate_Some; split; [exact Hpp|]|]); [|done|done|done].
    apply (Hlive (page_info a v)); [done|]. apply (parent_flags_ok a v).
  - pose proof (forked_at (areas vs) (areas child) v (fi_child _ _ _ _ _ _ Hi)) as Hf. rewrite Ha in Hf. inversion Hf as [a0 b Hab E1 E2|]; subst a0. symmetry in E2.
    pose proof E2 as [Hbin _]%area_at_Some. pose proof Ha as [Hain Hv]%area_at_Some.
    assert (Hak : attr_ok (attr b)) by (destruct Hab as (m & -> & _); apply (fork_parent_attr a); rewrite Forall_forall in Hat; auto).
    assert (Hbp : map_perm b = map_perm a) by (destruct Hab as (m & -> & _); cbn; by destruct (fork_parent_same a) as (_ & -> & _)).
    destruct (forked_bounds a b Hab) as (_ & _ & Ht).
    assert (Hfl : forall q, is_table (mkPTE q (child_flags b)) = false) by (intros q; apply (Hlive (page_info b v)); [done|]; apply child_flags_ok; intros; by apply (ak_cow _ Hak)).
    assert (Hq : exists q, data_frames b !! v = Some q /\ fk_mem k q = vw_mem w (pte_ppn e)).
    { destruct Hab as (m & Eb & Hm & Hfull). destruct (direct_clone (area_type a)) eqn:Ec.
      - destruct (Hfull eq_refl (Hl eq_refl) v) as [q Hq]; [by apply in_area_spec|]. exists q. assert (Hbq : data_frames b !! v = Some q) by (by rewrite Eb). split; [done|].
        destruct (fi_own _ _ _ _ _ _ Hi b v q Hbin ltac:(by rewrite Ht) Hbq) as [_ Hm']. rewrite Hm'. unfold cloned_bytes. rewrite He.
        specialize (Hfl 0). unfold child_flags, cow_area in Hfl. rewrite Ht, Ec in Hfl. cbn [negb andb] in Hfl. by rewrite Hfl.
      - exists (pte_ppn e). split; [rewrite Eb; cbn; by rewrite Hm|]. apply (fi_mem _ _ _ _ _ _ Hi). intros Hu. pose proof (used_fresh _ Hu).
        pose proof (resident_count w s vs v (pte_ppn e) Hs fork_areas_ok ltac:(unfold resident; by rewrite Ha)). pose proof (others_nonneg w s (pte_ppn e)). lia. }
    destruct Hq as (q & Hq & Hmem). exists (mkPTE q (child_flags b)). split; [|done]. apply translate_Some. split; [|apply Hfl]. unfold child. rewrite (fi_pt _ _ _ _ _ _ Hi). unfold table_of. fold child. by rewrite E2, Hq.
Qed.

(** A frame in both is shared on purpose, or nobody writes to it. *)
Lemma fork_common v a e1 e2 : area_at (areas vs) v = Some a -> translate (page_table parent) v = Some e1 -> translate (page_table child) v = Some e2 -> pte_ppn e1 = pte_ppn e2 ->
  shared_area a = true \/ (acc_w (pte_acc e1) = false /\ acc_w (pte_acc e2) = false).
Proof.
  intros Ha H1 H2 Hq. pose proof fork_child_space as [[_ _ Hm2 _] _ Hso2 _]. pose proof H1 as (a1 & q & Ha1 & Hq1 & Ee & Hpt)%fork_parent_translate. assert (a1 = a) as -> by congruence.
  assert (Eq : pte_ppn e1 = q) by (by rewrite Ee). rewrite Eq in Hq.
  pose proof (Hm2 v e2 H2) as Hr2. pose proof Hr2 as (a2 & b & Ha2 & Hb & Hab & Hbq & Hcase)%fork_child_resident. assert (a2 = a) as -> by congruence. rewrite <- Hq in *.
  assert (Hcl : direct_clone (area_type a) = false).
  { destruct (direct_clone (area_type a)) eqn:Ec; [|done]. exfalso. pose proof (used_fresh _ Hcase).
    pose proof (resident_count w s vs v q Hs fork_areas_ok ltac:(unfold resident; by rewrite Ha)). pose proof (others_nonneg w s q). lia. }
  destruct (shared_area a) eqn:Es; [by left|right]. assert (Hcow : cow_area a = true) by (unfold cow_area; by rewrite Hcl, Es). split.
  - pose proof (fork_parent_entry v a q _ Ha Hq1 Hpt) as Hp. rewrite Hcow in Hp. rewrite Hp. apply (parent_flags_ok a v).
  - pose proof H2 as [Hc2 _]%translate_Some. unfold child in Hc2. rewrite (fi_pt _ _ _ _ _ _ Hi) in Hc2. unfold table_of in Hc2. fold child in Hc2. rewrite Hb, Hbq in Hc2. cbn in Hc2. injection Hc2 as <-. cbn [pte_acc].
    destruct Hab as (m & -> & _). destruct (fork_parent_same a) as (_ & E2 & _ & _ & E5). apply child_flags_write; [exact (eq_trans E5 Hcow)|]. cbn. rewrite E2. intros. by apply fork_parent_cow.
Qed.
End ForkWorld.
