(* ===== verification/VmMmap.v ===== *)
(** * Virtual memory: new mappings and the program break

    [sys_mmap] puts one area over a free range and leaves every other page alone;
    [sys_brk] moves the end of the heap. *)

From Stdlib Require Import Sorted.
From stdpp Require Import gmap functions.
From S2P Require Import Prelude SysErr FrameAlloc Vm VmSpec VmSys VmMap VmProt VmProtSpec VmFault VmWorld VmCow VmFaultSpec VmFileFault.

Implicit Types a b : UserMapArea.
Implicit Types l : list UserMapArea.
Implicit Types vs : UserVMSet.
Implicit Types w : VmWorld.

Definition free_pages l a : Prop := forall v, in_area a v = true -> area_at l v = None.

Lemma free_apart l a : areas_ok l -> area_ok a -> free_pages l a -> Forall (apart a) l.
Proof.
  intros Hl Ha Hf. apply Forall_forall. intros b Hb. pose proof (area_ok_vpn a Ha). pose proof (area_ok_vpn b (areas_ok_in _ _ Hl Hb)).
  unfold apart, before. destruct (decide (end_vpn a <= start_vpn b)); [by left|]. destruct (decide (end_vpn b <= start_vpn a)); [by right|]. exfalso.
  pose proof (Hf (Z.max (start_vpn a) (start_vpn b))) as H1. rewrite (area_at_unique l b) in H1; [|done|done|apply in_area_spec; lia].
  discriminate H1. apply in_area_spec. lia.
Qed.

Lemma range_free_pages l a s e : areas_ok l -> range_free l s e -> start_vpn a = floor s -> end_vpn a * PAGE_SIZE = e -> s mod PAGE_SIZE = 0 -> free_pages l a.
Proof.
  intros Hl Hf Es Ee Hs v Hv%in_area_spec. destruct (area_at l v) as [b|] eqn:E; [|done]. exfalso. apply area_at_Some in E as [Hb Hin].
  unfold range_free in Hf. rewrite Forall_forall in Hf. pose proof (aligned_floor s Hs). unfold PAGE_SIZE in *. destruct (Hf b Hb); lia.
Qed.

Lemma alter_insert (f : UserMapArea -> UserMapArea) i l a : l !! i = Some a -> alter f i l = <[i := f a]> l.
Proof.
  revert i. induction l as [|b l IH]; intros [|i] H; try done.
  - by injection H as ->.
  - change (b :: alter f i l = b :: <[i := f a]> l). f_equal. by apply IH.
Qed.

(** An area is inserted, found again and updated. *)
Lemma insert_update l a f : areas_ok l -> area_ok a -> free_pages l a -> start_vpn (f a) = start_vpn a -> end_vpn (f a) = end_vpn a -> area_ok (f a) ->
  exists l1, insert_area_sorted a l = Some l1 /\ areas_ok (update_area l1 (va_start a) f) /\
    (forall v, view (update_area l1 (va_start a) f) v = if in_area a v then Some (page_info (f a) v) else view l v) /\
    (forall P : UserMapArea -> Prop, Forall P l -> P (f a) -> Forall P (update_area l1 (va_start a) f)).
Proof.
  intros Hl Ha Hf E1 E2 Hfa. destruct (insert_sorted_ok l a Hl Ha (free_apart l a Hl Ha Hf)) as (l1 & E & Hl1 & Hp & Hv). exists l1. split; [done|].
  assert (Hin : a ∈ l1) by (rewrite Hp; left). apply list_elem_of_lookup in Hin as [i Hi]. pose proof (area_ok_vpn a Ha).
  assert (Hidx : find_area_index l1 (va_start a) = Some i).
  { apply find_area_index_spec; [done|]. exists a. split; [done|]. apply in_area_spec. fold (start_vpn a). lia. }
  unfold update_area. rewrite Hidx, (alter_insert f i l1 a Hi). destruct (set_area_ok l1 i a (f a) Hl1 Hi Hfa E1 E2) as [Hl2 Hv2]. split_and!; [done| |].
  - intros v. rewrite Hv2, Hv. by destruct (in_area a v).
  - intros P HP Hfa'. rewrite (insert_take_drop _ _ _ (lookup_lt_Some _ _ _ Hi)). rewrite <- (take_drop_middle l1 i a Hi) in Hp.
    assert (Hp' : take i l1 ++ drop (S i) l1 ≡ₚ l) by (apply (Permutation_cons_inv (a := a)); rewrite <- Hp; apply Permutation_middle).
    rewrite <- Permutation_middle. constructor; [done|by rewrite Hp'].
Qed.

(** ** The range of a mapping *)

Lemma flag_or flags x y : negb (Z.land flags (Z.lor x y) =? 0) = flag_set flags x || flag_set flags y.
Proof.
  unfold flag_set. rewrite Z.land_lor_distr_r. destruct (Z.eqb_spec (Z.lor (Z.land flags x) (Z.land flags y)) 0) as [E|E].
  - apply Z.lor_eq_0_iff in E as [-> ->]. done.
  - destruct (Z.eqb_spec (Z.land flags x) 0) as [E1|E1], (Z.eqb_spec (Z.land flags y) 0) as [E2|E2]; try done. rewrite E1, E2 in E. done.
Qed.

Definition is_fixed (flags : Z) : bool := flag_set flags MAP_FIXED || flag_set flags MAP_FIXED_NOREPLACE.

Lemma mmap_target_spec l start len flags offset s e : areas_ok l -> 0 <= start -> 0 <= len -> mmap_target l start len flags offset = Ok (s, e) ->
  s mod PAGE_SIZE = 0 /\ e mod PAGE_SIZE = 0 /\ e = s + ceil len * PAGE_SIZE /\ 0 <= s < e /\ e <= USER_LAST + 1 /\ 0 < len /\
  (flag_set flags MAP_ANONYMOUS = false -> offset + ceil len * PAGE_SIZE < 2 ^ 64) /\
  (if is_fixed flags then s = start else range_free l s e /\ (start = 0 \/ floor start * PAGE_SIZE <= s) /\ (start = 0 -> MMAP_BASE <= s)).
Proof.
  intros Hl Hs Hlen. unfold mmap_target. rewrite flag_or. fold (is_fixed flags). case_raw E; [done|]. case_raw E0; [done|]. case_raw E1; [done|]. case_raw E2; [done|]. apply Z.eqb_neq in E.
  destruct (page_align_up len) as [n|] eqn:En; [|done]. apply page_align_up_spec in En as (N1 & N2 & N3); [|lia]. case_raw Eo; [done|].
  destruct (checked_add start n) as [er|]; [|done]. case_raw Ez; [done|].
  assert (Hn : 0 < n) by lia.
  set (tgt := if is_fixed flags then _ else _). destruct tgt as [s0|] eqn:Et; [|done]. subst tgt. destruct (checked_add s0 n) as [e0|] eqn:Ee; [|done].
  unfold checked_add in Ee. case_if_in Ee; [|done]. injection Ee as <-. case_raw Ev; [|done]. intros [= <- <-]. apply valid_user_range_spec in Ev as [V1 V2].
  assert (Hoff : flag_set flags MAP_ANONYMOUS = false -> offset + n < 2 ^ 64).
  { intros Ha. rewrite Ha in Eo. destruct Eo as [Eo|Eo]; [done|]. apply bool_decide_eq_false in Eo. unfold checked_add in Eo. case_if_in Eo; [lia|done]. }
  destruct (is_fixed flags) eqn:Ef.
  - injection Et as <-. destruct E1 as [E1|E1]; [done|]. apply negb_false_iff, Z.eqb_eq in E1. rewrite page_offset_mod in E1. rewrite <- N3. split_and!; try done; try lia. by apply mod_add_page.
  - pose proof (find_free_area_spec l (if start =? 0 then 0 else page_mask start) n Hl) as Hfree. rewrite Et in Hfree.
    assert (Hpm : 0 <= page_mask start) by (rewrite page_mask_div; unfold floor, PAGE_SIZE; zlia).
    assert (Hcn : ceil n * PAGE_SIZE = n) by (rewrite aligned_ceil by (lia || done); by apply aligned_floor). rewrite Hcn in Hfree.
    destruct Hfree as (F1 & F2 & F3 & F4 & _); [destruct (start =? 0); lia|lia|]. rewrite <- N3.
    split_and!; try done; try lia; [by apply mod_add_page|..].
    + destruct (Z.eqb_spec start 0); [by left|]. right. rewrite <- page_mask_div. destruct (Z.eqb_spec (page_mask start) 0) as [Em|Em]; [lia|].
      rewrite page_mask_div in F2. rewrite ceil_page in F2 by (unfold floor, PAGE_SIZE; zlia). by rewrite page_mask_div.
    + intros ->. done.
Qed.

(** ** The new area *)

Definition mapped_file (file : option MmapFile) (flags : Z) : option MmapFile := if flag_set flags MAP_ANONYMOUS then None else file.

(** The area of the mapping, as it is when [sys_mmap] returns. *)
Definition mmapped_area (file : option MmapFile) (backing s e prot flags offset : Z) : UserMapArea :=
  let grow a := if flag_set flags MAP_GROWSDOWN then set_growdown true a else a in
  match mapped_file file flags with
  | None => let a := grow (mmap_new_area s e (from_prot prot) None offset flags backing) in if flag_set flags MAP_SHARED then set_flags MapShared a else a
  | Some f => let a := mmap_new_area s e (from_prot prot) (Some (mf_id f)) offset flags backing in grow (set_file (map_file a) (Some (mf_path f)) (file_offset a) a)
  end.

Lemma mmap_new_bounds s e perm file offset flags backing : let a := mmap_new_area s e perm file offset flags backing in
  va_start a = s /\ va_end a = e /\ data_frames a = ∅ /\ map_file a = file /\ file_offset a = offset /\ (is_Some (shared_anonymous a) -> shared_anonymous_offset a = 0).
Proof. cbv zeta. unfold mmap_new_area. repeat case_if; split_and!; try done; cbn; by intros [? ?]. Qed.

(** The range is whole pages and, for a file, stays below the end of the offsets. *)
Definition mmap_range (file : option MmapFile) (s e flags offset : Z) : Prop :=
  s mod PAGE_SIZE = 0 /\ e mod PAGE_SIZE = 0 /\ 0 <= s < e /\ e <= USER_LAST + 1 /\ 0 <= offset /\ (is_Some (mapped_file file flags) -> offset + (e - s) < 2 ^ 64).

Lemma mmap_new_ok perm file offset flags backing s e : s mod PAGE_SIZE = 0 -> e mod PAGE_SIZE = 0 -> 0 <= s < e -> e <= USER_LAST + 1 -> 0 <= offset ->
  (is_Some file -> offset + (e - s) < 2 ^ 64) -> area_ok (mmap_new_area s e perm file offset flags backing).
Proof.
  intros H1 H2 H3 H4 H5 H6. destruct (mmap_new_bounds s e perm file offset flags backing) as (B1 & B2 & B3 & B4 & B5 & B6). set (a := mmap_new_area _ _ _ _ _ _ _) in *.
  assert (Hsv : start_vpn a * PAGE_SIZE = s) by (unfold start_vpn; rewrite B1; by apply aligned_floor).
  assert (Hev : end_vpn a * PAGE_SIZE = e) by (unfold end_vpn; rewrite B2, aligned_ceil by (lia || done); by apply aligned_floor).
  split; try (rewrite ?B1, ?B2; done).
  - intros v p. by rewrite B3.
  - split; rewrite ?B4, ?B5; intros Hi; [specialize (H6 Hi); lia|rewrite B6 by done]. unfold USER_LAST, PAGE_SIZE in *. lia.
Qed.

Lemma same_ok a b : va_start b = va_start a -> va_end b = va_end a -> data_frames b = data_frames a -> map_file b = map_file a -> file_offset b = file_offset a ->
  shared_anonymous b = shared_anonymous a -> shared_anonymous_offset b = shared_anonymous_offset a -> area_ok a -> area_ok b.
Proof.
  intros E1 E2 E3 E4 E5 E6 E7 [A1 A2 A3 A4 A5].
  assert (Es : start_vpn b = start_vpn a) by (unfold start_vpn; by rewrite E1). assert (Ee : end_vpn b = end_vpn a) by (unfold end_vpn; by rewrite E2).
  split; rewrite ?E1, ?E2; try done.
  - intros v p. rewrite E3. unfold in_area. rewrite Es, Ee. apply A4.
  - unfold offsets_ok. by rewrite E4, E5, E6, E7, Es, Ee.
Qed.

Lemma mmapped_area_ok file backing s e prot flags offset : mmap_range file s e flags offset ->
  area_ok (mmapped_area file backing s e prot flags offset).
Proof.
  intros (H1 & H2 & H3 & H4 & H5 & H6). unfold mmapped_area. destruct (mapped_file file flags) as [f|] eqn:Ef.
  - eapply (same_ok (mmap_new_area s e (from_prot prot) (Some (mf_id f)) offset flags backing)); try (by case_if).
    apply mmap_new_ok; try done. intros _. apply H6. by exists f.
  - eapply (same_ok (mmap_new_area s e (from_prot prot) None offset flags backing)); try (by repeat case_if). by apply mmap_new_ok.
Qed.

Lemma mmapped_attr file backing s e prot flags offset : attr_ok (attr (mmapped_area file backing s e prot flags offset)).
Proof.
  unfold mmapped_area, mmap_new_area. cbv zeta. assert (Hu : acc_u (from_prot prot) = true) by done. revert Hu. generalize (from_prot prot). intros [r [] x u] Hu; cbn in Hu; subst u;
  destruct (mapped_file file flags) as [f|], (flag_set flags MAP_GROWSDOWN), (flag_set flags MAP_SHARED), (Z.land flags 3 =? 1);
    split; vm_compute; done.
Qed.

(** ** The call *)

(** An empty area over pages that nothing maps. *)
Lemma add_area_world_ok w s vs l' a : world_ok w -> vw_spaces w !! s = Some vs -> areas_ok l' -> free_pages (areas vs) a -> data_frames a = ∅ ->
  (forall v, view l' v = if in_area a v then Some (page_info a v) else view (areas vs) v) ->
  (Forall (fun b => attr_ok (attr b)) (areas vs) -> Forall (fun b => attr_ok (attr b)) l') -> forall mem, world_ok (put_space w s (mkVM (page_table vs) l') mem).
Proof.
  intros Hw Hs Hl Hf Hd Hv Hat mem. pose proof (Hw s vs Hs) as [Hvm _ _ _]. apply (restrict_world_ok w s vs); try done. intros v. cbn [areas page_table].
  destruct (in_area a v) eqn:Ea; [right|left; split; [by rewrite Hv, Ea|done]]. split.
  - rewrite resident_view, Hv, Ea. cbn. by rewrite Hd.
  - destruct (translate (page_table vs) v) as [e|] eqn:Et; [|done]. apply (vo_mapped _ Hvm) in Et. unfold resident in Et. by rewrite (Hf v Ea) in Et.
Qed.

(** A fixed mapping does not lie over an area that cannot be unmapped.  (The code then
    inserts an area over that one.) *)
Definition fixed_clear vs (start len flags : Z) : Prop :=
  flag_set flags MAP_FIXED = true -> forall v a, floor start <= v < floor start + ceil len -> area_at (areas vs) v = Some a -> trimmable (area_type a) = true.

(** The address space once the target is free. *)
Definition cleared vs vs1 (t e : Z) : Prop :=
  forall v, view (areas vs1) v = if (floor t <=? v) && (v <? floor e) then None else view (areas vs) v.

Lemma view_None l v : view l v = None <-> area_at l v = None.
Proof. unfold view. by destruct (area_at l v). Qed.

(** Pages that are free already. *)
Lemma cleared_free vs t e : (forall v, floor t <= v < floor e -> area_at (areas vs) v = None) -> cleared vs vs t e.
Proof.
  intros H v. destruct ((floor t <=? v) && (v <? floor e)) eqn:E; [|done]. apply andb_true_iff in E as [?%Z.leb_le ?%Z.ltb_lt]. apply view_None, H. lia.
Qed.

Lemma no_overlap_free l t e v : areas_ok l -> t mod PAGE_SIZE = 0 -> e mod PAGE_SIZE = 0 -> existsb (fun a => (t <? va_end a) && (va_start a <? e)) l = false ->
  floor t <= v < floor e -> area_at l v = None.
Proof.
  intros Hl Ht He Hf Hv. destruct (area_at l v) as [a|] eqn:E; [|done]. exfalso. apply area_at_Some in E as [Ha Hin]. pose proof (areas_ok_in _ _ Hl Ha) as [A1 A2 _ _ _].
  assert (existsb (fun a => (t <? va_end a) && (va_start a <? e)) l = true); [|congruence]. apply existsb_exists. exists a. split; [by apply list_elem_of_In|].
  pose proof (aligned_floor _ Ht). pose proof (aligned_floor _ He). pose proof (aligned_floor _ A1). fold (start_vpn a) in *. rewrite andb_true_iff, !Z.ltb_lt.
  split; [|unfold PAGE_SIZE in *; lia]. assert (v * PAGE_SIZE < va_end a); [|unfold PAGE_SIZE in *; lia].
  unfold end_vpn, ceil, PAGE_SIZE in *. destruct (Z.eqb_spec (va_end a) 0); zlia.
Qed.

Lemma mmap_clear w s vs flags start len t e offset : world_ok w -> vw_spaces w !! s = Some vs -> 0 <= start -> 0 <= len -> fixed_clear vs start len flags ->
  mmap_target (areas vs) start len flags offset = Ok (t, e) -> flag_set flags MAP_FIXED_NOREPLACE && existsb (fun a => (t <? va_end a) && (va_start a <? e)) (areas vs) = false ->
  exists vs1 retired released,
    (if negb (flag_set flags MAP_FIXED_NOREPLACE) && flag_set flags MAP_FIXED then trim_user_range vs t e else Some (vs, [], [])) = Some (vs1, retired, released) /\
    (forall mem, world_ok (put_space w s vs1 mem)) /\ cleared vs vs1 t e.
Proof.
  intros Hw Hs H1 H2 Hfc Ht Hno. pose proof (Hw s vs Hs) as [Hvm _ _ _]. pose proof (vo_areas _ Hvm) as Hok.
  apply mmap_target_spec in Ht as (T1 & T2 & T3 & T4 & T5 & T6 & _ & T8); [|done..]. unfold is_fixed in T8.
  destruct (flag_set flags MAP_FIXED_NOREPLACE) eqn:En; cbn [negb andb] in *.
  - exists vs, [], []. split_and!; [done|by apply put_same|]. apply cleared_free. intros v Hv. by apply (no_overlap_free _ t e).
  - rewrite orb_false_r in T8. destruct (flag_set flags MAP_FIXED) eqn:Ef.
    + destruct (trim_user_range_spec vs t e Hvm T1 T2 T4) as (vs' & r & rel & E & _ & Hv & _ & _ & _).
      destruct (trim_world_ok w s vs t e Hw Hs T1 T2 T4) as (vs1 & r1 & rel1 & E1 & Hwok). rewrite E in E1. injection E1 as <- <- <-.
      exists vs', r, rel. split_and!; [done|done|]. intros v. rewrite Hv. unfold unmapped, trim_hit. subst t.
      assert (Hfe : floor e = floor start + ceil len) by (rewrite T3; unfold floor, PAGE_SIZE; rewrite Z.div_add by lia; done).
      destruct (area_at (areas vs) v) as [a|] eqn:Ea.
      * destruct (_ && (v <? floor e)) eqn:Er at 2.
        -- apply andb_true_iff in Er as [E1%Z.leb_le E2%Z.ltb_lt]. rewrite (Hfc Ef v a) by (done || lia). cbn. by rewrite (proj2 (Z.leb_le _ _) E1), (proj2 (Z.ltb_lt _ _) E2).
        -- rewrite <- andb_assoc, Er, andb_false_r. done.
      * rewrite (proj2 (view_None _ _) Ea). by destruct (_ && _).
    + destruct T8 as [Hfree _]. exists vs, [], []. split_and!; [done|by apply put_same|]. apply cleared_free. intros v Hv.
      destruct (area_at (areas vs) v) as [b|] eqn:E; [|done]. exfalso. apply area_at_Some in E as [Hb Hin]. unfold range_free in Hfree. rewrite Forall_forall in Hfree.
      pose proof (aligned_floor _ T1). pose proof (aligned_floor _ T2). unfold PAGE_SIZE in *. destruct (Hfree b Hb); lia.
Qed.

(** The mapping may replace others. *)
Definition replaces (flags : Z) : bool := negb (flag_set flags MAP_FIXED_NOREPLACE) && flag_set flags MAP_FIXED.

(** Every outcome of the call: the invariant holds, and on success one new area covers
    the range that is returned; a call that fails leaves the areas as they were, unless
    it has already cleared the range of a fixed mapping. *)
Definition mmap_done vs (file : option MmapFile) (backing len prot flags offset : Z) (out : Outcome) : Prop :=
  match out_result out with
  | Ok t => t mod PAGE_SIZE = 0 /\ 0 <= t /\ t + ceil len * PAGE_SIZE <= USER_LAST + 1 /\
      (replaces flags = false -> forall v, floor t <= v < floor t + ceil len -> view (areas vs) v = None) /\
      forall v, view (areas (out_vs out)) v =
        if (floor t <=? v) && (v <? floor t + ceil len) then Some (page_info (mmapped_area file backing t (t + ceil len * PAGE_SIZE) prot flags offset) v) else view (areas vs) v
  | Err _ => out_vs out = vs \/ (flag_set flags MAP_FIXED = true /\ exists t, cleared vs (out_vs out) t (t + ceil len * PAGE_SIZE))
  end.

Section Mmap.
Context (w : VmWorld) (s : Z) (vs : UserVMSet) (file : option MmapFile) (backing start len prot flags offset : Z).
Context (Hw : world_ok w) (Hs : vw_spaces w !! s = Some vs) (H1 : 0 <= start) (H2 : 0 <= len) (H3 : 0 <= offset) (Hfc : fixed_clear vs start len flags).

(** The insertion of the new area into the cleared address space. *)
Lemma mmap_insert vs1 t e a f : (forall mem, world_ok (put_space w s vs1 mem)) -> cleared vs vs1 t e -> t mod PAGE_SIZE = 0 -> e mod PAGE_SIZE = 0 -> e = t + ceil len * PAGE_SIZE ->
  area_ok a -> area_ok (f a) -> va_start a = t -> va_end a = e -> va_start (f a) = t -> va_end (f a) = e -> data_frames (f a) = ∅ -> attr_ok (attr (f a)) -> f a = mmapped_area file backing t e prot flags offset ->
  exists l1, insert_area_sorted a (areas vs1) = Some l1 /\ (forall mem, world_ok (put_space w s (mkVM (page_table vs1) (update_area l1 t f)) mem)) /\
    forall v, view (update_area l1 t f) v =
      if (floor t <=? v) && (v <? floor t + ceil len) then Some (page_info (mmapped_area file backing t (t + ceil len * PAGE_SIZE) prot flags offset) v) else view (areas vs) v.
Proof.
  intros Hw1 Hcl T1 T2 T3 Ha Hfa B1 B2 B3 B4 B5 Hat Efa.
  assert (Hs1 : forall mem, vw_spaces (put_space w s vs1 mem) !! s = Some vs1) by (intros; apply lookup_insert_eq).
  pose proof (Hw1 (vw_mem w) s vs1 (Hs1 _)) as [Hvm1 _ _ _]. pose proof (vo_areas _ Hvm1) as Hok1.
  assert (Hrng : start_vpn a = floor t /\ end_vpn a = floor t + ceil len).
  { unfold start_vpn, end_vpn. rewrite B1, B2. split; [done|]. pose proof (ao_range a Ha). rewrite aligned_ceil by (lia || done). rewrite T3. unfold floor, PAGE_SIZE. by rewrite Z.div_add. }
  destruct Hrng as [R1 R2]. assert (Hin : forall v, in_area a v = (floor t <=? v) && (v <? floor t + ceil len)) by (intros v; unfold in_area; by rewrite R1, R2).
  assert (Hfe : floor e = floor t + ceil len) by (rewrite T3; unfold floor, PAGE_SIZE; by rewrite Z.div_add).
  assert (Hfree : free_pages (areas vs1) a) by (intros v Hv; apply view_None; rewrite Hcl, Hfe, <- Hin, Hv; done).
  assert (Es : start_vpn (f a) = start_vpn a) by (unfold start_vpn; by rewrite B3, B1). assert (Ee : end_vpn (f a) = end_vpn a) by (unfold end_vpn; by rewrite B4, B2).
  destruct (insert_update (areas vs1) a f Hok1 Ha Hfree Es Ee Hfa) as (l1 & E & Hl & Hv & HP). rewrite B1 in *. exists l1. split_and!; [done| |].
  - intros mem. rewrite <- (put_space_twice w s vs1 mem). apply (add_area_world_ok _ s vs1 _ (f a) (Hw1 mem) (Hs1 mem)); try done.
    + intros v. unfold in_area. rewrite Es, Ee. apply Hfree.
    + intros v. rewrite Hv. unfold in_area. by rewrite Es, Ee.
    + intros Hx. apply HP; done.
  - intros v. rewrite Hv, Hin, <- T3, Efa, Hcl, Hfe. by destruct (_ && _).
Qed.

Lemma mmapped_bounds t e : let a := mmapped_area file backing t e prot flags offset in va_start a = t /\ va_end a = e /\ data_frames a = ∅.
Proof. cbv zeta. unfold mmapped_area, mmap_new_area. by destruct (mapped_file file flags); repeat case_if. Qed.

Lemma mmap_finish vs1 t e r rel a g : (forall mem, world_ok (put_space w s vs1 mem)) -> cleared vs vs1 t e -> (replaces flags = false -> vs1 = vs) -> mmap_range file t e flags offset -> e = t + ceil len * PAGE_SIZE ->
  area_ok a -> va_start a = t -> va_end a = e -> g a = mmapped_area file backing t e prot flags offset ->
  exists out, (l ← insert_area_sorted a (areas vs1); Some (mkOut (mkVM (page_table vs1) (update_area l t g)) r rel (Ok t))) = Some out /\
    (forall mem, world_ok (put_space w s (out_vs out) mem)) /\ mmap_done vs file backing len prot flags offset out.
Proof.
  intros Hw1 Hcl Hrep Hr T3 Ha B1 B2 Eg. pose proof Hr as (T1 & T2 & T4 & T5 & _). destruct (mmapped_bounds t e) as (M1 & M2 & M3). rewrite <- Eg in M1, M2, M3.
  assert (Hga : area_ok (g a)) by (rewrite Eg; by apply mmapped_area_ok). assert (Hat : attr_ok (attr (g a))) by (rewrite Eg; apply mmapped_attr).
  destruct (mmap_insert vs1 t e a g Hw1 Hcl T1 T2 T3 Ha Hga B1 B2 M1 M2 M3 Hat Eg) as (l1 & -> & Hwok & Hv).
  cbn [mbind option_bind]. eexists. split_and!; [done|done|]. unfold mmap_done. cbn. split_and!; [done|lia|lia| |done].
  intros Hx v Hvr. rewrite <- (Hrep Hx), Hcl. assert (floor e = floor t + ceil len) as -> by (rewrite T3; unfold floor, PAGE_SIZE; by rewrite Z.div_add).
  by rewrite (proj2 (Z.leb_le _ _) (proj1 Hvr)), (proj2 (Z.ltb_lt _ _) (proj2 Hvr)).
Qed.

Lemma mmap_world_ok : exists out, mmap_install vs file backing start len prot flags offset = Some out /\
  (forall mem, world_ok (put_space w s (out_vs out) mem)) /\ mmap_done vs file backing len prot flags offset out.
Proof.
  pose proof (put_same w s vs Hw Hs) as Hsame. unfold mmap_install, fail_out. case_raw Eb; [eexists; split_and!; [done|done|by left]|].
  destruct (mmap_target (areas vs) start len flags offset) as [[t e]|err] eqn:Et; [|eexists; split_and!; [done|done|by left]].
  case_raw Eno; [eexists; split_and!; [done|done|by left]|].
  destruct (mmap_clear w s vs flags start len t e offset Hw Hs H1 H2 Hfc Et Eno) as (vs1 & r & rel & Etrim & Hw1 & Hcl). assert (Hrep : replaces flags = false -> vs1 = vs) by (intros Hx; unfold replaces in Hx; rewrite Hx in Etrim; congruence). rewrite Etrim. cbn [mbind option_bind].
  apply mmap_target_spec in Et as (T1 & T2 & T3 & T4 & T5 & T6 & T7 & _); [|apply (vo_areas _ (sk_vm _ _ (Hw s vs Hs)))|done..].
  assert (Hrange : mmap_range file t e flags offset).
  { split_and!; try done; try lia. unfold mapped_file. destruct (flag_set flags MAP_ANONYMOUS); [by intros [? ?]|]. intros _. specialize (T7 eq_refl). lia. }
  pose proof Hrange as (_ & _ & _ & _ & _ & R6). fold (mapped_file file flags). destruct (mapped_file file flags) as [f|] eqn:Ef.
  - destruct (mmap_file_check f prot flags) as [u|err] eqn:Ec.
    + destruct (mmap_new_bounds t e (from_prot prot) (Some (mf_id f)) offset flags backing) as (B1 & B2 & _).
      apply (mmap_finish vs1 t e); try done; [|unfold mmapped_area; by rewrite Ef]. apply mmap_new_ok; try done. intros _. apply R6. by exists f.
    + eexists. split_and!; [done|done|]. unfold mmap_done. cbn. rewrite T3 in Hcl. case_raw_in Etrim Ef2; [|left; congruence]. right. apply andb_true_iff in Ef2 as [_ ->]. eauto.
  - destruct (mmap_new_bounds t e (from_prot prot) None offset flags backing) as (B1 & B2 & _).
    apply (mmap_finish vs1 t e); try done; [|unfold mmapped_area; by rewrite Ef]. by apply mmap_new_ok.
Qed.
End Mmap.
