(* ===== verification/VmMain.v ===== *)
(** * Virtual memory: the address spaces of all processes

    The step relation over the faults of the processes and of the kernel, the memory
    system calls, [fork], exit, the processes' own stores and the page cache; and what
    holds in every reachable state. *)

From Stdlib Require Import Sorted.
From stdpp Require Import gmap functions.
From S2P Require Import Prelude SysErr FrameAlloc Vm VmSpec VmSys VmMap VmProt VmProtSpec VmFault VmWorld VmCow VmFaultSpec VmFileFault VmGrow VmTrap VmFork VmForkSpec VmMmap.

Implicit Types a b : UserMapArea.
Implicit Types l : list UserMapArea.
Implicit Types vs : UserVMSet.
Implicit Types w : VmWorld.

(** ** Steps *)

(** A store through an entry, or a write of the kernel to a page of the page cache. *)
Definition write_frame w (p : Z) (bs : bytes) : VmWorld := mkVW (vw_spaces w) (vw_backings w) (vw_held w) (<[p := bs]> (vw_mem w)).
Definition set_held w (h : list Z) : VmWorld := mkVW (vw_spaces w) (vw_backings w) h (vw_mem w).

(** A program that has just been loaded.  Some of its pages are there already (the
    segments that [push_elf_load_area] copies, the trampoline and the trap context
    that [push] maps): each has a frame of its own that was free, and its entry has the
    flags of a new page of its area. *)
Definition loaded w vs : Prop :=
  areas_ok (areas vs) /\ Forall (fun a => attr_ok (attr a)) (areas vs) /\
  NoDup (space_refs vs) /\ Forall (fun p => strong_count w p = 0) (space_refs vs) /\
  (forall v e, page_table vs !! v = Some e <->
     exists a, a ∈ areas vs /\ data_frames a !! v = Some (pte_ppn e) /\ pte_acc e = pte_flags (initial_mapping_flags a)).

Inductive vm_step w : VmWorld -> Prop :=
| step_load s vs mem : vw_spaces w !! s = None -> loaded w vs -> (forall q, 0 < strong_count w q -> mem q = vw_mem w q) ->
    vm_step w (mkVW (<[s := vs]> (vw_spaces w)) (vw_backings w) (vw_held w) mem)
| step_fault s vs env va access st r : vw_spaces w !! s = Some vs -> env_ok w env -> stacks_plain (areas vs) -> genuine vs (floor va) access -> 0 <= va ->
    handle_page_fault env (strong_count w) va access (get_st w vs) = Some (st, r) -> vm_step w (put_st w s st)
| step_kernel_fault s vs env va access st r : vw_spaces w !! s = Some vs -> env_ok w env -> stacks_plain (areas vs) -> genuine vs (floor va) access ->
    fault_current_user_page env (strong_count w) va access (get_st w vs) = Some (st, r) -> vm_step w (put_st w s st)
| step_install s vs fault p around pw sw va access xr mem st r : vw_spaces w !! s = Some vs -> ff_vpn fault = floor va ->
    strong_count w p = 0 \/ p ∈ vw_held w -> (pw = true -> strong_count w p = 0) -> (sw = true -> ff_flags fault = MapShared) -> Forall (fun c : Z * Z => c.2 ∈ vw_held w) around ->
    install_file_backed_fault_page va fault p around pw sw access xr (mkFS vs (vw_backings w) mem) = (st, r) ->
    (forall q, 0 < strong_count w q -> mem q = vw_mem w q) -> vm_step w (put_st w s st)
| step_munmap s vs start len out : vw_spaces w !! s = Some vs -> 0 <= start -> 0 <= len -> sys_munmap vs start len = Some out ->
    vm_step w (put_space w s (out_vs out) (vw_mem w))
| step_mprotect s vs sealed start len prot vs' k r : vw_spaces w !! s = Some vs -> 0 <= start -> 0 <= len -> mprotect_safe vs (floor start) (floor start + ceil len) (from_prot prot) ->
    sys_mprotect_inner (strong_count w) sealed vs start len prot = Some (vs', k, r) -> vm_step w (put_space w s vs' (vw_mem w))
| step_madvise s vs addr len advice out : vw_spaces w !! s = Some vs -> sys_madvice vs addr len advice = Some out -> vm_step w (put_space w s (out_vs out) (vw_mem w))
| step_mmap s vs file backing start len prot flags offset out : vw_spaces w !! s = Some vs -> 0 <= start -> 0 <= len -> 0 <= offset -> fixed_clear vs start len flags ->
    mmap_install vs file backing start len prot flags offset = Some out -> vm_step w (put_space w s (out_vs out) (vw_mem w))
| step_fork s c vs supply parent child mem : vw_spaces w !! s = Some vs -> vw_spaces w !! c = None -> NoDup supply -> Forall (fun p => strong_count w p = 0) supply ->
    (fork_needs (areas vs) <= length supply)%nat -> from_existed_user_cow vs (vw_mem w) supply = Some (parent, child, mem) ->
    vm_step w (mkVW (<[c := child]> (<[s := parent]> (vw_spaces w))) (vw_backings w) (vw_held w) mem)
| step_exit s : vm_step w (mkVW (delete s (vw_spaces w)) (vw_backings w) (vw_held w) (vw_mem w))
| step_store s vs v e bs : vw_spaces w !! s = Some vs -> translate (page_table vs) v = Some e -> acc_w (pte_acc e) = true -> vm_step w (write_frame w (pte_ppn e) bs)
| step_cache_read p bs : strong_count w p = 0 -> vm_step w (write_frame (set_held w (p :: vw_held w)) p bs)
| step_cache_share p : p ∈ vw_held w -> vm_step w (set_held w (p :: vw_held w))
| step_cache_write p bs : p ∈ vw_held w -> vm_step w (write_frame w p bs)
| step_cache_drop h1 p h2 : vw_held w = h1 ++ p :: h2 -> vm_step w (set_held w (h1 ++ h2))
| step_backing_drop k : vm_step w (mkVW (vw_spaces w) (delete k (vw_backings w)) (vw_held w) (vw_mem w)).

Definition vm_init (mem : Z -> bytes) : VmWorld := mkVW ∅ ∅ [] mem.

(** ** The invariant along the steps *)

Lemma world_ok_mem w mem : world_ok w -> world_ok (mkVW (vw_spaces w) (vw_backings w) (vw_held w) mem).
Proof. done. Qed.

(** Changes outside the address spaces. *)
Lemma outside_world_ok w bk h mem : world_ok w ->
  (forall p, count p (outside bk h) <= count p (outside (vw_backings w) (vw_held w)) \/ strong_count w p = 0 \/ 0 < count p (outside (vw_backings w) (vw_held w))) ->
  world_ok (mkVW (vw_spaces w) bk h mem).
Proof.
  intros Hw Ho s vs Hs. apply (space_ok_frame w _ s); [|done|done|by apply (Hw s)]. intros p. unfold strong_count. cbn. rewrite !count_app.
  destruct (Ho p) as [H|[H|H]]; [left; lia|right; left; unfold strong_count in H; by rewrite count_app in H|by right; right].
Qed.

Lemma count_NoDup p ps : NoDup ps -> p ∈ ps -> count p ps = 1.
Proof.
  intros Hn. induction Hn as [|q ps Hq _ IH]; [by intros ?%elem_of_nil|]. rewrite count_cons. intros [-> |Hp]%elem_of_cons.
  - rewrite Z.eqb_refl. assert (~ 0 < count q ps) by (by rewrite count_pos). pose proof (count_nonneg q ps). lia.
  - rewrite IH by done. destruct (Z.eqb_spec p q); [by subst|lia].
Qed.

(** The pages of a program that has just been loaded agree with its areas. *)
Lemma loaded_vm_ok w vs : loaded w vs -> vm_ok vs /\ page_served vs.
Proof.
  intros (Hok & Hat & _ & _ & Hpt).
  assert (Hent : forall v e, page_table vs !! v = Some e -> exists a, area_at (areas vs) v = Some a /\ data_frames a !! v = Some (pte_ppn e) /\ pte_acc e = pte_flags (initial_mapping_flags a)).
  { intros v e (a & Ha & Hp & Hf)%Hpt. exists a. split; [|done]. apply area_at_unique; [done..|]. apply (ao_frames a (areas_ok_in _ _ Hok Ha) v _ Hp). }
  split; [split|]; [done| | | |].
  - intros v p Hr. unfold resident in Hr. destruct (area_at (areas vs) v) as [a|] eqn:Ea; [|done]. apply area_at_Some in Ea as [Ha _]. eexists. apply Hpt. by exists a.
  - intros v e [He _]%translate_Some. destruct (Hent v e He) as (a & Ea & Hp & _). unfold resident. by rewrite Ea.
  - intros v e i [He _]%translate_Some Hi. destruct (Hent v e He) as (a & Ea & Hp & Hf). unfold view in Hi. rewrite Ea in Hi. injection Hi as <-. rewrite Hf.
    unfold grants, pte_flags, initial_mapping_flags, mapping_flags. cbn. destruct (tracks_shared_file_dirty a), (acc_r (map_perm a)), (acc_w (map_perm a)), (acc_x (map_perm a)); done.
  - intros v i p f Hi _ He. destruct (Hent v _ He) as (a & Ea & _ & Hf). unfold view in Hi. rewrite Ea in Hi. injection Hi as <-. cbn in Hf. subst f.
    unfold pte_flags, initial_mapping_flags, mapping_flags. cbn. destruct (tracks_shared_file_dirty a), (acc_r (map_perm a)), (acc_w (map_perm a)), (acc_x (map_perm a)); done.
Qed.

Lemma loaded_world_ok w s vs mem : world_ok w -> vw_spaces w !! s = None -> loaded w vs -> world_ok (mkVW (<[s := vs]> (vw_spaces w)) (vw_backings w) (vw_held w) mem).
Proof.
  intros Hw Hs Hl. pose proof (loaded_vm_ok w vs Hl) as [Hvm Hse]. destruct Hl as (Hok & Hat & Hn & Hfr & _). set (w' := mkVW _ _ _ _).
  assert (Hcnt : forall p, strong_count w' p = count p (space_refs vs) + strong_count w p).
  { intros p. unfold strong_count, w'. cbn. rewrite !count_app, spaces_refs_insert by done. lia. }
  assert (Hin : forall p, 0 < count p (space_refs vs) -> strong_count w p = 0) by (intros p Hp%count_pos; rewrite Forall_forall in Hfr; auto).
  intros s1 vs1 H1. cbn in H1. destruct (decide (s1 = s)) as [-> |Hne].
  - rewrite lookup_insert_eq in H1. injection H1 as <-. split; [done|done| |done].
    intros v i p Hv Hp _. assert (Hc : strong_count w' p = 1); [|done].
    assert (Hr : resident (areas vs) v = Some p) by (by rewrite resident_view, Hv).
    assert (Hpos : 0 < count p (space_refs vs)) by (rewrite space_refs_count by done; apply mcount_pos; exists v; by rewrite rmap_lookup).
    rewrite Hcnt, (Hin p Hpos), count_NoDup; [done|done|by apply count_pos].
  - rewrite lookup_insert_ne in H1 by done. apply (space_ok_frame w w' s1); [|done|cbn; by rewrite lookup_insert_ne|by apply (Hw s1)].
    intros p. pose proof (count_nonneg p (space_refs vs)). destruct (decide (count p (space_refs vs) = 0)) as [E|E]; [left; rewrite Hcnt; lia|right; left; apply Hin; lia].
Qed.

Lemma exit_world_ok w s : world_ok w -> world_ok (mkVW (delete s (vw_spaces w)) (vw_backings w) (vw_held w) (vw_mem w)).
Proof.
  intros Hw s1 vs1 H1. cbn in H1. apply lookup_delete_Some in H1 as [Hne H1]. apply (space_ok_frame w _ s1); [|done|cbn; by rewrite lookup_delete_ne|by apply (Hw s1)].
  intros p. left. unfold strong_count. cbn. rewrite !count_app. destruct (vw_spaces w !! s) as [vs|] eqn:E; [|by rewrite delete_id].
  rewrite (spaces_refs_delete (vw_spaces w) s vs p E). pose proof (count_nonneg p (space_refs vs)). lia.
Qed.

Lemma bcount_delete bk k q : bcount (delete k bk) q <= bcount bk q.
Proof. rewrite (bcount_split bk k). pose proof (mcount_nonneg (bk !!! k) q). lia. Qed.

Lemma mprotect_step_ok w s vs sealed start len prot vs' k r : world_ok w -> vw_spaces w !! s = Some vs -> 0 <= start -> 0 <= len ->
  mprotect_safe vs (floor start) (floor start + ceil len) (from_prot prot) ->
  sys_mprotect_inner (strong_count w) sealed vs start len prot = Some (vs', k, r) -> forall mem, world_ok (put_space w s vs' mem).
Proof.
  intros Hw Hs H1 H2 Hg E. pose proof (vo_areas _ (sk_vm _ _ (Hw s vs Hs))) as Hok.
  destruct (sys_mprotect_cases (strong_count w) sealed vs start len prot Hok H1 H2) as [(r0 & E0 & _)|(n & En & A1 & A2 & A3 & A4 & _ & E0)]; rewrite E0 in E.
  - injection E as <- _ _. by apply put_same.
  - apply page_align_up_spec in En as (_ & _ & N3); [|lia].
    assert (Hfl : floor (start + n) = floor start + ceil len) by (rewrite N3; unfold floor, PAGE_SIZE; by rewrite Z.div_add).
    destruct (mprotect_world_ok w s vs (floor start) (floor (start + n)) (from_prot prot) Hw Hs) as (vs1 & k1 & Ea & Hwok).
    { unfold floor, PAGE_SIZE in *. zlia. }
    { done. }
    { by rewrite Hfl. }
    rewrite Ea in E. cbn in E. injection E as <- _ _. done.
Qed.

Lemma vm_step_ok w w' : world_ok w -> vm_step w w' -> world_ok w'.
Proof.
  intros Hw Hstep. destruct Hstep as [s vs mem Hs Hl _|s vs env va access st r Hs He Hp Hg Hva E|s vs env va access st r Hs He Hp Hg E|s vs fault p around pw sw va access xr mem st r Hs Hv H1 H2 H3 H4 E _
    |s vs start len out Hs H1 H2 E|s vs sealed start len prot vs' k r Hs H1 H2 Hg E|s vs addr len advice out Hs E|s vs file backing start len prot flags offset out Hs H1 H2 H3 Hf E
    |s c vs supply parent child mem Hs Hc Hn Hfr Hl E|s|s vs v e bs Hs He Hwr|p bs Hp|p Hp|p bs Hp|h1 p h2 Hh|k].
  - by apply loaded_world_ok.
  - by eapply page_fault_world_ok.
  - by eapply kernel_fault_world_ok.
  - by eapply (install_file_ok w s vs fault p pw sw).
  - destruct (munmap_world_ok w s vs start len Hw Hs H1 H2) as (out' & E' & Hok). rewrite E in E'. injection E' as <-. apply Hok.
  - by apply (mprotect_step_ok w s vs sealed start len prot vs' k r).
  - destruct (madvise_world_ok w s vs addr len advice Hw Hs) as (out' & E' & Hok). rewrite E in E'. injection E' as <-. apply Hok.
  - destruct (mmap_world_ok w s vs file backing start len prot flags offset Hw Hs H1 H2 H3 Hf) as (out' & E' & Hok & _). rewrite E in E'. injection E' as <-. apply Hok.
  - pose proof (Hw s vs Hs) as [Hvm _ _ _]. destruct (fork_spec vs supply (vw_mem w) (vo_areas _ Hvm) Hn) as (k & used & Hi & E'); [|done|].
    + intros v e He Hin. rewrite Forall_forall in Hfr. specialize (Hfr _ Hin). apply (vo_mapped _ Hvm) in He.
      pose proof (resident_count w s vs v _ Hs (vo_areas _ Hvm) He). pose proof (others_nonneg w s (pte_ppn e)). lia.
    + rewrite E in E'. injection E' as -> -> ->. by apply (fork_world_ok w s c vs supply k used).
  - by apply exit_world_ok.
  - by apply world_ok_mem.
  - apply (outside_world_ok w); [done|]. intros q. unfold outside. cbn [set_held vw_held vw_backings]. rewrite !count_app, count_cons. destruct (Z.eqb_spec q p); [subst q; by right; left|left; lia].
  - apply (outside_world_ok w); [done|]. intros q. unfold outside. rewrite !count_app, count_cons. destruct (Z.eqb_spec q p); [subst q|left; lia].
    right. right. apply count_pos in Hp. pose proof (count_nonneg p (concat (map frames (map_to_list (vw_backings w)).*2))). lia.
  - by apply world_ok_mem.
  - apply (outside_world_ok w); [done|]. intros q. left. unfold outside. rewrite Hh, !count_app, count_cons. destruct (q =? p); lia.
  - apply (outside_world_ok w); [done|]. intros q. left. unfold outside. rewrite !count_app. pose proof (bcount_delete (vw_backings w) k q). unfold bcount in *. lia.
Qed.

Lemma vm_reachable_ok mem w : rtc vm_step (vm_init mem) w -> world_ok w.
Proof.
  assert (Hind : forall x, rtc vm_step x w -> world_ok x -> world_ok w).
  { intros x H. induction H as [|x y z Hxy _ IH]; [done|]. intros Hx. apply IH. by eapply vm_step_ok. }
  intros H. apply (Hind _ H). by intros s vs Hs.
Qed.
