(* ===== verification/VmSafe.v ===== *)
(** * Virtual memory: the theorems

    What holds of every address space that faults, memory calls, forks and exits can
    produce, and what each of the calls does to it. *)

From Stdlib Require Import Sorted.
From stdpp Require Import gmap functions.
From S2P Require Import Prelude SysErr FrameAlloc Vm VmSpec VmSys VmMap VmProt VmProtSpec VmFault VmWorld VmCow VmFaultSpec VmFileFault VmGrow VmTrap VmFork VmForkSpec VmMmap VmMain.

Implicit Types a b : UserMapArea.
Implicit Types l : list UserMapArea.
Implicit Types vs : UserVMSet.
Implicit Types w : VmWorld.

(** C4: (invariant) In every address space the areas are sorted and
    disjoint, an entry of the page table that gives any access belongs to the frame that the
    area of the page records, gives no read, write or execution beyond the permissions of that
    area, and is for user mode exactly when the area is.  The system is one that the steps of the model reach: loads,
    faults, [mmap], [munmap], [mprotect], [madvise], [fork], exit, stores and the page cache,
    each in one piece; [brk], [mremap], [shmat] and [mlock] are not steps.  Left out are calls that
    the code accepts and that can break it (see the findings): [mprotect] that makes a private
    file mapping writable, a fault on a copy-on-write page whose entry already gives the access (a stale
    translation), [MAP_FIXED] over a trap context or trampoline, and faults where a
    [MAP_GROWSDOWN] mapping is of a file or shared. *)
Theorem vm_entries_within_areas mem w s vs : rtc vm_step (vm_init mem) w -> vw_spaces w !! s = Some vs ->
  areas_ok (areas vs) /\
  (forall v e, translate (page_table vs) v = Some e -> exists a, find_area (areas vs) (v * PAGE_SIZE) = Some a /\
     data_frames a !! v = Some (pte_ppn e) /\
     acc_u (pte_acc e) = acc_u (map_perm a) /\
     (acc_w (pte_acc e) = true -> acc_w (map_perm a) = true) /\
     (acc_x (pte_acc e) = true -> acc_x (map_perm a) = true) /\
     (acc_r (pte_acc e) = true -> acc_r (map_perm a) || acc_w (map_perm a) || acc_x (map_perm a) = true)) /\
  (forall a v p, a ∈ areas vs -> data_frames a !! v = Some p -> start_vpn a <= v < end_vpn a /\ exists f, page_table vs !! v = Some (mkPTE p f)).
Proof.
  intros Hr Hs. pose proof (vm_reachable_ok _ _ Hr s vs Hs) as [[Hok Hres Hm Hacc] _ _ Hse]. split_and!; [done| |].
  - intros v e He. pose proof (Hm v e He) as Hrv. unfold resident in Hrv. destruct (area_at (areas vs) v) as [a|] eqn:Ea; [|done].
    exists a. rewrite find_area_at, floor_page by done. assert (Hv : view (areas vs) v = Some (page_info a v)) by (unfold view; by rewrite Ea).
    pose proof He as [He0 _]%translate_Some. destruct (Hse v _ _ (pte_acc e) Hv Hrv) as (_ & _ & Hu); [by destruct e|]. split_and!; [done|done|exact Hu|..];
      destruct (Hacc v e (page_info a v) He) as (G1 & G2 & G3); try (unfold view; by rewrite Ea); done.
  - intros a v p Ha Hp. pose proof (ao_frames a (areas_ok_in _ _ Hok Ha) v p Hp) as Hin. split; [by apply in_area_spec|].
    apply Hres. unfold resident. by rewrite (area_at_unique _ a v Hok Ha Hin).
Qed.

(** C3: (safety) Copy-on-write isolates: a store of a process through a writable entry
    of one of its private pages (anonymous memory, stack, heap, program data, private file
    pages) changes what no other page of any process shows, no page of the page cache and no page
    of a shared anonymous mapping.  The system is one that the steps of the model reach: loads,
    faults, [mmap], [munmap], [mprotect], [madvise], [fork], exit, stores and the page cache,
    each in one piece; [brk], [mremap], [shmat] and [mlock] are not steps.  Left out are calls that
    the code accepts and that can break it (see the findings): [mprotect] that makes a private
    file mapping writable, a fault on a copy-on-write page whose entry already gives the access (a stale
    translation), [MAP_FIXED] over a trap context or trampoline, and faults where a
    [MAP_GROWSDOWN] mapping is of a file or shared. *)
Theorem vm_private_stores_isolated mem w s vs v e a bs : rtc vm_step (vm_init mem) w -> vw_spaces w !! s = Some vs ->
  translate (page_table vs) v = Some e -> acc_w (pte_acc e) = true -> find_area (areas vs) (v * PAGE_SIZE) = Some a -> shared_area a = false ->
  let w' := write_frame w (pte_ppn e) bs in
  (forall s' vs' v' e', vw_spaces w' !! s' = Some vs' -> translate (page_table vs') v' = Some e' -> (s', v') <> (s, v) ->
     vw_mem w' (pte_ppn e') = vw_mem w (pte_ppn e')) /\
  (forall p, p ∈ vw_held w' -> vw_mem w' p = vw_mem w p) /\
  (forall k m j p, vw_backings w' !! k = Some m -> m !! j = Some p -> vw_mem w' p = vw_mem w p).
Proof.
  intros Hr Hs He Hwr Hfa Hsh w'. pose proof (vm_reachable_ok _ _ Hr) as Hw. pose proof (Hw s vs Hs) as [[Hok _ Hm _] _ Hso _].
  rewrite find_area_at, floor_page in Hfa by done. pose proof (Hm v e He) as Hres. assert (Hd : data_frames a !! v = Some (pte_ppn e)) by (unfold resident in Hres; by rewrite Hfa in Hres).
  assert (Hc : strong_count w (pte_ppn e) = 1).
  { apply (proj2 (Hso v (page_info a v) (pte_ppn e) ltac:(unfold view; by rewrite Hfa) Hd Hsh) e He Hwr). }
  destruct (sole_unique w s vs v _ Hs Hok Hres Hc) as [Hoth Hun].
  assert (Hne : forall q, q <> pte_ppn e -> vw_mem w' q = vw_mem w q) by (intros q Hq; cbn; by rewrite fn_lookup_insert_ne).
  assert (Hout : forall q, 0 < outside_count w q -> q <> pte_ppn e).
  { intros q Hq ->. unfold others in Hoth. pose proof (count_nonneg (pte_ppn e) (spaces_refs (delete s (vw_spaces w)))). unfold outside_count in Hq. lia. }
  split_and!.
  - intros s' vs' v' e' Hs' He' Hneq. apply Hne. intros Eq. pose proof (Hw s' vs' Hs') as [[Hok' _ Hm' _] _ _ _]. pose proof (Hm' v' e' He') as Hr'. rewrite Eq in Hr'.
    destruct (decide (s' = s)) as [-> |Hss]; [|pose proof (others_other w s s' vs vs' v' _ ltac:(congruence) Hs Hs' Hok' Hr'); lia].
    cbn in Hs'. assert (vs' = vs) as -> by congruence. apply Hneq. by rewrite (Hun v' Hr').
  - intros p Hp. by apply Hne, Hout, held_outside.
  - intros k m j p Hk Hj. apply Hne, Hout, (backing_outside w k j). by rewrite (lookup_total_correct _ _ _ Hk).
Qed.

(** Every trap context and trampoline is mapped when it is created. *)
Definition clones_mapped vs : Prop := Forall (fun a => direct_clone (area_type a) = true -> lazy_flag a || cow_flag a = false) (areas vs).

(** C5: [fork] copies the memory of a process whose trap contexts and trampolines are
    mapped ([clones_mapped]: neither lazy nor copy-on-write).  Given a frame for each of
    their pages it returns, the parent keeps its pages but for the copy-on-write marks, the
    child has the same areas and reads the parent's bytes at every page the parent could
    access, no old frame changes, and a frame both reach is of a shared mapping or written
    by neither.  The system is one that the steps of the model reach: loads,
    faults, [mmap], [munmap], [mprotect], [madvise], [fork], exit, stores and the page cache,
    each in one piece; [brk], [mremap], [shmat] and [mlock] are not steps.  Left out are calls that
    the code accepts and that can break it (see the findings): [mprotect] that makes a private
    file mapping writable, a fault on a copy-on-write page whose entry already gives the access (a stale
    translation), [MAP_FIXED] over a trap context or trampoline, and faults where a
    [MAP_GROWSDOWN] mapping is of a file or shared. *)
Theorem fork_copies_memory mem w s c vs supply : rtc vm_step (vm_init mem) w -> vw_spaces w !! s = Some vs -> vw_spaces w !! c = None ->
  NoDup supply -> Forall (fun p => strong_count w p = 0) supply -> (fork_needs (areas vs) <= length supply)%nat -> clones_mapped vs ->
  exists parent child mem', from_existed_user_cow vs (vw_mem w) supply = Some (parent, child, mem') /\
    (forall v, view (areas parent) v = option_map forked_page (view (areas vs) v)) /\
    (forall v, option_map (with_frame None) (view (areas child) v) = option_map (with_frame None) (view (areas parent) v)) /\
    (forall v e, translate (page_table vs) v = Some e ->
       (exists e1, translate (page_table parent) v = Some e1 /\ pte_ppn e1 = pte_ppn e) /\
       (exists e2, translate (page_table child) v = Some e2 /\ mem' (pte_ppn e2) = vw_mem w (pte_ppn e))) /\
    (forall p, p ∉ supply -> mem' p = vw_mem w p) /\
    (forall v a e1 e2, find_area (areas vs) (v * PAGE_SIZE) = Some a -> translate (page_table parent) v = Some e1 -> translate (page_table child) v = Some e2 ->
       pte_ppn e1 = pte_ppn e2 -> shared_area a = true \/ (acc_w (pte_acc e1) = false /\ acc_w (pte_acc e2) = false)).
Proof.
  intros Hr Hs Hc Hn Hfr Hl Hcm. pose proof (vm_reachable_ok _ _ Hr) as Hw. pose proof (Hw s vs Hs) as [Hvm _ _ _]. pose proof (vo_areas _ Hvm) as Hok.
  destruct (fork_spec vs supply (vw_mem w) Hok Hn) as (k & used & Hi & E); [|done|].
  { intros v e He Hin. rewrite Forall_forall in Hfr. specialize (Hfr _ Hin). apply (vo_mapped _ Hvm) in He.
    pose proof (resident_count w s vs v _ Hs Hok He). pose proof (others_nonneg w s (pte_ppn e)). lia. }
  eexists _, _, _. split; [exact E|]. split_and!.
  - intros v. eapply fork_parent_view, Hi.
  - intros v. eapply fork_child_view, Hi.
  - intros v e He. pose proof (vo_mapped _ Hvm v e He) as Hres. unfold resident in Hres. destruct (area_at (areas vs) v) as [a|] eqn:Ea; [|done].
    eapply (fork_translate w s c vs supply k used); try done. intros Hx. unfold clones_mapped in Hcm. rewrite Forall_forall in Hcm. apply Hcm; [|done]. by apply area_at_Some in Ea as [? _].
  - intros p Hp. apply (fi_mem _ _ _ _ _ _ Hi). rewrite (fi_supply _ _ _ _ _ _ Hi) in Hp. set_solver.
  - intros v a e1 e2 Ha. rewrite find_area_at, floor_page in Ha by done. by eapply (fork_common w s c vs supply k used).
Qed.

(** C6: (refinement) On a well-formed address space ([vm_ok]: areas sorted and disjoint, file offsets
    that fit in 64 bits up to the end of each area, entries that agree with the areas)
    [sys_munmap] does not panic, fails with
    [EINVAL] exactly when the length is zero, the start is not a page or the range leaves the user
    space, and then changes nothing; otherwise every page of the range is gone from the
    areas and from the page table (trap contexts and trampolines excepted), every other page
    of the process, its attributes, its frame and its entry are as before, and the address
    space is well formed again.  The hypothesis matters: an [mremap] in place that makes the file
    offsets overflow, [MAP_FIXED] over a trap context and [brk] can break it (see the findings),
    and then the call can panic. *)
Theorem munmap_exact vs start len : vm_ok vs -> 0 <= start -> 0 <= len ->
  exists out, sys_munmap vs start len = Some out /\
    let valid := 0 < len /\ start mod PAGE_SIZE = 0 /\ start + ceil len * PAGE_SIZE <= USER_LAST + 1 in
    match out_result out with
    | Ok r => r = 0 /\ valid /\ vm_ok (out_vs out) /\ forall v,
        if unmapped start (start + ceil len * PAGE_SIZE) (areas vs) v
        then view (areas (out_vs out)) v = None /\ translate (page_table (out_vs out)) v = None
        else view (areas (out_vs out)) v = view (areas vs) v /\ page_table (out_vs out) !! v = page_table vs !! v
    | Err err => err = EINVAL /\ out_vs out = vs /\ ~ valid
    end.
Proof.
  intros Hvm H1 H2. unfold sys_munmap, fail_out.
  case_raw E; [eexists; split; [done|]; cbn; split_and!; [done|done|]; intros (? & ? & _); apply orb_true_iff in E as [E%Z.eqb_eq|E%negb_true_iff%Z.eqb_neq]; [lia|by rewrite page_offset_mod in E]|].
  apply orb_false_iff in E as [El%Z.eqb_neq Eo%negb_false_iff%Z.eqb_eq]. rewrite page_offset_mod in Eo. unfold page_align_len.
  assert (Hc : 0 < ceil len * PAGE_SIZE) by (unfold ceil, PAGE_SIZE; case_if; zlia).
  destruct (page_align_up len) as [n|] eqn:En; [|apply page_align_up_None in En; [|lia]; eexists; split; [done|]; cbn; split_and!; [done|done|]; intros (_ & _ & ?); lia].
  apply page_align_up_spec in En as (N1 & N2 & N3); [|lia]. rewrite (proj2 (Z.eqb_neq n 0)) by lia.
  destruct (checked_add start n) as [e|] eqn:Ee; unfold checked_add in Ee; case_if_in Ee; try done;
    [|eexists; split; [done|]; cbn; split_and!; [done|done|]; intros (_ & _ & ?); unfold USER_LAST in *; lia].
  injection Ee as <-. case_raw Ev.
  { eexists. split; [done|]. cbn. split_and!; [done|done|]. intros (_ & _ & ?). apply negb_true_iff in Ev. assert (valid_user_range start (start + n) = true); [|congruence].
    apply valid_user_range_spec. lia. }
  apply negb_false_iff, valid_user_range_spec in Ev as [V1 V2].
  destruct (trim_user_range_spec vs start (start + n) Hvm Eo) as (vs' & r & rel & -> & Hvm' & Hv & Ht & Hpt & _); [by apply mod_add_page|done|].
  cbn [mbind option_bind]. eexists. split; [done|]. cbn [out_result out_vs]. rewrite <- N3. split_and!; [done|lia|done|lia|done|].
  intros v. rewrite Hv, Ht. destruct (unmapped start (start + n) (areas vs) v) eqn:Eu; [done|]. split; [done|by apply Hpt].
Qed.

(** C8: (functional) On a well-formed address space ([vm_ok]; an [mremap] in place that makes file
    offsets overflow, [MAP_FIXED] over a trap context and [brk] can break it, and then the call can
    panic) [sys_mprotect] does not panic; a call that
    fails changes nothing; a call that succeeds gives every page of the range the new permissions
    and no page outside it, keeps every frame, file position and backing, marks a private page
    whose frame has other references as copy-on-write when it becomes writable, rewrites the entries of the
    resident pages of the range to their new flags, and asks the other CPUs to drop their
    translations whenever some entry lost an access.  The counts of references to the frames
    are arbitrary, so are the seals. *)
Theorem mprotect_exact refs vs sealed start len prot : vm_ok vs -> 0 <= start -> 0 <= len ->
  exists vs' k r, sys_mprotect_inner refs sealed vs start len prot = Some (vs', k, r) /\
    let lo := floor start in
    let hi := floor start + ceil len in
    (r = Ok 0 \/ vs' = vs) /\
    (r = Ok 0 -> mapped_range (areas vs) lo hi /\ vm_ok vs' /\
       (forall v, prot_view refs lo hi (from_prot prot) (view (areas vs) v) (view (areas vs') v) v) /\
       (0 < len -> walked lo hi (page_table vs) (page_table vs') (areas vs')) /\
       (k = TlbLocal \/ k = TlbNone -> no_revocation (page_table vs) (page_table vs'))).
Proof.
  intros Hvm H1 H2. pose proof (vo_areas _ Hvm) as Hok.
  destruct (sys_mprotect_cases refs sealed vs start len prot Hok H1 H2) as [(r0 & E0 & Hz)|(n & En & A1 & A2 & A3 & A4 & Hm & E0)]; rewrite E0.
  - exists vs, TlbNone, r0. split; [done|]. split; [by right|]. intros Er. specialize (Hz Er). subst len. assert (ceil 0 = 0) as -> by done. split_and!; [intros v ?; lia|done| |lia|intros _; apply no_revocation_refl].
    intros v. unfold prot_view. destruct (view (areas vs) v); [|done]. unfold in_range. destruct (Z.leb_spec (floor start) v), (Z.ltb_spec v (floor start + 0)); try done. lia.
  - apply page_align_up_spec in En as (_ & _ & N3); [|lia]. assert (Hfl : floor (start + n) = floor start + ceil len) by (rewrite N3; unfold floor, PAGE_SIZE; by rewrite Z.div_add).
    destruct (mprotect_apply_spec refs (floor start) (floor (start + n)) (from_prot prot) ltac:(unfold floor, PAGE_SIZE in *; zlia) vs Hok) as (vs' & k & Ea & Hok' & Hv & Hwalk & Htlb & _).
    rewrite Ea. cbn. eexists vs', k, (Ok 0). split; [done|]. split; [by left|]. intros _. rewrite <- Hfl. split_and!; try done. by eapply mprotect_vm_ok.
Qed.


(** C10: (equivalence) On every address space whose areas are sorted, disjoint and within user
    space ([areas_ok]; [MAP_FIXED] over a trap context and [brk] onto the next area
    break it, see the findings) the binary searches return what a
    scan of all the areas returns ([find_area] and the area that starts at a page), and
    [find_free_area] returns the lowest page-aligned range of the length from the hint on
    (from the base of the mappings without one) that no area touches, or nothing when there is none. *)
Theorem vm_searches_exact vs : areas_ok (areas vs) ->
  (forall va, find_area (areas vs) va = List.find (fun a => (start_vpn a <=? floor va) && (floor va <? end_vpn a)) (areas vs)) /\
  (forall t i, find_area_start_vpn_index (areas vs) t = Some i <-> exists a, areas vs !! i = Some a /\ start_vpn a = t) /\
  (forall start len, 0 <= start -> 0 < len ->
     let n := ceil len * PAGE_SIZE in
     let base := if start =? 0 then MMAP_BASE else ceil start * PAGE_SIZE in
     match find_free_area (areas vs) start len with
     | Some r => r mod PAGE_SIZE = 0 /\ base <= r /\ r + n <= USER_LAST + 1 /\ range_free (areas vs) r (r + n) /\ forall c, base <= c < r -> ~ range_free (areas vs) c (c + n)
     | None => forall c, base <= c -> c + n <= USER_LAST + 1 -> ~ range_free (areas vs) c (c + n)
     end).
Proof.
  intros Hok. split_and!.
  - intros va. by apply find_area_at.
  - intros t i. apply start_vpn_search_spec; [done|lia|lia|]. intros j a [?|Hj] Ha; [lia|]. apply lookup_lt_Some in Ha. lia.
  - intros start len H1 H2. by apply find_free_area_spec.
Qed.

(** C7: (liveness) One fault is enough: when a process of any reachable state accesses a page
    that its area allows it to access, and there is a free frame and, for a file mapping, a page of
    the file that can be read and marked dirty, the handler of the trap returns normally and
    the entry of the page then gives the access, so the instruction does not fault again. *)
Theorem page_fault_resolves mem w s vs env va access a : rtc vm_step (vm_init mem) w -> vw_spaces w !! s = Some vs ->
  find_area (areas vs) va = Some a -> access_bit (map_perm a) access = true -> resources env a (floor va) -> entry_allows (page_table vs) (floor va) access = false ->
  exists st, handle_page_fault env (strong_count w) va access (get_st w vs) = Some (st, Some Normal) /\ entry_allows (page_table (fs_vs st)) (floor va) access = true.
Proof.
  intros Hr Hs Ha Hb Hres Hd. pose proof (vm_reachable_ok _ _ Hr) as Hw. pose proof (vo_areas _ (sk_vm _ _ (Hw s vs Hs))) as Hok. rewrite find_area_at in Ha by done.
  by eapply (page_fault_progress env w s vs va a).
Qed.
