(* ===== verification/VmWitness.v ===== *)
(** * Virtual memory: examples

    A small run (a program is loaded, writes to its memory, forks, and the child
    writes to its copy), and what the theorems say about it. *)

From Stdlib Require Import Sorted.
From stdpp Require Import gmap functions.
From S2P Require Import Prelude SysErr FrameAlloc Vm VmSpec VmSys VmMap VmProt VmProtSpec VmFault VmWorld VmCow VmFaultSpec VmFileFault VmGrow VmTrap VmFork VmForkSpec VmMmap VmMain VmSafe.

Definition rw : Access := mkAcc true true false true.
Definition no_env : FaultEnv := mkFE None (fun _ => 0) (fun _ _ => None) (fun _ _ => None) (fun _ _ => false) 0.
Definition fresh_env (p : Z) : FaultEnv := mkFE (Some p) (fun _ => 0) (fun _ _ => None) (fun _ _ => None) (fun _ _ => false) 0.
Definition demo_mem : Z -> bytes := fun _ => [7].

(** A program with private memory at page 16 and a shared anonymous mapping at page 32. *)
Definition demo_space : UserVMSet :=
  mkVM ∅ [new_area 0x10000 0x13000 rw Mmap true; set_shared (Some 5) 0 (set_flags MapShared (new_area 0x20000 0x22000 rw Mmap true))].

Definition space (w : VmWorld) (s : Z) : UserVMSet := default (mkVM ∅ []) (vw_spaces w !! s).
Definition run (o : option (FaultSt * option PageFaultError)) (d : FaultSt) : FaultSt := match o with Some (st, _) => st | None => d end.

Lemma run_Some o d : bool_decide (is_Some (option_map snd o)) = true -> exists r, o = Some (run o d, r).
Proof. destruct o as [[st r]|]; [by exists r|intros H; by apply bool_decide_eq_true in H as [? ?]]. Qed.

Definition faulted (w : VmWorld) (s va p : Z) : VmWorld :=
  put_st w s (run (handle_page_fault (fresh_env p) (strong_count w) va Write (get_st w (space w s))) (get_st w (space w s))).

Definition demo0 : VmWorld := mkVW {[1 := demo_space]} ∅ [] demo_mem.
Definition demo1 : VmWorld := faulted demo0 1 0x10000 100.
Definition demo_fork := from_existed_user_cow (space demo1 1) (vw_mem demo1) [].
Definition demo2 : VmWorld :=
  match demo_fork with Some (parent, child, mem) => mkVW (<[2 := child]> (<[1 := parent]> (vw_spaces demo1))) (vw_backings demo1) (vw_held demo1) mem | None => demo1 end.
Definition demo3 : VmWorld := faulted demo2 2 0x10000 101.

(** A write fault of a program of the example is a step. *)
Lemma faulted_step w s va p : vw_spaces w !! s = Some (space w s) -> strong_count w p = 0 -> stacks_plain (areas (space w s)) -> genuine (space w s) (floor va) Write -> 0 <= va ->
  bool_decide (is_Some (option_map snd (handle_page_fault (fresh_env p) (strong_count w) va Write (get_st w (space w s))))) = true -> vm_step w (faulted w s va p).
Proof.
  intros Hs Hp Hpl Hg Hva Hr. destruct (run_Some _ (get_st w (space w s)) Hr) as [r E]. eapply (step_fault w s (space w s) (fresh_env p) va Write); try done.
  split_and!; [|done|done]. by intros q [= <-].
Qed.

Lemma demo0_reach : rtc vm_step (vm_init demo_mem) demo0.
Proof.
  apply rtc_once. apply (step_load (vm_init demo_mem) 1 demo_space); [done| |done]. split_and!.
  - apply areas_ok_cons. split_and!; [|by repeat constructor|apply areas_ok_one]; split; try done; try (intros; by rewrite lookup_empty in *); split; by intros [? ?] || (intros; vm_compute; done).
  - repeat constructor; done.
  - vm_compute. constructor.
  - vm_compute. constructor.
  - intros v e. cbn. rewrite lookup_empty. split; [done|]. intros (a & Ha & Hp & _). exfalso.
    apply elem_of_cons in Ha as [-> |Ha]; [by vm_compute in Hp|]. apply list_elem_of_singleton in Ha as ->. by vm_compute in Hp.
Qed.

Lemma demo1_step : vm_step demo0 demo1.
Proof. apply faulted_step; try (vm_compute; done). vm_compute. repeat constructor; done. Qed.

Lemma demo1_reach : rtc vm_step (vm_init demo_mem) demo1.
Proof. eapply rtc_r; [exact demo0_reach|exact demo1_step]. Qed.

Lemma demo2_step : vm_step demo1 demo2.
Proof.
  unfold demo2. destruct demo_fork as [[[parent child] mem]|] eqn:E; [|vm_compute in E; done].
  apply (step_fork demo1 1 2 (space demo1 1) []); try done; vm_compute; lia || constructor.
Qed.

Lemma demo3_step : vm_step demo2 demo3.
Proof. apply faulted_step; try (vm_compute; done). vm_compute. repeat constructor; done. Qed.

Lemma demo2_reach : rtc vm_step (vm_init demo_mem) demo2.
Proof. eapply rtc_r; [exact demo1_reach|exact demo2_step]. Qed.

Lemma demo3_reach : rtc vm_step (vm_init demo_mem) demo3.
Proof. eapply rtc_r; [exact demo2_reach|exact demo3_step]. Qed.

(** The child has its own frame, and may write only because its area allows it. *)
Lemma vm_entries_within_areas_witness : exists a, find_area (areas (space demo3 2)) (16 * PAGE_SIZE) = Some a /\ data_frames a !! 16 = Some 101 /\ acc_w (map_perm a) = true.
Proof.
  destruct (vm_entries_within_areas demo_mem demo3 2 (space demo3 2) demo3_reach ltac:(vm_compute; reflexivity)) as (_ & H & _).
  destruct (H 16 (mkPTE 101 rw)) as (a & H1 & H2 & _ & H3 & _); [vm_compute; reflexivity|]. exists a. split; [exact H1|]. split; [exact H2|]. apply H3. reflexivity.
Defined.

(** The child's store does not reach the parent's page. *)
Lemma vm_private_stores_isolated_witness : vw_mem (write_frame demo3 101 [9]) 100 = vw_mem demo3 100.
Proof.
  destruct (find_area (areas (space demo3 2)) (16 * PAGE_SIZE)) as [a|] eqn:Ea; [|vm_compute in Ea; discriminate Ea].
  assert (Hsh : shared_area a = false) by (vm_compute in Ea; injection Ea as <-; reflexivity).
  exact (proj1 (vm_private_stores_isolated demo_mem demo3 2 (space demo3 2) 16 (mkPTE 101 rw) a [9] demo3_reach ltac:(vm_compute; reflexivity) ltac:(vm_compute; reflexivity) ltac:(reflexivity) Ea Hsh)
    1 (space demo3 1) 16 (mkPTE 100 (mkAcc true false false true)) ltac:(vm_compute; reflexivity) ltac:(vm_compute; reflexivity) ltac:(discriminate)).
Defined.

Lemma fork_copies_memory_witness : exists parent child mem', from_existed_user_cow (space demo1 1) (vw_mem demo1) [] = Some (parent, child, mem') /\
  exists e2, translate (page_table child) 16 = Some e2 /\ mem' (pte_ppn e2) = vw_mem demo1 100.
Proof.
  destruct (fork_copies_memory demo_mem demo1 1 2 (space demo1 1) [] demo1_reach ltac:(vm_compute; reflexivity) ltac:(vm_compute; reflexivity) ltac:(constructor) ltac:(constructor) ltac:(vm_compute; lia))
    as (parent & child & mem' & E & _ & _ & H & _); [vm_compute; repeat constructor; discriminate|].
  exists parent, child, mem'. split; [exact E|]. exact (proj2 (H 16 (mkPTE 100 rw) ltac:(vm_compute; reflexivity))).
Defined.

Lemma reached_ok w s vs : rtc vm_step (vm_init demo_mem) w -> vw_spaces w !! s = Some vs -> vm_ok vs.
Proof. intros Hr Hs. apply (sk_vm _ _ (vm_reachable_ok _ _ Hr s vs Hs)). Qed.

(** Unmapping the middle page of the private memory. *)
Lemma munmap_exact_witness : exists out, sys_munmap (space demo3 1) 0x11000 0x1000 = Some out /\ view (areas (out_vs out)) 17 = None /\ view (areas (out_vs out)) 16 = view (areas (space demo3 1)) 16.
Proof.
  destruct (munmap_exact (space demo3 1) 0x11000 0x1000 (reached_ok demo3 1 _ demo3_reach ltac:(vm_compute; reflexivity)) ltac:(lia) ltac:(lia)) as (out & E & H).
  exists out. split; [exact E|]. destruct (out_result out) as [r|err] eqn:Er.
  - destruct H as (_ & _ & _ & H). split; [exact (proj1 (H 17))|exact (proj1 (H 16))].
  - exfalso. destruct H as (_ & _ & H). apply H. split; [reflexivity|]. split; [reflexivity|]. vm_compute. discriminate.
Defined.

(** The parent takes its page read-only: the other CPUs are told. *)
Lemma mprotect_exact_witness : exists vs' k r, sys_mprotect_inner (strong_count demo1) (fun _ => false) (space demo1 1) 0x10000 0x1000 1 = Some (vs', k, r) /\ r = Ok 0 /\ vm_ok vs'.
Proof.
  destruct (mprotect_exact (strong_count demo1) (space demo1 1) (fun _ => false) 0x10000 0x1000 1 (reached_ok demo1 1 _ demo1_reach ltac:(vm_compute; reflexivity)) ltac:(lia) ltac:(lia)) as (vs' & k & r & E & _ & H).
  assert (Er : r = Ok 0) by (vm_compute in E; injection E as _ _ <-; reflexivity). exists vs', k, r. split; [exact E|]. split; [exact Er|]. exact (proj1 (proj2 (H Er))).
Defined.


Lemma vm_searches_exact_witness : find_area (areas (space demo1 1)) 0x20fff = List.find (fun a => (start_vpn a <=? floor 0x20fff) && (floor 0x20fff <? end_vpn a)) (areas (space demo1 1)).
Proof. exact (proj1 (vm_searches_exact (space demo1 1) (vo_areas _ (reached_ok demo1 1 _ demo1_reach ltac:(vm_compute; reflexivity)))) 0x20fff). Defined.

(** The parent's store after the fork: its page is read-only and the frame has two references. *)
Lemma page_fault_resolves_witness : exists st, handle_page_fault (fresh_env 102) (strong_count demo2) 0x10008 Write (get_st demo2 (space demo2 1)) = Some (st, Some Normal) /\
  entry_allows (page_table (fs_vs st)) 16 Write = true.
Proof.
  destruct (find_area (areas (space demo2 1)) 0x10008) as [a|] eqn:Ea; [|vm_compute in Ea; discriminate Ea].
  apply (page_fault_resolves demo_mem demo2 1 (space demo2 1) (fresh_env 102) 0x10008 Write a demo2_reach); [vm_compute; reflexivity|exact Ea|..].
  - vm_compute in Ea. injection Ea as <-. reflexivity.
  - vm_compute in Ea. injection Ea as <-. split; [by exists 102|]. intros f H. discriminate H.
  - vm_compute. reflexivity.
Defined.
