(* ===== verification/VmFindings.v ===== *)
(** * Virtual memory: where the code differs from what it means to do

    Each example runs the model on a small address space. *)

From stdpp Require Import gmap functions.
From S2P Require Import Prelude SysErr FrameAlloc Vm VmSpec VmSys VmFault VmWorld VmFaultSpec VmTrap VmMmap VmWitness.

Definition ro : Access := mkAcc true false false true.

(** A private mapping of file 1, read-only, without pages. *)
Definition private_file : UserVMSet := mkVM ∅ [set_file (Some 1) None 0 (new_area 0x10000 0x11000 ro Mmap true)].
(** Frame 50 is the page cache's page of the file. *)
Definition cache_env : FaultEnv := mkFE None (fun _ => 4096) (fun _ _ => Some 50) (fun _ _ => None) (fun _ _ => true) 0.

(** [mprotect] makes it writable without copy-on-write, and the next read maps the
    page of the page cache writable. *)
Example mprotect_loses_cow :
  match sys_mprotect_inner (fun _ => 1) (fun _ => false) private_file 0x10000 0x1000 3 with
  | Some (vs, _, _) => match handle_page_fault cache_env (fun _ => 1) 0x10000 Read (mkFS vs ∅ demo_mem) with
                       | Some (st, _) => translate (page_table (fs_vs st)) 16
                       | None => None
                       end
  | None => None
  end = Some (mkPTE 50 rw).
Proof. vm_compute. reflexivity. Qed.

(** A read fault on a present copy-on-write page (the translation cache still had the
    older entry) makes the frame that the fork shares writable. *)
Example stale_read_breaks_cow :
  translate (page_table (space demo2 1)) 16 = Some (mkPTE 100 ro) /\ strong_count demo2 100 = 2 /\
  match handle_page_fault (fresh_env 102) (strong_count demo2) 0x10000 Read (get_st demo2 (space demo2 1)) with
  | Some (st, r) => r = Some Normal /\ translate (page_table (fs_vs st)) 16 = Some (mkPTE 100 rw)
  | None => False
  end.
Proof. vm_compute. done. Qed.

(** A read of a resident page that [mprotect] made execute-only: the handler returns
    normally and changes nothing, so the instruction faults for ever. *)
Definition xonly : Access := mkAcc false false true true.
Definition exec_only : UserVMSet := mkVM {[16 := mkPTE 100 xonly]} [set_frames {[16 := 100]} (new_area 0x10000 0x11000 xonly Mmap false)].
Example exec_only_read_loops : handle_page_fault no_env (fun _ => 1) 0x10000 Read (mkFS exec_only ∅ demo_mem) = Some (mkFS exec_only ∅ demo_mem, Some Normal) /\
  entry_allows (page_table exec_only) 16 Read = false.
Proof. split; [|reflexivity]. reflexivity. Qed.

(** A [MAP_SHARED] file page whose stores have to mark the page dirty is writable after
    [mremap] has moved it. *)
Definition shared_file : UserVMSet := mkVM {[16 := mkPTE 50 ro]} [set_flags MapShared (set_file (Some 1) None 0 (set_frames {[16 := 50]} (new_area 0x10000 0x11000 rw Mmap false)))].
Example mremap_skips_dirty :
  match sys_mremap shared_file 0x10000 0x1000 0x1000 3 0x40000 with
  | Some out => out_result out = Ok 0x40000 /\ translate (page_table (out_vs out)) 64 = Some (mkPTE 50 rw)
  | None => False
  end.
Proof. vm_compute. done. Qed.

(** A shrinking [brk] to an address inside a page leaves the page above it mapped,
    outside every area. *)
Definition heap4 : UserVMSet :=
  mkVM {[16 := mkPTE 100 rw; 17 := mkPTE 101 rw; 18 := mkPTE 102 rw]} [set_frames {[16 := 100; 17 := 101; 18 := 102]} (new_area 0x10000 0x13000 rw Heap false)].
Example brk_leaves_page :
  match sys_brk heap4 0x10800 with
  | Some out => out_result out = Ok 0x10800 /\ area_at (areas (out_vs out)) 17 = None /\ translate (page_table (out_vs out)) 17 = Some (mkPTE 101 rw)
  | None => False
  end.
Proof. vm_compute. done. Qed.

(** A growing [brk] to the start of the next area makes the heap overlap its first page. *)
Definition heap_and_next : UserVMSet := mkVM ∅ [new_area 0x10000 0x10001 rw Heap true; new_area 0x12000 0x13000 rw Mmap true].
Example brk_overlaps_neighbour :
  match sys_brk heap_and_next 0x12000 with
  | Some out => out_result out = Ok 0x12000 /\ List.filter (fun a => in_area a 18) (areas (out_vs out)) = areas (out_vs out) /\ length (areas (out_vs out)) = 2%nat
  | None => False
  end.
Proof. vm_compute. done. Qed.

(** [mprotect] of the last page of a heap that ends inside it moves the program break. *)
Definition heap_tail : UserVMSet := mkVM ∅ [new_area 0x10000 0x11801 rw Heap true].
Example mprotect_moves_break :
  current_brk (areas heap_tail) = Some 0x11800 /\
  match sys_mprotect_inner (fun _ => 1) (fun _ => false) heap_tail 0x11000 0x1000 1 with Some (vs, _, _) => current_brk (areas vs) = Some 0x11fff | None => False end.
Proof. vm_compute. done. Qed.

(** [mremap] in place does not check the file offsets; a later [munmap] panics. *)
Definition high_offset : UserVMSet := mkVM ∅ [set_file (Some 1) None (2 ^ 64 - 0x2000) (new_area 0x10000 0x11000 ro Mmap true)].
Example mremap_offset_overflow :
  match sys_mremap high_offset 0x10000 0x1000 0x4000 0 0 with
  | Some out => out_result out = Ok 0x10000 /\ sys_munmap (out_vs out) 0x10000 0x3000 = None
  | None => False
  end.
Proof. vm_compute. done. Qed.

(** A [MAP_GROWSDOWN] mapping of a file shows other bytes of the file after it has grown. *)
Definition growing_file : UserVMSet := mkVM ∅ [set_growdown true (set_file (Some 1) None 0 (new_area 0x10000 0x11000 ro Mmap true))].
Example growth_shifts_file :
  option_map pg_file (view (areas growing_file) 16) = Some (Some (1, 0)) /\
  match try_expand_stack (fresh_env 100) 0xf000 (mkFS growing_file ∅ demo_mem) with
  | Some (Some st) => option_map pg_file (view (areas (fs_vs st)) 16) = Some (Some (1, 0x1000))
  | _ => False
  end.
Proof. vm_compute. done. Qed.

(** An anonymous [MAP_SHARED_VALIDATE] mapping counts as shared and has no shared backing. *)
Example shared_validate_not_shared : let a := mmapped_area None 6 0x10000 0x11000 3 0x23 0 in shared_area a = true /\ shared_anonymous a = None.
Proof. vm_compute. done. Qed.

(** [MAP_FIXED] over a trap context inserts an area over the one that stays. *)
Definition trap_page : UserVMSet := mkVM {[0x3ffffff := mkPTE 100 (mkAcc true true false false)]} [set_frames {[0x3ffffff := 100]} (new_area 0x3ffffff000 0x4000000000 (mkAcc true true false false) TrapContext false)].
Example mmap_fixed_overlaps :
  match mmap_install trap_page None 6 0x3ffffff000 0x1000 3 0x32 0 with
  | Some out => out_result out = Ok 0x3ffffff000 /\ length (List.filter (fun a => in_area a 0x3ffffff) (areas (out_vs out))) = 2%nat
  | None => False
  end.
Proof. vm_compute. done. Qed.

(** A [MAP_FIXED] mapping of a file that is not readable fails after it has unmapped what
    was there. *)
Example mmap_fixed_fails_late :
  match mmap_install private_file (Some (mkMF 2 2 (Some RegularFile) true false true false)) 6 0x10000 0x1000 1 0x12 0 with
  | Some out => out_result out = Err EACCES /\ areas (out_vs out) = []
  | None => False
  end.
Proof. vm_compute. done. Qed.
