(* ===== verification/VmUser.v ===== *)
(** * Virtual memory: the kernel's accesses to user memory

    [resolve_user_pte], the translation of a user range into slices of frames, and the
    copies built on it ([os/src/mm/mod.rs], [read_user_bytes] of
    [os/src/syscall/fs/mod.rs]).  The calling process is [s], whose page table the token
    names; what its faults ask of the allocator and of the page cache is a function of the world at
    the time of the fault.  No other task runs on the address space during a copy.  The
    outer [None] of a result is a panic, or a loop that has run out of turns. *)

From stdpp Require Import gmap functions.
From S2P Require Import Prelude SysErr FrameAlloc Vm VmSys VmFault VmWorld VmFaultSpec VmTrap VmMain.

Implicit Types vs : UserVMSet.
Implicit Types w : VmWorld.

Definition MAX_FAULT_TRANSITIONS : nat := 3.

Definition pte_allows_access (e : PTE) (access : AccessType) : bool := acc_u (pte_acc e) && access_bit (pte_acc e) access.

Definition validate_user_copy_range (start e : Z) : SysResult unit :=
  if start =? e then Ok tt
  else if (start <? USER_FIRST) || (e <=? start) || match checked_sub e 1 with Some last => USER_LAST <? last | None => true end then Err EFAULT
  else Ok tt.

(** The entry of the page when it gives the access. *)
Definition allowed_entry vs (va : Z) (access : AccessType) : option PTE :=
  e ← translate (page_table vs) (floor va); if pte_allows_access e access then Some e else None.

(** A slice of a frame: [ppn.get_bytes_array()[lo..hi]]. *)
Record Slice := mkSlice { sl_ppn : Z; sl_lo : Z; sl_hi : Z }.

(** The bytes of a frame. *)
Definition page_bytes w (p : Z) : bytes := copy_page (vw_mem w p).
Definition slice_len (sl : Slice) : nat := Z.to_nat (sl_hi sl - sl_lo sl).
Definition read_slice w (sl : Slice) : bytes := slice (Z.to_nat (sl_lo sl)) (Z.to_nat (sl_hi sl)) (page_bytes w (sl_ppn sl)).
Definition write_slice (sl : Slice) (bs : bytes) w : VmWorld := write_frame w (sl_ppn sl) (splice (Z.to_nat (sl_lo sl)) bs (page_bytes w (sl_ppn sl))).

(** The loop of [copy_to_user]. *)
Fixpoint copy_slices (v : list Slice) (src : bytes) (copied : nat) w : option VmWorld :=
  match v with
  | [] => Some w
  | sl :: v =>
      let copy_len := slice_len sl in
      if (copied + copy_len <=? length src)%nat
      then copy_slices v src (copied + copy_len) (write_slice sl (slice copied (copied + copy_len) src) w)
      else None
  end.

(** The loop of [copy_user_value]. *)
Fixpoint gather_slices (v : list Slice) w (copied : nat) (destination : bytes) : option bytes :=
  match v with
  | [] => Some destination
  | sl :: v =>
      let len := slice_len sl in
      if (copied + len <=? length destination)%nat
      then gather_slices v w (copied + len) (splice copied (read_slice w sl) destination)
      else None
  end.

Section UserAccess.
Context (env_of : VmWorld -> FaultEnv) (s : Z).

Fixpoint resolve_attempts (tries : nat) (va : Z) (do_fault : bool) (access : AccessType) w : option (VmWorld * SysResult PTE) :=
  match vw_spaces w !! s with
  | None => Some (w, Err EFAULT)
  | Some vs =>
      match allowed_entry vs va access with
      | Some e => Some (w, Ok e)
      | None =>
          if negb do_fault then Some (w, Err EFAULT)
          else match tries with
          | O => Some (w, Err EFAULT)
          | S tries =>
              '(st, r) ← fault_current_user_page (env_of w) (strong_count w) va access (get_st w vs);
              match r with
              | Some Normal => resolve_attempts tries va do_fault access (put_st w s st)
              | _ => Some (put_st w s st, Err EFAULT)
              end
          end
      end
  end.

Definition resolve_user_pte : Z -> bool -> AccessType -> VmWorld -> option (VmWorld * SysResult PTE) := resolve_attempts MAX_FAULT_TRANSITIONS.

(** The loop over the pages of a range. *)
Fixpoint translate_pages (fuel : nat) (start e : Z) (do_fault : bool) (access : AccessType) w (v : list Slice) : option (VmWorld * SysResult (list Slice)) :=
  if negb (start <? e) then Some (w, Ok v)
  else match fuel with
  | O => None
  | S fuel =>
      '(w, r) ← resolve_user_pte start do_fault access w;
      match r with
      | Err err => Some (w, Err err)
      | Ok pte =>
          let end_va := Z.min ((floor start + 1) * PAGE_SIZE) e in
          let hi := if page_offset end_va =? 0 then PAGE_SIZE else page_offset end_va in
          translate_pages fuel end_va e do_fault access w (v ++ [mkSlice (pte_ppn pte) (page_offset start) hi])
      end
  end.

Definition translated_byte_buffer_inner (ptr len : Z) (do_fault : bool) (access : AccessType) w : option (VmWorld * SysResult (list Slice)) :=
  match checked_add ptr len with
  | None => Some (w, Err EFAULT)
  | Some e =>
      match validate_user_copy_range ptr e with
      | Err err => Some (w, Err err)
      | Ok _ => translate_pages (Z.to_nat (ceil e - floor ptr)) ptr e do_fault access w []
      end
  end.

Definition translated_byte_buffer (ptr len : Z) w := translated_byte_buffer_inner ptr len true Read w.
Definition translated_byte_buffer_for_write (ptr len : Z) w := translated_byte_buffer_inner ptr len true Write w.
Definition translated_byte_buffer_no_fault (ptr len : Z) w := translated_byte_buffer_inner ptr len false Read w.

Definition translated_single_byte_buffer_inner (ptr len : Z) (access : AccessType) w : option (VmWorld * SysResult (option Slice)) :=
  if len =? 0 then Some (w, Ok None)
  else match checked_add ptr len with
  | None => Some (w, Err EFAULT)
  | Some e =>
      if negb (floor ptr =? floor (e - 1)) then Some (w, Ok None)
      else
        '(w, r) ← resolve_user_pte ptr true access w;
        Some (w, match r with
                 | Ok pte => Ok (Some (mkSlice (pte_ppn pte) (page_offset ptr) (page_offset ptr + len)))
                 | Err err => Err err
                 end)
  end.

Definition copy_to_user (dst : Z) (src : bytes) w : option (VmWorld * SysResult Z) :=
  '(w, r) ← translated_byte_buffer_for_write dst (Z.of_nat (length src)) w;
  match r with
  | Err err => Some (w, Err err)
  | Ok v => w ← copy_slices v src 0 w; Some (w, Ok (Z.of_nat (length src)))
  end.

Definition read_user_bytes (ptr : Z) (len : nat) w : option (VmWorld * SysResult bytes) :=
  if (len =? 0)%nat then Some (w, Ok [])
  else
    '(w, r) ← translated_byte_buffer ptr (Z.of_nat len) w;
    Some (w, match r with Ok parts => Ok (concat (map (read_slice w) parts)) | Err err => Err err end).

(** [translated_ref], for a value of [size] bytes. *)
Definition translated_ref (ptr : Z) (size : nat) w : option (VmWorld * SysResult bytes) :=
  '(w, r) ← translated_byte_buffer ptr (Z.of_nat size) w;
  match r with
  | Err err => Some (w, Err err)
  | Ok buffers => value ← gather_slices buffers w 0 (replicate size 0); Some (w, Ok value)
  end.

Definition write_user_value (ptr : Z) (value : bytes) w : option (VmWorld * SysResult unit) :=
  '(w, r) ← copy_to_user ptr value w;
  Some (w, match r with Ok _ => Ok tt | Err err => Err err end).

(** [String::push] of [ch as char] for a byte [ch]: the UTF-8 encoding of the code
    point, two bytes from 0x80 on. *)
Definition utf8 (ch : Z) : bytes :=
  if ch <? 0x80 then [ch] else [Z.lor 0xC0 (Z.shiftr ch 6); Z.lor 0x80 (Z.land ch 0x3F)].

(** [translated_str]: one byte per turn up to the first zero. *)
Fixpoint translated_str (fuel : nat) (va : Z) (string : bytes) w : option (VmWorld * SysResult bytes) :=
  match fuel with
  | O => None
  | S fuel =>
      match checked_add va 1 with
      | None => Some (w, Err EFAULT)
      | Some e =>
          match validate_user_copy_range va e with
          | Err err => Some (w, Err err)
          | Ok _ =>
              '(w, r) ← resolve_user_pte va true Read w;
              match r with
              | Err err => Some (w, Err err)
              | Ok pte =>
                  let ch := nth (Z.to_nat (page_offset va)) (page_bytes w (pte_ppn pte)) 0 in
                  if ch =? 0 then Some (w, Ok string) else translated_str fuel e (string ++ utf8 ch) w
              end
          end
      end
  end.
End UserAccess.
