(* ===== verification/VmUserSpec.v ===== *)
(** * Virtual memory: what a copy to or from user memory does

    A fault that the kernel takes for a process keeps the attributes of every page, the
    other entries and the bytes of every page in use, and never panics, so it is invisible to
    all processes.  The translation of a range succeeds page by page; the slices are
    then read and written byte for byte. *)

From Stdlib Require Import Sorted.
From stdpp Require Import gmap functions.
From S2P Require Import Prelude SysErr FrameAlloc Vm VmSpec VmSys VmMap VmProt VmProtSpec VmFault VmWorld VmCow VmFaultSpec VmFileFault VmGrow VmTrap VmMain VmUser.

Implicit Types a b : UserMapArea.
Implicit Types l : list UserMapArea.
Implicit Types vs : UserVMSet.
Implicit Types w : VmWorld.
Implicit Types pt : PageTable.

(** What the page is, without its frame. *)
Definition meta_at l (u : Z) : option PageInfo := option_map (with_frame None) (view l u).

Definition plain_page (i : PageInfo) : Prop := pg_file i = None /\ pg_shared i = None.
Definition growable_page (i : PageInfo) : bool := bool_decide (pg_type i = Stack) || (bool_decide (pg_type i = Mmap) && pg_growdown i).

(** New pages are those of a stack that has grown. *)
Record gentle w vs (v : Z) (st : FaultSt) : Prop := {
  gt_meta : forall u, meta_at (areas (fs_vs st)) u = meta_at (areas vs) u \/
                      (meta_at (areas vs) u = None /\ forall i, meta_at (areas (fs_vs st)) u = Some i -> growable_page i = true /\ exists u', meta_at (areas vs) u' = Some i);
  gt_entry : forall u e, u <> v -> translate (page_table vs) u = Some e -> translate (page_table (fs_vs st)) u = Some e;
  gt_mem : forall p, 0 < strong_count w p -> fs_mem st p = vw_mem w p;
  gt_same : forall e, translate (page_table vs) v = Some e ->
              exists e', translate (page_table (fs_vs st)) v = Some e' /\ copy_page (fs_mem st (pte_ppn e')) = copy_page (vw_mem w (pte_ppn e)) }.

Lemma copy_page_length bs : length (copy_page bs) = Z.to_nat PAGE_SIZE.
Proof. unfold copy_page. rewrite length_take, length_app. unfold zero_page. rewrite length_replicate. lia. Qed.

Lemma copy_page_id bs : length bs = Z.to_nat PAGE_SIZE -> copy_page bs = bs.
Proof. intros H. unfold copy_page. by rewrite take_app_length' by done. Qed.

Lemma copy_page_twice bs : copy_page (copy_page bs) = copy_page bs.
Proof. apply copy_page_id, copy_page_length. Qed.

(** One area of the vector gets or loses frames. *)
Lemma set_area_meta l idx a a' u : l !! idx = Some a -> start_vpn a' = start_vpn a -> end_vpn a' = end_vpn a -> (forall x, page_meta a' x = page_meta a x) ->
  meta_at (<[idx := a']> l) u = meta_at l u.
Proof.
  intros Ha Es Ee Hm. unfold meta_at. revert idx Ha. induction l as [|b l IH]; intros [|idx] Ha; [done..| |].
  - cbn in Ha. injection Ha as ->. cbn [insert list_insert]. rewrite !view_cons. unfold in_area. rewrite Es, Ee. case_raw E; [|done]. cbn. f_equal.
    rewrite !page_info_meta, Hm. done.
  - cbn [insert list_insert] in *. rewrite !view_cons. case_raw E; [done|]. by apply IH.
Qed.

Lemma gentle_refl w vs v : gentle w vs v (get_st w vs).
Proof. split; eauto. Qed.

Lemma fresh_kept w env q bs (mem : Z -> bytes) : env_ok w env -> fe_fresh env = Some q -> (forall p, 0 < strong_count w p -> mem p = vw_mem w p) ->
  forall p, 0 < strong_count w p -> <[q := bs]> mem p = vw_mem w p.
Proof. intros (He & _) Hq Hm p Hp. rewrite fn_lookup_insert_ne; [by apply Hm|]. intros ->. specialize (He _ Hq). lia. Qed.

Lemma new_page_mem env a v access st p nc pc st' : new_page env a v access st = inr (p, nc, pc, st') ->
  fs_mem st' = fs_mem st \/ exists q bs, fe_fresh env = Some q /\ fs_mem st' = <[q := bs]> (fs_mem st).
Proof.
  assert (Hz : zeroed_page env st = inr (p, nc, pc, st') -> fs_mem st' = fs_mem st \/ exists q bs, fe_fresh env = Some q /\ fs_mem st' = <[q := bs]> (fs_mem st)).
  { unfold zeroed_page. destruct (fe_fresh env) as [q|]; [|done]. intros [= <- <- <- <-]. right. by eexists _, _. }
  assert (Hm : mapping_page env a v access st = inr (p, nc, pc, st') -> fs_mem st' = fs_mem st \/ exists q bs, fe_fresh env = Some q /\ fs_mem st' = <[q := bs]> (fs_mem st)).
  { unfold mapping_page. destruct (map_file a) as [f|]; cbn zeta.
    - case_if; [done|]. destruct (fe_cache env f _); [|done]. case_if; [|intros [= <- <- <- <-]; by left].
      destruct (fe_fresh env) as [q|]; [|done]. intros [= <- <- <- <-]. right. by eexists _, _.
    - destruct (shared_anonymous a) as [k|]; [|done]. unfold allocate_shared_anonymous_frame. destruct (_ !! _); [intros [= <- <- <- <-]; by left|].
      destruct (fe_fresh env) as [q|]; [|done]. cbn. intros [= <- <- <- <-]. right. by eexists _, _. }
  unfold new_page. destruct (area_type a); done.
Qed.

Section Fault.
Context (env : FaultEnv) (w : VmWorld) (s : Z) (vs : UserVMSet).
Context (Hw : world_ok w) (Hs : vw_spaces w !! s = Some vs) (He : env_ok w env).

(** A page in use has a reference to its frame. *)
Lemma mapped_count u e : translate (page_table vs) u = Some e -> 0 < strong_count w (pte_ppn e).
Proof.
  intros Ht. pose proof (sk_vm _ _ (Hw s vs Hs)) as Hvm. apply (vo_mapped _ Hvm) in Ht.
  pose proof (resident_count w s vs u _ Hs (vo_areas _ Hvm) Ht). pose proof (others_nonneg w s (pte_ppn e)). lia.
Qed.

(** The same frame with other flags. *)
Lemma gentle_flags v e f st : translate (page_table vs) v = Some e -> page_table (fs_vs st) !! v = Some (mkPTE (pte_ppn e) f) -> is_table (mkPTE (pte_ppn e) f) = false ->
  (forall u, u <> v -> page_table (fs_vs st) !! u = page_table vs !! u) -> (forall u, meta_at (areas (fs_vs st)) u = meta_at (areas vs) u) -> fs_mem st = vw_mem w -> gentle w vs v st.
Proof.
  intros Ht Hv Hf Ho Hm Hmem. split.
  - by left.
  - intros u x Hu Hx. unfold translate in *. by rewrite Ho.
  - intros p _. by rewrite Hmem.
  - intros x Hx. assert (x = e) as -> by congruence. eexists. split; [by apply translate_Some|]. by rewrite Hmem.
Qed.

(** A page that had no entry. *)
Lemma gentle_new v st : translate (page_table vs) v = None -> (forall u e, u <> v -> translate (page_table vs) u = Some e -> page_table (fs_vs st) !! u = page_table vs !! u) ->
  (forall u, meta_at (areas (fs_vs st)) u = meta_at (areas vs) u) -> (forall p, 0 < strong_count w p -> fs_mem st p = vw_mem w p) -> gentle w vs v st.
Proof.
  intros Ht Ho Hm Hmem. split; [by left| |done|intros e; congruence].
  intros u e Hu Hx. pose proof (Ho u e Hu Hx) as E. unfold translate in *. by rewrite E.
Qed.

Lemma perm_live v e a : translate (page_table vs) v = Some e -> area_at (areas vs) v = Some a -> is_table (mkPTE (pte_ppn e) (pte_flags (mapping_flags (map_perm a)))) = false.
Proof.
  intros Ht Ha. pose proof (sk_vm _ _ (Hw s vs Hs)) as Hvm. destruct (vo_access _ Hvm v e (page_info a v) Ht ltac:(unfold view; by rewrite Ha)) as (G1 & G2 & G3).
  apply translate_Some in Ht as [_ Ht]. unfold is_table in *. cbn in *. apply negb_false_iff. apply negb_false_iff in Ht.
  destruct (map_perm a) as [r0 w0 x0 u0]. cbn in *. destruct (pte_acc e) as [r1 w1 x1 u1]. cbn in *.
  destruct r1; [specialize (G3 eq_refl); destruct r0, w0, x0; done|]. destruct w1; [rewrite G1 by done; by rewrite !orb_true_r|]. destruct x1; [|done]. rewrite G2 by done. apply orb_true_r.
Qed.

Lemma unalloc_gentle va access st' r : handle_unalloc_page_fault env va access (get_st w vs) = (st', r) -> gentle w vs (floor va) st'.
Proof.
  pose proof (sk_vm _ _ (Hw s vs Hs)) as Hvm. pose proof (vo_areas _ Hvm) as Hok. set (v := floor va) in *.
  unfold handle_unalloc_page_fault. fold v. change (st_areas (get_st w vs)) with (areas vs). change (st_pt (get_st w vs)) with (page_table vs).
  destruct (find_area_index (areas vs) va) as [idx|] eqn:Ei; [|intros H; injection H as <- _; apply gentle_refl].
  destruct (find_index_at _ _ _ Hok Ei) as (a & Ha & Hat & Hin). fold v in Hat, Hin. rewrite Ha.
  assert (Hres : resident (areas vs) v = data_frames a !! v) by (unfold resident; by rewrite Hat).
  destruct (data_frames a !! v) as [p|] eqn:Ep.
  - destruct (vo_resident _ Hvm v p Hres) as [f Hf]. rewrite Hf. cbn [pte_acc]. intros H; injection H as <- _. case_bool_decide as Eq; [apply gentle_refl|].
    destruct (translate (page_table vs) v) as [e|] eqn:Et.
    + assert (e = mkPTE p f) as -> by (apply translate_Some in Et as [Et _]; congruence). eapply (gentle_flags v (mkPTE p f)); [done| |by apply (perm_live v (mkPTE p f) a)| |done|done]; cbn -[set_pte_flags].
      * rewrite set_flags_lookup, bool_decide_eq_true_2 by done. by rewrite Hf.
      * intros u Hu. by rewrite set_flags_lookup, bool_decide_eq_false_2.
    + apply gentle_new; try done. intros u e Hu _. cbn -[set_pte_flags]. by rewrite set_flags_lookup, bool_decide_eq_false_2.
  - assert (Ht : translate (page_table vs) v = None) by (destruct (translate (page_table vs) v) eqn:E; [apply (vo_mapped _ Hvm) in E; congruence|done]).
    assert (Hgo : forall pt0, (forall u, u <> v -> pt0 !! u = page_table vs !! u) -> let st0 := mkFS (mkVM pt0 (areas vs)) (vw_backings w) (vw_mem w) in
      match new_page env a v access st0 with
      | inl err => (st0, Some err)
      | inr (p, needs_cow, private_copy, st) =>
          let a' := add_frame v p a in
          (map_fault_page v p (needs_cow && negb private_copy) a' (put_areas (<[idx := a']> (st_areas st)) st), Some Normal)
      end = (st', r) -> gentle w vs v st').
    { intros pt0 Hpt0 st0. destruct (new_page env a v access st0) as [err|[[[p nc] pc] st1]] eqn:En; intros H; injection H as <- _; [by apply gentle_new; [|intros u e Hu _; cbn; auto|..]|].
      pose proof (new_page_mem _ _ _ _ _ _ _ _ _ En) as Hmem. apply new_page_source in En as [Evs _]. destruct (with_page_add v p a) as (_ & W2 & W3 & W4 & _).
      apply gentle_new; [done| | |].
      - intros u e Hu _. unfold map_fault_page, st_pt. cbn. rewrite Evs. unfold map_page. cbn. rewrite lookup_insert_ne by done. auto.
      - intros u. unfold map_fault_page, st_areas. cbn. rewrite Evs. by apply (set_area_meta _ _ a).
      - cbn. destruct Hmem as [-> |(q & bs & Hq & ->)]; [done|]. by eapply fresh_kept. }
    assert (Eg : get_st w vs = mkFS (mkVM (page_table vs) (areas vs)) (vw_backings w) (vw_mem w)) by (by destruct vs).
    destruct (page_table vs !! v); [apply (Hgo (delete v (page_table vs))); intros; by rewrite lookup_delete_ne|rewrite Eg; by apply (Hgo (page_table vs))].
Qed.

Lemma cow_gentle va st' r : (forall a, area_at (areas vs) (floor va) = Some a -> cow_flag a = true) ->
  handle_cow_page_fault env (strong_count w) va (get_st w vs) = (st', r) -> gentle w vs (floor va) st'.
Proof.
  intros Hcow. pose proof (Hw s vs Hs) as [Hvm Hatt _ _]. pose proof (vo_areas _ Hvm) as Hok. set (v := floor va) in *.
  assert (Hsame : forall r0, (get_st w vs, r0) = (st', r) -> gentle w vs v st') by (intros r0 H; injection H as <- _; apply gentle_refl).
  unfold handle_cow_page_fault. fold v. change (st_areas (get_st w vs)) with (areas vs). change (st_pt (get_st w vs)) with (page_table vs).
  destruct (translate (page_table vs) v) as [e|] eqn:Et; [|apply Hsame]. destruct (acc_w (pte_acc e)) eqn:Ew; [apply Hsame|].
  destruct (find_area_index (areas vs) va) as [idx|] eqn:Ei; [|apply Hsame].
  destruct (find_index_at _ _ _ Hok Ei) as (a & Ha & Hat & Hin). fold v in Hat, Hin. rewrite Ha.
  destruct (data_frames a !! v) as [old|] eqn:Eo; [|apply Hsame]. pose proof (Hcow a Hat) as Hc.
  assert (Hwr : acc_w (map_perm a) = true) by (rewrite Forall_lookup in Hatt; by apply (ak_cow _ (Hatt idx a Ha))).
  assert (Hold : old = pte_ppn e) by (pose proof (vo_mapped _ Hvm v e Et) as Hr; unfold resident in Hr; rewrite Hat in Hr; cbn in Hr; congruence). subst old.
  pose proof (perm_live v e a Et Hat) as Hlive. pose proof (mapped_count v e Et) as Hcnt. pose proof Et as [Hf _]%translate_Some. cbv zeta.
  destruct (Z.eqb_spec (strong_count w (pte_ppn e)) 1) as [E1|E1].
  - rewrite set_perm_id by done. intros H; injection H as <- _. eapply (gentle_flags v e); [done| |exact Hlive|..]; cbn -[alter]; [by rewrite lookup_alter_eq, Hf|by intros; rewrite lookup_alter_ne| |done].
    intros u. by rewrite list_insert_id.
  - destruct (fe_fresh env) as [p|] eqn:Ef; [|apply Hsame]. set (a' := set_frames _ a). rewrite (set_perm_id a') by done. intros H; injection H as <- _.
    split; cbn -[alter copy_page].
    + intros u. left. by apply (set_area_meta _ _ a).
    + intros u x Hu Hx. unfold translate in *. by rewrite lookup_alter_ne.
    + by eapply fresh_kept.
    + intros x Hx. assert (x = e) as -> by congruence. eexists. split; [apply translate_Some; split; [by rewrite lookup_alter_eq, Hf|exact Hlive]|]. cbn [pte_ppn].
      rewrite fn_lookup_insert. apply copy_page_twice.
Qed.

Lemma shared_write_gentle va st' r : handle_shared_file_write_fault_current env va (get_st w vs) = Some (st', r) -> gentle w vs (floor va) st'.
Proof.
  pose proof (sk_vm _ _ (Hw s vs Hs)) as Hvm. pose proof (vo_areas _ Hvm) as Hok. set (v := floor va). unfold handle_shared_file_write_fault_current. fold v.
  change (st_areas (get_st w vs)) with (areas vs). change (st_pt (get_st w vs)) with (page_table vs). destruct (translate (page_table vs) v) as [e|] eqn:Et; [|done]. cbn [mbind option_bind].
  rewrite find_area_at by done. fold v. destruct (area_at (areas vs) v) as [a|] eqn:Ea; [|done]. cbn [mbind option_bind]. destruct (data_frames a !! v) as [p|]; [|done]. cbn [mbind option_bind].
  case_if; [done|]. case_if; [intros [= <- _]; apply gentle_refl|]. destruct (map_file a); [|done]. cbn [mbind option_bind]. destruct (checked_add _ _); [|done]. cbn [mbind option_bind].
  case_if; [intros [= <- _]; apply gentle_refl|]. destruct (Z.eqb_spec (pte_ppn e) p) as [<- |]; [|done]. cbn [negb]. intros [= <- _].
  eapply (gentle_flags v e); [done|cbn; by rewrite lookup_insert_eq|by apply (perm_live v e a)| |done|done]. intros u Hu. cbn. by rewrite lookup_insert_ne.
Qed.

Lemma install_arounds_meta fault cs a maps : let a' := (fold_left (install_around fault) cs (a, maps)).1 in
  start_vpn a' = start_vpn a /\ end_vpn a' = end_vpn a /\ forall x, page_meta a' x = page_meta a x.
Proof.
  revert a maps. induction cs as [|[u p] cs IH]; intros a maps; [done|]. cbn [fold_left].
  assert (Hone : exists a' maps', install_around fault (a, maps) (u, p) = (a', maps') /\ start_vpn a' = start_vpn a /\ end_vpn a' = end_vpn a /\ forall x, page_meta a' x = page_meta a x).
  { unfold install_around. case_raw E1; [by exists a, maps|]. case_raw E2; [by exists a, maps|]. destruct (data_frames a !! u); eexists _, _; split; done. }
  destruct Hone as (a' & maps' & -> & H1 & H2 & H3). destruct (IH a' maps') as (I1 & I2 & I3). cbv zeta. rewrite I1, I2. split_and!; [done|done|]. intros x. by rewrite I3.
Qed.

Lemma full_meta a : start_vpn (clear_lazy_if_full a) = start_vpn a /\ end_vpn (clear_lazy_if_full a) = end_vpn a /\ forall x, page_meta (clear_lazy_if_full a) x = page_meta a x.
Proof. unfold clear_lazy_if_full. by case_if. Qed.

Lemma install_gentle va fault p around pw sw access xr mem st' r : ff_vpn fault = floor va -> (forall q, 0 < strong_count w q -> mem q = vw_mem w q) ->
  install_file_backed_fault_page va fault p around pw sw access xr (mkFS vs (vw_backings w) mem) = (st', r) -> gentle w vs (floor va) st'.
Proof.
  intros Ev Hmem. pose proof (sk_vm _ _ (Hw s vs Hs)) as Hvm. pose proof (vo_areas _ Hvm) as Hok. unfold install_file_backed_fault_page. rewrite Ev. set (v := floor va) in *.
  change (st_areas (mkFS vs (vw_backings w) mem)) with (areas vs). change (st_pt (mkFS vs (vw_backings w) mem)) with (page_table vs).
  destruct (translate (page_table vs) v) as [e|] eqn:Et.
  { intros H; injection H as <- _. split; cbn; [by left|done|done|]. intros x Hx. exists x. split; [done|]. rewrite Hmem; [done|]. by eapply mapped_count. }
  assert (Hsame : gentle w vs v (mkFS vs (vw_backings w) mem)) by (by apply gentle_new).
  destruct (find_area_index (areas vs) va) as [idx|] eqn:Ei; [|intros H; injection H as <- _; done].
  destruct (find_index_at _ _ _ Hok Ei) as (a & Ha & _ & _). rewrite Ha. case_raw Ec; [intros H; injection H as <- _; done|]. clear Ec.
  assert (Hone : exists q (fl : bool) a1, match data_frames a !! v with Some q => (q, false, a) | None => (p, true, clear_lazy_if_full (set_frames (<[v := p]> (data_frames a)) a)) end = (q, fl, a1) /\
    start_vpn a1 = start_vpn a /\ end_vpn a1 = end_vpn a /\ forall x, page_meta a1 x = page_meta a x).
  { destruct (data_frames a !! v); eexists _, _, _; split; try done. destruct (full_meta (set_frames (<[v := p]> (data_frames a)) a)) as (F1 & F2 & F3). rewrite F1, F2. split_and!; [done|done|]. intros x. by rewrite F3. }
  destruct Hone as (q & fl & a1 & -> & A1 & A2 & A3). set (prim := if sw then _ else _). set (ar := List.filter _ _).
  pose proof (install_arounds_meta fault ar a1 [(v, q, prim)]) as Hmeta. cbv zeta in Hmeta.
  assert (Hkeep : forall u e, u <> v -> translate (page_table vs) u = Some e -> map_pages (fold_left (install_around fault) ar (a1, [(v, q, prim)])).2 (page_table vs) !! u = page_table vs !! u).
  { intros u e Hu Ht. assert (Har : Forall (fun c : Z * Z => c.1 <> u) ar).
    { apply Forall_forall. intros c Hc%list_elem_of_In. apply filter_In in Hc as [_ Hc]. apply bool_decide_eq_true in Hc. intros <-. congruence. }
    destruct (install_arounds_maps fault u ar a1 [(v, q, prim)] Har) as (extra & -> & Hex). apply map_pages_other. constructor; [done|exact Hex]. }
  destruct (fold_left (install_around fault) ar (a1, [(v, q, prim)])) as [a2 maps]. cbn [fst snd] in Hmeta, Hkeep. intros H; injection H as <- _.
  destruct Hmeta as (M1 & M2 & M3). destruct (full_meta a2) as (F1 & F2 & F3). apply gentle_new; [done|exact Hkeep| |exact Hmem].
  intros u. cbn. apply (set_area_meta _ _ a); [done|congruence..|]. intros x. by rewrite F3, M3, A3.
Qed.

Lemma fault_frame_mem fault pw sw mem p n mem' : (forall q, 0 < strong_count w q -> mem q = vw_mem w q) -> fault_frame env fault pw sw mem = inr (p, n, mem') ->
  forall q, 0 < strong_count w q -> mem' q = vw_mem w q.
Proof.
  intros Hm. unfold fault_frame. cbv zeta. set (zb := if bool_decide (ff_type fault = Elf) then option_map _ _ else None). clearbody zb. case_if.
  { destruct (fe_fresh env) eqn:Ef; [|done]. intros [= <- <- <-]. by eapply fresh_kept. }
  case_if; [done|]. destruct (fe_cache env _ _); [|done]. case_if; [done|]. case_if; [|intros [= <- <- <-]; done].
  destruct (fe_fresh env) eqn:Ef; [|done]. intros [= <- <- <-]. by eapply fresh_kept.
Qed.

Lemma file_gentle va access xr st' r : handle_file_backed_page_fault_current env va access xr (get_st w vs) = Some (st', r) -> gentle w vs (floor va) st'.
Proof.
  unfold handle_file_backed_page_fault_current.
  destruct (if bool_decide (access = Write) then handle_shared_file_write_fault_current env va (get_st w vs) else None) as [[st1 r1]|] eqn:E.
  { intros [= <- <-]. case_bool_decide; [|done]. by eapply shared_write_gentle. }
  destruct (file_backed_fault_snapshot va access xr (get_st w vs)) as [[fault|]|] eqn:Es; [|intros [= <- _]; apply gentle_refl|done].
  assert (Ev : ff_vpn fault = floor va).
  { unfold file_backed_fault_snapshot in Es. destruct (translate _ _); [done|]. destruct (find_area _ _) as [a|]; [|done]. cbn in Es. destruct (map_file a); [|done]. cbn in Es.
    case_if_in Es; [done|]. case_if_in Es; [done|]. case_if_in Es; [done|]. by injection Es as <-. }
  cbv zeta. destruct (fault_frame _ _ _ _ _) as [err|[[p n] mem]] eqn:Ef; [intros [= <- _]; apply gentle_refl|]. intros [= H]. eapply install_gentle; [done| |exact H].
  by eapply fault_frame_mem.
Qed.

Context (Hpl : stacks_plain (areas vs)).

Lemma unmapped_page u : area_at (areas vs) u = None -> translate (page_table vs) u = None.
Proof.
  intros Hn. destruct (translate (page_table vs) u) as [e|] eqn:Et; [|done]. apply (vo_mapped _ (sk_vm _ _ (Hw s vs Hs))) in Et. unfold resident in Et. by rewrite Hn in Et.
Qed.

Lemma expand_gentle va st' : 0 <= va -> try_expand_stack env va (get_st w vs) = Some (Some st') -> gentle w vs (floor va) st'.
Proof.
  intros Hva. pose proof (vo_areas _ (sk_vm _ _ (Hw s vs Hs))) as Hok. unfold try_expand_stack. change (st_areas (get_st w vs)) with (areas vs).
  destruct (nearest_stack env va (areas vs) 0 None) as [[idx d]|] eqn:En; [|done].
  apply nearest_stack_spec in En as [En|(k & a & -> & Ha & Hg & Hlt)]; [done|]. cbn [Nat.add]. rewrite Ha. cbn [mbind option_bind]. set (first := floor va).
  case_raw E1; [done|]. case_raw E2; [done|]. case_raw E3; [done|]. apply Z.leb_gt in E1. destruct (fe_fresh env) as [p|] eqn:Ef; [|done].
  unfold stacks_plain in Hpl. rewrite Forall_lookup in Hpl. pose proof (Hpl k a Ha Hg) as Hplain. assert (H0 : 0 <= first) by (subst first; unfold floor, PAGE_SIZE; zlia).
  pose proof (areas_ok_in _ _ Hok (list_elem_of_lookup_2 _ _ _ Ha)) as Haok. pose proof (area_ok_vpn a Haok).
  set (m := <[first := p]> (data_frames a)). set (z := if end_vpn a - first <=? Z.of_nat (size m) then false else lazy_flag a).
  pose proof (grown_eq a first m) as Ea. cbv zeta in Ea |- *. rewrite Ea. fold z. clear Ea.
  assert (Hm : forall v q, m !! v = Some q -> first <= v < end_vpn a).
  { intros v q. subst m. destruct (decide (v = first)) as [-> |]; [intros; lia|]. rewrite lookup_insert_ne by done. intros Hq. apply (ao_frames a Haok) in Hq. apply in_area_spec in Hq. lia. }
  destruct (grown_insert (areas vs) k a first Hok Ha Hplain H0 E1 E3 m z Hm) as (l2 & -> & _ & _ & Hv2). cbn [mbind option_bind]. intros [= <-].
  pose proof (free_area_at _ a first first Hok E3 ltac:(lia)) as Hnone. split; cbn -[map_page].
  - intros u. unfold meta_at. rewrite Hv2. destruct (decide (first <= u < end_vpn a)) as [Hin|Hout].
    + rewrite (proj2 (Z.leb_le _ _)), (proj2 (Z.ltb_lt _ _)) by lia. cbn [andb]. destruct (decide (u < start_vpn a)) as [Hlo|Hhi].
      * right. unfold view at 1. rewrite (free_area_at _ a first u Hok E3) by lia. split; [done|]. intros i [= <-]. split; [exact Hg|]. exists (start_vpn a).
        unfold view. rewrite (area_at_unique (areas vs) a _ Hok (list_elem_of_lookup_2 _ _ _ Ha)) by (apply in_area_spec; lia). cbn. f_equal.
        destruct Hplain as [P1 P2]. unfold page_info, page_meta, with_frame. cbn. by rewrite P1, P2.
      * left. unfold view. rewrite (area_at_unique (areas vs) a u Hok (list_elem_of_lookup_2 _ _ _ Ha)) by (apply in_area_spec; lia). cbn. f_equal.
        destruct Hplain as [P1 P2]. unfold page_info, page_meta, with_frame. cbn. by rewrite P1, P2.
    + left. destruct (Z.leb_spec first u), (Z.ltb_spec u (end_vpn a)); cbn [andb]; try done. lia.
  - intros u e Hu Ht. unfold translate, map_page in *. by rewrite lookup_insert_ne.
  - by eapply fresh_kept.
  - intros e Ht. by rewrite unmapped_page in Ht.
Qed.

Lemma expand_or_fail_total va : 0 <= va -> exists st' r, expand_or_fail env va (get_st w vs) = Some (st', r) /\ gentle w vs (floor va) st'.
Proof.
  intros Hva. unfold expand_or_fail. destruct (expand_world_ok env w s vs Hw Hs He Hpl va Hva) as ([st1|] & E & _); rewrite E; cbn; eexists _, _; (split; [done|]).
  - by apply expand_gentle.
  - apply gentle_refl.
Qed.

(** A fault of the kernel never panics, and is gentle. *)
Lemma kernel_fault_total va access : exists st' r, fault_current_user_page env (strong_count w) va access (get_st w vs) = Some (st', r) /\ gentle w vs (floor va) st'.
Proof.
  unfold fault_current_user_page. case_raw Er; [eexists _, _; split; [done|apply gentle_refl]|]. apply orb_false_iff in Er as [Er _]. apply Z.ltb_ge in Er.
  assert (Hva : 0 <= va) by (unfold USER_FIRST in Er; lia). pose proof (vo_areas _ (sk_vm _ _ (Hw s vs Hs))) as Hok.
  destruct (handle_file_backed_page_fault_current _ _ _ _ _) as [[st1 r1]|] eqn:E; [eexists _, _; split; [done|by eapply file_gentle]|].
  unfold handle_store_page_fault_set. change (st_areas (get_st w vs)) with (areas vs). change (st_pt (get_st w vs)) with (page_table vs).
  assert (Hun : exists st' r, Some (handle_unalloc_page_fault env va access (get_st w vs)) = Some (st', r) /\ gentle w vs (floor va) st').
  { destruct (handle_unalloc_page_fault env va access (get_st w vs)) as [st1 r1] eqn:E1. eexists _, _. split; [done|by eapply unalloc_gentle]. }
  assert (Hsame : exists st' r, Some (get_st w vs, None : option PageFaultError) = Some (st', r) /\ gentle w vs (floor va) st') by (eexists _, _; split; [done|apply gentle_refl]).
  destruct (find_area (areas vs) va) as [a|] eqn:Ea; [|destruct access; [by apply expand_or_fail_total|by apply expand_or_fail_total|done]].
  destruct access; [by case_if| |done]. destruct (cow_flag a) eqn:Ec; [|by case_if]. destruct (translate _ _); [|done].
  destruct (handle_cow_page_fault env (strong_count w) va (get_st w vs)) as [st1 r1] eqn:E1. eexists _, _. split; [done|]. eapply cow_gentle; [|exact E1].
  intros b Hb. rewrite find_area_at in Ea by done. congruence.
Qed.
End Fault.

(** ** What stays *)

Lemma plain_view l : areas_ok l -> stacks_plain l <-> forall u i, view l u = Some i -> growable_page i = true -> plain_page i.
Proof.
  intros Hok. unfold stacks_plain. rewrite Forall_forall. split.
  - intros H u i Hv Hg. unfold view in Hv. destruct (area_at l u) as [a|] eqn:E; [|done]. apply area_at_Some in E as [Ha _]. injection Hv as <-.
    destruct (H a Ha Hg) as [P1 P2]. split; cbn; [by rewrite P1|by rewrite P2].
  - intros H a Ha Hg. pose proof (area_ok_vpn a (areas_ok_in _ _ Hok Ha)).
    destruct (H (start_vpn a) (page_info a (start_vpn a))) as [P1 P2]; [unfold view; rewrite (area_at_unique l a _ Hok Ha); [done|apply in_area_spec; lia]|done|].
    cbn in P1, P2. destruct (map_file a), (shared_anonymous a); done.
Qed.

(** What holds of all growable pages stays so. *)
Lemma gentle_growable (P : PageInfo -> Prop) w vs v st : (forall i o, P (with_frame o i) <-> P i) -> gentle w vs v st ->
  (forall u i, view (areas vs) u = Some i -> growable_page i = true -> P i) -> forall u i, view (areas (fs_vs st)) u = Some i -> growable_page i = true -> P i.
Proof.
  intros HP Hg Hold u i Hv Hgr. assert (Hi : meta_at (areas (fs_vs st)) u = Some (with_frame None i)) by (unfold meta_at; by rewrite Hv).
  assert (H : exists u', meta_at (areas vs) u' = Some (with_frame None i)).
  { destruct (gt_meta _ _ _ _ Hg u) as [E|[_ E]]; [exists u; congruence|by apply E]. }
  destruct H as [u' Hu]. unfold meta_at in Hu. destruct (view (areas vs) u') as [j|] eqn:Ej; [|done]. cbn in Hu. injection Hu as E. apply (HP i None). unfold with_frame at 1. cbn.
  assert (E' : with_frame None i = with_frame None j) by (unfold with_frame; cbn; congruence). fold (with_frame None i). rewrite E'. apply HP, (Hold u' j Ej).
  change (growable_page (with_frame None j) = true). by rewrite <- E'.
Qed.

Lemma gentle_plain w vs v st : areas_ok (areas vs) -> areas_ok (areas (fs_vs st)) -> gentle w vs v st -> stacks_plain (areas vs) -> stacks_plain (areas (fs_vs st)).
Proof. intros Hok Hok' Hg. rewrite !plain_view by done. by apply (gentle_growable plain_page w vs v). Qed.

(** * Copies *)

(** ** What a process sees *)

Definition byte_in w (p off : Z) : option Z := page_bytes w p !! Z.to_nat off.
Definition sees w (s va : Z) : option Z := vs ← vw_spaces w !! s; e ← translate (page_table vs) (floor va); byte_in w (pte_ppn e) (page_offset va).

(** The pages below [lo] keep their entries. *)
Record calm (s lo : Z) w vs w' vs' : Prop := {
  cm_to : vw_spaces w' !! s = Some vs';
  cm_steps : rtc vm_step w w';
  cm_ok : world_ok w';
  cm_plain : stacks_plain (areas vs');
  cm_held : vw_held w' = vw_held w;
  cm_others : forall t, t <> s -> vw_spaces w' !! t = vw_spaces w !! t;
  cm_meta : forall u, meta_at (areas vs') u = meta_at (areas vs) u \/ meta_at (areas vs) u = None;
  cm_growable : forall P : PageInfo -> Prop, (forall i o, P (with_frame o i) <-> P i) ->
    (forall u i, view (areas vs) u = Some i -> growable_page i = true -> P i) ->
    (forall u i, view (areas vs') u = Some i -> growable_page i = true -> P i) /\
    (forall u i, meta_at (areas vs) u = None -> view (areas vs') u = Some i -> P i);
  cm_entry : forall u e, u < lo -> translate (page_table vs) u = Some e -> translate (page_table vs') u = Some e;
  cm_bytes : forall u e, translate (page_table vs) u = Some e ->
    exists e', translate (page_table vs') u = Some e' /\ page_bytes w' (pte_ppn e') = page_bytes w (pte_ppn e);
  cm_mem : forall t ws u e, t <> s -> vw_spaces w !! t = Some ws -> translate (page_table ws) u = Some e -> vw_mem w' (pte_ppn e) = vw_mem w (pte_ppn e) }.

Lemma user_calm_refl s lo w vs : world_ok w -> vw_spaces w !! s = Some vs -> stacks_plain (areas vs) -> calm s lo w vs w vs.
Proof.
  intros Hw Hs Hp. split; try done; eauto. intros P _ HP. split; [done|]. intros u i Hn Hv. unfold meta_at in Hn. by rewrite Hv in Hn.
Qed.

Lemma user_calm_trans s lo lo' w vs w1 vs1 w2 vs2 : lo <= lo' -> calm s lo w vs w1 vs1 -> calm s lo' w1 vs1 w2 vs2 -> calm s lo w vs w2 vs2.
Proof.
  intros Hlo [A1 A2 A3 A4 A4' A5 A6 A7 A8 A9 A10] [B1 B2 B3 B4 B4' B5 B6 B7 B8 B9 B10]. split; try done.
  - by transitivity w1.
  - congruence.
  - intros t Ht. rewrite B5, A5 by done. done.
  - intros u. destruct (A6 u) as [E|E]; [|by right]. destruct (B6 u) as [E'|E']; [left; congruence|right; congruence].
  - intros P HP Hold. destruct (A7 P HP Hold) as [C1 C2]. destruct (B7 P HP C1) as [D1 D2]. split; [done|]. intros u i Hn Hv.
    destruct (view (areas vs1) u) as [j|] eqn:Ej.
    + assert (Hj : P j) by (by apply (C2 u j)). destruct (B6 u) as [E|E]; unfold meta_at in E; rewrite ?Hv, ?Ej in E; [|done]. cbn in E. injection E as E.
      apply (HP i None). assert (E' : with_frame None i = with_frame None j) by (unfold with_frame; congruence). rewrite E'. by apply HP.
    + apply (D2 u i); [unfold meta_at; by rewrite Ej|done].
  - intros u e Hu He. apply B8; [lia|]. by apply A8.
  - intros u e He. destruct (A9 u e He) as (e1 & H1 & H2). destruct (B9 u e1 H1) as (e2 & H3 & H4). exists e2. split; [done|congruence].
  - intros t ws u e Ht Hws He. rewrite (B10 t ws u e), (A10 t ws u e); try done. by rewrite A5.
Qed.

Lemma calm_sees s lo w vs w' vs' : vw_spaces w !! s = Some vs -> calm s lo w vs w' vs' -> forall t va x, sees w t va = Some x -> sees w' t va = Some x.
Proof.
  intros Hs C t va x. unfold sees. destruct (decide (t = s)) as [-> |Hne].
  - rewrite Hs, (cm_to _ _ _ _ _ _ C). cbn. destruct (translate (page_table vs) (floor va)) as [e|] eqn:Et; [|done]. cbn.
    destruct (cm_bytes _ _ _ _ _ _ C _ _ Et) as (e' & -> & E). cbn. unfold byte_in. by rewrite E.
  - rewrite (cm_others _ _ _ _ _ _ C t Hne). destruct (vw_spaces w !! t) as [ws|] eqn:Ew; [|done]. cbn. destruct (translate (page_table ws) (floor va)) as [e|] eqn:Et; [|done]. cbn.
    unfold byte_in, page_bytes. by rewrite (cm_mem _ _ _ _ _ _ C t ws _ e Hne Ew Et).
Qed.

(** ** The pieces of a range *)

Fixpoint chunks (fuel : nat) (start e : Z) : list (Z * Z * Z) :=
  if negb (start <? e) then []
  else match fuel with
  | O => []
  | S fuel =>
      let end_va := Z.min ((floor start + 1) * PAGE_SIZE) e in
      let hi := if page_offset end_va =? 0 then PAGE_SIZE else page_offset end_va in
      (floor start, page_offset start, hi) :: chunks fuel end_va e
  end.

Definition frame_of vs (u : Z) : Z := match translate (page_table vs) u with Some e => pte_ppn e | None => 0 end.
Definition chunk_slices (fr : Z -> Z) (cs : list (Z * Z * Z)) : list Slice := map (fun c => mkSlice (fr c.1.1) c.1.2 c.2) cs.

Lemma chunks_done fuel e : chunks fuel e e = [].
Proof. destruct fuel; cbn; by rewrite Z.ltb_irrefl. Qed.

(** One turn: the piece of the first page. *)
Lemma chunk_cases start e : start < e -> let u := floor start in let end_va := Z.min ((u + 1) * PAGE_SIZE) e in
  start < end_va <= e /\ page_offset start = start - u * PAGE_SIZE /\ 0 <= start - u * PAGE_SIZE /\ end_va <= (u + 1) * PAGE_SIZE /\
  (if page_offset end_va =? 0 then PAGE_SIZE else page_offset end_va) = end_va - u * PAGE_SIZE /\
  (forall va, start <= va < end_va -> floor va = u /\ page_offset va = va - u * PAGE_SIZE) /\
  (end_va = e \/ (floor end_va = u + 1 /\ end_va = (u + 1) * PAGE_SIZE)).
Proof.
  intros Hlt u end_va. assert (Hu : u * PAGE_SIZE <= start < (u + 1) * PAGE_SIZE) by (subst u; unfold floor, PAGE_SIZE; zlia).
  assert (Hva : forall va, start <= va < end_va -> floor va = u /\ page_offset va = va - u * PAGE_SIZE).
  { intros va Hv. subst end_va. rewrite page_offset_mod. unfold floor, PAGE_SIZE in *. zlia. }
  assert (Hend : start < end_va <= e) by (subst end_va; lia). split_and!; try lia; try done.
  - apply Hva. lia.
  - rewrite page_offset_mod. destruct (decide (end_va = (u + 1) * PAGE_SIZE)) as [-> |Hne]; [rewrite Z.mod_mul by done; cbn [Z.eqb]; lia|].
    assert (Hm : end_va mod PAGE_SIZE = end_va - u * PAGE_SIZE) by (subst end_va; unfold PAGE_SIZE in *; zlia). rewrite Hm. destruct (Z.eqb_spec (end_va - u * PAGE_SIZE) 0); lia.
  - destruct (decide (end_va = e)) as [|Hne]; [by left|right]. assert (E : end_va = (u + 1) * PAGE_SIZE) by (subst end_va; lia). rewrite E at 1. rewrite floor_page. done.
Qed.

(** ** Reading and writing the pieces *)

Lemma page_bytes_length w p : length (page_bytes w p) = Z.to_nat PAGE_SIZE.
Proof. apply copy_page_length. Qed.

Lemma write_slice_byte p lo hi bs w q off : 0 <= lo -> lo <= hi -> hi <= PAGE_SIZE -> length bs = Z.to_nat (hi - lo) -> 0 <= off ->
  byte_in (write_slice (mkSlice p lo hi) bs w) q off = if decide (q = p /\ lo <= off < hi) then bs !! Z.to_nat (off - lo) else byte_in w q off.
Proof.
  intros H1 H2 H3 H4 H5. unfold byte_in, write_slice, page_bytes at 1. cbn [sl_ppn sl_lo write_frame vw_mem]. destruct (decide (q = p)) as [-> |Hne].
  - rewrite fn_lookup_insert. assert (Hl : (Z.to_nat lo + length bs <= length (page_bytes w p))%nat) by (rewrite page_bytes_length; lia).
    rewrite copy_page_id by (rewrite splice_length by done; apply page_bytes_length). rewrite splice_lookup by done. repeat case_decide; try lia; [|done]. f_equal. lia.
  - rewrite fn_lookup_insert_ne by done. rewrite decide_False by tauto. done.
Qed.

(** No two addresses of the range show the same byte of memory. *)
Definition distinct_bytes (fr : Z -> Z) (start e : Z) : Prop :=
  forall x y, start <= x < e -> start <= y < e -> fr (floor x) = fr (floor y) -> page_offset x = page_offset y -> x = y.

Lemma copy_chunks fr fuel start e src copied w : (start < e -> Z.of_nat fuel >= ceil e - floor start) -> start <= e ->
  Z.of_nat (length src) = Z.of_nat copied + (e - start) ->
  exists w', copy_slices (chunk_slices fr (chunks fuel start e)) src copied w = Some w' /\
    (distinct_bytes fr start e -> forall va, start <= va < e -> byte_in w' (fr (floor va)) (page_offset va) = src !! (copied + Z.to_nat (va - start))%nat) /\
    (forall p off, 0 <= off -> (forall va, start <= va < e -> fr (floor va) = p -> page_offset va <> off) -> byte_in w' p off = byte_in w p off).
Proof.
  revert start copied w. induction fuel as [|fuel IH]; intros start copied w Hf Hle Hlen; cbn [chunks]; destruct (Z.ltb_spec start e) as [Hlt|Hge]; cbn [negb].
  2, 4: (exists w; split_and!; [done|intros; lia|done]).
  { exfalso. specialize (Hf Hlt). unfold ceil, floor, PAGE_SIZE in *. destruct (Z.eqb_spec e 0); zlia. }
  destruct (chunk_cases start e Hlt) as (C1 & C2 & C3 & C4 & -> & C6 & C7). cbv zeta in C1, C4, C6, C7 |- *. set (u := floor start) in *. set (end_va := Z.min _ e) in *.
  cbn [chunk_slices map copy_slices fst snd]. unfold slice_len. cbn [sl_hi sl_lo]. rewrite C2.
  assert (Hn : Z.to_nat (end_va - u * PAGE_SIZE - (start - u * PAGE_SIZE)) = Z.to_nat (end_va - start)) by lia. rewrite Hn. rewrite (proj2 (Nat.leb_le _ _)) by lia.
  set (bs := slice _ _ src). assert (Hbs : length bs = Z.to_nat (end_va - start)) by (subst bs; rewrite slice_length by lia; lia).
  destruct (IH end_va (copied + Z.to_nat (end_va - start))%nat (write_slice (mkSlice (fr u) (start - u * PAGE_SIZE) (end_va - u * PAGE_SIZE)) bs w)) as (w' & E & Hin & Hout).
  { intros Hx. destruct C7 as [E|[E _]]; lia. }
  { lia. }
  { lia. }
  assert (Hwr : forall q off, 0 <= off -> byte_in (write_slice (mkSlice (fr u) (start - u * PAGE_SIZE) (end_va - u * PAGE_SIZE)) bs w) q off =
    if decide (q = fr u /\ start - u * PAGE_SIZE <= off < end_va - u * PAGE_SIZE) then bs !! Z.to_nat (off - (start - u * PAGE_SIZE)) else byte_in w q off).
  { intros q off Ho. apply write_slice_byte; lia. }
  exists w'. split; [exact E|]. split.
  - intros Hd va Hva. destruct (Z.lt_ge_cases va end_va) as [Hlo|Hhi]; [|rewrite Hin by (lia || (intros x y Hx Hy; apply Hd; lia)); f_equal; lia].
    destruct (C6 va) as [F1 F2]; [lia|]. rewrite F1, F2, Hout, Hwr, decide_True by (try split; try done; lia || (intros y Hy G1 G2; assert (va = y); [|lia]; apply Hd; try lia; congruence)).
    subst bs. rewrite slice_lookup by lia. f_equal. lia.
  - intros p off Ho Hno. rewrite Hout, Hwr by (try done; intros; apply Hno; lia || done). rewrite decide_False; [done|]. intros [-> Hr].
    destruct (C6 (off + u * PAGE_SIZE)) as [F1 F2]; [lia|]. apply (Hno (off + u * PAGE_SIZE)); [lia|by rewrite F1|lia].
Qed.

Lemma read_chunks fr fuel start e w : (start < e -> Z.of_nat fuel >= ceil e - floor start) -> start <= e ->
  let bs := concat (map (read_slice w) (chunk_slices fr (chunks fuel start e))) in
  length bs = Z.to_nat (e - start) /\ forall va, start <= va < e -> bs !! Z.to_nat (va - start) = byte_in w (fr (floor va)) (page_offset va).
Proof.
  revert start. induction fuel as [|fuel IH]; intros start Hf Hle; cbn [chunks]; destruct (Z.ltb_spec start e) as [Hlt|Hge]; cbn [negb].
  2, 4: (cbn; split; [lia|intros; lia]).
  { exfalso. specialize (Hf Hlt). unfold ceil, floor, PAGE_SIZE in *. destruct (Z.eqb_spec e 0); zlia. }
  destruct (chunk_cases start e Hlt) as (C1 & C2 & C3 & C4 & -> & C6 & C7). cbv zeta in C1, C4, C6, C7 |- *. set (u := floor start) in *. set (end_va := Z.min _ e) in *.
  destruct (IH end_va) as [I1 I2]; [intros Hx; destruct C7 as [E|[E _]]; lia|lia|]. cbn [chunk_slices map concat fst snd]. fold (chunk_slices fr (chunks fuel end_va e)).
  set (rest := concat _) in *. unfold read_slice. cbn [sl_lo sl_hi sl_ppn]. rewrite C2.
  assert (Hl : length (slice (Z.to_nat (start - u * PAGE_SIZE)) (Z.to_nat (end_va - u * PAGE_SIZE)) (page_bytes w (fr u))) = Z.to_nat (end_va - start)) by (rewrite slice_length by (rewrite page_bytes_length; lia); lia).
  split; [rewrite length_app; lia|]. intros va Hva. destruct (Z.lt_ge_cases va end_va) as [Hlo|Hhi].
  - destruct (C6 va) as [F1 F2]; [lia|]. rewrite lookup_app_l by lia. rewrite slice_lookup by lia. unfold byte_in. rewrite F1, F2. f_equal. lia.
  - rewrite lookup_app_r by lia. rewrite Hl, <- (I2 va) by lia. f_equal. lia.
Qed.

Lemma copy_slices_steps s vs v src c w w' : vw_spaces w !! s = Some vs ->
  Forall (fun sl => exists u e, translate (page_table vs) u = Some e /\ acc_w (pte_acc e) = true /\ pte_ppn e = sl_ppn sl) v ->
  copy_slices v src c w = Some w' -> rtc vm_step w w' /\ vw_spaces w' = vw_spaces w.
Proof.
  revert c w. induction v as [|sl v IH]; intros c w Hs Hv; cbn [copy_slices]; [by intros [= <-]|]. inversion Hv as [|? ? (u & e & H1 & H2 & H3) Hv']; subst. case_if; [|done]. intros Ec.
  destruct (IH _ (write_slice sl _ w) Hs Hv' Ec) as [I1 I2]. split; [|done]. eapply rtc_l; [|exact I1]. unfold write_slice. rewrite <- H3. by eapply step_store.
Qed.

Section User.
Context (env_of : VmWorld -> FaultEnv) (s : Z) (Henv : forall w, env_ok w (env_of w)).

(** ** One page *)

Lemma denied_genuine w vs va access : world_ok w -> vw_spaces w !! s = Some vs -> allowed_entry vs va access = None -> genuine vs (floor va) access.
Proof.
  intros Hw Hs Hn a Ha Hc. pose proof (Hw s vs Hs) as [Hvm Hat _ Hse]. unfold entry_allows. unfold allowed_entry in Hn. destruct (translate (page_table vs) (floor va)) as [e|] eqn:Et; [|done].
  cbn in Hn. case_raw_in Hn E; [done|]. unfold pte_allows_access in E. pose proof (vo_mapped _ Hvm _ _ Et) as Hr. unfold resident in Hr. rewrite Ha in Hr. cbn in Hr.
  pose proof Et as [Hpt _]%translate_Some. destruct (Hse (floor va) (page_info a (floor va)) (pte_ppn e) (pte_acc e)) as (_ & _ & Hu); [unfold view; by rewrite Ha|done|by destruct e|].
  rewrite Forall_forall in Hat. pose proof Ha as [Hin _]%area_at_Some. cbn in Hu. pose proof (ak_user _ (Hat a Hin) (or_introl Hc)) as Hau. cbn in Hau.
  rewrite Hu, Hau in E. destruct access; exact E.
Qed.

Lemma fault_calm w vs va access : world_ok w -> vw_spaces w !! s = Some vs -> stacks_plain (areas vs) -> allowed_entry vs va access = None ->
  exists st r, fault_current_user_page (env_of w) (strong_count w) va access (get_st w vs) = Some (st, r) /\ calm s (floor va) w vs (put_st w s st) (fs_vs st).
Proof.
  intros Hw Hs Hp Hn. destruct (kernel_fault_total (env_of w) w s vs Hw Hs (Henv w) Hp va access) as (st & r & E & Hg). exists st, r. split; [done|].
  pose proof (denied_genuine w vs va access Hw Hs Hn) as Hgen.
  assert (Hstep : vm_step w (put_st w s st)) by (by eapply (step_kernel_fault w s vs (env_of w) va access st r)). pose proof (vm_step_ok _ _ Hw Hstep) as Hw'.
  assert (Hs' : vw_spaces (put_st w s st) !! s = Some (fs_vs st)) by apply lookup_insert_eq.
  pose proof (vo_areas _ (sk_vm _ _ (Hw s vs Hs))) as Hok. pose proof (vo_areas _ (sk_vm _ _ (Hw' s _ Hs'))) as Hok'. split; try done.
  - by apply rtc_once.
  - by apply (gentle_plain w vs (floor va) st).
  - intros t Ht. cbn. by rewrite lookup_insert_ne.
  - intros u. destruct (gt_meta _ _ _ _ Hg u) as [E'|[E' _]]; [by left|by right].
  - intros P HP Hold. pose proof (gentle_growable P w vs _ st HP Hg Hold) as Hnew. split; [done|]. intros u i Hm Hv.
    apply (Hnew u i Hv). destruct (gt_meta _ _ _ _ Hg u) as [E'|[_ E']]; [rewrite Hm in E'; unfold meta_at in E'; by rewrite Hv in E'|].
    change (growable_page (with_frame None i) = true). apply E'. unfold meta_at. by rewrite Hv.
  - intros u e Hu He. apply (gt_entry _ _ _ _ Hg); [lia|done].
  - intros u e He. destruct (decide (u = floor va)) as [-> |Hne]; [by apply (gt_same _ _ _ _ Hg)|].
    exists e. split; [by apply (gt_entry _ _ _ _ Hg)|]. unfold page_bytes. cbn. rewrite (gt_mem _ _ _ _ Hg); [done|]. by eapply mapped_count.
  - intros t ws u e Ht Hws He. cbn. apply (gt_mem _ _ _ _ Hg). by eapply (mapped_count w t ws Hw Hws).
Qed.

Lemma resolve_spec tries w vs va do_fault access : world_ok w -> vw_spaces w !! s = Some vs -> stacks_plain (areas vs) ->
  exists w' vs' r, resolve_attempts env_of s tries va do_fault access w = Some (w', r) /\ calm s (floor va) w vs w' vs' /\
    match r with Ok e => allowed_entry vs' va access = Some e | Err err => err = EFAULT end.
Proof.
  revert w vs. induction tries as [|tries IH]; intros w vs Hw Hs Hp; cbn [resolve_attempts]; rewrite Hs;
    destruct (allowed_entry vs va access) as [e|] eqn:Ea; try (eexists w, vs, (Ok e); split_and!; [done|by apply user_calm_refl|done]).
  - assert ((if negb do_fault then Some (w, Err EFAULT) else Some (w, Err EFAULT)) = Some (w, Err EFAULT : SysResult PTE)) as -> by (by case_if).
    eexists w, vs, (Err EFAULT). split_and!; [done|by apply user_calm_refl|done].
  - destruct do_fault; cbn [negb]; [|eexists w, vs, (Err EFAULT); split_and!; [done|by apply user_calm_refl|done]].
    destruct (fault_calm w vs va access Hw Hs Hp Ea) as (st & r & -> & C). cbn [mbind option_bind].
    assert (Hfail : exists w' vs' r', Some (put_st w s st, Err EFAULT : SysResult PTE) = Some (w', r') /\ calm s (floor va) w vs w' vs' /\ match r' with Ok e => allowed_entry vs' va access = Some e | Err err => err = EFAULT end)
      by (eexists _, (fs_vs st), (Err EFAULT); split_and!; done).
    destruct r as [[]|]; try exact Hfail. destruct (IH (put_st w s st) (fs_vs st) (cm_ok _ _ _ _ _ _ C) (cm_to _ _ _ _ _ _ C) (cm_plain _ _ _ _ _ _ C)) as (w' & vs' & r' & E & C' & Hr).
    exists w', vs', r'. split_and!; [done| |done]. by apply (user_calm_trans s _ (floor va) w vs (put_st w s st) (fs_vs st)).
Qed.

(** ** A range *)

Lemma allowed_floor vs va va' access : floor va = floor va' -> allowed_entry vs va access = allowed_entry vs va' access.
Proof. intros E. unfold allowed_entry. by rewrite E. Qed.

Lemma allowed_Some vs va access x : allowed_entry vs va access = Some x <-> translate (page_table vs) (floor va) = Some x /\ pte_allows_access x access = true.
Proof.
  unfold allowed_entry. destruct (translate _ _) as [y|]; cbn; [|by split; [|intros [? ?]]]. destruct (pte_allows_access y access) eqn:E; split; try done.
  - by intros [= <-].
  - by intros [[= <-] _].
  - intros [[= <-] ?]. congruence.
Qed.

Lemma translate_done fuel e do_fault access w v : translate_pages env_of s fuel e e do_fault access w v = Some (w, Ok v).
Proof. destruct fuel; cbn; by rewrite Z.ltb_irrefl. Qed.

Lemma translate_spec fuel start e do_fault access w vs acc : Z.of_nat fuel >= ceil e - floor start -> world_ok w -> vw_spaces w !! s = Some vs -> stacks_plain (areas vs) ->
  exists w' vs' r, translate_pages env_of s fuel start e do_fault access w acc = Some (w', r) /\ calm s (floor start) w vs w' vs' /\
    match r with
    | Ok v => v = acc ++ chunk_slices (frame_of vs') (chunks fuel start e) /\ forall va, start <= va < e -> is_Some (allowed_entry vs' va access)
    | Err err => err = EFAULT
    end.
Proof.
  revert start w vs acc. induction fuel as [|fuel IH]; intros start w vs acc Hf Hw Hs Hp; cbn [translate_pages chunks]; destruct (Z.ltb_spec start e) as [Hlt|Hge]; cbn [negb].
  2, 4: (eexists w, vs, (Ok acc); split_and!; [done|by apply user_calm_refl|cbn; by rewrite app_nil_r|intros; lia]).
  { exfalso. unfold ceil, floor, PAGE_SIZE in *. destruct (Z.eqb_spec e 0); zlia. }
  destruct (chunk_cases start e Hlt) as (C1 & C2 & C3 & C4 & -> & C6 & C7). cbv zeta in C1, C4, C6, C7 |- *. set (u := floor start) in *. set (end_va := Z.min _ e) in *.
  unfold resolve_user_pte. destruct (resolve_spec MAX_FAULT_TRANSITIONS w vs start do_fault access Hw Hs Hp) as (w1 & vs1 & r & -> & K1 & Hr). cbn [mbind option_bind]. fold u in K1.
  destruct r as [x|err]; [|eexists w1, vs1, (Err err); done].
  apply allowed_Some in Hr as [Hx1 Hx2]. fold u in Hx1.
  assert (Hhere : forall vs2, translate (page_table vs2) u = Some x -> frame_of vs2 u = pte_ppn x /\ forall va, start <= va < end_va -> is_Some (allowed_entry vs2 va access)).
  { intros vs2 Hx. split; [unfold frame_of; by rewrite Hx|]. intros va Hva. exists x. apply allowed_Some. by rewrite (proj1 (C6 va Hva)). }
  destruct C7 as [E|[E E2]].
  - rewrite E, translate_done, chunks_done. eexists w1, vs1, (Ok _). destruct (Hhere vs1 Hx1) as [F1 F2]. split_and!; [done|done|cbn; by rewrite F1|]. by rewrite <- E.
  - destruct (IH end_va w1 vs1 (acc ++ [mkSlice (pte_ppn x) (page_offset start) (end_va - u * PAGE_SIZE)])) as (w2 & vs2 & r & -> & K2 & Hr2);
      [lia|apply (cm_ok _ _ _ _ _ _ K1)|apply (cm_to _ _ _ _ _ _ K1)|apply (cm_plain _ _ _ _ _ _ K1)|].
    exists w2, vs2, r. split; [done|]. split; [apply (user_calm_trans s u (floor end_va) w vs w1 vs1); [lia|done|done]|]. destruct r as [v|err]; [|done]. destruct Hr2 as [-> Hall].
    destruct (Hhere vs2) as [F1 F2]; [apply (cm_entry _ _ _ _ _ _ K2); [lia|done]|]. split; [cbn; rewrite <- (assoc_L app); cbn; by rewrite F1|].
    intros va Hva. destruct (Z.lt_ge_cases va end_va); [apply F2; lia|apply Hall; lia].
Qed.

Lemma chunks_pages fuel start e c : c ∈ chunks fuel start e -> exists va, start <= va < e /\ floor va = c.1.1.
Proof.
  revert start. induction fuel as [|fuel IH]; intros start; cbn [chunks]; destruct (Z.ltb_spec start e) as [Hlt|Hge]; cbn [negb]; try (intros H; by apply elem_of_nil in H).
  destruct (chunk_cases start e Hlt) as (C1 & _). cbv zeta in C1. intros [-> |H]%elem_of_cons; [exists start; split; [lia|done]|]. destruct (IH _ H) as (va & H1 & H2). exists va. split; [lia|done].
Qed.

Definition range_turns (ptr len : Z) : nat := Z.to_nat (ceil (ptr + len) - floor ptr).

Lemma buffer_spec ptr len do_fault access w vs : 0 <= ptr -> 0 <= len -> world_ok w -> vw_spaces w !! s = Some vs -> stacks_plain (areas vs) ->
  exists w' vs' r, translated_byte_buffer_inner env_of s ptr len do_fault access w = Some (w', r) /\ calm s (floor ptr) w vs w' vs' /\
    match r with
    | Ok v => v = chunk_slices (frame_of vs') (chunks (range_turns ptr len) ptr (ptr + len)) /\ (forall va, ptr <= va < ptr + len -> is_Some (allowed_entry vs' va access))
    | Err err => err = EFAULT
    end.
Proof.
  intros H1 H2 Hw Hs Hp. unfold translated_byte_buffer_inner, checked_add. case_if; [|eexists w, vs, (Err EFAULT); split_and!; [done|by apply user_calm_refl|done]].
  assert (Hv : validate_user_copy_range ptr (ptr + len) = Ok tt \/ validate_user_copy_range ptr (ptr + len) = Err EFAULT) by (unfold validate_user_copy_range; repeat case_if; eauto).
  destruct Hv as [-> | ->]; [|eexists w, vs, (Err EFAULT); split_and!; [done|by apply user_calm_refl|done]].
  destruct (translate_spec (range_turns ptr len) ptr (ptr + len) do_fault access w vs []) as (w' & vs' & r & Et & C & Hr); try done; [unfold range_turns; lia|]. by exists w', vs', r.
Qed.

Lemma writable_slices vs start e fuel : (forall va, start <= va < e -> is_Some (allowed_entry vs va Write)) ->
  Forall (fun sl => exists u e, translate (page_table vs) u = Some e /\ acc_w (pte_acc e) = true /\ pte_ppn e = sl_ppn sl) (chunk_slices (frame_of vs) (chunks fuel start e)).
Proof.
  intros H. apply Forall_forall. intros sl Hsl. unfold chunk_slices in Hsl. apply list_elem_of_fmap in Hsl as (c & -> & Hc). apply chunks_pages in Hc as (va & Hva & <-). destruct (H va Hva) as [x Hx].
  apply allowed_Some in Hx as [X1 X2]. exists (floor va), x. split_and!; [done|by apply andb_true_iff in X2 as [_ ?]|]. cbn. unfold frame_of. by rewrite X1.
Qed.

(** A copy returns; it is faults followed by stores of the process. *)
Lemma copy_spec dst src w vs : 0 <= dst -> world_ok w -> vw_spaces w !! s = Some vs -> stacks_plain (areas vs) ->
  exists w1 vs1, calm s (floor dst) w vs w1 vs1 /\
    (copy_to_user env_of s dst src w = Some (w1, Err EFAULT) \/
     exists w', copy_to_user env_of s dst src w = Some (w', Ok (Z.of_nat (length src))) /\ rtc vm_step w1 w' /\ vw_spaces w' = vw_spaces w1 /\
       let e := dst + Z.of_nat (length src) in
       let fr := frame_of vs1 in
       (forall va, dst <= va < e -> is_Some (allowed_entry vs1 va Write)) /\
       (distinct_bytes fr dst e -> forall va, dst <= va < e -> byte_in w' (fr (floor va)) (page_offset va) = src !! Z.to_nat (va - dst)) /\
       (forall p off, 0 <= off -> (forall va, dst <= va < e -> fr (floor va) = p -> page_offset va <> off) -> byte_in w' p off = byte_in w1 p off)).
Proof.
  intros Hd Hw Hs Hp. destruct (buffer_spec dst (Z.of_nat (length src)) true Write w vs Hd ltac:(lia) Hw Hs Hp) as (w1 & vs1 & r & E & C & Hr). exists w1, vs1. split; [done|].
  unfold copy_to_user, translated_byte_buffer_for_write. rewrite E. cbn [mbind option_bind]. destruct r as [v|err]; [|left; by subst]. destruct Hr as [-> Hall]. right.
  destruct (copy_chunks (frame_of vs1) (range_turns dst (Z.of_nat (length src))) dst (dst + Z.of_nat (length src)) src 0 w1) as (w' & Ec & Hin & Hout); [unfold range_turns; lia|lia|lia|].
  rewrite Ec. cbn [mbind option_bind]. exists w'. split; [done|].
  destruct (copy_slices_steps s vs1 _ _ _ _ _ (cm_to _ _ _ _ _ _ C) (writable_slices _ _ _ _ Hall) Ec) as [S1 S2]. split_and!; done.
Qed.

(** ** When a translation succeeds *)

(** The area of the page gives the access to user mode, and there is what a fault needs. *)
Definition page_usable (env : FaultEnv) (i : PageInfo) (access : AccessType) : Prop :=
  acc_u (pg_perm i) = true /\ access_bit (pg_perm i) access = true /\ is_Some (fe_fresh env) /\
  forall f off, pg_file i = Some (f, off) -> off < fe_size env f /\ is_Some (fe_cache env f (off / PAGE_SIZE)) /\ fe_mark env f (off / PAGE_SIZE) = true.

Definition usable w vs (access : AccessType) (u : Z) : Prop :=
  forall w', vw_held w' = vw_held w -> exists i, view (areas vs) u = Some i /\ page_usable (env_of w') i access.

Lemma usable_calm lo w vs w' vs' access u : calm s lo w vs w' vs' -> usable w vs access u -> usable w' vs' access u.
Proof.
  intros C H w2 Hh. rewrite (cm_held _ _ _ _ _ _ C) in Hh. destruct (H w2 Hh) as (i & Hv & Hu). destruct (cm_meta _ _ _ _ _ _ C u) as [E|E]; unfold meta_at in E; rewrite Hv in E; [|done].
  destruct (view (areas vs') u) as [j|]; [|done]. exists j. split; [done|]. cbn in E. injection E as E1 _ _ E4 _ _ _ _ _ _. unfold page_usable. by rewrite E1, E4.
Qed.

Lemma fault_allows w vs va access : access <> Execute -> USER_FIRST <= va <= USER_LAST -> world_ok w -> vw_spaces w !! s = Some vs -> stacks_plain (areas vs) -> usable w vs access (floor va) ->
  allowed_entry vs va access = None -> exists st, fault_current_user_page (env_of w) (strong_count w) va access (get_st w vs) = Some (st, Some Normal) /\ is_Some (allowed_entry (fs_vs st) va access).
Proof.
  intros Hx Hu Hw Hs Hp Hus Hn. destruct (Hus w eq_refl) as (i & Hi & U1 & U2 & U3 & U4). unfold view in Hi. destruct (area_at (areas vs) (floor va)) as [a|] eqn:Ea; [|done]. injection Hi as <-.
  assert (Hres : resources (env_of w) a (floor va)) by (split; [done|]; intros f Hf; apply U4; cbn; by rewrite Hf).
  pose proof (Hw s vs Hs) as [Hvm _ _ Hse].
  assert (Hd : entry_allows (page_table vs) (floor va) access = false).
  { unfold entry_allows. destruct (translate (page_table vs) (floor va)) as [e|] eqn:Et; [|done]. pose proof (vo_mapped _ Hvm _ _ Et) as Hr. unfold resident in Hr. rewrite Ea in Hr.
    pose proof Et as [Hpt _]%translate_Some. destruct (Hse (floor va) (page_info a (floor va)) (pte_ppn e) (pte_acc e)) as (_ & _ & Hac); [unfold view; by rewrite Ea|done|by destruct e|].
    unfold allowed_entry in Hn. rewrite Et in Hn. cbn in Hn. case_raw_in Hn E; [done|]. unfold pte_allows_access in E. rewrite Hac, U1 in E. by destruct access. }
  destruct (kernel_fault_progress (env_of w) w s vs va a Hw Hs Ea Hres access Hx Hu U2 Hd) as (st & E & Hal). exists st. split; [done|].
  destruct (fault_calm w vs va access Hw Hs Hp Hn) as (st0 & r0 & E0 & C). assert (st0 = st) as -> by congruence. pose proof (cm_ok _ _ _ _ _ _ C s _ (cm_to _ _ _ _ _ _ C)) as [Hvm' _ _ Hse'].
  unfold entry_allows in Hal. destruct (translate (page_table (fs_vs st)) (floor va)) as [e|] eqn:Et; [|done]. exists e. apply allowed_Some. split; [done|].
  pose proof (vo_mapped _ Hvm' _ _ Et) as Hr. rewrite resident_view in Hr. destruct (view (areas (fs_vs st)) (floor va)) as [j|] eqn:Ej; [|done]. cbn in Hr. pose proof Et as [Hpt _]%translate_Some.
  destruct (Hse' (floor va) j (pte_ppn e) (pte_acc e) Ej Hr) as (_ & _ & Hac); [by destruct e|]. unfold pte_allows_access. rewrite Hac.
  destruct (usable_calm _ _ _ _ _ _ _ C Hus (put_st w s st) eq_refl) as (j' & Ej' & V1 & _). assert (j' = j) as -> by congruence. rewrite V1. by destruct access.
Qed.

Lemma resolve_ok n w vs va access w' r : access <> Execute -> USER_FIRST <= va <= USER_LAST -> world_ok w -> vw_spaces w !! s = Some vs -> stacks_plain (areas vs) -> usable w vs access (floor va) ->
  resolve_attempts env_of s (S n) va true access w = Some (w', r) -> exists e, r = Ok e.
Proof.
  intros Hx Hu Hw Hs Hp Hus. cbn [resolve_attempts]. rewrite Hs. destruct (allowed_entry vs va access) as [e|] eqn:Ea; [intros [= _ <-]; eauto|]. cbn [negb].
  destruct (fault_allows w vs va access Hx Hu Hw Hs Hp Hus Ea) as (st & -> & [e He]). cbn [mbind option_bind].
  assert (Hl : vw_spaces (put_st w s st) !! s = Some (fs_vs st)) by apply lookup_insert_eq. destruct n; cbn [resolve_attempts]; rewrite Hl, He; intros [= _ <-]; eauto.
Qed.

Lemma translate_ok fuel start e access w vs acc w' r : access <> Execute -> USER_FIRST <= start -> e <= USER_LAST + 1 -> Z.of_nat fuel >= ceil e - floor start ->
  world_ok w -> vw_spaces w !! s = Some vs -> stacks_plain (areas vs) -> (forall va, start <= va < e -> usable w vs access (floor va)) ->
  translate_pages env_of s fuel start e true access w acc = Some (w', r) -> exists v, r = Ok v.
Proof.
  intros Hx. revert start w vs acc. induction fuel as [|fuel IH]; intros start w vs acc Hst He Hf Hw Hs Hp Hus; cbn [translate_pages]; destruct (Z.ltb_spec start e) as [Hlt|Hge]; cbn [negb]; try (intros [= _ <-]; by eauto).
  destruct (chunk_cases start e Hlt) as (C1 & _ & _ & _ & _ & _ & C7). cbv zeta in C1, C7 |- *. set (end_va := Z.min _ e) in *.
  unfold resolve_user_pte. destruct (resolve_spec MAX_FAULT_TRANSITIONS w vs start true access Hw Hs Hp) as (w1 & vs1 & r1 & E1 & K1 & _). rewrite E1. cbn [mbind option_bind].
  destruct (resolve_ok 2 w vs start access w1 r1) as [x ->]; try done; [lia|apply Hus; lia|].
  destruct C7 as [E|[E _]]; [rewrite E, translate_done; intros [= _ <-]; eauto|].
  eapply (IH end_va w1 vs1); [lia|lia|lia|apply (cm_ok _ _ _ _ _ _ K1)|apply (cm_to _ _ _ _ _ _ K1)|apply (cm_plain _ _ _ _ _ _ K1)|].
  intros va Hva. eapply usable_calm; [exact K1|]. apply Hus. lia.
Qed.

(** ** Pages that need no fault *)

Lemma translate_static fuel start e do_fault access w vs acc : Z.of_nat fuel >= ceil e - floor start -> vw_spaces w !! s = Some vs -> (forall va, start <= va < e -> is_Some (allowed_entry vs va access)) ->
  translate_pages env_of s fuel start e do_fault access w acc = Some (w, Ok (acc ++ chunk_slices (frame_of vs) (chunks fuel start e))).
Proof.
  revert start acc. induction fuel as [|fuel IH]; intros start acc Hf Hs Hall; cbn [translate_pages chunks]; destruct (Z.ltb_spec start e) as [Hlt|Hge]; cbn [negb].
  2, 4: (cbn; by rewrite app_nil_r).
  { exfalso. unfold ceil, floor, PAGE_SIZE in *. destruct (Z.eqb_spec e 0); zlia. }
  destruct (chunk_cases start e Hlt) as (C1 & _ & _ & _ & _ & _ & C7). cbv zeta in C1, C7 |- *. set (end_va := Z.min _ e) in *. destruct (Hall start ltac:(lia)) as [x Hx].
  assert (Er : resolve_user_pte env_of s start do_fault access w = Some (w, Ok x)) by (unfold resolve_user_pte, MAX_FAULT_TRANSITIONS; cbn [resolve_attempts]; by rewrite Hs, Hx).
  rewrite Er. cbn [mbind option_bind]. apply allowed_Some in Hx as [X1 _]. assert (Ef : frame_of vs (floor start) = pte_ppn x) by (unfold frame_of; by rewrite X1).
  destruct C7 as [E|[E _]]; [rewrite E, translate_done, chunks_done; cbn; by rewrite Ef|]. rewrite IH; [|lia|done|intros; apply Hall; lia]. cbn. rewrite <- (assoc_L app). cbn. by rewrite Ef.
Qed.

Lemma buffer_static ptr len do_fault access w vs : 0 <= ptr -> 0 < len -> ptr + len <= USER_LAST + 1 -> vw_spaces w !! s = Some vs -> (forall va, ptr <= va < ptr + len -> is_Some (allowed_entry vs va access)) ->
  translated_byte_buffer_inner env_of s ptr len do_fault access w = Some (w, Ok (chunk_slices (frame_of vs) (chunks (range_turns ptr len) ptr (ptr + len)))).
Proof.
  intros H1 H2 H3 Hs Hall. unfold translated_byte_buffer_inner, checked_add, validate_user_copy_range, checked_sub.
  rewrite (proj2 (Z.ltb_lt _ _)) by (unfold USER_LAST in *; lia). rewrite (proj2 (Z.eqb_neq _ _)), (proj2 (Z.ltb_ge ptr USER_FIRST)), (proj2 (Z.leb_gt (ptr + len) ptr)), (proj2 (Z.leb_le 1 (ptr + len))) by (unfold USER_FIRST; lia).
  rewrite (proj2 (Z.ltb_ge _ _)) by lia. cbn [orb]. rewrite (translate_static _ _ _ _ _ w vs); [done|unfold range_turns; lia|done|done].
Qed.

(** ** Strings *)

Lemma sees_entry w vs va e : vw_spaces w !! s = Some vs -> translate (page_table vs) (floor va) = Some e -> sees w s va = Some (nth (Z.to_nat (page_offset va)) (page_bytes w (pte_ppn e)) 0).
Proof.
  intros Hs He. unfold sees. rewrite Hs. cbn. rewrite He. cbn. unfold byte_in. rewrite nth_lookup.
  destruct (page_bytes w (pte_ppn e) !! Z.to_nat (page_offset va)) as [x|] eqn:E; [done|]. apply lookup_ge_None in E. rewrite page_bytes_length, page_offset_mod in E. unfold PAGE_SIZE in E. zlia.
Qed.

Lemma string_spec fuel va acc w vs : Z.max 0 (USER_LAST + 1 - va) < Z.of_nat fuel -> 0 <= va -> world_ok w -> vw_spaces w !! s = Some vs -> stacks_plain (areas vs) ->
  exists w' vs' r, translated_str env_of s fuel va acc w = Some (w', r) /\ calm s 0 w vs w' vs' /\
    match r with
    | Ok bs => exists str, bs = acc ++ concat (map utf8 str) /\ (forall k x, str !! k = Some x -> x <> 0 /\ sees w' s (va + Z.of_nat k) = Some x) /\ sees w' s (va + Z.of_nat (length str)) = Some 0
    | Err err => err = EFAULT
    end.
Proof.
  revert va acc w vs. induction fuel as [|fuel IH]; intros va acc w vs Hf Hva Hw Hs Hp; cbn [translated_str]; [lia|].
  assert (Hfail : exists w' vs' r, Some (w, Err EFAULT : SysResult bytes) = Some (w', r) /\ calm s 0 w vs w' vs' /\
    match r with Ok bs => exists str, bs = acc ++ concat (map utf8 str) /\ (forall k x, str !! k = Some x -> x <> 0 /\ sees w' s (va + Z.of_nat k) = Some x) /\ sees w' s (va + Z.of_nat (length str)) = Some 0 | Err err => err = EFAULT end)
    by (eexists w, vs, (Err EFAULT); split_and!; [done|by apply user_calm_refl|done]).
  unfold checked_add. case_if; [|exact Hfail]. unfold validate_user_copy_range, checked_sub. rewrite (proj2 (Z.eqb_neq va (va + 1))), (proj2 (Z.leb_le 1 (va + 1))) by lia.
  destruct ((va <? USER_FIRST) || (va + 1 <=? va) || (USER_LAST <? va + 1 - 1)) eqn:Ev; [exact Hfail|]. rewrite !orb_false_iff in Ev. destruct Ev as ((_ & _) & Ev%Z.ltb_ge).
  unfold resolve_user_pte. destruct (resolve_spec MAX_FAULT_TRANSITIONS w vs va true Read Hw Hs Hp) as (w1 & vs1 & r & -> & K1 & Hr). cbn [mbind option_bind].
  assert (C1 : calm s 0 w vs w1 vs1) by (apply (user_calm_trans s 0 (floor va) w vs w vs); [unfold floor, PAGE_SIZE; zlia|by apply user_calm_refl|done]).
  destruct r as [x|err]; [|eexists w1, vs1, (Err err); done]. apply allowed_Some in Hr as [X1 _]. pose proof (sees_entry w1 vs1 va x (cm_to _ _ _ _ _ _ K1) X1) as Hsee. set (ch := nth _ _ _) in *.
  destruct (Z.eqb_spec ch 0) as [E0|E0].
  - eexists w1, vs1, (Ok acc). split_and!; [done|done|]. exists []. split_and!; [by cbn; rewrite app_nil_r|done|]. cbn. rewrite Z.add_0_r. congruence.
  - destruct (IH (va + 1) (acc ++ utf8 ch) w1 vs1) as (w2 & vs2 & r & -> & C2 & Hx); [lia|lia|apply (cm_ok _ _ _ _ _ _ K1)|apply (cm_to _ _ _ _ _ _ K1)|apply (cm_plain _ _ _ _ _ _ K1)|].
    eexists w2, vs2, r. split; [done|]. split; [apply (user_calm_trans s 0 0 w vs w1 vs1); [lia|done|done]|]. destruct r as [bs|err]; [|done]. destruct Hx as (str & -> & H1 & H2).
    exists (ch :: str). split_and!; [by rewrite <- (assoc_L app)| |].
    + intros [|k] y; cbn; [intros [= <-]|intros Hk].
      * split; [done|]. rewrite Z.add_0_r. by eapply (calm_sees s 0 w1 vs1); [apply (cm_to _ _ _ _ _ _ K1)|exact C2|].
      * destruct (H1 k y Hk) as [Y1 Y2]. split; [done|]. rewrite <- Y2. f_equal. lia.
    + cbn. rewrite <- H2. f_equal. lia.
Qed.
End User.
