(* ===== verification/VmUserSafe.v ===== *)
(** * Virtual memory: copies between the kernel and user memory, the theorems

    Copies in any reachable state: they are steps of the system, have their exact effect
    on what every process sees, and succeed where the areas allow the access.  In the example
    at the end the parent of a fork receives four bytes across a page boundary: its first page is
    copy-on-write, the second has no frame yet. *)

From Stdlib Require Import Sorted.
From stdpp Require Import gmap functions.
From S2P Require Import Prelude SysErr FrameAlloc Vm VmSpec VmSys VmMap VmProt VmProtSpec VmFault VmWorld VmCow VmFaultSpec VmFileFault VmGrow VmTrap VmMain VmWitness VmUser VmUserSpec.

Implicit Types a b : UserMapArea.
Implicit Types l : list UserMapArea.
Implicit Types vs : UserVMSet.
Implicit Types w : VmWorld.

(** The areas that the range meets, and the stacks that may grow into it, are private. *)
Definition private_range vs (start e : Z) : Prop :=
  (forall va a, start <= va < e -> find_area (areas vs) va = Some a -> shared_area a = false) /\
  Forall (fun a => growable a = true -> shared_area a = false) (areas vs).

(** A page of a private range is private after the faults too. *)
Lemma private_after s lo w vs w1 vs1 start e va i : areas_ok (areas vs) -> calm s lo w vs w1 vs1 -> private_range vs start e -> start <= va < e ->
  view (areas vs1) (floor va) = Some i -> shared_page i = false.
Proof.
  intros Hok C [Hr Hg] Hva Hv. destruct (view (areas vs) (floor va)) as [j|] eqn:Ej.
  - assert (Hj : shared_page j = false).
    { unfold view in Ej. destruct (area_at (areas vs) (floor va)) as [a|] eqn:Ea; [|done]. injection Ej as <-. apply (Hr va a Hva). by rewrite find_area_at. }
    destruct (cm_meta _ _ _ _ _ _ C (floor va)) as [E|E]; unfold meta_at in E; rewrite ?Hv, ?Ej in E; [|done]. cbn in E. injection E as _ E2 _ _ _ _ E7 _ _ _.
    unfold shared_page in *. by rewrite E2, E7.
  - apply (proj2 (cm_growable _ _ _ _ _ _ C (fun i => shared_page i = false) ltac:(done)
      ltac:(intros u k Hk Hgr; unfold view in Hk; destruct (area_at (areas vs) u) as [a|] eqn:Ea; [|done]; injection Hk as <-; apply area_at_Some in Ea as [Ea _]; rewrite Forall_forall in Hg; by apply Hg)) (floor va)); [|done].
    unfold meta_at. by rewrite Ej.
Qed.

(** The frames that a copy to a private range writes belong to one page each. *)
Lemma private_frames s lo w vs w1 vs1 start e va : areas_ok (areas vs) -> calm s lo w vs w1 vs1 -> private_range vs start e -> start <= va < e -> is_Some (allowed_entry vs1 va Write) ->
  resident (areas vs1) (floor va) = Some (frame_of vs1 (floor va)) /\ strong_count w1 (frame_of vs1 (floor va)) = 1.
Proof.
  intros Hok C Hp Hva [x Hx]. apply allowed_Some in Hx as [X1 X2]. apply andb_true_iff in X2 as [_ X2]. cbn in X2. pose proof (cm_ok _ _ _ _ _ _ C s vs1 (cm_to _ _ _ _ _ _ C)) as [Hvm _ Hso _].
  pose proof (vo_mapped _ Hvm _ _ X1) as Hr. unfold frame_of. rewrite X1. split; [done|]. rewrite resident_view in Hr. destruct (view (areas vs1) (floor va)) as [i|] eqn:Ei; [|done]. cbn in Hr.
  apply (proj2 (Hso (floor va) i (pte_ppn x) Ei Hr (private_after _ _ _ _ _ _ _ _ _ _ Hok C Hp Hva Ei)) x X1 X2).
Qed.

Lemma address_split va : va = floor va * PAGE_SIZE + page_offset va.
Proof. rewrite page_offset_mod. unfold floor, PAGE_SIZE. zlia. Qed.

(** C11: (functional) [copy_to_user] of any bytes to any range of private memory of a process
    returns, and what it does are page faults and stores of that process.  On success the
    process reads exactly the new bytes in the range, and every other byte that any process could
    read is as before; the only error is [EFAULT], and then nothing that any process could read
    has changed.  No other thread of the process runs meanwhile, growing areas of the process are
    anonymous and private ([stacks_plain], [private_range]), and the system is one that the steps of the
    model reach, without [brk], [mremap], [shmat] and [mlock] and without what the findings show to
    break copy-on-write ([mprotect] that makes a private file mapping writable, a fault on a
    copy-on-write page whose entry already gives the access, [MAP_FIXED] over a trap context): after
    those the copy can reach pages of others. *)
Theorem user_copy_exact env_of mem w s vs dst src : rtc vm_step (vm_init mem) w -> vw_spaces w !! s = Some vs -> stacks_plain (areas vs) -> (forall w, env_ok w (env_of w)) ->
  0 <= dst -> private_range vs dst (dst + Z.of_nat (length src)) ->
  exists w' r, copy_to_user env_of s dst src w = Some (w', r) /\ rtc vm_step w w' /\
    match r with
    | Ok n => n = Z.of_nat (length src) /\ (forall k x, src !! k = Some x -> sees w' s (dst + Z.of_nat k) = Some x) /\
        (forall t va x, ~ (t = s /\ dst <= va < dst + Z.of_nat (length src)) -> sees w t va = Some x -> sees w' t va = Some x)
    | Err err => err = EFAULT /\ forall t va x, sees w t va = Some x -> sees w' t va = Some x
    end.
Proof.
  intros Hr Hs Hpl He Hd Hpr. pose proof (vm_reachable_ok _ _ Hr) as Hw. pose proof (vo_areas _ (sk_vm _ _ (Hw s vs Hs))) as Hok.
  destruct (copy_spec env_of s He dst src w vs Hd Hw Hs Hpl) as (w1 & vs1 & C & [E|(w' & E & S1 & S2 & Hall & Hin & Hout)]).
  { exists w1, (Err EFAULT). split_and!; [done|apply C|done|]. by eapply calm_sees. }
  pose proof (cm_ok _ _ _ _ _ _ C) as Hw1. pose proof (cm_to _ _ _ _ _ _ C) as Hs1. pose proof (vo_areas _ (sk_vm _ _ (Hw1 s vs1 Hs1))) as Hok1.
  set (e := dst + Z.of_nat (length src)) in *. cbv zeta in Hall, Hin, Hout. set (fr := frame_of vs1) in *.
  assert (Hsole : forall va, dst <= va < e -> others w1 s (fr (floor va)) = 0 /\ forall u, resident (areas vs1) u = Some (fr (floor va)) -> u = floor va).
  { intros va Hva. destruct (private_frames _ _ _ _ _ _ _ _ va Hok C Hpr Hva (Hall va Hva)) as [F1 F2]. by apply sole_unique. }
  assert (Hdist : distinct_bytes fr dst e).
  { intros x y Hx Hy Ef Eo. destruct (private_frames _ _ _ _ _ _ _ _ y Hok C Hpr Hy (Hall y Hy)) as [F1 _]. fold fr in F1. rewrite <- Ef in F1.
    pose proof (proj2 (Hsole x Hx) _ F1) as Eu. rewrite (address_split x), (address_split y). congruence. }
  exists w', (Ok (Z.of_nat (length src))). split; [done|]. split; [transitivity w1; [apply C|done]|]. split; [done|]. split.
  - intros k x Hk. pose proof (lookup_lt_Some _ _ _ Hk) as Hlt. assert (Hva : dst <= dst + Z.of_nat k < e) by lia. destruct (Hall _ Hva) as [y Hy]. apply allowed_Some in Hy as [Y1 _].
    unfold sees. rewrite S2, Hs1. cbn. rewrite Y1. cbn. pose proof (Hin Hdist _ Hva) as H. unfold fr, frame_of in H. rewrite Y1 in H. rewrite H. rewrite <- Hk. f_equal. lia.
  - intros t va x Hno Hx. apply (calm_sees _ _ _ _ _ _ Hs C) in Hx. unfold sees in *. rewrite S2. destruct (vw_spaces w1 !! t) as [ws|] eqn:Ew; [|done]. cbn in *.
    destruct (translate (page_table ws) (floor va)) as [y|] eqn:Ey; [|done]. cbn in *. rewrite Hout; [done|rewrite page_offset_mod; unfold PAGE_SIZE; zlia|]. intros va' Hva' Ef Eo.
    destruct (Hsole va' Hva') as [G1 G2]. pose proof (vo_mapped _ (sk_vm _ _ (Hw1 t ws Ew)) _ _ Ey) as Hrt. rewrite <- Ef in Hrt. destruct (decide (t = s)) as [-> |Hne].
    + assert (ws = vs1) as -> by congruence. pose proof (G2 _ Hrt) as Eu. apply Hno. split; [done|]. rewrite (address_split va), Eu, <- Eo, <- address_split. done.
    + pose proof (others_other w1 s t vs1 ws _ _ ltac:(congruence) Hs1 Ew (vo_areas _ (sk_vm _ _ (Hw1 t ws Ew))) Hrt). lia.
Qed.

(** (functional) [read_user_bytes] on any range of any reachable process returns; what it does
    are page faults of that process, after which every process reads what it could read before.  On success the
    result is exactly the bytes of the range as the process reads them; the only error
    is [EFAULT]. *)
Theorem user_read_exact env_of mem w s vs ptr n : rtc vm_step (vm_init mem) w -> vw_spaces w !! s = Some vs -> stacks_plain (areas vs) -> (forall w, env_ok w (env_of w)) -> 0 <= ptr ->
  exists w' r, read_user_bytes env_of s ptr n w = Some (w', r) /\ rtc vm_step w w' /\ (forall t va x, sees w t va = Some x -> sees w' t va = Some x) /\
    match r with
    | Ok bs => length bs = n /\ forall k x, bs !! k = Some x -> sees w' s (ptr + Z.of_nat k) = Some x
    | Err err => err = EFAULT
    end.
Proof.
  intros Hr Hs Hpl He Hp. pose proof (vm_reachable_ok _ _ Hr) as Hw. unfold read_user_bytes. destruct (Nat.eqb_spec n 0) as [-> |Hn]; [by eexists w, (Ok [])|].
  destruct (buffer_spec env_of s He ptr (Z.of_nat n) true Read w vs Hp ltac:(lia) Hw Hs Hpl) as (w1 & vs1 & r & E & C & Hx). unfold translated_byte_buffer. rewrite E. cbn [mbind option_bind].
  eexists w1, _. split; [done|]. split; [apply C|]. split; [by eapply calm_sees|]. destruct r as [v|err]; [|done]. destruct Hx as [-> Hall].
  destruct (read_chunks (frame_of vs1) (range_turns ptr (Z.of_nat n)) ptr (ptr + Z.of_nat n) w1) as [L1 L2]; [unfold range_turns; lia|lia|]. cbv zeta in L1, L2. set (bs := concat _) in *.
  split; [lia|]. intros k x Hk. pose proof (lookup_lt_Some _ _ _ Hk) as Hlt. specialize (L2 (ptr + Z.of_nat k) ltac:(lia)). destruct (Hall (ptr + Z.of_nat k) ltac:(lia)) as [y Hy]. apply allowed_Some in Hy as [Y1 _].
  unfold sees. rewrite (cm_to _ _ _ _ _ _ C). cbn. rewrite Y1. cbn. unfold frame_of in L2. rewrite Y1 in L2. rewrite <- L2, <- Hk. f_equal. lia.
Qed.

(** A page that can be written can be read. *)
Lemma write_read w s vs va : world_ok w -> vw_spaces w !! s = Some vs -> is_Some (allowed_entry vs va Write) -> is_Some (allowed_entry vs va Read).
Proof.
  intros Hw Hs [x Hx]. apply allowed_Some in Hx as [X1 X2]. apply andb_true_iff in X2 as [X2 X3]. pose proof (Hw s vs Hs) as [Hvm _ _ Hse]. exists x. apply allowed_Some. split; [done|].
  pose proof (vo_mapped _ Hvm _ _ X1) as Hr. rewrite resident_view in Hr. destruct (view (areas vs) (floor va)) as [i|] eqn:Ei; [|done]. cbn in Hr. destruct (vo_access _ Hvm _ _ i X1 Ei) as (G1 & _).
  pose proof X1 as [Hpt _]%translate_Some. destruct (Hse (floor va) i (pte_ppn x) (pte_acc x) Ei Hr) as (S1 & _); [by destruct x|]. unfold pte_allows_access. rewrite X2. cbn in *. rewrite S1; [done|]. rewrite G1 by done. apply orb_true_r.
Qed.

Lemma copy_range env_of s dst src w w' n : src <> [] -> copy_to_user env_of s dst src w = Some (w', Ok n) -> dst + Z.of_nat (length src) <= USER_LAST + 1.
Proof.
  intros Hne. unfold copy_to_user, translated_byte_buffer_for_write, translated_byte_buffer_inner. assert (length src <> 0%nat) by (by intros ?%nil_length_inv).
  destruct (checked_add dst (Z.of_nat (length src))) as [e|] eqn:Ee; [|done]. unfold checked_add in Ee. case_if_in Ee; [|done]. injection Ee as <-.
  destruct (validate_user_copy_range dst (dst + Z.of_nat (length src))) eqn:Ev; [|done]. intros _. unfold validate_user_copy_range, checked_sub in Ev.
  rewrite (proj2 (Z.eqb_neq _ _)) in Ev by lia. destruct (Z.leb_spec 1 (dst + Z.of_nat (length src))), (Z.ltb_spec USER_LAST (dst + Z.of_nat (length src) - 1)); rewrite ?orb_true_r in Ev; try done; lia.
Qed.

Lemma short_distinct fr start e : e - start <= PAGE_SIZE -> distinct_bytes fr start e.
Proof.
  intros Hl x y Hx Hy _ Eo. pose proof (address_split x). pose proof (address_split y). unfold PAGE_SIZE in *. lia.
Qed.

(** C13: (roundtrip) What [copy_to_user] has stored for a process in any reachable state, in memory of any
    kind and at any alignment, is what [read_user_bytes] then returns, without another fault or
    any other change, for objects of up to a page. *)
Theorem user_copy_roundtrip env_of mem w s vs dst src w' n : rtc vm_step (vm_init mem) w -> vw_spaces w !! s = Some vs -> stacks_plain (areas vs) -> (forall w, env_ok w (env_of w)) ->
  0 <= dst -> Z.of_nat (length src) <= PAGE_SIZE -> copy_to_user env_of s dst src w = Some (w', Ok n) ->
  n = Z.of_nat (length src) /\ read_user_bytes env_of s dst (length src) w' = Some (w', Ok src).
Proof.
  intros Hr Hs Hpl He Hd Hlen Hc. pose proof (vm_reachable_ok _ _ Hr) as Hw.
  assert (Hrange : src <> [] -> dst + Z.of_nat (length src) <= USER_LAST + 1) by (intros Hne; by eapply copy_range).
  destruct (copy_spec env_of s He dst src w vs Hd Hw Hs Hpl) as (w1 & vs1 & C & [E|(w2 & E & S1 & S2 & Hall & Hin & _)]); rewrite E in Hc; [done|]. injection Hc as -> <-. split; [done|].
  cbv zeta in Hall, Hin. unfold read_user_bytes. destruct (Nat.eqb_spec (length src) 0) as [E0|E0]; [by apply nil_length_inv in E0 as ->|].
  pose proof (cm_to _ _ _ _ _ _ C) as Hs1. assert (Hs2 : vw_spaces w' !! s = Some vs1) by (by rewrite S2). unfold translated_byte_buffer.
  rewrite (buffer_static env_of s dst _ true Read w' vs1); [|done|lia|apply Hrange; by intros ->|done|intros va Hva; eapply (write_read w1 s); [apply C|done|by apply Hall]].
  cbn [mbind option_bind]. do 3 f_equal.
  destruct (read_chunks (frame_of vs1) (range_turns dst (Z.of_nat (length src))) dst (dst + Z.of_nat (length src)) w') as [L1 L2]; [unfold range_turns; lia|lia|]. cbv zeta in L1, L2.
  specialize (Hin (short_distinct (frame_of vs1) dst (dst + Z.of_nat (length src)) ltac:(lia))). set (bs := concat _) in *. apply list_eq. intros k. destruct (decide (k < length src)%nat) as [Hk|Hk].
  - specialize (L2 (dst + Z.of_nat k) ltac:(lia)). specialize (Hin (dst + Z.of_nat k) ltac:(lia)). rewrite Hin in L2. replace (Z.to_nat (dst + Z.of_nat k - dst)) with k in L2 by lia. done.
  - rewrite !lookup_ge_None_2 by lia. done.
Qed.

(** C12: (liveness) An access of the kernel to user memory in any reachable state succeeds when, at every
    address of the range, the area gives the access to user mode and the faults find a free
    frame and the pages of the files: the three transitions that the code allows are enough. *)
Theorem user_access_succeeds env_of mem w s vs ptr len access : rtc vm_step (vm_init mem) w -> vw_spaces w !! s = Some vs -> stacks_plain (areas vs) -> (forall w, env_ok w (env_of w)) ->
  access <> Execute -> 0 <= ptr -> 0 <= len -> ptr + len <= USER_LAST + 1 -> (forall va, ptr <= va < ptr + len -> usable env_of w vs access (floor va)) ->
  exists w' v, translated_byte_buffer_inner env_of s ptr len true access w = Some (w', Ok v).
Proof.
  intros Hr Hs Hpl He Hx H1 H2 H3 Hus. pose proof (vm_reachable_ok _ _ Hr) as Hw.
  destruct (buffer_spec env_of s He ptr len true access w vs H1 H2 Hw Hs Hpl) as (w' & vs' & r & E & _ & _). rewrite E. exists w'.
  assert (Hok : exists v, r = Ok v); [|destruct Hok as [v ->]; by exists v].
  unfold translated_byte_buffer_inner, checked_add in E. rewrite (proj2 (Z.ltb_lt _ _)) in E by (unfold USER_LAST in *; lia).
  assert (Hv : validate_user_copy_range ptr (ptr + len) = Ok tt).
  { unfold validate_user_copy_range, checked_sub. destruct (Z.eqb_spec ptr (ptr + len)); [done|]. rewrite (proj2 (Z.ltb_ge ptr USER_FIRST)), (proj2 (Z.leb_gt (ptr + len) ptr)), (proj2 (Z.leb_le 1 (ptr + len))), (proj2 (Z.ltb_ge _ _)) by (unfold USER_FIRST; lia). done. }
  rewrite Hv in E. apply (translate_ok env_of s He (range_turns ptr len) ptr (ptr + len) access w vs [] w' r); try done; unfold USER_FIRST, range_turns; lia.
Qed.

(** C14: (termination) [translated_str] on any address of a process
    returns after at most as many turns as
    there are user addresses from there on, whatever the memory holds; what it does are page faults, after which every
    process reads what it could read before.  On success there are bytes, none of them zero, that the process
    reads from the address on, followed by a zero byte, and the result is those bytes with each taken as
    a Latin-1 character and encoded in UTF-8 (one byte below 0x80, two from there on, as
    [String::push] of [ch as char] does); the only error is [EFAULT].  No other thread of the process
    runs meanwhile, areas that grow are anonymous and private ([stacks_plain]), and the system is one
    that the steps of the model reach. *)
Theorem user_string_exact env_of mem w s vs ptr fuel : rtc vm_step (vm_init mem) w -> vw_spaces w !! s = Some vs -> stacks_plain (areas vs) -> (forall w, env_ok w (env_of w)) -> 0 <= ptr ->
  Z.max 0 (USER_LAST + 1 - ptr) < Z.of_nat fuel ->
  exists w' r, translated_str env_of s fuel ptr [] w = Some (w', r) /\ rtc vm_step w w' /\ (forall t va x, sees w t va = Some x -> sees w' t va = Some x) /\
    match r with
    | Ok str => exists bs, str = concat (map utf8 bs) /\ (forall k x, bs !! k = Some x -> x <> 0 /\ sees w' s (ptr + Z.of_nat k) = Some x) /\
        sees w' s (ptr + Z.of_nat (length bs)) = Some 0
    | Err err => err = EFAULT
    end.
Proof.
  intros Hr Hs Hpl He Hp Hf. pose proof (vm_reachable_ok _ _ Hr) as Hw. destruct (string_spec env_of s He fuel ptr [] w vs Hf Hp Hw Hs Hpl) as (w' & vs' & r & E & C & Hx).
  exists w', r. split; [done|]. split; [apply C|]. split; [by eapply calm_sees|]. destruct r as [bs|err]; [|done]. destruct Hx as (str & -> & H1 & H2). by exists str.
Qed.

(** * Example *)

(** A number above all the frames in use. *)
Definition unused (w : VmWorld) : Z := 1 + foldr Z.max 0 (spaces_refs (vw_spaces w) ++ outside (vw_backings w) (vw_held w)).
Definition any_env (w : VmWorld) : FaultEnv := fresh_env (unused w).

Lemma any_env_ok w : env_ok w (any_env w).
Proof.
  split_and!; [|done|done]. intros p [= <-]. unfold strong_count, unused. set (ps := spaces_refs _ ++ _).
  assert (H : forall q, q ∈ ps -> q <= foldr Z.max 0 ps) by (induction ps as [|x ps IH]; intros q; [by intros ?%elem_of_nil|intros [-> |Hq]%elem_of_cons; cbn; [lia|specialize (IH q Hq); lia]]).
  destruct (Z.eq_dec (count (1 + foldr Z.max 0 ps) ps) 0) as [|Hne]; [done|]. pose proof (count_nonneg (1 + foldr Z.max 0 ps) ps).
  assert (1 + foldr Z.max 0 ps ∈ ps) as Hin%H by (apply count_pos; lia). lia.
Qed.

Lemma demo2_space : vw_spaces demo2 !! 1 = Some (space demo2 1).
Proof. vm_compute. reflexivity. Qed.

Lemma demo2_plain : stacks_plain (areas (space demo2 1)).
Proof. vm_compute. repeat constructor; done. Qed.

Lemma demo2_private : private_range (space demo2 1) 0x10ffe 0x11002.
Proof.
  split; [|vm_compute; repeat constructor; done]. intros va a Hva. rewrite find_area_at by (apply (vo_areas _ (sk_vm _ _ (vm_reachable_ok _ _ demo2_reach 1 _ demo2_space)))).
  intros [Ha Hin]%area_at_Some. assert (Hf : 16 <= floor va <= 17) by (unfold floor, PAGE_SIZE; zlia).
  assert (Hall : forallb (fun a => negb (shared_area a) || (32 <=? start_vpn a)) (areas (space demo2 1)) = true) by (vm_compute; reflexivity).
  rewrite forallb_forall in Hall. apply list_elem_of_In, Hall, orb_true_iff in Ha as [Hs%negb_true_iff|Hs%Z.leb_le]; [done|]. lia.
Qed.

Definition demo_copy := copy_to_user any_env 1 0x10ffe [1; 2; 3; 4] demo2.

Lemma user_copy_exact_witness : exists w', demo_copy = Some (w', Ok 4) /\ sees w' 1 0x10fff = Some 2 /\ sees w' 1 0x11001 = Some 4 /\ sees w' 2 0x10000 = sees demo2 2 0x10000.
Proof.
  destruct (user_copy_exact any_env demo_mem demo2 1 (space demo2 1) 0x10ffe [1; 2; 3; 4] demo2_reach demo2_space demo2_plain any_env_ok ltac:(lia) demo2_private) as (w' & r & E & _ & H).
  assert (Er : r = Ok 4) by (assert (Ec : option_map snd demo_copy = Some (Ok 4)) by (vm_compute; reflexivity); unfold demo_copy in Ec; rewrite E in Ec; by injection Ec).
  subst r. destruct H as (_ & H1 & H2). exists w'. split; [exact E|]. split; [exact (H1 1%nat 2 eq_refl)|]. split; [exact (H1 3%nat 4 eq_refl)|].
  assert (Hx : sees demo2 2 0x10000 = Some 0) by (vm_compute; reflexivity). rewrite Hx. apply (H2 2 0x10000 0); [lia|exact Hx].
Defined.

Lemma user_read_exact_witness : exists w' r, read_user_bytes any_env 1 0x10ffe 4 demo2 = Some (w', r) /\ sees w' 1 0x10000 = Some 0.
Proof.
  destruct (user_read_exact any_env demo_mem demo2 1 (space demo2 1) 0x10ffe 4 demo2_reach demo2_space demo2_plain any_env_ok ltac:(lia)) as (w' & r & E & _ & H & _).
  exists w', r. split; [exact E|]. apply H. vm_compute. reflexivity.
Defined.

Lemma user_copy_roundtrip_witness : exists w', demo_copy = Some (w', Ok 4) /\ read_user_bytes any_env 1 0x10ffe 4 w' = Some (w', Ok [1; 2; 3; 4]).
Proof.
  destruct demo_copy as [[w' r]|] eqn:E; [|exfalso; assert (Ec : option_map snd demo_copy = Some (Ok 4)) by (vm_compute; reflexivity); by rewrite E in Ec].
  assert (Er : r = Ok 4) by (assert (Ec : option_map snd demo_copy = Some (Ok 4)) by (vm_compute; reflexivity); rewrite E in Ec; by injection Ec).
  subst r. exists w'. split; [reflexivity|].
  exact (proj2 (user_copy_roundtrip any_env demo_mem demo2 1 (space demo2 1) 0x10ffe [1; 2; 3; 4] w' 4 demo2_reach demo2_space demo2_plain any_env_ok ltac:(lia) ltac:(vm_compute; discriminate) E)).
Defined.

Lemma demo2_usable va : 0x10ffe <= va < 0x11002 -> usable any_env demo2 (space demo2 1) Write (floor va).
Proof.
  intros Hva w' _. assert (Hf : floor va = 16 \/ floor va = 17) by (unfold floor, PAGE_SIZE; zlia).
  destruct Hf as [-> | ->]; (eexists; split; [vm_compute; reflexivity|]; split_and!; [reflexivity|reflexivity|by eexists|discriminate]).
Qed.

Lemma user_access_succeeds_witness : exists w' v, translated_byte_buffer_inner any_env 1 0x10ffe 4 true Write demo2 = Some (w', Ok v).
Proof.
  exact (user_access_succeeds any_env demo_mem demo2 1 (space demo2 1) 0x10ffe 4 Write demo2_reach demo2_space demo2_plain any_env_ok ltac:(discriminate) ltac:(lia) ltac:(lia) ltac:(vm_compute; discriminate) demo2_usable).
Defined.

Lemma string_fuel : Z.max 0 (USER_LAST + 1 - 0x10000) < Z.of_nat (Z.to_nat (USER_LAST + 1)).
Proof. unfold USER_LAST. lia. Qed.

Lemma user_string_exact_witness : exists fuel w' r, translated_str any_env 1 fuel 0x10000 [] demo2 = Some (w', r) /\ sees w' 2 0x10000 = Some 0.
Proof.
  destruct (user_string_exact any_env demo_mem demo2 1 (space demo2 1) 0x10000 (Z.to_nat (USER_LAST + 1)) demo2_reach demo2_space demo2_plain any_env_ok ltac:(lia) string_fuel) as (w' & r & E & _ & H & _).
  exists (Z.to_nat (USER_LAST + 1)), w', r. split; [exact E|]. apply H. vm_compute. reflexivity.
Defined.

(** The UTF-8 name of a file with one letter beyond ASCII (C3 A9) arrives as four
    bytes, so the kernel looks up another name than the one the process gave. *)
Example translated_str_reencodes :
  option_map snd (translated_str any_env 1 4 0x10000 [] (write_frame demo2 100 [0xC3; 0xA9; 0])) = Some (Ok [0xC3; 0x83; 0xC2; 0xA9]).
Proof. vm_compute. reflexivity. Qed.
